(* ===== verification/_CoqProject ===== *)
-Q . S2P
Prelude.v
CFloat.v
Speed.v
CString.v
PtraceMem.v
ProcFs.v
Inject.v
InjectLoads.v
CNumText.v
SpeedServer.v
SpeedClient.v
EpollServer.v
NativeClient.v
ElfTransaction.v
Bits.v
Search.v
Leb128.v
PointerSet.v
BitVector.v
Probing.v
DexFile.v
Hash.v
IndirectRefTable.v
AtomicCache.v
TypeCheck.v
InstanceofCache.v
RegTypes.v
RegMerge.v
OpcodeTables.v
InstrUtils.v
Opcodes.v
SwitchData.v
DexUtf.v
UtfString.v
DexDataMap.v
DexCatch.v
DexClass.v
DexSwapVerify.v
DexVerify.v
InsnFlags.v
VerifiedSwitch.v
VerifiedOperands.v
VerifiedMethod.v
RegLine.v
Signatures.v
VerifyInsn.v
CodeFlow.v
FlowSteps.v
FlowEnds.v
FlowFixpoint.v
VerifiedFlags.v
VerifiedTypes.v
RegisterMap.v
RegisterMapLines.v
HeapBitmap.v
CardTable.v
GcHeap.v
MarkSweep.v
GcMarking.v
GcScanning.v
GcOffsets.v
GcQueues.v
GcInvariant.v
GcPending.v
GcSteps.v
GcMark.v
GcReach.v
GcReferences.v
GcCollect.v
GcRescan.v
GcRescanned.v
GcThreads.v
GcConcurrent.v
GcExample.v
Sync.v
SyncLock.v
SyncSteps.v
SyncWait.v
SyncCorrect.v
SyncExample.v
