(* ===== verification/Prelude.v ===== *)
(** * elfupspeed: a verification development

    ** The program

    elfupspeed changes the speed of a running Android application. Its own code is
    a handful of C and C++ files in [src/jni/]; they work together as follows.

    - [elfinject.c] is a command. It looks up the target process by name, attaches
      to it with ptrace, makes it map memory and load the Substrate library and
      [speed.cpp] through remote calls of [mmap], [dlopen] and [dlsym], calls the
      library's entry point, puts the registers back and detaches.
    - [speed.cpp] is the injected library. Its entry point starts a thread, which
      replaces [gettimeofday] and [clock_gettime] by functions that scale the time
      elapsed since their last call, and runs the speed server.
    - [ElfIPCServer.cpp] is that server: it takes TCP connections on a port made
      from the number of the process, reads speeds as text, hands them to
      [SetTimeScale] and echoes them.
    - [serverClient.cpp] and [testclient.cpp] are the clients that send a speed.
    - [epollserver.cpp] and [client.c] are a second client and server pair: a chat
      room, and the native part of an application that sends it requests.
    - [ElfTransaction.cpp] replaces the Java objects behind the binders of
      services in a process it has been injected into.

    Beside them the repository holds two Android runtimes. [src/jni/dalvik] is C++
    like the program's own files and the one the injection and the hooking address;
    its tables and formats are modelled bottom up. [art-kitkat-mr1.1-release] is
    used by nothing.

    ** The files, and the code each one models

    Every definition keeps the name it has in the source where Rocq allows it.

    - [Prelude], [Bits]: machine integers ([wrapU], [wrapS], and [chkS], which is
      [None] where the language leaves overflow undefined), the bytes of an integer,
      positional notation; masks, shifts and sign extension. [Probing]: linear
      probing, shared by the two hash tables. [CFloat]: binary32 and binary64 on
      [SpecFloat]. [CString], [CNumText]: the string and number functions of the C
      library the sources call.
    - [Speed]: [speed.cpp]. [speed_state] has its globals (three pairs of saved
      and last readings, the factor, the hook flag, the code behind two symbols);
      [new_gettimeofday], [new_clock_gettime], [SetTimeScale] and [startServer] are
      the functions, [step] and [run] a history of their calls.
    - [PtraceMem], [ProcFs], [Inject], [InjectLoads]: [elfinject.c]. [PtraceText] and [PtraceCtl]
      are the interfaces to the kernel, [Abi] the two processors (Modules [Arm] and
      [X86]); [inject_remote_process] runs in a small monad whose exits are the
      [goto]s of the source, and [main] is the command.
    - [SpeedServer], [SpeedClient]: [ElfIPCServer.cpp]; [serverClient.cpp] and
      [testclient.cpp]. The results of the socket calls are the input, what is sent
      is part of the result.
    - [EpollServer]: [epollserver.cpp] with [local.h]. [NativeClient]: [client.c]
      with [message.h]. [ElfTransaction]: [ElfTransaction.cpp] with
      [DummyJavaBBinder.h].
    - [Leb128], [DexFile], [OpcodeTables], [InstrUtils], [DexUtf], [DexDataMap],
      [DexCatch], [DexClass]: the files of that name in [dalvik/libdex]; [Opcodes]
      is [DexOpcodes.h]. [PointerSet], [BitVector], [Hash], [IndirectRefTable],
      [UtfString]: the files of that name in [dalvik/vm]. [Search] is the binary
      search that try tables, section maps and switch tables share.
    - [SwitchData]: the switch handlers of [dalvik/vm/interp/Interp.cpp].
    - [AtomicCache]: [AtomicCache.cpp] and the lookup of its header, each access to
      shared memory a step of one of any number of threads. [TypeCheck]:
      [oo/TypeCheck.cpp] on a heap of linked classes; [InstanceofCache] is
      [dvmInstanceof] as it is, the type checks behind the cache.
    - [DexSwapVerify]: the code items of [dalvik/libdex/DexSwapVerify.cpp], their
      try tables and handler lists.
    - [DexVerify]: [dalvik/vm/analysis/DexVerify.cpp], the static passes of the
      bytecode verifier, on the tables, the decoder and the iterators above; a
      method is a record ([Method]) with its code item, the flags of its
      instructions a list. [InsnFlags], [VerifiedSwitch], [VerifiedOperands] and
      [VerifiedMethod] are their theory: where instructions start, accepted tables,
      accepted operands, accepted methods and the steps ([flow]) their code makes.
    - [RegTypes], [RegMerge], [RegLine], [Signatures], [VerifyInsn], [CodeFlow]:
      [dalvik/vm/analysis/CodeVerify.cpp], the code-flow pass. [RegTypes] has the
      types of one word and their tables, [RegMerge] references and the merge of any
      two types, [RegLine] what is known of all registers at an instruction and the
      operations on it, [Signatures] descriptors and the arguments of invocations,
      and [VerifyInsn] the effect of each group of instructions; resolution and
      class loading are an interface ([Resolution]). [CodeFlow] is the pass itself:
      the table of register lines, where control goes from an instruction, and the
      work list, whose number of turns ([run]) is the fuel. [FlowSteps],
      [FlowEnds] and [FlowFixpoint] are its theory: what one instruction does to the
      table, why the pass ends, and what it leaves behind. [VerifiedFlags] and
      [VerifiedTypes] put the passes of the verifier together.
    - [RegisterMap]: [dalvik/vm/analysis/RegisterMap.cpp], what the collector is told
      of the registers of a method: the generator, which reads the table of the
      code-flow pass, the differential format, and the search for a line; and
      [RegisterMapLines] relates what is found to the types in the table.
    - [HeapBitmap], [CardTable], [GcHeap], [MarkSweep]: the files of [dalvik/vm/alloc]
      of those names ([GcHeap] is what the collector reads of objects and classes, with
      [computeRefOffsets] of [oo/Class.cpp]; [MarkSweep] has parts of [HeapSource.cpp]
      and [Heap.cpp] too). [Gc] is the state of a collection: memory, both bitmaps, the
      mark stack, the finger, the lists of references. The theory goes up in small
      steps: [GcMarking] (strong references as a relation, the invariant of bitmaps
      and stack), [GcScanning] (scanning an object is marking the list of what it refers
      to), [GcOffsets] (the word with the offsets of references), [GcQueues] (what a
      store changes, circular queues), [GcInvariant] (the invariant [gc] of a
      collection), [GcPending] and [GcSteps] (it is kept), [GcMark] and [GcReach]
      (marking), [GcReferences] (reference objects), [GcCollect] (the sweep and the
      collection). [GcRescan] is the part of [MarkSweep.cpp] and
      [Heap.cpp] that serves a collection beside running threads: the scan with their
      stores in between, the second scan of the roots and of the objects on dirty cards;
      [GcRescanned] (the walk over the cards), [GcThreads] (stores keep the invariant)
      and [GcConcurrent] (the phases put together) are its theory. [GcExample] is a
      small heap.
    - [Sync]: [dalvik/vm/Sync.cpp], the monitors. The state is the lock word of an object,
      its monitor and the threads; each thread is at a [point] of one of the routines, and
      [thread_step] is its next access to what threads share. [SyncLock] has what the word
      and the monitor show and what each thread may claim of them, [SyncSteps]
      that every access keeps these claims, [SyncWait] the mutexes and wait sets of those
      who sleep, [SyncCorrect] what follows for a caller. [SyncExample] runs schedules.

    ** What the theorems show

    - The clock. [Speed.speed_refines_clocks]: whatever an abstract clock per
      source, on unbounded integers, can do over a history of reads and speed
      changes, the hooked functions do, with the same answers. From it: the times
      returned never go back; at the normal speed they are the real ones while
      readings are less than 2^24 microseconds apart, and not beyond; a slow clock
      that is polled fast stands still. The hooks are installed once, and the factor
      is given for every float.
    - The injection. Words written to the target are read back and nothing else
      changes; the calling sequences put arguments where the two processors expect
      them; remote calls return once the target stops; modules and processes are
      found from the text of the files in /proc; the library is opened and entered with
      the parameter ([InjectLoads.injection_loads]), and what follows is a call at an
      address of the injector, as which the injection ends; success leaves the target
      running on its registers, and every failure leaves it attached.
    - The protocol. [SpeedClient.speed_sent_is_set]: a speed sent by the client is the
      speed the server sets, whatever the cutting of the echo (through the printing and
      reading of decimals), when the server receives it in one piece; [upspeed] writes past
      its buffer before it sends anything, and texts that are not terminated are shown as
      such.
    - The room. [EpollServer.main_keeps_room]: the server refines an abstract
      room for every sequence of events in any grouping. [NativeClient]: over every
      history the client never reads an answer.
    - The binders. Exactly the named objects are replaced.
    - The tables and formats of Dalvik. Refinements: hash tables to bags, pointer
      sets to finite sets, bit vectors to sets of numbers, references to a partial
      map in which a removed reference never means anything again; the class table
      finds every class. Round trips: LEB128, and instructions in every format;
      the tables of the instruction set agree with one another and with the decoder.
      Classes, names, descriptors and strings are accepted exactly when they are
      texts of the grammar of the format.
    - The static passes. [VerifiedMethod.verified_operands]: what they accept has its
      operands in order, both registers of a pair included.

    - The types of registers. [RegTypes.conversions_exact]: what may be used as what
      is the inclusion of ranges. [RegTypes.merge_sound] and
      [RegMerge.merge_upper_bound]: a merge is above both of its types, by the values
      they stand for and by subtyping, and the narrowest such type of one word, with the
      merges that lose a sign named; nothing rises for ever. A right shift by a literal
      gives a type of the result. [FlowEnds.code_flow_ends]: the work list ends for every method,
      because lines only widen and marks move forward.
      [FlowFixpoint.verified_code_closed]: what it leaves is closed, from the types of
      the signature on, under the checks and effects of all instructions reached (those
      that may go to themselves pass with registers their lines have widened from).

    - The verifier as a whole. [VerifiedTypes.control_flow_safe] composes the checks of a
      code item, the static passes and the code-flow pass: no sequence of falls, branches,
      switches (as the interpreter carries them out) and exceptions (as the catch iterator
      finds handlers) leaves the starts of instructions, falls into a data table or runs
      past the end. [VerifiedTypes.reached_instructions_checked]: every instruction so
      reached passed its checks with the registers that the table gives for it. Neither
      follows an exception of [monitor-exit], since the pass does not.

    - Register maps. [RegisterMapLines.register_map_tells]: the collector finds, for
      every point at which it may run, which registers hold classes or instances not
      initialized yet in the line of the verifier, whether or not the map was compressed;
      [RegisterMap.compress_roundtrip]: compression stays within its buffer, makes a
      map smaller and loses nothing. Frames of 2041 to 2047 registers are shown to
      write past the end of the map.

    - The collector. [GcReach.marking_is_reachability]: what is marked is what can be
      reached. [GcCollect.references_are_processed]: after the processing of soft,
      weak, finalizer and phantom references nothing that is marked refers to something
      that is not. [GcCollect.collection_is_safe]: each object that is not marked is
      freed, once, and no pointer of what is left dangles.
      [GcConcurrent.concurrent_collection_is_safe]: the same when threads store to the
      heap between the scans of any two objects. The mark stack does not
      overflow when there is room for every object. [GcOffsets.linked_offsets_agree]
      and [CardTable.cards_track_writes]: the words that linking computes and the
      marks of the write barrier say what the collector takes them to say.

    - Monitors. [SyncCorrect.monitors_exclude]: for all interleavings one thread is inside
      at a time, no assertion fails, and the errors are those of the contract.
      [SyncCorrect.no_waiter_is_forgotten]: no wake-up is lost.
      [SyncCorrect.monitors_do_not_deadlock]: a blocked thread waits for one that can go on.

    - Threads. [AtomicCache.cache_answers] and [lookup_wait_free]: after any
      interleaving a lookup answers with the result of the calculation, and it ends
      whatever others do. [TypeCheck.instanceof_decides]: the type checks decide the
      subtyping of the Java language; [InstanceofCache.instanceof_threads] puts both
      together.

    Histories are sequences of calls in any order (reachability is by the runs of
    step functions), so what is shown holds after every prefix.

    ** Conventions, bounds and fuel

    A word of the code is a [Z] at its width. [None] is undefined behaviour, an
    access outside an object, or a failed assertion; theorems about results say when
    it does not occur. The targets are 32-bit: [long], [size_t] and pointers have 32
    bits. Loops whose recursion is not structural have fuel: the number of slots for
    a probe, of bytes for a scan, of words for a bit search, the number of stops the
    kernel reports for a remote call. The theorems about those functions show that
    this fuel is enough (for [wait_stopped] and the turns of the code-flow pass, that
    some fuel is), so no result rests on running out.

    What belongs to the kernel, the virtual machine, Substrate, and the results of
    system calls are parameters or data: named hypotheses or the laws of a class,
    each with an instance or a witness at which it holds.

    ** What is not modelled

    Log and console output; memory that cannot be allocated; the source that does
    not compile ([inject.cpp], with conflict markers); test mains; prebuilt
    libraries, headers of the platform, the second runtime. Of Dalvik: the parsing
    and verification of dex files other than of code items; of the code-flow pass the
    analysis of liveness and the reports of dead code (in [DexVerify.verifyMethod]
    the pass is a parameter); of register maps the files of all maps of a dex file and
    the statistics; of the collector where roots lie, the weak tables of the machine and
    the allocator below (in a concurrent collection the threads do not allocate, and
    store to fields only, not to elements of arrays; the scan of one object is one
    step); of the monitors memory that is not sequentially consistent, more than one
    object, sleeping, hash codes and the log of contended locks; the lists of threads and
    their suspension, the rest of the interpreters, compiler, class linking, JNI, debugger
    and tools.

    ** Order of the work

    The program's own files came first, all of them, then the tables and formats of
    Dalvik, then the static passes of the verifier. Then came
    code items, type checks and the cache of their answers, then the code-flow pass,
    register maps and the collector that reads them, and the monitors. *)

From Stdlib Require Export ZArith Lia Bool.
From stdpp Require Export base option list list_numbers gmap strings.
#[global] Open Scope Z_scope.

(** ** Machine integers

    A [w]-bit integer of the code is a [Z]; [wrapU]/[wrapS] write out the
    reduction the language performs when a value is stored into an unsigned or
    a signed object of that width (the targets of [jni/Application.mk] are two's
    complement), and [chkS] marks the signed overflow the language leaves
    undefined by [None]. *)
Module CInt.

Definition wrapU (w z : Z) : Z := z mod 2 ^ w.

Definition wrapS (w z : Z) : Z := (z + 2 ^ (w - 1)) mod 2 ^ w - 2 ^ (w - 1).

Definition inU (w z : Z) : Prop := 0 <= z < 2 ^ w.

Definition inS (w z : Z) : Prop := - 2 ^ (w - 1) <= z < 2 ^ (w - 1).

#[export] Instance inU_dec w z : Decision (inU w z).
Proof. unfold inU. apply _. Defined.

#[export] Instance inS_dec w z : Decision (inS w z).
Proof. unfold inS. apply _. Defined.

Definition chkS (w z : Z) : option Z := if decide (inS w z) then Some z else None.

End CInt.
Export CInt.

Abbreviation u8 := (wrapU 8).
Abbreviation u16 := (wrapU 16).
Abbreviation u32 := (wrapU 32).
Abbreviation u64 := (wrapU 64).
Abbreviation s32 := (wrapS 32).
Abbreviation s64 := (wrapS 64).

Create HintDb cint.
Create Rewrite HintDb cint_rw.

Section Wrapping.
Context (w : Z) (Hw : 0 < w).

Lemma pow2_pos : 0 < 2 ^ w.
Proof. apply Z.pow_pos_nonneg; lia. Qed.

Lemma pow2_half : 2 ^ w = 2 * 2 ^ (w - 1).
Proof. rewrite <- Z.pow_succ_r by lia. f_equal. lia. Qed.

Lemma wrapU_range z : inU w (wrapU w z).
Proof. unfold inU, wrapU. apply Z.mod_pos_bound, pow2_pos. Qed.

Lemma wrapS_range z : inS w (wrapS w z).
Proof.
  unfold inS, wrapS. pose proof pow2_half.
  pose proof (Z.mod_pos_bound (z + 2 ^ (w - 1)) (2 ^ w) pow2_pos). lia.
Qed.

Lemma wrapU_id z : inU w z -> wrapU w z = z.
Proof. intros. by apply Z.mod_small. Qed.

Lemma wrapS_id z : inS w z -> wrapS w z = z.
Proof.
  unfold inS, wrapS. intros. pose proof pow2_half. rewrite Z.mod_small by lia. lia.
Qed.

Lemma wrapS_wrapU z : wrapS w (wrapU w z) = wrapS w z.
Proof. unfold wrapS, wrapU. by rewrite Zplus_mod_idemp_l. Qed.

Lemma wrapU_wrapS z : wrapU w (wrapS w z) = wrapU w z.
Proof.
  unfold wrapS, wrapU. rewrite Zminus_mod_idemp_l. f_equal. lia.
Qed.

Lemma wrapU_wrapU z : wrapU w (wrapU w z) = wrapU w z.
Proof. apply wrapU_id, wrapU_range. Qed.

Lemma wrapU_sub_r a b : wrapU w (a - wrapU w b) = wrapU w (a - b).
Proof. unfold wrapU. by rewrite Zminus_mod_idemp_r. Qed.

Lemma wrapU_sub_l a b : wrapU w (wrapU w a - b) = wrapU w (a - b).
Proof. unfold wrapU. by rewrite Zminus_mod_idemp_l. Qed.

Lemma wrapU_add_l a b : wrapU w (wrapU w a + b) = wrapU w (a + b).
Proof. unfold wrapU. by rewrite Zplus_mod_idemp_l. Qed.

Lemma wrapU_add_r a b : wrapU w (a + wrapU w b) = wrapU w (a + b).
Proof. unfold wrapU. by rewrite Zplus_mod_idemp_r. Qed.

Lemma wrapU_eq_iff a b : wrapU w a = wrapU w b <-> (a - b) mod 2 ^ w = 0.
Proof. unfold wrapU. pose proof pow2_pos. apply Z.cong_iff_0. Qed.

Lemma chkS_Some z : inS w z -> chkS w z = Some z.
Proof. intros. unfold chkS. by rewrite decide_True. Qed.

Lemma chkS_inv z r : chkS w z = Some r -> r = z /\ inS w z.
Proof. unfold chkS. case_decide; naive_solver. Qed.
End Wrapping.

#[export] Hint Resolve wrapU_range wrapS_range : cint.
#[export] Hint Rewrite wrapU_wrapU wrapS_wrapU wrapU_wrapS wrapU_sub_l wrapU_sub_r
  wrapU_add_l wrapU_add_r using lia : cint_rw.

(** [cint_range] turns width predicates into the inequalities [lia] uses. *)
Ltac cint_range :=
  unfold inU, inS in *;
  repeat match goal with
  | H : context [2 ^ (?w - 1)] |- _ =>
      let e := eval vm_compute in (2 ^ (w - 1)) in change (2 ^ (w - 1)) with e in H
  | |- context [2 ^ (?w - 1)] =>
      let e := eval vm_compute in (2 ^ (w - 1)) in change (2 ^ (w - 1)) with e
  | H : context [2 ^ ?w] |- _ =>
      let e := eval vm_compute in (2 ^ w) in change (2 ^ w) with e in H
  | |- context [2 ^ ?w] =>
      let e := eval vm_compute in (2 ^ w) in change (2 ^ w) with e
  end; try lia.

(** ** Bytes of an integer, least significant first *)
Fixpoint le_bytes (n : nat) (z : Z) : list Z :=
  match n with
  | O => []
  | S n => z mod 256 :: le_bytes n (z / 256)
  end.

Fixpoint le_val (l : list Z) : Z :=
  match l with
  | [] => 0
  | b :: l => b + 256 * le_val l
  end.

Definition is_byte (b : Z) : Prop := 0 <= b < 256.

#[export] Instance is_byte_dec b : Decision (is_byte b).
Proof. unfold is_byte. apply _. Defined.

Lemma length_le_bytes n z : length (le_bytes n z) = n.
Proof. revert z. induction n; intros; simpl; [done|]. by rewrite IHn. Qed.

Lemma le_bytes_byte n z : Forall is_byte (le_bytes n z).
Proof.
  revert z. induction n; intros z; simpl; constructor; [|done].
  unfold is_byte. apply Z.mod_pos_bound. lia.
Qed.

Lemma le_val_bytes n z : le_val (le_bytes n z) = z mod 256 ^ Z.of_nat n.
Proof.
  revert z. induction n as [|n IH]; intros z; simpl.
  - by rewrite Z.mod_1_r.
  - rewrite IH, Nat2Z.inj_succ, Z.pow_succ_r by lia.
    rewrite Z.rem_mul_r by (try apply Z.pow_nonzero; lia). lia.
Qed.

Lemma le_bytes_val l : Forall is_byte l -> le_bytes (length l) (le_val l) = l.
Proof.
  induction 1 as [|b l Hb _ IH]; simpl; [done|]. unfold is_byte in Hb.
  replace (b + 256 * le_val l) with (b + le_val l * 256) by lia.
  rewrite Z.mod_add, Z.mod_small, Z.div_add, Z.div_small by lia. by rewrite Z.add_0_l, IH.
Qed.

Lemma le_bytes_val_n n l : Forall is_byte l -> length l = n -> le_bytes n (le_val l) = l.
Proof. intros ? <-. by apply le_bytes_val. Qed.

(** ** Positional notation *)
Fixpoint digits_aux (fuel : nat) (b n : Z) (acc : list Z) : list Z :=
  match fuel with
  | O => acc
  | S fuel => if n <? b then n :: acc else digits_aux fuel b (n / b) (n mod b :: acc)
  end.

(** The digits of [n] in base [b], most significant first. The number of bits
    bounds the number of digits in any base. *)
Definition digits (b n : Z) : list Z := digits_aux (S (Z.to_nat (Z.log2 n))) b n [].

Definition digits_val (b : Z) (ds : list Z) : Z := fold_left (fun v d => v * b + d) ds 0.

Definition is_digit_of (b d : Z) : Prop := 0 <= d < b.

Section Digits.
Context (b : Z) (Hb : 2 <= b).

Lemma digits_val_app_from v ds : fold_left (fun v d => v * b + d) ds v = v * b ^ Z.of_nat (length ds) + digits_val b ds.
Proof using.
  unfold digits_val. revert v. induction ds as [|d ds IH]; intros v; cbn [fold_left length].
  - simpl. lia.
  - rewrite IH, (IH (0 * b + d)), Nat2Z.inj_succ, Z.pow_succ_r by lia. ring.
Qed.

Lemma digits_aux_spec fuel n acc :
  0 <= n -> n < 2 ^ Z.of_nat fuel -> Forall (is_digit_of b) acc -> (0 < fuel)%nat ->
  exists d ds, digits_aux fuel b n acc = d :: ds ++ acc /\
    Forall (is_digit_of b) (d :: ds) /\ digits_val b (d :: ds) = n /\
    (0 < n -> 0 < d) /\ (S (length ds) <= fuel)%nat.
Proof using Hb.
  revert n acc. induction fuel as [|fuel IH]; intros n acc Hn Hf Hacc Hpos; [lia|].
  simpl. destruct (Z.ltb_spec n b) as [Hlt|Hge].
  - exists n, []. unfold is_digit_of, digits_val. simpl.
    split; [done|]. split; [repeat constructor; lia|]. lia.
  - assert (Hq : 0 < n / b) by (apply Z.div_str_pos; lia).
    assert (Hq2 : n / b < 2 ^ Z.of_nat fuel).
    { apply Z.div_lt_upper_bound; [lia|]. rewrite Nat2Z.inj_succ, Z.pow_succ_r in Hf by lia.
      pose proof (Z.pow_pos_nonneg 2 (Z.of_nat fuel)). nia. }
    pose proof (Z.mod_pos_bound n b ltac:(lia)) as Hm.
    assert (Hfuel : (0 < fuel)%nat) by (destruct fuel; [simpl in Hq2; lia|lia]).
    destruct (IH (n / b) (n mod b :: acc)) as (d & ds & E & Hds & Hv & Hd & Hl); try done; [lia|..].
    { constructor; [exact Hm|done]. }
    exists d, (ds ++ [n mod b]). rewrite E, <- app_assoc. split; [done|].
    split; [|split; [|split; [auto|]]].
    + inversion Hds; subst. constructor; [done|]. apply Forall_app. split; [done|]. by constructor.
    + unfold digits_val in *. rewrite app_comm_cons, fold_left_app, Hv. simpl.
      pose proof (Z_div_mod_eq_full n b). lia.
    + rewrite length_app. simpl. lia.
Qed.

Lemma digits_spec n : 0 <= n ->
  exists d ds, digits b n = d :: ds /\ Forall (is_digit_of b) (d :: ds) /\
    digits_val b (digits b n) = n /\ (0 < n -> 0 < d) /\
    (length (digits b n) <= S (Z.to_nat (Z.log2 n)))%nat.
Proof using Hb.
  intros Hn. unfold digits.
  destruct (digits_aux_spec (S (Z.to_nat (Z.log2 n))) n []) as (d & ds & E & Hds & Hv & Hd & Hl);
    try done; [|lia|].
  - rewrite Nat2Z.inj_succ, Z2Nat.id by apply Z.log2_nonneg.
    destruct (Z.eq_dec n 0) as [->|]; [vm_compute; reflexivity|]. apply Z.log2_spec. lia.
  - rewrite app_nil_r in E. exists d, ds. rewrite E. done.
Qed.

Lemma digits_val_digits n : 0 <= n -> digits_val b (digits b n) = n.
Proof using Hb. intros Hn. by destruct (digits_spec n Hn) as (? & ? & _ & _ & ? & _). Qed.

Lemma digits_Forall n : 0 <= n -> Forall (is_digit_of b) (digits b n).
Proof using Hb. intros Hn. by destruct (digits_spec n Hn) as (? & ? & -> & ? & _). Qed.

Lemma digits_not_nil n : 0 <= n -> digits b n <> [].
Proof using Hb. intros Hn. by destruct (digits_spec n Hn) as (? & ? & -> & _). Qed.

End Digits.
