(* ===== verification/CFloat.v ===== *)
(** * C floating point

    The IEEE-754 [float] and [double] of the code (binary32, binary64, round to
    nearest even), as instances of the Standard Library's executable
    [SpecFloat], the conversions between them and the integers, and the lemmas
    on exact products and on signs the clock and the speed protocol rest on. *)

From Stdlib Require Export SpecFloat.
From S2P Require Import Prelude.

(** ** Formats and conversions *)
Abbreviation cfloat := spec_float.

Section Format.
Context (prec emax : Z).

(** [(T) z] for an integer [z]. *)
Definition of_Z (z : Z) : cfloat := binary_normalize prec emax z 0 false.

(** A finite value of another format, rounded to this one. *)
Definition convert (x : cfloat) : cfloat :=
  match x with
  | S754_finite s m e => binary_round prec emax s m e
  | _ => x
  end.

(** The quotient of two positive integers, correctly rounded. *)
Definition of_ratio (s : bool) (a b : positive) : cfloat :=
  let '(m, e, l) := SFdiv_core_binary prec emax (Zpos a) 0 (Zpos b) 0 in
  binary_round_aux prec emax s m e l.

End Format.

(** The magnitude of [m * 2 ^ e], with its fractional part dropped. *)
Definition trunc_mag (m : positive) (e : Z) : Z :=
  if 0 <=? e then Zpos m * 2 ^ e else Zpos m / 2 ^ (- e).

(** The integral part of a finite value; infinities and NaN have none. *)
Definition trunc_Z (x : cfloat) : option Z :=
  match x with
  | S754_zero _ => Some 0
  | S754_finite s m e => Some (cond_Zopp s (trunc_mag m e))
  | S754_infinity _ | S754_nan => None
  end.

(** [(intW_t) x]: undefined ([None]) when the integral part does not fit. *)
Definition to_S (w : Z) (x : cfloat) : option Z := trunc_Z x ≫= chkS w.

Abbreviation f32_of_Z := (of_Z 24 128).
Abbreviation f32_mul := (SFmul 24 128).
Abbreviation f32_add := (SFadd 24 128).
Abbreviation f32_of_f64 := (convert 24 128).
Abbreviation f64_of_f32 := (convert 53 1024).

Definition f32_zero : cfloat := S754_zero false.
Definition f32_one : cfloat := f32_of_Z 1.

(** A number that is neither NaN nor has its sign bit set. *)
Definition nonneg (x : cfloat) : Prop :=
  match x with
  | S754_zero s | S754_infinity s | S754_finite s _ _ => s = false
  | S754_nan => False
  end.

#[export] Instance nonneg_dec x : Decision (nonneg x).
Proof. destruct x; simpl; apply _. Defined.

(** ** Digits and shifts *)

Lemma digits2_pos_log2 p : Zpos (digits2_pos p) = Z.log2 (Zpos p) + 1.
Proof.
  assert (H : digits2_pos p = Pos.size p) by (induction p; simpl; congruence).
  rewrite H. destruct p; simpl; lia.
Qed.

Lemma iter_pos_nat {A} (f : A -> A) p : forall x, SpecFloat.iter_pos f p x = Nat.iter (Pos.to_nat p) f x.
Proof.
  induction p as [p IH|p IH|]; intros x; cbn [SpecFloat.iter_pos]; [..|done]; rewrite !IH.
  - by rewrite <- Nat.iter_add, <- Nat.iter_succ_r, Pos2Nat.inj_xI, Nat.mul_comm, Nat.mul_succ_r, Nat.mul_1_r.
  - by rewrite <- Nat.iter_add, Pos2Nat.inj_xO, Nat.mul_comm, Nat.mul_succ_r, Nat.mul_1_r.
Qed.

Lemma pos_iter_xO p d : Zpos (Pos.iter xO p d) = Zpos p * 2 ^ Zpos d.
Proof.
  revert p. induction d as [|d IH] using Pos.peano_ind; intros p.
  - simpl. lia.
  - rewrite Pos.iter_succ. replace (2 ^ Zpos (Pos.succ d)) with (2 * 2 ^ Zpos d)
      by (rewrite Pos2Z.inj_succ, Z.pow_succ_r by lia; done).
    rewrite Pos2Z.inj_xO, IH. ring.
Qed.

Definition exact_shr (z : Z) : shr_record := Build_shr_record z false false.

Lemma shr_1_double q : 0 <= q -> shr_1 (exact_shr (2 * q)) = exact_shr q.
Proof. destruct q; simpl; done || lia. Qed.

Lemma shr_iter_exact n q :
  0 <= q -> Nat.iter n shr_1 (exact_shr (q * 2 ^ Z.of_nat n)) = exact_shr q.
Proof.
  intros Hq. revert q Hq. induction n as [|n IH]; intros q Hq.
  - simpl. by rewrite Z.mul_1_r.
  - rewrite Nat.iter_succ_r. rewrite Nat2Z.inj_succ, Z.pow_succ_r by lia.
    replace (q * (2 * 2 ^ Z.of_nat n)) with (2 * (q * 2 ^ Z.of_nat n)) by ring.
    rewrite shr_1_double by (apply Z.mul_nonneg_nonneg; lia || by apply Z.pow_nonneg).
    by apply IH.
Qed.

Lemma shr_exact q e n : 0 <= q -> 0 <= n -> shr (exact_shr (q * 2 ^ n)) e n = (exact_shr q, e + n).
Proof.
  intros Hq Hn. destruct n as [|p|p]; [|simpl|lia].
  - simpl. rewrite Z.mul_1_r. f_equal. lia.
  - rewrite iter_pos_nat. f_equal.
    replace (2 ^ Z.pos p) with (2 ^ Z.of_nat (Pos.to_nat p)) by (f_equal; lia).
    by apply shr_iter_exact.
Qed.

Lemma shr_none mrs e n : n <= 0 -> shr mrs e n = (mrs, e).
Proof. destruct n; simpl; done || lia. Qed.

Lemma log2_scale z k : 0 < z -> 0 <= k -> Z.log2 (z * 2 ^ k) = Z.log2 z + k.
Proof. intros. rewrite Z.log2_mul_pow2; lia. Qed.

(** ** Exact rounding

    An integer whose digits fit the precision has one canonical representation;
    rounding any representation of it gives that one, so it is stored, converted
    to a wider or narrower format, multiplied and divided without error. *)

(** The canonical mantissa of [z] at precision [prec]. *)
Definition canon (prec z : Z) : positive := Z.to_pos (z * 2 ^ (prec - 1 - Z.log2 z)).

Definition canon_float (prec : Z) (s : bool) (z : Z) : cfloat :=
  S754_finite s (canon prec z) (Z.log2 z + 1 - prec).

Section Exact.
Context (prec emax : Z) (Hprec : 1 < prec) (Hemax : prec < emax).

Lemma fexp_int d : 0 <= d -> fexp prec emax d = d - prec.
Proof using Hprec Hemax. unfold fexp, emin. lia. Qed.

Lemma canon_pos z : 0 < z -> Z.log2 z < prec -> Zpos (canon prec z) = z * 2 ^ (prec - 1 - Z.log2 z).
Proof using.
  intros Hz Hl. unfold canon. rewrite Z2Pos.id; [done|].
  apply Z.mul_pos_pos; [done|]. apply Z.pow_pos_nonneg; lia.
Qed.

Lemma Zdigits2_log2 m : 0 < m -> Zdigits2 m = Z.log2 m + 1.
Proof using. destruct m as [|p|p]; [lia| |lia]. intros _. apply digits2_pos_log2. Qed.

Lemma canon_log2 z : 0 < z -> Z.log2 z < prec -> Z.log2 (Zpos (canon prec z)) = prec - 1.
Proof using. intros Hz Hl. rewrite canon_pos, log2_scale by lia. lia. Qed.

Lemma canon_stable s z : 0 < z -> Z.log2 z < prec ->
  binary_round_aux prec emax s (Zpos (canon prec z)) (Z.log2 z + 1 - prec) loc_Exact =
    canon_float prec s z.
Proof using Hprec Hemax.
  intros Hz Hl. pose proof (Z.log2_nonneg z). unfold binary_round_aux, shr_fexp.
  rewrite Zdigits2_log2, canon_log2, fexp_int by lia. rewrite shr_none by lia.
  cbn [shr_record_of_loc shr_m loc_of_shr_record round_nearest_even].
  rewrite Zdigits2_log2, canon_log2, fexp_int by lia. rewrite shr_none by lia.
  cbn [shr_record_of_loc shr_m].
  destruct (Z.leb_spec (Z.log2 z + 1 - prec) (emax - prec)); [done|lia].
Qed.

(** Rounding [z * 2 ^ k * 2 ^ -k] with at least [prec] digits. *)
Lemma round_aux_canon s z k :
  0 < z -> Z.log2 z < prec -> prec <= Z.log2 z + k + 1 ->
  binary_round_aux prec emax s (z * 2 ^ k) (- k) loc_Exact = canon_float prec s z.
Proof using Hprec Hemax.
  intros Hz Hl Hk. pose proof (Z.log2_nonneg z).
  set (n := Z.log2 z + k + 1 - prec).
  assert (E : z * 2 ^ k = Zpos (canon prec z) * 2 ^ n).
  { rewrite canon_pos by done. rewrite <- Z.mul_assoc, <- Z.pow_add_r by lia. do 2 f_equal. lia. }
  rewrite <- (canon_stable s z Hz Hl). unfold binary_round_aux at 1, shr_fexp at 1.
  rewrite Zdigits2_log2 by (apply Z.mul_pos_pos; [done|apply Z.pow_pos_nonneg; lia]).
  rewrite log2_scale, fexp_int by lia. rewrite E. cbn [shr_record_of_loc].
  replace (Z.log2 z + k + 1 + - k - prec - - k) with n by lia.
  fold (exact_shr (Zpos (canon prec z) * 2 ^ n)). rewrite shr_exact by lia.
  unfold binary_round_aux at 1, shr_fexp at 2.
  rewrite (Zdigits2_log2 (Zpos (canon prec z))), canon_log2, fexp_int by lia.
  rewrite shr_none by lia. replace (- k + n) with (Z.log2 z + 1 - prec) by lia. done.
Qed.

(** Rounding any finite number equal to [z]. *)
Lemma round_canon s z k p :
  0 < z -> Z.log2 z < prec -> 0 <= k -> Zpos p = z * 2 ^ k ->
  binary_round prec emax s p (- k) = canon_float prec s z.
Proof using Hprec Hemax.
  intros Hz Hl Hk Hp. pose proof (Z.log2_nonneg z). unfold binary_round.
  rewrite digits2_pos_log2, Hp, log2_scale, fexp_int by lia. unfold shl_align.
  replace (Z.log2 z + k + 1 + - k - prec - - k) with (Z.log2 z + 1 - prec + k) by lia.
  destruct (Z.log2 z + 1 - prec + k) as [|d|d] eqn:E.
  - rewrite Hp. apply round_aux_canon; lia.
  - rewrite Hp. apply round_aux_canon; lia.
  - replace (Z.log2 z + k + 1 + - k - prec) with (- (k + Zpos d)) by lia.
    replace (Zpos (Pos.iter xO p d)) with (z * 2 ^ (k + Zpos d))
      by (rewrite pos_iter_xO, Hp, Z.pow_add_r by lia; ring).
    apply round_aux_canon; lia.
Qed.

Lemma of_Z_canon z : 0 < z -> Z.log2 z < prec -> of_Z prec emax z = canon_float prec false z.
Proof using Hprec Hemax.
  intros Hz Hl. destruct z as [|p|p]; [lia| |lia]. apply (round_canon false _ 0); rewrite ?Z.pow_0_r; lia.
Qed.

(** The quotient of a multiple. *)
Lemma of_ratio_canon s z a b :
  0 < z -> Z.log2 z < prec -> Zpos a = z * Zpos b ->
  of_ratio prec emax s a b = canon_float prec s z.
Proof using Hprec Hemax.
  intros Hz Hl Ha. pose proof (Z.log2_nonneg z). pose proof (Z.log2_nonneg (Zpos b)).
  unfold of_ratio, SFdiv_core_binary.
  rewrite !Zdigits2_log2 by lia.
  assert (Hd : Z.log2 z + Z.log2 (Zpos b) <= Z.log2 (Zpos a) <= Z.log2 z + Z.log2 (Zpos b) + 1)
    by (rewrite Ha; split; [apply Z.log2_mul_below|apply Z.log2_mul_above]; lia).
  rewrite fexp_int by lia. rewrite !Z.add_0_r, Z.sub_diag.
  set (e' := Z.min _ 0). assert (He : e' <= 0) by lia.
  assert (Hm : match 0 - e' with Z0 => Zpos a | Zpos _ => Z.shiftl (Zpos a) (0 - e') | Zneg _ => 0 end
    = z * 2 ^ (- e') * Zpos b).
  { rewrite Ha. destruct (0 - e') as [|d|d] eqn:E; [..|lia].
    - replace (- e') with 0 by lia. rewrite Z.pow_0_r. lia.
    - rewrite Z.shiftl_mul_pow2 by lia. replace (- e') with (Zpos d) by lia. ring. }
  rewrite Hm. pose proof (Z_div_mult_full (z * 2 ^ (- e')) (Zpos b) ltac:(lia)) as Hq.
  pose proof (Z_mod_mult (z * 2 ^ (- e')) (Zpos b)) as Hr.
  unfold Z.div in Hq. unfold Z.modulo in Hr.
  destruct (Z.div_eucl _ _) as [q r]. subst q r.
  assert (Hloc : new_location (Zpos b) 0 = loc_Exact) by (unfold new_location; by destruct (Z.even _)).
  rewrite Hloc. replace e' with (- - e') at 2 by lia. apply round_aux_canon; lia.
Qed.

(** Two integers whose product fits the precision multiply exactly. *)
Lemma SFmul_canon a b :
  0 < a -> 0 < b -> Z.log2 (a * b) < prec ->
  SFmul prec emax (of_Z prec emax a) (of_Z prec emax b) = of_Z prec emax (a * b).
Proof using Hprec Hemax.
  intros Ha Hb Hab. pose proof (Z.log2_nonneg a). pose proof (Z.log2_nonneg b).
  pose proof (Z.log2_mul_below a b Ha Hb) as Hlow.
  rewrite !of_Z_canon by nia. unfold canon_float at 1 2. cbn [SFmul xorb].
  rewrite Pos2Z.inj_mul, !canon_pos by lia.
  replace (a * 2 ^ (prec - 1 - Z.log2 a) * (b * 2 ^ (prec - 1 - Z.log2 b))) with
    (a * b * 2 ^ ((prec - 1 - Z.log2 a) + (prec - 1 - Z.log2 b)))
    by (rewrite Z.pow_add_r by lia; ring).
  replace (Z.log2 a + 1 - prec + (Z.log2 b + 1 - prec))
    with (- ((prec - 1 - Z.log2 a) + (prec - 1 - Z.log2 b))) by lia.
  apply round_aux_canon; [nia|lia|lia].
Qed.

Lemma trunc_canon s z : 0 < z -> Z.log2 z < prec -> trunc_Z (canon_float prec s z) = Some (cond_Zopp s z).
Proof using.
  intros Hz Hl. unfold canon_float. cbn [trunc_Z]. unfold trunc_mag. rewrite canon_pos by done.
  do 2 f_equal. destruct (Z.leb_spec 0 (Z.log2 z + 1 - prec)) as [H|H].
  - replace (prec - 1 - Z.log2 z) with 0 by lia. replace (Z.log2 z + 1 - prec) with 0 by lia.
    rewrite Z.pow_0_r. lia.
  - replace (- (Z.log2 z + 1 - prec)) with (prec - 1 - Z.log2 z) by lia.
    apply Z.div_mul. pose proof (Z.pow_pos_nonneg 2 (prec - 1 - Z.log2 z)). lia.
Qed.

Lemma SFmul_int_exact a b :
  0 < a -> 0 < b -> Z.log2 (a * b) < prec ->
  trunc_Z (SFmul prec emax (of_Z prec emax a) (of_Z prec emax b)) = Some (a * b).
Proof using Hprec Hemax.
  intros Ha Hb Hab. rewrite SFmul_canon, of_Z_canon by (done || nia). apply trunc_canon; [nia|done].
Qed.

End Exact.

(** A canonical number converted to another format stays canonical. *)
Lemma convert_canon p1 p2 e2 s z : 1 < p2 -> p2 < e2 -> 0 < z -> Z.log2 z < p1 -> Z.log2 z < p2 ->
  convert p2 e2 (canon_float p1 s z) = canon_float p2 s z.
Proof.
  intros H1 H2 Hz Hl1 Hl2. unfold canon_float at 1. cbn [convert].
  replace (Z.log2 z + 1 - p1) with (- (p1 - 1 - Z.log2 z)) by lia.
  apply round_canon; try lia. by apply canon_pos.
Qed.

(** ** Signs *)

Lemma round_aux_opp prec emax m e l :
  binary_round_aux prec emax true m e l = SFopp (binary_round_aux prec emax false m e l).
Proof.
  unfold binary_round_aux. destruct (shr_fexp _ _ m e l) as [r1 e1].
  destruct (shr_fexp _ _ _ e1 loc_Exact) as [r2 e2].
  destruct (shr_m r2); simpl; [done| |done]. by destruct (_ <=? _).
Qed.

Lemma of_Z_opp prec emax a : 0 < a -> of_Z prec emax (- a) = SFopp (of_Z prec emax a).
Proof.
  destruct a as [|p|p]; [lia| |lia]. intros _. simpl. unfold binary_round.
  destruct (shl_align _ _ _). apply round_aux_opp.
Qed.

Lemma SFmul_opp_l prec emax x y : SFmul prec emax (SFopp x) y = SFopp (SFmul prec emax x y).
Proof.
  destruct x as [s|s| |s m e], y as [s'|s'| |s' m' e']; simpl; rewrite ?negb_xorb_l; try done.
  destruct (xorb s s') eqn:E; rewrite <- negb_xorb_l, E; simpl.
  - rewrite (round_aux_opp _ _ _ _ loc_Exact).
    destruct (binary_round_aux _ _ false _ _ _); simpl; by rewrite ?negb_involutive.
  - apply round_aux_opp.
Qed.

Lemma trunc_Z_opp x : trunc_Z (SFopp x) = Z.opp <$> trunc_Z x.
Proof. destruct x as [s|s| |s m e]; simpl; try done. destruct s; simpl; f_equal; lia. Qed.

(** The exact product, whatever the sign of the first factor. *)
Lemma SFmul_int_exact_l prec emax a b :
  1 < prec -> prec < emax -> 0 < b < 2 ^ prec -> Z.abs a * b < 2 ^ prec ->
  trunc_Z (SFmul prec emax (of_Z prec emax a) (of_Z prec emax b)) = Some (a * b).
Proof.
  intros Hp He Hb Hab.
  assert (Hlog : forall c, 0 < c -> c * b < 2 ^ prec -> Z.log2 (c * b) < prec)
    by (intros; apply Z.log2_lt_pow2; nia).
  destruct (Z.lt_trichotomy a 0) as [Ha|[->|Ha]].
  - replace a with (- (- a)) by lia. rewrite of_Z_opp, SFmul_opp_l, trunc_Z_opp by lia.
    rewrite SFmul_int_exact by (lia || (apply Hlog; lia)). simpl. f_equal. lia.
  - destruct b as [|b|b]; [lia| |lia].
    rewrite (of_Z_canon prec emax Hp He (Zpos b)); [done|lia|apply Z.log2_lt_pow2; lia].
  - apply SFmul_int_exact; try lia. apply Hlog; lia.
Qed.

Lemma shr_1_nonneg r : 0 <= shr_m r -> 0 <= shr_m (shr_1 r).
Proof. destruct r as [[|[p|p|]|p] r s]; simpl; lia. Qed.

Lemma shr_nonneg r e n : 0 <= shr_m r -> 0 <= shr_m (fst (shr r e n)).
Proof.
  intros H. destruct n as [|p|p]; simpl; try done.
  rewrite iter_pos_nat. induction (Pos.to_nat p); simpl; [done|]. by apply shr_1_nonneg.
Qed.

Lemma round_aux_nonneg prec emax m e l :
  0 <= m -> nonneg (binary_round_aux prec emax false m e l).
Proof.
  intros Hm. unfold binary_round_aux, shr_fexp.
  pose proof (shr_nonneg (shr_record_of_loc m l) e (fexp prec emax (Zdigits2 m + e) - e)) as H1.
  destruct (shr _ e _) as [r1 e1]. simpl in H1.
  assert (0 <= shr_m r1) as H1' by (apply H1; by destruct l as [|[]]). clear H1.
  set (m1 := round_nearest_even (shr_m r1) (loc_of_shr_record r1)).
  assert (0 <= m1) as Hm1.
  { unfold m1, round_nearest_even. destruct (loc_of_shr_record r1) as [|[]]; try lia.
    destruct (Z.even _); lia. }
  pose proof (shr_nonneg (exact_shr m1) e1 (fexp prec emax (Zdigits2 m1 + e1) - e1) Hm1) as H2.
  cbn [shr_record_of_loc]. fold (exact_shr m1).
  destruct (shr (exact_shr m1) e1 _) as [r2 e2]. simpl in H2.
  destruct (shr_m r2) as [|p|p]; simpl; [done| |lia]. by destruct (_ <=? _).
Qed.

Lemma binary_round_nonneg prec emax p e : nonneg (binary_round prec emax false p e).
Proof. unfold binary_round. destruct (shl_align _ _ _). by apply round_aux_nonneg. Qed.

Lemma of_Z_nonneg prec emax z : 0 <= z -> nonneg (of_Z prec emax z).
Proof. destruct z; simpl; [done| |lia]. intros _. apply binary_round_nonneg. Qed.

Lemma SFmul_nonneg prec emax x y :
  nonneg x -> nonneg y -> nonneg (SFmul prec emax x y) \/ SFmul prec emax x y = S754_nan.
Proof.
  destruct x as [s|s| |s m e], y as [s'|s'| |s' m' e']; simpl; try tauto; intros -> ->; simpl; try tauto.
  left. by apply round_aux_nonneg.
Qed.

Lemma trunc_Z_nonneg x z : nonneg x -> trunc_Z x = Some z -> 0 <= z.
Proof.
  destruct x as [s|s| |s m e]; simpl; intros; simplify_eq; [done|].
  unfold trunc_mag. simpl. case_match; [by apply Z.mul_nonneg_nonneg; [|apply Z.pow_nonneg]|].
  apply Z.div_pos; [lia|]. apply Z.pow_pos_nonneg; lia.
Qed.

Lemma to_S_inv w x z : to_S w x = Some z -> trunc_Z x = Some z /\ inS w z.
Proof.
  unfold to_S. intros (v & Hv & H)%bind_Some. apply chkS_inv in H as [-> H]. done.
Qed.

Lemma to_S_Some w x z : trunc_Z x = Some z -> inS w z -> to_S w x = Some z.
Proof. unfold to_S. intros -> H. simpl. by apply chkS_Some. Qed.

(** A product of two non-negative numbers that can be stored back in an integer
    is a non-negative integer. *)
Lemma to_S_mul_nonneg prec emax w x y z :
  nonneg x -> nonneg y -> to_S w (SFmul prec emax x y) = Some z -> 0 <= z.
Proof.
  intros Hx Hy (H & _)%to_S_inv. destruct (SFmul_nonneg prec emax x y Hx Hy) as [Hn|Hn].
  - by eapply trunc_Z_nonneg.
  - by rewrite Hn in H.
Qed.

(** [x >= 0] in the sense of C (so [-0.0] included) makes [x + 1] non-negative. *)
Lemma f32_add_one_nonneg x : SFleb f32_zero x = true -> nonneg (f32_add x f32_one).
Proof.
  destruct x as [s|s| |s m e]; [by destruct s..|done|].
  destruct s; [done|]. intros _. unfold f32_one.
  change (f32_of_Z 1) with (S754_finite false 8388608 (-23)). simpl.
  apply binary_round_nonneg.
Qed.
