(* ===== verification/Speed.v ===== *)
(** * The virtual clock: [src/jni/speed.cpp]

    The library injected into the target process replaces [gettimeofday] and
    [clock_gettime] by functions that scale the time elapsed since their last
    call. This file models the globals of [speed.cpp], both replacement
    functions, [SetTimeScale] and the installation of the hooks, and relates
    them to an abstract clock. [None] is undefined behaviour. *)

From S2P Require Import Prelude CFloat.

(** ** Data *)
Record timeval := Timeval { tv_sec : Z; tv_usec : Z }.
Record timespec := Timespec { ts_sec : Z; ts_nsec : Z }.

(** A pair of globals [g_..._saved], [g_..._last]: the real reading of the last
    call and the time that call returned. *)
Record vclock := VClock { saved : Z; last : Z }.

(** What a hooked libc symbol, or a saved original, runs. *)
Inductive code := libc_code | new_code.

#[export] Instance code_eq_dec : EqDecision code.
Proof. solve_decision. Defined.

Record speed_state := Speed {
  IsHooked : Z;
  g_times : cfloat;
  sym_gettimeofday : code;
  sym_clock_gettime : code;
  old_gettimeofday : option code;
  old_clock_gettime : option code;
  g_gettimeofday : vclock;
  g_clock_MONO : vclock;
  g_clock_Real : vclock
}.

(** The initialisers of the globals. *)
Definition vclock0 : vclock := VClock 0 0.

Definition init_speed : speed_state :=
  Speed 1 f32_one libc_code libc_code None None vclock0 vclock0 vclock0.

Definition with_times (g : cfloat) (s : speed_state) : speed_state :=
  Speed (IsHooked s) g (sym_gettimeofday s) (sym_clock_gettime s) (old_gettimeofday s)
    (old_clock_gettime s) (g_gettimeofday s) (g_clock_MONO s) (g_clock_Real s).

Definition with_hooked (h : Z) (s : speed_state) : speed_state :=
  Speed h (g_times s) (sym_gettimeofday s) (sym_clock_gettime s) (old_gettimeofday s)
    (old_clock_gettime s) (g_gettimeofday s) (g_clock_MONO s) (g_clock_Real s).

Definition with_symbols (c1 c2 : code) (o1 o2 : option code) (s : speed_state) : speed_state :=
  Speed (IsHooked s) (g_times s) c1 c2 o1 o2 (g_gettimeofday s) (g_clock_MONO s) (g_clock_Real s).

Definition with_clocks (v1 v2 v3 : vclock) (s : speed_state) : speed_state :=
  Speed (IsHooked s) (g_times s) (sym_gettimeofday s) (sym_clock_gettime s) (old_gettimeofday s)
    (old_clock_gettime s) v1 v2 v3.

(** ** The replacement functions *)

Definition usecs (tv : timeval) : Z := tv_sec tv * 1000000 + tv_usec tv.

Definition nsecs (ts : timespec) : Z := ts_sec ts * 1000000000 + ts_nsec ts.

(** [diff = diff * g_times]: to [float], multiplied, truncated to [int64_t]. *)
Definition scale (g : cfloat) (diff : Z) : option Z :=
  to_S 64 (f32_mul (f32_of_Z diff) g).

(** The [else] branch for the clocks kept in [uint64_t] globals: the
    subtraction and the addition are unsigned and converted back. *)
Definition advance_u (g : cfloat) (v : vclock) (cur : Z) : option (vclock * Z) :=
  let diff := s64 (u64 (u64 cur - saved v)) in
  diff' ← scale g diff;
  let ret := s64 (u64 (last v + u64 diff')) in
  Some (VClock (u64 cur) (u64 ret), ret).

(** The [else] branch for the [int64_t] globals of the monotonic clock. *)
Definition advance_s (g : cfloat) (v : vclock) (cur : Z) : option (vclock * Z) :=
  diff ← chkS 64 (cur - saved v);
  diff' ← scale g diff;
  ret ← chkS 64 (last v + diff');
  Some (VClock cur ret, ret).

Definition timeval_of (ret : Z) : timeval :=
  Timeval (s32 (ret ÷ 1000000)) (s32 (Z.rem ret 1000000)).

Definition timespec_of (ret : Z) : timespec :=
  Timespec (s32 (ret ÷ 1000000000)) (s32 (Z.rem ret 1000000000)).

(** [old] is what the call through [old_gettimeofday] returned and wrote. *)
Definition new_gettimeofday (old : Z * timeval) (s : speed_state)
    : option (speed_state * (Z * timeval)) :=
  let '(res, tv) := old in
  let v := g_gettimeofday s in
  if negb (res =? 0) then Some (s, (res, tv))
  else if saved v =? 0 then
    Some (with_clocks (VClock (u64 (usecs tv)) (u64 (usecs tv))) (g_clock_MONO s) (g_clock_Real s) s,
          (0, tv))
  else
    '(v', ret) ← advance_u (g_times s) v (usecs tv);
    Some (with_clocks v' (g_clock_MONO s) (g_clock_Real s) s, (0, timeval_of ret)).

Definition CLOCK_REALTIME : Z := 0.
Definition CLOCK_MONOTONIC : Z := 1.

Definition new_clock_gettime (clk_id : Z) (old : Z * timespec) (s : speed_state)
    : option (speed_state * (Z * timespec)) :=
  let '(res, ts) := old in
  if negb (res =? 0) then Some (s, (res, ts))
  else if clk_id =? CLOCK_MONOTONIC then
    let v := g_clock_MONO s in
    if saved v =? 0 then
      Some (with_clocks (g_gettimeofday s) (VClock (nsecs ts) (nsecs ts)) (g_clock_Real s) s, (0, ts))
    else
      '(v', ret) ← advance_s (g_times s) v (nsecs ts);
      Some (with_clocks (g_gettimeofday s) v' (g_clock_Real s) s, (0, timespec_of ret))
  else
    let v := g_clock_Real s in
    if saved v =? 0 then
      Some (with_clocks (g_gettimeofday s) (g_clock_MONO s)
              (VClock (u64 (nsecs ts)) (u64 (nsecs ts))) s, (0, ts))
    else
      '(v', ret) ← advance_u (g_times s) v (nsecs ts);
      Some (with_clocks (g_gettimeofday s) (g_clock_MONO s) v' s, (0, timespec_of ret)).

(** ** Setting the speed and installing the hooks *)

(** A decimal literal [a / b] of the code: a [double], stored in a [float]. *)
Definition flit (a b : positive) : cfloat := f32_of_f64 (of_ratio 53 1024 false a b).

Section Hooks.
(** [MSHookFunction] of libsubstrate, which is not part of the repository: given
    what the symbol runs and the replacement, what the symbol runs afterwards and
    what is stored through the third argument. *)
Context (MSHookFunction : code -> code -> code * code).

Definition do_speed_hook (s : speed_state) : speed_state * Z :=
  let '(c1, o1) := MSHookFunction (sym_gettimeofday s) new_code in
  let '(c2, o2) := MSHookFunction (sym_clock_gettime s) new_code in
  (with_symbols c1 c2 (Some o1) (Some o2) s, 0).

(** The body of [SetTimeScale] that chooses the new factor; [None] is the
    undefined conversion [(int)result]. *)
Definition times_for (g result : cfloat) : option cfloat :=
  if SFleb f32_zero result then Some (f32_add result f32_one)
  else
    n ← to_S 32 result;
    Some (if n =? -1 then flit 5 10
          else if n =? -2 then flit 4 10
          else if n =? -3 then flit 33 100
          else if n =? -4 then flit 25 100
          else if n =? -5 then flit 2 10
          else if n =? -10 then flit 1 10
          else g).

Definition SetTimeScale (result : cfloat) (s : speed_state) : option (speed_state * Z) :=
  let s := if negb (IsHooked s =? 0) then with_hooked 0 (fst (do_speed_hook s)) else s in
  g ← times_for (g_times s) result;
  Some (with_times g s, 0).

(** [startServer], up to the call of [StartIPCServer] that does not return. *)
Definition startServer (s : speed_state) : speed_state :=
  with_hooked 0 (fst (do_speed_hook s)).

End Hooks.

(** ** The process as a machine

    The calls that reach the library, in the order they are made: a speed
    received by the server thread, or a read of a clock with what the original
    function returned. *)
Inductive event :=
| EvSetTimeScale (result : cfloat)
| EvGettimeofday (old : Z * timeval)
| EvClockGettime (clk_id : Z) (old : Z * timespec).

Inductive reply :=
| RpSetTimeScale (res : Z)
| RpGettimeofday (res : Z) (tv : timeval)
| RpClockGettime (clk_id res : Z) (ts : timespec).

Section Machine.
Context (MSHookFunction : code -> code -> code * code).

Definition step (s : speed_state) (ev : event) : option (speed_state * reply) :=
  match ev with
  | EvSetTimeScale f =>
      '(s', r) ← SetTimeScale MSHookFunction f s; Some (s', RpSetTimeScale r)
  | EvGettimeofday old =>
      '(s', (r, tv)) ← new_gettimeofday old s; Some (s', RpGettimeofday r tv)
  | EvClockGettime clk old =>
      '(s', (r, ts)) ← new_clock_gettime clk old s; Some (s', RpClockGettime clk r ts)
  end.

Fixpoint run (s : speed_state) (evs : list event) : option (speed_state * list reply) :=
  match evs with
  | [] => Some (s, [])
  | ev :: evs =>
      '(s1, r) ← step s ev;
      '(s2, rs) ← run s1 evs;
      Some (s2, r :: rs)
  end.

End Machine.

(** ** Abstract clock

    The specification keeps, for each clock, the last real reading and the last
    virtual time as unbounded integers; nothing before the first reading. *)
Inductive clock_id := Gtod | Mono | Real.

#[export] Instance clock_id_eq_dec : EqDecision clock_id.
Proof. solve_decision. Defined.

Definition aclock : Type := option (Z * Z).

Definition aclock_read (g : cfloat) (a : aclock) (r : Z) : option (aclock * Z) :=
  match a with
  | None => Some (Some (r, r), r)
  | Some (r0, v0) => d ← scale g (r - r0); Some (Some (r, v0 + d), v0 + d)
  end.

Record aspeed := ASpeed { a_times : cfloat; a_clocks : clock_id -> aclock }.

Definition set_aclock (k : clock_id) (c : aclock) (a : aspeed) : aspeed :=
  ASpeed (a_times a) (fun k' => if decide (k' = k) then c else a_clocks a k').

(** Microseconds or nanoseconds in a second, and the end of a 32-bit [time_t]. *)
Definition unit_of (k : clock_id) : Z :=
  match k with Gtod => 1000000 | Mono | Real => 1000000000 end.

Definition horizon (k : clock_id) : Z := 2147483648 * unit_of k.

(** The clock, the result and the reading (in the clock's unit) of a read. *)
Definition ev_read (ev : event) : option (clock_id * Z * Z) :=
  match ev with
  | EvSetTimeScale _ => None
  | EvGettimeofday (res, tv) => Some (Gtod, res, usecs tv)
  | EvClockGettime clk (res, ts) =>
      Some (if clk =? CLOCK_MONOTONIC then Mono else Real, res, nsecs ts)
  end.

Definition wf_split (sec sub unit : Z) : Prop :=
  0 <= sec < 2147483648 /\ 0 <= sub < unit /\ 0 < sec * unit + sub.

Definition wf_event (ev : event) : Prop :=
  match ev with
  | EvSetTimeScale _ => True
  | EvGettimeofday (_, tv) => wf_split (tv_sec tv) (tv_usec tv) 1000000
  | EvClockGettime _ (_, ts) => wf_split (ts_sec ts) (ts_nsec ts) 1000000000
  end.

(** The reply that carries the virtual time [w], normalised. *)
Definition reply_at (ev : event) (w : Z) : reply :=
  match ev with
  | EvSetTimeScale _ => RpSetTimeScale 0
  | EvGettimeofday _ => RpGettimeofday 0 (Timeval (w / 1000000) (w mod 1000000))
  | EvClockGettime clk _ => RpClockGettime clk 0 (Timespec (w / 1000000000) (w mod 1000000000))
  end.

(** A failed call is passed through. *)
Definition reply_failed (ev : event) : reply :=
  match ev with
  | EvSetTimeScale _ => RpSetTimeScale 0
  | EvGettimeofday (res, tv) => RpGettimeofday res tv
  | EvClockGettime clk (res, ts) => RpClockGettime clk res ts
  end.

(** The factors the negative speeds set. The comment above [SetTimeScale] has other ones
    for all of them but -1: [comment_factors] below. *)
Definition slow_table : list (Z * cfloat) :=
  [(-1, flit 5 10); (-2, flit 4 10); (-3, flit 33 100);
   (-4, flit 25 100); (-5, flit 2 10); (-10, flit 1 10)].

Definition slow_factor (n : Z) : option cfloat :=
  match list_find (fun p => fst p = n) slow_table with
  | Some (_, (_, g)) => Some g
  | None => None
  end.

Inductive factor : cfloat -> cfloat -> cfloat -> Prop :=
| factor_fast g f : SFleb f32_zero f = true -> factor g f (f32_add f f32_one)
| factor_slow g f n : SFleb f32_zero f = false -> to_S 32 f = Some n ->
    factor g f (default g (slow_factor n)).

Inductive astep : aspeed -> event -> aspeed -> reply -> Prop :=
| as_scale a f g' : factor (a_times a) f g' ->
    astep a (EvSetTimeScale f) (ASpeed g' (a_clocks a)) (RpSetTimeScale 0)
| as_failed a ev k res r : ev_read ev = Some (k, res, r) -> res <> 0 ->
    astep a ev a (reply_failed ev)
| as_read a ev k r c' w : ev_read ev = Some (k, 0, r) -> wf_event ev ->
    aclock_read (a_times a) (a_clocks a k) r = Some (c', w) -> 0 <= w < horizon k ->
    astep a ev (set_aclock k c' a) (reply_at ev w).

Inductive arun : aspeed -> list event -> aspeed -> list reply -> Prop :=
| arun_nil a : arun a [] a []
| arun_cons a ev a1 r evs a2 rs :
    astep a ev a1 r -> arun a1 evs a2 rs -> arun a (ev :: evs) a2 (r :: rs).

(** The refinement relation between the globals and the abstract clocks. *)
Definition clock_rel (k : clock_id) (v : vclock) (a : aclock) : Prop :=
  match a with
  | None => saved v = 0
  | Some (r, w) => saved v = r /\ last v = w /\ 0 < r < horizon k /\ 0 <= w < horizon k
  end.

Definition vclock_of (s : speed_state) (k : clock_id) : vclock :=
  match k with Gtod => g_gettimeofday s | Mono => g_clock_MONO s | Real => g_clock_Real s end.

Definition speed_rel (s : speed_state) (a : aspeed) : Prop :=
  g_times s = a_times a /\ forall k, clock_rel k (vclock_of s k) (a_clocks a k).

(** ** Lemmas on single steps *)

Lemma horizon_bound k : 0 < horizon k /\ horizon k <= 2 ^ 62.
Proof. destruct k; vm_compute; split; congruence. Qed.

Lemma s64_u64_id z : - 2 ^ 63 <= z < 2 ^ 63 -> s64 (u64 z) = z.
Proof. intros. by rewrite wrapS_wrapU, wrapS_id by cint_range. Qed.

Lemma u64_id z : 0 <= z < 2 ^ 63 -> u64 z = z.
Proof. intros. apply wrapU_id; cint_range. Qed.

Lemma aclock_read_inv g r0 v0 r c w : aclock_read g (Some (r0, v0)) r = Some (c, w) ->
  exists d, scale g (r - r0) = Some d /\ w = v0 + d /\ c = Some (r, w).
Proof. simpl. intros (d & Hd & E)%bind_Some. simplify_eq. eauto. Qed.

Lemma advance_u_refines k g v r0 v0 r c w :
  clock_rel k v (Some (r0, v0)) -> 0 < r < horizon k -> 0 <= w < horizon k ->
  aclock_read g (Some (r0, v0)) r = Some (c, w) ->
  advance_u g v r = Some (VClock r w, w).
Proof.
  intros (Hs & Hl & Hr0 & Hv0) Hr Hw (d & Hd & -> & ->)%aclock_read_inv.
  pose proof (horizon_bound k). unfold advance_u. rewrite Hs, Hl.
  rewrite wrapU_sub_l, s64_u64_id by lia. rewrite Hd. simpl.
  rewrite wrapU_add_r, s64_u64_id by lia. by rewrite !u64_id by lia.
Qed.

Lemma advance_s_refines k g v r0 v0 r c w :
  clock_rel k v (Some (r0, v0)) -> 0 < r < horizon k -> 0 <= w < horizon k ->
  aclock_read g (Some (r0, v0)) r = Some (c, w) ->
  advance_s g v r = Some (VClock r w, w).
Proof.
  intros (Hs & Hl & Hr0 & Hv0) Hr Hw (d & Hd & -> & ->)%aclock_read_inv.
  pose proof (horizon_bound k). unfold advance_s. rewrite Hs, Hl.
  rewrite chkS_Some by (unfold inS; lia). simpl. rewrite Hd. simpl.
  by rewrite chkS_Some by (unfold inS; lia).
Qed.

(** A time before the horizon is split into normalised fields. *)
Lemma split_horizon u w : 0 < u <= 1000000000 -> 0 <= w < 2147483648 * u ->
  s32 (w ÷ u) = w / u /\ s32 (Z.rem w u) = w mod u.
Proof.
  intros Hu Hw. rewrite Z.quot_div_nonneg, Z.rem_mod_nonneg by lia.
  assert (0 <= w / u < 2147483648).
  { split; [apply Z.div_pos; lia | apply Z.div_lt_upper_bound; lia]. }
  pose proof (Z.mod_pos_bound w u).
  by rewrite !wrapS_id by cint_range.
Qed.

Lemma wf_split_total sec sub u : wf_split sec sub u ->
  0 < sec * u + sub < 2147483648 * u /\
  (sec * u + sub) / u = sec /\ (sec * u + sub) mod u = sub.
Proof.
  intros (H1 & H2 & H3). split; [nia|]. split; symmetry.
  - apply (Z.div_unique _ _ _ sub); lia.
  - apply (Z.mod_unique _ _ sec); lia.
Qed.

Lemma clock_rel_read k v g c0 r c w :
  clock_rel k v c0 -> 0 < r < horizon k -> 0 <= w < horizon k ->
  aclock_read g c0 r = Some (c, w) -> clock_rel k (VClock r w) c.
Proof.
  intros _ Hr Hw. destruct c0 as [[r0 v0]|]; simpl.
  - intros (d & _ & E)%bind_Some. by simplify_eq.
  - intros ?. by simplify_eq.
Qed.

(** A read of any of the three clocks, successful and within the horizon, moves
    the globals as the abstract clock moves. *)
Lemma set_aclock_rel s a k v c :
  speed_rel s a -> clock_rel k v c ->
  forall v1 v2 v3, (v1, v2, v3) =
    match k with
    | Gtod => (v, g_clock_MONO s, g_clock_Real s)
    | Mono => (g_gettimeofday s, v, g_clock_Real s)
    | Real => (g_gettimeofday s, g_clock_MONO s, v)
    end ->
  speed_rel (with_clocks v1 v2 v3 s) (set_aclock k c a).
Proof.
  intros [Hg Hc] Hv v1 v2 v3 E. split; [done|]. intros k'.
  specialize (Hc k'). unfold set_aclock. simpl.
  destruct k, k'; simplify_eq; simpl in *; assumption.
Qed.

Lemma slow_factor_eq n g :
  default g (slow_factor n) =
    if n =? -1 then flit 5 10 else if n =? -2 then flit 4 10 else if n =? -3 then flit 33 100
    else if n =? -4 then flit 25 100 else if n =? -5 then flit 2 10
    else if n =? -10 then flit 1 10 else g.
Proof.
  unfold slow_factor, slow_table. cbn [list_find fst].
  repeat match goal with
  | |- context [decide (?c = n)] =>
      destruct (decide (c = n)) as [<-|]; [done|]; rewrite (proj2 (Z.eqb_neq n c)) by congruence
  end.
  reflexivity.
Qed.

Lemma times_for_factor g f g' : times_for g f = Some g' <-> factor g f g'.
Proof.
  unfold times_for. split.
  - destruct (SFleb f32_zero f) eqn:E; [intros [= <-]; by constructor|].
    intros (n & Hn & H)%bind_Some. rewrite <- slow_factor_eq in H.
    injection H as <-. by constructor.
  - destruct 1 as [g f E|g f n E Hn]; rewrite E; [done|]. rewrite Hn. simpl.
    by rewrite slow_factor_eq.
Qed.

Lemma with_times_rel s a g h :
  speed_rel s a -> speed_rel (with_times g (with_hooked h s)) (ASpeed g (a_clocks a)).
Proof. intros [_ H]. split; [done|]. intros k. specialize (H k). destruct k; exact H. Qed.

Lemma SetTimeScale_refines MSH s a f g' :
  speed_rel s a -> factor (a_times a) f g' ->
  exists s', SetTimeScale MSH f s = Some (s', 0) /\ speed_rel s' (ASpeed g' (a_clocks a)).
Proof.
  intros [Hg Hc] Hf%times_for_factor. unfold SetTimeScale, do_speed_hook.
  destruct (MSH (sym_gettimeofday s) new_code) as [c1 o1].
  destruct (MSH (sym_clock_gettime s) new_code) as [c2 o2].
  destruct (negb _); simpl; rewrite Hg, Hf; simpl; eexists; (split; [done|]);
    (split; [done|]); intros k; specialize (Hc k); destruct k; exact Hc.
Qed.

Lemma usecs_bound k ev res r : ev_read ev = Some (k, res, r) -> wf_event ev -> 0 < r < horizon k.
Proof.
  destruct ev as [f|[res' tv]|clk [res' ts]]; simpl; intros ? Hwf; simplify_eq.
  - by apply wf_split_total in Hwf as [? _].
  - apply wf_split_total in Hwf as [H _]. destruct (clk =? CLOCK_MONOTONIC); exact H.
Qed.

Lemma first_read_reply sec sub u : wf_split sec sub u ->
  sec = (sec * u + sub) / u /\ sub = (sec * u + sub) mod u.
Proof. by intros (_ & -> & ->)%wf_split_total. Qed.

(** One abstract read is one call of the replacement function. *)
Lemma gettimeofday_refines s a res tv c' w :
  speed_rel s a -> res = 0 -> wf_event (EvGettimeofday (res, tv)) ->
  aclock_read (a_times a) (a_clocks a Gtod) (usecs tv) = Some (c', w) ->
  0 <= w < horizon Gtod ->
  exists s', new_gettimeofday (res, tv) s =
      Some (s', (0, Timeval (w / 1000000) (w mod 1000000)))
    /\ speed_rel s' (set_aclock Gtod c' a).
Proof.
  intros Hrel -> Hwf Hread Hw. pose proof Hrel as [Hg Hc].
  pose proof (usecs_bound Gtod (EvGettimeofday (0, tv)) 0 _ eq_refl Hwf) as Hr.
  pose proof (horizon_bound Gtod).
  specialize (Hc Gtod). simpl in Hc. unfold new_gettimeofday. simpl.
  pose proof (clock_rel_read _ _ _ _ _ _ _ Hc Hr Hw Hread) as Hnew.
  destruct (a_clocks a Gtod) as [[r0 v0]|].
  - pose proof Hc as (Hs & _ & Hr0 & _). rewrite Hs.
    rewrite (proj2 (Z.eqb_neq r0 0)) by lia.
    rewrite Hg, (advance_u_refines _ _ _ _ _ _ _ _ Hc Hr Hw Hread). simpl.
    unfold timeval_of. destruct (split_horizon 1000000 w) as [-> ->]; [lia|done|].
    eexists; split; [done|]. by eapply set_aclock_rel.
  - simpl in Hc, Hread. rewrite Hc. simpl. simplify_eq.
    destruct (first_read_reply _ _ _ Hwf) as [E1 E2].
    rewrite u64_id by lia. eexists. split; [|by eapply set_aclock_rel].
    do 3 f_equal. destruct tv as [sec us]; unfold usecs in *; simpl in *. congruence.
Qed.

Lemma clock_gettime_refines s a clk res ts c' w k :
  speed_rel s a -> res = 0 -> k = (if clk =? CLOCK_MONOTONIC then Mono else Real) ->
  wf_event (EvClockGettime clk (res, ts)) ->
  aclock_read (a_times a) (a_clocks a k) (nsecs ts) = Some (c', w) ->
  0 <= w < horizon k ->
  exists s', new_clock_gettime clk (res, ts) s =
      Some (s', (0, Timespec (w / 1000000000) (w mod 1000000000)))
    /\ speed_rel s' (set_aclock k c' a).
Proof.
  intros Hrel -> Hk Hwf Hread Hw. pose proof Hrel as [Hg Hc].
  pose proof (usecs_bound k (EvClockGettime clk (0, ts)) 0 (nsecs ts)) as Hr.
  simpl in Hr. rewrite Hk in Hr. specialize (Hr eq_refl Hwf). rewrite <- Hk in Hr.
  pose proof (horizon_bound k).
  specialize (Hc k). unfold new_clock_gettime. cbn [negb Z.eqb].
  pose proof (clock_rel_read _ _ _ _ _ _ _ Hc Hr Hw Hread) as Hnew.
  destruct (first_read_reply _ _ _ Hwf) as [E1 E2].
  assert (Hfirst : Timespec (nsecs ts / 1000000000) (nsecs ts mod 1000000000) = ts)
    by (destruct ts; unfold nsecs; simpl in *; congruence).
  assert (Hsplit : timespec_of w = Timespec (w / 1000000000) (w mod 1000000000)).
  { unfold timespec_of. destruct (split_horizon 1000000000 w) as [-> ->]; [lia| |done].
    rewrite Hk in Hw. destruct (clk =? CLOCK_MONOTONIC); exact Hw. }
  destruct (clk =? CLOCK_MONOTONIC); subst k; simpl in Hc;
    destruct (a_clocks a _) as [[r0 v0]|]; simpl in Hc.
  1,3: destruct Hc as (Hs & Hc'); rewrite Hs, (proj2 (Z.eqb_neq r0 0)) by lia;
    rewrite Hg; first [rewrite (advance_s_refines _ _ _ _ _ _ _ _ (conj Hs Hc') Hr Hw Hread)
      | rewrite (advance_u_refines _ _ _ _ _ _ _ _ (conj Hs Hc') Hr Hw Hread)];
    simpl; rewrite Hsplit; eexists; (split; [done|]); by eapply set_aclock_rel.
  all: simpl in Hread; rewrite Hc; simpl; simplify_eq; rewrite Hfirst, ?u64_id by lia;
    eexists; (split; [done|]); by eapply set_aclock_rel.
Qed.

(** ** Refinement *)

Lemma step_refines MSH s a ev a' r :
  speed_rel s a -> astep a ev a' r ->
  exists s', step MSH s ev = Some (s', r) /\ speed_rel s' a'.
Proof.
  intros Hrel Hstep. destruct Hstep as [a f g' Hf|a ev k res r Hev Hres|a ev k r c' w Hev Hwf Hread Hw].
  - destruct (SetTimeScale_refines MSH s a f g' Hrel Hf) as (s' & E & H).
    exists s'. simpl. by rewrite E.
  - exists s. split; [|done]. apply Z.eqb_neq in Hres.
    destruct ev as [|[res' tv]|clk [res' ts]]; simplify_eq/=; by rewrite Hres.
  - destruct ev as [|[res' tv]|clk [res' ts]]; simplify_eq/=.
    + destruct (gettimeofday_refines s a 0 tv c' w) as (s' & E & H); try done.
      exists s'. unfold new_gettimeofday in E. simpl in E. by rewrite E.
    + destruct (clock_gettime_refines s a clk 0 ts c' w _ Hrel eq_refl eq_refl Hwf Hread Hw)
        as (s' & E & H).
      exists s'. unfold new_clock_gettime in E. simpl in E. by rewrite E.
Qed.

Lemma run_refines MSH s a evs a' rs :
  speed_rel s a -> arun a evs a' rs ->
  exists s', run MSH s evs = Some (s', rs) /\ speed_rel s' a'.
Proof.
  intros Hrel Hrun. revert s Hrel. induction Hrun as [a|a ev a1 r evs a2 rs Hs _ IH]; intros s Hrel.
  - by exists s.
  - destruct (step_refines MSH _ _ _ _ _ Hrel Hs) as (s1 & E1 & H1).
    destruct (IH s1 H1) as (s2 & E2 & H2).
    exists s2. cbn [run]. rewrite E1. cbn [mbind option_bind]. by rewrite E2.
Qed.

(** ** Monotonicity *)

Definition ev_real (k : clock_id) (ev : event) : option Z :=
  match ev_read ev with
  | Some (k', res, r) => if decide (k' = k /\ res = 0) then Some r else None
  | None => None
  end.

Definition reply_time (k : clock_id) (rp : reply) : option Z :=
  match rp with
  | RpSetTimeScale _ => None
  | RpGettimeofday res tv => if decide (Gtod = k /\ res = 0) then Some (usecs tv) else None
  | RpClockGettime clk res ts =>
      if decide ((if clk =? CLOCK_MONOTONIC then Mono else Real) = k /\ res = 0)
      then Some (nsecs ts) else None
  end.

(** The readings of a clock in a history, and the times returned for it. *)
Definition reads (k : clock_id) (evs : list event) : list Z := omap (ev_real k) evs.
Definition times (k : clock_id) (rs : list reply) : list Z := omap (reply_time k) rs.

Fixpoint ascending (lo : Z) (l : list Z) : Prop :=
  match l with
  | [] => True
  | x :: l => lo <= x /\ ascending x l
  end.

Definition real_of (c : aclock) : Z := default 0 (fst <$> c).
Definition virt_of (c : aclock) : Z := default 0 (snd <$> c).

Lemma factor_nonneg g f g' : nonneg g -> factor g f g' -> nonneg g'.
Proof.
  intros Hg. destruct 1 as [g f E|g f n _ _]; [by apply f32_add_one_nonneg|].
  rewrite slow_factor_eq. repeat case_match; done.
Qed.

Lemma astep_nonneg a ev a' r : astep a ev a' r -> nonneg (a_times a) -> nonneg (a_times a').
Proof. destruct 1; simpl; try done. intros. by eapply factor_nonneg. Qed.

Lemma aclock_read_mono g c r c' w :
  nonneg g -> aclock_read g c r = Some (c', w) -> 0 <= r -> real_of c <= r ->
  virt_of c <= w /\ c' = Some (r, w).
Proof.
  intros Hg. destruct c as [[r0 v0]|]; [|simpl; intros; simplify_eq; split; done || lia].
  intros (d & Hd & -> & ->)%aclock_read_inv _ Hr. split; [|done].
  assert (0 <= d); [|unfold virt_of; simpl; lia].
  eapply to_S_mul_nonneg, Hd; [|done]. apply of_Z_nonneg. unfold real_of in Hr. simpl in Hr. lia.
Qed.

Lemma div_mod_recompose w u : 0 < u -> w / u * u + w mod u = w.
Proof. intros. pose proof (Z_div_mod_eq_full w u). lia. Qed.

Lemma reply_at_time k ev k' r w : ev_read ev = Some (k', 0, r) ->
  reply_time k (reply_at ev w) = if decide (k' = k) then Some w else None.
Proof.
  destruct ev as [|[res tv]|clk [res ts]]; simpl; intros ?; simplify_eq;
    unfold usecs, nsecs; simpl; rewrite div_mod_recompose by lia;
    repeat case_decide; naive_solver.
Qed.

(** A step either does not concern clock [k] or moves it forward. *)
Lemma astep_clock a ev a' rp k :
  astep a ev a' rp -> nonneg (a_times a) ->
  (ev_real k ev = None /\ reply_time k rp = None /\ a_clocks a' k = a_clocks a k) \/
  (exists r w, ev_real k ev = Some r /\ reply_time k rp = Some w /\
     (real_of (a_clocks a k) <= r -> virt_of (a_clocks a k) <= w /\ a_clocks a' k = Some (r, w))).
Proof.
  intros Hs Hg. destruct Hs as [a f g' Hf|a ev k0 res r Hev Hres|a ev k0 r c' w Hev Hwf Hread Hw].
  - by left.
  - left. unfold ev_real. rewrite Hev. rewrite decide_False by naive_solver.
    split; [done|]. split; [|done].
    destruct ev as [|[res' tv]|clk [res' ts]]; simplify_eq/=; rewrite ?decide_False by naive_solver; done.
  - unfold ev_real. rewrite Hev, (reply_at_time _ _ _ _ _ Hev). simpl.
    destruct (decide (k0 = k)) as [->|Hne].
    + right. exists r, w. rewrite !decide_True by done. split; [done|]. split; [done|].
      intros Hr. pose proof (usecs_bound _ _ _ _ Hev Hwf).
      apply (aclock_read_mono _ _ _ _ _ Hg Hread); lia.
    + left. rewrite !decide_False by naive_solver. done.
Qed.

Lemma arun_ascending a evs a' rs k :
  arun a evs a' rs -> nonneg (a_times a) ->
  ascending (real_of (a_clocks a k)) (reads k evs) ->
  ascending (virt_of (a_clocks a k)) (times k rs).
Proof.
  induction 1 as [a|a ev a1 r evs a2 rs Hs _ IH]; [done|].
  intros Hg. pose proof (astep_nonneg _ _ _ _ Hs Hg) as Hg1. specialize (IH Hg1).
  unfold reads, times in *. simpl.
  destruct (astep_clock _ _ _ _ k Hs Hg) as [(E1 & E2 & E3)|(x & w & E1 & E2 & H)];
    rewrite E1, E2.
  - by rewrite <- E3.
  - intros [Hx Hasc]. destruct (H Hx) as [Hw E3]. rewrite E3 in IH.
    split; [done|]. by apply IH.
Qed.

(** ** Polling one clock *)

(** A history in which only [gettimeofday] is called, with success. *)
Definition gtod_polls (tvs : list timeval) : list event :=
  map (fun tv => EvGettimeofday (0, tv)) tvs.

(** Consecutive readings differ by less than [d] and, when [fwd], do not go back. *)
Fixpoint polled (fwd : bool) (d r0 : Z) (rs : list Z) : Prop :=
  match rs with
  | [] => True
  | r :: rs => Z.abs (r - r0) < d /\ (fwd = true -> r0 <= r) /\ polled fwd d r rs
  end.

Definition wf_timeval (tv : timeval) : Prop := wf_split (tv_sec tv) (tv_usec tv) 1000000.

(** The polls advance the abstract clock by [f] of each gap. *)
Fixpoint poll_replies (f : Z -> Z) (r0 v0 : Z) (rs : list Z) : list reply :=
  match rs with
  | [] => []
  | r :: rs =>
      let v := v0 + f (r - r0) in
      RpGettimeofday 0 (Timeval (v / 1000000) (v mod 1000000)) :: poll_replies f r v rs
  end.

Fixpoint poll_times (f : Z -> Z) (r0 v0 : Z) (rs : list Z) : list Z :=
  match rs with
  | [] => []
  | r :: rs => (v0 + f (r - r0)) :: poll_times f r (v0 + f (r - r0)) rs
  end.

Lemma arun_polls f fwd d tvs : forall a r0 v0,
  (forall z, Z.abs z < d -> (fwd = true -> 0 <= z) -> scale (a_times a) z = Some (f z)) ->
  a_clocks a Gtod = Some (r0, v0) -> Forall wf_timeval tvs ->
  polled fwd d r0 (map usecs tvs) ->
  Forall (fun v => 0 <= v < horizon Gtod) (poll_times f r0 v0 (map usecs tvs)) ->
  exists a', arun a (gtod_polls tvs) a' (poll_replies f r0 v0 (map usecs tvs)).
Proof.
  induction tvs as [|tv tvs IH]; intros a r0 v0 Hf Hc Hwf Hpoll Hv; [exists a; constructor|].
  inversion Hwf as [|? ? Hw1 Hw2]; subst. simpl in Hpoll, Hv. destruct Hpoll as (Hd & Hb & Hpoll).
  inversion Hv as [|? ? Hv1 Hv2]; subst.
  set (w := v0 + f (usecs tv - r0)) in *.
  destruct (IH (set_aclock Gtod (Some (usecs tv, w)) a) (usecs tv) w) as [a' Ha']; try done.
  exists a'. simpl. eapply arun_cons, Ha'.
  apply (as_read a (EvGettimeofday (0, tv)) Gtod (usecs tv) _ w); [done|done| |done].
  rewrite Hc. simpl. rewrite Hf; [done|lia|intros Hfw; specialize (Hb Hfw); lia].
Qed.

(** A time of so many microseconds, in normalised fields. *)
Definition timeval_at (w : Z) : timeval := Timeval (w / 1000000) (w mod 1000000).

Lemma timeval_usecs tv : wf_timeval tv -> timeval_at (usecs tv) = tv.
Proof. intros Hw. pose proof (wf_split_total _ _ _ Hw) as (_ & Ed & Em). unfold timeval_at, usecs. rewrite Ed, Em. by destruct tv. Qed.

Lemma poll_exact r0 v0 rs :
  poll_replies (fun z => z) r0 v0 rs = map (fun r => RpGettimeofday 0 (timeval_at (r + (v0 - r0)))) rs /\
  poll_times (fun z => z) r0 v0 rs = map (fun r => r + (v0 - r0)) rs.
Proof.
  revert r0 v0. induction rs as [|r rs IH]; intros r0 v0; [done|]. simpl. destruct (IH r (v0 + (r - r0))) as [-> ->].
  unfold timeval_at. replace (v0 + (r - r0)) with (r + (v0 - r0)) by lia.
  split; f_equal; apply map_ext; intros x; by replace (x + (r + (v0 - r0) - r)) with (x + (v0 - r0)) by lia.
Qed.

Lemma poll_stalled r0 v0 rs :
  poll_replies (fun _ => 0) r0 v0 rs =
    map (fun _ => RpGettimeofday 0 (Timeval (v0 / 1000000) (v0 mod 1000000))) rs /\
  poll_times (fun _ => 0) r0 v0 rs = map (fun _ => v0) rs.
Proof.
  revert r0. induction rs as [|r rs IH]; intros r0; [done|].
  simpl. rewrite Z.add_0_r. by destruct (IH r) as [-> ->].
Qed.

Lemma scale_one z : Z.abs z < 2 ^ 24 -> scale f32_one z = Some z.
Proof.
  intros Hz. unfold scale. apply to_S_Some; [|unfold inS; lia].
  rewrite <- (Z.mul_1_r z) at 2. by apply SFmul_int_exact_l; lia.
Qed.

Lemma scale_tenth z : Z.abs z < 10 -> 0 <= z -> scale (flit 1 10) z = Some 0.
Proof.
  intros H1 H2.
  assert (H : Forall (fun z => scale (flit 1 10) z = Some 0) (seqZ 0 10))
    by (repeat constructor).
  rewrite Forall_forall in H. apply H, elem_of_seqZ. lia.
Qed.

(** ** Hooks *)

(** The hooked symbols run the replacements, and the saved originals are the C
    library's functions: calling an original never re-enters a replacement. *)
Definition hooks_wired (s : speed_state) : Prop :=
  sym_gettimeofday s = new_code /\ sym_clock_gettime s = new_code /\
  old_gettimeofday s = Some libc_code /\ old_clock_gettime s = Some libc_code /\
  IsHooked s = 0.

Lemma step_hooks MSH s ev s' r : step MSH s ev = Some (s', r) -> hooks_wired s -> hooks_wired s'.
Proof.
  intros E (H1 & H2 & H3 & H4 & H5). unfold hooks_wired.
  destruct ev as [f|[res tv]|clk [res ts]]; simpl in E.
  - unfold SetTimeScale in E. rewrite H5 in E. simpl in E.
    apply bind_Some in E as ([s1 r1] & (g & _ & E1)%bind_Some & E2). by simplify_eq.
  - apply bind_Some in E as ([s1 [r1 tv1]] & E1 & E2). simplify_eq.
    repeat case_match; simplify_eq; try done. by apply bind_Some in E1 as ([v w] & _ & ?); simplify_eq.
  - apply bind_Some in E as ([s1 [r1 tv1]] & E1 & E2). simplify_eq.
    repeat case_match; simplify_eq; try done;
      by apply bind_Some in E1 as ([v w] & _ & ?); simplify_eq.
Qed.

Lemma SetTimeScale_hooked MSH f s :
  match SetTimeScale MSH f s with Some (s', _) => IsHooked s' = 0 | None => True end.
Proof.
  unfold SetTimeScale. destruct (Z.eqb_spec (IsHooked s) 0) as [H|H]; cbn [negb];
    destruct (times_for _ f); done.
Qed.

(** ** Properties *)

(** C1. Refinement of the abstract clocks: from related states, every history
    the specification can make (reads of the three clocks, failed reads, speed
    changes, while the real and the virtual times stay below the end of the 32-bit
    [time_t]) is made by the code with the same replies, and leaves it in a
    related state. In particular the machine-width arithmetic of the code (the
    unsigned differences, the narrowing to 32-bit fields, zero as the mark of a
    clock never read) is the unbounded arithmetic of the specification up to the
    end of the 32-bit [time_t]. *)
Theorem speed_refines_clocks MSH s a evs a' rs :
  speed_rel s a -> arun a evs a' rs ->
  exists s', run MSH s evs = Some (s', rs) /\ speed_rel s' a'.
Proof. apply run_refines. Qed.

(** C2. No speed makes time go back: in a history of any speeds and reads, while the times
    stay below the end of the 32-bit [time_t], if the readings of a clock do not decrease,
    neither do the times the code returns for it, also across changes of the speed. *)
Theorem clock_never_goes_back MSH s a evs a' rs k :
  speed_rel s a -> nonneg (g_times s) -> arun a evs a' rs ->
  ascending (real_of (a_clocks a k)) (reads k evs) ->
  exists s', run MSH s evs = Some (s', rs) /\
    ascending (virt_of (a_clocks a k)) (times k rs) /\ nonneg (g_times s').
Proof.
  intros Hrel Hg Hrun Hasc. destruct (run_refines MSH _ _ _ _ _ Hrel Hrun) as (s' & E & H').
  exists s'. split; [done|]. destruct Hrel as [Hga _], H' as [Hgb _]. rewrite Hga in Hg.
  split; [by eapply arun_ascending|]. rewrite Hgb. clear -Hrun Hg.
  induction Hrun; [done|]. by eapply IHHrun, astep_nonneg.
Qed.

(** C25. At the normal speed (factor 1) the hooked [gettimeofday] runs with the real clock,
    whatever speeds were set before: as long as consecutive readings are less than 2^24
    microseconds apart and the times stay below the end of the 32-bit [time_t], every call
    returns the time the C library returned plus what the clock was ahead or behind when
    the normal speed was set; exactly the C library's time when it was neither. *)
Theorem normal_speed_transparent MSH s a r0 v0 tvs :
  speed_rel s a -> a_times a = f32_one -> a_clocks a Gtod = Some (r0, v0) ->
  Forall wf_timeval tvs -> polled false (2 ^ 24) r0 (map usecs tvs) ->
  Forall (fun tv => 0 <= usecs tv + (v0 - r0) < horizon Gtod) tvs ->
  exists s', run MSH s (gtod_polls tvs) = Some (s', map (fun tv => RpGettimeofday 0 (timeval_at (usecs tv + (v0 - r0)))) tvs) /\
    (v0 = r0 -> map (fun tv => RpGettimeofday 0 (timeval_at (usecs tv + (v0 - r0)))) tvs = map (RpGettimeofday 0) tvs).
Proof.
  intros Hrel Hg Hc Hwf Hp Hh. destruct (poll_exact r0 v0 (map usecs tvs)) as [E1 E2].
  destruct (arun_polls (fun z => z) false (2 ^ 24) tvs a r0 v0) as [a' Ha]; try done.
  - intros. rewrite Hg. by apply scale_one.
  - rewrite E2, map_map. by apply Forall_map.
  - destruct (run_refines MSH s a _ _ _ Hrel Ha) as (s' & E & _). exists s'. rewrite E, E1, map_map. split; [done|].
    intros ->. clear -Hwf. induction Hwf as [|tv tvs Hw _ IH]; [done|]. cbn [map]. by rewrite IH, Z.sub_diag, Z.add_0_r, timeval_usecs.
Qed.

(** C26. At the slowest speed (factor 0.1) a process that reads the time again within less
    than ten microseconds, every time, sees the clock stand still for ever, if the readings
    do not go back: each call drops the fraction of a microsecond it should have carried
    over. *)
Theorem slow_clock_stalls MSH s a r0 v0 tvs :
  speed_rel s a -> a_times a = flit 1 10 -> a_clocks a Gtod = Some (r0, v0) ->
  Forall wf_timeval tvs -> polled true 10 r0 (map usecs tvs) ->
  exists s', run MSH s (gtod_polls tvs) =
    Some (s', map (fun _ => RpGettimeofday 0 (Timeval (v0 / 1000000) (v0 mod 1000000))) tvs).
Proof.
  intros Hrel Hg Hc Hwf Hp.
  destruct (poll_stalled r0 v0 (map usecs tvs)) as [E1 E2].
  destruct (arun_polls (fun _ => 0) true 10 tvs a r0 v0) as [a' Ha]; try done.
  - intros z H1 H2. rewrite Hg. apply scale_tenth; auto.
  - rewrite E2. destruct Hrel as [_ Hr]. specialize (Hr Gtod). rewrite Hc in Hr.
    destruct Hr as (_ & _ & _ & Hv). rewrite map_map. apply Forall_map, Forall_true. intros; exact Hv.
  - destruct (run_refines MSH s a _ _ _ Hrel Ha) as (s' & E & _). exists s'.
    by rewrite E, E1, map_map.
Qed.

(** C27. The server thread installs the hooks once: from the initial globals,
    after [startServer] and any history of reads and speed changes, both symbols
    run the replacements and both saved originals are the C library's functions
    (a second installation would make a replacement call itself). The hypothesis
    is the contract of [MSHookFunction]: it installs the replacement and hands
    out what the symbol ran before. *)
Theorem hooks_installed_once MSH evs s' rs :
  (forall cur new, MSH cur new = (new, cur)) ->
  run MSH (startServer MSH init_speed) evs = Some (s', rs) -> hooks_wired s'.
Proof.
  intros HM. assert (H0 : hooks_wired (startServer MSH init_speed))
    by (unfold startServer, do_speed_hook; simpl; rewrite !HM; done).
  revert H0. generalize (startServer MSH init_speed) as s. revert s' rs.
  induction evs as [|ev evs IH]; intros s' rs s H0 E; [by simplify_eq/=|].
  cbn [run] in E. apply bind_Some in E as ([s1 r] & E1 & E2).
  apply bind_Some in E2 as ([s2 rs2] & E2 & E3). simplify_eq.
  eapply IH, E2. by eapply step_hooks.
Qed.

(** [SetTimeScale]: a speed [f >= 0] sets the factor to [f + 1], the speeds
    -1 to -5 and -10 set it by the table, any other negative speed keeps it; it
    is undefined exactly when [f] has no [int] value; the clocks are untouched,
    so time is continuous at a change of speed. *)
Theorem SetTimeScale_spec MSH f s :
  match SetTimeScale MSH f s with
  | Some (s', r) => r = 0 /\ factor (g_times s) f (g_times s') /\
      (forall k, vclock_of s' k = vclock_of s k) /\ IsHooked s' = 0
  | None => SFleb f32_zero f = false /\ to_S 32 f = None
  end.
Proof.
  unfold SetTimeScale, do_speed_hook.
  destruct (MSH (sym_gettimeofday s) new_code) as [c1 o1].
  destruct (MSH (sym_clock_gettime s) new_code) as [c2 o2]. simpl.
  destruct (Z.eqb_spec (IsHooked s) 0) as [H0|H0]; simpl.
  all: destruct (times_for (g_times s) f) as [g|] eqn:E; simpl.
  1,3: split; [done|]; split; [by apply times_for_factor|]; split; [by intros []|done].
  all: unfold times_for in E; destruct (SFleb _ _); [done|]; split; [done|];
    destruct (to_S 32 f); [|done]; simpl in E; repeat case_match; done.
Qed.

(** The comment above [SetTimeScale]: the factor of a speed, in thousandths. *)
Definition comment_factors : list (Z * Z) :=
  [(2, 0xbb8); (1, 0x7d0); (0, 0x3e8); (-1, 0x1f4); (-2, 0x14d); (-3, 0xfa); (-4, 0xc8); (-5, 0xa6); (-10, 0x5a); (3, 0xfa0); (4, 0x1388); (5, 0x1770); (10, 0x2af8)].

(** Where the code sets the factor of the comment: not for -2, -3, -4, -5 and -10. *)
Example comment_factors_differ :
  omap (fun '(n, k) =>
    match times_for f32_one (f32_of_Z n), of_ratio 53 1024 false (Z.to_pos k) 1000 with
    | Some g, d => if SFeqb g (f32_of_f64 d) then None else Some n
    | None, _ => Some n
    end) comment_factors = [-2; -3; -4; -5; -10].
Proof. vm_compute. reflexivity. Qed.

(** A clock other than [CLOCK_MONOTONIC] is scaled with the globals of
    [CLOCK_REALTIME]: reading the boot-time clock (7) after the real-time clock
    at double speed returns a negative time. *)
Example other_clocks_share_real :
  exists s', run (fun cur new => (new, cur)) (startServer (fun cur new => (new, cur)) init_speed)
    [EvSetTimeScale (f32_of_Z 1); EvClockGettime CLOCK_REALTIME (0, Timespec 1449137975 0);
     EvClockGettime 7 (0, Timespec 100 0)]
  = Some (s', [RpSetTimeScale 0; RpClockGettime 0 0 (Timespec 1449137975 0);
               RpClockGettime 7 0 (Timespec (-1449137842) (-178005504))]).
Proof. eexists. vm_compute. reflexivity. Qed.

(** With 2^24 + 1 microseconds between two reads the clock loses a microsecond
    even at the normal speed: the bound of [normal_speed_transparent] is tight. *)
Example normal_speed_loses :
  exists s', run (fun cur new => (new, cur)) (startServer (fun cur new => (new, cur)) init_speed)
    [EvGettimeofday (0, Timeval 1449137975 0); EvGettimeofday (0, Timeval 1449137991 777217)]
  = Some (s', [RpGettimeofday 0 (Timeval 1449137975 0);
               RpGettimeofday 0 (Timeval 1449137991 777216)]).
Proof. eexists. vm_compute. reflexivity. Qed.

(** ** Witnesses *)

(** The contract of [MSHookFunction], as a function. *)
Definition substrate_hook (cur new : code) : code * code := (new, cur).

Definition started : speed_state := startServer substrate_hook init_speed.

Definition started_abs (g : cfloat) (r w : Z) : aspeed :=
  ASpeed g (fun k => if decide (k = Gtod) then Some (r, w) else None).

Definition started_at (g : cfloat) (r w : Z) : speed_state :=
  with_times g (with_clocks (VClock r w) vclock0 vclock0 started).

(** Decides the side conditions of a concrete read. *)
Ltac decide_read := vm_compute; repeat split; (reflexivity || congruence).

Lemma started_rel g r w :
  0 < r < horizon Gtod -> 0 <= w < horizon Gtod ->
  speed_rel (started_at g r w) (started_abs g r w).
Proof. intros Hr Hw. split; [done|]. intros []; simpl; done. Qed.

Lemma history_arun :
  exists a', arun (started_abs f32_one 100000000 100000000)
    [EvGettimeofday (0, Timeval 100 5); EvSetTimeScale (f32_of_Z 1);
     EvGettimeofday (-1, Timeval 0 0); EvGettimeofday (0, Timeval 101 5)] a'
    [RpGettimeofday 0 (Timeval 100 5); RpSetTimeScale 0;
     RpGettimeofday (-1) (Timeval 0 0); RpGettimeofday 0 (Timeval 102 5)].
Proof.
  eexists. eapply arun_cons.
  { apply (as_read _ (EvGettimeofday (0, Timeval 100 5)) Gtod 100000005
             (Some (100000005, 100000005)) 100000005); decide_read. }
  eapply arun_cons; [apply as_scale, factor_fast; reflexivity|].
  eapply arun_cons; [by eapply (as_failed _ (EvGettimeofday (-1, Timeval 0 0)))|].
  eapply arun_cons, arun_nil.
  apply (as_read _ (EvGettimeofday (0, Timeval 101 5)) Gtod 101000005
           (Some (101000005, 102000005)) 102000005); decide_read.
Qed.

Lemma speed_refines_clocks_witness :
  exists s' a', run substrate_hook (started_at f32_one 100000000 100000000)
    [EvGettimeofday (0, Timeval 100 5); EvSetTimeScale (f32_of_Z 1);
     EvGettimeofday (-1, Timeval 0 0); EvGettimeofday (0, Timeval 101 5)]
    = Some (s', [RpGettimeofday 0 (Timeval 100 5); RpSetTimeScale 0;
       RpGettimeofday (-1) (Timeval 0 0); RpGettimeofday 0 (Timeval 102 5)])
    /\ speed_rel s' a'.
Proof.
  destruct history_arun as [a' Ha].
  destruct (speed_refines_clocks substrate_hook (started_at f32_one 100000000 100000000) _ _ a' _
    (started_rel f32_one 100000000 100000000 ltac:(decide_read) ltac:(decide_read)) Ha) as (s' & E & H).
  exists s', a'. split; [exact E|exact H].
Defined.

Lemma clock_never_goes_back_witness :
  let rs := [RpGettimeofday 0 (Timeval 100 5); RpSetTimeScale 0; RpGettimeofday (-1) (Timeval 0 0); RpGettimeofday 0 (Timeval 102 5)] in
  times Gtod rs = [100000005; 102000005] /\
  exists s', run substrate_hook (started_at f32_one 100000000 100000000)
    [EvGettimeofday (0, Timeval 100 5); EvSetTimeScale (f32_of_Z 1);
     EvGettimeofday (-1, Timeval 0 0); EvGettimeofday (0, Timeval 101 5)] = Some (s', rs) /\
    ascending 100000000 (times Gtod rs) /\ nonneg (g_times s').
Proof.
  split; [reflexivity|]. destruct history_arun as [a' Ha].
  exact (clock_never_goes_back substrate_hook (started_at f32_one 100000000 100000000) _ _ a' _ Gtod
    (started_rel f32_one 100000000 100000000 ltac:(decide_read) ltac:(decide_read))
    ltac:(vm_compute; reflexivity) Ha ltac:(decide_read)).
Defined.

(** The clock is 40 seconds ahead. *)
Lemma normal_speed_transparent_witness :
  exists s', run substrate_hook (started_at f32_one 100000000 140000000)
    (gtod_polls [Timeval 100 5; Timeval 99 0]) =
    Some (s', [RpGettimeofday 0 (Timeval 140 5); RpGettimeofday 0 (Timeval 139 0)]).
Proof.
  destruct (normal_speed_transparent substrate_hook (started_at f32_one 100000000 140000000)
    (started_abs f32_one 100000000 140000000) 100000000 140000000 [Timeval 100 5; Timeval 99 0]) as (s' & E & _);
    [apply started_rel; decide_read | reflexivity | reflexivity
    | repeat constructor; decide_read | decide_read | repeat constructor; decide_read | exists s'; exact E].
Defined.

Lemma slow_clock_stalls_witness :
  exists s', run substrate_hook (started_at (flit 1 10) 100000000 7000001)
    (gtod_polls [Timeval 100 9; Timeval 100 18]) =
    Some (s', [RpGettimeofday 0 (Timeval 7 1); RpGettimeofday 0 (Timeval 7 1)]).
Proof.
  apply (slow_clock_stalls substrate_hook (started_at (flit 1 10) 100000000 7000001)
    (started_abs (flit 1 10) 100000000 7000001) 100000000 7000001 [Timeval 100 9; Timeval 100 18]);
    [apply started_rel; decide_read | reflexivity | reflexivity
    | repeat constructor; decide_read | decide_read].
Defined.

Lemma hooks_installed_once_witness :
  exists s' rs, run substrate_hook (startServer substrate_hook init_speed)
    [EvSetTimeScale (f32_of_Z 2); EvSetTimeScale (f32_of_Z (-3))] = Some (s', rs)
    /\ hooks_wired s'.
Proof.
  do 2 eexists. split; [vm_compute; reflexivity|].
  eapply (hooks_installed_once substrate_hook
    [EvSetTimeScale (f32_of_Z 2); EvSetTimeScale (f32_of_Z (-3))]);
    [reflexivity | vm_compute; reflexivity].
Defined.
