(* ===== verification/CString.v ===== *)
(** * C strings

    The functions of the C library the sources use on text: buffers are lists of
    byte values, a C string is the part of a buffer before its first NUL. *)

From S2P Require Import Prelude.

(** The bytes of a literal of the sources. *)
Fixpoint bytes_of (s : string) : list Z :=
  match s with
  | EmptyString => []
  | String c s => Z.of_N (Ascii.N_of_ascii c) :: bytes_of s
  end.

Definition NUL : Z := 0.
Definition NL : Z := 10.
Definition c_0 : Z := 48.

(** The string a buffer holds. *)
Fixpoint cstr (buf : list Z) : list Z :=
  match buf with
  | [] => []
  | c :: buf => if c =? NUL then [] else c :: cstr buf
  end.

Definition no_nul (s : list Z) : Prop := Forall (fun c => c <> NUL) s.

(** [strlen]. *)
Definition strlen (buf : list Z) : nat := length (cstr buf).

(** [strcmp(a, b) == 0]. *)
Definition streq (a b : list Z) : bool := bool_decide (cstr a = cstr b).

(** [fgets]: at most [n] bytes, up to and including a newline; what is left. *)
Fixpoint fgets_line (n : nat) (s : list Z) : list Z * list Z :=
  match n, s with
  | S n, c :: s => if c =? NL then ([c], s) else let '(l, r) := fgets_line n s in (c :: l, r)
  | _, _ => ([], s)
  end.

(** The buffer keeps its old bytes after the NUL that ends the line, and is not
    written at the end of the file. *)
Definition fgets (buf s : list Z) : option (list Z * list Z) :=
  match s with
  | [] => None
  | _ =>
      let '(l, r) := fgets_line (length buf - 1) s in
      Some (l ++ NUL :: drop (S (length l)) buf, r)
  end.

Fixpoint starts_with (p s : list Z) : bool :=
  match p, s with
  | [], _ => true
  | _, [] => false
  | x :: p, y :: s => (x =? y) && starts_with p s
  end.

(** [strstr(s, p) != NULL]. *)
Fixpoint strstr (s p : list Z) : bool :=
  starts_with p s || match s with [] => false | _ :: s => strstr s p end.

(** [strtok(s, d)] for a one-character delimiter: the first token. *)
Fixpoint skip_while (f : Z -> bool) (s : list Z) : list Z :=
  match s with
  | [] => []
  | c :: s' => if f c then skip_while f s' else s
  end.

Fixpoint take_while (f : Z -> bool) (s : list Z) : list Z :=
  match s with
  | [] => []
  | c :: s' => if f c then c :: take_while f s' else []
  end.

Definition strtok (s : list Z) (d : Z) : list Z :=
  take_while (fun c => negb (c =? d)) (skip_while (fun c => c =? d) (cstr s)).

(** ** Numbers *)

Definition isspace (c : Z) : bool := (c =? 32) || ((9 <=? c) && (c <=? 13)).

(** The value of a digit or letter; 36 for any other byte. *)
Definition digit_val (c : Z) : Z :=
  if (48 <=? c) && (c <=? 57) then c - 48
  else if (97 <=? c) && (c <=? 122) then c - 87
  else if (65 <=? c) && (c <=? 90) then c - 55
  else 36.

Definition is_digit (base c : Z) : bool := digit_val c <? base.

(** "0123456789abcdef"[d]. *)
Definition digit_char (d : Z) : Z := if d <? 10 then 48 + d else 87 + d.

Definition parse_digits (base : Z) (s : list Z) : Z :=
  digits_val base (digit_val <$> take_while (is_digit base) s).

(** The sign and the rest of a number. *)
Definition parse_sign (s : list Z) : bool * list Z :=
  match s with
  | c :: s' => if c =? 45 then (true, s') else if c =? 43 then (false, s') else (false, s)
  | [] => (false, [])
  end.

(** [strtoul(s, NULL, 16)] on a 32-bit [unsigned long]. *)
Definition strtoul16 (s : list Z) : Z :=
  let '(neg, s) := parse_sign (skip_while isspace s) in
  let s := match s with
           | c0 :: c1 :: c2 :: s' =>
               if (c0 =? 48) && ((c1 =? 120) || (c1 =? 88)) && is_digit 16 c2 then c2 :: s' else s
           | _ => s
           end in
  let v := parse_digits 16 s in
  if 2 ^ 32 <=? v then 2 ^ 32 - 1 else if neg then u32 (- v) else v.

(** [atoi(s)]: [strtol] in base 10, clipped to a 32-bit [long]. *)
Definition atoi (s : list Z) : Z :=
  let '(neg, s) := parse_sign (skip_while isspace s) in
  let v := parse_digits 10 s in
  let v := if neg then - v else v in
  Z.max (- 2 ^ 31) (Z.min v (2 ^ 31 - 1)).

(** The digits of an integer as text, and [%d]. *)
Definition print_digits (base n : Z) : list Z := digit_char <$> digits base n.

Definition print_d (n : Z) : list Z :=
  if n <? 0 then 45 :: print_digits 10 (- n) else print_digits 10 n.

(** ** Lemmas *)

Lemma cstr_app_nul s r : no_nul s -> cstr (s ++ NUL :: r) = s.
Proof.
  induction 1 as [|c s Hc _ IH]; simpl; [done|].
  rewrite (proj2 (Z.eqb_neq c NUL)) by done. by rewrite IH.
Qed.

Lemma cstr_id s : no_nul s -> cstr s = s.
Proof.
  induction 1 as [|c s Hc _ IH]; simpl; [done|].
  rewrite (proj2 (Z.eqb_neq c NUL)) by done. by rewrite IH.
Qed.

Lemma cstr_no_nul s : no_nul (cstr s).
Proof.
  induction s as [|c s IH]; simpl; [constructor|].
  destruct (Z.eqb_spec c NUL); [constructor|by constructor].
Qed.

Lemma cstr_app s r : no_nul s -> cstr (s ++ r) = s ++ cstr r.
Proof.
  induction 1 as [|c s Hc _ IH]; simpl; [done|].
  rewrite (proj2 (Z.eqb_neq c NUL)) by done. by rewrite IH.
Qed.

Lemma take_while_app f s r :
  Forall (fun c => f c = true) s -> match r with [] => True | c :: _ => f c = false end ->
  take_while f (s ++ r) = s.
Proof.
  induction 1 as [|c s Hc _ IH]; simpl; intros Hr.
  - destruct r as [|c r]; simpl; [done|]. by rewrite Hr.
  - rewrite Hc. by rewrite IH.
Qed.

Lemma digit_val_char d : 0 <= d < 36 -> digit_val (digit_char d) = d.
Proof.
  intros Hd. unfold digit_val, digit_char.
  destruct (Z.ltb_spec d 10);
    repeat match goal with |- context [?a <=? ?b] => destruct (Z.leb_spec a b); try lia end; simpl; lia.
Qed.

Lemma is_digit_char b d : is_digit_of b d -> b <= 36 -> is_digit b (digit_char d) = true.
Proof.
  unfold is_digit_of, is_digit. intros. rewrite digit_val_char by lia. apply Z.ltb_lt; lia.
Qed.

Lemma digit_char_range d : 0 <= d < 16 -> 48 <= digit_char d <= 57 \/ 97 <= digit_char d <= 102.
Proof. intros. unfold digit_char. destruct (Z.ltb_spec d 10); lia. Qed.

(** Printed digits followed by anything but a digit are read back. *)
Lemma parse_print_digits b n r :
  2 <= b <= 36 -> 0 <= n -> match r with [] => True | c :: _ => is_digit b c = false end ->
  parse_digits b (print_digits b n ++ r) = n.
Proof.
  intros Hb Hn Hr. unfold parse_digits, print_digits.
  pose proof (digits_Forall b ltac:(lia) n Hn) as Hd.
  rewrite take_while_app; [| |done].
  2:{ apply Forall_fmap. eapply Forall_impl; [exact Hd|]. intros d H. by apply is_digit_char; [|lia]. }
  rewrite <- list_fmap_compose. rewrite <- (digits_val_digits b ltac:(lia) n Hn) at 2.
  f_equal. rewrite <- (list_fmap_id (digits b n)) at 2. apply list_fmap_ext.
  intros i d Hi. apply digit_val_char. rewrite Forall_forall in Hd.
  specialize (Hd d (list_elem_of_lookup_2 _ _ _ Hi)). unfold is_digit_of, id in *. lia.
Qed.
