(* ===== verification/PtraceMem.v ===== *)
(** * Remote memory: [ptrace_readdata] and [ptrace_writedata] of [src/jni/elfinject.c]

    The injector reads and writes the memory of the target a word at a time with
    [PTRACE_PEEKTEXT] and [PTRACE_POKETEXT]. The two requests belong to the
    kernel: they are the operations of an interface, with their documented
    behaviour as its laws, and a plain byte map is an instance. *)

From S2P Require Import Prelude.

(** ** Interface of the kernel *)

(** The four bytes at [a], when all are mapped. *)
Definition word_at (m : Z -> option Z) (a : Z) : option (list Z) :=
  mapM m [a; a + 1; a + 2; a + 3].

Class PtraceText (T : Type) := {
  byte_at : T -> Z -> option Z;
  (** [ptrace(PTRACE_PEEKTEXT, pid, a, 0)], as an unsigned 32-bit [long]. *)
  peektext : T -> Z -> Z;
  (** [ptrace(PTRACE_POKETEXT, pid, a, w)]. *)
  poketext : T -> Z -> Z -> T
}.

Class PtraceTextLaws (T : Type) `{!PtraceText T} := {
  byte_at_byte t a b : byte_at t a = Some b -> is_byte b;
  peektext_word t a bs : word_at (byte_at t) a = Some bs -> peektext t a = le_val bs;
  poketext_word t a w bs x : word_at (byte_at t) a = Some bs ->
    byte_at (poketext t a w) x =
      if decide (a <= x < a + 4) then le_bytes 4 w !! Z.to_nat (x - a) else byte_at t x
}.

(** ** The two routines *)

Section Routines.
Context {T : Type} `{!PtraceText T}.

Fixpoint read_words (t : T) (src : Z) (j : nat) : list Z :=
  match j with
  | O => []
  | S j => le_bytes 4 (peektext t src) ++ read_words t (src + 4) j
  end.

Definition ptrace_readdata (t : T) (src : Z) (size : nat) : list Z :=
  let j := (size / 4)%nat in
  let remain := (size mod 4)%nat in
  read_words t src j ++
    (if (0 <? remain)%nat then take remain (le_bytes 4 (peektext t (src + 4 * Z.of_nat j))) else []).

Fixpoint write_words (t : T) (dest : Z) (data : list Z) (j : nat) : T :=
  match j with
  | O => t
  | S j => write_words (poketext t dest (le_val (take 4 data))) (dest + 4) (drop 4 data) j
  end.

(** [data] is the buffer; its [size] bytes from the start are written. *)
Definition ptrace_writedata (t : T) (dest : Z) (data : list Z) (size : nat) : T :=
  let j := (size / 4)%nat in
  let remain := (size mod 4)%nat in
  let t := write_words t dest data j in
  let dest := dest + 4 * Z.of_nat j in
  if (0 <? remain)%nat then
    let d := le_bytes 4 (peektext t dest) in
    poketext t dest (le_val (take remain (drop (4 * j) data) ++ drop remain d))
  else t.

End Routines.

(** ** An instance: a byte map; a request on an unmapped word fails *)

Definition peek_map (m : gmap Z Z) (a : Z) : Z :=
  match word_at (fun x => m !! x) a with
  | Some bs => le_val bs
  | None => 2 ^ 32 - 1
  end.

Definition poke_map (m : gmap Z Z) (a w : Z) : gmap Z Z :=
  match word_at (fun x => m !! x) a with
  | Some _ =>
      <[a := w mod 256]> (<[a + 1 := w / 256 mod 256]> (<[a + 2 := w / 256 / 256 mod 256]>
        (<[a + 3 := w / 256 / 256 / 256 mod 256]> m)))
  | None => m
  end.

(** The maps whose values are bytes. *)
Record text_map := TextMap { tm : gmap Z Z; tm_bytes : map_Forall (fun _ b => is_byte b) tm }.

Lemma poke_map_bytes m a w :
  map_Forall (fun _ b => is_byte b) m -> map_Forall (fun _ b => is_byte b) (poke_map m a w).
Proof.
  intros H. unfold poke_map. destruct (word_at _ _); [|done].
  repeat (apply map_Forall_insert_2; [apply Z.mod_pos_bound; lia|]). done.
Qed.

#[export] Instance text_map_ptrace : PtraceText text_map := {
  byte_at t x := tm t !! x;
  peektext t a := peek_map (tm t) a;
  poketext t a w := TextMap (poke_map (tm t) a w) (poke_map_bytes _ a w (tm_bytes t))
}.

#[export] Instance text_map_laws : PtraceTextLaws text_map.
Proof.
  constructor; simpl.
  - intros t a b H. apply (tm_bytes t a b H).
  - intros t a bs H. unfold peek_map. by rewrite H.
  - intros t a w bs x H. unfold poke_map. rewrite H.
    case_decide as Hx.
    + assert (x = a \/ x = a + 1 \/ x = a + 2 \/ x = a + 3) as Hc by lia.
      destruct Hc as [->|[->|[->| ->]]]; rewrite ?Z.sub_diag, ?Z.add_simpl_l; simplify_map_eq;
        rewrite ?lookup_insert_ne by lia; simplify_map_eq; done.
    + by rewrite !lookup_insert_ne by lia.
Qed.

(** ** Lemmas *)

Section Lemmas.
Context {T : Type} `{!PtraceText T, !PtraceTextLaws T}.

Definition mapped (t : T) (a : Z) (n : Z) : Prop := forall x, a <= x < a + n -> is_Some (byte_at t x).

(** The [n] bytes of [t] at [a] are [bs]. *)
Definition holds (t : T) (a : Z) (bs : list Z) : Prop :=
  forall i : nat, (i < length bs)%nat -> byte_at t (a + Z.of_nat i) = bs !! i.

Lemma mapped_word t a n : mapped t a n -> 4 <= n -> exists b0 b1 b2 b3,
  word_at (byte_at t) a = Some [b0; b1; b2; b3] /\ holds t a [b0; b1; b2; b3].
Proof using PtraceTextLaws0.
  intros H Hn.
  destruct (H a) as [b0 E0]; [lia|]. destruct (H (a + 1)) as [b1 E1]; [lia|].
  destruct (H (a + 2)) as [b2 E2]; [lia|]. destruct (H (a + 3)) as [b3 E3]; [lia|].
  exists b0, b1, b2, b3. unfold word_at. simpl. rewrite E0, E1, E2, E3. split; [done|].
  intros [|[|[|[|i]]]] Hi; simpl in *; rewrite ?Z.add_0_r; try done. lia.
Qed.

Lemma holds_bytes t a bs : holds t a bs -> Forall is_byte bs.
Proof using PtraceTextLaws0.
  intros H. apply Forall_lookup. intros i b Hi. eapply byte_at_byte.
  rewrite H; [exact Hi|]. by eapply lookup_lt_Some.
Qed.

Lemma peektext_holds t a bs : word_at (byte_at t) a = Some bs -> holds t a bs -> length bs = 4%nat ->
  le_bytes 4 (peektext t a) = bs.
Proof using PtraceTextLaws0.
  intros Hw Hh Hl. rewrite (peektext_word t a bs Hw). apply le_bytes_val_n; [|done].
  by eapply holds_bytes.
Qed.

(** Poking four bytes over a mapped word. *)
Lemma poke_bytes t a n d x :
  mapped t a n -> 4 <= n -> Forall is_byte d -> length d = 4%nat ->
  byte_at (poketext t a (le_val d)) x =
    if decide (a <= x < a + 4) then d !! Z.to_nat (x - a) else byte_at t x.
Proof using PtraceTextLaws0.
  intros Hm Hn Hd Hl. destruct (mapped_word t a n Hm Hn) as (b0 & b1 & b2 & b3 & Hw & _).
  rewrite (poketext_word t a _ _ x Hw). by rewrite le_bytes_val_n.
Qed.

Lemma poke_mapped t a n d : mapped t a n -> 4 <= n -> Forall is_byte d -> length d = 4%nat ->
  forall y m, mapped t y m -> mapped (poketext t a (le_val d)) y m.
Proof using PtraceTextLaws0.
  intros Hm Hn Hd Hl y m Hy x Hx. rewrite (poke_bytes t a n d x) by done.
  case_decide; [|by apply Hy]. apply lookup_lt_is_Some. lia.
Qed.

Lemma write_words_spec j : forall t dest data,
  mapped t dest (4 * Z.of_nat j) -> (4 * j <= length data)%nat -> Forall is_byte data ->
  (forall x, byte_at (write_words t dest data j) x =
     if decide (dest <= x < dest + 4 * Z.of_nat j) then data !! Z.to_nat (x - dest) else byte_at t x) /\
  (forall y m, mapped t y m -> mapped (write_words t dest data j) y m).
Proof using PtraceTextLaws0.
  induction j as [|j IH]; intros t dest data Hm Hl Hd; cbn [write_words].
  { split; [|done]. intros x. by rewrite decide_False by lia. }
  assert (Ht : length (take 4 data) = 4%nat) by (rewrite length_take; lia).
  assert (Hb : Forall is_byte (take 4 data)) by by apply Forall_take.
  pose proof (poke_mapped t dest _ (take 4 data) Hm ltac:(lia) Hb Ht) as Hpm.
  destruct (IH (poketext t dest (le_val (take 4 data))) (dest + 4) (drop 4 data)) as [IH1 IH2].
  - intros x Hx. eapply (Hpm dest); [exact Hm|lia].
  - rewrite length_drop. lia.
  - by apply Forall_drop.
  - split; [|intros y m Hy; by apply IH2, Hpm].
    intros x. rewrite IH1, (poke_bytes t dest _ (take 4 data) x Hm) by (done || lia).
    repeat case_decide; try lia; [|by rewrite lookup_take_lt by lia|done].
    rewrite lookup_drop. f_equal. lia.
Qed.

Lemma read_words_spec j : forall t src bs,
  holds t src bs -> length bs = (4 * j)%nat -> read_words t src j = bs.
Proof using PtraceTextLaws0.
  induction j as [|j IH]; intros t src bs Hh Hl; cbn [read_words].
  { destruct bs; [done|simpl in Hl; lia]. }
  assert (Hm : mapped t src 4).
  { intros x Hx. rewrite <- (Zplus_minus src x), <- (Z2Nat.id (x - src)) by lia.
    rewrite Hh by lia. apply lookup_lt_is_Some. lia. }
  destruct (mapped_word t src 4 Hm) as (b0 & b1 & b2 & b3 & Hw & Hh4); [lia|].
  rewrite (peektext_holds t src _ Hw Hh4 eq_refl).
  rewrite <- (take_drop 4 bs) at 1. rewrite (IH _ _ (drop 4 bs)).
  - f_equal. symmetry. apply list_eq_same_length with 4%nat; [done|rewrite length_take; lia|].
    intros i x y Hi Hx Hy. rewrite lookup_take_lt in Hx by done.
    rewrite <- Hh4 in Hy by done. rewrite Hh in Hy by lia. congruence.
  - intros i Hi. rewrite length_drop in Hi. rewrite lookup_drop, <- Hh by lia. f_equal. lia.
  - rewrite length_drop. lia.
Qed.

End Lemmas.

Section Spec.
Context {T : Type} `{!PtraceText T, !PtraceTextLaws T}.

(** The words a transfer of [size] bytes touches. *)
Definition span (size : nat) : Z := 4 * Z.of_nat ((size + 3) / 4).

Lemma size_split size :
  size = (4 * (size / 4) + size mod 4)%nat /\ (size mod 4 < 4)%nat /\
  ((0 < size mod 4)%nat -> span size = 4 * Z.of_nat (size / 4) + 4) /\
  (4 * Z.of_nat (size / 4) <= span size).
Proof.
  unfold span. pose proof (Nat.div_mod_eq size 4). pose proof (Nat.mod_upper_bound size 4).
  split; [done|]. split; [lia|]. split.
  - intros Hr. rewrite <- (Nat.div_unique (size + 3) 4 (size / 4 + 1) (size mod 4 - 1)); lia.
  - pose proof (Nat.Div0.div_le_mono size (size + 3) 4). lia.
Qed.

Lemma writedata_spec t dest data size :
  mapped t dest (span size) -> (size <= length data)%nat -> Forall is_byte data ->
  (forall x, byte_at (ptrace_writedata t dest data size) x =
     if decide (dest <= x < dest + Z.of_nat size) then data !! Z.to_nat (x - dest) else byte_at t x) /\
  (forall y m, mapped t y m -> mapped (ptrace_writedata t dest data size) y m).
Proof using PtraceTextLaws0.
  intros Hm Hl Hb. destruct (size_split size) as (Hs & Hr4 & Hsp & Hsp2).
  set (j := (size / 4)%nat) in *. set (r := (size mod 4)%nat) in *.
  destruct (write_words_spec j t dest data) as [H1 H2]; [|lia|done|].
  { intros x Hx. apply Hm. lia. }
  unfold ptrace_writedata. fold j r. destruct (Nat.ltb_spec 0 r) as [Hr|Hr].
  2:{ split; [|exact H2]. intros x. rewrite H1. repeat case_decide; try lia; done. }
  specialize (Hsp Hr). set (t1 := write_words t dest data j) in *.
  assert (Hm1 : mapped t1 (dest + 4 * Z.of_nat j) 4).
  { apply H2. intros x Hx. apply Hm. lia. }
  destruct (mapped_word t1 _ 4 Hm1 ltac:(lia)) as (b0 & b1 & b2 & b3 & Hw & Hh).
  rewrite (peektext_holds t1 _ _ Hw Hh eq_refl).
  set (old := [b0; b1; b2; b3]) in *.
  assert (Hold : Forall is_byte old) by (by eapply holds_bytes).
  set (d := take r (drop (4 * j) data) ++ drop r old).
  assert (Hd : length d = 4%nat)
    by (unfold d; rewrite length_app, length_take, !length_drop; simpl; lia).
  assert (Hdb : Forall is_byte d)
    by (unfold d; apply Forall_app; split; [by apply Forall_take, Forall_drop|by apply Forall_drop]).
  split; [|intros y m Hy; eapply (poke_mapped t1); [exact Hm1|done..|by apply H2]].
  intros x. rewrite (poke_bytes t1 _ 4 d x Hm1) by (done || lia).
  case_decide as Hx; [|rewrite H1; repeat case_decide; try lia; done].
  unfold d. destruct (Z.lt_ge_cases x (dest + Z.of_nat size)) as [Hlt|Hge].
  - rewrite decide_True by lia. rewrite lookup_app_l by (rewrite length_take, length_drop; lia).
    rewrite lookup_take_lt by lia. rewrite lookup_drop. f_equal. lia.
  - rewrite decide_False by lia.
    rewrite lookup_app_r by (rewrite length_take, length_drop; lia).
    rewrite length_take, length_drop, lookup_drop.
    replace (r + _)%nat with (Z.to_nat (x - (dest + 4 * Z.of_nat j))) by lia.
    rewrite <- Hh by (simpl; lia). rewrite H1, decide_False by lia. f_equal. lia.
Qed.

Lemma readdata_spec t src bs :
  holds t src bs -> mapped t src (span (length bs)) -> ptrace_readdata t src (length bs) = bs.
Proof using PtraceTextLaws0.
  intros Hh Hm. destruct (size_split (length bs)) as (Hs & Hr4 & Hsp & _).
  unfold ptrace_readdata. set (j := (length bs / 4)%nat) in *. set (r := (length bs mod 4)%nat) in *.
  rewrite (read_words_spec j t src (take (4 * j) bs)).
  2:{ intros i Hi. rewrite length_take in Hi. rewrite lookup_take_lt by lia. apply Hh. lia. }
  2:{ rewrite length_take. lia. }
  rewrite <- (take_drop (4 * j) bs) at 2. f_equal.
  destruct (Nat.ltb_spec 0 r) as [Hr|Hr]; [|symmetry; apply nil_length_inv; rewrite length_drop; lia].
  specialize (Hsp Hr).
  destruct (mapped_word t (src + 4 * Z.of_nat j) 4) as (b0 & b1 & b2 & b3 & Hw & Hh4);
    [intros x Hx; apply Hm; lia|lia|].
  rewrite (peektext_holds t _ _ Hw Hh4 eq_refl).
  apply list_eq_same_length with r; [rewrite length_drop; lia|rewrite length_take; simpl; lia|].
  intros i x y Hi Hx Hy. rewrite lookup_take_lt in Hx by done. rewrite lookup_drop in Hy.
  rewrite <- Hh4 in Hx by (simpl; lia). rewrite <- Hh in Hy by lia.
  replace (src + Z.of_nat (4 * j + i)) with (src + 4 * Z.of_nat j + Z.of_nat i) in Hy by lia.
  congruence.
Qed.

(** C31. Remote transfers: writing [size] bytes to a mapped range and reading them
    back gives the bytes written, for every size, also when the last word is
    only partly covered; every other byte of the target, those after the end in
    that last word included, is unchanged, and nothing becomes unmapped. *)
Theorem ptrace_write_read t dest data size :
  mapped t dest (span size) -> (size <= length data)%nat -> Forall is_byte data ->
  let t' := ptrace_writedata t dest data size in
  ptrace_readdata t' dest size = take size data /\
  (forall x, ~ (dest <= x < dest + Z.of_nat size) -> byte_at t' x = byte_at t x) /\
  (forall y m, mapped t y m -> mapped t' y m).
Proof using PtraceTextLaws0.
  intros Hm Hl Hb t'. destruct (writedata_spec t dest data size Hm Hl Hb) as [H1 H2].
  assert (Hlen : length (take size data) = size) by (rewrite length_take; lia).
  split; [|split; [|exact H2]].
  - rewrite <- Hlen at 1. apply readdata_spec; [|rewrite Hlen; by apply H2].
    intros i Hi. rewrite H1, decide_True by lia. rewrite lookup_take_lt by lia. f_equal. lia.
  - intros x Hx. by rewrite H1, decide_False.
Qed.

End Spec.

(** ** Witness *)

Definition page : text_map :=
  TextMap (list_to_map (zip (seqZ 4096 16) (repeat 170 16)))
    ltac:(apply (bool_decide_unpack _); vm_compute; exact I).

Lemma ptrace_write_read_witness :
  let t' := ptrace_writedata page 4096 [1; 2; 3; 4; 5; 6; 255] 7 in
  ptrace_readdata t' 4096 7 = [1; 2; 3; 4; 5; 6; 255] /\ byte_at t' 4103 = Some 170.
Proof.
  destruct (ptrace_write_read page 4096 [1; 2; 3; 4; 5; 6; 255] 7) as (H1 & H2 & _).
  - intros x Hx. assert (Hin : x ∈ seqZ 4096 8) by (apply elem_of_seqZ; change (span 7) with 8 in Hx; lia).
    clear Hx. revert x Hin. rewrite <- Forall_forall. apply (bool_decide_unpack _). vm_compute. exact I.
  - simpl; lia.
  - apply (bool_decide_unpack _). vm_compute. exact I.
  - split; [exact H1|]. rewrite (H2 4103) by lia. vm_compute. reflexivity.
Defined.
