(* ===== verification/ProcFs.v ===== *)
(** * Looking up processes and modules: [find_pid_of], [get_module_base] and
    [get_remote_addr] of [src/jni/elfinject.c]

    [find_pid_of] also stands, letter for letter, in [src/jni/serverClient.cpp].
    The files of /proc are given by their contents; a file that cannot be opened
    is [None]. *)

From S2P Require Import Prelude CString.

(** ** Definitions *)

Section FindPid.
(** The contents of [/proc/<id>/cmdline]. *)
Context (cmdline_of : Z -> option (list Z)).

(** The [while] over the directory entries; [cmdline] is the buffer, which keeps
    its contents when [fgets] meets the end of an empty file. *)
Fixpoint find_pid_loop (process_name : list Z) (entries : list (list Z)) (cmdline : list Z) : Z :=
  match entries with
  | [] => -1
  | d_name :: entries =>
      let id := atoi d_name in
      if negb (id =? 0) then
        match cmdline_of id with
        | Some content =>
            let cmdline := match fgets cmdline content with Some (b, _) => b | None => cmdline end in
            if streq process_name cmdline then id
            else find_pid_loop process_name entries cmdline
        | None => find_pid_loop process_name entries cmdline
        end
      else find_pid_loop process_name entries cmdline
  end.

(** [dir] is what [opendir("/proc")] lists, [cmdline] the uninitialised buffer. *)
Definition find_pid_of (process_name : option (list Z)) (dir : option (list (list Z)))
    (cmdline : list Z) : Z :=
  match process_name, dir with
  | None, _ => -1
  | _, None => -1
  | Some name, Some entries => find_pid_loop name entries cmdline
  end.

End FindPid.

(** The [while] of [get_module_base] over the lines of a maps file; [None] is the
    null pointer [strtok] returns on a line without a token. *)
Fixpoint maps_loop (fuel : nat) (line maps module_name : list Z) : option Z :=
  match fuel with
  | O => None
  | S fuel =>
      match fgets line maps with
      | None => Some 0
      | Some (line, maps) =>
          if strstr (cstr line) module_name then
            match strtok line 45 with
            | [] => None
            | pch =>
                let addr := strtoul16 pch in
                Some (if addr =? 0x8000 then 0 else addr)
            end
          else maps_loop fuel line maps module_name
      end
  end.

(** [maps] is the file; [line] the uninitialised buffer of 1024 bytes. Every call of
    [fgets] takes at least one byte, which bounds the iterations. *)
Definition get_module_base (maps : option (list Z)) (line module_name : list Z) : option Z :=
  match maps with
  | None => Some 0
  | Some maps => maps_loop (S (length maps)) line maps (cstr module_name)
  end.

Definition get_remote_addr (self target : option (list Z)) (line module_name : list Z)
    (local_addr : Z) : option Z :=
  local_handle ← get_module_base self line module_name;
  remote_handle ← get_module_base target line module_name;
  Some (u32 (u32 (u32 local_addr + u32 remote_handle) - u32 local_handle)).

(** ** Reading lines *)

(** A line as [fgets] returns it whole: short enough, ended by its only newline,
    without NUL. *)
Definition line_ok (size : nat) (l : list Z) : Prop :=
  exists s, l = s ++ [NL] /\ Forall (fun c => c <> NL /\ c <> NUL) s /\ (length l < size)%nat.

Lemma fgets_line_whole n s r :
  Forall (fun c => c <> NL /\ c <> NUL) s -> (length s < n)%nat ->
  fgets_line n (s ++ NL :: r) = (s ++ [NL], r).
Proof.
  intros Hs. revert n. induction Hs as [|c s [Hc _] _ IH]; intros n Hn; destruct n; simpl in *; try lia; [done|].
  rewrite (proj2 (Z.eqb_neq c NL)) by done. by rewrite IH by lia.
Qed.

Lemma fgets_length buf s b r : (0 < length buf)%nat -> fgets buf s = Some (b, r) -> length b = length buf.
Proof.
  intros Hb. unfold fgets. destruct s as [|c s]; [done|].
  destruct (fgets_line _ _) as [l r'] eqn:E. intros [= <- _].
  assert (Hl : forall n s l r, fgets_line n s = (l, r) -> (length l <= n)%nat).
  { clear. induction n as [|n IH]; intros s l r E; [by simplify_eq/=; lia|].
    destruct s as [|c s]; simpl in E; [simplify_eq/=; lia|].
    destruct (c =? NL); [simplify_eq/=; lia|].
    destruct (fgets_line n s) eqn:E'. simplify_eq/=. apply IH in E'. lia. }
  apply Hl in E. rewrite length_app. simpl. rewrite length_drop. lia.
Qed.

Lemma fgets_whole buf l r : line_ok (length buf) l ->
  exists b, fgets buf (l ++ r) = Some (b, r) /\ cstr b = l /\ length b = length buf.
Proof.
  intros (s & -> & Hs & Hl). rewrite length_app in Hl. simpl in Hl.
  rewrite <- app_assoc. simpl. unfold fgets.
  destruct (s ++ NL :: r) as [|c s'] eqn:E; [by destruct s|]. rewrite <- E.
  rewrite fgets_line_whole by (done || lia).
  eexists. split; [done|]. split.
  - rewrite cstr_app_nul; [done|]. apply Forall_app. split.
    + eapply Forall_impl; [exact Hs|]. by intros c' [_ ?].
    + by repeat constructor.
  - rewrite length_app. cbn [length]. rewrite length_drop, length_app. simpl. lia.
Qed.

(** ** The maps file *)

(** A line of /proc/<pid>/maps: the start of the mapping on eight hexadecimal
    digits, a dash, and the rest, with the path of the module. *)
Record mapping := Mapping { m_start : Z; m_rest : list Z }.

Definition print_hex8 (n : Z) : list Z :=
  repeat c_0 (8 - length (print_digits 16 n)) ++ print_digits 16 n.

Definition render (m : mapping) : list Z := print_hex8 (m_start m) ++ [45] ++ m_rest m ++ [NL].

Definition wf_mapping (m : mapping) : Prop :=
  0 < m_start m < 2 ^ 32 /\ Forall (fun c => c <> NL /\ c <> NUL) (m_rest m) /\
  (length (m_rest m) < 900)%nat.

(** What [get_module_base] is meant to return: the start of the first mapping of
    the module, 0 when there is none. *)
Definition module_base (ms : list mapping) (name : list Z) : Z :=
  match list_find (fun m => strstr (render m) name = true) ms with
  | Some (_, m) => m_start m
  | None => 0
  end.

Lemma print_digits_hex n : 0 <= n -> Forall (fun c => 48 <= c <= 57 \/ 97 <= c <= 102) (print_digits 16 n).
Proof.
  intros Hn. apply Forall_fmap. eapply Forall_impl; [by apply (digits_Forall 16); lia|].
  intros d Hd. apply digit_char_range. unfold is_digit_of in Hd. lia.
Qed.

Lemma print_hex8_chars n : 0 <= n -> Forall (fun c => 48 <= c <= 57 \/ 97 <= c <= 102) (print_hex8 n).
Proof.
  intros Hn. apply Forall_app. split; [|by apply print_digits_hex].
  apply Forall_forall. intros c Hc. apply list_elem_of_In, repeat_spec in Hc. unfold c_0 in Hc. lia.
Qed.

Lemma hex_char_facts c : 48 <= c <= 57 \/ 97 <= c <= 102 ->
  is_digit 16 c = true /\ isspace c = false /\ (c =? 45) = false /\ (c =? 43) = false /\
  (c =? 120) = false /\ (c =? 88) = false /\ c <> NL /\ c <> NUL.
Proof.
  intros Hc. unfold is_digit, digit_val, isspace, NL, NUL.
  repeat match goal with
  | |- context [?a <=? ?b] => destruct (Z.leb_spec a b); try lia
  | |- context [?a =? ?b] => destruct (Z.eqb_spec a b); try lia
  end; simpl; repeat split; try lia; try (apply Z.ltb_lt; lia).
Qed.

Lemma digits_val_zeros k ds : digits_val 16 (repeat 0 k ++ ds) = digits_val 16 ds.
Proof. induction k; simpl; [done|]. by unfold digits_val in *. Qed.

Lemma parse_hex8 n : 0 <= n -> parse_digits 16 (print_hex8 n) = n.
Proof.
  intros Hn. pose proof (print_hex8_chars n Hn) as Hc. unfold parse_digits.
  rewrite <- (app_nil_r (print_hex8 n)), take_while_app; [| |done].
  2:{ eapply Forall_impl; [exact Hc|]. intros c H. by apply hex_char_facts. }
  unfold print_hex8. rewrite fmap_app.
  assert (E : forall k, digit_val <$> repeat c_0 k = repeat 0 k)
    by (induction k; simpl; [done|by f_equal]).
  rewrite E, digits_val_zeros.
  pose proof (parse_print_digits 16 n [] ltac:(lia) Hn I) as Hp.
  rewrite app_nil_r in Hp. unfold parse_digits in Hp.
  rewrite <- (app_nil_r (print_digits 16 n)), take_while_app in Hp; [done| |done].
  eapply Forall_impl; [by apply print_digits_hex|]. intros c H. by apply hex_char_facts.
Qed.

Lemma print_hex8_cons n : 0 <= n -> exists c s, print_hex8 n = c :: s.
Proof.
  intros Hn. unfold print_hex8. destruct (repeat _ _); [|by eauto].
  unfold print_digits. pose proof (digits_not_nil 16 ltac:(lia) n Hn).
  destruct (digits 16 n); [done|]. simpl. eauto.
Qed.

Lemma strtoul16_hex8 n : 0 <= n < 2 ^ 32 -> strtoul16 (print_hex8 n) = n.
Proof.
  intros Hn. pose proof (parse_hex8 n ltac:(lia)) as Hp.
  pose proof (print_hex8_chars n ltac:(lia)) as Hc.
  destruct (print_hex8_cons n ltac:(lia)) as (c & s & E). rewrite E in *.
  apply Forall_cons_1 in Hc as [Hc1 Hc2].
  destruct (hex_char_facts c Hc1) as (_ & Hsp & Hm & Hp' & _).
  unfold strtoul16. cbn [skip_while]. rewrite Hsp. cbn [parse_sign]. rewrite Hm, Hp'.
  assert (Hx : match c :: s with
    | c0 :: c1 :: c2 :: s' =>
        if (c0 =? 48) && ((c1 =? 120) || (c1 =? 88)) && is_digit 16 c2 then c2 :: s' else c :: s
    | _ => c :: s end = c :: s).
  { destruct s as [|c1 [|c2 s']]; try done. apply Forall_cons_1 in Hc2 as [H1 _].
    destruct (hex_char_facts c1 H1) as (_ & _ & _ & _ & -> & -> & _). by rewrite andb_false_r. }
  rewrite Hx, Hp. destruct (Z.leb_spec (2 ^ 32) n); [lia|done].
Qed.

Lemma strtok_hex8 n rest : 0 <= n -> no_nul rest ->
  forall b, cstr b = print_hex8 n ++ 45 :: rest -> strtok b 45 = print_hex8 n.
Proof.
  intros Hn Hr b E. unfold strtok. rewrite E.
  pose proof (print_hex8_chars n Hn) as Hc.
  destruct (print_hex8_cons n Hn) as (c & s & E'). rewrite E' in *.
  pose proof (proj1 (Forall_cons_1 _ _ _ Hc)) as Hc1. cbn [app skip_while].
  destruct (hex_char_facts c Hc1) as (_ & _ & -> & _).
  rewrite app_comm_cons. apply take_while_app; [|done].
  eapply Forall_impl; [exact Hc|]. intros c' H. destruct (hex_char_facts c' H) as (_ & _ & -> & _). done.
Qed.

Lemma render_line_ok m : wf_mapping m -> line_ok 1024 (render m).
Proof.
  intros (Hs & Hr & Hl). exists (print_hex8 (m_start m) ++ [45] ++ m_rest m).
  split; [unfold render; by rewrite <- !app_assoc|]. split.
  - apply Forall_app. split; [|by constructor].
    eapply Forall_impl; [by apply print_hex8_chars; lia|]. intros c H.
    by destruct (hex_char_facts c H) as (_ & _ & _ & _ & _ & _ & ? & ?).
  - unfold render. rewrite !length_app. cbn [length].
    assert ((length (print_hex8 (m_start m)) <= 32)%nat); [|lia].
    unfold print_hex8. rewrite length_app, repeat_length.
    unfold print_digits. rewrite length_fmap.
    destruct (digits_spec 16 ltac:(lia) (m_start m)) as (_ & _ & _ & _ & _ & _ & Hd); [lia|].
    assert (Z.log2 (m_start m) < 32) by (apply Z.log2_lt_pow2; lia). lia.
Qed.

(** ** Properties *)

Lemma module_base_read ms line name :
  Forall wf_mapping ms -> length line = 1024%nat ->
  get_module_base (Some (concat (render <$> ms))) line name =
    Some (let b := module_base ms (cstr name) in if b =? 0x8000 then 0 else b).
Proof.
  intros Hms Hl. cbn [get_module_base].
  assert (Hf : (length (concat (render <$> ms)) < S (length (concat (render <$> ms))))%nat) by lia.
  revert Hf. generalize (S (length (concat (render <$> ms)))) as fuel.
  revert line Hl. induction Hms as [|m ms Hm Hms IH]; intros line Hl fuel Hf;
    (destruct fuel as [|fuel]; [lia|]); [done|].
  cbn [fmap list_fmap concat maps_loop].
  pose proof (render_line_ok m Hm) as Hok. rewrite <- Hl in Hok.
  destruct (fgets_whole line (render m) (concat (render <$> ms)) Hok) as (b & -> & Hb & Hbl).
  rewrite Hb. unfold module_base. cbn [list_find].
  destruct (strstr (render m) (cstr name)) eqn:E.
  - rewrite decide_True by done. destruct Hm as (Hs & Hr & _).
    rewrite (strtok_hex8 (m_start m) (m_rest m ++ [NL])); [|lia| |by rewrite Hb].
    + destruct (print_hex8_cons (m_start m)) as (c & s & E'); [lia|].
      rewrite E', <- E', strtoul16_hex8 by lia. done.
    + apply Forall_app. split; [|by repeat constructor].
      eapply Forall_impl; [exact Hr|]. by intros c [_ ?].
  - rewrite decide_False by done. rewrite IH.
    + unfold module_base. by destruct (list_find _ ms) as [[i m']|].
    + congruence.
    + cbn [fmap list_fmap concat] in Hf. rewrite length_app in Hf. unfold render at 1 in Hf.
      rewrite length_app in Hf. cbn in Hf. lia.
Qed.

(** [get_module_base] on a maps file as the kernel prints it returns the
    start of the first mapping whose line contains the module's name, and 0 when
    there is none; 0x8000 (a position-dependent executable) counts as 0. The loop
    ends by itself: the model's fuel is one more than the bytes of the file. *)
Theorem get_module_base_spec ms line name :
  Forall wf_mapping ms -> length line = 1024%nat ->
  get_module_base (Some (concat (render <$> ms))) line name =
    Some (let b := module_base ms (cstr name) in if b =? 0x8000 then 0 else b).
Proof. apply module_base_read. Qed.

(** [get_remote_addr] finds a function of a library in another process: if
    the library is loaded at [b1] in the injector and at [b2] in the target and
    the function is [off] bytes into it, the result is [b2 + off], modulo 2^32. *)
Theorem get_remote_addr_relocates ms1 ms2 line name b1 b2 off :
  Forall wf_mapping ms1 -> Forall wf_mapping ms2 -> length line = 1024%nat ->
  module_base ms1 (cstr name) = b1 -> module_base ms2 (cstr name) = b2 ->
  b1 <> 0x8000 -> b2 <> 0x8000 ->
  get_remote_addr (Some (concat (render <$> ms1))) (Some (concat (render <$> ms2))) line name
    (u32 (b1 + off)) = Some (u32 (b2 + off)).
Proof.
  intros H1 H2 Hl E1 E2 N1 N2. unfold get_remote_addr.
  rewrite !module_base_read by done. cbn [mbind option_bind].
  rewrite E1, E2, (proj2 (Z.eqb_neq b1 _)), (proj2 (Z.eqb_neq b2 _)) by done.
  f_equal. autorewrite with cint_rw. f_equal. lia.
Qed.

(** The entry [find_pid_of] is meant to find. *)
Definition is_process (cmdline_of : Z -> option (list Z)) (name d_name : list Z) : Prop :=
  atoi d_name <> 0 /\
  exists content, cmdline_of (atoi d_name) = Some content /\ content <> [] /\
    cstr (fst (fgets_line 255 content)) = cstr name.

Lemma fgets_cstr buf content : content <> [] -> length buf = 256%nat ->
  exists b r, fgets buf content = Some (b, r) /\ length b = 256%nat /\
    cstr b = cstr (fst (fgets_line 255 content)).
Proof.
  intros Hne Hl. destruct content as [|c content]; [done|].
  destruct (fgets buf (c :: content)) as [[b r]|] eqn:E.
  2:{ unfold fgets in E. by destruct (fgets_line _ _). }
  exists b, r. split; [done|]. split.
  { rewrite <- Hl. eapply fgets_length; [lia|done]. }
  unfold fgets in E. rewrite Hl in E. cbn [Nat.sub] in E.
  destruct (fgets_line 255 (c :: content)) as [l r'] eqn:E'.
  injection E as <- _. cbn [fst]. generalize (drop (S (length l)) buf). clear.
  intros tl. induction l as [|x l IH]; simpl; [done|]. destruct (x =? NUL); [done|]. by rewrite IH.
Qed.

(** [find_pid_of] returns the number of the first directory entry that is a
    process of that name, and -1 when there is none. An entry without a number,
    an unreadable or empty command line never matches: the bytes of an earlier
    process that an empty file leaves in the buffer are those of a process that
    did not match. Only the uninitialised buffer could match by accident. *)
Theorem find_pid_of_spec cmdline_of name entries cmdline :
  length cmdline = 256%nat -> streq name cmdline = false ->
  let pid := find_pid_of cmdline_of (Some name) (Some entries) cmdline in
  (exists i d, entries !! i = Some d /\ is_process cmdline_of name d /\ pid = atoi d /\
     forall j d', (j < i)%nat -> entries !! j = Some d' -> ~ is_process cmdline_of name d') \/
  (pid = -1 /\ Forall (fun d => ~ is_process cmdline_of name d) entries).
Proof.
  intros Hl Hbuf. cbn [find_pid_of]. revert cmdline Hl Hbuf.
  induction entries as [|d entries IH]; intros cmdline Hl Hbuf; [right; by split|].
  assert (Hskip : ~ is_process cmdline_of name d -> forall b, length b = 256%nat ->
    streq name b = false ->
    let pid := find_pid_loop cmdline_of name entries b in
    (exists i d0, (d :: entries) !! i = Some d0 /\ is_process cmdline_of name d0 /\ pid = atoi d0 /\
      forall j d', (j < i)%nat -> (d :: entries) !! j = Some d' -> ~ is_process cmdline_of name d') \/
    (pid = -1 /\ Forall (fun d0 => ~ is_process cmdline_of name d0) (d :: entries))).
  { intros Hd b Hb1 Hb2. destruct (IH b Hb1 Hb2) as [(i & d0 & Hi & Hp & E & Hmin)|[E HF]].
    - left. exists (S i), d0. do 3 (split; [done|]). intros [|j] d' Hj Hd'; [by simplify_eq/=|].
      apply (Hmin j); [lia|done].
    - right. split; [done|]. by constructor. }
  cbn [find_pid_loop]. destruct (Z.eqb_spec (atoi d) 0) as [E0|E0]; cbn [negb].
  { apply Hskip; [by intros [? _]|done..]. }
  destruct (cmdline_of (atoi d)) as [content|] eqn:Ec.
  2:{ apply Hskip; [|done..]. intros (_ & c & Hc & _). congruence. }
  destruct (decide (content = [])) as [->|Hne].
  { cbn [fgets]. rewrite Hbuf. apply Hskip; [|done..]. intros (_ & c & Hc & Hn & _). congruence. }
  destruct (fgets_cstr cmdline content Hne Hl) as (b & r & -> & Hb & Hcs).
  destruct (streq name b) eqn:Es.
  - left. exists 0%nat, d. unfold streq in Es. apply bool_decide_eq_true in Es.
    split; [done|]. split; [|split; [done|lia]]. split; [done|]. exists content.
    split; [done|]. split; [done|]. congruence.
  - apply Hskip; try done. intros (_ & c & Hc & _ & Hcs'). unfold streq in Es.
    apply bool_decide_eq_false in Es. congruence.
Qed.

(** ** Witnesses *)

Definition ex_maps (base : Z) : list mapping :=
  [Mapping 0x8000 (bytes_of "0000a000 r-xp 00000000 b3:15 612 /system/bin/app_process");
   Mapping base (bytes_of "4006a000 r-xp 00000000 b3:15 1024 /system/lib/libc.so")].

Definition ex_libc : list Z := bytes_of "/system/lib/libc.so".

Lemma ex_maps_wf base : 0 < base < 2 ^ 32 -> Forall wf_mapping (ex_maps base).
Proof.
  intros Hb. repeat constructor; simpl; try lia;
    apply (bool_decide_unpack _); vm_compute; exact I.
Qed.

Lemma get_module_base_spec_witness :
  get_module_base (Some (concat (render <$> ex_maps 0x40028000))) (repeat 7 1024) ex_libc
    = Some 0x40028000.
Proof.
  rewrite (get_module_base_spec (ex_maps 0x40028000) (repeat 7 1024) ex_libc);
    [vm_compute; reflexivity | apply ex_maps_wf; lia | reflexivity].
Defined.

Lemma get_remote_addr_relocates_witness :
  get_remote_addr (Some (concat (render <$> ex_maps 0x40028000)))
    (Some (concat (render <$> ex_maps 0xb6f00000))) (repeat 7 1024) ex_libc
    (u32 (0x40028000 + 0x1234)) = Some (u32 (0xb6f00000 + 0x1234)).
Proof.
  apply (get_remote_addr_relocates (ex_maps 0x40028000) (ex_maps 0xb6f00000));
    [apply ex_maps_wf; lia | apply ex_maps_wf; lia | reflexivity | vm_compute; reflexivity
    | vm_compute; reflexivity | lia | lia].
Defined.

Definition ex_cmdline (pid : Z) : option (list Z) :=
  if pid =? 2 then Some []
  else if pid =? 312 then Some (bytes_of "system_server" ++ [0] ++ bytes_of "-x")
  else None.

Lemma find_pid_of_spec_witness :
  let pid := find_pid_of ex_cmdline (Some (bytes_of "system_server"))
    (Some [bytes_of "acpi"; bytes_of "2"; bytes_of "312"]) (repeat 0 256) in
  pid = 312 /\
  ((exists d, is_process ex_cmdline (bytes_of "system_server") d /\ pid = atoi d) \/ pid = -1).
Proof.
  split; [vm_compute; reflexivity|].
  destruct (find_pid_of_spec ex_cmdline (bytes_of "system_server")
    [bytes_of "acpi"; bytes_of "2"; bytes_of "312"] (repeat 0 256)) as [(i & d & _ & Hd & E & _)|[E _]];
    [reflexivity | reflexivity | left; exists d; split; [exact Hd|exact E] | right; exact E].
Defined.
