(* ===== verification/Inject.v ===== *)
(** * The injector: the rest of [src/jni/elfinject.c]

    Remote calls over ptrace and the injection itself. The kernel is an
    interface ([PtraceText] of PtraceMem.v and [PtraceCtl] below); the registers
    of the two supported processors are instances of [Abi]. *)

From S2P Require Import Prelude CString PtraceMem ProcFs.

(** ** Interface of the kernel *)
Class PtraceCtl (R T : Type) := {
  pt_attach : T -> T * Z;
  pt_getregs : T -> option R;
  pt_setregs : R -> T -> T * Z;
  pt_cont : T -> T * Z;
  pt_detach : T -> T * Z;
  (** [waitpid(pid, &stat, WUNTRACED)]: the new value of [stat]. *)
  pt_waitpid : Z -> T -> T * Z;
  proc_maps : T -> option (list Z);
  (** An attach has succeeded and no detach has been requested since. *)
  attached : T -> bool
}.

Class PtraceCtlLaws (R T : Type) `{!PtraceText T, !PtraceCtl R T} := {
  attach_attached t : 0 <= snd (pt_attach t) -> attached (fst (pt_attach t)) = true;
  setregs_attached r t : attached (fst (pt_setregs r t)) = attached t;
  cont_attached t : attached (fst (pt_cont t)) = attached t;
  waitpid_attached s t : attached (fst (pt_waitpid s t)) = attached t;
  poke_attached t a w : attached (poketext t a w) = attached t;
  detach_detached t : attached (fst (pt_detach t)) = false;
  setregs_getregs r t : 0 <= snd (pt_setregs r t) -> pt_getregs (fst (pt_setregs r t)) = Some r
}.

(** The registers: how a call is set up in them, and the two that are read. *)
Class Abi (R : Type) := {
  abi_setup : forall {T} `{!PtraceText T}, T -> Z -> list Z -> R -> T * R;
  ptrace_retval : R -> Z;
  ptrace_ip : R -> Z
}.

(** Setting up a call touches the target's memory only by poking words. *)
Class AbiLaws (R : Type) `{!Abi R} := {
  abi_setup_pokes {T} `{!PtraceText T} (P : T -> Prop) :
    (forall t a w, P t -> P (poketext t a w)) ->
    forall t addr ps (r : R), P t -> P (fst (abi_setup t addr ps r))
}.

(** [count] longs as the bytes of a C array. *)
Definition longs (params : list Z) : list Z := concat (le_bytes 4 <$> params).

(** ** ARM *)
Module Arm.

(** [struct pt_regs]: r0 to r15, cpsr, orig_r0. *)
Record pt_regs := Regs { uregs : list Z }.

Definition ARM_sp : nat := 13.
Definition ARM_lr : nat := 14.
Definition ARM_pc : nat := 15.
Definition ARM_cpsr : nat := 16.
Definition CPSR_T_MASK : Z := Z.shiftl 1 5.

Definition reg (r : pt_regs) (i : nat) : Z := uregs r !!! i.
Definition set_reg (i : nat) (v : Z) (r : pt_regs) : pt_regs := Regs (<[i := v]> (uregs r)).

(** [for (i = 0; i < num_params && i < 4; i++) regs->uregs[i] = params[i];] *)
Fixpoint set_params (i : nat) (params : list Z) (r : pt_regs) : pt_regs :=
  match params with
  | [] => r
  | p :: params => if (i <? 4)%nat then set_params (S i) params (set_reg i p r) else r
  end.

Definition setup {T} `{!PtraceText T} (t : T) (addr : Z) (params : list Z) (r : pt_regs) : T * pt_regs :=
  let n := length params in
  let i := Nat.min n 4 in
  let r := set_params 0 params r in
  let '(t, r) :=
    if (i <? n)%nat then
      let sp := u32 (reg r ARM_sp - Z.of_nat (n - i) * 4) in
      (ptrace_writedata t sp (longs (drop i params)) ((n - i) * 4), set_reg ARM_sp sp r)
    else (t, r) in
  let r := set_reg ARM_pc addr r in
  let r :=
    if negb (Z.land (reg r ARM_pc) 1 =? 0) then
      set_reg ARM_cpsr (Z.lor (reg r ARM_cpsr) CPSR_T_MASK)
        (set_reg ARM_pc (Z.land (reg r ARM_pc) (u32 (Z.lnot 1))) r)
    else set_reg ARM_cpsr (Z.land (reg r ARM_cpsr) (u32 (Z.lnot CPSR_T_MASK))) r in
  (t, set_reg ARM_lr 0 r).

#[global] Instance arm_abi : Abi pt_regs := {
  abi_setup T _ := @setup T _;
  ptrace_retval r := reg r 0;
  ptrace_ip r := reg r ARM_pc
}.

End Arm.

(** ** x86 *)
Module X86.

Record user_regs_struct := Regs {
  ebx : Z; ecx : Z; edx : Z; esi : Z; edi : Z; ebp : Z; eax : Z;
  xds : Z; xes : Z; xfs : Z; xgs : Z; orig_eax : Z;
  eip : Z; xcs : Z; eflags : Z; esp : Z; xss : Z
}.

Definition set_sp_ip (sp ip : Z) (r : user_regs_struct) : user_regs_struct :=
  Regs (ebx r) (ecx r) (edx r) (esi r) (edi r) (ebp r) (eax r) (xds r) (xes r) (xfs r) (xgs r)
    (orig_eax r) ip (xcs r) (eflags r) sp (xss r).

Definition setup {T} `{!PtraceText T} (t : T) (addr : Z) (params : list Z) (r : user_regs_struct)
    : T * user_regs_struct :=
  let n := length params in
  let sp := u32 (esp r - Z.of_nat n * 4) in
  let t := ptrace_writedata t sp (longs params) (n * 4) in
  let sp := u32 (sp - 4) in
  let t := ptrace_writedata t sp (le_bytes 4 0) 4 in
  (t, set_sp_ip sp addr r).

#[global] Instance x86_abi : Abi user_regs_struct := {
  abi_setup T _ := @setup T _;
  ptrace_retval := eax;
  ptrace_ip := eip
}.

End X86.

(** ** Requests, with the result of the C functions *)
Section Requests.
Context {R T : Type} `{!PtraceText T, !PtraceCtl R T, !Abi R}.

Definition result_of (res : T * Z) : T * Z := (fst res, if snd res <? 0 then -1 else 0).

Definition ptrace_getregs (t : T) : option R := pt_getregs t.
Definition ptrace_setregs (r : R) (t : T) : T * Z := result_of (pt_setregs r t).
Definition ptrace_continue (t : T) : T * Z := result_of (pt_cont t).
Definition ptrace_detach (t : T) : T * Z := result_of (pt_detach t).

Definition ptrace_attach (t : T) : T * Z :=
  let '(t, res) := pt_attach t in
  if res <? 0 then (t, -1) else (fst (pt_waitpid 0 t), 0).

(** [while (stat != 0xb7f)]: the target is resumed until it stops on the null
    return address. [None] when the fuel does not suffice. *)
Fixpoint wait_stopped (fuel : nat) (stat : Z) (t : T) : option (T * Z) :=
  if stat =? 0xb7f then Some (t, 0)
  else match fuel with
  | O => None
  | S fuel =>
      let '(t, res) := ptrace_continue t in
      if res =? -1 then Some (t, -1)
      else let '(t, stat) := pt_waitpid stat t in wait_stopped fuel stat t
  end.

(** The result, and the registers the caller's structure holds afterwards. *)
Definition ptrace_call (fuel : nat) (t : T) (addr : Z) (params : list Z) (r : R)
    : option (T * R * Z) :=
  let '(t, r) := abi_setup t addr params r in
  let '(t, res) := ptrace_setregs r t in
  if res =? -1 then Some (t, r, -1)
  else
    let '(t, res) := ptrace_continue t in
    if res =? -1 then Some (t, r, -1)
    else
      let '(t, stat) := pt_waitpid 0 t in
      '(t, res) ← wait_stopped fuel stat t;
      Some (t, r, res).

Definition ptrace_call_wrapper (fuel : nat) (t : T) (addr : Z) (params : list Z) (r : R)
    : option (T * R * Z) :=
  '(t, r, res) ← ptrace_call fuel t addr params r;
  if res =? -1 then Some (t, r, -1)
  else match ptrace_getregs t with
  | None => Some (t, r, -1)
  | Some r => Some (t, r, 0)
  end.

End Requests.

(** ** The injection *)

(** How a stretch of [inject_remote_process] ends: with a value, at the label
    [exit] with the value of [ret], by dereferencing a null pointer, or not
    within the fuel. *)
Inductive outcome (S A : Type) : Type :=
| Done (a : A) (s : S)
| Exit (ret : Z) (s : S)
| Crash
| OutOfFuel.
Arguments Done {S A} a s.
Arguments Exit {S A} ret s.
Arguments Crash {S A}.
Arguments OutOfFuel {S A}.

Record inj_env := InjEnv {
  self_maps : option (list Z);
  line_buf : list Z;
  local_mmap : Z;
  local_dlopen : Z;
  local_dlsym : Z;
  local_dlclose : Z;
  local_dlerror : Z;
  (** Whether [fopen(logfilepath, "a+")] succeeds. *)
  log_opens : bool
}.

Definition libc_path : list Z := bytes_of "/system/lib/libc.so".
Definition linker_path : list Z := bytes_of "/system/bin/linker".
Definition FUNCTION_NAME_ADDR_OFFSET : Z := 0x100.
Definition FUNCTION_PARAM_ADDR_OFFSET : Z := 0x200.
(** [RTLD_NOW | RTLD_GLOBAL], [PROT_READ | PROT_WRITE | PROT_EXEC] and
    [MAP_ANONYMOUS | MAP_PRIVATE] on the 32-bit Android targets. *)
Definition RTLD_NOW_GLOBAL : Z := 2.
Definition PROT_RWX : Z := 7.
Definition MAP_ANON_PRIVATE : Z := 0x22.

Section Injection.
Context {R T : Type} `{!PtraceText T, !PtraceCtl R T, !Abi R}.
Context (env : inj_env) (fuel : nat).

Definition M (A : Type) : Type := T * R -> outcome (T * R) A.

Definition mret {A} (a : A) : M A := fun s => Done a s.

Definition mbnd {A B} (m : M A) (k : A -> M B) : M B := fun s =>
  match m s with
  | Done a s => k a s
  | Exit ret s => Exit ret s
  | Crash => Crash
  | OutOfFuel => OutOfFuel
  end.

#[local] Instance M_bind : MBind M := fun A B k m => mbnd m k.

Definition initlog : Z := if log_opens env then 0 else -1.

(** [ret = ...; goto exit;] *)
Definition goto_exit {A} (ret : Z) : M A := fun s => Exit ret s.

(** [if (initlog()) { fprintf(log_file, ...); fclose(log_file); } goto exit;]
    The file is printed to exactly when it could not be opened. *)
Definition log_and_exit {A} (ret : Z) : M A := fun s =>
  if negb (initlog =? 0) then Crash else goto_exit ret s.

Definition remote_addr (module_name : list Z) (local_addr : Z) : M Z := fun s =>
  match get_remote_addr (self_maps env) (proc_maps (fst s)) (line_buf env) module_name local_addr with
  | Some a => Done a s
  | None => Crash
  end.

(** [if (ptrace_call_wrapper(...) == -1) { ... goto exit; }], then the value
    [ptrace_retval(&regs)] the caller reads. *)
Definition call (ret : Z) (addr : Z) (params : list Z) : M Z := fun s =>
  match ptrace_call_wrapper fuel (fst s) addr params (snd s) with
  | None => OutOfFuel
  | Some (t, r, res) =>
      if res =? -1 then log_and_exit ret (t, r) else Done (ptrace_retval r) (t, r)
  end.

(** [ptrace_writedata(target_pid, addr, str, strlen(str) + 1)]. *)
Definition write_string (addr : Z) (str : list Z) : M unit := fun s =>
  Done tt (ptrace_writedata (fst s) addr (cstr str ++ [NUL]) (strlen str + 1), snd s).

(** From the call of [mmap] to the call of [dlclose]. *)
Definition inject_calls (library_path cydia_path function_name param : list Z) : M unit :=
  mmap_addr ← remote_addr libc_path (local_mmap env);
  map_base ← call (-1) mmap_addr [0; 0x4000; PROT_RWX; MAP_ANON_PRIVATE; u32 (-1); 0];
  dlopen_addr ← remote_addr linker_path (local_dlopen env);
  dlsym_addr ← remote_addr linker_path (local_dlsym env);
  dlclose_addr ← remote_addr linker_path (local_dlclose env);
  dlerror_addr ← remote_addr linker_path (local_dlerror env);
  write_string (u32 (map_base + 0x300)) cydia_path;;
  libsubstrate ← call (-1) dlopen_addr [u32 (map_base + 0x300); RTLD_NOW_GLOBAL];
  write_string map_base library_path;;
  sohandle ← call (-1) dlopen_addr [map_base; RTLD_NOW_GLOBAL];
  if sohandle =? 0 then goto_exit (-1)
  else
    write_string (u32 (map_base + FUNCTION_NAME_ADDR_OFFSET)) function_name;;
    hook_entry_addr ← call (-1) dlsym_addr [sohandle; u32 (map_base + FUNCTION_NAME_ADDR_OFFSET)];
    write_string (u32 (map_base + FUNCTION_PARAM_ADDR_OFFSET)) param;;
    ret ← call (-1) hook_entry_addr [u32 (map_base + FUNCTION_PARAM_ADDR_OFFSET)];
    (* the address passed is the injector's own [dlclose], not [dlclose_addr] *)
    call ret (local_dlclose env) [sohandle];;
    mret tt.

Definition module_base_of (library_path : list Z) : M Z := fun s =>
  match get_module_base (proc_maps (fst s)) (line_buf env) library_path with
  | Some a => Done a s
  | None => Crash
  end.

Definition attach_target : M Z := fun s =>
  let '(t, res) := ptrace_attach (fst s) in Done res (t, snd s).

(** [ptrace_getregs(target_pid, &regs)] and the copy in [original_regs]. *)
Definition save_registers : M R := fun s =>
  match ptrace_getregs (fst s) with
  | Some r => Done r (fst s, r)
  | None => log_and_exit (-1) s
  end.

(** The results of the last two requests are not looked at. *)
Definition restore_registers (original_regs : R) : M unit := fun s =>
  Done tt (fst (ptrace_setregs original_regs (fst s)), snd s).

Definition detach_target : M unit := fun s => Done tt (fst (ptrace_detach (fst s)), snd s).

Definition inject_remote_process (library_path cydia_path function_name param : list Z) : M Z :=
  libaddr ← module_base_of library_path;
  if negb (libaddr =? 0) then goto_exit (-2)
  else
    attach ← attach_target;
    if attach =? -1 then log_and_exit (-1)
    else
      original_regs ← save_registers;
      inject_calls library_path cydia_path function_name param;;
      restore_registers original_regs;;
      detach_target;;
      mret 0.

(** [return ret;] at the label [exit]. *)
Definition returned (o : outcome (T * R) Z) : option (Z * T) :=
  match o with
  | Done ret s | Exit ret s => Some (ret, fst s)
  | Crash | OutOfFuel => None
  end.

(** [main]: [process pid] is the process of that number, [dir], [cmdline_of] and
    [buf] what [find_pid_of] reads. [None] is a null pointer dereferenced or a call
    that does not return. *)
Definition main (argv : list (list Z)) (cmdline_of : Z -> option (list Z))
    (dir : option (list (list Z))) (buf : list Z) (process : Z -> T) (regs0 : R) : option Z :=
  match argv with
  | [_; process_name; speed; so_path; cydia_path] =>
      let target_pid := find_pid_of cmdline_of (Some process_name) dir buf in
      if target_pid =? -1 then (if negb (initlog =? 0) then None else Some (-1))
      else
        '(ret, _) ← returned (inject_remote_process so_path cydia_path (bytes_of "hook_entry") speed
                       (process target_pid, regs0));
        Some (if ret =? 0 then 0 else -1)
  | _ => Some (-1)
  end.

End Injection.

Lemma writedata_pokes {T} `{!PtraceText T} (P : T -> Prop) :
  (forall t a w, P t -> P (poketext t a w)) ->
  forall t dest data size, P t -> P (ptrace_writedata t dest data size).
Proof.
  intros HP t dest data size Ht.
  assert (Hw : forall j t dest data, P t -> P (write_words t dest data j)).
  { induction j as [|j IH]; intros t' d da H; cbn [write_words]; [done|]. by apply IH, HP. }
  unfold ptrace_writedata. destruct (_ <? _)%nat; [apply HP|]; by apply Hw.
Qed.

#[export] Instance arm_abi_laws : AbiLaws Arm.pt_regs.
Proof.
  constructor. intros T ? P HP t addr ps r Ht. unfold abi_setup, Arm.arm_abi, Arm.setup.
  destruct (_ <? _)%nat; cbn [fst]; [|done]. by apply writedata_pokes.
Qed.

#[export] Instance x86_abi_laws : AbiLaws X86.user_regs_struct.
Proof.
  constructor. intros T ? P HP t addr ps r Ht. unfold abi_setup, X86.x86_abi, X86.setup.
  cbn [fst]. by repeat apply writedata_pokes.
Qed.

(** ** What the injection does to the target *)

Section Attachment.
Context {R T : Type} `{!PtraceText T, !PtraceCtl R T, !Abi R, !PtraceCtlLaws R T, !AbiLaws R}.
Context (env : inj_env) (fuel : nat).

Lemma writedata_attached (t : T) dest data size :
  attached (ptrace_writedata t dest data size) = attached t.
Proof using PtraceCtlLaws0.
  apply (writedata_pokes (fun t' => attached t' = attached t)); [|done].
  intros. by rewrite poke_attached.
Qed.

Lemma setup_attached (t : T) addr ps (r : R) : attached (fst (abi_setup t addr ps r)) = attached t.
Proof using PtraceCtlLaws0 AbiLaws0.
  apply (abi_setup_pokes (fun t' => attached t' = attached t)); [|done].
  intros. by rewrite poke_attached.
Qed.

Lemma wait_stopped_attached n : forall stat (t t' : T) res,
  wait_stopped n stat t = Some (t', res) -> attached t' = attached t.
Proof using PtraceCtlLaws0.
  induction n as [|n IH]; intros stat t t' res; cbn [wait_stopped];
    (destruct (stat =? _); [by intros [= -> _]|]); [done|].
  unfold ptrace_continue, result_of. pose proof (cont_attached t) as Hc.
  destruct (pt_cont t) as [t1 r1]. cbn [fst snd] in *.
  destruct (_ =? -1); [intros [= <- _]; done|].
  pose proof (waitpid_attached stat t1) as Hw. destruct (pt_waitpid stat t1) as [t2 s2].
  intros H. apply IH in H. simpl in Hw. congruence.
Qed.

Lemma ptrace_call_attached (t : T) addr ps r t' r' res :
  ptrace_call fuel t addr ps r = Some (t', r', res) -> attached t' = attached t.
Proof using All.
  unfold ptrace_call, ptrace_setregs, ptrace_continue, result_of.
  pose proof (setup_attached t addr ps r) as H0. destruct (abi_setup t addr ps r) as [t0 r0].
  pose proof (setregs_attached r0 t0) as H1. destruct (pt_setregs r0 t0) as [t1 res1].
  pose proof (cont_attached t1) as H2. cbn [fst snd] in *.
  destruct (_ =? -1); [intros; simplify_eq; congruence|].
  destruct (pt_cont t1) as [t2 res2]. cbn [fst snd] in *.
  destruct (_ =? -1); [intros; simplify_eq; congruence|].
  pose proof (waitpid_attached 0 t2) as H3. destruct (pt_waitpid 0 t2) as [t3 stat]. cbn [fst] in *.
  intros ([t4 res4] & Hw & E)%bind_Some. simplify_eq. apply wait_stopped_attached in Hw. congruence.
Qed.

(** A stretch of the injection that neither attaches nor detaches. *)
Definition keeps {A} (m : @M R T A) : Prop :=
  forall s, match m s with
            | Done _ s' | Exit _ s' => attached (fst s') = attached (fst s)
            | Crash | OutOfFuel => True
            end.

Lemma keeps_bind {A B} (m : @M R T A) (k : A -> @M R T B) :
  keeps m -> (forall a, keeps (k a)) -> keeps (mbnd m k).
Proof using.
  intros Hm Hk s. unfold mbnd. specialize (Hm s). destruct (m s) as [a s'|ret s'| |]; try done.
  specialize (Hk a s'). destruct (k a s'); congruence.
Qed.

Lemma keeps_ret {A} (a : A) : keeps (mret a).
Proof using. by intros s. Qed.

Lemma keeps_exit {A} ret : keeps (goto_exit (A := A) ret).
Proof using. by intros s. Qed.

Lemma keeps_log {A} ret : keeps (log_and_exit env (A := A) ret).
Proof using. intros s. unfold log_and_exit. by destruct (negb _). Qed.

Lemma keeps_remote_addr name a : keeps (remote_addr env name a).
Proof using. intros s. unfold remote_addr. by destruct (get_remote_addr _ _ _ _ _). Qed.

Lemma keeps_write addr str : keeps (write_string addr str).
Proof using PtraceCtlLaws0. intros s. apply writedata_attached. Qed.

Lemma keeps_call ret addr ps : keeps (call env fuel ret addr ps).
Proof using All.
  intros s. unfold call, ptrace_call_wrapper.
  destruct (ptrace_call fuel (fst s) addr ps (snd s)) as [[[t r] res]|] eqn:E; cbn [mbind option_bind]; [|done].
  apply ptrace_call_attached in E. destruct (res =? -1).
  - cbn. unfold log_and_exit. by destruct (negb _).
  - destruct (ptrace_getregs t); cbn; [done|]. unfold log_and_exit. by destruct (negb _).
Qed.

Lemma keeps_calls lib cydia f p : keeps (inject_calls env fuel lib cydia f p).
Proof using All.
  unfold inject_calls, mbind, M_bind.
  repeat first
    [ apply keeps_bind; [|intros ?] | apply keeps_ret | apply keeps_exit | apply keeps_remote_addr
    | apply keeps_write | apply keeps_call
    | match goal with |- keeps (if ?b then _ else _) => destruct b end ].
Qed.

End Attachment.

Section Outcomes.
Context {R T : Type} `{!PtraceText T, !PtraceCtl R T, !Abi R, !PtraceCtlLaws R T, !AbiLaws R}.
Context (env : inj_env) (fuel : nat).

Lemma attach_result (t : T) :
  0 <= snd (pt_attach t) -> attached (fst (ptrace_attach t)) = true /\ snd (ptrace_attach t) = 0.
Proof using PtraceCtlLaws0.
  intros Ha. pose proof (attach_attached t Ha) as H. unfold ptrace_attach.
  destruct (pt_attach t) as [t1 res]. cbn [fst snd] in *.
  rewrite (proj2 (Z.ltb_ge res 0)) by done. cbn [fst snd]. by rewrite waitpid_attached.
Qed.

(** C33. Where the injection leaves the target, once it could attach to it: when it
    reports success (0), the last two requests were to give the target the
    registers it had when it was attached, and to detach; on every error path,
    whatever was returned, the target is still attached (and stopped in the
    middle of a remote call): no error path detaches. *)
Theorem inject_leaves_target lib cydia f p (t : T) r0 :
  get_module_base (proc_maps t) (line_buf env) lib = Some 0 -> 0 <= snd (pt_attach t) ->
  match inject_remote_process env fuel lib cydia f p (t, r0) with
  | Done ret s => ret = 0 /\ attached (fst s) = false /\
      exists orig t1, pt_getregs (fst (ptrace_attach t)) = Some orig /\
        fst s = fst (pt_detach (fst (pt_setregs orig t1)))
  | Exit ret s => attached (fst s) = true
  | Crash | OutOfFuel => True
  end.
Proof using PtraceCtlLaws0 AbiLaws0.
  intros Hb Ha. destruct (attach_result t Ha) as [Hat Hres].
  unfold inject_remote_process, mbind, M_bind, mbnd, module_base_of. cbn [fst]. rewrite Hb.
  cbn [negb Z.eqb]. unfold attach_target. cbn [fst snd].
  destruct (ptrace_attach t) as [t1 res]. cbn [fst snd] in Hat, Hres. subst res. cbn [Z.eqb].
  unfold save_registers, ptrace_getregs. cbn [fst].
  destruct (pt_getregs t1) as [orig|] eqn:Hg.
  2:{ unfold log_and_exit. destruct (negb _); [done|exact Hat]. }
  pose proof (keeps_calls env fuel lib cydia f p (t1, orig)) as Hk.
  destruct (inject_calls _ _ _ _ _ _ (t1, orig)) as [u s|ret s| |]; try done.
  - unfold restore_registers, detach_target, ptrace_setregs, ptrace_detach, result_of. cbn [fst snd mret].
    split; [done|]. split; [apply detach_detached|]. exists orig, (fst s). done.
  - cbn [fst] in Hk. congruence.
Qed.

(** A library that is already mapped is not injected again: the result is -2
    and not one request is made to the target. *)
Theorem inject_already_loaded lib cydia f p (t : T) r0 base :
  get_module_base (proc_maps t) (line_buf env) lib = Some base -> base <> 0 ->
  inject_remote_process env fuel lib cydia f p (t, r0) = Exit (-2) (t, r0).
Proof using.
  intros Hb Hne. unfold inject_remote_process, mbind, M_bind, mbnd, module_base_of. cbn [fst].
  rewrite Hb. by rewrite (proj2 (Z.eqb_neq base 0)).
Qed.

(** A target that, resumed [n] times, stops each time, the last time on the null
    return address. *)
Inductive stops : Z -> T -> nat -> T -> Prop :=
| stops_now t : stops 0xb7f t 0 t
| stops_later stat t t2 stat2 n t3 :
    stat <> 0xb7f -> 0 <= snd (pt_cont t) -> pt_waitpid stat (fst (pt_cont t)) = (t2, stat2) ->
    stops stat2 t2 n t3 -> stops stat t (S n) t3.

Lemma wait_stopped_stops stat t n t' : stops stat t n t' ->
  forall k, (n <= k)%nat -> wait_stopped k stat t = Some (t', 0).
Proof using.
  induction 1 as [t|stat t t2 stat2 n t3 Hs Hc Hw _ IH]; intros k Hk.
  - by destruct k.
  - destruct k as [|k]; [lia|]. cbn [wait_stopped].
    rewrite (proj2 (Z.eqb_neq stat _)) by done. unfold ptrace_continue, result_of.
    destruct (pt_cont t) as [t1 res1]. cbn [fst snd] in *.
    rewrite (proj2 (Z.ltb_ge res1 0)) by done. cbn [Z.eqb]. rewrite Hw. apply IH. lia.
Qed.

(** A remote call returns: if the registers can be set and the target, resumed
    [n] times more, stops at last on the null return address, [ptrace_call_wrapper]
    returns 0 with the registers read there, for any fuel from [n] on; signals
    the target stops on before that do not end the call. *)
Theorem remote_call_returns (t t1 t2 t3 : T) addr ps r r1 stat n r3 :
  abi_setup t addr ps r = (t1, r1) -> 0 <= snd (pt_setregs r1 t1) ->
  0 <= snd (pt_cont (fst (pt_setregs r1 t1))) ->
  pt_waitpid 0 (fst (pt_cont (fst (pt_setregs r1 t1)))) = (t2, stat) ->
  stops stat t2 n t3 -> pt_getregs t3 = Some r3 -> (n <= fuel)%nat ->
  ptrace_call_wrapper fuel t addr ps r = Some (t3, r3, 0).
Proof using.
  intros Hset Hs Hc Hw Hst Hg Hf. unfold ptrace_call_wrapper, ptrace_call. rewrite Hset.
  unfold ptrace_setregs, ptrace_continue, result_of.
  destruct (pt_setregs r1 t1) as [ta ra]. cbn [fst snd] in *.
  rewrite (proj2 (Z.ltb_ge ra 0)) by done. cbn [Z.eqb].
  destruct (pt_cont ta) as [tb rb]. cbn [fst snd] in *.
  rewrite (proj2 (Z.ltb_ge rb 0)) by done. cbn [Z.eqb].
  rewrite Hw, (wait_stopped_stops _ _ _ _ Hst fuel Hf). cbn [mbind option_bind Z.eqb].
  unfold ptrace_getregs. by rewrite Hg.
Qed.

End Outcomes.

(** ** Calling conventions *)
Section Conventions.
Context {T : Type} `{!PtraceText T, !PtraceTextLaws T}.

Lemma length_longs ps : length (longs ps) = (4 * length ps)%nat.
Proof.
  unfold longs. induction ps as [|p ps IH]; [done|].
  cbn [fmap list_fmap concat]. rewrite length_app, length_le_bytes, IH. simpl. lia.
Qed.

Lemma longs_bytes ps : Forall is_byte (longs ps).
Proof.
  unfold longs. induction ps as [|p ps IH]; [constructor|].
  cbn [fmap list_fmap concat]. apply Forall_app. split; [apply le_bytes_byte|done].
Qed.

Lemma span_words n : span (n * 4) = 4 * Z.of_nat n.
Proof.
  unfold span. rewrite <- (Nat.div_unique (n * 4 + 3) 4 n 3) by lia. done.
Qed.

Lemma write_longs (t : T) sp ps : mapped t sp (4 * Z.of_nat (length ps)) ->
  ptrace_readdata (ptrace_writedata t sp (longs ps) (length ps * 4)) sp (length ps * 4) = longs ps.
Proof using PtraceTextLaws0.
  intros Hm. destruct (writedata_spec t sp (longs ps) (length ps * 4)) as [H1 H2].
  - by rewrite span_words.
  - rewrite length_longs. lia.
  - apply longs_bytes.
  - replace (length ps * 4)%nat with (length (longs ps)) at 2 by (rewrite length_longs; lia).
    apply readdata_spec.
    + intros i Hi. rewrite H1, decide_True by (rewrite length_longs in Hi; lia). f_equal. lia.
    + apply H2. rewrite length_longs, Nat.mul_comm, span_words. done.
Qed.

Lemma set_params_lookup ps : forall i r k, (length (Arm.uregs r) = 18)%nat -> (i <= 4)%nat ->
  (k < 18)%nat ->
  length (Arm.uregs (Arm.set_params i ps r)) = 18%nat /\
  Arm.uregs (Arm.set_params i ps r) !! k =
    if decide (i <= k < Nat.min 4 (i + length ps))%nat then ps !! (k - i)%nat else Arm.uregs r !! k.
Proof.
  induction ps as [|p ps IH]; intros i r k Hr Hi Hk; cbn [Arm.set_params].
  - split; [done|]. rewrite decide_False by (cbn [length]; lia). done.
  - destruct (Nat.ltb_spec i 4) as [Hlt|Hge].
    + destruct (IH (S i) (Arm.set_reg i p r) k) as [H1 H2]; [simpl; by rewrite length_insert|lia|done|].
      split; [done|]. rewrite H2. cbn [Arm.set_reg Arm.uregs length].
      destruct (decide (k = i)) as [->|Hne].
      * rewrite decide_False, decide_True by lia. rewrite Nat.sub_diag. cbn.
        by rewrite list_lookup_insert_eq by lia.
      * rewrite list_lookup_insert_ne by done.
        destruct (decide (S i <= k < Nat.min 4 (S i + length ps))%nat).
        -- rewrite decide_True by lia. replace (k - i)%nat with (S (k - S i)) by lia. done.
        -- rewrite decide_False by lia. done.
    + split; [done|]. rewrite decide_False by (cbn [length]; lia). done.
Qed.

(** Registers [r0] to [r3], the stack, the return address and the Thumb bit. *)
Definition arm_called (t : T) (r : Arm.pt_regs) (addr : Z) (ps : list Z) (t' : T) (r' : Arm.pt_regs) : Prop :=
  let n := length ps in
  (forall i, (i < 4)%nat -> (i < n)%nat -> Arm.uregs r' !! i = ps !! i) /\
  ((n <= 4)%nat -> t' = t /\ Arm.reg r' Arm.ARM_sp = Arm.reg r Arm.ARM_sp) /\
  ((4 < n)%nat ->
     Arm.reg r' Arm.ARM_sp = u32 (Arm.reg r Arm.ARM_sp - Z.of_nat (n - 4) * 4) /\
     ptrace_readdata t' (Arm.reg r' Arm.ARM_sp) ((n - 4) * 4) = longs (drop 4 ps)) /\
  Arm.reg r' Arm.ARM_pc = addr - addr mod 2 /\
  Z.testbit (Arm.reg r' Arm.ARM_cpsr) 5 = Z.odd addr /\
  Arm.reg r' Arm.ARM_lr = 0 /\
  (forall k, (Nat.min 4 n <= k < 13)%nat \/ k = 17%nat -> Arm.uregs r' !! k = Arm.uregs r !! k).

Lemma reg_of_lookup r i v : Arm.uregs r !! i = Some v -> Arm.reg r i = v.
Proof. intros H. unfold Arm.reg. by apply list_lookup_total_correct. Qed.

Lemma reg_set_eq i v r : (i < length (Arm.uregs r))%nat -> Arm.reg (Arm.set_reg i v r) i = v.
Proof. intros H. apply reg_of_lookup. simpl. by apply list_lookup_insert_eq. Qed.

Lemma reg_set_ne i j v r : i <> j -> Arm.reg (Arm.set_reg i v r) j = Arm.reg r j.
Proof. intros H. unfold Arm.reg. simpl. by apply list_lookup_total_insert_ne. Qed.

Lemma length_set_reg i v r : length (Arm.uregs (Arm.set_reg i v r)) = length (Arm.uregs r).
Proof. simpl. apply length_insert. Qed.

Lemma clear_bit0 a : inU 32 a -> Z.land a (u32 (Z.lnot 1)) = a - a mod 2.
Proof.
  intros Ha. apply Z.bits_inj'. intros i Hi.
  replace (a - a mod 2) with (Z.shiftl (Z.shiftr a 1) 1).
  2:{ rewrite Z.shiftl_mul_pow2, Z.shiftr_div_pow2 by lia. change (2 ^ 1) with 2.
      pose proof (Z_div_mod_eq_full a 2). lia. }
  rewrite Z.land_spec. unfold wrapU. rewrite Z.testbit_mod_pow2 by lia.
  destruct (Z.eq_dec i 0) as [->|Hne].
  - rewrite Z.shiftl_spec_low by lia. simpl. by rewrite andb_false_r.
  - rewrite Z.shiftl_spec, Z.shiftr_spec by lia. rewrite Z.lnot_spec by lia.
    replace (i - 1 + 1) with i by lia. rewrite (Z.bits_above_log2 1 i) by (simpl; lia).
    destruct (Z.ltb_spec i 32); simpl; [by rewrite andb_true_r|].
    rewrite andb_false_r. symmetry. destruct (Z.eq_dec a 0) as [->|]; [apply Z.bits_0|].
    apply Z.bits_above_log2; [unfold inU in Ha; lia|].
    assert (Z.log2 a < 32) by (apply Z.log2_lt_pow2; unfold inU in Ha; lia). lia.
Qed.

Lemma land_1_odd a : negb (Z.land a 1 =? 0) = Z.odd a.
Proof.
  change 1 with (Z.ones 1). rewrite Z.land_ones, Zmod_odd by lia. by destruct (Z.odd a).
Qed.

Lemma thumb_bit_set c : Z.testbit (Z.lor c Arm.CPSR_T_MASK) 5 = true.
Proof. rewrite Z.lor_spec. apply orb_true_r. Qed.

Lemma thumb_bit_clear c : Z.testbit (Z.land c (u32 (Z.lnot Arm.CPSR_T_MASK))) 5 = false.
Proof. rewrite Z.land_spec. apply andb_false_r. Qed.

(** The last writes to [pc], [cpsr] and [lr] touch no other register. *)
Lemma arm_finish addr r : inU 32 addr -> length (Arm.uregs r) = 18%nat ->
  let r1 := Arm.set_reg Arm.ARM_pc addr r in
  let r2 :=
    if negb (Z.land (Arm.reg r1 Arm.ARM_pc) 1 =? 0) then
      Arm.set_reg Arm.ARM_cpsr (Z.lor (Arm.reg r1 Arm.ARM_cpsr) Arm.CPSR_T_MASK)
        (Arm.set_reg Arm.ARM_pc (Z.land (Arm.reg r1 Arm.ARM_pc) (u32 (Z.lnot 1))) r1)
    else Arm.set_reg Arm.ARM_cpsr (Z.land (Arm.reg r1 Arm.ARM_cpsr) (u32 (Z.lnot Arm.CPSR_T_MASK))) r1 in
  let r3 := Arm.set_reg Arm.ARM_lr 0 r2 in
  Arm.reg r3 Arm.ARM_pc = addr - addr mod 2 /\ Z.testbit (Arm.reg r3 Arm.ARM_cpsr) 5 = Z.odd addr /\
  Arm.reg r3 Arm.ARM_lr = 0 /\
  (forall k, (k <= 13)%nat \/ k = 17%nat -> Arm.uregs r3 !! k = Arm.uregs r !! k).
Proof.
  intros Ha Hl r1. assert (Hpc : Arm.reg r1 Arm.ARM_pc = addr)
    by (apply reg_set_eq; rewrite Hl; unfold Arm.ARM_pc; lia).
  rewrite Hpc, land_1_odd. cbv zeta.
  assert (Hl1 : length (Arm.uregs r1) = 18%nat) by (unfold r1; by rewrite length_set_reg).
  assert (Hfr : forall i v (q : Arm.pt_regs) k, (13 < i < 17)%nat -> (k <= 13)%nat \/ k = 17%nat ->
    Arm.uregs (Arm.set_reg i v q) !! k = Arm.uregs q !! k)
    by (intros; simpl; apply list_lookup_insert_ne; lia).
  unfold Arm.ARM_pc, Arm.ARM_cpsr, Arm.ARM_lr in *.
  destruct (Z.odd addr) eqn:Eo.
  - rewrite clear_bit0 by done. rewrite !(reg_set_ne 14) by done.
    rewrite (reg_set_ne 16 15) by done. rewrite !reg_set_eq by (rewrite ?length_set_reg; lia).
    split; [done|]. split; [apply thumb_bit_set|]. split; [done|].
    intros k Hk. rewrite !Hfr by (done || lia). unfold r1. by rewrite Hfr by (done || lia).
  - rewrite !(reg_set_ne 14) by done. rewrite (reg_set_ne 16 15), Hpc by done.
    rewrite !reg_set_eq by (rewrite ?length_set_reg; lia).
    split; [rewrite Zmod_odd, Eo; lia|]. split; [apply thumb_bit_clear|]. split; [done|].
    intros k Hk. rewrite !Hfr by (done || lia). unfold r1. by rewrite Hfr by (done || lia).
Qed.

(** The ARM calling convention: with the registers [abi_setup] leaves, the
    first four arguments are in r0 to r3, the others are on the target's stack in
    order at the lowered sp, pc is the function with the Thumb bit moved to cpsr,
    lr is null; no other register and, without stack arguments, no memory
    changes. *)
Theorem arm_setup_spec (t : T) addr ps r :
  length (Arm.uregs r) = 18%nat -> inU 32 addr ->
  mapped t (u32 (Arm.reg r Arm.ARM_sp - Z.of_nat (length ps - 4) * 4)) (4 * Z.of_nat (length ps - 4)) ->
  let '(t', r') := Arm.setup t addr ps r in arm_called t r addr ps t' r'.
Proof using PtraceTextLaws0.
  intros Hl Ha Hm. set (n := length ps) in *.
  assert (Hsp : forall k, (k < 18)%nat -> Arm.uregs (Arm.set_params 0 ps r) !! k =
    if decide (k < Nat.min 4 n)%nat then ps !! k else Arm.uregs r !! k).
  { intros k Hk. destruct (set_params_lookup ps 0 r k) as [_ ->]; [done|lia|done|].
    rewrite Nat.sub_0_r. fold n. do 2 case_decide; done || lia. }
  assert (Hlp : length (Arm.uregs (Arm.set_params 0 ps r)) = 18%nat)
    by (destruct (set_params_lookup ps 0 r 0) as [? _]; [done|lia|lia|done]).
  assert (Hspv : Arm.reg (Arm.set_params 0 ps r) Arm.ARM_sp = Arm.reg r Arm.ARM_sp).
  { unfold Arm.reg. rewrite !list_lookup_total_alt, Hsp, decide_False by (unfold Arm.ARM_sp; lia). done. }
  unfold Arm.setup. fold n. destruct (Nat.ltb_spec (Nat.min n 4) n) as [Hn|Hn].
  - replace (Nat.min n 4) with 4%nat by lia. rewrite Hspv.
    set (sp := u32 _) in *. set (r1 := Arm.set_reg Arm.ARM_sp sp _).
    assert (Hl1 : length (Arm.uregs r1) = 18%nat) by (unfold r1; by rewrite length_set_reg).
    destruct (arm_finish addr r1 Ha Hl1) as (H1 & H2 & H3 & H4). cbv zeta in *.
    set (r3 := Arm.set_reg Arm.ARM_lr 0 _) in *.
    assert (Hr3 : Arm.reg r3 Arm.ARM_sp = sp).
    { apply reg_of_lookup. rewrite H4 by (unfold Arm.ARM_sp; lia). unfold r1. simpl.
      apply list_lookup_insert_eq. rewrite Hlp. unfold Arm.ARM_sp. lia. }
    unfold arm_called. fold n. split; [|split; [lia|split]].
    + intros i Hi Hin. rewrite H4 by lia. unfold r1. simpl.
      rewrite list_lookup_insert_ne by (unfold Arm.ARM_sp; lia).
      rewrite Hsp, decide_True by lia. done.
    + intros _. split; [done|]. rewrite Hr3.
      replace (n - 4)%nat with (length (drop 4 ps)) by (rewrite length_drop; done).
      apply write_longs. rewrite length_drop. exact Hm.
    + split; [done|]. split; [done|]. split; [done|]. intros k Hk.
      rewrite H4 by lia. unfold r1. simpl. rewrite list_lookup_insert_ne by (unfold Arm.ARM_sp; lia).
      rewrite Hsp, decide_False by lia. done.
  - destruct (arm_finish addr _ Ha Hlp) as (H1 & H2 & H3 & H4). cbv zeta in *.
    set (r3 := Arm.set_reg Arm.ARM_lr 0 _) in *.
    unfold arm_called. fold n. split; [|split; [|split; [lia|]]].
    + intros i Hi Hin. rewrite H4 by lia. rewrite Hsp, decide_True by lia. done.
    + intros _. split; [done|]. rewrite <- Hspv. unfold Arm.reg.
      rewrite !list_lookup_total_alt, H4 by (unfold Arm.ARM_sp; lia). done.
    + split; [done|]. split; [done|]. split; [done|]. intros k Hk.
      rewrite H4 by lia. rewrite Hsp, decide_False by lia. done.
Qed.

(** The x86 calling convention: the target's stack holds a null return
    address and then the arguments in order, esp points to the return address and
    eip to the function. *)
Theorem x86_setup_spec (t : T) addr ps r :
  let n := length ps in
  inU 32 (X86.esp r) -> 4 * Z.of_nat n + 4 <= X86.esp r ->
  mapped t (X86.esp r - 4 * Z.of_nat n - 4) (4 * Z.of_nat n + 4) ->
  let '(t', r') := X86.setup t addr ps r in
  X86.esp r' = X86.esp r - 4 * Z.of_nat n - 4 /\ X86.eip r' = addr /\
  ptrace_readdata t' (X86.esp r') (S n * 4) = longs (0 :: ps) /\ X86.eax r' = X86.eax r.
Proof using PtraceTextLaws0.
  intros n He Hn Hm. unfold X86.setup. fold n. cbn [X86.esp X86.eip X86.eax X86.set_sp_ip].
  rewrite (wrapU_id 32 (X86.esp r - _)) by (unfold inU in *; lia).
  rewrite (wrapU_id 32 (_ - 4)) by (unfold inU in *; lia).
  set (sp := X86.esp r - Z.of_nat n * 4).
  split; [lia|]. split; [done|]. split; [|done].
  destruct (writedata_spec t sp (longs ps) (n * 4)) as [H1 H2].
  { rewrite span_words. intros x Hx. apply Hm. unfold sp in *. lia. }
  { rewrite length_longs. fold n. lia. }
  { apply longs_bytes. }
  set (t1 := ptrace_writedata t sp (longs ps) (n * 4)) in *.
  destruct (writedata_spec t1 (sp - 4) (le_bytes 4 0) 4) as [H3 H4].
  { intros x Hx. apply (H2 (X86.esp r - 4 * Z.of_nat n - 4) (4 * Z.of_nat n + 4) Hm).
    change (span 4) with 4 in Hx. unfold sp in *. lia. }
  { done. }
  { apply le_bytes_byte. }
  replace (S n * 4)%nat with (length (longs (0 :: ps))) by (rewrite length_longs; simpl; fold n; lia).
  apply readdata_spec.
  - intros i Hi. rewrite H3. rewrite length_longs in Hi. cbn [length] in Hi. fold n in Hi.
    change (longs (0 :: ps)) with (le_bytes 4 0 ++ longs ps). case_decide as Hd.
    + rewrite lookup_app_l by (rewrite length_le_bytes; lia). f_equal. lia.
    + rewrite H1, decide_True by lia. rewrite lookup_app_r by (rewrite length_le_bytes; lia).
      rewrite length_le_bytes. f_equal. lia.
  - rewrite length_longs, Nat.mul_comm, span_words. cbn [length]. fold n. apply H4, H2.
    intros x Hx. apply Hm. unfold sp in *. lia.
Qed.

End Conventions.

(** ** A simulated target

    A process that answers the successive calls with the values of a script and
    always stops on the null return address; it records the address and the first
    two arguments of each call. *)
Record sim := Sim {
  sim_mem : text_map;
  sim_regs : Arm.pt_regs;
  sim_attached : bool;
  sim_script : list Z;
  sim_log : list (Z * Z * Z);
  sim_maps : list mapping
}.

Definition sim_set_regs (r : Arm.pt_regs) (s : sim) : sim :=
  Sim (sim_mem s) r (sim_attached s) (sim_script s) (sim_log s) (sim_maps s).

Definition sim_set_attached (b : bool) (s : sim) : sim :=
  Sim (sim_mem s) (sim_regs s) b (sim_script s) (sim_log s) (sim_maps s).

Definition sim_cont (s : sim) : sim * Z :=
  match sim_script s with
  | [] => (s, -1)
  | v :: script =>
      let r := sim_regs s in
      (Sim (sim_mem s) (Arm.set_reg 0 v r) (sim_attached s) script
         (sim_log s ++ [(Arm.reg r Arm.ARM_pc, Arm.reg r 0, Arm.reg r 1)]) (sim_maps s), 0)
  end.

#[export] Instance sim_text : PtraceText sim := {
  byte_at s := byte_at (sim_mem s);
  peektext s := peektext (sim_mem s);
  poketext s a w := Sim (poketext (sim_mem s) a w) (sim_regs s) (sim_attached s) (sim_script s)
                      (sim_log s) (sim_maps s)
}.

#[export] Instance sim_ctl : PtraceCtl Arm.pt_regs sim := {
  pt_attach s := (sim_set_attached true s, 0);
  pt_getregs s := Some (sim_regs s);
  pt_setregs r s := (sim_set_regs r s, 0);
  pt_cont := sim_cont;
  pt_detach s := (sim_set_attached false s, 0);
  pt_waitpid _ s := (s, 0xb7f);
  proc_maps s := Some (concat (render <$> sim_maps s));
  attached := sim_attached
}.

#[export] Instance sim_text_laws : PtraceTextLaws sim.
Proof.
  constructor.
  - intros t. apply (byte_at_byte (sim_mem t)).
  - intros t. apply (peektext_word (sim_mem t)).
  - intros t. apply (poketext_word (sim_mem t)).
Qed.

#[export] Instance sim_ctl_laws : PtraceCtlLaws Arm.pt_regs sim.
Proof. constructor; try done. intros t. simpl. unfold sim_cont. by destruct (sim_script t). Qed.

Definition ex_regs : Arm.pt_regs := Arm.Regs (<[Arm.ARM_sp := 0x10400]> (seqZ 100 18)).

Lemma region_bytes base n : map_Forall (fun _ b => is_byte b)
  (list_to_map ((fun a => (base + Z.of_nat a, 170)) <$> seq 0 n) : gmap Z Z).
Proof.
  intros i b H. apply elem_of_list_to_map_2, list_elem_of_fmap in H as (a & [= _ ->] & _).
  unfold is_byte. lia.
Qed.

(** A region of mapped bytes. *)
Definition region (base : Z) (n : nat) : text_map :=
  TextMap (list_to_map ((fun a => (base + Z.of_nat a, 170)) <$> seq 0 n)) (region_bytes base n).

Definition ex_target (script : list Z) : sim :=
  Sim (region 0x10000 1100) ex_regs false script []
    (ex_maps 0xb6f00000 ++ [Mapping 0xb6e00000 (bytes_of "b6e20000 r-xp 00000000 b3:15 9 /system/bin/linker")]).

Definition ex_env : inj_env :=
  InjEnv (Some (concat (render <$>
    (ex_maps 0x40028000 ++ [Mapping 0x40000000 (bytes_of "40020000 r-xp 00000000 b3:15 9 /system/bin/linker")]))))
    (repeat 0 1024) 0x40029000 0x40000100 0x40000200 0x40000300 0x40000400 true.

Definition ex_inject (script : list Z) : outcome (sim * Arm.pt_regs) Z :=
  inject_remote_process ex_env 4 (bytes_of "/data/libspeed.so") (bytes_of "/data/libsubstrate.so")
    (bytes_of "hook_entry") (bytes_of "2") (ex_target script, ex_regs).

Definition sim_summary (o : outcome (sim * Arm.pt_regs) Z) : option (Z * bool * bool * list (Z * Z * Z)) :=
  match o with
  | Done ret s | Exit ret s =>
      Some (ret, sim_attached (fst s), bool_decide (Arm.uregs (sim_regs (fst s)) = Arm.uregs ex_regs),
            sim_log (fst s))
  | Crash | OutOfFuel => None
  end.

(** A successful injection makes six calls, restores the registers and detaches.
    The last call, [dlclose], goes to the injector's address 0x40000300, not to
    the target's 0xb6e00300. *)
Example ex_inject_success :
  sim_summary (ex_inject [0x10000; 0x1111; 0x2222; 0x3335; 7; 0]) =
    Some (0, false, true,
      [(0xb6f01000, 0, 0x4000); (0xb6e00100, 0x10300, 2); (0xb6e00100, 0x10000, 2);
       (0xb6e00200, 0x2222, 0x10100); (0x3334, 0x10200, 0x10100); (0x40000300, 0x2222, 0x10100)]).
Proof. vm_compute. reflexivity. Qed.

(** When [dlsym] cannot be called the target stays attached. *)
Example ex_inject_failure :
  sim_summary (ex_inject [0x10000; 0x1111; 0x2222]) =
    Some (-1, true, false,
      [(0xb6f01000, 0, 0x4000); (0xb6e00100, 0x10300, 2); (0xb6e00100, 0x10000, 2)]).
Proof. vm_compute. reflexivity. Qed.

(** ** Witnesses *)

(** A target without modules in which [mmap] is the last call that works. *)
Definition small_target : sim := Sim (region 0 0) ex_regs false [0x10000] [] [].
Definition small_env : inj_env := InjEnv (Some []) (repeat 0 8) 1 2 3 4 5 true.

Lemma inject_leaves_target_witness :
  match inject_remote_process small_env 0 [] [] [] [] (small_target, ex_regs) with
  | Exit ret s => ret = -1 /\ attached (fst s) = true
  | _ => False
  end.
Proof.
  pose proof (inject_leaves_target small_env 0 [] [] [] [] small_target ex_regs
    eq_refl (Z.le_refl 0)) as H.
  vm_compute in H |- *. split; [reflexivity|exact H].
Defined.

Lemma inject_already_loaded_witness :
  inject_remote_process ex_env 4 ex_libc [] [] [] (ex_target [], ex_regs) =
    Exit (-2) (ex_target [], ex_regs).
Proof.
  apply (inject_already_loaded ex_env 4 ex_libc [] [] [] (ex_target []) ex_regs 0xb6f00000);
    [vm_compute; reflexivity | lia].
Defined.

Lemma remote_call_returns_witness :
  exists t3 r3, ptrace_call_wrapper 0 (ex_target [5]) 0x1001 [1; 2; 3] ex_regs = Some (t3, r3, 0).
Proof.
  do 2 eexists.
  eapply (remote_call_returns 0 (ex_target [5]) _ _ _ 0x1001 [1; 2; 3] ex_regs);
    [reflexivity | vm_compute; congruence | vm_compute; congruence | reflexivity | apply stops_now | reflexivity | lia].
Defined.

Lemma region_mapped base n a k : base <= a -> a + k <= base + Z.of_nat n -> mapped (region base n) a k.
Proof.
  intros H1 H2 x Hx. cbn [byte_at text_map_ptrace tm region]. apply not_eq_None_Some.
  intros E. apply not_elem_of_list_to_map_2 in E. apply E.
  rewrite <- list_fmap_compose. apply list_elem_of_fmap. exists (Z.to_nat (x - base)).
  split; [simpl; lia|]. apply elem_of_seq. lia.
Qed.

Lemma arm_setup_spec_witness :
  let '(t', r') := Arm.setup (region 0x10000 1100) 0x1001 [1; 2; 3; 4; 5; 6] ex_regs in
  arm_called (region 0x10000 1100) ex_regs 0x1001 [1; 2; 3; 4; 5; 6] t' r'.
Proof.
  apply (arm_setup_spec (region 0x10000 1100) 0x1001 [1; 2; 3; 4; 5; 6] ex_regs);
    [reflexivity | unfold inU; lia | apply region_mapped; vm_compute; congruence].
Defined.

Definition ex_x86_regs : X86.user_regs_struct :=
  X86.Regs 1 2 3 4 5 6 7 8 9 10 11 12 13 14 15 0x10400 17.

Lemma x86_setup_spec_witness :
  let '(t', r') := X86.setup (region 0x10000 1100) 0x1000 [21; 22] ex_x86_regs in
  X86.esp r' = 0x103f4 /\ ptrace_readdata t' (X86.esp r') 12 = longs [0; 21; 22].
Proof.
  destruct (x86_setup_spec (region 0x10000 1100) 0x1000 [21; 22] ex_x86_regs) as (H1 & _ & H2 & _);
    [unfold inU; simpl; lia | simpl; lia | apply region_mapped; vm_compute; congruence |].
  split; [exact H1|exact H2].
Defined.
