(* ===== verification/InjectLoads.v ===== *)
(** * What an injection does, seen from the target: [inject_remote_process] of
    [src/jni/elfinject.c]

    The functions the injector calls in the target belong to its C library and its
    linker: what they are documented to do is an interface of named laws, against
    which the whole injection is shown to load the libraries and to enter the second
    one. The last call is of an address of the injector, about which nothing is said
    unless [dlclose] is there in the target too: how the injection ends is stated by
    what that call does. A simulated target implements the interface. *)

From S2P Require Import Prelude CString PtraceMem ProcFs Inject.

(** ** The interface of the target *)

Inductive target_event :=
  | Opened (path : list Z)
  | Entered (addr : Z) (param : list Z)
  | Closed (handle : Z)
  | Stray.

Class Target (R T : Type) := {
  (** What has happened in the process. *)
  history : T -> list target_event;
  (** The process is stopped between two calls, and the registers are ones of its. *)
  ready : T -> R -> Prop;
  (** The result of [dlopen] of a path: 0 when it cannot be loaded. *)
  handle_of : list Z -> Z;
  (** The result of [dlsym] of a name in the library of a path. *)
  symbol_of : list Z -> list Z -> Z;
  (** The address in the process of a function of the injector's own libraries. *)
  remote : list Z -> Z -> Z
}.

Section Interface.
Context {R T : Type} `{!PtraceText T, !PtraceCtl R T, !Abi R, !Target R T}.
Context (env : inj_env) (fuel : nat).

(** The event of a [dlopen]. *)
Definition opening (path : list Z) : list target_event :=
  if handle_of path =? 0 then [] else [Opened path].

(** The remote call of [addr] returns, adding [evs] to the history and unmapping
    nothing; [P] holds of the process afterwards and of the result. *)
Definition answers (t : T) (r : R) (addr : Z) (params : list Z) (evs : list target_event)
    (P : T -> Z -> Prop) : Prop :=
  exists t' r', ptrace_call_wrapper fuel t addr params r = Some (t', r', 0) /\
    ready t' r' /\ history t' = history t ++ evs /\
    (forall a n, mapped t a n -> mapped t' a n) /\ P t' (ptrace_retval r').

(** The names and functions the injector looks for. *)
Definition looked_up : list (list Z * Z) :=
  [(libc_path, local_mmap env); (linker_path, local_dlopen env); (linker_path, local_dlsym env);
   (linker_path, local_dlclose env); (linker_path, local_dlerror env)].

(** The size of the memory the injector asks for. *)
Definition block_size : Z := 0x4000.

Class TargetLaws := {
  ready_poke (t : T) a w (r : R) : ready t r -> ready (poketext t a w) r;
  history_poke (t : T) a w : history (poketext t a w) = history t;
  history_attach (t : T) : history (fst (ptrace_attach t)) = history t;
  history_setregs (r : R) (t : T) : history (fst (pt_setregs r t)) = history t;
  history_detach (t : T) : history (fst (pt_detach t)) = history t;
  remote_lookup (t : T) (r : R) name a : ready t r -> (name, a) ∈ looked_up ->
    get_remote_addr (self_maps env) (proc_maps t) (line_buf env) name a = Some (remote name a);
  call_mmap (t : T) (r : R) : ready t r ->
    answers t r (remote libc_path (local_mmap env))
      [0; block_size; PROT_RWX; MAP_ANON_PRIVATE; u32 (-1); 0] []
      (fun t' base => 0 <= base /\ base + block_size <= 2 ^ 32 /\ mapped t' base block_size);
  call_dlopen (t : T) (r : R) a path : ready t r -> no_nul path ->
    Z.of_nat (length path) < block_size -> holds t a (path ++ [NUL]) ->
    answers t r (remote linker_path (local_dlopen env)) [a; RTLD_NOW_GLOBAL] (opening path)
      (fun _ h => h = handle_of path);
  call_dlsym (t : T) (r : R) a path name : ready t r -> no_nul name ->
    Z.of_nat (length name) < block_size -> holds t a (name ++ [NUL]) -> Opened path ∈ history t ->
    answers t r (remote linker_path (local_dlsym env)) [handle_of path; a] []
      (fun _ addr => addr = symbol_of path name);
  call_entry (t : T) (r : R) a path name param : ready t r -> no_nul param ->
    Z.of_nat (length param) < block_size -> holds t a (param ++ [NUL]) -> Opened path ∈ history t ->
    answers t r (symbol_of path name) [a] [Entered (symbol_of path name) param] (fun _ _ => True);
  call_dlclose (t : T) (r : R) path : ready t r -> Opened path ∈ history t ->
    answers t r (remote linker_path (local_dlclose env)) [handle_of path] [Closed (handle_of path)] (fun _ _ => True)
}.

End Interface.
Arguments TargetLaws R T {_ _ _ _} env fuel.

(** ** The injection against the interface *)

Section Loading.
Context {R T : Type} `{!PtraceText T, !PtraceTextLaws T, !PtraceCtl R T, !PtraceCtlLaws R T, !Abi R, !Target R T}.
Context (env : inj_env) (fuel : nat) `{!TargetLaws R T env fuel}.

#[local] Existing Instance M_bind.

Lemma mbnd_done {A B} (m : @M R T A) (k : A -> @M R T B) s a s' :
  m s = Done a s' -> mbnd m k s = k a s'.
Proof using. unfold mbnd. by intros ->. Qed.

Lemma mbnd_exit {A B} (m : @M R T A) (k : A -> @M R T B) s ret s' :
  m s = Exit ret s' -> mbnd m k s = Exit ret s'.
Proof using. unfold mbnd. by intros ->. Qed.

(** A string put into the block, word by word, is there. *)
Lemma write_string_spec (t : T) (r : R) base off str : ready t r -> mapped t base block_size ->
  no_nul str -> Forall is_byte str -> 0 <= off -> off + Z.of_nat (length str) + 4 <= block_size ->
  exists t', write_string (base + off) str (t, r) = Done tt (t', r) /\ ready t' r /\
    history t' = history t /\ mapped t' base block_size /\ holds t' (base + off) (str ++ [NUL]).
Proof using PtraceTextLaws0 TargetLaws0.
  intros Hr Hm Hn Hb Hoff Hl.
  assert (Hs : span (strlen str + 1) <= Z.of_nat (length str) + 4).
  { unfold span, strlen. rewrite cstr_id by done.
    pose proof (Nat.Div0.mul_div_le (length str + 1 + 3) 4). lia. }
  set (t' := ptrace_writedata t (base + off) (cstr str ++ [NUL]) (strlen str + 1)).
  exists t'. split; [done|].
  split; [|split; [|]].
  - apply (writedata_pokes (fun t => ready t r)); [|done]. intros. by apply (ready_poke env fuel).
  - apply (writedata_pokes (fun t' => history t' = history t)); [|done].
    intros t1 a w <-. apply (history_poke env fuel).
  - destruct (writedata_spec t (base + off) (cstr str ++ [NUL]) (strlen str + 1)) as [H1 H2].
    + intros x Hx. apply Hm. lia.
    + unfold strlen. rewrite length_app. done.
    + rewrite cstr_id by done. apply Forall_app. split; [done|]. repeat constructor; unfold is_byte, NUL; lia.
    + split; [by apply H2|]. intros i Hi. unfold t'. rewrite H1. rewrite length_app in Hi. cbn [length] in Hi.
      unfold strlen. rewrite cstr_id by done. rewrite decide_True by lia. f_equal. lia.
Qed.

Lemma call_answers (t : T) (r : R) ret addr ps evs P : answers fuel t r addr ps evs P ->
  exists t' r', call env fuel ret addr ps (t, r) = Done (ptrace_retval r') (t', r') /\
    ready t' r' /\ history t' = history t ++ evs /\
    (forall a n, mapped t a n -> mapped t' a n) /\ P t' (ptrace_retval r').
Proof using.
  intros (t' & r' & Hc & H). exists t', r'. split; [|done]. unfold call. cbn [fst snd]. by rewrite Hc.
Qed.

Lemma remote_addr_done (t : T) (r : R) name a : ready t r -> (name, a) ∈ looked_up env ->
  remote_addr env name a (t, r) = Done (remote name a) (t, r).
Proof using TargetLaws0.
  intros Hr Hin. unfold remote_addr. cbn [fst]. by rewrite (remote_lookup env fuel t r name a Hr Hin).
Qed.

Definition fits_block (off : Z) (str : list Z) : Prop :=
  no_nul str /\ Forall is_byte str /\ off + Z.of_nat (length str) + 4 <= block_size.

Lemma fits_block_dec off str :
  forallb (fun c => (0 <? c) && (c <? 256)) str && (off + Z.of_nat (length str) + 4 <=? block_size) = true ->
  fits_block off str.
Proof using.
  intros [Hf Hl]%andb_true_iff. rewrite forallb_forall in Hf. unfold fits_block, no_nul, is_byte, NUL.
  rewrite !Forall_forall. split; [|split; [|lia]]; intros c Hc%list_elem_of_In%Hf; lia.
Qed.

(** A string is put into the block and a function is called that is given its
    address. *)
Lemma write_and_call (t : T) (r : R) base off str ret addr ps evs P : 0 <= off ->
  ready t r -> mapped t base block_size -> fits_block off str ->
  (forall t1, ready t1 r -> history t1 = history t -> holds t1 (base + off) (str ++ [NUL]) ->
    answers fuel t1 r addr ps evs P) ->
  exists t1 t2 r2, write_string (base + off) str (t, r) = Done tt (t1, r) /\
    call env fuel ret addr ps (t1, r) = Done (ptrace_retval r2) (t2, r2) /\
    ready t2 r2 /\ history t2 = history t ++ evs /\ mapped t2 base block_size /\
    P t2 (ptrace_retval r2).
Proof using PtraceTextLaws0 TargetLaws0.
  intros Hoff Hr Hm (Hn & Hb & Hl) Hcall.
  destruct (write_string_spec t r base off str) as (t1 & Hw & Hr1 & Hh1 & Hm1 & Hs1); try done.
  destruct (call_answers t1 r ret addr ps evs P) as (t2 & r2 & Hc & Hr2 & Hh2 & Hm2 & HP); [by apply Hcall|].
  exists t1, t2, r2. rewrite Hh2, Hh1. auto 10.
Qed.

Lemma block_addr base off : 0 <= base -> base + block_size <= 2 ^ 32 -> 0 <= off < block_size ->
  u32 (base + off) = base + off.
Proof using. intros. apply wrapU_id. unfold inU. lia. Qed.

Lemma remote_bind {A} (t : T) (r : R) name a (k : Z -> @M R T A) : ready t r ->
  (name, a) ∈ looked_up env -> mbnd (remote_addr env name a) k (t, r) = k (remote name a) (t, r).
Proof using TargetLaws0. intros. apply mbnd_done. by apply remote_addr_done. Qed.

(** [dlopen] of a path put into the block. *)
Lemma open_in_block (t : T) (r : R) base off path : 0 <= off -> ready t r ->
  mapped t base block_size -> fits_block off path ->
  exists t1 t2 r2, write_string (base + off) path (t, r) = Done tt (t1, r) /\
    call env fuel (-1) (remote linker_path (local_dlopen env)) [base + off; RTLD_NOW_GLOBAL] (t1, r) =
      Done (handle_of path) (t2, r2) /\
    ready t2 r2 /\ history t2 = history t ++ opening path /\ mapped t2 base block_size.
Proof using PtraceTextLaws0 TargetLaws0.
  intros Hoff Hr Hm Hfit.
  destruct (write_and_call t r base off path (-1) (remote linker_path (local_dlopen env))
    [base + off; RTLD_NOW_GLOBAL] (opening path) (fun _ h => h = handle_of path))
    as (t1 & t2 & r2 & Hw & Hc & Hr2 & Hh & Hm2 & E); [done..| |].
  { destruct Hfit as (? & ? & ?). intros. apply call_dlopen; try done. lia. }
  exists t1, t2, r2. by rewrite Hc, E.
Qed.

(** The calls that follow when the library is open: its entry point is found and
    called, and what is left is the call of [dlclose]. *)
Lemma enter_library (t : T) (r : R) base lib f p : ready t r -> mapped t base block_size ->
  0 <= base -> base + block_size <= 2 ^ 32 ->
  fits_block FUNCTION_NAME_ADDR_OFFSET f -> fits_block FUNCTION_PARAM_ADDR_OFFSET p ->
  Opened lib ∈ history t ->
  exists t' r', (write_string (u32 (base + FUNCTION_NAME_ADDR_OFFSET)) f;;
    hook_entry_addr ← call env fuel (-1) (remote linker_path (local_dlsym env))
      [handle_of lib; u32 (base + FUNCTION_NAME_ADDR_OFFSET)];
    write_string (u32 (base + FUNCTION_PARAM_ADDR_OFFSET)) p;;
    ret ← call env fuel (-1) hook_entry_addr [u32 (base + FUNCTION_PARAM_ADDR_OFFSET)];
    call env fuel ret (local_dlclose env) [handle_of lib];;
    mret tt) (t, r) = mbnd (call env fuel (ptrace_retval r') (local_dlclose env) [handle_of lib]) (fun _ => mret tt) (t', r') /\
    ready t' r' /\ history t' = history t ++ [Entered (symbol_of lib f) p].
Proof using PtraceTextLaws0 TargetLaws0.
  intros Hr Hm Hb0 Hb1 Hf Hp Hin. unfold mbind, M_bind.
  rewrite !block_addr by (done || (unfold block_size, FUNCTION_NAME_ADDR_OFFSET, FUNCTION_PARAM_ADDR_OFFSET; lia)).
  destruct (write_and_call t r base FUNCTION_NAME_ADDR_OFFSET f (-1) (remote linker_path (local_dlsym env))
    [handle_of lib; base + FUNCTION_NAME_ADDR_OFFSET] [] (fun _ a => a = symbol_of lib f))
    as (t1 & t2 & r2 & Hw1 & Hc2 & Hr2 & Hh2 & Hm2 & E2); [done..| |].
  { destruct Hf as (? & ? & Hl). unfold FUNCTION_NAME_ADDR_OFFSET in Hl. intros t' ? Hh ?.
    apply call_dlsym; try done; [lia|by rewrite Hh]. }
  rewrite (mbnd_done _ _ _ _ _ Hw1), (mbnd_done _ _ _ _ _ Hc2), E2. rewrite app_nil_r in Hh2.
  destruct (write_and_call t2 r2 base FUNCTION_PARAM_ADDR_OFFSET p (-1) (symbol_of lib f)
    [base + FUNCTION_PARAM_ADDR_OFFSET] [Entered (symbol_of lib f) p] (fun _ _ => True))
    as (t3 & t4 & r4 & Hw3 & Hc4 & Hr4 & Hh4 & Hm4 & _); [done..| |].
  { destruct Hp as (? & ? & Hl). unfold FUNCTION_PARAM_ADDR_OFFSET in Hl. intros t' ? Hh ?.
    apply (call_entry env fuel t' r2 _ lib f p); try done; [lia|]. by rewrite Hh, Hh2. }
  rewrite (mbnd_done _ _ _ _ _ Hw3), (mbnd_done _ _ _ _ _ Hc4).
  exists t4, r4. split; [done|]. split; [done|]. by rewrite Hh4, Hh2.
Qed.

Lemma inject_calls_loads lib cydia f p (t : T) (r : R) : ready t r ->
  fits_block 0 lib -> fits_block 0x300 cydia -> fits_block FUNCTION_NAME_ADDR_OFFSET f ->
  fits_block FUNCTION_PARAM_ADDR_OFFSET p ->
  if handle_of lib =? 0 then
    exists s, inject_calls env fuel lib cydia f p (t, r) = Exit (-1) s /\
      history (fst s) = history t ++ opening cydia
  else
    exists t' r', inject_calls env fuel lib cydia f p (t, r) =
        mbnd (call env fuel (ptrace_retval r') (local_dlclose env) [handle_of lib]) (fun _ => mret tt) (t', r') /\
      ready t' r' /\ history t' = history t ++ opening cydia ++ [Opened lib; Entered (symbol_of lib f) p].
Proof using PtraceTextLaws0 PtraceCtlLaws0 TargetLaws0.
  intros Hr Hlib Hcyd Hf Hp. unfold inject_calls, mbind, M_bind.
  rewrite (remote_bind t r) by (done || (unfold looked_up; set_solver)).
  destruct (call_answers t r (-1) _ _ _ _ (call_mmap env fuel t r Hr))
    as (t1 & r1 & Hc & Hr1 & Hh1 & _ & Hb0 & Hb1 & Hm1).
  fold block_size. rewrite (mbnd_done _ _ _ _ _ Hc). set (base := ptrace_retval r1) in *. clearbody base.
  do 4 rewrite (remote_bind t1 r1) by (done || (unfold looked_up; set_solver)).
  rewrite !(block_addr base 0x300) by (done || (unfold block_size; lia)).
  destruct (open_in_block t1 r1 base 0x300 cydia) as (t2 & t3 & r3 & Hw2 & Hc3 & Hr3 & Hh3 & Hm3);
    [done..|].
  rewrite (mbnd_done _ _ _ _ _ Hw2), (mbnd_done _ _ _ _ _ Hc3).
  destruct (open_in_block t3 r3 base 0 lib) as (t4 & t5 & r5 & Hw4 & Hc5 & Hr5 & Hh5 & Hm5); [done..|].
  rewrite Z.add_0_r in Hw4, Hc5. rewrite (mbnd_done _ _ _ _ _ Hw4), (mbnd_done _ _ _ _ _ Hc5).
  rewrite Hh3, Hh1, app_nil_r in Hh5. unfold opening in Hh5 at 2.
  destruct (handle_of lib =? 0).
  - exists (t5, r5). rewrite app_nil_r in Hh5. done.
  - destruct (enter_library t5 r5 base lib f p) as (t' & r' & E & Hr' & Hh); try done.
    { rewrite Hh5. set_solver. }
    exists t', r'. split; [exact E|]. split; [done|]. rewrite Hh, Hh5, <- !app_assoc. done.
Qed.

(** How an injection ends that is left with the call of [dlclose]: not at all if the call
    does not come back; with the result of the entry point, and attached as it is, if the
    call fails; else with 0, and detached, with nothing more done in the target. *)
Definition ends_with_dlclose (result : outcome (T * R) Z) (t : T) (r : R) (handle : Z) : Prop :=
  match ptrace_call_wrapper fuel t (local_dlclose env) [handle] r with
  | None => result = OutOfFuel
  | Some (t', r', res) =>
      if res =? -1 then result = if initlog env =? 0 then Exit (ptrace_retval r) (t', r') else Crash
      else exists s, result = Done 0 s /\ attached (fst s) = false /\ history (fst s) = history t'
  end.

Lemma restored_ends (m : @M R T unit) (orig : R) s (t' : T) (r' : R) h :
  m s = mbnd (call env fuel (ptrace_retval r') (local_dlclose env) [h]) (fun _ => mret tt) (t', r') ->
  ends_with_dlclose (mbnd m (fun _ => mbnd (restore_registers orig) (fun _ => mbnd detach_target (fun _ => mret 0))) s) t' r' h.
Proof using PtraceCtlLaws0 TargetLaws0.
  intros E. unfold ends_with_dlclose, mbnd in *. rewrite E. unfold call. cbn [fst snd].
  destruct (ptrace_call_wrapper fuel t' (local_dlclose env) [h] r') as [[[t2 r2] res]|]; [|done].
  destruct (res =? -1).
  - unfold log_and_exit, goto_exit. by destruct (initlog env =? 0).
  - unfold restore_registers, detach_target, ptrace_setregs, ptrace_detach, result_of, mbnd. cbn [fst snd mret].
    eexists. split; [reflexivity|]. cbn [fst]. split; [apply detach_detached|].
    by rewrite (history_detach env fuel), (history_setregs env fuel).
Qed.

(** C30. The injection does what it is for. Against a target whose functions do what
    they are documented to do, with strings that fit the memory asked for: when the
    linker can load the library, the Substrate library and then the library are opened,
    and then the entry point found in the library is called with the parameter, and
    comes back. What is left is a call in the target of the address that [dlclose] has in
    the injector, and the injection ends as that call does; if the linker of the target is
    at the same address the library is closed, the result is 0 and the target detached.
    When the linker cannot load the library, the result is -1 and nothing has been
    entered. *)
Theorem injection_loads lib cydia f p (t : T) (r0 : R) orig :
  get_module_base (proc_maps t) (line_buf env) lib = Some 0 -> 0 <= snd (pt_attach t) ->
  pt_getregs (fst (ptrace_attach t)) = Some orig -> ready (fst (ptrace_attach t)) orig ->
  fits_block 0 lib -> fits_block 0x300 cydia -> fits_block FUNCTION_NAME_ADDR_OFFSET f ->
  fits_block FUNCTION_PARAM_ADDR_OFFSET p ->
  let result := inject_remote_process env fuel lib cydia f p (t, r0) in
  if handle_of lib =? 0 then
    exists s, result = Exit (-1) s /\ history (fst s) = history t ++ opening cydia
  else
    let done_ := history t ++ opening cydia ++ [Opened lib; Entered (symbol_of lib f) p] in
    (exists t' r', ready t' r' /\ history t' = done_ /\ ends_with_dlclose result t' r' (handle_of lib)) /\
    (local_dlclose env = remote linker_path (local_dlclose env) ->
     exists s, result = Done 0 s /\ attached (fst s) = false /\ history (fst s) = done_ ++ [Closed (handle_of lib)]).
Proof using PtraceTextLaws0 PtraceCtlLaws0 TargetLaws0.
  intros Hb Ha Hg Hr Hlib Hcyd Hf Hp. destruct (attach_result t Ha) as [_ Hres].
  pose proof (history_attach env fuel t) as Hh0.
  unfold inject_remote_process, mbind, M_bind.
  rewrite (mbnd_done _ _ _ 0 (t, r0)) by (unfold module_base_of; cbn [fst]; by rewrite Hb).
  cbn [negb Z.eqb]. destruct (ptrace_attach t) as [t1 res] eqn:Ht. cbn [fst snd] in *. subst res.
  rewrite (mbnd_done _ _ _ 0 (t1, r0)) by (unfold attach_target; cbn [fst]; by rewrite Ht).
  cbn [Z.eqb].
  rewrite (mbnd_done _ _ _ orig (t1, orig)) by (unfold save_registers, ptrace_getregs; cbn [fst]; by rewrite Hg).
  pose proof (inject_calls_loads lib cydia f p t1 orig Hr Hlib Hcyd Hf Hp) as H. rewrite <- Hh0. cbv zeta.
  destruct (handle_of lib =? 0).
  - destruct H as (s & E & Hh). exists s. by rewrite (mbnd_exit _ _ _ _ _ E).
  - destruct H as (t' & r' & E & Hr' & Hh).
    match goal with |- context [ends_with_dlclose ?x] => set (result := x) end.
    assert (Hend : ends_with_dlclose result t' r' (handle_of lib)) by (subst result; by apply restored_ends).
    split; [by exists t', r'|]. intros Hsame. unfold ends_with_dlclose in Hend.
    destruct (call_dlclose env fuel t' r' lib Hr') as (t2 & r2 & E2 & _ & Hh2 & _); [rewrite Hh; set_solver|].
    rewrite Hsame, E2 in Hend. cbn in Hend. destruct Hend as (s & Es & Hd & Hs). exists s. split; [done|]. split; [done|].
    by rewrite Hs, Hh2, Hh.
Qed.
End Loading.

(** ** A simulated target

    An ARM process whose C library and linker stand where those of [ex_target] do. A
    call is carried out when the process is resumed, from the registers and the
    memory it finds; any other address is a stray call. *)
Record loader := Loader {
  ld_mem : text_map;
  ld_regs : Arm.pt_regs;
  ld_attached : bool;
  ld_history : list target_event
}.

(** Up to [n] bytes from [a] on, to the first NUL or unmapped byte. *)
Fixpoint read_string (m : text_map) (a : Z) (n : nat) : list Z :=
  match n with
  | O => []
  | S n =>
      match byte_at m a with
      | Some c => if c =? NUL then [] else c :: read_string m (a + 1) n
      | None => []
      end
  end.

Definition block_base : Z := 0x10000.

Lemma merge_bytes (a b : text_map) : map_Forall (fun _ c => is_byte c) (tm a ∪ tm b).
Proof. apply map_Forall_union_2; [apply tm_bytes|apply tm_bytes]. Qed.

Definition merge_maps (a b : text_map) : text_map := TextMap (tm a ∪ tm b) (merge_bytes a b).

Lemma merge_mapped a b x :
  is_Some (byte_at a x) \/ is_Some (byte_at b x) -> is_Some (byte_at (merge_maps a b) x).
Proof. cbn. rewrite lookup_union_is_Some. done. Qed.

Definition map_block (m : text_map) : text_map :=
  merge_maps (region block_base (Z.to_nat block_size)) m.

(** The empty path cannot be loaded. *)
Definition loader_handle (path : list Z) : Z := if decide (path = []) then 0 else 0x2222.

Definition loader_answer (r0 : Z) (m : text_map) (evs : list target_event) (s : loader) : loader * Z :=
  (Loader m (Arm.set_reg 0 r0 (ld_regs s)) (ld_attached s) (ld_history s ++ evs), 0).

Definition loader_cont (s : loader) : loader * Z :=
  let m := ld_mem s in
  let pc := Arm.reg (ld_regs s) Arm.ARM_pc in
  let text := read_string m (Arm.reg (ld_regs s) 0) (Z.to_nat block_size) in
  if pc =? 0xb6f01000 then loader_answer block_base (map_block m) [] s
  else if pc =? 0xb6e00100 then
    loader_answer (loader_handle text) m (if loader_handle text =? 0 then [] else [Opened text]) s
  else if pc =? 0xb6e00200 then loader_answer 0x3335 m [] s
  else if pc =? 0xb6e00300 then loader_answer 0 m [Closed (Arm.reg (ld_regs s) 0)] s
  else if pc =? 0x3334 then loader_answer 7 m [Entered 0x3335 text] s
  else loader_answer 0 m [Stray] s.

Definition set_ld_mem (m : text_map) (s : loader) : loader :=
  Loader m (ld_regs s) (ld_attached s) (ld_history s).

#[export] Instance loader_text : PtraceText loader := {
  byte_at s := byte_at (ld_mem s);
  peektext s := peektext (ld_mem s);
  poketext s a w := set_ld_mem (poketext (ld_mem s) a w) s
}.

#[export] Instance loader_ctl : PtraceCtl Arm.pt_regs loader := {
  pt_attach s := (Loader (ld_mem s) (ld_regs s) true (ld_history s), 0);
  pt_getregs s := Some (ld_regs s);
  pt_setregs r s := (Loader (ld_mem s) r (ld_attached s) (ld_history s), 0);
  pt_cont := loader_cont;
  pt_detach s := (Loader (ld_mem s) (ld_regs s) false (ld_history s), 0);
  pt_waitpid _ s := (s, 0xb7f);
  proc_maps _ := proc_maps (ex_target []);
  attached := ld_attached
}.

#[export] Instance loader_target : Target Arm.pt_regs loader := {
  history := ld_history;
  ready _ r := length (Arm.uregs r) = 18%nat;
  handle_of := loader_handle;
  symbol_of _ _ := 0x3335;
  remote name a :=
    default 0 (get_remote_addr (self_maps ex_env) (proc_maps (ex_target [])) (line_buf ex_env) name a)
}.

#[export] Instance loader_text_laws : PtraceTextLaws loader.
Proof.
  constructor.
  - intros t. apply (byte_at_byte (ld_mem t)).
  - intros t. apply (peektext_word (ld_mem t)).
  - intros t. apply (poketext_word (ld_mem t)).
Qed.

Lemma loader_cont_attached s : ld_attached (fst (loader_cont s)) = ld_attached s.
Proof. unfold loader_cont. by repeat destruct (_ =? _). Qed.

#[export] Instance loader_ctl_laws : PtraceCtlLaws Arm.pt_regs loader.
Proof. constructor; try done. apply loader_cont_attached. Qed.

(** *** The laws hold of it *)

Lemma read_string_holds (m : text_map) a s n : no_nul s -> holds m a (s ++ [NUL]) ->
  (length s < n)%nat -> read_string m a n = s.
Proof.
  intros Hs. revert a n. induction Hs as [|c s Hc _ IH]; intros a n Hh Hn;
    destruct n as [|n]; cbn [length] in Hn; try lia; cbn [read_string].
  - pose proof (Hh 0%nat ltac:(cbn; lia)) as E. rewrite Z.add_0_r in E. by rewrite E.
  - pose proof (Hh 0%nat ltac:(cbn; lia)) as E. rewrite Z.add_0_r in E. rewrite E. cbn.
    rewrite (proj2 (Z.eqb_neq c NUL)) by done. f_equal. apply IH; [|lia].
    intros i Hi. transitivity (byte_at m (a + Z.of_nat (S i))); [f_equal; lia|].
    apply (Hh (S i)). cbn [app length]. lia.
Qed.

Lemma poke_mapped_map (m : text_map) a w x : is_Some (byte_at m x) -> is_Some (byte_at (poketext m a w) x).
Proof.
  cbn. intros H. unfold poke_map. destruct (word_at _ _); [|done].
  rewrite !lookup_insert_is_Some'. auto 10.
Qed.

(** Writing to it changes only its memory, and unmaps nothing. *)
Lemma loader_write (s : loader) a data size : exists m,
  ptrace_writedata s a data size = set_ld_mem m s /\
  (forall x, is_Some (byte_at (ld_mem s) x) -> is_Some (byte_at m x)).
Proof.
  apply (writedata_pokes (fun s' => exists m, s' = set_ld_mem m s /\
    (forall x, is_Some (byte_at (ld_mem s) x) -> is_Some (byte_at m x)))).
  - intros t b w (m & -> & Hm). exists (poketext m b w). split; [done|].
    intros x Hx. by apply poke_mapped_map, Hm.
  - exists (ld_mem s). by destruct s.
Qed.

(** A call is the setting of its registers and one step. *)
Lemma loader_call s addr ps r s1 r1 : Arm.setup s addr ps r = (s1, r1) ->
  ptrace_call_wrapper (R := Arm.pt_regs) 0 s addr ps r =
  let s2 := fst (loader_cont (Loader (ld_mem s1) r1 (ld_attached s1) (ld_history s1))) in
  Some (s2, ld_regs s2, 0).
Proof.
  intros E. unfold ptrace_call_wrapper, ptrace_call. cbn [abi_setup Arm.arm_abi]. rewrite E.
  unfold ptrace_setregs, ptrace_continue, result_of. cbn [pt_setregs loader_ctl fst snd Z.ltb Z.eqb Z.compare pt_cont].
  assert (Hc : forall s, snd (loader_cont s) = 0) by (intros; unfold loader_cont; by repeat destruct (_ =? _)).
  rewrite Hc. cbn. done.
Qed.

(** The registers of a call, and the memory it writes. *)
Lemma setup_regs {T} `{!PtraceText T} (t t' : T) addr ps r r1 :
  length (Arm.uregs r) = 18%nat -> inU 32 addr -> Arm.setup t addr ps r = (t', r1) ->
  length (Arm.uregs r1) = 18%nat /\ Arm.reg r1 Arm.ARM_pc = addr - addr mod 2 /\
  (forall i v, (i < 4)%nat -> ps !! i = Some v -> Arm.reg r1 i = v) /\
  exists sp data size, t' = ptrace_writedata t sp data size.
Proof.
  intros Hl Ha E.
  destruct (set_params_lookup ps 0 r 0) as [Hlp _]; [done|lia|lia|].
  assert (Hk : forall i v, (i < 4)%nat -> ps !! i = Some v -> Arm.uregs (Arm.set_params 0 ps r) !! i = Some v).
  { intros i v Hi Hv. destruct (set_params_lookup ps 0 r i) as [_ ->]; [done|lia|lia|].
    pose proof (lookup_lt_Some _ _ _ Hv). rewrite decide_True by lia. by rewrite Nat.sub_0_r. }
  assert (Hfin : forall r0, length (Arm.uregs r0) = 18%nat ->
    (forall i v, (i < 4)%nat -> ps !! i = Some v -> Arm.uregs r0 !! i = Some v) ->
    forall r3, (let r1 := Arm.set_reg Arm.ARM_pc addr r0 in
      let r2 := if negb (Z.land (Arm.reg r1 Arm.ARM_pc) 1 =? 0) then
        Arm.set_reg Arm.ARM_cpsr (Z.lor (Arm.reg r1 Arm.ARM_cpsr) Arm.CPSR_T_MASK)
          (Arm.set_reg Arm.ARM_pc (Z.land (Arm.reg r1 Arm.ARM_pc) (u32 (Z.lnot 1))) r1)
        else Arm.set_reg Arm.ARM_cpsr (Z.land (Arm.reg r1 Arm.ARM_cpsr) (u32 (Z.lnot Arm.CPSR_T_MASK))) r1 in
      Arm.set_reg Arm.ARM_lr 0 r2) = r3 ->
    length (Arm.uregs r3) = 18%nat /\ Arm.reg r3 Arm.ARM_pc = addr - addr mod 2 /\
    (forall i v, (i < 4)%nat -> ps !! i = Some v -> Arm.reg r3 i = v)).
  { intros r0 Hl0 Hk0 r3 <-. destruct (arm_finish addr r0 Ha Hl0) as (H1 & _ & _ & H4).
    cbv zeta in *. split; [|split; [done|]].
    - destruct (negb _); rewrite !length_set_reg; done.
    - intros i v Hi Hv. apply reg_of_lookup. rewrite H4 by lia. by apply Hk0. }
  unfold Arm.setup in E. destruct (_ <? _)%nat.
  - injection E as <- E. apply Hfin in E as (H1 & H2 & H3); [eauto 10|by rewrite length_set_reg|].
    intros i v Hi Hv. cbn. rewrite list_lookup_insert_ne by (unfold Arm.ARM_sp; lia). auto.
  - injection E as <- E. apply Hfin in E as (H1 & H2 & H3); [|done..].
    split; [done|]. split; [done|]. split; [done|]. exists 0, [], 0%nat. done.
Qed.

Lemma loader_answers s addr ps r evs P : length (Arm.uregs r) = 18%nat -> inU 32 addr ->
  (forall m r1, let s1 := Loader m r1 (ld_attached s) (ld_history s) in
     Arm.reg r1 Arm.ARM_pc = addr - addr mod 2 ->
     (forall i v, (i < 4)%nat -> ps !! i = Some v -> Arm.reg r1 i = v) ->
     ((length ps <= 4)%nat -> m = ld_mem s) ->
     exists r0 m2, fst (loader_cont s1) = fst (loader_answer r0 m2 evs s1) /\
       (forall x, is_Some (byte_at m x) -> is_Some (byte_at m2 x)) /\
       (forall s2, ld_mem s2 = m2 -> P s2 r0)) ->
  answers (R := Arm.pt_regs) 0 s r addr ps evs P.
Proof.
  intros Hl Ha H. destruct (Arm.setup s addr ps r) as [s1 r1] eqn:E.
  destruct (setup_regs s s1 addr ps r r1 Hl Ha E) as (Hl1 & Hpc & Hps & sp & data & size & Hw).
  destruct (loader_write s sp data size) as (m & Hm & Hmap). rewrite <- Hw in Hm.
  destruct (H m r1 Hpc Hps) as (r0 & m2 & Hc & Hm2 & HP).
  { intros Hn. unfold Arm.setup in E. destruct (Nat.ltb_spec (Nat.min (length ps) 4) (length ps)); [lia|].
    injection E as <- _. by rewrite Hm. }
  eexists _, _. split; [by apply (loader_call s addr ps r s1 r1)|]. cbv zeta. rewrite Hm. cbn [ld_mem set_ld_mem ld_attached ld_history].
  rewrite Hc. cbn [loader_answer fst ready loader_target ld_regs history ld_history].
  split; [by rewrite length_set_reg|]. split; [done|]. split.
  - intros a n Hmap1 x Hx. apply Hm2, Hmap, Hmap1, Hx.
  - cbn [ptrace_retval Arm.arm_abi]. rewrite reg_set_eq by lia. by apply HP.
Qed.

Lemma loader_remote (s : loader) (r : Arm.pt_regs) name a : (name, a) ∈ looked_up ex_env ->
  get_remote_addr (self_maps ex_env) (proc_maps s) (line_buf ex_env) name a = Some (remote name a).
Proof.
  cbn [proc_maps loader_ctl remote loader_target]. intros H. unfold looked_up in H.
  repeat (apply elem_of_cons in H as [[= -> ->]|H]; [vm_compute; reflexivity|]). by apply not_elem_of_nil in H.
Qed.

Lemma loader_text_read s r1 a str : holds s a (str ++ [NUL]) -> no_nul str ->
  Z.of_nat (length str) < block_size -> Arm.reg r1 0 = a ->
  read_string (ld_mem s) (Arm.reg r1 0) (Z.to_nat block_size) = str.
Proof.
  intros Hh Hn Hl ->. apply read_string_holds; [done|exact Hh|]. lia.
Qed.

Lemma loader_mmap s (r : Arm.pt_regs) : length (Arm.uregs r) = 18%nat ->
  answers 0 s r (remote libc_path (local_mmap ex_env))
    [0; block_size; PROT_RWX; MAP_ANON_PRIVATE; u32 (-1); 0] []
    (fun t' base => 0 <= base /\ base + block_size <= 2 ^ 32 /\ mapped t' base block_size).
Proof.
  intros Hl. assert (E : remote libc_path (local_mmap ex_env) = 0xb6f01000) by (vm_compute; reflexivity).
  rewrite E. apply loader_answers; [done|unfold inU; lia|]. intros m r1 s1 Hpc _ _.
  change (0xb6f01000 - 0xb6f01000 mod 2) with 0xb6f01000 in Hpc.
  exists block_base, (map_block m). split; [|split].
  - unfold loader_cont, s1. cbn [ld_mem ld_regs]. by rewrite Hpc.
  - intros x Hx. apply merge_mapped. by right.
  - intros s2 E2. split; [unfold block_base; lia|]. split; [unfold block_base, block_size; lia|].
    intros x Hx. change (byte_at s2 x) with (byte_at (ld_mem s2) x). rewrite E2.
    apply merge_mapped. left.
    apply (region_mapped block_base (Z.to_nat block_size) block_base block_size); [lia| |exact Hx].
    rewrite Z2Nat.id by (unfold block_size; lia). lia.
Qed.

Lemma loader_dlopen s (r : Arm.pt_regs) a path : length (Arm.uregs r) = 18%nat -> no_nul path ->
  Z.of_nat (length path) < block_size -> holds s a (path ++ [NUL]) ->
  answers 0 s r (remote linker_path (local_dlopen ex_env)) [a; RTLD_NOW_GLOBAL] (opening path)
    (fun _ h => h = loader_handle path).
Proof.
  intros Hl Hn Hlen Hh.
  assert (E : remote linker_path (local_dlopen ex_env) = 0xb6e00100) by (vm_compute; reflexivity).
  rewrite E. apply loader_answers; [done|unfold inU; lia|]. intros m r1 s1 Hpc Hps Hm.
  change (0xb6e00100 - 0xb6e00100 mod 2) with 0xb6e00100 in Hpc.
  assert (Em : m = ld_mem s) by (apply Hm; cbn; lia). subst m. exists (loader_handle path), (ld_mem s).
  split; [|split; [intros x Hx; exact Hx|intros s2 _; reflexivity]]. unfold loader_cont, s1. cbn [ld_mem ld_regs]. rewrite Hpc.
  rewrite (loader_text_read s r1 a path Hh Hn Hlen (Hps 0%nat a ltac:(lia) eq_refl)). reflexivity.
Qed.

Lemma loader_dlsym s (r : Arm.pt_regs) a path name : length (Arm.uregs r) = 18%nat ->
  answers 0 s r (remote linker_path (local_dlsym ex_env)) [handle_of path; a] []
    (fun _ addr => addr = symbol_of path name).
Proof.
  intros Hl. assert (E : remote linker_path (local_dlsym ex_env) = 0xb6e00200) by (vm_compute; reflexivity).
  rewrite E. apply loader_answers; [done|unfold inU; lia|]. intros m r1 s1 Hpc _ _.
  change (0xb6e00200 - 0xb6e00200 mod 2) with 0xb6e00200 in Hpc.
  exists 0x3335, m. split; [|split; [intros x Hx; exact Hx|intros s2 _; reflexivity]]. unfold loader_cont, s1. cbn [ld_mem ld_regs]. by rewrite Hpc.
Qed.

Lemma loader_entry s (r : Arm.pt_regs) a path name param : length (Arm.uregs r) = 18%nat ->
  no_nul param -> Z.of_nat (length param) < block_size -> holds s a (param ++ [NUL]) ->
  answers 0 s r (symbol_of path name) [a] [Entered (symbol_of path name) param] (fun _ _ => True).
Proof.
  intros Hl Hn Hlen Hh. change (symbol_of path name) with 0x3335.
  apply loader_answers; [done|unfold inU; lia|]. intros m r1 s1 Hpc Hps Hm.
  change (0x3335 - 0x3335 mod 2) with 0x3334 in Hpc.
  assert (Em : m = ld_mem s) by (apply Hm; cbn; lia). subst m. exists 7, (ld_mem s).
  split; [|split; [intros x Hx; exact Hx|intros s2 _; exact I]]. unfold loader_cont, s1. cbn [ld_mem ld_regs]. rewrite Hpc.
  rewrite (loader_text_read s r1 a param Hh Hn Hlen (Hps 0%nat a ltac:(lia) eq_refl)). reflexivity.
Qed.

Lemma loader_dlclose s (r : Arm.pt_regs) h : length (Arm.uregs r) = 18%nat ->
  answers 0 s r (remote linker_path (local_dlclose ex_env)) [h] [Closed h] (fun _ _ => True).
Proof.
  intros Hl. assert (E : remote linker_path (local_dlclose ex_env) = 0xb6e00300) by (vm_compute; reflexivity).
  rewrite E. apply loader_answers; [done|unfold inU; lia|]. intros m r1 s1 Hpc Hps _.
  change (0xb6e00300 - 0xb6e00300 mod 2) with 0xb6e00300 in Hpc.
  exists 0, m. split; [|split; [intros x Hx; exact Hx|intros s2 _; exact I]]. unfold loader_cont, s1. cbn [ld_mem ld_regs]. rewrite Hpc.
  rewrite (Hps 0%nat h ltac:(lia) eq_refl). done.
Qed.

Lemma loader_stray s (r : Arm.pt_regs) h : length (Arm.uregs r) = 18%nat ->
  answers 0 s r (local_dlclose ex_env) [h] [Stray] (fun _ _ => True).
Proof.
  intros Hl. apply loader_answers; [done|unfold inU; cbn; lia|]. intros m r1 s1 Hpc _ _.
  exists 0, m. split; [|split; [intros x Hx; exact Hx|intros s2 _; exact I]]. unfold loader_cont, s1. cbn [ld_mem ld_regs]. by rewrite Hpc.
Qed.

#[export] Instance loader_laws : TargetLaws Arm.pt_regs loader ex_env 0.
Proof.
  constructor; try done.
  - intros t r name a _. by apply loader_remote.
  - intros t r. apply loader_mmap.
  - intros t r a path Hr Hn Hl Hh. by apply loader_dlopen.
  - intros t r a path name Hr _ _ _ _. by apply loader_dlsym.
  - intros t r a path name param Hr Hn Hl Hh _. by apply loader_entry.
  - intros t r path Hr _. by apply loader_dlclose.
Qed.

Definition ex_loader : loader := Loader (region 0 0) ex_regs false [].

(** The library is opened and entered with the parameter 2, at the address [dlsym] gave;
    then comes the stray call, which comes back here, and the target is detached. *)
Lemma injection_loads_witness :
  exists s, inject_remote_process ex_env 0 (bytes_of "/data/libspeed.so") (bytes_of "/data/libsubstrate.so")
      (bytes_of "hook_entry") (bytes_of "2") (ex_loader, ex_regs) = Done 0 s /\
    attached (fst s) = false /\
    history (fst s) = [Opened (bytes_of "/data/libsubstrate.so"); Opened (bytes_of "/data/libspeed.so");
                       Entered 0x3335 (bytes_of "2"); Stray] /\
  exists t' r', history (R := Arm.pt_regs) t' = [Opened (bytes_of "/data/libsubstrate.so"); Opened (bytes_of "/data/libspeed.so");
                             Entered 0x3335 (bytes_of "2")] /\
    ends_with_dlclose ex_env 0 (Done 0 s) t' r' 0x2222.
Proof.
  assert (Hex : forall s, (handle_of (R := Arm.pt_regs) (T := loader) s =? 0) = false -> opening s = [Opened s]).
  { intros s E. unfold opening. by rewrite E. }
  assert (Ec : (handle_of (bytes_of "/data/libsubstrate.so") =? 0) = false) by (vm_compute; reflexivity).
  assert (El : (handle_of (bytes_of "/data/libspeed.so") =? 0) = false) by (vm_compute; reflexivity).
  assert (Eb : get_module_base (proc_maps ex_loader) (line_buf ex_env) (bytes_of "/data/libspeed.so") = Some 0)
    by (vm_compute; reflexivity).
  assert (F1 : fits_block 0 (bytes_of "/data/libspeed.so")) by (apply fits_block_dec; vm_compute; reflexivity).
  assert (F2 : fits_block 0x300 (bytes_of "/data/libsubstrate.so")) by (apply fits_block_dec; vm_compute; reflexivity).
  assert (F3 : fits_block FUNCTION_NAME_ADDR_OFFSET (bytes_of "hook_entry"))
    by (apply fits_block_dec; vm_compute; reflexivity).
  assert (F4 : fits_block FUNCTION_PARAM_ADDR_OFFSET (bytes_of "2")) by (apply fits_block_dec; vm_compute; reflexivity).
  pose proof (injection_loads ex_env 0 _ _ _ _ ex_loader ex_regs ex_regs Eb
    (Z.le_refl 0) eq_refl eq_refl F1 F2 F3 F4) as H.
  cbv zeta in H. rewrite El in H. destruct H as [(t' & r' & Hr & Hh & He) _]. rewrite (Hex _ Ec) in Hh.
  destruct (loader_stray t' r' 0x2222 Hr) as (t2 & r2 & E2 & _ & Hh2 & _). unfold ends_with_dlclose in He.
  pose proof He as He'. change (handle_of (bytes_of "/data/libspeed.so")) with 0x2222 in He'. rewrite E2 in He'.
  destruct He' as (s & Es & Hd & Hs). exists s. split; [exact Es|]. split; [exact Hd|].
  split; [rewrite Hs, Hh2, Hh; reflexivity|]. exists t', r'. split; [exact Hh|]. rewrite <- Es. exact He.
Defined.
