(* ===== verification/CNumText.v ===== *)
(** * Floating-point numbers as text

    [sprintf("%.4f")] and [atof] of the C library: correctly rounded conversions
    between binary and decimal, on the decimal syntax (infinities and NaN print
    as words; reading does not accept words or hexadecimal). *)

From S2P Require Import Prelude CFloat CString.

(** ** Printing *)

(** [m * 2 ^ e * 10 ^ 4] rounded to an integer, ties to even. *)
Definition scaled4 (m : positive) (e : Z) : Z :=
  if 0 <=? e then Zpos m * 2 ^ e * 10000
  else
    let n := Zpos m * 10000 in
    let d := 2 ^ (- e) in
    let q := n / d in
    match Z.compare (2 * (n mod d)) d with
    | Lt => q
    | Eq => if Z.even q then q else q + 1
    | Gt => q + 1
    end.

(** The digits of [n], at least [k] of them. *)
Definition print_pad (k : nat) (n : Z) : list Z :=
  repeat c_0 (k - length (print_digits 10 n)) ++ print_digits 10 n.

Definition print_scaled4 (n : Z) : list Z :=
  print_digits 10 (n / 10000) ++ [46] ++ print_pad 4 (n mod 10000).

Definition print_sign (s : bool) : list Z := if s then [45] else [].

Definition sprintf_4f (x : cfloat) : list Z :=
  match x with
  | S754_zero s => print_sign s ++ print_scaled4 0
  | S754_finite s m e => print_sign s ++ print_scaled4 (scaled4 m e)
  | S754_infinity s => print_sign s ++ bytes_of "inf"
  | S754_nan => bytes_of "nan"
  end.

(** ** Reading *)

Fixpoint drop_while (f : Z -> bool) (s : list Z) : list Z :=
  match s with
  | [] => []
  | c :: s' => if f c then drop_while f s' else s
  end.

(** The value of an optional exponent, and what follows it. *)
Definition parse_exponent (s : list Z) : Z * list Z :=
  match s with
  | c :: s' =>
      if (c =? 101) || (c =? 69) then
        let '(neg, d) := parse_sign s' in
        match take_while (is_digit 10) d with
        | [] => (0, s)
        | ds => let v := digits_val 10 (digit_val <$> ds) in
                (if neg then - v else v, drop_while (is_digit 10) d)
        end
      else (0, s)
  | [] => (0, [])
  end.

(** [sd * 10 ^ k], correctly rounded. *)
Definition f64_of_decimal (s : bool) (d k : Z) : cfloat :=
  match d with
  | Zpos p =>
      if 0 <=? k then binary_round 53 1024 s (Z.to_pos (d * 10 ^ k)) 0
      else of_ratio 53 1024 s p (Z.to_pos (10 ^ (- k)))
  | _ => S754_zero s
  end.

(** The integer and fraction digits, and what follows them. *)
Definition parse_mantissa (s : list Z) : list Z * list Z * list Z :=
  let ip := take_while (is_digit 10) s in
  match drop_while (is_digit 10) s with
  | c :: s' => if c =? 46 then (ip, take_while (is_digit 10) s', drop_while (is_digit 10) s')
               else (ip, [], c :: s')
  | [] => (ip, [], [])
  end.

(** [strtod]: the value and the first byte not used. *)
Definition strtod (s : list Z) : cfloat * list Z :=
  let '(neg, s') := parse_sign (skip_while isspace s) in
  let '(ip, fp, r) := parse_mantissa s' in
  match ip ++ fp with
  | [] => (S754_zero false, s)
  | ds =>
      let '(e, r) := parse_exponent r in
      (f64_of_decimal neg (digits_val 10 (digit_val <$> ds)) (e - Z.of_nat (length fp)), r)
  end.

(** [atof(buffer)]: undefined ([None]) when the conversion reaches the end of the
    buffer without meeting a byte that ends it. *)
Definition atof (buffer : list Z) : option cfloat :=
  let '(v, r) := strtod buffer in
  match r with
  | [] => None
  | _ => Some v
  end.

(** ** Lemmas *)

Lemma is_digit10 c : is_digit 10 c = true <-> 48 <= c <= 57.
Proof.
  unfold is_digit, digit_val.
  repeat match goal with |- context [?a <=? ?b] => destruct (Z.leb_spec a b); simpl end;
    rewrite Z.ltb_lt; lia.
Qed.

Lemma print_digits10_chars n : 0 <= n -> Forall (fun c => is_digit 10 c = true) (print_digits 10 n).
Proof.
  intros Hn. apply Forall_fmap. eapply Forall_impl; [by apply (digits_Forall 10); lia|].
  intros d Hd. apply is_digit10. unfold is_digit_of in Hd. unfold digit_char.
  destruct (Z.ltb_spec d 10); lia.
Qed.

Lemma print_pad_chars k n : 0 <= n -> Forall (fun c => is_digit 10 c = true) (print_pad k n).
Proof.
  intros Hn. apply Forall_app. split; [|by apply print_digits10_chars].
  apply Forall_forall. intros c Hc. apply list_elem_of_In, repeat_spec in Hc. by subst.
Qed.

Lemma drop_while_app f s r :
  Forall (fun c => f c = true) s -> match r with [] => True | c :: _ => f c = false end ->
  drop_while f (s ++ r) = r.
Proof.
  induction 1 as [|c s Hc _ IH]; simpl; intros Hr.
  - destruct r as [|c r]; simpl; [done|]. by rewrite Hr.
  - rewrite Hc. by rewrite IH.
Qed.

Lemma digit_vals_digits n : 0 <= n -> digit_val <$> print_digits 10 n = digits 10 n.
Proof.
  intros Hn. unfold print_digits. rewrite <- list_fmap_compose.
  rewrite <- (list_fmap_id (digits 10 n)) at 2. apply list_fmap_ext.
  intros i d Hi. pose proof (digits_Forall 10 ltac:(lia) n Hn) as Hd. rewrite Forall_forall in Hd.
  specialize (Hd d (list_elem_of_lookup_2 _ _ _ Hi)). unfold is_digit_of in Hd.
  apply digit_val_char. simpl. lia.
Qed.

Lemma length_print_pad n : 0 <= n < 10000 -> length (print_pad 4 n) = 4%nat.
Proof.
  intros Hn. unfold print_pad, print_digits. rewrite length_app, repeat_length, length_fmap.
  assert (length (digits 10 n) <= 4)%nat; [|lia].
  assert (H : Forall (fun n => (length (digits 10 n) <= 4)%nat) (seqZ 0 10000))
    by (apply (bool_decide_unpack _); vm_compute; exact I).
  rewrite Forall_forall in H. apply H, elem_of_seqZ. lia.
Qed.

Lemma digits_val_pad n : 0 <= n < 10000 ->
  digits_val 10 (digit_val <$> print_pad 4 n) = n.
Proof.
  intros Hn. unfold print_pad. rewrite fmap_app, digit_vals_digits by lia.
  rewrite <- (digits_val_digits 10 ltac:(lia) n) at 3 by lia.
  induction (4 - _)%nat as [|k IH]; [done|]. exact IH.
Qed.

Lemma digits_val_app b ds1 ds2 :
  digits_val b (ds1 ++ ds2) = digits_val b ds1 * b ^ Z.of_nat (length ds2) + digits_val b ds2.
Proof. unfold digits_val at 1. rewrite fold_left_app. apply digits_val_app_from. Qed.

(** A byte that cannot continue a number. *)
Definition ends_number (c : Z) : Prop := is_digit 10 c = false /\ c <> 101 /\ c <> 69.

Lemma not_space_digit c : is_digit 10 c = true -> isspace c = false /\ c <> 45 /\ c <> 43.
Proof.
  intros H%is_digit10. unfold isspace. split; [|lia].
  rewrite (proj2 (Z.eqb_neq c 32)), (proj2 (Z.leb_gt c 13)), andb_false_r by lia. done.
Qed.

Lemma print_digits_cons n : 0 <= n -> exists c s, print_digits 10 n = c :: s.
Proof.
  intros Hn. unfold print_digits. pose proof (digits_not_nil 10 ltac:(lia) n Hn).
  destruct (digits 10 n); [done|]. simpl. eauto.
Qed.

Lemma parse_print_mantissa n c r : 0 <= n -> ends_number c ->
  parse_mantissa (print_scaled4 n ++ c :: r) =
    (print_digits 10 (n / 10000), print_pad 4 (n mod 10000), c :: r).
Proof.
  intros Hn (Hc & _). unfold parse_mantissa, print_scaled4. rewrite <- !app_assoc.
  assert (0 <= n / 10000) by (apply Z.div_pos; lia).
  pose proof (Z.mod_pos_bound n 10000).
  rewrite take_while_app, drop_while_app by (done || by apply print_digits10_chars).
  simpl. rewrite take_while_app, drop_while_app by (done || apply print_pad_chars; lia). done.
Qed.

(** Reading back what [%.4f] printed. *)
Lemma strtod_print s n c r : 0 <= n -> ends_number c ->
  strtod (print_sign s ++ print_scaled4 n ++ c :: r) = (f64_of_decimal s n (-4), c :: r).
Proof.
  intros Hn Hc. assert (Hq : 0 <= n / 10000) by (apply Z.div_pos; lia).
  pose proof (Z.mod_pos_bound n 10000 ltac:(lia)) as Hm.
  assert (Hs : parse_sign (skip_while isspace (print_sign s ++ print_scaled4 n ++ c :: r)) =
    (s, print_scaled4 n ++ c :: r)).
  { destruct s; [done|]. unfold print_sign, print_scaled4.
    pose proof (print_digits10_chars _ Hq) as Hd.
    destruct (print_digits_cons _ Hq) as (c0 & s0 & E). rewrite E in *.
    apply Forall_cons_1 in Hd as [Hd _]. destruct (not_space_digit c0 Hd) as (Hsp & H1 & H2).
    simpl. rewrite Hsp. simpl.
    by rewrite (proj2 (Z.eqb_neq c0 45)), (proj2 (Z.eqb_neq c0 43)). }
  unfold strtod. rewrite Hs, parse_print_mantissa by done.
  destruct (print_digits_cons _ Hq) as (c0 & s0 & E).
  assert (Hx : parse_exponent (c :: r) = (0, c :: r)).
  { unfold parse_exponent. destruct Hc as (_ & H1 & H2).
    by rewrite (proj2 (Z.eqb_neq c 101)), (proj2 (Z.eqb_neq c 69)). }
  destruct (print_digits 10 (n / 10000) ++ _) as [|c1 s1] eqn:E1; [by rewrite E in E1|].
  rewrite Hx, <- E1, length_print_pad by done.
  rewrite fmap_app, digits_val_app, length_fmap, length_print_pad, digits_val_pad by done.
  rewrite digit_vals_digits, digits_val_digits by lia.
  change (10 ^ Z.of_nat 4) with 10000.
  replace (n / 10000 * 10000 + n mod 10000) with n by (pose proof (Z_div_mod_eq_full n 10000); lia).
  done.
Qed.

(** ** Integers through the text *)

Lemma scaled4_canon p z : 1 < p -> 0 < z -> Z.log2 z < p ->
  scaled4 (canon p z) (Z.log2 z + 1 - p) = z * 10000.
Proof.
  intros Hp Hz Hl. pose proof (Z.log2_nonneg z). unfold scaled4. rewrite canon_pos by done.
  destruct (Z.leb_spec 0 (Z.log2 z + 1 - p)) as [H0|H0].
  - replace (p - 1 - Z.log2 z) with 0 by lia. replace (Z.log2 z + 1 - p) with 0 by lia.
    rewrite Z.pow_0_r. lia.
  - replace (- (Z.log2 z + 1 - p)) with (p - 1 - Z.log2 z) by lia.
    set (d := 2 ^ (p - 1 - Z.log2 z)). assert (0 < d) by (apply Z.pow_pos_nonneg; lia).
    replace (z * d * 10000) with (z * 10000 * d) by ring.
    rewrite Z_mod_mult, Z_div_mult_full by lia. rewrite Z.mul_0_r.
    destruct (Z.compare_spec 0 d); lia.
Qed.

Lemma decimal_canon s z : 0 < z -> Z.log2 z < 53 ->
  f64_of_decimal s (z * 10000) (-4) = canon_float 53 s z.
Proof.
  intros Hz Hl. unfold f64_of_decimal.
  destruct (z * 10000) as [|p|p] eqn:E; [lia| |lia].
  change (0 <=? -4) with false. cbv iota.
  apply of_ratio_canon; [lia|lia|done|done|]. rewrite <- E. simpl. lia.
Qed.

(** The client's text of an integer speed, and the value the server reads. *)
Definition speed_of (n : Z) : cfloat := f32_of_Z n.

Lemma f32_of_Z_canon n : Z.abs n < 2 ^ 24 -> n <> 0 ->
  f32_of_Z n = canon_float 24 (n <? 0) (Z.abs n).
Proof.
  intros Hn Hz. assert (Z.log2 (Z.abs n) < 24) by (apply Z.log2_lt_pow2; lia).
  destruct (Z.ltb_spec n 0) as [Hs|Hs].
  - replace n with (- Z.abs n) at 1 by lia. rewrite of_Z_opp, of_Z_canon by lia. done.
  - replace n with (Z.abs n) at 1 by lia. rewrite of_Z_canon by lia. done.
Qed.

Lemma text_of_speed n : Z.abs n < 2 ^ 24 -> n <> 0 ->
  sprintf_4f (f64_of_f32 (speed_of n)) = print_sign (n <? 0) ++ print_scaled4 (Z.abs n * 10000).
Proof.
  intros Hn Hz. unfold speed_of. rewrite f32_of_Z_canon by done. assert (Z.log2 (Z.abs n) < 24) by (apply Z.log2_lt_pow2; lia).
  rewrite convert_canon by lia. unfold canon_float. cbn [sprintf_4f].
  by rewrite scaled4_canon by lia.
Qed.

(** Every integer below 2^24 in absolute value survives the way from a [float]
    through [%.4f] and [atof] to a [float], whatever follows the text in the
    buffer, as long as that cannot continue a number. *)
Lemma atof_sprintf n c r : Z.abs n < 2 ^ 24 -> ends_number c ->
  exists v, atof (sprintf_4f (f64_of_f32 (speed_of n)) ++ c :: r) = Some v /\
    f32_of_f64 v = speed_of n.
Proof.
  intros Hn Hc. destruct (Z.eq_dec n 0) as [->|Hz].
  - exists (S754_zero false). split; [|done]. unfold speed_of.
    change (sprintf_4f (f64_of_f32 (f32_of_Z 0))) with (print_sign false ++ print_scaled4 0).
    unfold atof. rewrite <- app_assoc, strtod_print by (done || lia). done.
  - exists (canon_float 53 (n <? 0) (Z.abs n)).
    assert (Z.log2 (Z.abs n) < 24) by (apply Z.log2_lt_pow2; lia).
    rewrite text_of_speed by done. unfold atof.
    rewrite <- app_assoc, strtod_print, decimal_canon by (done || lia).
    split; [done|]. rewrite convert_canon by lia. symmetry. by apply f32_of_Z_canon.
Qed.

(** No finite number prints in fewer than six characters. *)
Lemma sprintf_4f_length x : (exists z, trunc_Z x = Some z) -> (6 <= length (sprintf_4f x))%nat.
Proof.
  assert (H : forall n, 0 <= n -> (6 <= length (print_scaled4 n))%nat).
  { intros n Hn. unfold print_scaled4. rewrite !length_app.
    rewrite length_print_pad by (apply Z.mod_pos_bound; lia).
    destruct (print_digits_cons (n / 10000)) as (c & s & ->); [apply Z.div_pos; lia|]. simpl. lia. }
  assert (Hs : forall s n, 0 <= n -> (6 <= length (print_sign s ++ print_scaled4 n))%nat)
    by (intros s n Hn; rewrite length_app; specialize (H n Hn); lia).
  intros [z Hz]. destruct x as [s|s| |s m e]; try done; apply Hs; [done|].
  unfold scaled4. destruct (_ <=? _) eqn:E.
  - apply Z.mul_nonneg_nonneg; [|lia]. apply Z.mul_nonneg_nonneg; [lia|]. by apply Z.pow_nonneg.
  - assert (0 <= Zpos m * 10000 / 2 ^ (- e)).
    { apply Z.div_pos; [lia|]. apply Z.leb_gt in E. apply Z.pow_pos_nonneg; lia. }
    destruct (_ ?= _); [destruct (Z.even _)|..]; lia.
Qed.
