(* ===== verification/SpeedServer.v ===== *)
(** * The speed server: [src/jni/ElfIPCServer.cpp]

    A thread of the target process accepts one TCP client at a time, reads speeds
    as text, sets them and echoes what it read. The sockets are given by the
    results of the calls made on them; a history that ends is a call that blocks. *)

From S2P Require Import Prelude CFloat CString CNumText Speed.

Definition BUFFSIZE : nat := 32.
Definition MAXPENDING : Z := 1024.

(** ** Data *)

Inductive recv_result :=
| RecvErr
| RecvBytes (bytes : list Z).

(** One turn of a connection: what [recv] delivers, and the result of the [send]
    that answers it. *)
Record turn := Turn { t_recv : recv_result; t_send : Z }.

(** How serving a client ends: the socket was closed; [Die] left the process with
    this message; [recv] blocks; the conversion of the text was undefined. *)
Inductive served :=
| Closed
| Died (mess : string)
| Blocked
| Undefined.

(** [recv(sock, buffer, BUFFSIZE, 0)]: the bytes replace the start of the buffer. *)
Definition recv_into (buffer bytes : list Z) : list Z := bytes ++ drop (length bytes) buffer.

Section Server.
Context (MSHookFunction : code -> code -> code * code).

(** ** [HandleClient] *)

(** The [while (received > 0)]: [mess] is the message of the pending [recv]; [out]
    what was sent so far. *)
Fixpoint serve (mess : string) (turns : list turn) (buffer : list Z) (s : speed_state)
    (out : list (list Z)) : served * speed_state * list (list Z) :=
  match turns with
  | [] => (Blocked, s, out)
  | x :: turns =>
      match t_recv x with
      | RecvErr => (Died mess, s, out)
      | RecvBytes [] => (Closed, s, out)
      | RecvBytes bytes =>
          let buffer := recv_into buffer bytes in
          let received := length bytes in
          match atof buffer ≫= fun v => SetTimeScale MSHookFunction (f32_of_f64 v) s with
          | None => (Undefined, s, out)
          | Some (s, _) =>
              let out := out ++ [take received buffer] in
              if t_send x =? Z.of_nat received then
                serve "Failed to receive additional bytes from client" turns buffer s out
              else (Died "Failed to send bytes to client", s, out)
          end
      end
  end.

Definition HandleClient (turns : list turn) (buffer : list Z) (s : speed_state)
    : served * speed_state * list (list Z) :=
  serve "Failed to receive initial bytes from client" turns buffer s [].

(** ** [StartIPCServer] *)

(** [htons(getpid())], back in host order: the port the server listens on. *)
Definition server_port (pid : Z) : Z := u16 pid.

(** A connection: the result of [accept], the turns, and what the stack holds
    where [HandleClient] has its buffer. *)
Record connection := Connection { c_accept : Z; c_turns : list turn; c_stack : list Z }.

Fixpoint accept_loop (conns : list connection) (s : speed_state) (out : list (list (list Z)))
    : served * speed_state * list (list (list Z)) :=
  match conns with
  | [] => (Blocked, s, out)
  | c :: conns =>
      if c_accept c <? 0 then (Died "Failed to accept client connection", s, out)
      else
        match HandleClient (c_turns c) (c_stack c) s with
        | (Closed, s, o) => accept_loop conns s (out ++ [o])
        | (res, s, o) => (res, s, out ++ [o])
        end
  end.

Definition StartIPCServer (serversock bind_res listen_res : Z) (conns : list connection)
    (s : speed_state) : served * speed_state * list (list (list Z)) :=
  if serversock <? 0 then (Died "Failed to create socket", s, [])
  else if bind_res <? 0 then (Died "Failed to bind the server socket", s, [])
  else if listen_res <? 0 then (Died "Failed to listen on server socket", s, [])
  else accept_loop conns s [].

End Server.

(** ** Lemmas *)

Lemma take_recv_into buffer bytes : take (length bytes) (recv_into buffer bytes) = bytes.
Proof. unfold recv_into. by rewrite take_app_length. Qed.

(** What was received up to the first turn that is an error or the end. *)
Fixpoint received_bytes (turns : list turn) : list (list Z) :=
  match turns with
  | Turn (RecvBytes (b :: bs)) _ :: turns => (b :: bs) :: received_bytes turns
  | _ => []
  end.

Lemma serve_echoes MSH turns : forall mess buffer s out,
  let '(res, s', out') := serve MSH mess turns buffer s out in
  exists echoed, out' = out ++ echoed /\ echoed `prefix_of` received_bytes turns /\
    (res = Closed -> echoed = received_bytes turns) /\
    (IsHooked s = 0 -> IsHooked s' = 0).
Proof.
  assert (Hstop : forall (res : served) (s : speed_state) (out : list (list Z)) turns,
    (res = Closed -> received_bytes turns = []) ->
    exists echoed, out = out ++ echoed /\ echoed `prefix_of` received_bytes turns /\
      (res = Closed -> echoed = received_bytes turns) /\ (IsHooked s = 0 -> IsHooked s = 0)).
  { intros res s out ts H. exists []. rewrite app_nil_r. split; [done|]. split; [apply prefix_nil|].
    split; [intros; by rewrite H|done]. }
  induction turns as [|[r snd_res] turns IH]; intros mess buffer s out; cbn [serve t_recv t_send].
  { by apply Hstop. }
  destruct r as [|[|b bs]]; [by apply Hstop|by apply Hstop|].
  destruct (atof _ ≫= _) as [[s1 r1]|] eqn:E; [|by apply Hstop].
  assert (Hs1 : IsHooked s1 = 0).
  { apply bind_Some in E as (v & _ & E). pose proof (SetTimeScale_hooked MSH (f32_of_f64 v) s) as H.
    by rewrite E in H. }
  rewrite take_recv_into. destruct (Z.eqb_spec snd_res (Z.of_nat (length (b :: bs)))) as [Hs|Hs].
  - specialize (IH "Failed to receive additional bytes from client"%string (recv_into buffer (b :: bs)) s1
      (out ++ [b :: bs])).
    destruct (serve _ _ _ _ _ _) as [[res s'] out'].
    destruct IH as (echoed & -> & Hp & Hc & Hh). exists ((b :: bs) :: echoed).
    rewrite <- app_assoc. split; [done|]. cbn [received_bytes]. split; [by apply prefix_cons|].
    split; [|intros _; by apply Hh]. intros H. by rewrite (Hc H).
  - exists [b :: bs]. split; [done|]. cbn [received_bytes].
    split; [apply prefix_cons, prefix_nil|]. split; [done|]. done.
Qed.

(** ** Properties *)

(** The server echoes: whatever happens on a connection, what was sent is what
    was received, turn by turn and in order, up to the turn that failed; a client
    that closes has been sent everything it sent. Serving a client leaves the
    hooks installed as they were. *)
Theorem HandleClient_echoes MSH turns buffer s :
  let '(res, s', out) := HandleClient MSH turns buffer s in
  out `prefix_of` received_bytes turns /\ (res = Closed -> out = received_bytes turns) /\
  (IsHooked s = 0 -> IsHooked s' = 0).
Proof.
  pose proof (serve_echoes MSH turns "Failed to receive initial bytes from client" buffer s []) as H.
  unfold HandleClient. destruct (serve _ _ _ _ _ _) as [[res s'] out].
  by destruct H as (echoed & -> & H).
Qed.

(** The text of the second speed of a connection is read together with what
    the first left in the buffer, which is not terminated: after "20", the speed
    "1" sets the factor of 10. *)
Theorem stale_buffer_changes_speed MSH s :
  IsHooked s = 0 ->
  exists s', HandleClient MSH
    [Turn (RecvBytes (bytes_of "20")) 2; Turn (RecvBytes (bytes_of "1")) 1; Turn (RecvBytes []) 0]
    (repeat 0 BUFFSIZE) s = (Closed, s', [bytes_of "20"; bytes_of "1"]) /\
  g_times s' = f32_of_Z 11.
Proof.
  intros Hh. eexists. unfold HandleClient. cbn [serve t_recv].
  assert (E1 : atof (recv_into (repeat 0 BUFFSIZE) (bytes_of "20")) = Some (canon_float 53 false 20))
    by (vm_compute; reflexivity).
  assert (E2 : atof (recv_into (recv_into (repeat 0 BUFFSIZE) (bytes_of "20")) (bytes_of "1")) =
    Some (canon_float 53 false 10)) by (vm_compute; reflexivity).
  unfold SetTimeScale. rewrite Hh.
  change (bytes_of "20") with [50; 48] in *. change (bytes_of "1") with [49] in *.
  rewrite E1. cbn [mbind option_bind negb Z.eqb].
  assert (G1 : times_for (g_times s) (f32_of_f64 (canon_float 53 false 20)) = Some (f32_of_Z 21))
    by (vm_compute; reflexivity).
  rewrite G1. cbn [option_bind mbind t_send length Z.of_nat Z.eqb].
  rewrite E2. cbn [mbind option_bind with_times IsHooked]. rewrite Hh. cbn [negb Z.eqb g_times].
  assert (G2 : times_for (f32_of_Z 21) (f32_of_f64 (canon_float 53 false 10)) = Some (f32_of_Z 11))
    by (vm_compute; reflexivity).
  change (g_times (with_times (f32_of_Z 21) s)) with (f32_of_Z 21). rewrite G2.
  cbn. split; reflexivity.
Qed.

Lemma stale_buffer_changes_speed_witness :
  exists s', HandleClient (fun s n => (s, n))
    [Turn (RecvBytes (bytes_of "20")) 2; Turn (RecvBytes (bytes_of "1")) 1; Turn (RecvBytes []) 0]
    (repeat 0 BUFFSIZE) (with_hooked 0 init_speed) = (Closed, s', [bytes_of "20"; bytes_of "1"]) /\
  g_times s' = f32_of_Z 11.
Proof. apply stale_buffer_changes_speed. reflexivity. Defined.
