(* ===== verification/SpeedClient.v ===== *)
(** * The speed clients: [src/jni/serverClient.cpp] and [src/jni/testclient.cpp]

    [upspeed] finds the target process, connects to the port its speed server
    listens on, sends the speed as text and waits for the echo. [itoa] formats a
    [long], which has 32 bits on the target. The sockets are given by the results
    of the calls made on them, as in [SpeedServer]. *)

From S2P Require Import Prelude CFloat CString CNumText Speed ProcFs SpeedServer.

(** ** [itoa] *)

Definition itoa_digits : list Z := bytes_of "0123456789abcdef" ++ [NUL].

(** [*--p = c]; there is no byte below [buf[0]]. *)
Definition push (c : Z) (buf : list Z) (p : nat) : option (list Z * nat) :=
  match p with
  | O => None
  | S p => Some (<[p := c]> buf, p)
  end.

(** The [while (n > 0)]. Every turn writes one byte, so [p] bounds the turns; a
    division by zero, an index outside the literal and a write below the buffer
    are undefined. *)
Fixpoint itoa_loop (n base : Z) (buf : list Z) (p : nat) : option (list Z * nat) :=
  if n >? 0 then
    match p with
    | O => None
    | S q =>
        if base =? 0 then None
        else
          c ← itoa_digits !! Z.to_nat (Z.rem n base);
          itoa_loop (Z.quot n base) base (<[q := c]> buf) q
    end
  else Some (buf, p).

(** The returned pointer is [buf + p]. The character constant ['/0'] has two
    characters; its value, stored in a [char], is that of ['0']. *)
Definition itoa (n base : Z) (buf : list Z) : option (list Z * nat) :=
  '(buf, p) ← push c_0 buf 36;
  n' ← (if n <? 0 then chkS 32 (- n) else Some n);
  '(buf, p) ← (if n' =? 0 then push c_0 buf p else itoa_loop n' base buf p);
  if n <? 0 then push 45 buf p else Some (buf, p).

(** ** [upspeed] *)

(** The static members of [serverClient]. *)
Record client_state := Client { cl_pid : Z; cl_speed : cfloat }.

(** What the calls on the socket return. *)
Record peer := Peer {
  p_socket : Z;
  p_connect : Z;
  p_send : Z;
  p_recvs : list recv_result;
}.

(** The calls that leave the process. *)
Inductive client_call :=
| Connect (port : Z)
| Send (bytes : list Z)
| Close.

(** How the client ends: it returned, [recv] blocks, or memory that is not the
    client's was written. *)
Inductive client_result :=
| Ret (r : Z)
| Waits
| Overrun.

(** [sprintf(buf, ...)] into a buffer of [size] bytes, with the terminator. *)
Definition sprintf_fits (size : nat) (text : list Z) : bool := (S (length text) <=? size)%nat.

(** [htons(pid)], back in host order. *)
Definition port_of (pid : Z) : Z := u16 pid.

(** The [while (received < echolen)]; [printed] is what [printf] wrote. *)
Fixpoint await_echo (received echolen : Z) (recvs : list recv_result) (printed : list Z)
    : client_result * list Z :=
  if received <? echolen then
    match recvs with
    | [] => (Waits, printed)
    | RecvErr :: _ => (Ret (-1), printed)
    | RecvBytes bytes :: recvs =>
        if Z.of_nat (length bytes) <? 1 then (Ret (-1), printed)
        else await_echo (received + Z.of_nat (length bytes)) echolen recvs (printed ++ cstr bytes)
    end
  else (Ret 0, printed).

(** The body after the process is found. *)
Definition upspeed_to (pid : Z) (speed : cfloat) (net : peer)
    : client_result * client_state * list client_call * list Z :=
  let st := Client pid speed in
  if p_socket net <? 0 then (Ret (-1), st, [], [])
  else
    let calls := [Connect (port_of (cl_pid st))] in
    if p_connect net <? 0 then (Ret (-1), st, calls, [])
    else
      let buf := sprintf_4f (f64_of_f32 (cl_speed st)) in
      if sprintf_fits 4 buf then
        let echolen := Z.of_nat (length buf) in
        let calls := calls ++ [Send buf] in
        if negb (p_send net =? echolen) then (Ret (-1), st, calls, [])
        else
          match await_echo 0 echolen (p_recvs net) [] with
          | (Ret 0, printed) => (Ret 0, st, calls ++ [Close], printed)
          | (r, printed) => (r, st, calls, printed)
          end
      else (Overrun, st, calls, []).

(** The file has its own copy of the function of elfinject.c. *)
Definition find_pid_of := ProcFs.find_pid_of.

(** [cmdline_of], [dir] and [cmdline] are the arguments of [find_pid_of]. *)
Definition upspeed (cmdline_of : Z -> option (list Z)) (dir : option (list (list Z)))
    (cmdline : list Z) (package : option (list Z)) (speed : cfloat) (net : peer)
    : client_result * client_state * list client_call * list Z :=
  upspeed_to (find_pid_of cmdline_of package dir cmdline) speed net.

(** ** [main] of testclient.cpp *)

(** Nothing is checked but reported: a closed connection is read again, and the
    -1 of an error is an index. *)
Fixpoint await_word (received echolen : Z) (recvs : list recv_result) (printed : list Z)
    : client_result * list Z :=
  if received <? echolen then
    match recvs with
    | [] => (Waits, printed)
    | RecvErr :: _ => (Overrun, printed)
    | RecvBytes bytes :: recvs =>
        await_word (received + Z.of_nat (length bytes)) echolen recvs (printed ++ cstr bytes)
    end
  else (Ret 0, printed).

(** [argv[1]] and [argv[2]]. *)
Definition main (port word : list Z) (net : peer) : client_result * list client_call * list Z :=
  let calls := [Connect (u16 (atoi port)); Send word] in
  match await_word 0 (Z.of_nat (length word)) (p_recvs net) [] with
  | (Ret 0, printed) => (Ret 0, calls ++ [Close], printed)
  | (r, printed) => (r, calls, printed)
  end.

(** ** Lemmas *)

Lemma itoa_digit d : 0 <= d < 16 -> itoa_digits !! Z.to_nat d = Some (digit_char d).
Proof.
  intros Hd. assert (E : forallb (fun k => bool_decide (itoa_digits !! Z.to_nat k = Some (digit_char k)))
    (Z.of_nat <$> seq 0 16) = true) by (vm_compute; reflexivity).
  rewrite forallb_forall in E. specialize (E d). rewrite bool_decide_eq_true in E. apply E.
  apply list_elem_of_In, list_elem_of_fmap. exists (Z.to_nat d).
  rewrite elem_of_seq. split; lia.
Qed.

(** The digits the loop writes, most significant first. *)
Lemma digits_aux_acc b fuel : forall n acc, digits_aux fuel b n acc = digits_aux fuel b n [] ++ acc.
Proof.
  induction fuel as [|fuel IH]; intros n acc; cbn [digits_aux]; [done|].
  destruct (n <? b); [done|]. rewrite IH, (IH _ [_]), <- app_assoc. done.
Qed.

Lemma digits_aux_fuel b : 2 <= b -> forall f1 f2 n acc, 0 <= n -> n < 2 ^ Z.of_nat f1 ->
  n < 2 ^ Z.of_nat f2 -> (0 < f1)%nat -> (0 < f2)%nat ->
  digits_aux f1 b n acc = digits_aux f2 b n acc.
Proof.
  intros Hb. induction f1 as [|f1 IH]; intros f2 n acc Hn H1 H2 P1 P2; [lia|].
  destruct f2 as [|f2]; [lia|]. cbn [digits_aux]. destruct (Z.ltb_spec n b) as [|Hge]; [done|].
  assert (Hdiv : forall f, n < 2 ^ Z.of_nat (S f) -> n / b < 2 ^ Z.of_nat f /\ (0 < f)%nat).
  { intros f Hf. rewrite Nat2Z.inj_succ, Z.pow_succ_r in Hf by lia. split.
    - apply Z.div_lt_upper_bound; [lia|]. nia.
    - destruct f; [change (2 * 2 ^ Z.of_nat 0) with 2 in Hf; lia|lia]. }
  destruct (Hdiv f1 H1), (Hdiv f2 H2). apply IH; try done. apply Z.div_pos; lia.
Qed.

Lemma digits_step b n : 2 <= b -> b <= n -> digits b n = digits b (n / b) ++ [n mod b].
Proof.
  intros Hb Hn. unfold digits at 1. cbn [digits_aux]. destruct (Z.ltb_spec n b); [lia|].
  rewrite digits_aux_acc. f_equal. unfold digits.
  assert (Hq : 0 < n / b) by (apply Z.div_str_pos; lia).
  assert (Hl : 1 <= Z.log2 n) by (apply Z.log2_le_pow2; simpl; lia).
  apply digits_aux_fuel; try lia.
  - rewrite Z2Nat.id by lia. apply Z.div_lt_upper_bound; [lia|].
    destruct (Z.log2_spec n) as [_ H2]; [lia|]. rewrite Z.pow_succ_r in H2 by lia. nia.
  - rewrite Nat2Z.inj_succ, Z2Nat.id by apply Z.log2_nonneg. by apply Z.log2_spec.
Qed.

Lemma digits_small b n : 0 <= n < b -> digits b n = [n].
Proof. intros Hn. unfold digits. cbn [digits_aux]. destruct (Z.ltb_spec n b); [done|lia]. Qed.

Lemma drop_insert_hd (buf : list Z) p c : (p < length buf)%nat -> drop p (<[p := c]> buf) = c :: drop (S p) buf.
Proof.
  intros Hp. assert (Hl : (p < length (<[p := c]> buf))%nat) by (by rewrite length_insert).
  destruct (lookup_lt_is_Some_2 _ _ Hl) as [x Hx].
  rewrite (drop_S _ _ _ Hx). rewrite list_lookup_insert_eq in Hx by done. simplify_eq.
  f_equal. apply drop_insert_lt. lia.
Qed.

(** Enough room for the digits, the loop writes the text of [n] in front of what
    [p] pointed at. *)
Lemma itoa_loop_writes base : 2 <= base <= 16 -> forall p n buf, 0 < n ->
  (length (digits base n) <= p)%nat -> (p <= length buf)%nat ->
  exists buf', itoa_loop n base buf p = Some (buf', (p - length (digits base n))%nat) /\
    length buf' = length buf /\
    drop (p - length (digits base n)) buf' = print_digits base n ++ drop p buf.
Proof.
  intros Hb. induction p as [|p IH]; intros n buf Hn Hl Hp.
  { pose proof (digits_not_nil base ltac:(lia) n ltac:(lia)). destruct (digits base n); [done|simpl in Hl; lia]. }
  cbn [itoa_loop]. rewrite (proj2 (Z.gtb_lt n 0)), (proj2 (Z.eqb_neq base 0)) by lia.
  rewrite Z.rem_mod_nonneg, Z.quot_div_nonneg by lia.
  pose proof (Z.mod_pos_bound n base ltac:(lia)).
  rewrite itoa_digit by lia. cbn [mbind option_bind].
  destruct (Z.lt_ge_cases n base) as [Hs|Hs].
  - rewrite Z.div_small, Z.mod_small by lia. unfold print_digits. rewrite digits_small by lia.
    exists (<[p := digit_char n]> buf). cbn [length fmap list_fmap app].
    replace (S p - 1)%nat with p by lia. split; [by destruct p|].
    rewrite length_insert. split; [done|]. by apply drop_insert_hd.
  - unfold print_digits in *. rewrite digits_step in * by lia.
    rewrite length_app in Hl. cbn [length] in Hl.
    destruct (IH (n / base) (<[p := digit_char (n mod base)]> buf)) as (buf' & E & L & D);
      [apply Z.div_str_pos; lia|lia|rewrite length_insert; lia|].
    exists buf'. rewrite E, length_app. cbn [length].
    replace (S p - (length (digits base (n / base)) + 1))%nat with (p - length (digits base (n / base)))%nat by lia.
    split; [done|]. rewrite length_insert in L. split; [done|].
    rewrite D, drop_insert_hd, fmap_app, <- app_assoc by lia. done.
Qed.

Lemma push_writes c buf p : (0 < p)%nat -> (p <= length buf)%nat ->
  exists buf', push c buf p = Some (buf', (p - 1)%nat) /\ length buf' = length buf /\
    drop (p - 1) buf' = c :: drop p buf.
Proof.
  intros Hp Hl. destruct p as [|p]; [lia|]. exists (<[p := c]> buf). cbn [push].
  replace (S p - 1)%nat with p by lia. rewrite length_insert. do 2 (split; [done|]).
  apply drop_insert_hd. lia.
Qed.

Lemma digits_length_log2 b n : 2 <= b -> 0 <= n -> Z.of_nat (length (digits b n)) <= Z.log2 n + 1.
Proof.
  intros Hb Hn. destruct (digits_spec b Hb n Hn) as (d & ds & _ & _ & _ & _ & H).
  pose proof (Z.log2_nonneg n). lia.
Qed.

(** [await_echo] consumes chunks until they hold [k] bytes. *)
Lemma await_echo_all chunks : forall received echolen printed,
  Forall (fun c => c <> []) chunks ->
  received + Z.of_nat (length (concat chunks)) = echolen ->
  await_echo received echolen (RecvBytes <$> chunks) printed =
    (Ret 0, printed ++ concat (cstr <$> chunks)).
Proof.
  induction chunks as [|c chunks IH]; intros received echolen printed Hne Hl; cbn [fmap list_fmap await_echo].
  - simpl in Hl. rewrite (proj2 (Z.ltb_ge received echolen)) by lia. by rewrite app_nil_r.
  - apply Forall_cons_1 in Hne as [Hc Hne]. cbn [concat] in *. rewrite length_app in Hl.
    assert (0 < length c)%nat by (destruct c; simpl; [done|lia]).
    rewrite (proj2 (Z.ltb_lt received echolen)) by lia.
    rewrite (proj2 (Z.ltb_ge (Z.of_nat (length c)) 1)) by lia.
    rewrite IH by (done || lia). by rewrite <- app_assoc.
Qed.

Lemma await_echo_ret recvs : forall received echolen printed r p,
  await_echo received echolen recvs printed = (Ret r, p) -> r = 0 \/ r = -1.
Proof.
  induction recvs as [|[|b] recvs IH]; intros received echolen printed r p; cbn [await_echo];
    repeat case_match; intros; simplify_eq; eauto.
Qed.

Lemma times_for_speed_of g n : Z.abs n < 2 ^ 24 -> exists g', times_for g (speed_of n) = Some g'.
Proof.
  intros Hn. unfold times_for. destruct (SFleb _ _) eqn:E; [eauto|].
  destruct (Z.eq_dec n 0) as [->|Hz]; [by vm_compute in E|].
  unfold speed_of. rewrite f32_of_Z_canon by done.
  assert (Z.log2 (Z.abs n) < 24) by (apply Z.log2_lt_pow2; lia).
  unfold to_S. rewrite trunc_canon by lia. cbn [mbind option_bind]. unfold chkS.
  rewrite decide_True; [cbn; eauto|]. unfold inS. destruct (n <? 0); simpl; lia.
Qed.

Lemma trunc_speed_of n : Z.abs n < 2 ^ 24 -> exists z, trunc_Z (f64_of_f32 (speed_of n)) = Some z.
Proof.
  intros Hn. destruct (Z.eq_dec n 0) as [->|Hz]; [by exists 0|].
  assert (Z.log2 (Z.abs n) < 24) by (apply Z.log2_lt_pow2; lia).
  unfold speed_of. rewrite f32_of_Z_canon, convert_canon, trunc_canon by (done || lia). eauto.
Qed.

Lemma SetTimeScale_speed_of MSH n s : Z.abs n < 2 ^ 24 ->
  exists s' r, SetTimeScale MSH (speed_of n) s = Some (s', r) /\ factor (g_times s) (speed_of n) (g_times s').
Proof.
  intros Hn. destruct (times_for_speed_of (g_times s) n Hn) as [g Hg].
  pose proof (proj1 (times_for_factor _ _ _) Hg) as Hf.
  unfold SetTimeScale, do_speed_hook.
  destruct (MSH (sym_gettimeofday s) new_code) as [c1 o1].
  destruct (MSH (sym_clock_gettime s) new_code) as [c2 o2].
  destruct (negb _); cbn [fst with_hooked with_symbols g_times]; rewrite Hg; cbn; eauto.
Qed.

Lemma digits_length_pow b : 2 <= b -> forall k n, 0 <= n < b ^ Z.of_nat (S k) ->
  (length (digits b n) <= S k)%nat.
Proof.
  intros Hb. induction k as [|k IH]; intros n Hn.
  - rewrite digits_small by (rewrite Z.pow_1_r in Hn; lia). done.
  - destruct (Z.lt_ge_cases n b) as [|Hge]; [rewrite digits_small by lia; simpl; lia|].
    rewrite digits_step, length_app by lia. cbn [length].
    assert (length (digits b (n / b)) <= S k)%nat; [|lia]. apply IH.
    split; [apply Z.div_pos; lia|]. apply Z.div_lt_upper_bound; [lia|].
    rewrite Nat2Z.inj_succ, Z.pow_succ_r in Hn by lia. lia.
Qed.

Lemma text_length n : Z.abs n < 2 ^ 24 -> (length (sprintf_4f (f64_of_f32 (speed_of n))) <= 14)%nat.
Proof.
  intros Hn. destruct (Z.eq_dec n 0) as [->|Hz]; [vm_compute; lia|].
  rewrite text_of_speed by done. unfold print_scaled4.
  rewrite !length_app, length_print_pad by (apply Z.mod_pos_bound; lia). unfold print_digits.
  rewrite Z.div_mul by lia. rewrite length_fmap.
  pose proof (digits_length_pow 10 ltac:(lia) 7 (Z.abs n) ltac:(lia)).
  destruct (n <? 0); simpl in *; lia.
Qed.

(** ** Properties *)

(** With four bytes for the text, as declared, every number [upspeed] is given
    overruns its buffer once the connection is made: a number prints in six
    characters or more. *)
Lemma upspeed_overruns cmdline_of dir cmdline package speed net z :
  trunc_Z (f64_of_f32 speed) = Some z -> 0 <= p_socket net -> 0 <= p_connect net ->
  let pid := find_pid_of cmdline_of package dir cmdline in
  upspeed cmdline_of dir cmdline package speed net = (Overrun, Client pid speed, [Connect (port_of pid)], []).
Proof.
  intros Hz Hs Hc pid. pose proof (sprintf_4f_length _ (ex_intro _ z Hz)).
  unfold upspeed, upspeed_to. rewrite (proj2 (Z.ltb_ge _ _) Hs), (proj2 (Z.ltb_ge _ _) Hc).
  unfold sprintf_fits. cbn [cl_speed]. by rewrite (proj2 (Nat.leb_gt _ _)) by lia.
Qed.

(** The client of [testclient.cpp] waits for all of the echo. *)
Lemma await_word_all chunks : forall received echolen printed,
  Forall (fun c => c <> []) chunks ->
  received + Z.of_nat (length (concat chunks)) = echolen ->
  await_word received echolen (RecvBytes <$> chunks) printed = (Ret 0, printed ++ concat (cstr <$> chunks)).
Proof.
  induction chunks as [|c chunks IH]; intros received echolen printed Hne Hl; cbn [fmap list_fmap await_word].
  - simpl in Hl. rewrite (proj2 (Z.ltb_ge received echolen)) by lia. by rewrite app_nil_r.
  - apply Forall_cons_1 in Hne as [Hc Hne]. cbn [concat] in *. rewrite length_app in Hl.
    assert (0 < length c)%nat by (destruct c; simpl; [done|lia]).
    rewrite (proj2 (Z.ltb_lt received echolen)) by lia. rewrite IH by (done || lia). by rewrite <- app_assoc.
Qed.

(** C28. A speed that is sent is the speed that is set. Given the port of the server of a
    process and the text of a whole speed below 2^24 (with four digits behind the point, as
    [upspeed] formats it), the client of [testclient.cpp] connects to that port, sends the
    text and returns when the echo is complete, however the echo is cut into pieces. When
    the server receives the text in one piece, and the byte its buffer holds behind it
    cannot continue a number, it sets the factor as [SetTimeScale] specifies for exactly
    that speed and sends the text back. [upspeed] of [serverClient.cpp], given that speed,
    connects to the same port and then writes past the four bytes of its buffer, before it
    sends anything. *)
Theorem speed_sent_is_set MSH s cmdline_of dir cmdline package port n net stack chunks :
  let pid := find_pid_of cmdline_of package dir cmdline in
  let text := sprintf_4f (f64_of_f32 (speed_of n)) in
  Z.abs n < 2 ^ 24 -> atoi port = pid ->
  length stack = BUFFSIZE -> (exists c r, drop (length text) stack = c :: r /\ ends_number c) ->
  p_recvs net = RecvBytes <$> chunks -> concat chunks = text -> Forall (fun c => c <> []) chunks ->
  0 <= p_socket net -> 0 <= p_connect net ->
  main port text net = (Ret 0, [Connect (server_port pid); Send text; Close], concat (cstr <$> chunks)) /\
  (exists s', HandleClient MSH [Turn (RecvBytes text) (Z.of_nat (length text)); Turn (RecvBytes []) 0] stack s = (Closed, s', [text]) /\
    factor (g_times s) (speed_of n) (g_times s')) /\
  upspeed cmdline_of dir cmdline package (speed_of n) net = (Overrun, Client pid (speed_of n), [Connect (server_port pid)], []).
Proof.
  intros pid text Hn Hport Hstack (c & r & Hdrop & Hc) Hnet Hchunks Hne Hsock Hconn.
  assert (Htr : exists z, trunc_Z (f64_of_f32 (speed_of n)) = Some z) by (by apply trunc_speed_of).
  split; [|split].
  - unfold main. rewrite Hnet, Hport, (await_word_all chunks) by (done || (rewrite Hchunks; lia)). done.
  - destruct (SetTimeScale_speed_of MSH n s Hn) as (s' & r0 & Hset & Hf). exists s'. split; [|done].
    destruct (atof_sprintf n c r Hn Hc) as (v & Hv & Hvn). fold text in Hv.
    assert (Hlen : (1 <= length text)%nat) by (pose proof (sprintf_4f_length (f64_of_f32 (speed_of n)) Htr) as H0; fold text in H0; lia).
    unfold HandleClient. destruct text as [|t0 text'] eqn:Et; [simpl in Hlen; lia|]. cbn [serve t_recv t_send].
    unfold recv_into. rewrite Hdrop, Hv. cbn [mbind option_bind]. rewrite Hvn, Hset, Z.eqb_refl.
    by rewrite take_app_length.
  - destruct Htr as [z Hz]. by apply (upspeed_overruns _ _ _ _ _ _ z).
Qed.

Definition one_process (id : Z) : option (list Z) :=
  if id =? 1234 then Some (bytes_of "com.game") else None.

(** Speed 3 (a factor of 4) sent to process 1234, echoed in two pieces. *)
Lemma speed_sent_is_set_witness :
  main (bytes_of "1234" ++ [0]) (bytes_of "3.0000") (Peer 5 0 6 (RecvBytes <$> [bytes_of "3.0"; bytes_of "000"])) =
    (Ret 0, [Connect 1234; Send (bytes_of "3.0000"); Close], bytes_of "3.0000") /\
  (exists s', HandleClient (fun s n => (s, n))
      [Turn (RecvBytes (bytes_of "3.0000")) 6; Turn (RecvBytes []) 0] (repeat 0 BUFFSIZE)
      (with_hooked 0 init_speed) = (Closed, s', [bytes_of "3.0000"]) /\
    factor (g_times (with_hooked 0 init_speed)) (speed_of 3) (g_times s')) /\
  upspeed one_process (Some [bytes_of "self"; bytes_of "1234"]) (repeat 0 256) (Some (bytes_of "com.game"))
      (speed_of 3) (Peer 5 0 6 (RecvBytes <$> [bytes_of "3.0"; bytes_of "000"]))
      = (Overrun, Client 1234 (speed_of 3), [Connect 1234], []).
Proof.
  refine (speed_sent_is_set (fun s n => (s, n)) (with_hooked 0 init_speed) one_process
    (Some [bytes_of "self"; bytes_of "1234"]) (repeat 0 256) (Some (bytes_of "com.game")) (bytes_of "1234" ++ [0]) 3
    (Peer 5 0 6 (RecvBytes <$> [bytes_of "3.0"; bytes_of "000"]))
    (repeat 0 BUFFSIZE) [bytes_of "3.0"; bytes_of "000"] _ _ _ _ _ _ _ _ _).
  - lia.
  - vm_compute. reflexivity.
  - reflexivity.
  - exists 0, (repeat 0 25). split; [reflexivity|]. vm_compute. split; [reflexivity|split; discriminate].
  - reflexivity.
  - vm_compute. reflexivity.
  - repeat constructor; discriminate.
  - cbn. lia.
  - cbn. lia.
Defined.

(** [upspeed] returns only 0 and -1; it has closed its socket exactly when it
    returns 0, so that every failure after [socket] leaves it open; and whatever
    happens, it spoke to the port of that process and sent it nothing but the
    text of the speed. *)
Theorem upspeed_calls cmdline_of dir cmdline package speed net :
  let pid := find_pid_of cmdline_of package dir cmdline in
  let '(res, st, calls, _) := upspeed cmdline_of dir cmdline package speed net in
  st = Client pid speed /\
  calls `prefix_of` [Connect (server_port pid); Send (sprintf_4f (f64_of_f32 speed)); Close] /\
  (Close ∈ calls <-> res = Ret 0) /\
  (forall r, res = Ret r -> r = 0 \/ r = -1).
Proof.
  intros pid. unfold upspeed, upspeed_to, port_of, server_port. fold pid. generalize pid. clear pid. intros pid. cbn [cl_pid cl_speed app].
  assert (Hp : forall a b c : client_call, [] `prefix_of` [a; b; c] /\ [a] `prefix_of` [a; b; c] /\
    [a; b] `prefix_of` [a; b; c]) by (intros; split; [apply prefix_nil|split; by eexists]).
  assert (HC : forall (l : list client_call) res, (In Close l <-> res = Ret 0) -> Close ∈ l <-> res = Ret 0)
    by (intros l res <-; apply list_elem_of_In).
  destruct (Hp (Connect (u16 pid)) (Send (sprintf_4f (f64_of_f32 speed))) Close) as (P0 & P1 & P2).
  destruct (await_echo _ _ _ _) as [r p] eqn:E. 
  assert (Hr : forall x, r = Ret x -> x = 0 \/ x = -1) by (intros x ->; eapply await_echo_ret; exact E).
  clear E.
  repeat case_match; simplify_eq; (split; [done|split; [done|split]]);
    try (apply HC; cbn [In]; intuition (discriminate || congruence)); intros ? [= <-]; eauto.
Qed.

(** [itoa] in the bases it has digits for: for every [long] but the smallest,
    whose negation overflows, the result points into the buffer at a sign where
    one is due and the digits of the number, followed by the character 0 where
    the terminator was meant to be and by the end of the buffer. Base 2 needs 33
    of the 36 bytes. *)
Theorem itoa_spec n base buf :
  inS 32 n -> n <> - 2 ^ 31 -> 2 <= base <= 16 -> length buf = 36%nat ->
  exists buf' p, itoa n base buf = Some (buf', p) /\ length buf' = 36%nat /\
    drop p buf' = (if n <? 0 then [45] else []) ++ print_digits base (Z.abs n) ++ [48].
Proof.
  intros Hn Hmin Hb Hl. unfold itoa.
  destruct (push_writes c_0 buf 36) as (b1 & -> & L1 & D1); [lia|lia|]. cbn [mbind option_bind].
  rewrite (drop_ge buf) in D1 by lia. change (36 - 1)%nat with 35%nat in *.
  assert (E1 : (if n <? 0 then chkS 32 (- n) else Some n) = Some (Z.abs n)).
  { unfold inS in Hn. destruct (Z.ltb_spec n 0); [|f_equal; lia].
    rewrite chkS_Some; [f_equal; lia|unfold inS; lia]. }
  rewrite E1. cbn [mbind option_bind].
  assert (E2 : exists b2 q, (if Z.abs n =? 0 then push c_0 b1 35 else itoa_loop (Z.abs n) base b1 35) = Some (b2, q) /\
    length b2 = 36%nat /\ (0 < q)%nat /\ (q <= 36)%nat /\ drop q b2 = print_digits base (Z.abs n) ++ [48]).
  { destruct (Z.eqb_spec (Z.abs n) 0) as [E0|E0].
    - destruct (push_writes c_0 b1 35) as (b2 & -> & L2 & D2); [lia|lia|].
      exists b2, 34%nat. rewrite E0, <- L1 in *. rewrite Hl in *. rewrite D1 in D2.
      unfold print_digits. rewrite digits_small by lia. repeat split; (done || lia).
    - assert (Hd : (length (digits base (Z.abs n)) <= 31)%nat).
      { pose proof (digits_length_log2 base (Z.abs n) ltac:(lia) ltac:(lia)).
        assert (Z.log2 (Z.abs n) < 31) by (apply Z.log2_lt_pow2; unfold inS in Hn; lia). lia. }
      destruct (itoa_loop_writes base Hb 35 (Z.abs n) b1) as (b2 & -> & L2 & D2); [lia|lia|lia|].
      rewrite D1 in D2. eexists b2, _. split; [done|]. rewrite D2. repeat split; lia. }
  destruct E2 as (b2 & q & -> & L2 & Hq & Hq2 & D2). cbn [mbind option_bind]. destruct (n <? 0).
  - destruct (push_writes 45 b2 q) as (b3 & -> & L3 & D3); [lia|lia|].
    exists b3, (q - 1)%nat. rewrite D3, D2. by rewrite L3.
  - by exists b2, q.
Qed.

Lemma itoa_spec_witness :
  exists buf' p, itoa (-255) 16 (repeat 0 36) = Some (buf', p) /\ length buf' = 36%nat /\
    drop p buf' = bytes_of "-ff0".
Proof. apply (itoa_spec (-255) 16 (repeat 0 36)); [unfold inS; lia|lia|lia|reflexivity]. Defined.

(** A server that closed is read for ever by the test client. *)
Example testclient_spins :
  main (bytes_of "1234") (bytes_of "3") (Peer 5 0 1 (repeat (RecvBytes []) 100))
    = (Waits, [Connect 1234; Send (bytes_of "3")], []).
Proof. vm_compute. reflexivity. Qed.
