(* ===== verification/EpollServer.v ===== *)
(** * The chat server: [src/jni/epollserver.cpp] with [src/jni/local.h]

    Clients connect, are welcomed, and what one sends is sent to all others. The
    system is given by the results of the calls: an event carries the results of
    the calls its handling makes. *)

From S2P Require Import Prelude CString.

(** ** Data *)

Definition BUF_SIZE : nat := 1024.
Definition EPOLL_SIZE : Z := 10000.
Definition O_NONBLOCK : Z := 2048.

(** What [fcntl] answers: [F_GETFD], and [F_SETFL] with given flags. *)
Record fcntl_results := Fcntl { f_getfd : Z; f_setfl : Z -> Z }.

(** An event of [epoll_wait]: on the listener, or on a client's socket. [r_recv]
    is [None] for an error; [n_send], [r_send] are the results of [send] on a
    socket. *)
Inductive event :=
| EvListener (n_accept : Z) (n_fcntl : fcntl_results) (n_ctl : Z) (n_send : Z)
| EvClient (fd : Z) (r_recv : option (list Z)) (r_close : Z) (r_send : Z -> Z).

(** How handling ends: going on with a value, [exit(-1)], or a write beyond a
    buffer. *)
Inductive status (A : Type) :=
| Next (a : A)
| Exit
| Overrun.
Arguments Next {A}. Arguments Exit {A}. Arguments Overrun {A}.

(** What was sent: socket and bytes, in order. *)
Definition sent := list (Z * list Z).

(** ** Operations *)

Definition setnonblocking (f : fcntl_results) : status Z :=
  if f_setfl f (Z.lor (f_getfd f) O_NONBLOCK) <? 0 then Exit else Next 0.

(** [message] after [bzero] and [sprintf]: [BUF_SIZE] bytes, if the text and its
    terminator fit. *)
Definition sprintf_message (text : list Z) : option (list Z) :=
  if (length text <? BUF_SIZE)%nat then Some (text ++ repeat 0 (BUF_SIZE - length text)) else None.

Definition STR_WELCOME (client : Z) : list Z :=
  bytes_of "Welcome to seChat! You ID is: Client #" ++ print_d client.
Definition STR_MESSAGE (client : Z) (buf : list Z) : list Z :=
  bytes_of "Client #" ++ print_d client ++ bytes_of ">> " ++ cstr buf.
Definition STR_NOONE_CONNECTED : list Z := bytes_of "Noone connected to server except you!".

(** The loop over [clients_list]. *)
Fixpoint send_others (client : Z) (message : list Z) (send : Z -> Z) (it : list Z)
    : status unit * sent :=
  match it with
  | [] => (Next tt, [])
  | fd :: it =>
      if negb (fd =? client) then
        if send fd <? 0 then (Exit, [(fd, message)])
        else let '(st, out) := send_others client message send it in (st, (fd, message) :: out)
      else send_others client message send it
  end.

(** [clients_list.remove(client)]. *)
Definition list_remove (client : Z) (l : list Z) : list Z := base.filter (fun fd => fd <> client) l.

(** [buf] is zeroed and receives at most its size: when the client fills it there
    is no terminator, and the text read from it does not fit [message] either. *)
Definition handle_message (client : Z) (received : option (list Z)) (r_close : Z)
    (send : Z -> Z) (clients_list : list Z) : status Z * list Z * sent :=
  match received with
  | None => (Exit, clients_list, [])
  | Some [] =>
      if r_close <? 0 then (Exit, clients_list, [])
      else (Next 0, list_remove client clients_list, [])
  | Some bytes =>
      let len := Z.of_nat (length bytes) in
      if (length clients_list =? 1)%nat then
        if send client <? 0 then (Exit, clients_list, [(client, STR_NOONE_CONNECTED)])
        else (Next len, clients_list, [(client, STR_NOONE_CONNECTED)])
      else
        match sprintf_message (STR_MESSAGE client bytes) with
        | None => (Overrun, clients_list, [])
        | Some message =>
            match send_others client message send clients_list with
            | (Next _, out) => (Next len, clients_list, out)
            | (Exit, out) => (Exit, clients_list, out)
            | (Overrun, out) => (Overrun, clients_list, out)
            end
        end
  end.

(** The body of the [for]: one event. *)
Definition handle_event (ev : event) (clients_list : list Z) : status unit * list Z * sent :=
  match ev with
  | EvListener client f n_ctl n_send =>
      if client <? 0 then (Exit, clients_list, [])
      else
        match setnonblocking f with
        | Next _ =>
            if n_ctl <? 0 then (Exit, clients_list, [])
            else
              let clients_list := clients_list ++ [client] in
              match sprintf_message (STR_WELCOME client) with
              | None => (Overrun, clients_list, [])
              | Some message =>
                  if n_send <? 0 then (Exit, clients_list, [(client, message)])
                  else (Next tt, clients_list, [(client, message)])
              end
        | Exit => (Exit, clients_list, [])
        | Overrun => (Overrun, clients_list, [])
        end
  | EvClient fd received r_close send =>
      match handle_message fd received r_close send clients_list with
      | (Next res, clients_list, out) => (if res <? 0 then Exit else Next tt, clients_list, out)
      | (Exit, clients_list, out) => (Exit, clients_list, out)
      | (Overrun, clients_list, out) => (Overrun, clients_list, out)
      end
  end.

(** The [for] over the events of one [epoll_wait]. *)
Fixpoint handle_events (evs : list event) (clients_list : list Z) : status unit * list Z * sent :=
  match evs with
  | [] => (Next tt, clients_list, [])
  | ev :: evs =>
      match handle_event ev clients_list with
      | (Next _, clients_list, out) =>
          let '(st, clients_list, out') := handle_events evs clients_list in
          (st, clients_list, out ++ out')
      | other => other
      end
  end.

(** The [while(1)]: each [epoll_wait] fails ([None]) or delivers events. *)
Fixpoint serve_chat (waits : list (option (list event))) (clients_list : list Z)
    : status unit * list Z * sent :=
  match waits with
  | [] => (Next tt, clients_list, [])
  | None :: _ => (Exit, clients_list, [])
  | Some evs :: waits =>
      match handle_events evs clients_list with
      | (Next _, clients_list, out) =>
          let '(st, clients_list, out') := serve_chat waits clients_list in
          (st, clients_list, out ++ out')
      | other => other
      end
  end.

(** The results of the calls before the loop. *)
Record setup := Setup {
  u_socket : Z; u_fcntl : fcntl_results; u_bind : Z; u_listen : Z; u_epoll_create : Z; u_epoll_ctl : Z
}.

Definition main (u : setup) (waits : list (option (list event))) : status unit * list Z * sent :=
  if u_socket u <? 0 then (Exit, [], [])
  else
    match setnonblocking (u_fcntl u) with
    | Next _ =>
        if u_bind u <? 0 then (Exit, [], [])
        else if u_listen u <? 0 then (Exit, [], [])
        else if u_epoll_create u <? 0 then (Exit, [], [])
        else if u_epoll_ctl u <? 0 then (Exit, [], [])
        else serve_chat waits []
    | Exit => (Exit, [], [])
    | Overrun => (Overrun, [], [])
    end.

(** ** The room the server is meant to keep *)

(** Who is in it is a set. Joining welcomes; leaving is silent; a word said alone is
    answered; any other goes exactly once to each other member, whatever the
    order. *)
Definition padded (text : list Z) : list Z := text ++ repeat 0 (BUF_SIZE - length text).

Inductive room_step : gset Z -> event -> gset Z -> sent -> Prop :=
| room_join M client f n_ctl n_send : client ∉ M ->
    room_step M (EvListener client f n_ctl n_send) (M ∪ {[client]}) [(client, padded (STR_WELCOME client))]
| room_leave M fd r_close send : fd ∈ M ->
    room_step M (EvClient fd (Some []) r_close send) (M ∖ {[fd]}) []
| room_alone M fd bytes r_close send : M = {[fd]} -> bytes <> [] ->
    room_step M (EvClient fd (Some bytes) r_close send) M [(fd, STR_NOONE_CONNECTED)]
| room_say M fd bytes r_close send out : fd ∈ M -> M <> {[fd]} -> bytes <> [] ->
    NoDup out.*1 ->
    (forall x b, (x, b) ∈ out <-> x ∈ M ∖ {[fd]} /\ b = padded (STR_MESSAGE fd bytes)) ->
    room_step M (EvClient fd (Some bytes) r_close send) M out.

Inductive room_run : gset Z -> list event -> gset Z -> sent -> Prop :=
| room_done M : room_run M [] M []
| room_more M ev M1 out1 evs M2 out2 : room_step M ev M1 out1 -> room_run M1 evs M2 out2 ->
    room_run M (ev :: evs) M2 (out1 ++ out2).

(** An event whose calls succeed: the kernel gives a new connection a number that
    is not in use and reports only sockets in use; the text fits the buffer. *)
Definition fcntl_ok (f : fcntl_results) : Prop := 0 <= f_setfl f (Z.lor (f_getfd f) O_NONBLOCK).

Definition event_ok (M : gset Z) (ev : event) : Prop :=
  match ev with
  | EvListener client f n_ctl n_send =>
      0 <= client < 2 ^ 31 /\ (client ∉ M) /\ fcntl_ok f /\ 0 <= n_ctl /\ 0 <= n_send
  | EvClient fd received r_close send =>
      fd ∈ M /\ 0 <= r_close /\ (forall x, 0 <= send x) /\
      exists bytes, received = Some bytes /\ (length (STR_MESSAGE fd bytes) < BUF_SIZE)%nat
  end.

Definition members_after (M : gset Z) (ev : event) : gset Z :=
  match ev with
  | EvListener client _ _ _ => M ∪ {[client]}
  | EvClient fd (Some []) _ _ => M ∖ {[fd]}
  | EvClient _ _ _ _ => M
  end.

Fixpoint events_ok (M : gset Z) (evs : list event) : Prop :=
  match evs with
  | [] => True
  | ev :: evs => event_ok M ev /\ events_ok (members_after M ev) evs
  end.

(** The list represents the set. *)
Definition list_rel (l : list Z) (M : gset Z) : Prop := NoDup l /\ forall x, x ∈ l <-> x ∈ M.

(** ** Lemmas *)

Lemma send_others_spec client message send l : (forall x, 0 <= send x) ->
  send_others client message send l = (Next tt, (fun fd => (fd, message)) <$> list_remove client l).
Proof.
  intros Hs. unfold list_remove. induction l as [|fd l IH]; [done|]. cbn [send_others].
  rewrite filter_cons. destruct (Z.eqb_spec fd client) as [->|Hne]; cbn [negb].
  - by rewrite decide_False by naive_solver.
  - rewrite decide_True, (proj2 (Z.ltb_ge (send fd) 0)), IH by (done || apply Hs). done.
Qed.

Lemma sprintf_message_fits text : (length text < BUF_SIZE)%nat -> sprintf_message text = Some (padded text).
Proof. intros H. unfold sprintf_message. by rewrite (proj2 (Nat.ltb_lt _ _)). Qed.

Lemma list_rel_single l M fd : list_rel l M -> (length l =? 1)%nat = true -> fd ∈ M -> M = {[fd]}.
Proof.
  intros [_ Hl] H1 Hfd. destruct l as [|x [|y l]]; try done. apply set_eq. intros z.
  rewrite <- Hl in *. set_solver.
Qed.

Lemma list_rel_not_single l M fd : list_rel l M -> (length l =? 1)%nat = false -> fd ∈ M -> M <> {[fd]}.
Proof.
  intros [Hnd Hl] H1 Hfd ->. assert (Hall : forall x, x ∈ l -> x = fd) by (intros x; rewrite Hl; set_solver).
  destruct l as [|x [|y l]]; [|done|].
  - apply Hl in Hfd. set_solver.
  - apply NoDup_cons in Hnd as [Hx _]. apply Hx. rewrite (Hall x), (Hall y) by set_solver. set_solver.
Qed.

Lemma print_d_length n : 0 <= n < 2 ^ 31 -> (length (print_d n) <= 32)%nat.
Proof.
  intros Hn. unfold print_d. rewrite (proj2 (Z.ltb_ge n 0)) by lia. unfold print_digits. rewrite length_fmap.
  destruct (digits_spec 10 ltac:(lia) n ltac:(lia)) as (? & ? & _ & _ & _ & _ & H).
  destruct (Z.eq_dec n 0) as [->|]; [vm_compute; lia|].
  assert (Z.log2 n < 31) by (apply Z.log2_lt_pow2; lia). lia.
Qed.

Lemma welcome_fits client : 0 <= client < 2 ^ 31 -> (length (STR_WELCOME client) < BUF_SIZE)%nat.
Proof.
  intros H%print_d_length. unfold STR_WELCOME. rewrite length_app. unfold BUF_SIZE.
  change (length (bytes_of _)) with 38%nat. lia.
Qed.

(** One event of the server is one step of the room. *)
Lemma handle_event_step l M ev : list_rel l M -> event_ok M ev ->
  exists l' out, handle_event ev l = (Next tt, l', out) /\
    list_rel l' (members_after M ev) /\ room_step M ev (members_after M ev) out.
Proof.
  intros Hrel Hok. pose proof Hrel as [Hnd Hl]. destruct ev as [client f n_ctl n_send|fd received r_close send];
    cbn [event_ok] in Hok; cbn [handle_event members_after].
  - destruct Hok as (Hc & Hnew & Hf & Hctl & Hsend).
    rewrite (proj2 (Z.ltb_ge client 0)) by lia. unfold setnonblocking.
    rewrite (proj2 (Z.ltb_ge _ _) Hf), (proj2 (Z.ltb_ge n_ctl 0)), (proj2 (Z.ltb_ge n_send 0)) by lia.
    rewrite sprintf_message_fits by by apply welcome_fits.
    eexists _, _. split; [done|]. split; [|by constructor]. split.
    + apply NoDup_app. split; [done|]. split; [|apply NoDup_singleton].
      intros x Hx ->%list_elem_of_singleton. by apply Hnew, Hl.
    + intros x. rewrite elem_of_app, list_elem_of_singleton, elem_of_union, elem_of_singleton, Hl. done.
  - destruct Hok as (Hfd & Hclose & Hsend & bytes & -> & Hfit). unfold handle_message.
    destruct bytes as [|b bs].
    + rewrite (proj2 (Z.ltb_ge r_close 0)) by lia. eexists _, _. split; [done|].
      split; [|by constructor]. split; [by apply NoDup_filter|].
      intros x. unfold list_remove. rewrite list_elem_of_filter, Hl. set_solver.
    + destruct (length l =? 1)%nat eqn:E1.
      * rewrite (proj2 (Z.ltb_ge _ _) (Hsend fd)). rewrite (proj2 (Z.ltb_ge _ _) (Nat2Z.is_nonneg _)).
        eexists _, _. split; [done|]. split; [done|]. constructor; [|done]. by eapply list_rel_single.
      * rewrite sprintf_message_fits, send_others_spec by done.
        rewrite (proj2 (Z.ltb_ge _ _) (Nat2Z.is_nonneg _)).
        eexists _, _. split; [done|]. split; [done|].
        constructor; [done|by eapply list_rel_not_single|done|..].
        -- rewrite <- list_fmap_compose. rewrite (list_fmap_ext _ id) by done. rewrite list_fmap_id.
           by apply NoDup_filter.
        -- intros x c. unfold list_remove. rewrite list_elem_of_fmap. setoid_rewrite list_elem_of_filter.
           setoid_rewrite Hl. set_solver.
Qed.

Lemma handle_events_run evs : forall l M, list_rel l M -> events_ok M evs ->
  exists l' M' out, handle_events evs l = (Next tt, l', out) /\ list_rel l' M' /\ room_run M evs M' out /\
    M' = fold_left members_after evs M.
Proof.
  induction evs as [|ev evs IH]; intros l M Hrel Hok; cbn [handle_events events_ok] in *.
  - eexists _, _, _. split; [done|]. split; [done|]. split; [constructor|done].
  - destruct Hok as [Hev Hok]. destruct (handle_event_step l M ev Hrel Hev) as (l1 & o1 & -> & Hr1 & Hs1).
    destruct (IH l1 _ Hr1 Hok) as (l2 & M2 & o2 & -> & Hr2 & Hs2 & E2).
    eexists _, _, _. split; [done|]. split; [done|]. split; [by econstructor|done].
Qed.

Lemma room_run_app evs1 : forall M M1 out1 evs2 M2 out2,
  room_run M evs1 M1 out1 -> room_run M1 evs2 M2 out2 -> room_run M (evs1 ++ evs2) M2 (out1 ++ out2).
Proof.
  induction evs1 as [|ev evs1 IH]; intros M M1 out1 evs2 M2 out2 H1 H2; inversion H1; subst; simpl; [done|].
  rewrite <- app_assoc. econstructor; [done|]. by eapply IH.
Qed.

Lemma events_ok_app evs1 : forall M evs2, events_ok M (evs1 ++ evs2) <->
  events_ok M evs1 /\ events_ok (fold_left members_after evs1 M) evs2.
Proof. induction evs1 as [|ev evs1 IH]; intros M evs2; simpl; [tauto|]. rewrite IH. tauto. Qed.

(** ** Properties *)

(** C29. The chat server keeps a room: from the start, whatever connects, says and
    leaves, and however [epoll_wait] groups the events, as long as the calls
    succeed and every message, with the prefix that names its sender, is shorter than
    [BUF_SIZE], the server goes on, has at any time exactly the members of the room in
    its list, each once, and sends exactly what the room delivers.
    [long_message_overruns] is what happens otherwise. *)
Theorem main_keeps_room u batches :
  0 <= u_socket u -> fcntl_ok (u_fcntl u) -> 0 <= u_bind u -> 0 <= u_listen u ->
  0 <= u_epoll_create u -> 0 <= u_epoll_ctl u -> events_ok ∅ (concat batches) ->
  exists clients_list M out, main u (Some <$> batches) = (Next tt, clients_list, out) /\
    list_rel clients_list M /\ room_run ∅ (concat batches) M out.
Proof.
  intros H1 H2 H3 H4 H5 H6 Hok. unfold main, setnonblocking. unfold fcntl_ok in H2.
  rewrite !(proj2 (Z.ltb_ge _ _)) by done.
  assert (Hrel : list_rel [] ∅) by (split; [apply NoDup_nil_2|set_solver]).
  revert Hrel Hok. generalize (@nil Z) as l, (∅ : gset Z) as M.
  induction batches as [|evs batches IH]; intros l M Hrel Hok; cbn [fmap list_fmap serve_chat concat] in *.
  - eexists _, _, _. split; [done|]. split; [done|constructor].
  - apply events_ok_app in Hok as [Hok1 Hok2].
    destruct (handle_events_run evs l M Hrel Hok1) as (l1 & M1 & o1 & -> & Hr1 & Hs1 & ->).
    destruct (IH l1 _ Hr1 Hok2) as (l2 & M2 & o2 & -> & Hr2 & Hs2).
    eexists _, _, _. split; [done|]. split; [done|]. by eapply room_run_app.
Qed.

(** Two clients; the second speaks and leaves, then the first is alone. *)
Lemma main_keeps_room_witness :
  let ok := Fcntl 0 (fun _ => 0) in
  exists clients_list M out,
    main (Setup 3 ok 0 0 4 0) (Some <$>
      [[EvListener 5 ok 0 1024]; [EvListener 6 ok 0 1024];
       [EvClient 6 (Some (bytes_of "hi")) 0 (fun _ => 0); EvClient 6 (Some []) 0 (fun _ => 0)]])
      = (Next tt, clients_list, out) /\ list_rel clients_list M /\
    room_run ∅ [EvListener 5 ok 0 1024; EvListener 6 ok 0 1024;
       EvClient 6 (Some (bytes_of "hi")) 0 (fun _ => 0); EvClient 6 (Some []) 0 (fun _ => 0)] M out.
Proof.
  refine (main_keeps_room (Setup 3 (Fcntl 0 (fun _ => 0)) 0 0 4 0)
    [[EvListener 5 (Fcntl 0 (fun _ => 0)) 0 1024]; [EvListener 6 (Fcntl 0 (fun _ => 0)) 0 1024];
     [EvClient 6 (Some (bytes_of "hi")) 0 (fun _ => 0); EvClient 6 (Some []) 0 (fun _ => 0)]]
    _ _ _ _ _ _ _); try (cbn; unfold fcntl_ok; cbn; lia).
  cbn [concat app events_ok event_ok members_after fcntl_ok]. unfold fcntl_ok. cbn [f_setfl f_getfd].
  repeat match goal with |- _ /\ _ => split end; try lia; try set_solver; try (intros; lia).
  - exists (bytes_of "hi"). split; [reflexivity|vm_compute; lia].
  - exists []. split; [reflexivity|vm_compute; lia].
Defined.

(** A client that says 1012 bytes or more to others makes the server write
    beyond its [message] buffer: the prefix does not fit any more. *)
Theorem long_message_overruns client bytes r_close send l :
  no_nul bytes -> (1012 <= length bytes)%nat -> (length l <> 1)%nat ->
  handle_message client (Some bytes) r_close send l = (Overrun, l, []).
Proof.
  intros Hn Hlen Hl. unfold handle_message. destruct bytes as [|b bs]; [simpl in Hlen; lia|].
  rewrite (proj2 (Nat.eqb_neq _ _) Hl). unfold sprintf_message.
  rewrite (proj2 (Nat.ltb_ge _ _)); [done|]. unfold STR_MESSAGE. rewrite !length_app, cstr_id by done.
  change (length (bytes_of _)) with 8%nat at 1. change (length (bytes_of ">> ")) with 3%nat.
  assert (0 < length (print_d client))%nat; [|unfold BUF_SIZE; lia].
  unfold print_d. destruct (Z.ltb_spec client 0); [simpl; lia|]. unfold print_digits. rewrite length_fmap.
  pose proof (digits_not_nil 10 ltac:(lia) client ltac:(lia)) as Hd.
  destruct (digits 10 client); [done|simpl; lia].
Qed.

Lemma long_message_overruns_witness :
  handle_message 5 (Some (repeat 65 1012)) 0 (fun _ => 0) [5; 6] = (Overrun, [5; 6], []).
Proof.
  apply (long_message_overruns 5 (repeat 65 1012) 0 (fun _ => 0) [5; 6]).
  - apply Forall_forall. intros x Hx. apply list_elem_of_In, repeat_spec in Hx. subst x. discriminate.
  - rewrite repeat_length. lia.
  - discriminate.
Defined.
