(* ===== verification/NativeClient.v ===== *)
(** * The application's client: [src/jni/client.c] with [src/jni/message.h]

    Entry points the application calls, and a thread that waits for the server.
    They share static variables; a history is an explicit sequence of their calls.
    The system is given by the results of the calls made on it. *)

From S2P Require Import Prelude CString.

(** ** Messages *)

Record messagebody := Message {
  message_type : Z;
  functionname : list Z;
  functionargs : list Z;
  othermessage : list Z;
}.

(** [memset] and [strcpy] of a field of [size] bytes. *)
Definition field (size : nat) (text : list Z) : list Z := text ++ repeat 0 (size - length text).

(** The object in memory: the fields in order, and the byte of padding that makes
    its size a multiple of four. *)
Definition message_bytes (m : messagebody) (pad : Z) : list Z :=
  le_bytes 4 (message_type m) ++ functionname m ++ functionargs m ++ othermessage m ++ [pad].

Definition running_app : messagebody :=
  Message 1 (field 1024 (bytes_of "getRunningAPP")) (field 1024 (bytes_of "client send"))
    (field 2043 (bytes_of "hhh")).

(** ** State *)

Definition EPOLLIN : Z := 1.
Definition EPOLLERR : Z := 8.
Definition EPOLLHUP : Z := 16.
Definition EPOLLET : Z := Z.shiftl 1 31.

(** The static variables: the socket, the events of [ev], the epoll descriptor. *)
Record client := Client { listener : Z; ev_events : Z; epfd : Z }.

Definition init_client : client := Client (-1) 0 0.

Definition set_listener (fd : Z) (c : client) : client := Client fd (ev_events c) (epfd c).

(** The calls that have an effect outside. *)
Inductive action :=
| Write (fd : Z) (bytes : list Z)
| CloseFd (fd : Z)
| Recv (fd : Z)
| Register (epfd fd events : Z)
| Reply (text : string).

(** What the calls of [startClient] return. *)
Record start_results := Start {
  a_socket : Z; a_getfd : Z; a_setfl : Z -> Z; a_connect : Z; a_epoll_create : Z; a_epoll_ctl : Z
}.

(** One call of an entry point, or one turn of the loop of the thread:
    [epoll_wait] fails or gives descriptors; then the results of the [close] and
    [recv] the turn may make. *)
Inductive op :=
| CloseClient
| SendMessage (pad write_result : Z)
| StartClient (r : start_results)
| ThreadTurn (wait : option (list Z)) (close_result : Z -> Z) (received : option (list Z)).

(** How a call ends. [Exited] is [exit(-1)], [Smashed] a write beyond [recv_buf];
    [thread] says whether the thread goes on. *)
Inductive result :=
| Done (thread : bool)
| Exited
| Smashed.

(** ** Operations *)

Definition closeClient (c : client) : list action :=
  (if listener c >? 1 then [CloseFd (listener c)] else []) ++ [Reply "closed"].

(** The result of [write] is not looked at. *)
Definition sendMessageToServer (pad : Z) (c : client) : list action :=
  if listener c >? 1 then [Write (listener c) (message_bytes running_app pad); Reply "OK"]
  else [Reply "FAIL"].

(** The [for] over the events, which are given by their descriptors. The flags
    tested are those of [ev], the object [startClient] registered. *)
Fixpoint thread_events (fds : list Z) (close : Z -> Z) (received : option (list Z)) (c : client)
    : result * client * list action :=
  match fds with
  | [] => (Done true, c, [])
  | fd :: fds =>
      if fd =? listener c then
        if negb (Z.land (ev_events c) EPOLLHUP =? 0) then
          if close (listener c) <? 0 then (Exited, c, [CloseFd (listener c)])
          else (Done false, set_listener (-1) c, [CloseFd (listener c)])
        else
          let acts := [Recv (listener c)] in
          match received with
          | None => (Done false, set_listener (-1) c, acts)
          | Some [] => (Done false, set_listener (-1) c, acts)
          | Some bytes =>
              if (length bytes <? 1024)%nat then
                let c := set_listener (-1) c in
                if close (listener c) <? 0 then (Exited, c, acts ++ [CloseFd (listener c)])
                else
                  let '(r, c, acts') := thread_events fds close received c in
                  (r, c, acts ++ CloseFd (-1) :: acts')
              else (Smashed, c, acts)
          end
      else thread_events fds close received c
  end.

(** One turn of the [while (1)] of [start_thread]. *)
Definition start_thread (wait : option (list Z)) (close : Z -> Z) (received : option (list Z))
    (c : client) : result * client * list action :=
  match wait with
  | None => (Exited, c, [])
  | Some fds => thread_events fds close received c
  end.

Definition setnonblocking (r : start_results) : bool :=
  0 <=? a_setfl r (Z.lor (a_getfd r) 2048).

Definition startClient (r : start_results) (c : client) : result * client * list action :=
  let c := set_listener (a_socket r) c in
  if a_socket r <? 0 then (Exited, c, [])
  else if negb (setnonblocking r) then (Exited, c, [])
  else if a_connect r <? 0 then (Exited, c, [])
  else
    let c := Client (listener c) (ev_events c) (a_epoll_create r) in
    if a_epoll_create r <? 0 then (Exited, c, [])
    else
      let acts := [Register (epfd c) (listener c) (ev_events c)] in
      if a_epoll_ctl r <? 0 then (Exited, c, acts)
      else
        let flags := Z.lor (Z.lor (Z.lor EPOLLIN EPOLLET) EPOLLERR) EPOLLHUP in
        (Done true, Client (listener c) flags (epfd c), acts ++ [Reply "dddd"]).

(** ** Histories *)

(** The process: the statics and the number of threads. *)
Record process := Process { p_client : client; p_threads : nat }.

Definition init_process : process := Process init_client 0.

(** A call in a process; [None] when the process is gone, or when there is no
    thread to make the turn. *)
Definition step (o : op) (p : process) : option process * list action :=
  let c := p_client p in
  match o with
  | CloseClient => (Some p, closeClient c)
  | SendMessage pad _ => (Some p, sendMessageToServer pad c)
  | StartClient r =>
      match startClient r c with
      | (Done _, c, acts) => (Some (Process c (S (p_threads p))), acts)
      | (_, _, acts) => (None, acts)
      end
  | ThreadTurn wait close received =>
      match p_threads p with
      | O => (None, [])
      | S n =>
          match start_thread wait close received c with
          | (Done true, c, acts) => (Some (Process c (S n)), acts)
          | (Done false, c, acts) => (Some (Process c n), acts)
          | (_, _, acts) => (None, acts)
          end
      end
  end.

Fixpoint history (ops : list op) (p : process) : list action :=
  match ops with
  | [] => []
  | o :: ops =>
      match step o p with
      | (Some p, acts) => acts ++ history ops p
      | (None, acts) => acts
      end
  end.

(** ** Lemmas *)

(** A thread exists only once [ev] has its flags. *)
Definition flags_set (p : process) : Prop :=
  (0 < p_threads p)%nat -> Z.land (ev_events (p_client p)) EPOLLHUP <> 0.

Definition is_recv (a : action) : bool := match a with Recv _ => true | _ => false end.

Definition quiet (acts : list action) : Prop := Forall (fun a => is_recv a = false) acts.

Lemma thread_events_quiet fds close received : forall c, Z.land (ev_events c) EPOLLHUP <> 0 ->
  let '(_, c', acts) := thread_events fds close received c in quiet acts /\ ev_events c' = ev_events c.
Proof.
  unfold quiet. induction fds as [|fd fds IH]; intros c Hc; cbn [thread_events]; [done|].
  destruct (fd =? listener c); [|by apply IH].
  rewrite (proj2 (Z.eqb_neq _ _) Hc). cbn [negb].
  destruct (close _ <? 0); (split; [by repeat constructor|done]).
Qed.

Lemma startClient_quiet r c :
  let '(res, c', acts) := startClient r c in
  quiet acts /\ (forall b, res = Done b -> Z.land (ev_events c') EPOLLHUP <> 0).
Proof.
  unfold startClient, quiet. repeat case_match; simplify_eq;
    (split; [repeat constructor|intros b Hb; first [discriminate Hb|vm_compute; discriminate]]).
Qed.

Lemma step_quiet o p : flags_set p ->
  quiet (step o p).2 /\ forall p', (step o p).1 = Some p' -> flags_set p'.
Proof.
  intros Hp. destruct o as [|pad w|r|wait close received]; cbn [step fst snd].
  - unfold closeClient, quiet. split; [destruct (_ >? _); repeat constructor|by intros ? [= <-]].
  - unfold sendMessageToServer, quiet. split; [destruct (_ >? _); repeat constructor|by intros ? [= <-]].
  - pose proof (startClient_quiet r (p_client p)) as H.
    destruct (startClient r (p_client p)) as [[res c'] acts]. destruct H as [Hq Hf].
    destruct res; cbn [fst snd]; (split; [done|]); intros p' [= <-]. intros _. by eapply Hf.
  - destruct (p_threads p) as [|n] eqn:En; cbn [fst snd]; [split; [by apply Forall_nil|done]|].
    assert (Hh : Z.land (ev_events (p_client p)) EPOLLHUP <> 0) by (apply Hp; lia).
    unfold start_thread. destruct wait as [fds|]; [|cbn; split; [by apply Forall_nil|done]].
    pose proof (thread_events_quiet fds close received (p_client p) Hh) as H.
    destruct (thread_events _ _ _ _) as [[res c'] acts]. destruct H as [Hq He].
    destruct res as [[]| |]; cbn [fst snd]; (split; [done|]); intros p' [= <-]; intros _; cbn; by rewrite He.
Qed.

Lemma field_length size text : (length text <= size)%nat -> length (field size text) = size.
Proof. intros. unfold field. rewrite length_app, repeat_length. lia. Qed.

Lemma message_length pad : length (message_bytes running_app pad) = 4096%nat.
Proof. unfold message_bytes. rewrite !length_app. reflexivity. Qed.

(** ** Properties *)

(** Whatever the application calls and whatever the server sends, the client
    never reads: the thread tests the flags it registered instead of those that
    were reported, takes every event for a hang-up and closes the connection. *)
Theorem client_never_receives ops : Forall (fun a => forall fd, a <> Recv fd) (history ops init_process).
Proof.
  assert (H0 : flags_set init_process) by (intros H; cbn in H; lia).
  assert (H : quiet (history ops init_process)).
  { revert H0. generalize init_process as p. induction ops as [|o ops IH]; intros p Hp; cbn [history].
    - by apply Forall_nil.
    - destruct (step_quiet o p Hp) as [Hq Hn]. destruct (step o p) as [[p'|] acts]; cbn [fst snd] in *; [|done].
      apply Forall_app. split; [done|]. apply IH. by apply Hn. }
  eapply Forall_impl; [exact H|]. intros a Ha fd ->. done.
Qed.

(** [sendMessageToServer] writes a message exactly when there is a socket: one
    object of 4096 bytes whose number is at the start and whose three texts, each
    terminated, are at the offsets of their fields; and it answers OK without
    regard to what [write] returned. *)
Theorem sendMessageToServer_spec pad c :
  sendMessageToServer pad c =
    (if listener c >? 1 then [Write (listener c) (message_bytes running_app pad); Reply "OK"] else [Reply "FAIL"]) /\
  let bytes := message_bytes running_app pad in
  length bytes = 4096%nat /\ le_val (take 4 bytes) = 1 /\
  cstr (drop 4 bytes) = bytes_of "getRunningAPP" /\
  cstr (drop 1028 bytes) = bytes_of "client send" /\
  cstr (drop 2052 bytes) = bytes_of "hhh".
Proof.
  split; [done|]. cbv zeta. split; [apply message_length|]. repeat split.
Qed.

(** The first connection is registered for no event but those that are always
    reported: [ev.events] is set after [epoll_ctl]. *)
Example first_start_registers_none :
  step (StartClient (Start 5 0 (fun _ => 0) 0 6 0)) init_process =
    (Some (Process (Client 5 2147483673 6) 1), [Register 6 5 0; Reply "dddd"]).
Proof. reflexivity. Qed.
