(* ===== verification/ElfTransaction.v ===== *)
(** * Hooking a running application: [src/jni/ElfTransaction.cpp] with
    [src/jni/DummyJavaBBinder.h]

    The virtual machine and the service manager are given by what their calls
    return; references are numbers, and 0 is [NULL]. The objects of binders are
    memory that [changObj] overwrites. *)

From S2P Require Import Prelude CString.

(** What the program asks of the virtual machine ([JNIEnv], [JavaVM]). *)
Class JNI := {
  NewStringUTF : string -> Z;
  FindClass : string -> Z;
  GetMethodID : Z -> string -> string -> Z;
  GetStaticMethodID : Z -> string -> string -> Z;
  CallStaticObjectMethod : Z -> Z -> Z;
  CallObjectMethod : Z -> Z -> Z -> Z;
  NewObject : Z -> Z -> list Z -> Z;
  GetArrayLength : Z -> Z;
  GetObjectArrayElement : Z -> Z -> Z;
  GetStringUTFChars : Z -> string;
  NewGlobalRef : Z -> Z;
}.

(** What it asks of the service manager: the binder of a service. *)
Class ServiceManager := { getService : string -> Z }.

Section Transaction.
Context `{JNI, ServiceManager}.

Definition JSTRING : string := "Ljava/lang/String;".
Definition JCLASS_LOADER : string := "Ljava/lang/ClassLoader;".
Definition JCLASS : string := "Ljava/lang/Class;".

(** [snprintf(sig_buffer, 512, ...)]. *)
Definition sig_buffer (s : string) : string := String.substring 0 511 s.

Definition getSystemClassLoader : Z :=
  let class_loader_claxx := FindClass "java/lang/ClassLoader" in
  let getSystemClassLoader_method := GetStaticMethodID class_loader_claxx "getSystemClassLoader"
    (sig_buffer ("()" ++ JCLASS_LOADER)) in
  CallStaticObjectMethod class_loader_claxx getSystemClassLoader_method.

(** [DummyJavaBBinder::changObj] through a pointer. *)
Definition changObj (binder newobj : Z) (mem : gmap Z Z) : option (gmap Z Z) :=
  if binder =? 0 then None else Some (<[binder := newobj]> mem).

(** The [for] over the pairs of the array: a service name and its new object.
    [fuel] bounds the turns. [None] is the use of a null pointer. *)
Fixpoint hook_loop (fuel : nat) (objectarray i size : Z) (mem : gmap Z Z) : option (gmap Z Z) :=
  if i <? size then
    match fuel with
    | O => None
    | S fuel =>
        let name := GetObjectArrayElement objectarray i in
        let obj := GetObjectArrayElement objectarray (i + 1) in
        if name =? 0 then None
        else
          let c_name := GetStringUTFChars name in
          let binder := getService c_name in
          match changObj binder (NewGlobalRef obj) mem with
          | None => None
          | Some mem => hook_loop fuel objectarray (i + 2) size mem
          end
    end
  else Some mem.

(** How [elfHookRunningApp] ends: it returns -1; it reaches its end, where a value
    is missing; it uses a null pointer. *)
Inductive hooked :=
| Failed
| Finished
| Crashed.

(** [jvm] is the machine of the process, [jni_env] what attaching gave. *)
Definition elfHookRunningApp (jvm jni_env : Z) (mem : gmap Z Z) : hooked * gmap Z Z :=
  if jvm =? 0 then (Failed, mem)
  else if jni_env =? 0 then (Failed, mem)
  else
    let apk_path := NewStringUTF "/data/ElfInject.apk" in
    let dex_out_path := NewStringUTF "/data/" in
    let dexloader_claxx := FindClass "dalvik/system/DexClassLoader" in
    let dexloader_init_method := GetMethodID dexloader_claxx "<init>"
      (sig_buffer ("(" ++ JSTRING ++ JSTRING ++ JSTRING ++ JCLASS_LOADER ++ ")V")) in
    if dexloader_init_method =? 0 then (Failed, mem)
    else
      let loadClass_method := GetMethodID dexloader_claxx "loadClass"
        (sig_buffer ("(" ++ JSTRING ++ ")" ++ JCLASS)) in
      if loadClass_method =? 0 then (Failed, mem)
      else
        let class_loader := getSystemClassLoader in
        if class_loader =? 0 then (Failed, mem)
        else
          let dex_loader_obj := NewObject dexloader_claxx dexloader_init_method
            [apk_path; dex_out_path; 0; class_loader] in
          if dex_loader_obj =? 0 then (Failed, mem)
          else
            let class_name := NewStringUTF "com.elf.inject.EntryClass" in
            let entry_class := CallObjectMethod dex_loader_obj loadClass_method class_name in
            if entry_class =? 0 then (Failed, mem)
            else
              let invoke_method := GetStaticMethodID entry_class "invoke" "()[Ljava/lang/Object;" in
              if invoke_method =? 0 then (Failed, mem)
              else
                let objectarray := CallStaticObjectMethod entry_class invoke_method in
                if objectarray =? 0 then (Failed, mem)
                else
                  let size := GetArrayLength objectarray in
                  match hook_loop (Z.to_nat size) objectarray 0 size mem with
                  | Some mem => (Finished, mem)
                  | None => (Crashed, mem)
                  end.

(** ** Specification *)

(** The pairs the array holds, in order: service name and object. *)
Definition pairs_of (objectarray : Z) (k : nat) : list (string * Z) :=
  (fun j => (GetStringUTFChars (GetObjectArrayElement objectarray (2 * Z.of_nat j)),
             GetObjectArrayElement objectarray (2 * Z.of_nat j + 1))) <$> seq 0 k.

(** Each service of the list gets a new object. *)
Definition replace_objects (pairs : list (string * Z)) (mem : gmap Z Z) : gmap Z Z :=
  fold_left (fun mem p => <[getService p.1 := NewGlobalRef p.2]> mem) pairs mem.

(** All names are there and all services are found. *)
Definition array_ok (objectarray : Z) (k : nat) : Prop :=
  forall j, (j < k)%nat ->
    GetObjectArrayElement objectarray (2 * Z.of_nat j) <> 0 /\
    getService (GetStringUTFChars (GetObjectArrayElement objectarray (2 * Z.of_nat j))) <> 0.

(** The array the injected class returned, when every step up to it succeeds. *)
Definition invoked (objectarray : Z) : Prop :=
  let loader := FindClass "dalvik/system/DexClassLoader" in
  let init := GetMethodID loader "<init>"
    "(Ljava/lang/String;Ljava/lang/String;Ljava/lang/String;Ljava/lang/ClassLoader;)V" in
  let load := GetMethodID loader "loadClass" "(Ljava/lang/String;)Ljava/lang/Class;" in
  let parent_class := FindClass "java/lang/ClassLoader" in
  let parent := CallStaticObjectMethod parent_class
    (GetStaticMethodID parent_class "getSystemClassLoader" "()Ljava/lang/ClassLoader;") in
  let obj := NewObject loader init
    [NewStringUTF "/data/ElfInject.apk"; NewStringUTF "/data/"; 0; parent] in
  let entry := CallObjectMethod obj load (NewStringUTF "com.elf.inject.EntryClass") in
  let method := GetStaticMethodID entry "invoke" "()[Ljava/lang/Object;" in
  init <> 0 /\ load <> 0 /\ parent <> 0 /\ obj <> 0 /\ entry <> 0 /\ method <> 0 /\
  CallStaticObjectMethod entry method = objectarray /\ objectarray <> 0.

(** ** Lemmas *)

Lemma hook_loop_spec objectarray size k : forall n i fuel mem,
  array_ok objectarray k -> (i + n = k)%nat -> (n <= fuel)%nat ->
  2 * Z.of_nat k - 1 <= size <= 2 * Z.of_nat k ->
  hook_loop fuel objectarray (2 * Z.of_nat i) size mem =
    Some (fold_left (fun mem p => <[getService p.1 := NewGlobalRef p.2]> mem)
      ((fun j => (GetStringUTFChars (GetObjectArrayElement objectarray (2 * Z.of_nat j)),
             GetObjectArrayElement objectarray (2 * Z.of_nat j + 1))) <$> seq i n) mem).
Proof.
  induction n as [|n IH]; intros i fuel mem Hok Hk Hf Hs.
  - assert (Hge : (2 * Z.of_nat i <? size) = false) by (apply Z.ltb_ge; lia).
    destruct fuel; cbn [hook_loop]; by rewrite Hge.
  - destruct fuel as [|fuel]; [lia|]. cbn [hook_loop].
    rewrite (proj2 (Z.ltb_lt _ _)) by lia. destruct (Hok i) as [Hname Hsvc]; [lia|].
    rewrite (proj2 (Z.eqb_neq _ _) Hname). unfold changObj. rewrite (proj2 (Z.eqb_neq _ _) Hsvc).
    replace (2 * Z.of_nat i + 2) with (2 * Z.of_nat (S i)) by lia.
    rewrite IH by (done || lia). done.
Qed.

(** ** Properties *)

(** C34. When the machine, the loader and the class of the injected package are
    found and its [invoke] returns an array whose names are services, exactly the
    objects of these services are replaced, each by a global reference to the
    object that follows its name, in order; an element without a partner at the
    end is a name whose object is what the array gives beyond its end. *)
Theorem elfHookRunningApp_replaces jvm jni_env mem objectarray k :
  jvm <> 0 -> jni_env <> 0 -> invoked objectarray -> array_ok objectarray k ->
  2 * Z.of_nat k - 1 <= GetArrayLength objectarray <= 2 * Z.of_nat k -> 0 <= GetArrayLength objectarray ->
  elfHookRunningApp jvm jni_env mem = (Finished, replace_objects (pairs_of objectarray k) mem).
Proof.
  intros Hj He Hinv Hok Hk Hnn. unfold elfHookRunningApp.
  rewrite (proj2 (Z.eqb_neq _ _) Hj), (proj2 (Z.eqb_neq _ _) He).
  unfold invoked in Hinv. cbv zeta in Hinv |- *. destruct Hinv as (A1 & A2 & A3 & A4 & A5 & A6 & A7 & A8).
  unfold getSystemClassLoader.
  change (sig_buffer ("()" ++ JCLASS_LOADER)) with "()Ljava/lang/ClassLoader;"%string.
  change (sig_buffer ("(" ++ JSTRING ++ JSTRING ++ JSTRING ++ JCLASS_LOADER ++ ")V"))
    with "(Ljava/lang/String;Ljava/lang/String;Ljava/lang/String;Ljava/lang/ClassLoader;)V"%string.
  change (sig_buffer ("(" ++ JSTRING ++ ")" ++ JCLASS))
    with "(Ljava/lang/String;)Ljava/lang/Class;"%string.
  rewrite (proj2 (Z.eqb_neq _ _) A1), (proj2 (Z.eqb_neq _ _) A2), (proj2 (Z.eqb_neq _ _) A3),
    (proj2 (Z.eqb_neq _ _) A4), (proj2 (Z.eqb_neq _ _) A5), (proj2 (Z.eqb_neq _ _) A6), A7,
    (proj2 (Z.eqb_neq _ _) A8).
  pose proof (hook_loop_spec objectarray (GetArrayLength objectarray) k k 0
    (Z.to_nat (GetArrayLength objectarray)) mem Hok eq_refl) as Hloop.
  change (2 * Z.of_nat 0) with 0 in Hloop. rewrite Hloop; [done| |done]. lia.
Qed.

End Transaction.

(** A machine in which everything is found; the array is that of one pair. *)
#[local] Instance small_jni : JNI := {|
  NewStringUTF _ := 1; FindClass _ := 2; GetMethodID _ _ _ := 3; GetStaticMethodID _ _ _ := 4;
  CallStaticObjectMethod _ _ := 5; CallObjectMethod _ _ _ := 6; NewObject _ _ _ := 7;
  GetArrayLength _ := 2; GetObjectArrayElement _ i := 10 + i;
  GetStringUTFChars _ := "activity"; NewGlobalRef o := o + 100 |}.

#[local] Instance small_services : ServiceManager := {| getService _ := 50 |}.

Lemma elfHookRunningApp_replaces_witness :
  elfHookRunningApp 1 1 {[50 := 11]} = (Finished, <[50 := 111]> {[50 := 11]}).
Proof.
  refine (eq_trans (elfHookRunningApp_replaces 1 1 {[50 := 11]} 5 1 _ _ _ _ _ _) _).
  - discriminate.
  - discriminate.
  - unfold invoked. cbn. repeat (split; [discriminate|]). split; [reflexivity|discriminate].
  - intros j Hj. cbn. split; lia.
  - cbn. lia.
  - cbn. lia.
  - reflexivity.
Defined.
