(* ===== verification/Bits.v ===== *)
(** * Bit operations: lemmas the files of the Dalvik part share

    Masks and shifts of the code as remainders, quotients and sums. *)

From S2P Require Import Prelude.

(** [lia] with quotients and remainders by constants. *)
Ltac dlia := Z.to_euclidean_division_equations; lia.

(** [x & (2^n - 1)], with the mask as the code writes it. *)
Lemma land_mask n m x : 0 <= n -> m = 2 ^ n - 1 -> Z.land x m = x mod 2 ^ n.
Proof. intros Hn ->. rewrite <- Z.land_ones by done. f_equal. rewrite Z.ones_equiv. lia. Qed.

Lemma land_7f x : Z.land x 0x7f = x mod 2 ^ 7.
Proof. by apply land_mask. Qed.

Lemma land_ff x : Z.land x 0xff = x mod 2 ^ 8.
Proof. by apply land_mask. Qed.

Lemma land_f x : Z.land x 0xf = x mod 2 ^ 4.
Proof. by apply land_mask. Qed.

Lemma land_1f x : Z.land x 0x1f = x mod 2 ^ 5.
Proof. by apply land_mask. Qed.

(** A field put above [n] bits that are in use. *)
Lemma lor_shiftl_add n a b : 0 <= n -> 0 <= a < 2 ^ n -> Z.lor a (Z.shiftl b n) = a + b * 2 ^ n.
Proof.
  intros Hn Ha. rewrite <- Z.shiftl_mul_pow2 by done.
  rewrite <- Z.lxor_lor; [rewrite Z.add_nocarry_lxor; [done|]|].
  all: apply Z.bits_inj'; intros i Hi; rewrite Z.land_spec, Z.bits_0, Z.shiftl_spec by done;
    destruct (Z.lt_ge_cases i n).
  all: try (rewrite (Z.testbit_neg_r b) by lia; apply andb_false_r).
  all: replace a with (a mod 2 ^ n) by (by apply Z.mod_small); rewrite Z.mod_pow2_bits_high by lia; done.
Qed.

(** Wrapping to [w] bits acts on what lies above the low [k] bits. *)
Lemma wrapS_field w k a c : 0 <= k < w -> 0 <= a < 2 ^ k ->
  wrapS w (a + c * 2 ^ k) = a + wrapS (w - k) c * 2 ^ k.
Proof.
  intros Hk Ha. unfold wrapS.
  assert (E1 : 2 ^ w = 2 ^ (w - k) * 2 ^ k) by (rewrite <- Z.pow_add_r by lia; f_equal; lia).
  assert (E2 : 2 ^ (w - 1) = 2 ^ (w - k - 1) * 2 ^ k) by (rewrite <- Z.pow_add_r by lia; f_equal; lia).
  assert (0 < 2 ^ (w - k)) by (apply Z.pow_pos_nonneg; lia).
  rewrite E1, E2. set (h := 2 ^ (w - k - 1)). set (t := 2 ^ (w - k)) in *. set (q := 2 ^ k) in *.
  replace (a + c * q + h * q) with (a + (c + h) * q) by ring.
  assert (Hm : (a + (c + h) * q) mod (t * q) = a + (c + h) mod t * q).
  { symmetry. apply (Zmod_unique _ _ ((c + h) / t)).
    - pose proof (Z.mod_pos_bound (c + h) t). nia.
    - pose proof (Z_div_mod_eq_full (c + h) t). nia. }
  rewrite Hm. ring.
Qed.

Lemma wrapS_shiftl w k x : 0 <= k < w -> wrapS w (Z.shiftl x k) = Z.shiftl (wrapS (w - k) x) k.
Proof.
  intros Hk. rewrite !Z.shiftl_mul_pow2 by lia.
  pose proof (wrapS_field w k 0 x Hk) as H. rewrite !Z.add_0_l in H. apply H.
  pose proof (Z.pow_pos_nonneg 2 k). lia.
Qed.

(** A value shifted up and back down: the sign extension of its low bits. *)
Lemma sign_extend w k x : 0 <= k < w ->
  Z.shiftr (wrapS w (Z.shiftl x k)) k = wrapS (w - k) x.
Proof.
  intros Hk. rewrite wrapS_shiftl by done. rewrite Z.shiftr_shiftl_l by lia.
  by rewrite Z.sub_diag, Z.shiftl_0_r.
Qed.

(** Equal residues wrap to the same value. *)
Lemma wrapS_mod w a b : 0 < w -> (a - b) mod 2 ^ w = 0 -> wrapS w a = wrapS w b.
Proof.
  intros Hw H. rewrite <- (wrapS_wrapU w a), <- (wrapS_wrapU w b) by done. f_equal. by apply wrapU_eq_iff.
Qed.
