(* ===== verification/Search.v ===== *)
(** * Arrays and binary searches the Dalvik files share

    Arrays indexed by an [int], out of range being [None], and the loop

      [while (max >= min) { int guess = (min + max) >> 1; ... }]

    of [dexDataMapGet], [dexFindCatchHandlerOffset0] and
    [dvmInterpHandleSparseSwitch]. *)

From S2P Require Import Prelude Bits.

(** ** Arrays *)

(** [a[i]]. *)
Definition aref {A} (a : list A) (i : Z) : option A :=
  if 0 <=? i then a !! Z.to_nat i else None.

(** [a[i] = x]. *)
Definition aset {A} (a : list A) (i : Z) (x : A) : option (list A) :=
  if (0 <=? i) && (i <? Z.of_nat (length a)) then Some (<[Z.to_nat i := x]> a) else None.

Lemma aref_nat {A} (a : list A) i : 0 <= i -> aref a i = a !! Z.to_nat i.
Proof. intros Hi. unfold aref. by rewrite (proj2 (Z.leb_le _ _)). Qed.

Lemma aref_is_Some {A} (a : list A) i : is_Some (aref a i) <-> 0 <= i < Z.of_nat (length a).
Proof.
  unfold aref. destruct (Z.leb_spec 0 i).
  - rewrite lookup_lt_is_Some. lia.
  - split; [by intros [? ?]|lia].
Qed.

Lemma aref_None {A} (a : list A) i : aref a i = None <-> ~ 0 <= i < Z.of_nat (length a).
Proof. rewrite <- aref_is_Some, <- not_eq_None_Some. destruct (aref a i); naive_solver. Qed.

Lemma aref_lt {A} (a : list A) i x : aref a i = Some x -> 0 <= i < Z.of_nat (length a).
Proof. intros H. apply aref_is_Some. by rewrite H. Qed.

Lemma aset_Some {A} (a : list A) i x a' : aset a i x = Some a' ->
  0 <= i < Z.of_nat (length a) /\ a' = <[Z.to_nat i := x]> a.
Proof.
  unfold aset. destruct (Z.leb_spec 0 i), (Z.ltb_spec i (Z.of_nat (length a))); intros [= <-]. split; [lia|done].
Qed.

Lemma aset_in {A} (a : list A) i x : 0 <= i < Z.of_nat (length a) ->
  aset a i x = Some (<[Z.to_nat i := x]> a).
Proof. intros Hi. unfold aset. by rewrite (proj2 (Z.leb_le _ _)), (proj2 (Z.ltb_lt _ _)) by lia. Qed.

Lemma aref_aset {A} (a : list A) i x a' j : aset a i x = Some a' ->
  aref a' j = if decide (i = j) then Some x else aref a j.
Proof.
  intros [Hi ->]%aset_Some. unfold aref. destruct (Z.leb_spec 0 j), (decide (i = j)); try lia; try done.
  - subst j. apply list_lookup_insert_eq. lia.
  - apply list_lookup_insert_ne. lia.
Qed.

Lemma aset_length {A} (a : list A) i x a' : aset a i x = Some a' -> length a' = length a.
Proof. intros [_ ->]%aset_Some. apply length_insert. Qed.

Lemma lookup_repeat {A} (x : A) n i : (i < n)%nat -> repeat x n !! i = Some x.
Proof. revert i. induction n as [|n IH]; intros [|i] H; [lia..|done|]. apply IH. lia. Qed.

(** ** The search

    What the body of the loop finds at an index: that the search goes on below it,
    above it, or that it is over. *)
Inductive probe (R : Type) := Below | Above | Hit (r : R).
Arguments Below {R}.
Arguments Above {R}.
Arguments Hit {R} r.

Section Search.
Context {R : Type} (look : Z -> option (probe R)).

(** [Some None]: the loop ends without a match. *)
Fixpoint search_loop (fuel : nat) (min max : Z) : option (option R) :=
  if max >=? min then
    match fuel with
    | O => None
    | S fuel =>
        sum ← chkS 32 (min + max);
        let guess := Z.shiftr sum 1 in
        p ← look guess;
        match p with
        | Below => search_loop fuel min (guess - 1)
        | Above => search_loop fuel (guess + 1) max
        | Hit r => Some (Some r)
        end
    end
  else Some None.

(** What a table must satisfy to be searched: every entry can be looked at, and the
    ones that point below or above do so consistently. *)
Record searchable (n : Z) : Prop := {
  search_bound : 0 <= n <= 2 ^ 30;
  search_total i : 0 <= i < n -> is_Some (look i);
  search_below i j : 0 <= i <= j -> j < n -> look i = Some Below -> look j = Some Below;
  search_above i j : 0 <= i <= j -> j < n -> look j = Some Above -> look i = Some Above
}.

Definition search_result (n : Z) (o : option R) : Prop :=
  match o with
  | Some r => exists i, 0 <= i < n /\ look i = Some (Hit r)
  | None => forall i, 0 <= i < n -> look i = Some Below \/ look i = Some Above
  end.

Lemma search_loop_spec n fuel : searchable n -> forall min max, 0 <= min -> max < n ->
  max - min < Z.of_nat fuel -> (forall i, 0 <= i < min -> look i = Some Above) ->
  (forall i, max < i < n -> look i = Some Below) ->
  exists o, search_loop fuel min max = Some o /\ search_result n o.
Proof using.
  intros Hs. induction fuel as [|fuel IH]; intros min max Hmin Hmax Hf Hlo Hhi; cbn [search_loop];
    rewrite Z.geb_leb; destruct (Z.leb_spec min max) as [Hle|Hle]; try lia.
  1,3: exists None; split; [done|]; intros i Hi; destruct (Z.lt_ge_cases i min); [right|left]; auto with lia.
  pose proof (search_bound n Hs) as Hb. rewrite chkS_Some by (unfold inS; lia).
  cbn [mbind option_bind]. rewrite Z.shiftr_div_pow2 by lia. change (2 ^ 1) with 2.
  set (guess := (min + max) / 2). assert (Hg : min <= guess <= max) by (subst guess; dlia).
  destruct (search_total n Hs guess) as [p Hp]; [lia|]. rewrite Hp. cbn [mbind option_bind].
  destruct p as [| |r].
  - apply IH; try lia; [done|]. intros i Hi. apply (search_below n Hs guess); lia || done.
  - apply IH; try lia; [|done]. intros i Hi. apply (search_above n Hs i guess); lia || done.
  - exists (Some r). split; [done|]. exists guess. split; [lia|done].
Qed.

(** The search over the whole table ends and finds what is there. *)
Lemma search_spec n fuel : searchable n -> n <= Z.of_nat fuel ->
  exists o, search_loop fuel 0 (n - 1) = Some o /\ search_result n o.
Proof using. intros Hs Hf. apply (search_loop_spec n); lia || done || (intros; lia). Qed.

End Search.
