(* ===== verification/Leb128.v ===== *)
(** * LEB128: [dalvik/libdex/Leb128.h] and [Leb128.cpp]

    A stream is the list of the bytes from the pointer on; reading past its end is
    [None]. An [int] has 32 bits and its shifts wrap around, as the compilers of
    the project do. *)

From S2P Require Import Prelude Bits.

(** ** Reading *)

(** [*(ptr++)]. *)
Definition next (s : list Z) : option (Z * list Z) :=
  match s with
  | [] => None
  | c :: s => Some (c, s)
  end.

Definition readUnsignedLeb128 (s : list Z) : option (Z * list Z) :=
  '(result, s) ← next s;
  if result >? 0x7f then
    '(cur, s) ← next s;
    let result := Z.lor (Z.land result 0x7f) (Z.shiftl (Z.land cur 0x7f) 7) in
    if cur >? 0x7f then
      '(cur, s) ← next s;
      let result := Z.lor result (Z.shiftl (Z.land cur 0x7f) 14) in
      if cur >? 0x7f then
        '(cur, s) ← next s;
        let result := Z.lor result (Z.shiftl (Z.land cur 0x7f) 21) in
        if cur >? 0x7f then
          '(cur, s) ← next s;
          let result := Z.lor result (s32 (Z.shiftl cur 28)) in
          Some (result, s)
        else Some (result, s)
      else Some (result, s)
    else Some (result, s)
  else Some (result, s).

Definition readSignedLeb128 (s : list Z) : option (Z * list Z) :=
  '(result, s) ← next s;
  if result <=? 0x7f then Some (Z.shiftr (s32 (Z.shiftl result 25)) 25, s)
  else
    '(cur, s) ← next s;
    let result := Z.lor (Z.land result 0x7f) (Z.shiftl (Z.land cur 0x7f) 7) in
    if cur <=? 0x7f then Some (Z.shiftr (s32 (Z.shiftl result 18)) 18, s)
    else
      '(cur, s) ← next s;
      let result := Z.lor result (Z.shiftl (Z.land cur 0x7f) 14) in
      if cur <=? 0x7f then Some (Z.shiftr (s32 (Z.shiftl result 11)) 11, s)
      else
        '(cur, s) ← next s;
        let result := Z.lor result (Z.shiftl (Z.land cur 0x7f) 21) in
        if cur <=? 0x7f then Some (Z.shiftr (s32 (Z.shiftl result 4)) 4, s)
        else
          '(cur, s) ← next s;
          let result := Z.lor result (s32 (Z.shiftl cur 28)) in
          Some (result, s).

(** The two conditions under which [*okay] is cleared: [limit], when it is not
    [NULL], is the number of bytes from the pointer to the limit. *)
Definition leb128_bad (limit : option Z) (s rest : list Z) : bool :=
  let used := Z.of_nat (length s - length rest) in
  match limit with Some l => used >? l | None => false end ||
  ((used =? 5) && (nth 4 s 0 >? 0x0f)).

Definition readAndVerifyUnsignedLeb128 (s : list Z) (limit : option Z) (okay : bool)
    : option (Z * list Z * bool) :=
  '(result, rest) ← readUnsignedLeb128 s;
  Some (result, rest, if leb128_bad limit s rest then false else okay).

Definition readAndVerifySignedLeb128 (s : list Z) (limit : option Z) (okay : bool)
    : option (Z * list Z * bool) :=
  '(result, rest) ← readSignedLeb128 s;
  Some (result, rest, if leb128_bad limit s rest then false else okay).

(** ** Writing *)

(** The bytes the [while (true)] stores; a 32-bit [data] takes at most five turns. *)
Fixpoint write_loop (fuel : nat) (data : Z) : list Z :=
  match fuel with
  | O => []
  | S fuel =>
      let out := Z.land data 0x7f in
      if negb (out =? data) then Z.lor out 0x80 :: write_loop fuel (Z.shiftr data 7)
      else [out]
  end.

Definition writeUnsignedLeb128 (data : Z) : list Z := write_loop 5 data.

Fixpoint size_loop (fuel : nat) (data count : Z) : Z :=
  match fuel with
  | O => count
  | S fuel =>
      let data := Z.shiftr data 7 in
      let count := count + 1 in
      if negb (data =? 0) then size_loop fuel data count else count
  end.

Definition unsignedLeb128Size (data : Z) : Z := size_loop 5 data 0.

(** ** The numbers the format denotes *)

(** Seven bits per byte, least significant first. *)
Fixpoint leb_val (l : list Z) : Z :=
  match l with
  | [] => 0
  | b :: l => b mod 2 ^ 7 + leb_val l * 2 ^ 7
  end.

(** The encoded bytes at the start of a stream: those with the top bit set and one
    more, five at most. *)
Fixpoint leb_bytes (n : nat) (s : list Z) : option (list Z * list Z) :=
  match n, s with
  | _, [] => None
  | O, _ => None
  | S O, b :: s => Some ([b], s)
  | S n, b :: s =>
      if b >? 0x7f then '(l, r) ← leb_bytes n s; Some (b :: l, r) else Some ([b], s)
  end.

(** ** Lemmas *)

Lemma lor_low n a b : 0 <= n -> 0 <= a < 2 ^ n -> Z.lor a (Z.shiftl (Z.land b 0x7f) n) = a + b mod 2 ^ 7 * 2 ^ n.
Proof. intros. by rewrite lor_shiftl_add, land_7f. Qed.

Lemma lor_top a b : 0 <= a < 2 ^ 28 -> Z.lor a (s32 (Z.shiftl b 28)) = s32 (a + b mod 2 ^ 7 * 2 ^ 28).
Proof.
  intros Ha. rewrite wrapS_shiftl, lor_shiftl_add, wrapS_field by lia. do 2 f_equal.
  apply wrapS_mod; [lia|]. pose proof (Z_div_mod_eq_full b (2 ^ 7)).
  replace (b - b mod 2 ^ 7) with (b / 2 ^ 7 * 8 * 2 ^ (32 - 28)) by lia. apply Z_mod_mult.
Qed.

Lemma leb_val_range l : 0 <= leb_val l < 2 ^ (7 * Z.of_nat (length l)).
Proof.
  induction l as [|b l IH]; [by simpl|]. cbn [leb_val length].
  replace (7 * Z.of_nat (S (length l))) with (7 * Z.of_nat (length l) + 7) by lia.
  rewrite Z.pow_add_r by lia. pose proof (Z.mod_pos_bound b (2 ^ 7)). lia.
Qed.

Lemma gtb_leb a b : (a >? b) = negb (a <=? b).
Proof. rewrite Z.gtb_ltb. apply Z.ltb_antisym. Qed.

(** One byte of a reader: the end of the stream, or the test of its top bit. *)
Ltac leb_next s b Hs Hb H :=
  destruct s as [|b s]; [done|]; cbn [next leb_bytes mbind option_bind];
  apply Forall_cons_1 in Hs as [Hb Hs]; unfold is_byte in Hb;
  rewrite ?gtb_leb; destruct (Z.leb_spec b 0x7f) as [H|H]; cbn [negb mbind option_bind leb_val].

Ltac leb_mods :=
  repeat match goal with
  | |- context [?b mod 2 ^ 7] =>
      lazymatch goal with
      | _ : 0 <= b mod 2 ^ 7 < 2 ^ 7 |- _ => fail
      | _ => pose proof (Z.mod_pos_bound b (2 ^ 7) ltac:(lia))
      end
  end.

(** The disjunctions of fields as sums. *)
Ltac leb_sums :=
  repeat (rewrite ?land_7f; leb_mods;
    match goal with
    | |- context [Z.lor ?a (Z.shiftl (?b mod 2 ^ 7) ?k)] => rewrite (lor_shiftl_add k a (b mod 2 ^ 7)) by lia
    end).

Lemma readUnsigned_spec s : Forall is_byte s ->
  readUnsignedLeb128 s = '(l, r) ← leb_bytes 5 s; Some (s32 (leb_val l), r).
Proof.
  intros Hs. unfold readUnsignedLeb128.
  leb_next s b0 Hs Hb0 H0.
  { rewrite Z.mod_small by lia. rewrite wrapS_id; [do 2 f_equal; lia|lia|unfold inS; lia]. }
  leb_next s b1 Hs Hb1 H1.
  { leb_sums. rewrite wrapS_id; [do 2 f_equal; lia|lia|unfold inS; lia]. }
  leb_next s b2 Hs Hb2 H2.
  { leb_sums. rewrite wrapS_id; [do 2 f_equal; lia|lia|unfold inS; lia]. }
  leb_next s b3 Hs Hb3 H3.
  { leb_sums. rewrite wrapS_id; [do 2 f_equal; lia|lia|unfold inS; lia]. }
  destruct s as [|b4 s]; [done|]. cbn [next leb_bytes mbind option_bind leb_val].
  leb_sums. rewrite lor_top by lia. do 3 f_equal. lia.
Qed.

Lemma readSigned_spec s : Forall is_byte s ->
  readSignedLeb128 s = '(l, r) ← leb_bytes 5 s;
    Some (wrapS (Z.min 32 (7 * Z.of_nat (length l))) (leb_val l), r).
Proof.
  intros Hs. unfold readSignedLeb128.
  leb_next s b0 Hs Hb0 H0.
  { rewrite sign_extend, Z.mod_small by lia. do 3 f_equal. lia. }
  leb_next s b1 Hs Hb1 H1.
  { leb_sums. rewrite sign_extend by lia. do 3 f_equal. lia. }
  leb_next s b2 Hs Hb2 H2.
  { leb_sums. rewrite sign_extend by lia. do 3 f_equal. lia. }
  leb_next s b3 Hs Hb3 H3.
  { leb_sums. rewrite sign_extend by lia. do 3 f_equal. lia. }
  destruct s as [|b4 s]; [done|]. cbn [next leb_bytes mbind option_bind leb_val].
  leb_sums. rewrite lor_top by lia. do 3 f_equal. cbn [length]. lia.
Qed.

(** The writer's turns. *)
Lemma write_loop_S fuel data : 0 <= data ->
  write_loop (S fuel) data =
    if data <? 2 ^ 7 then [data] else (data mod 2 ^ 7 + 2 ^ 7) :: write_loop fuel (data / 2 ^ 7).
Proof.
  intros Hd. cbn [write_loop]. rewrite land_7f. pose proof (Z.mod_pos_bound data (2 ^ 7) ltac:(lia)).
  change 0x80 with (Z.shiftl 1 7). rewrite lor_shiftl_add, Z.shiftr_div_pow2, Z.mul_1_l by lia.
  pose proof (Z_div_mod_eq_full data (2 ^ 7)) as E.
  destruct (Z.ltb_spec data (2 ^ 7)) as [Hl|Hl].
  - rewrite Z.mod_small by lia. by rewrite Z.eqb_refl.
  - rewrite (proj2 (Z.eqb_neq _ _)) by lia. done.
Qed.

Lemma size_loop_S fuel data count : 0 <= data ->
  size_loop (S fuel) data count =
    if data <? 2 ^ 7 then count + 1 else size_loop fuel (data / 2 ^ 7) (count + 1).
Proof.
  intros Hd. cbn [size_loop]. rewrite Z.shiftr_div_pow2 by lia.
  destruct (Z.ltb_spec data (2 ^ 7)) as [Hl|Hl].
  - by rewrite Z.div_small by lia.
  - assert (0 < data / 2 ^ 7) by (apply Z.div_str_pos; lia). by rewrite (proj2 (Z.eqb_neq _ _)) by lia.
Qed.

Lemma pow7_div n data : 0 <= data < 2 ^ (7 * Z.of_nat (S n)) -> 0 <= data / 2 ^ 7 < 2 ^ (7 * Z.of_nat n).
Proof.
  intros Hd. split; [apply Z.div_pos; lia|]. apply Z.div_lt_upper_bound; [lia|].
  rewrite <- Z.pow_add_r by lia. replace (7 + 7 * Z.of_nat n) with (7 * Z.of_nat (S n)) by lia. lia.
Qed.

Lemma leb_bytes_SS n b s :
  leb_bytes (S (S n)) (b :: s) =
    if b >? 0x7f then '(l, r) ← leb_bytes (S n) s; Some (b :: l, r) else Some ([b], s).
Proof. done. Qed.

Lemma write_loop_spec n : forall data rest, 0 <= data < 2 ^ (7 * Z.of_nat (S n)) ->
  leb_bytes (S n) (write_loop (S n) data ++ rest) = Some (write_loop (S n) data, rest) /\
  leb_val (write_loop (S n) data) = data /\ Forall is_byte (write_loop (S n) data).
Proof.
  induction n as [|n IH]; intros data rest Hd.
  - rewrite write_loop_S, (proj2 (Z.ltb_lt _ _)) by lia. cbn. rewrite Z.mod_small by lia.
    split; [done|]. split; [lia|]. repeat constructor; lia.
  - rewrite write_loop_S by lia. pose proof (Z.mod_pos_bound data (2 ^ 7) ltac:(lia)).
    destruct (Z.ltb_spec data (2 ^ 7)) as [Hl|Hl].
    + cbn [app leb_bytes leb_val]. rewrite gtb_leb, (proj2 (Z.leb_le _ _)), Z.mod_small by lia.
      split; [done|]. split; [lia|]. repeat constructor; lia.
    + destruct (IH (data / 2 ^ 7) rest (pow7_div _ _ Hd)) as (E & V & F).
      cbn [app]. remember (write_loop (S n) (data / 2 ^ 7)) as w.
      rewrite leb_bytes_SS. cbn [leb_val].
      rewrite gtb_leb, (proj2 (Z.leb_gt _ _)) by lia. cbn [negb].
      rewrite E. cbn [mbind option_bind]. split; [done|]. split.
      * rewrite V. change (2 ^ 7) with (1 * 2 ^ 7) at 2. rewrite Z_mod_plus_full, Zmod_mod.
        pose proof (Z_div_mod_eq_full data (2 ^ 7)). lia.
      * constructor; [unfold is_byte; lia|done].
Qed.

Lemma write_loop_size n : forall data count, 0 <= data < 2 ^ (7 * Z.of_nat n) ->
  size_loop n data count = count + Z.of_nat (length (write_loop n data)).
Proof.
  induction n as [|n IH]; intros data count Hd; [simpl; lia|].
  rewrite size_loop_S, write_loop_S by lia. destruct (Z.ltb_spec data (2 ^ 7)); [simpl; lia|].
  rewrite IH by by apply pow7_div. cbn [length]. lia.
Qed.

Lemma write_loop_length n data : (length (write_loop n data) <= n)%nat.
Proof.
  revert data. induction n as [|n IH]; intros data; cbn [write_loop]; [done|].
  destruct (negb _); simpl; [specialize (IH (Z.shiftr data 7))|]; lia.
Qed.

(** The byte at [k] of a text longer than [k] starts with the bits of [data] from
    [7 * k] on. *)
Lemma write_loop_nth n : forall data k, 0 <= data < 2 ^ (7 * Z.of_nat n) ->
  length (write_loop n data) = S k -> nth k (write_loop n data) 0 = data / 2 ^ (7 * Z.of_nat k).
Proof.
  induction n as [|n IH]; intros data k Hd Hk; [done|].
  rewrite write_loop_S in * by lia. destruct (Z.ltb_spec data (2 ^ 7)).
  - simpl in Hk. assert (k = 0%nat) as -> by lia. simpl. by rewrite Z.div_1_r.
  - simpl in Hk. destruct k as [|k].
    + destruct n as [|n]; [change (2 ^ (7 * Z.of_nat 1)) with (2 ^ 7) in Hd; lia|].
      rewrite write_loop_S in Hk by (apply Z.div_pos; lia).
      destruct (_ <? _); simpl in Hk; lia.
    + cbn [nth]. rewrite IH by (lia || by apply pow7_div).
      rewrite Z.div_div by (try lia; apply Z.pow_pos_nonneg; lia). f_equal.
      rewrite <- Z.pow_add_r by lia. f_equal. lia.
Qed.

(** ** Properties *)

(** What is written is read back: for every 32-bit number, whatever follows in
    the stream, both readers find exactly the bytes that were written, the
    checking one accepts them (also right before the limit), the value is the
    number as an [int], and [unsignedLeb128Size] is the number of bytes, five at
    most. *)
Theorem leb128_roundtrip data rest okay : inU 32 data -> Forall is_byte rest ->
  readUnsignedLeb128 (writeUnsignedLeb128 data ++ rest) = Some (s32 data, rest) /\
  readAndVerifyUnsignedLeb128 (writeUnsignedLeb128 data ++ rest)
    (Some (Z.of_nat (length (writeUnsignedLeb128 data)))) okay = Some (s32 data, rest, okay) /\
  unsignedLeb128Size data = Z.of_nat (length (writeUnsignedLeb128 data)) /\
  unsignedLeb128Size data <= 5.
Proof.
  intros Hd Hr. unfold inU in Hd. unfold writeUnsignedLeb128, unsignedLeb128Size.
  assert (Hd5 : 0 <= data < 2 ^ (7 * Z.of_nat 5)) by lia.
  destruct (write_loop_spec 4 data rest Hd5) as (E & V & F).
  assert (Hread : readUnsignedLeb128 (write_loop 5 data ++ rest) = Some (s32 data, rest)).
  { rewrite readUnsigned_spec by by apply Forall_app. rewrite E. cbn [mbind option_bind]. by rewrite V. }
  assert (Hl : (length (write_loop 5 data) <= 5)%nat).
  { pose proof (write_loop_length 5 data). lia. }
  split; [done|]. split; [|rewrite write_loop_size by done; lia].
  unfold readAndVerifyUnsignedLeb128. rewrite Hread. cbn [mbind option_bind]. do 2 f_equal.
  unfold leb128_bad. rewrite length_app, Nat.add_sub, gtb_leb, Z.leb_refl. cbn [negb orb].
  destruct (Z.eqb_spec (Z.of_nat (length (write_loop 5 data))) 5) as [E5|]; [|done]. cbn [andb].
  rewrite app_nth1 by lia. rewrite write_loop_nth by (done || lia).
  rewrite gtb_leb, (proj2 (Z.leb_le _ _)); [done|].
  enough (data / 2 ^ (7 * Z.of_nat 4) < 16) by lia. apply Z.div_lt_upper_bound; lia.
Qed.

Lemma leb128_roundtrip_witness :
  readUnsignedLeb128 [0xff; 0xff; 0xff; 0xff; 0x0f; 7] = Some (-1, [7]) /\
  readAndVerifyUnsignedLeb128 [0xff; 0xff; 0xff; 0xff; 0x0f; 7] (Some 5) true = Some (-1, [7], true) /\
  unsignedLeb128Size 0xffffffff = 5 /\ unsignedLeb128Size 0xffffffff <= 5.
Proof.
  apply (leb128_roundtrip 0xffffffff [7] true); [unfold inU; lia|].
  repeat constructor; unfold is_byte; lia.
Defined.

(** The readers decode the format: on every stream of bytes they consume the
    bytes up to the first without its top bit, five at most, and fail only when
    the stream ends before; the unsigned value is the number of seven-bit groups
    as an [int], the signed one the sign extension of as many bits as were read,
    32 at most. *)
Theorem leb128_decodes s : Forall is_byte s ->
  readUnsignedLeb128 s = ('(l, r) ← leb_bytes 5 s; Some (s32 (leb_val l), r)) /\
  readSignedLeb128 s = ('(l, r) ← leb_bytes 5 s;
    Some (wrapS (Z.min 32 (7 * Z.of_nat (length l))) (leb_val l), r)).
Proof. intros Hs. split; [by apply readUnsigned_spec|by apply readSigned_spec]. Qed.

Lemma leb128_decodes_witness :
  readUnsignedLeb128 [0x80; 0x7f; 9] = Some (16256, [9]) /\
  readSignedLeb128 [0x80; 0x7f; 9] = Some (-128, [9]).
Proof. apply (leb128_decodes [0x80; 0x7f; 9]). repeat constructor; unfold is_byte; lia. Defined.

(** ** Encoded numbers

    Any byte sequence that denotes a number, not only the shortest one. *)
Definition uleb (v : Z) (l : list Z) : Prop :=
  Forall is_byte l /\ leb_bytes 5 l = Some (l, []) /\ u32 (leb_val l) = v.

Definition sleb (v : Z) (l : list Z) : Prop :=
  Forall is_byte l /\ leb_bytes 5 l = Some (l, []) /\
  wrapS (Z.min 32 (7 * Z.of_nat (length l))) (leb_val l) = v.

(** Decided, without an instance: [uleb] and [sleb] have the type of a membership. *)
Definition uleb_dec v l : Decision (uleb v l).
Proof. unfold uleb. apply _. Defined.

Definition sleb_dec v l : Decision (sleb v l).
Proof. unfold sleb. apply _. Defined.

Lemma uleb_decided v l : @bool_decide _ (uleb_dec v l) = true -> uleb v l.
Proof. apply bool_decide_eq_true_1. Qed.

Lemma sleb_decided v l : @bool_decide _ (sleb_dec v l) = true -> sleb v l.
Proof. apply bool_decide_eq_true_1. Qed.

Lemma leb_bytes_app n : forall l s rest x y, leb_bytes n l = Some (x, y) -> s = l ++ rest ->
  leb_bytes n s = Some (x, y ++ rest).
Proof.
  induction n as [|n IH]; intros l s rest x y H ->; [by destruct l|].
  destruct l as [|b l]; [by destruct n|]. destruct n as [|n].
  - cbn in H |- *. by injection H as <- <-.
  - cbn [app]. rewrite leb_bytes_SS in H |- *. destruct (b >? 0x7f).
    + destruct (leb_bytes (S n) l) as [[l' r']|] eqn:E; [|done]. cbn in H. injection H as <- <-.
      by rewrite (IH l _ rest l' r' E eq_refl).
    + by injection H as <- <-.
Qed.

Lemma uleb_read v l rest : uleb v l -> Forall is_byte rest ->
  readUnsignedLeb128 (l ++ rest) = Some (s32 v, rest).
Proof.
  intros (Hb & E & <-) Hr. rewrite readUnsigned_spec by by apply Forall_app.
  rewrite (leb_bytes_app 5 l _ rest l [] E eq_refl). cbn [mbind option_bind app]. by rewrite wrapS_wrapU.
Qed.

Lemma sleb_read v l rest : sleb v l -> Forall is_byte rest ->
  readSignedLeb128 (l ++ rest) = Some (v, rest).
Proof.
  intros (Hb & E & <-) Hr. rewrite readSigned_spec by by apply Forall_app.
  by rewrite (leb_bytes_app 5 l _ rest l [] E eq_refl).
Qed.

Lemma uleb_range v l : uleb v l -> inU 32 v.
Proof. intros (_ & _ & <-). by apply wrapU_range. Qed.

Lemma uleb_write v : inU 32 v -> uleb v (writeUnsignedLeb128 v).
Proof.
  intros Hv. destruct (write_loop_spec 4 v []) as (E & V & F); [unfold inU in Hv; lia|].
  rewrite app_nil_r in E. split; [done|]. split; [done|]. unfold writeUnsignedLeb128. rewrite V.
  by apply wrapU_id.
Qed.
