(* ===== verification/PointerSet.v ===== *)
(** * Pointer sets: [dalvik/vm/PointerSet.cpp]

    A sorted array that grows. Pointers are numbers; [list_] is the memory the
    field [list] points to, [alloc] entries long. An operation is [None] when it
    aborts the machine or leaves that memory. *)

From stdpp Require Import sorting.
From S2P Require Import Prelude.

(** ** Data *)

Record PointerSet := MkPointerSet { alloc : Z; count : Z; list_ : list Z }.

Definition debug_pointer : Z := 0xdecadead.

(** [memmove(&l[dst], &l[src], n * sizeof(l[0]))]. *)
Definition memmove (dst src n : Z) (l : list Z) : option (list Z) :=
  let dst := Z.to_nat dst in let src := Z.to_nat src in let n := Z.to_nat n in
  if (dst + n <=? length l)%nat && (src + n <=? length l)%nat
  then Some (take dst l ++ take n (drop src l) ++ drop (dst + n) l)
  else None.

(** [l[i] = x]. *)
Definition store (i x : Z) (l : list Z) : option (list Z) :=
  if (0 <=? i) && (i <? Z.of_nat (length l)) then Some (<[Z.to_nat i := x]> l) else None.

Section Operations.
(** Whether the heap can give [n] entries, and what it leaves in them. *)
Context (heap_has : Z -> bool) (garbage : Z).

(** [realloc]: the old contents and garbage. *)
Definition realloc (n : Z) (l : list Z) : option (list Z) :=
  if heap_has n then Some (resize (Z.to_nat n) garbage l) else None.

(** [alloc] has 16 bits. *)
Definition dvmPointerSetAlloc (initialSize : Z) : option PointerSet :=
  if initialSize >? 0 then
    l ← realloc initialSize [];
    Some (MkPointerSet (u16 initialSize) 0 l)
  else Some (MkPointerSet 0 0 []).

Definition dvmPointerSetClear (p : PointerSet) : PointerSet := MkPointerSet (alloc p) 0 (list_ p).

Definition dvmPointerSetGetCount (p : PointerSet) : Z := count p.

Definition dvmPointerSetGetEntry (p : PointerSet) (i : Z) : option Z := list_ p !! Z.to_nat i.

(** The binary search: whether [ptr] was found, and [mid]. *)
Fixpoint has_loop (fuel : nat) (ptr lo hi mid : Z) (l : list Z) : option (bool * Z) :=
  if lo <=? hi then
    match fuel with
    | O => None
    | S fuel =>
        let mid := Z.quot (lo + hi) 2 in
        listVal ← l !! Z.to_nat mid;
        if ptr >? listVal then has_loop fuel ptr (mid + 1) hi mid l
        else if ptr <? listVal then has_loop fuel ptr lo (mid - 1) mid l
        else Some (true, mid)
    end
  else Some (false, mid).

Definition dvmPointerSetHas (p : PointerSet) (ptr : Z) : option (bool * Z) :=
  has_loop (Z.to_nat (count p)) ptr 0 (count p - 1) 0 (list_ p).

(** The array with room for one more. *)
Definition expand (p : PointerSet) : option PointerSet :=
  if count p =? alloc p then
    let alloc := if alloc p =? 0 then 4 else u16 (alloc p * 2) in
    newList ← realloc alloc (list_ p);
    Some (MkPointerSet alloc (count p) newList)
  else Some p.

(** The index to insert at, given the one the search ended with. *)
Definition insertion_index (p : PointerSet) (ptr nearby : Z) : option Z :=
  below ← (if negb (nearby =? 0) then v ← list_ p !! Z.to_nat (nearby - 1); Some (ptr <? v)
           else Some false);
  if (below : bool) then Some (nearby - 1)
  else
    v ← list_ p !! Z.to_nat nearby;
    Some (if ptr <? v then nearby else nearby + 1).

Definition dvmPointerSetAddEntry (p : PointerSet) (ptr : Z) : option (PointerSet * bool) :=
  '(found, nearby) ← dvmPointerSetHas p ptr;
  if (found : bool) then Some (p, false)
  else
    p ← expand p;
    '(nearby, l) ←
      (if count p =? 0 then Some (nearby, list_ p)
       else
         nearby ← insertion_index p ptr nearby;
         l ← (if negb (nearby =? count p) then memmove (nearby + 1) nearby (count p - nearby) (list_ p)
              else Some (list_ p));
         Some (nearby, l));
    l ← store nearby ptr l;
    Some (MkPointerSet (alloc p) (u16 (count p + 1)) l, true).

(** The entry at [where_] is taken out. *)
Definition remove_at (p : PointerSet) (where_ : Z) : option PointerSet :=
  l ← (if negb (where_ =? count p - 1)
       then memmove where_ (where_ + 1) (count p - 1 - where_) (list_ p)
       else Some (list_ p));
  let count := u16 (count p - 1) in
  l ← store count debug_pointer l;
  Some (MkPointerSet (alloc p) count l).

Definition dvmPointerSetRemoveEntry (p : PointerSet) (ptr : Z) : option (PointerSet * bool) :=
  '(found, where_) ← dvmPointerSetHas p ptr;
  if (found : bool) then p ← remove_at p where_; Some (p, true)
  else Some (p, false).

(** The outer loop from index [i]; each turn advances [i] or removes an entry. *)
Fixpoint intersect_loop (fuel : nat) (i : Z) (p : PointerSet) (ptrArray : list Z) : option PointerSet :=
  if i <? count p then
    match fuel with
    | O => None
    | S fuel =>
        v ← list_ p !! Z.to_nat i;
        if bool_decide (v ∈ ptrArray) then intersect_loop fuel (i + 1) p ptrArray
        else p ← remove_at p i; intersect_loop fuel i p ptrArray
    end
  else Some p.

Definition dvmPointerSetIntersect (p : PointerSet) (ptrArray : list Z) : option PointerSet :=
  intersect_loop (Z.to_nat (count p)) 0 p ptrArray.

Fixpoint sorted_from (last : Z) (l : list Z) : bool :=
  match l with
  | [] => true
  | cur :: l => if cur <? last then false else sorted_from cur l
  end.

Definition verifySorted (p : PointerSet) : bool := sorted_from 0 (take (Z.to_nat (count p)) (list_ p)).

(** ** The sets they are meant to be *)

Inductive op := OpClear | OpHas (ptr : Z) | OpAdd (ptr : Z) | OpRemove (ptr : Z) | OpIntersect (ptrs : list Z).

(** An operation, and the answer it gives. *)
Definition run_op (o : op) (p : PointerSet) : option (PointerSet * bool) :=
  match o with
  | OpClear => Some (dvmPointerSetClear p, true)
  | OpHas ptr => '(b, _) ← dvmPointerSetHas p ptr; Some (p, b)
  | OpAdd ptr => dvmPointerSetAddEntry p ptr
  | OpRemove ptr => dvmPointerSetRemoveEntry p ptr
  | OpIntersect ptrs => p ← dvmPointerSetIntersect p ptrs; Some (p, true)
  end.

Definition set_op (o : op) (M : gset Z) : gset Z * bool :=
  match o with
  | OpClear => (∅, true)
  | OpHas ptr => (M, bool_decide (ptr ∈ M))
  | OpAdd ptr => ({[ptr]} ∪ M, bool_decide (ptr ∉ M))
  | OpRemove ptr => (M ∖ {[ptr]}, bool_decide (ptr ∈ M))
  | OpIntersect ptrs => (M ∩ list_to_set ptrs, true)
  end.

Fixpoint run_ops (os : list op) (p : PointerSet) : option (PointerSet * list bool) :=
  match os with
  | [] => Some (p, [])
  | o :: os => '(p, b) ← run_op o p; '(p, bs) ← run_ops os p; Some (p, b :: bs)
  end.

Fixpoint set_ops (os : list op) (M : gset Z) : gset Z * list bool :=
  match os with
  | [] => (M, [])
  | o :: os => let '(M, b) := set_op o M in let '(M, bs) := set_ops os M in (M, b :: bs)
  end.

(** The array represents a set: its first [count] entries, strictly ascending. *)
Definition elems (p : PointerSet) : list Z := take (Z.to_nat (count p)) (list_ p).

Definition pset_rel (p : PointerSet) (M : gset Z) : Prop :=
  0 <= count p <= alloc p /\ alloc p < 2 ^ 16 /\ length (list_ p) = Z.to_nat (alloc p) /\
  StronglySorted Z.lt (elems p) /\ (forall x, x ∈ elems p <-> x ∈ M).

(** ** Lemmas *)

Lemma sorted_split_lt l m v x : StronglySorted Z.lt l -> l !! m = Some v -> x ∈ take m l -> x < v.
Proof.
  intros Hs Hm Hx. rewrite <- (take_drop_middle l m v Hm) in Hs.
  apply (StronglySorted_app_1_elem_of Z.lt (take m l) (v :: drop (S m) l)); [done|done|by left].
Qed.

Lemma sorted_split_gt l m v x : StronglySorted Z.lt l -> l !! m = Some v -> x ∈ drop (S m) l -> v < x.
Proof.
  intros Hs Hm Hx. rewrite <- (take_drop_middle l m v Hm) in Hs.
  apply StronglySorted_app_1_r in Hs. apply StronglySorted_inv in Hs as [_ Hs].
  rewrite Forall_forall in Hs. by apply Hs.
Qed.

(** What the search has found out when it ends without success. *)
Definition near (l : list Z) (ptr : Z) (n : nat) : Prop :=
  (forall x, x ∈ take n l -> x < ptr) /\ (forall x, x ∈ drop (S n) l -> ptr < x).

Lemma has_loop_spec l full ptr : StronglySorted Z.lt l -> l `prefix_of` full -> forall fuel lo hi mid,
  0 <= lo -> hi < Z.of_nat (length l) -> lo <= hi + 1 -> hi - lo < Z.of_nat fuel ->
  (forall x, x ∈ take (Z.to_nat lo) l -> x < ptr) ->
  (forall x, x ∈ drop (Z.to_nat (hi + 1)) l -> ptr < x) ->
  (lo = hi + 1 -> 0 <= mid /\ near l ptr (Z.to_nat mid) /\ (l <> [] -> mid < Z.of_nat (length l)) /\
    (l = [] -> mid = 0) /\ ptr ∉ l) ->
  exists b i, has_loop fuel ptr lo hi mid full = Some (b, i) /\ 0 <= i /\
    (if (b : bool) then l !! Z.to_nat i = Some ptr
     else (ptr ∉ l) /\ near l ptr (Z.to_nat i) /\ (l <> [] -> i < Z.of_nat (length l)) /\ (l = [] -> i = 0)).
Proof.
  intros Hs Hpre. induction fuel as [|fuel IH]; intros lo hi mid Hlo Hhi Hlh Hf Hbelow Habove Hend.
  - cbn [has_loop]. rewrite (proj2 (Z.leb_gt lo hi)) by lia.
    destruct Hend as (H1 & H2 & H3 & H4 & H5); [lia|]. by exists false, mid.
  - cbn [has_loop]. destruct (Z.leb_spec lo hi) as [Hle|Hgt].
    2:{ destruct Hend as (H1 & H2 & H3 & H4 & H5); [lia|]. by exists false, mid. }
    rewrite Z.quot_div_nonneg by lia. set (m := (lo + hi) / 2).
    assert (Hm : lo <= m <= hi) by (subst m; split; [apply Z.div_le_lower_bound; lia|apply Z.div_le_upper_bound; lia]).
    destruct (lookup_lt_is_Some_2 l (Z.to_nat m)) as [v Hv]; [lia|].
    rewrite (prefix_lookup_Some _ _ _ _ Hv Hpre). cbn [mbind option_bind].
    rewrite Z.gtb_ltb. destruct (Z.ltb_spec v ptr) as [Hlt|Hge].
    + assert (Hb : forall x, x ∈ take (S (Z.to_nat m)) l -> x < ptr).
      { intros x. rewrite (take_S_r _ _ _ Hv), elem_of_app, list_elem_of_singleton.
        intros [Hx| ->]; [|done]. pose proof (sorted_split_lt _ _ _ _ Hs Hv Hx). lia. }
      apply IH; try lia.
      * by replace (Z.to_nat (m + 1)) with (S (Z.to_nat m)) by lia.
      * done.
      * intros E. split; [lia|]. assert (m = hi) as -> by lia.
        assert (Hn : near l ptr (Z.to_nat hi)).
        { split; [|by replace (S (Z.to_nat hi)) with (Z.to_nat (hi + 1)) by lia].
          intros x Hx. pose proof (sorted_split_lt _ _ _ _ Hs Hv Hx). lia. }
        split; [done|]. split; [lia|]. split; [by intros ->|].
        intros Hin. rewrite <- (take_drop (S (Z.to_nat hi)) l), elem_of_app in Hin.
        destruct Hin as [Hin|Hin]; [apply Hb in Hin; lia|]. apply (proj2 Hn) in Hin. lia.
    + destruct (Z.ltb_spec ptr v) as [Hlt|Hge'].
      2:{ exists true, m. assert (v = ptr) as -> by lia. split; [done|]. split; [lia|done]. }
      assert (Ha : forall x, x ∈ drop (Z.to_nat m) l -> ptr < x).
      { intros x. rewrite (drop_S _ _ _ Hv), elem_of_cons. intros [->|Hx]; [done|].
        pose proof (sorted_split_gt _ _ _ _ Hs Hv Hx). lia. }
      apply IH; try lia.
      * done.
      * by replace (m - 1 + 1) with m by lia.
      * intros E. split; [lia|]. assert (m = lo) as -> by lia.
        assert (Hn : near l ptr (Z.to_nat lo)).
        { split; [done|]. intros x Hx. pose proof (sorted_split_gt _ _ _ _ Hs Hv Hx). lia. }
        split; [done|]. split; [lia|]. split; [by intros ->|].
        intros Hin. rewrite <- (take_drop (Z.to_nat lo) l), elem_of_app in Hin.
        destruct Hin as [Hin|Hin]; [apply Hbelow in Hin; lia|]. apply Ha in Hin. lia.
Qed.
Lemma elems_prefix p : elems p `prefix_of` list_ p.
Proof. exists (drop (Z.to_nat (count p)) (list_ p)). unfold elems. by rewrite take_drop. Qed.

Lemma elems_length p M : pset_rel p M -> length (elems p) = Z.to_nat (count p).
Proof. intros (Hc & _ & Hl & _). unfold elems. rewrite length_take. lia. Qed.

Lemma has_spec p M ptr : pset_rel p M ->
  exists i, dvmPointerSetHas p ptr = Some (bool_decide (ptr ∈ M), i) /\ 0 <= i /\
    (ptr ∈ M -> elems p !! Z.to_nat i = Some ptr) /\
    ((ptr ∉ M) -> near (elems p) ptr (Z.to_nat i) /\ (count p = 0 -> i = 0) /\ (0 < count p -> i < count p)).
Proof.
  intros Hr. pose proof (elems_length _ _ Hr) as Hl. destruct Hr as (Hc & _ & _ & Hs & HM).
  unfold dvmPointerSetHas.
  assert (Hnil : elems p = [] <-> count p = 0) by (rewrite <- length_zero_iff_nil; lia).
  destruct (has_loop_spec (elems p) (list_ p) ptr Hs (elems_prefix p) (Z.to_nat (count p)) 0 (count p - 1) 0)
    as (b & i & -> & Hi & Hb); try lia.
  - intros x Hx. by apply not_elem_of_nil in Hx.
  - intros x. rewrite drop_ge by lia. intros Hx. by apply not_elem_of_nil in Hx.
  - intros E. assert (E0 : elems p = []) by (apply Hnil; lia). rewrite E0. split; [lia|].
    split; [split; intros x Hx; by apply not_elem_of_nil in Hx|]. split; [done|]. split; [done|apply not_elem_of_nil].
  - exists i. destruct b.
    + assert (ptr ∈ M) by (apply HM; by eapply list_elem_of_lookup_2).
      rewrite bool_decide_eq_true_2 by done. done.
    + destruct Hb as (Hn & Hnear & H1 & H2). assert (ptr ∉ M) by (by rewrite <- HM).
      rewrite bool_decide_eq_false_2 by done. split; [done|]. split; [done|]. split; [done|].
      intros _. split; [done|]. split; [intros E; apply H2; by apply Hnil|].
      intros Hpos. rewrite Hl, Z2Nat.id in H1 by lia. apply H1. rewrite Hnil. lia.
Qed.

Lemma store_middle (a t : list Z) x y : store (Z.of_nat (length a)) y (a ++ x :: t) = Some (a ++ y :: t).
Proof.
  unfold store. rewrite length_app. cbn [length].
  rewrite (proj2 (Z.leb_le _ _)), (proj2 (Z.ltb_lt _ _)) by lia. cbn [andb].
  rewrite Nat2Z.id. by rewrite insert_app_r_alt, Nat.sub_diag by lia.
Qed.

(** Making room for an entry and storing it. *)
Lemma insert_entry (a b t : list Z) x ptr :
  (l ← (if negb (Z.of_nat (length a) =? Z.of_nat (length a + length b))
        then memmove (Z.of_nat (length a) + 1) (Z.of_nat (length a))
          (Z.of_nat (length a + length b) - Z.of_nat (length a)) (a ++ b ++ x :: t)
        else Some (a ++ b ++ x :: t));
   store (Z.of_nat (length a)) ptr l) = Some (a ++ ptr :: b ++ t).
Proof.
  destruct (Z.eqb_spec (Z.of_nat (length a)) (Z.of_nat (length a + length b))) as [E|E]; cbn [negb mbind option_bind].
  - destruct b; [|simpl in E; lia]. cbn [app]. apply store_middle.
  - destruct b as [|b0 b']; [simpl in E; lia|]. unfold memmove.
    replace (Z.to_nat (Z.of_nat (length a) + 1)) with (length a + 1)%nat by lia.
    replace (Z.to_nat (Z.of_nat (length a + length (b0 :: b')) - Z.of_nat (length a)))
      with (length (b0 :: b')) by lia.
    rewrite Nat2Z.id. rewrite !length_app. cbn [length].
    rewrite !(proj2 (Nat.leb_le _ _)) by lia. cbn [andb mbind option_bind].
    rewrite take_app_ge, drop_app_length by lia. replace (length a + 1 - length a)%nat with 1%nat by lia.
    change (S (length b')) with (length (b0 :: b')). rewrite take_app_length.
    replace (drop _ (a ++ _)) with t.
    + cbn [take app]. rewrite <- app_assoc. cbn [app]. apply store_middle.
    + rewrite !app_assoc. change (x :: t) with ([x] ++ t). rewrite (app_assoc _ [x] t).
      symmetry. apply drop_app_length'. rewrite !length_app. cbn [length]. lia.
Qed.

Lemma remove_entry (a b t : list Z) x al : 0 < Z.of_nat (length a + S (length b)) < 2 ^ 16 ->
  remove_at (MkPointerSet al (Z.of_nat (length a + S (length b))) (a ++ x :: b ++ t)) (Z.of_nat (length a)) =
    Some (MkPointerSet al (Z.of_nat (length a + length b)) (a ++ b ++ debug_pointer :: t)).
Proof.
  intros Hn. unfold remove_at. cbn [alloc count list_].
  assert (E : (l ← (if negb (Z.of_nat (length a) =? Z.of_nat (length a + S (length b)) - 1)
       then memmove (Z.of_nat (length a)) (Z.of_nat (length a) + 1)
         (Z.of_nat (length a + S (length b)) - 1 - Z.of_nat (length a)) (a ++ x :: b ++ t)
       else Some (a ++ x :: b ++ t));
     store (Z.of_nat (length a + length b)) debug_pointer l) = Some (a ++ b ++ debug_pointer :: t)).
  { destruct (Z.eqb_spec (Z.of_nat (length a)) (Z.of_nat (length a + S (length b)) - 1)) as [E|E]; cbn [negb].
    - destruct b; [|simpl in E; lia]. cbn [mbind option_bind app length]. rewrite Nat.add_0_r. apply store_middle.
    - unfold memmove. replace (Z.to_nat (Z.of_nat (length a) + 1)) with (length a + 1)%nat by lia.
      replace (Z.to_nat (Z.of_nat (length a + S (length b)) - 1 - Z.of_nat (length a))) with (length b) by lia.
      rewrite Nat2Z.id. rewrite !length_app. cbn [length]. rewrite length_app.
      rewrite !(proj2 (Nat.leb_le _ _)) by lia. cbn [andb mbind option_bind].
      assert (E1 : drop (length a + 1) (a ++ x :: b ++ t) = b ++ t).
      { change (x :: b ++ t) with ([x] ++ b ++ t). rewrite app_assoc. apply drop_app_length'.
        rewrite length_app. simpl. lia. }
      assert (E2 : exists y, drop (length a + length b) (a ++ x :: b ++ t) = y :: t).
      { destruct (exists_last (l := x :: b)) as (b' & y & Eb); [done|].
        assert (length b' = length b) by (apply (f_equal length) in Eb; rewrite length_app in Eb; simpl in Eb; lia).
        exists y. rewrite (app_comm_cons b t x), Eb, <- app_assoc, app_assoc. apply drop_app_length'.
        rewrite length_app. lia. }
      destruct E2 as [y E2]. rewrite E1, E2, !take_app_length.
      rewrite (app_assoc a b (y :: t)), (app_assoc a b (debug_pointer :: t)), <- length_app. apply store_middle. }
  assert (Eu : u16 (Z.of_nat (length a + S (length b)) - 1) = Z.of_nat (length a + length b)).
  { rewrite wrapU_id; [lia|unfold inU; lia]. }
  rewrite Eu. destruct (if negb _ then _ else _) as [l|]; cbn [mbind option_bind] in E |- *; [|done].
  rewrite E. done.
Qed.

Lemma pset_split p M : pset_rel p M -> list_ p = elems p ++ drop (Z.to_nat (count p)) (list_ p).
Proof. intros _. unfold elems. by rewrite take_drop. Qed.

(** A set given by its elements and the memory behind them. *)
Lemma pset_rel_intro al (l t : list Z) c M : c = Z.of_nat (length l) ->
  Z.of_nat (length l + length t) = al -> al < 2 ^ 16 -> StronglySorted Z.lt l ->
  (forall x, x ∈ l <-> x ∈ M) -> pset_rel (MkPointerSet al c (l ++ t)) M.
Proof.
  intros -> <- Hal Hs HM.
  assert (E : elems (MkPointerSet (Z.of_nat (length l + length t)) (Z.of_nat (length l)) (l ++ t)) = l).
  { unfold elems. cbn [count list_]. by rewrite Nat2Z.id, take_app_length. }
  split; [cbn; lia|]. split; [done|]. rewrite E. split; [cbn; rewrite length_app; lia|done].
Qed.

Lemma pset_size p M : pset_rel p M -> Z.of_nat (size M) = count p.
Proof.
  intros Hr. pose proof (elems_length _ _ Hr) as Hl. destruct Hr as (Hc & _ & _ & Hs & HM).
  assert (Hnd : NoDup (elems p)).
  { clear -Hs. induction Hs as [|x l Hs IH Hx]; [apply NoDup_nil_2|]. apply NoDup_cons. split; [|done].
    intros Hin. rewrite Forall_forall in Hx. specialize (Hx x Hin). lia. }
  replace M with (list_to_set (C := gset Z) (elems p)) by (apply set_eq; intros x; rewrite elem_of_list_to_set; apply HM).
  rewrite size_list_to_set by done. lia.
Qed.

Lemma sorted_insert a b ptr : StronglySorted Z.lt (a ++ b) -> (forall x, x ∈ a -> x < ptr) ->
  (forall x, x ∈ b -> ptr < x) -> StronglySorted Z.lt (a ++ ptr :: b).
Proof.
  intros Hs Ha Hb. apply StronglySorted_app in Hs as (Hab & Hsa & Hsb).
  apply StronglySorted_app. split; [|split; [done|]].
  - intros x1 x2 H1 H2. apply elem_of_cons in H2 as [->|H2]; auto.
  - constructor; [done|]. apply Forall_forall. auto.
Qed.

(** A history makes a set no larger than it is long. *)
Lemma set_ops_size os : forall M, (size (set_ops os M).1 <= size M + length os)%nat.
Proof using.
  induction os as [|o os IH]; intros M; cbn [set_ops length]; [simpl; lia|].
  assert (Ho : (size (set_op o M).1 <= size M + 1)%nat).
  { destruct o as [|ptr|ptr|ptr|arr]; cbn [set_op fst].
    - rewrite size_empty. lia.
    - lia.
    - rewrite size_union_alt, size_singleton. pose proof (subseteq_size (M ∖ {[ptr]}) M ltac:(set_solver)). lia.
    - pose proof (subseteq_size (M ∖ {[ptr]}) M ltac:(set_solver)). lia.
    - pose proof (subseteq_size (M ∩ list_to_set arr) M ltac:(set_solver)). lia. }
  destruct (set_op o M) as [M1 b]. specialize (IH M1). destruct (set_ops os M1) as [M2 bs].
  cbn [fst] in *. lia.
Qed.

Context (Hheap : forall n, heap_has n = true).

Lemma expand_spec p M : pset_rel p M -> count p < 2 ^ 15 ->
  exists al t x, expand p = Some (MkPointerSet al (count p) (elems p ++ x :: t)) /\ al < 2 ^ 16 /\
    Z.of_nat (length (elems p) + S (length t)) = al.
Proof.
  intros Hr Hc. pose proof (elems_length _ _ Hr) as Hl. pose proof (pset_split _ _ Hr) as Hsp.
  destruct Hr as (Hcc & Hal & Hll & _). unfold expand.
  destruct (Z.eqb_spec (count p) (alloc p)) as [E|E].
  - set (al := if alloc p =? 0 then 4 else u16 (alloc p * 2)).
    assert (Hal2 : al = (if alloc p =? 0 then 4 else alloc p * 2)).
    { subst al. destruct (Z.eqb_spec (alloc p) 0); [done|]. apply wrapU_id; unfold inU; lia. }
    assert (Hgt : count p < al < 2 ^ 16) by (rewrite Hal2; destruct (Z.eqb_spec (alloc p) 0); lia).
    unfold realloc. rewrite Hheap. cbn [mbind option_bind]. rewrite resize_ge by lia.
    rewrite drop_ge, app_nil_r in Hsp by lia. rewrite <- Hsp.
    destruct (replicate (Z.to_nat al - length (list_ p)) garbage) as [|x t] eqn:Er.
    { apply (f_equal length) in Er. rewrite length_replicate in Er. simpl in Er. lia. }
    exists al, t, x. split; [done|]. split; [lia|].
    apply (f_equal length) in Er. rewrite length_replicate in Er. cbn [length] in Er. lia.
  - destruct (drop (Z.to_nat (count p)) (list_ p)) as [|x t] eqn:Ed.
    { apply (f_equal length) in Ed. rewrite length_drop in Ed. simpl in Ed. lia. }
    exists (alloc p), t, x. rewrite <- Hsp. split; [by destruct p|]. split; [done|].
    apply (f_equal length) in Ed. rewrite length_drop in Ed. cbn [length] in Ed. lia.
Qed.

Lemma insertion_index_spec al l x t ptr i : StronglySorted Z.lt l -> near l ptr (Z.to_nat i) ->
  ptr ∉ l -> 0 <= i < Z.of_nat (length l) ->
  exists k, insertion_index (MkPointerSet al (Z.of_nat (length l)) (l ++ x :: t)) ptr i = Some (Z.of_nat k) /\
    (k <= length l)%nat /\ (forall y, y ∈ take k l -> y < ptr) /\ (forall y, y ∈ drop k l -> ptr < y).
Proof.
  intros Hs [Hlo Hhi] Hn Hi. unfold insertion_index. cbn [list_].
  assert (Hbelow : (if negb (i =? 0) then v ← (l ++ x :: t) !! Z.to_nat (i - 1); Some (ptr <? v) else Some false)
    = Some false).
  { destruct (Z.eqb_spec i 0); [done|]. cbn [negb].
    destruct (lookup_lt_is_Some_2 l (Z.to_nat (i - 1))) as [v Hv]; [lia|].
    rewrite (lookup_app_l_Some _ _ _ _ Hv). cbn [mbind option_bind]. f_equal. apply Z.ltb_ge.
    assert (v < ptr); [|lia]. apply Hlo. apply list_elem_of_lookup. exists (Z.to_nat (i - 1)).
    rewrite lookup_take_lt by lia. done. }
  rewrite Hbelow. cbn [mbind option_bind].
  destruct (lookup_lt_is_Some_2 l (Z.to_nat i)) as [v Hv]; [lia|].
  rewrite (lookup_app_l_Some _ _ _ _ Hv). cbn [mbind option_bind].
  assert (v <> ptr) by (intros ->; apply Hn; by eapply list_elem_of_lookup_2).
  destruct (Z.ltb_spec ptr v).
  - exists (Z.to_nat i). rewrite Z2Nat.id by lia. split; [done|]. split; [lia|]. split; [done|].
    intros y. rewrite (drop_S _ _ _ Hv), elem_of_cons. intros [->|Hy]; [done|]. by apply Hhi.
  - exists (S (Z.to_nat i)). split; [f_equal; lia|]. split; [lia|]. split; [|done].
    intros y. rewrite (take_S_r _ _ _ Hv), elem_of_app, list_elem_of_singleton.
    intros [Hy| ->]; [by apply Hlo|lia].
Qed.

Lemma pset_add_spec p M ptr : pset_rel p M -> Z.of_nat (size M) < 2 ^ 15 ->
  exists p', dvmPointerSetAddEntry p ptr = Some (p', bool_decide (ptr ∉ M)) /\ pset_rel p' ({[ptr]} ∪ M).
Proof.
  intros Hr Hsz. rewrite (pset_size _ _ Hr) in Hsz. unfold dvmPointerSetAddEntry.
  destruct (has_spec p M ptr Hr) as (i & -> & Hi & _ & Hno). cbn [mbind option_bind].
  destruct (decide (ptr ∈ M)) as [Hin|Hin].
  { rewrite bool_decide_eq_true_2, bool_decide_eq_false_2 by (done || by intros ?).
    exists p. split; [done|]. by replace ({[ptr]} ∪ M) with M by set_solver. }
  rewrite bool_decide_eq_false_2, bool_decide_eq_true_2 by done.
  destruct (Hno Hin) as (Hnear & Hz & Hlt). pose proof (elems_length _ _ Hr) as Hl.
  destruct (expand_spec p M Hr Hsz) as (al & t & x & -> & Hal & Halt). cbn [mbind option_bind count list_].
  destruct Hr as (Hc & _ & _ & Hs & HM).
  assert (Hnl : ptr ∉ elems p) by (by rewrite HM).
  assert (Hidx : exists k, (k <= length (elems p))%nat /\
    (forall y, y ∈ take k (elems p) -> y < ptr) /\ (forall y, y ∈ drop k (elems p) -> ptr < y) /\
    ((if count p =? 0 then Some (i, elems p ++ x :: t)
      else nearby ← insertion_index (MkPointerSet al (count p) (elems p ++ x :: t)) ptr i;
         l ← (if negb (nearby =? count p) then memmove (nearby + 1) nearby (count p - nearby) (elems p ++ x :: t)
              else Some (elems p ++ x :: t));
         Some (nearby, l)) ≫= fun '(nearby, l) => store nearby ptr l) =
      Some (take k (elems p) ++ ptr :: drop k (elems p) ++ t)).
  { destruct (Z.eqb_spec (count p) 0) as [E|E].
    - assert (elems p = []) as El by (apply length_zero_iff_nil; lia). rewrite El in *.
      exists 0%nat. rewrite (Hz E). split; [done|]. split; [intros y Hy; by apply not_elem_of_nil in Hy|].
      split; [intros y Hy; by apply not_elem_of_nil in Hy|]. apply (store_middle [] t x ptr).
    - replace (count p) with (Z.of_nat (length (elems p))) by lia.
      destruct (insertion_index_spec al (elems p) x t ptr i Hs Hnear Hnl) as (k & -> & Hk & H1 & H2); [lia|].
      exists k. split; [done|]. split; [done|]. split; [done|]. cbn [mbind option_bind].
      pose proof (insert_entry (take k (elems p)) (drop k (elems p)) t x ptr) as HE.
      rewrite length_take, length_drop, (app_assoc _ _ (x :: t)), take_drop in HE.
      replace (k `min` length (elems p))%nat with k in HE by lia.
      replace (k + (length (elems p) - k))%nat with (length (elems p)) in HE by lia.
      destruct (if negb _ then _ else _); cbn [mbind option_bind] in HE |- *; done. }
  destruct Hidx as (k & Hk & H1 & H2 & HE).
  destruct (if count p =? 0 then _ else _) as [[n l]|]; cbn [mbind option_bind] in HE |- *; [|done].
  rewrite HE. cbn [mbind option_bind alloc]. eexists. split; [done|].
  rewrite wrapU_id by (try lia; unfold inU; lia). rewrite app_comm_cons, app_assoc.
  apply pset_rel_intro; [| |done| |].
  - rewrite length_app. cbn [length]. rewrite length_take, length_drop. lia.
  - rewrite length_app. cbn [length]. rewrite length_take, length_drop. lia.
  - apply sorted_insert; [by rewrite take_drop|done|done].
  - intros y. rewrite elem_of_app, elem_of_cons, elem_of_union, elem_of_singleton, <- HM.
    rewrite <- (take_drop k (elems p)) at 3. rewrite elem_of_app. naive_solver.
Qed.

Lemma pset_remove_at_spec p M i v : pset_rel p M -> 0 <= i -> elems p !! Z.to_nat i = Some v ->
  exists p', remove_at p i = Some p' /\ pset_rel p' (M ∖ {[v]}) /\ count p' = count p - 1 /\
    take (Z.to_nat i) (elems p') = take (Z.to_nat i) (elems p).
Proof.
  intros Hr Hi Hv. pose proof (elems_length _ _ Hr) as Hl. pose proof (pset_split _ _ Hr) as Hsp.
  destruct Hr as (Hc & Hal & Hll & Hs & HM). pose proof (lookup_lt_Some _ _ _ Hv) as Hlt.
  set (a := take (Z.to_nat i) (elems p)). set (b := drop (S (Z.to_nat i)) (elems p)).
  set (t := drop (Z.to_nat (count p)) (list_ p)) in *.
  assert (Ha : length a = Z.to_nat i) by (subst a; rewrite length_take; lia).
  assert (Hb : (length a + S (length b))%nat = Z.to_nat (count p)) by (subst b; rewrite length_drop; lia).
  assert (He : elems p = a ++ v :: b) by (symmetry; by apply take_drop_middle).
  assert (Hp : p = MkPointerSet (alloc p) (Z.of_nat (length a + S (length b))) (a ++ v :: b ++ t)).
  { rewrite (app_comm_cons b t v), (app_assoc a), <- He, <- Hsp, Hb, Z2Nat.id by lia. by destruct p. }
  assert (Hlen : (length (a ++ v :: b ++ t) = Z.to_nat (alloc p))%nat)
    by (rewrite <- Hll, Hsp, He, <- app_assoc; done).
  rewrite !length_app in Hlen. cbn [length] in Hlen. rewrite length_app in Hlen.
  replace (remove_at p i) with
    (remove_at (MkPointerSet (alloc p) (Z.of_nat (length a + S (length b))) (a ++ v :: b ++ t)) (Z.of_nat (length a)))
    by (rewrite <- Hp; f_equal; lia).
  rewrite remove_entry by lia.
  eexists. split; [done|]. rewrite (app_assoc a b). split; [|split].
  - rewrite He in Hs. apply StronglySorted_app in Hs as (Hab & Hsa & [Hsb Hvb]%StronglySorted_inv).
    apply pset_rel_intro.
    + by rewrite length_app.
    + rewrite length_app. cbn [length]. lia.
    + done.
    + apply StronglySorted_app. split; [|done]. intros x1 x2 H1 H2. apply Hab; [done|by right].
    + intros x. rewrite elem_of_difference, elem_of_singleton, <- HM, He, !elem_of_app, elem_of_cons.
      rewrite Forall_forall in Hvb. split; [|naive_solver].
      intros [Hx|Hx]; (split; [naive_solver|]); intros ->.
      * specialize (Hab v v Hx ltac:(by left)). lia.
      * specialize (Hvb v Hx). lia.
  - cbn [count]. lia.
  - unfold elems at 1. cbn [count list_].
    rewrite Nat2Z.id, <- Ha, take_take.
    replace (length a `min` (length a + length b))%nat with (length a) by lia.
    rewrite <- app_assoc, take_app_length. done.
Qed.

Lemma pset_remove_spec p M ptr : pset_rel p M ->
  exists p', dvmPointerSetRemoveEntry p ptr = Some (p', bool_decide (ptr ∈ M)) /\ pset_rel p' (M ∖ {[ptr]}).
Proof.
  intros Hr. unfold dvmPointerSetRemoveEntry.
  destruct (has_spec p M ptr Hr) as (i & -> & Hi & Hyes & _). cbn [mbind option_bind].
  destruct (decide (ptr ∈ M)) as [Hin|Hin].
  - rewrite bool_decide_eq_true_2 by done.
    destruct (pset_remove_at_spec p M i ptr Hr Hi (Hyes Hin)) as (p' & -> & Hr' & _).
    exists p'. by split.
  - rewrite bool_decide_eq_false_2 by done. exists p. split; [done|].
    by replace (M ∖ {[ptr]}) with M by set_solver.
Qed.

Lemma intersect_loop_spec arr fuel : forall i p M, pset_rel p M -> 0 <= i ->
  count p - i <= Z.of_nat fuel -> (forall x, x ∈ take (Z.to_nat i) (elems p) -> x ∈ arr) ->
  exists p', intersect_loop fuel i p arr = Some p' /\ pset_rel p' (M ∩ list_to_set arr).
Proof.
  assert (Hend : forall i p M, pset_rel p M -> count p <= i ->
    (forall x, x ∈ take (Z.to_nat i) (elems p) -> x ∈ arr) -> pset_rel p (M ∩ list_to_set arr)).
  { intros i p M Hr Hi Hall. rewrite take_ge in Hall by (rewrite (elems_length _ _ Hr); lia).
    replace (M ∩ list_to_set arr) with M; [done|].
    destruct Hr as (_ & _ & _ & _ & HM). apply set_eq. intros x.
    rewrite elem_of_intersection, elem_of_list_to_set, <- HM. naive_solver. }
  induction fuel as [|fuel IH]; intros i p M Hr Hi Hf Hall; cbn [intersect_loop].
  - rewrite (proj2 (Z.ltb_ge _ _)) by lia. exists p. split; [done|]. eapply Hend; [done| |done]. lia.
  - destruct (Z.ltb_spec i (count p)) as [Hlt|Hge].
    2:{ exists p. split; [done|]. by eapply Hend. }
    destruct (lookup_lt_is_Some_2 (elems p) (Z.to_nat i)) as [v Hv]; [rewrite (elems_length _ _ Hr); lia|].
    rewrite (prefix_lookup_Some _ _ _ _ Hv (elems_prefix p)). cbn [mbind option_bind].
    destruct (decide (v ∈ arr)) as [Hin|Hin].
    + rewrite bool_decide_eq_true_2 by done. apply IH; [done|lia|lia|].
      intros x. replace (Z.to_nat (i + 1)) with (S (Z.to_nat i)) by lia.
      rewrite (take_S_r _ _ _ Hv), elem_of_app, list_elem_of_singleton. intros [Hx| ->]; [by apply Hall|done].
    + rewrite bool_decide_eq_false_2 by done.
      destruct (pset_remove_at_spec p M i v Hr Hi Hv) as (p1 & -> & Hr1 & Hc1 & Ht1). cbn [mbind option_bind].
      destruct (IH i p1 _ Hr1 Hi) as (p' & E & Hr'); [lia|by rewrite Ht1|].
      exists p'. split; [done|].
      replace (M ∩ list_to_set arr) with ((M ∖ {[v]}) ∩ list_to_set arr); [done|].
      apply set_eq. intros x. set_solver.
Qed.

Lemma run_op_refines o p M : pset_rel p M -> Z.of_nat (size M) < 2 ^ 15 ->
  exists p', run_op o p = Some (p', (set_op o M).2) /\ pset_rel p' (set_op o M).1.
Proof.
  intros Hr Hsz. destruct o as [|ptr|ptr|ptr|arr]; cbn [run_op set_op fst snd].
  - exists (dvmPointerSetClear p). split; [done|]. destruct Hr as (Hc & Hal & Hll & _).
    unfold dvmPointerSetClear. apply (pset_rel_intro (alloc p) [] (list_ p) 0); [done|simpl; lia|done|constructor|set_solver].
  - destruct (has_spec p M ptr Hr) as (i & -> & _). exists p. by split.
  - by apply pset_add_spec.
  - by apply pset_remove_spec.
  - destruct (intersect_loop_spec arr (Z.to_nat (count p)) 0 p M Hr) as (p' & E & Hr').
    + lia.
    + destruct Hr as (Hc & _). lia.
    + intros x Hx. by apply not_elem_of_nil in Hx.
    + unfold dvmPointerSetIntersect. rewrite E. exists p'. by split.
Qed.

(** ** Properties *)

(** Refinement: any sequence of operations on a new pointer set, as long as
    the heap gives memory and the set stays below 2^15 entries (beyond, the
    16-bit size of the array wraps around), ends, answers what the same operations
    on a mathematical set answer, and leaves an array that holds exactly that set
    in strictly ascending order. *)
Theorem pointer_set_refines os initialSize : 0 <= initialSize < 2 ^ 16 ->
  (forall k, Z.of_nat (size (set_ops (take k os) ∅).1) < 2 ^ 15) ->
  exists p p', dvmPointerSetAlloc initialSize = Some p /\
    run_ops os p = Some (p', (set_ops os ∅).2) /\ pset_rel p' (set_ops os ∅).1.
Proof.
  intros Hi Hsz.
  assert (H0 : exists p, dvmPointerSetAlloc initialSize = Some p /\ pset_rel p ∅).
  { unfold dvmPointerSetAlloc, realloc. rewrite Hheap. destruct (Z.gtb_spec initialSize 0).
    - eexists. split; [done|]. rewrite wrapU_id by (unfold inU; lia). rewrite resize_nil.
      apply (pset_rel_intro initialSize [] _ 0); [done| |lia|constructor|set_solver].
      rewrite length_replicate. simpl. lia.
    - eexists. split; [done|]. apply (pset_rel_intro 0 [] [] 0); [done|done|done|constructor|set_solver]. }
  destruct H0 as (p & E & Hr). exists p.
  enough (exists p', run_ops os p = Some (p', (set_ops os ∅).2) /\ pset_rel p' (set_ops os ∅).1) as (p' & H1 & H2)
    by (exists p'; by split).
  clear E. revert Hsz Hr. generalize (∅ : gset Z) as M. revert p.
  induction os as [|o os IH]; intros p M Hsz Hr; cbn [run_ops set_ops].
  - exists p. by split.
  - destruct (run_op_refines o p M Hr) as (p1 & E1 & Hr1); [exact (Hsz 0%nat)|].
    rewrite E1. cbn [mbind option_bind].
    destruct (set_op o M) as [M1 b1] eqn:Eo. cbn [fst snd] in *.
    destruct (IH p1 M1) as (p' & E' & Hr'); [|done|].
    + intros k. specialize (Hsz (S k)). cbn [take set_ops] in Hsz. rewrite Eo in Hsz.
      destruct (set_ops (take k os) M1) as [M2 bs]. done.
    + rewrite E'. cbn [mbind option_bind]. destruct (set_ops os M1) as [M2 bs].
      exists p'. by split.
Qed.

End Operations.

(** Three are added, one twice, one is taken out. *)
Lemma pointer_set_refines_witness :
  let os := [OpAdd 5; OpAdd 3; OpAdd 5; OpAdd 9; OpRemove 3; OpHas 3] in
  exists p p', dvmPointerSetAlloc (fun _ => true) 7 1 = Some p /\
    run_ops (fun _ => true) 7 os p = Some (p', [true; true; false; true; true; false]) /\
    pset_rel p' (set_ops os ∅).1.
Proof.
  intros os. destruct (pointer_set_refines (fun _ => true) 7 (fun _ => eq_refl) os 1) as (p & p' & H1 & H2 & H3).
  - lia.
  - intros k. pose proof (set_ops_size (take k os) ∅) as H. rewrite size_empty, length_take in H.
    change (length os) with 6%nat in H. lia.
  - exists p, p'. split; [exact H1|]. split; [|exact H3].
    assert (E : (set_ops os ∅).2 = [true; true; false; true; true; false]) by (vm_compute; reflexivity).
    rewrite E in H2. exact H2.
Defined.
