(* ===== verification/BitVector.v ===== *)
(** * Bit vectors: [dalvik/vm/BitVector.cpp]

    Words of 32 bits that grow on demand. An operation is [None] when it aborts
    the machine or leaves the words; memory is taken to be available. *)

From S2P Require Import Prelude Bits.

(** ** Data *)

Record BitVector := MkBitVector { expandable : bool; storageSize : Z; storage : list Z }.

Record BitVectorIterator := MkIterator { pBits : BitVector; idx : Z; bitSize : Z }.

Definition kBitVectorGrowth : Z := 4.

(** ** Operations *)

Definition dvmAllocBitVector (startBits : Z) (expandable : bool) : BitVector :=
  let count := Z.shiftr (u32 (startBits + 31)) 5 in
  MkBitVector expandable count (repeat 0 (Z.to_nat count)).

(** [~w] and the C library's [ffs]: one more than the least bit that is set. *)
Definition bitnot (w : Z) : Z := u32 (Z.lnot w).

Definition ffs (w : Z) : Z :=
  match base.filter (fun k => Z.testbit w k = true) (seqZ 0 32) with
  | [] => 0
  | k :: _ => k + 1
  end.

(** The [for] over the words: the bit found and the words afterwards. *)
Fixpoint alloc_scan (word : Z) (words : list Z) : option (Z * list Z) :=
  match words with
  | [] => None
  | w :: words =>
      if negb (w =? 0xffffffff) then
        let bit := ffs (bitnot w) - 1 in
        Some (Z.lor (Z.shiftl word 5) bit, Z.lor w (u32 (Z.shiftl 1 bit)) :: words)
      else '(r, words) ← alloc_scan (word + 1) words; Some (r, w :: words)
  end.

(** [realloc] and [memset]: [n] words of zeros are added. *)
Definition grow (n : Z) (bv : BitVector) : BitVector :=
  MkBitVector (expandable bv) (u32 (storageSize bv + n)) (storage bv ++ repeat 0 (Z.to_nat n)).

(** One turn after [retry:]; the second finds a bit in the words that were added. *)
Fixpoint alloc_retry (fuel : nat) (bv : BitVector) : option (BitVector * Z) :=
  match alloc_scan 0 (storage bv) with
  | Some (r, words) => Some (MkBitVector (expandable bv) (storageSize bv) words, s32 r)
  | None =>
      if negb (expandable bv) then Some (bv, -1)
      else match fuel with O => None | S fuel => alloc_retry fuel (grow kBitVectorGrowth bv) end
  end.

Definition dvmAllocBit (bv : BitVector) : option (BitVector * Z) := alloc_retry 1 bv.

(** [storage[num >> 5]] replaced. *)
Definition update_word (num : Z) (f : Z -> Z) (bv : BitVector) : option BitVector :=
  w ← storage bv !! Z.to_nat (Z.shiftr num 5);
  Some (MkBitVector (expandable bv) (storageSize bv) (<[Z.to_nat (Z.shiftr num 5) := f w]> (storage bv))).

(** [1 << (num & 0x1f)]. *)
Definition bit_mask (num : Z) : Z := u32 (Z.shiftl 1 (Z.land num 0x1f)).

Definition dvmSetBit (bv : BitVector) (num : Z) : option BitVector :=
  bv ← (if num >=? u32 (storageSize bv * 32) then
          if negb (expandable bv) then None
          else
            let newSize := Z.shiftr (u32 (num + 1 + 31)) 5 in
            Some (grow (newSize - storageSize bv) bv)
        else Some bv);
  update_word num (fun w => Z.lor w (bit_mask num)) bv.

Definition dvmClearBit (bv : BitVector) (num : Z) : option BitVector :=
  update_word num (fun w => Z.land w (bitnot (bit_mask num))) bv.

Definition dvmClearAllBits (bv : BitVector) : BitVector :=
  MkBitVector (expandable bv) (storageSize bv) (repeat 0 (Z.to_nat (storageSize bv))).

Definition dvmSetInitialBits (bv : BitVector) (numBits : Z) : option BitVector :=
  let full := Z.to_nat (Z.shiftr numBits 5) in
  if (full <=? length (storage bv))%nat then
    let words := repeat 0xffffffff full ++ drop full (storage bv) in
    let bv := MkBitVector (expandable bv) (storageSize bv) words in
    let remNumBits := Z.land numBits 0x1f in
    if negb (remNumBits =? 0)
    then update_word numBits (fun _ => u32 (Z.shiftl 1 remNumBits - 1)) bv
    else Some bv
  else None.

Definition dvmIsBitSet (bv : BitVector) (num : Z) : option bool :=
  w ← storage bv !! Z.to_nat (Z.shiftr num 5);
  Some (negb (Z.land w (bit_mask num) =? 0)).

(** The [while (val != 0)]; a word has at most 32 bits. *)
Fixpoint count_bits (fuel : nat) (val count : Z) : Z :=
  if negb (val =? 0) then
    match fuel with
    | O => count
    | S fuel => count_bits fuel (Z.land val (val - 1)) (count + 1)
    end
  else count.

Definition count_word (val count : Z) : Z :=
  if negb (val =? 0) then
    if val =? 0xffffffff then count + 32 else count_bits 32 val count
  else count.

Definition dvmCountSetBits (bv : BitVector) : Z := fold_left (fun count val => count_word val count) (storage bv) 0.

Definition checkSizes (bv1 bv2 : BitVector) : bool := storageSize bv1 =? storageSize bv2.

Definition dvmCopyBitVector (dest src : BitVector) : option BitVector :=
  if checkSizes dest src then Some (MkBitVector (expandable dest) (storageSize dest) (storage src)) else None.

(** The three vectors agree in size and kind. *)
Definition same_shape (dest src1 src2 : BitVector) : bool :=
  negb (negb (storageSize dest =? storageSize src1) || negb (storageSize dest =? storageSize src2) ||
        negb (Bool.eqb (expandable dest) (expandable src1)) || negb (Bool.eqb (expandable dest) (expandable src2))).

Definition dvmIntersectBitVectors (dest src1 src2 : BitVector) : BitVector * bool :=
  if negb (same_shape dest src1 src2) then (dest, false)
  else (MkBitVector (expandable dest) (storageSize dest) (zip_with Z.land (storage src1) (storage src2)), true).

Definition dvmUnifyBitVectors (dest src1 src2 : BitVector) : BitVector * bool :=
  if negb (same_shape dest src1 src2) then (dest, false)
  else (MkBitVector (expandable dest) (storageSize dest) (zip_with Z.lor (storage src1) (storage src2)), true).

Fixpoint words_differ (l1 l2 : list Z) : bool :=
  match l1, l2 with
  | w1 :: l1, w2 :: l2 => if negb (w1 =? w2) then true else words_differ l1 l2
  | _, _ => false
  end.

Definition dvmCompareBitVectors (src1 src2 : BitVector) : bool :=
  if negb (storageSize src1 =? storageSize src2) || negb (Bool.eqb (expandable src1) (expandable src2)) then true
  else words_differ (storage src1) (storage src2).

Definition dvmBitVectorIteratorInit (bv : BitVector) : BitVectorIterator :=
  MkIterator bv 0 (u32 (storageSize bv * 32)).

(** The [for] from [bitIndex] on; [fuel] is the number of bits left. *)
Fixpoint next_loop (fuel : nat) (bitIndex : Z) (words : list Z) : option Z :=
  match fuel with
  | O => None
  | S fuel =>
      match words !! Z.to_nat (Z.shiftr bitIndex 5) with
      | None => None
      | Some w =>
          if negb (Z.land w (bit_mask bitIndex) =? 0) then Some bitIndex
          else next_loop fuel (bitIndex + 1) words
      end
  end.

Definition dvmBitVectorIteratorNext (it : BitVectorIterator) : BitVectorIterator * Z :=
  if idx it >=? bitSize it then (it, -1)
  else
    match next_loop (Z.to_nat (bitSize it - idx it)) (idx it) (storage (pBits it)) with
    | Some bitIndex => (MkIterator (pBits it) (bitIndex + 1) (bitSize it), bitIndex)
    | None => (it, -1)
    end.

Fixpoint merge_words (dst src : list Z) : list Z * bool :=
  match dst, src with
  | d :: dst, s :: src =>
      let merged := Z.lor s d in
      let '(l, changed) := merge_words dst src in
      (merged :: l, negb (d =? merged) || changed)
  | _, _ => (dst, false)
  end.

Definition dvmCheckMergeBitVectors (dst src : BitVector) : option (BitVector * bool) :=
  if checkSizes dst src then
    let '(l, changed) := merge_words (storage dst) (storage src) in
    Some (MkBitVector (expandable dst) (storageSize dst) l, changed)
  else None.

(** ** The bits *)

Definition wf (bv : BitVector) : Prop :=
  storageSize bv = Z.of_nat (length (storage bv)) /\ storageSize bv < 2 ^ 27 /\
  Forall (inU 32) (storage bv).

(** Bit [i] of the words; beyond them, none. *)
Definition bit_of (words : list Z) (i : Z) : bool :=
  Z.testbit (nth (Z.to_nat (i / 32)) words 0) (i mod 32).

Definition bit (bv : BitVector) (i : Z) : bool := bit_of (storage bv) i.

(** The numbers of the bits that are set, ascending. *)
Definition set_bits (bv : BitVector) : list Z :=
  base.filter (fun i => bit bv i = true) (seqZ 0 (32 * storageSize bv)).

(** ** Lemmas *)

Lemma shiftr5 num : Z.shiftr num 5 = num / 32.
Proof. by rewrite Z.shiftr_div_pow2. Qed.

Lemma land1f num : Z.land num 0x1f = num mod 32.
Proof. by rewrite land_1f. Qed.

Lemma bit_mask_pow num : bit_mask num = 2 ^ (num mod 32).
Proof.
  unfold bit_mask. rewrite land1f. pose proof (Z.mod_pos_bound num 32 ltac:(lia)).
  rewrite Z.shiftl_1_l. apply wrapU_id. unfold inU.
  split; [apply Z.pow_nonneg; lia|apply Z.pow_lt_mono_r; lia].
Qed.

Lemma land_pow2_testbit w k : 0 <= k -> negb (Z.land w (2 ^ k) =? 0) = Z.testbit w k.
Proof.
  intros Hk. destruct (Z.testbit w k) eqn:E.
  - apply negb_true_iff, Z.eqb_neq. intros H. apply (f_equal (fun z => Z.testbit z k)) in H.
    rewrite Z.land_spec, Z.bits_0, E, Z.pow2_bits_true in H by done. done.
  - apply negb_false_iff, Z.eqb_eq. apply Z.bits_inj'. intros i Hi.
    rewrite Z.land_spec, Z.bits_0. destruct (Z.eq_dec i k) as [->|]; [by rewrite E|].
    rewrite Z.pow2_bits_false by lia. apply andb_false_r.
Qed.

Lemma inU_testbit w x i : 0 <= w -> inU w x -> w <= i -> Z.testbit x i = false.
Proof. intros Hw [H1 H2] Hi. rewrite <- (Z.mod_small x (2 ^ w)) by done. apply Z.mod_pow2_bits_high. lia. Qed.

(** A number whose bits are below [w]. *)
Lemma inU_bits w x : 0 <= w -> 0 <= x -> (forall i, w <= i -> Z.testbit x i = false) -> inU w x.
Proof.
  intros Hw Hx H. split; [done|]. apply Z.nle_gt. intros Hge.
  assert (0 < x) by (pose proof (Z.pow_pos_nonneg 2 w); lia).
  assert (w <= Z.log2 x) by (apply Z.log2_le_pow2; lia).
  specialize (H (Z.log2 x) ltac:(done)). by rewrite Z.bit_log2 in H.
Qed.

Lemma inU_lor w a b : 0 <= w -> inU w a -> inU w b -> inU w (Z.lor a b).
Proof.
  intros Hw Ha Hb. apply inU_bits; [done|apply Z.lor_nonneg; split; [apply Ha|apply Hb]|].
  intros i Hi. by rewrite Z.lor_spec, !(inU_testbit w).
Qed.

Lemma inU_land w a b : 0 <= w -> inU w a -> 0 <= b -> inU w (Z.land a b).
Proof.
  intros Hw Ha Hb. apply inU_bits; [done|apply Z.land_nonneg; by right|].
  intros i Hi. by rewrite Z.land_spec, (inU_testbit w a).
Qed.

Lemma inU_pow2 w k : 0 <= k < w -> inU w (2 ^ k).
Proof. intros Hk. split; [apply Z.pow_nonneg; lia|apply Z.pow_lt_mono_r; lia]. Qed.

Lemma bitnot_spec w i : 0 <= i < 32 -> Z.testbit (bitnot w) i = negb (Z.testbit w i).
Proof.
  intros Hi. unfold bitnot, wrapU. rewrite Z.mod_pow2_bits_low by lia. apply Z.lnot_spec. lia.
Qed.

Lemma bitnot_range w : inU 32 (bitnot w).
Proof. by apply wrapU_range. Qed.

Lemma div_mod_32 i j : i / 32 = j / 32 -> i mod 32 = j mod 32 -> i = j.
Proof. intros H1 H2. rewrite (Z_div_mod_eq_full i 32), (Z_div_mod_eq_full j 32). lia. Qed.

(** One word replaced, seen as bits. *)
Lemma update_word_spec num f bv : wf bv -> 0 <= num < 32 * storageSize bv ->
  (forall w, inU 32 w -> inU 32 (f w)) ->
  exists w bv', storage bv !! Z.to_nat (num / 32) = Some w /\ update_word num f bv = Some bv' /\ wf bv' /\
    storageSize bv' = storageSize bv /\ expandable bv' = expandable bv /\
    forall i, 0 <= i -> bit bv' i = if i / 32 =? num / 32 then Z.testbit (f w) (i mod 32) else bit bv i.
Proof.
  intros (Hsz & Hlt & Hw) Hn Hf. unfold update_word. rewrite shiftr5.
  assert (Hq : 0 <= num / 32 < storageSize bv)
    by (split; [apply Z.div_pos; lia|apply Z.div_lt_upper_bound; lia]).
  destruct (lookup_lt_is_Some_2 (storage bv) (Z.to_nat (num / 32))) as [w Hlk]; [lia|].
  rewrite Hlk. eexists w, _. split; [done|]. split; [done|].
  split; [|split; [done|split; [done|]]].
  - split; [cbn; by rewrite length_insert|]. split; [done|]. cbn.
    apply Forall_insert; [done|]. apply Hf. eapply Forall_lookup_1; [exact Hw|exact Hlk].
  - intros i Hi. unfold bit, bit_of. cbn [storage].
    assert (0 <= i / 32) by (apply Z.div_pos; lia).
    destruct (Z.eqb_spec (i / 32) (num / 32)) as [E|E].
    + rewrite E. rewrite (nth_lookup_Some _ _ _ (f w)); [done|]. apply list_lookup_insert_eq. lia.
    + rewrite !nth_lookup, list_lookup_insert_ne by lia. done.
Qed.

Lemma mod32 i : 0 <= i mod 32 < 32.
Proof. apply Z.mod_pos_bound. lia. Qed.

(** Zeros added do not change the bits. *)
Lemma bit_grow n bv i : bit (grow n bv) i = bit bv i.
Proof.
  unfold bit, bit_of, grow. cbn [storage]. f_equal.
  destruct (Nat.lt_ge_cases (Z.to_nat (i / 32)) (length (storage bv))) as [H|H].
  - by rewrite app_nth1.
  - rewrite app_nth2, (nth_overflow (storage bv)) by lia. apply nth_repeat.
Qed.

Lemma wf_grow n bv : wf bv -> 0 <= n -> storageSize bv + n < 2 ^ 27 -> wf (grow n bv).
Proof.
  intros (Hsz & Hlt & Hw) Hn Hs. unfold grow, wf. cbn. rewrite wrapU_id by (unfold inU; lia).
  rewrite length_app, repeat_length. split; [lia|]. split; [done|].
  apply Forall_app. split; [done|]. apply Forall_forall. intros x Hx%list_elem_of_In%repeat_spec. subst x.
  unfold inU. lia.
Qed.

Lemma set_in_range bv num : wf bv -> 0 <= num < 32 * storageSize bv ->
  exists bv', update_word num (fun w => Z.lor w (bit_mask num)) bv = Some bv' /\ wf bv' /\
    storageSize bv' = storageSize bv /\ expandable bv' = expandable bv /\
    forall i, 0 <= i -> bit bv' i = (i =? num) || bit bv i.
Proof.
  intros Hwf Hn. pose proof (mod32 num).
  destruct (update_word_spec num (fun w => Z.lor w (bit_mask num)) bv) as (w & bv' & Hw & E & Hwf' & Hs & He & Hb);
    [done|done| |].
  { intros w Hw. rewrite bit_mask_pow. apply inU_lor; [lia|done|by apply inU_pow2]. }
  exists bv'. do 4 (split; [done|]). intros i Hi. rewrite Hb by done.
  destruct (Z.eqb_spec (i / 32) (num / 32)) as [Eq|Eq].
  - rewrite Z.lor_spec, bit_mask_pow, Z.pow2_bits_eqb by lia.
    unfold bit, bit_of. rewrite Eq, (nth_lookup_Some _ _ _ w) by done. rewrite orb_comm. f_equal.
    destruct (Z.eqb_spec i num) as [->|Hne]; [apply Z.eqb_refl|]. apply Z.eqb_neq. intros Hm. apply Hne.
    by apply div_mod_32.
  - destruct (Z.eqb_spec i num) as [->|]; done.
Qed.

(** *** Counting *)

Fixpoint popcount (p : positive) : Z :=
  match p with
  | xI p => 1 + popcount p
  | xO p => popcount p
  | xH => 1
  end.

Definition popcountZ (z : Z) : Z := match z with Zpos p => popcount p | _ => 0 end.

Lemma land_pred p : exists z, Z.land (Zpos p) (Zpos p - 1) = z /\ 0 <= z /\ popcountZ z = popcount p - 1.
Proof.
  induction p as [p IH|p IH|].
  - exists (Zpos (xO p)). change (Zpos p~1 - 1) with (Zpos p~0). split; [|split; [lia|simpl; lia]].
    change (Zpos p~1) with (2 * Zpos p + 1). change (Zpos p~0) with (2 * Zpos p).
    apply Z.bits_inj'. intros i Hi. rewrite Z.land_spec. destruct (Z.eq_dec i 0) as [->|Hne].
    { rewrite Z.testbit_even_0. apply andb_false_r. }
    replace i with (Z.succ (Z.pred i)) by lia.
    rewrite Z.testbit_odd_succ, Z.testbit_even_succ by lia. apply andb_diag.
  - destruct IH as (z & E & Hz & Hc). exists (2 * z). split; [|split; [lia|]].
    + replace (Zpos p~0 - 1) with (2 * (Zpos p - 1) + 1) by lia.
      change (Zpos p~0) with (2 * Zpos p). rewrite <- E.
      apply Z.bits_inj'. intros i Hi. rewrite Z.land_spec.
      destruct (Z.eq_dec i 0) as [->|Hne].
      * by rewrite !Z.testbit_even_0.
      * replace i with (Z.succ (Z.pred i)) by lia.
        rewrite Z.testbit_even_succ, Z.testbit_odd_succ, Z.testbit_even_succ, Z.land_spec by lia. done.
    + destruct z as [|q|q]; [simpl in *; lia| |lia]. exact Hc.
  - exists 0. done.
Qed.

Lemma popcount_pos p : 0 < popcount p.
Proof. induction p; simpl; lia. Qed.

Lemma count_bits_spec fuel : forall v c, 0 <= v -> popcountZ v <= Z.of_nat fuel ->
  count_bits fuel v c = c + popcountZ v.
Proof.
  induction fuel as [|fuel IH]; intros v c Hv Hf; destruct v as [|p|p]; try lia.
  - simpl. lia.
  - cbn [popcountZ] in Hf. pose proof (popcount_pos p). lia.
  - simpl. lia.
  - cbn [count_bits]. change (negb (Zpos p =? 0)) with true. cbv iota.
    destruct (land_pred p) as (z & -> & Hz & Hc). cbn [popcountZ] in *. rewrite IH by lia. lia.
Qed.

Lemma length_filter_fmap (g : Z -> Z) (f h : Z -> bool) l : (forall i, i ∈ l -> f (g i) = h i) ->
  length (base.filter (fun i => f i = true) (g <$> l)) = length (base.filter (fun i => h i = true) l).
Proof.
  intros H. induction l as [|i l IH]; [done|]. rewrite fmap_cons, !filter_cons.
  rewrite (H i) by by left. specialize (IH ltac:(intros; apply H; by right)).
  destruct (decide _); cbn [length]; by rewrite IH.
Qed.

(** The bits of a number below [n], counted. *)
Lemma popcount_bits n : forall v, inU (Z.of_nat n) v ->
  popcountZ v = Z.of_nat (length (base.filter (fun i => Z.testbit v i = true) (seqZ 0 (Z.of_nat n)))).
Proof.
  induction n as [|n IH]; intros v Hv.
  - unfold inU in Hv. change (2 ^ Z.of_nat 0) with 1 in Hv. by replace v with 0 by lia.
  - rewrite seqZ_cons by lia. rewrite filter_cons.
    assert (Hdiv : inU (Z.of_nat n) (v / 2)).
    { unfold inU in *. rewrite Nat2Z.inj_succ, Z.pow_succ_r in Hv by lia.
      split; [apply Z.div_pos; lia|apply Z.div_lt_upper_bound; lia]. }
    replace (Z.pred (Z.of_nat (S n))) with (Z.of_nat n) by lia.
    change (Z.succ 0) with (1 + 0). rewrite <- fmap_add_seqZ.
    pose proof (length_filter_fmap (Z.add 1) (Z.testbit v) (Z.testbit (v / 2)) (seqZ 0 (Z.of_nat n))) as Hsh.
    assert (Hodd : popcountZ v = Z.b2z (Z.testbit v 0) + popcountZ (v / 2)).
    { destruct Hv as [Hv _]. destruct v as [|p|p]; [done| |lia]. rewrite <- Z.div2_div. destruct p; simpl; lia. }
    rewrite Hodd, (IH _ Hdiv). destruct (Z.testbit v 0) eqn:E0; cbn [Z.b2z].
    + rewrite decide_True by done. cbn [length]. rewrite Hsh; [lia|].
      intros i [Hi _]%elem_of_seqZ. rewrite Z.div2_bits by lia. f_equal. lia.
    + rewrite decide_False by done. rewrite Hsh; [lia|].
      intros i [Hi _]%elem_of_seqZ. rewrite Z.div2_bits by lia. f_equal. lia.
Qed.

Lemma popcount_range n v : inU (Z.of_nat n) v -> 0 <= popcountZ v <= Z.of_nat n.
Proof.
  intros Hv. rewrite (popcount_bits n) by done. split; [lia|].
  pose proof (length_filter (fun i => Z.testbit v i = true) (seqZ 0 (Z.of_nat n))) as H.
  rewrite length_seqZ in H. lia.
Qed.

Lemma count_word_spec v c : inU 32 v -> count_word v c = c + popcountZ v.
Proof.
  intros Hv. unfold count_word. destruct (Z.eqb_spec v 0) as [->|]; [simpl; lia|]. cbn [negb].
  destruct (Z.eqb_spec v 0xffffffff) as [->|]; [done|].
  pose proof (popcount_range 32 v Hv). apply count_bits_spec; [apply Hv|lia].
Qed.

(** Counting word by word counts the bits of all. *)
Lemma count_words words : Forall (inU 32) words -> forall c,
  fold_left (fun count val => count_word val count) words c =
    c + Z.of_nat (length (base.filter (fun i => bit_of words i = true) (seqZ 0 (32 * Z.of_nat (length words))))).
Proof.
  induction words as [|w words IH]; intros Hw c; [simpl; lia|].
  apply Forall_cons_1 in Hw as [Hw Hws]. cbn [fold_left]. rewrite IH, count_word_spec by done.
  rewrite (popcount_bits 32) by done. cbn [length].
  replace (32 * Z.of_nat (S (length words))) with (32 + 32 * Z.of_nat (length words)) by lia.
  rewrite seqZ_app, filter_app, length_app by lia.
  pose proof (length_filter_fmap id (bit_of (w :: words)) (Z.testbit w) (seqZ 0 32)) as H1.
  rewrite list_fmap_id in H1. rewrite H1.
  2:{ intros i [Hi1 Hi2]%elem_of_seqZ. unfold bit_of, id.
      by rewrite Z.div_small, Z.mod_small by lia. }
  change (0 + 32) with (32 + 0). rewrite <- fmap_add_seqZ.
  rewrite (length_filter_fmap (Z.add 32) _ (bit_of words)).
  2:{ intros i [Hi1 Hi2]%elem_of_seqZ. unfold bit_of.
      replace (32 + i) with (i + 1 * 32) by lia. rewrite Z.div_add, Z.mod_add by lia.
      replace (Z.to_nat (i / 32 + 1)) with (S (Z.to_nat (i / 32))); [done|].
      pose proof (Z.div_pos i 32). lia. }
  change (Z.of_nat 32) with 32. lia.
Qed.

(** *** Finding *)

Lemma is_set_test bv i : wf bv -> 0 <= i < 32 * storageSize bv ->
  exists w, storage bv !! Z.to_nat (Z.shiftr i 5) = Some w /\
    negb (Z.land w (bit_mask i) =? 0) = bit bv i.
Proof.
  intros (Hsz & _ & _) Hi. rewrite shiftr5.
  assert (Hq : 0 <= i / 32 < storageSize bv)
    by (split; [apply Z.div_pos; lia|apply Z.div_lt_upper_bound; lia]).
  destruct (lookup_lt_is_Some_2 (storage bv) (Z.to_nat (i / 32))) as [w Hw]; [lia|].
  exists w. split; [done|]. rewrite bit_mask_pow, land_pow2_testbit by apply mod32.
  unfold bit, bit_of. by rewrite (nth_lookup_Some _ _ _ w) by done.
Qed.

(** The next set bit at or after [i] splits what is left. *)
Lemma next_loop_spec bv : wf bv -> forall fuel i, 0 <= i -> i + Z.of_nat fuel = 32 * storageSize bv ->
  next_loop fuel i (storage bv) =
    head (base.filter (fun j => bit bv j = true) (seqZ i (Z.of_nat fuel))).
Proof.
  intros Hwf. induction fuel as [|fuel IH]; intros i Hi Hf; [done|]. cbn [next_loop].
  destruct (is_set_test bv i Hwf) as (w & -> & Hb); [lia|]. rewrite Hb.
  rewrite seqZ_cons, filter_cons by lia. destruct (bit bv i) eqn:E.
  - by rewrite decide_True.
  - rewrite decide_False by done. replace (Z.pred (Z.of_nat (S fuel))) with (Z.of_nat fuel) by lia.
    apply IH; lia.
Qed.

(** Taking bits until -1. *)
Fixpoint iterate (fuel : nat) (it : BitVectorIterator) : list Z :=
  match fuel with
  | O => []
  | S fuel =>
      let '(it, i) := dvmBitVectorIteratorNext it in
      if i =? -1 then [] else i :: iterate fuel it
  end.

Lemma filter_seqZ_head f i n j l : 0 <= n ->
  base.filter (fun k => f k = true) (seqZ i n) = j :: l ->
  i <= j < i + n /\ f j = true /\ (forall k, i <= k < j -> f k = false) /\
  l = base.filter (fun k => f k = true) (seqZ (j + 1) (i + n - (j + 1))).
Proof.
  intros Hn. revert i. pattern n. apply natlike_ind; [done| |done].
  clear n Hn. intros n Hn IH i. rewrite seqZ_cons, filter_cons, Z.pred_succ by lia.
  destruct (decide (f i = true)) as [Hi|Hi].
  - intros [= <- <-]. split; [lia|]. split; [done|]. split; [lia|]. f_equal. f_equal; lia.
  - intros (H1 & H2 & H3 & ->)%IH. split; [lia|]. split; [done|]. split; [|do 2 f_equal; lia].
    intros k Hk. destruct (Z.eq_dec k i) as [->|]; [by apply not_true_is_false|]. apply H3. lia.
Qed.

Lemma iterate_spec bv : wf bv -> forall fuel i, 0 <= i <= 32 * storageSize bv ->
  32 * storageSize bv - i < Z.of_nat fuel ->
  iterate fuel (MkIterator bv i (32 * storageSize bv)) =
    base.filter (fun j => bit bv j = true) (seqZ i (32 * storageSize bv - i)).
Proof.
  intros Hwf. induction fuel as [|fuel IH]; intros i Hi Hf; [lia|]. cbn [iterate].
  unfold dvmBitVectorIteratorNext. cbn [idx bitSize pBits]. rewrite Z.geb_leb.
  destruct (Z.leb_spec (32 * storageSize bv) i) as [Hge|Hlt].
  - cbn. by rewrite seqZ_nil by lia.
  - rewrite (next_loop_spec bv) by (done || lia). rewrite Z2Nat.id by lia.
    destruct (base.filter _ _) as [|j l] eqn:E; cbn [head]; [done|].
    apply filter_seqZ_head in E as (Hj & _ & _ & ->); [|lia].
    rewrite (proj2 (Z.eqb_neq j (-1))) by lia. f_equal. rewrite IH by lia. do 2 f_equal. lia.
Qed.

(** *** Allocating *)

(** The first clear bit of a word that is not full. *)
Lemma ffs_spec w : inU 32 w -> w <> 0xffffffff ->
  exists b, ffs (bitnot w) - 1 = b /\ 0 <= b < 32 /\ Z.testbit w b = false /\
    forall j, 0 <= j < b -> Z.testbit w j = true.
Proof.
  intros Hw Hne. unfold ffs.
  destruct (base.filter (fun k => Z.testbit (bitnot w) k = true) (seqZ 0 32)) as [|b l] eqn:E.
  - exfalso. apply Hne. apply Z.bits_inj'. intros i Hi.
    change 0xffffffff with (Z.ones 32). destruct (Z.lt_ge_cases i 32) as [Hlt|Hge].
    + rewrite Z.ones_spec_low by lia. destruct (Z.testbit w i) eqn:Ei; [done|]. exfalso.
      assert (Hin : i ∈ base.filter (fun k => Z.testbit (bitnot w) k = true) (seqZ 0 32)).
      { apply list_elem_of_filter. rewrite bitnot_spec by lia. rewrite Ei.
        split; [done|]. apply elem_of_seqZ. lia. }
      rewrite E in Hin. by apply not_elem_of_nil in Hin.
    + rewrite Z.ones_spec_high by lia. by apply (inU_testbit 32).
  - apply (filter_seqZ_head (Z.testbit (bitnot w))) in E as (Hb & Hf & Hmin & _); [|lia].
    exists b. split; [lia|]. split; [lia|]. rewrite bitnot_spec in Hf by lia.
    split; [by apply negb_true_iff|]. intros j Hj. specialize (Hmin j Hj). rewrite bitnot_spec in Hmin by lia.
    by apply negb_false_iff in Hmin.
Qed.

Lemma bit_of_cons w words i : 0 <= i ->
  bit_of (w :: words) i = if i <? 32 then Z.testbit w i else bit_of words (i - 32).
Proof.
  intros Hi. unfold bit_of. destruct (Z.ltb_spec i 32) as [H|H].
  - by rewrite Z.div_small, Z.mod_small by lia.
  - replace i with ((i - 32) + 1 * 32) at 1 2 by lia. rewrite Z.div_add, Z.mod_add by lia.
    replace (Z.to_nat ((i - 32) / 32 + 1)) with (S (Z.to_nat ((i - 32) / 32))); [done|].
    pose proof (Z.div_pos (i - 32) 32). lia.
Qed.

Lemma full_word j : 0 <= j < 32 -> Z.testbit 0xffffffff j = true.
Proof. intros. change 0xffffffff with (Z.ones 32). apply Z.ones_spec_low. lia. Qed.

Lemma alloc_scan_spec words : Forall (inU 32) words -> forall k,
  match alloc_scan k words with
  | Some (r, words') => exists b, r = 32 * k + b /\ 0 <= b < 32 * Z.of_nat (length words) /\
      bit_of words b = false /\ (forall j, 0 <= j < b -> bit_of words j = true) /\
      length words' = length words /\ Forall (inU 32) words' /\
      forall i, 0 <= i -> bit_of words' i = (i =? b) || bit_of words i
  | None => forall j, 0 <= j < 32 * Z.of_nat (length words) -> bit_of words j = true
  end.
Proof.
  induction words as [|w words IH]; intros Hw k; cbn [alloc_scan]; [simpl; lia|].
  apply Forall_cons_1 in Hw as [Hw Hws]. destruct (Z.eqb_spec w 0xffffffff) as [->|Hne]; cbn [negb].
  - specialize (IH Hws (k + 1)). destruct (alloc_scan (k + 1) words) as [[r words']|]; cbn [mbind option_bind].
    + destruct IH as (b & -> & Hb & Hfree & Hmin & Hl & Hws' & Hbits). exists (b + 32).
      split; [lia|]. cbn [length]. split; [lia|]. rewrite bit_of_cons, (proj2 (Z.ltb_ge _ _)), Z.add_simpl_r by lia.
      split; [done|]. split; [|split; [cbn [length]; by rewrite Hl|split; [by constructor|]]].
      * intros j Hj. rewrite bit_of_cons by lia. destruct (Z.ltb_spec j 32); [apply full_word; lia|].
        apply Hmin. lia.
      * intros i Hi. rewrite !bit_of_cons by lia. destruct (Z.ltb_spec i 32) as [Hlt|Hge].
        -- by rewrite (proj2 (Z.eqb_neq i (b + 32))) by lia.
        -- rewrite Hbits by lia. f_equal. destruct (Z.eqb_spec (i - 32) b), (Z.eqb_spec i (b + 32)); lia.
    + intros j Hj. cbn [length] in Hj. rewrite bit_of_cons by lia.
      destruct (Z.ltb_spec j 32); [apply full_word; lia|]. apply IH. lia.
  - destruct (ffs_spec w Hw Hne) as (b & -> & Hb & Hfree & Hmin). exists b.
    split; [rewrite Z.lor_comm, lor_shiftl_add by lia; lia|]. cbn [length]. split; [lia|].
    rewrite bit_of_cons, (proj2 (Z.ltb_lt _ _)) by lia. split; [done|].
    assert (Hpow : u32 (Z.shiftl 1 b) = 2 ^ b).
    { rewrite Z.shiftl_1_l. apply wrapU_id. by apply inU_pow2. }
    split; [|split; [done|split; [constructor; [|done]|]]].
    + intros j Hj. rewrite bit_of_cons, (proj2 (Z.ltb_lt _ _)) by lia. by apply Hmin.
    + rewrite Hpow. apply inU_lor; [lia|done|by apply inU_pow2].
    + intros i Hi. rewrite !bit_of_cons by done. destruct (Z.ltb_spec i 32) as [Hlt|Hge].
      * rewrite Z.lor_spec, Hpow, Z.pow2_bits_eqb, orb_comm by lia. f_equal. apply Z.eqb_sym.
      * by rewrite (proj2 (Z.eqb_neq i b)) by lia.
Qed.

Lemma bit_beyond bv i : wf bv -> 32 * storageSize bv <= i -> bit bv i = false.
Proof.
  intros (Hsz & _ & _) Hi. unfold bit, bit_of. rewrite nth_overflow; [apply Z.bits_0|].
  assert (storageSize bv <= i / 32) by (apply Z.div_le_lower_bound; lia). lia.
Qed.

(** What allocation promises: the least clear bit, now set, or -1 from a full
    vector that may not grow. *)
Definition allocated (bv bv' : BitVector) (r : Z) : Prop :=
  (r = -1 /\ bv' = bv /\ expandable bv = false /\ forall j, 0 <= j < 32 * storageSize bv -> bit bv j = true) \/
  (0 <= r /\ bit bv r = false /\ (forall j, 0 <= j < r -> bit bv j = true) /\ wf bv' /\
   forall i, 0 <= i -> bit bv' i = (i =? r) || bit bv i).

Lemma alloc_found bv r words : wf bv -> storageSize bv <= 2 ^ 26 ->
  alloc_scan 0 (storage bv) = Some (r, words) ->
  allocated bv (MkBitVector (expandable bv) (storageSize bv) words) (s32 r).
Proof.
  intros (Hsz & Hlt & Hw) Hs E. pose proof (alloc_scan_spec (storage bv) Hw 0) as H. rewrite E in H.
  destruct H as (b & -> & Hb & Hfree & Hmin & Hl & Hws & Hbits). right.
  rewrite wrapS_id by (unfold inS; lia || lia). rewrite Z.mul_0_r, Z.add_0_l.
  split; [lia|]. split; [done|]. split; [done|]. split; [|done].
  split; [cbn; lia|done].
Qed.

Lemma alloc_spec bv : wf bv -> storageSize bv + 4 <= 2 ^ 26 ->
  exists bv' r, dvmAllocBit bv = Some (bv', r) /\ allocated bv bv' r.
Proof.
  intros Hwf Hs. pose proof Hwf as (Hsz & Hlt & Hw). unfold dvmAllocBit. cbn [alloc_retry].
  destruct (alloc_scan 0 (storage bv)) as [[r words]|] eqn:E.
  { eexists _, _. split; [done|]. apply alloc_found; [done|lia|done]. }
  pose proof (alloc_scan_spec (storage bv) Hw 0) as Hfull. rewrite E in Hfull.
  destruct (expandable bv) eqn:Ee; cbn [negb].
  2:{ exists bv, (-1). split; [done|]. left. rewrite Hsz. done. }
  assert (Hg : wf (grow 4 bv)) by (apply wf_grow; [done|lia|lia]).
  assert (Hgs : storageSize (grow 4 bv) = storageSize bv + 4)
    by (cbn; apply wrapU_id; unfold inU; lia).
  change kBitVectorGrowth with 4. destruct (alloc_scan 0 (storage (grow 4 bv))) as [[r words]|] eqn:E2.
  - eexists _, _. split; [done|]. pose proof (alloc_found (grow 4 bv) r words Hg ltac:(rewrite Hgs; lia) E2) as H.
    destruct H as [(_ & _ & He & _)|(H1 & H2 & H3 & H4 & H5)]; [cbn in He; congruence|].
    right. setoid_rewrite bit_grow in H5. setoid_rewrite bit_grow in H3. rewrite bit_grow in H2. done.
  - exfalso. pose proof (alloc_scan_spec (storage (grow 4 bv)) (proj2 (proj2 Hg)) 0) as H. rewrite E2 in H.
    assert (Hb : bit (grow 4 bv) (32 * storageSize bv) = true).
    { apply H. destruct Hg as (Hgl & _). rewrite <- Hgl, Hgs. lia. }
    rewrite bit_grow, bit_beyond in Hb by (done || lia). done.
Qed.

Lemma set_spec bv num : wf bv -> 0 <= num < 2 ^ 32 - 64 ->
  num < 32 * storageSize bv \/ expandable bv = true ->
  exists bv', dvmSetBit bv num = Some bv' /\ wf bv' /\ forall i, 0 <= i -> bit bv' i = (i =? num) || bit bv i.
Proof.
  intros Hwf Hn Hroom. pose proof Hwf as (Hsz & Hlt & Hw). unfold dvmSetBit.
  rewrite wrapU_id by (unfold inU; lia). rewrite Z.geb_leb.
  destruct (Z.leb_spec (storageSize bv * 32) num) as [Hge|Hin].
  - destruct Hroom as [|He]; [lia|]. rewrite He. cbn [negb mbind option_bind].
    rewrite wrapU_id by (unfold inU; lia). rewrite shiftr5.
    assert (Hq : storageSize bv < (num + 1 + 31) / 32 < 2 ^ 27).
    { split; [apply Z.lt_le_trans with (storageSize bv + 1); [lia|]; apply Z.div_le_lower_bound; lia|].
      apply Z.div_lt_upper_bound; lia. }
    pose proof (Z_div_mod_eq_full (num + 1 + 31) 32). pose proof (mod32 (num + 1 + 31)).
    destruct (set_in_range (grow ((num + 1 + 31) / 32 - storageSize bv) bv) num) as (bv' & E & Hwf' & _ & _ & Hb).
    + apply wf_grow; [done|lia|lia].
    + cbn [grow storageSize]. rewrite wrapU_id by (unfold inU; lia). lia.
    + exists bv'. split; [done|]. split; [done|]. intros i Hi. by rewrite Hb, bit_grow by done.
  - cbn [mbind option_bind]. destruct (set_in_range bv num) as (bv' & E & Hwf' & _ & _ & Hb); [done|lia|].
    exists bv'. done.
Qed.

Lemma clear_spec bv num : wf bv -> 0 <= num < 32 * storageSize bv ->
  exists bv', dvmClearBit bv num = Some bv' /\ wf bv' /\
    forall i, 0 <= i -> bit bv' i = negb (i =? num) && bit bv i.
Proof.
  intros Hwf Hn. pose proof (mod32 num). unfold dvmClearBit.
  destruct (update_word_spec num (fun w => Z.land w (bitnot (bit_mask num))) bv)
    as (w & bv' & Hw & E & Hwf' & Hs & He & Hb); [done|done| |].
  { intros w Hw. apply inU_land; [lia|done|apply bitnot_range]. }
  exists bv'. split; [done|]. split; [done|]. intros i Hi. rewrite Hb by done.
  destruct (Z.eqb_spec (i / 32) (num / 32)) as [Eq|Eq].
  - rewrite Z.land_spec, bitnot_spec, bit_mask_pow, Z.pow2_bits_eqb by (apply mod32 || lia).
    unfold bit, bit_of. rewrite Eq, (nth_lookup_Some _ _ _ w) by done. rewrite andb_comm. do 2 f_equal.
    destruct (Z.eqb_spec i num) as [->|Hne]; [apply Z.eqb_refl|]. apply Z.eqb_neq. intros Hm. apply Hne.
    by apply div_mod_32.
  - destruct (Z.eqb_spec i num) as [->|]; done.
Qed.

Lemma is_set_spec bv num : wf bv -> 0 <= num < 32 * storageSize bv ->
  dvmIsBitSet bv num = Some (bit bv num).
Proof.
  intros Hwf Hn. unfold dvmIsBitSet. destruct (is_set_test bv num Hwf Hn) as (w & -> & Hb).
  cbn [mbind option_bind]. by rewrite Hb.
Qed.

Lemma merge_words_spec d : forall s, length d = length s ->
  length (merge_words d s).1 = length d /\
  (forall i, 0 <= i -> bit_of (merge_words d s).1 i = bit_of d i || bit_of s i) /\
  ((merge_words d s).2 = bool_decide ((merge_words d s).1 <> d)) /\
  (Forall (inU 32) d -> Forall (inU 32) s -> Forall (inU 32) (merge_words d s).1).
Proof.
  induction d as [|x d IH]; intros [|y s] Hl; simpl in Hl; try done.
  - cbn. split; [done|]. split; [|done]. intros i Hi. unfold bit_of.
    assert (E : forall k, nth k (@nil Z) 0 = 0) by (by intros []). by rewrite !E, !Z.bits_0.
  - destruct (IH s) as (H1 & H2 & H3 & H4); [lia|]. cbn [merge_words].
    destruct (merge_words d s) as [l c]. cbn [fst snd length] in *. split; [by rewrite H1|]. split; [|split].
    + intros i Hi. rewrite !bit_of_cons by done. destruct (Z.ltb_spec i 32); [by rewrite Z.lor_spec, orb_comm|].
      apply H2. lia.
    + rewrite H3. destruct (Z.eqb_spec x (Z.lor y x)) as [E|E]; cbn [negb orb].
      * rewrite <- E. apply bool_decide_ext. split; [congruence|]. intros Hc [= ->]. done.
      * symmetry. apply bool_decide_eq_true. congruence.
    + intros [Hx Hd]%Forall_cons_1 [Hy Hs]%Forall_cons_1. constructor; [by apply inU_lor|auto].
Qed.

(** ** Properties *)

(** Each operation on a vector of less than 2^26 words is the operation on its
    bits: within the vector [dvmIsBitSet] reads a bit and [dvmClearBit] clears it
    and no other; [dvmSetBit] sets a bit and no other, growing an expandable
    vector as far as needed, and aborts on one that may not grow; [dvmAllocBit]
    returns and sets the least clear bit, growing when all are set, and returns -1
    and changes nothing when it may not. *)
Theorem bit_operations bv num : wf bv -> storageSize bv + 4 <= 2 ^ 26 -> 0 <= num < 2 ^ 32 - 64 ->
  (num < 32 * storageSize bv -> dvmIsBitSet bv num = Some (bit bv num)) /\
  (num < 32 * storageSize bv -> exists bv', dvmClearBit bv num = Some bv' /\ wf bv' /\
    forall i, 0 <= i -> bit bv' i = negb (i =? num) && bit bv i) /\
  (num < 32 * storageSize bv \/ expandable bv = true ->
    exists bv', dvmSetBit bv num = Some bv' /\ wf bv' /\ forall i, 0 <= i -> bit bv' i = (i =? num) || bit bv i) /\
  (32 * storageSize bv <= num -> expandable bv = false -> dvmSetBit bv num = None) /\
  exists bv' r, dvmAllocBit bv = Some (bv', r) /\ allocated bv bv' r.
Proof.
  intros Hwf Hs Hn. split; [intros; apply is_set_spec; [done|lia]|]. split; [intros; apply clear_spec; [done|lia]|].
  split; [intros; by apply set_spec|]. split; [|by apply alloc_spec].
  intros Hge He. destruct Hwf as (Hsz & Hlt & _). unfold dvmSetBit. rewrite wrapU_id by (unfold inU; lia).
  rewrite Z.geb_leb, (proj2 (Z.leb_le _ _)) by lia. by rewrite He.
Qed.

Lemma bit_operations_witness :
  dvmIsBitSet (MkBitVector false 1 [5]) 2 = Some true /\
  exists bv' r, dvmAllocBit (MkBitVector false 1 [5]) = Some (bv', r) /\
    allocated (MkBitVector false 1 [5]) bv' r.
Proof.
  destruct (bit_operations (MkBitVector false 1 [5]) 2) as (H1 & _ & _ & _ & H5).
  - split; [reflexivity|]. split; [vm_compute; reflexivity|]. repeat constructor; unfold inU; lia.
  - vm_compute. discriminate.
  - lia.
  - split; [apply H1; reflexivity|exact H5].
Defined.

(** Iterating over a vector from its start until -1 gives the numbers of all
    bits that are set, each once and ascending; [dvmCountSetBits] is how many
    there are; and merging adds exactly the bits of the source and reports whether
    the words changed. *)
Theorem iterate_and_count bv src : wf bv -> wf src -> storageSize bv = storageSize src ->
  iterate (S (Z.to_nat (32 * storageSize bv))) (dvmBitVectorIteratorInit bv) = set_bits bv /\
  dvmCountSetBits bv = Z.of_nat (length (set_bits bv)) /\
  exists bv' changed, dvmCheckMergeBitVectors bv src = Some (bv', changed) /\ wf bv' /\
    (forall i, 0 <= i -> bit bv' i = bit bv i || bit src i) /\
    changed = bool_decide (storage bv' <> storage bv).
Proof.
  intros Hwf Hsrc Hsize. pose proof Hwf as (Hsz & Hlt & Hw). pose proof Hsrc as (Hsz2 & _ & Hw2).
  split; [|split].
  - unfold dvmBitVectorIteratorInit. rewrite wrapU_id by (unfold inU; lia).
    rewrite (Z.mul_comm (storageSize bv)), iterate_spec by (done || lia). unfold set_bits. by rewrite Z.sub_0_r.
  - unfold dvmCountSetBits, set_bits. rewrite count_words by done. by rewrite Hsz.
  - unfold dvmCheckMergeBitVectors, checkSizes. rewrite Hsize, Z.eqb_refl.
    destruct (merge_words_spec (storage bv) (storage src)) as (H1 & H2 & H3 & H4); [lia|].
    destruct (merge_words (storage bv) (storage src)) as [l c]. cbn [fst snd] in *.
    eexists _, _. split; [done|]. split; [|split; [exact H2|exact H3]].
    split; [cbn; lia|]. split; [cbn; lia|]. cbn. by apply H4.
Qed.

Lemma iterate_and_count_witness :
  let bv := MkBitVector false 1 [5] in let src := MkBitVector true 1 [8] in
  iterate 33 (dvmBitVectorIteratorInit bv) = [0; 2] /\ dvmCountSetBits bv = 2 /\
  exists bv' changed, dvmCheckMergeBitVectors bv src = Some (bv', changed) /\ wf bv' /\
    (forall i, 0 <= i -> bit bv' i = bit bv i || bit src i) /\
    changed = bool_decide (storage bv' <> storage bv).
Proof.
  apply (iterate_and_count (MkBitVector false 1 [5]) (MkBitVector true 1 [8])).
  - split; [reflexivity|]. split; [vm_compute; reflexivity|]. repeat constructor; unfold inU; lia.
  - split; [reflexivity|]. split; [vm_compute; reflexivity|]. repeat constructor; unfold inU; lia.
  - reflexivity.
Defined.
