(* ===== verification/Probing.v ===== *)
(** * Linear probing

    What the hash tables of the Dalvik part share: slots in a circle, a search
    that stops at the first slot that satisfies a test, and the invariant that
    keeps entries reachable from their home slots. *)

From S2P Require Import Prelude.

Section Circle.
Context {E : Type}.
Implicit Types t : list E.

Definition size_of t : Z := Z.of_nat (length t).

(** The slot [k] steps after [start]. *)
Definition at_off t (start k : Z) : option E := t !! Z.to_nat ((start + k) mod size_of t).

(** The first slot from [start] on that satisfies [stop] is [k] steps away. *)
Definition first_stop (stop : E -> bool) t (start k : Z) : Prop :=
  0 <= k < size_of t /\ (exists e, at_off t start k = Some e /\ stop e = true) /\
  forall j, 0 <= j < k -> exists e, at_off t start j = Some e /\ stop e = false.

Lemma at_off_Some t start k : 0 < size_of t -> exists e, at_off t start k = Some e.
Proof.
  intros Hs. unfold at_off. apply lookup_lt_is_Some_2. pose proof (Z.mod_pos_bound (start + k) (size_of t) Hs).
  unfold size_of in *. lia.
Qed.

(** If some slot within the circle stops, there is a first one. *)
Lemma first_stop_exists stop t start k : 0 <= k < size_of t ->
  (exists e, at_off t start k = Some e /\ stop e = true) ->
  exists k', k' <= k /\ first_stop stop t start k'.
Proof.
  intros Hk He.
  assert (H : forall n m, 0 <= m -> m + Z.of_nat n = k ->
    (forall j, 0 <= j < m -> exists e, at_off t start j = Some e /\ stop e = false) ->
    exists k', k' <= k /\ first_stop stop t start k').
  { induction n as [|n IH]; intros m Hm Hmk Hbefore.
    - replace m with k in Hbefore by lia. exists k. split; [lia|]. by split.
    - destruct (at_off_Some t start m) as [e Hat]; [lia|]. destruct (stop e) eqn:Est.
      + exists m. split; [lia|]. split; [lia|]. split; [by exists e|done].
      + apply (IH (m + 1)); [lia|lia|]. intros j Hj.
        destruct (Z.eq_dec j m) as [->|]; [by exists e|]. apply Hbefore. lia. }
  apply (H (Z.to_nat k) 0); [lia|lia|]. lia.
Qed.

(** The slot [i] is met on the way round from [start]. *)
Lemma at_off_index t start i : 0 <= i < size_of t ->
  at_off t start ((i - start) mod size_of t) = t !! Z.to_nat i.
Proof.
  intros Hi. unfold at_off. rewrite Zplus_mod_idemp_r. replace (start + (i - start)) with i by lia.
  by rewrite Z.mod_small.
Qed.

Lemma off_bound t start i : 0 < size_of t -> 0 <= (i - start) mod size_of t < size_of t.
Proof. apply Z.mod_pos_bound. Qed.

(** From any start some slot stops, if one does. *)
Lemma first_stop_any stop t start i e : t !! i = Some e -> stop e = true ->
  exists k, k <= (Z.of_nat i - start) mod size_of t /\ first_stop stop t start k.
Proof.
  intros Hi Hs. pose proof (lookup_lt_Some _ _ _ Hi) as Hlt.
  assert (0 <= Z.of_nat i < size_of t) by (unfold size_of; lia).
  apply first_stop_exists; [apply off_bound; lia|].
  exists e. by rewrite at_off_index, Nat2Z.id.
Qed.

(** *** Ways to write the search *)

Section Search.
Context (stop : E -> bool).

(** A search that moves by [next]. [None] is a search that does not end. *)
Fixpoint probe (next : Z -> Z) (fuel : nat) (idx : Z) t : option Z :=
  match fuel with
  | O => None
  | S fuel =>
      e ← t !! Z.to_nat idx;
      if stop e then Some idx else probe next fuel (next idx) t
  end.

Lemma probe_first next t : (forall i, 0 <= i < size_of t -> next i = (i + 1) mod size_of t) ->
  forall n fuel start, first_stop stop t start (Z.of_nat n) -> (n < fuel)%nat -> 0 <= start < size_of t ->
  probe next fuel start t = Some ((start + Z.of_nat n) mod size_of t).
Proof.
  intros Hnext. induction n as [|n IH]; intros fuel start (Hk & (e & He & Hs) & Hbefore) Hf Hst;
    (destruct fuel as [|fuel]; [lia|]); cbn [probe].
  - unfold at_off in He. rewrite Z.add_0_r, Z.mod_small in He by done. rewrite He. cbn [mbind option_bind].
    rewrite Hs, Z.add_0_r, Z.mod_small by done. done.
  - destruct (Hbefore 0) as (e0 & He0 & Hs0); [lia|].
    unfold at_off in He0. rewrite Z.add_0_r, Z.mod_small in He0 by done. rewrite He0. cbn [mbind option_bind].
    rewrite Hs0, Hnext by done.
    assert (Hoff : forall j, at_off t ((start + 1) mod size_of t) j = at_off t start (j + 1)).
    { intros j. unfold at_off. rewrite Zplus_mod_idemp_l. do 3 f_equal. lia. }
    rewrite IH.
    + rewrite Zplus_mod_idemp_l. do 2 f_equal. lia.
    + split; [lia|]. split.
      * exists e. rewrite Hoff. by replace (Z.of_nat n + 1) with (Z.of_nat (S n)) by lia.
      * intros j Hj. rewrite Hoff. apply Hbefore. lia.
    + lia.
    + apply Z.mod_pos_bound. lia.
Qed.

Lemma probe_ends next t start k fuel : (forall i, 0 <= i < size_of t -> next i = (i + 1) mod size_of t) ->
  first_stop stop t start k -> 0 <= start < size_of t -> size_of t <= Z.of_nat fuel ->
  probe next fuel start t = Some ((start + k) mod size_of t).
Proof.
  intros Hnext Hk Hst Hf. pose proof Hk as ((H1 & H2) & _).
  rewrite <- (Z2Nat.id k) by done. apply probe_first; [done| |lia|done]. by rewrite Z2Nat.id.
Qed.
End Search.

(** *** Counting slots *)

Lemma filter_insert_in (P : E -> bool) t i e0 e : t !! i = Some e0 -> P e0 = false -> P e = true ->
  base.filter (fun x => P x = true) (<[i := e]> t) ≡ₚ e :: base.filter (fun x => P x = true) t.
Proof.
  intros Hi H0 H1. rewrite insert_take_drop by by eapply lookup_lt_Some.
  rewrite <- (take_drop_middle t i e0 Hi) at 3. rewrite !filter_app, !filter_cons.
  rewrite decide_True, decide_False by (done || congruence). by rewrite Permutation_middle.
Qed.

Lemma filter_insert_out (P : E -> bool) t i e0 e : t !! i = Some e0 -> P e0 = true -> P e = false ->
  base.filter (fun x => P x = true) t ≡ₚ e0 :: base.filter (fun x => P x = true) (<[i := e]> t).
Proof.
  intros Hi H0 H1. rewrite insert_take_drop by by eapply lookup_lt_Some.
  rewrite <- (take_drop_middle t i e0 Hi) at 1. rewrite !filter_app, !filter_cons.
  rewrite decide_True, decide_False by (done || congruence). by rewrite Permutation_middle.
Qed.

Lemma filter_none (P : E -> bool) t : (forall i e, t !! i = Some e -> P e = false) ->
  base.filter (fun x => P x = true) t = [].
Proof.
  induction t as [|e t IH]; intros H; [done|]. rewrite filter_cons, decide_False by (rewrite (H 0%nat e); done).
  apply IH. intros i. apply (H (S i)).
Qed.

(** Fewer entries than slots leave an empty slot. *)
Lemma room (P : E -> bool) t : Z.of_nat (length (base.filter (fun x => P x = true) t)) < size_of t ->
  exists i e, t !! i = Some e /\ P e = false.
Proof.
  unfold size_of. induction t as [|e t IH]; [simpl; lia|]. rewrite filter_cons. destruct (P e) eqn:Ee.
  - rewrite decide_True by done. cbn [length]. intros H. destruct IH as (i & x & Hi & Hx); [lia|].
    by exists (S i), x.
  - intros _. by exists 0%nat, e.
Qed.

(** *** Entries that can be found *)

Section Chain.
Context (empty live : E -> bool) (home : E -> Z) (live_not_empty : forall e, live e = true -> empty e = false).

(** Between the home of a live entry and its slot there is no empty slot. *)
Definition chain t : Prop :=
  forall i e, t !! i = Some e -> live e = true ->
    forall j, 0 <= j < (Z.of_nat i - home e) mod size_of t ->
      exists e', at_off t (home e) j = Some e' /\ empty e' = false.

Lemma size_of_insert t i e : size_of (<[i := e]> t) = size_of t.
Proof. unfold size_of. by rewrite length_insert. Qed.

Lemma chain_insert t i e0 e : chain t -> t !! i = Some e0 -> empty e = false ->
  (live e = true -> forall j, 0 <= j < (Z.of_nat i - home e) mod size_of t ->
    exists e', at_off t (home e) j = Some e' /\ empty e' = false) ->
  chain (<[i := e]> t).
Proof using.
  intros Hch Hi Hne Hnew. pose proof (lookup_lt_Some _ _ _ Hi) as Hlt.
  assert (Hat : forall start j e', at_off t start j = Some e' -> empty e' = false ->
    exists e'', at_off (<[i := e]> t) start j = Some e'' /\ empty e'' = false).
  { intros start j e' He' Hemp. unfold at_off in *. rewrite size_of_insert.
    destruct (decide (i = Z.to_nat ((start + j) mod size_of t))) as [<-|Hne'].
    - exists e. by rewrite list_lookup_insert_eq.
    - exists e'. by rewrite list_lookup_insert_ne. }
  intros k x Hk Hx j Hj. rewrite size_of_insert in Hj.
  destruct (decide (i = k)) as [<-|Hik].
  - rewrite list_lookup_insert_eq in Hk by done. injection Hk as <-.
    destruct (Hnew Hx j Hj) as (e' & H1 & H2). by eapply Hat.
  - rewrite list_lookup_insert_ne in Hk by done.
    destruct (Hch k x Hk Hx j Hj) as (e' & H1 & H2). by eapply Hat.
Qed.

Lemma chain_empty t : (forall i e, t !! i = Some e -> live e = false) -> chain t.
Proof using. intros H i e Hi Hl. rewrite (H i e Hi) in Hl. done. Qed.

(** Entries that change without becoming empty or live. *)
Lemma chain_weaken t t' : chain t -> length t' = length t ->
  (forall i e e', t !! i = Some e -> t' !! i = Some e' ->
    (empty e = false -> empty e' = false) /\ (live e' = true -> e' = e)) ->
  chain t'.
Proof using.
  intros Hch Hlen Hrel i x Hi Hx j Hj.
  assert (Hs : size_of t' = size_of t) by (unfold size_of; by rewrite Hlen). rewrite Hs in Hj.
  destruct (lookup_lt_is_Some_2 t i) as [e He]; [rewrite <- Hlen; by eapply lookup_lt_Some|].
  destruct (Hrel i e x He Hi) as [_ H2]. specialize (H2 Hx). subst x.
  destruct (Hch i e He Hx j Hj) as (y & Hy & Hye). unfold at_off in *. rewrite Hs.
  destruct (lookup_lt_is_Some_2 t' (Z.to_nat ((home e + j) mod size_of t))) as [y' Hy'];
    [rewrite Hlen; by eapply lookup_lt_Some|].
  exists y'. split; [done|]. by apply (Hrel _ y y' Hy Hy').
Qed.

(** A search that stops at empty slots and matching entries finds the entry it
    looks for, or one that matches before it. *)
Lemma chain_finds (found : E -> bool) t start i e k : chain t -> t !! i = Some e -> live e = true ->
  home e = start -> found e = true ->
  first_stop (fun e => empty e || found e) t start k ->
  exists e', at_off t start k = Some e' /\ empty e' = false /\ found e' = true.
Proof using live_not_empty.
  intros Hch Hi Hl <- Hf (Hk & (e' & He' & Hs) & Hbefore). exists e'. split; [done|].
  pose proof (lookup_lt_Some _ _ _ Hi) as Hlt.
  assert (Hb : 0 <= Z.of_nat i < size_of t) by (unfold size_of; lia).
  assert (Hkd : k <= (Z.of_nat i - home e) mod size_of t).
  { destruct (Z.le_gt_cases k ((Z.of_nat i - home e) mod size_of t)) as [|Hgt]; [done|]. exfalso.
    destruct (Hbefore ((Z.of_nat i - home e) mod size_of t)) as (x & Hx & Hxs).
    { pose proof (off_bound t (home e) (Z.of_nat i)). lia. }
    rewrite at_off_index, Nat2Z.id, Hi in Hx by done. injection Hx as <-.
    rewrite Hf, orb_true_r in Hxs. done. }
  assert (He : empty e' = false).
  { destruct (Z.eq_dec k ((Z.of_nat i - home e) mod size_of t)) as [Ek|].
    - rewrite Ek, at_off_index, Nat2Z.id, Hi in He' by done. injection He' as <-. by apply live_not_empty.
    - destruct (Hch i e Hi Hl k) as (x & Hx & Hxe); [lia|]. rewrite He' in Hx. by injection Hx as <-. }
  split; [done|]. by rewrite He in Hs.
Qed.

(** Putting an entry into the first empty slot from its home. *)
Lemma place_ok t e k : chain t -> first_stop empty t (home e) k -> live e = true ->
  let i := Z.to_nat ((home e + k) mod size_of t) in
  chain (<[i := e]> t) /\
  base.filter (fun x => live x = true) (<[i := e]> t) ≡ₚ e :: base.filter (fun x => live x = true) t.
Proof using live_not_empty.
  intros Hch (Hk & (e0 & He0 & Hemp) & Hbefore) Hl i. unfold at_off in He0. fold i in He0.
  assert (Hi : Z.of_nat i = (home e + k) mod size_of t)
    by (subst i; rewrite Z2Nat.id; [done|apply Z.mod_pos_bound; lia]).
  split.
  - eapply chain_insert; [done|done|by apply live_not_empty|]. intros _ j Hj. rewrite Hi, Zminus_mod_idemp_l in Hj.
    replace (home e + k - home e) with k in Hj by lia. rewrite Z.mod_small in Hj by done.
    destruct (Hbefore j Hj) as (x & Hx & Hxe). by exists x.
  - apply (filter_insert_in live _ i e0); [done| |done].
    destruct (live e0) eqn:Hl0; [|done]. apply live_not_empty in Hl0. congruence.
Qed.
End Chain.

End Circle.

(** Steps round a circle whose size is a power of two, as masks. *)
Lemma mask_mod n h : 0 <= n -> Z.land h (2 ^ n - 1) = h mod 2 ^ n.
Proof. intros Hn. rewrite <- Z.land_ones by done. f_equal. rewrite Z.ones_equiv. lia. Qed.
