(* ===== verification/DexFile.v ===== *)
(** * Dex files: [dalvik/libdex/DexFile.cpp]

    Primitive types, the text of a digest, the power of two above a number, and
    the table that finds classes by their descriptors. The mapped file is given by
    the strings at its offsets. *)

From S2P Require Import Prelude Bits CString Probing.

(** ** Primitive types *)

Inductive PrimitiveType :=
| PRIM_NOT | PRIM_VOID | PRIM_BOOLEAN | PRIM_BYTE | PRIM_SHORT | PRIM_CHAR
| PRIM_INT | PRIM_LONG | PRIM_FLOAT | PRIM_DOUBLE.

#[export] Instance PrimitiveType_eq_dec : EqDecision PrimitiveType.
Proof. solve_decision. Defined.

Definition dexGetPrimitiveTypeDescriptor (type : PrimitiveType) : option (list Z) :=
  match type with
  | PRIM_VOID => Some (bytes_of "V")
  | PRIM_BOOLEAN => Some (bytes_of "Z")
  | PRIM_BYTE => Some (bytes_of "B")
  | PRIM_SHORT => Some (bytes_of "S")
  | PRIM_CHAR => Some (bytes_of "C")
  | PRIM_INT => Some (bytes_of "I")
  | PRIM_LONG => Some (bytes_of "J")
  | PRIM_FLOAT => Some (bytes_of "F")
  | PRIM_DOUBLE => Some (bytes_of "D")
  | PRIM_NOT => None
  end.

Definition dexGetPrimitiveTypeDescriptorChar (type : PrimitiveType) : Z :=
  match dexGetPrimitiveTypeDescriptor type with
  | None => 0
  | Some string => nth 0 string 0
  end.

Definition dexGetBoxedTypeDescriptor (type : PrimitiveType) : option (list Z) :=
  match type with
  | PRIM_BOOLEAN => Some (bytes_of "Ljava/lang/Boolean;")
  | PRIM_BYTE => Some (bytes_of "Ljava/lang/Byte;")
  | PRIM_SHORT => Some (bytes_of "Ljava/lang/Short;")
  | PRIM_CHAR => Some (bytes_of "Ljava/lang/Character;")
  | PRIM_INT => Some (bytes_of "Ljava/lang/Integer;")
  | PRIM_LONG => Some (bytes_of "Ljava/lang/Long;")
  | PRIM_FLOAT => Some (bytes_of "Ljava/lang/Float;")
  | PRIM_DOUBLE => Some (bytes_of "Ljava/lang/Double;")
  | PRIM_VOID | PRIM_NOT => None
  end.

Definition dexGetPrimitiveTypeFromDescriptorChar (c : Z) : PrimitiveType :=
  if c =? 86 then PRIM_VOID else if c =? 90 then PRIM_BOOLEAN else if c =? 66 then PRIM_BYTE
  else if c =? 83 then PRIM_SHORT else if c =? 67 then PRIM_CHAR else if c =? 73 then PRIM_INT
  else if c =? 74 then PRIM_LONG else if c =? 70 then PRIM_FLOAT else if c =? 68 then PRIM_DOUBLE
  else PRIM_NOT.

(** ** Digests *)

Definition hexDigit (d : Z) : Z := nth (Z.to_nat d) (bytes_of "0123456789abcdef") 0.

Definition dexSHA1DigestToStr (digest : list Z) : list Z :=
  flat_map (fun d => [hexDigit (Z.shiftr d 4); hexDigit (Z.land d 0x0f)]) digest ++ [0].

(** ** The power of two *)

Definition dexRoundUpPower2 (val : Z) : Z :=
  let val := u32 (val - 1) in
  let val := Z.lor val (Z.shiftr val 1) in
  let val := Z.lor val (Z.shiftr val 2) in
  let val := Z.lor val (Z.shiftr val 4) in
  let val := Z.lor val (Z.shiftr val 8) in
  let val := Z.lor val (Z.shiftr val 16) in
  u32 (val + 1).

(** ** The class table *)

(** An entry of the table: the hash of the descriptor, its offset and that of the
    class definition. *)
Record lookup_entry := LookupEntry {
  classDescriptorHash_ : Z;
  classDescriptorOffset : Z;
  classDefOffset : Z;
}.

Section ClassTable.
(** The descriptor at an offset of the file, and the value of a [char], whose sign
    differs between the targets. *)
Context (string_at : Z -> list Z) (char_value : Z -> Z).

Definition classDescriptorHash (str : list Z) : Z :=
  fold_left (fun hash c => u32 (hash * 31 + char_value c)) str 1.

Definition is_free (e : lookup_entry) : bool := classDescriptorOffset e =? 0.

Definition next_slot (mask idx : Z) : Z := Z.land (idx + 1) mask.

(** The search for the first empty slot has one turn per slot at most. *)
Definition classLookupAdd (table : list lookup_entry) (stringOff classDefOff : Z)
    : option (list lookup_entry) :=
  let classDescriptor := string_at stringOff in
  let hash := classDescriptorHash classDescriptor in
  let mask := Z.of_nat (length table) - 1 in
  let idx := Z.land hash mask in
  idx ← probe is_free (next_slot mask) (length table) idx table;
  Some (<[Z.to_nat idx := LookupEntry hash stringOff classDefOff]> table).

(** [offsetof(DexClassLookup, table)] and the size of an entry. *)
Definition offsetof_table : Z := 8.
Definition sizeof_entry : Z := 12.

(** The class definitions, each with the offsets of its descriptor and of itself. The size
    of the table is computed in 32 bits: [None] when it wraps, and the memory that is
    allocated does not hold the table. *)
Definition dexCreateClassLookup (classes : list (Z * Z)) : option (list lookup_entry) :=
  let numEntries := s32 (dexRoundUpPower2 (u32 (Z.of_nat (length classes) * 2))) in
  let allocSize := s32 (u32 (offsetof_table + u32 (u32 numEntries * sizeof_entry))) in
  if (0 <=? numEntries) && (offsetof_table + numEntries * sizeof_entry <=? u32 allocSize) then
    let table := repeat (LookupEntry 0 0 0) (Z.to_nat numEntries) in
    fold_left (fun t c => table ← t; classLookupAdd table c.1 c.2) classes (Some table)
  else None.

(** The [while (true)]: outer [None] is a search that does not end, inner [None]
    the [NULL] that is returned. *)
Fixpoint find_loop (fuel : nat) (hash : Z) (descriptor : list Z) (mask idx : Z)
    (table : list lookup_entry) : option (option Z) :=
  match fuel with
  | O => None
  | S fuel =>
      e ← table !! Z.to_nat idx;
      let offset := classDescriptorOffset e in
      if offset =? 0 then Some None
      else if (classDescriptorHash_ e =? hash) && bool_decide (string_at offset = descriptor)
      then Some (Some (classDefOffset e))
      else find_loop fuel hash descriptor mask (Z.land (idx + 1) mask) table
  end.

Definition dexFindClass (table : list lookup_entry) (descriptor : list Z) : option (option Z) :=
  let hash := classDescriptorHash descriptor in
  let mask := Z.of_nat (length table) - 1 in
  find_loop (length table) hash descriptor mask (Z.land hash mask) table.

End ClassTable.

(** ** Lemmas *)

(** [w] has the bits of [v] smeared over the [k] places to the right. *)
Definition smeared (v w k : Z) : Prop :=
  0 <= w /\ forall i, 0 <= i -> (Z.testbit w i = true <-> exists j, 0 <= j < k /\ Z.testbit v (i + j) = true).

Lemma smear_step v w k : 0 < k -> smeared v w k -> smeared v (Z.lor w (Z.shiftr w k)) (k + k).
Proof.
  intros Hk [Hw H]. split; [apply Z.lor_nonneg; split; [done|by apply Z.shiftr_nonneg]|].
  intros i Hi. rewrite Z.lor_spec, Z.shiftr_spec, orb_true_iff, !H by lia. split.
  - intros [(j & Hj & E)|(j & Hj & E)]; [exists j; split; [lia|done]|].
    exists (k + j). split; [lia|]. by rewrite Z.add_assoc.
  - intros (j & Hj & E). destruct (Z.lt_ge_cases j k); [left; exists j; split; [lia|done]|].
    right. exists (j - k). split; [lia|]. by replace (i + k + (j - k)) with (i + j) by lia.
Qed.

Lemma smear_all v : 0 < v < 2 ^ 32 -> forall w, smeared v w 32 -> w = Z.ones (Z.log2 v + 1).
Proof.
  intros Hv w [Hw H]. pose proof (Z.log2_nonneg v). assert (Z.log2 v < 32) by (apply Z.log2_lt_pow2; lia).
  apply Z.bits_inj'. intros i Hi. destruct (Z.lt_ge_cases i (Z.log2 v + 1)) as [Hlt|Hge].
  - rewrite Z.ones_spec_low by lia. apply H; [done|]. exists (Z.log2 v - i). split; [lia|].
    replace (i + (Z.log2 v - i)) with (Z.log2 v) by lia. apply Z.bit_log2. lia.
  - rewrite Z.ones_spec_high by lia. apply not_true_iff_false. rewrite H by done.
    intros (j & Hj & E). rewrite Z.bits_above_log2 in E by lia. done.
Qed.

Lemma round_up_spec val : 0 < val <= 2 ^ 31 ->
  exists n, 0 <= n <= 31 /\ dexRoundUpPower2 val = 2 ^ n /\ val <= 2 ^ n /\ (1 < val -> 2 ^ n < 2 * val).
Proof.
  intros Hv. unfold dexRoundUpPower2. rewrite (wrapU_id 32 (val - 1)) by (unfold inU; lia).
  destruct (Z.eq_dec val 1) as [->|Hne]; [by exists 0|].
  set (v := val - 1). assert (H0 : 0 < v < 2 ^ 31) by lia.
  assert (S1 : smeared v v 1).
  { split; [lia|]. intros i Hi. split; [intros E; exists 0; rewrite Z.add_0_r; split; [lia|done]|].
    intros (j & Hj & E). replace (i + j) with i in E by lia. done. }
  apply smear_step in S1; [|lia]. apply smear_step in S1; [|lia]. apply smear_step in S1; [|lia].
  apply smear_step in S1; [|lia]. apply smear_step in S1; [|lia].
  apply (smear_all v) in S1; [|lia]. cbn [Z.add Pos.add] in S1.
  change (1 + 1) with 2 in S1. change (2 + 2) with 4 in S1. change (4 + 4) with 8 in S1. change (8 + 8) with 16 in S1.
  rewrite S1. pose proof (Z.log2_nonneg v) as Hl. assert (Hl2 : Z.log2 v < 31) by (apply Z.log2_lt_pow2; lia).
  rewrite Z.ones_equiv. pose proof (Z.log2_spec v ltac:(lia)) as [Hlo Hhi].
  replace (Z.succ (Z.log2 v)) with (Z.log2 v + 1) in Hhi by lia.
  assert (2 ^ (Z.log2 v + 1) <= 2 ^ 31) by (apply Z.pow_le_mono_r; lia).
  exists (Z.log2 v + 1). split; [lia|]. rewrite wrapU_id by (unfold inU; lia). split; [lia|]. split; [lia|].
  intros _. rewrite Z.pow_add_r in * by lia. lia.
Qed.

(** *** The class table *)

Definition in_use (e : lookup_entry) : bool := negb (is_free e).

Lemma in_use_not_free e : in_use e = true -> is_free e = false.
Proof. unfold in_use. by destruct (is_free e). Qed.

Section TableLemmas.
Context (string_at : Z -> list Z) (char_value : Z -> Z).
Context (n : Z) (Hn : 0 <= n).

Abbreviation hash_of := (classDescriptorHash char_value).

Definition home (e : lookup_entry) : Z := classDescriptorHash_ e mod 2 ^ n.

(** The entry of a class. *)
Definition entry_of (c : Z * Z) : lookup_entry := LookupEntry (hash_of (string_at c.1)) c.1 c.2.

Definition table_ok (table : list lookup_entry) (classes : list (Z * Z)) : Prop :=
  size_of table = 2 ^ n /\ chain is_free in_use home table /\
  base.filter (fun e => in_use e = true) table ≡ₚ entry_of <$> classes.

Lemma next_slot_mod (table : list lookup_entry) : size_of table = 2 ^ n ->
  forall i, 0 <= i < size_of table -> next_slot (Z.of_nat (length table) - 1) i = (i + 1) mod size_of table.
Proof using Hn. intros Hs i Hi. unfold next_slot. fold (size_of table). by rewrite Hs, mask_mod. Qed.

Lemma add_ok table classes c : table_ok table classes -> Z.of_nat (length classes) < 2 ^ n -> c.1 <> 0 ->
  exists table', classLookupAdd string_at char_value table c.1 c.2 = Some table' /\
    table_ok table' (classes ++ [c]).
Proof using Hn.
  intros (Hs & Hch & Hperm) Hlen Hc. unfold classLookupAdd. set (e := entry_of c).
  assert (Hhome : Z.land (hash_of (string_at c.1)) (Z.of_nat (length table) - 1) = home e).
  { fold (size_of table). rewrite Hs, mask_mod by done. done. }
  rewrite Hhome. pose proof (Z.pow_pos_nonneg 2 n ltac:(lia) Hn) as Hpos.
  assert (Hhb : 0 <= home e < size_of table) by (rewrite Hs; apply Z.mod_pos_bound; done).
  destruct (room in_use table) as (i & e0 & Hi & Hfree).
  { rewrite Hperm, length_fmap, Hs. done. }
  destruct (first_stop_any is_free table (home e) i e0) as (k & _ & Hk); [done| |].
  { unfold in_use in Hfree. by apply negb_false_iff in Hfree. }
  rewrite (probe_ends is_free _ table (home e) k); [|by apply next_slot_mod|done|done|unfold size_of; lia].
  cbn [mbind option_bind]. eexists. split; [done|].
  assert (Hel : in_use e = true) by (unfold in_use, is_free; cbn; by rewrite (proj2 (Z.eqb_neq _ _) Hc)).
  destruct (place_ok is_free in_use home in_use_not_free table e k Hch Hk Hel) as [Hch' Hperm'].
  split; [by rewrite size_of_insert|]. split; [done|].
  rewrite fmap_app. cbn [fmap list_fmap]. rewrite <- Permutation_cons_append. fold e.
  etrans; [apply Hperm'|]. by f_equiv.
Qed.

Lemma create_ok rest : forall table classes, table_ok table classes ->
  Z.of_nat (length (classes ++ rest)) <= 2 ^ n -> Forall (fun c => c.1 <> 0) rest ->
  exists table', fold_left (fun t c => table ← t; classLookupAdd string_at char_value table c.1 c.2) rest (Some table)
    = Some table' /\ table_ok table' (classes ++ rest).
Proof using Hn.
  induction rest as [|c rest IH]; intros table classes Hok Hlen Hne; cbn [fold_left].
  - exists table. rewrite app_nil_r. done.
  - apply Forall_cons_1 in Hne as [Hc Hne]. rewrite length_app in Hlen. cbn [length] in Hlen.
    destruct (add_ok table classes c Hok) as (t1 & E & Hok1); [lia|done|]. cbn [mbind option_bind]. rewrite E.
    destruct (IH t1 (classes ++ [c]) Hok1) as (t' & E' & Hok'); [rewrite !length_app; simpl; lia|done|].
    exists t'. split; [done|]. by rewrite <- app_assoc in Hok'.
Qed.

(** The loop of [dexFindClass] as a search. *)
Definition matches (descriptor : list Z) (e : lookup_entry) : bool :=
  (classDescriptorHash_ e =? hash_of descriptor) && bool_decide (string_at (classDescriptorOffset e) = descriptor).

Lemma find_loop_probe descriptor mask table : forall fuel idx,
  find_loop string_at fuel (hash_of descriptor) descriptor mask idx table =
    (i ← probe (fun e => is_free e || matches descriptor e) (next_slot mask) fuel idx table;
     e ← table !! Z.to_nat i;
     Some (if is_free e then None else Some (classDefOffset e))).
Proof using.
  induction fuel as [|fuel IH]; intros idx; [done|]. cbn [find_loop probe].
  destruct (table !! Z.to_nat idx) as [e|] eqn:E; [|done]. cbn [mbind option_bind].
  change (classDescriptorOffset e =? 0) with (is_free e). destruct (is_free e) eqn:Ef; cbn [orb].
  - cbn [mbind option_bind]. rewrite E. cbn [mbind option_bind]. by rewrite Ef.
  - unfold matches at 1. destruct (_ && _); [|apply IH]. cbn [mbind option_bind]. rewrite E. cbn [mbind option_bind]. by rewrite Ef.
Qed.

(** Two classes with one descriptor are one class. *)
Definition distinct (classes : list (Z * Z)) : Prop :=
  forall c1 c2, c1 ∈ classes -> c2 ∈ classes -> string_at c1.1 = string_at c2.1 -> c1 = c2.

Lemma find_ok table classes descriptor : table_ok table classes -> Z.of_nat (length classes) < 2 ^ n ->
  distinct classes ->
  dexFindClass string_at char_value table descriptor =
    Some (match base.filter (fun c => string_at c.1 = descriptor) classes with c :: _ => Some c.2 | [] => None end).
Proof using Hn.
  intros (Hs & Hch & Hperm) Hlen Hdist. unfold dexFindClass. rewrite find_loop_probe.
  set (start := Z.land (hash_of descriptor) (Z.of_nat (length table) - 1)).
  assert (Hstart : start = hash_of descriptor mod 2 ^ n).
  { unfold start. fold (size_of table). by rewrite Hs, mask_mod. }
  pose proof (Z.pow_pos_nonneg 2 n ltac:(lia) Hn) as Hpos.
  assert (Hhb : 0 <= start < size_of table) by (rewrite Hs, Hstart; apply Z.mod_pos_bound; done).
  set (stop := fun e => is_free e || matches descriptor e).
  destruct (room in_use table) as (i0 & e0 & Hi0 & Hfree); [rewrite Hperm, length_fmap, Hs; done|].
  destruct (first_stop_any stop table start i0 e0) as (k & _ & Hk); [done| |].
  { unfold in_use in Hfree. apply negb_false_iff in Hfree. unfold stop. by rewrite Hfree. }
  rewrite (probe_ends stop _ table start k); [|by apply next_slot_mod|done|done|unfold size_of; lia].
  cbn [mbind option_bind]. pose proof Hk as (Hkb & (e & He & Hes) & Hbefore).
  unfold at_off in He. rewrite He. cbn [mbind option_bind]. f_equal.
  assert (Hin : forall x, x ∈ base.filter (fun e => in_use e = true) table <-> x ∈ entry_of <$> classes)
    by (intros x; by rewrite Hperm).
  destruct (is_free e) eqn:Ef.
  - (* an empty slot: no class of that name *)
    destruct (base.filter (fun c => string_at c.1 = descriptor) classes) as [|c l] eqn:Ec; [done|]. exfalso.
    assert (Hc : string_at c.1 = descriptor /\ c ∈ classes).
    { apply (list_elem_of_filter (fun c => string_at c.1 = descriptor)). rewrite Ec. by left. }
    destruct Hc as [Hcd Hcin].
    assert (Hec : entry_of c ∈ base.filter (fun e => in_use e = true) table)
      by (apply Hin, list_elem_of_fmap_2; done).
    apply list_elem_of_filter in Hec as [Hlive Hec]. apply list_elem_of_lookup in Hec as (i & Hi).
    destruct (chain_finds is_free in_use home in_use_not_free (matches descriptor) table start i (entry_of c) k)
      as (e' & He' & Hf' & _); [exact Hch|exact Hi|exact Hlive| | |exact Hk|].
    + rewrite Hstart. unfold home, entry_of. cbn. by rewrite Hcd.
    + unfold matches, entry_of. cbn. rewrite Hcd, Z.eqb_refl, bool_decide_eq_true_2 by done. done.
    + unfold at_off in He'. congruence.
  - assert (Hm : matches descriptor e = true) by (unfold stop in Hes; by rewrite Ef in Hes).
    assert (He2 : e ∈ base.filter (fun e => in_use e = true) table).
    { apply list_elem_of_filter. split; [unfold in_use; by rewrite Ef|]. by eapply list_elem_of_lookup_2. }
    apply Hin, list_elem_of_fmap in He2 as (c & -> & Hc).
    unfold matches in Hm. apply andb_true_iff in Hm as [_ Hm]. apply bool_decide_eq_true in Hm. cbn in Hm |- *.
    destruct (base.filter (fun c => string_at c.1 = descriptor) classes) as [|c' l] eqn:Ec.
    + exfalso. assert (Hx : c ∈ base.filter (fun c => string_at c.1 = descriptor) classes)
        by (by apply list_elem_of_filter). rewrite Ec in Hx. by apply not_elem_of_nil in Hx.
    + assert (Hc' : string_at c'.1 = descriptor /\ c' ∈ classes).
      { apply (list_elem_of_filter (fun c => string_at c.1 = descriptor)). rewrite Ec. by left. }
      destruct Hc' as [Hd' Hin']. rewrite (Hdist c c' Hc Hin'); [done|]. by rewrite Hd'.
Qed.

End TableLemmas.

(** ** Properties *)

(** C37. The class table answers for exactly the classes of the file: for up to
    2^27 classes with different descriptors, whatever their hashes, the table is
    built (its size does not wrap, and every insertion finds an empty slot) and every search ends, with the
    class definition of that descriptor, or [NULL] when there is none. *)
Theorem class_table_complete string_at char_value classes descriptor :
  0 < Z.of_nat (length classes) <= 2 ^ 27 -> Forall (fun c => c.1 <> 0) classes ->
  distinct string_at classes ->
  exists table, dexCreateClassLookup string_at char_value classes = Some table /\
    dexFindClass string_at char_value table descriptor =
      Some (match base.filter (fun c => string_at c.1 = descriptor) classes with c :: _ => Some c.2 | [] => None end).
Proof.
  intros Hlen Hne Hdist. unfold dexCreateClassLookup. rewrite wrapU_id by (unfold inU; lia).
  destruct (round_up_spec (Z.of_nat (length classes) * 2)) as (n & Hn & -> & Hge & Hlt); [lia|].
  assert (Hsize : 2 ^ n <= 2 ^ 28).
  { apply Z.pow_le_mono_r; [lia|]. assert (n < 29); [|lia]. apply (Z.pow_lt_mono_r_iff 2); lia. }
  pose proof (Z.pow_pos_nonneg 2 n ltac:(lia) ltac:(lia)) as Hpos. unfold offsetof_table, sizeof_entry.
  rewrite (wrapS_id 32 ltac:(lia) (2 ^ n)), (wrapU_id 32 (2 ^ n)), (wrapU_id 32 (2 ^ n * 12)) by (unfold inU, inS; lia).
  rewrite wrapU_wrapS, !(wrapU_id 32 (8 + 2 ^ n * 12)) by (unfold inU; lia).
  rewrite (proj2 (Z.leb_le 0 (2 ^ n))), Z.leb_refl by lia. cbn [andb].
  set (table0 := repeat _ _).
  assert (Hfree0 : forall i e, table0 !! i = Some e -> in_use e = false).
  { intros i e Hi. apply list_elem_of_lookup_2, list_elem_of_In, repeat_spec in Hi. by rewrite Hi. }
  assert (Hok0 : table_ok string_at char_value n table0 []).
  { split; [|split].
    - unfold size_of, table0. rewrite repeat_length, Z2Nat.id; [done|]. apply Z.pow_nonneg. lia.
    - by apply chain_empty.
    - by rewrite filter_none. }
  destruct (create_ok string_at char_value n ltac:(lia) classes table0 []) as (table & -> & Hok);
    [done|simpl; lia|done|].
  exists table. split; [done|]. apply (find_ok string_at char_value n ltac:(lia) table classes descriptor Hok); [lia|done].
Qed.

(** Two classes; the second is looked up. *)
Definition two_strings (off : Z) : list Z := if off =? 100 then bytes_of "LA;" else bytes_of "LB;".

Lemma class_table_complete_witness :
  exists table, dexCreateClassLookup two_strings id [(100, 1); (200, 2)] = Some table /\
    dexFindClass two_strings id table (bytes_of "LB;") = Some (Some 2).
Proof.
  destruct (class_table_complete two_strings id [(100, 1); (200, 2)] (bytes_of "LB;")) as (table & H1 & H2).
  - simpl. lia.
  - repeat constructor; discriminate.
  - intros c1 c2 H1 H2. rewrite !elem_of_cons in H1, H2.
    destruct H1 as [->|[->|H1]]; destruct H2 as [->|[->|H2]];
      try (by apply not_elem_of_nil in H1); try (by apply not_elem_of_nil in H2); intros H; done.
  - exists table. split; [exact H1|exact H2].
Defined.

(** With 2^28 + 1 classes the size wraps: no memory for 2^30 entries. *)
Example class_table_wraps : dexRoundUpPower2 (u32 ((2 ^ 28 + 1) * 2)) = 2 ^ 30 /\ u32 (offsetof_table + u32 (2 ^ 30 * sizeof_entry)) = 8.
Proof. by vm_compute. Qed.

Lemma primitive_roundtrip type : type <> PRIM_NOT ->
  dexGetPrimitiveTypeFromDescriptorChar (dexGetPrimitiveTypeDescriptorChar type) = type.
Proof. by destruct type. Qed.

Lemma digest_text_length digest : length (dexSHA1DigestToStr digest) = (2 * length digest + 1)%nat.
Proof. unfold dexSHA1DigestToStr. rewrite length_app. induction digest; simpl in *; lia. Qed.
