(* ===== verification/Hash.v ===== *)
(** * Hash tables: [dalvik/vm/Hash.cpp] and [Hash.h]

    Open addressing with linear probing and tombstones. Items are pointers; the
    compare function is a parameter. Outer [None] is a search that does not end, a
    slot outside the table or an [int] that overflows. *)

From S2P Require Import Prelude Bits Probing DexFile.

(** ** Data *)

Record HashEntry := MkEntry { hashValue : Z; data : Z }.

Record HashTable := MkTable {
  tableSize : Z;
  numEntries : Z;
  numDeadEntries : Z;
  pEntries : list HashEntry;
}.

Definition HASH_TOMBSTONE : Z := 0xcbcacccd.

Definition LOAD_NUMER : Z := 5.
Definition LOAD_DENOM : Z := 8.

(** ** Operations *)

(** [size_t] has 32 bits. *)
Definition dvmHashSize (size : Z) : Z := u32 (u32 (size * LOAD_DENOM) / LOAD_NUMER + 1).

Definition no_entry : HashEntry := MkEntry 0 0.

Definition dvmHashTableCreate (initialSize : Z) : HashTable :=
  let tableSize := dexRoundUpPower2 initialSize in
  MkTable tableSize 0 0 (repeat no_entry (Z.to_nat tableSize)).

Definition is_null (e : HashEntry) : bool := data e =? 0.

(** [data != NULL && data != HASH_TOMBSTONE]. *)
Definition is_live (e : HashEntry) : bool := negb (data e =? 0) && negb (data e =? HASH_TOMBSTONE).

(** What is freed, in order, and the cleared table. *)
Definition dvmHashTableClear (t : HashTable) : list Z * HashTable :=
  (data <$> base.filter (fun e => is_live e = true) (pEntries t),
   MkTable (tableSize t) 0 0 ((fun e => MkEntry (hashValue e) 0) <$> pEntries t)).

Definition countTombStones (t : HashTable) : Z :=
  Z.of_nat (length (base.filter (fun e => data e = HASH_TOMBSTONE) (pEntries t))).

(** The body of the [for] of [resizeHash]: one old entry put into the new slots. *)
Definition reinsert (newSize : Z) (new : list HashEntry) (e : HashEntry) : option (list HashEntry) :=
  if is_live e then
    newIdx ← probe is_null (fun i => Z.land (i + 1) (newSize - 1)) (length new)
      (Z.land (hashValue e) (newSize - 1)) new;
    Some (<[Z.to_nat newIdx := e]> new)
  else Some new.

Definition resizeHash (t : HashTable) (newSize : Z) : option HashTable :=
  pNewEntries ← fold_left (fun new e => new ← new; reinsert newSize new e) (pEntries t)
    (Some (repeat no_entry (Z.to_nat newSize)));
  Some (MkTable newSize (numEntries t) 0 pNewEntries).

(** The [while (pEntry->data != NULL)] with its [break]s: the index it ends at,
    which is the end of the table in the edge case of a single entry. *)
Fixpoint probe_entries (found : HashEntry -> bool) (fuel : nat) (idx : Z) (t : HashTable) : option Z :=
  match fuel with
  | O => None
  | S fuel =>
      e ← pEntries t !! Z.to_nat idx;
      if is_null e then Some idx
      else if found e then Some idx
      else
        let idx := idx + 1 in
        if idx =? tableSize t then
          if tableSize t =? 1 then Some idx else probe_entries found fuel 0 t
        else probe_entries found fuel idx t
  end.

Definition first_index (itemHash : Z) (t : HashTable) : Z := Z.land itemHash (tableSize t - 1).

Section Items.
Context (cmpFunc : Z -> Z -> Z).

(** The test of the probing loop of [dvmHashTableLookup]. *)
Definition is_match (itemHash item : Z) (e : HashEntry) : bool :=
  negb (data e =? HASH_TOMBSTONE) && (hashValue e =? itemHash) && (cmpFunc (data e) item =? 0).

Definition dvmHashTableLookup (t : HashTable) (itemHash item : Z) (doAdd : bool)
    : option (HashTable * Z) :=
  idx ← probe_entries (is_match itemHash item) (length (pEntries t)) (first_index itemHash t) t;
  e ← pEntries t !! Z.to_nat idx;
  if is_null e then
    if doAdd then
      let t := MkTable (tableSize t) (numEntries t + 1) (numDeadEntries t)
        (<[Z.to_nat idx := MkEntry itemHash item]> (pEntries t)) in
      full ← chkS 32 ((numEntries t + numDeadEntries t) * LOAD_DENOM);
      limit ← chkS 32 (tableSize t * LOAD_NUMER);
      t ← (if full >? limit then
             newSize ← chkS 32 (tableSize t * 2);
             resizeHash t newSize
           else Some t);
      Some (t, item)
    else Some (t, 0)
  else Some (t, data e).

Definition dvmHashTableRemove (t : HashTable) (itemHash item : Z) : option (HashTable * bool) :=
  idx ← probe_entries (fun e => data e =? item) (length (pEntries t)) (first_index itemHash t) t;
  if idx =? tableSize t then Some (t, false)
  else
    e ← pEntries t !! Z.to_nat idx;
    if is_null e then Some (t, false)
    else Some (MkTable (tableSize t) (numEntries t - 1) (numDeadEntries t + 1)
                 (<[Z.to_nat idx := MkEntry (hashValue e) HASH_TOMBSTONE]> (pEntries t)), true).

(** The [for] of [dvmHashForeachRemove]: the entries afterwards, how many died, and
    the result. *)
Fixpoint foreach_remove (func : Z -> Z) (es : list HashEntry) : list HashEntry * Z * Z :=
  match es with
  | [] => ([], 0, 0)
  | e :: es =>
      if is_live e then
        let val := func (data e) in
        if val =? 1 then
          let '(es, dead, r) := foreach_remove func es in
          (MkEntry (hashValue e) HASH_TOMBSTONE :: es, dead + 1, r)
        else if negb (val =? 0) then (e :: es, 0, val)
        else let '(es, dead, r) := foreach_remove func es in (e :: es, dead, r)
      else let '(es, dead, r) := foreach_remove func es in (e :: es, dead, r)
  end.

Definition dvmHashForeachRemove (t : HashTable) (func : Z -> Z) : HashTable * Z :=
  let '(es, dead, r) := foreach_remove func (pEntries t) in
  (MkTable (tableSize t) (numEntries t - dead) (numDeadEntries t + dead) es, r).

Fixpoint foreach (func : Z -> Z) (es : list HashEntry) : Z :=
  match es with
  | [] => 0
  | e :: es =>
      if is_live e then
        let val := func (data e) in
        if negb (val =? 0) then val else foreach func es
      else foreach func es
  end.

Definition dvmHashForeach (t : HashTable) (func : Z -> Z) : Z := foreach func (pEntries t).

(** The iterator: the index of the next live entry, or the size of the table. *)
Fixpoint iter_from (i : Z) (es : list HashEntry) : Z :=
  match es with
  | [] => i
  | e :: es => if is_live e then i else iter_from (i + 1) es
  end.

Definition dvmHashIterNext (t : HashTable) (idx : Z) : Z :=
  iter_from (idx + 1) (drop (Z.to_nat (idx + 1)) (pEntries t)).

Definition dvmHashIterBegin (t : HashTable) : Z := dvmHashIterNext t (-1).

Definition dvmHashIterDone (t : HashTable) (idx : Z) : bool := idx >=? tableSize t.

Definition dvmHashIterData (t : HashTable) (idx : Z) : option Z := data <$> (pEntries t !! Z.to_nat idx).

(** [countProbes]: the steps of the search, -1 when it ends at an empty slot. *)
Fixpoint count_loop (found : HashEntry -> bool) (fuel : nat) (idx count : Z) (t : HashTable) : option (Z * Z) :=
  match fuel with
  | O => None
  | S fuel =>
      e ← pEntries t !! Z.to_nat idx;
      if is_null e then Some (idx, count)
      else if found e then Some (idx, count)
      else
        let idx := idx + 1 in
        if idx =? tableSize t then
          if tableSize t =? 1 then Some (idx, count) else count_loop found fuel 0 (count + 1) t
        else count_loop found fuel idx (count + 1) t
  end.

Definition countProbes (t : HashTable) (itemHash item : Z) : option Z :=
  '(idx, count) ← count_loop (is_match itemHash item) (length (pEntries t)) (first_index itemHash t) 0 t;
  e ← pEntries t !! Z.to_nat idx;
  Some (if is_null e then -1 else count).

(** ** What the table holds *)

(** A bag of items with their hashes; an operation, what it may answer, and the
    bag afterwards. *)
Inductive hash_op :=
| OpLookup (itemHash item : Z) (doAdd : bool)
| OpRemove (itemHash item : Z)
| OpForeachRemove (func : Z -> Z)
| OpForeach (func : Z -> Z)
| OpClear.

Definition bag := list HashEntry.

Inductive bag_step : hash_op -> bag -> bag -> Z -> Prop :=
| bag_found B h item doAdd e : e ∈ B -> is_match h item e = true ->
    bag_step (OpLookup h item doAdd) B B (data e)
| bag_missing B h item : (forall e, e ∈ B -> is_match h item e = false) ->
    bag_step (OpLookup h item false) B B 0
| bag_added B h item B' : (forall e, e ∈ B -> is_match h item e = false) -> B' ≡ₚ MkEntry h item :: B ->
    bag_step (OpLookup h item true) B B' item
| bag_removed B h item h' B' : B ≡ₚ MkEntry h' item :: B' ->
    bag_step (OpRemove h item) B B' 1
| bag_not_removed B h item : MkEntry h item ∉ B ->
    bag_step (OpRemove h item) B B 0
| bag_foreach_remove B func gone B' r : B ≡ₚ gone ++ B' ->
    (forall e, e ∈ gone -> func (data e) = 1) ->
    (r = 0 -> forall e, e ∈ B' -> func (data e) = 0) ->
    (r <> 0 -> r <> 1 /\ exists e, e ∈ B' /\ func (data e) = r) ->
    bag_step (OpForeachRemove func) B B' r
| bag_foreach B func r : (r = 0 -> forall e, e ∈ B -> func (data e) = 0) ->
    (r <> 0 -> exists e, e ∈ B /\ func (data e) = r) ->
    bag_step (OpForeach func) B B r
| bag_clear B : bag_step OpClear B [] 0.

Inductive bag_run : list hash_op -> bag -> bag -> list Z -> Prop :=
| bag_done B : bag_run [] B B []
| bag_more o os B B1 B2 r rs : bag_step o B B1 r -> bag_run os B1 B2 rs -> bag_run (o :: os) B B2 (r :: rs).

(** The operations of the code. *)
Definition run_op (o : hash_op) (t : HashTable) : option (HashTable * Z) :=
  match o with
  | OpLookup h item doAdd => dvmHashTableLookup t h item doAdd
  | OpRemove h item => '(t, b) ← dvmHashTableRemove t h item; Some (t, if (b : bool) then 1 else 0)
  | OpForeachRemove func => Some (dvmHashForeachRemove t func)
  | OpForeach func => Some (t, dvmHashForeach t func)
  | OpClear => Some ((dvmHashTableClear t).2, 0)
  end.

Fixpoint run_ops (os : list hash_op) (t : HashTable) : option (HashTable * list Z) :=
  match os with
  | [] => Some (t, [])
  | o :: os => '(t, r) ← run_op o t; '(t, rs) ← run_ops os t; Some (t, r :: rs)
  end.

End Items.

(** ** Lemmas *)

Definition is_dead (e : HashEntry) : bool := data e =? HASH_TOMBSTONE.

Definition in_use (e : HashEntry) : bool := negb (is_null e).

Lemma live_not_null e : is_live e = true -> is_null e = false.
Proof. unfold is_live, is_null. destruct (data e =? 0); [done|done]. Qed.

Abbreviation lives es := (base.filter (fun e => is_live e = true) es).
Abbreviation deads es := (base.filter (fun e => is_dead e = true) es).

Lemma in_use_split es : length (base.filter (fun e => in_use e = true) es) = (length (lives es) + length (deads es))%nat.
Proof.
  induction es as [|e es IH]; [done|]. rewrite !filter_cons.
  assert (H : in_use e = xorb (is_live e) (is_dead e)).
  { unfold in_use, is_live, is_null, is_dead. destruct (Z.eqb_spec (data e) 0) as [->|]; [done|].
    by destruct (data e =? HASH_TOMBSTONE). }
  assert (Hx : is_live e = true -> is_dead e = true -> False).
  { unfold is_live, is_dead. by destruct (data e =? HASH_TOMBSTONE); rewrite ?andb_false_r. }
  rewrite H. destruct (is_live e), (is_dead e); try (exfalso; by apply Hx);
    cbn [xorb]; repeat first [rewrite decide_True by done | rewrite decide_False by done]; cbn [length]; lia.
Qed.

Definition home (n : Z) (e : HashEntry) : Z := hashValue e mod 2 ^ n.

(** A well-formed table of [2 ^ n] slots. *)
Definition wf (n : Z) (t : HashTable) : Prop :=
  0 <= n /\ tableSize t = 2 ^ n /\ tableSize t <= 2 ^ 27 /\ size_of (pEntries t) = tableSize t /\
  chain is_null is_live (home n) (pEntries t) /\
  numEntries t = Z.of_nat (length (lives (pEntries t))) /\
  numDeadEntries t = Z.of_nat (length (deads (pEntries t))) /\
  (numEntries t + numDeadEntries t) * LOAD_DENOM <= tableSize t * LOAD_NUMER.

Lemma wf_room n t : wf n t -> exists i e, pEntries t !! i = Some e /\ is_null e = true.
Proof.
  intros (Hn & Hs & _ & Hsz & _ & He & Hd & Hload). unfold LOAD_DENOM, LOAD_NUMER in Hload.
  pose proof (Z.pow_pos_nonneg 2 n).
  destruct (room in_use (pEntries t)) as (i & e & Hi & Hf).
  - rewrite in_use_split, Hsz. lia.
  - exists i, e. split; [done|]. by apply negb_false_iff in Hf.
Qed.

Lemma first_index_mod n t h : wf n t -> first_index h t = h mod 2 ^ n /\ 0 <= first_index h t < size_of (pEntries t).
Proof.
  intros (Hn & Hs & _ & Hsz & _). unfold first_index. rewrite Hsz, Hs, mask_mod by done. split; [done|].
  apply Z.mod_pos_bound. by apply Z.pow_pos_nonneg.
Qed.

(** The probing loop of the code as a search round the circle. *)
Lemma probe_entries_first found t : size_of (pEntries t) = tableSize t ->
  forall k fuel start, first_stop (fun e => is_null e || found e) (pEntries t) start (Z.of_nat k) ->
  (k < fuel)%nat -> 0 <= start < tableSize t ->
  probe_entries found fuel start t = Some ((start + Z.of_nat k) mod tableSize t).
Proof.
  intros Hsz. induction k as [|k IH]; intros fuel start (Hk & (e & He & Hst) & Hbefore) Hf Hb;
    (destruct fuel as [|fuel]; [lia|]); cbn [probe_entries].
  - unfold at_off in He. rewrite Z.add_0_r, Z.mod_small in He by lia. rewrite He. cbn [mbind option_bind].
    rewrite Z.add_0_r, Z.mod_small by done. destruct (is_null e); [done|]. cbn [orb] in Hst. by rewrite Hst.
  - destruct (Hbefore 0) as (e0 & He0 & Hs0); [lia|].
    unfold at_off in He0. rewrite Z.add_0_r, Z.mod_small in He0 by lia. rewrite He0. cbn [mbind option_bind].
    apply orb_false_iff in Hs0 as [-> ->].
    assert (Hoff : forall j, at_off (pEntries t) ((start + 1) mod tableSize t) j = at_off (pEntries t) start (j + 1)).
    { intros j. unfold at_off. rewrite Hsz, Zplus_mod_idemp_l. do 3 f_equal. lia. }
    assert (Hnext : first_stop (fun e => is_null e || found e) (pEntries t) ((start + 1) mod tableSize t) (Z.of_nat k)).
    { split; [lia|]. split.
      - exists e. rewrite Hoff. by replace (Z.of_nat k + 1) with (Z.of_nat (S k)) by lia.
      - intros j Hj. rewrite Hoff. apply Hbefore. lia. }
    assert (Hres : ((start + 1) mod tableSize t + Z.of_nat k) mod tableSize t = (start + Z.of_nat (S k)) mod tableSize t).
    { rewrite Zplus_mod_idemp_l. f_equal. lia. }
    destruct (Z.eqb_spec (start + 1) (tableSize t)) as [Eend|Eend].
    + destruct (Z.eqb_spec (tableSize t) 1) as [E1|E1]; [lia|].
      rewrite Eend, Z.mod_same in Hnext, Hres by lia. rewrite <- Hres. apply IH; [done|lia|lia].
    + rewrite (Z.mod_small (start + 1)) in Hnext, Hres by lia. rewrite <- Hres. apply IH; [done|lia|lia].
Qed.

(** In a well-formed table every probe ends, at an empty slot or an entry that was
    looked for, and not at an empty slot while such an entry is in the table. *)
Lemma probe_spec n t h found : wf n t ->
  exists k e, first_stop (fun e => is_null e || found e) (pEntries t) (first_index h t) k /\
    let idx := (first_index h t + k) mod tableSize t in
    probe_entries found (length (pEntries t)) (first_index h t) t = Some idx /\
    0 <= idx < tableSize t /\ pEntries t !! Z.to_nat idx = Some e /\
    (is_null e = false -> found e = true) /\
    (is_null e = true -> forall x, x ∈ lives (pEntries t) -> hashValue x = h -> found x = false).
Proof.
  intros Hwf. pose proof (first_index_mod n t h Hwf) as [Hfi Hfb].
  destruct (wf_room n t Hwf) as (i & e0 & Hi & Hnull). pose proof Hwf as (Hn & Hs & _ & Hsz & Hch & _).
  destruct (first_stop_any (fun e => is_null e || found e) (pEntries t) (first_index h t) i e0) as (k & _ & Hk);
    [done|by rewrite Hnull|].
  pose proof Hk as (Hkb & (e & He & Hes) & _). exists k, e. split; [done|]. intros idx.
  split; [|split; [|split; [|split]]].
  - subst idx. rewrite <- (Z2Nat.id k) by lia. apply probe_entries_first; [done| | |lia].
    + by rewrite Z2Nat.id by lia.
    + unfold size_of in *. lia.
  - apply Z.mod_pos_bound. lia.
  - unfold at_off in He. by rewrite Hsz in He.
  - intros Hnn. by rewrite Hnn in Hes.
  - intros Hnn x Hx Hxh. destruct (found x) eqn:Hfx; [|done]. exfalso.
    apply list_elem_of_filter in Hx as [Hxl Hx]. apply list_elem_of_lookup in Hx as (j & Hj).
    destruct (chain_finds is_null is_live (home n) live_not_null found (pEntries t) (first_index h t) j x k)
      as (e' & He' & Hne & _); [exact Hch|exact Hj|exact Hxl| |exact Hfx|exact Hk|].
    + by rewrite Hfi, <- Hxh.
    + rewrite He in He'. injection He' as <-. congruence.
Qed.

(** *** Resizing *)

Lemma reinsert_ok n new e : 0 <= n -> size_of new = 2 ^ n -> chain is_null is_live (home n) new ->
  is_live e = true -> Z.of_nat (length (lives new)) < 2 ^ n -> deads new = [] ->
  exists new', reinsert (2 ^ n) new e = Some new' /\ size_of new' = 2 ^ n /\
    chain is_null is_live (home n) new' /\ lives new' ≡ₚ e :: lives new /\ deads new' = [].
Proof.
  intros Hn Hs Hch Hl Hroom Hdead. unfold reinsert. rewrite Hl.
  assert (Hhome : Z.land (hashValue e) (2 ^ n - 1) = home n e) by by apply mask_mod.
  rewrite Hhome. pose proof (Z.pow_pos_nonneg 2 n ltac:(lia) Hn) as Hpos.
  assert (Hb : 0 <= home n e < size_of new) by (rewrite Hs; by apply Z.mod_pos_bound).
  destruct (room in_use new) as (i & e0 & Hi & Hfree).
  { rewrite in_use_split, Hdead, Hs. cbn [length]. lia. }
  apply negb_false_iff in Hfree.
  destruct (first_stop_any is_null new (home n e) i e0 Hi Hfree) as (k & _ & Hk).
  rewrite (probe_ends is_null _ new (home n e) k); [| |exact Hk|exact Hb|unfold size_of; lia].
  2:{ intros j Hj. by rewrite Hs, mask_mod. }
  cbn [mbind option_bind]. eexists. split; [done|]. rewrite size_of_insert. split; [done|].
  destruct (place_ok is_null is_live (home n) live_not_null new e k Hch Hk Hl) as [Hch' Hperm].
  split; [exact Hch'|]. split; [exact Hperm|]. apply filter_none. intros j x Hj.
  apply list_lookup_insert_Some in Hj as [(_ & <- & _)|[_ Hj]].
  - unfold is_live in Hl. unfold is_dead. apply andb_true_iff in Hl as [_ Hl]. by apply negb_true_iff.
  - destruct (is_dead x) eqn:Ex; [|done]. exfalso.
    assert (Hin : x ∈ deads new) by (apply list_elem_of_filter; split; [done|]; by eapply list_elem_of_lookup_2).
    rewrite Hdead in Hin. by apply not_elem_of_nil in Hin.
Qed.

Lemma reinsert_all n es : 0 <= n -> forall new, size_of new = 2 ^ n -> chain is_null is_live (home n) new ->
  Z.of_nat (length (lives new) + length (lives es)) <= 2 ^ n -> deads new = [] ->
  exists new', fold_left (fun new e => new ← new; reinsert (2 ^ n) new e) es (Some new) = Some new' /\
    size_of new' = 2 ^ n /\ chain is_null is_live (home n) new' /\
    lives new' ≡ₚ lives es ++ lives new /\ deads new' = [].
Proof.
  intros Hn. induction es as [|e es IH]; intros new Hs Hch Hroom Hdead; cbn [fold_left]; [by exists new|].
  rewrite filter_cons in *. cbn [mbind option_bind]. destruct (is_live e) eqn:Hl.
  - rewrite decide_True in Hroom |- * by done. cbn [length] in Hroom.
    destruct (reinsert_ok n new e Hn Hs Hch Hl) as (new1 & -> & Hs1 & Hch1 & Hp1 & Hd1); [lia|done|].
    destruct (IH new1 Hs1 Hch1) as (new' & E & Hs' & Hch' & Hp' & Hd');
      [rewrite Hp1; cbn [length]; lia|done|].
    exists new'. split; [done|]. do 2 (split; [done|]). split; [|done].
    rewrite Hp', Hp1. cbn [app]. by rewrite Permutation_middle.
  - rewrite decide_False in Hroom |- * by done. unfold reinsert at 2. rewrite Hl. by apply IH.
Qed.

Lemma lives_null k : lives (repeat no_entry k) = [].
Proof. apply filter_none. by intros i e ->%list_elem_of_lookup_2%list_elem_of_In%repeat_spec. Qed.

Lemma deads_null k : deads (repeat no_entry k) = [].
Proof. apply filter_none. by intros i e ->%list_elem_of_lookup_2%list_elem_of_In%repeat_spec. Qed.

Lemma chain_null n k : chain is_null is_live (home n) (repeat no_entry k).
Proof. apply chain_empty. by intros i e ->%list_elem_of_lookup_2%list_elem_of_In%repeat_spec. Qed.

Lemma resize_ok n t : 0 <= n -> size_of (pEntries t) <= 2 ^ n ->
  Z.of_nat (length (lives (pEntries t))) <= 2 ^ n ->
  exists es, resizeHash t (2 ^ n) = Some (MkTable (2 ^ n) (numEntries t) 0 es) /\ size_of es = 2 ^ n /\
    chain is_null is_live (home n) es /\ lives es ≡ₚ lives (pEntries t) /\ deads es = [].
Proof.
  intros Hn _ Hroom. pose proof (Z.pow_pos_nonneg 2 n ltac:(lia) Hn) as Hpos. unfold resizeHash.
  destruct (reinsert_all n (pEntries t) Hn (repeat no_entry (Z.to_nat (2 ^ n)))) as (es & -> & Hs & Hch & Hp & Hd).
  - unfold size_of. rewrite repeat_length. lia.
  - apply chain_null.
  - rewrite lives_null. cbn [length]. lia.
  - apply deads_null.
  - cbn [mbind option_bind]. exists es. split; [done|]. do 2 (split; [done|]). split; [|done].
    rewrite Hp, lives_null. by rewrite app_nil_r.
Qed.

(** *** Operations *)

Definition hash_rel (n : Z) (t : HashTable) (B : bag) : Prop := wf n t /\ lives (pEntries t) ≡ₚ B.

(** The arguments the assertions of the code ask for. *)
Definition op_ok (o : hash_op) : Prop :=
  match o with
  | OpLookup _ item _ | OpRemove _ item => item <> 0 /\ item <> HASH_TOMBSTONE
  | _ => True
  end.

(** The slots in use, which bound the size of the table. *)
Definition used (t : HashTable) : Z := numEntries t + numDeadEntries t.

Lemma size_bound n t : wf n t -> used t < 2 ^ 25 -> tableSize t * LOAD_NUMER < (used t + 1) * LOAD_DENOM ->
  tableSize t * 2 = 2 ^ (n + 1) /\ 2 ^ (n + 1) <= 2 ^ 27.
Proof.
  intros (Hn & Hs & _) Hu Hload. unfold LOAD_NUMER, LOAD_DENOM in Hload.
  rewrite Z.pow_add_r by lia. split; lia.
Qed.

Section Refinement.
Context (cmpFunc : Z -> Z -> Z).

Lemma bag_in n t B e : hash_rel n t B -> e ∈ B <-> e ∈ lives (pEntries t).
Proof. intros [_ Hp]. by rewrite Hp. Qed.

Lemma new_live h item : item <> 0 -> item <> HASH_TOMBSTONE -> is_live (MkEntry h item) = true.
Proof. intros H1 H2. unfold is_live. cbn. by rewrite (proj2 (Z.eqb_neq _ _) H1), (proj2 (Z.eqb_neq _ _) H2). Qed.

(** The table after an entry has been put into an empty slot its probe ended at. *)
Lemma add_entry n t h item k i : wf n t -> item <> 0 -> item <> HASH_TOMBSTONE ->
  first_stop (fun e => is_null e || is_match cmpFunc h item e) (pEntries t) (first_index h t) k ->
  i = (first_index h t + k) mod tableSize t ->
  (exists e, pEntries t !! Z.to_nat i = Some e /\ is_null e = true) ->
  let es := <[Z.to_nat i := MkEntry h item]> (pEntries t) in
  size_of es = tableSize t /\ chain is_null is_live (home n) es /\
  lives es ≡ₚ MkEntry h item :: lives (pEntries t) /\ length (deads es) = length (deads (pEntries t)).
Proof using.
  intros Hwf H0 Ht Hk -> (e & He & Hnull) es. pose proof (new_live h item H0 Ht) as Hl.
  pose proof (first_index_mod n t h Hwf) as [Hfi Hfb]. destruct Hwf as (Hn & Hs & _ & Hsz & Hch & _).
  assert (Hk' : first_stop is_null (pEntries t) (home n (MkEntry h item)) k).
  { unfold home. cbn [hashValue]. rewrite <- Hfi. destruct Hk as (Hkb & (e' & He' & _) & Hbefore).
    split; [done|]. split.
    - exists e'. split; [done|]. unfold at_off in He'. rewrite Hsz, He in He'. by injection He' as <-.
    - intros j Hj. destruct (Hbefore j Hj) as (x & Hx & Hxs). exists x. split; [done|].
      by apply orb_false_iff in Hxs as [-> _]. }
  destruct (place_ok is_null is_live (home n) live_not_null (pEntries t) (MkEntry h item) k Hch Hk' Hl) as [Hch' Hp'].
  assert (Hi : Z.to_nat ((home n (MkEntry h item) + k) mod size_of (pEntries t)) =
    Z.to_nat ((first_index h t + k) mod tableSize t)).
  { unfold home. cbn [hashValue]. by rewrite <- Hfi, Hsz. }
  rewrite Hi in Hch', Hp'. split; [subst es; by rewrite size_of_insert|]. split; [exact Hch'|].
  split; [exact Hp'|]. subst es.
  rewrite (insert_take_drop (pEntries t)) by by eapply lookup_lt_Some.
  pose proof (take_drop_middle (pEntries t) _ e He) as Hmid.
  replace (deads (pEntries t)) with (deads (take (Z.to_nat ((first_index h t + k) mod tableSize t)) (pEntries t) ++
    e :: drop (S (Z.to_nat ((first_index h t + k) mod tableSize t))) (pEntries t))) by (by rewrite Hmid).
  rewrite !filter_app, !filter_cons, !length_app.
  assert (Hd1 : is_dead e = false).
  { unfold is_null in Hnull. apply Z.eqb_eq in Hnull. unfold is_dead. by rewrite Hnull. }
  assert (Hd2 : is_dead (MkEntry h item) = false) by by apply Z.eqb_neq.
  rewrite !decide_False by (rewrite ?Hd1, ?Hd2; done). done.
Qed.

Lemma lookup_refines n t B h item doAdd : hash_rel n t B -> used t < 2 ^ 25 ->
  item <> 0 -> item <> HASH_TOMBSTONE ->
  exists n' t' r B', dvmHashTableLookup cmpFunc t h item doAdd = Some (t', r) /\
    hash_rel n' t' B' /\ used t' <= used t + 1 /\ bag_step cmpFunc (OpLookup h item doAdd) B B' r.
Proof using.
  intros Hrel Hu H0 Ht. pose proof Hrel as [Hwf Hp]. unfold dvmHashTableLookup.
  destruct (probe_spec n t h (is_match cmpFunc h item) Hwf) as (k & e & Hk & Hprobe & Hidx & He & Hfound & Hmiss).
  rewrite Hprobe. cbn [mbind option_bind]. rewrite He. cbn [mbind option_bind].
  assert (Hmatch_live : forall x, is_match cmpFunc h item x = true -> is_null x = false -> is_live x = true).
  { intros x Hx Hnn. unfold is_match in Hx. unfold is_live. unfold is_null in Hnn. rewrite Hnn.
    apply andb_true_iff in Hx as [Hx _]. by apply andb_true_iff in Hx as [-> _]. }
  destruct (is_null e) eqn:Hnull.
  2:{ exists n, t, (data e), B. split; [done|]. split; [done|]. split; [lia|].
      constructor; [|by apply Hfound]. apply (bag_in n t B e Hrel), list_elem_of_filter.
      split; [by apply Hmatch_live; [apply Hfound|]|by eapply list_elem_of_lookup_2]. }
  assert (Hnone : forall x, x ∈ B -> is_match cmpFunc h item x = false).
  { intros x Hx. apply (bag_in n t B x Hrel) in Hx. destruct (is_match cmpFunc h item x) eqn:Em; [|done].
    rewrite <- Em. apply Hmiss; [done|done|]. unfold is_match in Em.
    apply andb_true_iff in Em as [Em _]. apply andb_true_iff in Em as [_ Em]. by apply Z.eqb_eq. }
  destruct doAdd.
  2:{ exists n, t, 0, B. split; [done|]. split; [done|]. split; [lia|]. by constructor. }
  set (i := (first_index h t + k) mod tableSize t) in *.
  destruct (add_entry n t h item k i Hwf H0 Ht Hk eq_refl) as (Hsz' & Hch' & Hp' & Hd'); [by exists e|].
  set (es := <[Z.to_nat i := MkEntry h item]> (pEntries t)) in *.
  pose proof Hwf as (Hn & Hs & Hs27 & Hsz & Hch & Hne & Hnd & Hload).
  assert (Hpos : 0 <= numEntries t /\ 0 <= numDeadEntries t) by lia.
  cbn [numEntries numDeadEntries tableSize pEntries]. unfold used, LOAD_DENOM, LOAD_NUMER in *.
  rewrite !chkS_Some by (unfold inS; lia). cbn [mbind option_bind].
  assert (Hpos2 : 0 < 2 ^ n) by (apply Z.pow_pos_nonneg; lia).
  assert (Hlen : Z.of_nat (length (lives es)) = numEntries t + 1) by (rewrite Hp'; cbn [length]; lia).
  rewrite Z.gtb_ltb. destruct (Z.ltb_spec (tableSize t * 5) ((numEntries t + 1 + numDeadEntries t) * 8)) as [Hfull|Hok].
  - destruct (size_bound n t Hwf) as [E2 Hb2]; [unfold used; lia|unfold used, LOAD_DENOM, LOAD_NUMER; lia|].
    cbn [mbind option_bind]. rewrite E2.
    destruct (resize_ok (n + 1) (MkTable (tableSize t) (numEntries t + 1) (numDeadEntries t) es))
      as (es2 & -> & Hsz2 & Hch2 & Hp2 & Hd2); [lia|cbn; lia|cbn [pEntries]; lia|].
    cbn [mbind option_bind numEntries pEntries] in *. eexists (n + 1), _, item, _. split; [done|]. split; [|split].
    + split; [|done]. unfold wf. cbn [tableSize numEntries numDeadEntries pEntries]. rewrite Hp2, Hlen, Hd2. cbn [length]. unfold LOAD_NUMER, LOAD_DENOM.
      repeat (split; [done || lia|]). lia.
    + cbn. lia.
    + constructor; [done|]. rewrite Hp'. by f_equiv.
  - cbn [mbind option_bind]. eexists n, _, item, _. split; [done|]. split; [|split].
    + split; [|done]. unfold wf. cbn [tableSize numEntries numDeadEntries pEntries]. rewrite Hlen, Hd'. unfold LOAD_NUMER, LOAD_DENOM.
      repeat (split; [done || lia|]). lia.
    + cbn. lia.
    + constructor; [done|]. cbn [pEntries]. by f_equiv.
Qed.

Definition tomb_of (e : HashEntry) : HashEntry := MkEntry (hashValue e) HASH_TOMBSTONE.

Lemma tomb_live e : is_live (tomb_of e) = false.
Proof using. done. Qed.

Lemma tomb_dead e : is_dead (tomb_of e) = true.
Proof using. done. Qed.

Lemma live_not_dead e : is_live e = true -> is_dead e = false.
Proof using. unfold is_live, is_dead. by destruct (data e =? HASH_TOMBSTONE); rewrite ?andb_false_r. Qed.

Lemma remove_refines n t B h item : hash_rel n t B -> item <> 0 -> item <> HASH_TOMBSTONE ->
  exists t' b B', dvmHashTableRemove t h item = Some (t', b) /\
    hash_rel n t' B' /\ used t' <= used t /\
    bag_step cmpFunc (OpRemove h item) B B' (if (b : bool) then 1 else 0).
Proof using.
  intros Hrel H0 Ht. pose proof Hrel as [Hwf Hp]. unfold dvmHashTableRemove.
  destruct (probe_spec n t h (fun e => data e =? item) Hwf) as (k & e & _ & -> & Hidx & He & Hfound & Hmiss).
  cbn [mbind option_bind]. rewrite (proj2 (Z.eqb_neq _ _)) by lia. rewrite He. cbn [mbind option_bind].
  set (i := Z.to_nat ((first_index h t + k) mod tableSize t)) in *.
  destruct (is_null e) eqn:Hnull.
  - exists t, false, B. split; [done|]. split; [done|]. split; [lia|]. constructor.
    intros Hin. apply (bag_in n t B _ Hrel) in Hin. specialize (Hmiss eq_refl _ Hin eq_refl).
    cbn in Hmiss. by rewrite Z.eqb_refl in Hmiss.
  - specialize (Hfound eq_refl). apply Z.eqb_eq in Hfound. change (MkEntry (hashValue e) HASH_TOMBSTONE) with (tomb_of e).
    assert (Hl : is_live e = true).
    { unfold is_live. rewrite Hfound, (proj2 (Z.eqb_neq _ _) H0), (proj2 (Z.eqb_neq _ _) Ht). done. }
    pose proof Hwf as (Hn & Hs & Hs27 & Hsz & Hch & Hne & Hnd & Hload).
    pose proof (filter_insert_out is_live (pEntries t) i e (tomb_of e) He Hl (tomb_live e)) as Hpl.
    pose proof (filter_insert_in is_dead (pEntries t) i e (tomb_of e) He (live_not_dead e Hl) (tomb_dead e)) as Hpd.
    rewrite Hpl in Hne. cbn [length] in Hne.
    exists (MkTable (tableSize t) (numEntries t - 1) (numDeadEntries t + 1) (<[i := tomb_of e]> (pEntries t))), true,
      (lives (<[i := tomb_of e]> (pEntries t))).
    split; [done|]. split; [|split].
    + split; [|done]. unfold wf. cbn [tableSize numEntries numDeadEntries pEntries].
      rewrite Hpd, size_of_insert. cbn [length]. do 4 (split; [done|]). split; [|lia].
      eapply chain_insert; [done|exact He|done|]. by rewrite tomb_live.
    + unfold used. cbn. lia.
    + apply (bag_removed _ _ _ _ (hashValue e)). rewrite <- Hp, Hpl. subst item. by destruct e.
Qed.

Lemma foreach_remove_spec func es : let '(es', dead, r) := foreach_remove func es in
  length es' = length es /\
  (forall i e e', es !! i = Some e -> es' !! i = Some e' -> e' = e \/ (is_live e = true /\ e' = tomb_of e)) /\
  length (deads es') = (length (deads es) + Z.to_nat dead)%nat /\ 0 <= dead /\
  (exists gone, lives es ≡ₚ gone ++ lives es' /\ Z.of_nat (length gone) = dead /\
    forall e, e ∈ gone -> func (data e) = 1) /\
  (r = 0 -> forall e, e ∈ lives es' -> func (data e) = 0) /\
  (r <> 0 -> r <> 1 /\ exists e, e ∈ lives es' /\ func (data e) = r).
Proof using.
  induction es as [|e es IH]; cbn [foreach_remove].
  { split; [done|]. split; [done|]. split; [done|]. split; [lia|]. split; [exists []; split; [done|]; split; [done|]; intros x Hx; by apply not_elem_of_nil in Hx|].
    split; [intros _ e He; by apply not_elem_of_nil in He|done]. }
  destruct (is_live e) eqn:Hl; [destruct (Z.eqb_spec (func (data e)) 1) as [E1|E1]|].
  - destruct (foreach_remove func es) as [[es' dead] r].
    destruct IH as (H1 & H2 & H3 & H4 & (gone & H5 & H6 & H7) & H8 & H9).
    change (MkEntry (hashValue e) HASH_TOMBSTONE) with (tomb_of e).
    rewrite !filter_cons, (decide_True (P := is_live e = true)), (decide_False (P := is_dead e = true)),
      (decide_False (P := is_live (tomb_of e) = true)), (decide_True (P := is_dead (tomb_of e) = true))
      by (rewrite ?(live_not_dead e Hl); done).
    cbn [length]. split; [by rewrite H1|]. split; [|split; [lia|split; [lia|split; [|done]]]].
    + intros [|i] x x' Hx Hx'; cbn in Hx, Hx'; [simplify_eq; by right|exact (H2 _ _ _ Hx Hx')].
    + exists (e :: gone). rewrite H5. split; [done|]. cbn [length]. split; [lia|].
      intros x [->|Hx]%elem_of_cons; [done|by apply H7].
  - destruct (Z.eqb_spec (func (data e)) 0) as [E0|E0]; cbn [negb].
    + destruct (foreach_remove func es) as [[es' dead] r].
      destruct IH as (H1 & H2 & H3 & H4 & (gone & H5 & H6 & H7) & H8 & H9).
      rewrite !filter_cons, !(decide_True (P := is_live e = true)), !(decide_False (P := is_dead e = true))
        by (rewrite ?(live_not_dead e Hl); done).
      cbn [length]. split; [by rewrite H1|]. split; [|split; [lia|split; [lia|split; [|split]]]].
      * intros [|i] x x' Hx Hx'; cbn in Hx, Hx'; [simplify_eq; by left|exact (H2 _ _ _ Hx Hx')].
      * exists gone. rewrite H5. split; [by rewrite Permutation_middle|done].
      * intros Hr x [->|Hx]%elem_of_cons; [done|by apply H8].
      * intros Hr. destruct (H9 Hr) as (Hr1 & x & Hx & Hfx). split; [done|]. exists x. split; [by right|done].
    + split; [done|]. split; [intros i x x' Hx Hx'; left; congruence|]. split; [simpl; lia|]. split; [lia|].
      split; [exists []; split; [done|]; split; [done|]; intros x Hx; by apply not_elem_of_nil in Hx|]. split; [done|]. intros _. split; [done|]. exists e. split; [|done].
      apply list_elem_of_filter. split; [done|by left].
  - destruct (foreach_remove func es) as [[es' dead] r].
    destruct IH as (H1 & H2 & H3 & H4 & (gone & H5 & H6 & H7) & H8 & H9).
    rewrite !filter_cons, !(decide_False (P := is_live e = true)) by (rewrite Hl; done).
    split; [cbn [length]; by rewrite H1|]. split; [|split; [|split; [lia|split; [|done]]]].
    + intros [|i] x x' Hx Hx'; cbn in Hx, Hx'; [simplify_eq; by left|exact (H2 _ _ _ Hx Hx')].
    + destruct (decide (is_dead e = true)); cbn [length]; lia.
    + by exists gone.
Qed.

Lemma foreach_remove_refines n t B func : hash_rel n t B ->
  exists B', hash_rel n (dvmHashForeachRemove t func).1 B' /\ used (dvmHashForeachRemove t func).1 <= used t /\
    bag_step cmpFunc (OpForeachRemove func) B B' (dvmHashForeachRemove t func).2.
Proof using.
  intros [(Hn & Hs & Hs27 & Hsz & Hch & Hne & Hnd & Hload) Hp]. unfold dvmHashForeachRemove.
  pose proof (foreach_remove_spec func (pEntries t)) as H.
  destruct (foreach_remove func (pEntries t)) as [[es' dead] r].
  destruct H as (H1 & H2 & H3 & H4 & (gone & H5 & H6 & H7) & H8 & H9). cbn [fst snd].
  exists (lives es'). split; [|split].
  - split; [|done]. unfold wf. cbn [tableSize numEntries numDeadEntries pEntries].
    rewrite H5, length_app in Hne. split; [done|]. split; [done|]. split; [done|].
    split; [unfold size_of in *; by rewrite H1|]. split; [|lia].
    apply (chain_weaken _ _ _ (pEntries t)); [done|done|].
    intros i e e' Hi Hi'. destruct (H2 i e e' Hi Hi') as [->|[Hl ->]]; [done|].
    split; [done|]. by rewrite tomb_live.
  - unfold used. cbn. lia.
  - apply (bag_foreach_remove _ _ _ gone); [by rewrite <- Hp|done|done|done].
Qed.

Lemma foreach_spec func es :
  (foreach func es = 0 -> forall e, e ∈ lives es -> func (data e) = 0) /\
  (foreach func es <> 0 -> exists e, e ∈ lives es /\ func (data e) = foreach func es).
Proof using.
  induction es as [|e es [IH1 IH2]]; cbn [foreach].
  { split; [intros _ e He; by apply not_elem_of_nil in He|done]. }
  rewrite filter_cons. destruct (is_live e) eqn:Hl.
  - rewrite decide_True by done. destruct (Z.eqb_spec (func (data e)) 0) as [E0|E0]; cbn [negb].
    + split; [intros Hr x [->|Hx]%elem_of_cons; [done|by apply IH1]|].
      intros Hr. destruct (IH2 Hr) as (x & Hx & Hfx). exists x. split; [by right|done].
    + split; [done|]. intros _. exists e. split; [by left|done].
  - by rewrite decide_False by done.
Qed.

Lemma clear_wf n t : wf n t -> wf n (dvmHashTableClear t).2 /\ lives (pEntries (dvmHashTableClear t).2) = [].
Proof using.
  intros (Hn & Hs & Hs27 & Hsz & _). unfold dvmHashTableClear. cbn [snd pEntries].
  set (es := (fun e => MkEntry (hashValue e) 0) <$> pEntries t).
  assert (Hz : forall i e, es !! i = Some e -> data e = 0).
  { intros i e. subst es. rewrite list_lookup_fmap. intros Hx. apply fmap_Some_1 in Hx as (x & _ & ->). done. }
  assert (Hlv : lives es = []).
  { apply filter_none. intros i e Hi. unfold is_live. by rewrite (Hz i e Hi). }
  assert (Hdd : deads es = []).
  { apply filter_none. intros i e Hi. unfold is_dead. by rewrite (Hz i e Hi). }
  split; [|done]. unfold wf. cbn [tableSize numEntries numDeadEntries pEntries]. rewrite Hlv, Hdd.
  unfold LOAD_NUMER, LOAD_DENOM. cbn [length]. pose proof (Z.pow_pos_nonneg 2 n ltac:(lia) Hn).
  do 3 (split; [done|]). split; [unfold size_of in *; subst es; by rewrite length_fmap|].
  split; [|lia]. apply chain_empty. intros i e Hi. unfold is_live. by rewrite (Hz i e Hi).
Qed.

Lemma hash_op_refines n t B o : hash_rel n t B -> used t < 2 ^ 25 -> op_ok o ->
  exists n' t' r B', run_op cmpFunc o t = Some (t', r) /\ hash_rel n' t' B' /\
    used t' <= used t + 1 /\ bag_step cmpFunc o B B' r.
Proof using.
  intros Hrel Hu Hok. destruct o as [h item doAdd|h item|func|func|]; cbn [run_op op_ok] in *.
  - destruct Hok. by apply (lookup_refines n).
  - destruct Hok as [H0 Ht]. destruct (remove_refines n t B h item Hrel H0 Ht) as (t' & b & B' & -> & Hr & Hu' & Hb).
    exists n, t', (if b then 1 else 0), B'. split; [done|]. split; [done|]. split; [lia|done].
  - destruct (foreach_remove_refines n t B func Hrel) as (B' & Hr & Hu' & Hb).
    destruct (dvmHashForeachRemove t func) as [t' r]. exists n, t', r, B'. split; [done|]. split; [done|]. split; [cbn in *; lia|done].
  - exists n, t, (dvmHashForeach t func), B. split; [done|]. split; [done|]. split; [lia|].
    destruct (foreach_spec func (pEntries t)) as [H1 H2]. constructor.
    + intros Hr e He. apply H1; [done|]. by apply (bag_in n t B e Hrel).
    + intros Hr. destruct (H2 Hr) as (e & He & Hf). exists e. split; [by apply (bag_in n t B e Hrel)|done].
  - destruct Hrel as [Hwf Hp]. destruct (clear_wf n t Hwf) as [Hwf' Hl].
    exists n, (dvmHashTableClear t).2, 0, []. split; [done|]. split; [split; [done|by rewrite Hl]|].
    destruct Hwf as (_ & _ & _ & _ & _ & Hne & Hnd & _). split; [unfold used; cbn; lia|constructor].
Qed.

End Refinement.

(** ** Properties *)

(** C36. Refinement: whatever the compare function, any history of up to 2^25
    lookups, additions, removals, scans and clearings on a new table ends (every
    probe meets an empty slot, no [int] overflows) and is a history of a bag of
    items: a lookup answers an item of the bag that has the hash and compares
    equal, and [NULL] or an addition only when there is none; a removal takes out
    exactly that pointer and says whether it was there; the scans visit the items
    of the bag. The load stays below the limit. *)
Theorem hash_table_refines cmpFunc initialSize os : 0 < initialSize <= 2 ^ 26 ->
  Z.of_nat (length os) <= 2 ^ 25 -> Forall op_ok os ->
  exists n t rs B, run_ops cmpFunc os (dvmHashTableCreate initialSize) = Some (t, rs) /\
    hash_rel n t B /\ bag_run cmpFunc os [] B rs.
Proof.
  intros Hi Hlen Hok.
  assert (H0 : exists n, hash_rel n (dvmHashTableCreate initialSize) [] /\ used (dvmHashTableCreate initialSize) = 0).
  { destruct (round_up_spec initialSize) as (n & Hn & E & Hge & Hle); [lia|]. exists n.
    unfold dvmHashTableCreate, hash_rel, wf, used. cbn [tableSize numEntries numDeadEntries pEntries].
    rewrite lives_null, deads_null, E. unfold LOAD_NUMER, LOAD_DENOM. cbn [length].
    pose proof (Z.pow_pos_nonneg 2 n ltac:(lia) ltac:(lia)).
    assert (2 ^ n <= 2 ^ 27).
    { destruct (Z.eq_dec initialSize 1) as [->|]; [|lia]. rewrite <- E. vm_compute. discriminate. }
    split; [|done]. split; [|done]. split; [lia|]. split; [done|]. split; [done|].
    split; [unfold size_of; rewrite repeat_length; lia|]. split; [apply chain_null|lia]. }
  destruct H0 as (n & Hrel & Hu). revert Hrel.
  assert (Hb : used (dvmHashTableCreate initialSize) + Z.of_nat (length os) <= 2 ^ 25) by lia. revert Hb. clear Hu Hlen Hi.
  generalize (dvmHashTableCreate initialSize) as t, (@nil HashEntry) as B. revert n.
  induction os as [|o os IH]; intros n t B Hb Hrel; cbn [run_ops].
  - exists n, t, [], B. split; [done|]. split; [done|constructor].
  - apply Forall_cons_1 in Hok as [Ho Hok]. cbn [length] in Hb.
    destruct (hash_op_refines cmpFunc n t B o Hrel) as (n1 & t1 & r & B1 & -> & Hrel1 & Hu1 & Hs1); [lia|done|].
    cbn [mbind option_bind]. destruct (IH Hok n1 t1 B1) as (n2 & t2 & rs & B2 & -> & Hrel2 & Hrun); [lia|done|].
    cbn [mbind option_bind]. exists n2, t2, (r :: rs), B2. split; [done|]. split; [done|]. by econstructor.
Qed.

(** Two items with one hash in a table of one slot, which grows. *)
Lemma hash_table_refines_witness :
  exists n t rs B, run_ops (fun a b => a - b)
    [OpLookup 7 100 true; OpLookup 7 200 true; OpRemove 7 100; OpLookup 7 100 false; OpLookup 7 200 false]
    (dvmHashTableCreate 1) = Some (t, rs) /\ hash_rel n t B /\
    bag_run (fun a b => a - b)
      [OpLookup 7 100 true; OpLookup 7 200 true; OpRemove 7 100; OpLookup 7 100 false; OpLookup 7 200 false] [] B rs.
Proof.
  apply (hash_table_refines (fun a b => a - b) 1
    [OpLookup 7 100 true; OpLookup 7 200 true; OpRemove 7 100; OpLookup 7 100 false; OpLookup 7 200 false]).
  - lia.
  - simpl. lia.
  - repeat constructor; discriminate.
Defined.

Example hash_history :
  snd <$> run_ops (fun a b => a - b)
    [OpLookup 7 100 true; OpLookup 7 200 true; OpRemove 7 100; OpLookup 7 100 false; OpLookup 7 200 false]
    (dvmHashTableCreate 1) = Some [100; 200; 1; 0; 200].
Proof. vm_compute. reflexivity. Qed.
