(* ===== verification/IndirectRefTable.v ===== *)
(** * Indirect references: [dalvik/vm/IndirectRefTable.cpp] and [.h]

    The tables of JNI references: slots with serial numbers, divided into segments
    by cookies the caller keeps. Objects and references are numbers, 0 is [NULL].
    An operation is [None] when it leaves the table's memory. *)

From S2P Require Import Prelude Bits.

(** ** Data *)

Record IndirectRefSlot := MkSlot { obj : Z; serial : Z }.

(** The two halves of [segmentState], 16 bits each. *)
Record IndirectRefTable := MkTable {
  topIndex : Z;
  numHoles : Z;
  table_ : list IndirectRefSlot;
  kind_ : Z;
  alloc_entries_ : Z;
  max_entries_ : Z;
}.

Definition kIndirectKindInvalid : Z := 0.
Definition kIndirectKindLocal : Z := 1.
Definition kIndirectKindGlobal : Z := 2.
Definition kIndirectKindWeakGlobal : Z := 3.

Definition IRT_FIRST_SEGMENT : Z := 0.

(** [kClearedJniWeakGlobal]. *)
Definition kClearedJniWeakGlobal : Z := 0xdead1234.

(** [IRTSegmentState]: the low half of [all] is [topIndex]. *)
Definition parts_topIndex (all : Z) : Z := Z.land all 0xffff.
Definition parts_numHoles (all : Z) : Z := Z.shiftr all 16.
Definition segmentState_all (t : IndirectRefTable) : Z := Z.lor (topIndex t) (Z.shiftl (numHoles t) 16).

Definition set_segment (all : Z) (t : IndirectRefTable) : IndirectRefTable :=
  MkTable (parts_topIndex all) (parts_numHoles all) (table_ t) (kind_ t) (alloc_entries_ t) (max_entries_ t).

(** ** References *)

Definition indirectRefKind (iref : Z) : Z := Z.land iref 0x03.
Definition extractIndex (iref : Z) : Z := Z.land (Z.shiftr iref 2) 0xffff.
Definition extractSerial (iref : Z) : Z := Z.shiftr iref 20.
Definition nextSerial (serial : Z) : Z := Z.land (u32 (serial + 1)) 0xfff.
Definition toIndirectRef (index serial kind : Z) : Z :=
  Z.lor (Z.lor (u32 (Z.shiftl serial 20)) (Z.shiftl index 2)) kind.

(** ** Operations *)

(** A slot as [memset(..., 0xd1, ...)] leaves it. *)
Definition d1_slot : IndirectRefSlot := MkSlot 0xd1d1d1d1 0xd1d1d1d1.

Definition init (initialCount maxCount desiredKind : Z) : IndirectRefTable :=
  MkTable (parts_topIndex IRT_FIRST_SEGMENT) (parts_numHoles IRT_FIRST_SEGMENT)
    (repeat d1_slot (Z.to_nat initialCount)) desiredKind initialCount maxCount.

(** [while ((--slot)->obj != NULL)], from the slot below index [i]. *)
Fixpoint hole_below (i : nat) (slots : list IndirectRefSlot) : option nat :=
  match i with
  | O => None
  | S i =>
      s ← slots !! i;
      if negb (obj s =? 0) then hole_below i slots else Some i
  end.

(** Filling a slot, and the reference to it. *)
Definition fill (slot : nat) (o : Z) (t : IndirectRefTable) : option (IndirectRefTable * Z) :=
  s ← table_ t !! slot;
  let serial := nextSerial (serial s) in
  Some (MkTable (topIndex t) (numHoles t) (<[slot := MkSlot o serial]> (table_ t)) (kind_ t)
          (alloc_entries_ t) (max_entries_ t),
        toIndirectRef (Z.of_nat slot) serial (kind_ t)).

(** [add]; memory for the expansion is taken to be available. The answer is the
    reference, 0 when the table is full. *)
Definition add (cookie o : Z) (t : IndirectRefTable) : option (IndirectRefTable * Z) :=
  let holes := numHoles t - parts_numHoles cookie in
  if holes >? 0 then
    slot ← hole_below (Z.to_nat (topIndex t - 1)) (table_ t);
    fill slot o (MkTable (topIndex t) (u16 (numHoles t - 1)) (table_ t) (kind_ t) (alloc_entries_ t) (max_entries_ t))
  else if topIndex t =? alloc_entries_ t then
    if topIndex t =? max_entries_ t then Some (t, 0)
    else
      let newSize := alloc_entries_ t * 2 in
      let newSize := if newSize >? max_entries_ t then max_entries_ t else newSize in
      let slots := table_ t ++ repeat d1_slot (Z.to_nat (newSize - alloc_entries_ t)) in
      fill (Z.to_nat (topIndex t)) o
        (MkTable (u16 (topIndex t + 1)) (numHoles t) slots (kind_ t) newSize (max_entries_ t))
  else
    fill (Z.to_nat (topIndex t)) o
      (MkTable (u16 (topIndex t + 1)) (numHoles t) (table_ t) (kind_ t) (alloc_entries_ t) (max_entries_ t)).

(** What [get] answers: an object, or [kInvalidIndirectRefObject]; [complains] when
    [abortMaybe] was called, which aborts the machine unless CheckJNI is on. *)
Inductive get_result :=
| Object (o : Z)
| Invalid (complains : bool).

Definition get (iref : Z) (t : IndirectRefTable) : option get_result :=
  let kind := indirectRefKind iref in
  if negb (kind =? kind_ t) then
    if iref =? 0 then Some (Invalid false)
    else if kind =? kIndirectKindInvalid then Some (Invalid true)
    else Some (Invalid false)
  else
    let index := extractIndex iref in
    if index >=? topIndex t then Some (Invalid true)
    else
      s ← table_ t !! Z.to_nat index;
      if obj s =? 0 then Some (Invalid true)
      else if negb (extractSerial iref =? serial s) then Some (Invalid true)
      else Some (Object (obj s)).

(** The loop of [findObject], over the slots from [i] on. *)
Fixpoint find_object (o i : Z) (slots : list IndirectRefSlot) : Z :=
  match slots with
  | [] => -1
  | s :: slots => if obj s =? o then i else find_object o (i + 1) slots
  end.

Definition findObject (o bottomIndex topIndex : Z) (slots : list IndirectRefSlot) : Z :=
  find_object o bottomIndex (take (Z.to_nat (topIndex - bottomIndex)) (drop (Z.to_nat bottomIndex) slots)).

Definition contains (o : Z) (t : IndirectRefTable) : bool := findObject o 0 (topIndex t) (table_ t) >=? 0.

(** [while (--topIndex > bottomIndex && numHoles != 0)]; the top goes down with
    every turn. *)
Fixpoint eat_holes (top : nat) (bottomIndex numHoles : Z) (slots : list IndirectRefSlot) : option (Z * Z) :=
  match top with
  | O => None
  | S top =>
      if (Z.of_nat top >? bottomIndex) && negb (numHoles =? 0) then
        s ← slots !! (top - 1)%nat;
        if negb (obj s =? 0) then Some (Z.of_nat top, numHoles)
        else eat_holes top bottomIndex (numHoles - 1) slots
      else Some (Z.of_nat top, numHoles)
  end.

(** Taking out the entry at [index]. *)
Definition remove_at (cookie index : Z) (t : IndirectRefTable) : option IndirectRefTable :=
  if index =? topIndex t - 1 then
    let holes := numHoles t - parts_numHoles cookie in
    if negb (holes =? 0) then
      '(top, holes) ← eat_holes (Z.to_nat (topIndex t)) (parts_topIndex cookie) holes (table_ t);
      Some (MkTable (u16 top) (u16 (holes + parts_numHoles cookie)) (table_ t) (kind_ t)
              (alloc_entries_ t) (max_entries_ t))
    else
      Some (MkTable (u16 (topIndex t - 1)) (numHoles t) (table_ t) (kind_ t) (alloc_entries_ t) (max_entries_ t))
  else
    s ← table_ t !! Z.to_nat index;
    Some (MkTable (topIndex t) (u16 (numHoles t + 1)) (<[Z.to_nat index := MkSlot 0 (serial s)]> (table_ t))
            (kind_ t) (alloc_entries_ t) (max_entries_ t)).

(** [workAroundAppJniBugs] takes a reference of no kind for a pointer. *)
Definition remove (workAroundAppJniBugs : bool) (cookie iref : Z) (t : IndirectRefTable)
    : option (IndirectRefTable * bool) :=
  let bottomIndex := parts_topIndex cookie in
  let kind := indirectRefKind iref in
  if kind =? kind_ t then
    let index := extractIndex iref in
    if index <? bottomIndex then Some (t, false)
    else if index >=? topIndex t then Some (t, false)
    else
      s ← table_ t !! Z.to_nat index;
      if obj s =? 0 then Some (t, false)
      else if negb (serial s =? extractSerial iref) then Some (t, false)
      else t ← remove_at cookie index t; Some (t, true)
  else if (kind =? kIndirectKindInvalid) && workAroundAppJniBugs then
    let i := findObject iref bottomIndex (topIndex t) (table_ t) in
    if i <? 0 then Some (t, false)
    else t ← remove_at cookie i t; Some (t, true)
  else Some (t, false).

(** ** Iteration *)

(** [skipNullsAndTombstones] from index [i] on. *)
Fixpoint skip_from (i : Z) (slots : list IndirectRefSlot) : Z :=
  match slots with
  | [] => i
  | s :: slots => if (obj s =? 0) || (obj s =? kClearedJniWeakGlobal) then skip_from (i + 1) slots else i
  end.

Definition capacity (t : IndirectRefTable) : Z := topIndex t.

Definition iterator_at (i : Z) (t : IndirectRefTable) : Z :=
  skip_from i (take (Z.to_nat (capacity t - i)) (drop (Z.to_nat i) (table_ t))).

Definition iter_begin (t : IndirectRefTable) : Z := iterator_at 0 t.
Definition iter_next (i : Z) (t : IndirectRefTable) : Z := iterator_at (i + 1) t.
Definition iter_end (t : IndirectRefTable) : Z := capacity t.

(** ** Invariant *)

(** The segment from the cookie's bottom to the top: as many empty slots as are
    counted, none at the top, and serial numbers of twelve bits in use. *)
Definition nulls (seg : list IndirectRefSlot) : Z := Z.of_nat (length (base.filter (fun s => obj s = 0) seg)).

Definition slot_ok (s : IndirectRefSlot) : Prop := obj s <> 0 -> 0 <= serial s < 2 ^ 12.

Definition top_used (seg : list IndirectRefSlot) : Prop := forall s, last seg = Some s -> obj s <> 0.

(** The memory of a table in a segment. *)
Definition wf_parts (cookie : Z) (t : IndirectRefTable) (lower seg upper : list IndirectRefSlot) : Prop :=
  table_ t = lower ++ seg ++ upper /\ Z.of_nat (length lower) = parts_topIndex cookie /\
  topIndex t = parts_topIndex cookie + Z.of_nat (length seg) /\
  numHoles t = parts_numHoles cookie + nulls seg /\ top_used seg /\ Forall slot_ok seg /\
  alloc_entries_ t = Z.of_nat (length (table_ t)) /\ 0 < alloc_entries_ t <= max_entries_ t /\
  max_entries_ t < 2 ^ 16 /\ 0 <= parts_numHoles cookie <= parts_topIndex cookie /\
  1 <= kind_ t <= 3.

Definition wf (cookie : Z) (t : IndirectRefTable) : Prop :=
  exists lower seg upper, wf_parts cookie t lower seg upper.

(** Two references that differ at most in the two bits that are not used. *)
Definition same_ref (r r' : Z) : bool :=
  (indirectRefKind r =? indirectRefKind r') && (extractIndex r =? extractIndex r') &&
  (extractSerial r =? extractSerial r').

(** ** Lemmas *)

Lemma index_bound r : 0 <= extractIndex r < 2 ^ 16.
Proof. unfold extractIndex. rewrite (land_mask 16) by done. apply Z.mod_pos_bound. lia. Qed.

Lemma toIndirectRef_sum i s k : 0 <= i < 2 ^ 16 -> 0 <= s < 2 ^ 12 -> 0 <= k < 4 ->
  toIndirectRef i s k = k + (i + s * 2 ^ 18) * 2 ^ 2.
Proof.
  intros Hi Hs Hk. unfold toIndirectRef.
  rewrite wrapU_id by (unfold inU; rewrite Z.shiftl_mul_pow2 by lia; lia).
  replace (Z.shiftl s 20) with (Z.shiftl (Z.shiftl s 18) 2) by (by rewrite Z.shiftl_shiftl).
  rewrite <- Z.shiftl_lor, Z.lor_comm, lor_shiftl_add by lia.
  rewrite (Z.lor_comm _ i), lor_shiftl_add by lia. done.
Qed.

Lemma ref_fields i s k : 0 <= i < 2 ^ 16 -> 0 <= s < 2 ^ 12 -> 0 <= k < 4 ->
  indirectRefKind (toIndirectRef i s k) = k /\ extractIndex (toIndirectRef i s k) = i /\
  extractSerial (toIndirectRef i s k) = s.
Proof.
  intros Hi Hs Hk. rewrite toIndirectRef_sum by done.
  unfold indirectRefKind, extractIndex, extractSerial.
  rewrite (land_mask 2), (land_mask 16), !Z.shiftr_div_pow2 by done.
  split; [|split].
  - rewrite Z_mod_plus_full. apply Z.mod_small. lia.
  - rewrite Z.div_add, Z.div_small by lia. rewrite Z.add_0_l.
    replace (i + s * 2 ^ 18) with (i + s * 4 * 2 ^ 16) by lia. rewrite Z_mod_plus_full. apply Z.mod_small. lia.
  - replace (k + (i + s * 2 ^ 18) * 2 ^ 2) with ((k + i * 2 ^ 2) + s * 2 ^ 20) by lia.
    rewrite Z.div_add, Z.div_small by lia. done.
Qed.

Lemma nextSerial_bound s : 0 <= nextSerial s < 2 ^ 12.
Proof. unfold nextSerial. rewrite (land_mask 12) by done. apply Z.mod_pos_bound. lia. Qed.

Lemma nulls_app l1 l2 : nulls (l1 ++ l2) = nulls l1 + nulls l2.
Proof. unfold nulls. rewrite filter_app, length_app. lia. Qed.

Lemma nulls_cons s l : nulls (s :: l) = (if decide (obj s = 0) then 1 else 0) + nulls l.
Proof. unfold nulls. rewrite filter_cons. destruct (decide _); cbn [length]; lia. Qed.

Lemma nulls_nonneg l : 0 <= nulls l <= Z.of_nat (length l).
Proof. unfold nulls. pose proof (length_filter (fun s => obj s = 0) l). lia. Qed.

Lemma nulls_pos l : 0 < nulls l -> exists l1 s l2, l = l1 ++ s :: l2 /\ obj s = 0 /\ nulls l2 = 0.
Proof.
  induction l as [|x l IH] using rev_ind; [done|]. rewrite nulls_app, nulls_cons. intros H.
  destruct (decide (obj x = 0)) as [Hx|Hx].
  - exists l, x, []. done.
  - destruct IH as (l1 & s & l2 & -> & Hs & H2); [unfold nulls in *; simpl in *; lia|].
    exists l1, s, (l2 ++ [x]). rewrite <- app_assoc. split; [done|]. split; [done|].
    rewrite nulls_app, nulls_cons, decide_False by done. unfold nulls in *. simpl. lia.
Qed.

Lemma nulls_none l s : nulls l = 0 -> s ∈ l -> obj s <> 0.
Proof.
  unfold nulls. intros Hn Hs H0.
  assert (Hin : s ∈ base.filter (fun s => obj s = 0) l) by (by apply list_elem_of_filter).
  destruct (base.filter _ l); [by apply not_elem_of_nil in Hin|simpl in Hn; lia].
Qed.

(** The backwards search over slots that are all in use ends at the hole before
    them. *)
Lemma hole_below_spec l1 s l2 r : obj s = 0 -> (forall x, x ∈ l2 -> obj x <> 0) ->
  hole_below (length l1 + S (length l2)) (l1 ++ s :: l2 ++ r) = Some (length l1).
Proof.
  intros Hs. revert r. induction l2 as [|x l2 IH] using rev_ind; intros r Hall.
  - rewrite Nat.add_1_r. cbn [hole_below length app]. rewrite lookup_app_r, Nat.sub_diag by lia.
    cbn [lookup list_lookup mbind option_bind]. by rewrite Hs.
  - rewrite length_app. cbn [length]. replace (length l1 + S (length l2 + 1))%nat with (S (length l1 + S (length l2))) by lia.
    cbn [hole_below]. rewrite <- (app_assoc l2 [x] r), (app_comm_cons l2 _ s), app_assoc.
    rewrite lookup_app_r by (rewrite length_app; simpl; lia). rewrite length_app. cbn [length].
    rewrite Nat.sub_diag. cbn [app lookup list_lookup mbind option_bind].
    rewrite (proj2 (Z.eqb_neq _ _)) by (apply Hall, elem_of_app; right; by left). cbn [negb].
    rewrite <- app_assoc, <- app_comm_cons. apply (IH (x :: r)). intros y Hy. apply Hall, elem_of_app. by left.
Qed.

(** What a reference means, in terms of the slots. *)
Lemma get_eq r t : get r t =
  if negb (indirectRefKind r =? kind_ t) then
    Some (Invalid (if r =? 0 then false else indirectRefKind r =? 0))
  else if extractIndex r >=? topIndex t then Some (Invalid true)
  else s ← table_ t !! Z.to_nat (extractIndex r);
       Some (if (obj s =? 0) || negb (extractSerial r =? serial s) then Invalid true else Object (obj s)).
Proof.
  unfold get, kIndirectKindInvalid. destruct (negb (_ =? kind_ t)); [repeat case_match; done|].
  destruct (_ >=? _); [done|]. destruct (table_ t !! _) as [s|]; [|done]. cbn [mbind option_bind].
  destruct (obj s =? 0); [done|]. cbn [orb]. by destruct (negb _).
Qed.

Lemma fill_get n o top holes slots kind al mx s :
  slots !! n = Some s -> o <> 0 -> Z.of_nat n < top <= 2 ^ 16 -> 1 <= kind <= 3 ->
  exists r, fill n o (MkTable top holes slots kind al mx) =
      Some (MkTable top holes (<[n := MkSlot o (nextSerial (serial s))]> slots) kind al mx, r) /\
    0 < r /\ indirectRefKind r = kind /\ extractIndex r = Z.of_nat n /\ extractSerial r = nextSerial (serial s).
Proof.
  intros Hn Ho Htop Hk. pose proof (nextSerial_bound (serial s)) as Hs. unfold fill. cbn [table_ kind_ topIndex numHoles alloc_entries_ max_entries_].
  rewrite Hn. cbn [mbind option_bind]. eexists. split; [done|]. rewrite toIndirectRef_sum by lia.
  split; [nia|]. rewrite <- toIndirectRef_sum by lia. apply ref_fields; lia.
Qed.

(** The slot an index means: none at or above the top. *)
Definition slot_at (t : IndirectRefTable) (i : Z) : option IndirectRefSlot :=
  if i <? topIndex t then table_ t !! Z.to_nat i else None.

Definition meaning (slot : option IndirectRefSlot) (ser : Z) : get_result :=
  match slot with
  | None => Invalid true
  | Some s => if (obj s =? 0) || negb (ser =? serial s) then Invalid true else Object (obj s)
  end.

Lemma get_meaning r t : topIndex t <= Z.of_nat (length (table_ t)) ->
  get r t = Some (if negb (indirectRefKind r =? kind_ t)
    then Invalid (if r =? 0 then false else indirectRefKind r =? 0)
    else meaning (slot_at t (extractIndex r)) (extractSerial r)).
Proof.
  intros Htop. rewrite get_eq. destruct (negb _); [done|]. unfold slot_at. pose proof (index_bound r).
  rewrite Z.geb_leb. destruct (Z.leb_spec (topIndex t) (extractIndex r)) as [Hge|Hlt].
  - by rewrite (proj2 (Z.ltb_ge _ _) Hge).
  - rewrite (proj2 (Z.ltb_lt _ _) Hlt).
    destruct (lookup_lt_is_Some_2 (table_ t) (Z.to_nat (extractIndex r))) as [s Hs]; [lia|]. by rewrite Hs.
Qed.

Lemma wf_top cookie t : wf cookie t -> topIndex t <= Z.of_nat (length (table_ t)).
Proof.
  intros (lower & seg & upper & Ht & Hb & Htop & _). rewrite Ht, !length_app. lia.
Qed.

(** What an addition does to the meanings: one reference gets the object. Before, no
    reference to that index meant an object, and the one that was given out for it last is
    another one. *)
Record adds (r o : Z) (t t' : IndirectRefTable) : Prop := {
  adds_unused : forall r', indirectRefKind r' = kind_ t -> extractIndex r' = extractIndex r -> get r' t = Some (Invalid true);
  adds_serial : forall s, table_ t !! Z.to_nat (extractIndex r) = Some s -> extractSerial r <> serial s;
  adds_kind : indirectRefKind r = kind_ t;
  adds_get : forall r', get r' t' = if same_ref r' r then Some (Object o) else get r' t
}.

Lemma nextSerial_other s : nextSerial s <> s.
Proof. unfold nextSerial. rewrite (land_mask 12) by done. unfold wrapU. intros E. dlia. Qed.

Lemma adds_intro n o r s t t' : topIndex t <= Z.of_nat (length (table_ t)) ->
  topIndex t' <= Z.of_nat (length (table_ t')) -> kind_ t' = kind_ t -> o <> 0 ->
  indirectRefKind r = kind_ t -> extractIndex r = n -> extractSerial r = s ->
  slot_at t' n = Some (MkSlot o s) ->
  (forall ser, meaning (slot_at t n) ser = Invalid true) ->
  (forall x, table_ t !! Z.to_nat n = Some x -> s = nextSerial (serial x)) ->
  (forall i ser, 0 <= i -> i <> n -> meaning (slot_at t' i) ser = meaning (slot_at t i) ser) ->
  adds r o t t'.
Proof.
  intros Ht Ht' Hk Ho Hrk Hri Hrs Hnew Hold Hser Hsame. split; [| |done|].
  { intros r' Hrk' Hri'. rewrite get_meaning by done. by rewrite Hrk', Z.eqb_refl, Hri', Hri, Hold. }
  { intros x Hx. rewrite Hri in Hx. rewrite Hrs, (Hser x Hx). apply nextSerial_other. }
  intros r'. rewrite !get_meaning by done. rewrite Hk. unfold same_ref.
  rewrite Hrk, Hri, Hrs. destruct (indirectRefKind r' =? kind_ t); cbn [negb andb]; [|done].
  destruct (Z.eqb_spec (extractIndex r') n) as [->|Hne].
  - rewrite Hnew. cbn [meaning obj serial andb]. rewrite (proj2 (Z.eqb_neq o 0) Ho). cbn [orb].
    destruct (_ =? s); cbn [negb]; [done|]. by rewrite Hold.
  - cbn [andb]. rewrite Hsame; [done| |done]. pose proof (index_bound r'). lia.
Qed.

(** Slots of a table given by parts. *)
Lemma slot_at_insert top holes slots kind al mx n x i : (n < length slots)%nat -> 0 <= i ->
  slot_at (MkTable top holes (<[n := x]> slots) kind al mx) i =
    if (i <? top) && (i =? Z.of_nat n) then Some x else slot_at (MkTable top holes slots kind al mx) i.
Proof.
  intros Hn Hi. unfold slot_at. cbn [topIndex table_]. destruct (i <? top); [|done]. cbn [andb].
  destruct (Z.eqb_spec i (Z.of_nat n)) as [->|Hne].
  - rewrite Nat2Z.id. by apply list_lookup_insert_eq.
  - rewrite list_lookup_insert_ne by lia. done.
Qed.

(** The table is the same below the segment. *)
Definition framed (cookie : Z) (t t' : IndirectRefTable) : Prop :=
  let b := Z.to_nat (parts_topIndex cookie) in take b (table_ t') = take b (table_ t) /\ kind_ t' = kind_ t /\
  max_entries_ t' = max_entries_ t.

Lemma framed_parts cookie t t' lower rest rest' : Z.of_nat (length lower) = parts_topIndex cookie ->
  table_ t = lower ++ rest -> table_ t' = lower ++ rest' -> kind_ t' = kind_ t ->
  max_entries_ t' = max_entries_ t -> framed cookie t t'.
Proof.
  intros Hb Ht Ht' Hk Hm. split; [|done]. rewrite Ht, Ht', <- Hb, Nat2Z.id. by rewrite !take_app_length.
Qed.

(** Adding to the end of the segment, in memory that is there. *)
Lemma add_end cookie t lower seg upper0 x upper o holes al : wf_parts cookie t lower seg upper0 -> o <> 0 ->
  nulls seg = 0 -> holes = numHoles t ->
  forall slots, slots = lower ++ seg ++ x :: upper -> al = Z.of_nat (length slots) -> 0 < al <= max_entries_ t ->
  (forall i, (Z.of_nat i < topIndex t)%Z -> slots !! i = table_ t !! i) ->
  (forall i, is_Some (table_ t !! i) -> slots !! i = table_ t !! i) ->
  exists t' r, fill (Z.to_nat (topIndex t)) o
      (MkTable (u16 (topIndex t + 1)) holes slots (kind_ t) al (max_entries_ t)) = Some (t', r) /\
    wf cookie t' /\ framed cookie t t' /\ 0 < r /\ adds r o t t'.
Proof.
  intros (Ht & Hb & Htop & Hh & Hused & Hok & Hal & Hmax & Hmx & Hc & Hk) Ho Hn -> slots Hs -> Hal' Hsame Hgrow.
  assert (Hlen : (length slots = length lower + length seg + S (length upper))%nat)
    by (rewrite Hs, !length_app; simpl; lia).
  assert (Htn : Z.to_nat (topIndex t) = (length lower + length seg)%nat) by lia.
  assert (Hx : slots !! Z.to_nat (topIndex t) = Some x).
  { rewrite Htn, Hs, app_assoc. apply list_lookup_middle. by rewrite length_app. }
  rewrite wrapU_id by (unfold inU; lia).
  destruct (fill_get _ o (topIndex t + 1) (numHoles t) slots (kind_ t) (Z.of_nat (length slots)) (max_entries_ t) x Hx Ho)
    as (r & E & Hr0 & Hrk & Hri & Hrs); [lia|done|].
  eexists _, r. split; [exact E|].
  assert (Hins : <[Z.to_nat (topIndex t) := MkSlot o (nextSerial (serial x))]> slots =
    lower ++ (seg ++ [MkSlot o (nextSerial (serial x))]) ++ upper).
  { rewrite Htn, Hs, !insert_app_r_alt by lia.
    replace (length lower + length seg - length lower - length seg)%nat with 0%nat by lia.
    by rewrite <- app_assoc. }
  rewrite Hins. split; [|split; [|split; [done|]]].
  - exists lower, (seg ++ [MkSlot o (nextSerial (serial x))]), upper.
    unfold wf_parts. cbn [table_ topIndex numHoles alloc_entries_ max_entries_ kind_].
    rewrite !length_app, nulls_app, nulls_cons, decide_False by done. cbn [length]. unfold nulls at 2. cbn [length].
    split; [done|]. split; [done|]. split; [lia|]. split; [cbn; lia|].
    split; [intros y; rewrite last_snoc; by intros [= <-]|].
    split; [apply Forall_app; split; [done|]; constructor; [intros _; apply nextSerial_bound|by apply Forall_nil]|].
    split; [lia|]. done.
  - by eapply framed_parts.
  - rewrite <- Hins. apply (adds_intro (topIndex t) o r (nextSerial (serial x))); try done.
    + rewrite Ht, !length_app. lia.
    + cbn [topIndex table_]. rewrite length_insert. lia.
    + lia.
    + unfold slot_at. cbn [topIndex table_]. rewrite (proj2 (Z.ltb_lt _ _)) by lia.
      apply list_lookup_insert_eq. lia.
    + intros ser. unfold slot_at. by rewrite Z.ltb_irrefl.
    + intros y Hy. assert (is_Some (slots !! Z.to_nat (topIndex t))) by (by rewrite Hx).
      rewrite Hgrow in Hx by (by eexists). congruence.
    + intros i ser Hi Hne. rewrite slot_at_insert by lia. rewrite (proj2 (Z.eqb_neq i _)) by lia. rewrite andb_false_r.
      f_equal. unfold slot_at. cbn [topIndex table_].
      destruct (Z.ltb_spec i (topIndex t)), (Z.ltb_spec i (topIndex t + 1)); try lia; [|done]. apply Hsame. lia.
Qed.

Lemma add_spec cookie o t : wf cookie t -> o <> 0 ->
  exists t' r, add cookie o t = Some (t', r) /\ wf cookie t' /\ framed cookie t t' /\
    ((0 < r /\ adds r o t t') \/ (r = 0 /\ t' = t /\ topIndex t = max_entries_ t /\ numHoles t = parts_numHoles cookie)).
Proof.
  intros Hwf Ho. pose proof (wf_top _ _ Hwf) as Htl. pose proof Hwf as (lower & seg & upper & Hp).
  pose proof Hp as (Ht & Hb & Htop & Hh & Hused & Hok & Hal & Hmax & Hmx & Hc & Hk).
  pose proof (nulls_nonneg seg) as Hnn. pose proof Htl as Htl'. rewrite Ht, !length_app in Htl'.
  unfold add. rewrite Hh, Z.add_simpl_l, Z.gtb_ltb. destruct (Z.ltb_spec 0 (nulls seg)) as [Hpos|Hz].
  - destruct (nulls_pos seg Hpos) as (s1 & s & s2 & Hseg & Hs0 & Hs2).
    destruct s2 as [|y s2' _] using rev_ind.
    { exfalso. apply (Hused s); [|done]. by rewrite Hseg, last_snoc. }
    assert (Hall : forall z, z ∈ s2' -> obj z <> 0).
    { intros z Hz. apply (nulls_none (s2' ++ [y])); [done|]. apply elem_of_app. by left. }
    assert (Htab : table_ t = (lower ++ s1) ++ s :: s2' ++ y :: upper).
    { rewrite Ht, Hseg. rewrite <- !app_assoc. cbn [app]. by rewrite <- app_assoc. }
    assert (Htn : Z.to_nat (topIndex t - 1) = (length (lower ++ s1) + S (length s2'))%nat).
    { rewrite Htop, Hseg, !length_app. cbn [length]. rewrite length_app. simpl. lia. }
    assert (Hhb : hole_below (length (lower ++ s1) + S (length s2')) (table_ t) = Some (length (lower ++ s1)))
      by (rewrite Htab; by apply hole_below_spec).
    rewrite Htn, Hhb. cbn [mbind option_bind].
    assert (Hlk : table_ t !! length (lower ++ s1) = Some s) by (rewrite Htab; by apply list_lookup_middle).
    assert (Hlt : Z.of_nat (length (lower ++ s1)) < topIndex t) by lia.
    rewrite wrapU_id by (unfold inU; lia).
    destruct (fill_get _ o (topIndex t) (numHoles t - 1) (table_ t) (kind_ t) (alloc_entries_ t) (max_entries_ t) s Hlk Ho)
      as (r & E & Hr0 & Hrk & Hri & Hrs); [lia|done|].
    rewrite <- Hh, E. eexists _, r. split; [done|].
    set (x := MkSlot o (nextSerial (serial s))).
    assert (Hins : <[length (lower ++ s1) := x]> (table_ t) = lower ++ (s1 ++ x :: s2' ++ [y]) ++ upper).
    { rewrite Htab, insert_app_r_alt, Nat.sub_diag by lia. rewrite <- !app_assoc. cbn [app list_insert].
      cbn. by rewrite <- !app_assoc. }
    split; [|split; [|left; split; [done|]]].
    + exists lower, (s1 ++ x :: s2' ++ [y]), upper.
      unfold wf_parts. cbn [table_ topIndex numHoles alloc_entries_ max_entries_ kind_]. rewrite Hins.
      assert (Hnn2 : nulls (s1 ++ x :: s2' ++ [y]) = nulls seg - 1).
      { rewrite Hseg, !nulls_app, !nulls_cons. rewrite (decide_False (P := obj x = 0)) by done.
        rewrite (decide_True (P := obj s = 0)) by done. lia. }
      assert (Hl2 : length (s1 ++ x :: s2' ++ [y]) = length seg) by (rewrite Hseg, !length_app; done).
      rewrite Hnn2, Hl2. split; [done|]. split; [done|]. split; [done|]. split; [lia|].
      split; [|split; [|split; [|done]]].
      * intros z. rewrite app_comm_cons, app_assoc, last_snoc. intros [= <-]. apply Hused.
        by rewrite Hseg, app_comm_cons, app_assoc, last_snoc.
      * rewrite Hseg in Hok. apply Forall_app in Hok as [Hok1 Hok2]. apply Forall_cons_1 in Hok2 as [_ Hok2].
        apply Forall_app. split; [done|]. constructor; [intros _; apply nextSerial_bound|done].
      * rewrite Hal, Ht. by rewrite (length_app lower), (length_app lower), (length_app seg), (length_app (s1 ++ _)), Hl2.
    + eapply (framed_parts cookie _ _ lower); [done|exact Ht|exact Hins|done|done].
    + apply (adds_intro (Z.of_nat (length (lower ++ s1))) o r (nextSerial (serial s))); try done.
      * cbn [topIndex table_]. by rewrite length_insert.
      * rewrite slot_at_insert by (lia || by eapply lookup_lt_Some).
        rewrite (proj2 (Z.ltb_lt _ _)), Z.eqb_refl by lia. done.
      * intros ser. unfold slot_at. rewrite (proj2 (Z.ltb_lt _ _)), Nat2Z.id, Hlk by lia. cbn. by rewrite Hs0.
      * intros z. rewrite Nat2Z.id, Hlk. by intros [= <-].
      * intros i ser Hi Hne. rewrite slot_at_insert by (lia || by eapply lookup_lt_Some).
        rewrite (proj2 (Z.eqb_neq i _)), andb_false_r by lia. done.
  - assert (Hz0 : nulls seg = 0) by lia. destruct (Z.eqb_spec (topIndex t) (alloc_entries_ t)) as [Efull|Eroom].
    + destruct (Z.eqb_spec (topIndex t) (max_entries_ t)) as [Emax|Emax].
      { exists t, 0. split; [done|]. split; [done|]. split; [done|]. right. split; [done|]. split; [done|]. split; [done|lia]. }
      set (newSize := if _ >? _ then _ else _).
      assert (Hns : alloc_entries_ t < newSize <= max_entries_ t).
      { subst newSize. rewrite Z.gtb_ltb. destruct (Z.ltb_spec (max_entries_ t) (alloc_entries_ t * 2)); lia. }
      assert (Hup : upper = []).
      { apply length_zero_iff_nil. rewrite Hal, Ht, !length_app in Efull. lia. }
      destruct (repeat d1_slot (Z.to_nat (newSize - alloc_entries_ t))) as [|x up] eqn:Erep.
      { apply (f_equal length) in Erep. rewrite repeat_length in Erep. simpl in Erep. lia. }
      rewrite <- Hh. destruct (add_end cookie t lower seg upper x up o (numHoles t) newSize) with
        (slots := table_ t ++ x :: up) as (t' & r & E & Hwf' & Hfr & Hr0 & Hadds); try done.
      * rewrite Ht, Hup, app_nil_r. by rewrite <- app_assoc.
      * apply (f_equal length) in Erep. rewrite repeat_length in Erep. rewrite length_app, <- Erep. lia.
      * lia.
      * intros i Hi. apply lookup_app_l. lia.
      * intros i Hi. apply lookup_app_l. by apply lookup_lt_is_Some.
      * rewrite E. exists t', r. split; [done|]. split; [done|]. split; [done|]. by left.
    + destruct upper as [|x up]; [rewrite Hal, Ht, !length_app in Eroom; simpl in *; lia|].
      rewrite <- Hh. destruct (add_end cookie t lower seg (x :: up) x up o (numHoles t) (alloc_entries_ t)) with
        (slots := table_ t) as (t' & r & E & Hwf' & Hfr & Hr0 & Hadds); try done.
      * rewrite E. exists t', r. split; [done|]. split; [done|]. split; [done|]. by left.
Qed.

(** *** Removing *)

Lemma eat_holes_spec lower s1 : forall rest,
  exists s1' zs, s1 = s1' ++ zs /\ (forall z, z ∈ zs -> obj z = 0) /\ top_used s1' /\
    eat_holes (length lower + S (length s1)) (Z.of_nat (length lower)) (nulls s1) (lower ++ s1 ++ rest) =
      Some (Z.of_nat (length lower + length s1'), nulls s1').
Proof.
  induction s1 as [|y s1 IH] using rev_ind; intros rest.
  - exists [], []. split; [done|]. split; [intros z Hz; by apply not_elem_of_nil in Hz|]. split; [done|].
    rewrite Nat.add_succ_r. cbn [eat_holes]. rewrite Z.gtb_ltb, (proj2 (Z.ltb_ge _ _)) by (simpl; lia). done.
  - rewrite Nat.add_succ_r. cbn [eat_holes]. rewrite length_app. cbn [length].
    rewrite Z.gtb_ltb, (proj2 (Z.ltb_lt _ _)) by lia. cbn [andb].
    assert (Hstop : obj y <> 0 ->
      exists s1' zs, s1 ++ [y] = s1' ++ zs /\ (forall z, z ∈ zs -> obj z = 0) /\ top_used s1' /\
        Some (Z.of_nat (length lower + (length s1 + 1)), nulls (s1 ++ [y])) =
          Some (Z.of_nat (length lower + length s1'), nulls s1')).
    { intros Hy. exists (s1 ++ [y]), []. rewrite app_nil_r. split; [done|].
      split; [intros z Hz; by apply not_elem_of_nil in Hz|]. split; [intros z; rewrite last_snoc; by intros [= <-]|].
      by rewrite length_app. }
    destruct (Z.eqb_spec (nulls (s1 ++ [y])) 0) as [E|E]; cbn [negb].
    { apply Hstop. apply (nulls_none (s1 ++ [y])); [done|]. apply elem_of_app. right. by left. }
    replace (length lower + (length s1 + 1) - 1)%nat with (length (lower ++ s1)) by (rewrite length_app; lia).
    rewrite <- (app_assoc s1 [y] rest). rewrite (app_assoc lower s1). cbn [app].
    rewrite list_lookup_middle by done. cbn [mbind option_bind].
    destruct (Z.eqb_spec (obj y) 0) as [Hy|Hy]; cbn [negb]; [|by apply Hstop].
    rewrite nulls_app, nulls_cons, decide_True by done.
    replace (nulls s1 + (1 + nulls []) - 1) with (nulls s1) by (unfold nulls; simpl; lia).
    destruct (IH (y :: rest)) as (s1' & zs & Es & Hz & Hu & Ee).
    exists s1', (zs ++ [y]). split; [by rewrite Es, app_assoc|].
    split; [intros z; rewrite elem_of_app, list_elem_of_singleton; intros [?| ->]; [by apply Hz|done]|].
    split; [done|]. rewrite <- (app_assoc lower s1). replace (length s1 + 1)%nat with (S (length s1)) by lia. exact Ee.
Qed.

Definition removes_at (index : Z) (t t' : IndirectRefTable) : Prop :=
  forall i ser, 0 <= i -> meaning (slot_at t' i) ser = if i =? index then Invalid true else meaning (slot_at t i) ser.

(** The segment loses its last entry and the empty slots before it. *)
Lemma remove_top cookie t lower s1 s zs upper top' holes' :
  wf_parts cookie t lower ((s1 ++ zs) ++ [s]) upper -> (forall z, z ∈ zs -> obj z = 0) -> top_used s1 ->
  top' = Z.of_nat (length lower + length s1) -> holes' = parts_numHoles cookie + nulls s1 ->
  let t' := MkTable top' holes' (table_ t) (kind_ t) (alloc_entries_ t) (max_entries_ t) in
  wf cookie t' /\ framed cookie t t' /\ removes_at (topIndex t - 1) t t'.
Proof.
  intros (Ht & Hb & Htop & Hh & Hused & Hok & Hal & Hmax & Hmx & Hc & Hk) Hz Hu -> -> t'.
  rewrite <- !app_assoc in Ht. rewrite !length_app in Htop. cbn [length] in Htop. split; [|split].
  - exists lower, s1, (zs ++ [s] ++ upper). unfold wf_parts. subst t'. cbn [table_ topIndex numHoles alloc_entries_ max_entries_ kind_].
    apply Forall_app in Hok as [Hok _]. apply Forall_app in Hok as [Hok _].
    split; [done|]. split; [done|]. split; [lia|]. split; [done|]. split; [done|]. done.
  - by split.
  - intros i ser Hi. unfold slot_at. subst t'. cbn [topIndex table_].
    destruct (Z.eqb_spec i (topIndex t - 1)) as [->|Hne].
    + by rewrite (proj2 (Z.ltb_ge _ _)) by lia.
    + destruct (Z.ltb_spec i (Z.of_nat (length lower + length s1))) as [Hlt|Hge].
      * by rewrite (proj2 (Z.ltb_lt i (topIndex t))) by lia.
      * destruct (Z.ltb_spec i (topIndex t)) as [Hlt|]; [|done].
        assert (Hzs : exists z, table_ t !! Z.to_nat i = Some z /\ z ∈ zs).
        { destruct (lookup_lt_is_Some_2 zs (Z.to_nat i - length lower - length s1)%nat) as [z Hz']; [lia|].
          exists z. split; [|by eapply list_elem_of_lookup_2].
          rewrite Ht, lookup_app_r, lookup_app_r by lia. by apply lookup_app_l_Some. }
        destruct Hzs as (z & -> & Hzin). cbn [meaning]. by rewrite (Hz z Hzin).
Qed.

Lemma remove_at_spec cookie index t s : wf cookie t -> parts_topIndex cookie <= index < topIndex t ->
  table_ t !! Z.to_nat index = Some s -> obj s <> 0 ->
  exists t', remove_at cookie index t = Some t' /\ wf cookie t' /\ framed cookie t t' /\ removes_at index t t'.
Proof.
  intros (lower & seg & upper & Hp) Hi Hs Hs0.
  pose proof Hp as (Ht & Hb & Htop & Hh & Hused & Hok & Hal & Hmax & Hmx & Hc & Hk).
  pose proof (nulls_nonneg seg) as Hnn.
  assert (Hlen : (length lower + length seg + length upper)%nat = length (table_ t)) by (rewrite Ht, !length_app; lia).
  assert (Hseg : exists s1 s2, seg = s1 ++ s :: s2 /\ Z.of_nat (length lower + length s1) = index).
  { rewrite Ht, lookup_app_r, lookup_app_l in Hs by lia. apply list_elem_of_split_length in Hs as (s1 & s2 & -> & Hl).
    exists s1, s2. split; [done|]. lia. }
  destruct Hseg as (s1 & s2 & -> & Hidx). unfold remove_at. rewrite length_app in *. cbn [length] in *.
  rewrite nulls_app, nulls_cons, decide_False in Hh by done.
  destruct (Z.eqb_spec index (topIndex t - 1)) as [Etop|Enot].
  - destruct s2 as [|y s2]; [|simpl in *; lia]. rewrite Hh. change (nulls []) with 0 in *.
    replace (parts_numHoles cookie + (nulls s1 + (0 + 0)) - parts_numHoles cookie) with (nulls s1) by lia.
    pose proof (nulls_nonneg s1) as Hn1.
    destruct (Z.eqb_spec (nulls s1) 0) as [Ez|Ez]; cbn [negb].
    + destruct (remove_top cookie t lower s1 s [] upper (u16 (topIndex t - 1)) (parts_numHoles cookie + (nulls s1 + (0 + 0))))
        as (Hwf & Hfr & Hrm).
      * rewrite app_nil_r. exact Hp.
      * intros z Hz. by apply not_elem_of_nil in Hz.
      * intros z Hz. apply (nulls_none s1); [done|]. by apply last_Some_elem_of in Hz || (apply last_Some in Hz as [l' ->]; apply elem_of_app; right; by left).
      * rewrite wrapU_id by (unfold inU; lia). simpl in *. lia.
      * lia.
      * eexists. split; [done|]. rewrite Etop. rewrite <- Hh. rewrite Hh. done.
    + destruct (eat_holes_spec lower s1 (s :: upper)) as (s1' & zs & Es & Hz & Hu & Ee).
      assert (Htn : Z.to_nat (topIndex t) = (length lower + S (length s1))%nat) by (simpl in *; lia).
      replace (lower ++ s1 ++ s :: upper) with (table_ t) in Ee by (rewrite Ht, <- app_assoc; done).
      rewrite Hb in Ee. rewrite Htn, Ee. cbn [mbind option_bind]. pose proof (nulls_nonneg s1') as Hn1'.
      assert (length s1' <= length s1)%nat by (rewrite Es, length_app; lia).
      destruct (remove_top cookie t lower s1' s zs upper (u16 (Z.of_nat (length lower + length s1')))
        (u16 (nulls s1' + parts_numHoles cookie))) as (Hwf & Hfr & Hrm).
      * rewrite <- Es. exact Hp.
      * done.
      * done.
      * apply wrapU_id. unfold inU. simpl in *. lia.
      * rewrite wrapU_id; [lia|]. unfold inU. simpl in *. lia.
      * eexists. split; [done|]. rewrite Etop. done.
  - rewrite Hs. cbn [mbind option_bind].
    assert (Hs2 : s2 <> []) by (intros ->; simpl in *; lia).
    assert (Hn : Z.to_nat index = (length lower + length s1)%nat) by lia.
    set (x := MkSlot 0 (serial s)).
    assert (Hins : <[Z.to_nat index := x]> (table_ t) = lower ++ (s1 ++ x :: s2) ++ upper).
    { rewrite Hn, Ht, <- app_assoc, !insert_app_r_alt by lia.
      replace (length lower + length s1 - length lower - length s1)%nat with 0%nat by lia. by rewrite <- app_assoc. }
    eexists. split; [done|]. pose proof (nulls_nonneg s1). pose proof (nulls_nonneg s2).
    split; [|split].
    + exists lower, (s1 ++ x :: s2), upper. unfold wf_parts.
      cbn [table_ topIndex numHoles alloc_entries_ max_entries_ kind_].
      rewrite nulls_app, nulls_cons, (decide_True (P := obj x = 0)) by done. rewrite !length_app. cbn [length].
      rewrite wrapU_id by (unfold inU; lia).
      split; [exact Hins|]. split; [done|]. split; [lia|]. split; [lia|]. split; [|split; [|split; [|done]]].
      * intros z Hz. apply Hused. destruct (exists_last Hs2) as (s2' & y & ->).
        rewrite app_comm_cons, app_assoc, last_snoc in Hz |- *. done.
      * apply Forall_app in Hok as [Hok1 Hok2]. apply Forall_cons_1 in Hok2 as [_ Hok2].
        apply Forall_app. split; [done|]. constructor; [done|done].
      * by rewrite length_insert.
    + eapply (framed_parts cookie t _ lower); [done|exact Ht|exact Hins|done|done].
    + intros i ser Hi0. unfold removes_at. rewrite slot_at_insert by lia. rewrite Z2Nat.id by lia.
      destruct (Z.eqb_spec i index) as [->|Hne]; [|by rewrite andb_false_r].
      rewrite (proj2 (Z.ltb_lt _ _)) by lia. done.
Qed.

(** What a removal does to the meanings: one reference loses its object. *)
Definition removes (r : Z) (t t' : IndirectRefTable) : Prop :=
  forall r', get r' t' = if same_ref r' r then Some (Invalid true) else get r' t.

Lemma meaning_only slot ser ser' o : meaning slot ser = Object o -> ser' <> ser -> meaning slot ser' = Invalid true.
Proof.
  destruct slot as [s|]; [|done]. cbn [meaning]. destruct (obj s =? 0); [done|]. cbn [orb].
  destruct (Z.eqb_spec ser (serial s)) as [->|]; [|done]. intros _ Hne. by rewrite (proj2 (Z.eqb_neq _ _) Hne).
Qed.

Lemma removes_intro index r t t' o : topIndex t <= Z.of_nat (length (table_ t)) ->
  topIndex t' <= Z.of_nat (length (table_ t')) -> kind_ t' = kind_ t ->
  indirectRefKind r = kind_ t -> extractIndex r = index -> get r t = Some (Object o) ->
  removes_at index t t' -> removes r t t'.
Proof.
  intros Ht Ht' Hk Hrk Hri Hget Hrm r'. rewrite !get_meaning by done. rewrite Hk. unfold same_ref. rewrite Hrk, Hri.
  rewrite get_meaning, Hrk, Z.eqb_refl in Hget by done. cbn [negb] in Hget.
  destruct (indirectRefKind r' =? kind_ t); cbn [negb andb]; [|done].
  rewrite Hrm by apply index_bound. destruct (Z.eqb_spec (extractIndex r') index) as [E|E]; cbn [andb]; [|done].
  destruct (Z.eqb_spec (extractSerial r') (extractSerial r)) as [Es|Es]; [done|].
  f_equal. symmetry. rewrite E, <- Hri. injection Hget as Hget. by eapply meaning_only.
Qed.

Lemma remove_spec wa cookie r t : wf cookie t -> wa = false ->
  exists t' b, remove wa cookie r t = Some (t', b) /\ wf cookie t' /\ framed cookie t t' /\
    (if (b : bool) then removes r t t' /\ exists o, get r t = Some (Object o)
     else t' = t /\ (parts_topIndex cookie <= extractIndex r -> exists c, get r t = Some (Invalid c))).
Proof.
  intros Hwf ->. pose proof (wf_top _ _ Hwf) as Htop. pose proof (index_bound r) as Hib. unfold remove.
  rewrite andb_false_r. rewrite get_meaning by done.
  destruct (Z.eqb_spec (indirectRefKind r) (kind_ t)) as [Ek|Ek]; cbn [negb].
  2:{ exists t, false. split; [done|]. split; [done|]. split; [done|]. split; [done|]. intros _. by eexists. }
  assert (Hno : forall c, meaning (slot_at t (extractIndex r)) (extractSerial r) = Invalid c ->
    exists t' b, Some (t, false) = Some (t', b) /\ wf cookie t' /\ framed cookie t t' /\
    (if (b : bool) then removes r t t' /\ exists o, Some (meaning (slot_at t (extractIndex r)) (extractSerial r)) = Some (Object o)
     else t' = t /\ (parts_topIndex cookie <= extractIndex r ->
       exists c, Some (meaning (slot_at t (extractIndex r)) (extractSerial r)) = Some (Invalid c)))).
  { intros c Hc. exists t, false. split; [done|]. split; [done|]. split; [done|]. split; [done|]. intros _. exists c. by rewrite Hc. }
  destruct (Z.ltb_spec (extractIndex r) (parts_topIndex cookie)) as [Hlow|Hlow].
  { exists t, false. split; [done|]. split; [done|]. split; [done|]. split; [done|]. lia. }
  rewrite Z.geb_leb. destruct (Z.leb_spec (topIndex t) (extractIndex r)) as [Hhigh|Hhigh].
  { apply (Hno true). unfold slot_at. by rewrite (proj2 (Z.ltb_ge _ _) Hhigh). }
  destruct (lookup_lt_is_Some_2 (table_ t) (Z.to_nat (extractIndex r))) as [s Hs]; [lia|]. rewrite Hs. cbn [mbind option_bind].
  assert (Hslot : slot_at t (extractIndex r) = Some s) by (unfold slot_at; by rewrite (proj2 (Z.ltb_lt _ _) Hhigh)).
  destruct (Z.eqb_spec (obj s) 0) as [E0|E0].
  { apply (Hno true). rewrite Hslot. cbn [meaning]. by rewrite E0. }
  destruct (Z.eqb_spec (serial s) (extractSerial r)) as [Es|Es]; cbn [negb].
  2:{ apply (Hno true). rewrite Hslot. cbn [meaning]. rewrite (proj2 (Z.eqb_neq (extractSerial r) (serial s))) by congruence.
      by rewrite orb_true_r. }
  destruct (remove_at_spec cookie (extractIndex r) t s Hwf ltac:(lia) Hs E0) as (t' & -> & Hwf' & Hfr & Hrm).
  cbn [mbind option_bind]. exists t', true. split; [done|]. split; [done|]. split; [done|].
  assert (Hm : meaning (slot_at t (extractIndex r)) (extractSerial r) = Object (obj s)).
  { rewrite Hslot. cbn [meaning]. rewrite (proj2 (Z.eqb_neq _ _) E0), Es, Z.eqb_refl. done. }
  split; [|exists (obj s); by rewrite Hm]. apply (removes_intro (extractIndex r) r t t' (obj s)); try done.
  - by eapply wf_top.
  - by destruct Hfr as (_ & -> & _).
  - rewrite get_meaning, Ek, Z.eqb_refl by done. cbn [negb]. by rewrite Hm.
Qed.

Lemma init_wf initialCount maxCount kind : 0 < initialCount <= maxCount -> maxCount < 2 ^ 16 -> 1 <= kind <= 3 ->
  wf IRT_FIRST_SEGMENT (init initialCount maxCount kind).
Proof.
  intros Hi Hm Hk. exists [], [], (repeat d1_slot (Z.to_nat initialCount)). unfold wf_parts, init.
  cbn [table_ topIndex numHoles alloc_entries_ max_entries_ kind_]. rewrite repeat_length.
  split; [done|]. split; [done|]. split; [done|]. split; [done|]. split; [done|].
  split; [by apply Forall_nil|]. split; [lia|]. split; [lia|]. split; [lia|]. split; [|lia]. vm_compute. split; discriminate.
Qed.

(** *** Segments *)

Inductive seg_op := SegAdd (o : Z) | SegRemove (r : Z).

(** Operations in a segment, and what they answer. *)
Fixpoint seg_ops (cookie : Z) (ops : list seg_op) (t : IndirectRefTable) : option (IndirectRefTable * list Z) :=
  match ops with
  | [] => Some (t, [])
  | SegAdd o :: ops =>
      '(t, r) ← add cookie o t; '(t, rs) ← seg_ops cookie ops t; Some (t, r :: rs)
  | SegRemove r :: ops =>
      '(t, b) ← remove false cookie r t; '(t, rs) ← seg_ops cookie ops t;
      Some (t, (if (b : bool) then 1 else 0) :: rs)
  end.

Lemma framed_trans cookie t1 t2 t3 : framed cookie t1 t2 -> framed cookie t2 t3 -> framed cookie t1 t3.
Proof. intros (H1 & H2 & H3) (H4 & H5 & H6). split; [by rewrite H4|]. split; congruence. Qed.

Lemma seg_ops_spec cookie ops : Forall (fun op => match op with SegAdd o => o <> 0 | _ => True end) ops ->
  forall t, wf cookie t -> exists t' rs, seg_ops cookie ops t = Some (t', rs) /\ wf cookie t' /\ framed cookie t t'.
Proof.
  induction ops as [|[o|r] ops IH]; intros Hops t Hwf; cbn [seg_ops].
  - exists t, []. done.
  - apply Forall_cons_1 in Hops as [Ho Hops]. destruct (add_spec cookie o t Hwf Ho) as (t1 & r & -> & Hwf1 & Hfr1 & _).
    cbn [mbind option_bind]. destruct (IH Hops t1 Hwf1) as (t' & rs & -> & Hwf' & Hfr'). cbn [mbind option_bind].
    eexists _, _. split; [done|]. split; [done|]. by eapply framed_trans.
  - apply Forall_cons_1 in Hops as [_ Hops]. destruct (remove_spec false cookie r t Hwf eq_refl) as (t1 & b & -> & Hwf1 & Hfr1 & _).
    cbn [mbind option_bind]. destruct (IH Hops t1 Hwf1) as (t' & rs & -> & Hwf' & Hfr'). cbn [mbind option_bind].
    eexists _, _. split; [done|]. split; [done|]. by eapply framed_trans.
Qed.

Lemma state_parts t : 0 <= topIndex t < 2 ^ 16 -> 0 <= numHoles t ->
  parts_topIndex (segmentState_all t) = topIndex t /\ parts_numHoles (segmentState_all t) = numHoles t.
Proof.
  intros Ht Hh. unfold parts_topIndex, parts_numHoles, segmentState_all. rewrite lor_shiftl_add by lia.
  rewrite (land_mask 16), Z.shiftr_div_pow2 by done. rewrite Z_mod_plus_full, Z.mod_small by done.
  split; [done|]. by rewrite Z.div_add, Z.div_small by lia.
Qed.

Lemma push_wf cookie t : wf cookie t -> wf (segmentState_all t) t /\
  parts_topIndex (segmentState_all t) = topIndex t /\ parts_numHoles (segmentState_all t) = numHoles t.
Proof.
  intros (lower & seg & upper & Ht & Hb & Htop & Hh & Hused & Hok & Hal & Hmax & Hmx & Hc & Hk).
  pose proof (nulls_nonneg seg) as Hnn. pose proof (f_equal length Ht) as Hlen. rewrite !length_app in Hlen.
  destruct (state_parts t) as [E1 E2]; [lia|lia|]. split; [|done].
  exists (lower ++ seg), [], upper. unfold wf_parts. rewrite E1, E2, length_app. change (nulls []) with 0. cbn [length].
  split; [by rewrite <- app_assoc|]. split; [lia|]. split; [lia|]. split; [lia|]. split; [done|].
  split; [by apply Forall_nil|]. split; [done|]. split; [done|]. split; [done|]. split; [lia|done].
Qed.

(** ** Properties *)

(** C35. In a well-formed table, which a new one is, an addition finds room (a hole
    of the segment or its end, growing the memory up to the maximum) unless the
    table is full, and gives the object a reference to an index where no reference meant
    an object, with another serial than the one given out for it last; a removal
    succeeds for exactly the references of the segment that mean an object, and
    makes them stale. No other reference changes its meaning, a stale one is
    detected, and the table stays well-formed. *)
Theorem irt_operations cookie t o r : wf cookie t -> o <> 0 ->
  (exists t' r, add cookie o t = Some (t', r) /\ wf cookie t' /\
    ((0 < r /\ adds r o t t') \/
     (r = 0 /\ t' = t /\ topIndex t = max_entries_ t /\ numHoles t = parts_numHoles cookie))) /\
  (exists t' b, remove false cookie r t = Some (t', b) /\ wf cookie t' /\
    if (b : bool) then removes r t t' /\ exists o, get r t = Some (Object o)
    else t' = t /\ (parts_topIndex cookie <= extractIndex r -> exists c, get r t = Some (Invalid c))).
Proof.
  intros Hwf Ho. split.
  - destruct (add_spec cookie o t Hwf Ho) as (t' & r' & E & Hwf' & _ & H). by exists t', r'.
  - destruct (remove_spec false cookie r t Hwf eq_refl) as (t' & b & E & Hwf' & _ & H). by exists t', b.
Qed.

(** A table with one object; another is added, and the first removed. *)
Definition one_object : IndirectRefTable := MkTable 1 0 (MkSlot 4096 5 :: repeat d1_slot 7) kIndirectKindLocal 8 16.

Lemma one_object_wf : wf IRT_FIRST_SEGMENT one_object.
Proof.
  exists [], [MkSlot 4096 5], (repeat d1_slot 7). unfold wf_parts, one_object, nulls. split_and!; try done.
  - intros s. cbn. by intros [= <-].
  - constructor; [intros _; cbn; lia|done].
Qed.

Lemma irt_operations_witness :
  (exists t' r, add IRT_FIRST_SEGMENT 8192 one_object = Some (t', r) /\ 0 < r /\ adds r 8192 one_object t') /\
  (exists t', remove false IRT_FIRST_SEGMENT (toIndirectRef 0 5 kIndirectKindLocal) one_object = Some (t', true) /\
     removes (toIndirectRef 0 5 kIndirectKindLocal) one_object t').
Proof.
  destruct (irt_operations IRT_FIRST_SEGMENT one_object 8192 (toIndirectRef 0 5 kIndirectKindLocal) one_object_wf ltac:(discriminate))
    as [(t' & r & E & _ & Ha) (t2 & b & E2 & _ & Hb)]. split.
  - exists t', r. split; [exact E|]. destruct Ha as [Ha|(_ & _ & Hf & _)]; [exact Ha|]. exfalso. vm_compute in Hf. discriminate.
  - exists t2. assert (b = true) as -> by (vm_compute in E2; injection E2 as _ <-; reflexivity). split; [exact E2|]. apply Hb.
Defined.

(** A frame leaves no trace: whatever is added and removed in a new segment,
    when the saved state is put back every reference means what it meant before,
    and the outer segment is well-formed. *)
Theorem irt_pop_restores cookie t ops : wf cookie t ->
  Forall (fun op => match op with SegAdd o => o <> 0 | _ => True end) ops ->
  exists t' rs, seg_ops (segmentState_all t) ops t = Some (t', rs) /\
    wf cookie (set_segment (segmentState_all t) t') /\
    forall r, get r (set_segment (segmentState_all t) t') = get r t.
Proof.
  intros Hwf Hops. destruct (push_wf cookie t Hwf) as (Hwf2 & E1 & E2).
  destruct (seg_ops_spec (segmentState_all t) ops Hops t Hwf2) as (t' & rs & E & Hwf' & Hfr & Hkind & Hmx').
  exists t', rs. split; [done|]. pose proof (wf_top _ _ Hwf) as Htop.
  destruct Hwf' as (lower' & seg' & upper' & Ht' & Hb' & _ & _ & _ & _ & Hal' & Hmax' & _ & _ & _).
  pose proof (f_equal length Ht') as Hlen'. rewrite !length_app in Hlen'. rewrite E1 in *.
  pose proof Hwf as (lower & seg & upper & Ht & Hb & Htop2 & Hh & Hused & Hok & Hal & Hmax & Hmx & Hc & Hk).
  split.
  - exists lower, seg, (drop (Z.to_nat (topIndex t)) (table_ t')). unfold wf_parts, set_segment.
    cbn [table_ topIndex numHoles alloc_entries_ max_entries_ kind_]. rewrite E1, E2, Hkind.
    split; [|do 9 (split; [done || lia|]); done].
    rewrite app_assoc. rewrite <- (take_drop (Z.to_nat (topIndex t)) (table_ t')) at 1. f_equal.
    rewrite Hfr, Ht, app_assoc. apply take_app_length'. rewrite length_app. lia.
  - intros r. set (t2 := set_segment (segmentState_all t) t').
    assert (Ha : topIndex t2 <= Z.of_nat (length (table_ t2))).
    { subst t2. unfold set_segment. cbn [topIndex table_]. rewrite E1. lia. }
    assert (Hk2 : kind_ t2 = kind_ t) by exact Hkind.
    rewrite (get_meaning r t2 Ha), (get_meaning r t Htop), Hk2. subst t2.
    destruct (negb _); [reflexivity|]. do 2 f_equal. unfold slot_at, set_segment. cbn [topIndex table_].
    rewrite E1. destruct (Z.ltb_spec (extractIndex r) (topIndex t)) as [Hlt|]; [|reflexivity].
    pose proof (index_bound r). set (n := Z.to_nat (extractIndex r)).
    rewrite <- (lookup_take_lt (table_ t') (Z.to_nat (topIndex t)) n) by lia.
    rewrite <- (lookup_take_lt (table_ t) (Z.to_nat (topIndex t)) n) by lia. by rewrite Hfr.
Qed.

Lemma irt_pop_restores_witness :
  exists t' rs, seg_ops (segmentState_all (init 4 16 kIndirectKindLocal)) [SegAdd 4096; SegAdd 8192; SegRemove 5]
      (init 4 16 kIndirectKindLocal) = Some (t', rs) /\
    wf IRT_FIRST_SEGMENT (set_segment (segmentState_all (init 4 16 kIndirectKindLocal)) t') /\
    forall r, get r (set_segment (segmentState_all (init 4 16 kIndirectKindLocal)) t') = get r (init 4 16 kIndirectKindLocal).
Proof.
  apply irt_pop_restores.
  - apply init_wf; [lia|lia|]. unfold kIndirectKindLocal. lia.
  - repeat constructor; discriminate.
Defined.
