(* ===== verification/AtomicCache.v ===== *)
(** * The lock-free cache: [dalvik/vm/AtomicCache.h] and [AtomicCache.cpp]

    Threads look up pairs of keys in a shared table without locking it: they read the
    version of an entry, its fields, and the version again, and update an entry whose
    version they could mark. The accesses to shared memory are the steps of a thread,
    and any thread may be next; memory is sequentially consistent. *)

From S2P Require Import Prelude Bits Search.

(** ** Data *)

Record AtomicCacheEntry := MkEntry { key1 : Z; key2 : Z; value : Z; version : Z }.

Definition set_key1 (x : Z) (e : AtomicCacheEntry) := MkEntry x (key2 e) (value e) (version e).
Definition set_key2 (x : Z) (e : AtomicCacheEntry) := MkEntry (key1 e) x (value e) (version e).
Definition set_value (x : Z) (e : AtomicCacheEntry) := MkEntry (key1 e) (key2 e) x (version e).
Definition set_version (x : Z) (e : AtomicCacheEntry) := MkEntry (key1 e) (key2 e) (value e) x.

Definition ATOMIC_LOCK_FLAG : Z := 0x80000000.

(** As [calloc] leaves the entries. *)
Definition dvmAllocAtomicCache (numEntries : Z) : list AtomicCacheEntry :=
  repeat (MkEntry 0 0 0 0) (Z.to_nat numEntries).

(** Where a thread is in [ATOMIC_CACHE_LOOKUP] and [dvmUpdateAtomicCache], with the
    locals that are still needed: the next access to the entry. *)
Inductive point :=
  | Begin
  | ReadKey1 (firstVersion : Z)
  | ReadKey2 (firstVersion : Z)
  | ReadValue (firstVersion : Z)
  | ReadVersion (firstVersion v : Z)
  | TryLock (firstVersion v : Z)
  | StoreOdd (firstVersion v : Z)
  | StoreKey1 (firstVersion v : Z)
  | StoreKey2 (firstVersion v : Z)
  | StoreValue (firstVersion v : Z)
  | StoreEven (firstVersion v : Z)
  | Unlock (firstVersion v : Z)
  | Return (v : Z)
  | Aborted.

Record thread := MkThread { _key1 : Z; _key2 : Z; at_ : point }.

Definition goto (p : point) (t : thread) : thread := MkThread (_key1 t) (_key2 t) p.

(** [android_atomic_release_cas] on the version: whether it was changed. *)
Definition cas_version (before after : Z) (e : AtomicCacheEntry) : bool * AtomicCacheEntry :=
  if version e =? before then (true, set_version after e) else (false, e).

(** [(firstVersion | ATOMIC_LOCK_FLAG) + 1]. *)
Definition newVersion (firstVersion : Z) : Z := u32 (Z.lor firstVersion ATOMIC_LOCK_FLAG + 1).

(** ** Steps *)

Section Cache.
(** [ATOMIC_CACHE_CALC] of the keys, [ATOMIC_CACHE_NULL_ALLOWED] and the size. *)
Context (ATOMIC_CACHE_CALC : Z -> Z -> Z) (ATOMIC_CACHE_NULL_ALLOWED : bool) (_cacheSize : Z).

Definition hash (t : thread) : Z :=
  Z.land (Z.lxor (Z.shiftr (_key1 t) 2) (_key2 t)) (_cacheSize - 1).

(** The keys do not match: the result is computed, and stored or not. *)
Definition mismatch (t : thread) (firstVersion : Z) : thread :=
  let v := ATOMIC_CACHE_CALC (_key1 t) (_key2 t) in
  if (v =? 0) && ATOMIC_CACHE_NULL_ALLOWED then goto (TryLock firstVersion v) t
  else goto (Return v) t.

(** One access of a thread to its entry; [None]: the thread is done. *)
Definition thread_step (e : AtomicCacheEntry) (t : thread) : option (AtomicCacheEntry * thread) :=
  match at_ t with
  | Begin => Some (e, goto (ReadKey1 (version e)) t)
  | ReadKey1 firstVersion =>
      if key1 e =? _key1 t then Some (e, goto (ReadKey2 firstVersion) t)
      else Some (e, mismatch t firstVersion)
  | ReadKey2 firstVersion =>
      if key2 e =? _key2 t then Some (e, goto (ReadValue firstVersion) t)
      else Some (e, mismatch t firstVersion)
  | ReadValue firstVersion => Some (e, goto (ReadVersion firstVersion (value e)) t)
  | ReadVersion firstVersion v =>
      let secondVersion := version e in
      if negb (Z.land firstVersion 0x01 =? 0) || negb (firstVersion =? secondVersion)
      then Some (e, goto (Return (ATOMIC_CACHE_CALC (_key1 t) (_key2 t))) t)
      else Some (e, goto (Return v) t)
  | TryLock firstVersion v =>
      if negb (Z.land firstVersion ATOMIC_LOCK_FLAG =? 0) then Some (e, goto (Return v) t)
      else
        let '(done_, e) := cas_version firstVersion (Z.lor firstVersion ATOMIC_LOCK_FLAG) e in
        if (done_ : bool) then Some (e, goto (StoreOdd firstVersion v) t) else Some (e, goto (Return v) t)
  | StoreOdd firstVersion v =>
      Some (set_version (newVersion firstVersion) e, goto (StoreKey1 firstVersion v) t)
  | StoreKey1 firstVersion v => Some (set_key1 (_key1 t) e, goto (StoreKey2 firstVersion v) t)
  | StoreKey2 firstVersion v => Some (set_key2 (_key2 t) e, goto (StoreValue firstVersion v) t)
  | StoreValue firstVersion v => Some (set_value v e, goto (StoreEven firstVersion v) t)
  | StoreEven firstVersion v =>
      Some (set_version (u32 (newVersion firstVersion + 1)) e, goto (Unlock firstVersion v) t)
  | Unlock firstVersion v =>
      let last := u32 (newVersion firstVersion + 1) in
      let '(done_, e) := cas_version last (Z.land last (Z.lnot ATOMIC_LOCK_FLAG)) e in
      Some (e, goto (if (done_ : bool) then Return v else Aborted) t)
  | Return _ | Aborted => None
  end.

(** The shared entries and the threads. *)
Record state := MkState { entries : list AtomicCacheEntry; threads : list thread }.

(** Some thread makes an access, or a new lookup begins. *)
Inductive step : state -> state -> Prop :=
  | step_thread es ts i t e e' t' : ts !! i = Some t -> aref es (hash t) = Some e ->
      thread_step e t = Some (e', t') ->
      step (MkState es ts) (MkState (<[Z.to_nat (hash t) := e']> es) (<[i := t']> ts))
  | step_begin es ts k1 k2 : k1 <> 0 -> step (MkState es ts) (MkState es (ts ++ [MkThread k1 k2 Begin])).

Definition start : state := MkState (dvmAllocAtomicCache _cacheSize) [].

(** ** The invariant *)

Abbreviation calc t := (ATOMIC_CACHE_CALC (_key1 t) (_key2 t)).

(** The version without the lock flag. *)
Definition epoch (v : Z) : Z := v mod 2 ^ 31.

Definition locked (v : Z) : Z := v + 2 ^ 31.

(** The fields belong together; an entry nobody stored into has no keys. *)
Definition consistent (e : AtomicCacheEntry) : Prop :=
  key1 e = 0 \/ value e = ATOMIC_CACHE_CALC (key1 e) (key2 e).

(** After [n] steps. *)
Definition entry_ok (n : nat) (e : AtomicCacheEntry) : Prop :=
  0 <= version e < 2 ^ 32 /\ epoch (version e) <= Z.of_nat n /\
  (Z.even (version e) = true -> consistent e) /\
  (version e < 2 ^ 31 -> Z.even (version e) = true).

(** The thread holds the lock of its entry. *)
Definition writing (t : thread) : bool :=
  match at_ t with
  | StoreOdd _ _ | StoreKey1 _ _ | StoreKey2 _ _ | StoreValue _ _ | StoreEven _ _ | Unlock _ _ => true
  | _ => false
  end.

(** The entry changed neither since the version was read nor while it was. *)
Definition unchanged (firstVersion : Z) (e : AtomicCacheEntry) : Prop :=
  Z.even firstVersion = true /\ epoch firstVersion = epoch (version e).

Definition seen (firstVersion : Z) (e : AtomicCacheEntry) : Prop :=
  0 <= firstVersion < 2 ^ 32 /\ epoch firstVersion <= epoch (version e).

(** What a thread knows of its entry. *)
Definition knows (t : thread) (e : AtomicCacheEntry) : Prop :=
  match at_ t with
  | ReadKey1 f | TryLock f _ => seen f e
  | ReadKey2 f => seen f e /\ (unchanged f e -> key1 e = _key1 t)
  | ReadValue f => seen f e /\ (unchanged f e -> key1 e = _key1 t /\ key2 e = _key2 t)
  | ReadVersion f v => seen f e /\ (unchanged f e -> key1 e = _key1 t /\ key2 e = _key2 t /\ value e = v)
  | StoreOdd f _ => 0 <= f < 2 ^ 31 /\ Z.even f = true /\ version e = locked f /\ consistent e
  | StoreKey1 f _ => 0 <= f < 2 ^ 31 /\ Z.even f = true /\ version e = locked (f + 1)
  | StoreKey2 f _ => 0 <= f < 2 ^ 31 /\ Z.even f = true /\ version e = locked (f + 1) /\ key1 e = _key1 t
  | StoreValue f _ => 0 <= f < 2 ^ 31 /\ Z.even f = true /\ version e = locked (f + 1) /\
      key1 e = _key1 t /\ key2 e = _key2 t
  | StoreEven f v => 0 <= f < 2 ^ 31 /\ Z.even f = true /\ version e = locked (f + 1) /\
      key1 e = _key1 t /\ key2 e = _key2 t /\ value e = v
  | Unlock f _ => 0 <= f < 2 ^ 31 /\ Z.even f = true /\ version e = locked (f + 2) /\ consistent e
  | Begin | Return _ | Aborted => True
  end.

(** A result, once computed or found, is the one of the keys. *)
Definition result_ok (t : thread) : Prop :=
  match at_ t with
  | TryLock _ v | StoreOdd _ v | StoreKey1 _ v | StoreKey2 _ v | StoreValue _ v | StoreEven _ v
  | Unlock _ v | Return v => v = calc t
  | Aborted => False
  | _ => True
  end.

Record invariant (n : nat) (s : state) : Prop := {
  inv_entries h e : aref (entries s) h = Some e -> entry_ok n e;
  inv_threads i t : threads s !! i = Some t -> _key1 t <> 0 /\ result_ok t;
  inv_knows i t e : threads s !! i = Some t -> aref (entries s) (hash t) = Some e -> knows t e;
  inv_one_writer i j t t' : threads s !! i = Some t -> threads s !! j = Some t' ->
    writing t = true -> writing t' = true -> hash t = hash t' -> i = j
}.

(** ** Lemmas: versions *)

Lemma lor_lock f : 0 <= f < 2 ^ 31 -> Z.lor f ATOMIC_LOCK_FLAG = locked f.
Proof.
  intros H. change ATOMIC_LOCK_FLAG with (Z.shiftl 1 31). rewrite lor_shiftl_add by lia.
  unfold locked. lia.
Qed.

Lemma high_bit f : 0 <= f < 2 ^ 31 -> Z.testbit f 31 = false.
Proof. intros H. apply Z.testbit_false; [lia|]. by rewrite Z.div_small. Qed.

Lemma one_bit i : i <> 31 -> Z.testbit 1 (i - 31) = false.
Proof.
  intros H. destruct (Z.lt_ge_cases i 31); [apply Z.testbit_neg_r; lia|apply Z.bits_above_log2; cbn; lia].
Qed.

Lemma land_lock f : 0 <= f < 2 ^ 32 -> Z.land f ATOMIC_LOCK_FLAG = 0 <-> f < 2 ^ 31.
Proof.
  intros H. change ATOMIC_LOCK_FLAG with (Z.shiftl 1 31). split; intros E.
  - destruct (Z.lt_ge_cases f (2 ^ 31)); [done|]. exfalso.
    assert (Hb : Z.testbit f 31 = true).
    { apply Z.testbit_true; [lia|]. assert (f / 2 ^ 31 = 1) as -> by dlia. done. }
    apply (f_equal (fun x => Z.testbit x 31)) in E. rewrite Z.land_spec, Hb, Z.shiftl_spec, Z.bits_0 in E by lia. done.
  - apply Z.bits_inj'. intros i Hi. rewrite Z.land_spec, Z.shiftl_spec, Z.bits_0 by done.
    destruct (decide (i = 31)) as [->|]; [rewrite (high_bit f) by lia; done|].
    rewrite one_bit by done. apply andb_false_r.
Qed.

Lemma land_unlock f : 0 <= f < 2 ^ 31 -> Z.land (locked f) (Z.lnot ATOMIC_LOCK_FLAG) = f.
Proof.
  intros H. rewrite <- lor_lock by done. rewrite <- Z.ldiff_land. apply Z.bits_inj'. intros i Hi. rewrite Z.ldiff_spec, Z.lor_spec. change ATOMIC_LOCK_FLAG with (Z.shiftl 1 31).
  rewrite Z.shiftl_spec by done. destruct (decide (i = 31)) as [->|].
  - rewrite high_bit by done. reflexivity.
  - rewrite one_bit by done. by rewrite orb_false_r, andb_true_r.
Qed.

Lemma new_version f : 0 <= f < 2 ^ 31 - 2 -> newVersion f = locked (f + 1) /\ u32 (newVersion f + 1) = locked (f + 2).
Proof.
  intros H. unfold newVersion. rewrite lor_lock by lia. unfold locked.
  rewrite (wrapU_id 32 (f + 2 ^ 31 + 1)) by (unfold inU; lia). rewrite wrapU_id by (unfold inU; lia). lia.
Qed.

Lemma epoch_locked f : 0 <= f < 2 ^ 31 -> epoch (locked f) = f.
Proof. unfold epoch, locked. intros H. dlia. Qed.

Lemma epoch_small f : 0 <= f < 2 ^ 31 -> epoch f = f.
Proof. unfold epoch. intros H. by rewrite Z.mod_small. Qed.

Lemma even_epoch v : Z.even (epoch v) = Z.even v.
Proof.
  unfold epoch. rewrite (Z.div_mod v (2 ^ 31)) at 2 by lia.
  rewrite Z.even_add, Z.even_mul. change (Z.even (2 ^ 31)) with true. cbn [orb]. by destruct (Z.even _).
Qed.

Lemma even_locked f : 0 <= f < 2 ^ 31 -> Z.even (locked f) = Z.even f.
Proof. intros H. by rewrite <- even_epoch, epoch_locked. Qed.

Lemma land_1 f : Z.land f 0x01 = 0 <-> Z.even f = true.
Proof. rewrite (land_mask 1) by done. change (2 ^ 1) with 2. rewrite Zmod_even. by destruct (Z.even f). Qed.

(** ** Lemmas: one entry *)

(** How an entry changes: its epoch only grows, and while it is even and the same
    the fields are too. *)
Definition advance (e e' : AtomicCacheEntry) : Prop :=
  epoch (version e) <= epoch (version e') /\
  (epoch (version e) = epoch (version e') -> Z.even (epoch (version e)) = true ->
   key1 e' = key1 e /\ key2 e' = key2 e /\ value e' = value e).

Lemma advance_refl e : advance e e.
Proof. by split. Qed.

Lemma seen_advance f e e' : advance e e' -> seen f e -> seen f e'.
Proof. intros [H _] [? ?]. split; [done|lia]. Qed.

Lemma unchanged_advance f e e' : advance e e' -> seen f e -> unchanged f e' ->
  unchanged f e /\ key1 e' = key1 e /\ key2 e' = key2 e /\ value e' = value e.
Proof.
  intros [H1 H2] [_ H3] [H4 H5]. assert (E : epoch (version e) = epoch (version e')) by lia.
  split; [split; [done|lia]|]. apply H2; [done|]. by rewrite E, <- H5, even_epoch.
Qed.

(** Threads that do not hold the lock keep what they know. *)
Lemma knows_advance t e e' : advance e e' -> writing t = false -> knows t e -> knows t e'.
Proof.
  intros Ha Hw. unfold knows, writing in *. destruct (at_ t); try done; intros Hk.
  all: try by eapply seen_advance.
  all: destruct Hk as [Hs Hk]; split; [by eapply seen_advance|]; intros Hu.
  all: destruct (unchanged_advance _ _ _ Ha Hs Hu) as (Hu' & E1 & E2 & E3);
    rewrite ?E1, ?E2, ?E3; by apply Hk.
Qed.

(** A step of a thread: how its entry changes, and what the thread knows then. *)
Definition step_ok (n : nat) (t : thread) (e e' : AtomicCacheEntry) (t' : thread) : Prop :=
  advance e e' /\ entry_ok (S n) e' /\ knows t' e' /\ result_ok t' /\
  _key1 t' = _key1 t /\ _key2 t' = _key2 t /\
  (writing t = false -> e' = e \/ version e < 2 ^ 31) /\
  (writing t' = true -> writing t = true \/ version e < 2 ^ 31).

Lemma entry_ok_S n e : entry_ok n e -> entry_ok (S n) e.
Proof. intros (? & ? & ?). split; [done|]. split; [lia|done]. Qed.

Ltac step_same := split_and!; [apply advance_refl|by apply entry_ok_S|..]; try done; try by left.

Lemma mismatch_ok n t e f : entry_ok n e -> seen f e -> step_ok n t e e (mismatch t f).
Proof.
  intros He Hs. unfold mismatch. destruct ((calc t =? 0) && ATOMIC_CACHE_NULL_ALLOWED); step_same.
Qed.

Lemma reader_step_ok n t e e' t' : entry_ok n e -> _key1 t <> 0 -> result_ok t -> knows t e ->
  writing t = false -> thread_step e t = Some (e', t') -> (forall f v, at_ t <> TryLock f v) ->
  step_ok n t e e' t'.
Proof.
  intros He Hk Hr Hkn Hw Hst Hno. destruct t as [k1 k2 p]. cbn [_key1 _key2 at_] in *.
  unfold thread_step in Hst. destruct p as [|f|f|f|f v|f v|f v|f v|f v|f v|f v|f v|v|]; cbn [at_ _key1 _key2] in Hst; try done.
  - injection Hst as <- <-. step_same. destruct He as (? & _). by split.
  - destruct (Z.eqb_spec (key1 e) k1); injection Hst as <- <-; [step_same|by apply mismatch_ok].
  - destruct Hkn as [Hs Hk1]. destruct (Z.eqb_spec (key2 e) k2); injection Hst as <- <-; [|by apply mismatch_ok].
    step_same. split; [done|]. intros Hu. by split; [apply Hk1|].
  - destruct Hkn as [Hs Hk1]. injection Hst as <- <-. step_same. split; [done|]. intros Hu.
    destruct (Hk1 Hu). by split_and!.
  - destruct Hkn as [Hs Hk1]. destruct (Z.eqb_spec (Z.land f 0x01) 0) as [Hev%land_1|]; cbn [negb orb] in Hst;
      [|injection Hst as <- <-; step_same].
    destruct (Z.eqb_spec f (version e)) as [->|]; cbn [negb] in Hst; injection Hst as <- <-; step_same.
    destruct (Hk1 (conj Hev eq_refl)) as (E1 & E2 & <-). destruct He as (_ & _ & Hc & _).
    unfold result_ok. cbn. cbn [_key1 _key2] in *. destruct (Hc Hev) as [E0|E]; [congruence|by rewrite E, E1, E2].
  - by destruct (Hno f v).
Qed.

Lemma lock_step_ok n t e e' t' f v : entry_ok n e -> result_ok t -> knows t e -> at_ t = TryLock f v ->
  thread_step e t = Some (e', t') -> step_ok n t e e' t'.
Proof.
  intros He Hr Hkn Hat. destruct t as [k1 k2 p]. cbn [at_] in Hat. subst p. unfold thread_step. cbn [at_].
  destruct Hkn as [Hf Hle]. destruct (Z.eqb_spec (Z.land f ATOMIC_LOCK_FLAG) 0) as [Hl|]; cbn [negb];
    [apply land_lock in Hl; [|done]|intros [= <- <-]; step_same].
  unfold cas_version. destruct (Z.eqb_spec (version e) f) as [Hv|]; intros [= <- <-]; [|step_same].
  rewrite lor_lock by lia. destruct He as (Hr1 & Hn & Hc & Hu). assert (Hev : Z.even f = true) by (rewrite <- Hv; apply Hu; lia).
  rewrite Hv, epoch_small in Hn by lia. split_and!; try done.
  - unfold advance. cbn. by rewrite Hv, epoch_locked, epoch_small by lia.
  - unfold entry_ok. cbn. rewrite epoch_locked by lia. unfold locked. split; [lia|]. split; [lia|].
    split; [|lia]. intros _. apply Hc. by rewrite Hv.
  - unfold knows. cbn. split; [lia|]. split; [done|]. split; [done|]. apply Hc. by rewrite Hv.
  - right. lia.
  - right. lia.
Qed.

(** The epoch of an entry somebody writes to. *)
Lemma written_bound n e f k : entry_ok n e -> Z.of_nat n < 2 ^ 31 - 4 -> version e = locked (f + k) ->
  0 <= f < 2 ^ 31 -> 0 <= k <= 2 -> f + k <= Z.of_nat n.
Proof.
  intros (Hr & Hn & _) Hb Hv Hf Hk. rewrite Hv in *. unfold epoch, locked in *.
  destruct (Z.lt_ge_cases (f + k) (2 ^ 31)); [|lia].
  assert ((f + k + 2 ^ 31) mod 2 ^ 31 = f + k) by dlia. lia.
Qed.

(** The writer's stores: to a field while the epoch is odd, or to the version. *)
Lemma stored n e e' f k k' : entry_ok n e -> Z.of_nat n < 2 ^ 31 - 4 -> 0 <= f < 2 ^ 31 -> Z.even f = true ->
  version e = locked (f + k) -> version e' = locked (f + k') -> 0 <= k <= 2 -> k <= k' <= 2 -> k' <= k + 1 ->
  k = 1 \/ k < k' -> (k' <> 1 -> consistent e') -> advance e e' /\ entry_ok (S n) e'.
Proof.
  intros He Hb Hf Hev Hv Hv' Hk Hk' Hk1 Hdiff Hc. pose proof (written_bound n e f k He Hb Hv Hf Hk) as Hn.
  assert (Hpar : Z.even (f + 1) = false) by (by rewrite Z.even_add, Hev). split.
  - unfold advance. rewrite Hv, Hv', !epoch_locked by lia. split; [lia|]. intros E Heven. exfalso.
    destruct Hdiff as [->|]; [congruence|lia].
  - unfold entry_ok. rewrite Hv', even_locked, epoch_locked by lia. unfold locked.
    split; [lia|]. split; [lia|]. split; [|lia]. intros Heven. apply Hc. intros ->. congruence.
Qed.

Lemma store_step_ok n t e e' t' : entry_ok n e -> Z.of_nat n < 2 ^ 31 - 4 -> result_ok t -> knows t e ->
  writing t = true -> thread_step e t = Some (e', t') -> step_ok n t e e' t'.
Proof.
  intros He Hb Hr Hkn Hw Hst. enough ((advance e e' /\ entry_ok (S n) e') /\ knows t' e' /\ result_ok t' /\
    _key1 t' = _key1 t /\ _key2 t' = _key2 t) as ([? ?] & ? & ? & ? & ?).
  { unfold step_ok. rewrite Hw. split_and!; try done. by left. }
  destruct t as [k1 k2 p]. unfold thread_step in Hst. cbn [at_ _key1 _key2] in Hst. unfold result_ok in *.
  destruct p as [|f|f|f|f v|f v|f v|f v|f v|f v|f v|f v|v|]; try done; cbn [at_ _key1 _key2 goto] in *.
  - destruct Hkn as (Hf & Hev & Hv & Hc). assert (Hv0 : version e = locked (f + 0)) by by rewrite Z.add_0_r.
    pose proof (written_bound n e f 0 He Hb Hv0 Hf ltac:(lia)). destruct (new_version f) as [N1 _]; [lia|].
    rewrite N1 in Hst. injection Hst as <- <-.
    split; [by eapply (stored n e _ f 0 1); cbn; try done; lia|]. by unfold knows; cbn.
  - destruct Hkn as (Hf & Hev & Hv). injection Hst as <- <-.
    split; [by eapply (stored n e _ f 1 1); cbn; try done; (lia || by left)|]. by unfold knows; cbn.
  - destruct Hkn as (Hf & Hev & Hv & Hk1). injection Hst as <- <-.
    split; [by eapply (stored n e _ f 1 1); cbn; try done; (lia || by left)|]. by unfold knows; cbn.
  - destruct Hkn as (Hf & Hev & Hv & Hk1 & Hk2). injection Hst as <- <-.
    split; [by eapply (stored n e _ f 1 1); cbn; try done; (lia || by left)|]. by unfold knows; cbn.
  - destruct Hkn as (Hf & Hev & Hv & Hk1 & Hk2 & Hval).
    pose proof (written_bound n e f 1 He Hb Hv Hf ltac:(lia)). destruct (new_version f) as [_ N2]; [lia|].
    rewrite N2 in Hst. injection Hst as <- <-.
    assert (Hc : consistent (set_version (locked (f + 2)) e)) by (right; cbn; by rewrite Hk1, Hk2, Hval).
    split; [eapply (stored n e _ f 1 2); cbn; try done; (lia || by left)|]. by unfold knows; cbn.
  - destruct Hkn as (Hf & Hev & Hv & Hc).
    pose proof (written_bound n e f 2 He Hb Hv Hf ltac:(lia)) as Hn. destruct (new_version f) as [_ N2]; [lia|].
    rewrite N2, land_unlock in Hst by lia. unfold cas_version in Hst. rewrite Hv, Z.eqb_refl in Hst.
    injection Hst as <- <-. split; [|done]. split.
    + unfold advance. cbn. by rewrite Hv, epoch_locked, epoch_small by lia.
    + unfold entry_ok. cbn. rewrite epoch_small by lia. rewrite Z.even_add, Hev. split; [lia|]. split; [lia|]. done.
Qed.

(** ** Lemmas: the whole cache *)

Lemma any_step_ok n t e e' t' : entry_ok n e -> Z.of_nat n < 2 ^ 31 - 4 -> _key1 t <> 0 -> result_ok t ->
  knows t e -> thread_step e t = Some (e', t') -> step_ok n t e e' t'.
Proof.
  intros He Hb Hk Hr Hkn Hst. destruct (writing t) eqn:Hw; [by apply store_step_ok|].
  destruct (at_ t) as [|f|f|f|f v|f v|f v|f v|f v|f v|f v|f v|v|] eqn:Hat;
    try (apply reader_step_ok; [done..|]; intros f' v'; by rewrite Hat).
  by eapply lock_step_ok.
Qed.

Lemma writer_locked t e : writing t = true -> knows t e -> 2 ^ 31 <= version e.
Proof.
  unfold writing, knows. destruct (at_ t); try done; intros _ (? & _ & Hv & _) || intros _ (? & _ & Hv);
    rewrite Hv; unfold locked; lia.
Qed.

Lemma hash_keys t t' : _key1 t' = _key1 t -> _key2 t' = _key2 t -> hash t' = hash t.
Proof. unfold hash. by intros -> ->. Qed.

Lemma aref_insert (es : list AtomicCacheEntry) h k e e' : aref es h = Some e ->
  aref (<[Z.to_nat h := e']> es) k = if decide (k = h) then Some e' else aref es k.
Proof.
  intros He. pose proof (aref_lt _ _ _ He). unfold aref. destruct (decide (k = h)) as [->|Hne].
  - rewrite (proj2 (Z.leb_le 0 h)) by lia. apply list_lookup_insert_eq. lia.
  - destruct (Z.leb_spec 0 k); [|done]. apply list_lookup_insert_ne. lia.
Qed.

Lemma invariant_step n s s' : Z.of_nat n < 2 ^ 31 - 4 -> invariant n s -> step s s' -> invariant (S n) s'.
Proof.
  intros Hb Hi Hstep. destruct Hstep as [es ts i t e e' t' Ht He Hst|es ts k1 k2 Hk].
  - pose proof (inv_entries _ _ Hi _ _ He) as Hok. destruct (inv_threads _ _ Hi _ _ Ht) as [Hk Hr].
    pose proof (inv_knows _ _ Hi _ _ _ Ht He) as Hkn.
    destruct (any_step_ok n t e e' t' Hok Hb Hk Hr Hkn Hst) as (Hadv & Hok' & Hkn' & Hr' & E1 & E2 & Hnw & Hw').
    pose proof (hash_keys t t' E1 E2) as Eh. cbn [entries threads] in *.
    assert (Hother : forall j tj ej, j <> i -> ts !! j = Some tj -> hash tj = hash t -> aref es (hash tj) = Some ej ->
      writing tj = true -> writing t = true \/ version e < 2 ^ 31 -> False).
    { intros j tj ej Hj Htj Eh' Hej Hwj Hor. rewrite Eh' in Hej. assert (ej = e) as -> by congruence.
      destruct Hor as [Hwt|Hlow]; [by apply Hj, (inv_one_writer _ _ Hi j i tj t)|].
      rewrite <- Eh' in He. pose proof (writer_locked tj e Hwj (inv_knows _ _ Hi _ _ _ Htj He)). lia. }
    split; cbn [entries threads].
    + intros h x. rewrite (aref_insert es _ _ e) by done. destruct (decide _); [by intros [= <-]|].
      intros Hx. by apply entry_ok_S, (inv_entries _ _ Hi h).
    + intros j tj [(-> & <- & _)|[_ Htj]]%list_lookup_insert_Some; [by rewrite E1|by apply (inv_threads _ _ Hi j)].
    + intros j tj ej Htj. rewrite (aref_insert es _ _ e) by done. intros Hej.
      apply list_lookup_insert_Some in Htj as [(-> & <- & _)|[Hj Htj]].
      { rewrite Eh in Hej. destruct (decide _); [|done]. by injection Hej as <-. }
      destruct (decide (hash tj = hash t)) as [Eh'|]; [|by apply (inv_knows _ _ Hi j)]. injection Hej as <-.
      assert (Hej : aref es (hash tj) = Some e) by by rewrite Eh'.
      pose proof (inv_knows _ _ Hi _ _ _ Htj Hej) as Hknj.
      destruct (writing tj) eqn:Hwj; [|by eapply knows_advance].
      destruct (writing t) eqn:Hwt; [by destruct (Hother j tj e ltac:(congruence) Htj Eh' Hej Hwj ltac:(by left))|].
      destruct (Hnw eq_refl) as [->|Hlow]; [done|].
      by destruct (Hother j tj e ltac:(congruence) Htj Eh' Hej Hwj ltac:(by right)).
    + assert (Hnew : forall j tj, j <> i -> ts !! j = Some tj -> writing t' = true -> writing tj = true -> hash tj = hash t -> False).
      { intros j tj Hj Htj Hw1 Hw2 Eh'. apply (Hother j tj e Hj Htj Eh'); [by rewrite Eh'|done|by apply Hw']. }
      intros j1 j2 t1 t2 H1 H2 Hw1 Hw2 Eh'.
      apply list_lookup_insert_Some in H1 as [(-> & <- & _)|[Hj1 H1]];
        apply list_lookup_insert_Some in H2 as [(-> & <- & _)|[Hj2 H2]]; [done|..].
      * destruct (Hnew j2 t2); (congruence || done).
      * destruct (Hnew j1 t1); (congruence || done).
      * by apply (inv_one_writer _ _ Hi j1 j2 t1 t2).
  - destruct Hi as [I1 I2 I3 I4]. cbn [entries threads] in *. split; cbn [entries threads].
    + intros h e He. by eapply entry_ok_S, I1.
    + intros i t [Ht|[_ Ht]]%lookup_app_Some; [by eapply I2|]. apply list_lookup_singleton_Some in Ht as [_ <-]. done.
    + intros i t e [Ht|[_ Ht]]%lookup_app_Some; [by eapply I3|]. apply list_lookup_singleton_Some in Ht as [_ <-]. done.
    + intros i j t t' [Ht|[_ Ht]]%lookup_app_Some [Ht'|[_ Ht']]%lookup_app_Some Hw Hw';
        try (apply list_lookup_singleton_Some in Ht as [_ <-]; done);
        try (apply list_lookup_singleton_Some in Ht' as [_ <-]; done). by eapply I4.
Qed.

Lemma invariant_steps n s s' : nsteps step n s s' -> forall m, Z.of_nat (m + n) < 2 ^ 31 - 4 ->
  invariant m s -> invariant (m + n) s'.
Proof.
  induction 1 as [s|n s1 s2 s3 Hstep _ IH]; intros m Hb Hi; [by rewrite Nat.add_0_r|].
  rewrite Nat.add_succ_r. change (S (m + n)) with (S m + n)%nat. apply IH; [lia|].
  apply (invariant_step m s1); [lia|done|done].
Qed.

Lemma invariant_start : invariant 0 start.
Proof.
  split; unfold start; cbn [entries threads]; try (intros i t Ht; by rewrite lookup_nil in Ht).
  - intros h e He. pose proof (aref_lt _ _ _ He). rewrite aref_nat in He by lia.
    apply list_elem_of_lookup_2, list_elem_of_In, repeat_spec in He as ->. split; [done|].
    split; [done|]. split; [by left|done].
  - intros i t e Ht. by rewrite lookup_nil in Ht.
  - intros i j t t' Ht. by rewrite lookup_nil in Ht.
Qed.

(** ** Lemmas: the end of a lookup *)

Definition finished (t : thread) : bool :=
  match at_ t with Return _ | Aborted => true | _ => false end.

(** The thread's own steps, the entry being at each of them whatever the other threads
    have made of it. *)
Definition own_steps (es : list AtomicCacheEntry) (t : thread) : thread :=
  fold_left (fun t e => match thread_step e t with Some (_, t') => t' | None => t end) es t.

(** The accesses left at most. *)
Definition remaining (t : thread) : nat :=
  match at_ t with
  | Begin => 10 | ReadKey1 _ => 9 | ReadKey2 _ => 8 | ReadValue _ => 2 | ReadVersion _ _ => 1
  | TryLock _ _ => 7 | StoreOdd _ _ => 6 | StoreKey1 _ _ => 5 | StoreKey2 _ _ => 4
  | StoreValue _ _ => 3 | StoreEven _ _ => 2 | Unlock _ _ => 1 | Return _ | Aborted => 0
  end%nat.

Lemma step_remaining e t : finished t = false ->
  exists e' t', thread_step e t = Some (e', t') /\ (remaining t' < remaining t)%nat.
Proof.
  destruct t as [k1 k2 p]. unfold finished, thread_step, mismatch, cas_version, remaining. cbn [at_ _key1 _key2].
  destruct p; try done; intros _;
    repeat match goal with |- context [if ?b then _ else _] => destruct b end;
    eexists _, _; (split; [reflexivity|cbn; lia]).
Qed.

Lemma own_steps_end es : forall t, (remaining t <= length es)%nat -> finished (own_steps es t) = true.
Proof.
  induction es as [|e es IH]; intros t Hr.
  - destruct (finished t) eqn:E; [done|]. destruct (step_remaining (MkEntry 0 0 0 0) t E) as (e' & t' & _ & Hlt).
    cbn [length] in Hr. lia.
  - unfold own_steps. cbn [fold_left]. fold (own_steps es). apply IH. cbn [length] in Hr.
    destruct (finished t) eqn:E.
    + unfold finished in E. destruct t as [k1 k2 p]. destruct p; try done; cbn; lia.
    + destruct (step_remaining e t E) as (e' & t' & -> & Hlt). lia.
Qed.

(** ** Lemmas: what is stored *)

(** The test before an update lets nothing but null results through. *)
Definition null_only (s : state) : Prop :=
  (forall h e, aref (entries s) h = Some e -> value e = 0) /\
  forall i t, threads s !! i = Some t ->
    match at_ t with
    | TryLock _ v | StoreOdd _ v | StoreKey1 _ v | StoreKey2 _ v | StoreValue _ v | StoreEven _ v | Unlock _ v => v = 0
    | _ => True
    end.

Lemma null_only_step s s' : null_only s -> step s s' -> null_only s'.
Proof.
  intros [He Ht] Hstep. destruct Hstep as [es ts i t e e' t' Hi Hh Hst|es ts k1 k2 Hk]; cbn [entries threads] in *.
  - specialize (Ht i t Hi) as Hp. specialize (He _ _ Hh) as Hv. destruct t as [x1 x2 p].
    assert (Hres : value e' = 0 /\
      match at_ t' with
      | TryLock _ v | StoreOdd _ v | StoreKey1 _ v | StoreKey2 _ v | StoreValue _ v | StoreEven _ v | Unlock _ v => v = 0
      | _ => True
      end).
    { unfold thread_step, mismatch, cas_version in Hst. cbn [at_ _key1 _key2] in Hst, Hp.
      destruct p; try done;
        repeat match type of Hst with
        | context [if (?a =? 0) && ?b then _ else _] => destruct (Z.eqb_spec a 0); cbn [andb] in Hst
        | context [if ?b then _ else _] => destruct b
        end; injection Hst as <- <-; cbn; by split. }
    destruct Hres as [Hv' Hp']. split; cbn [entries threads].
    + intros h x. rewrite (aref_insert es _ _ e) by done. destruct (decide _); [by intros [= <-]|apply He].
    + by intros j tj [(-> & <- & _)|[_ Htj]]%list_lookup_insert_Some; [|apply (Ht j)].
  - split; [done|]. intros i t [Hi|[_ Hi]]%lookup_app_Some; [by apply (Ht i)|].
    by apply list_lookup_singleton_Some in Hi as [_ <-].
Qed.

(** No result other than null is ever kept. *)
Lemma only_null_cached s h e : rtc step start s -> aref (entries s) h = Some e -> value e = 0.
Proof.
  intros Hrtc. assert (H0 : null_only start).
  { split; unfold start; cbn [entries threads]; [|by intros i t Hi; rewrite lookup_nil in Hi].
    intros k x Hx. pose proof (aref_lt _ _ _ Hx). rewrite aref_nat in Hx by lia.
    by apply list_elem_of_lookup_2, list_elem_of_In, repeat_spec in Hx as ->. }
  revert s Hrtc h e. enough (H : forall s, rtc step start s -> null_only s) by (intros s Hs; apply (H s Hs)).
  refine (rtc_ind_r _ start H0 _). intros s s' _ Hstep IH. by eapply null_only_step.
Qed.

(** ** Properties *)

Lemma answers_right n s : nsteps step n start s -> Z.of_nat n < 2 ^ 31 - 4 ->
  forall i t, threads s !! i = Some t ->
    at_ t <> Aborted /\ forall v, at_ t = Return v -> v = ATOMIC_CACHE_CALC (_key1 t) (_key2 t).
Proof.
  intros Hs Hb i t Ht. pose proof (invariant_steps n start s Hs 0 Hb invariant_start) as Hi.
  destruct (inv_threads _ _ Hi i t Ht) as [_ Hr]. unfold result_ok in Hr.
  split; [by intros E; rewrite E in Hr|]. intros v E. by rewrite E in Hr.
Qed.

(** C23. The cache gives right answers to any number of threads. From an empty cache,
    after any interleaving of the accesses of any threads (fewer than 2^31 - 4, for the
    version is a counter), a lookup that has returned has the result of the
    calculation for its keys, wherever it found it, whoever wrote it and whatever was
    being written while it read; and no thread fails to give its lock back. *)
Theorem cache_answers n s : nsteps step n start s -> Z.of_nat n < 2 ^ 31 - 4 ->
  forall i t, threads s !! i = Some t ->
    at_ t <> Aborted /\ forall v, at_ t = Return v -> v = ATOMIC_CACHE_CALC (_key1 t) (_key2 t).
Proof. apply answers_right. Qed.

(** C24. A lookup does not wait: whatever the other threads make of its entry between
    its accesses, it ends after at most ten of its own. *)
Theorem lookup_wait_free es k1 k2 : (10 <= length es)%nat ->
  finished (own_steps es (MkThread k1 k2 Begin)) = true.
Proof. intros H. by apply own_steps_end. Qed.

End Cache.

(** ** Witnesses *)

(** Runs by a list of the threads to go on with. *)
Inductive action := Lookup (k1 k2 : Z) | Go (i : nat).

Definition act calc null_ok size (a : action) (s : state) : option state :=
  match a with
  | Lookup k1 k2 => if k1 =? 0 then None else Some (MkState (entries s) (threads s ++ [MkThread k1 k2 Begin]))
  | Go i =>
      t ← threads s !! i;
      e ← aref (entries s) (hash size t);
      '(e', t') ← thread_step calc null_ok e t;
      Some (MkState (<[Z.to_nat (hash size t) := e']> (entries s)) (<[i := t']> (threads s)))
  end.

Fixpoint run calc null_ok size (l : list action) (s : state) : option state :=
  match l with
  | [] => Some s
  | a :: l => s ← act calc null_ok size a s; run calc null_ok size l s
  end.

Lemma run_steps calc null_ok size l : forall s s', run calc null_ok size l s = Some s' ->
  nsteps (step calc null_ok size) (length l) s s'.
Proof.
  induction l as [|a l IH]; intros s s'; cbn [run]; [intros [= <-]; constructor|].
  destruct (act _ _ _ a s) as [s1|] eqn:E; [|done]. cbn [mbind option_bind]. intros H.
  apply (nsteps_l _ _ _ s1); [|by apply IH]. destruct s as [es ts]. destruct a as [k1 k2|i]; cbn [act entries threads] in E.
  - destruct (Z.eqb_spec k1 0); [done|]. injection E as <-. by constructor.
  - destruct (ts !! i) as [t|] eqn:Et; [|done]. cbn [mbind option_bind] in E.
    destruct (aref es (hash size t)) as [e|] eqn:Ee; [|done]. cbn [mbind option_bind] in E.
    destruct (thread_step calc null_ok e t) as [[e' t']|] eqn:Est; [|done]. injection E as <-. by econstructor.
Qed.

(** Two lookups of the same keys, the second reading while the first writes. *)
Definition ex_run : list action :=
  [Lookup 4 8; Lookup 4 8; Go 0; Go 0; Go 0; Go 0; Go 0; Go 1; Go 0; Go 1; Go 0; Go 1; Go 0; Go 0; Go 1; Go 1].

Definition ex_calc (k1 k2 : Z) : Z := if k1 =? k2 then 1 else 0.

Lemma cache_answers_witness : exists s, nsteps (step ex_calc true 4) 16 (start 4) s /\
  threads s !! 1%nat = Some (MkThread 4 8 (Return 0)) /\ 0 = ex_calc 4 8.
Proof.
  destruct (run ex_calc true 4 ex_run (start 4)) as [s|] eqn:E; [|vm_compute in E; discriminate].
  pose proof (run_steps _ _ _ _ _ _ E) as Hs. exists s. split; [exact Hs|].
  assert (Ht : threads s !! 1%nat = Some (MkThread 4 8 (Return 0))) by (vm_compute in E; injection E as <-; reflexivity).
  split; [exact Ht|]. destruct (cache_answers ex_calc true 4 16 s Hs ltac:(vm_compute; reflexivity) 1 _ Ht) as [_ H].
  exact (H 0 eq_refl).
Defined.

Lemma lookup_wait_free_witness :
  finished (own_steps ex_calc true (repeat (MkEntry 4 0 0 6) 10) (MkThread 4 8 Begin)) = true.
Proof. apply (lookup_wait_free ex_calc true). vm_compute. lia. Defined.
