(* ===== verification/TypeCheck.v ===== *)
(** * Type checks: [dalvik/vm/oo/TypeCheck.cpp]

    Whether an object of a class is an instance of another, on a heap of linked
    classes: pointers to them are numbers, [NULL] is 0, and following a pointer to no
    class is [None]. *)

From stdpp Require Import gmap.
From S2P Require Import Prelude DexFile.

(** ** Classes *)

(** [iftable]: the classes of its entries. *)
Record ClassObject := MkClass {
  descriptor : list Z;
  accessFlags : Z;
  primitiveType : PrimitiveType;
  super : Z;
  elementClass : Z;
  arrayDim : Z;
  iftable : list Z
}.

Definition ACC_INTERFACE : Z := 0x00000200.

Definition dvmIsArrayClass (clazz : ClassObject) : bool :=
  match descriptor clazz with c :: _ => c =? 91 | [] => false end.

Definition dvmIsInterfaceClass (clazz : ClassObject) : bool :=
  negb (Z.land (accessFlags clazz) ACC_INTERFACE =? 0).

Definition dvmIsPrimitiveClass (clazz : ClassObject) : bool :=
  match primitiveType clazz with PRIM_NOT => false | _ => true end.

Section Heap.
Context (classes : gmap Z ClassObject).

(** ** The checks *)

Definition dvmImplements (clazz interface : Z) : option bool :=
  k ← classes !! clazz; Some (existsb (fun i => i =? interface) (iftable k)).

(** [fuel]: more than the length of any chain of superclasses. *)
Fixpoint dvmIsSubClass (fuel : nat) (sub clazz : Z) : option bool :=
  match fuel with
  | O => None
  | S fuel =>
      if sub =? clazz then Some true
      else
        k ← classes !! sub;
        if super k =? 0 then Some false else dvmIsSubClass fuel (super k) clazz
  end.

Section Arrays.
(** [dvmInstanceof] on the elements. *)
Context (dvmInstanceof : Z -> Z -> option bool).

Definition isArrayInstanceOfArray (subElemClass subDim clazz : Z) : option bool :=
  l ← classes !! clazz;
  if subDim =? arrayDim l then dvmInstanceof subElemClass (elementClass l)
  else if subDim >? arrayDim l then
    e ← classes !! elementClass l;
    if dvmIsInterfaceClass e then dvmImplements clazz (elementClass l)
    else Some (elementClass l =? super l)
  else Some false.

Definition isArrayInstanceOf (sub clazz : Z) : option bool :=
  k ← classes !! sub;
  l ← classes !! clazz;
  if negb (dvmIsArrayClass l) then Some (clazz =? super k)
  else isArrayInstanceOfArray (elementClass k) (arrayDim k) clazz.

End Arrays.

Context (fuel : nat).

(** [nesting]: arrays are taken apart once, their elements being no arrays. *)
Fixpoint dvmInstanceofNonTrivial (nesting : nat) (instance clazz : Z) : option bool :=
  match nesting with
  | O => None
  | S nesting =>
      l ← classes !! clazz;
      if dvmIsInterfaceClass l then dvmImplements instance clazz
      else
        k ← classes !! instance;
        if dvmIsArrayClass k then
          isArrayInstanceOf (fun i c => if i =? c then Some true else dvmInstanceofNonTrivial nesting i c)
            instance clazz
        else dvmIsSubClass fuel instance clazz
  end.

(** [isInstanceof]: the calculation, without the cache in front of it. *)
Definition isInstanceof : Z -> Z -> option bool := dvmInstanceofNonTrivial 2.

Definition dvmInstanceof (instance clazz : Z) : option bool :=
  if instance =? clazz then Some true else isInstanceof instance clazz.

Definition dvmCanPutArrayElement (objectClass arrayClass : Z) : option bool :=
  k ← classes !! objectClass;
  if dvmIsArrayClass k
  then isArrayInstanceOfArray dvmInstanceof (elementClass k) (arrayDim k + 1) arrayClass
  else isArrayInstanceOfArray dvmInstanceof objectClass 1 arrayClass.

(** ** Types

    A type is a class or interface or primitive type and a number of dimensions. *)

Definition type : Set := Z * nat.

Definition type_of (c : Z) : type :=
  match classes !! c with
  | Some k => if dvmIsArrayClass k then (elementClass k, Z.to_nat (arrayDim k)) else (c, 0%nat)
  | None => (c, 0%nat)
  end.

Definition reference (t : type) : Prop :=
  t.2 <> 0%nat \/ exists k, classes !! t.1 = Some k /\ dvmIsPrimitiveClass k = false.

(** [java.lang.Object], and the interfaces of all arrays. *)
Context (Object : Z) (array_interfaces : list Z).

(** Subtypes, as the Java language has them. *)
Inductive subtype : type -> type -> Prop :=
  | subtype_refl t : subtype t t
  | subtype_trans t1 t2 t3 : subtype t1 t2 -> subtype t2 t3 -> subtype t1 t3
  | subtype_super c k : classes !! c = Some k -> dvmIsArrayClass k = false -> super k <> 0 ->
      subtype (c, 0%nat) (super k, 0%nat)
  | subtype_interface c k i : classes !! c = Some k -> dvmIsArrayClass k = false -> i ∈ iftable k ->
      subtype (c, 0%nat) (i, 0%nat)
  | subtype_array_object c n : subtype (c, S n) (Object, 0%nat)
  | subtype_array_interface c n i : i ∈ array_interfaces -> subtype (c, S n) (i, 0%nat)
  | subtype_covariant c n d m : reference (c, n) -> subtype (c, n) (d, m) -> subtype (c, S n) (d, S m).

(** ** Linked classes *)

Definition plain (k : ClassObject) : Prop :=
  dvmIsArrayClass k = false /\ dvmIsInterfaceClass k = false /\ dvmIsPrimitiveClass k = false.

(** What class linking makes of classes. [depth]: the length of the chain of
    superclasses. *)
Record hierarchy_ok (depth : Z -> nat) : Prop := {
  h_null : classes !! 0 = None;
  h_object : exists k, classes !! Object = Some k /\ plain k /\ super k = 0 /\ iftable k = [];
  h_super c k : classes !! c = Some k -> super k <> 0 ->
    exists k', classes !! super k = Some k' /\ plain k' /\ (depth (super k) < depth c)%nat /\ iftable k' ⊆ iftable k;
  h_root c k : classes !! c = Some k -> super k = 0 -> c = Object \/ dvmIsPrimitiveClass k = true;
  h_primitive c k : classes !! c = Some k -> dvmIsPrimitiveClass k = true ->
    super k = 0 /\ iftable k = [] /\ dvmIsArrayClass k = false /\ dvmIsInterfaceClass k = false;
  h_interface c k : classes !! c = Some k -> dvmIsInterfaceClass k = true ->
    super k = Object /\ dvmIsArrayClass k = false;
  h_iftable c k i : classes !! c = Some k -> i ∈ iftable k ->
    exists j, classes !! i = Some j /\ dvmIsInterfaceClass j = true /\ iftable j ⊆ iftable k;
  h_array c k : classes !! c = Some k -> dvmIsArrayClass k = true ->
    0 < arrayDim k /\ super k = Object /\ iftable k = array_interfaces /\
    exists e, classes !! elementClass k = Some e /\ dvmIsArrayClass e = false;
  h_array_interfaces i j : i ∈ array_interfaces -> classes !! i = Some j -> iftable j = [];
  h_depth c k : classes !! c = Some k -> (depth c < fuel)%nat
}.

(** ** Lemmas: chains of superclasses *)

Definition super_of (c d : Z) : Prop := exists k, classes !! c = Some k /\ super k = d /\ d <> 0.

(** Subtyping of types without dimensions. *)
Definition base_sub (c d : Z) : Prop :=
  rtc super_of c d \/ exists k, classes !! c = Some k /\ d ∈ iftable k.

Section Hierarchy.
Context (depth : Z -> nat).
Hypothesis H : hierarchy_ok depth.

Lemma sub_class_spec f : forall c k d, classes !! c = Some k -> (depth c < f)%nat ->
  exists b, dvmIsSubClass f c d = Some b /\ (b = true <-> rtc super_of c d).
Proof using H.
  induction f as [|f IH]; intros c k d Hc Hf; [lia|]. cbn [dvmIsSubClass].
  destruct (Z.eqb_spec c d) as [->|Hne]; [by exists true|]. rewrite Hc. cbn [mbind option_bind].
  destruct (Z.eqb_spec (super k) 0) as [E0|Hs].
  - exists false. split; [done|]. split; [done|]. intros Hr. exfalso.
    apply rtc_inv in Hr as [->|(x & (k' & Hk' & <- & Hx) & _)]; [done|]. congruence.
  - destruct (h_super _ H c k Hc Hs) as (k' & Hk' & _ & Hd & _).
    destruct (IH (super k) k' d Hk' ltac:(lia)) as (b & E & Hb). exists b. split; [done|]. rewrite Hb. split; intros Hr.
    + apply (rtc_l _ _ (super k)); [|done]. by exists k.
    + apply rtc_inv in Hr as [->|(x & (k2 & Hk2 & <- & Hx) & Hr)]; [done|]. by assert (k2 = k) as -> by congruence.
Qed.

Lemma object_top d : rtc super_of Object d -> d = Object.
Proof using H.
  intros Hr. apply rtc_inv in Hr as [->|(x & (k & Hk & <- & Hx) & _)]; [done|].
  destruct (h_object _ H) as (k' & Hk' & _ & E & _). congruence.
Qed.

Lemma reaches_object n : forall c k, (depth c <= n)%nat -> classes !! c = Some k ->
  dvmIsPrimitiveClass k = false -> rtc super_of c Object.
Proof using H.
  induction n as [n IH] using lt_wf_ind. intros c k Hn Hc Hp.
  destruct (decide (super k = 0)) as [E0|Hs].
  - by destruct (h_root _ H c k Hc E0) as [->|]; [|congruence].
  - destruct (h_super _ H c k Hc Hs) as (k' & Hk' & (_ & _ & Hp') & Hd & _).
    apply (rtc_l _ _ (super k)); [by exists k|]. apply (IH (depth (super k)) ltac:(lia) _ k'); [lia|done|done].
Qed.

Lemma interface_reference c k : classes !! c = Some k -> dvmIsInterfaceClass k = true -> dvmIsPrimitiveClass k = false.
Proof using H.
  intros Hc Hi. destruct (dvmIsPrimitiveClass k) eqn:Hp; [|done].
  destruct (h_primitive _ H c k Hc Hp) as (_ & _ & _ & ?). congruence.
Qed.

Lemma iftable_inherited c d k l : rtc super_of c d -> classes !! c = Some k -> classes !! d = Some l ->
  iftable l ⊆ iftable k.
Proof using H.
  intros Hr. revert k. induction Hr as [c|c x d (k0 & Hk0 & <- & Hx) _ IH]; intros k Hc Hd.
  - by assert (k = l) as -> by congruence.
  - assert (k0 = k) as -> by congruence. destruct (h_super _ H c k Hc Hx) as (k' & Hk' & _ & _ & Hsub).
    intros i Hi. by apply Hsub, (IH k').
Qed.

Lemma super_defined c d k : rtc super_of c d -> classes !! c = Some k -> exists l, classes !! d = Some l.
Proof using H.
  intros Hr. revert k. induction Hr as [c|c x d (k0 & Hk0 & <- & Hx) _ IH]; intros k Hc; [by exists k|].
  assert (k0 = k) as -> by congruence. destruct (h_super _ H c k Hc Hx) as (k' & Hk' & _). by apply (IH k').
Qed.

(** Above an interface there is [Object] only, besides what it extends. *)
Lemma above_interface i j d : classes !! i = Some j -> dvmIsInterfaceClass j = true -> rtc super_of i d ->
  d = i \/ d = Object.
Proof using H.
  intros Hj Hi Hr. apply rtc_inv in Hr as [->|(x & (k & Hk & <- & Hx) & Hr)]; [by left|]. right.
  assert (k = j) as -> by congruence. destruct (h_interface _ H i j Hj Hi) as [E _]. rewrite E in Hr.
  by apply object_top.
Qed.

Lemma base_sub_trans c d e : base_sub c d -> base_sub d e -> base_sub c e.
Proof using H.
  intros [Hcd|(k & Hk & Hd)] [Hde|(l & Hl & He)].
  - left. by etrans.
  - apply rtc_inv in Hcd as [->|(x & (k & Hk & <- & Hx) & Hr)]; [right; by exists l|]. right. exists k. split; [done|].
    apply (iftable_inherited c d k l); [|done..|done]. apply (rtc_l _ _ (super k)); [by exists k|done].
  - destruct (h_iftable _ H c k d Hk Hd) as (j & Hj & Hi & _).
    destruct (above_interface d j e Hj Hi Hde) as [->| ->]; [right; by exists k|]. left.
    apply (reaches_object (depth c) c k); [done|done|]. destruct (dvmIsPrimitiveClass k) eqn:Hp; [|done].
    destruct (h_primitive _ H c k Hk Hp) as (_ & E & _). rewrite E in Hd. by apply not_elem_of_nil in Hd.
  - right. exists k. split; [done|]. destruct (h_iftable _ H c k d Hk Hd) as (j & Hj & _ & Hsub).
    assert (j = l) as -> by congruence. by apply Hsub.
Qed.

(** ** Lemmas: subtypes *)

Definition above_arrays (d : Z) : Prop := d = Object \/ d ∈ array_interfaces.

(** Subtyping by dimensions. *)
Definition sub_dims (t u : type) : Prop :=
  (t.2 = u.2 /\ base_sub t.1 u.1) \/ ((u.2 < t.2)%nat /\ above_arrays u.1).

Hypothesis Hai : forall i, i ∈ array_interfaces -> exists j, classes !! i = Some j /\ dvmIsInterfaceClass j = true.

Lemma above_above d e : above_arrays d -> base_sub d e -> above_arrays e.
Proof using H Hai.
  intros [->|Hd] [Hr|(k & Hk & He)].
  - left. by apply object_top.
  - destruct (h_object _ H) as (k' & Hk' & _ & _ & E). assert (k = k') as -> by congruence.
    rewrite E in He. by apply not_elem_of_nil in He.
  - destruct (Hai d Hd) as (j & Hj & Hi). destruct (above_interface d j e Hj Hi Hr) as [->| ->]; [by right|by left].
  - rewrite (h_array_interfaces _ H d k Hd Hk) in He. by apply not_elem_of_nil in He.
Qed.

Lemma sub_dims_trans t u v : sub_dims t u -> sub_dims u v -> sub_dims t v.
Proof using H Hai.
  intros [[E1 B1]|[L1 A1]] [[E2 B2]|[L2 A2]].
  - left. split; [congruence|by eapply base_sub_trans].
  - right. split; [lia|done].
  - right. split; [lia|by eapply above_above].
  - right. split; [lia|done].
Qed.

Lemma subtype_sub_dims t u : subtype t u -> sub_dims t u.
Proof using H Hai.
  induction 1 as [t|t u v _ IH1 _ IH2|c k Hk _ Hs|c k i Hk _ Hi|c n|c n i Hi|c n d m _ _ IH].
  - left. split; [done|]. by left.
  - by eapply sub_dims_trans.
  - left. split; [done|]. left. apply rtc_once. by exists k.
  - left. split; [done|]. right. by exists k.
  - right. split; [cbn; lia|by left].
  - right. split; [cbn; lia|by right].
  - destruct IH as [[E B]|[L A]]; cbn in *; [left; cbn; split; [lia|done]|right; cbn; split; [lia|done]].
Qed.

Lemma super_not_array c d k : rtc super_of c d -> classes !! c = Some k -> dvmIsArrayClass k = false ->
  subtype (c, 0%nat) (d, 0%nat).
Proof using H.
  intros Hr. revert k. induction Hr as [c|c x d (k0 & Hk0 & <- & Hx) _ IH]; intros k Hc Ha; [constructor|].
  assert (k0 = k) as -> by congruence. destruct (h_super _ H c k Hc Hx) as (k' & Hk' & (Ha' & _) & _).
  eapply subtype_trans; [by apply (subtype_super c k)|by apply (IH k')].
Qed.

Lemma base_subtype c d k : classes !! c = Some k -> dvmIsArrayClass k = false -> base_sub c d ->
  subtype (c, 0%nat) (d, 0%nat).
Proof using H.
  intros Hc Ha [Hr|(k' & Hk' & Hi)]; [by eapply super_not_array|]. assert (k' = k) as -> by congruence. by apply (subtype_interface c k).
Qed.

Lemma base_subtype_dims n c d k : classes !! c = Some k -> dvmIsArrayClass k = false -> base_sub c d ->
  subtype (c, n) (d, n).
Proof using H.
  intros Hc Ha Hb. destruct (dvmIsPrimitiveClass k) eqn:Hp.
  - assert (d = c) as ->; [|constructor]. destruct (h_primitive _ H c k Hc Hp) as (Es & Ei & _).
    destruct Hb as [Hr|(k' & Hk' & Hi)].
    + apply rtc_inv in Hr as [->|(x & (k2 & Hk2 & <- & Hx) & _)]; [done|]. congruence.
    + assert (k' = k) as -> by congruence. rewrite Ei in Hi. by apply not_elem_of_nil in Hi.
  - induction n as [|n IH]; [by eapply base_subtype|]. apply subtype_covariant; [|done].
    right. by exists k.
Qed.

Lemma above_subtype d n : above_arrays d -> forall m c, (m < n)%nat -> subtype (c, n) (d, m).
Proof using.
  intros Hd m. revert n. induction m as [|m IH]; intros n c Hlt; (destruct n as [|n]; [lia|]).
  - destruct Hd as [->|Hd]; by constructor.
  - apply subtype_covariant; [left; cbn; lia|]. apply IH. lia.
Qed.

Lemma sub_dims_subtype t u k : classes !! t.1 = Some k -> dvmIsArrayClass k = false -> sub_dims t u -> subtype t u.
Proof using H.
  destruct t as [c n], u as [d m]. cbn. intros Hc Ha [[E B]|[L A]]; cbn in *.
  - subst m. by eapply base_subtype_dims.
  - by apply above_subtype.
Qed.

(** ** Lemmas: the checks *)

Lemma implements_spec c k d : classes !! c = Some k ->
  exists b, dvmImplements c d = Some b /\ (b = true <-> d ∈ iftable k).
Proof using.
  intros Hc. unfold dvmImplements. rewrite Hc. cbn [mbind option_bind]. eexists. split; [done|].
  rewrite existsb_exists. split.
  - intros (x & Hx & ->%Z.eqb_eq). by apply list_elem_of_In.
  - intros Hd. exists d. split; [by apply list_elem_of_In|apply Z.eqb_refl].
Qed.

(** Of an interface only the table matters. *)
Lemma interface_base c k i j : classes !! c = Some k -> dvmIsArrayClass k = false -> classes !! i = Some j ->
  dvmIsInterfaceClass j = true -> i ∈ iftable k \/ c = i <-> base_sub c i.
Proof using H.
  intros Hc Ha Hj Hi. split.
  - intros [Hd| ->]; [right; by exists k|by left].
  - intros [Hr|(k' & Hk' & Hd)]; [|left; congruence]. destruct (h_object _ H) as (o & Ho & (_ & Hoi & _) & _).
    apply rtc_inv in Hr as [->|(x & Hs & Hr)]; [by right|]. exfalso.
    destruct Hs as (k' & Hk' & <- & Hx). assert (k' = k) as -> by congruence.
    destruct (h_super _ H c k Hc Hx) as (s & Hs & (_ & Hsi & _) & _).
    clear -H Hr Hs Hsi Hj Hi. remember (super k) as y eqn:Ey. clear Ey.
    revert s Hs Hsi. induction Hr as [y|y z i (s0 & Hs0 & <- & Hz) _ IH]; intros s Hs Hsi; [congruence|].
    assert (s0 = s) as -> by congruence. destruct (h_super _ H y s Hs Hz) as (s' & Hs' & (_ & Hsi' & _) & _).
    by apply (IH Hj s').
Qed.

(** Classes that are not arrays. *)
Lemma instance_plain n c d k l : classes !! c = Some k -> dvmIsArrayClass k = false ->
  classes !! d = Some l -> dvmIsArrayClass l = false ->
  exists b, (if c =? d then Some true else dvmInstanceofNonTrivial (S n) c d) = Some b /\
    (b = true <-> base_sub c d).
Proof using H.
  intros Hc Ha Hd Hl. destruct (Z.eqb_spec c d) as [->|Hne]; [exists true; split; [done|]; split; [by left|done]|].
  cbn [dvmInstanceofNonTrivial]. rewrite Hd. cbn [mbind option_bind]. destruct (dvmIsInterfaceClass l) eqn:Hi.
  - destruct (implements_spec c k d Hc) as (b & -> & Hb). exists b. split; [done|]. rewrite Hb.
    rewrite <- (interface_base c k d l) by done. tauto.
  - rewrite Hc. cbn [mbind option_bind]. rewrite Ha.
    destruct (sub_class_spec fuel c k d Hc (h_depth _ H c k Hc)) as (b & -> & Hb). exists b. split; [done|].
    rewrite Hb. split; [by left|]. intros [Hr|(k' & Hk' & Hin)]; [done|].
    assert (k' = k) as -> by congruence. destruct (h_iftable _ H c k d Hc Hin) as (j & Hj & Hji & _). congruence.
Qed.

Lemma array_array n e sd a l el : classes !! e = Some el -> dvmIsArrayClass el = false -> 0 <= sd ->
  classes !! a = Some l -> dvmIsArrayClass l = true ->
  exists b, isArrayInstanceOfArray (fun i c => if i =? c then Some true else dvmInstanceofNonTrivial (S n) i c) e sd a = Some b /\
    (b = true <-> sub_dims (e, Z.to_nat sd) (elementClass l, Z.to_nat (arrayDim l))).
Proof using H.
  intros He Hel Hsd Ha Hl. destruct (h_array _ H a l Ha Hl) as (Hdim & Hsup & Hif & (f & Hf & Hfa)).
  unfold isArrayInstanceOfArray. rewrite Ha. cbn [mbind option_bind].
  assert (Hsub : sub_dims (e, Z.to_nat sd) (elementClass l, Z.to_nat (arrayDim l)) <->
    (sd = arrayDim l /\ base_sub e (elementClass l)) \/ (arrayDim l < sd /\ above_arrays (elementClass l))).
  { unfold sub_dims. cbn [fst snd]. split; (intros [[? ?]|[? ?]]; [left|right]); (split; [lia|done]). }
  destruct (Z.eqb_spec sd (arrayDim l)) as [E|Hne].
  - destruct (instance_plain n e (elementClass l) el f He Hel Hf Hfa) as (b & -> & Hb). exists b. split; [done|].
    rewrite Hb, Hsub. split; [by left|]. intros [[_ ?]|[? _]]; [done|lia].
  - rewrite Z.gtb_ltb. destruct (Z.ltb_spec (arrayDim l) sd).
    + rewrite Hf. cbn [mbind option_bind]. destruct (dvmIsInterfaceClass f) eqn:Hfi.
      * destruct (implements_spec a l (elementClass l) Ha) as (b & -> & Hb). exists b. split; [done|].
        rewrite Hb, Hif, Hsub. split; [intros ?; right; by split; [lia|right]|].
        intros [[? _]|[_ [E|?]]]; [lia| |done]. exfalso. destruct (h_object _ H) as (o & Ho & (_ & Ho' & _) & _).
        rewrite E in Hf. congruence.
      * exists (elementClass l =? super l). split; [done|]. rewrite Z.eqb_eq, Hsup, Hsub.
        split; [intros ->; right; by split; [lia|left]|]. intros [[? _]|[_ [?|Hi]]]; [lia|done|].
        destruct (h_iftable _ H a l (elementClass l) Ha) as (j & Hj & Hji & _); [by rewrite Hif|]. congruence.
    + exists false. split; [done|]. rewrite Hsub. split; [done|]. intros [[? _]|[? _]]; lia.
Qed.

Lemma type_of_array c k : classes !! c = Some k -> dvmIsArrayClass k = true ->
  type_of c = (elementClass k, Z.to_nat (arrayDim k)).
Proof using. intros Hc Ha. unfold type_of. by rewrite Hc, Ha. Qed.

Lemma type_of_plain c k : classes !! c = Some k -> dvmIsArrayClass k = false -> type_of c = (c, 0%nat).
Proof using. intros Hc Ha. unfold type_of. by rewrite Hc, Ha. Qed.

(** What lies above a class that is not an array is none. *)
Lemma above_plain c d k l : rtc super_of c d -> classes !! c = Some k -> dvmIsArrayClass k = false ->
  classes !! d = Some l -> dvmIsArrayClass l = false.
Proof using H.
  intros Hr. revert k. induction Hr as [c|c x d (k0 & Hk0 & <- & Hx) _ IH]; intros k Hc Ha Hd; [congruence|].
  assert (k0 = k) as -> by congruence. destruct (h_super _ H c k Hc Hx) as (k' & Hk' & (Ha' & _) & _).
  by apply (IH k').
Qed.

Lemma array_instance_of c d k l : classes !! c = Some k -> dvmIsArrayClass k = true ->
  classes !! d = Some l -> dvmIsInterfaceClass l = false ->
  exists b, isArrayInstanceOf (fun i c => if i =? c then Some true else dvmInstanceofNonTrivial 1 i c) c d = Some b /\
    (b = true <-> sub_dims (type_of c) (type_of d)).
Proof using H Hai.
  intros Hc Ha Hd Hi. destruct (h_array _ H c k Hc Ha) as (Hdim & Hsup & _ & (e & He & Hea)).
  rewrite (type_of_array c k) by done. unfold isArrayInstanceOf. rewrite Hc, Hd. cbn [mbind option_bind].
  destruct (dvmIsArrayClass l) eqn:Hl; cbn [negb].
  - rewrite (type_of_array d l) by done. apply (array_array 0 _ _ _ _ e); (done || lia).
  - rewrite (type_of_plain d l), Hsup by done. exists (d =? Object). split; [done|]. rewrite Z.eqb_eq.
    unfold sub_dims. cbn [fst snd]. split.
    + intros ->. right. split; [lia|by left].
    + intros [[? _]|[_ [->|Hin]]]; [lia|done|]. destruct (Hai d Hin) as (j & Hj & ?). congruence.
Qed.

Lemma instance_sub_dims c d k l : classes !! c = Some k -> classes !! d = Some l ->
  exists b, dvmInstanceof c d = Some b /\ (b = true <-> sub_dims (type_of c) (type_of d)).
Proof using H Hai.
  intros Hc Hd. unfold dvmInstanceof, isInstanceof.
  destruct (dvmIsArrayClass k) eqn:Ha.
  - destruct (Z.eqb_spec c d) as [->|Hne]; [exists true; split; [done|]; split; [left; by split; [|left]|done]|].
    cbn [dvmInstanceofNonTrivial]. rewrite Hd. cbn [mbind option_bind]. destruct (dvmIsInterfaceClass l) eqn:Hi.
    + destruct (h_array _ H c k Hc Ha) as (Hdim & _ & Hif & _). destruct (h_interface _ H d l Hd Hi) as [_ Hl].
      destruct (implements_spec c k d Hc) as (b & -> & Hb). exists b. split; [done|].
      rewrite Hb, Hif, (type_of_array c k), (type_of_plain d l) by done. unfold sub_dims. cbn [fst snd]. split.
      * intros ?. right. split; [lia|by right].
      * intros [[? _]|[_ [->|?]]]; [lia| |done]. destruct (h_object _ H) as (o & Ho & (_ & ? & _) & _). congruence.
    + rewrite Hc. cbn [mbind option_bind]. rewrite Ha. by apply (array_instance_of c d k l).
  - rewrite (type_of_plain c k) by done. destruct (dvmIsArrayClass l) eqn:Hl.
    + destruct (Z.eqb_spec c d) as [->|Hne]; [congruence|]. cbn [dvmInstanceofNonTrivial]. rewrite Hd. cbn [mbind option_bind].
      destruct (dvmIsInterfaceClass l) eqn:Hi; [destruct (h_interface _ H d l Hd Hi); congruence|].
      rewrite Hc. cbn [mbind option_bind]. rewrite Ha.
      destruct (sub_class_spec fuel c k d Hc (h_depth _ H c k Hc)) as (b & -> & Hb). exists b. split; [done|].
      rewrite Hb, (type_of_array d l) by done. destruct (h_array _ H d l Hd Hl) as (Hdim & _).
      unfold sub_dims. cbn [fst snd]. split; [|intros [[? _]|[? _]]; lia].
      intros Hr. pose proof (above_plain c d k l Hr Hc Ha Hd). congruence.
    + rewrite (type_of_plain d l) by done. destruct (instance_plain 1 c d k l) as (b & E & Hb); [done..|].
      exists b. split; [done|]. rewrite Hb. unfold sub_dims. cbn [fst snd]. split; [by left|]. intros [[_ ?]|[? _]]; [done|lia].
Qed.

Lemma sub_dims_iff c u k : classes !! c = Some k -> sub_dims (type_of c) u <-> subtype (type_of c) u.
Proof using H Hai.
  intros Hc. split; [|apply subtype_sub_dims]. destruct (dvmIsArrayClass k) eqn:Ha.
  - destruct (h_array _ H c k Hc Ha) as (_ & _ & _ & (e & He & Hea)). rewrite (type_of_array c k) by done.
    by apply (sub_dims_subtype _ _ e).
  - rewrite (type_of_plain c k) by done. by apply (sub_dims_subtype _ _ k).
Qed.

Lemma instance_subtype c d k l : classes !! c = Some k -> classes !! d = Some l ->
  exists b, dvmInstanceof c d = Some b /\ (b = true <-> subtype (type_of c) (type_of d)).
Proof using H Hai.
  intros Hc Hd. destruct (instance_sub_dims c d k l Hc Hd) as (b & E & Hb). exists b. split; [done|].
  by rewrite Hb, sub_dims_iff.
Qed.

(** The type of the elements an array has room for. *)
Definition component (a : Z) : type := ((type_of a).1, pred (type_of a).2).

Lemma put_subtype c a k l : classes !! c = Some k -> classes !! a = Some l -> dvmIsArrayClass l = true ->
  exists b, dvmCanPutArrayElement c a = Some b /\ (b = true <-> subtype (type_of c) (component a)).
Proof using H Hai.
  intros Hc Ha Hl. destruct (h_array _ H a l Ha Hl) as (Hdim & _). unfold dvmCanPutArrayElement.
  rewrite Hc. cbn [mbind option_bind].
  assert (Hshift : forall e n, sub_dims (e, S n) (elementClass l, Z.to_nat (arrayDim l)) <-> sub_dims (e, n) (component a)).
  { intros e n. unfold component. rewrite (type_of_array a l) by done. unfold sub_dims. cbn [fst snd].
    split; (intros [[? ?]|[? ?]]; [left|right]); (split; [lia|done]). }
  destruct (dvmIsArrayClass k) eqn:Hk.
  - destruct (h_array _ H c k Hc Hk) as (Hd0 & _ & _ & (e & He & Hea)).
    destruct (array_array 1 (elementClass k) (arrayDim k + 1) a l e) as (b & E & Hb); [done|done|lia|done|done|].
    exists b. split; [exact E|]. rewrite Hb, <- (sub_dims_iff c _ k), (type_of_array c k) by done. rewrite <- Hshift.
    by replace (Z.to_nat (arrayDim k + 1)) with (S (Z.to_nat (arrayDim k))) by lia.
  - destruct (array_array 1 c 1 a l k) as (b & E & Hb); [done|done|lia|done|done|].
    exists b. split; [exact E|]. rewrite Hb, <- (sub_dims_iff c _ k), (type_of_plain c k) by done.
    rewrite <- Hshift. done.
Qed.

End Hierarchy.
End Heap.

(** ** Properties *)

(** C12. The type checks decide the subtyping of the Java language. On a heap of linked
    classes, for any two of them, [dvmInstanceof] returns, without a look at anything
    that is no class, true exactly when the type of the first is a subtype of the type
    of the second: for classes, interfaces, primitive types and arrays of any
    dimensions. And an object of any class may be put into an array exactly when its
    type is a subtype of the component type of the array. *)
Theorem instanceof_decides classes fuel Object array_interfaces depth :
  hierarchy_ok classes fuel Object array_interfaces depth ->
  (forall i, i ∈ array_interfaces -> exists j, classes !! i = Some j /\ dvmIsInterfaceClass j = true) ->
  forall c d k l, classes !! c = Some k -> classes !! d = Some l ->
  (exists b, dvmInstanceof classes fuel c d = Some b /\
    (b = true <-> subtype classes Object array_interfaces (type_of classes c) (type_of classes d))) /\
  (dvmIsArrayClass l = true -> exists b, dvmCanPutArrayElement classes fuel c d = Some b /\
    (b = true <-> subtype classes Object array_interfaces (type_of classes c) (component classes d))).
Proof.
  intros H Hai c d k l Hc Hd. split; [by eapply instance_subtype|]. intros Hl. by eapply put_subtype.
Qed.

(** ** Witnesses *)

Definition ex_interface : ClassObject := MkClass [73] 0x200 PRIM_NOT 16 0 0 [].
Definition ex_plain (super : Z) (ifs : list Z) : ClassObject := MkClass [76] 1 PRIM_NOT super 0 0 ifs.
Definition ex_array (e dim : Z) : ClassObject := MkClass [91] 1 PRIM_NOT 16 e dim [20; 24].

(** [Object], [Cloneable], [Serializable], an interface, a class that implements it and
    one below, [int], and arrays. *)
Definition ex_list : list (Z * ClassObject) :=
  [(16, ex_plain 0 []); (20, ex_interface); (24, ex_interface); (28, ex_interface);
   (32, ex_plain 16 [28]); (36, ex_plain 32 [28]); (40, MkClass [73] 1 PRIM_INT 0 0 0 []);
   (44, ex_array 36 2); (48, ex_array 28 2); (52, ex_array 20 1); (56, ex_array 40 1)].

Definition ex_classes : gmap Z ClassObject := list_to_map ex_list.

Definition ex_depth (c : Z) : nat :=
  if c =? 36 then 2%nat else if (c =? 16) || (c =? 40) then 0%nat else 1%nat.

(** Looks at every class in turn. *)
Ltac each_class H := apply elem_of_list_to_map_2 in H; unfold ex_list in H;
  rewrite !elem_of_cons, elem_of_nil in H;
  repeat match type of H with _ \/ _ => destruct H as [H|H] end; [injection H as -> ->..|done].

Lemma ex_hierarchy : hierarchy_ok ex_classes 3 16 [20; 24] ex_depth.
Proof.
  split.
  - reflexivity.
  - exists (ex_plain 0 []). by repeat split.
  - intros c k Hc Hs. each_class Hc; try done;
      (eexists; split; [vm_compute; reflexivity|]; split; [by repeat split|]; split; [cbn; lia|cbn; set_solver]).
  - intros c k Hc Hs. each_class Hc; try done; (by left) || by right.
  - intros c k Hc Hs. each_class Hc; done.
  - intros c k Hc Hs. each_class Hc; done.
  - intros c k i Hc Hi. each_class Hc; cbn in Hi; rewrite ?elem_of_cons, elem_of_nil in Hi;
      destruct_or? Hi; subst; try done; (eexists; split; [reflexivity|]; split; [reflexivity|]; cbn; set_solver).
  - intros c k Hc Ha. each_class Hc; try done; (split; [done|]; split; [done|]; split; [done|]; by eexists).
  - intros i j Hi Hj. rewrite !elem_of_cons, elem_of_nil in Hi. destruct_or? Hi; subst; try done; by injection Hj as <-.
  - intros c k Hc. each_class Hc; cbn; lia.
Qed.

Lemma instanceof_decides_witness :
  subtype ex_classes 16 [20; 24] (36, 2%nat) (28, 2%nat) /\
  subtype ex_classes 16 [20; 24] (36, 2%nat) (20, 1%nat) /\
  ~ subtype ex_classes 16 [20; 24] (40, 1%nat) (16, 1%nat).
Proof.
  assert (Hai : forall i, i ∈ [20; 24] -> exists j, ex_classes !! i = Some j /\ dvmIsInterfaceClass j = true).
  { intros i Hi. rewrite !elem_of_cons, elem_of_nil in Hi. destruct Hi as [->|[->|[]]]; by eexists. }
  pose proof (instanceof_decides ex_classes 3 16 [20; 24] ex_depth ex_hierarchy Hai) as D.
  split; [|split].
  - destruct (D 44 48 (ex_array 36 2) (ex_array 28 2) eq_refl eq_refl) as [(b & E & Hb) _].
    vm_compute in E. injection E as <-. by apply Hb.
  - destruct (D 44 52 (ex_array 36 2) (ex_array 20 1) eq_refl eq_refl) as [(b & E & Hb) _].
    vm_compute in E. injection E as <-. by apply Hb.
  - destruct (D 56 56 (ex_array 40 1) (ex_array 40 1) eq_refl eq_refl) as [_ Hp].
    intros Hs. apply (subtype_sub_dims ex_classes 3 16 [20; 24] ex_depth ex_hierarchy Hai) in Hs.
    destruct Hs as [[_ [Hr|(k & Hk & Hi)]]|[Hlt _]]; [| |cbn in Hlt; lia].
    + apply rtc_inv in Hr as [?|(x & (k & Hk & <- & Hx) & _)]; [done|]. vm_compute in Hk. injection Hk as <-. done.
    + vm_compute in Hk. injection Hk as <-. by apply not_elem_of_nil in Hi.
Defined.
