(* ===== verification/InstanceofCache.v ===== *)
(** * The instanceof cache: [dvmInstanceof] of [dalvik/vm/oo/TypeCheck.h] under threads

    The type checks of [TypeCheck] behind the cache of [AtomicCache]: what
    [dvmInstanceof] answers when any threads ask at the same time. *)

From stdpp Require Import gmap relations.
From S2P Require Import Prelude DexFile AtomicCache TypeCheck.

Definition INSTANCEOF_CACHE_SIZE : Z := 1024.

(** [ATOMIC_CACHE_CALC], on the keys of the cache: an [int]. *)
Definition cached_calc (classes : gmap Z ClassObject) (fuel : nat) (instance clazz : Z) : Z :=
  match isInstanceof classes fuel instance clazz with Some b => Z.b2z b | None => 0 end.

(** [dvmInstanceofNonTrivial] and [dvmInstanceof]: the lookup is the step of the
    threads; what is left is the test before it. *)
Definition instanceof_step (classes : gmap Z ClassObject) (fuel : nat) : state -> state -> Prop :=
  step (cached_calc classes fuel) true INSTANCEOF_CACHE_SIZE.

Definition dvmInstanceofStartup : state := start INSTANCEOF_CACHE_SIZE.

(** The answer to a question: given at once, or by the lookup of a thread. *)
Definition answered (s : state) (instance clazz v : Z) : Prop :=
  if instance =? clazz then v = 1
  else exists i, threads s !! i = Some (MkThread instance clazz (Return v)).

(** The answers of [dvmInstanceof] are the subtyping of the Java language, with
    the cache and with any number of threads asking at the same time: from the start
    of the cache, after any interleaving of their accesses to it, an answer that was
    given for two linked classes is 1 exactly when the type of the first is a subtype
    of the type of the second, and 0 otherwise. *)
Theorem instanceof_threads classes fuel Object array_interfaces depth n s :
  hierarchy_ok classes fuel Object array_interfaces depth ->
  (forall i, i ∈ array_interfaces -> exists j, classes !! i = Some j /\ dvmIsInterfaceClass j = true) ->
  nsteps (instanceof_step classes fuel) n dvmInstanceofStartup s -> Z.of_nat n < 2 ^ 31 - 4 ->
  forall c d k l v, classes !! c = Some k -> classes !! d = Some l -> answered s c d v ->
  v = 1 /\ subtype classes Object array_interfaces (type_of classes c) (type_of classes d) \/
  v = 0 /\ ~ subtype classes Object array_interfaces (type_of classes c) (type_of classes d).
Proof.
  intros H Hai Hs Hn c d k l v Hc Hd Hv. unfold answered in Hv.
  destruct (instance_subtype classes fuel Object array_interfaces depth H Hai c d k l Hc Hd) as (b & E & Hb).
  unfold dvmInstanceof in E. destruct (c =? d); [injection E as <-; left; split; [done|by apply Hb]|].
  destruct Hv as [i Hi]. destruct (answers_right _ _ _ _ _ Hs Hn i _ Hi) as [_ Hr].
  rewrite (Hr v eq_refl). cbn [_key1 _key2]. unfold cached_calc. rewrite E.
  destruct b; [left|right]; (split; [done|]); [by apply Hb|]. intros Hsub. by apply Hb in Hsub.
Qed.

(** A thread that asks while another writes the answer. *)
Definition ex_questions : list action :=
  [Lookup 40 16; Lookup 40 16; Go 0; Go 0; Go 0; Go 0; Go 1; Go 0; Go 1; Go 0; Go 0; Go 1; Go 0; Go 0; Go 1; Go 1].

Definition ex_end : state :=
  default dvmInstanceofStartup
    (run (cached_calc ex_classes 3) true INSTANCEOF_CACHE_SIZE ex_questions dvmInstanceofStartup).

Lemma ex_questions_run :
  run (cached_calc ex_classes 3) true INSTANCEOF_CACHE_SIZE ex_questions dvmInstanceofStartup = Some ex_end.
Proof. vm_compute. reflexivity. Qed.

Lemma ex_end_thread : threads ex_end !! 1%nat = Some (MkThread 40 16 (Return 0)).
Proof. vm_compute. reflexivity. Qed.

Lemma ex_array_interfaces i : i ∈ [20; 24] -> exists j, ex_classes !! i = Some j /\ dvmIsInterfaceClass j = true.
Proof. intros Hi. rewrite !elem_of_cons, elem_of_nil in Hi. destruct Hi as [->|[->|[]]]; by eexists. Qed.

Lemma instanceof_threads_witness :
  nsteps (instanceof_step ex_classes 3) (length ex_questions) dvmInstanceofStartup ex_end /\
  answered ex_end 40 16 0 /\ ~ subtype ex_classes 16 [20; 24] (type_of ex_classes 40) (type_of ex_classes 16).
Proof.
  pose proof (run_steps _ _ _ _ _ _ ex_questions_run) as Hs. split; [exact Hs|].
  assert (Ha : answered ex_end 40 16 0) by (exists 1%nat; exact ex_end_thread).
  assert (Hn : Z.of_nat (length ex_questions) < 2 ^ 31 - 4) by reflexivity.
  split; [exact Ha|].
  destruct (instanceof_threads ex_classes 3 16 [20; 24] ex_depth (length ex_questions) ex_end ex_hierarchy
    ex_array_interfaces Hs Hn 40 16 _ _ 0 eq_refl eq_refl Ha) as [[E1 _]|[_ Hsub]]; [|exact Hsub].
  exfalso. clear -E1. lia.
Defined.
