(* ===== verification/RegTypes.v ===== *)
(** * Register types: the enumeration and the tables of [dalvik/vm/analysis/CodeVerify.cpp]

    What the code-flow pass of the verifier knows about the value of a register, its
    merge table, the conversions it allows, and what the types say of values. *)

From S2P Require Import Prelude Bits Search DexFile.

(** ** The enumeration: [CodeVerify.h] *)

Definition kRegTypeUnknown : Z := 0.
Definition kRegTypeUninit : Z := 1.
Definition kRegTypeConflict : Z := 2.
Definition kRegTypeZero : Z := 3.
Definition kRegTypeOne : Z := 4.
Definition kRegTypeBoolean : Z := 5.
Definition kRegTypeConstPosByte : Z := 6.
Definition kRegTypeConstByte : Z := 7.
Definition kRegTypeConstPosShort : Z := 8.
Definition kRegTypeConstShort : Z := 9.
Definition kRegTypeConstChar : Z := 10.
Definition kRegTypeConstInteger : Z := 11.
Definition kRegTypePosByte : Z := 12.
Definition kRegTypeByte : Z := 13.
Definition kRegTypePosShort : Z := 14.
Definition kRegTypeShort : Z := 15.
Definition kRegTypeChar : Z := 16.
Definition kRegTypeInteger : Z := 17.
Definition kRegTypeFloat : Z := 18.
Definition kRegTypeConstLo : Z := 19.
Definition kRegTypeConstHi : Z := 20.
Definition kRegTypeLongLo : Z := 21.
Definition kRegTypeLongHi : Z := 22.
Definition kRegTypeDoubleLo : Z := 23.
Definition kRegTypeDoubleHi : Z := 24.
Definition kRegTypeMAX : Z := 25.
Definition kRegType1nrSTART : Z := kRegTypeZero.
Definition kRegType1nrEND : Z := kRegTypeFloat.
Definition kRegTypeUninitMask : Z := 0xff.
Definition kRegTypeUninitShift : Z := 8.

(** ** The merge table *)

Module MergeTab.

Local Abbreviation __ := kRegTypeUnknown.
Local Abbreviation _U := kRegTypeUninit.
Local Abbreviation _X := kRegTypeConflict.
Local Abbreviation _0 := kRegTypeZero.
Local Abbreviation _1 := kRegTypeOne.
Local Abbreviation _Z := kRegTypeBoolean.
Local Abbreviation _y := kRegTypeConstPosByte.
Local Abbreviation _Y := kRegTypeConstByte.
Local Abbreviation _h := kRegTypeConstPosShort.
Local Abbreviation _H := kRegTypeConstShort.
Local Abbreviation _c := kRegTypeConstChar.
Local Abbreviation _i := kRegTypeConstInteger.
Local Abbreviation _b := kRegTypePosByte.
Local Abbreviation _B := kRegTypeByte.
Local Abbreviation _s := kRegTypePosShort.
Local Abbreviation _S := kRegTypeShort.
Local Abbreviation _C := kRegTypeChar.
Local Abbreviation _I := kRegTypeInteger.
Local Abbreviation _F := kRegTypeFloat.
Local Abbreviation _N := kRegTypeConstLo.
Local Abbreviation _n := kRegTypeConstHi.
Local Abbreviation _J := kRegTypeLongLo.
Local Abbreviation _j := kRegTypeLongHi.
Local Abbreviation _D := kRegTypeDoubleLo.
Local Abbreviation _d := kRegTypeDoubleHi.

Definition gDvmMergeTab : list (list Z) := [
  [__; _X; _X; _X; _X; _X; _X; _X; _X; _X; _X; _X; _X; _X; _X; _X; _X; _X; _X; _X; _X; _X; _X; _X; _X];
  [_X; _U; _X; _X; _X; _X; _X; _X; _X; _X; _X; _X; _X; _X; _X; _X; _X; _X; _X; _X; _X; _X; _X; _X; _X];
  [_X; _X; _X; _X; _X; _X; _X; _X; _X; _X; _X; _X; _X; _X; _X; _X; _X; _X; _X; _X; _X; _X; _X; _X; _X];
  [_X; _X; _X; _0; _Z; _Z; _y; _Y; _h; _H; _c; _i; _b; _B; _s; _S; _C; _I; _F; _X; _X; _X; _X; _X; _X];
  [_X; _X; _X; _Z; _1; _Z; _y; _Y; _h; _H; _c; _i; _b; _B; _s; _S; _C; _I; _F; _X; _X; _X; _X; _X; _X];
  [_X; _X; _X; _Z; _Z; _Z; _y; _Y; _h; _H; _c; _i; _b; _B; _s; _S; _C; _I; _F; _X; _X; _X; _X; _X; _X];
  [_X; _X; _X; _y; _y; _y; _y; _Y; _h; _H; _c; _i; _b; _B; _s; _S; _C; _I; _F; _X; _X; _X; _X; _X; _X];
  [_X; _X; _X; _Y; _Y; _Y; _Y; _Y; _h; _H; _c; _i; _B; _B; _S; _S; _I; _I; _F; _X; _X; _X; _X; _X; _X];
  [_X; _X; _X; _h; _h; _h; _h; _h; _h; _H; _c; _i; _s; _S; _s; _S; _C; _I; _F; _X; _X; _X; _X; _X; _X];
  [_X; _X; _X; _H; _H; _H; _H; _H; _H; _H; _c; _i; _S; _S; _S; _S; _I; _I; _F; _X; _X; _X; _X; _X; _X];
  [_X; _X; _X; _c; _c; _c; _c; _c; _c; _c; _c; _i; _C; _I; _C; _I; _C; _I; _F; _X; _X; _X; _X; _X; _X];
  [_X; _X; _X; _i; _i; _i; _i; _i; _i; _i; _i; _i; _I; _I; _I; _I; _I; _I; _F; _X; _X; _X; _X; _X; _X];
  [_X; _X; _X; _b; _b; _b; _b; _B; _s; _S; _C; _I; _b; _B; _s; _S; _C; _I; _X; _X; _X; _X; _X; _X; _X];
  [_X; _X; _X; _B; _B; _B; _B; _B; _S; _S; _I; _I; _B; _B; _S; _S; _I; _I; _X; _X; _X; _X; _X; _X; _X];
  [_X; _X; _X; _s; _s; _s; _s; _S; _s; _S; _C; _I; _s; _S; _s; _S; _C; _I; _X; _X; _X; _X; _X; _X; _X];
  [_X; _X; _X; _S; _S; _S; _S; _S; _S; _S; _I; _I; _S; _S; _S; _S; _I; _I; _X; _X; _X; _X; _X; _X; _X];
  [_X; _X; _X; _C; _C; _C; _C; _I; _C; _I; _C; _I; _C; _I; _C; _I; _C; _I; _X; _X; _X; _X; _X; _X; _X];
  [_X; _X; _X; _I; _I; _I; _I; _I; _I; _I; _I; _I; _I; _I; _I; _I; _I; _I; _X; _X; _X; _X; _X; _X; _X];
  [_X; _X; _X; _F; _F; _F; _F; _F; _F; _F; _F; _F; _X; _X; _X; _X; _X; _X; _F; _X; _X; _X; _X; _X; _X];
  [_X; _X; _X; _X; _X; _X; _X; _X; _X; _X; _X; _X; _X; _X; _X; _X; _X; _X; _X; _N; _X; _J; _X; _D; _X];
  [_X; _X; _X; _X; _X; _X; _X; _X; _X; _X; _X; _X; _X; _X; _X; _X; _X; _X; _X; _X; _n; _X; _j; _X; _d];
  [_X; _X; _X; _X; _X; _X; _X; _X; _X; _X; _X; _X; _X; _X; _X; _X; _X; _X; _X; _J; _X; _J; _X; _X; _X];
  [_X; _X; _X; _X; _X; _X; _X; _X; _X; _X; _X; _X; _X; _X; _X; _X; _X; _X; _X; _X; _j; _X; _j; _X; _X];
  [_X; _X; _X; _X; _X; _X; _X; _X; _X; _X; _X; _X; _X; _X; _X; _X; _X; _X; _X; _D; _X; _X; _X; _D; _X];
  [_X; _X; _X; _X; _X; _X; _X; _X; _X; _X; _X; _X; _X; _X; _X; _X; _X; _X; _X; _X; _d; _X; _X; _X; _d]
].

End MergeTab.
Export MergeTab.

Definition mergeTab (i j : Z) : option Z := row ← aref gDvmMergeTab i; aref row j.

(** Symmetry along the diagonal, from [i] and [j] on; the failure is an abort. *)
Definition checkMergeTab : bool :=
  forallb (fun i => forallb (fun j => bool_decide (mergeTab i j = mergeTab j i)) (seqZ i (kRegTypeMAX - i)))
    (seqZ 0 kRegTypeMAX).

(** ** Conversions *)

Definition convTab : list (list Z) := [
  [1; 0; 1; 1; 1; 1; 1; 1; 1; 1; 1; 1; 1; 1; 1; 1];
  [0; 1; 1; 1; 1; 1; 1; 1; 1; 1; 1; 1; 1; 1; 1; 1];
  [0; 0; 1; 1; 1; 1; 1; 1; 1; 1; 1; 1; 1; 1; 1; 1];
  [0; 0; 0; 1; 1; 1; 1; 1; 1; 1; 1; 1; 1; 1; 1; 1];
  [0; 0; 0; 0; 1; 0; 1; 0; 1; 0; 1; 0; 1; 0; 1; 1];
  [0; 0; 0; 0; 0; 1; 1; 1; 1; 0; 0; 1; 1; 1; 1; 1];
  [0; 0; 0; 0; 0; 0; 1; 0; 1; 0; 0; 0; 1; 0; 1; 1];
  [0; 0; 0; 0; 0; 0; 0; 1; 1; 0; 0; 0; 0; 1; 1; 1];
  [0; 0; 0; 0; 0; 0; 0; 0; 1; 0; 0; 0; 0; 0; 1; 1];
  [0; 0; 0; 0; 0; 0; 0; 0; 0; 1; 1; 1; 1; 1; 1; 0];
  [0; 0; 0; 0; 0; 0; 0; 0; 0; 0; 1; 0; 1; 0; 1; 0];
  [0; 0; 0; 0; 0; 0; 0; 0; 0; 0; 0; 1; 1; 1; 1; 0];
  [0; 0; 0; 0; 0; 0; 0; 0; 0; 0; 0; 0; 1; 0; 1; 0];
  [0; 0; 0; 0; 0; 0; 0; 0; 0; 0; 0; 0; 0; 1; 1; 0];
  [0; 0; 0; 0; 0; 0; 0; 0; 0; 0; 0; 0; 0; 0; 1; 0];
  [0; 0; 0; 0; 0; 0; 0; 0; 0; 0; 0; 0; 0; 0; 0; 1]
].

(** An assertion: [checkType] is in the range of the table. *)
Definition canConvertTo1nr (srcType checkType : Z) : option bool :=
  if (checkType >=? kRegType1nrSTART) && (checkType <=? kRegType1nrEND) then
    if (srcType >=? kRegType1nrSTART) && (srcType <=? kRegType1nrEND) then
      row ← aref convTab (srcType - kRegType1nrSTART);
      c ← aref row (checkType - kRegType1nrSTART);
      Some (negb (c =? 0))
    else Some false
  else None.

Definition canConvertTo2 (srcType checkType : Z) : bool :=
  ((srcType =? kRegTypeConstLo) || (srcType =? checkType)) &&
  ((checkType =? kRegTypeLongLo) || (checkType =? kRegTypeDoubleLo)).

Definition checkFieldArrayStore1nr (instrType targetType : Z) : bool := instrType =? targetType.

(** An assertion that the code goes on after where they are switched off: [NDEBUG]. *)
Definition asserted {A} (NDEBUG cond : bool) (go_on : option A) : option A :=
  if NDEBUG || cond then go_on else None.

Definition primitiveTypeToRegType (NDEBUG : bool) (primType : PrimitiveType) : option Z :=
  match primType with
  | PRIM_BOOLEAN => Some kRegTypeBoolean
  | PRIM_BYTE => Some kRegTypeByte
  | PRIM_SHORT => Some kRegTypeShort
  | PRIM_CHAR => Some kRegTypeChar
  | PRIM_INT => Some kRegTypeInteger
  | PRIM_LONG => Some kRegTypeLongLo
  | PRIM_FLOAT => Some kRegTypeFloat
  | PRIM_DOUBLE => Some kRegTypeDoubleLo
  | _ => asserted NDEBUG false (Some kRegTypeUnknown)
  end.

Definition constTypeToRegType (constType : Z) : Z :=
  if constType =? kRegTypeConstPosByte then kRegTypePosByte
  else if constType =? kRegTypeConstByte then kRegTypeByte
  else if constType =? kRegTypeConstPosShort then kRegTypePosShort
  else if constType =? kRegTypeConstShort then kRegTypeShort
  else if constType =? kRegTypeConstChar then kRegTypeChar
  else if constType =? kRegTypeConstInteger then kRegTypeInteger
  else constType.

Definition determineCat1Const (value : Z) : Z :=
  if value <? -32768 then kRegTypeConstInteger
  else if value <? -128 then kRegTypeConstShort
  else if value <? 0 then kRegTypeConstByte
  else if value =? 0 then kRegTypeZero
  else if value =? 1 then kRegTypeOne
  else if value <? 128 then kRegTypeConstPosByte
  else if value <? 32768 then kRegTypeConstPosShort
  else if value <? 65536 then kRegTypeConstChar
  else kRegTypeConstInteger.

(** The primitive type of the first character of a signature. *)
Definition primSigCharToRegType (NDEBUG : bool) (sigChar : Z) : option Z :=
  if sigChar =? 73 then Some kRegTypeInteger
  else if sigChar =? 67 then Some kRegTypeChar
  else if sigChar =? 83 then Some kRegTypeShort
  else if sigChar =? 66 then Some kRegTypeByte
  else if sigChar =? 90 then Some kRegTypeBoolean
  else if sigChar =? 70 then Some kRegTypeFloat
  else if sigChar =? 68 then Some kRegTypeDoubleLo
  else if sigChar =? 74 then Some kRegTypeLongLo
  else if (sigChar =? 86) || (sigChar =? 76) || (sigChar =? 91) then Some kRegTypeUnknown
  else asserted NDEBUG false (Some kRegTypeUnknown).

(** The type that a right shift by a literal gives; the shift count is an unsigned
    word. *)
Definition adjustForRightShift (NDEBUG : bool) (srcType shiftCount : Z) (isUnsignedShift : bool) : option Z :=
  let srcType := constTypeToRegType srcType in
  if shiftCount =? 0 then Some srcType
  else
    let newType := if isUnsignedShift then kRegTypeInteger else srcType in
    if shiftCount >=? 32 then Some newType
    else if srcType =? kRegTypeInteger then
      if isUnsignedShift then
        if shiftCount >? 24 then Some kRegTypePosByte
        else if shiftCount >=? 16 then Some kRegTypeChar
        else Some newType
      else
        if shiftCount >=? 24 then Some kRegTypeByte
        else if shiftCount >=? 16 then Some kRegTypeShort
        else Some newType
    else if srcType =? kRegTypeShort then
      if isUnsignedShift then Some newType
      else if shiftCount >=? 8 then Some kRegTypeByte
      else Some newType
    else if srcType =? kRegTypePosShort then
      if shiftCount >=? 8 then Some kRegTypePosByte else Some newType
    else if srcType =? kRegTypeChar then
      if shiftCount >? 8 then Some kRegTypePosByte else Some newType
    else if srcType =? kRegTypeByte then Some newType
    else if srcType =? kRegTypePosByte then Some srcType
    else if (srcType =? kRegTypeZero) || (srcType =? kRegTypeOne) || (srcType =? kRegTypeBoolean)
    then Some kRegTypeZero
    else asserted NDEBUG false (Some newType).

(** The shifts themselves: [mterp/c/opcommon.cpp], on a register that is read as [s4] or
    as [u4]. *)
Definition shift_right_lit8 (isUnsignedShift : bool) (v vsrc2 : Z) : Z :=
  let n := Z.land vsrc2 0x1f in
  if isUnsignedShift then s32 (Z.shiftr (u32 v) n) else Z.shiftr v n.

(** ** What the types say of values *)

(** The values of a register, as [int]s, that a type of one word stands for. *)
Definition range_of (t : Z) : option (Z * Z) :=
  let t := constTypeToRegType t in
  if t =? kRegTypeZero then Some (0, 0)
  else if t =? kRegTypeOne then Some (1, 1)
  else if t =? kRegTypeBoolean then Some (0, 1)
  else if t =? kRegTypePosByte then Some (0, 127)
  else if t =? kRegTypeByte then Some (-128, 127)
  else if t =? kRegTypePosShort then Some (0, 32767)
  else if t =? kRegTypeShort then Some (-32768, 32767)
  else if t =? kRegTypeChar then Some (0, 65535)
  else if (t =? kRegTypeInteger) || (t =? kRegTypeFloat) then Some (- 2 ^ 31, 2 ^ 31 - 1)
  else None.

Definition fits (t v : Z) : Prop := exists lo hi, range_of t = Some (lo, hi) /\ lo <= v <= hi.

Definition within (t u : Z) : bool :=
  match range_of t, range_of u with
  | Some (lo, hi), Some (lo', hi') => (lo' <=? lo) && (hi <=? hi')
  | _, _ => false
  end.

(** A register of one word that is no reference. *)
Definition cat1nr (t : Z) : Prop := kRegType1nrSTART <= t <= kRegType1nrEND.

(** What instructions and signatures ask for. *)
Definition asked_types : list Z :=
  [kRegTypeBoolean; kRegTypePosByte; kRegTypeByte; kRegTypePosShort; kRegTypeShort; kRegTypeChar; kRegTypeInteger].

(** What constants are given. *)
Definition const_types : list Z :=
  [kRegTypeZero; kRegTypeOne; kRegTypeConstPosByte; kRegTypeConstByte; kRegTypeConstPosShort; kRegTypeConstShort;
   kRegTypeConstChar; kRegTypeConstInteger].

(** The merges that forget that a constant may be negative. *)
Definition sign_lost (t u : Z) : bool :=
  let one t u :=
    (t =? kRegTypeConstByte) && ((u =? kRegTypeConstPosShort) || (u =? kRegTypeConstChar)) ||
    (t =? kRegTypeConstShort) && (u =? kRegTypeConstChar) in
  one t u || one u t.

(** ** Lemmas *)

Lemma asserted_true {A} NDEBUG b (k : option A) : b = true -> asserted NDEBUG b k = k.
Proof. intros ->. unfold asserted. by rewrite orb_true_r. Qed.

Lemma forallb_seqZ (f : Z -> bool) a n t : forallb f (seqZ a n) = true -> a <= t < a + n -> f t = true.
Proof. rewrite forallb_forall. intros Hf Ht. apply Hf, list_elem_of_In, elem_of_seqZ. lia. Qed.

(** A claim about all types of one word is a computation. *)
Lemma forall_cat1nr (f : Z -> bool) t : forallb f (seqZ 3 16) = true -> cat1nr t -> f t = true.
Proof. intros Hf Ht. apply (forallb_seqZ _ _ _ _ Hf). unfold cat1nr, kRegType1nrSTART, kRegType1nrEND, kRegTypeZero, kRegTypeFloat in Ht. lia. Qed.

Lemma within_fits t u v : within t u = true -> fits t v -> fits u v.
Proof.
  unfold within, fits. intros Hw (lo & hi & E & Hv). rewrite E in Hw.
  destruct (range_of u) as [[lo' hi']|]; [|done]. exists lo', hi'. split; [done|]. lia.
Qed.

Definition ranged (t : Z) : bool :=
  match range_of t with Some (lo, hi) => (lo <=? hi) && (- 2 ^ 31 <=? lo) && (hi <? 2 ^ 31) | None => false end.

Lemma cat1nr_ranged t : cat1nr t -> exists lo hi, range_of t = Some (lo, hi) /\ lo <= hi /\ - 2 ^ 31 <= lo /\ hi < 2 ^ 31.
Proof.
  intros Ht. assert (Hr : ranged t = true) by (apply forall_cat1nr; [vm_compute; reflexivity|done]).
  unfold ranged in Hr. destruct (range_of t) as [[lo hi]|]; [|done]. exists lo, hi. split; [done|]. lia.
Qed.

Lemma within_iff t u : cat1nr t -> cat1nr u -> within t u = true <-> (forall v, fits t v -> fits u v).
Proof.
  intros Ht Hu. split; [intros Hw v; by apply within_fits|]. intros Hf.
  destruct (cat1nr_ranged t Ht) as (lo & hi & E & Hlh & _). destruct (cat1nr_ranged u Hu) as (lo' & hi' & E' & _).
  unfold within. rewrite E, E'.
  destruct (Hf lo) as (x & y & E1 & H1); [exists lo, hi; split; [done|lia]|].
  destruct (Hf hi) as (x2 & y2 & E2 & H2); [exists lo, hi; split; [done|lia]|].
  rewrite E' in E1, E2. injection E1 as <- <-. injection E2 as <- <-. lia.
Qed.

Lemma not_within t u : cat1nr t -> cat1nr u -> within t u = false -> exists v, fits t v /\ ~ fits u v.
Proof.
  intros Ht Hu Hw. destruct (cat1nr_ranged t Ht) as (lo & hi & E & Hlh & _).
  destruct (cat1nr_ranged u Hu) as (lo' & hi' & E' & _). unfold within in Hw. rewrite E, E' in Hw.
  exists (if lo <? lo' then lo else hi). split; [exists lo, hi; split; [done|]|].
  - destruct (lo <? lo'); lia.
  - intros (x & y & Ex & Hx). rewrite E' in Ex. injection Ex as <- <-. destruct (Z.ltb_spec lo lo'); lia.
Qed.

Lemma fits_int t v : cat1nr t -> fits t v -> inS 32 v.
Proof.
  intros Ht (lo & hi & E & Hv). destruct (cat1nr_ranged t Ht) as (lo' & hi' & E' & _ & Hr).
  rewrite E in E'. injection E' as <- <-. cint_range.
Qed.

Definition eqb_option (a b : option Z) : bool :=
  match a, b with Some x, Some y => x =? y | None, None => true | _, _ => false end.

Lemma eqb_option_eq a b : eqb_option a b = true -> a = b.
Proof. destruct a, b; cbn; try done. intros E%Z.eqb_eq. congruence. Qed.

(** The merge of two types of one word, checked. *)
Definition merge_checked (t u : Z) : bool :=
  match mergeTab t u with
  | Some m =>
      if m =? kRegTypeConflict then negb (sign_lost t u)
      else (kRegType1nrSTART <=? m) && (m <=? kRegType1nrEND) &&
           Bool.eqb (within t m && within u m) (negb (sign_lost t u))
  | None => false
  end.

Lemma merge_checked_all t u : cat1nr t -> cat1nr u -> merge_checked t u = true.
Proof.
  intros Ht Hu.
  refine (forall_cat1nr (fun u => merge_checked t u) u _ Hu).
  refine (forall_cat1nr (fun t => forallb (fun u => merge_checked t u) (seqZ 3 16)) t _ Ht).
  vm_compute. reflexivity.
Qed.

(** A rank that every merge with a change lowers. *)
Definition tab_rank (t : Z) : Z :=
  if t =? kRegTypeConflict then 0
  else if t =? kRegTypeFloat then 1
  else if t =? kRegTypeInteger then 1
  else if t =? kRegTypeChar then 2
  else if t =? kRegTypeShort then 2
  else if t =? kRegTypeByte then 3
  else if t =? kRegTypePosShort then 3
  else if t =? kRegTypePosByte then 4
  else if t =? kRegTypeConstInteger then 2
  else if t =? kRegTypeConstChar then 3
  else if t =? kRegTypeConstShort then 4
  else if t =? kRegTypeConstPosShort then 5
  else if t =? kRegTypeConstByte then 6
  else if t =? kRegTypeConstPosByte then 7
  else if t =? kRegTypeBoolean then 8
  else if t =? kRegTypeOne then 9
  else if t =? kRegTypeZero then 9
  else if (t =? kRegTypeConstLo) || (t =? kRegTypeConstHi) then 2
  else 1.

Lemma forall_table2 (f : Z -> Z -> bool) t u :
  forallb (fun t => forallb (f t) (seqZ 0 25)) (seqZ 0 25) = true ->
  0 <= t < kRegTypeMAX -> 0 <= u < kRegTypeMAX -> f t u = true.
Proof.
  intros Hf Ht Hu. refine (forallb_seqZ _ _ _ _ _ Hu).
  exact (forallb_seqZ (fun t => forallb (f t) (seqZ 0 25)) _ _ _ Hf Ht).
Qed.

(** Merging is commutative and idempotent, and goes down. *)
Definition merge_law (t u : Z) : bool :=
  eqb_option (mergeTab t u) (mergeTab u t) && eqb_option (mergeTab t t) (Some t) &&
  match mergeTab t u with
  | Some m => (0 <=? m) && (m <? kRegTypeMAX) && ((m =? t) || (tab_rank m <? tab_rank t)) && eqb_option (mergeTab m u) (Some m)
  | None => false
  end.

Lemma merge_laws t u : 0 <= t < kRegTypeMAX -> 0 <= u < kRegTypeMAX ->
  exists m, mergeTab t u = Some m /\ mergeTab u t = Some m /\ mergeTab t t = Some t /\ mergeTab m u = Some m /\
    0 <= m < kRegTypeMAX /\ (m <> t -> tab_rank m < tab_rank t).
Proof.
  intros Ht Hu. assert (L : merge_law t u = true) by (apply forall_table2; [vm_compute; reflexivity|done..]).
  unfold merge_law in L. rewrite !andb_true_iff in L. destruct L as [[L1%eqb_option_eq L2%eqb_option_eq] L3].
  destruct (mergeTab t u) as [m|]; [|done]. rewrite !andb_true_iff in L3.
  destruct L3 as [[[L3 L4] L5] L6%eqb_option_eq]. exists m. split; [done|]. split; [by symmetry|].
  split; [done|]. split; [done|]. split; [lia|]. rewrite orb_true_iff in L5. lia.
Qed.

(** The range of what a shift by [n] makes of a range. *)
Definition shift_range (isUnsignedShift : bool) (lo hi n : Z) : Z * Z :=
  if isUnsignedShift && (lo <? 0) && (0 <? n) then (0, Z.shiftr (2 ^ 32 - 1) n)
  else (Z.shiftr lo n, Z.shiftr hi n).

Lemma shiftr_mono a b n : 0 <= n -> a <= b -> Z.shiftr a n <= Z.shiftr b n.
Proof. intros Hn Hab. rewrite !Z.shiftr_div_pow2 by done. apply Z.div_le_mono; [lia|done]. Qed.

Lemma shiftr_less a n : 0 <= n -> 0 <= a -> 0 <= Z.shiftr a n <= a.
Proof.
  intros Hn Ha. rewrite Z.shiftr_div_pow2 by done. split; [apply Z.div_pos; lia|].
  apply Z.div_le_upper_bound; [lia|]. nia.
Qed.

Lemma shift_range_ok unsigned lo hi v vsrc2 : - 2 ^ 31 <= lo -> hi < 2 ^ 31 -> lo <= v <= hi ->
  (shift_range unsigned lo hi (Z.land vsrc2 0x1f)).1 <= shift_right_lit8 unsigned v vsrc2 <=
  (shift_range unsigned lo hi (Z.land vsrc2 0x1f)).2.
Proof.
  intros Hlo Hhi Hv. unfold shift_range, shift_right_lit8. set (n := Z.land vsrc2 0x1f).
  assert (Hn : 0 <= n) by (apply Z.land_nonneg; lia).
  destruct unsigned; cbn [andb]; [|cbn [fst snd]; split; apply shiftr_mono; lia].
  pose proof (wrapU_range 32 ltac:(lia) v) as Hu.
  destruct (Z.ltb_spec lo 0); cbn [andb].
  - destruct (Z.ltb_spec 0 n) as [Hn0|]; cbn [fst snd].
    + assert (Hs : 0 <= Z.shiftr (u32 v) n < 2 ^ 31).
      { rewrite Z.shiftr_div_pow2 by done. split; [apply Z.div_pos; [cint_range|lia]|].
        apply Z.div_lt_upper_bound; [lia|]. assert (2 ^ 1 <= 2 ^ n) by (apply Z.pow_le_mono_r; lia). cint_range. }
      rewrite wrapS_id by (cint_range). split; [lia|]. apply shiftr_mono; [done|]. cint_range.
    + assert (n = 0) as -> by lia. rewrite !Z.shiftr_0_r, wrapS_wrapU by lia. rewrite wrapS_id by cint_range. lia.
  - cbn [fst snd]. rewrite (wrapU_id 32 v) by cint_range. pose proof (shiftr_less v n Hn ltac:(lia)).
    rewrite wrapS_id by cint_range. split; apply shiftr_mono; lia.
Qed.

Definition shift_checked (unsigned : bool) (t count n : Z) : bool :=
  match range_of t, adjustForRightShift false t count unsigned with
  | Some (lo, hi), Some t' =>
      let r := shift_range unsigned lo hi n in
      (kRegType1nrSTART <=? t') && (t' <=? kRegType1nrEND) &&
      ((t =? kRegTypeOne) && (32 <=? count) && negb unsigned ||
       match range_of t' with Some (lo', hi') => (lo' <=? r.1) && (r.2 <=? hi') | None => false end)
  | _, _ => t =? kRegTypeFloat
  end.

Lemma shift_checked_all unsigned t count n : cat1nr t -> t <> kRegTypeFloat -> 0 <= n < 32 ->
  (count = n \/ count = 32) -> shift_checked unsigned t count n = true.
Proof.
  intros Ht Hf Hn Hc.
  pose (ok t := (t =? kRegTypeFloat) || forallb (fun b => forallb (fun n => shift_checked b t n n && shift_checked b t 32 n) (seqZ 0 32)) [true; false]).
  assert (Hok : ok t = true) by (apply forall_cat1nr; [vm_compute; reflexivity|done]).
  unfold ok in Hok. rewrite (proj2 (Z.eqb_neq _ _) Hf), orb_false_l in Hok.
  assert (Hb : forallb (fun n => shift_checked unsigned t n n && shift_checked unsigned t 32 n) (seqZ 0 32) = true).
  { cbn [forallb] in Hok. rewrite !andb_true_iff in Hok. destruct unsigned; tauto. }
  pose proof (forallb_seqZ _ _ _ _ Hb Hn) as Hx. apply andb_true_iff in Hx. destruct Hc as [-> | ->]; tauto.
Qed.

Lemma large_shift NDEBUG t count unsigned : 32 <= count ->
  adjustForRightShift NDEBUG t count unsigned = adjustForRightShift NDEBUG t 32 unsigned.
Proof.
  intros Hc. unfold adjustForRightShift. rewrite (proj2 (Z.eqb_neq count 0)), (proj2 (Z.geb_le count 32)) by lia. done.
Qed.

(** Assertions that hold are not noticed when they are switched off. *)
Lemma adjust_ndebug NDEBUG t count unsigned r :
  adjustForRightShift false t count unsigned = Some r -> adjustForRightShift NDEBUG t count unsigned = Some r.
Proof. unfold adjustForRightShift, asserted. repeat case_match; destruct NDEBUG; done. Qed.

(** ** Properties *)

(** A value may be used as a type exactly when every value its own type stands for
    is one of that type: for the types of one word that are no [float] the table of
    conversions is the inclusion of ranges. *)
Theorem conversions_exact t u : cat1nr t -> t <> kRegTypeFloat -> u ∈ asked_types ->
  exists b, canConvertTo1nr t u = Some b /\ (b = true <-> (forall v, fits t v -> fits u v)).
Proof.
  intros Ht Hf Hu. exists (within t u).
  assert (Hu' : cat1nr u) by (unfold asked_types in Hu; rewrite !elem_of_cons, elem_of_nil in Hu; destruct_or? Hu; subst; done).
  split; [|by apply within_iff].
  pose (ok t := (t =? kRegTypeFloat) || forallb (fun u => eqb_option (Z.b2z <$> canConvertTo1nr t u) (Some (Z.b2z (within t u)))) asked_types).
  assert (Hok : ok t = true) by (apply forall_cat1nr; [vm_compute; reflexivity|done]).
  unfold ok in Hok. rewrite (proj2 (Z.eqb_neq _ _) Hf), orb_false_l, forallb_forall in Hok.
  specialize (Hok u (proj1 (list_elem_of_In _ _) Hu)). apply eqb_option_eq in Hok.
  destruct (canConvertTo1nr t u) as [c|]; [|done]. cbn in Hok. injection Hok as E. f_equal.
  destruct c, (within t u); done.
Qed.

(** A merge keeps what it knows of both values, and where it does not is known: the
    merge of two types of one word stands for every value of either, unless it is a
    conflict, with the exception of six merges, in which a constant that may be negative
    becomes one that is not. *)
Theorem merge_sound t u : cat1nr t -> cat1nr u ->
  exists m, mergeTab t u = Some m /\
  (sign_lost t u = false -> m = kRegTypeConflict \/ cat1nr m /\ (forall v, fits t v \/ fits u v -> fits m v)) /\
  (sign_lost t u = true -> cat1nr m /\ exists v, (fits t v \/ fits u v) /\ ~ fits m v).
Proof.
  intros Ht Hu. pose proof (merge_checked_all t u Ht Hu) as C. unfold merge_checked in C.
  destruct (mergeTab t u) as [m|]; [|done]. exists m. split; [done|].
  destruct (Z.eqb_spec m kRegTypeConflict) as [Em|Hm].
  - apply negb_true_iff in C. rewrite C. split; [by left|done].
  - rewrite !andb_true_iff in C. destruct C as [Hc Hb%Bool.eqb_prop].
    assert (Hm1 : cat1nr m) by (unfold cat1nr; lia). split; intros Hs; rewrite Hs in Hb; cbn [negb] in Hb.
    + apply andb_true_iff in Hb as [H1 H2]. right. split; [done|].
      intros v [?|?]; [by apply (within_fits t)|by apply (within_fits u)].
    + split; [done|]. destruct (within t m) eqn:E1; cbn [andb] in Hb.
      * destruct (not_within u m Hu Hm1 Hb) as (v & ? & ?). eauto.
      * destruct (not_within t m Ht Hm1 E1) as (v & ? & ?). eauto.
Qed.

(** The type of a constant is the narrowest: the value is one of it, and every type
    of constants the value is one of stands for all it stands for. *)
Theorem const_narrowest value : inS 32 value ->
  fits (determineCat1Const value) value /\ determineCat1Const value ∈ const_types /\
  (forall t, t ∈ const_types -> fits t value -> within (determineCat1Const value) t = true).
Proof.
  intros Hv. split_and!.
  - unfold determineCat1Const. repeat case_match; eexists _, _; (split; [reflexivity|cint_range]).
  - unfold determineCat1Const, const_types. repeat case_match; rewrite !elem_of_cons; tauto.
  - intros t Ht (lo & hi & E & Hr). unfold const_types in Ht. rewrite !elem_of_cons, elem_of_nil in Ht.
    destruct_or? Ht; subst; try done; vm_compute in E; injection E as <- <-;
      unfold determineCat1Const; repeat case_match; try reflexivity; lia.
Qed.

(** The narrowing of right shifts is right, but for one case: for a shift by any
    literal the type given to the result is one the result is of, except that a register
    known to be 1, shifted by a literal above 31 of which the interpreter takes the low
    five bits, is still said to be 1. *)
Theorem right_shift_sound NDEBUG unsigned t count v : cat1nr t -> t <> kRegTypeFloat -> 0 <= count -> fits t v ->
  exists t', adjustForRightShift NDEBUG t count unsigned = Some t' /\ cat1nr t' /\
  (fits t' (shift_right_lit8 unsigned v count) \/ t = kRegTypeOne /\ 32 <= count /\ unsigned = false).
Proof.
  intros Ht Hf Hc (lo & hi & E & Hv).
  assert (Hn : 0 <= Z.land count 0x1f < 32).
  { change 0x1f with (Z.ones 5). rewrite Z.land_ones by lia. by apply Z.mod_pos_bound. }
  assert (Hs : shift_checked unsigned t (if count <? 32 then count else 32) (Z.land count 0x1f) = true).
  { apply shift_checked_all; [done..|]. destruct (Z.ltb_spec count 32); [left|by right].
    change 0x1f with (Z.ones 5). rewrite Z.land_ones by lia. by rewrite Z.mod_small. }
  assert (Ha : adjustForRightShift false t count unsigned = adjustForRightShift false t (if count <? 32 then count else 32) unsigned).
  { destruct (Z.ltb_spec count 32); [done|]. by apply large_shift. }
  unfold shift_checked in Hs. rewrite E, <- Ha in Hs.
  destruct (adjustForRightShift false t count unsigned) as [t'|] eqn:Et; [|by apply Z.eqb_eq in Hs].
  rewrite (adjust_ndebug NDEBUG _ _ _ _ Et).
  rewrite !andb_true_iff, orb_true_iff, !andb_true_iff in Hs. destruct Hs as [Hr Hs]. exists t'.
  split; [done|]. split; [unfold cat1nr; lia|]. destruct Hs as [[[H1 H2] H3]|Hs].
  - right. split; [by apply Z.eqb_eq|]. split; [destruct (Z.ltb_spec count 32); lia|by destruct unsigned].
  - left. destruct (range_of t') as [[lo' hi']|] eqn:E'; [|done]. exists lo', hi'. split; [done|].
    destruct (cat1nr_ranged t Ht) as (lo2 & hi2 & E2 & _ & Hlo & Hhi). rewrite E in E2. injection E2 as <- <-.
    pose proof (shift_range_ok unsigned lo hi v count Hlo Hhi Hv). lia.
Qed.

(** A 1 that is shifted by 33 is 0, and said to be 1. *)
Lemma one_stays_one : adjustForRightShift false kRegTypeOne 33 false = Some kRegTypeOne /\ shift_right_lit8 false 1 33 = 0.
Proof. split; reflexivity. Qed.

(** The constants -1 and 40000 meet in a type that converts to [char]. *)
Lemma negative_char :
  mergeTab (determineCat1Const (-1)) (determineCat1Const 40000) = Some kRegTypeConstChar /\
  canConvertTo1nr kRegTypeConstChar kRegTypeChar = Some true /\
  canConvertTo1nr (determineCat1Const (-1)) kRegTypeChar = Some false.
Proof. split_and!; reflexivity. Qed.

(** The result of two merges depends on their order: with a [byte] of a method the same
    two constants make a [char] or an [int]. *)
Lemma merge_order_matters :
  (m ← mergeTab kRegTypeConstByte kRegTypeConstChar; mergeTab m kRegTypePosByte) = Some kRegTypeChar /\
  (m ← mergeTab kRegTypeConstChar kRegTypePosByte; mergeTab kRegTypeConstByte m) = Some kRegTypeInteger.
Proof. split; reflexivity. Qed.

(** ** Witnesses *)

Lemma conversions_exact_witness : canConvertTo1nr kRegTypeConstPosShort kRegTypeChar = Some true /\
  (forall v, fits kRegTypeConstPosShort v -> fits kRegTypeChar v).
Proof.
  assert (Ht : cat1nr kRegTypeConstPosShort) by (split; discriminate).
  assert (Hu : kRegTypeChar ∈ asked_types) by (apply list_elem_of_In; vm_compute; tauto).
  destruct (conversions_exact kRegTypeConstPosShort kRegTypeChar Ht ltac:(discriminate) Hu) as (b & E & Hb).
  vm_compute in E. injection E as <-. split; [reflexivity|]. by apply Hb.
Defined.

Lemma merge_sound_witness : mergeTab kRegTypeConstByte kRegTypeChar = Some kRegTypeInteger /\ fits kRegTypeInteger 65535.
Proof.
  destruct (merge_sound kRegTypeConstByte kRegTypeChar) as (m & E & Hm & _); [split; discriminate..|].
  vm_compute in E. injection E as <-. split; [reflexivity|]. destruct (Hm eq_refl) as [?|[_ Hv]]; [discriminate|].
  apply Hv. right. exists 0, 65535. split; [reflexivity|lia].
Defined.

Lemma const_narrowest_witness : fits kRegTypeConstByte (-1) /\ within kRegTypeConstByte kRegTypeConstShort = true.
Proof.
  assert (Hv : inS 32 (-1)) by (split; vm_compute; [discriminate|reflexivity]).
  destruct (const_narrowest (-1) Hv) as (H1 & _ & H3). split; [exact H1|]. apply H3.
  - apply list_elem_of_In. vm_compute. tauto.
  - exists (-32768), 32767. split; [reflexivity|lia].
Defined.

Lemma right_shift_sound_witness : fits kRegTypeByte (shift_right_lit8 false (-300000) 24).
Proof.
  assert (Ht : cat1nr kRegTypeInteger) by (split; discriminate).
  assert (Hv : fits kRegTypeInteger (-300000)) by (exists (- 2 ^ 31), (2 ^ 31 - 1); split; [reflexivity|lia]).
  destruct (right_shift_sound false false kRegTypeInteger 24 (-300000) Ht ltac:(discriminate) ltac:(lia) Hv) as (t & E & _ & [Hf|[? _]]).
  - vm_compute in E. injection E as <-. exact Hf.
  - discriminate.
Defined.
