(* ===== verification/RegMerge.v ===== *)
(** * Merging of registers: [dalvik/vm/analysis/CodeVerify.cpp]

    Types of registers that hold references, the closest common superclass of two
    classes, and the merge of two types of any kind. A type is a word: the number of a
    simple type, the pointer of a class, or the number of an uninitialized instance. *)

From stdpp Require Import gmap relations.
From S2P Require Import Prelude Bits Search DexFile TypeCheck RegTypes.

(** ** Types of references *)

Definition regTypeIsReference (type : Z) : bool :=
  (type >? kRegTypeMAX) || (type =? kRegTypeUninit) || (type =? kRegTypeZero).

Definition regTypeIsUninitReference (type : Z) : bool :=
  Z.land type kRegTypeUninitMask =? kRegTypeUninit.

(** The [NULL] of the code is 0. *)
Definition regTypeInitializedReferenceToClass (type : Z) : option Z :=
  if regTypeIsReference type && negb (type =? kRegTypeZero)
  then Some (if Z.land type 0x01 =? 0 then type else 0) else None.

Definition regTypeToUninitIndex (type : Z) : option Z :=
  if regTypeIsUninitReference type
  then Some (Z.shiftr (Z.ldiff type kRegTypeUninitMask) kRegTypeUninitShift) else None.

Definition regTypeFromClass (clazz : Z) : Z := clazz.

Definition regTypeFromUninitIndex (uidx : Z) : Z :=
  u32 (Z.lor kRegTypeUninit (Z.shiftl uidx kRegTypeUninitShift)).

Section Merge.
Context (NDEBUG : bool) (classes : gmap Z ClassObject).

(** The array class of a descriptor and a class loader, made if need be:
    [dvmFindArrayClass] of [oo/Array.cpp], and the loaders of the classes. *)
Context (dvmFindArrayClass : list Z -> Z -> Z) (classLoader : Z -> Z).

Definition dvmFindArrayClassForElement (elemClassObj : Z) : option Z :=
  e ← classes !! elemClassObj;
  Some (dvmFindArrayClass (91 :: descriptor e) (classLoader elemClassObj)).

(** ** Common superclasses

    [fuel]: more than the length of any chain of superclasses. *)

Fixpoint getClassDepth (fuel : nat) (clazz : Z) : option Z :=
  match fuel with
  | O => None
  | S fuel =>
      k ← classes !! clazz;
      if super k =? 0 then Some 0
      else depth ← getClassDepth fuel (super k); Some (depth + 1)
  end.

(** [n] times [c = c->super]. *)
Fixpoint pull_up (n : nat) (c : Z) : option Z :=
  match n with
  | O => Some c
  | S n => k ← classes !! c; pull_up n (super k)
  end.

Fixpoint lock_step (fuel : nat) (c1 c2 : Z) : option Z :=
  if c1 =? c2 then Some c1
  else
    match fuel with
    | O => None
    | S fuel =>
        k1 ← classes !! c1;
        k2 ← classes !! c2;
        asserted NDEBUG (negb (super k1 =? 0) && negb (super k2 =? 0)) (lock_step fuel (super k1) (super k2))
    end.

Context (fuel : nat).

Definition digForSuperclass (c1 c2 : Z) : option Z :=
  depth1 ← getClassDepth fuel c1;
  depth2 ← getClassDepth fuel c2;
  c1 ← pull_up (Z.to_nat (depth1 - depth2)) c1;
  c2 ← pull_up (Z.to_nat (depth2 - depth1)) c2;
  lock_step fuel c1 c2.

(** The rounds that are left, from the [arrayClass] and the [commonElem] of the code. *)
Fixpoint array_rounds (n : nat) (arrayClass commonElem : Z) : option Z :=
  match n with
  | O => Some arrayClass
  | S n => arrayClass ← dvmFindArrayClassForElement commonElem; array_rounds n arrayClass arrayClass
  end.

(** [findCommonSuperclass] on the elements. *)
Definition findCommonArraySuperclass (findCommonSuperclass : Z -> Z -> option Z) (c1 c2 : Z) : option Z :=
  k1 ← classes !! c1;
  k2 ← classes !! c2;
  asserted NDEBUG ((arrayDim k1 >? 0) && (arrayDim k2 >? 0)) (
    e1 ← classes !! elementClass k1;
    e2 ← classes !! elementClass k2;
    let arrayDim1 := if dvmIsPrimitiveClass e1 then arrayDim k1 - 1 else arrayDim k1 in
    let arrayDim2 := if dvmIsPrimitiveClass e2 then arrayDim k2 - 1 else arrayDim k2 in
    let hasPrimitive := dvmIsPrimitiveClass e1 || dvmIsPrimitiveClass e2 in
    arrayClass ←
      (if negb hasPrimitive && (arrayDim1 =? arrayDim2) then
         commonElem ← findCommonSuperclass (elementClass k1) (elementClass k2);
         array_rounds (Z.to_nat arrayDim1) 0 commonElem
       else
         let numDims := if arrayDim1 <? arrayDim2 then arrayDim1 else arrayDim2 in
         array_rounds (Z.to_nat numDims) (super k1) (super k1));
    asserted NDEBUG (negb (arrayClass =? 0)) (Some arrayClass)).

(** [nesting]: the elements of arrays are no arrays. *)
Fixpoint findCommonSuperclass_ (nesting : nat) (c1 c2 : Z) : option Z :=
  match nesting with
  | O => None
  | S nesting =>
      k1 ← classes !! c1;
      k2 ← classes !! c2;
      asserted NDEBUG (negb (dvmIsPrimitiveClass k1) && negb (dvmIsPrimitiveClass k2)) (
        if c1 =? c2 then Some c1
        else
          impl1 ← (if dvmIsInterfaceClass k1 then dvmImplements classes c2 c1 else Some false);
          if (impl1 : bool) then Some c1
          else
            impl2 ← (if dvmIsInterfaceClass k2 then dvmImplements classes c1 c2 else Some false);
            if (impl2 : bool) then Some c2
            else if dvmIsArrayClass k1 && dvmIsArrayClass k2
            then findCommonArraySuperclass (findCommonSuperclass_ nesting) c1 c2
            else digForSuperclass c1 c2)
  end.

Definition findCommonSuperclass : Z -> Z -> option Z := findCommonSuperclass_ 2.

(** ** The merge

    The flag is the [*pChanged] of the code: whether the result differs from the first
    type. *)

Definition mergeTypes (type1 type2 : Z) : option (Z * bool) :=
  if type1 =? type2 then Some (type1, false)
  else
    result ←
      (if type1 <? kRegTypeMAX then
         if type2 <? kRegTypeMAX then mergeTab type1 type2
         else Some (if type1 =? kRegTypeZero then type2 else kRegTypeConflict)
       else
         if type2 <? kRegTypeMAX then Some (if type2 =? kRegTypeZero then type1 else kRegTypeConflict)
         else if regTypeIsUninitReference type1 || regTypeIsUninitReference type2 then Some kRegTypeConflict
         else
           clazz1 ← regTypeInitializedReferenceToClass type1;
           clazz2 ← regTypeInitializedReferenceToClass type2;
           mergedClass ← findCommonSuperclass clazz1 clazz2;
           asserted NDEBUG (negb (mergedClass =? 0)) (Some (regTypeFromClass mergedClass)));
    Some (result, negb (result =? type1)).

Definition mergeMonitorEntries (ents1 ents2 : Z) : Z * bool :=
  let result := u32 (Z.land ents1 ents2) in (result, negb (result =? ents1)).

(** ** The order of types

    What a merge may make of a type. The types of one word are ordered by the values they
    stand for. A constant may be used as a [float] or as an integer of any size that has
    room for it, an integer is no constant and no [float] afterwards. *)

Definition initialized (t : Z) : Prop :=
  kRegTypeMAX < t < 2 ^ 32 /\ Z.land t 0x01 = 0 /\ exists k, classes !! t = Some k /\ dvmIsPrimitiveClass k = false.

Definition is_const (t : Z) : bool := (kRegTypeZero <=? t) && (t <=? kRegTypeConstInteger).
Definition is_int (t : Z) : bool := (kRegTypePosByte <=? t) && (t <=? kRegTypeInteger).
Definition is_float (t : Z) : bool := t =? kRegTypeFloat.

Definition holds_within (t m : Z) : bool :=
  within t m && (is_const t || is_int t && is_int m || is_float t && is_float m).

(** A constant may lose its sign. *)
Definition forgets_sign (t m : Z) : bool :=
  (t =? kRegTypeConstByte) &&
    ((m =? kRegTypeConstPosShort) || (m =? kRegTypeConstChar) || (m =? kRegTypePosShort) || (m =? kRegTypeChar)) ||
  (t =? kRegTypeConstShort) && ((m =? kRegTypeConstChar) || (m =? kRegTypeChar)).

Definition one_word_below (t m : Z) : bool := holds_within t m || forgets_sign t m.

Context (Object : Z) (array_interfaces : list Z).

Inductive widens : Z -> Z -> Prop :=
  | widens_refl t : widens t t
  | widens_conflict t : widens t kRegTypeConflict
  | widens_one t m : one_word_below t m = true -> widens t m
  | widens_long : widens kRegTypeConstLo kRegTypeLongLo
  | widens_long_hi : widens kRegTypeConstHi kRegTypeLongHi
  | widens_double : widens kRegTypeConstLo kRegTypeDoubleLo
  | widens_double_hi : widens kRegTypeConstHi kRegTypeDoubleHi
  | widens_null m : kRegTypeMAX <= m -> widens kRegTypeZero m
  | widens_class t m : initialized t -> initialized m ->
      subtype classes Object array_interfaces (type_of classes t) (type_of classes m) -> widens t m.

(** Where assertions are off, a class that meets a class of primitive values is unknown. *)
Definition becomes (t m : Z) : Prop :=
  widens t m \/ NDEBUG = true /\ m = kRegTypeUnknown /\ (t = kRegTypeZero \/ kRegTypeMAX <= t).

(** The words that are types of registers. *)
Definition reg_type (t : Z) : Prop :=
  0 <= t < kRegTypeMAX \/ kRegTypeMAX < t < 2 ^ 32 /\ regTypeIsUninitReference t = true \/ initialized t.

(** ** Lemmas: the order *)

Ltac type_arith :=
  unfold initialized, is_const, is_int, is_float, kRegTypeMAX, kRegTypeUnknown, kRegTypeZero, kRegTypeConstInteger, kRegTypePosByte,
    kRegTypeInteger, kRegTypeFloat, kRegTypeConflict, kRegTypeConstLo, kRegTypeConstHi, kRegTypeLongLo, kRegTypeLongHi,
    kRegTypeDoubleLo, kRegTypeDoubleHi in *; lia.

Lemma one_word_range t m : one_word_below t m = true -> kRegTypeZero <= t <= kRegTypeFloat /\ kRegTypeZero <= m <= kRegTypeFloat.
Proof using.
  intros W.
  assert (Hm : forall x lo hi, range_of x = Some (lo, hi) -> kRegTypeZero <= x <= kRegTypeFloat).
  { intros x lo hi. unfold range_of, constTypeToRegType.
    repeat (case_match; repeat match goal with E : _ || _ = true |- _ => apply orb_true_iff in E as [E|E] end;
      repeat match goal with E : (x =? _) = true |- _ => apply Z.eqb_eq in E as -> end; try done). }
  unfold one_word_below, holds_within, within, forgets_sign in W. rewrite !orb_true_iff, !andb_true_iff in W.
  destruct W as [[W _]|W].
  - destruct (range_of t) as [[lo hi]|] eqn:E; [|done]. destruct (range_of m) as [[lo' hi']|] eqn:E'; [|done].
    split; by eapply Hm.
  - rewrite !orb_true_iff in W. destruct W as [[W1 W2]|[W1 W2]]; apply Z.eqb_eq in W1 as ->; destruct_or? W2; apply Z.eqb_eq in W2 as ->; done.
Qed.

Lemma one_word_trans a b c : one_word_below a b = true -> one_word_below b c = true -> one_word_below a c = true.
Proof using.
  intros H1 H2. destruct (one_word_range a b H1) as [Ra Rb], (one_word_range b c H2) as [_ Rc].
  pose (ok a b c := negb (one_word_below a b && one_word_below b c) || one_word_below a c).
  assert (E : ok a b c = true); [|unfold ok in E; by rewrite H1, H2 in E].
  refine (forall_cat1nr (ok a b) c _ Rc). refine (forall_cat1nr (fun b => forallb (ok a b) (seqZ 3 16)) b _ Rb).
  refine (forall_cat1nr (fun a => forallb (fun b => forallb (ok a b) (seqZ 3 16)) (seqZ 3 16)) a _ Ra). vm_compute. reflexivity.
Qed.

Lemma one_word_zero t : one_word_below t kRegTypeZero = true -> t = kRegTypeZero.
Proof using.
  intros H1. destruct (one_word_range _ _ H1) as [Rt _].
  assert (E : negb (one_word_below t kRegTypeZero) || (t =? kRegTypeZero) = true).
  { refine (forall_cat1nr (fun t => negb (one_word_below t kRegTypeZero) || (t =? kRegTypeZero)) t _ Rt). vm_compute. reflexivity. }
  rewrite H1 in E. by apply Z.eqb_eq.
Qed.

Lemma widens_trans a b c : widens a b -> widens b c -> widens a c.
Proof using.
  intros Hab. revert c. induction Hab as [t|t|t m T| | | | |m I|t m I1 I2 S]; intros c Hbc; [done|..];
    try (pose proof (one_word_range _ _ T));
    (inversion Hbc as [t'|t'|t' m' U| | | | |m' J|t' m' J1 J2 S']; subst;
     try (pose proof (one_word_range _ _ U)); try (by constructor); try (exfalso; type_arith); try (apply widens_null; type_arith)).
  - apply widens_one. by eapply one_word_trans.
  - rewrite (one_word_zero _ T). by apply widens_null.
  - apply widens_class; [done..|]. by eapply subtype_trans.
Qed.

Lemma widens_up t m : widens t m -> kRegTypeMAX <= m \/ m = kRegTypeZero -> t = kRegTypeZero \/ kRegTypeMAX <= t.
Proof using.
  intros W Hm. inversion W as [t'|t'|t' m' U| | | | |m' J|t' m' J1 J2 S']; subst; try type_arith.
  pose proof (one_word_range _ _ U). destruct Hm as [?| ->]; [type_arith|]. left. by apply one_word_zero.
Qed.

Lemma becomes_trans a b c : becomes a b -> becomes b c -> becomes a c.
Proof using.
  clear dvmFindArrayClass classLoader.
  intros [W1|(N & -> & Hz)] [W2|(N' & -> & Hz')].
  - left. by eapply widens_trans.
  - right. split; [done|]. split; [done|]. apply (widens_up a b W1). tauto.
  - inversion W2 as [t'|t'|t' m' U| | | | |m' J|t' m' J1 J2 S']; subst; [by right|left; constructor| |type_arith].
    pose proof (one_word_range _ _ U). type_arith.
  - by right.
Qed.

(** ** Lemmas: chains of superclasses *)

Inductive chain : Z -> nat -> Prop :=
  | chain_root c k : classes !! c = Some k -> super k = 0 -> chain c 0
  | chain_super c k n : classes !! c = Some k -> super k <> 0 -> chain (super k) n -> chain c (S n).

Lemma chain_unique c n : chain c n -> forall m, chain c m -> n = m.
Proof.
  induction 1 as [c k Hk Hs|c k n Hk Hs _ IH]; intros m; inversion 1 as [c' k' Hk'|c' k' n' Hk' Hs' Hn']; subst; try congruence.
  f_equal. apply IH. by assert (k' = k) as -> by congruence.
Qed.

Lemma chain_above c d n : rtc (super_of classes) c d -> chain c n -> exists m, chain d m /\ (m <= n)%nat /\ (m = n -> c = d).
Proof.
  intros Hr. revert n. induction Hr as [c|c x d (k & Hk & <- & Hx) _ IH]; intros n Hc; [by exists n|].
  inversion Hc as [c' k' Hk'|c' k' n' Hk' Hs' Hn']; subst; [congruence|].
  assert (k' = k) as -> by congruence. destruct (IH n' Hn') as (m & Hm & Hle & _). exists m. split; [done|]. split; [lia|]. lia.
Qed.

Lemma above_linear c d e : rtc (super_of classes) c d -> rtc (super_of classes) c e ->
  rtc (super_of classes) d e \/ rtc (super_of classes) e d.
Proof.
  intros Hr. revert e. induction Hr as [c|c x d (k & Hk & <- & Hx) Hr IH]; intros e He; [by left|].
  apply rtc_inv in He as [->|(y & (k' & Hk' & <- & Hy) & He)].
  - right. apply (rtc_l _ _ (super k)); [by exists k|done].
  - assert (k' = k) as -> by congruence. by apply IH.
Qed.

Lemma above_shorter c d e n m : rtc (super_of classes) c d -> rtc (super_of classes) c e ->
  chain d n -> chain e m -> (m <= n)%nat -> rtc (super_of classes) d e.
Proof.
  intros Hd He Cd Ce Hle. destruct (above_linear c d e Hd He) as [?|Hr]; [done|].
  destruct (chain_above e d m Hr Ce) as (n' & Cd' & Hn & Heq). assert (n' = n) as -> by (by eapply chain_unique).
  assert (e = d) as -> by (apply Heq; lia). done.
Qed.

Lemma pull_up_spec n : forall c m, chain c (n + m) ->
  exists d, pull_up n c = Some d /\ rtc (super_of classes) c d /\ chain d m.
Proof.
  induction n as [|n IH]; intros c m Hc; [by exists c|].
  inversion Hc as [|c' k n' Hk Hs Hn]; subst. cbn [pull_up]. rewrite Hk. cbn [mbind option_bind].
  destruct (IH _ _ Hn) as (d & -> & Hr & Hd). exists d. split; [done|]. split; [|done].
  apply (rtc_l _ _ (super k)); [by exists k|done].
Qed.

Section Hierarchy.
Context (depth : Z -> nat).
Hypothesis H : hierarchy_ok classes fuel Object array_interfaces depth.
Hypothesis Hai : forall i, i ∈ array_interfaces -> exists j, classes !! i = Some j /\ dvmIsInterfaceClass j = true.

Lemma depth_chain f : forall c k, classes !! c = Some k -> (depth c < f)%nat ->
  exists n, getClassDepth f c = Some (Z.of_nat n) /\ chain c n /\ (n <= depth c)%nat.
Proof using H.
  induction f as [|f IH]; intros c k Hc Hf; [lia|]. cbn [getClassDepth]. rewrite Hc. cbn [mbind option_bind].
  destruct (Z.eqb_spec (super k) 0) as [E0|Hs]; [exists 0%nat; split; [done|]; split; [by eapply chain_root|lia]|].
  destruct (h_super _ _ _ _ _ H c k Hc Hs) as (k' & Hk' & _ & Hd & _).
  destruct (IH _ _ Hk' ltac:(lia)) as (n & -> & Hn & Hle). exists (S n). cbn [mbind option_bind].
  split; [f_equal; lia|]. split; [by eapply chain_super|lia].
Qed.

Lemma lock_step_spec f : forall c1 c2 k1 k2 n, chain c1 n -> chain c2 n -> (n <= f)%nat ->
  classes !! c1 = Some k1 -> dvmIsPrimitiveClass k1 = false -> classes !! c2 = Some k2 -> dvmIsPrimitiveClass k2 = false ->
  exists d, lock_step f c1 c2 = Some d /\ rtc (super_of classes) c1 d /\ rtc (super_of classes) c2 d /\
    (forall e, rtc (super_of classes) c1 e -> rtc (super_of classes) c2 e -> rtc (super_of classes) d e).
Proof using H.
  induction f as [|f IH]; intros c1 c2 k1 k2 n C1 C2 Hn H1 P1 H2 P2; cbn [lock_step];
    (destruct (Z.eqb_spec c1 c2) as [->|Hne]; [by exists c2|]);
    (inversion C1 as [c k Hk Hs|c k n1 Hk Hs Hc]; subst; assert (k = k1) as -> by congruence;
     [inversion C2 as [c k Hk2 Hs2|]; subst; assert (k = k2) as -> by congruence;
      destruct (h_root _ _ _ _ _ H c1 k1 H1 Hs); [|congruence];
      destruct (h_root _ _ _ _ _ H c2 k2 H2 Hs2); congruence|]); [lia|].
  inversion C2 as [|c k n2 Hk2 Hs2 Hc2]; subst; assert (k = k2) as -> by congruence.
  rewrite H1, H2. cbn [mbind option_bind]. rewrite !(proj2 (Z.eqb_neq _ _)) by done. rewrite asserted_true by done.
  destruct (h_super _ _ _ _ _ H c1 k1 H1 Hs) as (s1 & Hs1' & (_ & _ & Q1) & _).
  destruct (h_super _ _ _ _ _ H c2 k2 H2 Hs2) as (s2 & Hs2' & (_ & _ & Q2) & _).
  destruct (IH _ _ s1 s2 n1 Hc Hc2 ltac:(lia) Hs1' Q1 Hs2' Q2) as (d & -> & R1 & R2 & Hmin). exists d.
  split; [done|]. split; [apply (rtc_l _ _ (super k1)); [by exists k1|done]|].
  split; [apply (rtc_l _ _ (super k2)); [by exists k2|done]|]. intros e E1 E2. apply Hmin.
  - apply rtc_inv in E1 as [<-|(x & (k & Hk' & <- & _) & ?)]; [|by assert (k = k1) as -> by congruence].
    destruct (chain_above c2 c1 _ E2 C2) as (m & Cm & _ & Heq).
    assert (m = S n1) as -> by (eapply chain_unique; [exact Cm|exact C1]). by rewrite (Heq eq_refl) in Hne.
  - apply rtc_inv in E2 as [<-|(x & (k & Hk' & <- & _) & ?)]; [|by assert (k = k2) as -> by congruence].
    destruct (chain_above c1 c2 _ E1 C1) as (m & Cm & _ & Heq).
    assert (m = S n1) as -> by (eapply chain_unique; [exact Cm|exact C2]). by rewrite (Heq eq_refl) in Hne.
Qed.

Lemma dig_spec c1 c2 k1 k2 : classes !! c1 = Some k1 -> dvmIsPrimitiveClass k1 = false ->
  classes !! c2 = Some k2 -> dvmIsPrimitiveClass k2 = false ->
  exists d, digForSuperclass c1 c2 = Some d /\ rtc (super_of classes) c1 d /\ rtc (super_of classes) c2 d /\
    (forall e, rtc (super_of classes) c1 e -> rtc (super_of classes) c2 e -> rtc (super_of classes) d e).
Proof using H.
  intros H1 P1 H2 P2. unfold digForSuperclass.
  destruct (depth_chain fuel c1 k1 H1 (h_depth _ _ _ _ _ H c1 k1 H1)) as (n1 & -> & C1 & L1).
  destruct (depth_chain fuel c2 k2 H2 (h_depth _ _ _ _ _ H c2 k2 H2)) as (n2 & -> & C2 & L2). cbn [mbind option_bind].
  pose (m := Nat.min n1 n2). pose proof (h_depth _ _ _ _ _ H c1 k1 H1).
  destruct (pull_up_spec (n1 - n2) c1 m) as (d1 & E1 & R1 & D1).
  { by replace (n1 - n2 + m)%nat with n1 by lia. }
  destruct (pull_up_spec (n2 - n1) c2 m) as (d2 & E2 & R2 & D2).
  { by replace (n2 - n1 + m)%nat with n2 by lia. }
  replace (Z.to_nat (Z.of_nat n1 - Z.of_nat n2)) with (n1 - n2)%nat by lia.
  replace (Z.to_nat (Z.of_nat n2 - Z.of_nat n1)) with (n2 - n1)%nat by lia.
  rewrite E1, E2. cbn [mbind option_bind].
  assert (Q : forall c k d, classes !! c = Some k -> dvmIsPrimitiveClass k = false -> rtc (super_of classes) c d ->
    exists l, classes !! d = Some l /\ dvmIsPrimitiveClass l = false).
  { intros c k d Hc Hp Hr. apply rtc_inv_r in Hr as [->|(x & _ & (k' & Hk' & <- & Hx))]; [by exists k|].
    destruct (h_super _ _ _ _ _ H x k' Hk' Hx) as (l & Hl & (_ & _ & ?) & _). by exists l. }
  destruct (Q _ _ _ H1 P1 R1) as (l1 & X1 & Y1), (Q _ _ _ H2 P2 R2) as (l2 & X2 & Y2).
  destruct (lock_step_spec fuel d1 d2 l1 l2 m D1 D2 ltac:(lia) X1 Y1 X2 Y2) as (d & -> & S1 & S2 & Hmin).
  exists d. split; [done|]. split; [by etrans|]. split; [by etrans|]. intros e Ha Hb.
  destruct (chain_above c1 e n1 Ha C1) as (p & Cp & Lp & _). destruct (chain_above c2 e n2 Hb C2) as (q & Cq & Lq & _).
  assert (p = q) as -> by (by eapply chain_unique). apply Hmin.
  - by apply (above_shorter c1 d1 e m q); [..|lia].
  - by apply (above_shorter c2 d2 e m q); [..|lia].
Qed.

(** ** Lemmas: common superclasses *)

(** The dimensions of the classes there are. *)
Definition dims_in_use (n : nat) : Prop := exists a l, classes !! a = Some l /\ (n <= (type_of classes a).2)%nat.

(** What class loading promises of array classes: those of dimensions in use are found,
    and there is one for an element class and a number of dimensions. *)
Record array_classes : Prop := {
  array_found c k : classes !! c = Some k -> dvmIsPrimitiveClass k = false -> dims_in_use (S (type_of classes c).2) ->
    exists l, classes !! dvmFindArrayClass (91 :: descriptor k) (classLoader c) = Some l /\
      dvmIsArrayClass l = true /\
      type_of classes (dvmFindArrayClass (91 :: descriptor k) (classLoader c)) = ((type_of classes c).1, S (type_of classes c).2);
  array_unique a b k l : classes !! a = Some k -> classes !! b = Some l -> dvmIsArrayClass k = true ->
    dvmIsArrayClass l = true -> type_of classes a = type_of classes b -> a = b;
  interface_irreflexive c k : classes !! c = Some k -> ~ c ∈ iftable k
}.
Hypothesis HA : array_classes.

(** The rank of a class: how many classes and interfaces lie above it. *)
Definition base_rank (c : Z) : nat :=
  (match getClassDepth fuel c with Some n => Z.to_nat n | None => 0 end +
   match classes !! c with Some k => size (list_to_set (iftable k) : gset Z) | None => 0 end)%nat.

(** A bound of the ranks of classes that are no arrays. *)
Context (B : nat).

Definition class_rank (c : Z) : nat := ((type_of classes c).2 * S B + base_rank (type_of classes c).1)%nat.

Hypothesis HB : forall c k, classes !! c = Some k -> (base_rank c <= B)%nat.

Lemma base_rank_chain c k n : classes !! c = Some k -> chain c n ->
  base_rank c = (n + size (list_to_set (iftable k) : gset Z))%nat.
Proof using H.
  intros Hc Cn. unfold base_rank. destruct (depth_chain fuel c k Hc (h_depth _ _ _ _ _ H c k Hc)) as (m & -> & Cm & _).
  rewrite (chain_unique _ _ Cn _ Cm), Hc, Nat2Z.id. done.
Qed.

Lemma chain_of c k : classes !! c = Some k -> exists n, chain c n.
Proof using H.
  intros Hc. destruct (depth_chain fuel c k Hc (h_depth _ _ _ _ _ H c k Hc)) as (m & _ & Cm & _). by exists m.
Qed.

Lemma list_to_set_sub (l m : list Z) : l ⊆ m -> (list_to_set l : gset Z) ⊆ list_to_set m.
Proof. intros Hs x. rewrite !elem_of_list_to_set. apply Hs. Qed.

Lemma base_rank_super c d k : classes !! c = Some k -> rtc (super_of classes) c d -> d <> c ->
  (base_rank d < base_rank c)%nat.
Proof using H.
  intros Hc Hr Hne. destruct (chain_of c k Hc) as (n & Cn). destruct (chain_above c d n Hr Cn) as (m & Cm & Hle & Heq).
  destruct (super_defined _ _ _ _ _ H c d k Hr Hc) as (l & Hd).
  rewrite (base_rank_chain c k n), (base_rank_chain d l m) by done.
  pose proof (subseteq_size _ _ (list_to_set_sub _ _ (iftable_inherited _ _ _ _ _ H c d k l Hr Hc Hd))).
  assert (m <> n) by (intros E; by rewrite (Heq E) in Hne). lia.
Qed.

Lemma base_rank_interface c k i : classes !! c = Some k -> i ∈ iftable k -> (base_rank i < base_rank c)%nat.
Proof using H HA.
  intros Hc Hi. destruct (h_iftable _ _ _ _ _ H c k i Hc Hi) as (j & Hj & Hij & Hsub).
  destruct (chain_of c k Hc) as (n & Cn), (chain_of i j Hj) as (m & Cm).
  rewrite (base_rank_chain c k n), (base_rank_chain i j m) by done.
  assert (Hs : (list_to_set (iftable j) : gset Z) ⊂ list_to_set (iftable k)).
  { split; [by apply list_to_set_sub|]. intros Hs. apply (interface_irreflexive HA i j Hj).
    apply (elem_of_list_to_set (C := gset Z)), Hs. by apply elem_of_list_to_set. }
  apply subset_size in Hs. assert (m <= n)%nat; [|lia].
  destruct (h_object _ _ _ _ _ H) as (o & Ho & _ & Hso & Hio).
  inversion Cm as [x k' Hk' Hs'|x k' m' Hk' Hs' Cm']; subst; [lia|]. assert (k' = j) as -> by congruence.
  assert (m' = 0)%nat as ->.
  { apply (chain_unique (super j) m' Cm'). rewrite (proj1 (h_interface _ _ _ _ _ H i j Hj Hij)). by apply (chain_root Object o). }
  inversion Cn as [y k3 Hk3 Hs3|]; subst; [|lia]. assert (k3 = k) as -> by congruence.
  destruct (h_root _ _ _ _ _ H c k Hc Hs3) as [->|Hp].
  - assert (o = k) as -> by congruence. rewrite Hio in Hi. by apply not_elem_of_nil in Hi.
  - destruct (h_primitive _ _ _ _ _ H c k Hc Hp) as (_ & E & _). rewrite E in Hi. by apply not_elem_of_nil in Hi.
Qed.

Lemma base_rank_sub c d k : classes !! c = Some k -> base_sub classes c d -> d <> c -> (base_rank d < base_rank c)%nat.
Proof using H HA.
  intros Hc [Hr|(k' & Hk' & Hi)] Hne; [by apply (base_rank_super c d k)|by apply (base_rank_interface c k')].
Qed.

Lemma super_not_primitive c d k : classes !! c = Some k -> dvmIsPrimitiveClass k = false -> rtc (super_of classes) c d ->
  exists l, classes !! d = Some l /\ dvmIsPrimitiveClass l = false.
Proof using H.
  intros Hc Hp Hr. apply rtc_inv_r in Hr as [->|(x & _ & (k' & Hk' & <- & Hx))]; [by exists k|].
  destruct (h_super _ _ _ _ _ H x k' Hk' Hx) as (l & Hl & (_ & _ & ?) & _). by exists l.
Qed.

(** What a class may be merged into. *)
Definition good (c d : Z) : Prop :=
  subtype classes Object array_interfaces (type_of classes c) (type_of classes d) /\
  (d <> c -> (class_rank d < class_rank c)%nat).

Lemma good_base c d k : classes !! c = Some k -> dvmIsArrayClass k = false -> base_sub classes c d ->
  type_of classes d = (d, 0%nat) -> good c d.
Proof using H HA.
  intros Hc Ha Hb Hd. unfold good, class_rank. rewrite Hd, (type_of_plain _ c k) by done.
  split; [by apply (base_subtype classes fuel Object array_interfaces depth H c d k)|]. intros Hne. cbn [fst snd].
  pose proof (base_rank_sub c d k Hc Hb Hne). lia.
Qed.

Lemma type_of_super c d k : classes !! c = Some k -> dvmIsArrayClass k = false -> rtc (super_of classes) c d ->
  type_of classes d = (d, 0%nat).
Proof using H.
  intros Hc Ha Hr. destruct (super_defined _ _ _ _ _ H c d k Hr Hc) as (l & Hd).
  apply (type_of_plain _ d l Hd). by apply (above_plain _ _ _ _ _ H c d k l).
Qed.

Lemma type_of_object : type_of classes Object = (Object, 0%nat).
Proof using H. destruct (h_object _ _ _ _ _ H) as (o & Ho & (Ha & _) & _). by apply (type_of_plain _ Object o). Qed.

Lemma good_super c d k : classes !! c = Some k -> rtc (super_of classes) c d -> good c d.
Proof using H HA HB.
  intros Hc Hr. destruct (dvmIsArrayClass k) eqn:Ha.
  - apply rtc_inv in Hr as [<-|(x & (k' & Hk' & <- & Hx) & Hr)]; [split; [constructor|done]|].
    assert (k' = k) as -> by congruence. destruct (h_array _ _ _ _ _ H c k Hc Ha) as (Hdim & Hs & _ & (e & He & _)).
    rewrite Hs in Hr. rewrite (object_top _ _ _ _ _ H d Hr) in *. unfold good, class_rank.
    rewrite type_of_object, (type_of_array _ c k) by done. cbn [fst snd].
    replace (Z.to_nat (arrayDim k)) with (S (Z.to_nat (arrayDim k - 1))) by lia.
    split; [constructor|]. intros _. destruct (h_object _ _ _ _ _ H) as (o & Ho & _). pose proof (HB Object o Ho). nia.
  - apply (good_base c d k); [done..|by left|]. by apply (type_of_super c d k).
Qed.

Lemma good_interface c i k : classes !! c = Some k -> i ∈ iftable k -> good c i.
Proof using H HA HB.
  intros Hc Hi. destruct (h_iftable _ _ _ _ _ H c k i Hc Hi) as (j & Hj & Hij & _).
  destruct (h_interface _ _ _ _ _ H i j Hj Hij) as [_ Hja].
  assert (Et : type_of classes i = (i, 0%nat)) by (by apply (type_of_plain _ i j)).
  destruct (dvmIsArrayClass k) eqn:Ha.
  - destruct (h_array _ _ _ _ _ H c k Hc Ha) as (Hdim & _ & Hif & _). unfold good, class_rank.
    rewrite Et, (type_of_array _ c k) by done. cbn [fst snd].
    replace (Z.to_nat (arrayDim k)) with (S (Z.to_nat (arrayDim k - 1))) by lia. rewrite Hif in Hi.
    split; [by constructor|]. intros _. pose proof (HB i j Hj). nia.
  - apply (good_base c i k); [done..|right; by exists k|done].
Qed.

Lemma array_rounds_spec n : forall c k ac, (n = 0%nat -> ac = c) -> classes !! c = Some k -> dvmIsPrimitiveClass k = false ->
  dims_in_use (n + (type_of classes c).2) ->
  exists a l, array_rounds n ac c = Some a /\ classes !! a = Some l /\ dvmIsPrimitiveClass l = false /\
    type_of classes a = ((type_of classes c).1, (n + (type_of classes c).2)%nat) /\
    (0 < n -> dvmIsArrayClass l = true)%nat /\ (n = 0%nat -> a = c).
Proof using H HA.
  induction n as [|n IH]; intros c k ac Hac Hc Hp Hu.
  { rewrite (Hac eq_refl). exists c, k. do 3 (split; [done|]). split; [by destruct (type_of classes c)|]. split; [intros; lia|done]. }
  cbn [array_rounds]. unfold dvmFindArrayClassForElement. rewrite Hc. cbn [mbind option_bind].
  destruct (array_found HA c k Hc Hp) as (l & Hl & Hla & Ht).
  { destruct Hu as (a & l & Ha & Hle). exists a, l. split; [done|lia]. }
  assert (Hlp : dvmIsPrimitiveClass l = false).
  { destruct (dvmIsPrimitiveClass l) eqn:E; [|done]. destruct (h_primitive _ _ _ _ _ H _ l Hl E) as (_ & _ & ? & _). congruence. }
  destruct (IH _ l _ (fun _ => eq_refl) Hl Hlp) as (a & m & E & Ha & Hmp & Hta & Harr & H0).
  { destruct Hu as (a & m & Ha & Hle). exists a, m. split; [done|]. rewrite Ht. cbn [fst snd]. lia. }
  exists a, m. split; [done|].
  split; [done|]. split; [done|]. split; [rewrite Hta, Ht; cbn [fst snd]; f_equal; lia|]. split; [|intros; lia].
  intros _. destruct n as [|n]; [|apply Harr; lia]. rewrite (H0 eq_refl) in Ha. congruence.
Qed.

(** The tests for interfaces. *)
Lemma interface_test c d k l : classes !! c = Some k -> classes !! d = Some l ->
  exists b, (if dvmIsInterfaceClass l then dvmImplements classes c d else Some false) = Some b /\
    (b = true -> d ∈ iftable k /\ dvmIsPrimitiveClass l = false).
Proof using H.
  intros Hc Hd. destruct (dvmIsInterfaceClass l) eqn:Hl; [|by exists false].
  destruct (implements_spec classes c k d Hc) as (b & E & Hb). exists b. split; [done|]. intros Hbt.
  split; [by apply Hb|]. by apply (interface_reference _ _ _ _ _ H d l).
Qed.

Definition common (c1 c2 d : Z) : Prop :=
  (exists l, classes !! d = Some l /\ dvmIsPrimitiveClass l = false) /\ good c1 d /\ good c2 d.

Section Classes.
Context (c1 c2 : Z) (k1 k2 : ClassObject).
Hypotheses (H1 : classes !! c1 = Some k1) (H2 : classes !! c2 = Some k2).
Hypotheses (P1 : dvmIsPrimitiveClass k1 = false) (P2 : dvmIsPrimitiveClass k2 = false).

Lemma element_common n : dvmIsArrayClass k1 = false -> dvmIsArrayClass k2 = false ->
  exists d l, findCommonSuperclass_ (S n) c1 c2 = Some d /\ classes !! d = Some l /\ dvmIsPrimitiveClass l = false /\
    type_of classes d = (d, 0%nat) /\ base_sub classes c1 d /\ base_sub classes c2 d.
Proof using H H1 H2 P1 P2.
  intros A1 A2. cbn [findCommonSuperclass_]. rewrite H1, H2. cbn [mbind option_bind]. rewrite P1, P2, asserted_true by done.
  destruct (Z.eqb_spec c1 c2) as [E|Hne].
  { exists c1, k1. split_and!; [done..|by apply (type_of_plain _ c1 k1)|by left|]. rewrite <- E. by left. }
  destruct (interface_test c2 c1 k2 k1 H2 H1) as (b1 & -> & Hb1). cbn [mbind option_bind].
  destruct b1.
  { destruct (Hb1 eq_refl). exists c1, k1. split_and!; [done..|by apply (type_of_plain _ c1 k1)|by left|right; by exists k2]. }
  destruct (interface_test c1 c2 k1 k2 H1 H2) as (b2 & -> & Hb2). cbn [mbind option_bind].
  destruct b2.
  { destruct (Hb2 eq_refl). exists c2, k2. split_and!; [done..|by apply (type_of_plain _ c2 k2)|right; by exists k1|by left]. }
  rewrite A1. cbn [andb]. destruct (dig_spec c1 c2 k1 k2 H1 P1 H2 P2) as (d & -> & R1 & R2 & _).
  destruct (super_not_primitive c1 d k1 H1 P1 R1) as (l & Hl & Hlp).
  exists d, l. split_and!; [done..|by apply (type_of_super c1 d k1)|by left|by left].
Qed.

Lemma not_both_arrays n : dvmIsArrayClass k1 && dvmIsArrayClass k2 = false ->
  exists d, findCommonSuperclass_ (S n) c1 c2 = Some d /\ common c1 c2 d.
Proof using H HA HB H1 H2 P1 P2.
  intros A. cbn [findCommonSuperclass_]. rewrite H1, H2. cbn [mbind option_bind]. rewrite P1, P2, asserted_true by done.
  assert (Hrefl : forall c, good c c) by (intros c; split; [constructor|done]).
  destruct (Z.eqb_spec c1 c2) as [E|Hne]; [exists c1; split; [done|]; split; [by exists k1|]; split; [done|by rewrite <- E]|].
  destruct (interface_test c2 c1 k2 k1 H2 H1) as (b1 & -> & Hb1). cbn [mbind option_bind].
  destruct b1.
  { destruct (Hb1 eq_refl). exists c1. split; [done|]. split; [by exists k1|]. split; [done|by apply (good_interface c2 c1 k2)]. }
  destruct (interface_test c1 c2 k1 k2 H1 H2) as (b2 & -> & Hb2). cbn [mbind option_bind].
  destruct b2.
  { destruct (Hb2 eq_refl). exists c2. split; [done|]. split; [by exists k2|]. split; [by apply (good_interface c1 c2 k1)|done]. }
  rewrite A. destruct (dig_spec c1 c2 k1 k2 H1 P1 H2 P2) as (d & -> & R1 & R2 & _). exists d. split; [done|].
  split; [by apply (super_not_primitive c1 d k1)|]. split; [by apply (good_super c1 d k1)|by apply (good_super c2 d k2)].
Qed.

End Classes.

(** The element and dimensions of an array, and how its element may be merged. *)
Lemma array_good c k a l e n : classes !! c = Some k -> dvmIsArrayClass k = true ->
  classes !! a = Some l -> dvmIsArrayClass l = true -> type_of classes a = (e, n) ->
  (n < Z.to_nat (arrayDim k) \/ n = Z.to_nat (arrayDim k) /\ base_sub classes (elementClass k) e)%nat ->
  (n < Z.to_nat (arrayDim k) -> e = Object)%nat -> good c a.
Proof using H HA HB.
  intros Hc Ha Hl Hla Ht Hor Ho. destruct (h_array _ _ _ _ _ H c k Hc Ha) as (Hdim & _ & _ & (x & Hx & Hxa)).
  assert (Et : type_of classes c = (elementClass k, Z.to_nat (arrayDim k))) by (by apply (type_of_array _ c k)).
  unfold good, class_rank. rewrite Ht, Et. cbn [fst snd]. destruct Hor as [Hlt|[-> Hb]].
  - rewrite (Ho Hlt). split; [by apply above_subtype; [left|]|]. intros _.
    destruct (h_object _ _ _ _ _ H) as (o & Hob & _). pose proof (HB Object o Hob). nia.
  - split; [by apply (base_subtype_dims _ _ _ _ _ H _ _ _ x)|]. intros Hne.
    assert (He : e <> elementClass k).
    { intros ->. apply Hne. apply (array_unique HA a c l k); [done..|]. by rewrite Ht, Et. }
    pose proof (base_rank_sub _ _ x Hx Hb He). lia.
Qed.

Lemma both_arrays n c1 c2 k1 k2 : classes !! c1 = Some k1 -> classes !! c2 = Some k2 ->
  dvmIsArrayClass k1 = true -> dvmIsArrayClass k2 = true ->
  exists d, findCommonArraySuperclass (findCommonSuperclass_ (S n)) c1 c2 = Some d /\ common c1 c2 d.
Proof using H HA HB.
  intros H1 H2 A1 A2. destruct (h_array _ _ _ _ _ H c1 k1 H1 A1) as (D1 & S1 & _ & (e1 & E1 & X1)).
  destruct (h_array _ _ _ _ _ H c2 k2 H2 A2) as (D2 & S2 & _ & (e2 & E2 & X2)).
  unfold findCommonArraySuperclass. rewrite H1, H2. cbn [mbind option_bind].
  rewrite (proj2 (Z.gtb_lt _ _) D1), (proj2 (Z.gtb_lt _ _) D2), asserted_true, E1, E2 by done. cbn [mbind option_bind].
  assert (Hn : forall a m, classes !! a = Some m -> asserted NDEBUG (negb (a =? 0)) (Some a) = Some a).
  { intros a m Ha. apply asserted_true, negb_true_iff, Z.eqb_neq. intros ->. by rewrite (h_null _ _ _ _ _ H) in Ha. }
  destruct (h_object _ _ _ _ _ H) as (o & Ho & (Hoa & _ & Hop) & _).
  destruct (negb (dvmIsPrimitiveClass e1 || dvmIsPrimitiveClass e2) && _) eqn:Hq.
  - rewrite andb_true_iff, negb_true_iff, orb_false_iff in Hq. destruct Hq as [[Q1 Q2] Hq].
    rewrite Q1, Q2 in Hq. rewrite Q1. apply Z.eqb_eq in Hq.
    destruct (element_common _ _ _ _ E1 E2 Q1 Q2 n X1 X2) as (d & l & -> & Hd & Hdp & Hdt & B1 & B2). cbn [mbind option_bind].
    destruct (array_rounds_spec (Z.to_nat (arrayDim k1)) d l 0 ltac:(lia) Hd Hdp) as (a & m & -> & Ha & Hap & Hat & Harr & _).
    { exists c1, k1. split; [done|]. rewrite Hdt, (type_of_array _ c1 k1) by done. cbn [fst snd]. lia. }
    cbn [mbind option_bind]. exists a. split; [by apply (Hn a m)|]. assert (Ham : dvmIsArrayClass m = true) by (apply Harr; lia).
    rewrite Hdt in Hat. cbn [fst snd] in Hat. split; [by exists m|].
    split; [apply (array_good c1 k1 a m d (Z.to_nat (arrayDim k1) + 0))|apply (array_good c2 k2 a m d (Z.to_nat (arrayDim k1) + 0))]; (done || lia || (right; split; [lia|done])).
  - pose (dim := fun k e => if dvmIsPrimitiveClass e then arrayDim k - 1 else arrayDim k).
    fold (dim k1 e1) (dim k2 e2). set (numDims := if dim k1 e1 <? dim k2 e2 then dim k1 e1 else dim k2 e2).
    rewrite S1. destruct (array_rounds_spec (Z.to_nat numDims) Object o Object (fun _ => eq_refl) Ho Hop) as (a & m & -> & Ha & Hap & Hat & Harr & H0).
    { exists c1, k1. split; [done|]. rewrite type_of_object, (type_of_array _ c1 k1) by done. cbn [fst snd].
      assert (numDims <= dim k1 e1) by (unfold numDims; destruct (Z.ltb_spec (dim k1 e1) (dim k2 e2)); lia).
      assert (dim k1 e1 <= arrayDim k1) by (unfold dim; destruct (dvmIsPrimitiveClass e1); lia). lia. }
    cbn [mbind option_bind]. exists a. split; [by apply (Hn a m)|]. split; [by exists m|]. rewrite type_of_object in Hat. cbn [fst snd] in Hat.
    assert (Hone : forall c k e, classes !! c = Some k -> dvmIsArrayClass k = true -> classes !! elementClass k = Some e ->
      0 < arrayDim k -> numDims <= dim k e -> good c a).
    { intros c k e Hc Hk He Hdim Hle. destruct (decide (numDims <= 0)) as [Hz|Hz].
      - rewrite H0 by lia. apply (good_super c Object k Hc). destruct (h_array _ _ _ _ _ H c k Hc Hk) as (_ & Hs & _).
        apply rtc_once. exists k. rewrite Hs. split; [done|]. split; [done|]. intros E. rewrite E in Ho. by rewrite (h_null _ _ _ _ _ H) in Ho.
      - apply (array_good c k a m Object (Z.to_nat numDims + 0) Hc Hk Ha ltac:(apply Harr; lia) Hat); [|done].
        unfold dim in Hle. destruct (dvmIsPrimitiveClass e) eqn:Hpe; [left; lia|].
        destruct (decide (numDims < arrayDim k)); [left; lia|right]. split; [lia|left].
        by apply (reaches_object _ _ _ _ _ H (depth (elementClass k)) _ e). }
    split; [apply (Hone c1 k1 e1)|apply (Hone c2 k2 e2)]; try done; unfold numDims; destruct (Z.ltb_spec (dim k1 e1) (dim k2 e2)); lia.
Qed.

Lemma common_superclass c1 c2 k1 k2 : classes !! c1 = Some k1 -> classes !! c2 = Some k2 ->
  dvmIsPrimitiveClass k1 = false -> dvmIsPrimitiveClass k2 = false ->
  exists d, findCommonSuperclass c1 c2 = Some d /\ common c1 c2 d.
Proof using H HA HB.
  intros H1 H2 P1 P2. destruct (dvmIsArrayClass k1 && dvmIsArrayClass k2) eqn:A; [|by apply (not_both_arrays c1 c2 k1 k2)].
  apply andb_true_iff in A as [A1 A2]. unfold findCommonSuperclass. cbn [findCommonSuperclass_].
  rewrite H1, H2. cbn [mbind option_bind]. rewrite P1, P2, asserted_true by done.
  assert (Hi : forall c k, classes !! c = Some k -> dvmIsArrayClass k = true -> dvmIsInterfaceClass k = false).
  { intros c k Hc Hk. destruct (dvmIsInterfaceClass k) eqn:E; [|done]. destruct (h_interface _ _ _ _ _ H c k Hc E). congruence. }
  rewrite (Hi c1 k1), (Hi c2 k2), A1, A2 by done. cbn [mbind option_bind andb].
  destruct (Z.eqb_spec c1 c2) as [E|Hne].
  - exists c1. split; [done|]. split; [by exists k1|]. rewrite <- E. split; (split; [constructor|done]).
  - by apply (both_arrays 0 c1 c2 k1 k2).
Qed.

Lemma closest_superclass c1 c2 k1 k2 d : classes !! c1 = Some k1 -> classes !! c2 = Some k2 ->
  dvmIsPrimitiveClass k1 = false -> dvmIsPrimitiveClass k2 = false -> plain k1 -> plain k2 ->
  findCommonSuperclass c1 c2 = Some d ->
  forall e, rtc (super_of classes) c1 e -> rtc (super_of classes) c2 e -> rtc (super_of classes) d e.
Proof using H.
  intros H1 H2 P1 P2 (A1 & I1 & _) (_ & I2 & _). unfold findCommonSuperclass. cbn [findCommonSuperclass_].
  rewrite H1, H2. cbn [mbind option_bind]. rewrite P1, P2, I1, I2, A1, asserted_true by done. cbn [andb mbind option_bind].
  destruct (Z.eqb_spec c1 c2) as [E|Hne]; [by intros [= <-]|].
  destruct (dig_spec c1 c2 k1 k2 H1 P1 H2 P2) as (d' & -> & _ & _ & Hmin). by intros [= <-].
Qed.

(** ** Lemmas: the merge *)

(** The pointers of classes are words that are no other types. *)
Hypothesis HP : forall c k, classes !! c = Some k -> kRegTypeMAX < c < 2 ^ 32 /\ Z.land c 0x01 = 0.

Context (R : nat).
Hypothesis HR : forall c k, classes !! c = Some k -> (class_rank c <= R)%nat.

Definition reg_rank (t : Z) : Z :=
  if t =? kRegTypeZero then Z.of_nat R + 20
  else if t <? kRegTypeMAX then tab_rank t
  else if regTypeIsUninitReference t then 1
  else 2 + Z.of_nat (class_rank t).

Lemma even_not_uninit t : Z.land t 0x01 = 0 -> regTypeIsUninitReference t = false.
Proof using.
  intros He. unfold regTypeIsUninitReference. apply Z.eqb_neq. intros E.
  assert (Hb : Z.testbit (Z.land t 0x01) 0 = false) by (by rewrite He).
  assert (Hc : Z.testbit (Z.land t kRegTypeUninitMask) 0 = true) by (by rewrite E).
  rewrite Z.land_spec in Hb, Hc. unfold kRegTypeUninitMask in Hc. cbn in Hb, Hc. rewrite andb_true_r in Hb, Hc. congruence.
Qed.

Lemma initialized_class c k : classes !! c = Some k -> dvmIsPrimitiveClass k = false -> initialized c.
Proof using HP. intros Hc Hp. destruct (HP c k Hc). split; [done|]. split; [done|]. by exists k. Qed.

Lemma initialized_reference t : initialized t ->
  regTypeIsReference t = true /\ regTypeIsUninitReference t = false /\ regTypeInitializedReferenceToClass t = Some t /\
  kRegTypeMAX < t.
Proof using.
  intros (Ht & He & _). unfold regTypeInitializedReferenceToClass.
  assert (Hr : regTypeIsReference t = true) by (unfold regTypeIsReference; rewrite (proj2 (Z.gtb_lt _ _)) by lia; done).
  rewrite Hr, He, (proj2 (Z.eqb_neq t kRegTypeZero)) by (unfold kRegTypeMAX, kRegTypeZero in *; lia).
  split; [done|]. split; [by apply even_not_uninit|]. split; [done|lia].
Qed.

Lemma tab_rank_range t : 0 <= t < kRegTypeMAX -> 0 <= tab_rank t <= 9.
Proof using.
  intros Ht. assert (E : (0 <=? tab_rank t) && (tab_rank t <=? 9) = true); [|lia].
  refine (forallb_seqZ (fun t => (0 <=? tab_rank t) && (tab_rank t <=? 9)) 0 25 t _ Ht). vm_compute. reflexivity.
Qed.

Lemma reg_rank_nonneg t : reg_type t -> 0 <= reg_rank t.
Proof using.
  intros Ht. unfold reg_rank. destruct (t =? kRegTypeZero); [lia|]. destruct (Z.ltb_spec t kRegTypeMAX).
  - apply tab_rank_range. destruct Ht as [?|[[? _]|[? _]]]; lia.
  - destruct (regTypeIsUninitReference t); lia.
Qed.

Lemma conflict_rank : reg_rank kRegTypeConflict = 0.
Proof using. done. Qed.

Lemma reg_rank_pos t : reg_type t -> t <> kRegTypeConflict -> 0 < reg_rank t.
Proof using.
  intros Ht Hne. unfold reg_rank. destruct (t =? kRegTypeZero); [lia|]. destruct (Z.ltb_spec t kRegTypeMAX).
  - assert (Hr : 0 <= t < kRegTypeMAX) by (destruct Ht as [?|[[? _]|[? _]]]; lia).
    assert (E : (t =? kRegTypeConflict) || (0 <? tab_rank t) = true); [|rewrite orb_true_iff in E; lia].
    refine (forallb_seqZ (fun t => (t =? kRegTypeConflict) || (0 <? tab_rank t)) 0 25 t _ Hr). vm_compute. reflexivity.
  - destruct (regTypeIsUninitReference t); lia.
Qed.

(** The order of types agrees with the table. *)
Definition table_widens (t u : Z) : bool :=
  match mergeTab t u with
  | Some m =>
      (t =? m) || (m =? kRegTypeConflict) ||
      one_word_below t m ||
      (t =? kRegTypeConstLo) && ((m =? kRegTypeLongLo) || (m =? kRegTypeDoubleLo)) ||
      (t =? kRegTypeConstHi) && ((m =? kRegTypeLongHi) || (m =? kRegTypeDoubleHi))
  | None => false
  end.

Lemma table_widens_spec t u m : 0 <= t < kRegTypeMAX -> 0 <= u < kRegTypeMAX -> mergeTab t u = Some m -> widens t m.
Proof using.
  intros Ht Hu E. assert (W : table_widens t u = true) by (apply forall_table2; [vm_compute; reflexivity|done..]).
  unfold table_widens in W. rewrite E in W. rewrite !orb_true_iff, !andb_true_iff, !orb_true_iff in W.
  destruct W as [[[[W|W]|W]|[W1 W2]]|[W1 W2]].
  - apply Z.eqb_eq in W as ->. constructor.
  - apply Z.eqb_eq in W as ->. constructor.
  - by apply widens_one.
  - apply Z.eqb_eq in W1 as ->. destruct W2 as [W2|W2]; apply Z.eqb_eq in W2 as ->; by constructor.
  - apply Z.eqb_eq in W1 as ->. destruct W2 as [W2|W2]; apply Z.eqb_eq in W2 as ->; by constructor.
Qed.

Definition merged (t1 t2 m : Z) : Prop :=
  reg_type m /\ widens t1 m /\ widens t2 m /\ (m <> t1 -> reg_rank m < reg_rank t1).

Lemma merge_conflict t1 t2 : reg_type t1 -> t1 <> kRegTypeConflict -> merged t1 t2 kRegTypeConflict.
Proof using.
  intros Ht Hne. split; [by left|]. split; [constructor|]. split; [constructor|].
  intros _. rewrite conflict_rank. by apply reg_rank_pos.
Qed.

Lemma merge_table t1 t2 : 0 <= t1 < kRegTypeMAX -> 0 <= t2 < kRegTypeMAX ->
  exists m, mergeTab t1 t2 = Some m /\ merged t1 t2 m.
Proof using.
  intros H1 H2. destruct (merge_laws t1 t2 H1 H2) as (m & E & E' & _ & _ & Hm & Hr). exists m. split; [done|].
  split; [by left|]. split; [by apply (table_widens_spec t1 t2)|]. split; [by apply (table_widens_spec t2 t1)|].
  intros Hne. specialize (Hr Hne). unfold reg_rank. rewrite !(proj2 (Z.ltb_lt _ kRegTypeMAX)) by lia.
  destruct (Z.eqb_spec m kRegTypeZero) as [Em|_].
  - assert (Hz : match mergeTab t1 t2 with Some m => negb (m =? kRegTypeZero) || (t1 =? kRegTypeZero) | None => false end = true).
    { apply (forall_table2 (fun t u => match mergeTab t u with Some m => negb (m =? kRegTypeZero) || (t =? kRegTypeZero) | None => false end));
        [vm_compute; reflexivity|done..]. }
    rewrite E, Em in Hz. cbn in Hz. apply Z.eqb_eq in Hz. congruence.
  - pose proof (tab_rank_range m Hm). destruct (t1 =? kRegTypeZero); lia.
Qed.

Lemma merge_references t1 t2 : initialized t1 -> initialized t2 -> t1 <> t2 ->
  exists m, findCommonSuperclass t1 t2 = Some m /\ initialized m /\ merged t1 t2 m.
Proof using H HA HB HP.
  intros I1 I2 Hne. pose proof I1 as (V1 & L1 & k1 & K1 & P1). pose proof I2 as (V2 & L2 & k2 & K2 & P2).
  destruct (common_superclass t1 t2 k1 k2 K1 K2 P1 P2) as (m & E & (l & Hl & Hlp) & [S1 G1] & [S2 G2]).
  assert (Hm : initialized m) by (by apply (initialized_class m l)). exists m. split; [done|]. split; [done|].
  split; [by right; right|]. split; [by apply widens_class|]. split; [by apply widens_class|]. intros Hm1. specialize (G1 Hm1).
  destruct (initialized_reference m Hm) as (_ & U & _ & Hgt), (initialized_reference t1 I1) as (_ & U1 & _ & Hgt1).
  unfold reg_rank. rewrite U, U1, !(proj2 (Z.eqb_neq _ kRegTypeZero)), !(proj2 (Z.ltb_ge _ kRegTypeMAX))
    by (unfold kRegTypeZero, kRegTypeMAX in *; lia). lia.
Qed.

Lemma mergeTypes_spec t1 t2 : reg_type t1 -> reg_type t2 ->
  exists m, mergeTypes t1 t2 = Some (m, negb (m =? t1)) /\ merged t1 t2 m.
Proof using H HA HB HP HR.
  intros H1 H2. unfold mergeTypes.
  destruct (Z.eqb_spec t1 t2) as [<-|Hne].
  { exists t1. rewrite Z.eqb_refl. split; [done|]. split; [done|]. split; [constructor|]. by split; [constructor|]. }
  cut (exists m, merged t1 t2 m /\ (if t1 <? kRegTypeMAX then if t2 <? kRegTypeMAX then mergeTab t1 t2
         else Some (if t1 =? kRegTypeZero then t2 else kRegTypeConflict)
       else if t2 <? kRegTypeMAX then Some (if t2 =? kRegTypeZero then t1 else kRegTypeConflict)
         else if regTypeIsUninitReference t1 || regTypeIsUninitReference t2 then Some kRegTypeConflict
         else clazz1 ← regTypeInitializedReferenceToClass t1; clazz2 ← regTypeInitializedReferenceToClass t2;
           mergedClass ← findCommonSuperclass clazz1 clazz2;
           asserted NDEBUG (negb (mergedClass =? 0)) (Some (regTypeFromClass mergedClass))) = Some m).
  { intros (m & Hm & E). exists m. rewrite E. cbn [mbind option_bind]. done. }
  destruct (Z.ltb_spec t1 kRegTypeMAX) as [L1|L1], (Z.ltb_spec t2 kRegTypeMAX) as [L2|L2].
  - destruct (merge_table t1 t2) as (m & E & Hm); [destruct H1 as [?|[[? _]|[? _]]]; lia|destruct H2 as [?|[[? _]|[? _]]]; lia|].
    by exists m.
  - destruct (Z.eqb_spec t1 kRegTypeZero) as [Ez|Hz]; [|destruct (Z.eqb_spec t1 kRegTypeConflict) as [->|]].
    + exists t2. split; [|done]. split; [done|]. split; [rewrite Ez|split; [constructor|intros _]].
      * by apply widens_null.
      * rewrite Ez. unfold reg_rank. rewrite Z.eqb_refl, (proj2 (Z.eqb_neq t2 _)), (proj2 (Z.ltb_ge t2 _)) by (unfold kRegTypeZero, kRegTypeMAX in *; lia).
        destruct H2 as [?|[[Hgt Hu]|I2]]; [lia|rewrite Hu; lia|].
        destruct (initialized_reference t2 I2) as (_ & U & _). rewrite U. destruct I2 as (_ & _ & k & Hk & _). pose proof (HR t2 k Hk). lia.
    + exists kRegTypeConflict. split; [|done]. split; [done|]. split; [constructor|]. by split; [constructor|].
    + exists kRegTypeConflict. split; [|done]. by apply merge_conflict.
  - assert (Hc1 : t1 <> kRegTypeConflict) by (unfold kRegTypeConflict, kRegTypeMAX in *; lia).
    destruct (Z.eqb_spec t2 kRegTypeZero) as [->|Hz].
    + exists t1. split; [|done]. split; [done|]. split; [constructor|]. split; [|done].
      by apply widens_null.
    + exists kRegTypeConflict. split; [|done]. by apply merge_conflict.
  - assert (Hc1 : t1 <> kRegTypeConflict) by (unfold kRegTypeConflict, kRegTypeMAX in *; lia).
    destruct H1 as [?|[[Hgt Hu]|I1]]; [lia| |].
    { exists kRegTypeConflict. rewrite Hu. split; [|done]. apply merge_conflict; [by right; left|done]. }
    destruct (initialized_reference t1 I1) as (_ & U1 & E1 & _). rewrite U1. cbn [orb].
    destruct H2 as [?|[[Hgt Hu]|I2]]; [lia| |].
    { exists kRegTypeConflict. rewrite Hu. split; [|done]. apply merge_conflict; [by right; right|done]. }
    destruct (initialized_reference t2 I2) as (_ & U2 & E2 & _). rewrite U2, E1, E2. cbn [mbind option_bind].
    destruct (merge_references t1 t2 I1 I2 Hne) as (m & -> & Im & Hm). exists m. split; [done|]. cbn [mbind option_bind].
    destruct Im as (Hr & _). by rewrite asserted_true by (apply negb_true_iff, Z.eqb_neq; unfold kRegTypeMAX in *; lia).
Qed.

(** *** Any words

    What holds of a merge that returns, whatever the two words are. *)

Lemma tab_rank_any t : 0 <= tab_rank t <= 9.
Proof using. unfold tab_rank. repeat case_match; lia. Qed.

Lemma tab_rank_pos t : t <> kRegTypeConflict -> 0 < tab_rank t.
Proof using. intros Hne. unfold tab_rank. repeat case_match; lia. Qed.

Lemma class_rank_any t : (class_rank t <= R)%nat.
Proof using HR H.
  destruct (classes !! t) as [k|] eqn:Ht; [by apply (HR t k)|].
  unfold class_rank, type_of, base_rank. rewrite Ht. cbn [fst snd]. destruct fuel; cbn [getClassDepth]; rewrite ?Ht; cbn; lia.
Qed.

Lemma reg_rank_range t : 0 <= reg_rank t <= Z.of_nat R + 20.
Proof using HR H.
  pose proof (tab_rank_any t). pose proof (class_rank_any t). unfold reg_rank. repeat case_match; lia.
Qed.

Lemma rank_pos t : t <> kRegTypeConflict -> 0 < reg_rank t.
Proof using. intros Hne. pose proof (tab_rank_pos t Hne). unfold reg_rank. repeat case_match; lia. Qed.

(** What a merge is, where it is one. *)
Definition above (t1 t2 m : Z) : Prop := becomes t1 m /\ becomes t2 m /\ (m <> t1 -> reg_rank m < reg_rank t1).

Lemma above_conflict t1 t2 : above t1 t2 kRegTypeConflict.
Proof using. split; [left; constructor|]. split; [left; constructor|]. intros Hne. rewrite conflict_rank. apply rank_pos. congruence. Qed.

Lemma merged_above t1 t2 m : merged t1 t2 m -> above t1 t2 m.
Proof using. intros (_ & W1 & W2 & Hr). split; [by left|]. by split; [left|]. Qed.

(** A class meets a class of primitive values in no class. *)
Lemma primitive_alone c d k : classes !! c = Some k -> dvmIsPrimitiveClass k = true -> rtc (super_of classes) c d -> d = c.
Proof using H.
  intros Hc Hp Hr. apply rtc_inv in Hr as [->|(x & (k' & Hk' & <- & Hx) & _)]; [done|].
  assert (k' = k) as -> by congruence. by destruct (h_primitive _ _ _ _ _ H c k Hc Hp) as (? & _).
Qed.

Lemma lock_step_apart f c1 c2 d : (0 < f)%nat -> chain c1 0 -> chain c2 0 -> c1 <> c2 ->
  lock_step f c1 c2 = Some d -> NDEBUG = true /\ d = 0.
Proof using.
  intros Hf C1 C2 Hne. destruct f as [|f]; [lia|]. cbn [lock_step]. rewrite (proj2 (Z.eqb_neq c1 c2)) by done.
  inversion C1 as [x k1 Hk1 Hs1|]. inversion C2 as [y k2 Hk2 Hs2|]. subst. rewrite Hk1, Hk2. cbn [mbind option_bind].
  rewrite Hs1, Hs2. unfold asserted. destruct NDEBUG; [|done]. cbn [orb]. destruct f; cbn [lock_step]; rewrite Z.eqb_refl; by intros [= <-].
Qed.

Lemma dig_apart c1 c2 k1 k2 d : classes !! c1 = Some k1 -> classes !! c2 = Some k2 -> c1 <> c2 ->
  dvmIsPrimitiveClass k1 = true \/ dvmIsPrimitiveClass k2 = true -> digForSuperclass c1 c2 = Some d -> NDEBUG = true /\ d = 0.
Proof using H.
  intros H1 H2 Hne Hp. unfold digForSuperclass.
  destruct (depth_chain fuel c1 k1 H1 (h_depth _ _ _ _ _ H c1 k1 H1)) as (n1 & -> & C1 & L1).
  destruct (depth_chain fuel c2 k2 H2 (h_depth _ _ _ _ _ H c2 k2 H2)) as (n2 & -> & C2 & L2). cbn [mbind option_bind].
  pose proof (h_depth _ _ _ _ _ H c1 k1 H1). set (m := Nat.min n1 n2).
  assert (Z0 : forall c k n, classes !! c = Some k -> dvmIsPrimitiveClass k = true -> chain c n -> n = 0%nat).
  { intros c k n Hc Hk Cn. destruct (h_primitive _ _ _ _ _ H c k Hc Hk) as (Es & _). eapply chain_unique; [exact Cn|]. by eapply chain_root. }
  assert (m = 0)%nat as E0 by (unfold m; destruct Hp as [Hp|Hp]; [rewrite (Z0 c1 k1 n1)|rewrite (Z0 c2 k2 n2)]; (done || lia)).
  destruct (pull_up_spec (n1 - n2) c1 m) as (d1 & E1 & R1 & D1); [by replace (n1 - n2 + m)%nat with n1 by (unfold m; lia)|].
  destruct (pull_up_spec (n2 - n1) c2 m) as (d2 & E2 & R2 & D2); [by replace (n2 - n1 + m)%nat with n2 by (unfold m; lia)|].
  replace (Z.to_nat (Z.of_nat n1 - Z.of_nat n2)) with (n1 - n2)%nat by lia.
  replace (Z.to_nat (Z.of_nat n2 - Z.of_nat n1)) with (n2 - n1)%nat by lia.
  rewrite E1, E2. cbn [mbind option_bind]. rewrite E0 in D1, D2. apply lock_step_apart; [lia|done|done|]. intros <-.
  destruct (dvmIsPrimitiveClass k1) eqn:P1, (dvmIsPrimitiveClass k2) eqn:P2; [| | |by destruct Hp].
  - apply Hne. by rewrite <- (primitive_alone c1 d1 k1), <- (primitive_alone c2 d1 k2).
  - destruct (super_not_primitive c2 d1 k2 H2 P2 R2) as (l & Hl & Hlp).
    rewrite (primitive_alone c1 d1 k1 H1 P1 R1) in Hl. congruence.
  - destruct (super_not_primitive c1 d1 k1 H1 P1 R1) as (l & Hl & Hlp).
    rewrite (primitive_alone c2 d1 k2 H2 P2 R2) in Hl. congruence.
Qed.

Lemma primitive_meets c1 c2 k1 k2 d : classes !! c1 = Some k1 -> classes !! c2 = Some k2 -> c1 <> c2 ->
  dvmIsPrimitiveClass k1 = true \/ dvmIsPrimitiveClass k2 = true ->
  findCommonSuperclass c1 c2 = Some d -> NDEBUG = true /\ d = 0.
Proof using H.
  intros H1 H2 Hne Hp. unfold findCommonSuperclass. cbn [findCommonSuperclass_]. rewrite H1, H2. cbn [mbind option_bind].
  unfold asserted at 1. destruct (NDEBUG || _); [|done]. rewrite (proj2 (Z.eqb_neq c1 c2)) by done.
  assert (Hif : forall c k l, classes !! c = Some k -> dvmIsPrimitiveClass k = true -> forall e,
    (if dvmIsInterfaceClass l then dvmImplements classes c e else Some false) = Some true -> False).
  { intros c k l Hc Hk e E. destruct (dvmIsInterfaceClass l); [|done]. destruct (implements_spec classes c k e Hc) as (b & E' & Hb).
    rewrite E in E'. injection E' as <-. destruct (h_primitive _ _ _ _ _ H c k Hc Hk) as (_ & Ei & _).
    rewrite Ei in Hb. by apply (not_elem_of_nil e), Hb. }
  assert (Hni : forall c k, classes !! c = Some k -> dvmIsPrimitiveClass k = true -> dvmIsInterfaceClass k = false /\ dvmIsArrayClass k = false).
  { intros c k Hc Hk. by destruct (h_primitive _ _ _ _ _ H c k Hc Hk) as (_ & _ & ? & ?). }
  destruct (interface_test c2 c1 k2 k1 H2 H1) as (b1 & E1 & _). rewrite E1. cbn [mbind option_bind].
  destruct (interface_test c1 c2 k1 k2 H1 H2) as (b2 & E2 & _). rewrite E2. cbn [mbind option_bind].
  assert (b1 = false) as ->.
  { destruct b1; [|done]. destruct Hp as [Hp|Hp]; [by rewrite (proj1 (Hni c1 k1 H1 Hp)) in E1|destruct (Hif c2 k2 k1 H2 Hp c1 E1)]. }
  assert (b2 = false) as ->.
  { destruct b2; [|done]. destruct Hp as [Hp|Hp]; [destruct (Hif c1 k1 k2 H1 Hp c2 E2)|by rewrite (proj1 (Hni c2 k2 H2 Hp)) in E2]. }
  assert (dvmIsArrayClass k1 && dvmIsArrayClass k2 = false) as ->.
  { apply andb_false_iff. destruct Hp as [Hp|Hp]; [left; by apply (Hni c1)|right; by apply (Hni c2)]. }
  by apply (dig_apart c1 c2 k1 k2).
Qed.

Lemma mergeTab_range t1 t2 m : mergeTab t1 t2 = Some m -> 0 <= t1 < kRegTypeMAX /\ 0 <= t2 < kRegTypeMAX.
Proof using.
  unfold mergeTab. intros E. apply bind_Some in E as (row & Er & E). pose proof (aref_lt _ _ _ Er) as H1.
  pose proof (aref_lt _ _ _ E) as H2. split; [exact H1|].
  assert (Hl : Forall (fun r => length r = 25%nat) gDvmMergeTab) by (vm_compute; repeat constructor).
  rewrite aref_nat in Er by lia. pose proof (Forall_lookup_1 _ _ _ _ Hl Er) as E25. cbn beta in E25. rewrite E25 in H2. exact H2.
Qed.

Lemma merge_any t1 t2 m changed : mergeTypes t1 t2 = Some (m, changed) -> changed = negb (m =? t1) /\ above t1 t2 m.
Proof using H HA HB HP HR.
  assert (Hr : forall t, becomes t t) by (left; constructor).
  unfold mergeTypes. destruct (Z.eqb_spec t1 t2) as [<-|Hne].
  { intros [= <- <-]. rewrite Z.eqb_refl. split; [done|]. split; [done|]. by split. }
  intros E. apply bind_Some in E as (r & E & [= <- <-]). split; [done|].
  destruct (Z.ltb_spec t1 kRegTypeMAX) as [L1|L1], (Z.ltb_spec t2 kRegTypeMAX) as [L2|L2].
  - destruct (mergeTab_range t1 t2 r E) as [H1 H2]. destruct (merge_table t1 t2 H1 H2) as (r' & E' & Hm).
    rewrite E in E'. injection E' as <-. by apply merged_above.
  - injection E as <-. destruct (Z.eqb_spec t1 kRegTypeZero) as [->|Hz]; [|apply above_conflict].
    split; [left; by constructor|]. split; [done|]. intros _. pose proof (class_rank_any t2). unfold reg_rank.
    rewrite Z.eqb_refl, (proj2 (Z.eqb_neq t2 _)), (proj2 (Z.ltb_ge t2 _)) by (unfold kRegTypeZero, kRegTypeMAX in *; lia).
    destruct (regTypeIsUninitReference t2); lia.
  - injection E as <-. destruct (Z.eqb_spec t2 kRegTypeZero) as [->|Hz]; [|apply above_conflict].
    split; [done|]. by split; [left; constructor|].
  - destruct (_ || _) eqn:Hu; [injection E as <-; apply above_conflict|].
    apply bind_Some in E as (c1 & E1 & E). apply bind_Some in E as (c2 & E2 & E). apply bind_Some in E as (d & E & Ed).
    assert (K : exists k1 k2, classes !! c1 = Some k1 /\ classes !! c2 = Some k2).
    { unfold findCommonSuperclass in E. cbn [findCommonSuperclass_] in E.
      apply bind_Some in E as (k1 & K1 & E). apply bind_Some in E as (k2 & K2 & E). eauto. }
    destruct K as (k1 & k2 & K1 & K2).
    assert (W : forall t c k, kRegTypeMAX <= t -> regTypeInitializedReferenceToClass t = Some c -> classes !! c = Some k -> c = t).
    { intros t c k _ Et Ek. unfold regTypeInitializedReferenceToClass in Et.
      destruct (regTypeIsReference t && negb (t =? kRegTypeZero)); [|done]. injection Et as <-.
      destruct (Z.land t 0x01 =? 0); [done|]. destruct (HP 0 k Ek). unfold kRegTypeMAX in *; lia. }
    assert (c1 = t1) as -> by (by apply (W t1 c1 k1)). assert (c2 = t2) as -> by (by apply (W t2 c2 k2)).
    destruct (dvmIsPrimitiveClass k1 || dvmIsPrimitiveClass k2) eqn:P.
    + destruct (primitive_meets t1 t2 k1 k2 d K1 K2 Hne) as [N ->]; [by apply orb_true_iff|done|].
      unfold asserted in Ed. rewrite N in Ed. injection Ed as <-. change (regTypeFromClass 0) with kRegTypeUnknown.
      split; [right; split; [exact N|]; split; [done|by right]|]. split; [right; split; [exact N|]; split; [done|by right]|].
      intros _. apply orb_false_iff in Hu as [Hu _]. unfold reg_rank. rewrite Hu, (proj2 (Z.eqb_neq t1 _)), (proj2 (Z.ltb_ge t1 _))
        by (unfold kRegTypeZero, kRegTypeMAX in *; lia). change (tab_rank kRegTypeUnknown) with 1. cbn. lia.
    + apply orb_false_iff in P as [P1 P2].
      pose proof (initialized_class t1 k1 K1 P1) as I1. pose proof (initialized_class t2 k2 K2 P2) as I2.
      destruct (merge_references t1 t2 I1 I2 Hne) as (m & Em & _ & Hm). rewrite E in Em. injection Em as <-.
      unfold asserted in Ed. destruct (NDEBUG || _); [|done]. injection Ed as <-. by apply merged_above.
Qed.

End Hierarchy.
End Merge.

(** ** Properties *)

(** Everything the merge relies on: a heap of linked classes, their pointers, what class
    loading promises of arrays, and bounds of their ranks. *)
Record linked (classes : gmap Z ClassObject) (findArray : list Z -> Z -> Z) (loader : Z -> Z) (fuel : nat)
    (Object : Z) (array_interfaces : list Z) (depth : Z -> nat) (B R : nat) : Prop := {
  l_hierarchy : hierarchy_ok classes fuel Object array_interfaces depth;
  l_array_interfaces i : i ∈ array_interfaces -> exists j, classes !! i = Some j /\ dvmIsInterfaceClass j = true;
  l_arrays : array_classes classes findArray loader;
  l_pointers c k : classes !! c = Some k -> kRegTypeMAX < c < 2 ^ 32 /\ Z.land c 0x01 = 0;
  l_base c k : classes !! c = Some k -> (base_rank classes fuel c <= B)%nat;
  l_rank c k : classes !! c = Some k -> (class_rank classes fuel B c <= R)%nat
}.

Section Linked.
Context (NDEBUG : bool) (classes : gmap Z ClassObject) (findArray : list Z -> Z -> Z) (loader : Z -> Z) (fuel : nat).
Context (Object : Z) (array_interfaces : list Z) (depth : Z -> nat) (B R : nat).
Hypothesis L : linked classes findArray loader fuel Object array_interfaces depth B R.

Lemma linked_merge t1 t2 : reg_type classes t1 -> reg_type classes t2 ->
  exists m, mergeTypes NDEBUG classes findArray loader fuel t1 t2 = Some (m, negb (m =? t1)) /\
    merged classes fuel Object array_interfaces B R t1 t2 m.
Proof using L. apply (mergeTypes_spec _ _ _ _ _ _ _ depth); apply L. Qed.

Lemma linked_merge_any t1 t2 m changed : mergeTypes NDEBUG classes findArray loader fuel t1 t2 = Some (m, changed) ->
  changed = negb (m =? t1) /\ above NDEBUG classes fuel Object array_interfaces B R t1 t2 m.
Proof using L. apply (merge_any _ _ _ _ _ _ _ depth); apply L. Qed.

Lemma linked_rank_range t : 0 <= reg_rank classes fuel B R t <= Z.of_nat R + 20.
Proof using L. apply (reg_rank_range _ _ Object array_interfaces depth); apply L. Qed.

Lemma linked_common c1 c2 k1 k2 : classes !! c1 = Some k1 -> classes !! c2 = Some k2 ->
  dvmIsPrimitiveClass k1 = false -> dvmIsPrimitiveClass k2 = false ->
  exists d, findCommonSuperclass NDEBUG classes findArray loader fuel c1 c2 = Some d /\
    common classes fuel Object array_interfaces B c1 c2 d.
Proof using L. apply (common_superclass _ _ _ _ _ _ _ depth); apply L. Qed.

(** What two types of one word make: the narrowest type that has the values of both, or a
    conflict where there is none. *)
Definition narrowest (t1 t2 m : Z) : Prop :=
  m = kRegTypeConflict /\ (forall u, holds_within t1 u = true -> holds_within t2 u = false) \/
  holds_within t1 m = true /\ holds_within t2 m = true /\
    (forall u, holds_within t1 u = true -> holds_within t2 u = true -> holds_within m u = true).

Lemma merge_narrowest t1 t2 m changed : cat1nr t1 -> cat1nr t2 -> sign_lost t1 t2 = false ->
  mergeTypes NDEBUG classes findArray loader fuel t1 t2 = Some (m, changed) -> narrowest t1 t2 m.
Proof using.
  intros H1 H2 Hs E.
  assert (L1 : 0 <= t1 < kRegTypeMAX) by (unfold cat1nr in H1; unfold kRegType1nrSTART, kRegType1nrEND, kRegTypeZero, kRegTypeFloat, kRegTypeMAX in *; lia).
  assert (L2 : 0 <= t2 < kRegTypeMAX) by (unfold cat1nr in H2; unfold kRegType1nrSTART, kRegType1nrEND, kRegTypeZero, kRegTypeFloat, kRegTypeMAX in *; lia).
  destruct (merge_laws t1 t2 L1 L2) as (m' & Em & _ & Eid & _).
  assert (m' = m) as ->.
  { unfold mergeTypes in E. destruct (Z.eqb_spec t1 t2) as [<-|_]; [congruence|].
    rewrite !(proj2 (Z.ltb_lt _ kRegTypeMAX)), Em in E by lia. by injection E. }
  pose (one u := holds_within t1 u && holds_within t2 u).
  pose (ok t1 t2 := match mergeTab t1 t2 with
    | Some m => sign_lost t1 t2 || (if m =? kRegTypeConflict then forallb (fun u => negb (holds_within t1 u && holds_within t2 u)) (seqZ 3 16)
        else holds_within t1 m && holds_within t2 m && forallb (fun u => negb (holds_within t1 u && holds_within t2 u) || holds_within m u) (seqZ 3 16))
    | None => false end).
  assert (Hok : ok t1 t2 = true).
  { refine (forall_cat1nr (ok t1) t2 _ H2). refine (forall_cat1nr (fun t => forallb (ok t) (seqZ 3 16)) t1 _ H1). vm_compute. reflexivity. }
  unfold ok in Hok. rewrite Em, Hs, orb_false_l in Hok.
  assert (Hu : forall u, holds_within t1 u = true -> cat1nr u).
  { intros u W. apply (one_word_range t1 u). unfold one_word_below. by rewrite W. }
  destruct (Z.eqb_spec m kRegTypeConflict) as [->|_].
  - left. split; [done|]. intros u W. pose proof (forall_cat1nr _ u Hok (Hu u W)) as E'. cbn beta in E'. rewrite W in E'.
    by destruct (holds_within t2 u).
  - rewrite !andb_true_iff in Hok. destruct Hok as [[W1 W2] Hok]. right. split; [done|]. split; [done|]. intros u U1 U2.
    pose proof (forall_cat1nr _ u Hok (Hu u U1)) as E'. cbn beta in E'. by rewrite U1, U2 in E'.
Qed.

(** C19. The merge of two types of registers is above both. On a heap of linked classes it
    returns for any two types of registers, without a look at anything that is no class
    and without a failed assertion, a type of registers that both types may become: a
    supertype of two classes, and for two types of one word one that has the values of
    both, or a conflict; but a constant that may be negative can become one that is not.
    Where it does not, which is for all pairs but six, the result of two types of one word
    is the narrowest type that has the values of both, and a conflict only where there is
    no such type. The merge says whether the first type changed, and if so the result is
    of a lower rank, so that no register can change for ever. *)
Theorem merge_upper_bound t1 t2 : reg_type classes t1 -> reg_type classes t2 ->
  exists m changed, mergeTypes NDEBUG classes findArray loader fuel t1 t2 = Some (m, changed) /\ reg_type classes m /\
  widens classes Object array_interfaces t1 m /\ widens classes Object array_interfaces t2 m /\
  (cat1nr t1 -> cat1nr t2 -> sign_lost t1 t2 = false -> narrowest t1 t2 m) /\
  (changed = true <-> m <> t1) /\
  (changed = true -> 0 <= reg_rank classes fuel B R m < reg_rank classes fuel B R t1).
Proof using L.
  intros H1 H2. destruct (linked_merge t1 t2 H1 H2) as (m & E & Hm & W1 & W2 & Hr). exists m, (negb (m =? t1)).
  assert (Hb : negb (m =? t1) = true <-> m <> t1) by (rewrite negb_true_iff; apply Z.eqb_neq).
  split_and!; [done..| | |].
  - intros K1 K2 Hs. by eapply merge_narrowest.
  - done.
  - intros Hc%Hb. split; [by apply reg_rank_nonneg|by apply Hr].
Qed.

(** C20. Where two classes meet: the class [findCommonSuperclass] finds for two classes,
    interfaces or arrays is a supertype of both in the Java language, and for two
    classes that are neither arrays nor interfaces no common superclass is closer. *)
Theorem common_superclass_closest c1 c2 k1 k2 : classes !! c1 = Some k1 -> classes !! c2 = Some k2 ->
  dvmIsPrimitiveClass k1 = false -> dvmIsPrimitiveClass k2 = false ->
  exists d, findCommonSuperclass NDEBUG classes findArray loader fuel c1 c2 = Some d /\
  subtype classes Object array_interfaces (type_of classes c1) (type_of classes d) /\
  subtype classes Object array_interfaces (type_of classes c2) (type_of classes d) /\
  (plain k1 -> plain k2 -> forall e, rtc (super_of classes) c1 e -> rtc (super_of classes) c2 e -> rtc (super_of classes) d e).
Proof using L.
  intros H1 H2 P1 P2. destruct (linked_common c1 c2 k1 k2 H1 H2 P1 P2) as (d & E & _ & [S1 _] & [S2 _]).
  exists d. split_and!; [done..|]. intros Q1 Q2.
  by apply (closest_superclass NDEBUG classes findArray loader fuel Object array_interfaces depth (l_hierarchy _ _ _ _ _ _ _ _ _ L) c1 c2 k1 k2 d).
Qed.

End Linked.

(** The merge of a class with a class of primitive values, which a cast may have put into
    a register, is a failed assertion, and no class where assertions are off. *)
Lemma primitive_class_asserts classes findArray loader fuel c1 c2 k1 k2 :
  classes !! c1 = Some k1 -> classes !! c2 = Some k2 -> dvmIsPrimitiveClass k1 = true ->
  findCommonSuperclass false classes findArray loader fuel c1 c2 = None.
Proof. intros H1 H2 P1. unfold findCommonSuperclass. cbn [findCommonSuperclass_]. rewrite H1, H2. cbn [mbind option_bind]. by rewrite P1. Qed.

(** Null and an uninitialized instance make the uninitialized instance, unless it is the
    one in the first slot. *)
Lemma null_uninit NDEBUG classes findArray loader fuel :
  mergeTypes NDEBUG classes findArray loader fuel kRegTypeZero (regTypeFromUninitIndex 1) = Some (regTypeFromUninitIndex 1, true) /\
  mergeTypes NDEBUG classes findArray loader fuel kRegTypeZero (regTypeFromUninitIndex 0) = Some (kRegTypeConflict, true).
Proof. split; reflexivity. Qed.

(** ** Witnesses *)

Definition mx_class (name : Z) (flags super : Z) (ifs : list Z) : ClassObject :=
  MkClass [76; name; 59] flags PRIM_NOT super 0 0 ifs.
Definition mx_array (e : Z) (d : list Z) : ClassObject := MkClass (91 :: d) 1 PRIM_NOT 32 e 1 [36].

(** [Object], the interface of arrays, an interface, two classes below a third, [int],
    and their arrays. *)
Definition mx_list : list (Z * ClassObject) :=
  [(32, mx_class 79 1 0 []); (36, mx_class 67 0x200 32 []); (40, mx_class 73 0x200 32 []);
   (44, mx_class 65 1 32 []); (48, mx_class 66 1 44 [40]); (52, mx_class 68 1 44 [40]);
   (56, MkClass [73] 1 PRIM_INT 0 0 0 []);
   (60, mx_array 32 [76; 79; 59]); (64, mx_array 36 [76; 67; 59]); (68, mx_array 40 [76; 73; 59]);
   (72, mx_array 44 [76; 65; 59]); (76, mx_array 48 [76; 66; 59]); (80, mx_array 52 [76; 68; 59]);
   (84, mx_array 56 [73])].

Definition mx_classes : gmap Z ClassObject := list_to_map mx_list.

Definition mx_find (d : list Z) (_ : Z) : Z :=
  match List.find (fun p => bool_decide (descriptor p.2 = d)) mx_list with Some p => p.1 | None => 0 end.

Definition mx_depth (c : Z) : nat :=
  if (c =? 32) || (c =? 56) then 0%nat else if (c =? 48) || (c =? 52) then 2%nat else 1%nat.

Ltac each_mx H := apply elem_of_list_to_map_2 in H; unfold mx_list in H;
  rewrite !elem_of_cons, elem_of_nil in H;
  repeat match type of H with _ \/ _ => destruct H as [H|H] end; [injection H as -> ->..|done].

Lemma mx_hierarchy : hierarchy_ok mx_classes 3 32 [36] mx_depth.
Proof.
  split.
  - reflexivity.
  - exists (mx_class 79 1 0 []). by repeat split.
  - intros c k Hc Hs. each_mx Hc; try done;
      (eexists; split; [vm_compute; reflexivity|]; split; [by repeat split|]; split; [cbn; lia|cbn; set_solver]).
  - intros c k Hc Hs. each_mx Hc; try done; (by left) || by right.
  - intros c k Hc Hs. each_mx Hc; done.
  - intros c k Hc Hs. each_mx Hc; done.
  - intros c k i Hc Hi. each_mx Hc; cbn in Hi; rewrite ?elem_of_cons, elem_of_nil in Hi;
      destruct_or? Hi; subst; try done; (eexists; split; [reflexivity|]; split; [reflexivity|]; cbn; set_solver).
  - intros c k Hc Ha. each_mx Hc; try done; (split; [done|]; split; [done|]; split; [done|]; by eexists).
  - intros i j Hi Hj. rewrite !elem_of_cons, elem_of_nil in Hi. destruct_or? Hi; subst; try done; by injection Hj as <-.
  - intros c k Hc. each_mx Hc; cbn; lia.
Qed.

Lemma mx_arrays : array_classes mx_classes mx_find (fun _ => 0).
Proof.
  split.
  - intros c k Hc Hp (a & l & Ha & Hle).
    assert (Hone : ((type_of mx_classes a).2 <= 1)%nat) by (each_mx Ha; vm_compute; lia). clear Ha.
    each_mx Hc; try done; try (exfalso; revert Hle Hone; vm_compute; lia);
      (eexists; split; [vm_compute; reflexivity|]; split; vm_compute; reflexivity).
  - intros a b k l Ha Hb Hka Hlb E. each_mx Ha; try done; each_mx Hb; try done.
  - intros c k Hc Hin. each_mx Hc; cbn in Hin; rewrite ?elem_of_cons, elem_of_nil in Hin; destruct_or? Hin; done.
Qed.

Lemma mx_linked : linked mx_classes mx_find (fun _ => 0) 3 32 [36] mx_depth 5 11.
Proof.
  split.
  - exact mx_hierarchy.
  - intros i Hi. rewrite !elem_of_cons, elem_of_nil in Hi. destruct Hi as [->|[]]. by eexists.
  - exact mx_arrays.
  - intros c k Hc. each_mx Hc; by vm_compute.
  - intros c k Hc. each_mx Hc; apply Nat.leb_le; vm_compute; reflexivity.
  - intros c k Hc. each_mx Hc; apply Nat.leb_le; vm_compute; reflexivity.
Qed.

(** [A] and [B] meet in [A], and [int] in nothing. *)
Lemma primitive_class_unknown : mergeTypes true mx_classes mx_find (fun _ => 0) 3 48 56 = Some (kRegTypeUnknown, true).
Proof. vm_compute. reflexivity. Qed.

Lemma merge_upper_bound_witness :
  mergeTypes false mx_classes mx_find (fun _ => 0) 3 76 80 = Some (72, true) /\
  reg_rank mx_classes 3 5 11 72 < reg_rank mx_classes 3 5 11 76 /\
  mergeTypes false mx_classes mx_find (fun _ => 0) 3 kRegTypeByte kRegTypeChar = Some (kRegTypeInteger, true) /\
  widens mx_classes 32 [36] kRegTypeByte kRegTypeInteger /\ narrowest kRegTypeByte kRegTypeChar kRegTypeInteger.
Proof.
  assert (I : forall c k, mx_classes !! c = Some k -> dvmIsPrimitiveClass k = false -> reg_type mx_classes c).
  { intros c k Hc Hp. right. right. destruct (l_pointers _ _ _ _ _ _ _ _ _ mx_linked c k Hc). split; [done|]. split; [done|]. by exists k. }
  destruct (merge_upper_bound false mx_classes mx_find (fun _ => 0) 3 32 [36] mx_depth 5 11 mx_linked 76 80
    (I 76 _ eq_refl eq_refl) (I 80 _ eq_refl eq_refl)) as (m & b & E & _ & _ & _ & _ & _ & Hr).
  assert (E2 : mergeTypes false mx_classes mx_find (fun _ => 0) 3 76 80 = Some (72, true)) by (vm_compute; reflexivity).
  split; [exact E2|]. rewrite E2 in E. injection E as <- <-. split; [exact (proj2 (Hr eq_refl))|].
  destruct (merge_upper_bound false mx_classes mx_find (fun _ => 0) 3 32 [36] mx_depth 5 11 mx_linked kRegTypeByte kRegTypeChar)
    as (m & b & E' & _ & W & _ & N & _); [left; vm_compute; split; congruence..|].
  assert (E3 : mergeTypes false mx_classes mx_find (fun _ => 0) 3 kRegTypeByte kRegTypeChar = Some (kRegTypeInteger, true)) by (vm_compute; reflexivity).
  split; [exact E3|]. rewrite E3 in E'. injection E' as <- <-. split; [exact W|]. apply N; [split; vm_compute; congruence..|reflexivity].
Defined.

Lemma common_superclass_closest_witness :
  findCommonSuperclass false mx_classes mx_find (fun _ => 0) 3 48 52 = Some 44 /\
  subtype mx_classes 32 [36] (48, 0%nat) (44, 0%nat).
Proof.
  destruct (common_superclass_closest false mx_classes mx_find (fun _ => 0) 3 32 [36] mx_depth 5 11 mx_linked 48 52
    _ _ eq_refl eq_refl eq_refl eq_refl) as (d & E & S & _).
  assert (E2 : findCommonSuperclass false mx_classes mx_find (fun _ => 0) 3 48 52 = Some 44) by (vm_compute; reflexivity).
  split; [exact E2|]. rewrite E2 in E. injection E as <-. exact S.
Defined.
