(* ===== verification/OpcodeTables.v ===== *)
(** * The opcode tables: [dalvik/libdex/InstrUtils.{h,cpp}], [DexOpcodes.{h,cpp}]

    The four tables of [gDexOpcodeInfo] and the names of the opcodes, as the files
    have them, and what one table promises about another. An opcode is its number:
    the C code casts integers to [Opcode] freely, and the tables are read at it. *)

From S2P Require Import Prelude Bits.

(** ** Data *)

Inductive InstructionFormat :=
  | kFmt00x | kFmt10x | kFmt12x | kFmt11n | kFmt11x | kFmt10t | kFmt20bc | kFmt20t | kFmt22x
  | kFmt21t | kFmt21s | kFmt21h | kFmt21c | kFmt23x | kFmt22b | kFmt22t | kFmt22s | kFmt22c
  | kFmt22cs | kFmt30t | kFmt32x | kFmt31i | kFmt31t | kFmt31c | kFmt35c | kFmt35ms | kFmt3rc
  | kFmt3rms | kFmt51l | kFmt35mi | kFmt3rmi.

Inductive InstructionIndexType :=
  | kIndexUnknown | kIndexNone | kIndexVaries | kIndexTypeRef | kIndexStringRef | kIndexMethodRef
  | kIndexFieldRef | kIndexInlineMethod | kIndexVtableOffset | kIndexFieldOffset.

#[export] Instance InstructionFormat_eq_dec : EqDecision InstructionFormat.
Proof. solve_decision. Defined.

#[export] Instance InstructionIndexType_eq_dec : EqDecision InstructionIndexType.
Proof. solve_decision. Defined.

(** [OpcodeFlagsBits]. *)
Definition kInstrCanBranch : Z := 1.
Definition kInstrCanContinue : Z := Z.shiftl 1 1.
Definition kInstrCanSwitch : Z := Z.shiftl 1 2.
Definition kInstrCanThrow : Z := Z.shiftl 1 3.
Definition kInstrCanReturn : Z := Z.shiftl 1 4.
Definition kInstrInvoke : Z := Z.shiftl 1 5.

Definition kNumPackedOpcodes : Z := 0x100.

Declare Scope opcode_scope.
Local Infix ".|" := Z.lor (at level 50, left associativity) : opcode_scope.
Local Open Scope opcode_scope.

Definition gInstructionWidthTable : list Z :=
  [
   1; 1; 2; 3; 1; 2; 3; 1; 2; 3; 1; 1; 1; 1; 1; 1; 1; 1; 1; 2; 3;
   2; 2; 3; 5; 2; 2; 3; 2; 1; 1; 2; 2; 1; 2; 2; 3; 3; 3; 1; 1; 2;
   3; 3; 3; 2; 2; 2; 2; 2; 2; 2; 2; 2; 2; 2; 2; 2; 2; 2; 2; 2; 0;
   0; 0; 0; 0; 0; 2; 2; 2; 2; 2; 2; 2; 2; 2; 2; 2; 2; 2; 2; 2; 2;
   2; 2; 2; 2; 2; 2; 2; 2; 2; 2; 2; 2; 2; 2; 2; 2; 2; 2; 2; 2; 2;
   2; 2; 2; 2; 2; 3; 3; 3; 3; 3; 0; 3; 3; 3; 3; 3; 0; 0; 1; 1; 1;
   1; 1; 1; 1; 1; 1; 1; 1; 1; 1; 1; 1; 1; 1; 1; 1; 1; 1; 2; 2; 2;
   2; 2; 2; 2; 2; 2; 2; 2; 2; 2; 2; 2; 2; 2; 2; 2; 2; 2; 2; 2; 2;
   2; 2; 2; 2; 2; 2; 2; 2; 1; 1; 1; 1; 1; 1; 1; 1; 1; 1; 1; 1; 1;
   1; 1; 1; 1; 1; 1; 1; 1; 1; 1; 1; 1; 1; 1; 1; 1; 1; 1; 1; 2; 2;
   2; 2; 2; 2; 2; 2; 2; 2; 2; 2; 2; 2; 2; 2; 2; 2; 2; 2; 2; 2; 2;
   2; 2; 2; 2; 2; 0; 2; 3; 3; 3; 1; 2; 2; 2; 2; 2; 2; 3; 3; 3; 3;
   2; 2; 2; 0
  ].

Definition gOpcodeFlagsTable : list Z :=
  [
   kInstrCanContinue; kInstrCanContinue; kInstrCanContinue; kInstrCanContinue; kInstrCanContinue;
   kInstrCanContinue; kInstrCanContinue; kInstrCanContinue; kInstrCanContinue; kInstrCanContinue;
   kInstrCanContinue; kInstrCanContinue; kInstrCanContinue; kInstrCanContinue; kInstrCanReturn;
   kInstrCanReturn; kInstrCanReturn; kInstrCanReturn; kInstrCanContinue; kInstrCanContinue;
   kInstrCanContinue; kInstrCanContinue; kInstrCanContinue; kInstrCanContinue; kInstrCanContinue;
   kInstrCanContinue; kInstrCanContinue .| kInstrCanThrow; kInstrCanContinue .| kInstrCanThrow;
   kInstrCanContinue .| kInstrCanThrow; kInstrCanContinue .| kInstrCanThrow;
   kInstrCanContinue .| kInstrCanThrow; kInstrCanContinue .| kInstrCanThrow;
   kInstrCanContinue .| kInstrCanThrow; kInstrCanContinue .| kInstrCanThrow;
   kInstrCanContinue .| kInstrCanThrow; kInstrCanContinue .| kInstrCanThrow;
   kInstrCanContinue .| kInstrCanThrow; kInstrCanContinue .| kInstrCanThrow; kInstrCanContinue;
   kInstrCanThrow; kInstrCanBranch; kInstrCanBranch; kInstrCanBranch;
   kInstrCanContinue .| kInstrCanSwitch; kInstrCanContinue .| kInstrCanSwitch; kInstrCanContinue;
   kInstrCanContinue; kInstrCanContinue; kInstrCanContinue; kInstrCanContinue;
   kInstrCanContinue .| kInstrCanBranch; kInstrCanContinue .| kInstrCanBranch;
   kInstrCanContinue .| kInstrCanBranch; kInstrCanContinue .| kInstrCanBranch;
   kInstrCanContinue .| kInstrCanBranch; kInstrCanContinue .| kInstrCanBranch;
   kInstrCanContinue .| kInstrCanBranch; kInstrCanContinue .| kInstrCanBranch;
   kInstrCanContinue .| kInstrCanBranch; kInstrCanContinue .| kInstrCanBranch;
   kInstrCanContinue .| kInstrCanBranch; kInstrCanContinue .| kInstrCanBranch; 0; 0; 0; 0; 0; 0;
   kInstrCanContinue .| kInstrCanThrow; kInstrCanContinue .| kInstrCanThrow;
   kInstrCanContinue .| kInstrCanThrow; kInstrCanContinue .| kInstrCanThrow;
   kInstrCanContinue .| kInstrCanThrow; kInstrCanContinue .| kInstrCanThrow;
   kInstrCanContinue .| kInstrCanThrow; kInstrCanContinue .| kInstrCanThrow;
   kInstrCanContinue .| kInstrCanThrow; kInstrCanContinue .| kInstrCanThrow;
   kInstrCanContinue .| kInstrCanThrow; kInstrCanContinue .| kInstrCanThrow;
   kInstrCanContinue .| kInstrCanThrow; kInstrCanContinue .| kInstrCanThrow;
   kInstrCanContinue .| kInstrCanThrow; kInstrCanContinue .| kInstrCanThrow;
   kInstrCanContinue .| kInstrCanThrow; kInstrCanContinue .| kInstrCanThrow;
   kInstrCanContinue .| kInstrCanThrow; kInstrCanContinue .| kInstrCanThrow;
   kInstrCanContinue .| kInstrCanThrow; kInstrCanContinue .| kInstrCanThrow;
   kInstrCanContinue .| kInstrCanThrow; kInstrCanContinue .| kInstrCanThrow;
   kInstrCanContinue .| kInstrCanThrow; kInstrCanContinue .| kInstrCanThrow;
   kInstrCanContinue .| kInstrCanThrow; kInstrCanContinue .| kInstrCanThrow;
   kInstrCanContinue .| kInstrCanThrow; kInstrCanContinue .| kInstrCanThrow;
   kInstrCanContinue .| kInstrCanThrow; kInstrCanContinue .| kInstrCanThrow;
   kInstrCanContinue .| kInstrCanThrow; kInstrCanContinue .| kInstrCanThrow;
   kInstrCanContinue .| kInstrCanThrow; kInstrCanContinue .| kInstrCanThrow;
   kInstrCanContinue .| kInstrCanThrow; kInstrCanContinue .| kInstrCanThrow;
   kInstrCanContinue .| kInstrCanThrow; kInstrCanContinue .| kInstrCanThrow;
   kInstrCanContinue .| kInstrCanThrow; kInstrCanContinue .| kInstrCanThrow;
   kInstrCanContinue .| kInstrCanThrow .| kInstrInvoke;
   kInstrCanContinue .| kInstrCanThrow .| kInstrInvoke;
   kInstrCanContinue .| kInstrCanThrow .| kInstrInvoke;
   kInstrCanContinue .| kInstrCanThrow .| kInstrInvoke;
   kInstrCanContinue .| kInstrCanThrow .| kInstrInvoke; 0;
   kInstrCanContinue .| kInstrCanThrow .| kInstrInvoke;
   kInstrCanContinue .| kInstrCanThrow .| kInstrInvoke;
   kInstrCanContinue .| kInstrCanThrow .| kInstrInvoke;
   kInstrCanContinue .| kInstrCanThrow .| kInstrInvoke;
   kInstrCanContinue .| kInstrCanThrow .| kInstrInvoke; 0; 0; kInstrCanContinue;
   kInstrCanContinue; kInstrCanContinue; kInstrCanContinue; kInstrCanContinue; kInstrCanContinue;
   kInstrCanContinue; kInstrCanContinue; kInstrCanContinue; kInstrCanContinue; kInstrCanContinue;
   kInstrCanContinue; kInstrCanContinue; kInstrCanContinue; kInstrCanContinue; kInstrCanContinue;
   kInstrCanContinue; kInstrCanContinue; kInstrCanContinue; kInstrCanContinue; kInstrCanContinue;
   kInstrCanContinue; kInstrCanContinue; kInstrCanContinue; kInstrCanContinue .| kInstrCanThrow;
   kInstrCanContinue .| kInstrCanThrow; kInstrCanContinue; kInstrCanContinue; kInstrCanContinue;
   kInstrCanContinue; kInstrCanContinue; kInstrCanContinue; kInstrCanContinue; kInstrCanContinue;
   kInstrCanContinue; kInstrCanContinue .| kInstrCanThrow; kInstrCanContinue .| kInstrCanThrow;
   kInstrCanContinue; kInstrCanContinue; kInstrCanContinue; kInstrCanContinue; kInstrCanContinue;
   kInstrCanContinue; kInstrCanContinue; kInstrCanContinue; kInstrCanContinue; kInstrCanContinue;
   kInstrCanContinue; kInstrCanContinue; kInstrCanContinue; kInstrCanContinue; kInstrCanContinue;
   kInstrCanContinue; kInstrCanContinue; kInstrCanContinue; kInstrCanContinue;
   kInstrCanContinue .| kInstrCanThrow; kInstrCanContinue .| kInstrCanThrow; kInstrCanContinue;
   kInstrCanContinue; kInstrCanContinue; kInstrCanContinue; kInstrCanContinue; kInstrCanContinue;
   kInstrCanContinue; kInstrCanContinue; kInstrCanContinue; kInstrCanContinue .| kInstrCanThrow;
   kInstrCanContinue .| kInstrCanThrow; kInstrCanContinue; kInstrCanContinue; kInstrCanContinue;
   kInstrCanContinue; kInstrCanContinue; kInstrCanContinue; kInstrCanContinue; kInstrCanContinue;
   kInstrCanContinue; kInstrCanContinue; kInstrCanContinue; kInstrCanContinue; kInstrCanContinue;
   kInstrCanContinue; kInstrCanContinue; kInstrCanContinue; kInstrCanContinue; kInstrCanContinue;
   kInstrCanContinue; kInstrCanContinue .| kInstrCanThrow; kInstrCanContinue .| kInstrCanThrow;
   kInstrCanContinue; kInstrCanContinue; kInstrCanContinue; kInstrCanContinue; kInstrCanContinue;
   kInstrCanContinue; kInstrCanContinue .| kInstrCanThrow; kInstrCanContinue .| kInstrCanThrow;
   kInstrCanContinue; kInstrCanContinue; kInstrCanContinue; kInstrCanContinue; kInstrCanContinue;
   kInstrCanContinue; kInstrCanContinue .| kInstrCanThrow; kInstrCanContinue .| kInstrCanThrow;
   kInstrCanContinue .| kInstrCanThrow; kInstrCanContinue .| kInstrCanThrow;
   kInstrCanContinue .| kInstrCanThrow; kInstrCanContinue .| kInstrCanThrow;
   kInstrCanContinue .| kInstrCanThrow; kInstrCanContinue .| kInstrCanThrow;
   kInstrCanContinue .| kInstrCanThrow; 0; kInstrCanThrow; kInstrCanContinue .| kInstrCanThrow;
   kInstrCanContinue .| kInstrCanThrow; kInstrCanContinue .| kInstrCanThrow .| kInstrInvoke;
   kInstrCanReturn; kInstrCanContinue .| kInstrCanThrow; kInstrCanContinue .| kInstrCanThrow;
   kInstrCanContinue .| kInstrCanThrow; kInstrCanContinue .| kInstrCanThrow;
   kInstrCanContinue .| kInstrCanThrow; kInstrCanContinue .| kInstrCanThrow;
   kInstrCanContinue .| kInstrCanThrow .| kInstrInvoke;
   kInstrCanContinue .| kInstrCanThrow .| kInstrInvoke;
   kInstrCanContinue .| kInstrCanThrow .| kInstrInvoke;
   kInstrCanContinue .| kInstrCanThrow .| kInstrInvoke; kInstrCanContinue .| kInstrCanThrow;
   kInstrCanContinue .| kInstrCanThrow; kInstrCanContinue .| kInstrCanThrow; 0
  ].

Definition gInstructionFormatTable : list InstructionFormat :=
  [
   kFmt10x; kFmt12x; kFmt22x; kFmt32x; kFmt12x; kFmt22x; kFmt32x; kFmt12x; kFmt22x; kFmt32x;
   kFmt11x; kFmt11x; kFmt11x; kFmt11x; kFmt10x; kFmt11x; kFmt11x; kFmt11x; kFmt11n; kFmt21s;
   kFmt31i; kFmt21h; kFmt21s; kFmt31i; kFmt51l; kFmt21h; kFmt21c; kFmt31c; kFmt21c; kFmt11x;
   kFmt11x; kFmt21c; kFmt22c; kFmt12x; kFmt21c; kFmt22c; kFmt35c; kFmt3rc; kFmt31t; kFmt11x;
   kFmt10t; kFmt20t; kFmt30t; kFmt31t; kFmt31t; kFmt23x; kFmt23x; kFmt23x; kFmt23x; kFmt23x;
   kFmt22t; kFmt22t; kFmt22t; kFmt22t; kFmt22t; kFmt22t; kFmt21t; kFmt21t; kFmt21t; kFmt21t;
   kFmt21t; kFmt21t; kFmt00x; kFmt00x; kFmt00x; kFmt00x; kFmt00x; kFmt00x; kFmt23x; kFmt23x;
   kFmt23x; kFmt23x; kFmt23x; kFmt23x; kFmt23x; kFmt23x; kFmt23x; kFmt23x; kFmt23x; kFmt23x;
   kFmt23x; kFmt23x; kFmt22c; kFmt22c; kFmt22c; kFmt22c; kFmt22c; kFmt22c; kFmt22c; kFmt22c;
   kFmt22c; kFmt22c; kFmt22c; kFmt22c; kFmt22c; kFmt22c; kFmt21c; kFmt21c; kFmt21c; kFmt21c;
   kFmt21c; kFmt21c; kFmt21c; kFmt21c; kFmt21c; kFmt21c; kFmt21c; kFmt21c; kFmt21c; kFmt21c;
   kFmt35c; kFmt35c; kFmt35c; kFmt35c; kFmt35c; kFmt00x; kFmt3rc; kFmt3rc; kFmt3rc; kFmt3rc;
   kFmt3rc; kFmt00x; kFmt00x; kFmt12x; kFmt12x; kFmt12x; kFmt12x; kFmt12x; kFmt12x; kFmt12x;
   kFmt12x; kFmt12x; kFmt12x; kFmt12x; kFmt12x; kFmt12x; kFmt12x; kFmt12x; kFmt12x; kFmt12x;
   kFmt12x; kFmt12x; kFmt12x; kFmt12x; kFmt23x; kFmt23x; kFmt23x; kFmt23x; kFmt23x; kFmt23x;
   kFmt23x; kFmt23x; kFmt23x; kFmt23x; kFmt23x; kFmt23x; kFmt23x; kFmt23x; kFmt23x; kFmt23x;
   kFmt23x; kFmt23x; kFmt23x; kFmt23x; kFmt23x; kFmt23x; kFmt23x; kFmt23x; kFmt23x; kFmt23x;
   kFmt23x; kFmt23x; kFmt23x; kFmt23x; kFmt23x; kFmt23x; kFmt12x; kFmt12x; kFmt12x; kFmt12x;
   kFmt12x; kFmt12x; kFmt12x; kFmt12x; kFmt12x; kFmt12x; kFmt12x; kFmt12x; kFmt12x; kFmt12x;
   kFmt12x; kFmt12x; kFmt12x; kFmt12x; kFmt12x; kFmt12x; kFmt12x; kFmt12x; kFmt12x; kFmt12x;
   kFmt12x; kFmt12x; kFmt12x; kFmt12x; kFmt12x; kFmt12x; kFmt12x; kFmt12x; kFmt22s; kFmt22s;
   kFmt22s; kFmt22s; kFmt22s; kFmt22s; kFmt22s; kFmt22s; kFmt22b; kFmt22b; kFmt22b; kFmt22b;
   kFmt22b; kFmt22b; kFmt22b; kFmt22b; kFmt22b; kFmt22b; kFmt22b; kFmt22c; kFmt22c; kFmt21c;
   kFmt21c; kFmt22c; kFmt22c; kFmt22c; kFmt21c; kFmt21c; kFmt00x; kFmt20bc; kFmt35mi; kFmt3rmi;
   kFmt35c; kFmt10x; kFmt22cs; kFmt22cs; kFmt22cs; kFmt22cs; kFmt22cs; kFmt22cs; kFmt35ms;
   kFmt3rms; kFmt35ms; kFmt3rms; kFmt22c; kFmt21c; kFmt21c; kFmt00x
  ].

Definition gInstructionIndexTypeTable : list InstructionIndexType :=
  [
   kIndexNone; kIndexNone; kIndexNone; kIndexNone; kIndexNone; kIndexNone; kIndexNone; kIndexNone;
   kIndexNone; kIndexNone; kIndexNone; kIndexNone; kIndexNone; kIndexNone; kIndexNone; kIndexNone;
   kIndexNone; kIndexNone; kIndexNone; kIndexNone; kIndexNone; kIndexNone; kIndexNone; kIndexNone;
   kIndexNone; kIndexNone; kIndexStringRef; kIndexStringRef; kIndexTypeRef; kIndexNone;
   kIndexNone; kIndexTypeRef; kIndexTypeRef; kIndexNone; kIndexTypeRef; kIndexTypeRef;
   kIndexTypeRef; kIndexTypeRef; kIndexNone; kIndexNone; kIndexNone; kIndexNone; kIndexNone;
   kIndexNone; kIndexNone; kIndexNone; kIndexNone; kIndexNone; kIndexNone; kIndexNone; kIndexNone;
   kIndexNone; kIndexNone; kIndexNone; kIndexNone; kIndexNone; kIndexNone; kIndexNone; kIndexNone;
   kIndexNone; kIndexNone; kIndexNone; kIndexUnknown; kIndexUnknown; kIndexUnknown; kIndexUnknown;
   kIndexUnknown; kIndexUnknown; kIndexNone; kIndexNone; kIndexNone; kIndexNone; kIndexNone;
   kIndexNone; kIndexNone; kIndexNone; kIndexNone; kIndexNone; kIndexNone; kIndexNone; kIndexNone;
   kIndexNone; kIndexFieldRef; kIndexFieldRef; kIndexFieldRef; kIndexFieldRef; kIndexFieldRef;
   kIndexFieldRef; kIndexFieldRef; kIndexFieldRef; kIndexFieldRef; kIndexFieldRef; kIndexFieldRef;
   kIndexFieldRef; kIndexFieldRef; kIndexFieldRef; kIndexFieldRef; kIndexFieldRef; kIndexFieldRef;
   kIndexFieldRef; kIndexFieldRef; kIndexFieldRef; kIndexFieldRef; kIndexFieldRef; kIndexFieldRef;
   kIndexFieldRef; kIndexFieldRef; kIndexFieldRef; kIndexFieldRef; kIndexFieldRef;
   kIndexMethodRef; kIndexMethodRef; kIndexMethodRef; kIndexMethodRef; kIndexMethodRef;
   kIndexUnknown; kIndexMethodRef; kIndexMethodRef; kIndexMethodRef; kIndexMethodRef;
   kIndexMethodRef; kIndexUnknown; kIndexUnknown; kIndexNone; kIndexNone; kIndexNone; kIndexNone;
   kIndexNone; kIndexNone; kIndexNone; kIndexNone; kIndexNone; kIndexNone; kIndexNone; kIndexNone;
   kIndexNone; kIndexNone; kIndexNone; kIndexNone; kIndexNone; kIndexNone; kIndexNone; kIndexNone;
   kIndexNone; kIndexNone; kIndexNone; kIndexNone; kIndexNone; kIndexNone; kIndexNone; kIndexNone;
   kIndexNone; kIndexNone; kIndexNone; kIndexNone; kIndexNone; kIndexNone; kIndexNone; kIndexNone;
   kIndexNone; kIndexNone; kIndexNone; kIndexNone; kIndexNone; kIndexNone; kIndexNone; kIndexNone;
   kIndexNone; kIndexNone; kIndexNone; kIndexNone; kIndexNone; kIndexNone; kIndexNone; kIndexNone;
   kIndexNone; kIndexNone; kIndexNone; kIndexNone; kIndexNone; kIndexNone; kIndexNone; kIndexNone;
   kIndexNone; kIndexNone; kIndexNone; kIndexNone; kIndexNone; kIndexNone; kIndexNone; kIndexNone;
   kIndexNone; kIndexNone; kIndexNone; kIndexNone; kIndexNone; kIndexNone; kIndexNone; kIndexNone;
   kIndexNone; kIndexNone; kIndexNone; kIndexNone; kIndexNone; kIndexNone; kIndexNone; kIndexNone;
   kIndexNone; kIndexNone; kIndexNone; kIndexNone; kIndexNone; kIndexNone; kIndexNone; kIndexNone;
   kIndexNone; kIndexNone; kIndexNone; kIndexNone; kIndexNone; kIndexNone; kIndexNone; kIndexNone;
   kIndexNone; kIndexNone; kIndexNone; kIndexNone; kIndexFieldRef; kIndexFieldRef; kIndexFieldRef;
   kIndexFieldRef; kIndexFieldRef; kIndexFieldRef; kIndexFieldRef; kIndexFieldRef; kIndexFieldRef;
   kIndexUnknown; kIndexVaries; kIndexInlineMethod; kIndexInlineMethod; kIndexMethodRef;
   kIndexNone; kIndexFieldOffset; kIndexFieldOffset; kIndexFieldOffset; kIndexFieldOffset;
   kIndexFieldOffset; kIndexFieldOffset; kIndexVtableOffset; kIndexVtableOffset;
   kIndexVtableOffset; kIndexVtableOffset; kIndexFieldRef; kIndexFieldRef; kIndexFieldRef;
   kIndexUnknown
  ].

Definition gOpNames : list string :=
  [
   "nop"; "move"; "move/from16"; "move/16"; "move-wide"; "move-wide/from16"; "move-wide/16";
   "move-object"; "move-object/from16"; "move-object/16"; "move-result"; "move-result-wide";
   "move-result-object"; "move-exception"; "return-void"; "return"; "return-wide";
   "return-object"; "const/4"; "const/16"; "const"; "const/high16"; "const-wide/16";
   "const-wide/32"; "const-wide"; "const-wide/high16"; "const-string"; "const-string/jumbo";
   "const-class"; "monitor-enter"; "monitor-exit"; "check-cast"; "instance-of"; "array-length";
   "new-instance"; "new-array"; "filled-new-array"; "filled-new-array/range"; "fill-array-data";
   "throw"; "goto"; "goto/16"; "goto/32"; "packed-switch"; "sparse-switch"; "cmpl-float";
   "cmpg-float"; "cmpl-double"; "cmpg-double"; "cmp-long"; "if-eq"; "if-ne"; "if-lt"; "if-ge";
   "if-gt"; "if-le"; "if-eqz"; "if-nez"; "if-ltz"; "if-gez"; "if-gtz"; "if-lez"; "unused-3e";
   "unused-3f"; "unused-40"; "unused-41"; "unused-42"; "unused-43"; "aget"; "aget-wide";
   "aget-object"; "aget-boolean"; "aget-byte"; "aget-char"; "aget-short"; "aput"; "aput-wide";
   "aput-object"; "aput-boolean"; "aput-byte"; "aput-char"; "aput-short"; "iget"; "iget-wide";
   "iget-object"; "iget-boolean"; "iget-byte"; "iget-char"; "iget-short"; "iput"; "iput-wide";
   "iput-object"; "iput-boolean"; "iput-byte"; "iput-char"; "iput-short"; "sget"; "sget-wide";
   "sget-object"; "sget-boolean"; "sget-byte"; "sget-char"; "sget-short"; "sput"; "sput-wide";
   "sput-object"; "sput-boolean"; "sput-byte"; "sput-char"; "sput-short"; "invoke-virtual";
   "invoke-super"; "invoke-direct"; "invoke-static"; "invoke-interface"; "unused-73";
   "invoke-virtual/range"; "invoke-super/range"; "invoke-direct/range"; "invoke-static/range";
   "invoke-interface/range"; "unused-79"; "unused-7a"; "neg-int"; "not-int"; "neg-long";
   "not-long"; "neg-float"; "neg-double"; "int-to-long"; "int-to-float"; "int-to-double";
   "long-to-int"; "long-to-float"; "long-to-double"; "float-to-int"; "float-to-long";
   "float-to-double"; "double-to-int"; "double-to-long"; "double-to-float"; "int-to-byte";
   "int-to-char"; "int-to-short"; "add-int"; "sub-int"; "mul-int"; "div-int"; "rem-int";
   "and-int"; "or-int"; "xor-int"; "shl-int"; "shr-int"; "ushr-int"; "add-long"; "sub-long";
   "mul-long"; "div-long"; "rem-long"; "and-long"; "or-long"; "xor-long"; "shl-long"; "shr-long";
   "ushr-long"; "add-float"; "sub-float"; "mul-float"; "div-float"; "rem-float"; "add-double";
   "sub-double"; "mul-double"; "div-double"; "rem-double"; "add-int/2addr"; "sub-int/2addr";
   "mul-int/2addr"; "div-int/2addr"; "rem-int/2addr"; "and-int/2addr"; "or-int/2addr";
   "xor-int/2addr"; "shl-int/2addr"; "shr-int/2addr"; "ushr-int/2addr"; "add-long/2addr";
   "sub-long/2addr"; "mul-long/2addr"; "div-long/2addr"; "rem-long/2addr"; "and-long/2addr";
   "or-long/2addr"; "xor-long/2addr"; "shl-long/2addr"; "shr-long/2addr"; "ushr-long/2addr";
   "add-float/2addr"; "sub-float/2addr"; "mul-float/2addr"; "div-float/2addr"; "rem-float/2addr";
   "add-double/2addr"; "sub-double/2addr"; "mul-double/2addr"; "div-double/2addr";
   "rem-double/2addr"; "add-int/lit16"; "rsub-int"; "mul-int/lit16"; "div-int/lit16";
   "rem-int/lit16"; "and-int/lit16"; "or-int/lit16"; "xor-int/lit16"; "add-int/lit8";
   "rsub-int/lit8"; "mul-int/lit8"; "div-int/lit8"; "rem-int/lit8"; "and-int/lit8"; "or-int/lit8";
   "xor-int/lit8"; "shl-int/lit8"; "shr-int/lit8"; "ushr-int/lit8"; "+iget-volatile";
   "+iput-volatile"; "+sget-volatile"; "+sput-volatile"; "+iget-object-volatile";
   "+iget-wide-volatile"; "+iput-wide-volatile"; "+sget-wide-volatile"; "+sput-wide-volatile";
   "^breakpoint"; "^throw-verification-error"; "+execute-inline"; "+execute-inline/range";
   "+invoke-object-init/range"; "+return-void-barrier"; "+iget-quick"; "+iget-wide-quick";
   "+iget-object-quick"; "+iput-quick"; "+iput-wide-quick"; "+iput-object-quick";
   "+invoke-virtual-quick"; "+invoke-virtual-quick/range"; "+invoke-super-quick";
   "+invoke-super-quick/range"; "+iput-object-volatile"; "+sget-object-volatile";
   "+sput-object-volatile"; "unused-ff"
  ]%string.

(** ** Reading a table

    [None]: the assertion [op < kNumPackedOpcodes] fails, or, where assertions are
    compiled out, the array is read past its end. *)
Definition from_table {A} (table : list A) (opcode : Z) : option A :=
  if (0 <=? opcode) && (opcode <? kNumPackedOpcodes) then table !! Z.to_nat opcode else None.

Definition dexGetWidthFromOpcode (opcode : Z) : option Z := from_table gInstructionWidthTable opcode.

Definition dexGetFlagsFromOpcode (opcode : Z) : option Z := from_table gOpcodeFlagsTable opcode.

Definition dexGetFormatFromOpcode (opcode : Z) : option InstructionFormat :=
  from_table gInstructionFormatTable opcode.

Definition dexGetIndexTypeFromOpcode (opcode : Z) : option InstructionIndexType :=
  from_table gInstructionIndexTypeTable opcode.

Definition dexGetOpcodeName (opcode : Z) : option string := from_table gOpNames opcode.

Definition dexIsGoto (flags : Z) : bool :=
  Z.land flags (kInstrCanBranch .| kInstrCanContinue) =? kInstrCanBranch.

(** The raw opcode of a code unit. *)
Definition dexOpcodeFromCodeUnit (codeUnit : Z) : Z :=
  let lowByte := Z.land codeUnit 0xff in
  if negb (lowByte =? 0xff) then lowByte else Z.lor (Z.shiftr codeUnit 8) 0x100.

(** ** What the tables promise each other *)

(** The number a format's name starts with: the code units of its instructions. *)
Definition fmt_units (f : InstructionFormat) : Z :=
  match f with
  | kFmt00x => 0
  | kFmt10x | kFmt12x | kFmt11n | kFmt11x | kFmt10t => 1
  | kFmt20bc | kFmt20t | kFmt22x | kFmt21t | kFmt21s | kFmt21h | kFmt21c | kFmt23x | kFmt22b
  | kFmt22t | kFmt22s | kFmt22c | kFmt22cs => 2
  | kFmt30t | kFmt32x | kFmt31i | kFmt31t | kFmt31c | kFmt35c | kFmt35ms | kFmt3rc | kFmt3rms
  | kFmt35mi | kFmt3rmi => 3
  | kFmt51l => 5
  end.

(** The formats whose names end in [c], [m] or [i] followed by the kind of the
    reference: those with a "thing" among their operands. *)
Definition fmt_indexed (f : InstructionFormat) : bool :=
  bool_decide (f ∈ [kFmt20bc; kFmt21c; kFmt22c; kFmt22cs; kFmt31c; kFmt35c; kFmt35ms; kFmt35mi;
                    kFmt3rc; kFmt3rms; kFmt3rmi]).

(** The formats with the target of a branch, the data tables of [kFmt31t] apart. *)
Definition fmt_branch (f : InstructionFormat) : bool :=
  bool_decide (f ∈ [kFmt10t; kFmt20t; kFmt30t; kFmt21t; kFmt22t]).

Definition has_flag (flags bit : Z) : bool := negb (Z.land flags bit =? 0).

(** The entries of the five tables at one opcode agree. *)
Definition entries_agree (width flags : Z) (format : InstructionFormat)
    (indexType : InstructionIndexType) (name : string) : Prop :=
  width = fmt_units format /\
  (* unimplemented opcodes are marked in every table *)
  (format = kFmt00x <-> indexType = kIndexUnknown) /\ (format = kFmt00x <-> flags = 0) /\
  (format = kFmt00x <-> String.prefix "unused-" name = true \/ name = "^breakpoint"%string) /\
  (* an index among the operands has a type, other operands have none *)
  (fmt_indexed format = true <-> indexType <> kIndexNone /\ indexType <> kIndexUnknown) /\
  (* control flow *)
  (has_flag flags kInstrCanBranch = true <-> fmt_branch format = true) /\
  (dexIsGoto flags = true <-> name ∈ ["goto"; "goto/16"; "goto/32"]%string) /\
  (has_flag flags kInstrCanSwitch = true <-> name ∈ ["packed-switch"; "sparse-switch"]%string) /\
  (flags = kInstrCanReturn <-> has_flag flags kInstrCanReturn = true) /\
  (has_flag flags kInstrCanReturn = true <->
    String.prefix "return" name = true \/ name = "+return-void-barrier"%string) /\
  (has_flag flags kInstrInvoke = true <->
    String.prefix "invoke-" name = true \/ String.prefix "+invoke-" name = true) /\
  (has_flag flags kInstrInvoke = true ->
    (indexType = kIndexMethodRef \/ indexType = kIndexVtableOffset) /\
    has_flag flags kInstrCanThrow = true /\ has_flag flags kInstrCanContinue = true) /\
  (* what does not flow on to the next instruction *)
  (has_flag flags kInstrCanContinue = false <->
    format = kFmt00x \/ dexIsGoto flags = true \/ flags = kInstrCanReturn \/
    name ∈ ["throw"; "^throw-verification-error"]%string).

#[export] Instance entries_agree_dec w fl f ix nm : Decision (entries_agree w fl f ix nm).
Proof. unfold entries_agree. apply _. Defined.

Definition tables_agree_at (opcode : Z) : bool :=
  match dexGetWidthFromOpcode opcode, dexGetFlagsFromOpcode opcode, dexGetFormatFromOpcode opcode,
        dexGetIndexTypeFromOpcode opcode, dexGetOpcodeName opcode with
  | Some w, Some fl, Some f, Some ix, Some nm => bool_decide (entries_agree w fl f ix nm)
  | _, _, _, _, _ => false
  end.

Lemma tables_agree_all : forallb tables_agree_at (seqZ 0 kNumPackedOpcodes) = true.
Proof. vm_compute. reflexivity. Qed.

Lemma tables_agree_packed opcode : 0 <= opcode < kNumPackedOpcodes -> tables_agree_at opcode = true.
Proof.
  intros Hop. pose proof tables_agree_all as H. rewrite forallb_forall in H. apply H.
  apply list_elem_of_In, elem_of_seqZ. lia.
Qed.

(** A packed opcode has an entry in the table of widths and in that of formats, and
    the width is that of the format. *)
Lemma packed_entries opcode : 0 <= opcode < kNumPackedOpcodes ->
  exists f ix, dexGetFormatFromOpcode opcode = Some f /\ dexGetIndexTypeFromOpcode opcode = Some ix /\
    dexGetWidthFromOpcode opcode = Some (fmt_units f).
Proof.
  intros Hop. pose proof (tables_agree_packed opcode Hop) as H. unfold tables_agree_at in H.
  destruct (dexGetWidthFromOpcode opcode), (dexGetFlagsFromOpcode opcode),
    (dexGetFormatFromOpcode opcode) as [f|], (dexGetIndexTypeFromOpcode opcode) as [ix|],
    (dexGetOpcodeName opcode); try done.
  apply bool_decide_eq_true in H as [-> _]. eauto.
Qed.

Lemma from_table_packed {A} (t : list A) opcode x : from_table t opcode = Some x ->
  0 <= opcode < kNumPackedOpcodes.
Proof.
  unfold from_table. destruct (Z.leb_spec 0 opcode), (Z.ltb_spec opcode kNumPackedOpcodes);
    simpl; try done; lia.
Qed.

(** The tables of the instruction set agree with one another at every packed
    opcode: the width is the number of code units of the format; the unimplemented
    opcodes are the same ones in the tables of widths, formats, flags, index types
    and names; an opcode has an index type exactly when its format has an index
    operand; the opcodes that may branch are those with a branch format; and the
    gotos, switches, returns, invocations and instructions that do not continue are
    the ones their names say. *)
Theorem opcode_tables_agree opcode : 0 <= opcode < kNumPackedOpcodes ->
  exists width flags format indexType name,
    dexGetWidthFromOpcode opcode = Some width /\ dexGetFlagsFromOpcode opcode = Some flags /\
    dexGetFormatFromOpcode opcode = Some format /\
    dexGetIndexTypeFromOpcode opcode = Some indexType /\
    dexGetOpcodeName opcode = Some name /\
    entries_agree width flags format indexType name.
Proof.
  intros Hop. pose proof (tables_agree_packed opcode Hop) as H. unfold tables_agree_at in H.
  destruct (dexGetWidthFromOpcode opcode) as [w|], (dexGetFlagsFromOpcode opcode) as [fl|],
    (dexGetFormatFromOpcode opcode) as [f|], (dexGetIndexTypeFromOpcode opcode) as [ix|],
    (dexGetOpcodeName opcode) as [nm|]; try done.
  apply bool_decide_eq_true in H. by exists w, fl, f, ix, nm.
Qed.

Lemma opcode_tables_agree_witness :
  dexGetOpcodeName 0x28 = Some "goto"%string /\
  exists width flags format indexType name,
    dexGetWidthFromOpcode 0x28 = Some width /\ dexGetFlagsFromOpcode 0x28 = Some flags /\
    dexGetFormatFromOpcode 0x28 = Some format /\
    dexGetIndexTypeFromOpcode 0x28 = Some indexType /\
    dexGetOpcodeName 0x28 = Some name /\ entries_agree width flags format indexType name.
Proof. split; [vm_compute; reflexivity|]. apply opcode_tables_agree. unfold kNumPackedOpcodes. lia. Defined.

(** The code units whose low byte is [0xff] have no packed opcode: their number is
    past the end of every table. *)
Lemma opcode_of_unit_packed u : inU 16 u ->
  0 <= dexOpcodeFromCodeUnit u < kNumPackedOpcodes <-> Z.land u 0xff <> 0xff.
Proof.
  intros Hu. unfold dexOpcodeFromCodeUnit, kNumPackedOpcodes.
  rewrite land_ff. change (2 ^ 8) with 256. pose proof (Z.mod_pos_bound u 256 ltac:(lia)).
  destruct (Z.eqb_spec (u mod 256) 0xff) as [E|]; simpl; [|lia].
  assert (0 <= Z.shiftr u 8 < 2 ^ 8).
  { rewrite Z.shiftr_div_pow2 by lia. unfold inU in Hu.
    split; [apply Z.div_pos; lia|apply Z.div_lt_upper_bound; lia]. }
  change 256 with (Z.shiftl 1 8). rewrite lor_shiftl_add by lia.
  change (Z.shiftl 1 8) with 256. lia.
Qed.
