(* ===== verification/InstrUtils.v ===== *)
(** * Decoding instructions: [dalvik/libdex/InstrUtils.cpp]

    [dexDecodeInstruction] and [dexGetWidthFromInstruction]. The instructions are
    the list of the 16-bit code units from the pointer on; reading past its end is
    [None]. An [int] has 32 bits and [size_t] too, as on the project's targets. *)

From S2P Require Import Prelude Bits OpcodeTables.

(** ** Data *)

Definition kPackedSwitchSignature : Z := 0x0100.
Definition kSparseSwitchSignature : Z := 0x0200.
Definition kArrayDataSignature : Z := 0x0300.

(** The fields are assigned to one by one: [opcode] and [indexType] first. *)
Record DecodedInstruction := DI {
  vA : Z;
  vB : Z;
  vB_wide : Z;
  vC : Z;
  arg : list Z;
  opcode : Z;
  indexType : InstructionIndexType
}.

Definition set_vA x d := DI x d.(vB) d.(vB_wide) d.(vC) d.(arg) d.(opcode) d.(indexType).
Definition set_vB x d := DI d.(vA) x d.(vB_wide) d.(vC) d.(arg) d.(opcode) d.(indexType).
Definition set_vB_wide x d := DI d.(vA) d.(vB) x d.(vC) d.(arg) d.(opcode) d.(indexType).
Definition set_vC x d := DI d.(vA) d.(vB) d.(vB_wide) x d.(arg) d.(opcode) d.(indexType).
Definition set_arg i x d :=
  DI d.(vA) d.(vB) d.(vB_wide) d.(vC) (<[i := x]> d.(arg)) d.(opcode) d.(indexType).
Definition set_opcode x d := DI d.(vA) d.(vB) d.(vB_wide) d.(vC) d.(arg) x d.(indexType).
Definition set_indexType x d := DI d.(vA) d.(vB) d.(vB_wide) d.(vC) d.(arg) d.(opcode) x.

(** How the function ends: at the end of the switch, at [bail] after a warning, or
    in the default case, whose assertion fails where assertions are compiled in. *)
Inductive decode_end := Decoded | Bailed | Unexpected.

(** ** The macros *)

Definition FETCH (insns : list Z) (offset : nat) : option Z := insns !! offset.

Definition FETCH_u4 (insns : list Z) (offset : nat) : option Z :=
  lo ← insns !! offset;
  hi ← insns !! S offset;
  Some (Z.lor lo (u32 (Z.shiftl hi 16))).

Definition INST_A (inst : Z) : Z := Z.land (Z.shiftr inst 8) 0x0f.

Definition INST_B (inst : Z) : Z := Z.shiftr inst 12.

Definition INST_AA (inst : Z) : Z := Z.shiftr inst 8.

(** The conversions to a field of type [u4] of the sign extension of 4, 8 and 16 bits. *)
Definition ext4 (x : Z) : Z := u32 (Z.shiftr (s32 (Z.shiftl x 28)) 28).

Definition ext8 (x : Z) : Z := u32 (wrapS 8 x).

Definition ext16 (x : Z) : Z := u32 (wrapS 16 x).

(** The cases of the argument count, which fall through from 5 to 1. *)
Definition args_case1 (regList : Z) (d : DecodedInstruction) : DecodedInstruction :=
  let r := Z.land regList 0x0f in set_vC r (set_arg 0 r d).

Definition args_case2 (regList : Z) (d : DecodedInstruction) : DecodedInstruction :=
  args_case1 regList (set_arg 1 (Z.land (Z.shiftr regList 4) 0x0f) d).

Definition args_case3 (regList : Z) (d : DecodedInstruction) : DecodedInstruction :=
  args_case2 regList (set_arg 2 (Z.land (Z.shiftr regList 8) 0x0f) d).

Definition args_case4 (regList : Z) (d : DecodedInstruction) : DecodedInstruction :=
  args_case3 regList (set_arg 3 (Z.land (Z.shiftr regList 12) 0x0f) d).

Definition decode_args (format : InstructionFormat) (inst regList count : Z)
    (d : DecodedInstruction) : decode_end * DecodedInstruction :=
  if count =? 5 then
    if decide (format = kFmt35mi) then (Bailed, d)
    else (Decoded, args_case4 regList (set_arg 4 (INST_A inst) d))
  else if count =? 4 then (Decoded, args_case4 regList d)
  else if count =? 3 then (Decoded, args_case3 regList d)
  else if count =? 2 then (Decoded, args_case2 regList d)
  else if count =? 1 then (Decoded, args_case1 regList d)
  else if count =? 0 then (Decoded, d)
  else (Bailed, d).

(** The switch over the format. *)
Definition decode_format (format : InstructionFormat) (inst : Z) (insns : list Z)
    (d : DecodedInstruction) : option (decode_end * DecodedInstruction) :=
  match format with
  | kFmt10x => Some (Decoded, set_vA (INST_AA inst) d)
  | kFmt12x => Some (Decoded, set_vB (INST_B inst) (set_vA (INST_A inst) d))
  | kFmt11n => Some (Decoded, set_vB (ext4 (INST_B inst)) (set_vA (INST_A inst) d))
  | kFmt11x => Some (Decoded, set_vA (INST_AA inst) d)
  | kFmt10t => Some (Decoded, set_vA (ext8 (INST_AA inst)) d)
  | kFmt20t =>
      f1 ← FETCH insns 1;
      Some (Decoded, set_vA (ext16 f1) d)
  | kFmt20bc | kFmt21c | kFmt22x =>
      f1 ← FETCH insns 1;
      Some (Decoded, set_vB f1 (set_vA (INST_AA inst) d))
  | kFmt21s | kFmt21t =>
      f1 ← FETCH insns 1;
      Some (Decoded, set_vB (ext16 f1) (set_vA (INST_AA inst) d))
  | kFmt21h =>
      f1 ← FETCH insns 1;
      Some (Decoded, set_vB f1 (set_vA (INST_AA inst) d))
  | kFmt23x =>
      f1 ← FETCH insns 1;
      Some (Decoded, set_vC (Z.shiftr f1 8) (set_vB (Z.land f1 0xff) (set_vA (INST_AA inst) d)))
  | kFmt22b =>
      f1 ← FETCH insns 1;
      Some (Decoded,
            set_vC (ext8 (Z.shiftr f1 8)) (set_vB (Z.land f1 0xff) (set_vA (INST_AA inst) d)))
  | kFmt22s | kFmt22t =>
      f1 ← FETCH insns 1;
      Some (Decoded, set_vC (ext16 f1) (set_vB (INST_B inst) (set_vA (INST_A inst) d)))
  | kFmt22c | kFmt22cs =>
      f1 ← FETCH insns 1;
      Some (Decoded, set_vC f1 (set_vB (INST_B inst) (set_vA (INST_A inst) d)))
  | kFmt30t =>
      f1 ← FETCH_u4 insns 1;
      Some (Decoded, set_vA f1 d)
  | kFmt31t | kFmt31c =>
      f1 ← FETCH_u4 insns 1;
      Some (Decoded, set_vB f1 (set_vA (INST_AA inst) d))
  | kFmt32x =>
      f1 ← FETCH insns 1;
      f2 ← FETCH insns 2;
      Some (Decoded, set_vB f2 (set_vA f1 d))
  | kFmt31i =>
      f1 ← FETCH_u4 insns 1;
      Some (Decoded, set_vB f1 (set_vA (INST_AA inst) d))
  | kFmt35c | kFmt35ms | kFmt35mi =>
      f1 ← FETCH insns 1;
      regList ← FETCH insns 2;
      Some (decode_args format inst regList (INST_B inst) (set_vB f1 (set_vA (INST_B inst) d)))
  | kFmt3rc | kFmt3rms | kFmt3rmi =>
      f1 ← FETCH insns 1;
      f2 ← FETCH insns 2;
      Some (Decoded, set_vC f2 (set_vB f1 (set_vA (INST_AA inst) d)))
  | kFmt51l =>
      f1 ← FETCH_u4 insns 1;
      f3 ← FETCH_u4 insns 3;
      Some (Decoded, set_vB_wide (Z.lor f1 (Z.shiftl f3 32)) (set_vA (INST_AA inst) d))
  | kFmt00x => Some (Unexpected, d)
  end.

Definition dexDecodeInstruction (insns : list Z) (pDec : DecodedInstruction) :
    option (decode_end * DecodedInstruction) :=
  inst ← FETCH insns 0;
  let opcode := dexOpcodeFromCodeUnit inst in
  format ← dexGetFormatFromOpcode opcode;
  indexType ← dexGetIndexTypeFromOpcode opcode;
  decode_format format inst insns (set_indexType indexType (set_opcode opcode pDec)).

Definition dexGetWidthFromInstruction (insns : list Z) : option Z :=
  i0 ← FETCH insns 0;
  if i0 =? kPackedSwitchSignature then
    i1 ← FETCH insns 1;
    Some (u32 (4 + i1 * 2))
  else if i0 =? kSparseSwitchSignature then
    i1 ← FETCH insns 1;
    Some (u32 (2 + i1 * 4))
  else if i0 =? kArrayDataSignature then
    elemWidth ← FETCH insns 1;
    i2 ← FETCH insns 2;
    i3 ← FETCH insns 3;
    let len := Z.lor i2 (u32 (Z.shiftl i3 16)) in
    Some (u32 (4 + u32 (u32 (elemWidth * len) + 1) / 2))
  else
    dexGetWidthFromOpcode (dexOpcodeFromCodeUnit i0).

(** ** What is read *)

(** [by_units] splits the code units a list starts with, up to the longest format. *)
Ltac by_units insns := destruct insns as [|? [|? [|? [|? [|? ?]]]]]; cbn.

Lemma decode_format_defined f inst insns d : f <> kFmt00x -> insns <> [] ->
  is_Some (decode_format f inst insns d) <-> fmt_units f <= Z.of_nat (length insns).
Proof.
  intros Hf Hne. unfold is_Some. destruct f; try done; by_units insns; try done.
  all: split; [try lia; by intros [? ?]|first [lia|eauto]].
Qed.

Lemma decode_format_app f inst insns rest d : fmt_units f <= Z.of_nat (length insns) ->
  insns <> [] -> decode_format f inst (insns ++ rest) d = decode_format f inst insns d.
Proof. intros Hl Hne. destruct f; by_units insns; try done; cbn in Hl; lia. Qed.

Definition is_signature (inst : Z) : bool :=
  (inst =? kPackedSwitchSignature) || (inst =? kSparseSwitchSignature) ||
  (inst =? kArrayDataSignature).

Lemma width_of_instruction inst insns : is_signature inst = false ->
  dexGetWidthFromInstruction (inst :: insns) = dexGetWidthFromOpcode (dexOpcodeFromCodeUnit inst).
Proof.
  unfold is_signature, dexGetWidthFromInstruction. cbn. intros H.
  apply orb_false_elim in H as [H H3]. apply orb_false_elim in H as [H1 H2].
  by rewrite H1, H2, H3.
Qed.

Lemma format_fmt00x_units f : f = kFmt00x <-> fmt_units f = 0.
Proof. by destruct f. Qed.

Lemma decode_of_format inst insns d f ix :
  dexGetFormatFromOpcode (dexOpcodeFromCodeUnit inst) = Some f ->
  dexGetIndexTypeFromOpcode (dexOpcodeFromCodeUnit inst) = Some ix ->
  dexDecodeInstruction (inst :: insns) d =
  decode_format f inst (inst :: insns)
    (set_indexType ix (set_opcode (dexOpcodeFromCodeUnit inst) d)).
Proof. intros Hf Hix. unfold dexDecodeInstruction. cbn [FETCH mbind option_bind lookup list_lookup]. by rewrite Hf; cbn; rewrite Hix. Qed.

(** The decoder reads exactly the code units the width table gives an
    instruction. With [w] the width of the opcode in the first unit: when [w] is not
    zero, the decoder returns as soon as [w] units are there and not before, and what
    it stores depends on those [w] units only; when [w] is zero (an unimplemented
    opcode) it ends in the default case with the operands untouched; and the width
    of the instruction is [w] unless its first unit marks a data table. *)
Theorem decode_reads_width inst insns d : inU 16 inst -> Z.land inst 0xff <> 0xff ->
  exists w, dexGetWidthFromOpcode (dexOpcodeFromCodeUnit inst) = Some w /\
    (is_signature inst = false -> dexGetWidthFromInstruction (inst :: insns) = Some w) /\
    (w <> 0 ->
      (is_Some (dexDecodeInstruction (inst :: insns) d) <-> w <= Z.of_nat (length (inst :: insns))) /\
      (w <= Z.of_nat (length (inst :: insns)) -> forall rest,
        dexDecodeInstruction (inst :: insns ++ rest) d = dexDecodeInstruction (inst :: insns) d)) /\
    (w = 0 -> exists d', dexDecodeInstruction (inst :: insns) d = Some (Unexpected, d') /\
      d' = set_indexType (indexType d') (set_opcode (dexOpcodeFromCodeUnit inst) d)).
Proof.
  intros Hi Hff. apply opcode_of_unit_packed in Hff; [|done].
  destruct (packed_entries _ Hff) as (f & ix & Hf & Hix & Hw). exists (fmt_units f).
  split; [done|]. split; [|split].
  - intros Hs. by rewrite width_of_instruction.
  - intros Hne. rewrite !(decode_of_format inst _ d f ix Hf Hix). split.
    + apply decode_format_defined; [|done]. intros Ef. apply Hne. by rewrite Ef.
    + intros Hl rest. rewrite (decode_of_format inst _ d f ix Hf Hix).
      by apply (decode_format_app f inst (inst :: insns)).
  - intros ?%(proj2 (format_fmt00x_units f)). subst f. rewrite (decode_of_format inst _ d _ ix Hf Hix). cbn. eauto.
Qed.

Lemma decode_reads_width_witness :
  let d := DI 0 0 0 0 [0; 0; 0; 0; 0] 0 kIndexUnknown in
  exists w, dexGetWidthFromOpcode (dexOpcodeFromCodeUnit 0x1013) = Some w /\
    (is_signature 0x1013 = false -> dexGetWidthFromInstruction [0x1013; 0xffff] = Some w) /\
    (w <> 0 ->
      (is_Some (dexDecodeInstruction [0x1013; 0xffff] d) <-> w <= 2) /\
      (w <= 2 -> forall rest,
        dexDecodeInstruction (0x1013 :: [0xffff] ++ rest) d = dexDecodeInstruction [0x1013; 0xffff] d)) /\
    (w = 0 -> exists d', dexDecodeInstruction [0x1013; 0xffff] d = Some (Unexpected, d') /\
      d' = set_indexType (indexType d') (set_opcode (dexOpcodeFromCodeUnit 0x1013) d)).
Proof.
  intros d. apply (decode_reads_width 0x1013 [0xffff] d); [unfold inU; lia|vm_compute; discriminate].
Defined.

(** A unit whose low byte is [0xff] is looked up past the end of the tables: the
    assertion of the look-up fails. *)
Theorem decode_of_unit_ff inst insns d : inU 16 inst -> Z.land inst 0xff = 0xff ->
  dexDecodeInstruction (inst :: insns) d = None.
Proof.
  intros Hi Hff. unfold dexDecodeInstruction. cbn [FETCH mbind option_bind lookup list_lookup].
  destruct (dexGetFormatFromOpcode (dexOpcodeFromCodeUnit inst)) eqn:E; [|done].
  apply from_table_packed in E. by apply opcode_of_unit_packed in E.
Qed.

(** ** Specification: the encoding of an instruction

    The operands of an instruction as numbers, signed where the format has a
    literal or an offset, and the code units that encode them, following the layouts
    of the formats (["B|A|op CCCC"] and the like). *)
Record operands := OPS { oA : Z; oB : Z; oC : Z; oregs : list Z }.

(** A value of up to [n] code units, the least significant one first. *)
Fixpoint units (n : nat) (x : Z) : list Z :=
  match n with
  | O => []
  | S n => u16 x :: units n (x / 2 ^ 16)
  end.

(** ["AA|op"] and ["B|A|op"]. *)
Definition unit_AA (op a : Z) : Z := op + u8 a * 256.

Definition unit_BA (op a b : Z) : Z := op + wrapU 4 a * 256 + wrapU 4 b * 4096.

Definition reg (regs : list Z) (i : nat) : Z := default 0 (regs !! i).

Definition encode (f : InstructionFormat) (op : Z) (o : operands) : list Z :=
  let '(OPS a b c r) := o in
  match f with
  | kFmt00x => []
  | kFmt10x | kFmt11x | kFmt10t => [unit_AA op a]
  | kFmt12x | kFmt11n => [unit_BA op a b]
  | kFmt20t => op :: units 1 a
  | kFmt20bc | kFmt21c | kFmt22x | kFmt21h | kFmt21s | kFmt21t => unit_AA op a :: units 1 b
  | kFmt23x | kFmt22b => [unit_AA op a; u8 b + u8 c * 256]
  | kFmt22s | kFmt22t | kFmt22c | kFmt22cs => unit_BA op a b :: units 1 c
  | kFmt30t => op :: units 2 a
  | kFmt31t | kFmt31c | kFmt31i => unit_AA op a :: units 2 b
  | kFmt32x => op :: units 1 a ++ units 1 b
  | kFmt35c | kFmt35ms | kFmt35mi =>
      unit_BA op (reg r 4) (Z.of_nat (length r)) :: units 1 b ++
      [reg r 0 + reg r 1 * 16 + reg r 2 * 256 + reg r 3 * 4096]
  | kFmt3rc | kFmt3rms | kFmt3rmi => unit_AA op a :: units 1 b ++ units 1 c
  | kFmt51l => unit_AA op a :: units 4 b
  end.

(** The operands a format can hold. *)
Definition fits (f : InstructionFormat) (o : operands) : Prop :=
  let '(OPS a b c r) := o in
  match f with
  | kFmt00x => False
  | kFmt10x | kFmt11x => inU 8 a
  | kFmt10t => inS 8 a
  | kFmt12x => inU 4 a /\ inU 4 b
  | kFmt11n => inU 4 a /\ inS 4 b
  | kFmt20t => inS 16 a
  | kFmt20bc | kFmt21c | kFmt22x | kFmt21h => inU 8 a /\ inU 16 b
  | kFmt21s | kFmt21t => inU 8 a /\ inS 16 b
  | kFmt23x => inU 8 a /\ inU 8 b /\ inU 8 c
  | kFmt22b => inU 8 a /\ inU 8 b /\ inS 8 c
  | kFmt22s | kFmt22t => inU 4 a /\ inU 4 b /\ inS 16 c
  | kFmt22c | kFmt22cs => inU 4 a /\ inU 4 b /\ inU 16 c
  | kFmt30t => inS 32 a
  | kFmt31t | kFmt31i => inU 8 a /\ inS 32 b
  | kFmt31c => inU 8 a /\ inU 32 b
  | kFmt32x => inU 16 a /\ inU 16 b
  | kFmt35c | kFmt35ms => inU 16 b /\ (length r <= 5)%nat /\ Forall (inU 4) r
  | kFmt35mi => inU 16 b /\ (length r <= 4)%nat /\ Forall (inU 4) r
  | kFmt3rc | kFmt3rms | kFmt3rmi => inU 8 a /\ inU 16 b /\ inU 16 c
  | kFmt51l => inU 8 a /\ inS 64 b
  end.

(** The fields the decoder is to fill in, the others as they were: a signed operand
    is stored as the [u4] (or [u8]) with the same low bits, a list of registers with
    its length in [vA], the index in [vB] and its first register in [vC] too. *)
Definition decoded (f : InstructionFormat) (o : operands) (d : DecodedInstruction) : DecodedInstruction :=
  let '(OPS a b c r) := o in
  match f with
  | kFmt00x => d
  | kFmt10x | kFmt11x | kFmt10t | kFmt20t | kFmt30t => set_vA (u32 a) d
  | kFmt12x | kFmt11n | kFmt20bc | kFmt21c | kFmt22x | kFmt21h | kFmt21s | kFmt21t | kFmt31t
  | kFmt31c | kFmt31i | kFmt32x => set_vB (u32 b) (set_vA (u32 a) d)
  | kFmt23x | kFmt22b | kFmt22s | kFmt22t | kFmt22c | kFmt22cs | kFmt3rc | kFmt3rms | kFmt3rmi =>
      set_vC (u32 c) (set_vB (u32 b) (set_vA (u32 a) d))
  | kFmt35c | kFmt35ms | kFmt35mi =>
      DI (Z.of_nat (length r)) (u32 b) d.(vB_wide) (default d.(vC) (head r))
         (r ++ drop (length r) d.(arg)) d.(opcode) d.(indexType)
  | kFmt51l => set_vB_wide (u64 b) (set_vA (u32 a) d)
  end.

(** *** The macros on encoded units *)

(** The field above the low [n] bits, and those bits. *)
Lemma field_div n a m : 0 <= n -> inU n a -> Z.shiftr (a + m * 2 ^ n) n = m.
Proof.
  intros Hn Ha. unfold inU in Ha. rewrite Z.shiftr_div_pow2, Z.div_add, Z.div_small by lia. lia.
Qed.

Lemma field_mod n a m : 0 <= n -> inU n a -> (a + m * 2 ^ n) mod 2 ^ n = a.
Proof. intros Hn Ha. unfold inU in Ha. by rewrite Z.mod_add, Z.mod_small by lia. Qed.

Lemma INST_AA_unit op a : inU 8 op -> INST_AA (unit_AA op a) = u8 a.
Proof. intros. unfold INST_AA, unit_AA. by apply (field_div 8). Qed.

Lemma unit_BA_AA op a b : unit_BA op a b = op + (wrapU 4 a + wrapU 4 b * 2 ^ 4) * 2 ^ 8.
Proof. unfold unit_BA. ring. Qed.

Lemma INST_A_unit op a b : inU 8 op -> INST_A (unit_BA op a b) = wrapU 4 a.
Proof.
  intros. unfold INST_A. rewrite unit_BA_AA, (field_div 8), land_f by done.
  apply field_mod; [done|]. by apply wrapU_range.
Qed.

Lemma INST_B_unit op a b : inU 8 op -> INST_B (unit_BA op a b) = wrapU 4 b.
Proof.
  intros. unfold INST_B. change 12 with (8 + 4).
  rewrite <- Z.shiftr_shiftr, unit_BA_AA, (field_div 8) by done.
  apply field_div; [done|]. by apply wrapU_range.
Qed.

Lemma opcode_of_unit op x : inU 8 op -> op <> 0xff -> dexOpcodeFromCodeUnit (op + x * 256) = op.
Proof.
  unfold dexOpcodeFromCodeUnit, inU. intros Hop Hff. rewrite land_ff. change (2 ^ 8) with 256 in *.
  rewrite Z.mod_add, Z.mod_small by lia. destruct (Z.eqb_spec op 0xff); done.
Qed.

Lemma ext_wrap w x : 0 < w <= 32 -> inS w x -> u32 (wrapS w (wrapU w x)) = u32 x.
Proof. intros Hw Hx. rewrite wrapS_wrapU by lia. by rewrite wrapS_id by (try lia; done). Qed.

Lemma ext4_unit x : inS 4 x -> ext4 (wrapU 4 x) = u32 x.
Proof.
  intros Hx. unfold ext4. rewrite sign_extend by lia. change (32 - 28) with 4. by apply ext_wrap.
Qed.

Lemma FETCH_u4_units x r : FETCH_u4 (u16 x :: u16 (x / 2 ^ 16) :: r) 0 = Some (u32 x).
Proof.
  unfold FETCH_u4. cbn [lookup list_lookup mbind option_bind]. f_equal.
  pose proof (wrapU_range 16 ltac:(lia) x). pose proof (wrapU_range 16 ltac:(lia) (x / 2 ^ 16)).
  unfold inU in *.
  assert (E : u32 (Z.shiftl (u16 (x / 2 ^ 16)) 16) = Z.shiftl (u16 (x / 2 ^ 16)) 16).
  { apply wrapU_id. unfold inU. rewrite Z.shiftl_mul_pow2 by lia. lia. }
  rewrite E, lor_shiftl_add by lia. unfold wrapU. change (2 ^ 32) with (2 ^ 16 * 2 ^ 16).
  rewrite Z.rem_mul_r by lia. ring.
Qed.

Lemma length_units n x : length (units n x) = n.
Proof. revert x. induction n; intros; cbn; [done|]. by rewrite IHn. Qed.

Lemma unit_AA_packed op a : inU 8 op -> op <> 0xff -> dexOpcodeFromCodeUnit (unit_AA op a) = op.
Proof. by apply opcode_of_unit. Qed.

Lemma unit_BA_packed op a b : inU 8 op -> op <> 0xff -> dexOpcodeFromCodeUnit (unit_BA op a b) = op.
Proof. rewrite unit_BA_AA. by apply opcode_of_unit. Qed.

Lemma unit_op_packed op : inU 8 op -> op <> 0xff -> dexOpcodeFromCodeUnit op = op.
Proof. intros. rewrite <- (opcode_of_unit op 0) at 2 by done. f_equal. lia. Qed.

(** Every encoding starts with a unit of its opcode. *)
Lemma encode_head f op o : inU 8 op -> op <> 0xff -> fits f o ->
  exists inst l, encode f op o = inst :: l /\ dexOpcodeFromCodeUnit inst = op.
Proof.
  intros Hop Hff Hfit. destruct o as [a b c r].
  destruct f; cbn in Hfit; try done; cbn [encode app].
  all: eexists _, _; split; [reflexivity|].
  all: first [by apply unit_AA_packed|by apply unit_BA_packed|by apply unit_op_packed].
Qed.

Lemma encode_length f op o : fits f o -> Z.of_nat (length (encode f op o)) = fmt_units f.
Proof. intros Hfit. destruct o as [a b c r]. by destruct f. Qed.

(** A number in a field that is wide enough is the number. *)
Lemma field_u32 w x : 0 < w <= 32 -> inU w x -> wrapU w x = u32 x.
Proof.
  intros Hw Hx. rewrite !wrapU_id; [done| |done]. unfold inU in *.
  pose proof (Z.pow_le_mono_r 2 w 32). lia.
Qed.

Lemma ext8_unit x : inS 8 x -> ext8 (u8 x) = u32 x.
Proof. by apply ext_wrap. Qed.

Lemma ext16_unit x : inS 16 x -> ext16 (u16 x) = u32 x.
Proof. by apply ext_wrap. Qed.

Lemma pair_low b c : Z.land (u8 b + u8 c * 256) 0xff = u8 b.
Proof. rewrite land_ff. apply (field_mod 8); [done|by apply wrapU_range]. Qed.

Lemma pair_high b c : Z.shiftr (u8 b + u8 c * 256) 8 = u8 c.
Proof. apply (field_div 8); [done|by apply wrapU_range]. Qed.

(** The 64 bits of the wide format, fetched as two times 32. *)
Lemma wide_units x : Z.lor (u32 x) (Z.shiftl (u32 (x / 2 ^ 16 / 2 ^ 16)) 32) = u64 x.
Proof.
  pose proof (wrapU_range 32 ltac:(lia) x) as H. unfold inU in H. rewrite lor_shiftl_add by lia.
  rewrite Z.div_div by lia. unfold wrapU. change (2 ^ 64) with (2 ^ 32 * 2 ^ 32).
  rewrite Z.rem_mul_r by lia. change (2 ^ 16 * 2 ^ 16) with (2 ^ 32). ring.
Qed.

(** *** The list of registers *)

Lemma reg_range r i : Forall (inU 4) r -> inU 4 (reg r i).
Proof.
  intros H. unfold reg. destruct (r !! i) eqn:E; cbn; [by eapply Forall_lookup_1|unfold inU; lia].
Qed.

Lemma regList_fields r : Forall (inU 4) r ->
  let regList := reg r 0 + reg r 1 * 16 + reg r 2 * 256 + reg r 3 * 4096 in
  Z.land regList 0x0f = reg r 0 /\ Z.land (Z.shiftr regList 4) 0x0f = reg r 1 /\
  Z.land (Z.shiftr regList 8) 0x0f = reg r 2 /\ Z.land (Z.shiftr regList 12) 0x0f = reg r 3.
Proof.
  intros Hr. cbn zeta. rewrite !land_f.
  pose proof (reg_range r 0 Hr) as H0. pose proof (reg_range r 1 Hr) as H1.
  pose proof (reg_range r 2 Hr) as H2. pose proof (reg_range r 3 Hr) as H3.
  replace (reg r 0 + reg r 1 * 16 + reg r 2 * 256 + reg r 3 * 4096)
    with (reg r 0 + (reg r 1 + (reg r 2 + reg r 3 * 2 ^ 4) * 2 ^ 4) * 2 ^ 4) by ring.
  split; [by apply field_mod|].
  rewrite (field_div 4) by done. split; [by apply field_mod|].
  change 12 with (4 + (4 + 4)). change 8 with (4 + 4). rewrite <- !Z.shiftr_shiftr by done.
  rewrite !(field_div 4) by done. split; [by apply field_mod|]. unfold inU in H3. by apply Z.mod_small.
Qed.

Lemma decode_args_encode f op r d : inU 8 op -> length d.(arg) = 5%nat ->
  (length r <= if decide (f = kFmt35mi) then 4 else 5)%nat -> Forall (inU 4) r ->
  let n := wrapU 4 (Z.of_nat (length r)) in
  decode_args f (unit_BA op (reg r 4) (Z.of_nat (length r)))
    (reg r 0 + reg r 1 * 16 + reg r 2 * 256 + reg r 3 * 4096) n d =
  (Decoded, DI d.(vA) d.(vB) d.(vB_wide) (default d.(vC) (head r))
              (r ++ drop (length r) d.(arg)) d.(opcode) d.(indexType)).
Proof.
  intros Hop Hd Hl Hr. destruct (regList_fields r Hr) as (E0 & E1 & E2 & E3). cbn zeta in *.
  destruct d as [a b w c args op' ix]. cbn in Hd.
  destruct args as [|x0 [|x1 [|x2 [|x3 [|x4 [|]]]]]]; try done.
  unfold decode_args, args_case4, args_case3, args_case2, args_case1.
  rewrite INST_A_unit, E0, E1, E2, E3 by done.
  rewrite (wrapU_id 4 (reg r 4)) by (by apply reg_range).
  destruct r as [|r0 [|r1 [|r2 [|r3 [|r4 [|]]]]]]; cbn; try done; case_decide; cbn in Hl;
    first [done|lia].
Qed.

Lemma count_field f (r : list Z) : (length r <= if decide (f = kFmt35mi) then 4 else 5)%nat ->
  wrapU 4 (Z.of_nat (length r)) = Z.of_nat (length r).
Proof. intros. apply wrapU_id. unfold inU. change (2 ^ 4) with 16. case_decide; lia. Qed.

Lemma FETCH_cons h l n : FETCH (h :: l) (S n) = FETCH l n.
Proof. reflexivity. Qed.

Lemma FETCH_here h l : FETCH (h :: l) 0 = Some h.
Proof. reflexivity. Qed.

Lemma FETCH_u4_cons h l n : FETCH_u4 (h :: l) (S n) = FETCH_u4 l n.
Proof. reflexivity. Qed.

Create Rewrite HintDb decode_rw.
#[export] Hint Rewrite FETCH_cons FETCH_here FETCH_u4_cons FETCH_u4_units : decode_rw.
#[export] Hint Rewrite INST_AA_unit INST_A_unit INST_B_unit ext8_unit ext16_unit ext4_unit
  pair_low pair_high wide_units using assumption : decode_rw.

(** [fields] turns what is stored for a field that fits into its [u4]. *)
Ltac fields := repeat match goal with
  | H : inU ?w ?x |- context [wrapU ?w ?x] =>
      lazymatch w with 32 => fail | 64 => fail | _ => rewrite (field_u32 w x ltac:(lia) H) end
  end.

Ltac decode_step := autorewrite with decode_rw; cbn [mbind option_bind units app].

(** The formats with a list of registers. *)
Lemma decode_35 f op b r d : f = kFmt35c \/ f = kFmt35ms \/ f = kFmt35mi ->
  inU 8 op -> length d.(arg) = 5%nat -> inU 16 b ->
  (length r <= if decide (f = kFmt35mi) then 4 else 5)%nat -> Forall (inU 4) r -> forall rest,
  let inst := unit_BA op (reg r 4) (Z.of_nat (length r)) in
  decode_format f inst (inst :: (u16 b :: [reg r 0 + reg r 1 * 16 + reg r 2 * 256 + reg r 3 * 4096]) ++ rest) d =
  Some (Decoded, decoded f (OPS 0 b 0 r) d).
Proof.
  intros Hf Hop Hd Hb Hl Hr rest inst.
  assert (E : decode_format f inst
      (inst :: (u16 b :: [reg r 0 + reg r 1 * 16 + reg r 2 * 256 + reg r 3 * 4096]) ++ rest) d =
    Some (decode_args f inst (reg r 0 + reg r 1 * 16 + reg r 2 * 256 + reg r 3 * 4096) (INST_B inst)
      (set_vB (u16 b) (set_vA (INST_B inst) d)))).
  { by destruct Hf as [->|[->| ->]]. }
  rewrite E. unfold inst at 2 3. rewrite INST_B_unit by done. unfold inst.
  rewrite decode_args_encode by done. rewrite (count_field f) by done. fields.
  by destruct Hf as [->|[->| ->]].
Qed.

Lemma decode_format_encode f op o rest d inst l : inU 8 op -> length d.(arg) = 5%nat -> fits f o ->
  encode f op o = inst :: l ->
  decode_format f inst (inst :: l ++ rest) d = Some (Decoded, decoded f o d).
Proof.
  intros Hop Hd Hfit. destruct o as [a b c r].
  destruct f; cbn [fits] in Hfit; try done; repeat match goal with H : _ /\ _ |- _ => destruct H end.
  all: cbn [encode units app]; intros [= <- <-].
  all: try (apply decode_35; [tauto|done..]).
  all: cbn [decode_format decoded app]; do 3 decode_step; fields; reflexivity.
Qed.

(** C38. Decoding what was encoded: for every packed opcode with a format, and
    operands that fit the format, the decoder returns normally on the encoding
    followed by anything, with the opcode, its index type, and the operands in their
    fields, sign-extended where the format says so; it touches no other field. The
    width of the instruction is the length of its encoding. *)
Theorem decode_encode f ix op o rest d : dexGetFormatFromOpcode op = Some f ->
  dexGetIndexTypeFromOpcode op = Some ix -> length d.(arg) = 5%nat -> fits f o ->
  dexDecodeInstruction (encode f op o ++ rest) d =
    Some (Decoded, decoded f o (set_indexType ix (set_opcode op d))) /\
  (is_signature (default 0 (head (encode f op o))) = false ->
    dexGetWidthFromInstruction (encode f op o ++ rest) = Some (Z.of_nat (length (encode f op o)))).
Proof.
  intros Hf Hix Hd Hfit. pose proof (from_table_packed _ _ _ Hf) as Hop. unfold kNumPackedOpcodes in Hop.
  assert (Hff : op <> 0xff).
  { intros ->. vm_compute in Hf. injection Hf as <-. by destruct o. }
  assert (Hop8 : inU 8 op) by (unfold inU; change (2 ^ 8) with 256; lia).
  destruct (encode_head f op o Hop8 Hff Hfit) as (inst & l & E & Ei). split.
  - rewrite E. cbn [app]. rewrite (decode_of_format inst (l ++ rest) d f ix) by (by rewrite Ei).
    rewrite Ei. by apply decode_format_encode with op.
  - rewrite (encode_length f op o Hfit), E. cbn [head default from_option app]. intros Hs.
    rewrite width_of_instruction, Ei by done.
    destruct (packed_entries op ltac:(unfold kNumPackedOpcodes; lia)) as (f' & _ & Hf' & _ & ->). congruence.
Qed.

Lemma decode_encode_witness :
  let d := DI 7 7 7 7 [7; 7; 7; 7; 7] 7 kIndexUnknown in
  let o := OPS 0 0x1234 0 [3; 1; 4] in
  dexGetFormatFromOpcode 0x6e = Some kFmt35c /\
  encode kFmt35c 0x6e o = [0x306e; 0x1234; 0x413] /\
  (dexDecodeInstruction (encode kFmt35c 0x6e o ++ []) d =
     Some (Decoded, decoded kFmt35c o (set_indexType kIndexMethodRef (set_opcode 0x6e d))) /\
   (is_signature (default 0 (head (encode kFmt35c 0x6e o))) = false ->
    dexGetWidthFromInstruction (encode kFmt35c 0x6e o ++ []) =
      Some (Z.of_nat (length (encode kFmt35c 0x6e o))))).
Proof.
  intros d o. split; [vm_compute; reflexivity|]. split; [vm_compute; reflexivity|].
  apply decode_encode; [vm_compute; reflexivity|vm_compute; reflexivity|reflexivity|].
  split; [unfold inU; lia|]. split; [cbn; lia|]. repeat constructor; unfold inU; lia.
Defined.

(** ** Data tables

    The tables of the switch instructions and of [fill-array-data] stand among the
    instructions, after an [OP_NOP] unit whose high byte tells them apart. *)

Inductive data_table :=
  | PackedSwitch (first_key : Z) (targets : list Z)
  | SparseSwitch (entries : list (Z * Z))
  | ArrayData (elemWidth len : Z) (data : list Z).

(** Two bytes of [data] to a code unit. *)
Fixpoint pack_bytes (data : list Z) : list Z :=
  match data with
  | b0 :: b1 :: data => (b0 + b1 * 256) :: pack_bytes data
  | [b0] => [b0]
  | [] => []
  end.

Definition encode_table (t : data_table) : list Z :=
  match t with
  | PackedSwitch k ts =>
      kPackedSwitchSignature :: units 1 (Z.of_nat (length ts)) ++ units 2 k ++ concat (units 2 <$> ts)
  | SparseSwitch es =>
      kSparseSwitchSignature :: units 1 (Z.of_nat (length es)) ++
      concat ((fun e => units 2 (fst e)) <$> es) ++ concat ((fun e => units 2 (snd e)) <$> es)
  | ArrayData w n data => kArrayDataSignature :: units 1 w ++ units 2 n ++ pack_bytes data
  end.

Definition table_fits (t : data_table) : Prop :=
  match t with
  | PackedSwitch _ ts => inU 16 (Z.of_nat (length ts))
  | SparseSwitch es => inU 16 (Z.of_nat (length es))
  | ArrayData w n data => inU 16 w /\ inU 32 n /\ Z.of_nat (length data) = w * n
  end.

Lemma length_concat_const {A} n (g : A -> list Z) (l : list A) : (forall x, length (g x) = n) ->
  length (concat (g <$> l)) = (n * length l)%nat.
Proof.
  intros Hg. induction l as [|x l IH]; [simpl; lia|]. cbn [fmap list_fmap concat].
  rewrite length_app, Hg, IH. cbn [length]. lia.
Qed.

Lemma pack_bytes_length data :
  Z.of_nat (length (pack_bytes data)) = (Z.of_nat (length data) + 1) / 2.
Proof.
  remember (length data) as n eqn:E. revert data E.
  induction n as [n IH] using lt_wf_ind. intros data ->.
  destruct data as [|b0 [|b1 data]]; [done..|].
  cbn [pack_bytes length]. rewrite !Nat2Z.inj_succ, (IH (length data)) by (cbn; done || lia).
  replace (Z.succ (Z.succ (Z.of_nat (length data))) + 1) with (Z.of_nat (length data) + 1 + 1 * 2) by lia.
  rewrite Z.div_add by lia. lia.
Qed.

Ltac table_head :=
  cbn [units app FETCH lookup list_lookup mbind option_bind kArrayDataSignature
       kPackedSwitchSignature kSparseSwitchSignature Z.eqb Pos.eqb length].

Lemma table_width_array w n data rest : inU 16 w -> inU 32 n ->
  dexGetWidthFromInstruction (encode_table (ArrayData w n data) ++ rest) =
  Some (u32 (4 + u32 (w * n + 1) / 2)).
Proof.
  intros Hw Hn. pose proof (FETCH_u4_units n []) as E. unfold FETCH_u4 in E. cbn [lookup list_lookup mbind option_bind] in E.
  injection E as E. unfold dexGetWidthFromInstruction.
  unfold encode_table. table_head.
  rewrite E, (wrapU_id 16 w), (wrapU_id 32 n), (wrapU_add_l 32) by done. reflexivity.
Qed.

(** The width computed for a data table is the number of its code units: four
    and two a target for a packed switch, two and four an entry for a sparse one, and
    for array data four and its bytes two to a unit, rounded up, as long as the
    number of the bytes and one more fit 32 bits. *)
Theorem data_table_width t rest : table_fits t ->
  match t with ArrayData w n _ => w * n + 1 < 2 ^ 32 | _ => True end ->
  dexGetWidthFromInstruction (encode_table t ++ rest) = Some (Z.of_nat (length (encode_table t))).
Proof.
  intros Hfit Hno. destruct t as [k ts|es|w n data]; cbn [table_fits] in Hfit.
  - unfold dexGetWidthFromInstruction, encode_table. table_head.
    rewrite (wrapU_id 16) by done. unfold inU in Hfit. f_equal.
    rewrite wrapU_id by (unfold inU; lia). rewrite (length_concat_const 2) by done. lia.
  - unfold dexGetWidthFromInstruction, encode_table. table_head.
    rewrite (wrapU_id 16) by done. unfold inU in Hfit. f_equal.
    rewrite wrapU_id by (unfold inU; lia). rewrite length_app, !(length_concat_const 2) by done. lia.
  - destruct Hfit as (Hw & Hn & Hlen). rewrite table_width_array by done. f_equal.
    unfold inU in *. assert (0 <= w * n) by nia.
    rewrite (wrapU_id 32 (w * n + 1)) by (unfold inU; lia). rewrite wrapU_id.
    + cbn [encode_table units app length]. rewrite !Nat2Z.inj_succ, pack_bytes_length, Hlen. lia.
    + unfold inU. split; [|apply Z.lt_le_trans with (4 + 2 ^ 31)]; [|apply Z.add_lt_mono_l|lia].
      * pose proof (Z.div_pos (w * n + 1) 2). lia.
      * apply Z.div_lt_upper_bound; lia.
Qed.

Lemma data_table_width_witness :
  dexGetWidthFromInstruction (encode_table (ArrayData 1 3 [7; 8; 9]) ++ [0x0e]) = Some 6.
Proof.
  refine (eq_trans (data_table_width (ArrayData 1 3 [7; 8; 9]) [0x0e] _ _) _).
  - split; [unfold inU; lia|]. split; [unfold inU; lia|reflexivity].
  - lia.
  - vm_compute. reflexivity.
Defined.

(** Past that bound the product wraps around: array data of 2^30 words is given the
    width of an empty table. *)
Lemma array_data_width_wraps data rest :
  dexGetWidthFromInstruction (encode_table (ArrayData 4 (2 ^ 30) data) ++ rest) = Some 4.
Proof. rewrite table_width_array by (unfold inU; lia). reflexivity. Qed.
