(* ===== verification/Opcodes.v ===== *)
(** * The opcodes: [dalvik/libdex/DexOpcodes.h]

    The constants of the enumeration [Opcode]. *)

From S2P Require Import Prelude.

Definition OP_NOP : Z := 0x00.
Definition OP_MOVE : Z := 0x01.
Definition OP_MOVE_FROM16 : Z := 0x02.
Definition OP_MOVE_16 : Z := 0x03.
Definition OP_MOVE_WIDE : Z := 0x04.
Definition OP_MOVE_WIDE_FROM16 : Z := 0x05.
Definition OP_MOVE_WIDE_16 : Z := 0x06.
Definition OP_MOVE_OBJECT : Z := 0x07.
Definition OP_MOVE_OBJECT_FROM16 : Z := 0x08.
Definition OP_MOVE_OBJECT_16 : Z := 0x09.
Definition OP_MOVE_RESULT : Z := 0x0a.
Definition OP_MOVE_RESULT_WIDE : Z := 0x0b.
Definition OP_MOVE_RESULT_OBJECT : Z := 0x0c.
Definition OP_MOVE_EXCEPTION : Z := 0x0d.
Definition OP_RETURN_VOID : Z := 0x0e.
Definition OP_RETURN : Z := 0x0f.
Definition OP_RETURN_WIDE : Z := 0x10.
Definition OP_RETURN_OBJECT : Z := 0x11.
Definition OP_CONST_4 : Z := 0x12.
Definition OP_CONST_16 : Z := 0x13.
Definition OP_CONST : Z := 0x14.
Definition OP_CONST_HIGH16 : Z := 0x15.
Definition OP_CONST_WIDE_16 : Z := 0x16.
Definition OP_CONST_WIDE_32 : Z := 0x17.
Definition OP_CONST_WIDE : Z := 0x18.
Definition OP_CONST_WIDE_HIGH16 : Z := 0x19.
Definition OP_CONST_STRING : Z := 0x1a.
Definition OP_CONST_STRING_JUMBO : Z := 0x1b.
Definition OP_CONST_CLASS : Z := 0x1c.
Definition OP_MONITOR_ENTER : Z := 0x1d.
Definition OP_MONITOR_EXIT : Z := 0x1e.
Definition OP_CHECK_CAST : Z := 0x1f.
Definition OP_INSTANCE_OF : Z := 0x20.
Definition OP_ARRAY_LENGTH : Z := 0x21.
Definition OP_NEW_INSTANCE : Z := 0x22.
Definition OP_NEW_ARRAY : Z := 0x23.
Definition OP_FILLED_NEW_ARRAY : Z := 0x24.
Definition OP_FILLED_NEW_ARRAY_RANGE : Z := 0x25.
Definition OP_FILL_ARRAY_DATA : Z := 0x26.
Definition OP_THROW : Z := 0x27.
Definition OP_GOTO : Z := 0x28.
Definition OP_GOTO_16 : Z := 0x29.
Definition OP_GOTO_32 : Z := 0x2a.
Definition OP_PACKED_SWITCH : Z := 0x2b.
Definition OP_SPARSE_SWITCH : Z := 0x2c.
Definition OP_CMPL_FLOAT : Z := 0x2d.
Definition OP_CMPG_FLOAT : Z := 0x2e.
Definition OP_CMPL_DOUBLE : Z := 0x2f.
Definition OP_CMPG_DOUBLE : Z := 0x30.
Definition OP_CMP_LONG : Z := 0x31.
Definition OP_IF_EQ : Z := 0x32.
Definition OP_IF_NE : Z := 0x33.
Definition OP_IF_LT : Z := 0x34.
Definition OP_IF_GE : Z := 0x35.
Definition OP_IF_GT : Z := 0x36.
Definition OP_IF_LE : Z := 0x37.
Definition OP_IF_EQZ : Z := 0x38.
Definition OP_IF_NEZ : Z := 0x39.
Definition OP_IF_LTZ : Z := 0x3a.
Definition OP_IF_GEZ : Z := 0x3b.
Definition OP_IF_GTZ : Z := 0x3c.
Definition OP_IF_LEZ : Z := 0x3d.
Definition OP_UNUSED_3E : Z := 0x3e.
Definition OP_UNUSED_3F : Z := 0x3f.
Definition OP_UNUSED_40 : Z := 0x40.
Definition OP_UNUSED_41 : Z := 0x41.
Definition OP_UNUSED_42 : Z := 0x42.
Definition OP_UNUSED_43 : Z := 0x43.
Definition OP_AGET : Z := 0x44.
Definition OP_AGET_WIDE : Z := 0x45.
Definition OP_AGET_OBJECT : Z := 0x46.
Definition OP_AGET_BOOLEAN : Z := 0x47.
Definition OP_AGET_BYTE : Z := 0x48.
Definition OP_AGET_CHAR : Z := 0x49.
Definition OP_AGET_SHORT : Z := 0x4a.
Definition OP_APUT : Z := 0x4b.
Definition OP_APUT_WIDE : Z := 0x4c.
Definition OP_APUT_OBJECT : Z := 0x4d.
Definition OP_APUT_BOOLEAN : Z := 0x4e.
Definition OP_APUT_BYTE : Z := 0x4f.
Definition OP_APUT_CHAR : Z := 0x50.
Definition OP_APUT_SHORT : Z := 0x51.
Definition OP_IGET : Z := 0x52.
Definition OP_IGET_WIDE : Z := 0x53.
Definition OP_IGET_OBJECT : Z := 0x54.
Definition OP_IGET_BOOLEAN : Z := 0x55.
Definition OP_IGET_BYTE : Z := 0x56.
Definition OP_IGET_CHAR : Z := 0x57.
Definition OP_IGET_SHORT : Z := 0x58.
Definition OP_IPUT : Z := 0x59.
Definition OP_IPUT_WIDE : Z := 0x5a.
Definition OP_IPUT_OBJECT : Z := 0x5b.
Definition OP_IPUT_BOOLEAN : Z := 0x5c.
Definition OP_IPUT_BYTE : Z := 0x5d.
Definition OP_IPUT_CHAR : Z := 0x5e.
Definition OP_IPUT_SHORT : Z := 0x5f.
Definition OP_SGET : Z := 0x60.
Definition OP_SGET_WIDE : Z := 0x61.
Definition OP_SGET_OBJECT : Z := 0x62.
Definition OP_SGET_BOOLEAN : Z := 0x63.
Definition OP_SGET_BYTE : Z := 0x64.
Definition OP_SGET_CHAR : Z := 0x65.
Definition OP_SGET_SHORT : Z := 0x66.
Definition OP_SPUT : Z := 0x67.
Definition OP_SPUT_WIDE : Z := 0x68.
Definition OP_SPUT_OBJECT : Z := 0x69.
Definition OP_SPUT_BOOLEAN : Z := 0x6a.
Definition OP_SPUT_BYTE : Z := 0x6b.
Definition OP_SPUT_CHAR : Z := 0x6c.
Definition OP_SPUT_SHORT : Z := 0x6d.
Definition OP_INVOKE_VIRTUAL : Z := 0x6e.
Definition OP_INVOKE_SUPER : Z := 0x6f.
Definition OP_INVOKE_DIRECT : Z := 0x70.
Definition OP_INVOKE_STATIC : Z := 0x71.
Definition OP_INVOKE_INTERFACE : Z := 0x72.
Definition OP_UNUSED_73 : Z := 0x73.
Definition OP_INVOKE_VIRTUAL_RANGE : Z := 0x74.
Definition OP_INVOKE_SUPER_RANGE : Z := 0x75.
Definition OP_INVOKE_DIRECT_RANGE : Z := 0x76.
Definition OP_INVOKE_STATIC_RANGE : Z := 0x77.
Definition OP_INVOKE_INTERFACE_RANGE : Z := 0x78.
Definition OP_UNUSED_79 : Z := 0x79.
Definition OP_UNUSED_7A : Z := 0x7a.
Definition OP_NEG_INT : Z := 0x7b.
Definition OP_NOT_INT : Z := 0x7c.
Definition OP_NEG_LONG : Z := 0x7d.
Definition OP_NOT_LONG : Z := 0x7e.
Definition OP_NEG_FLOAT : Z := 0x7f.
Definition OP_NEG_DOUBLE : Z := 0x80.
Definition OP_INT_TO_LONG : Z := 0x81.
Definition OP_INT_TO_FLOAT : Z := 0x82.
Definition OP_INT_TO_DOUBLE : Z := 0x83.
Definition OP_LONG_TO_INT : Z := 0x84.
Definition OP_LONG_TO_FLOAT : Z := 0x85.
Definition OP_LONG_TO_DOUBLE : Z := 0x86.
Definition OP_FLOAT_TO_INT : Z := 0x87.
Definition OP_FLOAT_TO_LONG : Z := 0x88.
Definition OP_FLOAT_TO_DOUBLE : Z := 0x89.
Definition OP_DOUBLE_TO_INT : Z := 0x8a.
Definition OP_DOUBLE_TO_LONG : Z := 0x8b.
Definition OP_DOUBLE_TO_FLOAT : Z := 0x8c.
Definition OP_INT_TO_BYTE : Z := 0x8d.
Definition OP_INT_TO_CHAR : Z := 0x8e.
Definition OP_INT_TO_SHORT : Z := 0x8f.
Definition OP_ADD_INT : Z := 0x90.
Definition OP_SUB_INT : Z := 0x91.
Definition OP_MUL_INT : Z := 0x92.
Definition OP_DIV_INT : Z := 0x93.
Definition OP_REM_INT : Z := 0x94.
Definition OP_AND_INT : Z := 0x95.
Definition OP_OR_INT : Z := 0x96.
Definition OP_XOR_INT : Z := 0x97.
Definition OP_SHL_INT : Z := 0x98.
Definition OP_SHR_INT : Z := 0x99.
Definition OP_USHR_INT : Z := 0x9a.
Definition OP_ADD_LONG : Z := 0x9b.
Definition OP_SUB_LONG : Z := 0x9c.
Definition OP_MUL_LONG : Z := 0x9d.
Definition OP_DIV_LONG : Z := 0x9e.
Definition OP_REM_LONG : Z := 0x9f.
Definition OP_AND_LONG : Z := 0xa0.
Definition OP_OR_LONG : Z := 0xa1.
Definition OP_XOR_LONG : Z := 0xa2.
Definition OP_SHL_LONG : Z := 0xa3.
Definition OP_SHR_LONG : Z := 0xa4.
Definition OP_USHR_LONG : Z := 0xa5.
Definition OP_ADD_FLOAT : Z := 0xa6.
Definition OP_SUB_FLOAT : Z := 0xa7.
Definition OP_MUL_FLOAT : Z := 0xa8.
Definition OP_DIV_FLOAT : Z := 0xa9.
Definition OP_REM_FLOAT : Z := 0xaa.
Definition OP_ADD_DOUBLE : Z := 0xab.
Definition OP_SUB_DOUBLE : Z := 0xac.
Definition OP_MUL_DOUBLE : Z := 0xad.
Definition OP_DIV_DOUBLE : Z := 0xae.
Definition OP_REM_DOUBLE : Z := 0xaf.
Definition OP_ADD_INT_2ADDR : Z := 0xb0.
Definition OP_SUB_INT_2ADDR : Z := 0xb1.
Definition OP_MUL_INT_2ADDR : Z := 0xb2.
Definition OP_DIV_INT_2ADDR : Z := 0xb3.
Definition OP_REM_INT_2ADDR : Z := 0xb4.
Definition OP_AND_INT_2ADDR : Z := 0xb5.
Definition OP_OR_INT_2ADDR : Z := 0xb6.
Definition OP_XOR_INT_2ADDR : Z := 0xb7.
Definition OP_SHL_INT_2ADDR : Z := 0xb8.
Definition OP_SHR_INT_2ADDR : Z := 0xb9.
Definition OP_USHR_INT_2ADDR : Z := 0xba.
Definition OP_ADD_LONG_2ADDR : Z := 0xbb.
Definition OP_SUB_LONG_2ADDR : Z := 0xbc.
Definition OP_MUL_LONG_2ADDR : Z := 0xbd.
Definition OP_DIV_LONG_2ADDR : Z := 0xbe.
Definition OP_REM_LONG_2ADDR : Z := 0xbf.
Definition OP_AND_LONG_2ADDR : Z := 0xc0.
Definition OP_OR_LONG_2ADDR : Z := 0xc1.
Definition OP_XOR_LONG_2ADDR : Z := 0xc2.
Definition OP_SHL_LONG_2ADDR : Z := 0xc3.
Definition OP_SHR_LONG_2ADDR : Z := 0xc4.
Definition OP_USHR_LONG_2ADDR : Z := 0xc5.
Definition OP_ADD_FLOAT_2ADDR : Z := 0xc6.
Definition OP_SUB_FLOAT_2ADDR : Z := 0xc7.
Definition OP_MUL_FLOAT_2ADDR : Z := 0xc8.
Definition OP_DIV_FLOAT_2ADDR : Z := 0xc9.
Definition OP_REM_FLOAT_2ADDR : Z := 0xca.
Definition OP_ADD_DOUBLE_2ADDR : Z := 0xcb.
Definition OP_SUB_DOUBLE_2ADDR : Z := 0xcc.
Definition OP_MUL_DOUBLE_2ADDR : Z := 0xcd.
Definition OP_DIV_DOUBLE_2ADDR : Z := 0xce.
Definition OP_REM_DOUBLE_2ADDR : Z := 0xcf.
Definition OP_ADD_INT_LIT16 : Z := 0xd0.
Definition OP_RSUB_INT : Z := 0xd1.
Definition OP_MUL_INT_LIT16 : Z := 0xd2.
Definition OP_DIV_INT_LIT16 : Z := 0xd3.
Definition OP_REM_INT_LIT16 : Z := 0xd4.
Definition OP_AND_INT_LIT16 : Z := 0xd5.
Definition OP_OR_INT_LIT16 : Z := 0xd6.
Definition OP_XOR_INT_LIT16 : Z := 0xd7.
Definition OP_ADD_INT_LIT8 : Z := 0xd8.
Definition OP_RSUB_INT_LIT8 : Z := 0xd9.
Definition OP_MUL_INT_LIT8 : Z := 0xda.
Definition OP_DIV_INT_LIT8 : Z := 0xdb.
Definition OP_REM_INT_LIT8 : Z := 0xdc.
Definition OP_AND_INT_LIT8 : Z := 0xdd.
Definition OP_OR_INT_LIT8 : Z := 0xde.
Definition OP_XOR_INT_LIT8 : Z := 0xdf.
Definition OP_SHL_INT_LIT8 : Z := 0xe0.
Definition OP_SHR_INT_LIT8 : Z := 0xe1.
Definition OP_USHR_INT_LIT8 : Z := 0xe2.
Definition OP_IGET_VOLATILE : Z := 0xe3.
Definition OP_IPUT_VOLATILE : Z := 0xe4.
Definition OP_SGET_VOLATILE : Z := 0xe5.
Definition OP_SPUT_VOLATILE : Z := 0xe6.
Definition OP_IGET_OBJECT_VOLATILE : Z := 0xe7.
Definition OP_IGET_WIDE_VOLATILE : Z := 0xe8.
Definition OP_IPUT_WIDE_VOLATILE : Z := 0xe9.
Definition OP_SGET_WIDE_VOLATILE : Z := 0xea.
Definition OP_SPUT_WIDE_VOLATILE : Z := 0xeb.
Definition OP_BREAKPOINT : Z := 0xec.
Definition OP_THROW_VERIFICATION_ERROR : Z := 0xed.
Definition OP_EXECUTE_INLINE : Z := 0xee.
Definition OP_EXECUTE_INLINE_RANGE : Z := 0xef.
Definition OP_INVOKE_OBJECT_INIT_RANGE : Z := 0xf0.
Definition OP_RETURN_VOID_BARRIER : Z := 0xf1.
Definition OP_IGET_QUICK : Z := 0xf2.
Definition OP_IGET_WIDE_QUICK : Z := 0xf3.
Definition OP_IGET_OBJECT_QUICK : Z := 0xf4.
Definition OP_IPUT_QUICK : Z := 0xf5.
Definition OP_IPUT_WIDE_QUICK : Z := 0xf6.
Definition OP_IPUT_OBJECT_QUICK : Z := 0xf7.
Definition OP_INVOKE_VIRTUAL_QUICK : Z := 0xf8.
Definition OP_INVOKE_VIRTUAL_QUICK_RANGE : Z := 0xf9.
Definition OP_INVOKE_SUPER_QUICK : Z := 0xfa.
Definition OP_INVOKE_SUPER_QUICK_RANGE : Z := 0xfb.
Definition OP_IPUT_OBJECT_VOLATILE : Z := 0xfc.
Definition OP_SGET_OBJECT_VOLATILE : Z := 0xfd.
Definition OP_SPUT_OBJECT_VOLATILE : Z := 0xfe.
Definition OP_UNUSED_FF : Z := 0xff.
