(* ===== verification/SwitchData.v ===== *)
(** * Switch tables: the handlers of [dalvik/vm/interp/Interp.cpp]

    [dvmInterpHandlePackedSwitch] and [dvmInterpHandleSparseSwitch] find the branch
    of a switch instruction for a value. The pointer to the table is the list of the
    code units from it on; reading past its end, the signed overflow of an [int] and a
    failed assertion (which a build with [NDEBUG] has not) are [None]. The assertions on
    the alignment of the table in memory are left out. *)

From S2P Require Import Prelude Bits Search OpcodeTables InstrUtils.

(** ** The handlers *)

(** [p + n] on pointers to code units. *)
Definition unit_ptr (p : list Z) (n : Z) : list Z := drop (Z.to_nat n) p.

(** [lo | (hi << 16)], as an [int]. *)
Definition s4_of (lo hi : Z) : Z := Z.lor lo (s32 (Z.shiftl hi 16)).

(** Two code units read as a little-endian [s4]. *)
Definition s4FromSwitchData (switchData : list Z) : option Z :=
  match switchData with
  | lo :: hi :: _ => Some (s32 (lo + hi * 2 ^ 16))
  | _ => None
  end.

Definition kInstrLen : Z := 3.

(** How a handler returns: the offset, and whether an internal error was thrown. *)
Record switch_end := SwitchEnd { branch : Z; thrown : bool }.

Definition dvmInterpHandlePackedSwitch (NDEBUG : bool) (switchData : list Z) (testVal : Z) : option switch_end :=
  ident ← aref switchData 0;
  if negb (ident =? kPackedSwitchSignature) then Some (SwitchEnd kInstrLen true)
  else
    size ← aref switchData 1;
    if negb NDEBUG && negb (size >? 0) then None else
    lo ← aref switchData 2;
    hi ← aref switchData 3;
    let firstKey := s4_of lo hi in
    index ← chkS 32 (testVal - firstKey);
    if (index <? 0) || (index >=? size) then Some (SwitchEnd kInstrLen false)
    else
      let entries := unit_ptr switchData 4 in
      offset ← s4FromSwitchData (unit_ptr entries (2 * index));
      Some (SwitchEnd offset false).

(** The body of the loop. *)
Definition sparse_guess (keys entries : list Z) (testVal mid : Z) : option (probe Z) :=
  foundVal ← s4FromSwitchData (unit_ptr keys (2 * mid));
  if testVal <? foundVal then Some Below
  else if testVal >? foundVal then Some Above
  else offset ← s4FromSwitchData (unit_ptr entries (2 * mid)); Some (Hit offset).

Definition dvmInterpHandleSparseSwitch (NDEBUG : bool) (switchData : list Z) (testVal : Z) : option switch_end :=
  ident ← aref switchData 0;
  if negb (ident =? kSparseSwitchSignature) then Some (SwitchEnd kInstrLen true)
  else
    size ← aref switchData 1;
    if negb NDEBUG && negb (size >? 0) then None else
    let keys := unit_ptr switchData 2 in
    let entries := unit_ptr keys (2 * size) in
    found ← search_loop (sparse_guess keys entries testVal) (Z.to_nat size) 0 (size - 1);
    Some (SwitchEnd (default kInstrLen found) false).

(** ** What a table denotes

    The branch of a value, by the list of the cases. *)
Definition packed_cases (first_key : Z) (targets : list Z) : list (Z * Z) :=
  zip (seqZ first_key (Z.of_nat (length targets))) targets.

Definition case_of (cases : list (Z * Z)) (v : Z) : option Z :=
  snd <$> List.find (fun c => c.1 =? v) cases.

(** ** Lemmas *)

Lemma s4_of_units lo hi : inU 16 lo -> s4_of lo hi = s32 (lo + hi * 2 ^ 16).
Proof.
  intros Hlo. unfold s4_of, inU in *. rewrite wrapS_shiftl by lia. rewrite lor_shiftl_add by lia.
  rewrite wrapS_field by lia. done.
Qed.

Lemma s4From_units x r : inS 32 x -> s4FromSwitchData (units 2 x ++ r) = Some x.
Proof.
  intros Hx. cbn [units app s4FromSwitchData]. f_equal. unfold wrapU.
  assert (E : x mod 2 ^ 16 + (x / 2 ^ 16) mod 2 ^ 16 * 2 ^ 16 = x mod 2 ^ 32) by dlia.
  rewrite E. change (x mod 2 ^ 32) with (u32 x). rewrite wrapS_wrapU. by apply wrapS_id.
Qed.

Lemma s4_of_unit_pair x : inS 32 x -> s4_of (u16 x) (u16 (x / 2 ^ 16)) = x.
Proof.
  intros Hx. rewrite s4_of_units by (apply wrapU_range; lia).
  pose proof (s4From_units x [] Hx) as E. cbn [units app s4FromSwitchData] in E. by injection E.
Qed.

(** The [i]-th of consecutive 32-bit values. *)
Lemma s4From_nth xs : forall i x r, xs !! i = Some x -> inS 32 x ->
  s4FromSwitchData (unit_ptr (concat (units 2 <$> xs) ++ r) (2 * Z.of_nat i)) = Some x.
Proof.
  induction xs as [|y xs IH]; intros i x r Hi Hx; [done|]. cbn [fmap list_fmap concat].
  destruct i as [|i].
  - injection Hi as ->. rewrite <- app_assoc. by apply s4From_units.
  - unfold unit_ptr. replace (Z.to_nat (2 * Z.of_nat (S i))) with (2 + Z.to_nat (2 * Z.of_nat i))%nat by lia.
    cbn [units app drop Nat.add]. by apply IH.
Qed.

Lemma units_drop xs r : unit_ptr (concat (units 2 <$> xs) ++ r) (2 * Z.of_nat (length xs)) = r.
Proof.
  unfold unit_ptr. apply drop_app_length'. rewrite (length_concat_const 2) by done. lia.
Qed.

Lemma units_app_drop n x r : drop n (units n x ++ r) = r.
Proof. apply drop_app_length'. symmetry. apply length_units. Qed.

Lemma packed_case k ts v : case_of (packed_cases k ts) v =
  if (v - k <? 0) || (v - k >=? Z.of_nat (length ts)) then None else ts !! Z.to_nat (v - k).
Proof.
  unfold packed_cases, case_of. revert k. induction ts as [|t ts IH]; intros k.
  - change (zip (seqZ k (Z.of_nat (length []))) []) with (@nil (Z * Z)).
    cbn [length List.find fmap option_fmap option_map]. rewrite Z.geb_leb. change (Z.of_nat 0) with 0.
    by destruct (Z.ltb_spec (v - k) 0), (Z.leb_spec 0 (v - k)); try lia.
  - cbn [length]. rewrite seqZ_cons by lia. cbn [zip zip_with List.find fst].
    destruct (Z.eqb_spec k v) as [->|Hne].
    + rewrite Z.sub_diag, Z.geb_leb, (proj2 (Z.leb_gt _ _)) by lia. done.
    + replace (Z.pred (Z.of_nat (S (length ts)))) with (Z.of_nat (length ts)) by lia.
      rewrite (IH (Z.succ k)). rewrite !Z.geb_leb.
      destruct (Z.ltb_spec (v - Z.succ k) 0), (Z.ltb_spec (v - k) 0); try lia; cbn [orb]; [done|].
      replace (Z.to_nat (v - k)) with (S (Z.to_nat (v - Z.succ k))) by lia. cbn [lookup list_lookup].
      by destruct (Z.leb_spec (Z.of_nat (length ts)) (v - Z.succ k)),
        (Z.leb_spec (Z.of_nat (S (length ts))) (v - k)); try lia.
Qed.

(** The keys of a sparse table, sorted low to high. *)
Definition keys_sorted (es : list (Z * Z)) : Prop :=
  forall i j a b, (i < j)%nat -> es !! i = Some a -> es !! j = Some b -> a.1 < b.1.

Definition case_fits (c : Z * Z) : Prop := inS 32 c.1 /\ inS 32 c.2.

#[export] Instance case_fits_dec c : Decision (case_fits c).
Proof. unfold case_fits. apply _. Defined.

Lemma sparse_head es rest : Z.of_nat (length es) < 2 ^ 16 ->
  aref (encode_table (SparseSwitch es) ++ rest) 0 = Some kSparseSwitchSignature /\
  aref (encode_table (SparseSwitch es) ++ rest) 1 = Some (Z.of_nat (length es)).
Proof.
  intros Hn. split; [done|]. transitivity (Some (u16 (Z.of_nat (length es)))); [done|].
  rewrite wrapU_id; [done|unfold inU; lia].
Qed.

Lemma packed_head k ts rest : inS 32 k -> Z.of_nat (length ts) < 2 ^ 16 ->
  aref (encode_table (PackedSwitch k ts) ++ rest) 0 = Some kPackedSwitchSignature /\
  aref (encode_table (PackedSwitch k ts) ++ rest) 1 = Some (Z.of_nat (length ts)) /\
  exists lo hi, aref (encode_table (PackedSwitch k ts) ++ rest) 2 = Some lo /\
    aref (encode_table (PackedSwitch k ts) ++ rest) 3 = Some hi /\ s4_of lo hi = k.
Proof.
  intros Hk Hn. split; [done|]. split.
  - transitivity (Some (u16 (Z.of_nat (length ts)))); [done|]. rewrite wrapU_id; [done|unfold inU; lia].
  - exists (u16 k), (u16 (k / 2 ^ 16)). split; [done|]. split; [done|]. by apply s4_of_unit_pair.
Qed.

Lemma packed_layout k ts rest :
  unit_ptr (encode_table (PackedSwitch k ts) ++ rest) 4 = concat (units 2 <$> ts) ++ rest.
Proof. done. Qed.

Lemma sparse_layout es rest :
  unit_ptr (encode_table (SparseSwitch es) ++ rest) 2 =
    concat (units 2 <$> es.*1) ++ concat (units 2 <$> es.*2) ++ rest.
Proof.
  unfold encode_table, unit_ptr. cbn [units app drop Z.to_nat Pos.to_nat Pos.iter_op Nat.add].
  change (Z.to_nat 2) with 2%nat. cbn [drop]. rewrite <- app_assoc, <- !list_fmap_compose. done.
Qed.

Lemma sparse_guess_spec es rest v i c : es !! i = Some c -> case_fits c ->
  sparse_guess (concat (units 2 <$> es.*1) ++ concat (units 2 <$> es.*2) ++ rest)
    (concat (units 2 <$> es.*2) ++ rest) v (Z.of_nat i) =
  Some (if v <? c.1 then Below else if v >? c.1 then Above else Hit c.2).
Proof.
  intros Hi [H1 H2]. unfold sparse_guess.
  rewrite (s4From_nth es.*1 i c.1) by (done || by rewrite list_lookup_fmap, Hi). cbn [mbind option_bind].
  destruct (v <? c.1); [done|]. destruct (v >? c.1); [done|].
  by rewrite (s4From_nth es.*2 i c.2) by (done || by rewrite list_lookup_fmap, Hi).
Qed.

Lemma entry_at {A} (l : list A) i : 0 <= i < Z.of_nat (length l) -> exists n c, i = Z.of_nat n /\ l !! n = Some c.
Proof.
  intros Hi. destruct (lookup_lt_is_Some_2 l (Z.to_nat i)) as [c Hc]; [lia|].
  exists (Z.to_nat i), c. split; [lia|done].
Qed.

Lemma sparse_searchable es rest v : keys_sorted es -> Forall case_fits es ->
  Z.of_nat (length es) < 2 ^ 16 ->
  searchable (sparse_guess (concat (units 2 <$> es.*1) ++ concat (units 2 <$> es.*2) ++ rest)
    (concat (units 2 <$> es.*2) ++ rest) v) (Z.of_nat (length es)).
Proof.
  intros Hs Hf Hn. split; [lia|..].
  - intros i (n & c & -> & Hc)%entry_at. rewrite (sparse_guess_spec es rest v n c Hc); [by eexists|].
    by eapply Forall_lookup_1.
  - intros i j Hij Hj. destruct (entry_at es i) as (n & a & -> & Ha); [lia|].
    destruct (entry_at es j) as (m & b & -> & Hb); [lia|].
    rewrite (sparse_guess_spec es rest v n a Ha), (sparse_guess_spec es rest v m b Hb) by by eapply Forall_lookup_1.
    destruct (decide (n = m)) as [->|]; [by replace b with a by congruence|].
    pose proof (Hs n m a b ltac:(lia) Ha Hb).
    destruct (Z.ltb_spec v a.1); [|by destruct (v >? a.1)]. by rewrite (proj2 (Z.ltb_lt v b.1)) by lia.
  - intros i j Hij Hj. destruct (entry_at es i) as (n & a & -> & Ha); [lia|].
    destruct (entry_at es j) as (m & b & -> & Hb); [lia|].
    rewrite (sparse_guess_spec es rest v n a Ha), (sparse_guess_spec es rest v m b Hb) by by eapply Forall_lookup_1.
    destruct (decide (n = m)) as [->|]; [by replace b with a by congruence|].
    pose proof (Hs n m a b ltac:(lia) Ha Hb). rewrite !Z.gtb_ltb.
    destruct (Z.ltb_spec v b.1); [done|]. destruct (Z.ltb_spec b.1 v); [|done].
    by rewrite (proj2 (Z.ltb_ge v a.1)), (proj2 (Z.ltb_lt a.1 v)) by lia.
Qed.

(** With distinct keys the first case of a value is the only one. *)
Lemma case_of_lookup es v : keys_sorted es -> forall i c, es !! i = Some c -> c.1 = v -> case_of es v = Some c.2.
Proof.
  intros Hs i c Hc <-. unfold case_of. destruct (List.find _ es) as [d|] eqn:E.
  - apply find_some in E as [Hin Hd]. apply list_elem_of_In, list_elem_of_lookup in Hin as [j Hj].
    apply Z.eqb_eq in Hd. cbn [fmap option_fmap option_map]. f_equal.
    destruct (Nat.lt_trichotomy i j) as [Hlt|[->|Hlt]]; [|congruence|].
    + pose proof (Hs _ _ _ _ Hlt Hc Hj). lia.
    + pose proof (Hs _ _ _ _ Hlt Hj Hc). lia.
  - pose proof (find_none _ _ E c) as H. cbn in H. rewrite Z.eqb_refl in H.
    assert (In c es) by (apply list_elem_of_In, list_elem_of_lookup; by eexists). by specialize (H H0).
Qed.

Lemma case_of_None es v : (forall i c, es !! i = Some c -> c.1 <> v) -> case_of es v = None.
Proof.
  intros H. unfold case_of. destruct (List.find _ es) as [d|] eqn:E; [|done].
  apply find_some in E as [Hin Hd]. apply list_elem_of_In, list_elem_of_lookup in Hin as [j Hj].
  apply Z.eqb_eq in Hd. by destruct (H j d Hj).
Qed.

(** ** Properties *)

Lemma size_checked {A} `{EqDecision A} (l : list A) : negb (Z.of_nat (length l) >? 0) = bool_decide (l = []).
Proof. destruct l; [done|]. rewrite bool_decide_eq_false_2 by done. rewrite Z.gtb_ltb, (proj2 (Z.ltb_lt _ _)); [done|cbn [length]; lia]. Qed.

Lemma handlers_find_case :
  (forall NDEBUG es rest v, keys_sorted es -> Forall case_fits es -> Z.of_nat (length es) < 2 ^ 16 ->
    dvmInterpHandleSparseSwitch NDEBUG (encode_table (SparseSwitch es) ++ rest) v =
      if negb NDEBUG && bool_decide (es = []) then None
      else Some (SwitchEnd (default kInstrLen (case_of es v)) false)) /\
  (forall NDEBUG k ts rest v, inS 32 k -> Forall (inS 32) ts -> Z.of_nat (length ts) < 2 ^ 16 ->
    dvmInterpHandlePackedSwitch NDEBUG (encode_table (PackedSwitch k ts) ++ rest) v =
      if negb NDEBUG && bool_decide (ts = []) then None
      else if decide (inS 32 (v - k)) then
        Some (SwitchEnd (default kInstrLen (case_of (packed_cases k ts) v)) false)
      else None).
Proof.
  split.
  - intros NDEBUG es rest v Hs Hf Hn. unfold dvmInterpHandleSparseSwitch. rewrite sparse_layout.
    destruct (sparse_head es rest Hn) as [-> ->]. cbn [mbind option_bind].
    change (negb (kSparseSwitchSignature =? kSparseSwitchSignature)) with false. cbv iota.
    rewrite size_checked. destruct (negb NDEBUG && _); [done|].
    replace (2 * Z.of_nat (length es)) with (2 * Z.of_nat (length es.*1)) by by rewrite length_fmap.
    rewrite units_drop.
    destruct (search_spec _ _ (Z.to_nat (Z.of_nat (length es))) (sparse_searchable es rest v Hs Hf Hn) ltac:(lia)) as (r & -> & Hres).
    cbn [mbind option_bind]. do 2 f_equal. destruct r as [t|]; cbn [search_result default from_option id] in *.
    + destruct Hres as (i & (n & c & -> & Hc)%entry_at & Hg).
      rewrite (sparse_guess_spec es rest v n c Hc) in Hg by by eapply Forall_lookup_1.
      rewrite Z.gtb_ltb in Hg. destruct (Z.ltb_spec v c.1); [done|]. destruct (Z.ltb_spec c.1 v); [done|].
      injection Hg as <-. by rewrite (case_of_lookup es v Hs n c Hc) by lia.
    + rewrite case_of_None; [done|]. intros n c Hc E.
      assert (Hn' : 0 <= Z.of_nat n < Z.of_nat (length es)) by (apply lookup_lt_Some in Hc; lia).
      destruct (Hres _ Hn') as [Hg|Hg];
        rewrite (sparse_guess_spec es rest v n c Hc) in Hg by by eapply Forall_lookup_1.
      * by rewrite E, Z.ltb_irrefl, Z.gtb_ltb, Z.ltb_irrefl in Hg.
      * by rewrite E, Z.ltb_irrefl, Z.gtb_ltb, Z.ltb_irrefl in Hg.
  - intros NDEBUG k ts rest v Hk Hf Hn. unfold dvmInterpHandlePackedSwitch.
    destruct (packed_head k ts rest Hk Hn) as (-> & -> & lo & hi & -> & -> & E). cbn [mbind option_bind].
    rewrite E.
    change (negb (kPackedSwitchSignature =? kPackedSwitchSignature)) with false. cbv iota.
    rewrite size_checked. destruct (negb NDEBUG && _); [done|]. unfold chkS.
    destruct (decide (inS 32 (v - k))) as [Hd|]; [|done]. cbn [mbind option_bind].
    rewrite packed_case. destruct (Z.ltb_spec (v - k) 0) as [|H0]; [done|]. rewrite Z.geb_leb.
    destruct (Z.leb_spec (Z.of_nat (length ts)) (v - k)) as [|H1]; [done|]. cbn [orb].
    destruct (lookup_lt_is_Some_2 ts (Z.to_nat (v - k))) as [t Ht]; [lia|]. rewrite Ht.
    rewrite packed_layout.
    rewrite <- (Z2Nat.id (v - k)) at 1 by done.
    rewrite (s4From_nth ts _ t) by (done || by eapply Forall_lookup_1). done.
Qed.

(** C32. The switch handlers of the interpreter find the case of a value. On the
    encoding of a sparse table with sorted keys, whatever follows it, the search
    ends and gives the branch of the case with that key, and 3, the size of the
    instruction, when there is none. On a packed table, whose keys count up from the
    first, it does the same, unless the difference of the value and the first key
    overflows an [int], which is undefined. The error is thrown for neither. A table
    without cases fails an assertion of both handlers in a build that has assertions. *)
Theorem switch_finds_case :
  (forall NDEBUG es rest v, keys_sorted es -> Forall case_fits es -> Z.of_nat (length es) < 2 ^ 16 ->
    dvmInterpHandleSparseSwitch NDEBUG (encode_table (SparseSwitch es) ++ rest) v =
      if negb NDEBUG && bool_decide (es = []) then None
      else Some (SwitchEnd (default kInstrLen (case_of es v)) false)) /\
  (forall NDEBUG k ts rest v, inS 32 k -> Forall (inS 32) ts -> Z.of_nat (length ts) < 2 ^ 16 ->
    dvmInterpHandlePackedSwitch NDEBUG (encode_table (PackedSwitch k ts) ++ rest) v =
      if negb NDEBUG && bool_decide (ts = []) then None
      else if decide (inS 32 (v - k)) then
        Some (SwitchEnd (default kInstrLen (case_of (packed_cases k ts) v)) false)
      else None).
Proof. apply handlers_find_case. Qed.

Lemma switch_finds_case_witness :
  dvmInterpHandleSparseSwitch false (encode_table (SparseSwitch [(-7, 20); (3, -4); (100, 8)]) ++ [0x0e]) 3 =
    Some (SwitchEnd (-4) false) /\
  dvmInterpHandlePackedSwitch false (encode_table (PackedSwitch 5 [20; -4]) ++ []) 7 = Some (SwitchEnd 3 false).
Proof.
  split.
  - refine (eq_trans (proj1 switch_finds_case false [(-7, 20); (3, -4); (100, 8)] [0x0e] 3 _ _ eq_refl) _).
    + intros i j a b Hij Ha Hb.
      destruct i as [|[|[|i]]], j as [|[|[|j]]]; try lia; cbn in Ha, Hb; try discriminate;
        injection Ha as <-; injection Hb as <-; cbn; lia.
    + apply (bool_decide_unpack _). vm_compute. exact I.
    + vm_compute. reflexivity.
  - refine (eq_trans (proj2 switch_finds_case false 5 [20; -4] [] 7 _ _ eq_refl) _).
    + unfold inS. lia.
    + apply (bool_decide_unpack _). vm_compute. exact I.
    + vm_compute. reflexivity.
Defined.
