(* ===== verification/DexUtf.v ===== *)
(** * Strings of dex files: [dalvik/libdex/DexUtf.{h,cpp}]

    Modified UTF-8, its comparison, and the syntax of names and descriptors. A
    pointer is the list of the bytes from it on, the terminator and what lies behind
    it included; reading past the end of that list is [None]. *)

From S2P Require Import Prelude Bits Leb128.

(** ** Decoding *)

Definition dexGetUtf16FromUtf8 (s : list Z) : option (Z * list Z) :=
  '(one, s) ← next s;
  if negb (Z.land one 0x80 =? 0) then
    '(two, s) ← next s;
    if negb (Z.land one 0x20 =? 0) then
      '(three, s) ← next s;
      Some (Z.lor (Z.lor (Z.shiftl (Z.land one 0x0f) 12) (Z.shiftl (Z.land two 0x3f) 6))
              (Z.land three 0x3f), s)
    else Some (Z.lor (Z.shiftl (Z.land one 0x1f) 6) (Z.land two 0x3f), s)
  else Some (one, s).

(** [*s]. *)
Definition peek (s : list Z) : option Z := head s.

(** Every turn moves [s1] on by a byte at least. *)
Fixpoint utf8_cmp_loop (fuel : nat) (s1 s2 : list Z) : option Z :=
  match fuel with
  | O => None
  | S fuel =>
      c1 ← peek s1;
      c2 ← peek s2;
      if c1 =? 0 then Some (if c2 =? 0 then 0 else -1)
      else if c2 =? 0 then Some 1
      else
        '(utf1, s1) ← dexGetUtf16FromUtf8 s1;
        '(utf2, s2) ← dexGetUtf16FromUtf8 s2;
        let diff := utf1 - utf2 in
        if negb (diff =? 0) then Some diff else utf8_cmp_loop fuel s1 s2
  end.

Definition dexUtf8Cmp (s1 s2 : list Z) : option Z := utf8_cmp_loop (S (length s1)) s1 s2.

(** ** Names *)

Definition DEX_MEMBER_VALID_LOW_ASCII : list Z := [0x00000000; 0x03ff2010; 0x87fffffe; 0x07fffffe].

Definition dexIsValidMemberNameUtf8_0 (s : list Z) : option (bool * list Z) :=
  '(utf16, s) ← dexGetUtf16FromUtf8 s;
  let hi := Z.shiftr utf16 8 in
  if hi =? 0x00 then Some (utf16 >? 0x00a0, s)
  else if bool_decide (hi ∈ [0xd8; 0xd9; 0xda; 0xdb]) then
    '(utf16, s) ← dexGetUtf16FromUtf8 s;
    Some ((utf16 >=? 0xdc00) && (utf16 <=? 0xdfff), s)
  else if bool_decide (hi ∈ [0xdc; 0xdd; 0xde; 0xdf]) then Some (false, s)
  else if bool_decide (hi ∈ [0x20; 0xff]) then
    Some (negb (bool_decide (Z.land utf16 0xfff8 ∈ [0x2000; 0x2008; 0x2028; 0xfff0; 0xfff8])), s)
  else Some (true, s).

Definition low_ascii_valid (c : Z) : option bool :=
  let wordIdx := Z.shiftr c 5 in
  let bitIdx := Z.land c 0x1f in
  word ← DEX_MEMBER_VALID_LOW_ASCII !! Z.to_nat wordIdx;
  Some (negb (Z.land word (u32 (Z.shiftl 1 bitIdx)) =? 0)).

Definition dexIsValidMemberNameUtf8 (s : list Z) : option (bool * list Z) :=
  c ← peek s;
  if c <=? 0x7f then
    ok ← low_ascii_valid c;
    Some (ok, tail s)
  else dexIsValidMemberNameUtf8_0 s.

(** The [for] of [dexIsValidMemberName]. *)
Fixpoint member_name_loop (fuel : nat) (angleName : bool) (s : list Z) : option bool :=
  match fuel with
  | O => None
  | S fuel =>
      c ← peek s;
      if c =? 0 then Some (negb angleName)
      else if c =? 62 then
        if angleName then
          c1 ← peek (tail s);
          Some (c1 =? 0)
        else Some false
      else
        '(ok, s) ← dexIsValidMemberNameUtf8 s;
        if ok : bool then member_name_loop fuel angleName s else Some false
  end.

Definition dexIsValidMemberName (s : list Z) : option bool :=
  c ← peek s;
  if c =? 0 then Some false
  else if c =? 60 then member_name_loop (length s) true (tail s)
  else member_name_loop (length s) false s.

(** ** Descriptors *)











(** ** Specification: the modified UTF-8 of UTF-16 text *)

Definition mutf8_unit (x : Z) : list Z :=
  if (0 <? x) && (x <=? 0x7f) then [x]
  else if x <=? 0x7ff then [0xc0 + x / 64; 0x80 + x mod 64]
  else [0xe0 + x / 4096; 0x80 + x / 64 mod 64; 0x80 + x mod 64].

Definition mutf8 (u : list Z) : list Z := concat (mutf8_unit <$> u).

Definition byte_tests (b : Z) : bool :=
  Bool.eqb (Z.land b 0x80 =? 0) (b <? 128) &&
  ((b <? 192) || Bool.eqb (Z.land b 0x20 =? 0) (b <? 224)).

Lemma byte_tests_all : forallb byte_tests (seqZ 0 256) = true.
Proof. vm_compute. reflexivity. Qed.

Lemma byte_tests_at b : is_byte b ->
  (Z.land b 0x80 =? 0) = (b <? 128) /\ (192 <= b -> (Z.land b 0x20 =? 0) = (b <? 224)).
Proof.
  intros Hb. pose proof byte_tests_all as H. rewrite forallb_forall in H.
  specialize (H b). unfold byte_tests in H. rewrite andb_true_iff, orb_true_iff, !Bool.eqb_true_iff in H.
  destruct H as [H1 H2]; [apply list_elem_of_In, elem_of_seqZ; unfold is_byte in Hb; lia|].
  split; [done|]. intros. destruct H2; [lia|done].
Qed.

(** The three shapes of the encoding of a unit. *)
Lemma mutf8_unit_cases x : inU 16 x ->
  (1 <= x < 128 /\ mutf8_unit x = [x]) \/
  ((x = 0 \/ 128 <= x) /\ x < 2048 /\ mutf8_unit x = [0xc0 + x / 64; 0x80 + x mod 64] /\
     is_byte (0xc0 + x / 64) /\ 0xc0 + x / 64 < 224) \/
  (2048 <= x /\ mutf8_unit x = [0xe0 + x / 4096; 0x80 + x / 64 mod 64; 0x80 + x mod 64] /\
     is_byte (0xe0 + x / 4096) /\ 224 <= 0xe0 + x / 4096).
Proof.
  unfold inU, mutf8_unit, is_byte. change (2 ^ 16) with 65536. intros Hx.
  destruct (Z.ltb_spec 0 x), (Z.leb_spec x 127), (Z.leb_spec x 2047); cbn [andb];
    first [exfalso; lia|left; split; [lia|reflexivity]
          |right; left; split; [lia|split; [lia|split; [reflexivity|dlia]]]
          |right; right; split; [lia|split; [reflexivity|dlia]]].
Qed.

(** The low [n] bits of [k * 2 ^ n + a]. *)
Lemma land_low n m k a : 0 <= n -> m = 2 ^ n - 1 -> 0 <= a < 2 ^ n -> Z.land (k * 2 ^ n + a) m = a.
Proof. intros Hn Hm Ha. rewrite (land_mask n) by done. rewrite Z.add_comm, Z.mod_add by (apply Z.pow_nonzero; lia). by apply Z.mod_small. Qed.

Lemma low6 x : Z.land (0x80 + x mod 64) 0x3f = x mod 64.
Proof. apply (land_low 6 0x3f 2); [lia|done|]. apply Z.mod_pos_bound. lia. Qed.

Lemma get_mutf8 x r : inU 16 x -> dexGetUtf16FromUtf8 (mutf8_unit x ++ r) = Some (x, r).
Proof.
  intros Hx. pose proof Hx as Hx'. unfold inU in Hx'. change (2 ^ 16) with 65536 in Hx'.
  pose proof (Z.mod_pos_bound x 64 ltac:(lia)) as Hm.
  pose proof (Z.mod_pos_bound (x / 64) 64 ltac:(lia)) as Hm2.
  unfold dexGetUtf16FromUtf8.
  destruct (mutf8_unit_cases x Hx) as [(H1 & ->)|[(H1 & H2 & -> & Hb & Hlt)|(H1 & -> & Hb & Hge)]];
    cbn [app next mbind option_bind].
  - destruct (byte_tests_at x) as [-> _]; [unfold is_byte; lia|].
    destruct (Z.ltb_spec x 128); [done|lia].
  - destruct (byte_tests_at _ Hb) as [-> E]. rewrite E by dlia.
    destruct (Z.ltb_spec (0xc0 + x / 64) 128); [dlia|]. destruct (Z.ltb_spec (0xc0 + x / 64) 224); [|dlia].
    cbn [negb]. rewrite low6, (land_low 5 0x1f 6) by dlia.
    rewrite Z.lor_comm, lor_shiftl_add by lia. f_equal. f_equal. dlia.
  - destruct (byte_tests_at _ Hb) as [-> E]. rewrite E by dlia.
    destruct (Z.ltb_spec (0xe0 + x / 4096) 128); [dlia|]. destruct (Z.ltb_spec (0xe0 + x / 4096) 224); [dlia|].
    cbn [negb]. rewrite !low6, (land_low 4 0x0f 14) by dlia.
    rewrite Z.lor_comm, (Z.lor_comm (Z.shiftl _ 12)), Z.lor_assoc.
    rewrite (lor_shiftl_add 6), (lor_shiftl_add 12) by (rewrite ?Z.shiftl_mul_pow2 by lia; dlia). f_equal. f_equal. dlia.
Qed.

(** The first byte of an encoded unit. *)
Lemma mutf8_head x : inU 16 x -> exists c l, mutf8_unit x = c :: l /\
  ((1 <= x < 128 /\ c = x /\ l = []) \/ ((x = 0 \/ 128 <= x) /\ 192 <= c)).
Proof.
  intros Hx. unfold inU in Hx. destruct (mutf8_unit_cases x Hx) as [(H1 & ->)|[(H1 & H2 & -> & Hb & Hlt)|(H1 & -> & Hb & Hge)]].
  - exists x, []. split; [done|]. left. done.
  - eexists _, _. split; [done|]. right. split; [done|]. dlia.
  - eexists _, _. split; [done|]. right. split; [dlia|]. dlia.
Qed.

Lemma mutf8_cons x u : mutf8 (x :: u) = mutf8_unit x ++ mutf8 u.
Proof. done. Qed.

Lemma mutf8_app u v : mutf8 (u ++ v) = mutf8 u ++ mutf8 v.
Proof. unfold mutf8. by rewrite fmap_app, concat_app. Qed.

(** Text with its terminator. *)
Definition text (u r : list Z) : list Z := mutf8 u ++ 0 :: r.

Lemma text_cons x u r : text (x :: u) r = mutf8_unit x ++ text u r.
Proof. unfold text. by rewrite mutf8_cons, <- app_assoc. Qed.

Lemma text_nil r : text [] r = 0 :: r.
Proof. done. Qed.

Lemma mutf8_text_length u r : Forall (inU 16) u -> (length u < length (text u r))%nat.
Proof.
  induction 1 as [|x u Hx _ IH]; [simpl; lia|]. rewrite text_cons, length_app.
  destruct (mutf8_head x Hx) as (c & l & -> & _). simpl. lia.
Qed.

(** [*s] of text: the terminator, a unit below 0x80, or a byte from 0xc0 on. *)
Lemma peek_text u r : Forall (inU 16) u ->
  match u with
  | [] => peek (text u r) = Some 0
  | x :: u => exists c, peek (text (x :: u) r) = Some c /\
      ((1 <= x < 128 /\ c = x /\ tail (text (x :: u) r) = text u r) \/ ((x = 0 \/ 128 <= x) /\ 192 <= c))
  end.
Proof.
  intros H. destruct u as [|x u]; [done|]. inversion H as [|? ? Hx _]; subst. rewrite text_cons.
  destruct (mutf8_head x Hx) as (c & l & -> & [(H1 & -> & ->)|H2]); cbn; eauto 10.
Qed.

(** ** Comparison *)

(** The order on UTF-16 text, with the difference the code computes. *)
Fixpoint utf16_diff (u v : list Z) : Z :=
  match u, v with
  | [], [] => 0
  | [], _ => -1
  | _, [] => 1
  | x :: u, y :: v => if x =? y then utf16_diff u v else x - y
  end.

Lemma utf8_cmp_text u v r1 r2 : Forall (inU 16) u -> Forall (inU 16) v -> forall fuel,
  (length u < fuel)%nat -> utf8_cmp_loop fuel (text u r1) (text v r2) = Some (utf16_diff u v).
Proof.
  intros Hu. revert v. induction Hu as [|x u Hx Hu IH]; intros v Hv fuel Hf;
    (destruct fuel as [|fuel]; [simpl in Hf; lia|]); cbn [utf8_cmp_loop].
  - cbn [text mutf8 fmap list_fmap concat app peek head mbind option_bind].
    pose proof (peek_text v r2 Hv) as Hp. destruct v as [|y v].
    + by rewrite Hp.
    + destruct Hp as (c & -> & Hc). cbn. by rewrite (proj2 (Z.eqb_neq c 0)) by lia.
  - destruct (peek_text (x :: u) r1) as (c & -> & Hc); [by constructor|]. cbn [mbind option_bind].
    pose proof (peek_text v r2 Hv) as Hp. destruct v as [|y v].
    + rewrite Hp. cbn. by rewrite (proj2 (Z.eqb_neq c 0)) by lia.
    + destruct Hp as (c2 & -> & Hc2). cbn [mbind option_bind].
      rewrite (proj2 (Z.eqb_neq c 0)), (proj2 (Z.eqb_neq c2 0)) by lia.
      inversion Hv as [|? ? Hy Hv']; subst. rewrite !text_cons, !get_mutf8 by done.
      cbn [mbind option_bind utf16_diff].
      destruct (Z.eqb_spec x y) as [->|Hne].
      * rewrite Z.sub_diag. cbn. apply IH; [done|]. simpl in Hf. lia.
      * by rewrite (proj2 (Z.eqb_neq (x - y) 0)) by lia.
Qed.

(** The lexicographic order of UTF-16 units. *)
Inductive utf16_lt : list Z -> list Z -> Prop :=
  | lt_end y v : utf16_lt [] (y :: v)
  | lt_unit x y u v : x < y -> utf16_lt (x :: u) (y :: v)
  | lt_next x u v : utf16_lt u v -> utf16_lt (x :: u) (x :: v).

Lemma utf16_diff_order u : forall v, (utf16_diff u v = 0 <-> u = v) /\ (utf16_diff u v < 0 <-> utf16_lt u v).
Proof.
  induction u as [|x u IH]; intros [|y v]; cbn [utf16_diff].
  - split; [done|]. split; [lia|by inversion 1].
  - split; [done|]. split; [intros; constructor|lia].
  - split; [done|]. split; [lia|by inversion 1].
  - destruct (Z.eqb_spec x y) as [->|Hne].
    + destruct (IH v) as [-> ->]. split; [split; congruence|]. split; [by constructor|].
      inversion 1; subst; [lia|done].
    + split; [split; [lia|congruence]|]. split; [intros; constructor; lia|inversion 1; subst; lia].
Qed.

(** Comparing two texts in modified UTF-8 ends, and its sign is the
    lexicographic order of their UTF-16 units: 0 exactly for equal texts, whatever
    follows the terminators. *)
Theorem dexUtf8Cmp_orders u v r1 r2 : Forall (inU 16) u -> Forall (inU 16) v ->
  exists d, dexUtf8Cmp (text u r1) (text v r2) = Some d /\
    (d = 0 <-> u = v) /\ (d < 0 <-> utf16_lt u v).
Proof.
  intros Hu Hv. exists (utf16_diff u v). split; [|apply utf16_diff_order].
  apply utf8_cmp_text; [done..|]. pose proof (mutf8_text_length u r1 Hu). lia.
Qed.

Lemma dexUtf8Cmp_orders_witness :
  exists d, dexUtf8Cmp (text [0x41; 0xe9] []) (text [0x41; 0x4e00] [7]) = Some d /\
    (d = 0 <-> [0x41; 0xe9] = [0x41; 0x4e00]) /\ (d < 0 <-> utf16_lt [0x41; 0xe9] [0x41; 0x4e00]).
Proof. apply dexUtf8Cmp_orders; repeat constructor; unfold inU; lia. Defined.

(** The comments promise the order of the code points. U+FF5E comes after U+10000
    here, whose first unit is 0xd800. *)
Lemma dexUtf8Cmp_not_code_points :
  dexUtf8Cmp (text [0xff5e] []) (text [0xd800; 0xdc00] []) = Some 0x275e.
Proof. vm_compute. reflexivity. Qed.

(** ** Specification: names and descriptors

    The syntax the dex format gives to names, on UTF-16 units. *)

Definition in_range (lo hi x : Z) : bool := (lo <=? x) && (x <=? hi).

(** The units that are a character of a name by themselves. *)
Definition bmp_char (x : Z) : bool :=
  in_range 0x41 0x5a x || in_range 0x61 0x7a x || in_range 0x30 0x39 x ||
  (x =? 0x24) || (x =? 0x2d) || (x =? 0x5f) ||
  in_range 0xa1 0x1fff x || in_range 0x2010 0x2027 x || in_range 0x2030 0xd7ff x ||
  in_range 0xe000 0xffef x.

Inductive name_char : list Z -> Prop :=
  | nc_bmp x : bmp_char x = true -> name_char [x]
  | nc_pair hi lo : 0xd800 <= hi <= 0xdbff -> 0xdc00 <= lo <= 0xdfff -> name_char [hi; lo].







(** *** One character *)

(** The character at the front, and what follows it. *)
Definition next_char (u : list Z) : option (list Z) :=
  match u with
  | [] => None
  | x :: u =>
      if bmp_char x then Some u
      else if in_range 0xd800 0xdbff x then
        match u with
        | y :: u => if in_range 0xdc00 0xdfff y then Some u else None
        | [] => None
        end
      else None
  end.

Lemma in_range_spec lo hi x : in_range lo hi x = true <-> lo <= x <= hi.
Proof. unfold in_range. rewrite andb_true_iff. lia. Qed.

Lemma bmp_not_surrogate x : 0xd800 <= x <= 0xdfff -> bmp_char x = false.
Proof.
  intros H. unfold bmp_char, in_range.
  repeat match goal with |- context [Z.leb ?a ?b] => destruct (Z.leb_spec a b); try lia end.
  all: repeat match goal with |- context [Z.eqb ?a ?b] => destruct (Z.eqb_spec a b); try lia end.
  all: reflexivity.
Qed.

Lemma next_char_spec u u' : next_char u = Some u' <-> exists c, name_char c /\ u = c ++ u'.
Proof.
  split.
  - destruct u as [|x u]; [done|]. cbn [next_char]. destruct (bmp_char x) eqn:Eb.
    + intros [= ->]. exists [x]. split; [by constructor|done].
    + destruct (in_range 0xd800 0xdbff x) eqn:Eh; [|done]. destruct u as [|y u]; [done|].
      destruct (in_range 0xdc00 0xdfff y) eqn:El; [|done]. intros [= ->].
      apply in_range_spec in Eh, El. exists [x; y]. split; [by constructor|done].
  - intros (c & Hc & ->). destruct Hc as [x Hx|hi lo Hh Hl]; cbn [app next_char].
    + by rewrite Hx.
    + rewrite bmp_not_surrogate by lia. by rewrite !(proj2 (in_range_spec _ _ _)) by lia.
Qed.

Lemma low_ascii_table : forallb (fun c =>
  match low_ascii_valid c with Some b => Bool.eqb b (bmp_char c) | None => false end) (seqZ 0 128) = true.
Proof. vm_compute. reflexivity. Qed.

Lemma low_ascii_spec c : 0 <= c < 128 -> low_ascii_valid c = Some (bmp_char c).
Proof.
  intros Hc. pose proof low_ascii_table as H. rewrite forallb_forall in H. specialize (H c).
  destruct (low_ascii_valid c); [|discriminate H; apply list_elem_of_In, elem_of_seqZ; lia].
  f_equal. apply Bool.eqb_true_iff, H, list_elem_of_In, elem_of_seqZ. lia.
Qed.

Lemma land_fff8 x : inU 16 x -> Z.land x 0xfff8 = x / 8 * 8.
Proof.
  intros Hx. change 0xfff8 with (Z.ldiff 0xffff 7). rewrite Z.ldiff_land, Z.land_assoc.
  assert (E : Z.land x 0xffff = x) by (rewrite (land_mask 16) by done; by apply Z.mod_small).
  rewrite E, <- Z.ldiff_land. change 7 with (Z.ones 3).
  by rewrite Z.ldiff_ones_r, Z.shiftr_div_pow2, Z.shiftl_mul_pow2.
Qed.

(** [by_bools] splits the comparisons of integers in the goal. *)
Ltac by_bools :=
  repeat match goal with
  | |- context [Z.leb ?a ?b] => destruct (Z.leb_spec a b); try lia
  | |- context [Z.eqb ?a ?b] => destruct (Z.eqb_spec a b); try lia
  | |- context [Z.gtb ?a ?b] => rewrite (Z.gtb_ltb a b)
  | |- context [Z.ltb ?a ?b] => destruct (Z.ltb_spec a b); try lia
  end.

(** The test of a unit from 0x80 on that is not a surrogate. *)
Lemma high_char_spec x : inU 16 x -> 128 <= x -> ~ 0xd800 <= x <= 0xdfff ->
  bmp_char x =
    if Z.shiftr x 8 =? 0 then x >? 0xa0
    else if bool_decide (Z.shiftr x 8 ∈ [0x20; 0xff]) then
      negb (bool_decide (Z.land x 0xfff8 ∈ [0x2000; 0x2008; 0x2028; 0xfff0; 0xfff8]))
    else true.
Proof.
  intros Hx H1 H2. rewrite land_fff8, Z.shiftr_div_pow2 by done. change (2 ^ 8) with 256.
  unfold inU in Hx. change (2 ^ 16) with 65536 in Hx.
  assert (Eb : bmp_char x = in_range 0xa1 0x1fff x || in_range 0x2010 0x2027 x ||
    in_range 0x2030 0xd7ff x || in_range 0xe000 0xffef x).
  { unfold bmp_char, in_range. by_bools; reflexivity. }
  rewrite Eb. unfold in_range.
  destruct (Z.eqb_spec (x / 256) 0) as [E0|E0]; [|case_bool_decide as E1].
  - assert (x < 256) by dlia. by_bools; reflexivity.
  - rewrite !elem_of_cons in E1. case_bool_decide as E2; rewrite !elem_of_cons in E2.
    + assert (0x2000 <= x <= 0x200f \/ 0x2028 <= x <= 0x202f \/ 0xfff0 <= x <= 0xffff).
      { destruct E2 as [E2|[E2|[E2|[E2|[E2|E2]]]]]; try (by apply not_elem_of_nil in E2); dlia. }
      by_bools; reflexivity.
    + assert (Hn : ~ 0x2000 <= x <= 0x200f /\ ~ 0x2028 <= x <= 0x202f /\ ~ 0xfff0 <= x <= 0xffff).
      { repeat split; intros Hc; apply E2; dlia. }
      assert (0x2000 <= x <= 0x20ff \/ 0xff00 <= x <= 0xffff).
      { destruct E1 as [E1|[E1|E1]]; try (by apply not_elem_of_nil in E1); dlia. }
      by_bools; reflexivity.
  - rewrite !elem_of_cons in E1.
    assert (~ 0x2000 <= x <= 0x20ff /\ ~ 0xff00 <= x <= 0xffff) by (split; intros Hc; apply E1; dlia).
    assert (256 <= x) by dlia. by_bools; reflexivity.
Qed.

Lemma elem_of_4 (x a b c d : Z) : x ∈ [a; b; c; d] <-> x = a \/ x = b \/ x = c \/ x = d.
Proof. rewrite !elem_of_cons. split; [intros [H|[H|[H|[H|H]]]]; auto; by apply not_elem_of_nil in H|tauto]. Qed.

(** The test of the code on the character at the front of a text. *)
Lemma valid_char_text x u r : Forall (inU 16) (x :: u) ->
  exists b s, dexIsValidMemberNameUtf8 (text (x :: u) r) = Some (b, s) /\
    match next_char (x :: u) with Some u' => b = true /\ s = text u' r | None => b = false end.
Proof.
  intros Hu. destruct (peek_text (x :: u) r Hu) as (c & Hp & Hc).
  apply Forall_cons in Hu as [Hx Hu]. unfold dexIsValidMemberNameUtf8. rewrite Hp. cbn [mbind option_bind].
  pose proof Hx as Hx'. unfold inU in Hx'. change (2 ^ 16) with 65536 in Hx'.
  destruct Hc as [(H1 & -> & Ht)|(H1 & H2)].
  - rewrite (proj2 (Z.leb_le x 127)), low_ascii_spec by lia. cbn [mbind option_bind]. rewrite Ht.
    eexists _, _. split; [reflexivity|]. cbn [next_char]. destruct (bmp_char x); [done|].
    unfold in_range. by rewrite (proj2 (Z.leb_gt 0xd800 x)) by lia.
  - rewrite (proj2 (Z.leb_gt c 127)) by lia. unfold dexIsValidMemberNameUtf8_0.
    rewrite text_cons, get_mutf8 by done. cbn [mbind option_bind].
    assert (Ehi : Z.shiftr x 8 = x / 256) by (rewrite Z.shiftr_div_pow2 by lia; done).
    destruct (decide (0xd800 <= x <= 0xdfff)) as [Hs|Hs].
    2:{ cbn [next_char].
      assert (Hn : in_range 0xd800 0xdbff x = false).
      { destruct (in_range _ _ x) eqn:E; [apply in_range_spec in E; lia|done]. }
      assert (Hn1 : bool_decide (Z.shiftr x 8 ∈ [0xd8; 0xd9; 0xda; 0xdb]) = false).
      { apply bool_decide_eq_false. rewrite elem_of_4, Ehi. dlia. }
      assert (Hn2 : bool_decide (Z.shiftr x 8 ∈ [0xdc; 0xdd; 0xde; 0xdf]) = false).
      { apply bool_decide_eq_false. rewrite elem_of_4, Ehi. dlia. }
      rewrite Hn, Hn1, Hn2. destruct H1 as [->|H1]; [by eexists _, _|].
      rewrite (high_char_spec x) by done.
      destruct (Z.shiftr x 8 =? 0); [destruct (x >? 0xa0); by eexists _, _|].
      destruct (bool_decide (Z.shiftr x 8 ∈ [0x20; 0xff])); [destruct (negb _)|]; by eexists _, _. }
    rewrite (proj2 (Z.eqb_neq (Z.shiftr x 8) 0)) by (rewrite Ehi; dlia).
    cbn [next_char]. rewrite bmp_not_surrogate by lia.
    destruct (in_range 0xd800 0xdbff x) eqn:E.
    + apply in_range_spec in E.
      rewrite (bool_decide_eq_true_2 (_ ∈ [0xd8; 0xd9; 0xda; 0xdb])) by (rewrite elem_of_4, Ehi; dlia).
      destruct u as [|y u].
      * cbn [text mutf8 fmap list_fmap concat app dexGetUtf16FromUtf8 next mbind option_bind]. by eexists _, _.
      * apply Forall_cons in Hu as [Hy Hu]. rewrite text_cons, get_mutf8 by done. cbn [mbind option_bind].
        rewrite Z.geb_leb. fold (in_range 0xdc00 0xdfff y).
        destruct (in_range 0xdc00 0xdfff y); by eexists _, _.
    + assert (0xdc00 <= x) by (destruct (Z.le_gt_cases 0xdc00 x); [done|]; rewrite (proj2 (in_range_spec _ _ _)) in E by lia; done).
      rewrite (bool_decide_eq_false_2 (_ ∈ [0xd8; 0xd9; 0xda; 0xdb])) by (rewrite elem_of_4, Ehi; dlia).
      rewrite (bool_decide_eq_true_2 (_ ∈ [0xdc; 0xdd; 0xde; 0xdf])) by (rewrite elem_of_4, Ehi; dlia).
      by eexists _, _.
Qed.

(** *** Class names *)

(** What is left to accept in the loop over a class name: [first] before the first
    character of a component, [cls] when it ends with the text, otherwise with a
    semicolon. *)
Inductive name_rest (sep : Z) (cls : bool) : bool -> list Z -> Prop :=
  | nr_end : cls = true -> name_rest sep cls false []
  | nr_semi : cls = false -> name_rest sep cls false [59]
  | nr_sep u : name_rest sep cls true u -> name_rest sep cls false (sep :: u)
  | nr_char first c u : name_char c -> name_rest sep cls false u -> name_rest sep cls first (c ++ u).

Lemma next_char_shorter u u' : next_char u = Some u' ->
  (length u' < length u)%nat /\ (Forall (inU 16) u -> Forall (inU 16) u').
Proof.
  intros (c & Hc & ->)%next_char_spec. rewrite length_app. split.
  - destruct Hc; simpl; lia.
  - by intros [_ ?]%Forall_app.
Qed.




Lemma next_char_ascii x u : 0 <= x < 128 -> bmp_char x = false -> next_char (x :: u) = None.
Proof.
  intros Hx Hb. cbn [next_char]. rewrite Hb. unfold in_range.
  by rewrite (proj2 (Z.leb_gt 0xd800 x)) by lia.
Qed.

Lemma end_of_text u r : Forall (inU 16) u ->
  exists c, peek (text u r) = Some c /\ ((c =? 0) = true <-> u = []).
Proof.
  intros Hu. pose proof (peek_text u r Hu) as Hp. destruct u as [|x u]; [by exists 0|].
  destruct Hp as (c & Hp & Hc). exists c. split; [done|]. split; [intros ?%Z.eqb_eq; lia|done].
Qed.



Lemma name_rest_start sep cls u : name_rest sep cls true u <->
  exists c v, u = c ++ v /\ name_char c /\ name_rest sep cls false v.
Proof.
  split.
  - remember true as first eqn:E. destruct 1; naive_solver.
  - intros (c & v & -> & Hc & Hv). by constructor.
Qed.





(** *** Descriptors *)



Lemma text_low x u r : 1 <= x < 128 -> text (x :: u) r = x :: text u r.
Proof.
  intros Hx. rewrite text_cons. unfold mutf8_unit.
  by rewrite (proj2 (Z.ltb_lt 0 x)), (proj2 (Z.leb_le x 0x7f)) by lia.
Qed.














(** *** Member names *)

Inductive name_chars : list Z -> Prop :=
  | ncs_nil : name_chars []
  | ncs_cons c n : name_char c -> name_chars n -> name_chars (c ++ n).

(** A simple name, or one in angle brackets; the code also lets nothing stand
    between them. *)
Definition member_name (u : list Z) : Prop :=
  (u <> [] /\ name_chars u) \/ (exists n, name_chars n /\ u = 60 :: n ++ [62]).

Lemma name_chars_cons x u : name_chars (x :: u) <-> exists u', next_char (x :: u) = Some u' /\ name_chars u'.
Proof.
  split.
  - remember (x :: u) as v eqn:E. destruct 1 as [|c n Hc Hn]; [done|]. exists n. split; [|done].
    apply next_char_spec. by exists c.
  - intros (u' & (c & Hc & ->)%next_char_spec & Hn). by constructor.
Qed.

Lemma member_name_loop_text angle u r : Forall (inU 16) u -> forall fuel, (length u < fuel)%nat ->
  exists b, member_name_loop fuel angle (text u r) = Some b /\
    (b = true <-> exists n, name_chars n /\ u = n ++ if angle then [62] else []).
Proof.
  intros Hu fuel. revert u Hu. induction fuel as [|fuel IH]; intros u Hu Hf; [lia|].
  cbn [member_name_loop]. pose proof (peek_text u r Hu) as Hp. destruct u as [|x u].
  { rewrite Hp. cbn. eexists. split; [reflexivity|]. destruct angle; cbn.
    - split; [done|]. intros (n & _ & E). by destruct n.
    - split; [|done]. intros _. exists []. split; [constructor|done]. }
  destruct Hp as (c & Hp & Hc). rewrite Hp. cbn [mbind option_bind].
  rewrite (proj2 (Z.eqb_neq c 0)) by lia.
  pose proof (valid_char_text x u r Hu) as (b & s & Hv & Hnext).
  cbn [length] in Hf. pose proof Hu as Hu'. apply Forall_cons in Hu' as [_ Hu'].
  assert (Hstep : x <> 62 -> (exists n, name_chars n /\ x :: u = n ++ if angle then [62] else []) <->
    exists u', next_char (x :: u) = Some u' /\ exists n, name_chars n /\ u' = n ++ if angle then [62] else []).
  { intros H62. split.
    - intros (n & Hn & E). destruct n as [|y n]; [destruct angle; naive_solver|].
      apply name_chars_cons in Hn as (n' & (c' & Hc' & En)%next_char_spec & Hn). rewrite En, <- app_assoc in E.
      exists (n' ++ if angle then [62] else []). split; [apply next_char_spec; by exists c'|by exists n'].
    - intros (u' & (c' & Hc' & ->)%next_char_spec & n & Hn & ->). exists (c' ++ n).
      split; [by constructor|by rewrite app_assoc]. }
  destruct (Z.eqb_spec c 62) as [->|Hc62].
  - destruct Hc as [(_ & <- & Ht)|]; [|lia]. rewrite Ht.
    destruct (end_of_text u r Hu') as (c1 & -> & Hend). cbn [mbind option_bind].
    destruct angle; (eexists; split; [reflexivity|]).
    + rewrite Hend. split; [intros ->; exists []; split; [constructor|done]|].
      intros (n & Hn & E). destruct n as [|y n]; [by injection E|]. injection E as <- _.
      apply name_chars_cons in Hn as (u' & En & _). by rewrite next_char_ascii in En.
    + split; [done|]. intros (n & Hn & E). rewrite app_nil_r in E. subst n.
      apply name_chars_cons in Hn as (u' & En & _). by rewrite next_char_ascii in En.
  - rewrite Hv. cbn [mbind option_bind]. setoid_rewrite (Hstep ltac:(lia)).
    destruct (next_char (x :: u)) as [u'|] eqn:En.
    + destruct Hnext as [-> ->]. destruct (next_char_shorter _ _ En) as [Hl Hf'].
      destruct (IH u' (Hf' Hu)) as (b0 & E & Hb0); [cbn [length] in Hl; lia|].
      exists b0. split; [done|]. rewrite Hb0. naive_solver.
    + subst b. eexists. split; [reflexivity|]. naive_solver.
Qed.

(** The names of members: the test ends and decides them. *)
Theorem member_names_decided u r : Forall (inU 16) u ->
  exists b, dexIsValidMemberName (text u r) = Some b /\ (b = true <-> member_name u).
Proof.
  intros Hu. unfold dexIsValidMemberName. pose proof (peek_text u r Hu) as Hp. destruct u as [|x u].
  { rewrite Hp. cbn. eexists. split; [reflexivity|]. unfold member_name. naive_solver. }
  destruct Hp as (c & Hp & Hc). rewrite Hp. cbn [mbind option_bind].
  rewrite (proj2 (Z.eqb_neq c 0)) by lia. pose proof Hu as Hu'. apply Forall_cons in Hu' as [_ Hu'].
  assert (H60 : name_chars (60 :: u) -> False).
  { intros (u' & E & _)%name_chars_cons. by rewrite next_char_ascii in E. }
  destruct (Z.eqb_spec c 60) as [->|Hne].
  - destruct Hc as [(_ & <- & Ht)|]; [|lia]. rewrite Ht, text_low by lia.
    destruct (member_name_loop_text true u r Hu' (length (60 :: text u r))) as (b & -> & Hb).
    { pose proof (mutf8_text_length u r Hu'). cbn [length]. lia. }
    exists b. split; [done|]. rewrite Hb. unfold member_name. naive_solver.
  - destruct (member_name_loop_text false (x :: u) r Hu _ (mutf8_text_length _ r Hu)) as (b & -> & Hb).
    exists b. split; [done|]. rewrite Hb. unfold member_name. split.
    + intros (n & Hn & E). rewrite app_nil_r in E. subst n. by left.
    + intros [[_ Hn]|(n & _ & [= -> _])]; [exists (x :: u); by rewrite app_nil_r|]. lia.
Qed.
