(* ===== verification/UtfString.v ===== *)
(** * String objects: [dalvik/vm/UtfString.cpp]

    Conversions between the UTF-16 arrays of java/lang/String and modified UTF-8, the
    hash codes, and the comparison the table of interned strings uses. Memory is
    taken to be available; [fresh n] is what a new block of [n] bytes or units holds.
    A write beyond the end of its block is [None]. *)

From S2P Require Import Prelude Bits Leb128 DexUtf.

(** ** Conversions *)

Definition dvmComputeUtf8Hash (utf8Str : list Z) : option Z :=
  (fix loop hash s :=
     match s with
     | [] => None
     | c :: s => if c =? 0 then Some hash else loop (u32 (hash * 31 + c)) s
     end) 1 utf8Str.

Fixpoint utf8_len_loop (fuel : nat) (len : Z) (s : list Z) : option Z :=
  match fuel with
  | O => None
  | S fuel =>
      '(ic, s) ← next s;
      if ic =? 0 then Some len
      else
        let len := u32 (len + 1) in
        if negb (Z.land ic 0x80 =? 0) then
          '(_, s) ← next s;
          if negb (Z.land ic 0x20 =? 0) then
            '(_, s) ← next s;
            utf8_len_loop fuel len s
          else utf8_len_loop fuel len s
        else utf8_len_loop fuel len s
  end.

Definition dvmUtf8Len (utf8Str : list Z) : option Z := utf8_len_loop (length utf8Str) 0 utf8Str.

(** [*utf16Str++ = x] for the successive [x]: what has been written to a block. *)
Definition store {A} (written block : list A) : option (list A) :=
  if (length written <=? length block)%nat then Some (written ++ drop (length written) block) else None.

(** The units the loop of [dvmConvertUtf8ToUtf16] writes. *)
Fixpoint utf8_units (fuel : nat) (s : list Z) : option (list Z) :=
  match fuel with
  | O => None
  | S fuel =>
      c ← peek s;
      if c =? 0 then Some []
      else
        '(x, s) ← dexGetUtf16FromUtf8 s;
        u ← utf8_units fuel s;
        Some (x :: u)
  end.

Definition dvmConvertUtf8ToUtf16 (utf16Str utf8Str : list Z) : option (list Z) :=
  u ← utf8_units (length utf8Str) utf8Str;
  store u utf16Str.

(** The length is an [int]. *)
Fixpoint utf8_byte_len (utf8Len : Z) (utf16Str : list Z) : option Z :=
  match utf16Str with
  | [] => Some utf8Len
  | uic :: utf16Str =>
      utf8Len ← chkS 32 (if (uic =? 0) || (uic >? 0x7f)
                         then if uic >? 0x07ff then utf8Len + 3 else utf8Len + 2
                         else utf8Len + 1);
      utf8_byte_len utf8Len utf16Str
  end.

Definition utf16_utf8ByteLen (utf16Str : list Z) : option Z := utf8_byte_len 0 utf16Str.

(** The bytes of one unit, as they are stored into [char]s. *)
Definition unit_to_utf8 (uic : Z) : list Z :=
  if (uic =? 0) || (uic >? 0x7f) then
    if uic >? 0x07ff then
      [u8 (Z.lor (Z.shiftr uic 12) 0xe0);
       u8 (Z.lor (Z.land (Z.shiftr uic 6) 0x3f) 0x80);
       u8 (Z.lor (Z.land uic 0x3f) 0x80)]
    else
      [u8 (Z.lor (Z.shiftr uic 6) 0xc0); u8 (Z.lor (Z.land uic 0x3f) 0x80)]
  else [u8 uic].

Definition convertUtf16ToUtf8 (utf8Str utf16Str : list Z) : option (list Z) :=
  store (concat (unit_to_utf8 <$> utf16Str) ++ [0]) utf8Str.

Definition computeUtf16Hash (utf16Str : list Z) : Z :=
  fold_left (fun hash x => u32 (u32 (hash * 31) + x)) utf16Str 0.

(** ** String objects *)

Record StringObject := MkString {
  count : Z;
  offset : Z;
  value : list Z;
  hashCode : Z
}.

(** [chars->contents + offset], [len] units of it; [None] when they leave the
    array. *)
Definition units_at (s : StringObject) (start len : Z) : option (list Z) :=
  if (0 <=? start) && (0 <=? len) && (start + len <=? Z.of_nat (length (value s)))
  then Some (take (Z.to_nat len) (drop (Z.to_nat start) (value s))) else None.

(** The characters of a string. *)
Definition string_units (s : StringObject) : option (list Z) := units_at s (offset s) (count s).

Section Objects.
Context (fresh : nat -> list Z).

Definition makeStringObject (charsLength : Z) : StringObject :=
  MkString charsLength 0 (fresh (Z.to_nat charsLength)) 0.

Definition dvmCreateStringFromCstrAndLength (utf8Str : list Z) (utf16Length : Z) : option StringObject :=
  let newObj := makeStringObject utf16Length in
  chars ← dvmConvertUtf8ToUtf16 (value newObj) utf8Str;
  let hash := computeUtf16Hash (take (Z.to_nat utf16Length) chars) in
  Some (MkString (count newObj) (offset newObj) chars (s32 hash)).

Definition dvmCreateStringFromCstr (utf8Str : list Z) : option StringObject :=
  len ← dvmUtf8Len utf8Str;
  dvmCreateStringFromCstrAndLength utf8Str len.

Definition dvmCreateStringFromUnicode (unichars : list Z) : option StringObject :=
  let newObj := makeStringObject (Z.of_nat (length unichars)) in
  chars ← store unichars (value newObj);
  Some (MkString (count newObj) (offset newObj) chars (s32 (computeUtf16Hash (take (length unichars) chars)))).

Definition dvmComputeStringHash (s : StringObject) : option (StringObject * Z) :=
  if negb (hashCode s =? 0) then Some (s, u32 (hashCode s))
  else
    data ← string_units s;
    let hash := s32 (computeUtf16Hash data) in
    Some (MkString (count s) (offset s) (value s) hash, u32 hash).

Definition dvmCreateCstrFromString (s : StringObject) : option (list Z) :=
  data ← string_units s;
  byteLen ← utf16_utf8ByteLen data;
  convertUtf16ToUtf8 (fresh (Z.to_nat (byteLen + 1))) data.

Definition dvmGetStringUtfRegion (s : StringObject) (start len : Z) (buf : list Z) : option (list Z) :=
  data ← units_at s (offset s + start) len;
  convertUtf16ToUtf8 buf data.

Definition utfLength (s : StringObject) : option Z :=
  data ← string_units s;
  utf16_utf8ByteLen data.

End Objects.

(** [memcmp]: the difference of the first bytes that differ; only its sign is
    documented. *)
Fixpoint memcmp (a b : list Z) : Z :=
  match a, b with
  | x :: a, y :: b => if x =? y then memcmp a b else x - y
  | _, _ => 0
  end.

Definition unit_bytes (u : list Z) : list Z := concat (le_bytes 2 <$> u).

Definition dvmHashcmpStrings (s1 s2 : StringObject) : option Z :=
  if negb (count s1 =? count s2) then chkS 32 (count s1 - count s2)
  else
    d1 ← string_units s1;
    d2 ← string_units s2;
    Some (memcmp (unit_bytes d1) (unit_bytes d2)).

(** ** Lemmas *)

Lemma lor_disjoint n a b : 0 <= n -> 0 <= a < 2 ^ n -> Z.lor a (b * 2 ^ n) = b * 2 ^ n + a.
Proof. intros Hn Ha. rewrite <- Z.shiftl_mul_pow2, lor_shiftl_add, Z.shiftl_mul_pow2 by lia. lia. Qed.

Lemma land_3f x : Z.land x 0x3f = x mod 64.
Proof. by apply (land_mask 6). Qed.

Lemma low6_byte x : u8 (Z.lor (Z.land x 0x3f) 0x80) = 0x80 + x mod 64.
Proof.
  rewrite land_3f, (lor_disjoint 6 _ 2) by (try apply Z.mod_pos_bound; lia).
  pose proof (Z.mod_pos_bound x 64 ltac:(lia)). rewrite wrapU_id by (unfold inU; lia). lia.
Qed.

(** The code's encoder is modified UTF-8. *)
Lemma unit_to_utf8_spec x : inU 16 x -> unit_to_utf8 x = mutf8_unit x.
Proof.
  unfold inU, unit_to_utf8, mutf8_unit. change (2 ^ 16) with 65536. intros Hx.
  rewrite !Z.gtb_ltb. destruct (Z.eqb_spec x 0), (Z.ltb_spec 0x7f x), (Z.ltb_spec 0x7ff x),
    (Z.ltb_spec 0 x), (Z.leb_spec x 0x7f), (Z.leb_spec x 0x7ff); try lia; cbn [orb andb];
    rewrite ?low6_byte, ?Z.shiftr_div_pow2 by lia; try change (2 ^ 6) with 64; try change (2 ^ 12) with 4096.
  all: repeat f_equal.
  all: first [ apply wrapU_id; unfold inU; lia
             | rewrite (lor_disjoint 5 _ 6) by dlia; rewrite wrapU_id by (unfold inU; dlia); lia
             | rewrite (lor_disjoint 4 _ 14) by dlia; rewrite wrapU_id by (unfold inU; dlia); lia ].
Qed.

Lemma units_to_utf8_spec u : Forall (inU 16) u -> concat (unit_to_utf8 <$> u) = mutf8 u.
Proof.
  induction 1 as [|x u Hx _ IH]; [done|]. cbn [fmap list_fmap concat]. by rewrite unit_to_utf8_spec, IH.
Qed.

Lemma mutf8_unit_length x : (1 <= length (mutf8_unit x) <= 3)%nat.
Proof. unfold mutf8_unit. destruct (_ && _); [simpl; lia|]. destruct (_ <=? _); simpl; lia. Qed.

Lemma mutf8_length u : (length u <= length (mutf8 u) <= 3 * length u)%nat.
Proof.
  induction u as [|x u IH]; [done|]. rewrite mutf8_cons, length_app. pose proof (mutf8_unit_length x). cbn [length]. lia.
Qed.

Lemma utf8_byte_len_spec u : Forall (inU 16) u -> forall n, 0 <= n ->
  n + Z.of_nat (length (mutf8 u)) < 2 ^ 31 -> utf8_byte_len n u = Some (n + Z.of_nat (length (mutf8 u))).
Proof.
  induction 1 as [|x u Hx Hu IH]; intros n Hn Hl; cbn [utf8_byte_len].
  - f_equal. cbn. lia.
  - rewrite mutf8_cons, length_app in *.
    assert (E : (if (x =? 0) || (x >? 0x7f) then if x >? 0x07ff then n + 3 else n + 2 else n + 1) =
      n + Z.of_nat (length (mutf8_unit x))).
    { unfold mutf8_unit, inU in *. rewrite !Z.gtb_ltb. destruct (Z.eqb_spec x 0), (Z.ltb_spec 0x7f x), (Z.ltb_spec 0x7ff x),
        (Z.ltb_spec 0 x), (Z.leb_spec x 0x7f), (Z.leb_spec x 0x7ff); try lia; cbn; lia. }
    rewrite E, chkS_Some by (unfold inS; change (2 ^ (32 - 1)) with (2 ^ 31); lia). cbn [mbind option_bind].
    rewrite IH by lia. f_equal. lia.
Qed.

(** One turn of [dvmUtf8Len] passes one unit. *)
Lemma utf8_len_text u r : Forall (inU 16) u -> forall fuel n, (length u < fuel)%nat -> 0 <= n ->
  n + Z.of_nat (length u) < 2 ^ 32 -> utf8_len_loop fuel n (text u r) = Some (n + Z.of_nat (length u)).
Proof.
  induction 1 as [|x u Hx Hu IH]; intros fuel n Hf Hn Hl; (destruct fuel as [|fuel]; [simpl in Hf; lia|]).
  - cbn. f_equal. lia.
  - rewrite text_cons. cbn [length] in Hf, Hl.
    assert (Hnext : utf8_len_loop fuel (u32 (n + 1)) (text u r) = Some (n + Z.of_nat (length (x :: u)))).
    { rewrite wrapU_id by (unfold inU; lia). rewrite IH by lia. cbn [length]. f_equal. lia. }
    destruct (mutf8_unit_cases x Hx) as [(H1 & ->)|[(H1 & H2 & -> & Hb & Hlt)|(H1 & -> & Hb & Hge)]];
      cbn [app utf8_len_loop next mbind option_bind].
    + rewrite (proj2 (Z.eqb_neq x 0)) by lia.
      destruct (byte_tests_at x) as [-> _]; [unfold is_byte; lia|].
      by rewrite (proj2 (Z.ltb_lt x 128)) by lia.
    + unfold inU in Hx. assert (0 <= x / 64) by dlia. destruct (byte_tests_at _ Hb) as [E1 E2].
      rewrite (proj2 (Z.eqb_neq _ 0)), E1, E2 by lia.
      by rewrite (proj2 (Z.ltb_ge _ 128)), (proj2 (Z.ltb_lt _ 224)) by lia.
    + destruct (byte_tests_at _ Hb) as [E1 E2]. rewrite (proj2 (Z.eqb_neq _ 0)), E1, E2 by lia.
      by rewrite (proj2 (Z.ltb_ge _ 128)), (proj2 (Z.ltb_ge _ 224)) by lia.
Qed.

Lemma utf8_units_text u r : Forall (inU 16) u -> forall fuel, (length u < fuel)%nat ->
  utf8_units fuel (text u r) = Some u.
Proof.
  induction 1 as [|x u Hx Hu IH]; intros fuel Hf; (destruct fuel as [|fuel]; [simpl in Hf; lia|]); [done|].
  cbn [utf8_units]. destruct (peek_text (x :: u) r) as (c & -> & Hc); [by constructor|].
  cbn [mbind option_bind]. rewrite (proj2 (Z.eqb_neq c 0)) by lia.
  rewrite text_cons, get_mutf8 by done. cbn [mbind option_bind]. cbn [length] in Hf. by rewrite IH by lia.
Qed.

Lemma store_exact {A} (w b : list A) : length b = length w -> store w b = Some w.
Proof.
  intros E. unfold store. rewrite (proj2 (Nat.leb_le _ _)) by lia.
  by rewrite drop_ge, app_nil_r by lia.
Qed.

(** A string whose characters are an array of units. *)
Definition string_of (s : StringObject) (u : list Z) : Prop :=
  string_units s = Some u /\ count s = Z.of_nat (length u) /\ Forall (inU 16) u.

Section Roundtrip.
Context (fresh : nat -> list Z) (Hfresh : forall n, length (fresh n) = n).

Lemma cstr_of_string s u : string_of s u -> 3 * Z.of_nat (length u) < 2 ^ 31 ->
  dvmCreateCstrFromString fresh s = Some (text u []).
Proof using Hfresh.
  intros (Hs & _ & Hu) Hl. pose proof (mutf8_length u) as Hm. unfold dvmCreateCstrFromString, utf16_utf8ByteLen.
  rewrite Hs. cbn [mbind option_bind]. rewrite utf8_byte_len_spec by (done || lia). cbn [mbind option_bind].
  unfold convertUtf16ToUtf8. rewrite units_to_utf8_spec by done. apply store_exact.
  rewrite Hfresh. unfold text. rewrite length_app. cbn [length]. lia.
Qed.

Lemma string_of_cstr u r : Forall (inU 16) u -> 3 * Z.of_nat (length u) < 2 ^ 31 ->
  dvmCreateStringFromCstr fresh (text u r) =
    Some (MkString (Z.of_nat (length u)) 0 u (s32 (computeUtf16Hash u))).
Proof using Hfresh.
  intros Hu Hl. unfold dvmCreateStringFromCstr, dvmUtf8Len.
  pose proof (mutf8_text_length u r Hu). rewrite utf8_len_text by (done || lia). cbn [mbind option_bind].
  unfold dvmCreateStringFromCstrAndLength, dvmConvertUtf8ToUtf16.
  rewrite utf8_units_text by done. cbn [mbind option_bind makeStringObject value count offset].
  rewrite Z.add_0_l, Nat2Z.id. rewrite store_exact by (by rewrite Hfresh). cbn [mbind option_bind].
  by rewrite firstn_all.
Qed.

Lemma new_string_of u h : Forall (inU 16) u ->
  string_of (MkString (Z.of_nat (length u)) 0 u h) u.
Proof using.
  intros Hu. split; [|done]. unfold string_units, units_at. cbn [offset count value].
  rewrite (proj2 (Z.leb_le _ _)) by lia. rewrite (proj2 (Z.leb_le _ _)) by lia. cbn [andb].
  rewrite (proj2 (Z.leb_le _ _)) by lia. by rewrite Nat2Z.id, drop_0, firstn_all.
Qed.

(** A string turned into C and back is the string: whatever its units, zeros and
    unpaired surrogates included, the bytes written fill the block of the computed
    length and hold no zero before the last, the length counted from them is the
    number of units, and the string made of them has the same characters and the hash
    of java/lang/String. *)
Theorem string_cstr_roundtrip s u : string_of s u -> 3 * Z.of_nat (length u) < 2 ^ 31 ->
  exists bytes s',
    utfLength s = Some (Z.of_nat (length bytes)) /\
    dvmCreateCstrFromString fresh s = Some (bytes ++ [0]) /\ Forall (fun b => 0 < b < 256) bytes /\
    dvmUtf8Len (bytes ++ [0]) = Some (count s) /\
    dvmCreateStringFromCstr fresh (bytes ++ [0]) = Some s' /\ string_of s' u /\
    hashCode s' = s32 (computeUtf16Hash u).
Proof using Hfresh.
  intros Hs Hl. exists (mutf8 u), (MkString (Z.of_nat (length u)) 0 u (s32 (computeUtf16Hash u))).
  pose proof (cstr_of_string s u Hs Hl) as Hc. destruct Hs as (Hu & Hcnt & Hr).
  pose proof (mutf8_length u). split; [|split; [exact Hc|split]].
  - unfold utfLength. rewrite Hu. cbn [mbind option_bind]. apply utf8_byte_len_spec; [done|lia|lia].
  - clear -Hr. induction Hr as [|x u Hx _ IH]; [constructor|]. rewrite mutf8_cons. apply Forall_app.
    split; [|done]. unfold inU in Hx.
    destruct (mutf8_unit_cases x Hx) as [(H1 & ->)|[(H1 & H2 & -> & Hb & Hlt)|(H1 & -> & Hb & Hge)]];
      repeat constructor; dlia.
  - change (mutf8 u ++ [0]) with (text u []). split; [|split; [by apply string_of_cstr|]].
    + unfold dvmUtf8Len. rewrite utf8_len_text by (done || lia || by apply mutf8_text_length).
      rewrite Hcnt. f_equal.
    + split; [by apply new_string_of|done].
Qed.

End Roundtrip.

Definition zero_block (n : nat) : list Z := repeat 0 n.

Lemma string_cstr_roundtrip_witness :
  let s := MkString 4 1 [0x41; 0; 0xe9; 0xd800; 0x4e00] 0 in
  string_units s = Some [0; 0xe9; 0xd800; 0x4e00] /\
  exists bytes s',
    utfLength s = Some (Z.of_nat (length bytes)) /\
    dvmCreateCstrFromString zero_block s = Some (bytes ++ [0]) /\ Forall (fun b => 0 < b < 256) bytes /\
    dvmUtf8Len (bytes ++ [0]) = Some (count s) /\
    dvmCreateStringFromCstr zero_block (bytes ++ [0]) = Some s' /\ string_of s' [0; 0xe9; 0xd800; 0x4e00] /\
    hashCode s' = s32 (computeUtf16Hash [0; 0xe9; 0xd800; 0x4e00]).
Proof.
  intros s. split; [reflexivity|]. apply string_cstr_roundtrip.
  - intros n. apply repeat_length.
  - split; [reflexivity|]. split; [reflexivity|]. repeat constructor; unfold inU; lia.
  - cbn. lia.
Defined.

(** ** Comparison and hash codes *)

Lemma memcmp_zero a : forall b, length a = length b -> memcmp a b = 0 <-> a = b.
Proof.
  induction a as [|x a IH]; intros [|y b] E; try done. cbn [memcmp]. injection E as E.
  destruct (Z.eqb_spec x y) as [->|Hne].
  - rewrite IH by done. split; congruence.
  - split; [lia|congruence].
Qed.

Lemma unit_bytes_inj u : forall v, Forall (inU 16) u -> Forall (inU 16) v ->
  length u = length v -> unit_bytes u = unit_bytes v -> u = v.
Proof.
  induction u as [|x u IH]; intros [|y v] Hu Hv E H; try done.
  apply Forall_cons in Hu as [Hx Hu], Hv as [Hy Hv]. injection E as E.
  unfold unit_bytes in H. cbn [fmap list_fmap concat] in H.
  apply app_inj_1 in H as [H1 H2]; [|by rewrite !length_le_bytes].
  assert (x = y).
  { apply (f_equal le_val) in H1. rewrite !le_val_bytes in H1. unfold inU in *.
    change (256 ^ Z.of_nat 2) with (2 ^ 16) in H1. by rewrite !Z.mod_small in H1. }
  f_equal; [done|]. by apply IH.
Qed.

Lemma unit_bytes_length u : length (unit_bytes u) = (2 * length u)%nat.
Proof.
  induction u as [|x u IH]; [done|]. unfold unit_bytes in *. cbn [fmap list_fmap concat].
  rewrite length_app, length_le_bytes, IH. cbn [length]. lia.
Qed.

(** Comparing two strings gives 0 exactly for the same characters, and strings that
    compare equal have the same hash code. *)
Theorem strings_compare s1 s2 u1 u2 : string_of s1 u1 -> string_of s2 u2 ->
  Z.of_nat (length u1) < 2 ^ 31 -> Z.of_nat (length u2) < 2 ^ 31 ->
  exists d, dvmHashcmpStrings s1 s2 = Some d /\ (d = 0 <-> u1 = u2) /\
    (d = 0 -> computeUtf16Hash u1 = computeUtf16Hash u2).
Proof.
  intros (H1 & C1 & F1) (H2 & C2 & F2) L1 L2. unfold dvmHashcmpStrings. rewrite C1, C2.
  destruct (Z.eqb_spec (Z.of_nat (length u1)) (Z.of_nat (length u2))) as [E|E]; cbn [negb].
  - rewrite H1, H2. cbn [mbind option_bind]. eexists. split; [reflexivity|].
    assert (Hd : memcmp (unit_bytes u1) (unit_bytes u2) = 0 <-> u1 = u2).
    { rewrite memcmp_zero by (rewrite !unit_bytes_length; lia).
      split; [|congruence]. apply unit_bytes_inj; (done || lia). }
    rewrite Hd. split; [done|congruence].
  - rewrite chkS_Some by (unfold inS; change (2 ^ (32 - 1)) with (2 ^ 31); lia). eexists. split; [done|].
    split; [|lia]. split; [lia|]. intros ->. lia.
Qed.
