(* ===== verification/DexDataMap.v ===== *)
(** * The map of the data section: [dalvik/libdex/DexDataMap.cpp]

    Two parallel arrays, sorted by offset, filled while a dex file is verified and
    searched by halving. An operation is [None] when its assertion fails or it
    leaves the arrays; [size_t] and pointers have 32 bits. *)

From S2P Require Import Prelude Bits Search.

(** ** Data *)

Record DexDataMap := MkDexDataMap {
  count : Z;
  max : Z;
  offsets : list Z;
  types : list Z
}.

Definition sizeof_DexDataMap : Z := 16.
Definition sizeof_entry : Z := 4 + 2.

(** ** Operations *)

Section Alloc.
(** [safe_mul] and [safe_add] of [safe_iop.h], which is not among the sources:
    [None] stands for the answer false. Then whether the heap can give so many
    bytes, and what it leaves in them. *)
Context (safe_mul safe_add : Z -> Z -> option Z) (heap_has : Z -> bool) (garbage : Z).

(** [None]: [NULL]. *)
Definition dexDataMapAlloc (maxCount : Z) : option DexDataMap :=
  size ← safe_mul maxCount sizeof_entry;
  size ← safe_add size sizeof_DexDataMap;
  if heap_has size then
    Some (MkDexDataMap 0 maxCount (repeat garbage (Z.to_nat maxCount))
            (repeat garbage (Z.to_nat maxCount)))
  else None.

End Alloc.

Definition dexDataMapAdd (map : DexDataMap) (offset type : Z) : option DexDataMap :=
  if count map <? max map then
    out_of_order ← (if negb (count map =? 0) then
                      last ← aref (offsets map) (count map - 1);
                      Some (last >=? offset)
                    else Some false);
    if (out_of_order : bool) then Some map
    else
      offsets' ← aset (offsets map) (count map) offset;
      types' ← aset (types map) (count map) type;
      Some (MkDexDataMap (u32 (count map + 1)) (max map) offsets' types')
  else None.

(** The body of the loop. *)
Definition data_map_guess (map : DexDataMap) (offset guessIdx : Z) : option (probe Z) :=
  guess ← aref (offsets map) guessIdx;
  if offset <? guess then Some Below
  else if offset >? guess then Some Above
  else type ← aref (types map) guessIdx; Some (Hit type).

Definition dexDataMapGet (map : DexDataMap) (offset : Z) : option Z :=
  let max := s32 (u32 (count map - 1)) in
  found ← search_loop (data_map_guess map offset) (Z.to_nat (count map)) 0 max;
  Some (default (-1) found).

Definition dexDataMapVerify (map : DexDataMap) (offset type : Z) : option bool :=
  found ← dexDataMapGet map offset;
  Some (found =? type).

Definition dexDataMapVerify0Ok (map : DexDataMap) (offset type : Z) : option bool :=
  if offset =? 0 then Some true else dexDataMapVerify map offset type.

(** ** The specification: a finite map from offsets to types *)

(** An item is recorded when it lies after all the others. *)
Definition record_item (m : gmap Z Z) (item : Z * Z) : gmap Z Z :=
  if decide (map_Forall (fun o _ => o < item.1) m) then <[item.1 := item.2]> m else m.

Definition recorded (items : list (Z * Z)) : gmap Z Z := foldl record_item ∅ items.

Definition add_all (map : DexDataMap) (items : list (Z * Z)) : option DexDataMap :=
  foldl (fun d item => d ← d; dexDataMapAdd d item.1 item.2) (Some map) items.

(** The arrays stand for a finite map. *)
Record rep (d : DexDataMap) (m : gmap Z Z) : Prop := {
  rep_count : 0 <= count d <= max d;
  rep_size : max d * sizeof_entry + sizeof_DexDataMap < 2 ^ 32;
  rep_offsets : Z.of_nat (length (offsets d)) = max d;
  rep_types : Z.of_nat (length (types d)) = max d;
  rep_sorted i j a b : 0 <= i < j -> j < count d ->
    aref (offsets d) i = Some a -> aref (offsets d) j = Some b -> a < b;
  rep_lookup o t : m !! o = Some t <->
    exists i, 0 <= i < count d /\ aref (offsets d) i = Some o /\ aref (types d) i = Some t
}.

(** ** Lemmas *)

Lemma rep_entry d m i : rep d m -> 0 <= i < count d ->
  exists o t, aref (offsets d) i = Some o /\ aref (types d) i = Some t /\ m !! o = Some t.
Proof.
  intros Hr Hi. pose proof (rep_count d m Hr). pose proof (rep_offsets d m Hr). pose proof (rep_types d m Hr).
  destruct (proj2 (aref_is_Some (offsets d) i)) as [o Ho]; [lia|].
  destruct (proj2 (aref_is_Some (types d) i)) as [t Ht]; [lia|].
  exists o, t. split_and!; [done..|]. apply (rep_lookup d m Hr). by exists i.
Qed.

Lemma alloc_rep max garbage : 0 <= max -> max * sizeof_entry + sizeof_DexDataMap < 2 ^ 32 ->
  rep (MkDexDataMap 0 max (repeat garbage (Z.to_nat max)) (repeat garbage (Z.to_nat max))) ∅.
Proof.
  intros H0 Hs. split; cbn [count DexDataMap.max offsets types]; rewrite ?repeat_length; try lia.
  intros o t. rewrite lookup_empty. split; [done|]. intros (i & Hi & _). lia.
Qed.

(** The test of the last entry decides whether the offset is beyond every other. *)
Lemma last_is_greatest d m o : rep d m ->
  (if negb (count d =? 0) then last ← aref (offsets d) (count d - 1); Some (last >=? o)
   else Some false) = Some (negb (bool_decide (map_Forall (fun x _ => x < o) m))).
Proof.
  intros Hr. destruct (Z.eqb_spec (count d) 0) as [E|E]; cbn [negb].
  - rewrite bool_decide_eq_true_2; [done|]. intros x t Hx. apply (rep_lookup d m Hr) in Hx as (i & Hi & _). lia.
  - pose proof (rep_count d m Hr). destruct (rep_entry d m (count d - 1) Hr) as (a & t & Ha & Ht & Hm); [lia|].
    rewrite Ha. cbn [mbind option_bind]. f_equal. rewrite Z.geb_leb.
    destruct (Z.leb_spec o a) as [Hle|Hlt]; symmetry.
    + rewrite bool_decide_eq_false_2; [done|]. intros Hf. specialize (Hf a t Hm). cbn in Hf. lia.
    + rewrite bool_decide_eq_true_2; [done|]. intros x u Hx. apply (rep_lookup d m Hr) in Hx as (i & Hi & Ho & _).
      destruct (decide (i = count d - 1)) as [->|]; [congruence|].
      pose proof (rep_sorted d m Hr i (count d - 1) x a ltac:(lia) ltac:(lia) Ho Ha). lia.
Qed.

(** Storing at [count] keeps the entries below. *)
Lemma add_rep d m o t : rep d m -> count d < max d -> 
  exists d', dexDataMapAdd d o t = Some d' /\ rep d' (record_item m (o, t)) /\
    max d' = max d /\ count d' <= count d + 1.
Proof.
  intros Hr Hc. unfold dexDataMapAdd, record_item. cbn [fst snd].
  rewrite (proj2 (Z.ltb_lt _ _) Hc), (last_is_greatest d m o Hr). cbn [mbind option_bind].
  destruct (decide (map_Forall _ m)) as [Hf|Hf].
  2: { rewrite bool_decide_eq_false_2 by done. cbn [negb]. exists d. split_and!; [done..|lia]. }
  rewrite bool_decide_eq_true_2 by done. cbn [negb].
  pose proof (rep_count d m Hr) as H0. pose proof (rep_size d m Hr) as Hs. unfold sizeof_entry, sizeof_DexDataMap in Hs.
  pose proof (rep_offsets d m Hr) as Hlo. pose proof (rep_types d m Hr) as Hlt.
  destruct (aset (offsets d) (count d) o) as [os|] eqn:Eo; [|rewrite aset_in in Eo by lia; done].
  destruct (aset (types d) (count d) t) as [ts|] eqn:Et; [|rewrite aset_in in Et by lia; done].
  cbn [mbind option_bind]. rewrite wrapU_id by (unfold inU; lia). eexists. split; [done|].
  cbn [count max]. split; [|lia].
  split; unfold sizeof_entry, sizeof_DexDataMap; cbn [count max offsets types];
    rewrite ?(aset_length _ _ _ _ Eo), ?(aset_length _ _ _ _ Et); try lia.
  - intros i j a b Hij Hj. rewrite !(aref_aset _ _ _ _ _ Eo).
    destruct (decide (count d = i)); [lia|]. destruct (decide (count d = j)) as [<-|].
    + intros Ha [= <-]. destruct (rep_entry d m i Hr) as (a' & u & Ha' & _ & Hm); [lia|].
      assert (a' = a) as -> by congruence. apply (Hf a u Hm).
    + apply (rep_sorted d m Hr); lia.
  - intros x u. rewrite lookup_insert_Some. setoid_rewrite (aref_aset _ _ _ _ _ Eo).
    setoid_rewrite (aref_aset _ _ _ _ _ Et). rewrite (rep_lookup d m Hr x u). split.
    + intros [[-> ->]|[Hne (i & Hi & Hx & Hu)]].
      * exists (count d). rewrite !decide_True by done. split; [lia|done].
      * exists i. rewrite !decide_False by lia. split; [lia|done].
    + intros (i & Hi & Hx & Hu). destruct (decide (count d = i)) as [E|].
      * left. split; congruence.
      * right. split; [|exists i; split; [lia|done]]. intros ->.
        destruct (rep_entry d m i Hr) as (a & v & Ha & _ & Hm); [lia|].
        assert (a = x) as -> by congruence. specialize (Hf x v Hm). cbn in Hf. lia.
Qed.

Lemma add_all_rep items : forall d m, rep d m -> count d + Z.of_nat (length items) <= max d ->
  exists d', add_all d items = Some d' /\ rep d' (foldl record_item m items).
Proof.
  induction items as [|[o t] items IH]; intros d m Hr Hl.
  - by exists d.
  - cbn [length] in Hl. destruct (add_rep d m o t Hr) as (d1 & E & Hr1 & Hm & Hc); [lia|].
    destruct (IH d1 _ Hr1) as (d' & E' & Hr'); [lia|]. exists d'. split; [|done].
    unfold add_all in *. cbn [foldl mbind option_bind fst snd]. by rewrite E.
Qed.

Lemma guess_searchable d m o : rep d m -> searchable (data_map_guess d o) (count d).
Proof.
  intros Hr. pose proof (rep_count d m Hr). pose proof (rep_size d m Hr) as Hs.
  unfold sizeof_entry, sizeof_DexDataMap in Hs.
  split; [lia|..]; unfold data_map_guess.
  - intros i Hi. destruct (rep_entry d m i Hr Hi) as (a & t & -> & Ht & _). cbn [mbind option_bind].
    destruct (o <? a); [by eexists|]. destruct (o >? a); [by eexists|]. rewrite Ht. by eexists.
  - intros i j Hij Hj. destruct (decide (i = j)) as [->|]; [done|].
    destruct (rep_entry d m i Hr) as (a & t & Ha & Ht & _); [lia|].
    destruct (rep_entry d m j Hr) as (b & u & Hb & _ & _); [lia|].
    pose proof (rep_sorted d m Hr i j a b ltac:(lia) Hj Ha Hb). rewrite Ha, Hb, Ht. cbn [mbind option_bind].
    destruct (Z.ltb_spec o a); [|destruct (o >? a); intros; discriminate].
    by rewrite (proj2 (Z.ltb_lt o b)) by lia.
  - intros i j Hij Hj. destruct (decide (i = j)) as [->|]; [done|].
    destruct (rep_entry d m i Hr) as (a & t & Ha & Ht & _); [lia|].
    destruct (rep_entry d m j Hr) as (b & u & Hb & Hu & _); [lia|].
    pose proof (rep_sorted d m Hr i j a b ltac:(lia) Hj Ha Hb). rewrite Ha, Hb, Hu. cbn [mbind option_bind].
    destruct (Z.ltb_spec o b); [intros; discriminate|]. rewrite !Z.gtb_ltb.
    destruct (Z.ltb_spec b o); [|intros; discriminate].
    rewrite (proj2 (Z.ltb_ge o a)) by lia. by rewrite (proj2 (Z.ltb_lt a o)) by lia.
Qed.

Lemma guess_hit d m o i t : rep d m -> 0 <= i < count d ->
  data_map_guess d o i = Some (Hit t) <-> aref (offsets d) i = Some o /\ aref (types d) i = Some t.
Proof.
  intros Hr Hi. unfold data_map_guess. destruct (rep_entry d m i Hr Hi) as (a & u & -> & -> & _).
  cbn [mbind option_bind]. rewrite Z.gtb_ltb. destruct (Z.ltb_spec o a), (Z.ltb_spec a o);
    (split; [intros [= ]|intros [[= ] [= ]]]); subst; try lia.
  - split; f_equal; lia.
  - done.
Qed.

Lemma get_rep d m o : rep d m -> dexDataMapGet d o = Some (default (-1) (m !! o)).
Proof.
  intros Hr. pose proof (rep_count d m Hr). pose proof (rep_size d m Hr) as Hs.
  unfold sizeof_entry, sizeof_DexDataMap in Hs. unfold dexDataMapGet.
  assert (s32 (u32 (count d - 1)) = count d - 1) as ->.
  { rewrite wrapS_wrapU, wrapS_id by (try unfold inS; lia). lia. }
  destruct (search_spec _ (count d) (Z.to_nat (count d)) (guess_searchable d m o Hr) ltac:(lia)) as (r & -> & Hres).
  cbn [mbind option_bind]. do 2 f_equal. destruct r as [t|]; cbn [search_result] in Hres.
  - destruct Hres as (i & Hi & Ht). apply (guess_hit d m o i t Hr Hi) in Ht.
    symmetry. apply (rep_lookup d m Hr). by exists i.
  - symmetry. apply eq_None_not_Some. intros [t Ht]. apply (rep_lookup d m Hr) in Ht as (i & Hi & Ho).
    apply (guess_hit d m o i t Hr Hi) in Ho. destruct (Hres i Hi); congruence.
Qed.

(** ** Properties *)

Section Refinement.
Context (safe_mul safe_add : Z -> Z -> option Z) (heap_has : Z -> bool) (garbage : Z).
(** What [safe_iop.h] documents: the result, when the type [size_t] can hold it. *)
Hypothesis safe_mul_ok : forall a b, inU 32 a -> inU 32 b ->
  safe_mul a b = if decide (inU 32 (a * b)) then Some (a * b) else None.
Hypothesis safe_add_ok : forall a b, inU 32 a -> inU 32 b ->
  safe_add a b = if decide (inU 32 (a + b)) then Some (a + b) else None.

Lemma data_map_alloc_spec maxCount : inU 32 maxCount ->
  dexDataMapAlloc safe_mul safe_add heap_has garbage maxCount =
    if decide (maxCount * sizeof_entry + sizeof_DexDataMap < 2 ^ 32) then
      if heap_has (maxCount * sizeof_entry + sizeof_DexDataMap) then
        Some (MkDexDataMap 0 maxCount (repeat garbage (Z.to_nat maxCount))
                (repeat garbage (Z.to_nat maxCount)))
      else None
    else None.
Proof using safe_mul_ok safe_add_ok.
  intros Hm. unfold dexDataMapAlloc. unfold sizeof_entry, sizeof_DexDataMap, inU in *.
  rewrite safe_mul_ok by lia.
  destruct (decide (maxCount * (4 + 2) + 16 < 2 ^ 32)) as [Hs|Hs].
  - rewrite decide_True by lia. cbn [mbind option_bind]. rewrite safe_add_ok by lia.
    by rewrite decide_True by lia.
  - destruct (decide (0 <= maxCount * (4 + 2) < 2 ^ 32)); [|done]. cbn [mbind option_bind].
    rewrite safe_add_ok by lia. by rewrite decide_False by lia.
Qed.

(** The sorted arrays refine a finite map. When the size of the table fits
    [size_t] and the heap has it (otherwise the allocation answers [NULL]), adding
    any items, as many as there is room for, succeeds, whatever their order; the
    searches then end and answer what the finite map answers that records an item
    only when its offset is beyond all the recorded ones: [dexDataMapGet] the type
    or [-1], [dexDataMapVerify] whether the offset has that type, and
    [dexDataMapVerify0Ok] the same or true for the offset 0. No index of the search
    overflows an [int], however large the table. *)
Theorem data_map_refines maxCount items : inU 32 maxCount ->
  heap_has (maxCount * sizeof_entry + sizeof_DexDataMap) = true ->
  Z.of_nat (length items) <= maxCount ->
  match dexDataMapAlloc safe_mul safe_add heap_has garbage maxCount with
  | None => 2 ^ 32 <= maxCount * sizeof_entry + sizeof_DexDataMap
  | Some d =>
      exists d', add_all d items = Some d' /\ forall offset type,
        dexDataMapGet d' offset = Some (default (-1) (recorded items !! offset)) /\
        (inU 16 type -> dexDataMapVerify d' offset type =
           Some (bool_decide (recorded items !! offset = Some type))) /\
        (inU 16 type -> dexDataMapVerify0Ok d' offset type =
           Some (bool_decide (offset = 0 \/ recorded items !! offset = Some type)))
  end.
Proof using safe_mul_ok safe_add_ok.
  intros Hm Hh Hl. rewrite data_map_alloc_spec, Hh by done. destruct (decide _) as [Hs|Hs]; [|lia].
  destruct (add_all_rep items _ _ (alloc_rep maxCount garbage ltac:(unfold inU in Hm; lia) Hs)) as (d' & E & Hr); [done|].
  exists d'. split; [done|]. intros o t. change (foldl record_item ∅ items) with (recorded items) in Hr.
  assert (Hv : inU 16 t -> dexDataMapVerify d' o t = Some (bool_decide (recorded items !! o = Some t))).
  { intros Ht. unfold dexDataMapVerify. rewrite (get_rep d' _ o Hr). cbn [mbind option_bind]. f_equal.
    destruct (recorded items !! o) as [u|]; cbn [default from_option id].
    - destruct (Z.eqb_spec u t) as [->|]; symmetry; [by apply bool_decide_eq_true_2|].
      apply bool_decide_eq_false_2. congruence.
    - unfold inU in Ht. by rewrite (proj2 (Z.eqb_neq _ _)) by lia. }
  split_and!; [by apply get_rep|done|]. intros Ht. unfold dexDataMapVerify0Ok.
  destruct (Z.eqb_spec o 0) as [->|]; [by rewrite bool_decide_eq_true_2 by auto|].
  rewrite Hv by done. f_equal. apply bool_decide_ext. naive_solver.
Qed.

End Refinement.

(** Exact operations, with room for 1024 bytes. *)
Definition exact32 (z : Z) : option Z := if decide (inU 32 z) then Some z else None.

Lemma data_map_refines_witness :
  recorded [(0x70, 0); (0x1a4, 0x2001); (0x100, 0x2002); (0x2b0, 0x2003)] !! 0x1a4 = Some 0x2001 /\
  exists d', add_all (MkDexDataMap 0 4 (repeat 7 4) (repeat 7 4))
      [(0x70, 0); (0x1a4, 0x2001); (0x100, 0x2002); (0x2b0, 0x2003)] = Some d' /\
    dexDataMapGet d' 0x1a4 = Some 0x2001.
Proof.
  split; [vm_compute; reflexivity|].
  pose proof (data_map_refines (fun a b => exact32 (a * b)) (fun a b => exact32 (a + b))
    (fun n => n <=? 1024) 7 (fun a b _ _ => eq_refl) (fun a b _ _ => eq_refl)
    4 [(0x70, 0); (0x1a4, 0x2001); (0x100, 0x2002); (0x2b0, 0x2003)]
    ltac:(unfold inU; lia) eq_refl ltac:(reflexivity || (simpl; lia))) as H.
  change (exists d', add_all (MkDexDataMap 0 4 (repeat 7 4) (repeat 7 4))
      [(0x70, 0); (0x1a4, 0x2001); (0x100, 0x2002); (0x2b0, 0x2003)] = Some d' /\ forall offset type,
        dexDataMapGet d' offset = Some (default (-1) (recorded [(0x70, 0); (0x1a4, 0x2001); (0x100, 0x2002); (0x2b0, 0x2003)] !! offset)) /\
        (inU 16 type -> dexDataMapVerify d' offset type =
           Some (bool_decide (recorded [(0x70, 0); (0x1a4, 0x2001); (0x100, 0x2002); (0x2b0, 0x2003)] !! offset = Some type))) /\
        (inU 16 type -> dexDataMapVerify0Ok d' offset type =
           Some (bool_decide (offset = 0 \/ recorded [(0x70, 0); (0x1a4, 0x2001); (0x100, 0x2002); (0x2b0, 0x2003)] !! offset = Some type)))) in H.
  destruct H as (d' & E & H). exists d'. split; [exact E|]. exact (proj1 (H 0x1a4 0)).
Defined.
