(* ===== verification/DexCatch.v ===== *)
(** * Try tables and catch handlers: [dalvik/libdex/DexCatch.cpp] and [DexCatch.h]

    The try table of a method's code, searched by halving, and the iterator over
    the encoded catch handlers. A pointer into the encoded handlers is the list of
    the bytes from it on; reading past their end is [None]. *)

From S2P Require Import Prelude Bits Leb128 Search.

(** ** Data *)

Record DexTry := MkDexTry { startAddr : Z; insnCount : Z; handlerOff : Z }.

(** A code item: [tries] and [handler_data] are what the file holds after the
    instructions, where [dexGetTries] and [dexGetCatchHandlerData] point. *)
Record DexCode := MkDexCode {
  registersSize : Z;
  insSize : Z;
  outsSize : Z;
  triesSize : Z;
  debugInfoOff : Z;
  insnsSize : Z;
  insns : list Z;
  tries : list DexTry;
  handler_data : list Z
}.

Definition kDexNoIndex : Z := 0xffffffff.

Record DexCatchHandler := MkHandler { typeIdx : Z; address : Z }.

Record DexCatchIterator := MkIterator {
  pEncodedData : list Z;
  catchesAll : bool;
  countRemaining : Z;
  handler : DexCatchHandler
}.

(** ** The iterator *)

(** The null pointer has no bytes. *)
Definition dexCatchIteratorClear : DexCatchIterator := MkIterator [] false 0 (MkHandler 0 0).

(** The handler of the iterator is left as it was. *)
Definition dexCatchIteratorInitToPointer (pIterator : DexCatchIterator) (pEncodedData : list Z) :
    option DexCatchIterator :=
  '(count, pEncodedData) ← readSignedLeb128 pEncodedData;
  if count <=? 0 then
    count ← chkS 32 (- count);
    Some (MkIterator pEncodedData true count (handler pIterator))
  else Some (MkIterator pEncodedData false count (handler pIterator)).

Definition dexCatchIteratorInit (pIterator : DexCatchIterator) (pCode : DexCode) (offset : Z) :
    option DexCatchIterator :=
  dexCatchIteratorInitToPointer pIterator (drop (Z.to_nat offset) (handler_data pCode)).

(** The returned handler, or [NULL], and the iterator. *)
Definition dexCatchIteratorNext (pIterator : DexCatchIterator) :
    option (option DexCatchHandler * DexCatchIterator) :=
  if (countRemaining pIterator =? 0) && negb (catchesAll pIterator) then Some (None, pIterator)
  else
    '(typeIdx, all, remaining, data) ←
      (if countRemaining pIterator =? 0 then
         Some (kDexNoIndex, false, countRemaining pIterator, pEncodedData pIterator)
       else
         '(typeIdx, data) ← readUnsignedLeb128 (pEncodedData pIterator);
         Some (u32 typeIdx, catchesAll pIterator, countRemaining pIterator - 1, data));
    '(address, data) ← readUnsignedLeb128 data;
    let h := MkHandler typeIdx (u32 address) in
    Some (Some h, MkIterator data all remaining h).

(** The handlers the iterator returns until [NULL]: the loops over an iterator. *)
Fixpoint handlers_loop (fuel : nat) (pIterator : DexCatchIterator) :
    option (list DexCatchHandler * DexCatchIterator) :=
  match fuel with
  | O => None
  | S fuel =>
      '(h, pIterator) ← dexCatchIteratorNext pIterator;
      match h with
      | None => Some ([], pIterator)
      | Some h =>
          '(hs, pIterator) ← handlers_loop fuel pIterator;
          Some (h :: hs, pIterator)
      end
  end.

(** Enough turns: the handlers left, the one that catches all, and [NULL]. *)
Definition handlers_left (pIterator : DexCatchIterator) :
    option (list DexCatchHandler * DexCatchIterator) :=
  handlers_loop (Z.to_nat (countRemaining pIterator) + 2) pIterator.

Definition dexCatchIteratorGetEndOffset (pIterator : DexCatchIterator) (pCode : DexCode) :
    option (Z * DexCatchIterator) :=
  '(_, pIterator) ← handlers_left pIterator;
  Some (u32 (Z.of_nat (length (handler_data pCode)) - Z.of_nat (length (pEncodedData pIterator))),
        pIterator).

(** ** The list of handlers *)

Definition dexGetFirstHandlerOffset (pCode : DexCode) : option Z :=
  if triesSize pCode =? 0 then Some 0
  else
    let baseData := handler_data pCode in
    '(_, data) ← readUnsignedLeb128 baseData;
    Some (u32 (Z.of_nat (length baseData) - Z.of_nat (length data))).

Definition dexGetHandlersSize (pCode : DexCode) : option Z :=
  if triesSize pCode =? 0 then Some 0
  else '(size, _) ← readUnsignedLeb128 (handler_data pCode); Some (u32 size).

(** ** Finding the handlers of an address *)

(** The body of the loop. *)
Definition try_guess (pTries : list DexTry) (address guess : Z) : option (probe Z) :=
  pTry ← aref pTries guess;
  let start := startAddr pTry in
  if address <? start then Some Below
  else
    let end_ := u32 (start + insnCount pTry) in
    if address >=? end_ then Some Above else Some (Hit (handlerOff pTry)).

Definition dexFindCatchHandlerOffset0 (triesSize : Z) (pTries : list DexTry) (address : Z) :
    option Z :=
  found ← search_loop (try_guess pTries address) (Z.to_nat triesSize) 0 (triesSize - 1);
  Some (default (-1) found).

Definition dexFindCatchHandler (pIterator : DexCatchIterator) (pCode : DexCode) (address : Z) :
    option (bool * DexCatchIterator) :=
  offset ←
    (if triesSize pCode =? 0 then Some (-1)
     else if triesSize pCode =? 1 then
       pTry ← aref (tries pCode) 0;
       let start := startAddr pTry in
       if address <? start then Some (-1)
       else
         let end_ := u32 (start + insnCount pTry) in
         if address >=? end_ then Some (-1) else Some (handlerOff pTry)
     else dexFindCatchHandlerOffset0 (triesSize pCode) (tries pCode) address);
  if offset <? 0 then Some (false, dexCatchIteratorClear)
  else
    pIterator ← dexCatchIteratorInit pIterator pCode offset;
    Some (true, pIterator).

(** ** What a well-formed table means *)

Definition try_ok (t : DexTry) : Prop :=
  0 <= startAddr t /\ 0 <= insnCount t /\ startAddr t + insnCount t < 2 ^ 32 /\ 0 <= handlerOff t.

(** [dexFile] tables are sorted and their ranges do not overlap. *)
Record tries_ok (pCode : DexCode) : Prop := {
  tries_size : triesSize pCode = Z.of_nat (length (tries pCode));
  tries_bound : inU 16 (triesSize pCode);
  tries_each : Forall try_ok (tries pCode);
  tries_sorted i j a b : 0 <= i < j -> aref (tries pCode) i = Some a -> aref (tries pCode) j = Some b ->
    startAddr a + insnCount a <= startAddr b
}.

Definition covers (addr : Z) (t : DexTry) : bool :=
  (startAddr t <=? addr) && (addr <? startAddr t + insnCount t).

(** The try block an address lies in. *)
Definition covering (addr : Z) (l : list DexTry) : option DexTry := List.find (covers addr) l.

(** ** Lemmas *)

Lemma try_guess_spec l addr i t : aref l i = Some t -> try_ok t ->
  try_guess l addr i = Some (if addr <? startAddr t then Below
    else if addr >=? startAddr t + insnCount t then Above else Hit (handlerOff t)).
Proof.
  intros E (H1 & H2 & H3 & _). unfold try_guess. rewrite E. cbn [mbind option_bind].
  rewrite wrapU_id by (unfold inU; lia). by destruct (addr <? startAddr t), (addr >=? startAddr t + insnCount t).
Qed.

Lemma tries_entry pCode i : tries_ok pCode -> 0 <= i < triesSize pCode ->
  exists t, aref (tries pCode) i = Some t /\ try_ok t.
Proof.
  intros Ht Hi. rewrite (tries_size pCode Ht) in Hi. destruct (proj2 (aref_is_Some (tries pCode) i) Hi) as [t E].
  exists t. split; [done|]. pose proof (tries_each pCode Ht) as Hf.
  rewrite aref_nat in E by lia. by apply (Forall_lookup_1 _ _ _ _ Hf E).
Qed.

Lemma tries_searchable pCode addr : tries_ok pCode ->
  searchable (try_guess (tries pCode) addr) (triesSize pCode).
Proof.
  intros Ht. pose proof (tries_bound pCode Ht) as Hb. unfold inU in Hb.
  split; [lia|..].
  - intros i Hi. destruct (tries_entry pCode i Ht Hi) as (t & E & Hok).
    rewrite (try_guess_spec _ _ _ _ E Hok). by eexists.
  - intros i j Hij Hj. destruct (decide (i = j)) as [->|]; [done|].
    destruct (tries_entry pCode i Ht) as (s & Ei & Hs); [lia|].
    destruct (tries_entry pCode j Ht) as (t & Ej & Hok); [lia|].
    pose proof (tries_sorted pCode Ht i j s t ltac:(lia) Ei Ej). destruct Hs as (? & ? & ? & ?).
    rewrite (try_guess_spec _ _ _ _ Ei), (try_guess_spec _ _ _ _ Ej) by done.
    destruct (Z.ltb_spec addr (startAddr s)); [|destruct (addr >=? startAddr s + insnCount s); intros; discriminate].
    by rewrite (proj2 (Z.ltb_lt addr (startAddr t))) by lia.
  - intros i j Hij Hj. destruct (decide (i = j)) as [->|]; [done|].
    destruct (tries_entry pCode i Ht) as (s & Ei & Hs); [lia|].
    destruct (tries_entry pCode j Ht) as (t & Ej & Hok); [lia|].
    pose proof (tries_sorted pCode Ht i j s t ltac:(lia) Ei Ej).
    rewrite (try_guess_spec _ _ _ _ Ei), (try_guess_spec _ _ _ _ Ej) by done.
    destruct Hs as (? & ? & ? & ?), Hok as (? & ? & ? & ?).
    rewrite !Z.geb_leb.
    destruct (Z.ltb_spec addr (startAddr t)); [intros; discriminate|].
    destruct (Z.leb_spec (startAddr t + insnCount t) addr); [|intros; discriminate].
    rewrite (proj2 (Z.ltb_ge addr (startAddr s))) by lia.
    by rewrite (proj2 (Z.leb_le (startAddr s + insnCount s) addr)) by lia.
Qed.

Lemma try_guess_hit l addr i t : aref l i = Some t -> try_ok t ->
  try_guess l addr i = Some (Hit (handlerOff t)) <-> covers addr t = true.
Proof.
  intros E Hok. rewrite (try_guess_spec _ _ _ _ E Hok). unfold covers. rewrite Z.geb_leb.
  destruct Hok as (? & ? & ? & ?).
  destruct (Z.ltb_spec addr (startAddr t)), (Z.leb_spec (startAddr t) addr); try lia; cbn [andb].
  - split; intros; discriminate.
  - destruct (Z.leb_spec (startAddr t + insnCount t) addr), (Z.ltb_spec addr (startAddr t + insnCount t));
      try lia; (split; [intros; congruence|done]).
Qed.

(** At most one block covers an address, so the first is the one. *)
Lemma covering_unique pCode addr i t : tries_ok pCode -> aref (tries pCode) i = Some t ->
  covers addr t = true -> covering addr (tries pCode) = Some t.
Proof.
  intros Ht E Hc. destruct (covering addr (tries pCode)) as [s|] eqn:F.
  - apply find_some in F as [Hin Hs]. apply list_elem_of_In, list_elem_of_lookup in Hin as [k Hk].
    assert (Ek : aref (tries pCode) (Z.of_nat k) = Some s) by (rewrite aref_nat by lia; by rewrite Nat2Z.id).
    pose proof (aref_lt _ _ _ E). unfold covers in *.
    apply andb_prop in Hc as [?%Z.leb_le ?%Z.ltb_lt], Hs as [?%Z.leb_le ?%Z.ltb_lt].
    destruct (Z.lt_trichotomy i (Z.of_nat k)) as [Hlt|[->|Hlt]]; [|congruence|].
    + pose proof (tries_sorted pCode Ht _ _ _ _ (conj (proj1 H) Hlt) E Ek). lia.
    + pose proof (tries_sorted pCode Ht _ _ _ _ (conj (Nat2Z.is_nonneg k) Hlt) Ek E). lia.
  - pose proof (find_none _ _ F t) as Hn. rewrite Hn in Hc; [done|].
    apply list_elem_of_In, list_elem_of_lookup. pose proof (aref_lt _ _ _ E). rewrite aref_nat in E by lia. by eexists.
Qed.

Lemma covering_None pCode addr : (forall i t, aref (tries pCode) i = Some t -> covers addr t = false) ->
  covering addr (tries pCode) = None.
Proof.
  intros H. destruct (covering addr (tries pCode)) as [s|] eqn:F; [|done].
  apply find_some in F as [Hin Hs]. apply list_elem_of_In, list_elem_of_lookup in Hin as [k Hk].
  rewrite (H (Z.of_nat k) s) in Hs; [done|]. rewrite aref_nat by lia. by rewrite Nat2Z.id.
Qed.

Lemma find_offset_spec pCode addr : tries_ok pCode ->
  dexFindCatchHandlerOffset0 (triesSize pCode) (tries pCode) addr =
    Some (match covering addr (tries pCode) with Some t => handlerOff t | None => -1 end).
Proof.
  intros Ht. pose proof (tries_bound pCode Ht) as Hb. unfold inU in Hb. unfold dexFindCatchHandlerOffset0.
  destruct (search_spec _ _ (Z.to_nat (triesSize pCode)) (tries_searchable pCode addr Ht) ltac:(lia)) as (r & -> & Hres).
  cbn [mbind option_bind]. f_equal. destruct r as [off|]; cbn [search_result default from_option id] in *.
  - destruct Hres as (i & Hi & Hg). destruct (tries_entry pCode i Ht Hi) as (t & E & Hok).
    assert (off = handlerOff t) as ->.
    { rewrite (try_guess_spec _ _ _ _ E Hok) in Hg. destruct (addr <? startAddr t); [done|].
      destruct (addr >=? startAddr t + insnCount t); congruence. }
    apply (try_guess_hit _ _ _ _ E Hok) in Hg. by rewrite (covering_unique pCode addr i t).
  - rewrite covering_None; [done|]. intros i t E. apply not_true_iff_false. intros Hc.
    pose proof (aref_lt _ _ _ E) as Hi. rewrite <- (tries_size pCode Ht) in Hi.
    destruct (tries_entry pCode i Ht Hi) as (t' & E' & Hok). assert (t' = t) as -> by congruence.
    apply (try_guess_hit _ _ _ _ E Hok) in Hc. destruct (Hres i Hi); congruence.
Qed.

(** ** Properties *)

Lemma find_handler_spec pIterator pCode addr : tries_ok pCode ->
  dexFindCatchHandler pIterator pCode addr =
    match covering addr (tries pCode) with
    | Some t => it ← dexCatchIteratorInit pIterator pCode (handlerOff t); Some (true, it)
    | None => Some (false, dexCatchIteratorClear)
    end.
Proof.
  intros Ht. unfold dexFindCatchHandler.
  assert (E : (if triesSize pCode =? 0 then Some (-1)
     else if triesSize pCode =? 1 then
       pTry ← aref (tries pCode) 0;
       if addr <? startAddr pTry then Some (-1)
       else if addr >=? u32 (startAddr pTry + insnCount pTry) then Some (-1) else Some (handlerOff pTry)
     else dexFindCatchHandlerOffset0 (triesSize pCode) (tries pCode) addr) =
     Some (match covering addr (tries pCode) with Some t => handlerOff t | None => -1 end)).
  { pose proof (tries_size pCode Ht) as Hl. destruct (Z.eqb_spec (triesSize pCode) 0) as [E0|_].
    { by destruct (tries pCode); [|cbn [length] in Hl; lia]. }
    destruct (Z.eqb_spec (triesSize pCode) 1) as [E1|_]; [|by apply find_offset_spec].
    pose proof (tries_each pCode Ht) as Hf. destruct (tries pCode) as [|t [|? ?]]; cbn [length] in Hl; try lia.
    apply Forall_cons_1 in Hf as [(? & ? & ? & ?) _]. change (aref [t] 0) with (Some t). cbn [mbind option_bind].
    rewrite wrapU_id by (unfold inU; lia). unfold covering, covers. cbn [List.find].
    rewrite Z.geb_leb, Z.leb_antisym, (Z.leb_antisym addr). by destruct (addr <? startAddr t), (addr <? startAddr t + insnCount t). }
  rewrite E. cbn [mbind option_bind]. destruct (covering addr (tries pCode)) as [t|] eqn:F; [|done].
  apply find_some in F as [Hin _]. apply list_elem_of_In in Hin.
  destruct (proj1 (Forall_forall _ _) (tries_each pCode Ht) t Hin) as (_ & _ & _ & Ho).
  by rewrite (proj2 (Z.ltb_ge _ _) Ho).
Qed.

(** [dexFindCatchHandler] finds the handlers of the try block an address lies
    in. On a sorted table without overlaps, whatever the number of its entries (none
    and one are treated apart, more are searched by halving), it positions the
    iterator at the handlers of the one block that covers the address; when no block
    does it answers false and clears the iterator. *)
Theorem finds_covering_try pIterator pCode addr : tries_ok pCode ->
  dexFindCatchHandler pIterator pCode addr =
    match covering addr (tries pCode) with
    | Some t => it ← dexCatchIteratorInit pIterator pCode (handlerOff t); Some (true, it)
    | None => Some (false, dexCatchIteratorClear)
    end.
Proof. apply find_handler_spec. Qed.

(** ** The encoded handlers

    The catch clauses of a list, in order, and the address that catches all. *)
Record handler_list := MkHandlerList { caught : list (Z * Z); catch_all : option Z }.

Definition handlers_of (h : handler_list) : list DexCatchHandler :=
  map (fun p => MkHandler p.1 p.2) (caught h) ++
  match catch_all h with Some a => [MkHandler kDexNoIndex a] | None => [] end.

(** The bytes of the clauses: a type index and an address each. *)
Inductive clauses_text : list (Z * Z) -> list Z -> Prop :=
  | clauses_nil : clauses_text [] []
  | clauses_cons t a ps lt la l : uleb t lt -> uleb a la -> clauses_text ps l ->
      clauses_text ((t, a) :: ps) (lt ++ la ++ l).

(** The bytes of a list. Its size is positive when nothing catches all, and minus
    the number of clauses when something does; the numbers may be in any of their
    encodings. *)
Inductive list_text : handler_list -> list Z -> Prop :=
  | clauses_only ps ln lp : ps <> [] -> Z.of_nat (length ps) < 2 ^ 31 ->
      sleb (Z.of_nat (length ps)) ln -> clauses_text ps lp ->
      list_text (MkHandlerList ps None) (ln ++ lp)
  | clauses_and_all ps a ln lp la : Z.of_nat (length ps) < 2 ^ 31 ->
      sleb (- Z.of_nat (length ps)) ln -> clauses_text ps lp -> uleb a la ->
      list_text (MkHandlerList ps (Some a)) (ln ++ lp ++ la).

(** Where the bytes of the [i]-th list start. *)
Definition list_offset (size_text : list Z) (texts : list (list Z)) (i : nat) : Z :=
  Z.of_nat (length (size_text ++ concat (take i texts))).

(** The handler data of a method: lists of handlers as the format has them, and try
    blocks that refer to them. *)
Record catches_ok (pCode : DexCode) (hs : list handler_list) (size_text : list Z) (texts : list (list Z)) : Prop := {
  ok_tries : tries_ok pCode;
  ok_lists_size : uleb (Z.of_nat (length hs)) size_text;
  ok_lists : Forall2 list_text hs texts;
  ok_data : exists rest, Forall is_byte rest /\ handler_data pCode = size_text ++ concat texts ++ rest;
  ok_data_size : Z.of_nat (length (handler_data pCode)) < 2 ^ 32;
  ok_offsets t : t ∈ tries pCode -> exists i h, hs !! i = Some h /\ handlerOff t = list_offset size_text texts i
}.


Lemma uleb_bytes v l : uleb v l -> Forall is_byte l.
Proof. by intros [H _]. Qed.

Lemma sleb_bytes v l : sleb v l -> Forall is_byte l.
Proof. by intros [H _]. Qed.

#[local] Hint Resolve uleb_bytes sleb_bytes : core.

Lemma clauses_bytes ps l : clauses_text ps l -> Forall is_byte l.
Proof. induction 1; [constructor|]. rewrite !Forall_app. eauto. Qed.

Lemma list_text_bytes h l : list_text h l -> Forall is_byte l.
Proof.
  destruct 1 as [ps ln lp _ _ Hn Hp|ps a ln lp la _ Hn Hp Ha]; rewrite !Forall_app; split_and?;
    eauto using clauses_bytes.
Qed.

Lemma texts_bytes hs texts : Forall2 list_text hs texts -> Forall is_byte (concat texts).
Proof.
  induction 1 as [|h l hs texts Hl _ IH]; [constructor|]. cbn [concat]. apply Forall_app. split; [|done].
  by apply list_text_bytes in Hl.
Qed.

Lemma next_clause t a lt la l all n h : uleb t lt -> uleb a la -> Forall is_byte l ->
  dexCatchIteratorNext (MkIterator (lt ++ la ++ l) all (Z.of_nat (S n)) h) =
    Some (Some (MkHandler t a), MkIterator l all (Z.of_nat n) (MkHandler t a)).
Proof.
  intros Ht Ha Hl. unfold dexCatchIteratorNext. cbn [countRemaining catchesAll pEncodedData].
  rewrite (proj2 (Z.eqb_neq _ _)) by lia. cbn [andb].
  rewrite (uleb_read t lt) by (done || apply Forall_app; eauto). cbn [mbind option_bind].
  rewrite (uleb_read a la) by done. cbn [mbind option_bind].
  rewrite !wrapU_wrapS, !wrapU_id by (done || lia || by eapply uleb_range).
  by replace (Z.of_nat (S n) - 1) with (Z.of_nat n) by lia.
Qed.

Lemma next_catch_all a la l h : uleb a la -> Forall is_byte l ->
  dexCatchIteratorNext (MkIterator (la ++ l) true 0 h) =
    Some (Some (MkHandler kDexNoIndex a), MkIterator l false 0 (MkHandler kDexNoIndex a)).
Proof.
  intros Ha Hl. unfold dexCatchIteratorNext. cbn [countRemaining catchesAll pEncodedData Z.eqb andb negb mbind option_bind].
  rewrite (uleb_read a la) by done. cbn [mbind option_bind].
  by rewrite wrapU_wrapS, wrapU_id by (done || lia || by eapply uleb_range).
Qed.

Lemma loop_clauses ps lp : clauses_text ps lp -> forall fuel all rest h, Forall is_byte rest ->
  exists h', handlers_loop (length ps + fuel) (MkIterator (lp ++ rest) all (Z.of_nat (length ps)) h) =
    '(hs, it) ← handlers_loop fuel (MkIterator rest all 0 h');
    Some (map (fun p => MkHandler p.1 p.2) ps ++ hs, it).
Proof.
  induction 1 as [|t a ps lt la l Ht Ha Hps IH]; intros fuel all rest h Hr.
  - exists h. cbn [length app map Nat.add]. by destruct (handlers_loop fuel _) as [[? ?]|].
  - destruct (IH fuel all rest (MkHandler t a) Hr) as [h' E]. exists h'.
    cbn [length Nat.add handlers_loop map app]. rewrite <- !app_assoc.
    rewrite (next_clause t a) by (done || (apply Forall_app; split; [by eapply clauses_bytes|done])).
    cbn [mbind option_bind]. rewrite E. by destruct (handlers_loop fuel _) as [[? ?]|].
Qed.

Lemma loop_end data h fuel : handlers_loop (S fuel) (MkIterator data false 0 h) = Some ([], MkIterator data false 0 h).
Proof. done. Qed.

Lemma loop_catch_all a la rest h fuel : uleb a la -> Forall is_byte rest ->
  exists h', handlers_loop (S (S fuel)) (MkIterator (la ++ rest) true 0 h) =
    Some ([MkHandler kDexNoIndex a], MkIterator rest false 0 h').
Proof.
  intros Ha Hr. exists (MkHandler kDexNoIndex a). cbn [handlers_loop]. rewrite (next_catch_all a) by done.
  reflexivity.
Qed.

(** Initialising at the bytes of a list and exhausting the iterator. *)
Lemma list_decoded h l it rest : list_text h l -> Forall is_byte rest ->
  exists it' h', dexCatchIteratorInitToPointer it (l ++ rest) = Some it' /\
    handlers_left it' = Some (handlers_of h, MkIterator rest false 0 h').
Proof.
  intros Hl Hr. unfold dexCatchIteratorInitToPointer, handlers_left.
  destruct Hl as [ps ln lp Hne Hb Hn Hp|ps a ln lp la Hb Hn Hp Ha]; rewrite <- ?app_assoc.
  - rewrite (sleb_read _ ln) by (done || (apply Forall_app; split; [by eapply clauses_bytes|done])).
    cbn [mbind option_bind]. assert (0 < Z.of_nat (length ps)) by (destruct ps; [done|cbn [length]; lia]).
    rewrite (proj2 (Z.leb_gt _ _)) by lia.
    destruct (loop_clauses ps lp Hp 2 false rest (handler it) Hr) as [h' E].
    eexists _, h'. split; [done|]. cbn [countRemaining]. rewrite Nat2Z.id, E, loop_end. reflexivity.
  - rewrite (sleb_read _ ln) by (done || (rewrite !Forall_app; split_and!; [by eapply clauses_bytes|eauto|done])).
    cbn [mbind option_bind]. rewrite (proj2 (Z.leb_le _ _)), Z.opp_involutive by lia.
    rewrite chkS_Some by (unfold inS; lia). cbn [mbind option_bind].
    destruct (loop_clauses ps lp Hp 2 true (la ++ rest) (handler it)) as [h0 E];
      [apply Forall_app; eauto|].
    destruct (loop_catch_all a la rest h0 0 Ha Hr) as [h' E'].
    eexists _, h'. split; [done|]. cbn [countRemaining]. rewrite Nat2Z.id, E, E'. reflexivity.
Qed.

Lemma end_offset it hs it' pCode : handlers_left it = Some (hs, it') ->
  dexCatchIteratorGetEndOffset it pCode =
    Some (u32 (Z.of_nat (length (handler_data pCode)) - Z.of_nat (length (pEncodedData it'))), it').
Proof. intros E. unfold dexCatchIteratorGetEndOffset. by rewrite E. Qed.

Lemma lists_decoded pCode hs size_text texts rest : triesSize pCode <> 0 ->
  uleb (Z.of_nat (length hs)) size_text -> Forall2 list_text hs texts -> Forall is_byte rest ->
  handler_data pCode = size_text ++ concat texts ++ rest ->
  Z.of_nat (length (handler_data pCode)) < 2 ^ 32 ->
  dexGetHandlersSize pCode = Some (Z.of_nat (length hs)) /\
  dexGetFirstHandlerOffset pCode = Some (list_offset size_text texts 0) /\
  forall i h it, hs !! i = Some h -> exists it1 it2,
    dexCatchIteratorInit it pCode (list_offset size_text texts i) = Some it1 /\
    handlers_left it1 = Some (handlers_of h, it2) /\
    dexCatchIteratorNext it2 = Some (None, it2) /\
    dexCatchIteratorGetEndOffset it1 pCode = Some (list_offset size_text texts (S i), it2) /\
    dexCatchIteratorGetEndOffset it2 pCode = Some (list_offset size_text texts (S i), it2).
Proof.
  intros Htr Hs Hts Hr Hd Hlen. pose proof (texts_bytes _ _ Hts) as Hb.
  assert (Hread : readUnsignedLeb128 (handler_data pCode) = Some (s32 (Z.of_nat (length hs)), concat texts ++ rest)).
  { rewrite Hd. apply uleb_read; [done|by apply Forall_app]. }
  split; [|split].
  - unfold dexGetHandlersSize. rewrite (proj2 (Z.eqb_neq _ _)), Hread by done. cbn [mbind option_bind].
    by rewrite wrapU_wrapS, wrapU_id by (done || by eapply uleb_range).
  - unfold dexGetFirstHandlerOffset, list_offset. rewrite (proj2 (Z.eqb_neq _ _)), Hread by done.
    cbn [mbind option_bind take concat]. rewrite app_nil_r, Hd, length_app in *.
    by rewrite wrapU_id by (unfold inU; lia); f_equal; lia.
  - intros i h it Hi. destruct (Forall2_lookup_l _ _ _ _ _ Hts Hi) as (l & Hl & Htext).
    assert (Hsplit : concat texts = concat (take i texts) ++ l ++ concat (drop (S i) texts)).
    { rewrite <- (take_drop_middle texts i l Hl) at 1. by rewrite concat_app. }
    assert (Hnext : concat (take (S i) texts) = concat (take i texts) ++ l).
    { by rewrite (take_S_r texts i l Hl), concat_app; cbn [concat]; rewrite app_nil_r. }
    assert (Hrest : Forall is_byte (concat (drop (S i) texts) ++ rest)).
    { apply Forall_app. split; [|done]. rewrite Hsplit, !Forall_app in Hb. tauto. }
    destruct (list_decoded h l it _ Htext Hrest) as (it1 & h' & Einit & Eall).
    exists it1, (MkIterator (concat (drop (S i) texts) ++ rest) false 0 h').
    assert (Eend : u32 (Z.of_nat (length (handler_data pCode)) -
        Z.of_nat (length (concat (drop (S i) texts) ++ rest))) = list_offset size_text texts (S i)).
    { unfold list_offset. rewrite Hnext, Hd, Hsplit, !length_app in *.
      rewrite wrapU_id by (unfold inU; lia). lia. }
    split; [|split; [done|split; [done|split]]].
    + unfold dexCatchIteratorInit, list_offset. rewrite Nat2Z.id, Hd, Hsplit, <- !app_assoc, app_assoc.
      by rewrite drop_app_length.
    + rewrite (end_offset _ _ _ pCode Eall). cbn [pEncodedData]. by rewrite Eend.
    + set (it2 := MkIterator _ _ _ _). rewrite (end_offset it2 [] it2 pCode eq_refl).
      unfold it2. cbn [pEncodedData]. by rewrite Eend.
Qed.

(** The iterator decodes the encoded handlers. For the handler data of a code
    item with try blocks, holding the number of lists and the lists one after
    another, in any encodings of their numbers: the count and the offset of the
    first list are read; and at the offset of each list the iterator returns
    exactly its clauses in order, the catch-all handler last with no type, then
    [NULL], and its end offset, asked before or after that, is where the next list
    starts. *)
Theorem handler_lists_decoded pCode hs size_text texts rest : triesSize pCode <> 0 ->
  uleb (Z.of_nat (length hs)) size_text -> Forall2 list_text hs texts -> Forall is_byte rest ->
  handler_data pCode = size_text ++ concat texts ++ rest ->
  Z.of_nat (length (handler_data pCode)) < 2 ^ 32 ->
  dexGetHandlersSize pCode = Some (Z.of_nat (length hs)) /\
  dexGetFirstHandlerOffset pCode = Some (list_offset size_text texts 0) /\
  forall i h it, hs !! i = Some h -> exists it1 it2,
    dexCatchIteratorInit it pCode (list_offset size_text texts i) = Some it1 /\
    handlers_left it1 = Some (handlers_of h, it2) /\
    dexCatchIteratorNext it2 = Some (None, it2) /\
    dexCatchIteratorGetEndOffset it1 pCode = Some (list_offset size_text texts (S i), it2) /\
    dexCatchIteratorGetEndOffset it2 pCode = Some (list_offset size_text texts (S i), it2).
Proof. apply lists_decoded. Qed.

(** ** Witnesses *)

(** Two blocks; the first has a clause and a catch-all handler, the second a clause. *)
Definition ex_code : DexCode :=
  MkDexCode 4 1 2 2 0 20 (repeat 0 20) [MkDexTry 2 6 1; MkDexTry 8 5 5]
    [2; 0x7f; 9; 14; 16; 1; 3; 18; 0].

Definition ex_lists : list handler_list :=
  [MkHandlerList [(9, 14)] (Some 16); MkHandlerList [(3, 18)] None].

Lemma ex_tries_ok : tries_ok ex_code.
Proof.
  split; [reflexivity|unfold inU; cbn; lia|repeat constructor; unfold try_ok; cbn; lia|].
  intros i j a b Hij Ha Hb. pose proof (aref_lt _ _ _ Hb) as Hj. cbn [length tries ex_code] in Hj.
  assert (i = 0) as -> by lia. assert (j = 1) as -> by lia.
  cbn in Ha, Hb. injection Ha as <-. injection Hb as <-. cbn. lia.
Qed.

Lemma finds_covering_try_witness :
  covering 9 (tries ex_code) = Some (MkDexTry 8 5 5) /\
  dexFindCatchHandler dexCatchIteratorClear ex_code 9 =
    Some (true, MkIterator [3; 18; 0] false 1 (MkHandler 0 0)) /\
  dexFindCatchHandler dexCatchIteratorClear ex_code 13 = Some (false, dexCatchIteratorClear).
Proof.
  split; [vm_compute; reflexivity|]. split.
  - refine (eq_trans (finds_covering_try dexCatchIteratorClear ex_code 9 ex_tries_ok) _). reflexivity.
  - refine (eq_trans (finds_covering_try dexCatchIteratorClear ex_code 13 ex_tries_ok) _). reflexivity.
Defined.

Lemma ex_lists_text : Forall2 list_text ex_lists [[0x7f; 9; 14; 16]; [1; 3; 18]].
Proof.
  repeat constructor.
  - apply (clauses_and_all [(9, 14)] 16 [0x7f] [9; 14] [16]); [cbn; lia|..].
    1: apply sleb_decided; vm_compute; reflexivity.
    2: apply uleb_decided; vm_compute; reflexivity.
    apply (clauses_cons 9 14 [] [9] [14] []); [..|constructor];
      apply uleb_decided; vm_compute; reflexivity.
  - apply (clauses_only [(3, 18)] [1] [3; 18]); [done|cbn; lia|..].
    1: apply sleb_decided; vm_compute; reflexivity.
    apply (clauses_cons 3 18 [] [3] [18] []); [..|constructor];
      apply uleb_decided; vm_compute; reflexivity.
Qed.

Lemma handler_lists_decoded_witness :
  dexGetHandlersSize ex_code = Some 2 /\
  exists it1 it2, dexCatchIteratorInit dexCatchIteratorClear ex_code 1 = Some it1 /\
    handlers_left it1 = Some ([MkHandler 9 14; MkHandler kDexNoIndex 16], it2) /\
    dexCatchIteratorGetEndOffset it1 ex_code = Some (5, it2).
Proof.
  assert (Hs : uleb (Z.of_nat (length ex_lists)) [2]) by (apply uleb_decided; vm_compute; reflexivity).
  assert (Hr : Forall is_byte [0]) by (repeat constructor; unfold is_byte; lia).
  assert (Hl : Z.of_nat (length (handler_data ex_code)) < 2 ^ 32) by (cbn; lia).
  pose proof (handler_lists_decoded ex_code ex_lists [2] _ [0] ltac:(discriminate) Hs ex_lists_text Hr
    eq_refl Hl) as (Hn & _ & H).
  split; [exact Hn|].
  destruct (H 0%nat (MkHandlerList [(9, 14)] (Some 16)) dexCatchIteratorClear eq_refl)
    as (it1 & it2 & E1 & E2 & _ & E3 & _).
  exists it1, it2. split; [exact E1|]. split; [exact E2|exact E3].
Defined.
