(* ===== verification/DexClass.v ===== *)
(** * Class data: [dalvik/libdex/DexClass.cpp] and [DexClass.h]

    The readers of an encoded class: four lists of fields and methods whose
    indices are differences. A pointer into the file is the list of the bytes from
    it on, and reading past their end is [None]; a limit is the number of bytes up
    to it, or [None] for a null one. *)

From S2P Require Import Prelude Bits Leb128.

(** ** Data *)

Record DexClassDataHeader := MkHeader {
  staticFieldsSize : Z;
  instanceFieldsSize : Z;
  directMethodsSize : Z;
  virtualMethodsSize : Z
}.

Record DexField := MkField { fieldIdx : Z; field_accessFlags : Z }.

Record DexMethod := MkMethod { methodIdx : Z; method_accessFlags : Z; codeOff : Z }.

(** The arrays; a null pointer is the empty one. *)
Record DexClassData := MkClassData {
  header : DexClassDataHeader;
  staticFields : list DexField;
  instanceFields : list DexField;
  directMethods : list DexMethod;
  virtualMethods : list DexMethod
}.

Definition sizeof_DexClassData : Z := 32.
Definition sizeof_DexField : Z := 8.
Definition sizeof_DexMethod : Z := 12.

(** ** Readers without verification *)

(** An [int] assigned to a [u4]. *)
Definition read_u4 (pData : list Z) : option (Z * list Z) :=
  '(v, pData) ← readUnsignedLeb128 pData;
  Some (u32 v, pData).

Definition dexReadClassDataHeader (pData : list Z) : option (DexClassDataHeader * list Z) :=
  '(sf, pData) ← read_u4 pData;
  '(inf, pData) ← read_u4 pData;
  '(dm, pData) ← read_u4 pData;
  '(vm, pData) ← read_u4 pData;
  Some (MkHeader sf inf dm vm, pData).

(** The field, the new [*lastIndex] and the pointer. *)
Definition dexReadClassDataField (pData : list Z) (lastIndex : Z) : option (DexField * Z * list Z) :=
  '(d, pData) ← readUnsignedLeb128 pData;
  let index := u32 (lastIndex + d) in
  '(accessFlags, pData) ← read_u4 pData;
  Some (MkField index accessFlags, index, pData).

Definition dexReadClassDataMethod (pData : list Z) (lastIndex : Z) : option (DexMethod * Z * list Z) :=
  '(d, pData) ← readUnsignedLeb128 pData;
  let index := u32 (lastIndex + d) in
  '(accessFlags, pData) ← read_u4 pData;
  '(codeOff, pData) ← read_u4 pData;
  Some (MkMethod index accessFlags codeOff, index, pData).

(** ** Verification *)

(** The limit seen from a pointer further on. *)
Definition limit_from (pLimit : option Z) (pData rest : list Z) : option Z :=
  l ← pLimit; Some (l - Z.of_nat (length pData - length rest)).

Fixpoint verifyUlebs (pData : list Z) (pLimit : option Z) (count : nat) : option bool :=
  match count with
  | O => Some true
  | S count =>
      '(_, rest, okay) ← readAndVerifyUnsignedLeb128 pData pLimit true;
      if (okay : bool) then verifyUlebs rest (limit_from pLimit pData rest) count else Some false
  end.

(** [Some None]: false. *)
Definition dexReadAndVerifyClassDataHeader (pData : list Z) (pLimit : option Z) :
    option (option (DexClassDataHeader * list Z)) :=
  okay ← verifyUlebs pData pLimit 4;
  if (okay : bool) then r ← dexReadClassDataHeader pData; Some (Some r) else Some None.

Definition dexReadAndVerifyClassDataField (pData : list Z) (pLimit : option Z) (lastIndex : Z) :
    option (option (DexField * Z * list Z)) :=
  okay ← verifyUlebs pData pLimit 2;
  if (okay : bool) then r ← dexReadClassDataField pData lastIndex; Some (Some r) else Some None.

Definition dexReadAndVerifyClassDataMethod (pData : list Z) (pLimit : option Z) (lastIndex : Z) :
    option (option (DexMethod * Z * list Z)) :=
  okay ← verifyUlebs pData pLimit 3;
  if (okay : bool) then r ← dexReadClassDataMethod pData lastIndex; Some (Some r) else Some None.

(** One of the four loops: [n] entries of [size] bytes each, stored from [base] on
    into a chunk of [resultSize] bytes; a store outside it is [None]. An entry takes
    bytes of the stream, so its length is enough fuel. *)
Section Members.
Context {A : Type} (read : list Z -> option Z -> Z -> option (option (A * Z * list Z))).
Context (size base resultSize : Z).

Fixpoint members_loop (fuel : nat) (i n : Z) (pData : list Z) (pLimit : option Z) (lastIndex : Z) :
    option (option (list A) * list Z * option Z) :=
  if i <? n then
    match fuel with
    | O => None
    | S fuel =>
        r ← read pData pLimit lastIndex;
        match r with
        | None => Some (None, pData, pLimit)
        | Some (x, lastIndex, rest) =>
            if base + (i + 1) * size <=? resultSize then
              '(xs, data, limit) ←
                members_loop fuel (i + 1) n rest (limit_from pLimit pData rest) lastIndex;
              Some (xs ← xs; Some (x :: xs), data, limit)
            else None
        end
    end
  else Some (Some [], pData, pLimit).

(** The loop is skipped when an earlier one failed. *)
Definition members (okay : bool) (n : Z) (pData : list Z) (pLimit : option Z) :
    option (option (list A) * list Z * option Z) :=
  if okay then members_loop (length pData) 0 n pData pLimit 0 else Some (None, pData, pLimit).

End Members.

Definition class_data_size (h : DexClassDataHeader) : Z :=
  u32 (sizeof_DexClassData + u32 (staticFieldsSize h * sizeof_DexField) +
       u32 (instanceFieldsSize h * sizeof_DexField) + u32 (directMethodsSize h * sizeof_DexMethod) +
       u32 (virtualMethodsSize h * sizeof_DexMethod)).

Section ClassData.
(** Whether the heap can give so many bytes. *)
Context (heap_has : Z -> bool).

(** The result ([Some None] for [NULL]) and the pointer. *)
Definition dexReadAndVerifyClassData (pData : option (list Z)) (pLimit : option Z) :
    option (option DexClassData * option (list Z)) :=
  match pData with
  | None =>
      (* the block is cleared before anything tests it *)
      if heap_has sizeof_DexClassData then
        Some (Some (MkClassData (MkHeader 0 0 0 0) [] [] [] []), None)
      else None
  | Some data =>
      r ← dexReadAndVerifyClassDataHeader data pLimit;
      match r with
      | None => Some (None, Some data)
      | Some (h, rest) =>
          let resultSize := class_data_size h in
          if heap_has resultSize then
            let limit := limit_from pLimit data rest in
            let base1 := sizeof_DexClassData in
            let base2 := base1 + staticFieldsSize h * sizeof_DexField in
            let base3 := base2 + instanceFieldsSize h * sizeof_DexField in
            let base4 := base3 + directMethodsSize h * sizeof_DexMethod in
            '(sf, data, limit) ←
              members dexReadAndVerifyClassDataField sizeof_DexField base1 resultSize
                true (staticFieldsSize h) rest limit;
            '(inf, data, limit) ←
              members dexReadAndVerifyClassDataField sizeof_DexField base2 resultSize
                (bool_decide (is_Some sf)) (instanceFieldsSize h) data limit;
            '(dm, data, limit) ←
              members dexReadAndVerifyClassDataMethod sizeof_DexMethod base3 resultSize
                (bool_decide (is_Some inf)) (directMethodsSize h) data limit;
            '(vm, data, limit) ←
              members dexReadAndVerifyClassDataMethod sizeof_DexMethod base4 resultSize
                (bool_decide (is_Some dm)) (virtualMethodsSize h) data limit;
            Some (sf ← sf; inf ← inf; dm ← dm; vm ← vm; Some (MkClassData h sf inf dm vm), Some data)
          else Some (None, Some rest)
      end
  end.

End ClassData.

(** ** The encoding *)

(** A number the checking reader accepts: no bits beyond the 32nd. *)
Definition uleb_checked (v : Z) (l : list Z) : Prop :=
  uleb v l /\ (length l = 5%nat -> nth 4 l 0 <= 0x0f).

Definition uleb_checked_dec v l : Decision (uleb_checked v l).
Proof. unfold uleb_checked. apply and_dec; [apply uleb_dec|apply _]. Defined.

Lemma uleb_checked_decided v l : @bool_decide _ (uleb_checked_dec v l) = true -> uleb_checked v l.
Proof. apply bool_decide_eq_true_1. Qed.

Inductive numbers_text : list Z -> list Z -> Prop :=
  | numbers_nil : numbers_text [] []
  | numbers_cons v vs l l' : uleb_checked v l -> numbers_text vs l' -> numbers_text (v :: vs) (l ++ l').

(** The bytes of a field and of a method after one with index [last]. *)
Definition field_text (last : Z) (f : DexField) (l : list Z) : Prop :=
  exists d, fieldIdx f = u32 (last + d) /\ numbers_text [d; field_accessFlags f] l.

Definition method_text (last : Z) (m : DexMethod) (l : list Z) : Prop :=
  exists d, methodIdx m = u32 (last + d) /\ numbers_text [d; method_accessFlags m; codeOff m] l.

Inductive members_text {A} (text : Z -> A -> list Z -> Prop) (index : A -> Z) :
    Z -> list A -> list Z -> Prop :=
  | members_nil last : members_text text index last [] []
  | members_cons last x xs l l' : text last x l -> members_text text index (index x) xs l' ->
      members_text text index last (x :: xs) (l ++ l').

Definition header_text (h : DexClassDataHeader) (l : list Z) : Prop :=
  numbers_text [staticFieldsSize h; instanceFieldsSize h; directMethodsSize h; virtualMethodsSize h] l.

Inductive class_text : DexClassData -> list Z -> Prop :=
  | class_text_intro sf inf dm vm lh l1 l2 l3 l4 :
      let h := MkHeader (Z.of_nat (length sf)) (Z.of_nat (length inf)) (Z.of_nat (length dm))
                 (Z.of_nat (length vm)) in
      header_text h lh ->
      members_text field_text fieldIdx 0 sf l1 -> members_text field_text fieldIdx 0 inf l2 ->
      members_text method_text methodIdx 0 dm l3 -> members_text method_text methodIdx 0 vm l4 ->
      class_text (MkClassData h sf inf dm vm) (lh ++ l1 ++ l2 ++ l3 ++ l4).

(** The bytes lie before the limit. *)
Definition within (limit : option Z) (l : list Z) : Prop :=
  match limit with None => True | Some n => Z.of_nat (length l) <= n end.

(** The size of the chunk the result takes, in full. *)
Definition class_data_total (h : DexClassDataHeader) : Z :=
  sizeof_DexClassData + staticFieldsSize h * sizeof_DexField + instanceFieldsSize h * sizeof_DexField +
  directMethodsSize h * sizeof_DexMethod + virtualMethodsSize h * sizeof_DexMethod.

(** ** Lemmas: numbers *)

Lemma leb_bytes_split n : forall s l r, leb_bytes n s = Some (l, r) ->
  s = l ++ r /\ leb_bytes n l = Some (l, []).
Proof.
  induction n as [|n IH]; intros s l r H; [by destruct s|].
  destruct s as [|b s]; [by destruct n|]. destruct n as [|n].
  - cbn in H. by injection H as <- <-.
  - rewrite leb_bytes_SS in H. destruct (b >? 0x7f) eqn:Eb.
    + destruct (leb_bytes (S n) s) as [[l' r']|] eqn:E; [|done]. cbn in H. injection H as <- <-.
      destruct (IH s l' r' E) as [-> E']. split; [done|]. by rewrite leb_bytes_SS, Eb, E'.
    + injection H as <- <-. split; [done|]. by rewrite leb_bytes_SS, Eb.
Qed.

Lemma limit_from_app limit l rest :
  limit_from limit (l ++ rest) rest = (n ← limit; Some (n - Z.of_nat (length l))).
Proof. unfold limit_from. by rewrite length_app, Nat.add_sub. Qed.

Lemma within_app limit l l' :
  within limit (l ++ l') <-> within limit l /\ within (n ← limit; Some (n - Z.of_nat (length l))) l'.
Proof. destruct limit as [n|]; cbn [within mbind option_bind]; [rewrite length_app; lia|tauto]. Qed.

Lemma leb_bad_within limit l rest : (length l <= 5)%nat ->
  leb128_bad limit (l ++ rest) rest = false <-> within limit l /\ (length l = 5%nat -> nth 4 l 0 <= 0x0f).
Proof.
  intros Hl. unfold leb128_bad. rewrite length_app, Nat.add_sub, orb_false_iff, andb_false_iff, !gtb_leb.
  assert (Hn : length l = 5%nat -> nth 4 (l ++ rest) 0 = nth 4 l 0) by (intros E; apply app_nth1; lia).
  assert (Hw : match limit with Some n => negb (Z.of_nat (length l) <=? n) | None => false end = false <->
    within limit l).
  { destruct limit as [n|]; cbn [within]; [|tauto]. rewrite negb_false_iff. apply Z.leb_le. }
  replace (match limit with Some l0 => Z.of_nat (length l) >? l0 | None => false end)
    with (match limit with Some n => negb (Z.of_nat (length l) <=? n) | None => false end)
    by (destruct limit; [by rewrite gtb_leb|done]).
  rewrite Hw, Z.eqb_neq, negb_false_iff, Z.leb_le. split; intros [? H]; (split; [done|]).
  - intros E. rewrite <- Hn by done. destruct H; [lia|done].
  - destruct (decide (length l = 5%nat)); [right; rewrite Hn; auto|left; lia].
Qed.

Lemma leb_bytes_length n : forall s l r, leb_bytes n s = Some (l, r) -> (0 < length l <= n)%nat.
Proof.
  induction n as [|n IH]; intros s l r H; [by destruct s|].
  destruct s as [|b s]; [by destruct n|]. destruct n as [|n].
  - cbn in H. injection H as <- <-. simpl. lia.
  - rewrite leb_bytes_SS in H. destruct (b >? 0x7f).
    + destruct (leb_bytes (S n) s) as [[l' r']|] eqn:E; [|done]. cbn in H. injection H as <- <-.
      apply IH in E. cbn [length]. lia.
    + injection H as <- <-. simpl. lia.
Qed.

Lemma uleb_length v l : uleb v l -> (0 < length l <= 5)%nat.
Proof. intros (_ & H & _). by apply leb_bytes_length in H. Qed.

(** The checking reader accepts a number exactly when one is encoded there, without
    excess bits, before the limit. *)
Lemma verified_number s limit r rest : Forall is_byte s ->
  readAndVerifyUnsignedLeb128 s limit true = Some (r, rest, true) <->
  exists v l, s = l ++ rest /\ uleb_checked v l /\ within limit l /\ r = s32 v.
Proof.
  intros Hs. unfold readAndVerifyUnsignedLeb128. rewrite readUnsigned_spec by done. split.
  - destruct (leb_bytes 5 s) as [[l r']|] eqn:E; [|done]. cbn [mbind option_bind]. intros [= <- <- H].
    pose proof (leb_bytes_length _ _ _ _ E). destruct (leb_bytes_split _ _ _ _ E) as [-> El].
    destruct (leb128_bad limit (l ++ r') r') eqn:Hbad; [done|]. apply leb_bad_within in Hbad as [Hw Hn]; [|lia].
    exists (u32 (leb_val l)), l. rewrite wrapS_wrapU by lia. apply Forall_app in Hs as [? ?].
    split; [done|]. split; [|done]. split; [by split|done].
  - intros (v & l & -> & [(Hb & E & Hv) Hn] & Hw & ->). pose proof (leb_bytes_length _ _ _ _ E).
    rewrite (leb_bytes_app 5 l _ rest l [] E eq_refl). cbn [mbind option_bind app].
    rewrite (proj2 (leb_bad_within limit l rest ltac:(lia)) (conj Hw Hn)).
    by rewrite <- Hv, wrapS_wrapU.
Qed.

Lemma verified_numbers n : forall s limit, Forall is_byte s -> within limit [] ->
  verifyUlebs s limit n = Some true <->
  exists vs l rest, s = l ++ rest /\ length vs = n /\ numbers_text vs l /\ within limit l.
Proof.
  induction n as [|n IH]; intros s limit Hs H0; cbn [verifyUlebs].
  { split; [|done]. intros _. exists [], [], s. by split_and!; [..|constructor|]. }
  split.
  - destruct (readAndVerifyUnsignedLeb128 s limit true) as [[[r rest] okay]|] eqn:E; [|done].
    cbn [mbind option_bind]. destruct okay; [|done].
    apply (verified_number s limit r rest Hs) in E as (v & l & -> & Hv & Hw & _).
    apply Forall_app in Hs as [Hl Hs]. rewrite limit_from_app. intros H. apply IH in H; [|done|].
    + destruct H as (vs & l' & rest' & -> & Hn & Ht & Hw').
      exists (v :: vs), (l ++ l'), rest'. rewrite app_assoc. split_and!; [done|cbn [length]; lia|by constructor|].
      by apply within_app.
    + apply within_app. by rewrite app_nil_r.
  - intros (vs & l & rest & -> & Hn & Ht & Hw). destruct Ht as [|v vs l l' Hv Ht]; [done|].
    rewrite <- app_assoc in *. apply within_app in Hw as [Hw Hw'].
    rewrite (proj2 (verified_number (l ++ l' ++ rest) limit (s32 v) (l' ++ rest) Hs)) by eauto 10.
    cbn [mbind option_bind]. rewrite limit_from_app. apply Forall_app in Hs as [_ Hs].
    apply IH; [done|apply within_app; by rewrite app_nil_r|].
    exists vs, l', rest. injection Hn as Hn. by split_and!.
Qed.

Lemma read_number v l rest : uleb_checked v l -> Forall is_byte rest ->
  readUnsignedLeb128 (l ++ rest) = Some (s32 v, rest).
Proof. intros [Hv _]. by apply uleb_read. Qed.

Lemma read_u4_number v l rest : uleb_checked v l -> Forall is_byte rest ->
  read_u4 (l ++ rest) = Some (v, rest).
Proof.
  intros Hv Hr. unfold read_u4. rewrite (read_number v) by done. cbn [mbind option_bind].
  rewrite wrapU_wrapS by lia. destruct Hv as [Hv _]. by rewrite wrapU_id by (lia || by eapply uleb_range).
Qed.

Lemma numbers_bytes vs l : numbers_text vs l -> Forall is_byte l.
Proof. induction 1 as [|v vs l l' [[Hl _] _] _ IH]; [constructor|]. by apply Forall_app. Qed.

(** ** Lemmas: entries *)

(** What the checking readers of an entry promise: they find an entry exactly when
    one is encoded before the limit, and return it and its index. *)
Class EntryReader {A} (read : list Z -> option Z -> Z -> option (option (A * Z * list Z)))
    (text : Z -> A -> list Z -> Prop) (index : A -> Z) : Prop := {
  entry_read s limit last x i rest : Forall is_byte s -> within limit [] ->
    read s limit last = Some (Some (x, i, rest)) <->
    i = index x /\ exists l, s = l ++ rest /\ text last x l /\ within limit l;
  entry_nonempty last x l : text last x l -> (0 < length l)%nat
}.

Lemma numbers_cons_inv v vs l : numbers_text (v :: vs) l ->
  exists l1 l2, l = l1 ++ l2 /\ uleb_checked v l1 /\ numbers_text vs l2 /\ Forall is_byte l2.
Proof. inversion 1; subst. eauto 10 using numbers_bytes. Qed.

Lemma numbers_nil_inv l : numbers_text [] l -> l = [].
Proof. by inversion 1. Qed.

Lemma numbers_nonempty v vs l : numbers_text (v :: vs) l -> (0 < length l)%nat.
Proof.
  intros (l1 & l2 & -> & [Hv _] & _)%numbers_cons_inv. apply uleb_length in Hv. rewrite length_app. lia.
Qed.

(** [numbers_read] reads the numbers of a text one after another. *)
Ltac numbers_read :=
  repeat match goal with
  | H : numbers_text (_ :: _) _ |- _ =>
      let l1 := fresh "l" in let l2 := fresh "l" in let H1 := fresh in
      apply numbers_cons_inv in H as (l1 & l2 & -> & H1 & H & ?); rewrite <- ?app_assoc;
      first [rewrite (read_u4_number _ l1 _ H1) by (apply Forall_app; split; assumption)
            |rewrite (read_number _ l1 _ H1) by (apply Forall_app; split; assumption)];
      cbn [mbind option_bind]
  | H : numbers_text [] _ |- _ => apply numbers_nil_inv in H as ->; cbn [app]
  end.

Lemma index_s32 last d : u32 (last + s32 d) = u32 (last + d).
Proof. rewrite <- wrapU_add_r, wrapU_wrapS by lia. by apply wrapU_add_r. Qed.

Lemma header_read sf inf dm vm l rest : numbers_text [sf; inf; dm; vm] l -> Forall is_byte rest ->
  dexReadClassDataHeader (l ++ rest) = Some (MkHeader sf inf dm vm, rest).
Proof. intros Ht Hr. unfold dexReadClassDataHeader. by numbers_read. Qed.

Lemma field_read last d flags l rest : numbers_text [d; flags] l -> Forall is_byte rest ->
  dexReadClassDataField (l ++ rest) last = Some (MkField (u32 (last + d)) flags, u32 (last + d), rest).
Proof. intros Ht Hr. unfold dexReadClassDataField. numbers_read. by rewrite index_s32. Qed.

Lemma method_read last d flags off l rest : numbers_text [d; flags; off] l -> Forall is_byte rest ->
  dexReadClassDataMethod (l ++ rest) last =
    Some (MkMethod (u32 (last + d)) flags off, u32 (last + d), rest).
Proof. intros Ht Hr. unfold dexReadClassDataMethod. numbers_read. by rewrite index_s32. Qed.

(** Verifying the numbers first and reading them then. *)
Section Checked.
Context {R : Type} (n : nat) (raw : list Z -> option (R * list Z)) (make : list Z -> R).
Hypothesis raw_ok : forall vs l rest, length vs = n -> numbers_text vs l -> Forall is_byte rest ->
  raw (l ++ rest) = Some (make vs, rest).

Lemma checked_read s limit r rest : Forall is_byte s -> within limit [] ->
  (okay ← verifyUlebs s limit n;
   if (okay : bool) then x ← raw s; Some (Some x) else Some None) = Some (Some (r, rest)) <->
  exists vs l, s = l ++ rest /\ length vs = n /\ r = make vs /\ numbers_text vs l /\ within limit l.
Proof using raw_ok.
  intros Hs H0. split.
  - destruct (verifyUlebs s limit n) as [[]|] eqn:E; [|done..]. cbn [mbind option_bind].
    apply (verified_numbers n s limit Hs H0) in E as (vs & l & rest' & -> & Hn & Ht & Hw).
    apply Forall_app in Hs as [_ Hs]. rewrite (raw_ok vs) by done. cbn [mbind option_bind].
    intros [= <- <-]. eauto 10.
  - intros (vs & l & -> & Hn & -> & Ht & Hw).
    rewrite (proj2 (verified_numbers n (l ++ rest) limit Hs H0)) by eauto 10. cbn [mbind option_bind].
    apply Forall_app in Hs as [_ Hs]. by rewrite (raw_ok vs).
Qed.

End Checked.

Lemma header_checked s limit h rest : Forall is_byte s -> within limit [] ->
  dexReadAndVerifyClassDataHeader s limit = Some (Some (h, rest)) <->
  exists l, s = l ++ rest /\ header_text h l /\ within limit l.
Proof.
  intros Hs H0. unfold dexReadAndVerifyClassDataHeader.
  rewrite (checked_read 4 dexReadClassDataHeader
    (fun vs => MkHeader (nth 0 vs 0) (nth 1 vs 0) (nth 2 vs 0) (nth 3 vs 0))); [|clear; intros vs l rest Hn Ht Hr|done..].
  - split.
    + intros (vs & l & -> & Hn & -> & Ht & Hw). exists l. destruct vs as [|? [|? [|? [|? [|? ?]]]]]; done.
    + intros (l & -> & Ht & Hw). eexists [_; _; _; _], l. split; [done|]. split; [done|].
      split; [|split; [exact Ht|done]]. by destruct h.
  - destruct vs as [|? [|? [|? [|? [|? ?]]]]]; try done. by apply header_read.
Qed.

#[export] Instance field_reader : EntryReader dexReadAndVerifyClassDataField field_text fieldIdx.
Proof.
  split; [|intros last f l (d & _ & Ht); by eapply numbers_nonempty].
  intros s limit last f i rest Hs H0. unfold dexReadAndVerifyClassDataField.
  rewrite (checked_read 2 (fun s => dexReadClassDataField s last)
    (fun vs => (MkField (u32 (last + nth 0 vs 0)) (nth 1 vs 0), u32 (last + nth 0 vs 0))));
    [|clear; intros vs l rest Hn Ht Hr|done..].
  - split.
    + intros (vs & l & -> & Hn & [= -> ->] & Ht & Hw). split; [done|]. exists l.
      destruct vs as [|d [|? [|? ?]]]; try done. split; [done|]. split; [|done]. by exists d.
    + intros (-> & l & -> & (d & Hi & Ht) & Hw). eexists [d; _], l. split; [done|]. split; [done|].
      split; [|split; [exact Ht|done]]. cbn [nth]. rewrite <- Hi. by destruct f.
  - destruct vs as [|? [|? [|? ?]]]; try done. by apply field_read.
Qed.

#[export] Instance method_reader : EntryReader dexReadAndVerifyClassDataMethod method_text methodIdx.
Proof.
  split; [|intros last f l (d & _ & Ht); by eapply numbers_nonempty].
  intros s limit last f i rest Hs H0. unfold dexReadAndVerifyClassDataMethod.
  rewrite (checked_read 3 (fun s => dexReadClassDataMethod s last)
    (fun vs => (MkMethod (u32 (last + nth 0 vs 0)) (nth 1 vs 0) (nth 2 vs 0), u32 (last + nth 0 vs 0))));
    [|clear; intros vs l rest Hn Ht Hr|done..].
  - split.
    + intros (vs & l & -> & Hn & [= -> ->] & Ht & Hw). split; [done|]. exists l.
      destruct vs as [|d [|? [|? [|? ?]]]]; try done. split; [done|]. split; [|done]. by exists d.
    + intros (-> & l & -> & (d & Hi & Ht) & Hw). eexists [d; _; _], l. split; [done|]. split; [done|].
      split; [|split; [exact Ht|done]]. cbn [nth]. rewrite <- Hi. by destruct f.
  - destruct vs as [|? [|? [|? [|? ?]]]]; try done. by apply method_read.
Qed.

(** ** Lemmas: the loops *)

Definition limit_after (limit : option Z) (l : list Z) : option Z :=
  n ← limit; Some (n - Z.of_nat (length l)).

Lemma limit_after_app limit l l' : limit_after (limit_after limit l) l' = limit_after limit (l ++ l').
Proof. destruct limit; cbn; [|done]. f_equal. rewrite length_app. lia. Qed.

Lemma within_after limit l : within limit l -> within (limit_after limit l) [].
Proof. intros H. apply within_app. by rewrite app_nil_r. Qed.

Lemma within_nil limit l : within limit l -> within limit [].
Proof. destruct limit; cbn; [lia|done]. Qed.

Lemma members_cons_inv {A} (text : Z -> A -> list Z -> Prop) index last x xs l :
  members_text text index last (x :: xs) l ->
  exists l1 l2, l = l1 ++ l2 /\ text last x l1 /\ members_text text index (index x) xs l2.
Proof. inversion 1; subst. eauto 10. Qed.

Section Loops.
Context {A : Type} (read : list Z -> option Z -> Z -> option (option (A * Z * list Z))).
Context (text : Z -> A -> list Z -> Prop) (index : A -> Z) `{!EntryReader read text index}.
Context (size base resultSize : Z) (Hsize : 0 < size).

(** What a loop over the entries from [i] to [n] finds. *)
Definition entries_at (i n : Z) (s : list Z) (limit : option Z) (last : Z) (xs : list A)
    (rest : list Z) (limit' : option Z) : Prop :=
  exists l, s = l ++ rest /\ members_text text index last xs l /\ within limit l /\
    limit' = limit_after limit l /\ Z.of_nat (length xs) = Z.max 0 (n - i) /\
    (i < n -> base + n * size <= resultSize).

Lemma entries_done i n s limit last xs rest limit' : n <= i -> within limit [] ->
  entries_at i n s limit last xs rest limit' <-> xs = [] /\ rest = s /\ limit' = limit.
Proof using.
  intros Hn H0. assert (E : limit_after limit [] = limit) by (destruct limit; cbn; [f_equal; lia|done]). split.
  - intros (l & -> & Ht & _ & -> & Hl & _). destruct xs; [|cbn [length] in Hl; lia].
    inversion Ht; subst. by rewrite E.
  - intros (-> & -> & ->). exists []. rewrite E. split_and!; [done|constructor|done..|cbn; lia|lia].
Qed.

Lemma entries_step i n s limit last xs rest limit' : i < n -> Forall is_byte s -> within limit [] ->
  entries_at i n s limit last xs rest limit' <->
  exists x xs' rest1, xs = x :: xs' /\ read s limit last = Some (Some (x, index x, rest1)) /\
    base + (i + 1) * size <= resultSize /\ (length rest1 < length s)%nat /\
    entries_at (i + 1) n rest1 (limit_from limit s rest1) (index x) xs' rest limit'.
Proof using EntryReader0 Hsize.
  intros Hn Hs H0. split.
  - intros (l & -> & Ht & Hw & -> & Hl & Hsz). destruct xs as [|x xs]; [cbn [length] in Hl; lia|].
    apply members_cons_inv in Ht as (l1 & l2 & -> & Hx & Ht). rewrite <- app_assoc in *.
    apply within_app in Hw as [Hw1 Hw2]. exists x, xs, (l2 ++ rest). split; [done|].
    pose proof (entry_nonempty _ _ _ Hx) as Hne.
    split; [apply (entry_read _ _ _ _ _ _ Hs H0); eauto 10|]. split; [specialize (Hsz Hn); nia|].
    split; [rewrite (length_app l1); lia|]. exists l2. rewrite limit_from_app.
    split; [done|]. split; [done|]. split; [done|]. split; [symmetry; apply limit_after_app|].
    split; [cbn [length] in Hl; lia|auto].
  - intros (x & xs' & rest1 & -> & Hr & Hsz & _ & l2 & -> & Ht & Hw & -> & Hl & Hsz2).
    apply (entry_read _ _ _ _ _ _ Hs H0) in Hr as (_ & l1 & -> & Hx & Hw1).
    rewrite limit_from_app in *. exists (l1 ++ l2). rewrite app_assoc. split; [done|].
    split; [by econstructor|]. split; [by apply within_app|]. split; [apply limit_after_app|].
    split; [cbn [length]; lia|]. intros _. destruct (Z.lt_ge_cases (i + 1) n); [auto|].
    by replace n with (i + 1) by lia.
Qed.

Lemma members_loop_spec fuel : forall i n s limit last xs rest limit', Forall is_byte s ->
  within limit [] -> (length s <= fuel)%nat ->
  members_loop read size base resultSize fuel i n s limit last = Some (Some xs, rest, limit') <->
  entries_at i n s limit last xs rest limit'.
Proof using EntryReader0 Hsize.
  induction fuel as [|fuel IH]; intros i n s limit last xs rest limit' Hs H0 Hf; cbn [members_loop];
    (destruct (Z.ltb_spec i n) as [Hn|Hn];
      [rewrite entries_step by done
      |rewrite entries_done by done; split; [by intros [= <- <- <-]|by intros (-> & -> & ->)]]).
  - split; [done|]. intros (x & xs' & rest1 & _ & _ & _ & Hl & _). lia.
  - split.
    + destruct (read s limit last) as [[[[x j] rest1]|]|] eqn:E; [|done..]. cbn [mbind option_bind].
      pose proof E as E'. apply (entry_read _ _ _ _ _ _ Hs H0) in E' as (-> & l & -> & Hx & Hw).
      pose proof (entry_nonempty _ _ _ Hx) as Hne. rewrite length_app in Hf.
      pose proof Hs as Hs'. apply Forall_app in Hs' as [_ Hr].
      destruct (Z.leb_spec (base + (i + 1) * size) resultSize) as [Hsz|]; [|done].
      destruct (members_loop _ _ _ _ fuel _ _ _ _ _) as [[[[xs'|] data] lim]|] eqn:El; cbn; [|done..].
      intros [= <- <- <-]. exists x, xs', rest1. split; [done|]. split; [done|]. split; [done|].
      split; [rewrite length_app; lia|]. rewrite limit_from_app in *. apply IH in El; [done..| |lia].
      by apply within_after.
    + intros (x & xs' & rest1 & -> & E & Hsz & Hl & He). rewrite E. cbn [mbind option_bind].
      rewrite (proj2 (Z.leb_le _ _) Hsz).
      apply (entry_read _ _ _ _ _ _ Hs H0) in E as (_ & l & -> & Hx & Hw).
      apply Forall_app in Hs as [_ Hr]. rewrite limit_from_app in *.
      apply IH in He; [|done|by apply within_after|lia]. by rewrite He.
Qed.

(** The loop as the reader of a class runs it. *)
Lemma members_spec okay n s limit xs rest limit' : Forall is_byte s -> within limit [] ->
  members read size base resultSize okay n s limit = Some (Some xs, rest, limit') <->
  okay = true /\ entries_at 0 n s limit 0 xs rest limit'.
Proof using EntryReader0 Hsize.
  intros Hs H0. unfold members. destruct okay; [|split; [done|by intros [? _]]].
  rewrite members_loop_spec by done. naive_solver.
Qed.

End Loops.

(** ** Lemmas: classes *)

Lemma header_range h l : header_text h l ->
  inU 32 (staticFieldsSize h) /\ inU 32 (instanceFieldsSize h) /\ inU 32 (directMethodsSize h) /\
  inU 32 (virtualMethodsSize h).
Proof.
  intros H. unfold header_text in H.
  apply numbers_cons_inv in H as (? & ? & _ & [H1%uleb_range _] & H & _).
  apply numbers_cons_inv in H as (? & ? & _ & [H2%uleb_range _] & H & _).
  apply numbers_cons_inv in H as (? & ? & _ & [H3%uleb_range _] & H & _).
  apply numbers_cons_inv in H as (? & ? & _ & [H4%uleb_range _] & H & _). by split_and!.
Qed.

(** A chunk whose size does not wrap around has room for every list. *)
Lemma class_data_size_id h l : header_text h l -> class_data_total h < 2 ^ 32 ->
  class_data_size h = class_data_total h.
Proof.
  intros (? & ? & ? & ?)%header_range. unfold class_data_size, class_data_total, inU,
    sizeof_DexClassData, sizeof_DexField, sizeof_DexMethod in *. intros Ht.
  rewrite (wrapU_id 32 (staticFieldsSize h * 8)) by (unfold inU; lia).
  rewrite (wrapU_id 32 (instanceFieldsSize h * 8)) by (unfold inU; lia).
  rewrite (wrapU_id 32 (directMethodsSize h * 12)) by (unfold inU; lia).
  rewrite (wrapU_id 32 (virtualMethodsSize h * 12)) by (unfold inU; lia).
  by rewrite wrapU_id by (unfold inU; lia).
Qed.

Lemma entries_rest {A} (text : Z -> A -> list Z -> Prop) index size base rs n s limit last xs rest limit' :
  entries_at text index size base rs 0 n s limit last xs rest limit' -> Forall is_byte s ->
  Forall is_byte rest /\ within limit' [].
Proof.
  intros (l & -> & _ & Hw & -> & _) Hs. apply Forall_app in Hs as [_ Hs]. split; [done|by apply within_after].
Qed.

(** One list of a class: its bytes, its length and the room for it. *)
Lemma entries_text {A} (text : Z -> A -> list Z -> Prop) index size base rs n s limit xs rest limit' :
  0 <= n -> 0 < size -> base + n * size <= rs ->
  entries_at text index size base rs 0 n s limit 0 xs rest limit' <->
  exists l, s = l ++ rest /\ members_text text index 0 xs l /\ within limit l /\
    limit' = limit_after limit l /\ n = Z.of_nat (length xs).
Proof.
  intros Hn Hs Hr. unfold entries_at. split.
  - intros (l & H1 & H2 & H3 & H4 & Hl & _). exists l. split_and!; try done. lia.
  - intros (l & H1 & H2 & H3 & H4 & Hl). exists l. split_and!; try done. lia.
Qed.

(** A list that could not be read makes the result null. *)
Ltac members_failed :=
  repeat match goal with
  | |- context [members ?a ?b ?c ?d ?e ?f ?g ?h] =>
      destruct (members a b c d e f g h) as [[[? ?] ?]|]; cbn [mbind option_bind]
  end; intros; discriminate.

(** [members_next E] takes the next list of a class that was read. *)
Ltac members_next xs H Hs H0 :=
  match goal with
  | |- context [members ?a ?b ?c ?d ?e ?f ?g ?h] =>
      let E := fresh in
      destruct (members a b c d e f g h) as [[[[xs|] ?] ?]|] eqn:E; cbn [mbind option_bind];
      [|members_failed|intros; discriminate];
      apply (members_spec a _ _ b c d eq_refl e f g h _ _ _ Hs H0) in E as [_ H];
      destruct (entries_rest _ _ _ _ _ _ _ _ _ _ _ _ H Hs) as [Hs' H0'];
      clear Hs H0; rename Hs' into Hs, H0' into H0
  end.

Lemma class_data_sound heap_has s limit cd rest : Forall is_byte s -> within limit [] ->
  class_data_total (header cd) < 2 ^ 32 ->
  dexReadAndVerifyClassData heap_has (Some s) limit = Some (Some cd, Some rest) ->
  exists l, s = l ++ rest /\ class_text cd l /\ within limit l.
Proof.
  intros Hs H0 Ht. unfold dexReadAndVerifyClassData.
  destruct (dexReadAndVerifyClassDataHeader s limit) as [[[h r0]|]|] eqn:E; [|done..].
  cbn [mbind option_bind]. apply header_checked in E as (lh & -> & Hlh & Hw); [|done..].
  apply Forall_app in Hs as [_ Hs]. rewrite limit_from_app. clear H0. pose proof (within_after _ _ Hw) as H0.
  fold (limit_after limit lh). destruct (heap_has (class_data_size h)); [|done].
  members_next sf M1 Hs H0. members_next inf M2 Hs H0. members_next dm M3 Hs H0. members_next vm M4 Hs H0.
  intros [= <- <-]. cbn [header] in Ht.
  pose proof (header_range _ _ Hlh) as (? & ? & ? & ?). rewrite (class_data_size_id h lh Hlh Ht) in *.
  unfold class_data_total, sizeof_DexClassData, sizeof_DexField, sizeof_DexMethod, inU in *.
  apply entries_text in M1 as (t1 & -> & M1 & W1 & -> & L1); [|lia..].
  apply entries_text in M2 as (t2 & -> & M2 & W2 & -> & L2); [|lia..].
  apply entries_text in M3 as (t3 & -> & M3 & W3 & -> & L3); [|lia..].
  apply entries_text in M4 as (t4 & -> & M4 & W4 & -> & L4); [|lia..].
  exists (lh ++ t1 ++ t2 ++ t3 ++ t4). rewrite <- !app_assoc. split; [done|].
  destruct h as [n1 n2 n3 n4]. cbn [staticFieldsSize instanceFieldsSize directMethodsSize virtualMethodsSize] in *.
  subst n1 n2 n3 n4. split; [by constructor|].
  repeat (apply within_app; split; [done|]). done.
Qed.

(** One list that is there is read; what follows it is left. *)
Lemma members_read {A} read text (index : A -> Z) `{!EntryReader read text index} size base rs okay n l rest limit xs :
  0 < size -> base + n * size <= rs -> n = Z.of_nat (length xs) -> okay = true ->
  Forall is_byte (l ++ rest) -> members_text text index 0 xs l -> within limit l ->
  members read size base rs okay n (l ++ rest) limit = Some (Some xs, rest, limit_after limit l).
Proof.
  intros Hsz Hr Hn Ho Hs Ht Hw. pose proof (within_nil _ _ Hw) as H0.
  apply (members_spec read text index size base rs Hsz okay n _ _ _ _ _ Hs H0). split; [done|].
  apply entries_text; [lia..|]. exists l. by split_and!.
Qed.

Lemma class_data_complete heap_has limit cd l rest : Forall is_byte (l ++ rest) ->
  class_data_total (header cd) < 2 ^ 32 -> heap_has (class_data_total (header cd)) = true ->
  class_text cd l -> within limit l ->
  dexReadAndVerifyClassData heap_has (Some (l ++ rest)) limit = Some (Some cd, Some rest).
Proof.
  intros Hs Ht Hh Hl Hw. destruct Hl as [sf inf dm vm lh l1 l2 l3 l4 h Hlh M1 M2 M3 M4].
  cbn [header] in *. rewrite <- !app_assoc in *. pose proof (within_nil _ _ Hw) as H0.
  apply within_app in Hw as [Wh Hw]. fold (limit_after limit lh) in Hw.
  unfold dexReadAndVerifyClassData.
  rewrite (proj2 (header_checked (lh ++ l1 ++ l2 ++ l3 ++ l4 ++ rest) limit h _ Hs H0)) by eauto.
  cbn [mbind option_bind]. rewrite limit_from_app. fold (limit_after limit lh).
  rewrite (class_data_size_id h lh Hlh Ht), Hh.
  unfold class_data_total, sizeof_DexClassData, sizeof_DexField, sizeof_DexMethod in *.
  subst h. cbn [staticFieldsSize instanceFieldsSize directMethodsSize virtualMethodsSize] in *.
  apply Forall_app in Hs as [_ Hs].
  apply within_app in Hw as [W1 Hw]. fold (limit_after (limit_after limit lh) l1) in Hw.
  rewrite (members_read _ field_text fieldIdx 8 _ _ true _ l1 _ _ sf) by (done || lia).
  cbn [mbind option_bind]. apply Forall_app in Hs as [_ Hs].
  apply within_app in Hw as [W2 Hw]. match type of Hw with within (_ ← ?m; _) _ => fold (limit_after m l2) in Hw end.
  rewrite (members_read _ field_text fieldIdx 8 _ _ _ _ l2 _ _ inf) by (done || lia).
  cbn [mbind option_bind]. apply Forall_app in Hs as [_ Hs].
  apply within_app in Hw as [W3 W4]. match type of W4 with within (_ ← ?m; _) _ => fold (limit_after m l3) in W4 end.
  rewrite (members_read _ method_text methodIdx 12 _ _ _ _ l3 _ _ dm) by (done || lia).
  cbn [mbind option_bind]. apply Forall_app in Hs as [_ Hs].
  by rewrite (members_read _ method_text methodIdx 12 _ _ _ _ l4 _ _ vm) by (done || lia).
Qed.

(** ** Properties *)

(** C39. [dexReadAndVerifyClassData] accepts exactly the encoded classes. When the
    size of the result does not wrap around and the heap has it, the function
    returns a class, and a pointer, if and only if the bytes up to that pointer are
    an encoding of the class (its sizes, then the four lists with their indices as
    differences, every number in any form without excess bits) and lie before the
    limit. So whatever is encoded is read back, nothing else is accepted, and no
    store leaves the chunk. *)
Theorem class_data_decided heap_has s limit cd rest : Forall is_byte s -> within limit [] ->
  class_data_total (header cd) < 2 ^ 32 -> heap_has (class_data_total (header cd)) = true ->
  dexReadAndVerifyClassData heap_has (Some s) limit = Some (Some cd, Some rest) <->
  exists l, s = l ++ rest /\ class_text cd l /\ within limit l.
Proof.
  intros Hs H0 Ht Hh. split; [by apply class_data_sound|].
  intros (l & -> & Hl & Hw). by apply class_data_complete.
Qed.

(** A class with a static field, an instance field after another, and a method. *)
Definition ex_class : DexClassData :=
  MkClassData (MkHeader 1 2 1 0) [MkField 300 9] [MkField 4 2; MkField 6 2] [MkMethod 17 0x10001 0x1f4] [].

Lemma class_data_decided_witness :
  dexReadAndVerifyClassData (fun n => n <=? 256)
    (Some ([1; 2; 1; 0] ++ [0xac; 2; 9] ++ [4; 2; 2; 2] ++ [17; 0x81; 0x80; 4; 0xf4; 3] ++ [0xff])) (Some 17) =
  Some (Some ex_class, Some [0xff]).
Proof.
  assert (Hs : Forall is_byte ([1; 2; 1; 0] ++ [0xac; 2; 9] ++ [4; 2; 2; 2] ++ [17; 0x81; 0x80; 4; 0xf4; 3] ++ [0xff]))
    by (apply (bool_decide_unpack _); vm_compute; exact I).
  pose proof uleb_checked_decided as Hn.
  apply (class_data_decided (fun n => n <=? 256) _ (Some 17) ex_class [0xff] Hs); [cbn; lia|reflexivity|reflexivity|].
  exists ([1; 2; 1; 0] ++ [0xac; 2; 9] ++ [4; 2; 2; 2] ++ [17; 0x81; 0x80; 4; 0xf4; 3] ++ []).
  split; [reflexivity|]. split; [|cbn; lia].
  apply (class_text_intro [MkField 300 9] [MkField 4 2; MkField 6 2] [MkMethod 17 0x10001 0x1f4] []
    [1; 2; 1; 0] [0xac; 2; 9] [4; 2; 2; 2] [17; 0x81; 0x80; 4; 0xf4; 3] []).
  - apply (numbers_cons 1 _ [1]); [apply Hn; vm_compute; reflexivity|]. apply (numbers_cons 2 _ [2]); [apply Hn; vm_compute; reflexivity|].
    apply (numbers_cons 1 _ [1]); [apply Hn; vm_compute; reflexivity|]. apply (numbers_cons 0 [] [0] []); [apply Hn; vm_compute; reflexivity|constructor].
  - apply (members_cons _ _ 0 _ _ [0xac; 2; 9] []); [|constructor]. exists 300. split; [reflexivity|].
    apply (numbers_cons 300 _ [0xac; 2]); [apply Hn; vm_compute; reflexivity|]. apply (numbers_cons 9 [] [9] []); [apply Hn; vm_compute; reflexivity|constructor].
  - apply (members_cons _ _ 0 _ _ [4; 2] [2; 2]).
    + exists 4. split; [reflexivity|]. apply (numbers_cons 4 _ [4]); [apply Hn; vm_compute; reflexivity|].
      apply (numbers_cons 2 [] [2] []); [apply Hn; vm_compute; reflexivity|constructor].
    + apply (members_cons _ _ 4 _ _ [2; 2] []); [|constructor]. exists 2. split; [reflexivity|].
      apply (numbers_cons 2 _ [2]); [apply Hn; vm_compute; reflexivity|]. apply (numbers_cons 2 [] [2] []); [apply Hn; vm_compute; reflexivity|constructor].
  - apply (members_cons _ _ 0 _ _ [17; 0x81; 0x80; 4; 0xf4; 3] []); [|constructor]. exists 17.
    split; [reflexivity|]. apply (numbers_cons 17 _ [17]); [apply Hn; vm_compute; reflexivity|].
    apply (numbers_cons 0x10001 _ [0x81; 0x80; 4]); [apply Hn; vm_compute; reflexivity|].
    apply (numbers_cons 0x1f4 [] [0xf4; 3] []); [apply Hn; vm_compute; reflexivity|constructor].
  - constructor.
Defined.

(** The null pointer has the empty class; the result of the allocation is cleared
    before it is tested. *)
Lemma class_data_of_null heap_has limit :
  dexReadAndVerifyClassData heap_has None limit =
    if heap_has sizeof_DexClassData then Some (Some (MkClassData (MkHeader 0 0 0 0) [] [] [] []), None)
    else None.
Proof. done. Qed.

(** The size of the chunk is computed modulo [2^32]: 2^29 fields are given no room
    at all, and the first one that is read is stored past the end of the chunk. *)
Lemma class_data_size_wraps :
  class_data_size (MkHeader 0x20000000 0 0 0) = sizeof_DexClassData /\
  dexReadAndVerifyClassData (fun _ => true)
    (Some [0x80; 0x80; 0x80; 0x80; 2; 0; 0; 0; 1; 1; 0; 0; 0; 0; 0]) (Some 10) = None.
Proof. split; vm_compute; reflexivity. Qed.
