(* ===== verification/DexSwapVerify.v ===== *)
(** * Verification of code items: [dalvik/libdex/DexSwapVerify.cpp]

    [swapCodeItem] on the bytes of a mapped dex file, with the try table and the
    catch handlers behind the instructions. The host is little-endian, so that
    swapping is the identity. A pointer is an offset from [fileStart]; reading
    outside the file is [None]. *)

From S2P Require Import Prelude Bits Search Leb128 DexCatch DexClass.

(** ** The file *)

(** The bytes of the file, the address they are mapped at, and [typeIdsSize] of its
    header. *)
Record CheckState := MkCheckState {
  file : list Z;
  fileStart : Z;
  pHeader_typeIdsSize : Z
}.

Definition fileLen (state : CheckState) : Z := Z.of_nat (length (file state)).

Definition u2_at (file : list Z) (ptr : Z) : option Z :=
  b0 ← aref file ptr; b1 ← aref file (ptr + 1); Some (le_val [b0; b1]).

Definition u4_at (file : list Z) (ptr : Z) : option Z :=
  b0 ← aref file ptr; b1 ← aref file (ptr + 1); b2 ← aref file (ptr + 2); b3 ← aref file (ptr + 3);
  Some (le_val [b0; b1; b2; b3]).

Definition checkPtrRange (state : CheckState) (start end_ : Z) : bool :=
  negb ((start <? 0) || (start >? fileLen state) || (end_ <? start) || (end_ >? fileLen state)).

(** [CHECK_LIST_SIZE]; [safe_mul] fails when the product is not a [u4]. *)
Definition check_list_size (state : CheckState) (ptr count elemSize : Z) : bool :=
  (count * elemSize <? 2 ^ 32) && checkPtrRange state ptr (ptr + count * elemSize).

(** ** The parts of a code item *)

Definition sizeof_DexCode : Z := 20.
Definition sizeof_DexTry : Z := 8.

(** [item->insns]. *)
Definition insns_off (item : Z) : Z := item + 16.

(** [dexGetTries]: the instructions end at a multiple of two. *)
Definition dexGetTries (state : CheckState) (item insnsSize : Z) : Z :=
  let insnsEnd := insns_off item + 2 * insnsSize in
  if negb (Z.land (u32 (fileStart state + insnsEnd)) 3 =? 0) then insnsEnd + 2 else insnsEnd.

Definition dexGetCatchHandlerData (state : CheckState) (item insnsSize triesSize : Z) : Z :=
  dexGetTries state item insnsSize + sizeof_DexTry * triesSize.

Fixpoint units_at (file : list Z) (ptr : Z) (n : nat) : option (list Z) :=
  match n with
  | O => Some []
  | S n => u ← u2_at file ptr; us ← units_at file (ptr + 2) n; Some (u :: us)
  end.

Definition try_at (file : list Z) (ptr : Z) : option DexTry :=
  s ← u4_at file ptr; n ← u2_at file (ptr + 4); h ← u2_at file (ptr + 6); Some (MkDexTry s n h).

Fixpoint tries_at (file : list Z) (ptr : Z) (n : nat) : option (list DexTry) :=
  match n with
  | O => Some []
  | S n => t ← try_at file ptr; ts ← tries_at file (ptr + sizeof_DexTry) n; Some (t :: ts)
  end.

(** The bytes a pointer points at, up to the end of the file. *)
Definition bytes_from (file : list Z) (ptr : Z) : option (list Z) :=
  if (0 <=? ptr) && (ptr <=? Z.of_nat (length file)) then Some (drop (Z.to_nat ptr) file) else None.

(** The code item at an offset, as the rest of the library reads it. *)
Definition code_at (state : CheckState) (item : Z) : option DexCode :=
  registersSize ← u2_at (file state) item;
  insSize ← u2_at (file state) (item + 2);
  outsSize ← u2_at (file state) (item + 4);
  triesSize ← u2_at (file state) (item + 6);
  debugInfoOff ← u4_at (file state) (item + 8);
  insnsSize ← u4_at (file state) (item + 12);
  insns ← units_at (file state) (insns_off item) (Z.to_nat insnsSize);
  if triesSize =? 0 then Some (MkDexCode registersSize insSize outsSize triesSize debugInfoOff insnsSize insns [] [])
  else
    tries ← tries_at (file state) (dexGetTries state item insnsSize) (Z.to_nat triesSize);
    data ← bytes_from (file state) (dexGetCatchHandlerData state item insnsSize triesSize);
    Some (MkDexCode registersSize insSize outsSize triesSize debugInfoOff insnsSize insns tries data).

(** ** Tries and catch handlers

    A pointer into the handlers is the list of the bytes up to [fileEnd], which is
    therefore the limit of every reader. *)

Definition read_uleb (ptr : list Z) : option (Z * list Z * bool) :=
  '(v, ptr, okay) ← readAndVerifyUnsignedLeb128 ptr (Some (Z.of_nat (length ptr))) true;
  Some (u32 v, ptr, okay).

Section Handlers.
Context (typeIdsSize insnsSize : Z).

(** An address of a handler: [Some None] when it is rejected. *)
Definition check_addr (ptr : list Z) : option (option (list Z)) :=
  '(addr, ptr, okay) ← read_uleb ptr;
  if negb okay then Some None
  else if addr >=? insnsSize then Some None
  else Some (Some ptr).

(** [while (size-- > 0)]. *)
Fixpoint clauses_check (size : nat) (ptr : list Z) : option (option (list Z)) :=
  match size with
  | O => Some (Some ptr)
  | S size =>
      '(typeIdx, ptr, okay) ← read_uleb ptr;
      if negb okay then Some None
      else if typeIdx >=? typeIdsSize then Some None
      else
        r ← check_addr ptr;
        match r with None => Some None | Some ptr => clauses_check size ptr end
  end.

(** One turn of the loop over the lists: the pointer past the list. *)
Definition handler_check (ptr : list Z) : option (option (list Z)) :=
  '(size, ptr, okay) ← readAndVerifySignedLeb128 ptr (Some (Z.of_nat (length ptr))) true;
  if negb okay then Some None
  else if (size <? -65536) || (size >? 65536) then Some None
  else
    let '(catchAll, size) := if size <=? 0 then (true, - size) else (false, size) in
    r ← clauses_check (Z.to_nat size) ptr;
    match r with
    | None => Some None
    | Some ptr => if (catchAll : bool) then check_addr ptr else Some (Some ptr)
    end.

(** The end offset, 0 for a failure, and the entries of [handlerOffs]. *)
Fixpoint setHandlerOffsAndVerify (handlersSize : nat) (handlersBase : list Z) (offset : Z)
    (handlerOffs : list Z) : option (Z * list Z) :=
  match handlersSize with
  | O => Some (offset, handlerOffs)
  | S handlersSize =>
      r ← handler_check (drop (Z.to_nat offset) handlersBase);
      match r with
      | None => Some (0, handlerOffs)
      | Some ptr =>
          setHandlerOffsAndVerify handlersSize handlersBase
            (u32 (Z.of_nat (length handlersBase) - Z.of_nat (length ptr))) (handlerOffs ++ [offset])
      end
  end.

(** The loop over the tries. *)
Fixpoint tries_check (file : list Z) (count : nat) (tries lastEnd : Z) (handlerOffs : list Z) : option bool :=
  match count with
  | O => Some true
  | S count =>
      t ← try_at file tries;
      if startAddr t <? lastEnd then Some false
      else if startAddr t >=? insnsSize then Some false
      else if negb (existsb (Z.eqb (handlerOff t)) handlerOffs) then Some false
      else
        let lastEnd := u32 (startAddr t + insnCount t) in
        if lastEnd >? insnsSize then Some false
        else tries_check file count (tries + sizeof_DexTry) lastEnd handlerOffs
  end.

End Handlers.

(** The offset past the handlers; [Some None]: [NULL]. *)
Definition swapTriesAndCatches (state : CheckState) (item insnsSize triesSize : Z) : option (option Z) :=
  let encodedHandlers := dexGetCatchHandlerData state item insnsSize triesSize in
  base ← bytes_from (file state) encodedHandlers;
  '(handlersSize, encodedPtr, okay) ← read_uleb base;
  if negb okay then Some None
  else if (handlersSize =? 0) || (handlersSize >=? 65536) then Some None
  else
    '(endOffset, handlerOffs) ←
      setHandlerOffsAndVerify (pHeader_typeIdsSize state) insnsSize (Z.to_nat handlersSize) base
        (u32 (Z.of_nat (length base) - Z.of_nat (length encodedPtr))) [];
    if endOffset =? 0 then Some None
    else
      let tries := dexGetTries state item insnsSize in
      if negb (check_list_size state tries triesSize sizeof_DexTry) then Some None
      else
        okay ← tries_check insnsSize (file state) (Z.to_nat triesSize) tries 0 handlerOffs;
        if negb okay then Some None else Some (Some (encodedHandlers + endOffset)).

Definition swapCodeItem (state : CheckState) (item : Z) : option (option Z) :=
  if negb (checkPtrRange state item (item + sizeof_DexCode)) then Some None
  else
    registersSize ← u2_at (file state) item;
    insSize ← u2_at (file state) (item + 2);
    outsSize ← u2_at (file state) (item + 4);
    triesSize ← u2_at (file state) (item + 6);
    insnsSize ← u4_at (file state) (item + 12);
    if insSize >? registersSize then Some None
    else if (outsSize >? 5) && (outsSize >? registersSize) then Some None
    else if negb (check_list_size state (insns_off item) insnsSize 2) then Some None
    else
      let insns := insns_off item + 2 * insnsSize in
      if triesSize =? 0 then Some (Some insns)
      else
        padding ← (if negb (Z.land (u32 (fileStart state + insns)) 3 =? 0)
                   then u ← u2_at (file state) insns; Some (negb (u =? 0)) else Some false);
        if (padding : bool) then Some None
        else swapTriesAndCatches state item insnsSize triesSize.

(** [dexGetDexCodeSize] of [DexFile.cpp], on the code item at an offset. *)
Fixpoint lists_end (n : nat) (pCode : DexCode) (offset : Z) : option Z :=
  match n with
  | O => Some offset
  | S n =>
      iterator ← dexCatchIteratorInit dexCatchIteratorClear pCode offset;
      '(offset, _) ← dexCatchIteratorGetEndOffset iterator pCode;
      lists_end n pCode offset
  end.

Definition dexGetDexCodeSize (state : CheckState) (item : Z) (pCode : DexCode) : option Z :=
  '(handlersSize, offset) ←
    (if negb (triesSize pCode =? 0) then
       n ← dexGetHandlersSize pCode; offset ← dexGetFirstHandlerOffset pCode; Some (n, offset)
     else Some (0, 0));
  offset ← lists_end (Z.to_nat handlersSize) pCode offset;
  Some (u32 (dexGetCatchHandlerData state item (insnsSize pCode) (triesSize pCode) - item + offset)).

(** ** What acceptance means *)

(** A code item the rest of the library can work on. *)
Record code_ok (pCode : DexCode) : Prop := {
  code_registers : inU 16 (registersSize pCode);
  code_ins : 0 <= insSize pCode <= registersSize pCode;
  code_size : insnsSize pCode = Z.of_nat (length (insns pCode));
  code_units : Forall (inU 16) (insns pCode);
  code_catches : triesSize pCode <> 0 -> exists hs size_text texts,
    catches_ok pCode hs size_text texts /\
    Forall (fun t => startAddr t < insnsSize pCode /\ startAddr t + insnCount t <= insnsSize pCode) (tries pCode) /\
    forall h x, h ∈ hs -> x ∈ handlers_of h -> 0 <= address x < insnsSize pCode
}.

(** ** Lemmas: readers *)

Lemma read_uleb_ok s v rest : Forall is_byte s -> read_uleb s = Some (v, rest, true) ->
  exists l, s = l ++ rest /\ uleb v l.
Proof.
  intros Hs. unfold read_uleb.
  destruct (readAndVerifyUnsignedLeb128 s _ true) as [[[r rest'] ok]|] eqn:E; [|done]. cbn [mbind option_bind].
  intros [= <- -> ->]. apply verified_number in E as (v & l & -> & [Hv _] & _ & ->); [|done].
  exists l. rewrite wrapU_wrapS, wrapU_id by (lia || by eapply uleb_range). done.
Qed.

Lemma read_sleb_ok s limit v rest : Forall is_byte s -> readAndVerifySignedLeb128 s limit true = Some (v, rest, true) ->
  exists l, s = l ++ rest /\ sleb v l.
Proof.
  intros Hs. unfold readAndVerifySignedLeb128. rewrite readSigned_spec by done.
  destruct (leb_bytes 5 s) as [[l r]|] eqn:E; [|done]. cbn [mbind option_bind]. intros [= <- -> _].
  destruct (leb_bytes_split _ _ _ _ E) as [-> El]. apply Forall_app in Hs as [? ?]. exists l. by split.
Qed.

Section Accepted.
Context (typeIdsSize insnsSize : Z).

Lemma check_addr_ok s rest : Forall is_byte s -> check_addr insnsSize s = Some (Some rest) ->
  exists a l, s = l ++ rest /\ uleb a l /\ 0 <= a < insnsSize.
Proof.
  intros Hs. unfold check_addr. destruct (read_uleb s) as [[[a r] ok]|] eqn:E; [|done]. cbn [mbind option_bind].
  destruct ok; [|done]. cbn [negb]. rewrite Z.geb_leb. destruct (Z.leb_spec insnsSize a); [done|]. intros [= ->].
  apply read_uleb_ok in E as (l & -> & Hl); [|done]. pose proof (uleb_range _ _ Hl) as [? _]. by exists a, l.
Qed.

Lemma clauses_check_ok n : forall s rest, Forall is_byte s ->
  clauses_check typeIdsSize insnsSize n s = Some (Some rest) ->
  exists ps l, s = l ++ rest /\ length ps = n /\ clauses_text ps l /\ Forall (fun p => 0 <= p.2 < insnsSize) ps.
Proof.
  induction n as [|n IH]; intros s rest Hs; cbn [clauses_check].
  - intros [= ->]. exists [], []. by repeat split; constructor.
  - destruct (read_uleb s) as [[[t r] ok]|] eqn:E; [|done]. cbn [mbind option_bind]. destruct ok; [|done].
    cbn [negb]. destruct (t >=? typeIdsSize); [done|].
    apply read_uleb_ok in E as (lt & -> & Ht); [|done]. apply Forall_app in Hs as [_ Hs].
    destruct (check_addr insnsSize r) as [[r'|]|] eqn:Ea; [|done..]. cbn [mbind option_bind].
    apply check_addr_ok in Ea as (a & la & -> & Ha & Hr); [|done]. apply Forall_app in Hs as [_ Hs]. intros H.
    apply IH in H as (ps & l & -> & <- & Hps & Hf); [|done].
    exists ((t, a) :: ps), (lt ++ la ++ l). rewrite <- !app_assoc. repeat split; by constructor.
Qed.

Lemma handler_check_ok s rest : Forall is_byte s ->
  handler_check typeIdsSize insnsSize s = Some (Some rest) ->
  exists h l, s = l ++ rest /\ list_text h l /\ forall x, x ∈ handlers_of h -> 0 <= address x < insnsSize.
Proof.
  intros Hs. unfold handler_check.
  destruct (readAndVerifySignedLeb128 s _ true) as [[[size r] ok]|] eqn:E; [|done]. cbn [mbind option_bind].
  destruct ok; [|done]. cbn [negb]. rewrite Z.gtb_ltb.
  destruct (Z.ltb_spec size (-65536)); [done|]. destruct (Z.ltb_spec 65536 size); [done|]. cbn [orb].
  apply read_sleb_ok in E as (ln & -> & Hn); [|done]. apply Forall_app in Hs as [_ Hs].
  assert (Hin : forall ps (x : DexCatchHandler), Forall (fun p => 0 <= p.2 < insnsSize) ps ->
    x ∈ map (fun p => MkHandler p.1 p.2) ps -> 0 <= address x < insnsSize).
  { intros ps x Hf (p & -> & Hp)%list_elem_of_fmap. by apply (proj1 (Forall_forall _ _) Hf). }
  destruct (Z.leb_spec size 0).
  - destruct (clauses_check _ _ _ r) as [[r'|]|] eqn:Ec; [|done..]. cbn [mbind option_bind]. intros Ha.
    apply clauses_check_ok in Ec as (ps & lp & -> & Hl & Hps & Hf); [|done]. apply Forall_app in Hs as [_ Hs].
    apply check_addr_ok in Ha as (a & la & -> & Ha & Hr); [|done].
    exists (MkHandlerList ps (Some a)), (ln ++ lp ++ la). rewrite <- !app_assoc. split; [done|]. split.
    + constructor; [lia| |done..]. by replace (- Z.of_nat (length ps)) with size by lia.
    + unfold handlers_of. cbn [caught catch_all]. intros x [Hx| ->%list_elem_of_singleton]%elem_of_app; [eauto|done].
  - destruct (clauses_check _ _ _ r) as [[r'|]|] eqn:Ec; [|done..]. cbn [mbind option_bind]. intros [= ->].
    apply clauses_check_ok in Ec as (ps & lp & -> & Hl & Hps & Hf); [|done].
    exists (MkHandlerList ps None), (ln ++ lp). rewrite <- !app_assoc. split; [done|]. split.
    + constructor; [by intros ->; cbn in Hl; lia|lia| |done]. by replace (Z.of_nat (length ps)) with size by lia.
    + unfold handlers_of. cbn [caught catch_all]. rewrite app_nil_r. eauto.
Qed.

(** The offsets of texts one after another, from [k] on. *)
Fixpoint offsets_from (k : Z) (texts : list (list Z)) : list Z :=
  match texts with
  | [] => []
  | t :: texts => k :: offsets_from (k + Z.of_nat (length t)) texts
  end.

Lemma offsets_from_elem x texts : forall k, x ∈ offsets_from k texts ->
  exists i, (i < length texts)%nat /\ x = k + Z.of_nat (length (concat (take i texts))).
Proof.
  induction texts as [|t texts IH]; intros k; cbn [offsets_from]; [by intros ?%not_elem_of_nil|].
  intros [->|H]%elem_of_cons.
  - exists 0%nat. cbn. lia.
  - destruct (IH _ H) as (i & Hi & ->). exists (S i). cbn [length take concat]. rewrite length_app. lia.
Qed.

Lemma set_handler_offs_ok n : forall pre s offs e offs', Forall is_byte s -> pre <> [] ->
  Z.of_nat (length (pre ++ s)) < 2 ^ 32 ->
  setHandlerOffsAndVerify typeIdsSize insnsSize n (pre ++ s) (Z.of_nat (length pre)) offs = Some (e, offs') -> e <> 0 ->
  exists hs texts rest, s = concat texts ++ rest /\ length hs = n /\ Forall2 list_text hs texts /\
    offs' = offs ++ offsets_from (Z.of_nat (length pre)) texts /\
    e = Z.of_nat (length pre + length (concat texts)) /\
    forall h x, h ∈ hs -> x ∈ handlers_of h -> 0 <= address x < insnsSize.
Proof.
  induction n as [|n IH]; intros pre s offs e offs' Hs Hpre Hlen; cbn [setHandlerOffsAndVerify].
  - intros [= <- <-] _. exists [], [], s.
    split_and!; [done|done|constructor|cbn [offsets_from]; by rewrite app_nil_r|cbn [length concat]; lia|].
    by intros h x ?%not_elem_of_nil.
  - rewrite Nat2Z.id, drop_app_length.
    destruct (handler_check typeIdsSize insnsSize s) as [[r|]|] eqn:Eh; [|by intros [= <- <-]|done].
    cbn [mbind option_bind]. apply handler_check_ok in Eh as (h & l & -> & Hl & Hh); [|done].
    apply Forall_app in Hs as [Hlb Hr]. rewrite (app_assoc pre) in Hlen |- *.
    replace (u32 _) with (Z.of_nat (length (pre ++ l)))
      by (rewrite wrapU_id; [rewrite !length_app; lia|unfold inU; rewrite !length_app in *; lia]).
    intros H He.
    apply IH in H as (hs & texts & rest & -> & <- & Ht & -> & -> & Hin); [|done| |done|done].
    2: by destruct pre.
    exists (h :: hs), (l :: texts), rest. cbn [concat length offsets_from]. rewrite <- !app_assoc. split_and!; try done.
    + by constructor.
    + cbn [app]. by rewrite length_app, Nat2Z.inj_add.
    + rewrite !length_app. lia.
    + intros h' x [->|Hh']%elem_of_cons Hx; [by apply Hh|by apply (Hin h')].
Qed.

End Accepted.

(** ** Lemmas: structures in the file *)

Lemma le_val_range l : Forall is_byte l -> 0 <= le_val l < 256 ^ Z.of_nat (length l).
Proof.
  induction 1 as [|b l Hb _ IH]; [cbn; lia|]. cbn [le_val length]. unfold is_byte in Hb.
  rewrite Nat2Z.inj_succ, Z.pow_succ_r by lia. lia.
Qed.

Lemma aref_byte (l : list Z) i b : Forall is_byte l -> aref l i = Some b -> is_byte b.
Proof.
  intros Hl H. pose proof (aref_lt _ _ _ H). rewrite aref_nat in H by lia. by apply (Forall_lookup_1 _ _ _ _ Hl H).
Qed.

Lemma u2_at_range file ptr u : Forall is_byte file -> u2_at file ptr = Some u -> inU 16 u.
Proof.
  intros Hf. unfold u2_at. destruct (aref file ptr) as [b0|] eqn:E0; [|done].
  destruct (aref file (ptr + 1)) as [b1|] eqn:E1; [|done]. cbn [mbind option_bind]. intros [= <-].
  apply (le_val_range [b0; b1]). repeat constructor; by eapply aref_byte.
Qed.

Lemma u4_at_range file ptr u : Forall is_byte file -> u4_at file ptr = Some u -> inU 32 u.
Proof.
  intros Hf. unfold u4_at. destruct (aref file ptr) as [b0|] eqn:E0; [|done].
  destruct (aref file (ptr + 1)) as [b1|] eqn:E1; [|done]. destruct (aref file (ptr + 2)) as [b2|] eqn:E2; [|done].
  destruct (aref file (ptr + 3)) as [b3|] eqn:E3; [|done]. cbn [mbind option_bind]. intros [= <-].
  apply (le_val_range [b0; b1; b2; b3]). repeat constructor; by eapply aref_byte.
Qed.

Lemma aref_defined (file : list Z) i : 0 <= i < Z.of_nat (length file) -> exists b, aref file i = Some b.
Proof. intros H. apply aref_is_Some in H as [b E]. by exists b. Qed.

Lemma u2_at_defined file ptr : 0 <= ptr -> ptr + 2 <= Z.of_nat (length file) -> exists u, u2_at file ptr = Some u.
Proof.
  intros H0 H1. unfold u2_at. destruct (aref_defined file ptr) as [b0 ->]; [lia|].
  destruct (aref_defined file (ptr + 1)) as [b1 ->]; [lia|]. by eexists.
Qed.

Lemma u4_at_defined file ptr : 0 <= ptr -> ptr + 4 <= Z.of_nat (length file) -> exists u, u4_at file ptr = Some u.
Proof.
  intros H0 H1. unfold u4_at. destruct (aref_defined file ptr) as [b0 ->]; [lia|].
  destruct (aref_defined file (ptr + 1)) as [b1 ->]; [lia|]. destruct (aref_defined file (ptr + 2)) as [b2 ->]; [lia|].
  destruct (aref_defined file (ptr + 3)) as [b3 ->]; [lia|]. by eexists.
Qed.

Lemma units_at_ok file n : forall ptr, Forall is_byte file -> 0 <= ptr -> ptr + 2 * Z.of_nat n <= Z.of_nat (length file) ->
  exists us, units_at file ptr n = Some us /\ length us = n /\ Forall (inU 16) us.
Proof.
  induction n as [|n IH]; intros ptr Hf H0 H1; cbn [units_at]; [by exists []|].
  destruct (u2_at_defined file ptr) as [u E]; [lia..|]. destruct (IH (ptr + 2) Hf) as (us & -> & <- & Hu); [lia..|].
  rewrite E. exists (u :: us). split; [done|]. split; [done|]. constructor; [|done]. by eapply u2_at_range.
Qed.

Lemma try_at_ok file ptr : Forall is_byte file -> 0 <= ptr -> ptr + sizeof_DexTry <= Z.of_nat (length file) ->
  exists t, try_at file ptr = Some t /\ inU 32 (startAddr t) /\ inU 16 (insnCount t) /\ inU 16 (handlerOff t).
Proof.
  unfold sizeof_DexTry. intros Hf H0 H1. unfold try_at.
  destruct (u4_at_defined file ptr) as [s Es]; [lia..|]. destruct (u2_at_defined file (ptr + 4)) as [n En]; [lia..|].
  destruct (u2_at_defined file (ptr + 6)) as [h Eh]; [lia..|]. rewrite Es, En, Eh. eexists. split; [done|].
  split_and!; [by eapply u4_at_range|by eapply u2_at_range..].
Qed.

(** A block in order after [lastEnd], whose handlers are among those at [offs]. *)
Definition block_ok (insnsSize lastEnd : Z) (offs : list Z) (t : DexTry) : Prop :=
  try_ok t /\ lastEnd <= startAddr t < insnsSize /\ startAddr t + insnCount t <= insnsSize /\ handlerOff t ∈ offs.

Lemma tries_check_ok insnsSize file offs n : Forall is_byte file -> insnsSize < 2 ^ 31 -> forall ptr lastEnd,
  0 <= ptr -> ptr + sizeof_DexTry * Z.of_nat n <= Z.of_nat (length file) ->
  tries_check insnsSize file n ptr lastEnd offs = Some true ->
  exists ts, tries_at file ptr n = Some ts /\ length ts = n /\ Forall (block_ok insnsSize lastEnd offs) ts /\
    forall i j a b, (i < j)%nat -> ts !! i = Some a -> ts !! j = Some b -> startAddr a + insnCount a <= startAddr b.
Proof.
  intros Hf Hi. unfold sizeof_DexTry. induction n as [|n IH]; intros ptr lastEnd H0 H1; cbn [tries_check tries_at].
  - intros _. exists []. split_and!; [done|done|constructor|by intros].
  - destruct (try_at_ok file ptr Hf) as (t & -> & Hs & Hn & Hh); [unfold sizeof_DexTry; lia..|].
    cbn [mbind option_bind]. unfold inU in *.
    destruct (Z.ltb_spec (startAddr t) lastEnd); [done|]. rewrite Z.geb_leb.
    destruct (Z.leb_spec insnsSize (startAddr t)); [done|].
    destruct (existsb _ offs) eqn:Eo; [|done]. cbn [negb].
    apply existsb_exists in Eo as (o & Ho%list_elem_of_In & <-%Z.eqb_eq).
    rewrite wrapU_id by (unfold inU; lia). rewrite Z.gtb_ltb.
    destruct (Z.ltb_spec insnsSize (startAddr t + insnCount t)); [done|]. unfold sizeof_DexTry. intros Hrec.
    destruct (IH (ptr + 8) (startAddr t + insnCount t)) as (ts & -> & <- & Hts & Hsort); [lia..|exact Hrec|].
    exists (t :: ts). split; [done|]. split; [done|]. split.
    + constructor; [unfold block_ok, try_ok; split_and!; (done || lia)|].
      eapply Forall_impl; [exact Hts|]. intros u (? & [? ?] & ? & ?). unfold block_ok. split_and!; (done || lia).
    + intros i j a b Hij Ha Hb. destruct j as [|j]; [lia|]. cbn in Hb. destruct i as [|i].
      * cbn in Ha. injection Ha as <-. by destruct (Forall_lookup_1 _ _ _ _ Hts Hb) as (_ & [? _] & _).
      * cbn in Ha. apply (Hsort i j); [lia|done..].
Qed.

Lemma check_range_ok state start end_ : checkPtrRange state start end_ = true ->
  0 <= start <= end_ /\ end_ <= fileLen state.
Proof.
  unfold checkPtrRange. rewrite !Z.gtb_ltb. intros H%negb_true_iff.
  rewrite !orb_false_iff, !Z.ltb_ge in H. lia.
Qed.

Lemma check_list_ok state ptr count size : check_list_size state ptr count size = true ->
  0 <= ptr /\ 0 <= count * size < 2 ^ 32 /\ ptr + count * size <= fileLen state.
Proof.
  unfold check_list_size. intros H. apply andb_prop in H as [H1%Z.ltb_lt H2].
  apply check_range_ok in H2. lia.
Qed.

Lemma bytes_from_ok file ptr l : bytes_from file ptr = Some l -> Forall is_byte file ->
  Forall is_byte l /\ 0 <= ptr /\ Z.of_nat (length file) = ptr + Z.of_nat (length l).
Proof.
  unfold bytes_from. destruct (Z.leb_spec 0 ptr); [|done].
  destruct (Z.leb_spec ptr (Z.of_nat (length file))); [|done]. cbn [andb]. intros [= <-] Hf.
  rewrite length_drop. split; [by apply Forall_drop|lia].
Qed.

(** The tries and the handlers that are accepted are those of the code item. *)
Lemma tries_and_catches_ok state item pCode e :
  Forall is_byte (file state) -> fileLen state < 2 ^ 32 ->
  inU 16 (triesSize pCode) -> insnsSize pCode < 2 ^ 31 ->
  swapTriesAndCatches state item (insnsSize pCode) (triesSize pCode) = Some (Some e) ->
  exists ts data, tries_at (file state) (dexGetTries state item (insnsSize pCode)) (Z.to_nat (triesSize pCode)) = Some ts /\
    bytes_from (file state) (dexGetCatchHandlerData state item (insnsSize pCode) (triesSize pCode)) = Some data /\
    (tries pCode = ts -> handler_data pCode = data ->
     exists hs size_text texts, catches_ok pCode hs size_text texts /\
       e = dexGetCatchHandlerData state item (insnsSize pCode) (triesSize pCode) +
           list_offset size_text texts (length texts) /\
       Forall (fun t => startAddr t < insnsSize pCode /\ startAddr t + insnCount t <= insnsSize pCode) ts /\
       forall h x, h ∈ hs -> x ∈ handlers_of h -> 0 <= address x < insnsSize pCode).
Proof.
  intros Hf Hlen Ht Hi. unfold swapTriesAndCatches.
  destruct (bytes_from _ _) as [base|] eqn:Eb; [|done]. cbn [mbind option_bind].
  destruct (bytes_from_ok _ _ _ Eb Hf) as (Hb & Hb0 & Hlb). unfold fileLen in Hlen.
  destruct (read_uleb base) as [[[n r] ok]|] eqn:En; [|done]. cbn [mbind option_bind].
  destruct ok; [|done]. cbn [negb]. apply read_uleb_ok in En as (size_text & -> & Hn); [|done].
  destruct ((n =? 0) || (n >=? 65536)) eqn:En; [done|]. apply orb_false_iff in En as [_ Hn1].
  rewrite Z.geb_leb in Hn1. apply Z.leb_gt in Hn1. pose proof (uleb_range _ _ Hn) as [Hn0 _].
  rewrite length_app in Hlb |- *. replace (u32 _) with (Z.of_nat (length size_text)) by (rewrite wrapU_id; [lia|unfold inU; lia]).
  destruct (setHandlerOffsAndVerify _ _ _ _ _ _) as [[e1 offs]|] eqn:Es; [|done]. cbn [mbind option_bind].
  destruct (Z.eqb_spec e1 0) as [|He]; [done|]. apply Forall_app in Hb as [Hbs Hbr].
  pose proof (uleb_length _ _ Hn) as Hsl.
  apply set_handler_offs_ok in Es as (hs & texts & rest & -> & Hlh & Hts & -> & -> & Hin);
    [|done|by intros ->; cbn in Hsl; lia|rewrite length_app; lia|done].
  destruct (check_list_size _ _ _ _) eqn:Ec; [|done]. cbn [negb]. apply check_list_ok in Ec as (Hc0 & _ & Hc1).
  unfold inU in Ht. unfold fileLen, sizeof_DexTry in Hc1.
  destruct (tries_check _ _ _ _ _ _) as [[]|] eqn:Et; [|done..]. cbn [mbind option_bind negb]. intros [= <-].
  apply tries_check_ok in Et as (ts & Ets & Hlt & Hall & Hsort); [|done|done|done|unfold sizeof_DexTry; lia].
  exists ts, (size_text ++ concat texts ++ rest). split; [done|]. split; [done|]. intros Etr Ed.
  pose proof (Forall2_length _ _ _ Hts) as Hl2. apply Forall_app in Hbr as [_ Hrest].
  exists hs, size_text, texts. split_and!; [split| | |done].
  - split; [rewrite Etr; lia|unfold inU; lia|rewrite Etr; eapply Forall_impl; [exact Hall|]; by intros t (? & _)|].
    rewrite Etr. intros i j a b Hij Ha Hb. pose proof (aref_lt _ _ _ Ha). pose proof (aref_lt _ _ _ Hb).
    rewrite aref_nat in Ha, Hb by lia. apply (Hsort (Z.to_nat i) (Z.to_nat j)); [lia|done..].
  - by rewrite Hlh, Z2Nat.id.
  - done.
  - by exists rest.
  - rewrite Ed. rewrite !length_app in *. lia.
  - rewrite Etr. intros t Htin. destruct (proj1 (Forall_forall _ _) Hall t Htin) as (_ & _ & _ & Ho).
    cbn [app] in Ho. apply offsets_from_elem in Ho as (i & Hi' & ->).
    destruct (lookup_lt_is_Some_2 hs i) as [h Hh]; [lia|]. exists i, h. split; [done|].
    unfold list_offset. rewrite length_app. lia.
  - unfold list_offset. rewrite firstn_all, length_app. lia.
  - eapply Forall_impl; [exact Hall|]. by intros t (_ & [_ ?] & ? & _).
Qed.

(** The lists end where the verification found their end. *)
Lemma lists_end_ok pCode hs size_text texts : triesSize pCode <> 0 -> catches_ok pCode hs size_text texts ->
  forall n k, (k + n = length hs)%nat ->
  lists_end n pCode (list_offset size_text texts k) = Some (list_offset size_text texts (length hs)).
Proof.
  intros Ht Hc. destruct (ok_data _ _ _ _ Hc) as (rest & Hrest & Hdata).
  destruct (lists_decoded pCode hs size_text texts rest Ht (ok_lists_size _ _ _ _ Hc) (ok_lists _ _ _ _ Hc)
    Hrest Hdata (ok_data_size _ _ _ _ Hc)) as (_ & _ & Hdec).
  induction n as [|n IH]; intros k Hk; cbn [lists_end]; [by replace k with (length hs) by lia|].
  destruct (lookup_lt_is_Some_2 hs k) as [h Hh]; [lia|].
  destruct (Hdec k h dexCatchIteratorClear Hh) as (it1 & it2 & -> & _ & _ & E & _). cbn [mbind option_bind].
  rewrite E. cbn [mbind option_bind]. apply IH. lia.
Qed.

Lemma code_size_ok state item pCode hs size_text texts : triesSize pCode <> 0 ->
  catches_ok pCode hs size_text texts ->
  dexGetDexCodeSize state item pCode =
    Some (u32 (dexGetCatchHandlerData state item (insnsSize pCode) (triesSize pCode) - item +
               list_offset size_text texts (length texts))).
Proof.
  intros Ht Hc. destruct (ok_data _ _ _ _ Hc) as (rest & Hrest & Hdata).
  destruct (lists_decoded pCode hs size_text texts rest Ht (ok_lists_size _ _ _ _ Hc) (ok_lists _ _ _ _ Hc)
    Hrest Hdata (ok_data_size _ _ _ _ Hc)) as (En & Eo & _).
  unfold dexGetDexCodeSize. rewrite (proj2 (Z.eqb_neq _ _) Ht), En, Eo. cbn [negb mbind option_bind].
  rewrite Nat2Z.id, (lists_end_ok pCode hs size_text texts Ht Hc) by lia.
  by rewrite (Forall2_length _ _ _ (ok_lists _ _ _ _ Hc)).
Qed.

Lemma code_size_plain state item pCode : triesSize pCode = 0 ->
  let e := insns_off item + 2 * insnsSize pCode in
  dexGetDexCodeSize state item pCode = Some (u32 (e - item + (if (fileStart state + e) mod 4 =? 0 then 0 else 2))).
Proof.
  intros H0 e. unfold dexGetDexCodeSize. rewrite H0. cbn [negb Z.eqb mbind option_bind lists_end Z.to_nat]. unfold dexGetCatchHandlerData, dexGetTries. fold e.
  rewrite (land_mask 2) by lia. assert (E : u32 (fileStart state + e) mod 2 ^ 2 = (fileStart state + e) mod 4) by (unfold wrapU; dlia).
  rewrite E. change (lists_end (Z.to_nat 0) pCode 0) with (Some 0). cbn [mbind option_bind]. do 2 f_equal. unfold sizeof_DexTry. destruct (_ =? 0); cbn [negb]; lia.
Qed.

Lemma code_item_ok state item e : Forall is_byte (file state) -> fileLen state < 2 ^ 32 ->
  swapCodeItem state item = Some (Some e) ->
  exists pCode, code_at state item = Some pCode /\ code_ok pCode /\
    (triesSize pCode <> 0 -> dexGetDexCodeSize state item pCode = Some (e - item)) /\
    (triesSize pCode = 0 -> e = insns_off item + 2 * insnsSize pCode /\
       dexGetDexCodeSize state item pCode = Some (u32 (e - item + (if (fileStart state + e) mod 4 =? 0 then 0 else 2)))).
Proof.
  intros Hf Hlen. unfold swapCodeItem, code_at. destruct (checkPtrRange _ _ _) eqn:Ec; [|done]. cbn [negb].
  apply check_range_ok in Ec. unfold sizeof_DexCode in Ec. unfold fileLen in *.
  destruct (u2_at_defined (file state) item) as [regs E1]; [lia..|].
  destruct (u2_at_defined (file state) (item + 2)) as [ins E2]; [lia..|].
  destruct (u2_at_defined (file state) (item + 4)) as [outs E3]; [lia..|].
  destruct (u2_at_defined (file state) (item + 6)) as [ntries E4]; [lia..|].
  destruct (u4_at_defined (file state) (item + 8)) as [dbg E5]; [lia..|].
  destruct (u4_at_defined (file state) (item + 12)) as [n E6]; [lia..|].
  rewrite E1, E2, E3, E4, E5, E6. cbn [mbind option_bind].
  rewrite (Z.gtb_ltb ins). destruct (Z.ltb_spec regs ins); [done|]. destruct ((outs >? 5) && _); [done|].
  destruct (check_list_size _ _ _ _) eqn:El; [|done]. cbn [negb]. apply check_list_ok in El. unfold fileLen, insns_off in *.
  apply u2_at_range in E1, E2, E4; [|done..]. apply u4_at_range in E6; [|done]. unfold inU in *.
  destruct (units_at_ok (file state) (Z.to_nat n) (item + 16)) as (us & -> & Hus & Hu); [done|lia|lia|].
  cbn [mbind option_bind]. destruct (Z.eqb_spec ntries 0) as [->|Hne].
  - intros [= <-]. eexists. split; [done|]. split; [split; cbn; [unfold inU; lia|lia|lia|done|done]|]. split; [done|]. intros _. split; [done|].
    by rewrite code_size_plain.
  - destruct (if negb _ then _ else _) as [[]|]; [done| |done]. cbn [mbind option_bind]. intros Hswap.
    set (code := fun ts data => MkDexCode regs ins outs ntries dbg n us ts data).
    destruct (tries_and_catches_ok state item (code [] []) e Hf Hlen) as (ts & data & Ets & Ed & _);
      [unfold inU; cbn; lia|cbn; lia|exact Hswap|]. cbn [code triesSize insnsSize] in Ets, Ed.
    destruct (tries_and_catches_ok state item (code ts data) e Hf Hlen) as (ts' & data' & Ets' & Ed' & Hok);
      [unfold inU; cbn; lia|cbn; lia|exact Hswap|]. cbn [code triesSize insnsSize tries handler_data] in Ets', Ed', Hok.
    destruct (Hok ltac:(congruence) ltac:(congruence)) as (hs & size_text & texts & Hc & -> & Hb & Hin).
    assert (ts' = ts) as -> by congruence. rewrite Ets, Ed. exists (code ts data). split; [done|].
    split; [split; cbn; [unfold inU; lia|lia|lia|done|by exists hs, size_text, texts]|]. split; [|done].
    intros _. rewrite (code_size_ok _ _ _ hs size_text texts) by done. cbn [code triesSize insnsSize]. f_equal.
    destruct (bytes_from_ok _ _ _ Ed Hf) as (_ & Hd0 & Hd1).
    destruct (ok_data _ _ _ _ Hc) as (rest & _ & Hdata). cbn [code handler_data] in Hdata.
    apply (f_equal length) in Hdata. rewrite !length_app in Hdata. unfold list_offset.
    rewrite firstn_all, length_app. unfold dexGetCatchHandlerData, dexGetTries, insns_off, sizeof_DexTry in *.
    rewrite wrapU_id; [lia|]. unfold inU. destruct (negb _); lia.
Qed.

(** ** Properties *)

(** C21. A code item that is accepted can be read, and is well formed: its
    instructions are in the file, its try blocks are sorted, apart from each other and
    within the instructions, every block refers to one of the lists of handlers
    behind it, which are encoded as the format wants and whose addresses are in the
    instructions. The offset returned is the end of the item: behind its lists of
    handlers, as the size that is computed for it says, when it has try blocks; behind
    its instructions when it has none, where the computed size includes the two bytes that
    align the next item, if they are needed. *)
Theorem accepted_code_item state item e : Forall is_byte (file state) -> fileLen state < 2 ^ 32 ->
  swapCodeItem state item = Some (Some e) ->
  exists pCode, code_at state item = Some pCode /\ code_ok pCode /\
    (triesSize pCode <> 0 -> dexGetDexCodeSize state item pCode = Some (e - item)) /\
    (triesSize pCode = 0 -> e = insns_off item + 2 * insnsSize pCode /\
       dexGetDexCodeSize state item pCode = Some (u32 (e - item + (if (fileStart state + e) mod 4 =? 0 then 0 else 2)))).
Proof. apply code_item_ok. Qed.

(** ** Witnesses *)

(** A file that is a code item of 18 units, a try block and a list with a handler. *)
Definition ex_state : CheckState :=
  MkCheckState
    [1; 0; 0; 0; 0; 0; 1; 0; 0; 0; 0; 0; 18; 0; 0; 0;
     0x12; 0x10; 0x2b; 0; 9; 0; 0; 0; 0xdb; 0; 0; 1; 0x0e; 0; 0x0d; 0; 0x0e; 0; 0; 0;
     0; 1; 2; 0; 0; 0; 0; 0; 3; 0; 0; 0; 5; 0; 0; 0;
     4; 0; 0; 0; 2; 0; 1; 0;
     1; 0; 7] 4096 0.

Lemma accepted_code_item_witness : exists pCode, code_at ex_state 0 = Some pCode /\ code_ok pCode /\
  triesSize pCode = 1 /\ dexGetDexCodeSize ex_state 0 pCode = Some 63.
Proof.
  assert (Hf : Forall is_byte (file ex_state)) by (apply (bool_decide_unpack _); vm_compute; exact I).
  assert (Hs : swapCodeItem ex_state 0 = Some (Some 63)) by (vm_compute; reflexivity).
  destruct (accepted_code_item ex_state 0 63 Hf ltac:(vm_compute; reflexivity) Hs) as (pCode & E & Hok & Hsize & _).
  assert (Ht : triesSize pCode = 1) by (vm_compute in E; injection E as <-; reflexivity).
  exists pCode. split; [exact E|]. split; [exact Hok|]. split; [exact Ht|]. apply Hsize. rewrite Ht. discriminate.
Defined.

(** A try table behind the end of the file is read before it is looked for there. *)
Lemma handlers_past_file : swapCodeItem (MkCheckState (take 52 (file ex_state)) 4096 0) 0 = None.
Proof. vm_compute. reflexivity. Qed.
