(* ===== verification/DexVerify.v ===== *)
(** * The static verifier: [dalvik/vm/analysis/DexVerify.cpp]

    The first two of the three passes over the code of a method: the widths of the
    instructions, the try table, and the operands of every instruction. The flags
    are an array with an entry per code unit. [None] stands for what the language
    leaves undefined: an access outside an array, the signed overflow of an [int],
    a failed assertion. *)

From S2P Require Import Prelude Bits Search OpcodeTables Opcodes InstrUtils SwitchData Leb128 DexCatch.

(** ** Instruction flags: [VerifySubs.h] and [CodeVerify.h] *)

Definition kInsnFlagWidthMask : Z := 0x0000ffff.
Definition kInsnFlagInTry : Z := Z.shiftl 1 16.
Definition kInsnFlagBranchTarget : Z := Z.shiftl 1 17.
Definition kInsnFlagGcPoint : Z := Z.shiftl 1 18.

(** The address is an [int]. *)
Definition dvmInsnGetWidth (insnFlags : list Z) (addr : Z) : option Z :=
  flags ← aref insnFlags (s32 addr);
  Some (Z.land flags kInsnFlagWidthMask).

Definition dvmInsnIsOpcode (insnFlags : list Z) (addr : Z) : option bool :=
  flags ← aref insnFlags (s32 addr);
  Some (negb (Z.land flags kInsnFlagWidthMask =? 0)).

(** [insnFlags[addr] |= bits]. *)
Definition or_flags (insnFlags : list Z) (addr bits : Z) : option (list Z) :=
  flags ← aref insnFlags (s32 addr);
  aset insnFlags (s32 addr) (Z.lor flags bits).

Definition dvmInsnSetInTry (insnFlags : list Z) (addr : Z) : option (list Z) :=
  or_flags insnFlags addr kInsnFlagInTry.

Definition dvmInsnSetBranchTarget (insnFlags : list Z) (addr : Z) : option (list Z) :=
  or_flags insnFlags addr kInsnFlagBranchTarget.

Definition dvmInsnSetGcPoint (insnFlags : list Z) (addr : Z) : option (list Z) :=
  or_flags insnFlags addr kInsnFlagGcPoint.

(** ** Methods and dex files *)

(** [insns_addr] is the address [meth->insns] as a number. *)
Record Method := MkMethod {
  m_registersSize : Z;
  m_insSize : Z;
  dvmIsNativeMethod : bool;
  dvmIsAbstractMethod : bool;
  isInitMethod : bool;
  insns_addr : Z;
  code_of : DexCode
}.

Definition dvmGetMethodCode (meth : Method) : option DexCode :=
  if dvmIsNativeMethod meth || dvmIsAbstractMethod meth then None else Some (code_of meth).

Definition dvmGetMethodInsnsSize (meth : Method) : Z :=
  match dvmGetMethodCode meth with None => 0 | Some pCode => insnsSize pCode end.

(** [meth->insns + offset]. *)
Definition insns_at (meth : Method) (offset : Z) : option (list Z) :=
  if (0 <=? offset) && (offset <=? Z.of_nat (length (insns (code_of meth))))
  then Some (unit_ptr (insns (code_of meth)) offset) else None.

(** The sizes in the header of the dex file, and [dexStringByTypeIdx]: the bytes of
    the descriptor of a type from its first on. *)
Record DvmDex := MkDvmDex {
  stringIdsSize : Z;
  typeIdsSize : Z;
  fieldIdsSize : Z;
  methodIdsSize : Z;
  dexStringByTypeIdx : Z -> list Z
}.

(** ** The first pass: widths and counts *)

(** [Some None]: false. *)
Fixpoint widths_loop (fuel : nat) (meth : Method) (insnFlags : list Z)
    (i newInstanceCount monitorEnterCount : Z) : option (option (list Z * Z * Z)) :=
  let insnCount := dvmGetMethodInsnsSize meth in
  if i <? s32 insnCount then
    match fuel with
    | O => None
    | S fuel =>
        insns ← insns_at meth i;
        width ← dexGetWidthFromInstruction insns;
        if width =? 0 then Some None
        else
          inst ← FETCH insns 0;
          let opcode := dexOpcodeFromCodeUnit inst in
          let newInstanceCount := if opcode =? OP_NEW_INSTANCE then newInstanceCount + 1 else newInstanceCount in
          let monitorEnterCount := if opcode =? OP_MONITOR_ENTER then monitorEnterCount + 1 else monitorEnterCount in
          insnFlags ← or_flags insnFlags i width;
          widths_loop fuel meth insnFlags (s32 (i + width)) newInstanceCount monitorEnterCount
    end
  else if negb (i =? s32 insnCount) then Some None
  else Some (Some (insnFlags, newInstanceCount, monitorEnterCount)).

Definition computeWidthsAndCountOps (meth : Method) (insnFlags : list Z) :
    option (option (list Z * Z * Z)) :=
  widths_loop (Z.to_nat (dvmGetMethodInsnsSize meth)) meth insnFlags 0 0 0.

(** The addresses of the instructions that make instances; the array has [count]
    entries. *)
Fixpoint uninit_loop (fuel : nat) (meth : Method) (insnFlags : list Z) (addr count : Z)
    (found : list Z) : option (list Z) :=
  if addr <? s32 (dvmGetMethodInsnsSize meth) then
    match fuel with
    | O => None
    | S fuel =>
        width ← dvmInsnGetWidth insnFlags addr;
        insns ← insns_at meth addr;
        inst ← FETCH insns 0;
        found ← (if dexOpcodeFromCodeUnit inst =? OP_NEW_INSTANCE then
                   if Z.of_nat (length found) <? count then Some (found ++ [addr]) else None
                 else Some found);
        addr ← chkS 32 (addr + width);
        uninit_loop fuel meth insnFlags addr count found
    end
  else Some found.

Definition kUninitThisArgAddr : Z := -1.

(** Memory being available. *)
Definition dvmCreateUninitInstanceMap (meth : Method) (insnFlags : list Z) (newInstanceCount : Z) :
    option (list Z) :=
  let count := if isInitMethod meth then newInstanceCount + 1 else newInstanceCount in
  uninit_loop (Z.to_nat (dvmGetMethodInsnsSize meth)) meth insnFlags 0 count
    (if isInitMethod meth then [kUninitThisArgAddr] else []).

(** ** The try table *)

(** The loop over the instructions of a block. *)
Fixpoint in_try_loop (fuel : nat) (insnFlags : list Z) (addr end_ : Z) : option (list Z) :=
  if addr <? end_ then
    match fuel with
    | O => None
    | S fuel =>
        insnFlags ← dvmInsnSetInTry insnFlags addr;
        width ← dvmInsnGetWidth insnFlags addr;
        in_try_loop fuel insnFlags (u32 (addr + width)) end_
    end
  else Some insnFlags.

Fixpoint tries_loop (n : nat) (pTries : list DexTry) (idx insnsSize : Z) (insnFlags : list Z) :
    option (option (list Z)) :=
  match n with
  | O => Some (Some insnFlags)
  | S n =>
      pTry ← aref pTries idx;
      let start := startAddr pTry in
      let end_ := u32 (start + insnCount pTry) in
      if (start >=? end_) || (start >=? insnsSize) || (end_ >? insnsSize) then Some None
      else
        width ← dvmInsnGetWidth insnFlags start;
        if width =? 0 then Some None
        else
          insnFlags ← in_try_loop (Z.to_nat insnsSize) insnFlags start end_;
          tries_loop n pTries (idx + 1) insnsSize insnFlags
  end.

(** The [for (;;)] over the handlers of a list. *)
Fixpoint list_loop (fuel : nat) (iterator : DexCatchIterator) (insnFlags : list Z) :
    option (option (list Z * DexCatchIterator)) :=
  match fuel with
  | O => None
  | S fuel =>
      '(handler, iterator) ← dexCatchIteratorNext iterator;
      match handler with
      | None => Some (Some (insnFlags, iterator))
      | Some handler =>
          width ← dvmInsnGetWidth insnFlags (address handler);
          if width =? 0 then Some None
          else
            insnFlags ← dvmInsnSetBranchTarget insnFlags (address handler);
            list_loop fuel iterator insnFlags
      end
  end.

Fixpoint lists_loop (n : nat) (pCode : DexCode) (offset : Z) (insnFlags : list Z) :
    option (option (list Z)) :=
  match n with
  | O => Some (Some insnFlags)
  | S n =>
      iterator ← dexCatchIteratorInit dexCatchIteratorClear pCode offset;
      r ← list_loop (Z.to_nat (countRemaining iterator) + 2) iterator insnFlags;
      match r with
      | None => Some None
      | Some (insnFlags, iterator) =>
          '(offset, _) ← dexCatchIteratorGetEndOffset iterator pCode;
          lists_loop n pCode offset insnFlags
      end
  end.

Definition scanTryCatchBlocks (meth : Method) (insnFlags : list Z) : option (option (list Z)) :=
  let insnsSize := dvmGetMethodInsnsSize meth in
  pCode ← dvmGetMethodCode meth;
  if triesSize pCode =? 0 then Some (Some insnFlags)
  else
    r ← tries_loop (Z.to_nat (triesSize pCode)) (tries pCode) 0 insnsSize insnFlags;
    match r with
    | None => Some None
    | Some insnFlags =>
        handlersSize ← dexGetHandlersSize pCode;
        offset ← dexGetFirstHandlerOffset pCode;
        lists_loop (Z.to_nat handlersSize) pCode offset insnFlags
    end.

(** ** Branches and tables *)

(** [dvmGetBranchOffset] of [VerifySubs.cpp]: the offset and whether the branch is
    conditional; [Some None]: false. *)
Definition dvmGetBranchOffset (meth : Method) (curOffset : Z) : option (option (Z * bool)) :=
  insns ← insns_at meth curOffset;
  inst ← FETCH insns 0;
  let op := Z.land inst 0xff in
  if op =? OP_GOTO then Some (Some (Z.shiftr (wrapS 16 inst) 8, false))
  else if op =? OP_GOTO_32 then
    lo ← FETCH insns 1;
    hi ← FETCH insns 2;
    Some (Some (s32 (Z.lor lo (u32 (Z.shiftl hi 16))), false))
  else if op =? OP_GOTO_16 then u ← FETCH insns 1; Some (Some (wrapS 16 u, false))
  else if bool_decide (op ∈ [OP_IF_EQ; OP_IF_NE; OP_IF_LT; OP_IF_GE; OP_IF_GT; OP_IF_LE;
                             OP_IF_EQZ; OP_IF_NEZ; OP_IF_LTZ; OP_IF_GEZ; OP_IF_GTZ; OP_IF_LEZ]) then
    u ← FETCH insns 1; Some (Some (wrapS 16 u, true))
  else Some None.

Definition checkBranchTarget (meth : Method) (insnFlags : list Z) (curOffset : Z) (selfOkay : bool) :
    option (bool * list Z) :=
  let insnCount := s32 (dvmGetMethodInsnsSize meth) in
  r ← dvmGetBranchOffset meth curOffset;
  match r with
  | None => Some (false, insnFlags)
  | Some (offset, isConditional) =>
      if negb selfOkay && (offset =? 0) then Some (false, insnFlags)
      else
        sum ← chkS 32 (curOffset + offset);
        if negb (curOffset + offset =? sum) then Some (false, insnFlags)
        else
          let absOffset := sum in
          if (absOffset <? 0) || (absOffset >=? insnCount) then Some (false, insnFlags)
          else
            opcode ← dvmInsnIsOpcode insnFlags absOffset;
            if negb opcode then Some (false, insnFlags)
            else
              insnFlags ← dvmInsnSetBranchTarget insnFlags absOffset;
              Some (true, insnFlags)
  end.

(** [4 bytes at table[i]], as the code puts them together from two code units. *)
Definition s4_at (table : list Z) (i : Z) : option Z :=
  lo ← aref table i;
  hi ← aref table (i + 1);
  Some (s4_of lo hi).

(** The keys of a sparse switch are in ascending order, from the one after [lastKey]. *)
Fixpoint keys_loop (n : nat) (switchInsns : list Z) (offsetToKeys targ lastKey : Z) : option bool :=
  match n with
  | O => Some true
  | S n =>
      key ← s4_at switchInsns (offsetToKeys + targ * 2);
      if key <=? lastKey then Some false
      else keys_loop n switchInsns offsetToKeys (targ + 1) key
  end.

Fixpoint targets_loop (n : nat) (switchInsns : list Z) (insnCount curOffset offsetToTargets targ : Z)
    (insnFlags : list Z) : option (bool * list Z) :=
  match n with
  | O => Some (true, insnFlags)
  | S n =>
      offset ← s4_at switchInsns (offsetToTargets + targ * 2);
      let absOffset := s32 (u32 (curOffset + offset)) in
      if (absOffset <? 0) || (absOffset >=? s32 insnCount) then Some (false, insnFlags)
      else
        opcode ← dvmInsnIsOpcode insnFlags absOffset;
        if negb opcode then Some (false, insnFlags)
        else
          insnFlags ← dvmInsnSetBranchTarget insnFlags absOffset;
          targets_loop n switchInsns insnCount curOffset offsetToTargets (targ + 1) insnFlags
  end.

Definition checkSwitchTargets (meth : Method) (insnFlags : list Z) (curOffset : Z) :
    option (bool * list Z) :=
  let insnCount := dvmGetMethodInsnsSize meth in
  insns ← insns_at meth curOffset;
  i0 ← FETCH insns 0;
  i1 ← FETCH insns 1;
  i2 ← FETCH insns 2;
  let offsetToSwitch := s4_of i1 i2 in
  start ← chkS 32 (s32 curOffset + offsetToSwitch);
  if (start <? 0) || (u32 (curOffset + offsetToSwitch + 2) >=? insnCount) then Some (false, insnFlags)
  else
    switchInsns ← insns_at meth (curOffset + offsetToSwitch);
    if negb (Z.land (u32 (insns_addr meth + 2 * (curOffset + offsetToSwitch))) 0x03 =? 0)
    then Some (false, insnFlags)
    else
      switchCount ← aref switchInsns 1;
      let '(offsetToKeys, offsetToTargets, expectedSignature) :=
        if Z.land i0 0xff =? OP_PACKED_SWITCH then (-1, 4, kPackedSwitchSignature)
        else (2, 2 + 2 * switchCount, kSparseSwitchSignature) in
      let tableSize := u32 (offsetToTargets + switchCount * 2) in
      signature ← aref switchInsns 0;
      if negb (signature =? expectedSignature) then Some (false, insnFlags)
      else if u32 (curOffset + offsetToSwitch + tableSize) >? insnCount then Some (false, insnFlags)
      else
        ascending ← (if (offsetToKeys >? 0) && (switchCount >? 1) then
                       lastKey ← s4_at switchInsns offsetToKeys;
                       keys_loop (Z.to_nat (switchCount - 1)) switchInsns offsetToKeys 1 lastKey
                     else Some true);
        if negb ascending then Some (false, insnFlags)
        else targets_loop (Z.to_nat switchCount) switchInsns insnCount curOffset offsetToTargets 0 insnFlags.

Definition checkArrayData (meth : Method) (curOffset : Z) : option bool :=
  let insnCount := dvmGetMethodInsnsSize meth in
  insns ← insns_at meth curOffset;
  i1 ← FETCH insns 1;
  i2 ← FETCH insns 2;
  let offsetToArrayData := s4_of i1 i2 in
  start ← chkS 32 (s32 curOffset + offsetToArrayData);
  if (start <? 0) || (u32 (curOffset + offsetToArrayData + 2) >=? insnCount) then Some false
  else
    arrayData ← insns_at meth (curOffset + offsetToArrayData);
    if negb (Z.land (u32 (insns_addr meth + 2 * (curOffset + offsetToArrayData))) 0x03 =? 0)
    then Some false
    else
      valueWidth ← aref arrayData 1;
      lo ← aref arrayData 2;
      hi ← aref arrayData 3;
      let valueCount := lo + hi * 2 ^ 16 in
      let tableSize := u32 (4 + u32 (u32 (valueWidth * valueCount) + 1) / 2) in
      if u32 (curOffset + offsetToArrayData + tableSize) >? insnCount then Some false
      else Some true.

(** ** Indices and registers *)

Definition checkNewInstance (pDvmDex : DvmDex) (idx : Z) : option bool :=
  if idx >=? typeIdsSize pDvmDex then Some false
  else
    c ← aref (dexStringByTypeIdx pDvmDex idx) 0;
    if negb (c =? 76 (* L *)) then Some false else Some true.

(** The loop over the opening brackets. *)
Fixpoint bracket_loop (cp : list Z) (bracketCount : Z) : option Z :=
  match cp with
  | [] => None
  | c :: cp => if c =? 91 (* [ *) then bracket_loop cp (bracketCount + 1) else Some bracketCount
  end.

Definition checkNewArray (pDvmDex : DvmDex) (idx : Z) : option bool :=
  if idx >=? typeIdsSize pDvmDex then Some false
  else
    bracketCount ← bracket_loop (dexStringByTypeIdx pDvmDex idx) 0;
    if bracketCount =? 0 then Some false
    else if bracketCount >? 255 then Some false
    else Some true.

Definition checkTypeIndex (pDvmDex : DvmDex) (idx : Z) : bool := negb (idx >=? typeIdsSize pDvmDex).

Definition checkFieldIndex (pDvmDex : DvmDex) (idx : Z) : bool := negb (idx >=? fieldIdsSize pDvmDex).

Definition checkMethodIndex (pDvmDex : DvmDex) (idx : Z) : bool := negb (idx >=? methodIdsSize pDvmDex).

Definition checkStringIndex (pDvmDex : DvmDex) (idx : Z) : bool := negb (idx >=? stringIdsSize pDvmDex).

Definition checkRegisterIndex (meth : Method) (idx : Z) : bool := negb (idx >=? m_registersSize meth).

Definition checkWideRegisterIndex (meth : Method) (idx : Z) : bool :=
  negb (u32 (idx + 1) >=? m_registersSize meth).

Fixpoint vararg_loop (n : nat) (args : list Z) (idx registersSize : Z) : option bool :=
  match n with
  | O => Some true
  | S n =>
      r ← aref args idx;
      if r >? registersSize then Some false else vararg_loop n args (idx + 1) registersSize
  end.

Definition checkVarargRegs (meth : Method) (pDecInsn : DecodedInstruction) : option bool :=
  if vA pDecInsn >? 5 then Some false
  else vararg_loop (Z.to_nat (vA pDecInsn)) (arg pDecInsn) 0 (m_registersSize meth).

Definition checkVarargRangeRegs (meth : Method) (pDecInsn : DecodedInstruction) : bool :=
  negb (u32 (vA pDecInsn + vC pDecInsn) >? m_registersSize meth).

(** ** The second pass: operands *)

Definition VERIFY_GC_INST_MASK : Z :=
  Z.lor (Z.lor (Z.lor kInstrCanBranch kInstrCanSwitch) kInstrCanThrow) kInstrCanReturn.

Definition one_of (opcode : Z) (opcodes : list Z) : bool := existsb (Z.eqb opcode) opcodes.

(** The switch over the opcode, in three parts: whether the operands are in order,
    and the flags. Every check of a case is made, whatever those before it answered.
    First the cases from the conditional branches on. *)
Definition check_branches_and_members (meth : Method) (pDvmDex : DvmDex) (decInsn : DecodedInstruction)
    (codeOffset : Z) (insnFlags : list Z) : option (bool * list Z) :=
  let opcode := opcode decInsn in
  if one_of opcode
      [OP_IF_EQ; OP_IF_NE; OP_IF_LT; OP_IF_GE; OP_IF_GT; OP_IF_LE]
  then
    '(ok, insnFlags) ← checkBranchTarget meth insnFlags codeOffset false;
    Some (checkRegisterIndex meth (vA decInsn) && checkRegisterIndex meth (vB decInsn) && ok, insnFlags)
  else if one_of opcode
      [OP_IF_EQZ; OP_IF_NEZ; OP_IF_LTZ; OP_IF_GEZ; OP_IF_GTZ; OP_IF_LEZ]
  then
    '(ok, insnFlags) ← checkBranchTarget meth insnFlags codeOffset false;
    Some (checkRegisterIndex meth (vA decInsn) && ok, insnFlags)
  else if one_of opcode
      [OP_IGET; OP_IGET_OBJECT; OP_IGET_BOOLEAN; OP_IGET_BYTE; OP_IGET_CHAR; OP_IGET_SHORT;
       OP_IPUT; OP_IPUT_OBJECT; OP_IPUT_BOOLEAN; OP_IPUT_BYTE; OP_IPUT_CHAR; OP_IPUT_SHORT]
  then
    Some (checkRegisterIndex meth (vA decInsn) && checkRegisterIndex meth (vB decInsn) && checkFieldIndex pDvmDex (vC decInsn), insnFlags)
  else if one_of opcode
      [OP_IGET_WIDE; OP_IPUT_WIDE]
  then
    Some (checkWideRegisterIndex meth (vA decInsn) && checkRegisterIndex meth (vB decInsn) && checkFieldIndex pDvmDex (vC decInsn), insnFlags)
  else if one_of opcode
      [OP_SGET; OP_SGET_OBJECT; OP_SGET_BOOLEAN; OP_SGET_BYTE; OP_SGET_CHAR; OP_SGET_SHORT;
       OP_SPUT; OP_SPUT_OBJECT; OP_SPUT_BOOLEAN; OP_SPUT_BYTE; OP_SPUT_CHAR; OP_SPUT_SHORT]
  then
    Some (checkRegisterIndex meth (vA decInsn) && checkFieldIndex pDvmDex (vB decInsn), insnFlags)
  else if one_of opcode
      [OP_SGET_WIDE; OP_SPUT_WIDE]
  then
    Some (checkWideRegisterIndex meth (vA decInsn) && checkFieldIndex pDvmDex (vB decInsn), insnFlags)
  else if one_of opcode
      [OP_FILLED_NEW_ARRAY]
  then
    ok ← checkVarargRegs meth decInsn;
    Some (checkTypeIndex pDvmDex (vB decInsn) && ok, insnFlags)
  else if one_of opcode
      [OP_FILLED_NEW_ARRAY_RANGE]
  then
    Some (checkTypeIndex pDvmDex (vB decInsn) && checkVarargRangeRegs meth decInsn, insnFlags)
  else if one_of opcode
      [OP_INVOKE_VIRTUAL; OP_INVOKE_SUPER; OP_INVOKE_DIRECT; OP_INVOKE_STATIC;
       OP_INVOKE_INTERFACE]
  then
    ok ← checkVarargRegs meth decInsn;
    Some (checkMethodIndex pDvmDex (vB decInsn) && ok, insnFlags)
  else if one_of opcode
      [OP_INVOKE_VIRTUAL_RANGE; OP_INVOKE_SUPER_RANGE; OP_INVOKE_DIRECT_RANGE;
       OP_INVOKE_STATIC_RANGE; OP_INVOKE_INTERFACE_RANGE]
  then
    Some (checkMethodIndex pDvmDex (vB decInsn) && checkVarargRangeRegs meth decInsn, insnFlags)
  else if one_of opcode
      [OP_IGET_VOLATILE; OP_IPUT_VOLATILE; OP_SGET_VOLATILE; OP_SPUT_VOLATILE;
       OP_IGET_OBJECT_VOLATILE; OP_IPUT_OBJECT_VOLATILE; OP_SGET_OBJECT_VOLATILE;
       OP_SPUT_OBJECT_VOLATILE; OP_IGET_WIDE_VOLATILE; OP_IPUT_WIDE_VOLATILE;
       OP_SGET_WIDE_VOLATILE; OP_SPUT_WIDE_VOLATILE; OP_BREAKPOINT;
       OP_THROW_VERIFICATION_ERROR; OP_EXECUTE_INLINE; OP_EXECUTE_INLINE_RANGE;
       OP_INVOKE_OBJECT_INIT_RANGE; OP_RETURN_VOID_BARRIER; OP_IGET_QUICK;
       OP_IGET_WIDE_QUICK; OP_IGET_OBJECT_QUICK; OP_IPUT_QUICK; OP_IPUT_WIDE_QUICK;
       OP_IPUT_OBJECT_QUICK; OP_INVOKE_VIRTUAL_QUICK; OP_INVOKE_VIRTUAL_QUICK_RANGE;
       OP_INVOKE_SUPER_QUICK; OP_INVOKE_SUPER_QUICK_RANGE; OP_UNUSED_3E; OP_UNUSED_3F;
       OP_UNUSED_40; OP_UNUSED_41; OP_UNUSED_42; OP_UNUSED_43; OP_UNUSED_73; OP_UNUSED_79;
       OP_UNUSED_7A; OP_UNUSED_FF]
  then
    Some (false, insnFlags)
  else Some (true, insnFlags).

(** The cases from the constants of the pool to the arithmetic of three registers. *)
Definition check_constants_and_arrays (meth : Method) (pDvmDex : DvmDex) (decInsn : DecodedInstruction)
    (codeOffset : Z) (insnFlags : list Z) : option (bool * list Z) :=
  let opcode := opcode decInsn in
  if one_of opcode
      [OP_CONST_STRING; OP_CONST_STRING_JUMBO]
  then
    Some (checkRegisterIndex meth (vA decInsn) && checkStringIndex pDvmDex (vB decInsn), insnFlags)
  else if one_of opcode
      [OP_CONST_CLASS; OP_CHECK_CAST]
  then
    Some (checkRegisterIndex meth (vA decInsn) && checkTypeIndex pDvmDex (vB decInsn), insnFlags)
  else if one_of opcode
      [OP_INSTANCE_OF]
  then
    Some (checkRegisterIndex meth (vA decInsn) && checkRegisterIndex meth (vB decInsn) && checkTypeIndex pDvmDex (vC decInsn), insnFlags)
  else if one_of opcode
      [OP_NEW_INSTANCE]
  then
    ok ← checkNewInstance pDvmDex (vB decInsn);
    Some (checkRegisterIndex meth (vA decInsn) && ok, insnFlags)
  else if one_of opcode
      [OP_NEW_ARRAY]
  then
    ok ← checkNewArray pDvmDex (vC decInsn);
    Some (checkRegisterIndex meth (vA decInsn) && checkRegisterIndex meth (vB decInsn) && ok, insnFlags)
  else if one_of opcode
      [OP_FILL_ARRAY_DATA]
  then
    ok ← checkArrayData meth codeOffset;
    Some (checkRegisterIndex meth (vA decInsn) && ok, insnFlags)
  else if one_of opcode
      [OP_PACKED_SWITCH]
  then
    '(ok, insnFlags) ← checkSwitchTargets meth insnFlags codeOffset;
    Some (checkRegisterIndex meth (vA decInsn) && ok, insnFlags)
  else if one_of opcode
      [OP_SPARSE_SWITCH]
  then
    '(ok, insnFlags) ← checkSwitchTargets meth insnFlags codeOffset;
    Some (checkRegisterIndex meth (vA decInsn) && ok, insnFlags)
  else if one_of opcode
      [OP_CMPL_FLOAT; OP_CMPG_FLOAT; OP_AGET; OP_AGET_OBJECT; OP_AGET_BOOLEAN; OP_AGET_BYTE;
       OP_AGET_CHAR; OP_AGET_SHORT; OP_APUT; OP_APUT_OBJECT; OP_APUT_BOOLEAN; OP_APUT_BYTE;
       OP_APUT_CHAR; OP_APUT_SHORT; OP_ADD_INT; OP_SUB_INT; OP_MUL_INT; OP_DIV_INT;
       OP_REM_INT; OP_AND_INT; OP_OR_INT; OP_XOR_INT; OP_SHL_INT; OP_SHR_INT; OP_USHR_INT;
       OP_ADD_FLOAT; OP_SUB_FLOAT; OP_MUL_FLOAT; OP_DIV_FLOAT; OP_REM_FLOAT]
  then
    Some (checkRegisterIndex meth (vA decInsn) && checkRegisterIndex meth (vB decInsn) && checkRegisterIndex meth (vC decInsn), insnFlags)
  else if one_of opcode
      [OP_AGET_WIDE; OP_APUT_WIDE]
  then
    Some (checkWideRegisterIndex meth (vA decInsn) && checkRegisterIndex meth (vB decInsn) && checkRegisterIndex meth (vC decInsn), insnFlags)
  else if one_of opcode
      [OP_CMPL_DOUBLE; OP_CMPG_DOUBLE; OP_CMP_LONG]
  then
    Some (checkRegisterIndex meth (vA decInsn) && checkWideRegisterIndex meth (vB decInsn) && checkWideRegisterIndex meth (vC decInsn), insnFlags)
  else if one_of opcode
      [OP_ADD_DOUBLE; OP_SUB_DOUBLE; OP_MUL_DOUBLE; OP_DIV_DOUBLE; OP_REM_DOUBLE;
       OP_ADD_LONG; OP_SUB_LONG; OP_MUL_LONG; OP_DIV_LONG; OP_REM_LONG; OP_AND_LONG;
       OP_OR_LONG; OP_XOR_LONG]
  then
    Some (checkWideRegisterIndex meth (vA decInsn) && checkWideRegisterIndex meth (vB decInsn) && checkWideRegisterIndex meth (vC decInsn), insnFlags)
  else if one_of opcode
      [OP_SHL_LONG; OP_SHR_LONG; OP_USHR_LONG]
  then
    Some (checkWideRegisterIndex meth (vA decInsn) && checkWideRegisterIndex meth (vB decInsn) && checkRegisterIndex meth (vC decInsn), insnFlags)
  else check_branches_and_members meth pDvmDex decInsn codeOffset insnFlags.

(** The cases up to the arithmetic of two registers. *)
Definition check_operands (meth : Method) (pDvmDex : DvmDex) (decInsn : DecodedInstruction)
    (codeOffset : Z) (insnFlags : list Z) : option (bool * list Z) :=
  let opcode := opcode decInsn in
  if one_of opcode
      [OP_NOP; OP_RETURN_VOID]
  then
    Some (true, insnFlags)
  else if one_of opcode
      [OP_MOVE_RESULT; OP_MOVE_RESULT_OBJECT; OP_MOVE_EXCEPTION; OP_RETURN;
       OP_RETURN_OBJECT; OP_CONST_4; OP_CONST_16; OP_CONST; OP_CONST_HIGH16;
       OP_MONITOR_ENTER; OP_MONITOR_EXIT; OP_THROW]
  then
    Some (checkRegisterIndex meth (vA decInsn), insnFlags)
  else if one_of opcode
      [OP_MOVE_RESULT_WIDE; OP_RETURN_WIDE; OP_CONST_WIDE_16; OP_CONST_WIDE_32;
       OP_CONST_WIDE; OP_CONST_WIDE_HIGH16]
  then
    Some (checkWideRegisterIndex meth (vA decInsn), insnFlags)
  else if one_of opcode
      [OP_GOTO; OP_GOTO_16]
  then
    '(ok, insnFlags) ← checkBranchTarget meth insnFlags codeOffset false;
    Some (ok, insnFlags)
  else if one_of opcode
      [OP_GOTO_32]
  then
    '(ok, insnFlags) ← checkBranchTarget meth insnFlags codeOffset true;
    Some (ok, insnFlags)
  else if one_of opcode
      [OP_MOVE; OP_MOVE_FROM16; OP_MOVE_16; OP_MOVE_OBJECT; OP_MOVE_OBJECT_FROM16;
       OP_MOVE_OBJECT_16; OP_ARRAY_LENGTH; OP_NEG_INT; OP_NOT_INT; OP_NEG_FLOAT;
       OP_INT_TO_FLOAT; OP_FLOAT_TO_INT; OP_INT_TO_BYTE; OP_INT_TO_CHAR; OP_INT_TO_SHORT;
       OP_ADD_INT_2ADDR; OP_SUB_INT_2ADDR; OP_MUL_INT_2ADDR; OP_DIV_INT_2ADDR;
       OP_REM_INT_2ADDR; OP_AND_INT_2ADDR; OP_OR_INT_2ADDR; OP_XOR_INT_2ADDR;
       OP_SHL_INT_2ADDR; OP_SHR_INT_2ADDR; OP_USHR_INT_2ADDR; OP_ADD_FLOAT_2ADDR;
       OP_SUB_FLOAT_2ADDR; OP_MUL_FLOAT_2ADDR; OP_DIV_FLOAT_2ADDR; OP_REM_FLOAT_2ADDR;
       OP_ADD_INT_LIT16; OP_RSUB_INT; OP_MUL_INT_LIT16; OP_DIV_INT_LIT16; OP_REM_INT_LIT16;
       OP_AND_INT_LIT16; OP_OR_INT_LIT16; OP_XOR_INT_LIT16; OP_ADD_INT_LIT8;
       OP_RSUB_INT_LIT8; OP_MUL_INT_LIT8; OP_DIV_INT_LIT8; OP_REM_INT_LIT8; OP_AND_INT_LIT8;
       OP_OR_INT_LIT8; OP_XOR_INT_LIT8; OP_SHL_INT_LIT8; OP_SHR_INT_LIT8; OP_USHR_INT_LIT8]
  then
    Some (checkRegisterIndex meth (vA decInsn) && checkRegisterIndex meth (vB decInsn), insnFlags)
  else if one_of opcode
      [OP_INT_TO_LONG; OP_INT_TO_DOUBLE; OP_FLOAT_TO_LONG; OP_FLOAT_TO_DOUBLE;
       OP_SHL_LONG_2ADDR; OP_SHR_LONG_2ADDR; OP_USHR_LONG_2ADDR]
  then
    Some (checkWideRegisterIndex meth (vA decInsn) && checkRegisterIndex meth (vB decInsn), insnFlags)
  else if one_of opcode
      [OP_LONG_TO_INT; OP_LONG_TO_FLOAT; OP_DOUBLE_TO_INT; OP_DOUBLE_TO_FLOAT]
  then
    Some (checkRegisterIndex meth (vA decInsn) && checkWideRegisterIndex meth (vB decInsn), insnFlags)
  else if one_of opcode
      [OP_MOVE_WIDE; OP_MOVE_WIDE_FROM16; OP_MOVE_WIDE_16; OP_DOUBLE_TO_LONG;
       OP_LONG_TO_DOUBLE; OP_NEG_DOUBLE; OP_NEG_LONG; OP_NOT_LONG; OP_ADD_LONG_2ADDR;
       OP_SUB_LONG_2ADDR; OP_MUL_LONG_2ADDR; OP_DIV_LONG_2ADDR; OP_REM_LONG_2ADDR;
       OP_AND_LONG_2ADDR; OP_OR_LONG_2ADDR; OP_XOR_LONG_2ADDR; OP_ADD_DOUBLE_2ADDR;
       OP_SUB_DOUBLE_2ADDR; OP_MUL_DOUBLE_2ADDR; OP_DIV_DOUBLE_2ADDR; OP_REM_DOUBLE_2ADDR]
  then
    Some (checkWideRegisterIndex meth (vA decInsn) && checkWideRegisterIndex meth (vB decInsn), insnFlags)
  else check_constants_and_arrays meth pDvmDex decInsn codeOffset insnFlags.

Fixpoint verify_loop (fuel : nat) (meth : Method) (pDvmDex : DvmDex) (uninit : DecodedInstruction)
    (codeOffset : Z) (insnFlags : list Z) : option (option (list Z)) :=
  let insnsSize := dvmGetMethodInsnsSize meth in
  if codeOffset <? insnsSize then
    match fuel with
    | O => None
    | S fuel =>
        width ← dvmInsnGetWidth insnFlags codeOffset;
        insns ← insns_at meth codeOffset;
        '(_, decInsn) ← dexDecodeInstruction insns uninit;
        '(okay, insnFlags) ← check_operands meth pDvmDex decInsn codeOffset insnFlags;
        if negb okay then Some None
        else
          opFlags ← dexGetFlagsFromOpcode (opcode decInsn);
          insnFlags ← (if negb (Z.land opFlags VERIFY_GC_INST_MASK =? 0)
                       then dvmInsnSetGcPoint insnFlags codeOffset
                       else Some insnFlags);
          verify_loop fuel meth pDvmDex uninit (u32 (codeOffset + width)) insnFlags
    end
  else if negb (codeOffset =? insnsSize) then Some None
  else Some (Some insnFlags).

(** [uninit]: what the variable for the decoded instruction holds before. *)
Definition verifyInstructions (meth : Method) (pDvmDex : DvmDex) (uninit : DecodedInstruction)
    (insnFlags : list Z) : option (option (list Z)) :=
  insnFlags ← dvmInsnSetBranchTarget insnFlags 0;
  verify_loop (Z.to_nat (dvmGetMethodInsnsSize meth)) meth pDvmDex uninit 0 insnFlags.

(** ** Methods and classes *)

Section Verifier.
(** Whether the flags can be allocated, and the third pass, [dvmVerifyCodeFlow] of
    [CodeVerify.cpp], on the flags and the map of new instances. *)
Context (calloc_ok : bool) (dvmVerifyCodeFlow : Method -> list Z -> list Z -> option bool).
Context (pDvmDex : DvmDex) (uninit : DecodedInstruction).

Definition verifyMethod (meth : Method) : option bool :=
  let insnsSize := dvmGetMethodInsnsSize meth in
  if insnsSize =? 0 then
    if negb (dvmIsNativeMethod meth) && negb (dvmIsAbstractMethod meth) then Some false else Some true
  else if m_insSize meth >? m_registersSize meth then Some false
  else if negb calloc_ok then Some false
  else
    widths ← computeWidthsAndCountOps meth (repeat 0 (Z.to_nat insnsSize));
    match widths with
    | None => Some false
    | Some (insnFlags, newInstanceCount, monitorEnterCount) =>
        uninitMap ← dvmCreateUninitInstanceMap meth insnFlags newInstanceCount;
        scanned ← scanTryCatchBlocks meth insnFlags;
        match scanned with
        | None => Some false
        | Some insnFlags =>
            verified ← verifyInstructions meth pDvmDex uninit insnFlags;
            match verified with
            | None => Some false
            | Some insnFlags => dvmVerifyCodeFlow meth insnFlags uninitMap
            end
        end
    end.

Fixpoint methods_loop (methods : list Method) : option bool :=
  match methods with
  | [] => Some true
  | meth :: methods =>
      okay ← verifyMethod meth;
      if (okay : bool) then methods_loop methods else Some false
  end.

(** A class that was verified before is accepted as it is. *)
Definition dvmVerifyClass (verified : bool) (directMethods virtualMethods : list Method) : option bool :=
  if verified then Some true
  else
    okay ← methods_loop directMethods;
    if (okay : bool) then methods_loop virtualMethods else Some false.

End Verifier.
