(* ===== verification/InsnFlags.v ===== *)
(** * What the first pass of the static verifier establishes

    The instructions of a method lie one after another from its first code unit;
    the flags the first pass computes hold the width of each at its start and none
    elsewhere, and setting the other flags keeps that. *)

From S2P Require Import Prelude Bits Search OpcodeTables Opcodes InstrUtils SwitchData Leb128 DexCatch DexVerify.

(** ** Methods with code *)

(** A method with code: as many units as its size says, fewer than 65536. *)
Record method_ok (meth : Method) : Prop := {
  ok_bytecode : dvmIsNativeMethod meth || dvmIsAbstractMethod meth = false;
  ok_size : insnsSize (code_of meth) = Z.of_nat (length (insns (code_of meth)));
  ok_bound : 0 < insnsSize (code_of meth) < 2 ^ 16;
  ok_units : Forall (inU 16) (insns (code_of meth));
  ok_registers : inU 16 (m_registersSize meth)
}.

(** ** Where instructions start *)

Section Starts.
Context (meth : Method).

Definition insn_width (pc : Z) : option Z :=
  p ← insns_at meth pc; dexGetWidthFromInstruction p.

(** The start of the [n]-th instruction. *)
Fixpoint nth_start (n : nat) : option Z :=
  match n with
  | O => Some 0
  | S n =>
      pc ← nth_start n;
      w ← insn_width pc;
      if (pc <? dvmGetMethodInsnsSize meth) && (0 <? w) then Some (pc + w) else None
  end.

Definition is_start (pc : Z) : Prop :=
  pc < dvmGetMethodInsnsSize meth /\ exists n, nth_start n = Some pc.

(** The flags hold the widths of the instructions at their starts. *)
Record widths_ok (insnFlags : list Z) : Prop := {
  widths_length : Z.of_nat (length insnFlags) = dvmGetMethodInsnsSize meth;
  widths_at pc w : 0 <= pc < dvmGetMethodInsnsSize meth ->
    dvmInsnGetWidth insnFlags pc = Some w /\ w <> 0 <-> is_start pc /\ insn_width pc = Some w
}.

End Starts.

(** ** Lemmas *)

Lemma method_size meth : method_ok meth ->
  dvmGetMethodInsnsSize meth = Z.of_nat (length (insns (code_of meth))) /\
  dvmGetMethodCode meth = Some (code_of meth) /\ 0 < dvmGetMethodInsnsSize meth < 2 ^ 16.
Proof.
  intros H. unfold dvmGetMethodInsnsSize, dvmGetMethodCode. rewrite (ok_bytecode meth H).
  pose proof (ok_bound meth H). rewrite <- (ok_size meth H). done.
Qed.

Lemma s32_small pc : 0 <= pc < 2 ^ 31 -> s32 pc = pc.
Proof. intros H. rewrite wrapS_id; [done|lia|unfold inS; lia]. Qed.

Lemma nth_start_S meth n pc' : nth_start meth (S n) = Some pc' ->
  exists pc w, nth_start meth n = Some pc /\ insn_width meth pc = Some w /\
    pc < dvmGetMethodInsnsSize meth /\ 0 < w /\ pc' = pc + w.
Proof.
  cbn [nth_start]. destruct (nth_start meth n) as [pc|]; [|done]. cbn [mbind option_bind].
  destruct (insn_width meth pc) as [w|] eqn:E; [|done]. cbn [mbind option_bind].
  destruct (Z.ltb_spec pc (dvmGetMethodInsnsSize meth)), (Z.ltb_spec 0 w); cbn [andb]; try done.
  intros [= <-]. eauto 10.
Qed.

Lemma nth_start_nonneg meth n : forall pc, nth_start meth n = Some pc -> 0 <= pc.
Proof.
  induction n as [|n IH]; intros pc H; [by injection H as <-|].
  apply nth_start_S in H as (p & w & Hp & _ & _ & Hw & ->). apply IH in Hp. lia.
Qed.

(** An instruction ends where a later one starts, or before. *)
Lemma nth_start_lt meth n m a b : (n < m)%nat -> nth_start meth n = Some a -> nth_start meth m = Some b ->
  exists w, insn_width meth a = Some w /\ 0 < w /\ a < dvmGetMethodInsnsSize meth /\ a + w <= b.
Proof.
  intros Hlt Ha. revert b. induction Hlt as [|m Hlt IH]; intros b Hb.
  - apply nth_start_S in Hb as (p & w & Hp & Hw & Hs & H0 & ->). assert (p = a) as -> by congruence.
    exists w. split_and!; [done..|lia].
  - apply nth_start_S in Hb as (p & w & Hp & _ & _ & H0 & ->). destruct (IH p Hp) as (w' & ? & ? & ? & ?).
    exists w'. split_and!; [done..|lia].
Qed.

Lemma starts_ordered meth n m a b : nth_start meth n = Some a -> nth_start meth m = Some b -> a < b -> (n < m)%nat.
Proof.
  intros Ha Hb Hab. destruct (Nat.lt_trichotomy n m) as [|[->|Hlt]]; [done|assert (a = b) by congruence; lia|].
  destruct (nth_start_lt meth m n b a Hlt Hb Ha) as (w & _ & ? & _ & ?). lia.
Qed.

(** The high bits of the flags do not touch the widths. *)
Lemma width_mask_or f bits : Z.land bits kInsnFlagWidthMask = 0 ->
  Z.land (Z.lor f bits) kInsnFlagWidthMask = Z.land f kInsnFlagWidthMask.
Proof. intros H. by rewrite Z.land_lor_distr_l, H, Z.lor_0_r. Qed.

Lemma or_flags_at flags addr bits flags' pc : or_flags flags addr bits = Some flags' ->
  0 <= pc < 2 ^ 31 ->
  aref flags' pc = (f ← aref flags pc; Some (if decide (s32 addr = pc) then Z.lor f bits else f)).
Proof.
  unfold or_flags. destruct (aref flags (s32 addr)) as [f|] eqn:E; [|done]. cbn [mbind option_bind].
  intros H Hpc. rewrite (aref_aset _ _ _ _ _ H). destruct (decide (s32 addr = pc)) as [<-|].
  - by rewrite E.
  - by destruct (aref flags pc).
Qed.

Lemma or_flags_length flags addr bits flags' : or_flags flags addr bits = Some flags' ->
  length flags' = length flags.
Proof.
  unfold or_flags. destruct (aref flags (s32 addr)); [|done]. cbn [mbind option_bind]. apply aset_length.
Qed.

Lemma or_flags_width flags addr bits flags' pc : or_flags flags addr bits = Some flags' ->
  Z.land bits kInsnFlagWidthMask = 0 -> 0 <= pc < 2 ^ 31 ->
  dvmInsnGetWidth flags' pc = dvmInsnGetWidth flags pc.
Proof.
  intros H Hb Hpc. unfold dvmInsnGetWidth. rewrite s32_small by done. rewrite (or_flags_at _ _ _ _ _ H Hpc).
  destruct (aref flags pc) as [f|]; [|done]. cbn [mbind option_bind].
  destruct (decide (s32 addr = pc)); [|done]. by rewrite width_mask_or.
Qed.

Lemma or_flags_ok meth flags addr bits flags' : method_ok meth -> widths_ok meth flags ->
  Z.land bits kInsnFlagWidthMask = 0 -> or_flags flags addr bits = Some flags' -> widths_ok meth flags'.
Proof.
  intros Hm Hw Hb H. destruct (method_size meth Hm) as (_ & _ & Hs). split.
  - rewrite (or_flags_length _ _ _ _ H). apply (widths_length meth flags Hw).
  - intros pc w Hpc. rewrite (or_flags_width _ _ _ _ pc H Hb) by lia. by apply (widths_at meth flags Hw).
Qed.

Lemma set_branch_target_ok meth flags addr flags' : method_ok meth -> widths_ok meth flags ->
  dvmInsnSetBranchTarget flags addr = Some flags' -> widths_ok meth flags'.
Proof. intros Hm Hw. by apply or_flags_ok. Qed.

Lemma set_in_try_ok meth flags addr flags' : method_ok meth -> widths_ok meth flags ->
  dvmInsnSetInTry flags addr = Some flags' -> widths_ok meth flags'.
Proof. intros Hm Hw. by apply or_flags_ok. Qed.

Lemma set_gc_point_ok meth flags addr flags' : method_ok meth -> widths_ok meth flags ->
  dvmInsnSetGcPoint flags addr = Some flags' -> widths_ok meth flags'.
Proof. intros Hm Hw. by apply or_flags_ok. Qed.

#[export] Hint Resolve set_branch_target_ok set_in_try_ok set_gc_point_ok : core.

(** Where the flags give a width, an instruction starts. *)
Lemma width_is_start meth flags pc w : method_ok meth -> widths_ok meth flags ->
  dvmInsnGetWidth flags pc = Some w -> w <> 0 -> is_start meth (s32 pc) /\ insn_width meth (s32 pc) = Some w.
Proof.
  intros Hm Hw E H0. destruct (method_size meth Hm) as (_ & _ & Hs).
  pose proof E as E'. unfold dvmInsnGetWidth in E'. destruct (aref flags (s32 pc)) as [f|] eqn:Ef; [|done].
  apply aref_lt in Ef. rewrite (widths_length meth flags Hw) in Ef.
  apply (widths_at meth flags Hw); [done|]. split; [|done]. unfold dvmInsnGetWidth in *.
  by rewrite (s32_small (s32 pc)) by lia.
Qed.

Lemma opcode_is_start meth flags pc : method_ok meth -> widths_ok meth flags ->
  dvmInsnIsOpcode flags pc = Some true -> is_start meth (s32 pc).
Proof.
  intros Hm Hw E. unfold dvmInsnIsOpcode in E. destruct (aref flags (s32 pc)) as [f|] eqn:Ef; [|done].
  cbn [mbind option_bind] in E. injection E as E. apply negb_true_iff, Z.eqb_neq in E.
  assert (Ew : dvmInsnGetWidth flags pc = Some (Z.land f kInsnFlagWidthMask)) by (unfold dvmInsnGetWidth; by rewrite Ef).
  by apply (width_is_start meth flags pc _ Hm Hw Ew) in E as [? _].
Qed.

(** ** The first pass *)

Lemma width_bound insns w : Forall (inU 16) insns -> dexGetWidthFromInstruction insns = Some w ->
  0 <= w < 2 ^ 31 + 4.
Proof.
  intros Hu. unfold dexGetWidthFromInstruction, FETCH.
  destruct (insns !! 0%nat) as [i0|] eqn:E0; [|done]. cbn [mbind option_bind].
  destruct (i0 =? kPackedSwitchSignature).
  { destruct (insns !! 1%nat) as [i1|] eqn:E1; [|done]. cbn [mbind option_bind]. intros [= <-].
    pose proof (Forall_lookup_1 _ _ _ _ Hu E1) as H. unfold inU in H. rewrite wrapU_id by (unfold inU; lia). lia. }
  destruct (i0 =? kSparseSwitchSignature).
  { destruct (insns !! 1%nat) as [i1|] eqn:E1; [|done]. cbn [mbind option_bind]. intros [= <-].
    pose proof (Forall_lookup_1 _ _ _ _ Hu E1) as H. unfold inU in H. rewrite wrapU_id by (unfold inU; lia). lia. }
  destruct (i0 =? kArrayDataSignature).
  { destruct (insns !! 1%nat) as [i1|]; [|done]. destruct (insns !! 2%nat) as [i2|]; [|done].
    destruct (insns !! 3%nat) as [i3|]; [|done]. cbn [mbind option_bind]. intros [= <-].
    set (x := u32 (u32 (i1 * _) + 1)). assert (Hx : inU 32 x) by (apply wrapU_range; lia). unfold inU in Hx.
    assert (0 <= x / 2 < 2 ^ 31) by dlia. rewrite wrapU_id by (unfold inU; lia). lia. }
  intros H. assert (Hop := from_table_packed _ _ _ H).
  destruct (packed_entries _ Hop) as (f & ix & _ & _ & E). rewrite E in H. injection H as <-. destruct f; cbn; lia.
Qed.

Lemma insns_at_drop meth pc p : insns_at meth pc = Some p -> p = drop (Z.to_nat pc) (insns (code_of meth)) /\ 0 <= pc.
Proof.
  unfold insns_at. destruct (Z.leb_spec 0 pc); [|done]. destruct (_ <=? _); [|done]. by intros [= <-].
Qed.

Lemma insns_at_units meth pc p : method_ok meth -> insns_at meth pc = Some p -> Forall (inU 16) p.
Proof. intros Hm [-> _]%insns_at_drop. apply Forall_drop, (ok_units meth Hm). Qed.

Lemma insn_width_bound meth pc w : method_ok meth -> insn_width meth pc = Some w -> 0 <= w < 2 ^ 31 + 4.
Proof.
  intros Hm. unfold insn_width. destruct (insns_at meth pc) as [p|] eqn:E; [|done]. cbn [mbind option_bind].
  apply width_bound. by eapply insns_at_units.
Qed.

(** The flags when the loop is at [i]. *)
Record widths_to (meth : Method) (i : Z) (flags : list Z) : Prop := {
  to_length : Z.of_nat (length flags) = dvmGetMethodInsnsSize meth;
  to_start : exists n, nth_start meth n = Some i;
  to_below pc w : 0 <= pc < i ->
    dvmInsnGetWidth flags pc = Some w /\ w <> 0 <-> is_start meth pc /\ insn_width meth pc = Some w;
  to_above pc : i <= pc < dvmGetMethodInsnsSize meth -> aref flags pc = Some 0
}.

(** Past the end the loop does not come back. *)
Lemma widths_loop_past fuel meth flags i ni mi : method_ok meth ->
  dvmGetMethodInsnsSize meth < i < 2 ^ 31 + 2 ^ 17 ->
  forall r, widths_loop fuel meth flags (s32 i) ni mi <> Some (Some r).
Proof.
  intros Hm Hi r. destruct (method_size meth Hm) as (_ & _ & Hs).
  destruct fuel as [|fuel]; cbn [widths_loop]; rewrite (s32_small (dvmGetMethodInsnsSize meth)) by lia.
  all: destruct (Z.lt_ge_cases i (2 ^ 31)) as [Hlt|Hge].
  1,3: rewrite (s32_small i) by lia; rewrite (proj2 (Z.ltb_ge i _)) by lia;
    rewrite (proj2 (Z.eqb_neq _ _)) by lia; done.
  all: assert (E : s32 i = i - 2 ^ 32) by (unfold wrapS; change (2 ^ (32 - 1)) with (2 ^ 31); dlia).
  all: rewrite E, (proj2 (Z.ltb_lt _ _)) by lia. 1: done.
  unfold insns_at. by rewrite (proj2 (Z.leb_gt _ _)) by lia.
Qed.

Lemma widths_step meth i w flags flags' : method_ok meth -> widths_to meth i flags ->
  0 <= i < dvmGetMethodInsnsSize meth -> insn_width meth i = Some w -> w <> 0 ->
  i + w <= dvmGetMethodInsnsSize meth -> or_flags flags i w = Some flags' -> widths_to meth (i + w) flags'.
Proof.
  intros Hm [Hl [n Hn] Hb Ha] Hi Hw H0 Hle H. destruct (method_size meth Hm) as (_ & _ & Hs).
  pose proof (insn_width_bound meth i w Hm Hw) as Hwb.
  assert (Hstart : is_start meth i) by (split; [lia|by exists n]).
  assert (Hnext : nth_start meth (S n) = Some (i + w)).
  { cbn [nth_start]. rewrite Hn. cbn [mbind option_bind]. rewrite Hw. cbn [mbind option_bind].
    by rewrite (proj2 (Z.ltb_lt _ _)), (proj2 (Z.ltb_lt _ _)) by lia. }
  assert (Hget : forall pc, 0 <= pc < dvmGetMethodInsnsSize meth -> dvmInsnGetWidth flags' pc =
    if decide (i = pc) then Some w else dvmInsnGetWidth flags pc).
  { intros pc Hpc. unfold dvmInsnGetWidth. rewrite (s32_small pc) by lia.
    rewrite (or_flags_at _ _ _ _ pc H) by lia. rewrite (s32_small i) by lia. destruct (decide (i = pc)) as [<-|].
    - rewrite (Ha i) by lia. cbn [mbind option_bind]. rewrite Z.lor_0_l. f_equal. unfold kInsnFlagWidthMask.
      rewrite (land_mask 16) by done. apply Z.mod_small. lia.
    - by destruct (aref flags pc). }
  split.
  - by rewrite (or_flags_length _ _ _ _ H).
  - by exists (S n).
  - intros pc u Hpc. rewrite Hget by lia. destruct (decide (i = pc)) as [<-|Hne].
    + rewrite Hw. naive_solver.
    + destruct (Z.lt_ge_cases pc i); [apply Hb; lia|]. unfold dvmInsnGetWidth.
      rewrite (s32_small pc), (Ha pc) by lia. cbn [mbind option_bind]. rewrite Z.land_0_l. split; [naive_solver|].
      intros [[_ [m Hpm]] _]. exfalso.
      assert (Hnm : (n < m)%nat) by (apply (starts_ordered meth n m i pc Hn Hpm); lia).
      destruct (nth_start_lt meth n m i pc Hnm Hn Hpm) as (w' & Hw' & _ & _ & Hle').
      assert (w' = w) by congruence. lia.
  - intros pc Hpc. rewrite (or_flags_at _ _ _ _ pc H) by lia. rewrite (Ha pc) by lia. cbn [mbind option_bind].
    rewrite (s32_small i) by lia. by rewrite decide_False by lia.
Qed.

Lemma widths_loop_ok fuel meth : method_ok meth -> forall flags i ni mi flags' ni' mi',
  widths_to meth i flags -> 0 <= i <= dvmGetMethodInsnsSize meth ->
  widths_loop fuel meth flags i ni mi = Some (Some (flags', ni', mi')) ->
  widths_ok meth flags' /\ exists n, nth_start meth n = Some (dvmGetMethodInsnsSize meth).
Proof.
  intros Hm. destruct (method_size meth Hm) as (_ & _ & Hs).
  induction fuel as [|fuel IH]; intros flags i ni mi flags' ni' mi' Ht Hi; cbn [widths_loop];
    rewrite (s32_small (dvmGetMethodInsnsSize meth)) by lia;
    destruct (Z.ltb_spec i (dvmGetMethodInsnsSize meth)) as [Hlt|Hge]; try done.
  1,3: destruct (Z.eqb_spec i (dvmGetMethodInsnsSize meth)) as [->|]; [|done]; intros [= <- _ _];
    destruct Ht as [Hl Hn Hb _]; (split; [by split|done]).
  destruct (insns_at meth i) as [p|] eqn:Ep; [|done]. cbn [mbind option_bind].
  destruct (dexGetWidthFromInstruction p) as [w|] eqn:Ew; [|done]. cbn [mbind option_bind].
  destruct (Z.eqb_spec w 0) as [|H0]; [done|]. destruct (FETCH p 0) as [inst|]; [|done]. cbn [mbind option_bind].
  destruct (or_flags flags i w) as [flags1|] eqn:E1; [|done]. cbn [mbind option_bind]. intros H.
  assert (Hw : insn_width meth i = Some w) by (unfold insn_width; by rewrite Ep).
  pose proof (insn_width_bound meth i w Hm Hw) as Hwb.
  destruct (Z.le_gt_cases (i + w) (dvmGetMethodInsnsSize meth)) as [Hle|Hgt].
  - rewrite s32_small in H by lia. apply (IH flags1 (i + w) _ _ _ _ _) in H; [exact H| |lia].
    apply (widths_step meth i w flags); (done || lia).
  - exfalso. eapply (widths_loop_past fuel meth flags1 (i + w)); [done|lia|exact H].
Qed.

(** When the first pass accepts, the flags describe the instructions and the last one
    ends where the code ends. *)
Lemma widths_computed meth flags ni mi : method_ok meth ->
  computeWidthsAndCountOps meth (repeat 0 (Z.to_nat (dvmGetMethodInsnsSize meth))) = Some (Some (flags, ni, mi)) ->
  widths_ok meth flags /\ exists n, nth_start meth n = Some (dvmGetMethodInsnsSize meth).
Proof.
  intros Hm. destruct (method_size meth Hm) as (_ & _ & Hs). unfold computeWidthsAndCountOps.
  apply (widths_loop_ok _ meth Hm); [|lia]. split.
  - rewrite repeat_length. lia.
  - by exists O.
  - lia.
  - intros pc Hpc. rewrite aref_nat by lia. apply lookup_repeat. lia.
Qed.
