(* ===== verification/VerifiedSwitch.v ===== *)
(** * Verified switch tables: the verifier and the interpreter

    What [checkSwitchTargets] accepts, the handlers of the interpreter can use: the
    table is a well-formed one, and every branch leads to an instruction. *)

From S2P Require Import Prelude Bits Search OpcodeTables Opcodes InstrUtils SwitchData Leb128 DexCatch DexVerify InsnFlags.

(** ** The units of a table as 32-bit values *)

Lemma s4_of_range lo hi : inU 16 lo -> inS 32 (s4_of lo hi).
Proof. intros H. rewrite s4_of_units by done. apply wrapS_range. lia. Qed.

Lemma units_s4_of lo hi : inU 16 lo -> inU 16 hi -> units 2 (s4_of lo hi) = [lo; hi].
Proof.
  intros Hl Hh. rewrite s4_of_units by done. cbn [units]. unfold wrapU, wrapS, inU in *.
  change (2 ^ (32 - 1)) with (2 ^ 31). f_equal; [dlia|]. f_equal. dlia.
Qed.

(** Units two by two are 32-bit values. *)
Lemma values_of_units n : forall l, Forall (inU 16) l -> length l = (2 * n)%nat ->
  exists xs, l = concat (units 2 <$> xs) /\ length xs = n /\ Forall (inS 32) xs.
Proof.
  induction n as [|n IH]; intros l Hl Hn.
  - destruct l; [|done]. by exists [].
  - destruct l as [|lo [|hi l]]; cbn [length] in Hn; [lia..|].
    apply Forall_cons_1 in Hl as [Hlo Hl]. apply Forall_cons_1 in Hl as [Hhi Hl].
    destruct (IH l Hl) as (xs & -> & Hx & Hf); [lia|]. exists (s4_of lo hi :: xs). split_and!.
    + cbn [fmap list_fmap concat]. by rewrite units_s4_of.
    + cbn [length]. lia.
    + constructor; [by apply s4_of_range|done].
Qed.

(** The value read at an even index of a run of them. *)
Lemma s4_at_values pre xs rest i x : Forall (inS 32) xs -> xs !! i = Some x ->
  s4_at (pre ++ concat (units 2 <$> xs) ++ rest) (Z.of_nat (length pre) + 2 * Z.of_nat i) = Some x.
Proof.
  intros Hf Hi. pose proof (Forall_lookup_1 _ _ _ _ Hf Hi) as Hx.
  assert (E : forall k, aref (pre ++ concat (units 2 <$> xs) ++ rest) (Z.of_nat (length pre) + 2 * Z.of_nat i + Z.of_nat k) =
    drop (2 * i) (concat (units 2 <$> xs) ++ rest) !! k).
  { intros k. rewrite aref_nat, lookup_drop by lia. rewrite lookup_app_r by lia. f_equal. lia. }
  pose proof (s4From_nth xs i x rest Hi Hx) as H. unfold unit_ptr in H.
  replace (Z.to_nat (2 * Z.of_nat i)) with (2 * i)%nat in H by lia.
  unfold s4_at. rewrite <- (Z.add_0_r (Z.of_nat (length pre) + 2 * Z.of_nat i)) at 1.
  change 0 with (Z.of_nat 0) at 1. change 1 with (Z.of_nat 1). rewrite !E.
  assert (Hlo : forall lo, drop (2 * i) (concat (units 2 <$> xs) ++ rest) !! 0%nat = Some lo -> inU 16 lo).
  { intros lo Hlo. rewrite <- (take_drop_middle xs i x Hi) in Hlo.
    assert (Hl : length (concat (units 2 <$> take i xs)) = (2 * i)%nat).
    { rewrite (length_concat_const 2) by done. rewrite length_take_le; [lia|]. apply lookup_lt_Some in Hi. lia. }
    rewrite fmap_app, concat_app in Hlo. cbn [fmap list_fmap concat] in Hlo.
    rewrite <- !app_assoc, drop_app_length' in Hlo by done. cbn in Hlo. injection Hlo as <-. apply wrapU_range. lia. }
  destruct (drop (2 * i) (concat (units 2 <$> xs) ++ rest)) as [|lo [|hi r]]; [done..|].
  cbn [lookup list_lookup mbind option_bind]. rewrite s4_of_units by by apply Hlo. by injection H as ->.
Qed.

(** ** The loops of the verifier *)

Lemma keys_loop_sorted pre keys rest : Forall (inS 32) keys -> forall n k last,
  (k + n = length keys)%nat -> (forall j x, (j < k)%nat -> keys !! j = Some x -> x <= last) ->
  keys_loop n (pre ++ concat (units 2 <$> keys) ++ rest) (Z.of_nat (length pre)) (Z.of_nat k) last = Some true ->
  forall i j a b, (i < j)%nat -> (k <= j)%nat -> keys !! i = Some a -> keys !! j = Some b ->
    a < b /\ last < b.
Proof.
  intros Hf n. induction n as [|n IH]; intros k last Hn Hbelow H i j a b Hij Hkj Ha Hb.
  - apply lookup_lt_Some in Hb. lia.
  - cbn [keys_loop] in H. destruct (lookup_lt_is_Some_2 keys k) as [key Hkey]; [lia|].
    replace (Z.of_nat (length pre) + Z.of_nat k * 2) with (Z.of_nat (length pre) + 2 * Z.of_nat k) in H by lia.
    rewrite (s4_at_values pre keys rest k key Hf Hkey) in H. cbn [mbind option_bind] in H.
    destruct (Z.leb_spec key last) as [|Hlt]; [done|].
    replace (Z.of_nat k + 1) with (Z.of_nat (S k)) in H by lia.
    assert (Hbelow' : forall j x, (j < S k)%nat -> keys !! j = Some x -> x <= key).
    { intros m x Hm Hx. destruct (decide (m = k)) as [->|]; [replace x with key by congruence; lia|].
      pose proof (Hbelow m x ltac:(lia) Hx). lia. }
    destruct (decide (j = k)) as [->|].
    + assert (b = key) as -> by congruence. split; [|lia]. pose proof (Hbelow i a Hij Ha). lia.
    + destruct (IH (S k) key ltac:(lia) Hbelow' H i j a b) as [? ?]; try done; [lia|]. split; [done|lia].
Qed.

(** The targets the loop accepts are starts of instructions. *)
Lemma targets_loop_ok meth pre ts rest cur : method_ok meth -> 0 <= cur < dvmGetMethodInsnsSize meth ->
  Forall (inS 32) ts -> forall n k flags flags', (k + n = length ts)%nat -> widths_ok meth flags ->
  targets_loop n (pre ++ concat (units 2 <$> ts) ++ rest) (dvmGetMethodInsnsSize meth) cur
    (Z.of_nat (length pre)) (Z.of_nat k) flags = Some (true, flags') ->
  widths_ok meth flags' /\ forall i t, (k <= i)%nat -> ts !! i = Some t -> is_start meth (cur + t).
Proof.
  intros Hm Hc Hf. destruct (method_size meth Hm) as (_ & _ & Hs).
  induction n as [|n IH]; intros k flags flags' Hn Hw H; cbn [targets_loop] in H.
  - injection H as <-. split; [done|]. intros i t Hi Ht%lookup_lt_Some. lia.
  - destruct (lookup_lt_is_Some_2 ts k) as [t Ht]; [lia|].
    replace (Z.of_nat (length pre) + Z.of_nat k * 2) with (Z.of_nat (length pre) + 2 * Z.of_nat k) in H by lia.
    rewrite (s4_at_values pre ts rest k t Hf Ht) in H. cbn [mbind option_bind] in H.
    rewrite wrapS_wrapU, (s32_small (dvmGetMethodInsnsSize meth)), Z.geb_leb in H by lia.
    destruct (Z.ltb_spec (s32 (cur + t)) 0); [done|].
    destruct (Z.leb_spec (dvmGetMethodInsnsSize meth) (s32 (cur + t))); [done|]. cbn [orb] in H.
    assert (E : s32 (cur + t) = cur + t).
    { pose proof (Forall_lookup_1 _ _ _ _ Hf Ht) as Hr. unfold inS, wrapS in *. change (2 ^ (32 - 1)) with (2 ^ 31) in *. dlia. }
    rewrite E in *. destruct (dvmInsnIsOpcode flags (cur + t)) as [[]|] eqn:Eo; [|done..]. cbn [mbind option_bind negb] in H.
    destruct (dvmInsnSetBranchTarget flags (cur + t)) as [flags1|] eqn:E1; [|done]. cbn [mbind option_bind] in H.
    replace (Z.of_nat k + 1) with (Z.of_nat (S k)) in H by lia.
    destruct (IH (S k) flags1 flags' ltac:(lia) ltac:(eauto) H) as [Hw' Hrest]. split; [done|].
    intros i t' Hi Ht'. destruct (decide (i = k)) as [->|]; [|apply (Hrest i t'); [lia|done]].
    assert (t' = t) as -> by congruence. apply (opcode_is_start meth) in Eo; [|done..]. by rewrite s32_small in Eo by lia.
Qed.

(** ** The shape of an accepted table *)

Lemma take_values n l : Forall (inU 16) l -> (2 * n <= length l)%nat ->
  exists xs rest, l = concat (units 2 <$> xs) ++ rest /\ length xs = n /\ Forall (inS 32) xs /\ Forall (inU 16) rest.
Proof.
  intros Hl Hn. destruct (values_of_units n (take (2 * n) l)) as (xs & E & Hx & Hf).
  - by apply Forall_take.
  - rewrite length_take. lia.
  - exists xs, (drop (2 * n) l). rewrite <- E, take_drop. split_and!; [done..|by apply Forall_drop].
Qed.

Lemma packed_shape table c : Forall (inU 16) table -> aref table 0 = Some kPackedSwitchSignature ->
  aref table 1 = Some c -> 4 + 2 * c <= Z.of_nat (length table) ->
  exists k ts rest, table = encode_table (PackedSwitch k ts) ++ rest /\ inS 32 k /\ Forall (inS 32) ts /\
    Z.of_nat (length ts) = c /\
    exists pre, length pre = 4%nat /\ table = pre ++ concat (units 2 <$> ts) ++ rest.
Proof.
  intros Hu H0 H1 Hl. assert (Hc : inU 16 c).
  { rewrite aref_nat in H1 by lia. by apply (Forall_lookup_1 _ _ _ _ Hu H1). }
  unfold inU in Hc.
  destruct table as [|sg [|c' [|lo [|hi body]]]]; cbn [length] in Hl; try lia.
  change (Some sg = Some kPackedSwitchSignature) in H0. change (Some c' = Some c) in H1.
  injection H0 as ->. injection H1 as ->.
  do 4 (apply Forall_cons_1 in Hu as [? Hu]).
  destruct (take_values (Z.to_nat c) body Hu) as (ts & rest & -> & Hlen & Hf & _); [lia|].
  assert (Ec : Z.of_nat (length ts) = c) by lia.
  exists (s4_of lo hi), ts, rest. split; [|split; [by apply s4_of_range|]].
  - cbn [encode_table units app]. rewrite Ec, (wrapU_id 16 c) by done.
    change (u16 (s4_of lo hi) :: u16 (s4_of lo hi / 2 ^ 16) :: ?l) with (units 2 (s4_of lo hi) ++ l).
    by rewrite units_s4_of by done.
  - split; [done|]. split; [done|]. by exists [kPackedSwitchSignature; c; lo; hi].
Qed.

Lemma sparse_shape table c : Forall (inU 16) table -> aref table 0 = Some kSparseSwitchSignature ->
  aref table 1 = Some c -> 2 + 4 * c <= Z.of_nat (length table) ->
  exists es rest, table = encode_table (SparseSwitch es) ++ rest /\ Forall case_fits es /\
    Z.of_nat (length es) = c /\
    table = [kSparseSwitchSignature; c] ++ concat (units 2 <$> es.*1) ++ concat (units 2 <$> es.*2) ++ rest.
Proof.
  intros Hu H0 H1 Hl. assert (Hc : inU 16 c).
  { rewrite aref_nat in H1 by lia. by apply (Forall_lookup_1 _ _ _ _ Hu H1). }
  unfold inU in Hc. destruct table as [|sg [|c' body]]; cbn [length] in Hl; try lia.
  change (Some sg = Some kSparseSwitchSignature) in H0. change (Some c' = Some c) in H1.
  injection H0 as ->. injection H1 as ->.
  do 2 (apply Forall_cons_1 in Hu as [? Hu]).
  destruct (take_values (Z.to_nat c) body Hu) as (ks & body' & -> & Hk & Hfk & Hu'); [lia|].
  rewrite length_app, (length_concat_const 2) in Hl by done.
  destruct (take_values (Z.to_nat c) body' Hu') as (ts & rest & -> & Ht & Hft & _); [lia|].
  exists (zip ks ts), rest. rewrite fst_zip, snd_zip by lia.
  assert (Hlen : Z.of_nat (length (zip ks ts)) = c) by (rewrite length_zip; lia).
  split; [|split; [|done]].
  - unfold encode_table. rewrite Hlen. change (units 1 c) with [u16 c]. rewrite (wrapU_id 16 c) by done.
    change ((fun e : Z * Z => units 2 e.1) <$> zip ks ts) with ((units 2 ∘ fst) <$> zip ks ts).
    change ((fun e : Z * Z => units 2 e.2) <$> zip ks ts) with ((units 2 ∘ snd) <$> zip ks ts).
    rewrite !list_fmap_compose, fst_zip, snd_zip by lia. cbn [app]. by rewrite <- app_assoc.
  - apply Forall_forall. intros [k t] Hin. apply list_elem_of_In in Hin.
    pose proof (in_combine_l _ _ _ _ Hin) as H1. pose proof (in_combine_r _ _ _ _ Hin) as H2.
    apply list_elem_of_In in H1, H2. rewrite Forall_forall in Hfk, Hft. by split; [apply Hfk|apply Hft].
Qed.

(** ** What acceptance means for the interpreter *)

(** Of the interpreter without assertions: the verifier accepts tables without cases. *)
Definition switch_handler (packed : bool) : list Z -> Z -> option switch_end :=
  if packed then dvmInterpHandlePackedSwitch true else dvmInterpHandleSparseSwitch true.

(** An offset of the table, where the verifier reads them. *)
Definition is_case (packed : bool) (table : list Z) (t : Z) : Prop :=
  exists count k, aref table 1 = Some count /\ 0 <= k < count /\
    s4_at table ((if packed then 4 else 2 + 2 * count) + k * 2) = Some t.

(** No value makes the interpreter throw or leave the instructions: it goes on after
    the switch or branches, by an offset of the table, to the start of an instruction.
    The search of a sparse table always ends. *)
Definition switch_ok (meth : Method) (pc : Z) (packed : bool) (table : list Z) : Prop :=
  forall v, (packed = false -> is_Some (switch_handler packed table v)) /\
    forall r, switch_handler packed table v = Some r ->
      thrown r = false /\
      (branch r = kInstrLen \/ is_start meth (pc + branch r) /\ is_case packed table (branch r)).

Lemma case_of_in cases v t : case_of cases v = Some t -> exists c, c ∈ cases /\ c.2 = t.
Proof.
  unfold case_of. destruct (List.find _ cases) as [c|] eqn:E; [|done]. intros [= <-].
  apply find_some in E as [Hin _]. exists c. split; [by apply list_elem_of_In|done].
Qed.

Lemma case_branch (P : Z -> Prop) cases v : (forall c, c ∈ cases -> P c.2) ->
  default kInstrLen (case_of cases v) = kInstrLen \/ P (default kInstrLen (case_of cases v)).
Proof.
  intros H. destruct (case_of cases v) as [t|] eqn:E; [right|by left].
  apply case_of_in in E as (c & Hin & <-). by apply H.
Qed.

(** The offsets lie behind [pre] in the table. *)
Lemma case_at (packed : bool) pre ts rest c i t : Forall (inS 32) ts -> Z.of_nat (length ts) = c ->
  Z.of_nat (length pre) = (if packed then 4 else 2 + 2 * c) -> pre !! 1%nat = Some c -> ts !! i = Some t ->
  is_case packed (pre ++ concat (units 2 <$> ts) ++ rest) t.
Proof.
  intros Hf Hc Hpre H1 Ht. exists c, (Z.of_nat i). split; [|split].
  - rewrite aref_nat by lia. by apply lookup_app_l_Some.
  - apply lookup_lt_Some in Ht. lia.
  - replace (Z.of_nat i * 2) with (2 * Z.of_nat i) by lia. rewrite <- Hpre. by apply s4_at_values.
Qed.

Lemma packed_ok meth pc k ts rest : inS 32 k -> Forall (inS 32) ts -> Z.of_nat (length ts) < 2 ^ 16 ->
  (forall i t, ts !! i = Some t -> is_start meth (pc + t) /\ is_case true (encode_table (PackedSwitch k ts) ++ rest) t) ->
  switch_ok meth pc true (encode_table (PackedSwitch k ts) ++ rest).
Proof.
  intros Hk Hf Hn Ht v. split; [done|]. intros r. cbn [switch_handler].
  rewrite (proj2 handlers_find_case) by done. cbn [negb andb]. destruct (decide (inS 32 (v - k))); [|done].
  intros [= <-]. cbn [thrown branch]. split; [done|].
  apply (case_branch (fun t => is_start meth (pc + t) /\ is_case _ _ t)).
  intros [a t] Hin%elem_of_zip_r. apply list_elem_of_lookup in Hin as [j Hj]. by apply (Ht j).
Qed.

Lemma sparse_ok meth pc es rest : keys_sorted es -> Forall case_fits es -> Z.of_nat (length es) < 2 ^ 16 ->
  (forall i t, es.*2 !! i = Some t -> is_start meth (pc + t) /\ is_case false (encode_table (SparseSwitch es) ++ rest) t) ->
  switch_ok meth pc false (encode_table (SparseSwitch es) ++ rest).
Proof.
  intros Hk Hf Hn Ht v. cbn [switch_handler]. rewrite (proj1 handlers_find_case) by done. cbn [negb andb].
  split; [by eexists|]. intros r [= <-]. cbn [thrown branch]. split; [done|].
  apply (case_branch (fun t => is_start meth (pc + t) /\ is_case _ _ t)).
  intros c Hin. apply list_elem_of_lookup in Hin as [j Hj]. apply (Ht j). by rewrite list_lookup_fmap, Hj.
Qed.

Lemma insns_at_Some meth pc p : method_ok meth -> insns_at meth pc = Some p ->
  0 <= pc <= dvmGetMethodInsnsSize meth /\ Z.of_nat (length p) = dvmGetMethodInsnsSize meth - pc.
Proof.
  intros Hm H. destruct (method_size meth Hm) as (E & _ & _). unfold insns_at in H.
  destruct (Z.leb_spec 0 pc), (Z.leb_spec pc (Z.of_nat (length (insns (code_of meth))))); try done.
  injection H as <-. unfold unit_ptr. rewrite length_drop. lia.
Qed.

(** The table lies in the code when its end does. *)
Lemma table_in_code meth start n table : method_ok meth -> insns_at meth start = Some table ->
  0 <= n < 2 ^ 20 -> (u32 (start + u32 n) >? dvmGetMethodInsnsSize meth) = false ->
  n <= Z.of_nat (length table).
Proof.
  intros Hm Ht Hn Hc. destruct (method_size meth Hm) as (_ & _ & Hs).
  destruct (insns_at_Some meth start table Hm Ht) as [Hst ->]. rewrite (wrapU_id 32 n) in Hc by (unfold inU; lia).
  rewrite wrapU_id in Hc by (unfold inU; lia). rewrite Z.gtb_ltb in Hc. apply Z.ltb_ge in Hc. lia.
Qed.

(** The check of the order of the keys, which a table of one key passes without it. *)
Lemma keys_checked es c rest : Forall (inS 32) es.*1 -> Z.of_nat (length es) = c ->
  (if (2 >? 0) && (c >? 1) then
     lastKey ← s4_at ([kSparseSwitchSignature; c] ++ concat (units 2 <$> es.*1) ++ concat (units 2 <$> es.*2) ++ rest) 2;
     keys_loop (Z.to_nat (c - 1))
       ([kSparseSwitchSignature; c] ++ concat (units 2 <$> es.*1) ++ concat (units 2 <$> es.*2) ++ rest) 2 1 lastKey
   else Some true) = Some true -> keys_sorted es.
Proof.
  intros Hfk Hlen Ek i j a b Hij Ha Hb. change (2 >? 0) with true in Ek. cbn [andb] in Ek. rewrite Z.gtb_ltb in Ek.
  assert (Hj : Z.of_nat j < c) by (apply lookup_lt_Some in Hb; lia).
  rewrite (proj2 (Z.ltb_lt 1 c)) in Ek by lia.
  destruct (lookup_lt_is_Some_2 es.*1 0) as [k0 Hk0]; [rewrite length_fmap; lia|].
  pose proof (s4_at_values [kSparseSwitchSignature; c] es.*1 (concat (units 2 <$> es.*2) ++ rest) 0 k0 Hfk Hk0) as E.
  cbn [length] in E. change (Z.of_nat 2 + 2 * Z.of_nat 0) with 2 in E. rewrite E in Ek. cbn [mbind option_bind] in Ek.
  pose proof (keys_loop_sorted [kSparseSwitchSignature; c] es.*1 (concat (units 2 <$> es.*2) ++ rest) Hfk
    (Z.to_nat (c - 1)) 1 k0 ltac:(rewrite length_fmap; lia)) as L.
  refine (proj1 (L _ Ek i j a.1 b.1 Hij ltac:(lia) _ _)).
  - intros m x Hm' Hx. assert (m = 0%nat) as -> by lia. assert (x = k0) by congruence. lia.
  - by rewrite list_lookup_fmap, Ha.
  - by rewrite list_lookup_fmap, Hb.
Qed.

Lemma check_switch_ok meth flags pc flags' : method_ok meth -> widths_ok meth flags ->
  0 <= pc < dvmGetMethodInsnsSize meth -> checkSwitchTargets meth flags pc = Some (true, flags') ->
  widths_ok meth flags' /\ exists p i0 i1 i2 table,
    insns_at meth pc = Some p /\ FETCH p 0 = Some i0 /\ FETCH p 1 = Some i1 /\ FETCH p 2 = Some i2 /\
    insns_at meth (pc + s4_of i1 i2) = Some table /\
    switch_ok meth pc (Z.land i0 0xff =? OP_PACKED_SWITCH) table.
Proof.
  intros Hm Hw Hpc. destruct (method_size meth Hm) as (_ & _ & Hs). unfold checkSwitchTargets.
  destruct (insns_at meth pc) as [p|] eqn:Ep; [|done]. cbn [mbind option_bind].
  destruct (FETCH p 0) as [i0|] eqn:E0; [|done]. destruct (FETCH p 1) as [i1|] eqn:E1; [|done].
  destruct (FETCH p 2) as [i2|] eqn:E2; [|done]. cbn [mbind option_bind].
  rewrite (s32_small pc) by lia. destruct (chkS 32 (pc + s4_of i1 i2)) as [st|] eqn:Est; [|done].
  apply chkS_inv in Est as [-> _]. cbn [mbind option_bind].
  destruct ((_ <? 0) || _); [done|].
  destruct (insns_at meth (pc + s4_of i1 i2)) as [table|] eqn:Et; [|done]. cbn [mbind option_bind].
  destruct (negb (Z.land (u32 (insns_addr meth + _)) 3 =? 0)); [done|].
  destruct (aref table 1) as [c|] eqn:Ec; [|done]. cbn [mbind option_bind].
  pose proof (insns_at_units meth _ table Hm Et) as Hu.
  assert (Hc : inU 16 c) by (rewrite aref_nat in Ec by lia; by apply (Forall_lookup_1 _ _ _ _ Hu Ec)).
  unfold inU in Hc.
  intros H. enough (widths_ok meth flags' /\ switch_ok meth pc (Z.land i0 0xff =? OP_PACKED_SWITCH) table)
    as [? ?] by (split; [done|]; by exists p, i0, i1, i2, table).
  destruct (Z.land i0 0xff =? OP_PACKED_SWITCH).
  - destruct (aref table 0) as [sg|] eqn:Esg; [|done]. cbn [mbind option_bind] in H.
    destruct (Z.eqb_spec sg kPackedSwitchSignature) as [->|]; [|done]. cbn [negb] in H.
    destruct (u32 (pc + s4_of i1 i2 + u32 (4 + c * 2)) >? dvmGetMethodInsnsSize meth) eqn:El; [done|].
    cbn [Z.gtb Z.compare Z.opp andb mbind option_bind negb] in H.
    destruct (packed_shape table c Hu Esg Ec) as (k & ts & rest & Henc & Hk & Hf & Hlen & pre & Hpre & Hlay).
    { pose proof (table_in_code meth _ (4 + c * 2) table Hm Et ltac:(lia) El). lia. }
    rewrite Hlay in H. replace 4 with (Z.of_nat (length pre)) in H by lia. change 0 with (Z.of_nat 0) in H.
    apply (targets_loop_ok meth pre ts rest pc Hm Hpc Hf) in H as [Hw' Hts]; [|lia|done].
    split; [done|]. rewrite Henc. apply packed_ok; [done|done|lia|]. intros i t Ht. split; [by apply (Hts i t); [lia|]|].
    rewrite <- Henc, Hlay. apply (case_at true pre ts rest c i); [done|done|lia| |done].
    rewrite Hlay, aref_nat in Ec by lia. by rewrite lookup_app_l in Ec by lia.
  - destruct (aref table 0) as [sg|] eqn:Esg; [|done]. cbn [mbind option_bind] in H.
    destruct (Z.eqb_spec sg kSparseSwitchSignature) as [->|]; [|done]. cbn [negb] in H.
    destruct (u32 (pc + s4_of i1 i2 + u32 (2 + 2 * c + c * 2)) >? dvmGetMethodInsnsSize meth) eqn:El; [done|].
    destruct (sparse_shape table c Hu Esg Ec) as (es & rest & Henc & Hf & Hlen & Hlay).
    { pose proof (table_in_code meth _ (2 + 2 * c + c * 2) table Hm Et ltac:(lia) El). lia. }
    assert (Hfk : Forall (inS 32) es.*1) by (apply Forall_fmap; eapply Forall_impl; [exact Hf|by intros ? [? _]]).
    assert (Hft : Forall (inS 32) es.*2) by (apply Forall_fmap; eapply Forall_impl; [exact Hf|by intros ? [_ ?]]).
    destruct (if (2 >? 0) && (c >? 1) then _ else _) as [[]|] eqn:Ek; [|done..]. cbn [mbind option_bind negb] in H.
    rewrite Hlay in Ek. pose proof (keys_checked es c rest Hfk Hlen Ek) as Hsorted.
    rewrite Hlay in H.
    replace ([kSparseSwitchSignature; c] ++ concat (units 2 <$> es.*1) ++ concat (units 2 <$> es.*2) ++ rest)
      with (([kSparseSwitchSignature; c] ++ concat (units 2 <$> es.*1)) ++ concat (units 2 <$> es.*2) ++ rest)
      in H by by rewrite <- app_assoc.
    assert (Hpre : 2 + 2 * c = Z.of_nat (length ([kSparseSwitchSignature; c] ++ concat (units 2 <$> es.*1)))).
    { rewrite length_app, (length_concat_const 2), length_fmap by done. cbn [length]. lia. }
    rewrite Hpre in H. change 0 with (Z.of_nat 0) in H at 1.
    apply (targets_loop_ok meth _ es.*2 rest pc Hm Hpc Hft) in H as [Hw' Hts]; [|rewrite length_fmap; lia|done].
    split; [done|]. rewrite Henc. apply sparse_ok; [done|done|lia|]. intros i t Ht. split; [by apply (Hts i t); [lia|]|].
    rewrite <- Henc, Hlay.
    replace ([kSparseSwitchSignature; c] ++ concat (units 2 <$> es.*1) ++ concat (units 2 <$> es.*2) ++ rest)
      with (([kSparseSwitchSignature; c] ++ concat (units 2 <$> es.*1)) ++ concat (units 2 <$> es.*2) ++ rest)
      by by rewrite <- app_assoc.
    by apply (case_at false _ es.*2 rest c i); [done|rewrite length_fmap| | |].
Qed.
