(* ===== verification/VerifiedOperands.v ===== *)
(** * Verified operands: the switch over the opcode against the tables

    [verifyInstructions] picks the checks of an instruction by its opcode. Here the
    tables of formats, index types and flags say what the operands of an opcode are,
    and what [check_operands] accepts is in order for them. *)

From S2P Require Import Prelude Bits Search OpcodeTables Opcodes InstrUtils.
From S2P Require Import SwitchData Leb128 DexCatch DexVerify InsnFlags VerifiedSwitch.

(** ** What the tables say of an opcode *)

(** The operands that are registers, by the format. *)
Inductive reg_use := NoRegs | RegA | RegAB | RegABC | RegList | RegRange.

Definition regs_of_format (f : InstructionFormat) : option reg_use :=
  match f with
  | kFmt10x | kFmt10t | kFmt20t | kFmt30t => Some NoRegs
  | kFmt11n | kFmt11x | kFmt21s | kFmt21h | kFmt21c | kFmt21t | kFmt31i | kFmt31c | kFmt31t
  | kFmt51l => Some RegA
  | kFmt12x | kFmt22x | kFmt32x | kFmt22b | kFmt22s | kFmt22c | kFmt22t => Some RegAB
  | kFmt23x => Some RegABC
  | kFmt35c => Some RegList
  | kFmt3rc => Some RegRange
  | _ => None
  end.

(** The operand that is an index, by the format. *)
Inductive index_place := NoIndex | IndexB | IndexC.

Definition place_of_format (f : InstructionFormat) : index_place :=
  match f with
  | kFmt21c | kFmt31c | kFmt35c | kFmt3rc => IndexB
  | kFmt22c => IndexC
  | _ => NoIndex
  end.

(** The opcodes whose operand in [vA], [vB] or [vC] is a [long] or a [double], by their
    names in the documents of the bytecode: such an operand is a pair of registers. *)
Definition wide_in_a : list Z :=
  [OP_MOVE_WIDE; OP_MOVE_WIDE_FROM16; OP_MOVE_WIDE_16; OP_MOVE_RESULT_WIDE; OP_RETURN_WIDE;
   OP_CONST_WIDE_16; OP_CONST_WIDE_32; OP_CONST_WIDE; OP_CONST_WIDE_HIGH16;
   OP_AGET_WIDE; OP_APUT_WIDE; OP_IGET_WIDE; OP_IPUT_WIDE; OP_SGET_WIDE; OP_SPUT_WIDE;
   OP_NEG_LONG; OP_NOT_LONG; OP_NEG_DOUBLE; OP_INT_TO_LONG; OP_INT_TO_DOUBLE; OP_LONG_TO_DOUBLE;
   OP_FLOAT_TO_LONG; OP_FLOAT_TO_DOUBLE; OP_DOUBLE_TO_LONG;
   OP_ADD_LONG; OP_SUB_LONG; OP_MUL_LONG; OP_DIV_LONG; OP_REM_LONG; OP_AND_LONG; OP_OR_LONG; OP_XOR_LONG;
   OP_SHL_LONG; OP_SHR_LONG; OP_USHR_LONG; OP_ADD_DOUBLE; OP_SUB_DOUBLE; OP_MUL_DOUBLE; OP_DIV_DOUBLE; OP_REM_DOUBLE;
   OP_ADD_LONG_2ADDR; OP_SUB_LONG_2ADDR; OP_MUL_LONG_2ADDR; OP_DIV_LONG_2ADDR; OP_REM_LONG_2ADDR;
   OP_AND_LONG_2ADDR; OP_OR_LONG_2ADDR; OP_XOR_LONG_2ADDR; OP_SHL_LONG_2ADDR; OP_SHR_LONG_2ADDR; OP_USHR_LONG_2ADDR;
   OP_ADD_DOUBLE_2ADDR; OP_SUB_DOUBLE_2ADDR; OP_MUL_DOUBLE_2ADDR; OP_DIV_DOUBLE_2ADDR; OP_REM_DOUBLE_2ADDR].

Definition wide_in_b : list Z :=
  [OP_MOVE_WIDE; OP_MOVE_WIDE_FROM16; OP_MOVE_WIDE_16; OP_CMPL_DOUBLE; OP_CMPG_DOUBLE; OP_CMP_LONG;
   OP_NEG_LONG; OP_NOT_LONG; OP_NEG_DOUBLE; OP_LONG_TO_INT; OP_LONG_TO_FLOAT; OP_LONG_TO_DOUBLE;
   OP_DOUBLE_TO_INT; OP_DOUBLE_TO_LONG; OP_DOUBLE_TO_FLOAT;
   OP_ADD_LONG; OP_SUB_LONG; OP_MUL_LONG; OP_DIV_LONG; OP_REM_LONG; OP_AND_LONG; OP_OR_LONG; OP_XOR_LONG;
   OP_SHL_LONG; OP_SHR_LONG; OP_USHR_LONG; OP_ADD_DOUBLE; OP_SUB_DOUBLE; OP_MUL_DOUBLE; OP_DIV_DOUBLE; OP_REM_DOUBLE;
   OP_ADD_LONG_2ADDR; OP_SUB_LONG_2ADDR; OP_MUL_LONG_2ADDR; OP_DIV_LONG_2ADDR; OP_REM_LONG_2ADDR;
   OP_AND_LONG_2ADDR; OP_OR_LONG_2ADDR; OP_XOR_LONG_2ADDR;
   OP_ADD_DOUBLE_2ADDR; OP_SUB_DOUBLE_2ADDR; OP_MUL_DOUBLE_2ADDR; OP_DIV_DOUBLE_2ADDR; OP_REM_DOUBLE_2ADDR].

Definition wide_in_c : list Z :=
  [OP_CMPL_DOUBLE; OP_CMPG_DOUBLE; OP_CMP_LONG;
   OP_ADD_LONG; OP_SUB_LONG; OP_MUL_LONG; OP_DIV_LONG; OP_REM_LONG; OP_AND_LONG; OP_OR_LONG; OP_XOR_LONG;
   OP_ADD_DOUBLE; OP_SUB_DOUBLE; OP_MUL_DOUBLE; OP_DIV_DOUBLE; OP_REM_DOUBLE].

Record needs := Needs {
  n_regs : reg_use;
  n_wide : bool * bool * bool;
  n_index : InstructionIndexType;
  n_place : index_place;
  n_branch : bool;
  n_switch : bool;
  n_array : bool;
  n_instance : bool;
  n_new_array : bool
}.

#[export] Instance reg_use_eq_dec : EqDecision reg_use.
Proof. solve_decision. Defined.

#[export] Instance index_place_eq_dec : EqDecision index_place.
Proof. solve_decision. Defined.

#[export] Instance needs_eq_dec : EqDecision needs.
Proof. solve_decision. Defined.

Definition needs_of (opcode : Z) : option needs :=
  f ← dexGetFormatFromOpcode opcode;
  ix ← dexGetIndexTypeFromOpcode opcode;
  flags ← dexGetFlagsFromOpcode opcode;
  regs ← regs_of_format f;
  Some (Needs regs (one_of opcode wide_in_a, one_of opcode wide_in_b, one_of opcode wide_in_c) ix (place_of_format f)
    (has_flag flags kInstrCanBranch) (has_flag flags kInstrCanSwitch)
    (opcode =? OP_FILL_ARRAY_DATA) (opcode =? OP_NEW_INSTANCE) (opcode =? OP_NEW_ARRAY)).

(** The registers are among those of the method; the verifier lets an argument of a
    list be one more than the last. *)
Definition regs_ok (meth : Method) (d : DecodedInstruction) (u : reg_use) : Prop :=
  match u with
  | NoRegs => True
  | RegA => vA d < m_registersSize meth
  | RegAB => vA d < m_registersSize meth /\ vB d < m_registersSize meth
  | RegABC => vA d < m_registersSize meth /\ vB d < m_registersSize meth /\ vC d < m_registersSize meth
  | RegList => vA d <= 5 /\ forall i, 0 <= i < vA d -> exists r, aref (arg d) i = Some r /\ r <= m_registersSize meth
  | RegRange => vA d + vC d <= m_registersSize meth
  end.

(** Both registers of a pair are. *)
Definition wide_ok (meth : Method) (d : DecodedInstruction) (w : bool * bool * bool) : Prop :=
  let '(a, b, c) := w in
  (a = true -> vA d + 1 < m_registersSize meth) /\ (b = true -> vB d + 1 < m_registersSize meth) /\
  (c = true -> vC d + 1 < m_registersSize meth).

(** The number of the things of a kind. *)
Definition index_bound (dex : DvmDex) (ix : InstructionIndexType) : option Z :=
  match ix with
  | kIndexTypeRef => Some (typeIdsSize dex)
  | kIndexStringRef => Some (stringIdsSize dex)
  | kIndexMethodRef => Some (methodIdsSize dex)
  | kIndexFieldRef => Some (fieldIdsSize dex)
  | _ => None
  end.

Definition index_ok (dex : DvmDex) (d : DecodedInstruction) (ix : InstructionIndexType) (p : index_place) : Prop :=
  match index_bound dex ix, p with
  | Some n, IndexB => vB d < n
  | Some n, IndexC => vC d < n
  | Some _, NoIndex => False
  | None, _ => True
  end.

(** The operands that are registers have 16 bits. *)
Definition regs_decoded (d : DecodedInstruction) (u : reg_use) : Prop :=
  match u with
  | NoRegs => True
  | RegA => inU 16 (vA d)
  | RegAB => inU 16 (vA d) /\ inU 16 (vB d)
  | RegABC => inU 16 (vA d) /\ inU 16 (vB d) /\ inU 16 (vC d)
  | RegList => 0 <= vA d
  | RegRange => inU 16 (vA d) /\ inU 16 (vC d)
  end.

(** ** Lemmas: single checks *)

Lemma register_checked meth v : checkRegisterIndex meth v = true -> v < m_registersSize meth.
Proof. unfold checkRegisterIndex. rewrite Z.geb_leb. destruct (Z.leb_spec (m_registersSize meth) v); [done|lia]. Qed.

Lemma wide_register_checked meth v : inU 16 v -> checkWideRegisterIndex meth v = true ->
  v + 1 < m_registersSize meth.
Proof.
  unfold inU, checkWideRegisterIndex. intros Hv. rewrite wrapU_id by (unfold inU; lia). rewrite Z.geb_leb.
  destruct (Z.leb_spec (m_registersSize meth) (v + 1)); [done|lia].
Qed.

Lemma index_checked n v : negb (v >=? n) = true -> v < n.
Proof. rewrite Z.geb_leb. destruct (Z.leb_spec n v); [done|lia]. Qed.

(** The class that is named by its descriptor, and an array of up to 255 dimensions. *)
Definition names_class (dex : DvmDex) (v : Z) : Prop := exists name, dexStringByTypeIdx dex v = 76 :: name.

Definition names_array (dex : DvmDex) (v : Z) : Prop :=
  exists dims c rest, dexStringByTypeIdx dex v = replicate dims 91 ++ c :: rest /\ c <> 91 /\ (1 <= dims <= 255)%nat.

Lemma new_instance_checked dex v : checkNewInstance dex v = Some true -> v < typeIdsSize dex /\ names_class dex v.
Proof.
  unfold checkNewInstance. rewrite Z.geb_leb. destruct (Z.leb_spec (typeIdsSize dex) v) as [|Hlt]; [done|]. intros H. split; [lia|].
  unfold names_class. destruct (dexStringByTypeIdx dex v) as [|c name]; [done|]. change (aref (c :: name) 0) with (Some c) in H.
  cbn [mbind option_bind] in H. destruct (Z.eqb_spec c 76) as [->|]; [by exists name|done].
Qed.

Lemma bracket_loop_spec cp : forall n k, bracket_loop cp n = Some k ->
  exists dims c rest, cp = replicate dims 91 ++ c :: rest /\ c <> 91 /\ k = n + Z.of_nat dims.
Proof.
  induction cp as [|c cp IH]; intros n k; cbn [bracket_loop]; [done|]. destruct (Z.eqb_spec c 91) as [->|Hne].
  - intros (dims & c & rest & -> & Hc & ->)%IH. exists (S dims), c, rest. split; [done|]. split; [done|lia].
  - intros [= <-]. exists 0%nat, c, cp. split; [done|]. split; [done|lia].
Qed.

Lemma new_array_checked dex v : checkNewArray dex v = Some true -> v < typeIdsSize dex /\ names_array dex v.
Proof.
  unfold checkNewArray. rewrite Z.geb_leb. destruct (Z.leb_spec (typeIdsSize dex) v) as [|Hlt]; [done|]. intros H. split; [lia|].
  apply bind_Some in H as (k & (dims & c & rest & E & Hc & ->)%bracket_loop_spec & H). exists dims, c, rest. split; [done|].
  split; [done|]. destruct (Z.eqb_spec (0 + Z.of_nat dims) 0); [done|]. rewrite Z.gtb_ltb in H.
  destruct (Z.ltb_spec 255 (0 + Z.of_nat dims)); [done|lia].
Qed.

(** The data of an array: where the instruction says it starts it is aligned, and in the
    code, and it ends there too if its size is one of 32 bits. *)
Definition array_ok (meth : Method) (pc : Z) : Prop :=
  exists p i1 i2 table width lo hi,
    insns_at meth pc = Some p /\ FETCH p 1 = Some i1 /\ FETCH p 2 = Some i2 /\
    0 <= pc + s4_of i1 i2 /\ pc + s4_of i1 i2 + 2 < dvmGetMethodInsnsSize meth /\
    Z.land (u32 (insns_addr meth + 2 * (pc + s4_of i1 i2))) 0x03 = 0 /\
    insns_at meth (pc + s4_of i1 i2) = Some table /\
    aref table 1 = Some width /\ aref table 2 = Some lo /\ aref table 3 = Some hi /\
    (width * (lo + hi * 2 ^ 16) < 2 ^ 32 - 1 ->
     pc + s4_of i1 i2 + 4 + (width * (lo + hi * 2 ^ 16) + 1) / 2 <= dvmGetMethodInsnsSize meth).

Lemma array_checked meth pc : method_ok meth -> 0 <= pc < dvmGetMethodInsnsSize meth ->
  checkArrayData meth pc = Some true -> array_ok meth pc.
Proof.
  intros Hm Hpc H. destruct (method_size meth Hm) as (_ & _ & Hs). unfold checkArrayData in H.
  apply bind_Some in H as (p & Ep & H). apply bind_Some in H as (i1 & E1 & H). apply bind_Some in H as (i2 & E2 & H).
  apply bind_Some in H as (start & [-> Hr]%chkS_inv & H). rewrite (s32_small pc) in * by lia. unfold inS in Hr.
  destruct (Z.ltb_spec (pc + s4_of i1 i2) 0) as [|H0]; [done|]. rewrite wrapU_id, Z.geb_leb in H by (unfold inU; lia).
  destruct (Z.leb_spec (dvmGetMethodInsnsSize meth) (pc + s4_of i1 i2 + 2)); [done|]. cbn [orb] in H.
  apply bind_Some in H as (table & Et & H). destruct (Z.eqb_spec (Z.land (u32 (insns_addr meth + 2 * (pc + s4_of i1 i2))) 3) 0) as [Ea|]; [|done].
  cbn [negb] in H. apply bind_Some in H as (w & Ew & H). apply bind_Some in H as (lo & El & H). apply bind_Some in H as (hi & Eh & H).
  exists p, i1, i2, table, w, lo, hi. split_and!; try done. intros Hsize.
  pose proof (insns_at_units meth _ _ Hm Et) as Hu. rewrite Forall_lookup in Hu.
  assert (Hun : forall k x, aref table k = Some x -> inU 16 x).
  { intros k x Hx. unfold aref in Hx. destruct (0 <=? k); [|done]. by eapply Hu. }
  pose proof (Hun _ _ Ew) as Rw. pose proof (Hun _ _ El) as Rl. pose proof (Hun _ _ Eh) as Rh. unfold inU in Rw, Rl, Rh.
  assert (Hn : 0 <= w * (lo + hi * 2 ^ 16)) by nia.
  rewrite (wrapU_id 32 (w * (lo + hi * 2 ^ 16))), (wrapU_id 32 (_ + 1)) in H by (unfold inU; lia).
  assert (Hd : 0 <= (w * (lo + hi * 2 ^ 16) + 1) / 2 < 2 ^ 31) by dlia.
  rewrite (wrapU_id 32 (4 + _)), wrapU_id, Z.gtb_ltb in H by (unfold inU; lia).
  destruct (Z.ltb_spec (dvmGetMethodInsnsSize meth) (pc + s4_of i1 i2 + (4 + (w * (lo + hi * 2 ^ 16) + 1) / 2))); [done|]. lia.
Qed.

Lemma vararg_loop_ok n args size : forall idx, vararg_loop n args idx size = Some true ->
  forall i, idx <= i < idx + Z.of_nat n -> exists r, aref args i = Some r /\ r <= size.
Proof.
  induction n as [|n IH]; intros idx H i Hi; [lia|]. cbn [vararg_loop] in H.
  destruct (aref args idx) as [r|] eqn:E; [|done]. cbn [mbind option_bind] in H. rewrite Z.gtb_ltb in H.
  destruct (Z.ltb_spec size r); [done|]. destruct (decide (i = idx)) as [->|]; [by exists r|].
  apply (IH (idx + 1) H). lia.
Qed.

Lemma vararg_checked meth d : 0 <= vA d -> checkVarargRegs meth d = Some true -> regs_ok meth d RegList.
Proof.
  intros H0. unfold checkVarargRegs. rewrite Z.gtb_ltb. destruct (Z.ltb_spec 5 (vA d)); [done|]. intros Hl.
  split; [lia|]. intros i Hi. apply (vararg_loop_ok _ _ _ 0 Hl). lia.
Qed.

Lemma vararg_range_checked meth d : inU 16 (vA d) /\ inU 16 (vC d) -> checkVarargRangeRegs meth d = true ->
  regs_ok meth d RegRange.
Proof.
  unfold inU, checkVarargRangeRegs. intros [? ?]. rewrite wrapU_id by (unfold inU; lia). rewrite Z.gtb_ltb. cbn.
  destruct (Z.ltb_spec (m_registersSize meth) (vA d + vC d)); [done|lia].
Qed.

(** A branch that is accepted goes to an instruction. *)
Definition branch_ok (meth : Method) (pc : Z) : Prop :=
  exists off cond, dvmGetBranchOffset meth pc = Some (Some (off, cond)) /\ is_start meth (pc + off).

Lemma branch_checked meth flags pc self flags' : method_ok meth -> widths_ok meth flags ->
  checkBranchTarget meth flags pc self = Some (true, flags') -> widths_ok meth flags' /\ branch_ok meth pc.
Proof.
  intros Hm Hw. destruct (method_size meth Hm) as (_ & _ & Hs). unfold checkBranchTarget.
  destruct (dvmGetBranchOffset meth pc) as [[[off cond]|]|] eqn:E; [|done..]. cbn [mbind option_bind].
  destruct (negb self && (off =? 0)); [done|]. destruct (chkS 32 (pc + off)) as [sum|] eqn:Ec; [|done].
  apply chkS_inv in Ec as [-> _]. cbn [mbind option_bind]. rewrite Z.eqb_refl. cbn [negb].
  rewrite s32_small by lia. rewrite Z.geb_leb. destruct (Z.ltb_spec (pc + off) 0); [done|].
  destruct (Z.leb_spec (dvmGetMethodInsnsSize meth) (pc + off)); [done|]. cbn [orb].
  destruct (dvmInsnIsOpcode flags (pc + off)) as [[]|] eqn:Eo; [|done..]. cbn [mbind option_bind negb].
  destruct (dvmInsnSetBranchTarget flags (pc + off)) as [flags1|] eqn:E1; [|done]. intros [= <-].
  split; [by eapply set_branch_target_ok|]. exists off, cond. split; [done|].
  apply (opcode_is_start meth) in Eo; [|done..]. by rewrite s32_small in Eo by lia.
Qed.

(** The switch instruction at an address, and its table. *)
Definition table_ok (meth : Method) (pc : Z) : Prop :=
  exists p i0 i1 i2 table,
    insns_at meth pc = Some p /\ FETCH p 0 = Some i0 /\ FETCH p 1 = Some i1 /\ FETCH p 2 = Some i2 /\
    insns_at meth (pc + s4_of i1 i2) = Some table /\
    switch_ok meth pc (Z.land i0 0xff =? OP_PACKED_SWITCH) table.

(** ** Lemmas: the cases of the switch *)

(** All the opcodes of a case have the same operands. *)
Lemma case_needs op ops n : one_of op ops = true ->
  forallb (fun op => bool_decide (needs_of op = n)) ops = true -> needs_of op = n.
Proof.
  unfold one_of. intros (x & Hx & E%Z.eqb_eq)%existsb_exists Hf. subst x.
  rewrite forallb_forall in Hf. by apply Hf, bool_decide_eq_true in Hx.
Qed.

Lemma one_of_app op l l' : one_of op (l ++ l') = one_of op l || one_of op l'.
Proof. apply existsb_app. Qed.

(** Every packed opcode has a case. *)
Lemma cases_complete op ops : 0 <= op < kNumPackedOpcodes ->
  forallb (fun op => one_of op ops) (seqZ 0 kNumPackedOpcodes) = true -> one_of op ops = true.
Proof.
  intros Hop H. rewrite forallb_forall in H. apply H, list_elem_of_In, elem_of_seqZ. lia.
Qed.

(** What an accepted instruction satisfies. *)
Record operands_ok (meth : Method) (dex : DvmDex) (d : DecodedInstruction) (pc : Z) (n : needs) : Prop := {
  op_regs : regs_ok meth d (n_regs n);
  op_wide : wide_ok meth d (n_wide n);
  op_index : index_ok dex d (n_index n) (n_place n);
  op_branch : n_branch n = true -> branch_ok meth pc;
  op_switch : n_switch n = true -> table_ok meth pc;
  op_array : n_array n = true -> array_ok meth pc;
  op_instance : n_instance n = true -> names_class dex (vB d);
  op_new_array : n_new_array n = true -> names_array dex (vC d)
}.

Ltac checks :=
  repeat match goal with
  | H : _ && _ = true |- _ => apply andb_prop in H as [? ?]
  | H : checkRegisterIndex _ _ = true |- _ => apply register_checked in H
  | H : checkWideRegisterIndex _ _ = true |- _ => apply wide_register_checked in H; [|done]
  | H : checkTypeIndex _ _ = true |- _ => apply index_checked in H
  | H : checkFieldIndex _ _ = true |- _ => apply index_checked in H
  | H : checkMethodIndex _ _ = true |- _ => apply index_checked in H
  | H : checkStringIndex _ _ = true |- _ => apply index_checked in H
  | H : checkNewInstance _ _ = Some true |- _ => apply new_instance_checked in H as [? ?]
  | H : checkNewArray _ _ = Some true |- _ => apply new_array_checked in H as [? ?]
  | H : checkArrayData _ _ = Some true |- _ => apply array_checked in H; [|assumption..]
  end.

(** One case: its opcodes need what the first of them needs. *)
Ltac case_start G :=
  match goal with
  | H : (if one_of ?op ?ops then _ else _) = _ |- _ =>
      destruct (one_of op ops) eqn:G;
      [let h := match ops with ?h :: _ => h end in
       let n := eval vm_compute in (needs_of h) in
       let N := fresh "N" in
       assert (N : needs_of op = n) by (apply (case_needs op ops n G); vm_compute; reflexivity)
      |]
  end.

Lemma accepted_inv (b : bool) (f f' : list Z) : Some (b, f) = Some (true, f') -> b = true /\ f = f'.
Proof. by intros [= -> ->]. Qed.

(** The result of the check that may be undefined or change the flags. *)
Ltac case_open H :=
  match type of H with
  | Some _ = _ => idtac
  | mbind _ (checkBranchTarget ?m ?f ?p ?s) = _ =>
      let E := fresh "E" in
      destruct (checkBranchTarget m f p s) as [[[] ?]|] eqn:E; [| |discriminate H];
      cbn [mbind option_bind] in H;
      [apply (branch_checked m f p s) in E as [? ?]; [|assumption..]|]
  | mbind _ (checkSwitchTargets ?m ?f ?p) = _ =>
      let E := fresh "E" in
      destruct (checkSwitchTargets m f p) as [[[] ?]|] eqn:E; [| |discriminate H];
      cbn [mbind option_bind] in H;
      [apply (check_switch_ok m f p) in E as [? ?]; [|assumption..]|]
  | mbind _ ?m = _ =>
      let E := fresh "E" in
      destruct m as [[]|] eqn:E; [| |discriminate H]; cbn [mbind option_bind] in H
  end.

Ltac case_end H Hd N :=
  case_open H; apply accepted_inv in H as [H <-]; rewrite ?andb_true_r, ?andb_false_r in H; try discriminate H;
  rewrite N in Hd; cbn [n_regs regs_decoded] in Hd;
  try match type of Hd with inU _ _ /\ _ /\ _ => destruct Hd as (? & ? & ?) | inU _ _ /\ _ => destruct Hd as [? ?] end;
  checks; eexists; (split; [exact N|]); (split; [|assumption]);
  split; cbn [n_regs n_wide n_index n_place n_branch n_switch n_array n_instance n_new_array index_bound regs_ok wide_ok];
  unfold index_ok; cbn [index_bound]; try exact I; try (intros; first [discriminate|assumption]);
  try (split_and?; first [lia|assumption]);
  try (split_and!; intros; first [discriminate|lia]);
  try (apply vararg_checked; assumption);
  try (apply vararg_range_checked; [split|]; assumption).

(** No packed opcode is without a case. *)
Ltac no_case :=
  lazymatch goal with
  | G : one_of ?op ?l = false, G' : one_of ?op ?l' = false |- _ =>
      let K := fresh "K" in
      assert (K : one_of op (l ++ l') = false) by (rewrite one_of_app, G, G'; reflexivity);
      clear G G'; no_case
  | G : one_of ?op ?l = false |- _ =>
      rewrite (cases_complete op l) in G; [discriminate G|assumption|vm_compute; reflexivity]
  end.

(** The operands [check_operands] accepts are in order. *)
Lemma check_operands_ok meth dex d pc flags flags' : method_ok meth -> widths_ok meth flags ->
  0 <= pc < dvmGetMethodInsnsSize meth -> 0 <= opcode d < kNumPackedOpcodes ->
  match needs_of (opcode d) with Some n => regs_decoded d (n_regs n) | None => True end ->
  check_operands meth dex d pc flags = Some (true, flags') ->
  exists n, needs_of (opcode d) = Some n /\ operands_ok meth dex d pc n /\ widths_ok meth flags'.
Proof.
  intros Hm Hw Hpc Hop Hd H.
  unfold check_operands, check_constants_and_arrays, check_branches_and_members in H.
  repeat (let G := fresh "G" in case_start G;
    [match goal with N : needs_of _ = _ |- _ => solve [case_end H Hd N] end|]).
  (* the opcodes that are rejected *)
  match type of H with (if ?b then _ else _) = _ => let G := fresh "G" in destruct b eqn:G; [discriminate H|] end.
  no_case.
Qed.
