(* ===== verification/VerifiedMethod.v ===== *)
(** * Verified methods: what the static verifier guarantees

    A method the verifier accepts has operands in order at every instruction, and
    from an instruction that is not the mark of a data table control goes to one that
    starts in the code, or to the end of the code. *)

From S2P Require Import Prelude Bits Search OpcodeTables Opcodes InstrUtils.
From S2P Require Import SwitchData Leb128 DexCatch DexSwapVerify DexVerify InsnFlags VerifiedSwitch VerifiedOperands.

(** ** Decoded operands *)

Lemma decode_format_opcode f inst insns d e d' : decode_format f inst insns d = Some (e, d') ->
  opcode d' = opcode d.
Proof.
  destruct f; by_units insns; try discriminate; intros H; try (injection H as _ <-; reflexivity).
  all: unfold decode_args in H; destruct (INST_B inst =? 5) eqn:?; cbn in H;
    repeat match type of H with
    | context [if ?b then _ else _] => destruct b
    end; injection H as _ <-; reflexivity.
Qed.

Lemma fields_16 inst : inU 16 inst ->
  inU 16 (INST_A inst) /\ inU 16 (INST_B inst) /\ inU 16 (INST_AA inst) /\ 0 <= INST_B inst.
Proof.
  unfold inU, INST_A, INST_B, INST_AA. intros H. rewrite land_f, !Z.shiftr_div_pow2 by lia.
  split; [|split; [|split]]; dlia.
Qed.

Lemma halves_16 u : inU 16 u -> inU 16 (Z.land u 0xff) /\ inU 16 (Z.shiftr u 8).
Proof. unfold inU. intros H. rewrite land_ff, Z.shiftr_div_pow2 by lia. split; dlia. Qed.

Lemma decode_format_regs f inst insns d e d' u : Forall (inU 16) insns -> inU 16 inst ->
  regs_of_format f = Some u -> decode_format f inst insns d = Some (e, d') -> regs_decoded d' u.
Proof.
  intros Hu Hi. destruct (fields_16 inst Hi) as (? & ? & ? & ?).
  destruct f; cbn [regs_of_format]; try discriminate; intros [= <-]; cbn [regs_decoded]; try done.
  all: by_units insns; try discriminate; intros Hd.
  all: repeat match goal with Hx : Forall _ (_ :: _) |- _ => apply Forall_cons_1 in Hx as [? Hx] end.
  all: repeat match goal with Hx : inU 16 ?x |- _ => lazymatch goal with
    | _ : inU 16 (Z.land x 0xff) |- _ => fail
    | _ => lazymatch x with
      | INST_A _ => fail | INST_B _ => fail | INST_AA _ => fail | Z.land _ _ => fail | Z.shiftr _ _ => fail
      | _ => destruct (halves_16 x Hx)
      end
    end end.
  all: try (injection Hd as _ <-; cbn; split_and?; assumption).
  all: unfold decode_args in Hd; repeat match type of Hd with
    | context [if ?b then _ else _] => destruct b
    end; injection Hd as _ <-; cbn; assumption.
Qed.

(** An instruction of the method and what it decodes to. *)
Definition decoded_at (meth : Method) (uninit : DecodedInstruction) (pc inst : Z) (d : DecodedInstruction) : Prop :=
  exists rest e, insns_at meth pc = Some (inst :: rest) /\
    dexDecodeInstruction (inst :: rest) uninit = Some (e, d).

Lemma decode_fields meth p uninit e d : method_ok meth -> Forall (inU 16) p ->
  dexDecodeInstruction p uninit = Some (e, d) ->
  exists inst rest, p = inst :: rest /\ opcode d = dexOpcodeFromCodeUnit inst /\ 0 <= opcode d < kNumPackedOpcodes /\
    match needs_of (opcode d) with Some n => regs_decoded d (n_regs n) | None => True end.
Proof.
  intros Hm Hu H. unfold dexDecodeInstruction in H. destruct p as [|inst rest]; [done|].
  cbn [FETCH lookup list_lookup mbind option_bind] in H.
  destruct (dexGetFormatFromOpcode (dexOpcodeFromCodeUnit inst)) as [f|] eqn:Ef; [|done]. cbn [mbind option_bind] in H.
  destruct (dexGetIndexTypeFromOpcode (dexOpcodeFromCodeUnit inst)) as [ix|] eqn:Eix; [|done]. cbn [mbind option_bind] in H.
  pose proof (decode_format_opcode _ _ _ _ _ _ H) as Eo. cbn [opcode set_indexType set_opcode] in Eo.
  exists inst, rest. split; [done|]. split; [done|]. rewrite Eo. split; [by apply from_table_packed in Ef|].
  destruct (needs_of _) as [n|] eqn:En; [|done]. unfold needs_of in En. rewrite Ef, Eix in En. cbn [mbind option_bind] in En.
  destruct (dexGetFlagsFromOpcode _) as [fl|]; [|done]. cbn [mbind option_bind] in En.
  destruct (regs_of_format f) as [u|] eqn:Er; [|done]. cbn [mbind option_bind] in En. injection En as <-. cbn [n_regs].
  apply Forall_cons_1 in Hu as Hu'. destruct Hu' as [Hi _]. by eapply decode_format_regs.
Qed.

(** What the second pass establishes of an instruction. *)
Definition instruction_ok (meth : Method) (dex : DvmDex) (uninit : DecodedInstruction) (pc : Z) : Prop :=
  exists inst d n, decoded_at meth uninit pc inst d /\ opcode d = dexOpcodeFromCodeUnit inst /\
    needs_of (opcode d) = Some n /\ operands_ok meth dex d pc n.

(** ** The second pass *)

Lemma verify_loop_ok fuel meth dex uninit : method_ok meth -> forall n i flags flags',
  widths_ok meth flags -> nth_start meth n = Some i -> i <= dvmGetMethodInsnsSize meth ->
  verify_loop fuel meth dex uninit i flags = Some (Some flags') ->
  forall m pc, (n <= m)%nat -> nth_start meth m = Some pc -> pc < dvmGetMethodInsnsSize meth ->
    instruction_ok meth dex uninit pc.
Proof.
  intros Hm. destruct (method_size meth Hm) as (_ & _ & Hs).
  induction fuel as [|fuel IH]; intros n i flags flags' Hw Hn Hi H m pc Hnm Hpc Hlt; cbn [verify_loop] in H;
    pose proof (nth_start_nonneg meth n i Hn) as H0;
    destruct (Z.ltb_spec i (dvmGetMethodInsnsSize meth)) as [Hil|Hil]; try done.
  1,3: exfalso; destruct (decide (n = m)) as [->|];
    [assert (i = pc) by congruence; lia
    |destruct (nth_start_lt meth n m i pc ltac:(lia) Hn Hpc) as (w & _ & ? & ? & ?); lia].
  destruct (dvmInsnGetWidth flags i) as [w|] eqn:Ew; [|done].
  destruct (insns_at meth i) as [p|] eqn:Ep; [|done]. cbn [mbind option_bind] in H.
  destruct (dexDecodeInstruction p uninit) as [[e d]|] eqn:Ed; [|done]. cbn [mbind option_bind] in H.
  destruct (check_operands meth dex d i flags) as [[[] flags1]|] eqn:Ec; [|done..]. cbn [mbind option_bind negb] in H.
  destruct (decode_fields meth p uninit e d Hm (insns_at_units meth i p Hm Ep) Ed) as (inst & rest & -> & Eop & Hop & Hregs).
  destruct (check_operands_ok meth dex d i flags flags1 Hm Hw ltac:(lia) Hop Hregs Ec) as (nd & Hnd & Hok & Hw1).
  destruct (dexGetFlagsFromOpcode (opcode d)) as [fl|]; [|done]. cbn [mbind option_bind] in H.
  destruct (if negb _ then _ else _) as [flags2|] eqn:Eg; [|done]. cbn [mbind option_bind] in H.
  assert (Hw2 : widths_ok meth flags2) by (destruct (negb _); [eauto|by injection Eg as <-]).
  assert (Hhere : instruction_ok meth dex uninit i) by (exists inst, d, nd; split_and!; [by exists rest, e|done..]).
  assert (Hwr : 0 <= w < 2 ^ 16).
  { unfold dvmInsnGetWidth in Ew. destruct (aref flags (s32 i)) as [f|]; [|done]. injection Ew as <-.
    unfold kInsnFlagWidthMask. rewrite (land_mask 16) by done. apply Z.mod_pos_bound. lia. }
  rewrite wrapU_id in H by (unfold inU; lia). destruct (decide (w = 0)) as [->|Hne].
  - rewrite Z.add_0_r in H. by apply (IH n i flags2 flags' Hw2 Hn Hi H m pc).
  - destruct (decide (n = m)) as [->|]; [by replace pc with i by congruence|].
    destruct (width_is_start meth flags i w Hm Hw Ew Hne) as [_ Hiw]. rewrite s32_small in Hiw by lia.
    assert (HS : nth_start meth (S n) = Some (i + w)).
    { cbn [nth_start]. rewrite Hn. cbn [mbind option_bind]. rewrite Hiw. cbn [mbind option_bind].
      by rewrite (proj2 (Z.ltb_lt _ _)), (proj2 (Z.ltb_lt _ _)) by lia. }
    destruct (Z.le_gt_cases (i + w) (dvmGetMethodInsnsSize meth)) as [Hle|Hgt].
    + apply (IH (S n) (i + w) flags2 flags' Hw2 HS Hle H m pc); [lia|done|done].
    + exfalso. destruct fuel; cbn [verify_loop] in H; rewrite (proj2 (Z.ltb_ge _ _)) in H by lia;
        by rewrite (proj2 (Z.eqb_neq _ _)) in H by lia.
Qed.

(** ** The try table *)

Lemma in_try_loop_ok fuel meth : method_ok meth -> forall flags addr end_ flags', widths_ok meth flags ->
  in_try_loop fuel flags addr end_ = Some flags' -> widths_ok meth flags'.
Proof.
  intros Hm. induction fuel as [|fuel IH]; intros flags addr end_ flags' Hw; cbn [in_try_loop];
    (destruct (addr <? end_); [|by intros [= <-]]); [done|].
  destruct (dvmInsnSetInTry flags addr) as [flags1|] eqn:E1; [|done]. cbn [mbind option_bind].
  destruct (dvmInsnGetWidth flags1 addr) as [w|]; [|done]. apply IH. eauto.
Qed.

Lemma tries_loop_ok n meth : method_ok meth -> forall l idx size flags flags', widths_ok meth flags ->
  tries_loop n l idx size flags = Some (Some flags') -> widths_ok meth flags'.
Proof.
  intros Hm. induction n as [|n IH]; intros l idx size flags flags' Hw; cbn [tries_loop]; [by intros [= <-]|].
  destruct (aref l idx) as [t|]; [|done]. cbn [mbind option_bind].
  destruct (_ || _); [done|]. destruct (dvmInsnGetWidth flags (startAddr t)) as [w|]; [|done]. cbn [mbind option_bind].
  destruct (w =? 0); [done|]. destruct (in_try_loop _ flags _ _) as [flags1|] eqn:E; [|done]. cbn [mbind option_bind].
  apply IH. by eapply in_try_loop_ok.
Qed.

(** A list the loop goes through has handlers that start instructions. *)
Lemma list_loop_ok fuel meth : method_ok meth -> forall it flags flags' it', widths_ok meth flags ->
  list_loop fuel it flags = Some (Some (flags', it')) ->
  widths_ok meth flags' /\ exists hs, handlers_loop fuel it = Some (hs, it') /\
    forall h, h ∈ hs -> is_start meth (s32 (address h)).
Proof.
  intros Hm. induction fuel as [|fuel IH]; intros it flags flags' it' Hw; cbn [list_loop handlers_loop]; [done|].
  destruct (dexCatchIteratorNext it) as [[[h|] it1]|] eqn:E; [| |done]; cbn [mbind option_bind].
  - destruct (dvmInsnGetWidth flags (address h)) as [w|] eqn:Ew; [|done]. cbn [mbind option_bind].
    destruct (Z.eqb_spec w 0) as [|Hne]; [done|].
    destruct (dvmInsnSetBranchTarget flags (address h)) as [flags1|] eqn:E1; [|done]. cbn [mbind option_bind].
    intros H. apply IH in H as (Hw' & hs & Ehs & Hall); [|eauto]. split; [done|]. exists (h :: hs). rewrite Ehs.
    split; [done|]. intros x [->|Hx]%elem_of_cons; [|by apply Hall].
    by destruct (width_is_start meth flags _ w Hm Hw Ew Hne).
  - intros [= <- <-]. split; [done|]. exists []. split; [done|]. by intros h Hh%not_elem_of_nil.
Qed.

Lemma lists_loop_ok n meth hs size_text texts : method_ok meth -> triesSize (code_of meth) <> 0 ->
  catches_ok (code_of meth) hs size_text texts -> forall k flags flags', (k + n = length hs)%nat ->
  widths_ok meth flags ->
  lists_loop n (code_of meth) (list_offset size_text texts k) flags = Some (Some flags') ->
  widths_ok meth flags' /\ forall i h, (k <= i)%nat -> hs !! i = Some h ->
    forall x, x ∈ handlers_of h -> is_start meth (s32 (address x)).
Proof.
  intros Hm Htr Hc. destruct (ok_data _ _ _ _ Hc) as (rest & Hrest & Hdata).
  destruct (lists_decoded (code_of meth) hs size_text texts rest Htr (ok_lists_size _ _ _ _ Hc)
    (ok_lists _ _ _ _ Hc) Hrest Hdata (ok_data_size _ _ _ _ Hc)) as (_ & _ & Hdec).
  induction n as [|n IH]; intros k flags flags' Hk Hw H; cbn [lists_loop] in H.
  - injection H as <-. split; [done|]. intros i h Hi Hh%lookup_lt_Some. lia.
  - destruct (lookup_lt_is_Some_2 hs k) as [h Hh]; [lia|].
    destruct (Hdec k h dexCatchIteratorClear Hh) as (it1 & it2 & E1 & E2 & _ & _ & E5). rewrite E1 in H.
    cbn [mbind option_bind] in H.
    destruct (list_loop _ it1 flags) as [[[flags1 it3]|]|] eqn:El; [|done..]. cbn [mbind option_bind] in H.
    apply (list_loop_ok _ meth Hm) in El as (Hw1 & hs' & Ehs & Hall); [|done].
    unfold handlers_left in E2. rewrite E2 in Ehs. injection Ehs as <- <-. rewrite E5 in H. cbn [mbind option_bind] in H.
    destruct (IH (S k) flags1 flags' ltac:(lia) Hw1 H) as [Hw' Hrec]. split; [done|].
    intros i h' Hi Hh'. destruct (decide (i = k)) as [->|]; [|apply (Hrec i h'); [lia|done]].
    assert (h' = h) as -> by congruence. done.
Qed.

Lemma scan_ok meth hs size_text texts flags flags' : method_ok meth -> widths_ok meth flags ->
  (triesSize (code_of meth) <> 0 -> catches_ok (code_of meth) hs size_text texts) ->
  scanTryCatchBlocks meth flags = Some (Some flags') ->
  widths_ok meth flags' /\
  (triesSize (code_of meth) <> 0 -> forall h x, h ∈ hs -> x ∈ handlers_of h -> is_start meth (s32 (address x))).
Proof.
  intros Hm Hw Hc. destruct (method_size meth Hm) as (_ & Ecode & _). unfold scanTryCatchBlocks. rewrite Ecode.
  cbn [mbind option_bind]. destruct (Z.eqb_spec (triesSize (code_of meth)) 0) as [E0|Hne]; [by intros [= <-]|].
  destruct (tries_loop _ _ _ _ flags) as [[flags1|]|] eqn:Et; [|done..]. cbn [mbind option_bind].
  apply (tries_loop_ok _ meth Hm) in Et; [|done]. specialize (Hc Hne).
  destruct (ok_data _ _ _ _ Hc) as (rest & Hrest & Hdata).
  destruct (lists_decoded (code_of meth) hs size_text texts rest Hne (ok_lists_size _ _ _ _ Hc)
    (ok_lists _ _ _ _ Hc) Hrest Hdata (ok_data_size _ _ _ _ Hc)) as (-> & -> & _).
  cbn [mbind option_bind]. rewrite Nat2Z.id. intros H.
  apply (lists_loop_ok _ meth hs size_text texts Hm Hne Hc 0) in H as [Hw' Hall]; [|lia|done].
  split; [done|]. intros _ h x [i Hi]%list_elem_of_lookup Hx. by apply (Hall i h ltac:(lia) Hi).
Qed.

(** ** Flow of control

    Where the interpreter goes: on to the next instruction, to the target of a branch, to a
    case of a switch for any value, to a handler of the exceptions the instruction can
    throw. The mark of a data table is a [nop] for it, after which it goes on in the table.
    At the end of the code there is nothing to decode. *)

Definition branch_offset (d : DecodedInstruction) : option Z :=
  f ← dexGetFormatFromOpcode (opcode d);
  match f with
  | kFmt10t | kFmt20t | kFmt30t => Some (s32 (vA d))
  | kFmt21t => Some (s32 (vB d))
  | kFmt22t => Some (s32 (vC d))
  | _ => None
  end.

Definition can (d : DecodedInstruction) (bit : Z) : Prop :=
  exists flags, dexGetFlagsFromOpcode (opcode d) = Some flags /\ has_flag flags bit = true.

Inductive flow (meth : Method) (uninit : DecodedInstruction) (pc : Z) : Z -> Prop :=
  | flow_mark inst d : decoded_at meth uninit pc inst d -> is_signature inst = true -> flow meth uninit pc (pc + 1)
  | flow_next inst d w : decoded_at meth uninit pc inst d -> is_signature inst = false ->
      can d kInstrCanContinue -> insn_width meth pc = Some w ->
      flow meth uninit pc (pc + w)
  | flow_branch inst d off : decoded_at meth uninit pc inst d -> is_signature inst = false ->
      can d kInstrCanBranch -> branch_offset d = Some off ->
      flow meth uninit pc (pc + off)
  | flow_switch inst d table v r : decoded_at meth uninit pc inst d -> is_signature inst = false ->
      can d kInstrCanSwitch -> insns_at meth (pc + s32 (vB d)) = Some table ->
      switch_handler (opcode d =? OP_PACKED_SWITCH) table v = Some r ->
      flow meth uninit pc (pc + branch r)
  | flow_throw inst d it it' hs h : decoded_at meth uninit pc inst d -> is_signature inst = false ->
      can d kInstrCanThrow ->
      dexFindCatchHandler dexCatchIteratorClear (code_of meth) pc = Some (true, it) ->
      handlers_left it = Some (hs, it') -> h ∈ hs ->
      flow meth uninit pc (s32 (address h)).

(** ** Lemmas: the targets *)

Lemma opcode_of_low inst op : inU 16 inst -> dexOpcodeFromCodeUnit inst = op -> op < 0xff ->
  Z.land inst 0xff = op.
Proof.
  unfold dexOpcodeFromCodeUnit. intros Hi. destruct (Z.eqb_spec (Z.land inst 0xff) 0xff) as [E|]; cbn [negb]; [|tauto].
  intros <- Hlt. exfalso. unfold inU in Hi. rewrite Z.shiftr_div_pow2 in Hlt by lia.
  change 256 with (Z.shiftl 1 8) in Hlt. rewrite lor_shiftl_add in Hlt by (lia || dlia).
  pose proof (Z.div_pos inst (2 ^ 8)). lia.
Qed.

Definition branch_opcodes : list Z :=
  [OP_GOTO; OP_GOTO_16; OP_GOTO_32; OP_IF_EQ; OP_IF_NE; OP_IF_LT; OP_IF_GE; OP_IF_GT; OP_IF_LE;
   OP_IF_EQZ; OP_IF_NEZ; OP_IF_LTZ; OP_IF_GEZ; OP_IF_GTZ; OP_IF_LEZ].

(** The opcodes whose flags have a bit. *)
Lemma flagged_opcodes bit (ops : list Z) op fl : dexGetFlagsFromOpcode op = Some fl -> has_flag fl bit = true ->
  forallb (fun op => match dexGetFlagsFromOpcode op with
                     | Some fl => negb (has_flag fl bit) || bool_decide (op ∈ ops) | None => true end)
    (seqZ 0 kNumPackedOpcodes) = true -> op ∈ ops.
Proof.
  intros E Hf H. rewrite forallb_forall in H. specialize (H op). rewrite E, Hf in H. cbn [negb orb] in H.
  apply from_table_packed in E. assert (Hop : In op (seqZ 0 kNumPackedOpcodes)) by (apply list_elem_of_In, elem_of_seqZ; lia).
  specialize (H Hop). by apply bool_decide_eq_true in H.
Qed.

Lemma goto_offset inst : inU 16 inst -> s32 (ext8 (INST_AA inst)) = Z.shiftr (wrapS 16 inst) 8.
Proof.
  unfold inU. intros H. unfold ext8, INST_AA. rewrite wrapS_wrapU, !Z.shiftr_div_pow2 by lia.
  unfold wrapS. change (2 ^ (32 - 1)) with (2 ^ 31). change (2 ^ (16 - 1)) with (2 ^ 15). change (2 ^ (8 - 1)) with (2 ^ 7).
  dlia.
Qed.

Lemma ext16_offset u : s32 (ext16 u) = wrapS 16 u.
Proof.
  unfold ext16. rewrite wrapS_wrapU by lia. apply wrapS_id; [lia|].
  pose proof (wrapS_range 16 ltac:(lia) u) as H. unfold inS in *. lia.
Qed.

(** Decides the tests of closed terms in a hypothesis. *)
Ltac closed_tests E :=
  repeat match type of E with
  | (if ?b then _ else _) = _ => let v := eval vm_compute in b in change b with v in E; cbv iota in E
  end.

(** The operand the interpreter branches by is the offset the verifier looks at. *)
Lemma branch_offset_same meth uninit pc inst d off off' c : method_ok meth ->
  decoded_at meth uninit pc inst d -> opcode d = dexOpcodeFromCodeUnit inst -> can d kInstrCanBranch ->
  branch_offset d = Some off -> dvmGetBranchOffset meth pc = Some (Some (off', c)) -> off = off'.
Proof.
  intros Hm (rest & e & Ep & Ed) Eop (fl & Efl & Hfl) Hoff Eb.
  pose proof (insns_at_units meth pc _ Hm Ep) as Hu. apply Forall_cons_1 in Hu as [Hi _].
  pose proof (flagged_opcodes kInstrCanBranch branch_opcodes (opcode d) fl Efl Hfl ltac:(vm_compute; reflexivity)) as Hin.
  unfold dvmGetBranchOffset in Eb. rewrite Ep in Eb. cbn [FETCH lookup list_lookup mbind option_bind] in Eb.
  assert (Elow : Z.land inst 0xff = opcode d).
  { apply opcode_of_low; [done|done|]. clear -Hin. unfold branch_opcodes in Hin.
    rewrite !elem_of_cons in Hin. destruct_or! Hin; try (rewrite Hin; vm_compute; reflexivity).
    by apply not_elem_of_nil in Hin. }
  rewrite Elow in Eb. unfold dexDecodeInstruction in Ed. cbn [FETCH lookup list_lookup mbind option_bind] in Ed.
  rewrite <- Eop in Ed. unfold branch_offset in Hoff. clear Efl Hfl Elow Eop Ep.
  unfold branch_opcodes in Hin. rewrite !elem_of_cons in Hin.
  destruct_or! Hin; try by apply not_elem_of_nil in Hin.
  all: rewrite Hin in Ed, Hoff, Eb; clear Hin; closed_tests Eb.
  all: match type of Hoff with context [dexGetFormatFromOpcode ?op] =>
    let f := eval vm_compute in (dexGetFormatFromOpcode op) in
    let ix := eval vm_compute in (dexGetIndexTypeFromOpcode op) in
    change (dexGetFormatFromOpcode op) with f in Ed, Hoff;
    change (dexGetIndexTypeFromOpcode op) with ix in Ed end.
  all: cbn [mbind option_bind] in Ed, Hoff; injection Hoff as <-.
  1: injection Eb as <- _; injection Ed as _ <-; by apply goto_offset.
  all: destruct rest as [|f1 rest]; [done|].
  2: destruct rest as [|f2 rest]; [done|].
  all: cbn in Ed, Eb; injection Eb as <- _; injection Ed as _ <-; cbn; try apply ext16_offset.
  done.
Qed.

Lemma branch_offset_decoded meth uninit pc inst d off : method_ok meth ->
  decoded_at meth uninit pc inst d -> opcode d = dexOpcodeFromCodeUnit inst -> can d kInstrCanBranch ->
  branch_offset d = Some off -> branch_ok meth pc -> is_start meth (pc + off).
Proof.
  intros Hm Hd Eop Hc Hoff (off' & c & Eb & Hs). by rewrite (branch_offset_same _ _ _ _ _ _ _ _ Hm Hd Eop Hc Hoff Eb).
Qed.

Definition switch_opcodes : list Z := [OP_PACKED_SWITCH; OP_SPARSE_SWITCH].

Lemma s32_u4 lo hi : inU 16 lo -> inU 16 hi -> s32 (Z.lor lo (u32 (Z.shiftl hi 16))) = s4_of lo hi.
Proof.
  intros Hl Hh. rewrite s4_of_units by done. unfold inU in *.
  rewrite (wrapU_id 32) by (unfold inU; rewrite Z.shiftl_mul_pow2; lia). by rewrite lor_shiftl_add by lia.
Qed.

(** The units of a switch instruction. *)
Lemma switch_units meth uninit pc inst d : method_ok meth -> decoded_at meth uninit pc inst d ->
  opcode d = dexOpcodeFromCodeUnit inst -> is_signature inst = false -> can d kInstrCanSwitch ->
  opcode d ∈ switch_opcodes /\ Z.land inst 0xff = opcode d /\ insn_width meth pc = Some kInstrLen /\
  exists i1 i2 rest, insns_at meth pc = Some (inst :: i1 :: i2 :: rest) /\ s32 (vB d) = s4_of i1 i2.
Proof.
  intros Hm (rest & e & Ep & Ed) Eop Hsig (fl & Efl & Hfl).
  pose proof (insns_at_units meth pc _ Hm Ep) as Hu. apply Forall_cons_1 in Hu as [Hi Hu].
  pose proof (flagged_opcodes kInstrCanSwitch switch_opcodes (opcode d) fl Efl Hfl ltac:(vm_compute; reflexivity)) as Hin.
  assert (Hlow : opcode d < 0xff /\ dexGetFormatFromOpcode (opcode d) = Some kFmt31t /\
    dexGetIndexTypeFromOpcode (opcode d) = Some kIndexNone /\ dexGetWidthFromOpcode (opcode d) = Some 3).
  { unfold switch_opcodes in Hin. rewrite !elem_of_cons in Hin.
    destruct_or! Hin; [rewrite Hin; vm_compute; by split_and!..|by apply not_elem_of_nil in Hin]. }
  destruct Hlow as (Hlow & Ef & Eix & Ew). split; [done|]. split; [by apply opcode_of_low|]. split.
  { unfold insn_width. rewrite Ep. cbn [mbind option_bind]. rewrite width_of_instruction by done. by rewrite <- Eop. }
  unfold dexDecodeInstruction in Ed. cbn [FETCH lookup list_lookup mbind option_bind] in Ed. rewrite <- Eop, Ef, Eix in Ed.
  destruct rest as [|i1 [|i2 rest]]; [done..|]. exists i1, i2, rest. split; [done|].
  apply Forall_cons_1 in Hu as [Hi1 Hu]. apply Forall_cons_1 in Hu as [Hi2 Hu].
  cbn in Ed. injection Ed as _ <-. cbn. by apply s32_u4.
Qed.

(** The interpreter looks at the table the verifier looked at. *)
Lemma switch_decoded meth uninit pc inst d table v r : method_ok meth ->
  decoded_at meth uninit pc inst d -> opcode d = dexOpcodeFromCodeUnit inst -> is_signature inst = false ->
  can d kInstrCanSwitch -> table_ok meth pc ->
  insns_at meth (pc + s32 (vB d)) = Some table ->
  switch_handler (opcode d =? OP_PACKED_SWITCH) table v = Some r ->
  thrown r = false /\
  (branch r = kInstrLen \/ is_start meth (pc + branch r) /\ is_case (opcode d =? OP_PACKED_SWITCH) table (branch r)) /\
  insn_width meth pc = Some kInstrLen.
Proof.
  intros Hm Hd Eop Hsig Hc (p & i0 & i1 & i2 & table' & Ep' & E0 & E1 & E2 & Et' & Hok) Et Er.
  destruct (switch_units _ _ _ _ _ Hm Hd Eop Hsig Hc) as (_ & Hlow & Hw & j1 & j2 & rest & Ep & Hvb).
  assert (p = inst :: j1 :: j2 :: rest) as -> by congruence. injection E0 as ->. injection E1 as ->. injection E2 as ->.
  rewrite Hvb in Et. assert (table' = table) as -> by congruence. rewrite Hlow in Hok.
  destruct (Hok v) as [_ Hr]. by destruct (Hr r Er).
Qed.

(** After an instruction comes another, or the end of the code. *)
Lemma next_start meth pc w n : nth_start meth n = Some (dvmGetMethodInsnsSize meth) -> is_start meth pc ->
  insn_width meth pc = Some w -> is_start meth (pc + w) \/ pc + w = dvmGetMethodInsnsSize meth.
Proof.
  intros Hn [Hlt [m Hm]] Hw.
  pose proof (starts_ordered meth m n pc _ Hm Hn Hlt) as Hmn.
  destruct (nth_start_lt meth m n pc _ Hmn Hm Hn) as (w' & Hw' & H0 & _ & Hle). assert (w' = w) as -> by congruence.
  destruct (Z.lt_ge_cases (pc + w) (dvmGetMethodInsnsSize meth)) as [Hl|]; [left|right; lia].
  split; [done|]. exists (S m). cbn [nth_start]. rewrite Hm. cbn [mbind option_bind]. rewrite Hw. cbn [mbind option_bind].
  by rewrite (proj2 (Z.ltb_lt _ _) Hlt), (proj2 (Z.ltb_lt _ _) H0).
Qed.

Section Guarantees.
Context (calloc_ok : bool) (dvmVerifyCodeFlow : Method -> list Z -> list Z -> option bool).
Context (dex : DvmDex) (uninit : DecodedInstruction) (meth : Method).
Context (hs : list handler_list) (size_text : list Z) (texts : list (list Z)).
Hypothesis Hmeth : method_ok meth.
Hypothesis Hcatches : triesSize (code_of meth) <> 0 -> catches_ok (code_of meth) hs size_text texts.
Hypothesis Haccepted : verifyMethod calloc_ok dvmVerifyCodeFlow dex uninit meth = Some true.

(** What the two passes leave behind. *)
Lemma passes_ok :
  (exists n, nth_start meth n = Some (dvmGetMethodInsnsSize meth)) /\
  (forall pc, is_start meth pc -> instruction_ok meth dex uninit pc) /\
  (triesSize (code_of meth) <> 0 -> forall h x, h ∈ hs -> x ∈ handlers_of h -> is_start meth (s32 (address x))).
Proof using Hmeth Hcatches Haccepted.
  destruct (method_size meth Hmeth) as (_ & _ & Hs). unfold verifyMethod in Haccepted.
  rewrite (proj2 (Z.eqb_neq _ _)) in Haccepted by lia.
  destruct (m_insSize meth >? m_registersSize meth); [done|]. destruct (negb calloc_ok); [done|].
  destruct (computeWidthsAndCountOps meth _) as [[[[flags ni] mi]|]|] eqn:E1; [|done..]. cbn [mbind option_bind] in Haccepted.
  apply widths_computed in E1 as [Hw Hend]; [|done].
  destruct (dvmCreateUninitInstanceMap meth flags ni) as [um|]; [|done]. cbn [mbind option_bind] in Haccepted.
  destruct (scanTryCatchBlocks meth flags) as [[flags1|]|] eqn:E2; [|done..]. cbn [mbind option_bind] in Haccepted.
  apply (scan_ok meth hs size_text texts flags flags1 Hmeth Hw Hcatches) in E2 as [Hw1 Hh].
  destruct (verifyInstructions meth dex uninit flags1) as [[flags2|]|] eqn:E3; [|done..].
  unfold verifyInstructions in E3. destruct (dvmInsnSetBranchTarget flags1 0) as [flags1'|] eqn:E4; [|done].
  cbn [mbind option_bind] in E3. split; [done|]. split; [|done].
  intros pc [Hlt [m Hpc]].
  assert (Hw1' : widths_ok meth flags1') by by eapply set_branch_target_ok.
  apply (verify_loop_ok _ meth dex uninit Hmeth 0%nat 0 flags1' flags2 Hw1' eq_refl ltac:(lia) E3 m pc); [lia|done|done].
Qed.

(** Every step from an instruction that is no mark ends at one, or at the end of the code. *)
Lemma flow_start pc pc' : is_start meth pc -> (forall inst d, decoded_at meth uninit pc inst d -> is_signature inst = false) ->
  flow meth uninit pc pc' ->
  is_start meth pc' \/ pc' = dvmGetMethodInsnsSize meth.
Proof using Hmeth Hcatches Haccepted.
  destruct passes_ok as ((n & Hn) & Hall & Hh). intros Hpc Hplain Hflow.
  destruct (Hall pc Hpc) as (inst & d & nd & (rest & e & Ep & Ed) & Eop & Hnd & Hok).
  assert (Hdet : forall inst' d', decoded_at meth uninit pc inst' d' -> inst' = inst /\ d' = d).
  { intros inst' d' (rest' & e' & Ep' & Ed'). split; congruence. }
  assert (Hflag : forall bit, can d bit -> exists fl, dexGetFlagsFromOpcode (opcode d) = Some fl /\ has_flag fl bit = true) by done.
  assert (Hneeds : forall fl, dexGetFlagsFromOpcode (opcode d) = Some fl ->
    n_branch nd = has_flag fl kInstrCanBranch /\ n_switch nd = has_flag fl kInstrCanSwitch).
  { intros fl Efl. unfold needs_of in Hnd. destruct (dexGetFormatFromOpcode (opcode d)) as [f|]; [|done].
    destruct (dexGetIndexTypeFromOpcode (opcode d)) as [ix|]; [|done]. rewrite Efl in Hnd. cbn [mbind option_bind] in Hnd.
    destruct (regs_of_format f); [|done]. by injection Hnd as <-. }
  destruct Hflow as [inst' d' Hat Hsig|inst' d' w Hat Hsig Hcan Hw|inst' d' off Hat Hsig Hcan Hoff|inst' d' table v r Hat Hsig Hcan Ht Hr|inst' d' it it' l h Hat Hsig Hcan Hf Hl Hin];
    destruct (Hdet _ _ Hat) as [-> ->].
  - by rewrite (Hplain _ _ Hat) in Hsig.
  - by apply (next_start meth pc w n).
  - left. destruct Hcan as (fl & Efl & Hfl). destruct (Hneeds fl Efl) as [Hb _].
    apply (branch_offset_decoded meth uninit pc inst d off); [done|done|done|by exists fl|done|].
    apply (op_branch _ _ _ _ _ Hok). congruence.
  - destruct Hcan as (fl & Efl & Hfl). destruct (Hneeds fl Efl) as [_ Hb].
    destruct (switch_decoded meth uninit pc inst d table v r) as (_ & Hbr & Hw); try done.
    { by exists fl. } { apply (op_switch _ _ _ _ _ Hok). congruence. }
    destruct Hbr as [->|[? _]]; [|by left]. by apply (next_start meth pc kInstrLen n).
  - left. destruct (decide (triesSize (code_of meth) = 0)) as [E0|Hne].
    { unfold dexFindCatchHandler in Hf. by rewrite E0 in Hf. }
    specialize (Hcatches Hne). rewrite (find_handler_spec _ _ _ (ok_tries _ _ _ _ Hcatches)) in Hf.
    destruct (covering pc (tries (code_of meth))) as [t|] eqn:Ecov; [|done].
    apply find_some in Ecov as [Htin _]. apply list_elem_of_In in Htin.
    destruct (ok_offsets _ _ _ _ Hcatches t Htin) as (i & hl & Hi & Eoff). rewrite Eoff in Hf.
    destruct (ok_data _ _ _ _ Hcatches) as (rest' & Hrest & Hdata).
    destruct (lists_decoded (code_of meth) hs size_text texts rest' Hne (ok_lists_size _ _ _ _ Hcatches)
      (ok_lists _ _ _ _ Hcatches) Hrest Hdata (ok_data_size _ _ _ _ Hcatches)) as (_ & _ & Hdec).
    destruct (Hdec i hl dexCatchIteratorClear Hi) as (it1 & it2 & Einit & Ehl & _). rewrite Einit in Hf.
    cbn [mbind option_bind] in Hf. injection Hf as <-. rewrite Ehl in Hl. injection Hl as <- _.
    apply (Hh Hne hl h); [|done]. apply list_elem_of_lookup. by exists i.
Qed.

End Guarantees.

(** A method with the code at an offset of a dex file, as [loadMethodFromDex] of
    [Class.cpp] sets it up. The documents of the format bound the code of a method. *)
Record loaded_from (state : CheckState) (item : Z) (meth : Method) : Prop := {
  loaded_code : code_at state item = Some (code_of meth);
  loaded_registers : m_registersSize meth = registersSize (code_of meth);
  loaded_bytecode : dvmIsNativeMethod meth || dvmIsAbstractMethod meth = false;
  loaded_bound : insnsSize (code_of meth) < 2 ^ 16
}.

(** What both verifiers accept is a method the lemmas above apply to. *)
Lemma accepted_method calloc_ok dvmVerifyCodeFlow dex uninit meth state item e :
  Forall is_byte (file state) -> fileLen state < 2 ^ 32 -> swapCodeItem state item = Some (Some e) ->
  loaded_from state item meth -> verifyMethod calloc_ok dvmVerifyCodeFlow dex uninit meth = Some true ->
  method_ok meth /\ exists hs size_text texts,
    triesSize (code_of meth) <> 0 -> catches_ok (code_of meth) hs size_text texts.
Proof.
  intros Hf Hlen Hswap Hl Hv. pose proof (loaded_bytecode _ _ _ Hl) as Hb.
  destruct (code_item_ok state item e Hf Hlen Hswap) as (pCode & Ec & Hok & _).
  assert (pCode = code_of meth) as -> by (pose proof (loaded_code _ _ _ Hl); congruence). split.
  - split; [done|by apply code_size|split; [|by eapply loaded_bound]|by apply code_units|].
    2: { rewrite (loaded_registers _ _ _ Hl). by apply code_registers. }
    rewrite (code_size _ Hok). enough (insnsSize (code_of meth) <> 0) by (rewrite (code_size _ Hok) in *; lia).
    intros E0. unfold verifyMethod, dvmGetMethodInsnsSize, dvmGetMethodCode in Hv. rewrite Hb, E0 in Hv.
    by destruct (orb_false_elim _ _ Hb) as [E1 E2]; rewrite E1, E2 in Hv.
  - destruct (decide (triesSize (code_of meth) = 0)) as [E0|Hne]; [by exists [], [], []|].
    destruct (code_catches _ Hok Hne) as (hs & size_text & texts & Hc & _). by exists hs, size_text, texts.
Qed.

(** ** Properties *)

(** C22. Every instruction of a method both verifiers accept (its code item in the dex
    file, then its instructions) has its operands in order. Its registers are below the
    count of registers, and so are both registers of an operand that is a [long] or a
    [double] by the name of the opcode; but an argument in a list may be one past the last
    register. The string, type, field or method it names is in the tables of the file;
    the type of a [new-instance] is named as a class, that of a [new-array] as an array of
    at most 255 dimensions. A branch ends at the start of an instruction; the table of a
    switch is a well-formed table inside the code whose every target starts an
    instruction; the data of an array starts inside the code, aligned, and ends there
    where their size in bytes is one of 32 bits. The third pass may be anything. *)
Theorem verified_operands calloc_ok dvmVerifyCodeFlow dex uninit meth state item e :
  Forall is_byte (file state) -> fileLen state < 2 ^ 32 -> swapCodeItem state item = Some (Some e) ->
  loaded_from state item meth -> verifyMethod calloc_ok dvmVerifyCodeFlow dex uninit meth = Some true ->
  forall pc, is_start meth pc -> instruction_ok meth dex uninit pc.
Proof.
  intros Hf Hlen Hswap Hl Hv.
  destruct (accepted_method _ _ _ _ _ _ _ _ Hf Hlen Hswap Hl Hv) as (Hm & hs & size_text & texts & Hc).
  by destruct (passes_ok _ _ _ _ _ _ _ _ Hm Hc Hv) as (_ & Hall & _).
Qed.

(** ** Witnesses *)

(** [const/4], [packed-switch] to either of the next two, [div-int/lit8] in a try
    block, [return-void], the handler, [nop], the table. *)
Definition ex_meth : Method :=
  MkMethod 1 0 false false false 4096
    (MkDexCode 1 0 0 1 0 18
      [0x1012; 0x002b; 9; 0; 0x00db; 0x0100; 0x000e; 0x000d; 0x000e; 0;
       0x0100; 2; 0; 0; 3; 0; 5; 0]
      [MkDexTry 4 2 1] [1; 0; 7]).

Definition ex_dex : DvmDex := MkDvmDex 0 0 0 0 (fun _ => []).
Definition ex_uninit : DecodedInstruction := DI 0 0 0 0 [0; 0; 0; 0; 0] 0 kIndexUnknown.
Definition ex_flow : Method -> list Z -> list Z -> option bool := fun _ _ _ => Some true.

(** The same code in a file of its own. *)
Lemma ex_loaded : loaded_from ex_state 0 ex_meth.
Proof. split; vm_compute; reflexivity. Qed.

Lemma ex_file : Forall is_byte (file ex_state) /\ fileLen ex_state < 2 ^ 32.
Proof. split; [apply (bool_decide_unpack _); vm_compute; exact I|vm_compute; reflexivity]. Qed.

Lemma ex_swapped : swapCodeItem ex_state 0 = Some (Some 63).
Proof. vm_compute. reflexivity. Qed.

Lemma ex_accepted : verifyMethod true ex_flow ex_dex ex_uninit ex_meth = Some true.
Proof. vm_compute. reflexivity. Qed.

Lemma verified_operands_witness : instruction_ok ex_meth ex_dex ex_uninit 1.
Proof.
  apply (verified_operands true ex_flow ex_dex ex_uninit ex_meth ex_state 0 63
    (proj1 ex_file) (proj2 ex_file) ex_swapped ex_loaded ex_accepted).
  split; [reflexivity|]. exists 1%nat. vm_compute. reflexivity.
Defined.

Ltac decoded := eexists _, _; split; [vm_compute; reflexivity|]; vm_compute; reflexivity.

Lemma ex_flow_handler : rtc (flow ex_meth ex_uninit) 0 7.
Proof.
  apply (rtc_l _ _ 1).
  { apply (flow_next _ _ 0 0x1012 (DI 0 1 0 0 [0; 0; 0; 0; 0] 0x12 kIndexNone) 1).
    - decoded.
    - reflexivity.
    - eexists. split; vm_compute; reflexivity.
    - vm_compute. reflexivity. }
  apply (rtc_l _ _ 4).
  { apply (flow_switch _ _ 1 0x2b (DI 0 9 0 0 [0; 0; 0; 0; 0] 0x2b kIndexNone)
      [0x0100; 2; 0; 0; 3; 0; 5; 0] 0 (SwitchEnd 3 false)).
    - decoded.
    - reflexivity.
    - eexists. split; vm_compute; reflexivity.
    - vm_compute. reflexivity.
    - vm_compute. reflexivity. }
  apply rtc_once.
  refine (flow_throw _ _ 4 0xdb (DI 0 0 0 1 [0; 0; 0; 0; 0] 0xdb kIndexNone) _ _
    [MkHandler kDexNoIndex 7] (MkHandler kDexNoIndex 7) _ _ _ _ _ _).
  - decoded.
  - reflexivity.
  - eexists. split; vm_compute; reflexivity.
  - vm_compute. reflexivity.
  - vm_compute. reflexivity.
  - by apply list_elem_of_singleton.
Qed.

(** ** What is let through *)

Definition plain_meth (registers : Z) (units : list Z) : Method :=
  MkMethod registers 0 false false false 4096
    (MkDexCode registers 0 0 0 0 (Z.of_nat (length units)) units [] []).

(** A call with the register after the last for its argument. *)
Lemma argument_past_last_accepted :
  verifyMethod true ex_flow (MkDvmDex 0 0 0 1 (fun _ => [])) ex_uninit
    (plain_meth 1 [0x1071; 0; 1; 0x000e]) = Some true /\
  aref [1] 0 = Some (m_registersSize (plain_meth 1 [0x1071; 0; 1; 0x000e])).
Proof. split; vm_compute; reflexivity. Qed.

(** Array data for 2^31 elements of two bytes, in four units. *)
Lemma array_data_wraps :
  verifyMethod true ex_flow ex_dex ex_uninit
    (plain_meth 1 [0x0026; 4; 0; 0x000e; 0x0300; 2; 0; 0x8000]) = Some true.
Proof. vm_compute. reflexivity. Qed.

(** A table so long that the address after it is negative: the next unit is read
    before the code. *)
Lemma array_data_before_code :
  verifyMethod true ex_flow ex_dex ex_uninit (plain_meth 1 [0x0300; 1; 0xfffc; 0xffff]) = None.
Proof. vm_compute. reflexivity. Qed.

(** A switch without cases, for which the interpreter asserts that there are some. *)
Lemma empty_switch_accepted :
  verifyMethod true ex_flow ex_dex ex_uninit
    (plain_meth 1 [0x000e; 0x002b; 7; 0; 0x000e; 0; 0; 0; 0x0100; 0; 0; 0]) = Some true.
Proof. vm_compute. reflexivity. Qed.

(** The difference from the least [int] is not an [int]. *)
Lemma packed_difference_overflows : switch_handler true [0x0100; 1; 0; 0x8000; 3; 0] 0 = None.
Proof. vm_compute. reflexivity. Qed.
