(* ===== verification/RegLine.v ===== *)
(** * Register lines: the register operations of [dalvik/vm/analysis/CodeVerify.cpp]

    What the verifier knows of all registers at an instruction, and the operations that
    check and set the types of registers. [None] is an access outside an array, an
    abort, or a failed assertion; failures of the verification are error numbers. *)

From stdpp Require Import gmap.
From S2P Require Import Prelude Bits Search DexFile TypeCheck RegTypes RegMerge InstrUtils.

(** ** Errors: [DexPrepare.h] *)

Definition VERIFY_ERROR_NONE : Z := 0.
Definition VERIFY_ERROR_GENERIC : Z := 1.
Definition VERIFY_ERROR_NO_CLASS : Z := 2.
Definition VERIFY_ERROR_NO_FIELD : Z := 3.
Definition VERIFY_ERROR_NO_METHOD : Z := 4.
Definition VERIFY_ERROR_ACCESS_CLASS : Z := 5.
Definition VERIFY_ERROR_ACCESS_FIELD : Z := 6.
Definition VERIFY_ERROR_ACCESS_METHOD : Z := 7.
Definition VERIFY_ERROR_CLASS_CHANGE : Z := 8.
Definition VERIFY_ERROR_INSTANTIATION : Z := 9.

Definition VERIFY_OK (failure : Z) : bool := failure =? VERIFY_ERROR_NONE.

(** ** Data: [CodeVerify.h] *)

Definition kMaxMonitorStackDepth : Z := 32.

(** [monitorEntries] is [NULL] where monitors are not followed. *)
Record RegisterLine := MkLine {
  regTypes : list Z;
  monitorEntries : option (list Z);
  monitorStack : list Z;
  monitorStackTop : Z
}.

Definition with_types (types : list Z) (line : RegisterLine) : RegisterLine :=
  MkLine types (monitorEntries line) (monitorStack line) (monitorStackTop line).

Definition with_entries (entries : option (list Z)) (line : RegisterLine) : RegisterLine :=
  MkLine (regTypes line) entries (monitorStack line) (monitorStackTop line).

Record UninitEntry := MkUninit { addr : Z; clazz : Z }.

Definition kUninitThisArgAddr : Z := -1.
Definition kUninitThisArgSlot : Z := 0.

Definition UninitInstanceMap : Set := list UninitEntry.

Inductive TypeCategory := kTypeCategoryUnknown | kTypeCategory1nr | kTypeCategory2 | kTypeCategoryRef.

#[export] Instance TypeCategory_eq_dec : EqDecision TypeCategory.
Proof. solve_decision. Defined.

Section Operations.
Context (NDEBUG : bool) (classes : gmap Z ClassObject) (fuel : nat).

(** ** Uninitialized instances *)

(** From the last entry down; the index is -1 if the address is listed with another
    class. *)
Fixpoint setUninit_from (n : nat) (uninitMap : UninitInstanceMap) (a c : Z) : option (UninitInstanceMap * Z) :=
  match n with
  | O => asserted NDEBUG false (Some (uninitMap, -1))
  | S n =>
      e ← uninitMap !! n;
      if addr e =? a then
        if negb (clazz e =? 0) && negb (clazz e =? c) then Some (uninitMap, -1)
        else Some (<[n := MkUninit (addr e) c]> uninitMap, Z.of_nat n)
      else setUninit_from n uninitMap a c
  end.

Definition setUninitInstance (uninitMap : UninitInstanceMap) (a c : Z) : option (UninitInstanceMap * Z) :=
  setUninit_from (length uninitMap) uninitMap a c.

Definition getUninitInstance (uninitMap : UninitInstanceMap) (idx : Z) : option Z :=
  e ← aref uninitMap idx; Some (clazz e).

Definition regTypeReferenceToClass (type : Z) (uninitMap : UninitInstanceMap) : option Z :=
  if regTypeIsReference type && negb (type =? kRegTypeZero) then
    if regTypeIsUninitReference type then
      idx ← regTypeToUninitIndex type; getUninitInstance uninitMap idx
    else Some type
  else None.

(** ** Reading registers *)

Definition getRegisterType (line : RegisterLine) (vsrc : Z) : option Z := aref (regTypes line) vsrc.

Definition getClassFromRegister (line : RegisterLine) (vsrc failure : Z) : option (Z * Z) :=
  type ← getRegisterType line vsrc;
  if type =? kRegTypeZero then Some (0, failure)
  else if negb (regTypeIsReference type) then Some (0, VERIFY_ERROR_GENERIC)
  else if regTypeIsUninitReference type then Some (0, VERIFY_ERROR_GENERIC)
  else clazz ← regTypeInitializedReferenceToClass type; Some (clazz, failure).

Definition getInvocationThis (line : RegisterLine) (pDecInsn : DecodedInstruction) (failure : Z) : option (Z * Z) :=
  if vA pDecInsn <? 1 then Some (kRegTypeUnknown, VERIFY_ERROR_GENERIC)
  else
    thisType ← getRegisterType line (vC pDecInsn);
    if negb (regTypeIsReference thisType) then Some (thisType, VERIFY_ERROR_GENERIC)
    else Some (thisType, failure).

(** ** Setting registers *)

(** [monitorEntries[vdst] = bits], where there are any. *)
Definition set_entry (line : RegisterLine) (vdst bits : Z) : option RegisterLine :=
  match monitorEntries line with
  | None => Some line
  | Some entries => entries ← aset entries vdst bits; Some (with_entries (Some entries) line)
  end.

Definition is_low (type : Z) : bool :=
  (type =? kRegTypeConstLo) || (type =? kRegTypeLongLo) || (type =? kRegTypeDoubleLo).
Definition is_high (type : Z) : bool :=
  (type =? kRegTypeConstHi) || (type =? kRegTypeLongHi) || (type =? kRegTypeDoubleHi).

Definition setRegisterType (line : RegisterLine) (vdst newType : Z) : option RegisterLine :=
  let insnRegs := regTypes line in
  insnRegs ←
    (if (newType =? kRegTypeUnknown) || (newType =? kRegTypeUninit) ||
        (kRegType1nrSTART <=? newType) && (newType <=? kRegType1nrEND) then aset insnRegs vdst newType
     else if is_low newType then
       insnRegs ← aset insnRegs vdst newType; aset insnRegs (u32 (vdst + 1)) (newType + 1)
     else if is_high newType then None
     else if newType =? kRegTypeConflict then None
     else if regTypeIsReference newType then aset insnRegs vdst newType
     else None);
  set_entry (with_types insnRegs line) vdst 0.

Definition verifyRegisterType (line : RegisterLine) (vsrc checkType failure : Z) : option (RegisterLine * Z) :=
  srcType ← getRegisterType line vsrc;
  if bool_decide (checkType ∈ [kRegTypeFloat; kRegTypeBoolean; kRegTypePosByte; kRegTypeByte; kRegTypePosShort;
                               kRegTypeShort; kRegTypeChar; kRegTypeInteger]) then
    ok ← canConvertTo1nr srcType checkType;
    if negb ok then Some (line, VERIFY_ERROR_GENERIC)
    else
      line ← setRegisterType line vsrc (if checkType =? kRegTypeFloat then checkType else constTypeToRegType srcType);
      Some (line, failure)
  else if (checkType =? kRegTypeLongLo) || (checkType =? kRegTypeDoubleLo) then
    high ← getRegisterType line (u32 (vsrc + 1));
    if negb (high =? u32 (srcType + 1)) then Some (line, VERIFY_ERROR_GENERIC)
    else if negb (canConvertTo2 srcType checkType) then Some (line, VERIFY_ERROR_GENERIC)
    else
      line ← (if srcType =? kRegTypeConstLo then setRegisterType line vsrc checkType else Some line);
      Some (line, failure)
  else if bool_decide (checkType ∈ [kRegTypeConstLo; kRegTypeConstHi; kRegTypeLongHi; kRegTypeDoubleHi; kRegTypeZero;
                                    kRegTypeOne; kRegTypeUnknown; kRegTypeConflict]) then
    asserted NDEBUG false (Some (line, VERIFY_ERROR_GENERIC))
  else if negb (regTypeIsReference checkType) then asserted NDEBUG false (Some (line, VERIFY_ERROR_GENERIC))
  else if regTypeIsUninitReference checkType then Some (line, VERIFY_ERROR_GENERIC)
  else if negb (regTypeIsReference srcType) then Some (line, VERIFY_ERROR_GENERIC)
  else if regTypeIsUninitReference srcType then Some (line, VERIFY_ERROR_GENERIC)
  else if srcType =? kRegTypeZero then Some (line, failure)
  else
    srcClass ← regTypeInitializedReferenceToClass srcType;
    checkClass ← regTypeInitializedReferenceToClass checkType;
    k ← classes !! checkClass;
    if dvmIsInterfaceClass k then Some (line, failure)
    else
      b ← dvmInstanceof classes fuel srcClass checkClass;
      Some (line, if (b : bool) then failure else VERIFY_ERROR_GENERIC).

(** [RESULT_REGISTER]: the register after the last one of the method. *)
Definition setResultRegisterType (line : RegisterLine) (insnRegCount newType : Z) : option RegisterLine :=
  setRegisterType line insnRegCount newType.

(** [initType] for [uninitType] in the first [insnRegCount] registers. *)
Definition replace_types (line : RegisterLine) (insnRegCount : Z) (uninitType initType : Z) : list Z :=
  let f t := if t =? uninitType then initType else t in
  (f <$> take (Z.to_nat insnRegCount) (regTypes line)) ++ drop (Z.to_nat insnRegCount) (regTypes line).

Definition markRefsAsInitialized (line : RegisterLine) (insnRegCount : Z) (uninitMap : UninitInstanceMap)
    (uninitType failure : Z) : option (RegisterLine * Z) :=
  idx ← regTypeToUninitIndex uninitType;
  clazz ← getUninitInstance uninitMap idx;
  if clazz =? 0 then Some (line, VERIFY_ERROR_GENERIC)
  else
    let changed := existsb (fun t => t =? uninitType) (take (Z.to_nat insnRegCount) (regTypes line)) in
    asserted NDEBUG changed
      (Some (with_types (replace_types line insnRegCount uninitType (regTypeFromClass clazz)) line, failure)).

(** The bits of the registers that hold [uninitType] are cleared. *)
Definition clear_entries (line : RegisterLine) (insnRegCount uninitType : Z) : option (list Z) :=
  entries ← monitorEntries line;
  Some (imap (fun i bits =>
    if (Z.of_nat i <? insnRegCount) && bool_decide (regTypes line !! i = Some uninitType) then 0 else bits) entries).

Definition markUninitRefsAsInvalid (line : RegisterLine) (insnRegCount uninitType : Z) : RegisterLine :=
  with_entries (clear_entries line insnRegCount uninitType)
    (with_types (replace_types line insnRegCount uninitType kRegTypeConflict) line).

(** ** Checks and copies *)

Definition checkTypeCategory (type : Z) (cat : TypeCategory) (failure : Z) : option Z :=
  match cat with
  | kTypeCategory1nr =>
      Some (if (kRegTypeZero <=? type) && (type <=? kRegTypeFloat) then failure else VERIFY_ERROR_GENERIC)
  | kTypeCategory2 => Some (if is_low type then failure else VERIFY_ERROR_GENERIC)
  | kTypeCategoryRef =>
      Some (if negb (type =? kRegTypeZero) && negb (regTypeIsReference type) then VERIFY_ERROR_GENERIC else failure)
  | kTypeCategoryUnknown => asserted NDEBUG false (Some VERIFY_ERROR_GENERIC)
  end.

Definition checkWidePair (typel typeh failure : Z) : Z :=
  if negb (typeh =? u32 (typel + 1)) then VERIFY_ERROR_GENERIC else failure.

Definition copyRegister1 (line : RegisterLine) (vdst vsrc : Z) (cat : TypeCategory) (failure : Z) :
    option (RegisterLine * Z) :=
  asserted NDEBUG (bool_decide (cat = kTypeCategory1nr \/ cat = kTypeCategoryRef)) (
    type ← getRegisterType line vsrc;
    failure ← checkTypeCategory type cat failure;
    if negb (VERIFY_OK failure) then Some (line, failure)
    else
      line ← setRegisterType line vdst type;
      line ← (match cat, monitorEntries line with
              | kTypeCategoryRef, Some entries => bits ← aref entries vsrc; set_entry line vdst bits
              | _, _ => Some line
              end);
      Some (line, failure)).

Definition copyRegister2 (line : RegisterLine) (vdst vsrc failure : Z) : option (RegisterLine * Z) :=
  typel ← getRegisterType line vsrc;
  typeh ← getRegisterType line (u32 (vsrc + 1));
  failure ← checkTypeCategory typel kTypeCategory2 failure;
  let failure := checkWidePair typel typeh failure in
  if negb (VERIFY_OK failure) then Some (line, failure)
  else line ← setRegisterType line vdst typel; Some (line, failure).

Definition copyResultRegister1 (line : RegisterLine) (insnRegCount vdst : Z) (cat : TypeCategory) (failure : Z) :
    option (RegisterLine * Z) :=
  asserted NDEBUG (vdst <? insnRegCount) (
    let vsrc := insnRegCount in
    type ← getRegisterType line vsrc;
    failure ← checkTypeCategory type cat failure;
    if negb (VERIFY_OK failure) then Some (line, failure)
    else
      line ← setRegisterType line vdst type;
      line ← setRegisterType line vsrc kRegTypeUnknown;
      Some (line, failure)).

Definition copyResultRegister2 (line : RegisterLine) (insnRegCount vdst failure : Z) : option (RegisterLine * Z) :=
  asserted NDEBUG (vdst <? insnRegCount) (
    let vsrc := insnRegCount in
    typel ← getRegisterType line vsrc;
    typeh ← getRegisterType line (u32 (vsrc + 1));
    failure ← checkTypeCategory typel kTypeCategory2 failure;
    let failure := checkWidePair typel typeh failure in
    if negb (VERIFY_OK failure) then Some (line, failure)
    else
      line ← setRegisterType line vdst typel;
      line ← setRegisterType line vsrc kRegTypeUnknown;
      line ← setRegisterType line (u32 (vsrc + 1)) kRegTypeUnknown;
      Some (line, failure)).

Definition checkUnop (line : RegisterLine) (pDecInsn : DecodedInstruction) (dstType srcType failure : Z) :
    option (RegisterLine * Z) :=
  '(line, failure) ← verifyRegisterType line (vB pDecInsn) srcType failure;
  line ← setRegisterType line (vA pDecInsn) dstType;
  Some (line, failure).

Definition is_boolean (type : Z) : bool :=
  (type =? kRegTypeBoolean) || (type =? kRegTypeZero) || (type =? kRegTypeOne).

Definition upcastBooleanOp (line : RegisterLine) (reg1 reg2 : Z) : option bool :=
  type1 ← getRegisterType line reg1;
  type2 ← getRegisterType line reg2;
  Some (is_boolean type1 && is_boolean type2).

Definition checkLitop (line : RegisterLine) (pDecInsn : DecodedInstruction) (dstType srcType : Z)
    (checkBooleanOp : bool) (failure : Z) : option (RegisterLine * Z) :=
  '(line, failure) ← verifyRegisterType line (vB pDecInsn) srcType failure;
  dstType ←
    (if VERIFY_OK failure && checkBooleanOp then
       asserted NDEBUG (dstType =? kRegTypeInteger) (
         b ← upcastBooleanOp line (vB pDecInsn) (vB pDecInsn);
         Some (if b && ((vC pDecInsn =? 0) || (vC pDecInsn =? 1)) then kRegTypeBoolean else dstType))
     else Some dstType);
  line ← setRegisterType line (vA pDecInsn) dstType;
  Some (line, failure).

Definition checkBinop (line : RegisterLine) (pDecInsn : DecodedInstruction) (dstType srcType1 srcType2 : Z)
    (checkBooleanOp : bool) (failure : Z) : option (RegisterLine * Z) :=
  '(line, failure) ← verifyRegisterType line (vB pDecInsn) srcType1 failure;
  '(line, failure) ← verifyRegisterType line (vC pDecInsn) srcType2 failure;
  dstType ←
    (if VERIFY_OK failure && checkBooleanOp then
       asserted NDEBUG (dstType =? kRegTypeInteger) (
         b ← upcastBooleanOp line (vB pDecInsn) (vC pDecInsn);
         Some (if (b : bool) then kRegTypeBoolean else dstType))
     else Some dstType);
  line ← setRegisterType line (vA pDecInsn) dstType;
  Some (line, failure).

Definition checkBinop2addr (line : RegisterLine) (pDecInsn : DecodedInstruction) (dstType srcType1 srcType2 : Z)
    (checkBooleanOp : bool) (failure : Z) : option (RegisterLine * Z) :=
  '(line, failure) ← verifyRegisterType line (vA pDecInsn) srcType1 failure;
  '(line, failure) ← verifyRegisterType line (vB pDecInsn) srcType2 failure;
  dstType ←
    (if VERIFY_OK failure && checkBooleanOp then
       asserted NDEBUG (dstType =? kRegTypeInteger) (
         b ← upcastBooleanOp line (vA pDecInsn) (vB pDecInsn);
         Some (if (b : bool) then kRegTypeBoolean else dstType))
     else Some dstType);
  line ← setRegisterType line (vA pDecInsn) dstType;
  Some (line, failure).

(** [isInit]: the method is a constructor. *)
Definition checkConstructorReturn (isInit : bool) (line : RegisterLine) (insnRegCount : Z) : bool :=
  if negb isInit then true
  else negb (existsb (fun t => t =? regTypeFromUninitIndex kUninitThisArgSlot)
               (take (Z.to_nat insnRegCount) (regTypes line))).

Definition checkArrayIndexType (regType failure : Z) : option Z :=
  if VERIFY_OK failure then
    failure ← checkTypeCategory regType kTypeCategory1nr failure;
    Some (if regType =? kRegTypeFloat then VERIFY_ERROR_GENERIC else failure)
  else Some failure.

(** ** Monitors *)

(** [1 << monitorStackTop] in 32 bits. *)
Definition stack_bit (top : Z) : Z := u32 (Z.shiftl 1 top).

Definition handleMonitorEnter (workLine : RegisterLine) (regIdx insnIdx failure : Z) : option (RegisterLine * Z) :=
  type ← getRegisterType workLine regIdx;
  if negb (regTypeIsReference type) then Some (workLine, VERIFY_ERROR_GENERIC)
  else
    match monitorEntries workLine with
    | None => Some (workLine, failure)
    | Some entries =>
        if monitorStackTop workLine =? kMaxMonitorStackDepth then Some (workLine, VERIFY_ERROR_GENERIC)
        else
          bits ← aref entries regIdx;
          entries ← aset entries regIdx (Z.lor bits (stack_bit (monitorStackTop workLine)));
          stack ← aset (monitorStack workLine) (monitorStackTop workLine) insnIdx;
          Some (MkLine (regTypes workLine) (Some entries) stack (u32 (monitorStackTop workLine + 1)), failure)
    end.

Definition handleMonitorExit (workLine : RegisterLine) (regIdx failure : Z) : option (RegisterLine * Z) :=
  type ← getRegisterType workLine regIdx;
  if negb (regTypeIsReference type) then Some (workLine, VERIFY_ERROR_GENERIC)
  else
    match monitorEntries workLine with
    | None => Some (workLine, failure)
    | Some entries =>
        if monitorStackTop workLine =? 0 then Some (workLine, VERIFY_ERROR_GENERIC)
        else
          let top := monitorStackTop workLine - 1 in
          stack ← aset (monitorStack workLine) top 0;
          bits ← aref entries regIdx;
          entries ← aset entries regIdx (Z.ldiff bits (stack_bit top));
          Some (MkLine (regTypes workLine) (Some entries) stack top, failure)
    end.

End Operations.
