(* ===== verification/Signatures.v ===== *)
(** * Signatures: prototypes of [dalvik/libdex/DexProto.cpp], and the signature operations
    of [dalvik/vm/analysis/CodeVerify.cpp]

    The types of the arguments and the result of methods, read from their descriptors:
    those a method starts with, and those an invocation is checked against. Strings are
    lists of the characters before their end. *)

From stdpp Require Import gmap.
From S2P Require Import Prelude Bits Search DexFile TypeCheck RegTypes RegMerge InstrUtils RegLine.

(** ** Prototypes *)

(** The descriptors of the parameters and of the result. *)
Record DexProto := MkProto { parameters : list (list Z); dexProtoGetReturnType : list Z }.

Definition dexProtoGetMethodDescriptor (proto : DexProto) : list Z :=
  [40] ++ concat (parameters proto) ++ [41] ++ dexProtoGetReturnType proto.

Definition dexProtoCopyMethodDescriptor (proto : DexProto) : list Z := dexProtoGetMethodDescriptor proto.

(** The character at an index; 0 at the end. *)
Definition char_at (s : list Z) (i : nat) : Z := nth i s 0.

(** ** Methods: [oo/Object.h], [oo/Resolve.h] *)

Definition ACC_PRIVATE : Z := 0x00000002.
Definition ACC_STATIC : Z := 0x00000008.

Record MethodInfo := MkMethodInfo {
  m_clazz : Z;
  m_accessFlags : Z;
  m_methodIndex : Z;
  m_outsSize : Z;
  m_name : list Z;
  m_prototype : DexProto
}.

Inductive MethodType := METHOD_UNKNOWN | METHOD_DIRECT | METHOD_STATIC | METHOD_VIRTUAL | METHOD_INTERFACE.

#[export] Instance MethodType_eq_dec : EqDecision MethodType.
Proof. solve_decision. Defined.

Definition dvmIsPrivateMethod (method : MethodInfo) : bool := negb (Z.land (m_accessFlags method) ACC_PRIVATE =? 0).
Definition dvmIsStaticMethod (method : MethodInfo) : bool := negb (Z.land (m_accessFlags method) ACC_STATIC =? 0).
Definition dvmIsConstructorMethod (method : MethodInfo) : bool := char_at (m_name method) 0 =? 60.
Definition dvmIsDirectMethod (method : MethodInfo) : bool :=
  dvmIsPrivateMethod method || dvmIsStaticMethod method || dvmIsConstructorMethod method.

(** The name is [<init>]. *)
Definition isInitMethod (meth : MethodInfo) : bool :=
  (char_at (m_name meth) 0 =? 60) && bool_decide (drop 1 (m_name meth) = [105; 110; 105; 116; 62]).

Definition isCorrectInvokeKind (methodType : MethodType) (resMethod : MethodInfo) : bool :=
  match methodType with
  | METHOD_DIRECT => dvmIsDirectMethod resMethod
  | METHOD_STATIC => dvmIsStaticMethod resMethod
  | METHOD_VIRTUAL | METHOD_INTERFACE => negb (dvmIsDirectMethod resMethod)
  | METHOD_UNKNOWN => false
  end.

Section Signatures.
Context (NDEBUG : bool) (classes : gmap Z ClassObject) (fuel : nat).

(** The class of a descriptor as the loader of the method finds it, or 0; the class
    [java.lang.Object]; the number of entries in the virtual table of a class. *)
Context (dvmFindClassNoInit : list Z -> Z) (classJavaLangObject : Z) (vtableCount : Z -> Z).

(** ** Classes in signatures *)

(** ["[Ljava/lang/Object;"] *)
Definition object_array_descriptor : list Z :=
  [91; 76; 106; 97; 118; 97; 47; 108; 97; 110; 103; 47; 79; 98; 106; 101; 99; 116; 59].

Definition lookupClassByDescriptor (pDescriptor : list Z) (failure : Z) : option (Z * Z) :=
  let clazz := dvmFindClassNoInit pDescriptor in
  let '(clazz, failure) :=
    (if clazz =? 0 then
       let '(clazz, failure) :=
         (if char_at pDescriptor 0 =? 91 then
            (dvmFindClassNoInit object_array_descriptor,
             if negb (char_at pDescriptor 1 =? 76) && negb (char_at pDescriptor 1 =? 91)
             then VERIFY_ERROR_GENERIC else failure)
          else if char_at pDescriptor 0 =? 76 then (classJavaLangObject, failure)
          else (clazz, VERIFY_ERROR_GENERIC)) in
       (clazz, if clazz =? 0 then VERIFY_ERROR_GENERIC else failure)
     else (clazz, failure)) in
  k ← classes !! clazz;
  Some (if dvmIsPrimitiveClass k then (0, VERIFY_ERROR_GENERIC) else (clazz, failure)).

(** The text before the first [;], and the text from it on. *)
Fixpoint to_semicolon (s : list Z) : option (list Z * list Z) :=
  match s with
  | [] => None
  | c :: t => if c =? 59 then Some ([], s) else '(a, b) ← to_semicolon t; Some (c :: a, b)
  end.

(** [sig] starts with [L]. The text left starts with the last character of the class. *)
Definition lookupSignatureClass (sig : list Z) (failure : Z) : option (Z * list Z * Z) :=
  asserted NDEBUG (char_at sig 0 =? 76) (
    match to_semicolon (drop 1 sig) with
    | None => Some (0, sig, VERIFY_ERROR_GENERIC)
    | Some (name, rest) =>
        '(clazz, failure) ← lookupClassByDescriptor ([char_at sig 0] ++ name ++ [59]) failure;
        Some (clazz, rest, failure)
    end).

(** The text before the first character that is no bracket, and the text from it on. *)
Fixpoint skip_brackets (s : list Z) : list Z * list Z :=
  match s with
  | [] => ([], [])
  | c :: t => if c =? 91 then let '(a, b) := skip_brackets t in (c :: a, b) else ([], s)
  end.

(** [sig] starts with a bracket. An end of the text counts as a character of the type. *)
Definition lookupSignatureArrayClass (sig : list Z) (failure : Z) : option (Z * list Z * Z) :=
  asserted NDEBUG (char_at sig 0 =? 91) (
    let '(brackets, rest) := skip_brackets (drop 1 sig) in
    let start := [char_at sig 0] ++ brackets in
    if char_at rest 0 =? 76 then
      match to_semicolon (drop 1 rest) with
      | None => Some (0, sig, VERIFY_ERROR_GENERIC)
      | Some (name, rest) =>
          '(clazz, failure) ← lookupClassByDescriptor (start ++ [76] ++ name ++ [59]) failure;
          Some (clazz, rest, failure)
      end
    else
      '(clazz, failure) ← lookupClassByDescriptor (start ++ take 1 rest) failure;
      Some (clazz, rest, failure)).

Definition getFieldClass (signature : list Z) : option Z :=
  if (char_at signature 0 =? 76) || (char_at signature 0 =? 91) then
    let fieldClass := dvmFindClassNoInit signature in
    if fieldClass =? 0 then Some classJavaLangObject
    else k ← classes !! fieldClass; asserted NDEBUG (negb (dvmIsPrimitiveClass k)) (Some fieldClass)
  else Some 0.

(** ** The types a method starts with *)

(** [regTypes[i] = type]. *)
Definition set_type (regTypes : list Z) (i type : Z) : option (list Z) := aset regTypes i type.

(** [Some None]: a bad signature. *)
Fixpoint parameter_types (params : list (list Z)) (regTypes : list Z) (argStart actualArgs expectedArgs : Z) :
    option (option (list Z * Z)) :=
  match params with
  | [] => Some (Some (regTypes, actualArgs))
  | descriptor :: params =>
      if actualArgs >=? expectedArgs then Some None
      else
        let one type :=
          regTypes ← set_type regTypes (argStart + actualArgs) type;
          parameter_types params regTypes argStart (actualArgs + 1) expectedArgs in
        let two type :=
          regTypes ← set_type regTypes (argStart + actualArgs) type;
          regTypes ← set_type regTypes (argStart + actualArgs + 1) (type + 1);
          parameter_types params regTypes argStart (actualArgs + 2) expectedArgs in
        let c := char_at descriptor 0 in
        if (c =? 76) || (c =? 91) then
          '(clazz, failure) ← lookupClassByDescriptor descriptor VERIFY_ERROR_NONE;
          if negb (VERIFY_OK failure) then Some None else one (regTypeFromClass clazz)
        else if c =? 90 then one kRegTypeBoolean
        else if c =? 67 then one kRegTypeChar
        else if c =? 66 then one kRegTypeByte
        else if c =? 73 then one kRegTypeInteger
        else if c =? 83 then one kRegTypeShort
        else if c =? 70 then one kRegTypeFloat
        else if c =? 68 then two kRegTypeDoubleLo
        else if c =? 74 then two kRegTypeLongLo
        else Some None
  end.

(** The result: [V], a primitive type, a class, or an array of either. *)
Definition return_type_ok (descriptor : list Z) : bool :=
  let c := char_at descriptor 0 in
  let ends_class s := match to_semicolon s with Some _ => true | None => false end in
  if bool_decide (c ∈ [73; 67; 83; 66; 90; 86; 70; 68; 74]) then char_at descriptor 1 =? 0
  else if c =? 91 then
    let '(_, rest) := skip_brackets (drop 1 descriptor) in
    if char_at rest 0 =? 76 then ends_class (drop 1 rest) else char_at rest 1 =? 0
  else if c =? 76 then ends_class (drop 1 descriptor)
  else false.

Definition setTypesFromSignature (meth : MethodInfo) (registersSize insSize : Z) (regTypes : list Z)
    (uninitMap : UninitInstanceMap) : option (option (list Z * UninitInstanceMap)) :=
  let argStart := registersSize - insSize in
  let expectedArgs := insSize in
  asserted NDEBUG (0 <=? argStart) (
    '(regTypes, uninitMap, actualArgs) ←
      (if negb (dvmIsStaticMethod meth) then
         if isInitMethod meth && negb (m_clazz meth =? classJavaLangObject) then
           '(uninitMap, uidx) ← setUninitInstance NDEBUG uninitMap kUninitThisArgAddr (m_clazz meth);
           asserted NDEBUG (uidx =? 0) (
             regTypes ← set_type regTypes argStart (regTypeFromUninitIndex uidx);
             Some (regTypes, uninitMap, 1))
         else
           regTypes ← set_type regTypes argStart (regTypeFromClass (m_clazz meth));
           Some (regTypes, uninitMap, 1)
       else Some (regTypes, uninitMap, 0));
    r ← parameter_types (parameters (m_prototype meth)) regTypes argStart actualArgs expectedArgs;
    match r with
    | None => Some None
    | Some (regTypes, actualArgs) =>
        if negb (actualArgs =? expectedArgs) then Some None
        else if return_type_ok (dexProtoGetReturnType (m_prototype meth)) then Some (Some (regTypes, uninitMap))
        else Some None
    end).

Definition getMethodReturnType (meth : MethodInfo) : option Z :=
  let descriptor := dexProtoGetReturnType (m_prototype meth) in
  let c := char_at descriptor 0 in
  if c =? 73 then Some kRegTypeInteger
  else if c =? 67 then Some kRegTypeChar
  else if c =? 83 then Some kRegTypeShort
  else if c =? 66 then Some kRegTypeByte
  else if c =? 90 then Some kRegTypeBoolean
  else if c =? 86 then Some kRegTypeUnknown
  else if c =? 70 then Some kRegTypeFloat
  else if c =? 68 then Some kRegTypeDoubleLo
  else if c =? 74 then Some kRegTypeLongLo
  else if (c =? 76) || (c =? 91) then
    '(clazz, failure) ← lookupClassByDescriptor descriptor VERIFY_ERROR_NONE;
    asserted NDEBUG (VERIFY_OK failure) (Some (regTypeFromClass clazz))
  else asserted NDEBUG false (Some kRegTypeConflict).

(** ** The arguments of an invocation *)

(** The register of an argument. *)
Definition arg_register (pDecInsn : DecodedInstruction) (isRange : bool) (actualArgs : Z) : option Z :=
  if isRange then Some (u32 (vC pDecInsn + actualArgs)) else aref (arg pDecInsn) actualArgs.

(** [sig++]. *)
Definition advance (sig : list Z) : option (list Z) :=
  match sig with [] => None | _ :: sig => Some sig end.

(** What is left of the signature, and the types of the arguments on the way. [Some
    (None, …)]: [bad_sig]. The signature gets shorter in each round. *)
Fixpoint check_arguments (rounds : nat) (line : RegisterLine) (pDecInsn : DecodedInstruction) (isRange : bool)
    (sig : list Z) (actualArgs expectedArgs failure : Z) :
    option (option (list Z * Z) * RegisterLine * Z) :=
  if (char_at sig 0 =? 0) || (char_at sig 0 =? 41) then Some (Some (sig, actualArgs), line, failure)
  else
    match rounds with
    | O => None
    | S rounds =>
        if actualArgs >=? expectedArgs then Some (None, line, failure)
        else
          getReg ← arg_register pDecInsn isRange actualArgs;
          let reference lookup :=
            '(clazz, sig, failure) ← lookup sig failure;
            if negb (VERIFY_OK failure) then Some (None, line, failure)
            else
              '(line, failure) ← verifyRegisterType NDEBUG classes fuel line getReg (regTypeFromClass clazz) failure;
              if negb (VERIFY_OK failure) then Some (None, line, failure)
              else
                sig ← advance sig;
                check_arguments rounds line pDecInsn isRange sig (actualArgs + 1) expectedArgs failure in
          let primitive type size :=
            '(line, failure) ← verifyRegisterType NDEBUG classes fuel line getReg type failure;
            sig ← advance sig;
            check_arguments rounds line pDecInsn isRange sig (actualArgs + size) expectedArgs failure in
          let c := char_at sig 0 in
          if c =? 76 then reference lookupSignatureClass
          else if c =? 91 then reference lookupSignatureArrayClass
          else if c =? 90 then primitive kRegTypeBoolean 1
          else if c =? 67 then primitive kRegTypeChar 1
          else if c =? 66 then primitive kRegTypeByte 1
          else if c =? 73 then primitive kRegTypeInteger 1
          else if c =? 83 then primitive kRegTypeShort 1
          else if c =? 70 then primitive kRegTypeFloat 1
          else if c =? 68 then primitive kRegTypeDoubleLo 2
          else if c =? 74 then primitive kRegTypeLongLo 2
          else Some (None, line, failure)
    end.

(** The [this] argument: whether the method may go on, and the failure. *)
Definition check_this (line : RegisterLine) (pDecInsn : DecodedInstruction) (uninitMap : UninitInstanceMap)
    (methodType : MethodType) (resMethod : MethodInfo) (failure : Z) : option (bool * Z) :=
  '(actualArgType, failure) ← getInvocationThis line pDecInsn failure;
  if negb (VERIFY_OK failure) then Some (false, failure)
  else if regTypeIsUninitReference actualArgType && negb (char_at (m_name resMethod) 0 =? 60) then Some (false, failure)
  else if negb (bool_decide (methodType = METHOD_INTERFACE)) && negb (actualArgType =? kRegTypeZero) then
    actualThisRef ← regTypeReferenceToClass actualArgType uninitMap;
    b ← dvmInstanceof classes fuel actualThisRef (m_clazz resMethod);
    Some (b, failure)
  else Some (true, failure).

(** At [fail]. *)
Definition fail_error (failure : Z) : Z := if failure =? VERIFY_ERROR_NONE then VERIFY_ERROR_GENERIC else failure.

(** [resolved] and [failure]: what the resolution of the method in [vB] gave. The
    result is the method, or [None] for [NULL]. *)
Definition verifyInvocationArgs (meth : MethodInfo) (line : RegisterLine) (pDecInsn : DecodedInstruction)
    (uninitMap : UninitInstanceMap) (methodType : MethodType) (isRange isSuper : bool)
    (resolved : option MethodInfo) (failure : Z) : option (option MethodInfo * RegisterLine * Z) :=
  match resolved with
  | None => Some (None, line, fail_error (if VERIFY_OK failure then VERIFY_ERROR_NO_METHOD else failure))
  | Some resMethod =>
      let fail line failure := Some (None, line, fail_error failure) in
      if (char_at (m_name resMethod) 0 =? 60) && (negb (bool_decide (methodType = METHOD_DIRECT)) || negb (isInitMethod resMethod))
      then fail line failure
      else if negb (isCorrectInvokeKind methodType resMethod) then fail line failure
      else
        super_ok ←
          (if isSuper then
             asserted NDEBUG (bool_decide (methodType = METHOD_VIRTUAL)) (
               k ← classes !! m_clazz meth;
               Some (negb ((super k =? 0) || (m_methodIndex resMethod >? vtableCount (super k)))))
           else Some true);
        if negb super_ok then fail line VERIFY_ERROR_NO_METHOD
        else
          let expectedArgs := s32 (vA pDecInsn) in
          asserted NDEBUG (isRange || (expectedArgs <=? 5)) (
            if expectedArgs >? m_outsSize meth then fail line failure
            else
              match dexProtoCopyMethodDescriptor (m_prototype resMethod) with
              | 40 :: sig =>
                  '(this_ok, failure, actualArgs) ←
                    (if negb (dvmIsStaticMethod resMethod) then
                       '(b, failure) ← check_this line pDecInsn uninitMap methodType resMethod failure; Some (b, failure, 1)
                     else Some (true, failure, 0));
                  if negb this_ok then fail line failure
                  else
                    '(r, line, failure) ←
                      check_arguments (length sig) line pDecInsn isRange sig actualArgs expectedArgs failure;
                    match r with
                    | Some (sig, actualArgs) =>
                        if negb (char_at sig 0 =? 41) then fail line failure
                        else if negb (actualArgs =? expectedArgs) then fail line failure
                        else Some (Some resMethod, line, failure)
                    | None => fail line failure
                    end
              | _ => fail line failure
              end)
  end.

(** ** The arguments of an invocation, without the text

    What the scan of the text amounts to: the descriptors of the parameters one by one. *)

Definition primitive_arg (c : Z) : option (Z * Z) :=
  if c =? 90 then Some (kRegTypeBoolean, 1)
  else if c =? 67 then Some (kRegTypeChar, 1)
  else if c =? 66 then Some (kRegTypeByte, 1)
  else if c =? 73 then Some (kRegTypeInteger, 1)
  else if c =? 83 then Some (kRegTypeShort, 1)
  else if c =? 70 then Some (kRegTypeFloat, 1)
  else if c =? 68 then Some (kRegTypeDoubleLo, 2)
  else if c =? 74 then Some (kRegTypeLongLo, 2)
  else None.

Fixpoint check_params (line : RegisterLine) (pDecInsn : DecodedInstruction) (isRange : bool) (params : list (list Z))
    (actualArgs expectedArgs failure : Z) : option (option Z * RegisterLine * Z) :=
  match params with
  | [] => Some (Some actualArgs, line, failure)
  | p :: params =>
      if actualArgs >=? expectedArgs then Some (None, line, failure)
      else
        getReg ← arg_register pDecInsn isRange actualArgs;
        match primitive_arg (char_at p 0) with
        | Some (type, size) =>
            '(line, failure) ← verifyRegisterType NDEBUG classes fuel line getReg type failure;
            check_params line pDecInsn isRange params (actualArgs + size) expectedArgs failure
        | None =>
            '(clazz, failure) ← lookupClassByDescriptor p failure;
            if negb (VERIFY_OK failure) then Some (None, line, failure)
            else
              '(line, failure) ← verifyRegisterType NDEBUG classes fuel line getReg (regTypeFromClass clazz) failure;
              if negb (VERIFY_OK failure) then Some (None, line, failure)
              else check_params line pDecInsn isRange params (actualArgs + 1) expectedArgs failure
        end
  end.

(** Descriptors of parameters, as far as the scan is concerned. *)
Inductive element_text : list Z -> Prop :=
  | primitive_text c r : primitive_arg c = Some r -> element_text [c]
  | class_text n : ~ 59 ∈ n -> element_text (76 :: n ++ [59]).

Definition param_text (p : list Z) : Prop := exists k e, element_text e /\ p = repeat 91 k ++ e.

(** ** Lemmas *)

Lemma to_semicolon_spec n rest : ~ 59 ∈ n -> to_semicolon (n ++ 59 :: rest) = Some (n, 59 :: rest).
Proof.
  induction n as [|c n IH]; intros Hn; [done|]. cbn [app to_semicolon]. rewrite not_elem_of_cons in Hn. destruct Hn as [Hc Hn].
  rewrite (proj2 (Z.eqb_neq c 59)), (IH Hn) by done. done.
Qed.

Lemma primitive_not_special c r : primitive_arg c = Some r -> c <> 76 /\ c <> 91 /\ c <> 0 /\ c <> 41.
Proof. unfold primitive_arg. repeat case_match; intros E; try done; lia. Qed.

Lemma skip_brackets_spec k e rest : element_text e -> skip_brackets (repeat 91 k ++ e ++ rest) = (repeat 91 k, e ++ rest).
Proof.
  intros He. induction k as [|k IH]; cbn [repeat app skip_brackets].
  - destruct He as [c r Hp|n Hn]; cbn [app skip_brackets]; [|done].
    destruct (primitive_not_special c r Hp) as (_ & Hb & _). by rewrite (proj2 (Z.eqb_neq c 91)).
  - by rewrite IH.
Qed.

(** What one class of a signature is read as, and where the text goes on. *)
Lemma class_scanned n rest failure : ~ 59 ∈ n ->
  lookupSignatureClass (76 :: n ++ 59 :: rest) failure =
  ('(clazz, failure) ← lookupClassByDescriptor (76 :: n ++ [59]) failure; Some (clazz, 59 :: rest, failure)).
Proof.
  intros Hn. unfold lookupSignatureClass, asserted. cbn [char_at nth skipn]. rewrite ?drop_0. rewrite Z.eqb_refl, orb_true_r.
  by rewrite (to_semicolon_spec n rest Hn).
Qed.

Lemma array_scanned k e rest failure : element_text e ->
  exists c, lookupSignatureArrayClass (repeat 91 (S k) ++ e ++ rest) failure =
  ('(clazz, failure) ← lookupClassByDescriptor (repeat 91 (S k) ++ e) failure; Some (clazz, c :: rest, failure)).
Proof.
  intros He. unfold lookupSignatureArrayClass, asserted. cbn [repeat app char_at nth skipn]. rewrite ?drop_0. rewrite Z.eqb_refl, orb_true_r.
  rewrite (skip_brackets_spec k e rest He). destruct He as [c r Hp|n Hn].
  - exists c. unfold char_at. cbn [app nth firstn]. rewrite ?take_0. destruct (primitive_not_special c r Hp) as (Hc & _).
    by rewrite (proj2 (Z.eqb_neq c 76)).
  - exists 59. unfold char_at. cbn [app nth skipn]. rewrite ?drop_0. rewrite Z.eqb_refl.
    replace ((n ++ [59]) ++ rest) with (n ++ 59 :: rest) by (by rewrite <- app_assoc).
    by rewrite (to_semicolon_spec n rest Hn).
Qed.

Lemma head_scanned k e rest : element_text e -> (char_at ((repeat 91 k ++ e) ++ rest) 0 =? 0) || (char_at ((repeat 91 k ++ e) ++ rest) 0 =? 41) = false.
Proof.
  intros He. destruct k as [|k]; [|done]. destruct He as [c r Hp|n Hn]; [|done]. cbn [repeat app char_at nth].
  destruct (primitive_not_special c r Hp) as (_ & _ & H0 & H1). by rewrite !(proj2 (Z.eqb_neq _ _)).
Qed.

(** Where the scan is after the parameters. *)
Definition at_end (ret : list Z) (n : option Z) : option (list Z * Z) :=
  match n with Some n => Some (41 :: ret, n) | None => None end.

(** The scan of the text of the parameters is a walk over them. *)
Lemma arguments_walk params : Forall param_text params -> forall rounds line d isRange ret n expected failure,
  (length (concat params ++ 41%Z :: ret) <= rounds)%nat ->
  check_arguments rounds line d isRange (concat params ++ 41 :: ret) n expected failure =
  ('(r, line, failure) ← check_params line d isRange params n expected failure;
   Some (at_end ret r, line, failure)).
Proof.
  induction 1 as [|p params (k & e & He & ->) _ IH]; intros rounds line d isRange ret n expected failure Hr.
  { destruct rounds; reflexivity. }
  cbn [concat]. rewrite <- app_assoc.
  assert (Hlen : (length (concat params ++ 41%Z :: ret) < rounds)%nat).
  { cbn [concat] in Hr. rewrite <- app_assoc, length_app in Hr. enough (0 < length (repeat 91%Z k ++ e))%nat by lia.
    rewrite length_app. destruct He; cbn [length]; lia. }
  destruct rounds as [|rounds]; [lia|]. cbn [check_arguments check_params]. rewrite head_scanned by done.
  destruct (n >=? expected); [done|]. destruct (arg_register d isRange n) as [getReg|]; [|done]. cbn [mbind option_bind].
  destruct k as [|k]; [destruct He as [c [type size] Hp|m Hm]|]; cbn [repeat app char_at nth].
  - destruct (primitive_not_special c _ Hp) as (H76 & H91 & _). rewrite Hp, (proj2 (Z.eqb_neq c 76)), (proj2 (Z.eqb_neq c 91)) by done.
    unfold primitive_arg in Hp.
    repeat match type of Hp with (if c =? ?v then _ else _) = _ => destruct (c =? v) end; try done; injection Hp as <- <-;
      (destruct (verifyRegisterType _ _ _ _ _ _ _) as [[line' failure']|]; [|done]);
      cbn [mbind option_bind advance]; by apply IH; lia.
  - replace ((m ++ [59]) ++ concat params ++ 41 :: ret) with (m ++ 59 :: (concat params ++ 41 :: ret)) by (by rewrite <- app_assoc).
    rewrite Z.eqb_refl, (class_scanned _ _ _ Hm). change (primitive_arg 76) with (@None (Z * Z)). cbn iota.
    destruct (lookupClassByDescriptor _ _) as [[clazz failure']|]; [|done]. cbn [mbind option_bind].
    destruct (VERIFY_OK failure'); [|done]. cbn [negb].
    destruct (verifyRegisterType _ _ _ _ _ _ _) as [[line' failure2]|]; [|done]. cbn [mbind option_bind].
    destruct (VERIFY_OK failure2); [|done]. cbn [negb advance mbind option_bind]. by apply IH; lia.
  - destruct (array_scanned k e (concat params ++ 41 :: ret) failure He) as (c & Ec). cbn [repeat app] in Ec.
    rewrite <- app_assoc, Ec. change (91 =? 76) with false. rewrite Z.eqb_refl. change (primitive_arg 91) with (@None (Z * Z)). cbn iota.
    destruct (lookupClassByDescriptor _ _) as [[clazz failure']|]; [|done]. cbn [mbind option_bind].
    destruct (VERIFY_OK failure'); [|done]. cbn [negb].
    destruct (verifyRegisterType _ _ _ _ _ _ _) as [[line' failure2]|]; [|done]. cbn [mbind option_bind].
    destruct (VERIFY_OK failure2); [|done]. cbn [negb advance mbind option_bind]. by apply IH; lia.
Qed.
End Signatures.
