(* ===== verification/VerifyInsn.v ===== *)
(** * The effect of an instruction on the registers: the switch of [verifyInstruction] in
    [dalvik/vm/analysis/CodeVerify.cpp]

    The groups of case labels of the switch are the constructors of [InsnGroup]; a group
    checks the types of the registers an instruction reads and sets those of the
    registers it writes. What names resolve to is an interface. *)

From stdpp Require Import gmap.
From S2P Require Import Prelude Bits Search DexFile OpcodeTables Opcodes InstrUtils SwitchData DexCatch DexVerify.
From S2P Require Import TypeCheck RegTypes RegMerge RegLine Signatures.

(** ** The interface to class loading and resolution

    [analysis/Optimize.cpp], [oo/Class.cpp] and [oo/Array.cpp], for the class of the
    method that is verified. Pointers that are [NULL] are 0, or [None]; an error comes
    with them. *)

(** [f_ptr]: the address of a field, in fields. *)
Record FieldInfo := MkFieldInfo { f_clazz : Z; f_signature : list Z; f_accessFlags : Z; f_ptr : Z }.

Class Resolution := {
  dvmOptResolveClass : Z -> Z * Z;
  dvmOptResolveInstField : Z -> option FieldInfo * Z;
  dvmOptResolveStaticField : Z -> option FieldInfo * Z;
  dvmOptResolveMethod : Z -> MethodType -> option MethodInfo * Z;
  dvmOptResolveInterfaceMethod : Z -> option MethodInfo;
  dvmFindClassNoInit : list Z -> Z;
  dvmFindArrayClass : list Z -> Z -> Z;
  classLoader : Z -> Z;
  vtableCount : Z -> Z;
  ifields : Z -> Z;
  ifieldCount : Z -> Z;
  classJavaLangObject : Z;
  classJavaLangString : Z;
  classJavaLangClass : Z;
  exThrowable : Z
}.

Definition ACC_FINAL : Z := 0x00000010.
Definition ACC_ABSTRACT : Z := 0x00000400.

Definition dvmIsFinalField (field : FieldInfo) : bool := negb (Z.land (f_accessFlags field) ACC_FINAL =? 0).
Definition dvmIsAbstractClass (clazz : ClassObject) : bool := negb (Z.land (accessFlags clazz) ACC_ABSTRACT =? 0).

(** ** The groups of instructions *)

Inductive InsnGroup :=
  | G_NOP
  | G_MOVE (cat : TypeCategory) | G_MOVE_WIDE
  | G_MOVE_RESULT (cat : TypeCategory) | G_MOVE_RESULT_WIDE | G_MOVE_EXCEPTION
  | G_RETURN_VOID | G_RETURN | G_RETURN_WIDE | G_RETURN_OBJECT
  | G_CONST | G_CONST_HIGH16 | G_CONST_WIDE | G_CONST_STRING | G_CONST_CLASS
  | G_MONITOR_ENTER | G_MONITOR_EXIT
  | G_CHECK_CAST | G_INSTANCE_OF | G_ARRAY_LENGTH
  | G_NEW_INSTANCE | G_NEW_ARRAY | G_FILLED_NEW_ARRAY (isRange : bool)
  | G_CMP (type : Z) | G_THROW | G_GOTO | G_SWITCH | G_FILL_ARRAY_DATA
  | G_IF_EQ | G_IF_LT | G_IF_EQZ | G_IF_LTZ
  | G_AGET (tmpType : Z) | G_AGET_WIDE | G_AGET_OBJECT
  | G_APUT (tmpType : Z) | G_APUT_WIDE | G_APUT_OBJECT
  | G_IGET (tmpType : Z) | G_IGET_WIDE | G_IGET_OBJECT
  | G_IPUT (tmpType : Z) | G_IPUT_WIDE | G_IPUT_OBJECT
  | G_SGET (tmpType : Z) | G_SGET_WIDE | G_SGET_OBJECT
  | G_SPUT (tmpType : Z) | G_SPUT_WIDE | G_SPUT_OBJECT
  | G_INVOKE_VIRTUAL (isRange isSuper : bool) | G_INVOKE_DIRECT (isRange : bool)
  | G_INVOKE_STATIC (isRange : bool) | G_INVOKE_INTERFACE (isRange : bool)
  | G_UNOP (dstType srcType : Z)
  | G_BINOP (dstType srcType1 srcType2 : Z) (checkBooleanOp : bool)
  | G_BINOP_2ADDR (dstType srcType1 srcType2 : Z) (checkBooleanOp : bool)
  | G_LITOP (checkBooleanOp : bool)
  | G_SHIFT_LITOP (isUnsignedShift : bool)
  | G_THROW_VERIFICATION_ERROR
  | G_FAIL.

(** The case labels, in the order of the switch. *)
Definition group_table : list (list Z * InsnGroup) := [
  ([OP_NOP], G_NOP);
  ([OP_MOVE; OP_MOVE_FROM16; OP_MOVE_16], G_MOVE kTypeCategory1nr);
  ([OP_MOVE_WIDE; OP_MOVE_WIDE_FROM16; OP_MOVE_WIDE_16], G_MOVE_WIDE);
  ([OP_MOVE_OBJECT; OP_MOVE_OBJECT_FROM16; OP_MOVE_OBJECT_16], G_MOVE kTypeCategoryRef);
  ([OP_MOVE_RESULT], G_MOVE_RESULT kTypeCategory1nr);
  ([OP_MOVE_RESULT_WIDE], G_MOVE_RESULT_WIDE);
  ([OP_MOVE_RESULT_OBJECT], G_MOVE_RESULT kTypeCategoryRef);
  ([OP_MOVE_EXCEPTION], G_MOVE_EXCEPTION);
  ([OP_RETURN_VOID], G_RETURN_VOID);
  ([OP_RETURN], G_RETURN);
  ([OP_RETURN_WIDE], G_RETURN_WIDE);
  ([OP_RETURN_OBJECT], G_RETURN_OBJECT);
  ([OP_CONST_4; OP_CONST_16; OP_CONST], G_CONST);
  ([OP_CONST_HIGH16], G_CONST_HIGH16);
  ([OP_CONST_WIDE_16; OP_CONST_WIDE_32; OP_CONST_WIDE; OP_CONST_WIDE_HIGH16], G_CONST_WIDE);
  ([OP_CONST_STRING; OP_CONST_STRING_JUMBO], G_CONST_STRING);
  ([OP_CONST_CLASS], G_CONST_CLASS);
  ([OP_MONITOR_ENTER], G_MONITOR_ENTER);
  ([OP_MONITOR_EXIT], G_MONITOR_EXIT);
  ([OP_CHECK_CAST], G_CHECK_CAST);
  ([OP_INSTANCE_OF], G_INSTANCE_OF);
  ([OP_ARRAY_LENGTH], G_ARRAY_LENGTH);
  ([OP_NEW_INSTANCE], G_NEW_INSTANCE);
  ([OP_NEW_ARRAY], G_NEW_ARRAY);
  ([OP_FILLED_NEW_ARRAY], G_FILLED_NEW_ARRAY false);
  ([OP_FILLED_NEW_ARRAY_RANGE], G_FILLED_NEW_ARRAY true);
  ([OP_CMPL_FLOAT; OP_CMPG_FLOAT], G_CMP kRegTypeFloat);
  ([OP_CMPL_DOUBLE; OP_CMPG_DOUBLE], G_CMP kRegTypeDoubleLo);
  ([OP_CMP_LONG], G_CMP kRegTypeLongLo);
  ([OP_THROW], G_THROW);
  ([OP_GOTO; OP_GOTO_16; OP_GOTO_32], G_GOTO);
  ([OP_PACKED_SWITCH; OP_SPARSE_SWITCH], G_SWITCH);
  ([OP_FILL_ARRAY_DATA], G_FILL_ARRAY_DATA);
  ([OP_IF_EQ; OP_IF_NE], G_IF_EQ);
  ([OP_IF_LT; OP_IF_GE; OP_IF_GT; OP_IF_LE], G_IF_LT);
  ([OP_IF_EQZ; OP_IF_NEZ], G_IF_EQZ);
  ([OP_IF_LTZ; OP_IF_GEZ; OP_IF_GTZ; OP_IF_LEZ], G_IF_LTZ);
  ([OP_AGET], G_AGET kRegTypeInteger);
  ([OP_AGET_BOOLEAN], G_AGET kRegTypeBoolean);
  ([OP_AGET_BYTE], G_AGET kRegTypeByte);
  ([OP_AGET_CHAR], G_AGET kRegTypeChar);
  ([OP_AGET_SHORT], G_AGET kRegTypeShort);
  ([OP_AGET_WIDE], G_AGET_WIDE);
  ([OP_AGET_OBJECT], G_AGET_OBJECT);
  ([OP_APUT], G_APUT kRegTypeInteger);
  ([OP_APUT_BOOLEAN], G_APUT kRegTypeBoolean);
  ([OP_APUT_BYTE], G_APUT kRegTypeByte);
  ([OP_APUT_CHAR], G_APUT kRegTypeChar);
  ([OP_APUT_SHORT], G_APUT kRegTypeShort);
  ([OP_APUT_WIDE], G_APUT_WIDE);
  ([OP_APUT_OBJECT], G_APUT_OBJECT);
  ([OP_IGET], G_IGET kRegTypeInteger);
  ([OP_IGET_BOOLEAN], G_IGET kRegTypeBoolean);
  ([OP_IGET_BYTE], G_IGET kRegTypeByte);
  ([OP_IGET_CHAR], G_IGET kRegTypeChar);
  ([OP_IGET_SHORT], G_IGET kRegTypeShort);
  ([OP_IGET_WIDE], G_IGET_WIDE);
  ([OP_IGET_OBJECT], G_IGET_OBJECT);
  ([OP_IPUT], G_IPUT kRegTypeInteger);
  ([OP_IPUT_BOOLEAN], G_IPUT kRegTypeBoolean);
  ([OP_IPUT_BYTE], G_IPUT kRegTypeByte);
  ([OP_IPUT_CHAR], G_IPUT kRegTypeChar);
  ([OP_IPUT_SHORT], G_IPUT kRegTypeShort);
  ([OP_IPUT_WIDE], G_IPUT_WIDE);
  ([OP_IPUT_OBJECT], G_IPUT_OBJECT);
  ([OP_SGET], G_SGET kRegTypeInteger);
  ([OP_SGET_BOOLEAN], G_SGET kRegTypeBoolean);
  ([OP_SGET_BYTE], G_SGET kRegTypeByte);
  ([OP_SGET_CHAR], G_SGET kRegTypeChar);
  ([OP_SGET_SHORT], G_SGET kRegTypeShort);
  ([OP_SGET_WIDE], G_SGET_WIDE);
  ([OP_SGET_OBJECT], G_SGET_OBJECT);
  ([OP_SPUT], G_SPUT kRegTypeInteger);
  ([OP_SPUT_BOOLEAN], G_SPUT kRegTypeBoolean);
  ([OP_SPUT_BYTE], G_SPUT kRegTypeByte);
  ([OP_SPUT_CHAR], G_SPUT kRegTypeChar);
  ([OP_SPUT_SHORT], G_SPUT kRegTypeShort);
  ([OP_SPUT_WIDE], G_SPUT_WIDE);
  ([OP_SPUT_OBJECT], G_SPUT_OBJECT);
  ([OP_INVOKE_VIRTUAL], G_INVOKE_VIRTUAL false false);
  ([OP_INVOKE_VIRTUAL_RANGE], G_INVOKE_VIRTUAL true false);
  ([OP_INVOKE_SUPER], G_INVOKE_VIRTUAL false true);
  ([OP_INVOKE_SUPER_RANGE], G_INVOKE_VIRTUAL true true);
  ([OP_INVOKE_DIRECT], G_INVOKE_DIRECT false);
  ([OP_INVOKE_DIRECT_RANGE], G_INVOKE_DIRECT true);
  ([OP_INVOKE_STATIC], G_INVOKE_STATIC false);
  ([OP_INVOKE_STATIC_RANGE], G_INVOKE_STATIC true);
  ([OP_INVOKE_INTERFACE], G_INVOKE_INTERFACE false);
  ([OP_INVOKE_INTERFACE_RANGE], G_INVOKE_INTERFACE true);
  ([OP_NEG_INT; OP_NOT_INT], G_UNOP kRegTypeInteger kRegTypeInteger);
  ([OP_NEG_LONG; OP_NOT_LONG], G_UNOP kRegTypeLongLo kRegTypeLongLo);
  ([OP_NEG_FLOAT], G_UNOP kRegTypeFloat kRegTypeFloat);
  ([OP_NEG_DOUBLE], G_UNOP kRegTypeDoubleLo kRegTypeDoubleLo);
  ([OP_INT_TO_LONG], G_UNOP kRegTypeLongLo kRegTypeInteger);
  ([OP_INT_TO_FLOAT], G_UNOP kRegTypeFloat kRegTypeInteger);
  ([OP_INT_TO_DOUBLE], G_UNOP kRegTypeDoubleLo kRegTypeInteger);
  ([OP_LONG_TO_INT], G_UNOP kRegTypeInteger kRegTypeLongLo);
  ([OP_LONG_TO_FLOAT], G_UNOP kRegTypeFloat kRegTypeLongLo);
  ([OP_LONG_TO_DOUBLE], G_UNOP kRegTypeDoubleLo kRegTypeLongLo);
  ([OP_FLOAT_TO_INT], G_UNOP kRegTypeInteger kRegTypeFloat);
  ([OP_FLOAT_TO_LONG], G_UNOP kRegTypeLongLo kRegTypeFloat);
  ([OP_FLOAT_TO_DOUBLE], G_UNOP kRegTypeDoubleLo kRegTypeFloat);
  ([OP_DOUBLE_TO_INT], G_UNOP kRegTypeInteger kRegTypeDoubleLo);
  ([OP_DOUBLE_TO_LONG], G_UNOP kRegTypeLongLo kRegTypeDoubleLo);
  ([OP_DOUBLE_TO_FLOAT], G_UNOP kRegTypeFloat kRegTypeDoubleLo);
  ([OP_INT_TO_BYTE], G_UNOP kRegTypeByte kRegTypeInteger);
  ([OP_INT_TO_CHAR], G_UNOP kRegTypeChar kRegTypeInteger);
  ([OP_INT_TO_SHORT], G_UNOP kRegTypeShort kRegTypeInteger);
  ([OP_ADD_INT; OP_SUB_INT; OP_MUL_INT; OP_REM_INT; OP_DIV_INT; OP_SHL_INT; OP_SHR_INT; OP_USHR_INT],
   G_BINOP kRegTypeInteger kRegTypeInteger kRegTypeInteger false);
  ([OP_AND_INT; OP_OR_INT; OP_XOR_INT], G_BINOP kRegTypeInteger kRegTypeInteger kRegTypeInteger true);
  ([OP_ADD_LONG; OP_SUB_LONG; OP_MUL_LONG; OP_DIV_LONG; OP_REM_LONG; OP_AND_LONG; OP_OR_LONG; OP_XOR_LONG],
   G_BINOP kRegTypeLongLo kRegTypeLongLo kRegTypeLongLo false);
  ([OP_SHL_LONG; OP_SHR_LONG; OP_USHR_LONG], G_BINOP kRegTypeLongLo kRegTypeLongLo kRegTypeInteger false);
  ([OP_ADD_FLOAT; OP_SUB_FLOAT; OP_MUL_FLOAT; OP_DIV_FLOAT; OP_REM_FLOAT],
   G_BINOP kRegTypeFloat kRegTypeFloat kRegTypeFloat false);
  ([OP_ADD_DOUBLE; OP_SUB_DOUBLE; OP_MUL_DOUBLE; OP_DIV_DOUBLE; OP_REM_DOUBLE],
   G_BINOP kRegTypeDoubleLo kRegTypeDoubleLo kRegTypeDoubleLo false);
  ([OP_ADD_INT_2ADDR; OP_SUB_INT_2ADDR; OP_MUL_INT_2ADDR; OP_REM_INT_2ADDR; OP_SHL_INT_2ADDR; OP_SHR_INT_2ADDR;
    OP_USHR_INT_2ADDR], G_BINOP_2ADDR kRegTypeInteger kRegTypeInteger kRegTypeInteger false);
  ([OP_AND_INT_2ADDR; OP_OR_INT_2ADDR; OP_XOR_INT_2ADDR],
   G_BINOP_2ADDR kRegTypeInteger kRegTypeInteger kRegTypeInteger true);
  ([OP_DIV_INT_2ADDR], G_BINOP_2ADDR kRegTypeInteger kRegTypeInteger kRegTypeInteger false);
  ([OP_ADD_LONG_2ADDR; OP_SUB_LONG_2ADDR; OP_MUL_LONG_2ADDR; OP_DIV_LONG_2ADDR; OP_REM_LONG_2ADDR; OP_AND_LONG_2ADDR;
    OP_OR_LONG_2ADDR; OP_XOR_LONG_2ADDR], G_BINOP_2ADDR kRegTypeLongLo kRegTypeLongLo kRegTypeLongLo false);
  ([OP_SHL_LONG_2ADDR; OP_SHR_LONG_2ADDR; OP_USHR_LONG_2ADDR],
   G_BINOP_2ADDR kRegTypeLongLo kRegTypeLongLo kRegTypeInteger false);
  ([OP_ADD_FLOAT_2ADDR; OP_SUB_FLOAT_2ADDR; OP_MUL_FLOAT_2ADDR; OP_DIV_FLOAT_2ADDR; OP_REM_FLOAT_2ADDR],
   G_BINOP_2ADDR kRegTypeFloat kRegTypeFloat kRegTypeFloat false);
  ([OP_ADD_DOUBLE_2ADDR; OP_SUB_DOUBLE_2ADDR; OP_MUL_DOUBLE_2ADDR; OP_DIV_DOUBLE_2ADDR; OP_REM_DOUBLE_2ADDR],
   G_BINOP_2ADDR kRegTypeDoubleLo kRegTypeDoubleLo kRegTypeDoubleLo false);
  ([OP_ADD_INT_LIT16; OP_RSUB_INT; OP_MUL_INT_LIT16; OP_DIV_INT_LIT16; OP_REM_INT_LIT16], G_LITOP false);
  ([OP_AND_INT_LIT16; OP_OR_INT_LIT16; OP_XOR_INT_LIT16], G_LITOP true);
  ([OP_ADD_INT_LIT8; OP_RSUB_INT_LIT8; OP_MUL_INT_LIT8; OP_DIV_INT_LIT8; OP_REM_INT_LIT8; OP_SHL_INT_LIT8], G_LITOP false);
  ([OP_SHR_INT_LIT8], G_SHIFT_LITOP false);
  ([OP_USHR_INT_LIT8], G_SHIFT_LITOP true);
  ([OP_AND_INT_LIT8; OP_OR_INT_LIT8; OP_XOR_INT_LIT8], G_LITOP true);
  ([OP_THROW_VERIFICATION_ERROR], G_THROW_VERIFICATION_ERROR)
].

(** The rest of the labels are failures. *)
Definition group_of (opcode : Z) : InsnGroup :=
  match List.find (fun p => one_of opcode p.1) group_table with Some (_, g) => g | None => G_FAIL end.

(** ** The effect *)

(** What is left after the switch: the registers, the map of uninitialized instances,
    the failure, whether the result register was set, and the flags of the opcode. *)
Record Effect := MkEffect {
  e_line : RegisterLine;
  e_uninit : UninitInstanceMap;
  e_failure : Z;
  e_justSetResult : bool;
  e_nextFlags : Z
}.

Section Effect.
Context (NDEBUG : bool) (classes : gmap Z ClassObject) (fuel : nat) `{Resolution}.
Context (meth : MethodInfo) (code : Method).

Abbreviation verify_type := (verifyRegisterType NDEBUG classes fuel).
Abbreviation category := (checkTypeCategory NDEBUG).
Abbreviation lookup_descriptor := (lookupClassByDescriptor classes dvmFindClassNoInit classJavaLangObject).
Abbreviation field_class := (getFieldClass NDEBUG classes dvmFindClassNoInit classJavaLangObject).
Abbreviation return_type_of := (getMethodReturnType NDEBUG classes dvmFindClassNoInit classJavaLangObject).
Abbreviation invocation_args := (verifyInvocationArgs NDEBUG classes fuel dvmFindClassNoInit classJavaLangObject vtableCount).
Abbreviation common_superclass := (findCommonSuperclass NDEBUG classes dvmFindArrayClass classLoader fuel).

(** *** Fields *)

(** The field, or [None] for [NULL], and the failure. *)
Definition getInstField (uninitMap : UninitInstanceMap) (objType fieldIdx failure : Z) : option (option FieldInfo * Z) :=
  if negb (regTypeIsReference objType) then Some (None, VERIFY_ERROR_GENERIC)
  else
    let '(instField, failure) := dvmOptResolveInstField fieldIdx in
    match instField with
    | None => asserted NDEBUG (negb (VERIFY_OK failure)) (Some (None, failure))
    | Some f =>
        if objType =? kRegTypeZero then Some (instField, failure)
        else
          objClass ← regTypeReferenceToClass objType uninitMap;
          asserted NDEBUG (negb (objClass =? 0)) (
            let uninit := regTypeIsUninitReference objType in
            if uninit && (negb (Signatures.isInitMethod meth) || negb (m_clazz meth =? objClass))
            then Some (instField, VERIFY_ERROR_GENERIC)
            else
              b ← dvmInstanceof classes fuel objClass (f_clazz f);
              if negb b then Some (instField, VERIFY_ERROR_NO_FIELD)
              else if uninit && ((f_ptr f <? ifields objClass) || (f_ptr f >=? ifields objClass + ifieldCount objClass))
              then Some (instField, VERIFY_ERROR_GENERIC)
              else Some (instField, failure))
    end.

Definition getStaticField (fieldIdx : Z) : option (option FieldInfo * Z) :=
  let '(staticField, failure) := dvmOptResolveStaticField fieldIdx in
  match staticField with
  | None => asserted NDEBUG (negb (VERIFY_OK failure)) (Some (None, failure))
  | Some _ => Some (staticField, failure)
  end.

Definition checkFinalFieldAccess (field : FieldInfo) (failure : Z) : Z :=
  if negb (dvmIsFinalField field) then failure
  else if negb (m_clazz meth =? f_clazz field) then VERIFY_ERROR_ACCESS_FIELD
  else failure.

(** *** Exceptions *)

(** The handlers of a list at [insnIdx], merged into the class so far. *)
Fixpoint handlers_class (handlers : list DexCatchHandler) (insnIdx commonSuper : Z) : option Z :=
  match handlers with
  | [] => Some commonSuper
  | h :: handlers =>
      if address h =? u32 insnIdx then
        let clazz := if typeIdx h =? kDexNoIndex then exThrowable else (dvmOptResolveClass (typeIdx h)).1 in
        commonSuper ←
          (if clazz =? 0 then Some commonSuper
           else if commonSuper =? 0 then Some clazz
           else common_superclass clazz commonSuper);
        handlers_class handlers insnIdx commonSuper
      else handlers_class handlers insnIdx commonSuper
  end.

Fixpoint handler_lists_class (n : nat) (pCode : DexCode) (offset insnIdx commonSuper : Z) : option Z :=
  match n with
  | O => Some commonSuper
  | S n =>
      iterator ← dexCatchIteratorInit dexCatchIteratorClear pCode offset;
      '(handlers, iterator) ← handlers_left iterator;
      commonSuper ← handlers_class handlers insnIdx commonSuper;
      '(offset, _) ← dexCatchIteratorGetEndOffset iterator pCode;
      handler_lists_class n pCode offset insnIdx commonSuper
  end.

Definition getCaughtExceptionType (insnIdx failure : Z) : option (Z * Z) :=
  pCode ← dvmGetMethodCode code;
  commonSuper ←
    (if negb (triesSize pCode =? 0) then
       handlersSize ← dexGetHandlersSize pCode;
       offset ← dexGetFirstHandlerOffset pCode;
       handler_lists_class (Z.to_nat handlersSize) pCode offset insnIdx 0
     else Some 0);
  Some (commonSuper, if commonSuper =? 0 then VERIFY_ERROR_GENERIC else failure).

(** *** Arrays *)

(** [for (ui = 0; ui < argCount; ui++)], over the arguments left. *)
Fixpoint filled_args (n : nat) (line : RegisterLine) (pDecInsn : DecodedInstruction) (isRange : bool)
    (ui expectedType failure : Z) : option (RegisterLine * Z) :=
  match n with
  | O => Some (line, failure)
  | S n =>
      getReg ← arg_register pDecInsn isRange ui;
      '(line, failure) ← verify_type line getReg expectedType failure;
      if negb (VERIFY_OK failure) then Some (line, failure)
      else filled_args n line pDecInsn isRange (ui + 1) expectedType failure
  end.

Definition verifyFilledNewArrayRegs (line : RegisterLine) (pDecInsn : DecodedInstruction) (resClass : Z)
    (isRange : bool) (failure : Z) : option (RegisterLine * Z) :=
  k ← classes !! resClass;
  asserted NDEBUG (dvmIsArrayClass k) (
    e ← classes !! elementClass k;
    expectedType ←
      (if bool_decide (primitiveType e = PRIM_NOT) then Some (regTypeFromClass (elementClass k))
       else primitiveTypeToRegType NDEBUG (primitiveType e));
    filled_args (Z.to_nat (vA pDecInsn)) line pDecInsn isRange 0 expectedType failure).

(** A class of arrays of one dimension, of primitive values; their type. *)
Definition primitive_array (resClass : Z) : option (option PrimitiveType) :=
  k ← classes !! resClass;
  if negb (dvmIsArrayClass k) || negb (arrayDim k =? 1) then Some None
  else
    e ← classes !! elementClass k;
    Some (if bool_decide (primitiveType e = PRIM_NOT) then None else Some (primitiveType e)).

(** The width of an element in array data. *)
Definition elem_width (type : PrimitiveType) : Z :=
  match type with
  | PRIM_BOOLEAN | PRIM_BYTE => 1
  | PRIM_CHAR | PRIM_SHORT => 2
  | PRIM_FLOAT | PRIM_INT => 4
  | PRIM_DOUBLE | PRIM_LONG => 8
  | _ => 0
  end.

(** The class of what an array holds, one dimension less: [Some None] where it is no
    array of references. *)
Definition array_element (clazz : Z) (others : bool) : option (option Z) :=
  k ← classes !! clazz;
  if char_at (descriptor k) 1 =? 91 then
    asserted NDEBUG (arrayDim k >? 1) (Some (Some (dvmFindArrayClass (drop 1 (descriptor k)) (classLoader clazz))))
  else if others || (char_at (descriptor k) 1 =? 76) then
    asserted NDEBUG (arrayDim k =? 1) (Some (Some (elementClass k)))
  else Some None.

(** A [float] where the instruction says [int]. *)
Definition correct_float (type tmpType : Z) : Z :=
  if (type =? kRegTypeFloat) && (tmpType =? kRegTypeInteger) then kRegTypeFloat else tmpType.

(** The test of two registers that must be numbers but no [float]. *)
Definition not_float (type failure : Z) : option Z :=
  failure ← category type kTypeCategory1nr failure;
  Some (if type =? kRegTypeFloat then VERIFY_ERROR_GENERIC else failure).

(** *** The switch, by groups of labels

    Each handler gives the registers and the failure. *)

Abbreviation handler := (option (RegisterLine * Z)).

(** The registers stay, with a failure. *)
Definition stay_with (line : RegisterLine) (failure : Z) : handler := Some (line, failure).

Definition set_or_fail (line : RegisterLine) (vdst : Z) (type : option Z) (failure : Z) : handler :=
  match type with
  | None => stay_with line VERIFY_ERROR_GENERIC
  | Some type => line ← setRegisterType line vdst type; Some (line, failure)
  end.

(** [resClass = dvmOptResolveClass(meth->clazz, idx, &failure)], and what comes where it
    is not [NULL]. *)
Definition with_class {A} (idx : Z) (unresolved : Z -> A) (resolved : Z -> Z -> option A) : option A :=
  let '(resClass, failure) := dvmOptResolveClass idx in
  if resClass =? 0 then asserted NDEBUG (negb (failure =? VERIFY_ERROR_GENERIC)) (Some (unresolved failure))
  else resolved resClass failure.

(** [OP_RETURN_VOID] to [OP_RETURN_OBJECT]. *)
Definition constructed (line : RegisterLine) : bool :=
  checkConstructorReturn (isInitMethod meth) line (m_registersSize code).

Definition return_void (line : RegisterLine) (failure : Z) : handler :=
  if negb (constructed line) then stay_with line VERIFY_ERROR_GENERIC
  else
    returnType ← return_type_of meth;
    stay_with line (if negb (returnType =? kRegTypeUnknown) then VERIFY_ERROR_GENERIC else failure).

Definition narrow_return (returnType srcType : Z) : Z :=
  if (returnType =? kRegTypeBoolean) && (srcType =? kRegTypeByte) ||
     bool_decide (returnType ∈ [kRegTypeBoolean; kRegTypeByte; kRegTypeShort; kRegTypeChar]) && (srcType =? kRegTypeInteger)
  then srcType else returnType.

Definition return_1nr (line : RegisterLine) (vA failure : Z) : handler :=
  if negb (constructed line) then stay_with line VERIFY_ERROR_GENERIC
  else
    returnType ← return_type_of meth;
    failure ← category returnType kTypeCategory1nr failure;
    srcType ← getRegisterType line vA;
    verify_type line vA (narrow_return returnType srcType) failure.

Definition return_wide (line : RegisterLine) (vA failure : Z) : handler :=
  if negb (constructed line) then stay_with line VERIFY_ERROR_GENERIC
  else
    returnType ← return_type_of meth;
    failure ← category returnType kTypeCategory2 failure;
    verify_type line vA returnType failure.

Definition return_object (line : RegisterLine) (vA failure : Z) : handler :=
  if negb (constructed line) then stay_with line VERIFY_ERROR_GENERIC
  else
    returnType ← return_type_of meth;
    failure ← category returnType kTypeCategoryRef failure;
    if negb (VERIFY_OK failure) then stay_with line failure
    else
      asserted NDEBUG (negb (returnType =? kRegTypeZero) && negb (regTypeIsUninitReference returnType)) (
        declClass ← regTypeInitializedReferenceToClass returnType;
        '(resClass, failure) ← getClassFromRegister line vA failure;
        if negb (VERIFY_OK failure) || (resClass =? 0) then stay_with line failure
        else
          k ← classes !! declClass;
          if dvmIsInterfaceClass k then stay_with line failure
          else
            b ← dvmInstanceof classes fuel resClass declClass;
            stay_with line (if (b : bool) then failure else VERIFY_ERROR_GENERIC)).

(** [OP_CONST_CLASS] to [OP_NEW_ARRAY]. *)
Definition const_class (line : RegisterLine) (vA vB : Z) : handler :=
  with_class vB (fun failure => (line, failure)) (fun resClass failure =>
    set_or_fail line vA (Some (regTypeFromClass classJavaLangClass)) failure).

Definition check_cast (line : RegisterLine) (vA vB : Z) : handler :=
  with_class vB (fun failure => (line, failure)) (fun resClass failure =>
    origType ← getRegisterType line vA;
    if negb (regTypeIsReference origType) then stay_with line VERIFY_ERROR_GENERIC
    else set_or_fail line vA (Some (regTypeFromClass resClass)) failure).

Definition instance_of (line : RegisterLine) (vA vB vC failure : Z) : handler :=
  tmpType ← getRegisterType line vB;
  if negb (regTypeIsReference tmpType) then stay_with line VERIFY_ERROR_GENERIC
  else
    with_class vC (fun failure => (line, failure)) (fun resClass failure =>
      set_or_fail line vA (Some kRegTypeBoolean) failure).

Definition array_length (line : RegisterLine) (vA vB failure : Z) : handler :=
  '(resClass, failure) ← getClassFromRegister line vB failure;
  if negb (VERIFY_OK failure) then stay_with line failure
  else
    is_array ← (if resClass =? 0 then Some true else k ← classes !! resClass; Some (dvmIsArrayClass k));
    if negb is_array then stay_with line VERIFY_ERROR_GENERIC
    else set_or_fail line vA (Some kRegTypeInteger) failure.

Definition new_instance (line : RegisterLine) (uninitMap : UninitInstanceMap) (vA vB insnIdx : Z) :
    option (RegisterLine * UninitInstanceMap * Z) :=
  with_class vB (fun failure => (line, uninitMap, failure)) (fun resClass failure =>
    k ← classes !! resClass;
    if dvmIsAbstractClass k || dvmIsInterfaceClass k then Some (line, uninitMap, VERIFY_ERROR_INSTANTIATION)
    else
      '(uninitMap, uidx) ← setUninitInstance NDEBUG uninitMap insnIdx resClass;
      asserted NDEBUG (uidx >=? 0) (
        let uninitType := regTypeFromUninitIndex uidx in
        let line := markUninitRefsAsInvalid line (m_registersSize code) uninitType in
        line ← setRegisterType line vA uninitType;
        Some (line, uninitMap, failure))).

Definition new_array (line : RegisterLine) (vA vB vC : Z) : handler :=
  with_class vC (fun failure => (line, failure)) (fun resClass failure =>
    k ← classes !! resClass;
    if negb (dvmIsArrayClass k) then stay_with line VERIFY_ERROR_GENERIC
    else
      '(line, failure) ← verify_type line vB kRegTypeInteger failure;
      set_or_fail line vA (Some (regTypeFromClass resClass)) failure).

(** The flag: the result register is set. *)
Definition filled_new_array (line : RegisterLine) (decInsn : DecodedInstruction) (isRange : bool) :
    option (RegisterLine * Z * bool) :=
  with_class (vB decInsn) (fun failure => (line, failure, false)) (fun resClass failure =>
    k ← classes !! resClass;
    if negb (dvmIsArrayClass k) then Some (line, VERIFY_ERROR_GENERIC, false)
    else
      '(line, failure) ← verifyFilledNewArrayRegs line decInsn resClass isRange failure;
      line ← setResultRegisterType line (m_registersSize code) (regTypeFromClass resClass);
      Some (line, failure, true)).

(** [OP_CMPL_FLOAT] to [OP_CMP_LONG]. *)
Definition compare (line : RegisterLine) (vA vB vC type failure : Z) : handler :=
  '(line, failure) ← verify_type line vB type failure;
  '(line, failure) ← verify_type line vC type failure;
  set_or_fail line vA (Some kRegTypeBoolean) failure.

Definition throw (line : RegisterLine) (vA failure : Z) : handler :=
  '(resClass, failure) ← getClassFromRegister line vA failure;
  if VERIFY_OK failure && negb (resClass =? 0) then
    b ← dvmInstanceof classes fuel resClass exThrowable;
    stay_with line (if (b : bool) then failure else VERIFY_ERROR_GENERIC)
  else stay_with line failure.

Definition fill_array_data (line : RegisterLine) (vA insnIdx failure : Z) : handler :=
  '(resClass, failure) ← getClassFromRegister line vA failure;
  if negb (VERIFY_OK failure) || (resClass =? 0) then stay_with line failure
  else
    elem ← primitive_array resClass;
    match elem with
    | None | Some PRIM_VOID => stay_with line VERIFY_ERROR_GENERIC
    | Some type =>
        valueType ← primitiveTypeToRegType NDEBUG type;
        asserted NDEBUG (negb (valueType =? kRegTypeUnknown)) (
          insns ← insns_at code insnIdx;
          lo ← insns !! 1%nat;
          hi ← insns !! 2%nat;
          arrayData ← insns_at code (insnIdx + s4_of lo hi);
          signature ← arrayData !! 0%nat;
          if negb (signature =? kArrayDataSignature) then stay_with line VERIFY_ERROR_GENERIC
          else
            width ← arrayData !! 1%nat;
            stay_with line (if negb (width =? elem_width type) then VERIFY_ERROR_GENERIC else failure))
    end.

(** [OP_IF_EQ] to [OP_IF_LEZ]. *)
Definition if_eq (line : RegisterLine) (vA vB failure : Z) : handler :=
  type1 ← getRegisterType line vA;
  type2 ← getRegisterType line vB;
  if regTypeIsReference type1 && regTypeIsReference type2 then stay_with line failure
  else
    failure ← category type1 kTypeCategory1nr failure;
    failure ← category type2 kTypeCategory1nr failure;
    stay_with line (if (type1 =? kRegTypeFloat) || (type2 =? kRegTypeFloat) then VERIFY_ERROR_GENERIC else failure).

Definition if_lt (line : RegisterLine) (vA vB failure : Z) : handler :=
  tmpType ← getRegisterType line vA;
  failure ← not_float tmpType failure;
  if negb (VERIFY_OK failure) then stay_with line failure
  else
    tmpType ← getRegisterType line vB;
    failure ← not_float tmpType failure;
    stay_with line failure.

Definition if_eqz (line : RegisterLine) (vA failure : Z) : handler :=
  tmpType ← getRegisterType line vA;
  if regTypeIsReference tmpType then stay_with line failure
  else failure ← not_float tmpType failure; stay_with line failure.

Definition if_ltz (line : RegisterLine) (vA failure : Z) : handler :=
  tmpType ← getRegisterType line vA;
  failure ← not_float tmpType failure;
  stay_with line failure.

(** The index and the array of an access; [access] is for a class that is not [NULL]. *)
Definition array_access (line : RegisterLine) (vB vC failure : Z) (null : Z -> handler)
    (access : Z -> Z -> handler) : handler :=
  indexType ← getRegisterType line vC;
  failure ← checkArrayIndexType NDEBUG indexType failure;
  if negb (VERIFY_OK failure) then stay_with line failure
  else
    '(resClass, failure) ← getClassFromRegister line vB failure;
    if negb (VERIFY_OK failure) then stay_with line failure
    else if resClass =? 0 then null failure else access resClass failure.

(** [OP_AGET] to [OP_AGET_OBJECT]. *)
Definition aget_1nr (line : RegisterLine) (vA vB vC tmpType failure : Z) : handler :=
  array_access line vB vC failure
    (fun failure => set_or_fail line vA (Some kRegTypeZero) failure)
    (fun resClass failure =>
      elem ← primitive_array resClass;
      match elem with
      | None => stay_with line VERIFY_ERROR_GENERIC
      | Some type =>
          srcType ← primitiveTypeToRegType NDEBUG type;
          let tmpType := correct_float srcType tmpType in
          set_or_fail line vA (if checkFieldArrayStore1nr tmpType srcType then Some tmpType else None) failure
      end).

Definition aget_wide (line : RegisterLine) (vA vB vC failure : Z) : handler :=
  array_access line vB vC failure
    (fun failure => set_or_fail line vA (Some kRegTypeConstLo) failure)
    (fun resClass failure =>
      elem ← primitive_array resClass;
      match elem with
      | None => stay_with line VERIFY_ERROR_GENERIC
      | Some PRIM_LONG => set_or_fail line vA (Some kRegTypeLongLo) failure
      | Some PRIM_DOUBLE => set_or_fail line vA (Some kRegTypeDoubleLo) failure
      | Some _ => set_or_fail line vA (Some kRegTypeUnknown) VERIFY_ERROR_GENERIC
      end).

Definition aget_object (line : RegisterLine) (vA vB vC failure : Z) : handler :=
  array_access line vB vC failure
    (fun failure => set_or_fail line vA (Some kRegTypeZero) failure)
    (fun resClass failure =>
      k ← classes !! resClass;
      if negb (dvmIsArrayClass k) then stay_with line VERIFY_ERROR_GENERIC
      else
        asserted NDEBUG (negb (elementClass k =? 0)) (
          element ← array_element resClass false;
          set_or_fail line vA (match element with Some c => Some (regTypeFromClass c) | None => None end) failure)).

(** [OP_APUT] to [OP_APUT_OBJECT]. *)
Definition aput_1nr (line : RegisterLine) (vA vB vC tmpType failure : Z) : handler :=
  indexType ← getRegisterType line vC;
  failure ← checkArrayIndexType NDEBUG indexType failure;
  if negb (VERIFY_OK failure) then stay_with line failure
  else
    srcType ← getRegisterType line vA;
    let tmpType := correct_float srcType tmpType in
    ok ← canConvertTo1nr srcType tmpType;
    if negb ok then stay_with line VERIFY_ERROR_GENERIC
    else
      '(resClass, failure) ← getClassFromRegister line vB failure;
      if negb (VERIFY_OK failure) || (resClass =? 0) then stay_with line failure
      else
        elem ← primitive_array resClass;
        match elem with
        | None => stay_with line VERIFY_ERROR_GENERIC
        | Some type =>
            dstType ← primitiveTypeToRegType NDEBUG type;
            let tmpType := correct_float dstType tmpType in
            '(line, failure) ← verify_type line vA dstType failure;
            stay_with line (if (dstType =? kRegTypeUnknown) || negb (checkFieldArrayStore1nr tmpType dstType)
                          then VERIFY_ERROR_GENERIC else failure)
        end.

Definition aput_wide (line : RegisterLine) (vA vB vC failure : Z) : handler :=
  array_access line vB vC failure
    (fun failure => stay_with line failure)
    (fun resClass failure =>
      elem ← primitive_array resClass;
      match elem with
      | Some PRIM_LONG => verify_type line vA kRegTypeLongLo failure
      | Some PRIM_DOUBLE => verify_type line vA kRegTypeDoubleLo failure
      | _ => stay_with line VERIFY_ERROR_GENERIC
      end).

Definition aput_object (line : RegisterLine) (vA vB vC failure : Z) : handler :=
  array_access line vA vC failure
    (fun failure => stay_with line failure)
    (fun resClass failure =>
      '(arrayClass, failure) ← getClassFromRegister line vB failure;
      if arrayClass =? 0 then stay_with line failure
      else
        k ← classes !! arrayClass;
        if negb (dvmIsArrayClass k) then stay_with line VERIFY_ERROR_GENERIC
        else
          element ← array_element arrayClass true;
          c ← element;
          e ← classes !! c;
          stay_with line (if negb (bool_decide (primitiveType e = PRIM_NOT)) then VERIFY_ERROR_GENERIC else failure)).

(** Fields: [find] gives the field and the failure. *)
Definition with_field (line : RegisterLine) (find : option (option FieldInfo * Z))
    (access : FieldInfo -> Z -> handler) : handler :=
  '(field, failure) ← find;
  if negb (VERIFY_OK failure) then stay_with line failure
  else f ← field; access f failure.

(** The same, for an access that stores. *)
Definition with_stored_field (line : RegisterLine) (find : option (option FieldInfo * Z))
    (access : FieldInfo -> Z -> handler) : handler :=
  with_field line find (fun f failure =>
    let failure := checkFinalFieldAccess f failure in
    if negb (VERIFY_OK failure) then stay_with line failure else access f failure).

Definition wide_field_type (f : FieldInfo) : option Z :=
  if char_at (f_signature f) 0 =? 68 then Some kRegTypeDoubleLo
  else if char_at (f_signature f) 0 =? 74 then Some kRegTypeLongLo
  else None.

(** [OP_IGET] and [OP_SGET] to [OP_IGET_OBJECT] and [OP_SGET_OBJECT]. [reject_unknown]:
    the test of [OP_IGET] that [OP_SGET] lacks. *)
Definition get_1nr (line : RegisterLine) (vA tmpType : Z) (reject_unknown : bool) (f : FieldInfo) (failure : Z) : handler :=
  fieldType ← primSigCharToRegType NDEBUG (char_at (f_signature f) 0);
  let tmpType := correct_float fieldType tmpType in
  set_or_fail line vA
    (if reject_unknown && (fieldType =? kRegTypeUnknown) || negb (checkFieldArrayStore1nr tmpType fieldType)
     then None else Some tmpType) failure.

Definition get_wide (line : RegisterLine) (vA : Z) (f : FieldInfo) (failure : Z) : handler :=
  set_or_fail line vA (wide_field_type f) failure.

Definition get_object (line : RegisterLine) (vA : Z) (f : FieldInfo) (failure : Z) : handler :=
  fieldClass ← field_class (f_signature f);
  set_or_fail line vA (if fieldClass =? 0 then None else Some (regTypeFromClass fieldClass)) failure.

Definition iget (line : RegisterLine) (uninitMap : UninitInstanceMap) (vB vC failure : Z)
    (access : FieldInfo -> Z -> handler) : handler :=
  objType ← getRegisterType line vB;
  with_field line (getInstField uninitMap objType vC failure) access.

Definition sget (line : RegisterLine) (vB : Z) (access : FieldInfo -> Z -> handler) : handler :=
  with_field line (getStaticField vB) access.

(** [OP_IPUT] and [OP_SPUT] to [OP_IPUT_OBJECT] and [OP_SPUT_OBJECT]; [find] is read once
    the register was looked at. *)
Definition put_1nr (line : RegisterLine) (vA tmpType : Z) (find : option (option FieldInfo * Z)) : handler :=
  srcType ← getRegisterType line vA;
  let tmpType := if (tmpType =? kRegTypeBoolean) && (srcType =? kRegTypeByte) then kRegTypeByte else tmpType in
  let tmpType := correct_float srcType tmpType in
  ok ← canConvertTo1nr srcType tmpType;
  if negb ok then stay_with line VERIFY_ERROR_GENERIC
  else
    with_stored_field line find (fun f failure =>
      fieldType ← primSigCharToRegType NDEBUG (char_at (f_signature f) 0);
      let tmpType := correct_float fieldType tmpType in
      let fieldType := if (fieldType =? kRegTypeBoolean) && (srcType =? kRegTypeByte) then kRegTypeByte else fieldType in
      '(line, failure) ← verify_type line vA fieldType failure;
      stay_with line (if (fieldType =? kRegTypeUnknown) || negb (checkFieldArrayStore1nr tmpType fieldType)
                    then VERIFY_ERROR_GENERIC else failure)).

Definition put_wide (line : RegisterLine) (vA : Z) (find : option (option FieldInfo * Z)) (failure : Z) : handler :=
  tmpType ← getRegisterType line vA;
  typeHi ← getRegisterType line (u32 (vA + 1));
  failure ← category tmpType kTypeCategory2 failure;
  let failure := checkWidePair tmpType typeHi failure in
  if negb (VERIFY_OK failure) then stay_with line failure
  else
    with_stored_field line find (fun f failure =>
      match wide_field_type f with
      | Some type => verify_type line vA type failure
      | None => stay_with line VERIFY_ERROR_GENERIC
      end).

Definition put_object (line : RegisterLine) (vA : Z) (find : option (option FieldInfo * Z)) : handler :=
  with_stored_field line find (fun f failure =>
    fieldClass ← field_class (f_signature f);
    if fieldClass =? 0 then stay_with line VERIFY_ERROR_GENERIC
    else
      valueType ← getRegisterType line vA;
      if negb (regTypeIsReference valueType) then stay_with line VERIFY_ERROR_GENERIC
      else if valueType =? kRegTypeZero then stay_with line failure
      else
        valueClass ← regTypeInitializedReferenceToClass valueType;
        if valueClass =? 0 then stay_with line VERIFY_ERROR_GENERIC
        else
          k ← classes !! fieldClass;
          if dvmIsInterfaceClass k then stay_with line failure
          else
            b ← dvmInstanceof classes fuel valueClass fieldClass;
            stay_with line (if (b : bool) then failure else VERIFY_ERROR_GENERIC)).

Definition find_instance (line : RegisterLine) (uninitMap : UninitInstanceMap) (vB vC failure : Z) :
    option (option FieldInfo * Z) :=
  objType ← getRegisterType line vB;
  getInstField uninitMap objType vC failure.

(** *** Invocations *)

Definition resolve_method (methodType : MethodType) (methodIdx : Z) : option MethodInfo * Z :=
  match methodType with
  | METHOD_INTERFACE => (dvmOptResolveInterfaceMethod methodIdx, VERIFY_ERROR_NONE)
  | _ => dvmOptResolveMethod methodIdx methodType
  end.

(** The checks of [OP_INVOKE_DIRECT] where the method is [<init>]. *)
Definition invoke_init (line : RegisterLine) (uninitMap : UninitInstanceMap) (decInsn : DecodedInstruction)
    (calledMethod : MethodInfo) (failure : Z) : handler :=
  '(thisType, failure) ← getInvocationThis line decInsn failure;
  if negb (VERIFY_OK failure) then stay_with line failure
  else if thisType =? kRegTypeZero then stay_with line VERIFY_ERROR_GENERIC
  else
    thisClass ← regTypeReferenceToClass thisType uninitMap;
    asserted NDEBUG (negb (thisClass =? 0)) (
      k ← classes !! thisClass;
      if (m_clazz calledMethod =? super k) && negb (thisClass =? m_clazz meth) then stay_with line VERIFY_ERROR_GENERIC
      else if negb (m_clazz calledMethod =? super k) && negb (m_clazz calledMethod =? thisClass)
      then stay_with line VERIFY_ERROR_GENERIC
      else if negb (regTypeIsUninitReference thisType) then stay_with line VERIFY_ERROR_GENERIC
      else markRefsAsInitialized NDEBUG line (m_registersSize code) uninitMap thisType failure).

(** The result, for the result register; the flag: it is set. *)
Definition invoke (line : RegisterLine) (uninitMap : UninitInstanceMap) (decInsn : DecodedInstruction)
    (methodType : MethodType) (isRange isSuper : bool) : option (RegisterLine * Z * bool) :=
  let '(resolved, failure) := resolve_method methodType (vB decInsn) in
  '(called, line, failure) ←
    invocation_args meth line decInsn uninitMap methodType isRange isSuper resolved failure;
  if negb (VERIFY_OK failure) then Some (line, failure, false)
  else
    calledMethod ← called;
    '(line, failure) ←
      (if bool_decide (methodType = METHOD_DIRECT) && isInitMethod calledMethod
       then invoke_init line uninitMap decInsn calledMethod failure else stay_with line failure);
    if negb (VERIFY_OK failure) then Some (line, failure, false)
    else
      returnType ← return_type_of calledMethod;
      line ← setResultRegisterType line (m_registersSize code) returnType;
      Some (line, failure, true).

(** *** The switch *)

Definition move_exception (line : RegisterLine) (vA insnIdx failure : Z) : handler :=
  '(resClass, failure) ← getCaughtExceptionType insnIdx failure;
  if resClass =? 0 then asserted NDEBUG (negb (VERIFY_OK failure)) (stay_with line failure)
  else set_or_fail line vA (Some (regTypeFromClass resClass)) failure.

Definition shift_litop (line : RegisterLine) (d : DecodedInstruction) (isUnsignedShift : bool) (failure : Z) : handler :=
  srcType ← getRegisterType line (vB d);
  tmpType ← adjustForRightShift NDEBUG srcType (vC d) isUnsignedShift;
  checkLitop NDEBUG classes fuel line d tmpType kRegTypeInteger false failure.

(** The groups that leave all but the registers and the failure alone. *)
Definition plain_effect (g : InsnGroup) (d : DecodedInstruction) (insnIdx : Z) (line : RegisterLine)
    (uninitMap : UninitInstanceMap) (failure : Z) : handler :=
  let regs := m_registersSize code in
  match g with
  | G_NOP => stay_with line (if negb (vA d =? 0) then VERIFY_ERROR_GENERIC else failure)
  | G_MOVE cat => copyRegister1 NDEBUG line (vA d) (vB d) cat failure
  | G_MOVE_WIDE => copyRegister2 NDEBUG line (vA d) (vB d) failure
  | G_MOVE_RESULT cat => copyResultRegister1 NDEBUG line regs (vA d) cat failure
  | G_MOVE_RESULT_WIDE => copyResultRegister2 NDEBUG line regs (vA d) failure
  | G_MOVE_EXCEPTION => move_exception line (vA d) insnIdx failure
  | G_RETURN_VOID => return_void line failure
  | G_RETURN => return_1nr line (vA d) failure
  | G_RETURN_WIDE => return_wide line (vA d) failure
  | G_RETURN_OBJECT => return_object line (vA d) failure
  | G_CONST => set_or_fail line (vA d) (Some (determineCat1Const (s32 (vB d)))) failure
  | G_CONST_HIGH16 => set_or_fail line (vA d) (Some (determineCat1Const (s32 (Z.shiftl (s32 (vB d)) 16)))) failure
  | G_CONST_WIDE => set_or_fail line (vA d) (Some kRegTypeConstLo) failure
  | G_CONST_STRING => set_or_fail line (vA d) (Some (regTypeFromClass classJavaLangString)) failure
  | G_CONST_CLASS => const_class line (vA d) (vB d)
  | G_MONITOR_ENTER => handleMonitorEnter line (vA d) insnIdx failure
  | G_CHECK_CAST => check_cast line (vA d) (vB d)
  | G_INSTANCE_OF => instance_of line (vA d) (vB d) (vC d) failure
  | G_ARRAY_LENGTH => array_length line (vA d) (vB d) failure
  | G_NEW_ARRAY => new_array line (vA d) (vB d) (vC d)
  | G_CMP type => compare line (vA d) (vB d) (vC d) type failure
  | G_THROW => throw line (vA d) failure
  | G_GOTO => stay_with line failure
  | G_SWITCH => verify_type line (vA d) kRegTypeInteger failure
  | G_FILL_ARRAY_DATA => fill_array_data line (vA d) insnIdx failure
  | G_IF_EQ => if_eq line (vA d) (vB d) failure
  | G_IF_LT => if_lt line (vA d) (vB d) failure
  | G_IF_EQZ => if_eqz line (vA d) failure
  | G_IF_LTZ => if_ltz line (vA d) failure
  | G_AGET tmpType => aget_1nr line (vA d) (vB d) (vC d) tmpType failure
  | G_AGET_WIDE => aget_wide line (vA d) (vB d) (vC d) failure
  | G_AGET_OBJECT => aget_object line (vA d) (vB d) (vC d) failure
  | G_APUT tmpType => aput_1nr line (vA d) (vB d) (vC d) tmpType failure
  | G_APUT_WIDE => aput_wide line (vA d) (vB d) (vC d) failure
  | G_APUT_OBJECT => aput_object line (vA d) (vB d) (vC d) failure
  | G_IGET tmpType => iget line uninitMap (vB d) (vC d) failure (get_1nr line (vA d) tmpType true)
  | G_IGET_WIDE => iget line uninitMap (vB d) (vC d) failure (get_wide line (vA d))
  | G_IGET_OBJECT => iget line uninitMap (vB d) (vC d) failure (get_object line (vA d))
  | G_IPUT tmpType => put_1nr line (vA d) tmpType (find_instance line uninitMap (vB d) (vC d) failure)
  | G_IPUT_WIDE => put_wide line (vA d) (find_instance line uninitMap (vB d) (vC d) failure) failure
  | G_IPUT_OBJECT => put_object line (vA d) (find_instance line uninitMap (vB d) (vC d) failure)
  | G_SGET tmpType => sget line (vB d) (get_1nr line (vA d) tmpType false)
  | G_SGET_WIDE => sget line (vB d) (get_wide line (vA d))
  | G_SGET_OBJECT => sget line (vB d) (get_object line (vA d))
  | G_SPUT tmpType => put_1nr line (vA d) tmpType (getStaticField (vB d))
  | G_SPUT_WIDE => put_wide line (vA d) (getStaticField (vB d)) failure
  | G_SPUT_OBJECT => put_object line (vA d) (getStaticField (vB d))
  | G_UNOP dstType srcType => checkUnop NDEBUG classes fuel line d dstType srcType failure
  | G_BINOP dstType srcType1 srcType2 b => checkBinop NDEBUG classes fuel line d dstType srcType1 srcType2 b failure
  | G_BINOP_2ADDR dstType srcType1 srcType2 b =>
      checkBinop2addr NDEBUG classes fuel line d dstType srcType1 srcType2 b failure
  | G_LITOP b => checkLitop NDEBUG classes fuel line d kRegTypeInteger kRegTypeInteger b failure
  | G_SHIFT_LITOP isUnsignedShift => shift_litop line d isUnsignedShift failure
  | G_THROW_VERIFICATION_ERROR => stay_with line failure
  | _ => stay_with line VERIFY_ERROR_GENERIC
  end.

Definition effect (d : DecodedInstruction) (insnIdx : Z) (line : RegisterLine) (uninitMap : UninitInstanceMap)
    (nextFlags : Z) : option Effect :=
  let failure := VERIFY_ERROR_NONE in
  let called r :=
    '(line, failure, justSetResult) ← r;
    Some (MkEffect line uninitMap failure justSetResult nextFlags) in
  match group_of (opcode d) with
  | G_MONITOR_EXIT =>
      let nextFlags := match monitorEntries line with Some _ => Z.ldiff nextFlags kInstrCanThrow | None => nextFlags end in
      '(line, failure) ← handleMonitorExit line (vA d) failure;
      Some (MkEffect line uninitMap failure false nextFlags)
  | G_NEW_INSTANCE =>
      '(line, uninitMap, failure) ← new_instance line uninitMap (vA d) (vB d) insnIdx;
      Some (MkEffect line uninitMap failure false nextFlags)
  | G_FILLED_NEW_ARRAY isRange => called (filled_new_array line d isRange)
  | G_INVOKE_VIRTUAL isRange isSuper => called (invoke line uninitMap d METHOD_VIRTUAL isRange isSuper)
  | G_INVOKE_DIRECT isRange => called (invoke line uninitMap d METHOD_DIRECT isRange false)
  | G_INVOKE_STATIC isRange => called (invoke line uninitMap d METHOD_STATIC isRange false)
  | G_INVOKE_INTERFACE isRange => called (invoke line uninitMap d METHOD_INTERFACE isRange false)
  | g =>
      '(line, failure) ← plain_effect g d insnIdx line uninitMap failure;
      Some (MkEffect line uninitMap failure false nextFlags)
  end.

End Effect.
