(* ===== verification/CodeFlow.v ===== *)
(** * The code-flow pass: the work list of [dalvik/vm/analysis/CodeVerify.cpp]

    The table of register lines, the merge of lines where control flows together, the
    successors of an instruction, and the loop over the instructions whose lines have
    changed. *)

From stdpp Require Import gmap.
From S2P Require Import Prelude Bits Search DexFile OpcodeTables Opcodes InstrUtils SwitchData DexCatch DexVerify.
From S2P Require Import TypeCheck RegTypes RegMerge RegLine Signatures VerifyInsn.

(** ** Flags: [VerifySubs.h] and [CodeVerify.h] *)

Definition kInsnFlagVisited : Z := Z.shiftl 1 30.
Definition kInsnFlagChanged : Z := Z.shiftl 1 31.

Definition has_flag (insnFlags : list Z) (addr bits : Z) : option bool :=
  flags ← aref insnFlags (s32 addr);
  Some (negb (Z.land flags bits =? 0)).

(** [insnFlags[addr] &= ~bits]. *)
Definition clear_flags (insnFlags : list Z) (addr bits : Z) : option (list Z) :=
  flags ← aref insnFlags (s32 addr);
  aset insnFlags (s32 addr) (Z.ldiff flags bits).

Definition dvmInsnIsChanged (insnFlags : list Z) (addr : Z) : option bool := has_flag insnFlags addr kInsnFlagChanged.

Definition dvmInsnSetChanged (insnFlags : list Z) (addr : Z) (changed : bool) : option (list Z) :=
  if changed then or_flags insnFlags addr kInsnFlagChanged else clear_flags insnFlags addr kInsnFlagChanged.

Definition dvmInsnIsVisited (insnFlags : list Z) (addr : Z) : option bool := has_flag insnFlags addr kInsnFlagVisited.

Definition dvmInsnSetVisited (insnFlags : list Z) (addr : Z) (changed : bool) : option (list Z) :=
  if changed then or_flags insnFlags addr kInsnFlagVisited else clear_flags insnFlags addr kInsnFlagVisited.

Definition dvmInsnIsVisitedOrChanged (insnFlags : list Z) (addr : Z) : option bool :=
  has_flag insnFlags addr (Z.lor kInsnFlagVisited kInsnFlagChanged).

Definition dvmInsnIsInTry (insnFlags : list Z) (addr : Z) : option bool := has_flag insnFlags addr kInsnFlagInTry.

Definition dvmInsnIsBranchTarget (insnFlags : list Z) (addr : Z) : option bool :=
  has_flag insnFlags addr kInsnFlagBranchTarget.

Definition dvmInsnIsGcPoint (insnFlags : list Z) (addr : Z) : option bool := has_flag insnFlags addr kInsnFlagGcPoint.

(** ** The register table *)

Definition kExtraRegs : Z := 2.

Inductive RegisterTrackingMode := kTrackRegsBranches | kTrackRegsGcPoints | kTrackRegsAll.

(** What the pass changes: the code, the flags, the lines of the table ([None] where no
    registers are stored), the two lines beside it, and the map of instances. *)
Record FlowState := MkFlow {
  fs_code : Method;
  fs_flags : list Z;
  fs_lines : list (option RegisterLine);
  fs_work : RegisterLine;
  fs_saved : RegisterLine;
  fs_uninit : UninitInstanceMap
}.

Definition with_code c s := MkFlow c (fs_flags s) (fs_lines s) (fs_work s) (fs_saved s) (fs_uninit s).
Definition with_flags f s := MkFlow (fs_code s) f (fs_lines s) (fs_work s) (fs_saved s) (fs_uninit s).
Definition with_lines l s := MkFlow (fs_code s) (fs_flags s) l (fs_work s) (fs_saved s) (fs_uninit s).
Definition with_work w s := MkFlow (fs_code s) (fs_flags s) (fs_lines s) w (fs_saved s) (fs_uninit s).
Definition with_saved w s := MkFlow (fs_code s) (fs_flags s) (fs_lines s) (fs_work s) w (fs_uninit s).
Definition with_uninit u s := MkFlow (fs_code s) (fs_flags s) (fs_lines s) (fs_work s) (fs_saved s) u.

Definition insnRegCountPlus (code : Method) : nat := Z.to_nat (m_registersSize code + kExtraRegs).

(** [calloc]ed storage. *)
Definition assignLineStorage (trackMonitors : bool) (code : Method) : RegisterLine :=
  MkLine (replicate (insnRegCountPlus code) kRegTypeUnknown)
    (if trackMonitors then Some (replicate (insnRegCountPlus code) 0) else None)
    (replicate (Z.to_nat kMaxMonitorStackDepth) 0) 0.

Definition interesting (trackRegsFor : RegisterTrackingMode) (insnFlags : list Z) (i : Z) : option bool :=
  match trackRegsFor with
  | kTrackRegsAll => dvmInsnIsOpcode insnFlags i
  | kTrackRegsGcPoints =>
      gc ← dvmInsnIsGcPoint insnFlags i;
      target ← dvmInsnIsBranchTarget insnFlags i;
      Some (gc || target)
  | kTrackRegsBranches => dvmInsnIsBranchTarget insnFlags i
  end.

Section Flow.
Context (NDEBUG optimizing : bool) (classes : gmap Z ClassObject) (fuel : nat) `{Resolution}.

(** [meth]: the method as the rest of the virtual machine sees it. [undecoded]: what the
    variable for the decoded instruction holds before. *)
Context (meth : MethodInfo) (undecoded : DecodedInstruction).

Abbreviation merge_types := (mergeTypes NDEBUG classes dvmFindArrayClass classLoader fuel).

Definition initRegisterTable (code : Method) (insnFlags : list Z) (uninitMap : UninitInstanceMap)
    (trackRegsFor : RegisterTrackingMode) (trackMonitors : bool) : option FlowState :=
  asserted NDEBUG (dvmGetMethodInsnsSize code >? 0) (
    let line := assignLineStorage trackMonitors code in
    lines ← mapM (fun i => b ← interesting trackRegsFor insnFlags i; Some (if (b : bool) then Some line else None))
              (seqZ 0 (dvmGetMethodInsnsSize code));
    first ← aref lines 0;
    asserted NDEBUG (match first with Some _ => true | None => false end)
      (Some (MkFlow code insnFlags lines line line uninitMap))).

(** ** Lines *)

(** [memcpy] of [n] elements. *)
Definition copy_first {A} (n : nat) (dst src : list A) : option (list A) :=
  if (n <=? length src)%nat && (n <=? length dst)%nat then Some (take n src ++ drop n dst) else None.

Definition copyRegisterLine (dst src : RegisterLine) (numRegs : nat) : option RegisterLine :=
  types ← copy_first numRegs (regTypes dst) (regTypes src);
  match monitorEntries dst, monitorEntries src with
  | None, None => Some (with_types types dst)
  | None, Some _ => asserted NDEBUG false (Some (with_types types dst))
  | Some entries, Some from =>
      entries ← copy_first numRegs entries from;
      stack ← copy_first (Z.to_nat kMaxMonitorStackDepth) (monitorStack dst) (monitorStack src);
      Some (MkLine types (Some entries) stack (monitorStackTop src))
  | Some _, None => None
  end.

Definition getRegisterLine (s : FlowState) (insnIdx : Z) : option (option RegisterLine) := aref (fs_lines s) insnIdx.

(** A line that is [NULL] is no line to copy to or from. *)
Definition copyLineToTable (s : FlowState) (insnIdx : Z) (src : RegisterLine) : option FlowState :=
  dst ← getRegisterLine s insnIdx;
  dst ← dst;
  line ← copyRegisterLine dst src (insnRegCountPlus (fs_code s));
  lines ← aset (fs_lines s) insnIdx (Some line);
  Some (with_lines lines s).

Definition copyLineFromTable (s : FlowState) (insnIdx : Z) : option FlowState :=
  src ← getRegisterLine s insnIdx;
  src ← src;
  line ← copyRegisterLine (fs_work s) src (insnRegCountPlus (fs_code s));
  Some (with_work line s).

(** The loop over the registers, for their types and for their monitors. *)
Fixpoint merge_first {A} (merge : A -> A -> option (A * bool)) (n : nat) (target work : list A) : option (list A * bool) :=
  match n, target, work with
  | O, _, _ => Some (target, false)
  | S n, t :: target, w :: work =>
      '(r, changed) ← merge t w;
      '(rs, others) ← merge_first merge n target work;
      Some (r :: rs, changed || others)
  | _, _, _ => None
  end.

(** The stacks are equal as far as they go. *)
Definition same_stack (target work : RegisterLine) : option bool :=
  if negb (monitorStackTop target =? monitorStackTop work) then Some false
  else
    let n := Z.to_nat (monitorStackTop target) in
    if (n <=? length (monitorStack target))%nat && (n <=? length (monitorStack work))%nat
    then Some (bool_decide (take n (monitorStack target) = take n (monitorStack work))) else None.

(** [Some None]: the monitors do not match. *)
Definition merge_line (code : Method) (target work : RegisterLine) : option (option (RegisterLine * bool)) :=
  let n := insnRegCountPlus code in
  same ← (match monitorEntries target with Some _ => same_stack target work | None => Some true end);
  if negb same then Some None
  else
    '(types, changed) ← merge_first merge_types n (regTypes target) (regTypes work);
    match monitorEntries target with
    | None => Some (Some (with_types types target, changed))
    | Some entries =>
        from ← monitorEntries work;
        '(entries, changed') ← merge_first (fun a b => Some (mergeMonitorEntries a b)) n entries from;
        Some (Some (with_entries (Some entries) (with_types types target), changed || changed'))
    end.

(** [Some None] from here on: the method is rejected. *)
Definition updateRegisters (s : FlowState) (nextInsn : Z) (workLine : RegisterLine) : option (option FlowState) :=
  seen ← dvmInsnIsVisitedOrChanged (fs_flags s) nextInsn;
  if negb seen then
    s ← copyLineToTable s nextInsn workLine;
    flags ← dvmInsnSetChanged (fs_flags s) nextInsn true;
    Some (Some (with_flags flags s))
  else
    targetLine ← getRegisterLine s nextInsn;
    targetLine ← targetLine;
    merged ← merge_line (fs_code s) targetLine workLine;
    match merged with
    | None => Some None
    | Some (line, changed) =>
        lines ← aset (fs_lines s) nextInsn (Some line);
        flags ← (if (changed : bool) then dvmInsnSetChanged (fs_flags s) nextInsn true else Some (fs_flags s));
        Some (Some (with_flags flags (with_lines lines s)))
    end.

Definition checkMoveException (code : Method) (insnIdx : Z) : option bool :=
  asserted NDEBUG ((0 <=? insnIdx) && (insnIdx <? s32 (dvmGetMethodInsnsSize code))) (
    inst ← aref (insns (code_of code)) insnIdx;
    Some (negb (Z.land inst 0xff =? OP_MOVE_EXCEPTION))).

(** ** Instructions that always throw *)

Definition dvmUpdateCodeUnit (code : Method) (ptr newVal : Z) : option Method :=
  let c := code_of code in
  units ← aset (insns c) ptr newVal;
  Some (MkMethod (m_registersSize code) (m_insSize code) (dvmIsNativeMethod code) (dvmIsAbstractMethod code)
          (DexVerify.isInitMethod code) (insns_addr code)
          (MkDexCode (registersSize c) (insSize c) (outsSize c) (triesSize c) (debugInfoOff c) (insnsSize c) units
             (tries c) (handler_data c))).

Definition VERIFY_ERROR_REF_CLASS : Z := 0.
Definition VERIFY_ERROR_REF_FIELD : Z := 1.
Definition VERIFY_ERROR_REF_METHOD : Z := 2.
Definition kVerifyErrorRefTypeShift : Z := 6.

Definition ref_type (opcode : Z) : option Z :=
  if one_of opcode [OP_CONST_CLASS; OP_CHECK_CAST; OP_INSTANCE_OF; OP_NEW_INSTANCE; OP_NEW_ARRAY;
                    OP_FILLED_NEW_ARRAY; OP_FILLED_NEW_ARRAY_RANGE] then Some VERIFY_ERROR_REF_CLASS
  else if one_of opcode [OP_IGET; OP_IGET_BOOLEAN; OP_IGET_BYTE; OP_IGET_CHAR; OP_IGET_SHORT; OP_IGET_WIDE; OP_IGET_OBJECT;
                         OP_IPUT; OP_IPUT_BOOLEAN; OP_IPUT_BYTE; OP_IPUT_CHAR; OP_IPUT_SHORT; OP_IPUT_WIDE; OP_IPUT_OBJECT;
                         OP_SGET; OP_SGET_BOOLEAN; OP_SGET_BYTE; OP_SGET_CHAR; OP_SGET_SHORT; OP_SGET_WIDE; OP_SGET_OBJECT;
                         OP_SPUT; OP_SPUT_BOOLEAN; OP_SPUT_BYTE; OP_SPUT_CHAR; OP_SPUT_SHORT; OP_SPUT_WIDE; OP_SPUT_OBJECT]
  then Some VERIFY_ERROR_REF_FIELD
  else if one_of opcode [OP_INVOKE_VIRTUAL; OP_INVOKE_VIRTUAL_RANGE; OP_INVOKE_SUPER; OP_INVOKE_SUPER_RANGE;
                         OP_INVOKE_DIRECT; OP_INVOKE_DIRECT_RANGE; OP_INVOKE_STATIC; OP_INVOKE_STATIC_RANGE;
                         OP_INVOKE_INTERFACE; OP_INVOKE_INTERFACE_RANGE] then Some VERIFY_ERROR_REF_METHOD
  else None.

(** [Some None]: false. *)
Definition replaceFailingInstruction (code : Method) (insnFlags : list Z) (insnIdx failure : Z) : option (option Method) :=
  oldInst ← aref (insns (code_of code)) insnIdx;
  let opcode := dexOpcodeFromCodeUnit oldInst in
  match ref_type opcode with
  | None => Some None
  | Some refType =>
      opFlags ← dexGetFlagsFromOpcode opcode;
      asserted NDEBUG (negb (Z.land opFlags kInstrCanThrow =? 0)) (
        width ← dvmInsnGetWidth insnFlags insnIdx;
        code ← (if (width =? 2) || (width =? 4) then Some code
                else if width =? 3 then dvmUpdateCodeUnit code (insnIdx + 2) OP_NOP
                else None);
        asserted NDEBUG ((width =? 2) || (width =? 3)) (
          let newVal := u16 (Z.lor (Z.lor OP_THROW_VERIFICATION_ERROR (Z.shiftl failure 8))
                               (Z.shiftl refType (8 + kVerifyErrorRefTypeShift))) in
          code ← dvmUpdateCodeUnit code insnIdx newVal;
          Some (Some code)))
  end.

(** ** An instruction *)

Definition rejected {A} : option (option A) := Some None.

(** Goes on unless the method is rejected. *)
Definition unless_rejected {A B} (r : option (option A)) (go_on : A -> option (option B)) : option (option B) :=
  a ← r; match a with None => rejected | Some a => go_on a end.

(** Control goes to [target]; [note] is where from. *)
Definition branch_to (s : FlowState) (target : Z) : option (option FlowState) :=
  fine ← checkMoveException (fs_code s) target;
  if negb fine then rejected else updateRegisters s target (fs_work s).

(** Handle "continue". *)
Definition flow_continue (s : FlowState) (insnIdx : Z) : option (option FlowState) :=
  insnWidth ← dvmInsnGetWidth (fs_flags s) insnIdx;
  let next := insnIdx + insnWidth in
  if next >=? s32 (dvmGetMethodInsnsSize (fs_code s)) then rejected
  else
    fine ← checkMoveException (fs_code s) next;
    if negb fine then rejected
    else
      line ← getRegisterLine s next;
      match line with
      | Some _ => updateRegisters s next (fs_work s)
      | None => flags ← dvmInsnSetChanged (fs_flags s) next true; Some (Some (with_flags flags s))
      end.

(** Handle "branch"; the offset of the target. *)
Definition flow_branch (s : FlowState) (insnIdx nextFlags : Z) : option (option (FlowState * Z)) :=
  offset ← dvmGetBranchOffset (fs_code s) insnIdx;
  match offset with
  | None => rejected
  | Some (branchTarget, isConditional) =>
      let continues := negb (Z.land nextFlags kInstrCanContinue =? 0) in
      asserted NDEBUG (Bool.eqb isConditional continues) (
        unless_rejected (branch_to s (insnIdx + branchTarget)) (fun s => Some (Some (s, branchTarget))))
  end.

Fixpoint switch_targets (n : nat) (s : FlowState) (switchInsns : list Z) (insnIdx offsetToTargets targ : Z) :
    option (option FlowState) :=
  match n with
  | O => Some (Some s)
  | S n =>
      offset ← s4_at switchInsns (offsetToTargets + targ * 2);
      let absOffset := insnIdx + offset in
      asserted NDEBUG ((0 <=? absOffset) && (absOffset <? s32 (dvmGetMethodInsnsSize (fs_code s)))) (
        unless_rejected (branch_to s absOffset) (fun s =>
          switch_targets n s switchInsns insnIdx offsetToTargets (targ + 1)))
  end.

(** Handle "switch". *)
Definition flow_switch (s : FlowState) (insnIdx : Z) : option (option FlowState) :=
  insns ← insns_at (fs_code s) insnIdx;
  i0 ← FETCH insns 0;
  i1 ← FETCH insns 1;
  i2 ← FETCH insns 2;
  switchInsns ← insns_at (fs_code s) (insnIdx + s4_of i1 i2);
  switchCount ← aref switchInsns 1;
  if Z.land i0 0xff =? OP_PACKED_SWITCH
  then switch_targets (Z.to_nat switchCount) s switchInsns insnIdx 4 0
  else
    asserted NDEBUG (Z.land i0 0xff =? OP_SPARSE_SWITCH)
      (switch_targets (Z.to_nat switchCount) s switchInsns insnIdx (2 + 2 * switchCount) 0).

(** The handlers of a list: the saved registers flow to each. *)
Fixpoint flow_handlers (handlers : list DexCatchHandler) (s : FlowState) : option (option FlowState) :=
  match handlers with
  | [] => Some (Some s)
  | h :: handlers =>
      unless_rejected (updateRegisters s (s32 (address h)) (fs_saved s)) (fun s => flow_handlers handlers s)
  end.

(** Instructions that can throw in a "try" block. *)
Definition flow_throw (s : FlowState) (opcode insnIdx : Z) : option (option FlowState) :=
  pCode ← dvmGetMethodCode (fs_code s);
  '(found, iterator) ← dexFindCatchHandler dexCatchIteratorClear pCode insnIdx;
  handlers ← (if (found : bool) then '(hs, _) ← handlers_left iterator; Some hs else Some []);
  let hasCatchAll := existsb (fun h => typeIdx h =? kDexNoIndex) handlers in
  unless_rejected (flow_handlers handlers s) (fun s =>
    let top := monitorStackTop (fs_work s) in
    if negb (top =? 0) && negb hasCatchAll && negb ((opcode =? OP_MONITOR_ENTER) && (top =? 1))
    then rejected else Some (Some s)).

Definition clear_result (s : FlowState) : option FlowState :=
  let reg := m_registersSize (fs_code s) in
  line ← setRegisterType (fs_work s) reg kRegTypeUnknown;
  line ← setRegisterType line (u32 (reg + 1)) kRegTypeUnknown;
  Some (with_work line s).

(** Where control goes from an instruction; the last is the new [startGuess]. *)
Definition flow_on (s : FlowState) (opcode insnIdx nextFlags startGuess : Z) : option (option (FlowState * Z)) :=
  let may bit := negb (Z.land nextFlags bit =? 0) in
  unless_rejected (if may kInstrCanContinue then flow_continue s insnIdx else Some (Some s)) (fun s =>
  unless_rejected (if may kInstrCanBranch then flow_branch s insnIdx nextFlags else Some (Some (s, 0))) (fun '(s, branchTarget) =>
  unless_rejected (if may kInstrCanSwitch then flow_switch s insnIdx else Some (Some s)) (fun s =>
  in_try ← dvmInsnIsInTry (fs_flags s) insnIdx;
  unless_rejected (if may kInstrCanThrow && in_try then flow_throw s opcode insnIdx else Some (Some s)) (fun s =>
  if may kInstrCanReturn && negb (monitorStackTop (fs_work s) =? 0) then rejected
  else
    width ← dvmInsnGetWidth (fs_flags s) insnIdx;
    let guess := if may kInstrCanContinue then insnIdx + width
                 else if may kInstrCanBranch then insnIdx + branchTarget else startGuess in
    at_guess ← (if NDEBUG then Some 1 else dvmInsnGetWidth (fs_flags s) guess);
    asserted NDEBUG ((0 <=? guess) && (guess <? s32 (dvmGetMethodInsnsSize (fs_code s))) && negb (at_guess =? 0))
      (Some (Some (s, guess))))))).

(** A copy of the registers for the handlers; debug builds overwrite it otherwise. *)
Definition save_registers (s : FlowState) (insnIdx nextFlags : Z) : option FlowState :=
  in_try ← dvmInsnIsInTry (fs_flags s) insnIdx;
  let n := insnRegCountPlus (fs_code s) in
  if negb (Z.land nextFlags kInstrCanThrow =? 0) && in_try then
    line ← copyRegisterLine (fs_saved s) (fs_work s) n; Some (with_saved line s)
  else if NDEBUG then Some s
  else
    types ← copy_first n (regTypes (fs_saved s)) (replicate n 0xdddddddd);
    Some (with_saved (with_types types (fs_saved s)) s).

(** The instruction failed: the method is rejected, or the instruction replaced. *)
Definition handle_failure (s : FlowState) (insnIdx failure nextFlags : Z) : option (option (FlowState * Z)) :=
  if VERIFY_OK failure then Some (Some (s, nextFlags))
  else if (failure =? VERIFY_ERROR_GENERIC) || optimizing then rejected
  else
    unless_rejected (replaceFailingInstruction (fs_code s) (fs_flags s) insnIdx failure) (fun code =>
      Some (Some (with_code code s, kInstrCanThrow))).

Definition verifyInstruction (s : FlowState) (insnIdx startGuess : Z) : option (option (FlowState * Z)) :=
  insns ← insns_at (fs_code s) insnIdx;
  '(_, decInsn) ← dexDecodeInstruction insns undecoded;
  nextFlags ← dexGetFlagsFromOpcode (opcode decInsn);
  s ← save_registers s insnIdx nextFlags;
  e ← effect NDEBUG classes fuel meth (fs_code s) decInsn insnIdx (fs_work s) (fs_uninit s) nextFlags;
  let s := with_uninit (e_uninit e) (with_work (e_line e) s) in
  unless_rejected (handle_failure s insnIdx (e_failure e) (e_nextFlags e)) (fun '(s, nextFlags) =>
  s ← (if e_justSetResult e then Some s else clear_result s);
  flow_on s (opcode decInsn) insnIdx nextFlags startGuess).

(** ** The work list *)

(** The first changed instruction from [i] on. *)
Fixpoint find_changed (n : nat) (insnFlags : list Z) (i : Z) : option (option Z) :=
  match n with
  | O => Some None
  | S n =>
      changed ← dvmInsnIsChanged insnFlags i;
      if (changed : bool) then Some (Some i) else find_changed n insnFlags (i + 1)
  end.

(** The body of the loop, for the instruction that was found. *)
Definition process (s : FlowState) (insnIdx startGuess : Z) : option (option (FlowState * Z)) :=
  target ← dvmInsnIsBranchTarget (fs_flags s) insnIdx;
  s ← (if (target : bool) then copyLineFromTable s insnIdx else Some s);
  unless_rejected (verifyInstruction s insnIdx startGuess) (fun '(s, startGuess) =>
    flags ← dvmInsnSetVisited (fs_flags s) insnIdx true;
    flags ← dvmInsnSetChanged flags insnIdx false;
    Some (Some (with_flags flags s, startGuess))).

(** One turn of the loop. *)
Inductive turn_end :=
  | Again (s : FlowState) (startGuess : Z)
  | Rejected
  | Verified (s : FlowState).

Definition turn (s : FlowState) (startGuess : Z) : option turn_end :=
  let insnsSize := s32 (dvmGetMethodInsnsSize (fs_code s)) in
  found ← find_changed (Z.to_nat (insnsSize - startGuess)) (fs_flags s) startGuess;
  match found with
  | None => Some (if negb (startGuess =? 0) then Again s 0 else Verified s)
  | Some insnIdx =>
      r ← process s insnIdx startGuess;
      Some (match r with None => Rejected | Some (s, startGuess) => Again s startGuess end)
  end.

Inductive run_end :=
  | Timeout
  | Stuck
  | Finished (verified : option FlowState).

(** [rounds] turns at most. *)
Fixpoint run (rounds : nat) (s : FlowState) (startGuess : Z) : run_end :=
  match rounds with
  | O => Timeout
  | S rounds =>
      match turn s startGuess with
      | None => Stuck
      | Some (Again s startGuess) => run rounds s startGuess
      | Some Rejected => Finished None
      | Some (Verified s) => Finished (Some s)
      end
  end.

(** [Stuck] too where the first instruction is not there to be marked. *)
Definition doCodeVerification (rounds : nat) (s : FlowState) : run_end :=
  match dvmInsnSetChanged (fs_flags s) 0 true with
  | None => Stuck
  | Some flags => run rounds (with_flags flags s) 0
  end.

(** Where [calloc] succeeds and register maps are not live-precise. *)
Definition dvmVerifyCodeFlow (rounds : nat) (code : Method) (insnFlags : list Z) (uninitMap : UninitInstanceMap)
    (generateRegisterMap trackMonitors : bool) : run_end :=
  match
    s ← initRegisterTable code insnFlags uninitMap
          (if generateRegisterMap then kTrackRegsGcPoints else kTrackRegsBranches) trackMonitors;
    first ← aref (fs_lines s) 0;
    first ← first;
    typed ← setTypesFromSignature NDEBUG classes dvmFindClassNoInit classJavaLangObject meth
              (m_registersSize code) (m_insSize code) (regTypes first) (fs_uninit s);
    match typed with
    | None => Some None
    | Some (types, uninitMap) =>
        lines ← aset (fs_lines s) 0 (Some (with_types types first));
        Some (Some (with_uninit uninitMap (with_lines lines s)))
    end
  with
  | None => Stuck
  | Some None => Finished None
  | Some (Some s) => doCodeVerification rounds s
  end.

End Flow.
