(* ===== verification/FlowSteps.v ===== *)
(** * What the code-flow pass does to its table

    The order of register lines, and the effect of an update on the flags and the lines:
    lines only widen, an instruction whose line widens is marked, and the room left for
    that gets less each time. *)

From stdpp Require Import gmap.
From S2P Require Import Prelude Bits Search DexFile OpcodeTables Opcodes InstrUtils SwitchData DexCatch DexVerify.
From S2P Require Import TypeCheck RegTypes RegMerge RegLine Signatures VerifyInsn CodeFlow.

(** ** Sums *)

Fixpoint zsum {A} (f : A -> Z) (l : list A) : Z :=
  match l with [] => 0 | x :: l => f x + zsum f l end.

Lemma zsum_range {A} (f : A -> Z) b l : (forall x, 0 <= f x <= b) -> 0 <= zsum f l <= b * Z.of_nat (length l).
Proof. intros Hf. induction l as [|x l IH]; cbn [zsum length]; [lia|]. specialize (Hf x). lia. Qed.

Lemma Forall2_self {A} (le : A -> A -> Prop) l : (forall x, le x x) -> Forall2 le l l.
Proof. intros Hr. induction l; by constructor. Qed.

Lemma Forall2_chain {A} (le : A -> A -> Prop) l m r : (forall x y z, le x y -> le y z -> le x z) ->
  Forall2 le l m -> Forall2 le m r -> Forall2 le l r.
Proof.
  intros Ht Hlm. revert r. induction Hlm as [|x y l m Hxy _ IH]; intros r Hmr; inversion Hmr; subst; constructor; eauto.
Qed.

(** ** Merging prefixes *)

(** What the merge of two elements does, for an order and a rank. *)
Definition merge_ok {A} (le : A -> A -> Prop) (rank : A -> Z) (merge : A -> A -> option (A * bool)) : Prop :=
  forall x y z changed, merge x y = Some (z, changed) ->
    le x z /\ le y z /\ (changed = false -> z = x) /\ (changed = true -> rank z < rank x).

Lemma merge_first_spec {A} (le : A -> A -> Prop) rank merge : merge_ok le rank merge ->
  forall n target work r changed, merge_first merge n target work = Some (r, changed) ->
  length r = length target /\ Forall2 le (take n target) (take n r) /\ Forall2 le (take n work) (take n r) /\
  (changed = false -> r = target) /\ (changed = true -> zsum rank r < zsum rank target).
Proof.
  intros Hm. induction n as [|n IH]; intros target work r changed; cbn [merge_first].
  { intros [= <- <-]. by rewrite !take_0. }
  destruct target as [|t target], work as [|w work]; try done. intros E.
  apply bind_Some in E as ([m c] & E1 & E). apply bind_Some in E as ([rs cs] & E2 & [= <- <-]).
  destruct (Hm _ _ _ _ E1) as (W1 & W2 & Hn & Hl). destruct (IH _ _ _ _ E2) as (Hlen & F1 & F2 & Hn' & Hl').
  cbn [length firstn zsum]. split; [by rewrite Hlen|]. split; [by constructor|]. split; [by constructor|].
  split; destruct c, cs; cbn [orb]; try done; intros _.
  - by rewrite Hn, Hn'.
  - specialize (Hl eq_refl). specialize (Hl' eq_refl). lia.
  - rewrite Hn' by done. specialize (Hl eq_refl). lia.
  - rewrite Hn by done. specialize (Hl' eq_refl). lia.
Qed.

(** ** Lines *)

(** The bits of [b] are bits of [a]. *)
Definition sub_bits (a b : Z) : Prop := forall i, 0 <= i -> Z.testbit b i = true -> Z.testbit a i = true.

(** The addresses of the monitors that are held. *)
Definition entered (line : RegisterLine) : list Z :=
  take (Z.to_nat (monitorStackTop line)) (take (Z.to_nat kMaxMonitorStackDepth) (monitorStack line)).

Definition entry_rank (e : Z) : Z := if (0 <=? e) && (e <? 2 ^ 32) then e else 2 ^ 32.

Lemma entry_rank_range e : 0 <= entry_rank e <= 2 ^ 32.
Proof. unfold entry_rank. destruct (Z.leb_spec 0 e), (Z.ltb_spec e (2 ^ 32)); cbn [andb]; lia. Qed.

Lemma u32_bit x i : 0 <= i -> Z.testbit (u32 x) i = true -> Z.testbit x i = true.
Proof.
  intros Hi. unfold wrapU. destruct (Z.ltb_spec i 32).
  - by rewrite Z.mod_pow2_bits_low.
  - by rewrite Z.mod_pow2_bits_high.
Qed.

Lemma merge_entries_ok : merge_ok sub_bits entry_rank (fun a b => Some (mergeMonitorEntries a b)).
Proof.
  intros a b r changed. unfold mergeMonitorEntries. intros [= <- <-].
  assert (Hb : forall i, 0 <= i -> Z.testbit (u32 (Z.land a b)) i = true -> Z.testbit a i = true /\ Z.testbit b i = true).
  { intros i Hi Ht%u32_bit; [|done]. rewrite Z.land_spec in Ht. by apply andb_true_iff. }
  split; [intros i Hi Ht; by apply Hb|]. split; [intros i Hi Ht; by apply Hb|].
  split; [by intros Hc%negb_false_iff%Z.eqb_eq|]. intros Hc%negb_true_iff%Z.eqb_neq.
  pose proof (wrapU_range 32 ltac:(lia) (Z.land a b)) as Hr. unfold inU in Hr.
  unfold entry_rank at 1. rewrite (proj2 (Z.leb_le _ _)), (proj2 (Z.ltb_lt _ _)) by lia. cbn [andb].
  unfold entry_rank. destruct (Z.leb_spec 0 a), (Z.ltb_spec a (2 ^ 32)); cbn [andb]; try lia.
  enough (u32 (Z.land a b) <= a) by lia.
  unfold wrapU in *. assert (0 <= Z.land a b) by (apply Z.land_nonneg; lia).
  pose proof (Z.mod_le (Z.land a b) (2 ^ 32) ltac:(lia) ltac:(lia)).
  enough (Z.land a b <= a) by lia. apply Z.ldiff_le; [lia|]. apply Z.bits_inj'. intros i Hi.
  rewrite Z.ldiff_spec, Z.land_spec, Z.bits_0. by destruct (Z.testbit a i), (Z.testbit b i).
Qed.

Section Lines.
Context (NDEBUG : bool) (classes : gmap Z ClassObject) (findArray : list Z -> Z -> Z) (loader : Z -> Z) (fuel : nat).
Context (Object : Z) (array_interfaces : list Z) (depth : Z -> nat) (B R : nat).
Hypothesis L : linked classes findArray loader fuel Object array_interfaces depth B R.

Abbreviation type_le := (becomes NDEBUG classes Object array_interfaces).
Abbreviation type_rank := (reg_rank classes fuel B R).

(** [a] may become [b]: in the first [n] registers, which are those of a method. *)
Record line_le (n : nat) (a b : RegisterLine) : Prop := {
  le_types : Forall2 type_le (take n (regTypes a)) (take n (regTypes b));
  le_monitors eb : monitorEntries b = Some eb ->
    exists ea, monitorEntries a = Some ea /\ Forall2 sub_bits (take n ea) (take n eb) /\
      entered a = entered b /\ monitorStackTop a = monitorStackTop b
}.

Lemma line_le_refl n a : line_le n a a.
Proof using.
  split; [apply Forall2_self; intros; left; constructor|].
  intros eb E. exists eb. split_and!; [done| |done..]. apply Forall2_self. by intros x i.
Qed.

Lemma line_le_trans n a b c : line_le n a b -> line_le n b c -> line_le n a c.
Proof.
  intros [T1 M1] [T2 M2]. split.
  - eapply Forall2_chain; [|exact T1|exact T2]. apply becomes_trans.
  - intros ec Ec. destruct (M2 ec Ec) as (eb & Eb & S2 & K2 & P2). destruct (M1 eb Eb) as (ea & Ea & S1 & K1 & P1).
    exists ea. split; [done|]. split; [|split; congruence].
    eapply Forall2_chain; [|exact S1|exact S2]. intros x y z H1 H2 i Hi Ht. by apply H1, H2.
Qed.

(** The rank of a line, and a bound of the ranks of the lines of its size. *)
Definition line_rank (line : RegisterLine) : Z :=
  zsum type_rank (regTypes line) + match monitorEntries line with Some es => zsum entry_rank es | None => 0 end.

Definition line_cap (line : RegisterLine) : Z :=
  (Z.of_nat R + 20) * Z.of_nat (length (regTypes line)) +
  match monitorEntries line with Some es => 2 ^ 32 * Z.of_nat (length es) | None => 0 end.

Lemma line_rank_range line : 0 <= line_rank line <= line_cap line.
Proof using L.
  unfold line_rank, line_cap. pose proof (zsum_range type_rank (Z.of_nat R + 20) (regTypes line) (linked_rank_range _ _ _ _ _ _ _ _ _ L)).
  destruct (monitorEntries line) as [es|]; [|lia]. pose proof (zsum_range entry_rank (2 ^ 32) es entry_rank_range). lia.
Qed.

Definition same_size (a b : RegisterLine) : Prop :=
  length (regTypes a) = length (regTypes b) /\ (@length Z <$> monitorEntries a) = (@length Z <$> monitorEntries b).

Lemma same_size_cap a b : same_size a b -> line_cap a = line_cap b.
Proof using. intros [H1 H2]. unfold line_cap. rewrite H1. destruct (monitorEntries a), (monitorEntries b); cbn in H2; congruence. Qed.

Lemma merge_types_ok : merge_ok type_le type_rank (mergeTypes NDEBUG classes findArray loader fuel).
Proof using L.
  intros t u m changed E. destruct (linked_merge_any NDEBUG _ _ _ _ _ _ _ _ _ L t u m changed E) as (-> & W1 & W2 & Hr).
  split; [done|]. split; [done|]. split; [by intros Hc%negb_false_iff%Z.eqb_eq|].
  intros Hc%negb_true_iff%Z.eqb_neq. by apply Hr.
Qed.

Lemma same_stack_entered a b : same_stack a b = Some true -> entered a = entered b /\ monitorStackTop a = monitorStackTop b.
Proof using.
  unfold same_stack. destruct (Z.eqb_spec (monitorStackTop a) (monitorStackTop b)) as [E|]; [|done]. cbn [negb].
  destruct (_ && _); [|done]. intros [= Hb%bool_decide_eq_true]. split; [|done].
  unfold entered. rewrite <- E, !take_take, !(Nat.min_comm (Z.to_nat (monitorStackTop a))), <- !take_take. by f_equal.
Qed.

Lemma copy_first_spec {A} n (dst src r : list A) : copy_first n dst src = Some r ->
  length r = length dst /\ take n r = take n src.
Proof using.
  unfold copy_first. destruct (Nat.leb_spec n (length src)) as [H1|], (Nat.leb_spec n (length dst)) as [H2|]; cbn [andb]; try done.
  intros [= <-]. rewrite length_app, length_take, length_drop. split; [lia|].
  rewrite take_app_le by (rewrite length_take; lia). by rewrite take_take, Nat.min_id.
Qed.

(** Two lines have the same first [n] registers, and the same monitors where [b] has any. *)
Record same_registers (n : nat) (a b : RegisterLine) : Prop := {
  same_types : take n (regTypes a) = take n (regTypes b);
  same_monitors eb : monitorEntries b = Some eb ->
    exists ea, monitorEntries a = Some ea /\ take n ea = take n eb /\ entered a = entered b /\ monitorStackTop a = monitorStackTop b
}.

Lemma same_line_le n a b : same_registers n a b -> line_le n a b.
Proof using.
  intros [T M]. split; [rewrite T; apply Forall2_self; intros; left; constructor|].
  intros eb Eb. destruct (M eb Eb) as (ea & Ea & Ht & Hk & Hp). exists ea. split; [done|]. split; [|done].
  rewrite Ht. apply Forall2_self. by intros x i.
Qed.

Lemma copy_line_same n dst src r : copyRegisterLine NDEBUG dst src n = Some r -> same_registers n src r /\ same_size dst r.
Proof using.
  unfold copyRegisterLine. intros E. apply bind_Some in E as (types & [T1 T2]%copy_first_spec & E).
  destruct (monitorEntries dst) as [entries|] eqn:Ed, (monitorEntries src) as [from|] eqn:Es; try done.
  - apply bind_Some in E as (es & [E1 E2]%copy_first_spec & E). apply bind_Some in E as (stack & [_ K2]%copy_first_spec & [= <-]).
    split; [split; cbn [regTypes monitorEntries]; [done|]|split; cbn [regTypes monitorEntries]].
    + intros eb [= <-]. exists from. split_and!; [done|by symmetry| |done].
      unfold entered. cbn [monitorStack monitorStackTop]. by rewrite K2.
    + by rewrite T1.
    + rewrite Ed. cbn. by rewrite E1.
  - assert (r = with_types types dst) as ->.
    { unfold asserted in E. destruct NDEBUG; cbn [orb] in E; congruence. }
    split; [split; cbn; [done|congruence]|]. split; cbn; [by rewrite T1|by rewrite Ed].
  - injection E as <-. split; [split; cbn; [done|congruence]|]. split; cbn; [by rewrite T1|by rewrite Ed].
Qed.

Lemma copy_line_spec n dst src r : copyRegisterLine NDEBUG dst src n = Some r -> line_le n src r /\ same_size dst r.
Proof using. intros [Hs ?]%copy_line_same. split; [by apply same_line_le|done]. Qed.

End Lines.

(** ** Updates *)

Section Steps.
Context (NDEBUG optimizing : bool) (classes : gmap Z ClassObject) (fuel : nat) `{RES : Resolution}.
Context (meth : MethodInfo) (undecoded : DecodedInstruction).
Context (Object : Z) (array_interfaces : list Z) (depth : Z -> nat) (B R : nat).
Hypothesis L : linked classes dvmFindArrayClass classLoader fuel Object array_interfaces depth B R.

Abbreviation line_below := (line_le NDEBUG classes Object array_interfaces).
Abbreviation rank := (line_rank classes fuel B R).
Abbreviation cap := (line_cap R).

Lemma merge_line_spec code target work r changed : merge_line NDEBUG classes fuel code target work = Some (Some (r, changed)) ->
  line_below (insnRegCountPlus code) target r /\ line_below (insnRegCountPlus code) work r /\ same_size target r /\
  (changed = false -> r = target) /\ (changed = true -> rank r < rank target).
Proof using L.
  unfold merge_line. intros E. apply bind_Some in E as (same & Es & E). destruct same; cbn [negb] in E; [|done].
  apply bind_Some in E as ([types c] & E1 & E).
  destruct (merge_first_spec _ _ _ (merge_types_ok _ _ _ _ _ _ _ _ _ _ L) _ _ _ _ _ E1) as (T1 & T2 & T3 & T4 & T5).
  destruct (monitorEntries target) as [entries|] eqn:Et.
  - apply bind_Some in E as (from & Ef & E). apply bind_Some in E as ([es c'] & E2 & [= <- <-]).
    destruct (merge_first_spec _ _ _ merge_entries_ok _ _ _ _ _ E2) as (M1 & M2 & M3 & M4 & M5).
    apply same_stack_entered in Es as [K1 K2].
    split_and!.
    + split; cbn; [done|]. intros eb [= <-]. exists entries. by rewrite Et.
    + split; cbn; [done|]. intros eb [= <-]. exists from. split_and!; [done|done|by symmetry in K1|by symmetry].
    + split; cbn; [by rewrite T1|]. rewrite Et. cbn. by rewrite M1.
    + destruct c, c'; cbn [orb]; try done. intros _. rewrite T4, M4 by done. destruct target; cbn in *. by subst.
    + unfold line_rank. cbn. rewrite Et. destruct c, c'; cbn [orb]; try done; intros _.
      * specialize (T5 eq_refl). specialize (M5 eq_refl). lia.
      * rewrite M4 by done. specialize (T5 eq_refl). lia.
      * rewrite T4 by done. specialize (M5 eq_refl). lia.
  - injection E as <- <-. split_and!.
    + split; cbn; [done|]. rewrite Et. done.
    + split; cbn; [done|]. rewrite Et. done.
    + split; cbn; [by rewrite T1|by rewrite Et].
    + intros Hc. rewrite T4 by done. by destruct target.
    + intros Hc. unfold line_rank. cbn. rewrite Et. specialize (T5 Hc). lia.
Qed.

(** *** Flags *)

Definition flag_bit (s : FlowState) (k j : Z) : bool :=
  match aref (fs_flags s) j with Some f => Z.testbit f k | None => false end.

(** Whether an instruction was looked at, is to be looked at, or either. *)
Definition visited (s : FlowState) (j : Z) : bool := flag_bit s 30 j.
Definition changed (s : FlowState) (j : Z) : bool := flag_bit s 31 j.
Definition seen (s : FlowState) (j : Z) : bool := visited s j || changed s j.

(** Whether registers are stored for an address; the line of one that was seen. *)
Definition stored (s : FlowState) (j : Z) : bool :=
  match aref (fs_lines s) j with Some (Some _) => true | _ => false end.
Definition line_of (s : FlowState) (j : Z) : option RegisterLine :=
  if seen s j then match aref (fs_lines s) j with Some l => l | None => None end else None.

Definition sized (s : FlowState) : Prop :=
  length (fs_flags s) = length (fs_lines s) /\ Z.of_nat (length (fs_lines s)) < 2 ^ 31.

Lemma land_bit f k : 0 <= k -> negb (Z.land f (Z.shiftl 1 k) =? 0) = Z.testbit f k.
Proof using.
  intros Hk. rewrite Z.shiftl_1_l. destruct (Z.testbit f k) eqn:E.
  - apply negb_true_iff, Z.eqb_neq. intros H0. assert (Hb : Z.testbit (Z.land f (2 ^ k)) k = false) by (by rewrite H0, Z.bits_0).
    rewrite Z.land_spec, E, Z.pow2_bits_true in Hb; done.
  - apply negb_false_iff, Z.eqb_eq. apply Z.bits_inj'. intros i Hi. rewrite Z.land_spec, Z.pow2_bits_eqb, Z.bits_0 by done.
    destruct (Z.eqb_spec k i) as [<-|]; [by rewrite E|by rewrite andb_false_r].
Qed.

Lemma land_two_bits f a b : (Z.land f (Z.lor a b) =? 0) = (Z.land f a =? 0) && (Z.land f b =? 0).
Proof using.
  rewrite Z.land_lor_distr_r. apply eq_true_iff_eq. rewrite andb_true_iff, !Z.eqb_eq. apply Z.lor_eq_0_iff.
Qed.

Lemma s32_address j n : 0 <= j < Z.of_nat n -> Z.of_nat n < 2 ^ 31 -> s32 j = j.
Proof using. intros. apply wrapS_id; [lia|]. unfold inS. lia. Qed.

Lemma has_bit s j k b : sized s -> 0 <= j < Z.of_nat (length (fs_lines s)) -> 0 <= k ->
  has_flag (fs_flags s) j (Z.shiftl 1 k) = Some b -> b = flag_bit s k j.
Proof using.
  intros [Hl Hn] Hj Hk. unfold has_flag, flag_bit. rewrite (s32_address j _ Hj Hn).
  destruct (aref (fs_flags s) j) as [f|]; [|done]. cbn [mbind option_bind]. intros [= <-]. by apply land_bit.
Qed.

Lemma seen_test s j b : sized s -> 0 <= j < Z.of_nat (length (fs_lines s)) ->
  dvmInsnIsVisitedOrChanged (fs_flags s) j = Some b -> b = seen s j.
Proof using.
  intros [Hl Hn] Hj. unfold dvmInsnIsVisitedOrChanged, has_flag, seen, visited, changed, flag_bit. rewrite (s32_address j _ Hj Hn).
  destruct (aref (fs_flags s) j) as [f|]; [|done]. cbn [mbind option_bind]. intros [= <-].
  unfold kInsnFlagVisited, kInsnFlagChanged. rewrite land_two_bits, negb_andb, !land_bit by lia. done.
Qed.

(** Setting and clearing one bit at an address. *)
Definition bits_changed (flags flags' : list Z) (j : Z) (g : Z -> bool -> bool) : Prop :=
  length flags' = length flags /\ exists f f', flags !! Z.to_nat j = Some f /\ 0 <= j < Z.of_nat (length flags) /\
    flags' = <[Z.to_nat j := f']> flags /\ forall k, 0 <= k -> Z.testbit f' k = g k (Z.testbit f k).

Lemma or_flags_bits flags j n k flags' : 0 <= j < Z.of_nat n -> Z.of_nat n < 2 ^ 31 -> 0 <= k ->
  or_flags flags j (Z.shiftl 1 k) = Some flags' -> bits_changed flags flags' j (fun i b => b || (k =? i)).
Proof using.
  intros Hj Hn Hk. unfold or_flags. rewrite (s32_address j n Hj Hn). intros E. apply bind_Some in E as (f & Ef & E).
  rewrite aref_nat in Ef by lia. apply aset_Some in E as [Hr ->]. split; [by rewrite length_insert|].
  exists f, (Z.lor f (Z.shiftl 1 k)). split_and!; [done|lia|lia|done|]. intros i Hi.
  by rewrite Z.lor_spec, Z.shiftl_1_l, Z.pow2_bits_eqb.
Qed.

Lemma clear_flags_bits flags j n k flags' : 0 <= j < Z.of_nat n -> Z.of_nat n < 2 ^ 31 -> 0 <= k ->
  clear_flags flags j (Z.shiftl 1 k) = Some flags' -> bits_changed flags flags' j (fun i b => b && negb (k =? i)).
Proof using.
  intros Hj Hn Hk. unfold clear_flags. rewrite (s32_address j n Hj Hn). intros E. apply bind_Some in E as (f & Ef & E).
  rewrite aref_nat in Ef by lia. apply aset_Some in E as [Hr ->]. split; [by rewrite length_insert|].
  exists f, (Z.ldiff f (Z.shiftl 1 k)). split_and!; [done|lia|lia|done|]. intros i Hi.
  by rewrite Z.ldiff_spec, Z.shiftl_1_l, Z.pow2_bits_eqb.
Qed.

Lemma bits_changed_at s flags' j g i k : bits_changed (fs_flags s) flags' j g -> 0 <= k ->
  flag_bit (with_flags flags' s) k i = if decide (i = j) then g k (flag_bit s k i) else flag_bit s k i.
Proof using.
  intros (Hl & f & f' & Ef & Hj & -> & Hb) Hk. unfold flag_bit. cbn [fs_flags with_flags].
  destruct (decide (i = j)) as [->|Hne].
  - rewrite !aref_nat by lia. rewrite list_lookup_insert_eq by lia. rewrite Ef. by apply Hb.
  - unfold aref. destruct (Z.leb_spec 0 i); [|done]. rewrite list_lookup_insert_ne by lia. done.
Qed.

(** *** The room left *)

Definition looked (f : Z) : bool := Z.testbit f 30 || Z.testbit f 31.

(** What an address may still lose: all of a line, and one, before it is seen. *)
Definition cell (f : Z) (line : option RegisterLine) : Z :=
  match line with
  | Some l => if looked f then rank l else cap l + 1
  | None => if looked f then 0 else 1
  end.

Fixpoint room_of (flags : list Z) (lines : list (option RegisterLine)) : Z :=
  match flags, lines with
  | f :: flags, l :: lines => cell f l + room_of flags lines
  | _, _ => 0
  end.

Definition room (s : FlowState) : Z := room_of (fs_flags s) (fs_lines s).

Lemma cell_nonneg f l : 0 <= cell f l.
Proof using L.
  unfold cell. destruct l as [l|]; [pose proof (line_rank_range _ _ _ _ _ _ _ _ _ L l)|]; destruct (looked f); lia.
Qed.

Lemma room_nonneg s : 0 <= room s.
Proof using L.
  unfold room. generalize (fs_lines s). induction (fs_flags s) as [|f flags IH]; intros [|l lines]; cbn [room_of]; try lia.
  pose proof (cell_nonneg f l). specialize (IH lines). lia.
Qed.

Lemma room_insert flags lines j f l f' l' : flags !! j = Some f -> lines !! j = Some l ->
  room_of (<[j := f']> flags) (<[j := l']> lines) = room_of flags lines - cell f l + cell f' l'.
Proof using.
  revert lines j. induction flags as [|x flags IH]; intros [|y lines] [|j] Hf Hl; try done.
  - injection Hf as ->. injection Hl as ->. cbn. lia.
  - cbn in Hf, Hl. change (<[S j:=f']> (x :: flags)) with (x :: <[j:=f']> flags).
    change (<[S j:=l']> (y :: lines)) with (y :: <[j:=l']> lines). cbn [room_of]. rewrite (IH lines j Hf Hl). lia.
Qed.

(** *** Growth *)

(** [s'] comes of [s] by updates of the table. *)
Record grows (s s' : FlowState) : Prop := {
  g_code : fs_code s' = fs_code s;
  g_work : fs_work s' = fs_work s;
  g_saved : fs_saved s' = fs_saved s;
  g_uninit : fs_uninit s' = fs_uninit s;
  g_flags : length (fs_flags s') = length (fs_flags s);
  g_size : length (fs_lines s') = length (fs_lines s);
  g_bits k j : 0 <= k < 31 -> flag_bit s' k j = flag_bit s k j;
  g_changed j : changed s j = true -> changed s' j = true;
  g_stored j : stored s' j = stored s j;
  g_line j l : line_of s j = Some l ->
    exists l', line_of s' j = Some l' /\ line_below (insnRegCountPlus (fs_code s)) l l' /\ (l' = l \/ changed s' j = true);
  g_plain j : stored s j = false -> changed s' j = changed s j;
  g_room : room s' < room s \/ room s' = room s /\ fs_flags s' = fs_flags s
}.

Lemma grows_refl s : grows s s.
Proof using.
  split; try done; [|by right]. intros j l Hl. exists l. split; [done|]. split; [apply line_le_refl|by left].
Qed.

Lemma grows_trans s1 s2 s3 : grows s1 s2 -> grows s2 s3 -> grows s1 s3.
Proof using.
  intros G1 G2. split.
  - by rewrite (g_code _ _ G2), (g_code _ _ G1).
  - by rewrite (g_work _ _ G2), (g_work _ _ G1).
  - by rewrite (g_saved _ _ G2), (g_saved _ _ G1).
  - by rewrite (g_uninit _ _ G2), (g_uninit _ _ G1).
  - by rewrite (g_flags _ _ G2), (g_flags _ _ G1).
  - by rewrite (g_size _ _ G2), (g_size _ _ G1).
  - intros k j Hk. rewrite (g_bits _ _ G2), (g_bits _ _ G1) by done. done.
  - intros j Hj. by apply (g_changed _ _ G2), (g_changed _ _ G1).
  - intros j. by rewrite (g_stored _ _ G2), (g_stored _ _ G1).
  - intros j l Hl. destruct (g_line _ _ G1 j l Hl) as (l2 & Hl2 & W2 & O2). destruct (g_line _ _ G2 j l2 Hl2) as (l3 & Hl3 & W3 & O3).
    exists l3. split; [done|]. rewrite (g_code _ _ G1) in W3. split; [by eapply line_le_trans|].
    destruct O3 as [->|]; [|by right]. destruct O2 as [->|Hc]; [by left|right; by apply (g_changed _ _ G2)].
  - intros j Hj. rewrite (g_plain _ _ G2), (g_plain _ _ G1); [done..|by rewrite (g_stored _ _ G1)].
  - destruct (g_room _ _ G1) as [?|[E1 F1]], (g_room _ _ G2) as [?|[E2 F2]]; [left; lia..|right; split; congruence].
Qed.

Lemma grows_sized s s' : grows s s' -> sized s -> sized s'.
Proof using. intros G [H1 H2]. split; [by rewrite (g_flags _ _ G), (g_size _ _ G)|by rewrite (g_size _ _ G)]. Qed.

(** The line of a target is above what flows there. *)
Definition covers (s : FlowState) (target : Z) (l : RegisterLine) : Prop :=
  exists t, line_of s target = Some t /\ line_below (insnRegCountPlus (fs_code s)) l t.

Lemma covers_grows s s' target l : grows s s' -> covers s target l -> covers s' target l.
Proof using.
  intros G (t & Ht & W). destruct (g_line _ _ G target t Ht) as (t' & Ht' & W' & _). exists t'. split; [done|].
  rewrite (g_code _ _ G). by eapply line_le_trans.
Qed.

Lemma table_insert {A} (a : list A) i x j : 0 <= i < Z.of_nat (length a) ->
  aref (<[Z.to_nat i := x]> a) j = if decide (j = i) then Some x else aref a j.
Proof using.
  intros Hi. unfold aref. destruct (decide (j = i)) as [->|Hne].
  - rewrite (proj2 (Z.leb_le 0 i)) by lia. apply list_lookup_insert_eq. lia.
  - destruct (Z.leb_spec 0 j); [|done]. apply list_lookup_insert_ne. lia.
Qed.

(** *** An update *)

(** Lines but those of [targets] stay. *)
Definition others_stay (targets : Z -> Prop) (s s' : FlowState) : Prop :=
  forall j, ~ targets j -> aref (fs_lines s') j = aref (fs_lines s) j.

Lemma others_stay_trans P s1 s2 s3 : others_stay P s1 s2 -> others_stay P s2 s3 -> others_stay P s1 s3.
Proof using. intros H1 H2 j Hj. by rewrite H2, H1. Qed.

Lemma others_stay_weaken (P Q : Z -> Prop) s s' : (forall j, P j -> Q j) -> others_stay P s s' -> others_stay Q s s'.
Proof using. intros Hpq Hs j Hj. apply Hs. auto. Qed.

Abbreviation mark := (fun i b => b || (31 =? i)).

Lemma mark_bit s flags' lines' j k i : bits_changed (fs_flags s) flags' j mark -> 0 <= k ->
  flag_bit (with_flags flags' (with_lines lines' s)) k i =
  if decide (i = j) then flag_bit s k i || (31 =? k) else flag_bit s k i.
Proof using. intros Hb Hk. exact (bits_changed_at (with_lines lines' s) flags' j mark i k Hb Hk). Qed.

Lemma looked_seen s j f : fs_flags s !! Z.to_nat j = Some f -> 0 <= j -> looked f = seen s j.
Proof using. intros Hf Hj. unfold looked, seen, visited, changed, flag_bit. by rewrite aref_nat, Hf. Qed.

Lemma mark_grows s j l r flags' : aref (fs_lines s) j = Some (Some l) -> bits_changed (fs_flags s) flags' j mark ->
  same_size l r -> (seen s j = true -> line_below (insnRegCountPlus (fs_code s)) l r /\ rank r < rank l) ->
  grows s (with_flags flags' (with_lines (<[Z.to_nat j := Some r]> (fs_lines s)) s)).
Proof using L.
  intros Hl Hb Hsize Hr. set (s' := with_flags flags' _). pose proof (aref_lt _ _ _ Hl) as Hj.
  assert (Hbit : forall k i, 0 <= k -> flag_bit s' k i = if decide (i = j) then flag_bit s k i || (31 =? k) else flag_bit s k i).
  { intros k i Hk. by apply mark_bit. }
  assert (Hsj : seen s' j = true).
  { unfold seen, changed. rewrite Hbit by lia. rewrite decide_True by done. by rewrite !orb_true_r. }
  assert (Hseen : forall i, i <> j -> seen s' i = seen s i).
  { intros i Hi. unfold seen, visited, changed. rewrite !Hbit by lia. by rewrite !decide_False. }
  assert (Hline : forall i, aref (fs_lines s') i = if decide (i = j) then Some (Some r) else aref (fs_lines s) i).
  { intros i. by apply table_insert. }
  destruct Hb as (Hlen & f & f' & Hf & Hjf & Hfl & Htb).
  split; try done.
  - by apply length_insert.
  - intros k i Hk. rewrite Hbit by lia. rewrite (proj2 (Z.eqb_neq 31 k)) by lia. rewrite orb_false_r. by destruct (decide (i = j)).
  - intros i Hi. unfold changed in *. rewrite Hbit, Hi by lia. by destruct (decide (i = j)).
  - intros i. unfold stored. rewrite Hline. destruct (decide (i = j)) as [->|]; [by rewrite Hl|done].
  - intros i t Ht. unfold line_of in *. rewrite Hline. destruct (decide (i = j)) as [->|Hne].
    + rewrite Hl in Ht. rewrite Hsj. destruct (seen s j) eqn:E; [|done]. injection Ht as <-. exists r. split; [done|].
      split; [by apply Hr|]. right. unfold changed. rewrite Hbit by lia. rewrite decide_True by done. by rewrite orb_true_r.
    + rewrite Hseen by done. exists t. split; [done|]. split; [apply line_le_refl|by left].
  - intros i Hi. unfold changed. rewrite Hbit by lia. destruct (decide (i = j)) as [->|]; [|done].
    unfold stored in Hi. by rewrite Hl in Hi.
  - left. unfold room. subst s'. cbn [fs_flags fs_lines with_flags with_lines]. rewrite Hfl.
    rewrite aref_nat in Hl by lia. rewrite (room_insert _ _ _ f (Some l)) by done. unfold cell.
    assert (looked f' = true) as ->. { unfold looked. rewrite (Htb 31) by lia. by rewrite !orb_true_r. }
    rewrite (looked_seen s j f) by (done || lia). destruct (seen s j); [destruct Hr; [done|lia]|].
    pose proof (line_rank_range _ _ _ _ _ _ _ _ _ L r). rewrite (same_size_cap R l r Hsize). lia.
Qed.

Lemma same_state s j l : aref (fs_lines s) j = Some l ->
  with_flags (fs_flags s) (with_lines (<[Z.to_nat j := l]> (fs_lines s)) s) = s.
Proof using.
  intros Hl. pose proof (aref_lt _ _ _ Hl). rewrite aref_nat in Hl by lia. rewrite list_insert_id by done. by destruct s.
Qed.

Lemma update_spec s j w s' : sized s -> updateRegisters NDEBUG classes fuel s j w = Some (Some s') ->
  grows s s' /\ stored s j = true /\ covers s' j w /\ others_stay (fun t => t = j) s s'.
Proof using L.
  intros Hs E. unfold updateRegisters in E. apply bind_Some in E as (b & Eb & E).
  assert (Hdone : forall (l r : RegisterLine) flags', aref (fs_lines s) j = Some (Some l) -> sized s ->
    dvmInsnSetChanged (fs_flags s) j true = Some flags' -> bits_changed (fs_flags s) flags' j mark).
  { intros l r flags' Hl [Hlen Hn] Hf. by apply (or_flags_bits _ _ _ 31 _ (aref_lt _ _ _ Hl) Hn ltac:(lia)). }
  destruct b; cbn [negb] in E.
  - apply bind_Some in E as (o & Hl & E). unfold getRegisterLine in Hl. apply bind_Some in E as (l & -> & E).
    symmetry in Eb. pose proof (seen_test s j true Hs (aref_lt _ _ _ Hl) (eq_sym Eb)) as Hseen. symmetry in Hseen. clear Eb.
    apply bind_Some in E as ([[r c]|] & Em & E); [|done].
    destruct (merge_line_spec _ _ _ _ _ Em) as (W1 & W2 & Hsize & Hn & Hr).
    apply bind_Some in E as (lines' & [Hj ->]%aset_Some & E). apply bind_Some in E as (flags' & Ef & [= <-]).
    assert (Hst : stored s j = true) by (unfold stored; by rewrite Hl).
    destruct c.
    + split; [|split; [done|split]].
      * apply (mark_grows s j l r); [done|by apply (Hdone l r)|done|]. intros _. split; [done|by apply Hr].
      * exists r. split; [|done]. unfold line_of, seen, changed.
        rewrite (mark_bit s flags' _ j 31 j) by (lia || by apply (Hdone l r)). rewrite decide_True, !orb_true_r by done.
        cbn [fs_lines with_flags with_lines]. by rewrite table_insert, decide_True.
      * intros t Ht. cbn [fs_lines with_flags with_lines]. by rewrite table_insert, decide_False.
    + injection Ef as <-. rewrite Hn in * by done. rewrite same_state by done. split; [apply grows_refl|]. split; [done|].
      split; [|by intros t Ht]. exists l. split; [|done]. unfold line_of. by rewrite Hseen, Hl.
  - apply bind_Some in E as (s1 & E1 & E). apply bind_Some in E as (flags' & Ef & [= <-]).
    unfold copyLineToTable in E1. apply bind_Some in E1 as (o & Hl & E1). unfold getRegisterLine in Hl.
    apply bind_Some in E1 as (l & -> & E1). apply bind_Some in E1 as (r & Er & E1).
    apply bind_Some in E1 as (lines' & [Hj ->]%aset_Some & [= <-]). cbn [fs_flags with_lines] in Ef.
    destruct (copy_line_spec NDEBUG classes Object array_interfaces _ _ _ _ Er) as [W Hsize].
    assert (Hb : bits_changed (fs_flags s) flags' j mark) by (by apply (Hdone l r)).
    assert (Hst : stored s j = true) by (unfold stored; by rewrite Hl).
    split; [|split; [done|split]].
    + apply (mark_grows s j l r); [done..|]. intros Hc. by rewrite <- (seen_test s j false Hs (aref_lt _ _ _ Hl) Eb) in Hc.
    + exists r. split; [|done]. unfold line_of, seen, changed. rewrite (mark_bit s flags' _ j 31 j) by (lia || done).
      rewrite decide_True, !orb_true_r by done. cbn [fs_lines with_flags with_lines]. by rewrite table_insert, decide_True.
    + intros t Ht. cbn [fs_lines with_flags with_lines]. by rewrite table_insert, decide_False.
Qed.

(** *** Where control goes *)

Definition may (nextFlags bit : Z) : Prop := negb (Z.land nextFlags bit =? 0) = true.

#[export] Instance may_dec f bit : Decision (may f bit).
Proof using. unfold may. apply _. Defined.

Definition no_exception (code : Method) (t : Z) : Prop := checkMoveException NDEBUG code t = Some true.

(** The targets of a switch, and the handlers of an instruction in a "try" block. *)
Definition switch_target (code : Method) (insnIdx t : Z) : Prop :=
  exists insns i0 i1 i2 table count k offset,
    insns_at code insnIdx = Some insns /\ FETCH insns 0 = Some i0 /\ FETCH insns 1 = Some i1 /\ FETCH insns 2 = Some i2 /\
    insns_at code (insnIdx + s4_of i1 i2) = Some table /\ aref table 1 = Some count /\ 0 <= k < count /\
    s4_at table ((if Z.land i0 0xff =? OP_PACKED_SWITCH then 4 else 2 + 2 * count) + k * 2) = Some offset /\
    t = insnIdx + offset.

Definition handler_target (code : Method) (insnIdx t : Z) : Prop :=
  exists pCode iterator handlers rest h, dvmGetMethodCode code = Some pCode /\
    dexFindCatchHandler dexCatchIteratorClear pCode insnIdx = Some (true, iterator) /\
    handlers_left iterator = Some (handlers, rest) /\ h ∈ handlers /\ t = s32 (address h).

Lemma unless_inv {A C} (r : option (option A)) (k : A -> option (option C)) c :
  unless_rejected r k = Some (Some c) -> exists a, r = Some (Some a) /\ k a = Some (Some c).
Proof using. unfold unless_rejected. destruct r as [[a|]|]; [|done..]. intros E. by exists a. Qed.

Lemma asserted_inv {A} b (x : option A) a : asserted NDEBUG b x = Some a -> x = Some a.
Proof using. unfold asserted. by destruct (NDEBUG || b). Qed.

Lemma branch_to_spec s t s' : sized s -> branch_to NDEBUG classes fuel s t = Some (Some s') ->
  grows s s' /\ no_exception (fs_code s) t /\ stored s t = true /\ covers s' t (fs_work s) /\ others_stay (fun j => j = t) s s'.
Proof using L.
  intros Hs E. unfold branch_to in E. apply bind_Some in E as (b & Eb & E). destruct b; cbn [negb] in E; [|done].
  by destruct (update_spec s t _ s' Hs E) as (? & ? & ? & ?).
Qed.

Lemma switch_targets_spec n : forall s table i off targ s', sized s ->
  switch_targets NDEBUG classes fuel n s table i off targ = Some (Some s') ->
  grows s s' /\ (forall k offset, 0 <= k < Z.of_nat n -> s4_at table (off + (targ + k) * 2) = Some offset ->
    no_exception (fs_code s) (i + offset) /\ stored s (i + offset) = true /\ covers s' (i + offset) (fs_work s)) /\
    others_stay (fun j => exists k offset, 0 <= k < Z.of_nat n /\ s4_at table (off + (targ + k) * 2) = Some offset /\ j = i + offset) s s'.
Proof using L.
  induction n as [|n IH]; intros s table i off targ s' Hs E; cbn [switch_targets] in E.
  { injection E as <-. split; [apply grows_refl|]. split; [intros; lia|by intros j Hj]. }
  apply bind_Some in E as (o & Eo & E). apply asserted_inv in E. apply unless_inv in E as (s1 & E1 & E).
  destruct (branch_to_spec s _ s1 Hs E1) as (G1 & N1 & S1 & C1 & O1).
  destruct (IH s1 table i off (targ + 1) s' (grows_sized s s1 G1 Hs) E) as (G2 & Hrest & O2).
  split; [by eapply grows_trans|]. split; cycle 1.
  { eapply others_stay_trans; (eapply others_stay_weaken; [|eassumption]).
    - intros j ->. exists 0, o. rewrite Z.add_0_r. split_and!; [lia|lia|done|done].
    - intros j (k & offset & Hk & Ho & ->). exists (k + 1), offset. split_and!; [lia|lia| |done].
      by replace (targ + (k + 1)) with (targ + 1 + k) by lia. }
  intros k offset Hk Hoff. destruct (decide (k = 0)) as [->|Hk0].
  - replace (targ + 0) with targ in Hoff by lia. rewrite Eo in Hoff. injection Hoff as <-. split_and!; [done..|]. by eapply covers_grows.
  - replace (targ + k) with (targ + 1 + (k - 1)) in Hoff by lia. destruct (Hrest (k - 1) offset ltac:(lia) Hoff) as (H1 & H2 & H3).
    rewrite (g_code _ _ G1) in H1. rewrite (g_stored _ _ G1) in H2. rewrite (g_work _ _ G1) in H3. done.
Qed.

Lemma flow_switch_spec s i s' : sized s -> flow_switch NDEBUG classes fuel s i = Some (Some s') ->
  grows s s' /\ (forall t, switch_target (fs_code s) i t ->
    no_exception (fs_code s) t /\ stored s t = true /\ covers s' t (fs_work s)) /\
  others_stay (switch_target (fs_code s) i) s s'.
Proof using L.
  intros Hs E. unfold flow_switch in E. apply bind_Some in E as (insns & E0 & E). apply bind_Some in E as (i0 & F0 & E).
  apply bind_Some in E as (i1 & F1 & E). apply bind_Some in E as (i2 & F2 & E). apply bind_Some in E as (table & Et & E).
  apply bind_Some in E as (count & Ec & E).
  assert (E' : switch_targets NDEBUG classes fuel (Z.to_nat count) s table i
    (if Z.land i0 0xff =? OP_PACKED_SWITCH then 4 else 2 + 2 * count) 0 = Some (Some s')).
  { destruct (_ =? OP_PACKED_SWITCH); [done|]. by apply asserted_inv in E. }
  destruct (switch_targets_spec _ _ _ _ _ _ _ Hs E') as (G & Ht & O). split; [done|]. split; cycle 1.
  { eapply others_stay_weaken; [|exact O]. intros j (k & offset & Hk & Ho & ->). rewrite Z.add_0_l in Ho.
    exists insns, i0, i1, i2, table, count, k, offset. split_and!; [done..|lia|lia|done|done]. }
  intros t (insns' & j0 & j1 & j2 & table' & count' & k & offset & H0 & H1 & H2 & H3 & H4 & H5 & Hk & Ho & ->).
  rewrite E0 in H0. injection H0 as <-. rewrite F0 in H1. injection H1 as <-. rewrite F1 in H2. injection H2 as <-.
  rewrite F2 in H3. injection H3 as <-. rewrite Et in H4. injection H4 as <-. rewrite Ec in H5. injection H5 as <-.
  apply (Ht k); [lia|]. by rewrite Z.add_0_l.
Qed.

Lemma flow_handlers_spec handlers : forall s s', sized s -> flow_handlers NDEBUG classes fuel handlers s = Some (Some s') ->
  grows s s' /\ (forall h, h ∈ handlers -> stored s (s32 (address h)) = true /\ covers s' (s32 (address h)) (fs_saved s)) /\
  others_stay (fun t => exists h, h ∈ handlers /\ t = s32 (address h)) s s'.
Proof using L.
  induction handlers as [|h handlers IH]; intros s s' Hs E; cbn [flow_handlers] in E.
  { injection E as <-. split; [apply grows_refl|]. split; [by intros h Hh%not_elem_of_nil|by intros j Hj]. }
  apply unless_inv in E as (s1 & E1 & E). destruct (update_spec s _ _ s1 Hs E1) as (G1 & S1 & C1 & O1).
  destruct (IH s1 s' (grows_sized s s1 G1 Hs) E) as (G2 & Hrest & O2). split; [by eapply grows_trans|]. split; cycle 1.
  { eapply others_stay_trans; (eapply others_stay_weaken; [|eassumption]).
    - intros t ->. exists h. split; [apply elem_of_cons; by left|done].
    - intros t (x & Hx & ->). exists x. split; [apply elem_of_cons; by right|done]. }
  intros x [->|Hx]%elem_of_cons.
  - split; [done|]. by eapply covers_grows.
  - destruct (Hrest x Hx) as (H2 & H3). rewrite (g_stored _ _ G1) in H2. rewrite (g_saved _ _ G1) in H3. done.
Qed.

Lemma flow_throw_spec s op i s' : sized s -> flow_throw NDEBUG classes fuel s op i = Some (Some s') ->
  grows s s' /\ (forall t, handler_target (fs_code s) i t -> stored s t = true /\ covers s' t (fs_saved s)) /\
  others_stay (handler_target (fs_code s) i) s s'.
Proof using L.
  intros Hs E. unfold flow_throw in E. apply bind_Some in E as (pCode & Ep & E). apply bind_Some in E as ([found iterator] & Ef & E).
  apply bind_Some in E as (handlers & Eh & E). apply unless_inv in E as (s1 & E1 & E).
  destruct (_ && _) in E; [done|]. injection E as <-.
  destruct (flow_handlers_spec _ _ _ Hs E1) as (G & Ht & O). split; [done|]. split; cycle 1.
  { destruct found; apply bind_Some in Eh as ([hs rest] & Eh & [= <-]) || injection Eh as <-.
    - eapply others_stay_weaken; [|exact O]. intros t (h & Hh & ->). exists pCode, iterator, hs, rest, h. done.
    - eapply others_stay_weaken; [|exact O]. intros t (h & Hh%not_elem_of_nil & _). done. }
  intros t (pCode' & it & hs & rest & h & H0 & H1 & H2 & Hh & ->). rewrite Ep in H0. injection H0 as <-.
  rewrite Ef in H1. injection H1 as -> <-. apply bind_Some in Eh as ([hs' rest'] & Eh & [= <-]). rewrite H2 in Eh.
  injection Eh as <- <-. by apply Ht.
Qed.

Lemma flow_branch_spec s i f s' o : sized s -> flow_branch NDEBUG classes fuel s i f = Some (Some (s', o)) ->
  grows s s' /\ (exists conditional, dvmGetBranchOffset (fs_code s) i = Some (Some (o, conditional))) /\
  no_exception (fs_code s) (i + o) /\ stored s (i + o) = true /\ covers s' (i + o) (fs_work s) /\
  others_stay (fun j => j = i + o) s s'.
Proof using L.
  intros Hs E. unfold flow_branch in E. apply bind_Some in E as ([[o' c]|] & Eo & E); [|done]. apply asserted_inv in E.
  apply unless_inv in E as (s1 & E1 & [= <- <-]). destruct (branch_to_spec s _ s1 Hs E1) as (? & ? & ? & ? & ?).
  split; [done|]. split; [by exists c|done].
Qed.

(** The mark on the next instruction where no registers are stored for it. *)
Definition plain_mark (s s1 : FlowState) (t : Z) : Prop :=
  stored s t = false /\ 0 <= t < Z.of_nat (length (fs_lines s)) /\
  exists flags', s1 = with_flags flags' s /\ bits_changed (fs_flags s) flags' t mark.

Lemma flow_continue_spec s i s1 : sized s -> flow_continue NDEBUG classes fuel s i = Some (Some s1) ->
  exists w, dvmInsnGetWidth (fs_flags s) i = Some w /\ no_exception (fs_code s) (i + w) /\
    0 <= i + w < Z.of_nat (length (fs_lines s)) /\
    (stored s (i + w) = true /\ grows s s1 /\ covers s1 (i + w) (fs_work s) /\ others_stay (fun j => j = i + w) s s1 \/
     plain_mark s s1 (i + w)).
Proof using L.
  intros Hs E. unfold flow_continue in E. apply bind_Some in E as (w & Ew & E). exists w. split; [done|].
  destruct (_ >=? _); [done|]. apply bind_Some in E as (b & Eb & E). destruct b; cbn [negb] in E; [|done].
  apply bind_Some in E as (o & Eo & E). unfold getRegisterLine in Eo. pose proof (aref_lt _ _ _ Eo) as Hr.
  split; [done|]. split; [done|]. destruct o as [l|].
  - left. destruct (update_spec s _ _ s1 Hs E) as (G & S1 & C1 & O1). done.
  - right. apply bind_Some in E as (flags' & Ef & [= <-]). split; [by unfold stored; rewrite Eo|]. split; [done|].
    exists flags'. split; [done|]. by apply (or_flags_bits _ _ _ 31 _ Hr (proj2 Hs) ltac:(lia)).
Qed.

Lemma plain_sized s s1 t : plain_mark s s1 t -> sized s -> sized s1.
Proof using. intros (_ & _ & flags' & -> & [Hl _]) [H1 H2]. split; cbn; [by rewrite Hl|done]. Qed.

Lemma plain_bit s s1 t k j : plain_mark s s1 t -> 0 <= k ->
  flag_bit s1 k j = if decide (j = t) then flag_bit s k j || (31 =? k) else flag_bit s k j.
Proof using. intros (_ & _ & flags' & -> & Hb) Hk. by apply (bits_changed_at s flags' t mark). Qed.

(** Where an instruction may go, handlers included. *)
Definition successor (code : Method) (flags : list Z) (i nextFlags t : Z) : Prop :=
  may nextFlags kInstrCanContinue /\ (exists w, dvmInsnGetWidth flags i = Some w /\ t = i + w) \/
  may nextFlags kInstrCanBranch /\ (exists offset conditional,
    dvmGetBranchOffset code i = Some (Some (offset, conditional)) /\ t = i + offset) \/
  may nextFlags kInstrCanSwitch /\ switch_target code i t \/
  may nextFlags kInstrCanThrow /\ dvmInsnIsInTry flags i = Some true /\ handler_target code i t.

(** What is known after an instruction was verified: where it may go is covered. *)
Record flowed (s : FlowState) (i nextFlags startGuess : Z) (s' : FlowState) (guess : Z) : Prop := {
  fl_start : exists s1, grows s1 s' /\
    (s1 = s \/ may nextFlags kInstrCanContinue /\ exists w, dvmInsnGetWidth (fs_flags s) i = Some w /\ plain_mark s s1 (i + w));
  fl_continue : may nextFlags kInstrCanContinue -> exists w, dvmInsnGetWidth (fs_flags s) i = Some w /\
    no_exception (fs_code s) (i + w) /\ 0 <= i + w < Z.of_nat (length (fs_lines s)) /\ guess = i + w /\
    (stored s (i + w) = true -> covers s' (i + w) (fs_work s)) /\ (stored s (i + w) = false -> changed s' (i + w) = true);
  fl_branch : may nextFlags kInstrCanBranch -> exists offset conditional,
    dvmGetBranchOffset (fs_code s) i = Some (Some (offset, conditional)) /\
    no_exception (fs_code s) (i + offset) /\ stored s (i + offset) = true /\ covers s' (i + offset) (fs_work s);
  fl_switch : may nextFlags kInstrCanSwitch -> forall t, switch_target (fs_code s) i t ->
    no_exception (fs_code s) t /\ stored s t = true /\ covers s' t (fs_work s);
  fl_throw : may nextFlags kInstrCanThrow -> dvmInsnIsInTry (fs_flags s) i = Some true ->
    forall t, handler_target (fs_code s) i t -> stored s t = true /\ covers s' t (fs_saved s);
  fl_lines : others_stay (successor (fs_code s) (fs_flags s) i nextFlags) s s';
  fl_return : may nextFlags kInstrCanReturn -> monitorStackTop (fs_work s) = 0;
  fl_guess : 0 <= startGuess -> 0 <= guess
}.

Lemma plain_facts s s1 t : s1 = s \/ plain_mark s s1 t ->
  fs_code s1 = fs_code s /\ fs_work s1 = fs_work s /\ fs_saved s1 = fs_saved s /\ (forall j, stored s1 j = stored s j) /\
  (forall k j, 0 <= k < 31 -> flag_bit s1 k j = flag_bit s k j) /\ (changed s t = true -> changed s1 t = true).
Proof using.
  intros [->|P]; [done|]. destruct P as (P1 & P2 & flags' & -> & Hb) eqn:E. clear E. split_and!; try done.
  - intros k j Hk. rewrite (bits_changed_at s flags' t mark) by (done || lia). rewrite (proj2 (Z.eqb_neq 31 k)) by lia.
    rewrite orb_false_r. by destruct (decide (j = t)).
  - intros _. unfold changed. rewrite (bits_changed_at s flags' t mark) by (done || lia). rewrite decide_True by done. apply orb_true_r.
Qed.

(** The flags below the mark do not change. *)
Definition low_same (s s1 : FlowState) : Prop :=
  length (fs_flags s1) = length (fs_flags s) /\ forall k j, 0 <= k < 30 -> flag_bit s1 k j = flag_bit s k j.

Lemma low_flags s s1 j mask x : low_same s s1 -> (forall k, 30 <= k -> Z.testbit mask k = false) ->
  (f ← aref (fs_flags s) j; Some (Z.land f mask)) = Some x -> (f ← aref (fs_flags s1) j; Some (Z.land f mask)) = Some x.
Proof using.
  intros [Hlen Hb] Hm E. apply bind_Some in E as (f & Ef & [= <-]). pose proof (aref_lt _ _ _ Ef) as Hr. rewrite <- Hlen in Hr.
  destruct (proj2 (aref_is_Some (fs_flags s1) j) Hr) as [f1 Ef1]. rewrite Ef1. cbn [mbind option_bind]. f_equal.
  apply Z.bits_inj'. intros k Hk. rewrite !Z.land_spec. destruct (decide (30 <= k)) as [Hge|Hlt]; [by rewrite Hm, !andb_false_r|].
  specialize (Hb k j ltac:(lia)). unfold flag_bit in Hb. rewrite Ef, Ef1 in Hb. by rewrite Hb.
Qed.

Lemma low_same_sym s s1 : low_same s s1 -> low_same s1 s.
Proof using. intros [H1 H2]. split; [done|]. intros k j Hk. by rewrite H2. Qed.

Lemma low_same_trans s s1 s2 : low_same s s1 -> low_same s1 s2 -> low_same s s2.
Proof using. intros [H1 H2] [H3 H4]. split; [congruence|]. intros k j Hk. rewrite H4, H2; done. Qed.

Lemma mask_high m n k : 0 <= m < 2 ^ n -> 0 <= n <= k -> Z.testbit m k = false.
Proof using.
  intros Hm Hk. destruct (decide (m = 0)) as [->|]; [apply Z.bits_0|]. apply Z.bits_above_log2; [lia|].
  enough (Z.log2 m < n) by lia. apply Z.log2_lt_pow2; lia.
Qed.

Lemma width_low s s1 i w : low_same s s1 -> dvmInsnGetWidth (fs_flags s) i = Some w -> dvmInsnGetWidth (fs_flags s1) i = Some w.
Proof using.
  intros Hs. unfold dvmInsnGetWidth. apply low_flags; [done|]. intros k Hk. apply (mask_high _ 30); [|lia].
  split; vm_compute; congruence.
Qed.

Lemma try_low s s1 i b : low_same s s1 -> dvmInsnIsInTry (fs_flags s) i = Some b -> dvmInsnIsInTry (fs_flags s1) i = Some b.
Proof using.
  intros Hs. unfold dvmInsnIsInTry, has_flag. intros E. apply bind_Some in E as (f & Ef & [= <-]).
  pose proof (low_flags s s1 (s32 i) kInsnFlagInTry (Z.land f kInsnFlagInTry) Hs) as Hl.
  rewrite Ef in Hl. cbn [mbind option_bind] in Hl. assert (Hm : forall k, 30 <= k -> Z.testbit kInsnFlagInTry k = false).
  { intros k Hk. apply (mask_high _ 30); [|lia]. split; vm_compute; congruence. }
  specialize (Hl Hm eq_refl). apply bind_Some in Hl as (f1 & Ef1 & [= E1]). rewrite Ef1. cbn [mbind option_bind]. by rewrite E1.
Qed.

Lemma low_grows s s' : grows s s' -> low_same s s'.
Proof using. intros G. split; [apply G|]. intros k j Hk. apply (g_bits _ _ G). lia. Qed.

Lemma low_plain s s1 t : plain_mark s s1 t -> low_same s s1.
Proof using.
  intros P. split; [by destruct P as (_ & _ & flags' & -> & [Hl _])|]. intros k j Hk.
  destruct (plain_facts s s1 t (or_intror P)) as (_ & _ & _ & _ & Hb & _). apply Hb. lia.
Qed.

Lemma stored_range s t : stored s t = true -> 0 <= t < Z.of_nat (length (fs_lines s)).
Proof using. unfold stored. destruct (aref (fs_lines s) t) eqn:E; [|done]. intros _. by apply aref_lt in E. Qed.

(** A step of [flow_on] that may be left out. *)
Lemma optional_step {A} b (r : option (option A)) a x : (if (b : bool) then r else Some (Some a)) = Some (Some x) ->
  (b = true -> r = Some (Some x)) /\ (b = false -> x = a).
Proof using. destruct b; [done|]. intros [= <-]. done. Qed.

Lemma flow_on_spec s op i nextFlags g s' g' : sized s ->
  flow_on NDEBUG classes fuel s op i nextFlags g = Some (Some (s', g')) -> flowed s i nextFlags g s' g'.
Proof using L.
  intros Hs E. unfold flow_on in E.
  apply unless_inv in E as (s1 & [C1 N1]%optional_step & E). apply unless_inv in E as ([s2 o] & [C2 N2]%optional_step & E).
  apply unless_inv in E as (s3 & [C3 N3]%optional_step & E). apply bind_Some in E as (in_try & Etry & E).
  apply unless_inv in E as (s4 & [C4 N4]%optional_step & E).
  destruct (_ && negb (monitorStackTop _ =? 0)) eqn:Eret in E; [done|].
  apply bind_Some in E as (width & Ewidth & E). apply bind_Some in E as (at_guess & _ & E). apply asserted_inv in E. injection E as <- <-.
  set (cont := negb (Z.land nextFlags kInstrCanContinue =? 0)) in *. set (bra := negb (Z.land nextFlags kInstrCanBranch =? 0)) in *.
  assert (H1 : sized s1 /\ (s1 = s \/ cont = true /\ grows s s1 \/
    cont = true /\ exists w, dvmInsnGetWidth (fs_flags s) i = Some w /\ plain_mark s s1 (i + w))).
  { destruct cont; [|rewrite N1 by done; split; [done|by left]].
    destruct (flow_continue_spec s i s1 Hs (C1 eq_refl)) as (w & Ew & _ & _ & [(_ & G & _ & _)|P]).
    - split; [by eapply grows_sized|]. right; left. done.
    - split; [by eapply plain_sized|]. right; right. eauto. }
  destruct H1 as [Hs1 Hstart].
  assert (K1 : fs_code s1 = fs_code s /\ fs_work s1 = fs_work s /\ fs_saved s1 = fs_saved s /\
    (forall j, stored s1 j = stored s j) /\ low_same s s1).
  { destruct Hstart as [->|[[_ G]|(_ & w & _ & P)]].
    - split_and!; [done..|split; [done|by intros]].
    - split_and!; try apply G. by apply low_grows.
    - destruct (plain_facts s s1 _ (or_intror P)) as (? & ? & ? & ? & _). split_and!; [done..|by eapply low_plain]. }
  destruct K1 as (Kc & Kw & Ks & Kst & Klow).
  assert (G2 : grows s1 s2).
  { destruct bra; [by apply (flow_branch_spec s1 i nextFlags s2 o Hs1), C2|]. injection (N2 eq_refl) as -> _. apply grows_refl. }
  assert (Hs2 : sized s2) by (by eapply grows_sized).
  assert (G3 : grows s2 s3).
  { destruct (negb (Z.land nextFlags kInstrCanSwitch =? 0)); [by apply (flow_switch_spec s2 i s3 Hs2), C3|]. rewrite N3 by done. apply grows_refl. }
  assert (Hs3 : sized s3) by (by eapply grows_sized).
  assert (G4 : grows s3 s4).
  { destruct (negb (Z.land nextFlags kInstrCanThrow =? 0) && in_try); [by apply (flow_throw_spec s3 op i s4 Hs3), C4|]. rewrite N4 by done. apply grows_refl. }
  pose proof (grows_trans _ _ _ G3 G4) as G24. pose proof (grows_trans _ _ _ G2 G24) as G14.
  assert (Hcont : cont = true -> exists w, dvmInsnGetWidth (fs_flags s) i = Some w /\ no_exception (fs_code s) (i + w) /\
    0 <= i + w < Z.of_nat (length (fs_lines s)) /\ width = w /\ (stored s (i + w) = true -> covers s4 (i + w) (fs_work s)) /\
    (stored s (i + w) = false -> changed s4 (i + w) = true)).
  { intros Hc. destruct (flow_continue_spec s i s1 Hs (C1 Hc)) as (w & Ew & Hn & Hr & Hor). exists w.
    split_and!; [done..|lia|lia| | |].
    - pose proof (width_low _ _ _ _ (low_same_trans _ _ _ Klow (low_grows _ _ G14)) Ew) as E'. congruence.
    - intros Hst. destruct Hor as [(_ & _ & Hc1 & _)|(Hf & _)]; [by eapply covers_grows|congruence].
    - intros Hst. destruct Hor as [(Hf & _)|P]; [congruence|]. apply (g_changed _ _ G14).
      unfold changed. rewrite (plain_bit s s1 _ 31 _ P) by lia. rewrite decide_True by done. by rewrite orb_true_r. }
  assert (Hbra : bra = true -> exists conditional, dvmGetBranchOffset (fs_code s) i = Some (Some (o, conditional)) /\
    no_exception (fs_code s) (i + o) /\ stored s (i + o) = true /\ covers s4 (i + o) (fs_work s)).
  { intros Hb. destruct (flow_branch_spec s1 i nextFlags s2 o Hs1 (C2 Hb)) as (_ & (c & Ec) & Hn & Hst & Hcov & _).
    rewrite Kc in Ec, Hn. rewrite Kst in Hst. rewrite Kw in Hcov. exists c. split_and!; [done..|]. by apply (covers_grows s2 s4). }
  split.
  - destruct Hstart as [->|[[_ G]|(Hc & w & Ew & P)]].
    + exists s. split; [done|by left].
    + exists s. split; [by eapply grows_trans|by left].
    + exists s1. split; [done|]. right. split; [done|]. by exists w.
  - intros Hc. destruct (Hcont Hc) as (w & Ew & Hn & Hr & -> & H3 & H4). exists w. change (cont = true) in Hc. rewrite Hc. split_and!; try done; lia.
  - intros Hb. destruct (Hbra Hb) as (c & Ec & Hn & Hst & Hcov). by exists o, c.
  - intros Hsw t Ht. destruct (flow_switch_spec s2 i s3 Hs2 (C3 Hsw)) as (_ & Hall & _).
    rewrite (g_code _ _ G2), Kc in Hall. destruct (Hall t Ht) as (Hn & Hst & Hcov).
    rewrite (g_stored _ _ G2), Kst in Hst. rewrite (g_work _ _ G2), Kw in Hcov. split_and!; [done..|]. by apply (covers_grows s3 s4).
  - intros Hth Hin t Ht.
    pose proof (try_low _ _ _ _ (low_same_trans _ _ _ Klow (low_grows _ _ (grows_trans _ _ _ G2 G3))) Hin) as Hin3.
    rewrite Etry in Hin3. injection Hin3 as ->. unfold may in Hth. rewrite Hth in C4. cbn [andb] in C4.
    destruct (flow_throw_spec s3 op i s4 Hs3 (C4 eq_refl)) as (_ & Hall & _).
    pose proof (grows_trans _ _ _ G2 G3) as G13.
    rewrite (g_code _ _ G13), Kc in Hall. destruct (Hall t Ht) as (Hst & Hcov).
    rewrite (g_stored _ _ G13), Kst in Hst. rewrite (g_saved _ _ G13), Ks in Hcov. done.
  - pose proof (grows_trans _ _ _ G2 G3) as G13.
    assert (O1 : others_stay (successor (fs_code s) (fs_flags s) i nextFlags) s s1).
    { destruct cont eqn:Ecb; [|rewrite N1 by done; by intros j Hj].
      destruct (flow_continue_spec s i s1 Hs (C1 eq_refl)) as (w & Ew & _ & _ & [(_ & _ & _ & O)|(_ & _ & fl & -> & _)]); [|by intros j Hj].
      eapply others_stay_weaken; [|exact O]. intros j ->. left. split; [done|by exists w]. }
    assert (O2 : others_stay (successor (fs_code s) (fs_flags s) i nextFlags) s1 s2).
    { destruct bra eqn:Ebb; [|injection (N2 eq_refl) as -> _; by intros j Hj].
      destruct (flow_branch_spec s1 i nextFlags s2 o Hs1 (C2 eq_refl)) as (_ & (c & Ec) & _ & _ & _ & O).
      eapply others_stay_weaken; [|exact O]. intros j ->. rewrite Kc in Ec. right; left. split; [done|by exists o, c]. }
    assert (O3 : others_stay (successor (fs_code s) (fs_flags s) i nextFlags) s2 s3).
    { destruct (negb (Z.land nextFlags kInstrCanSwitch =? 0)) eqn:Esb; [|rewrite N3 by done; by intros j Hj].
      destruct (flow_switch_spec s2 i s3 Hs2 (C3 eq_refl)) as (_ & _ & O). rewrite (g_code _ _ G2), Kc in O.
      eapply others_stay_weaken; [|exact O]. intros j Hj. right; right; left. done. }
    assert (O4 : others_stay (successor (fs_code s) (fs_flags s) i nextFlags) s3 s4).
    { destruct (negb (Z.land nextFlags kInstrCanThrow =? 0) && in_try) eqn:Esb; [|rewrite N4 by done; by intros j Hj].
      destruct (flow_throw_spec s3 op i s4 Hs3 (C4 eq_refl)) as (_ & _ & O). rewrite (g_code _ _ G13), Kc in O.
      apply andb_true_iff in Esb as [Eth ->].
      eapply others_stay_weaken; [|exact O]. intros j Hj. right; right; right. split; [done|]. split; [|done].
      apply (try_low s3); [|done]. apply low_same_sym. eapply low_same_trans; [exact Klow|by apply low_grows]. }
    eapply others_stay_trans; [exact O1|]. eapply others_stay_trans; [exact O2|]. by eapply others_stay_trans.
  - intros Hr. unfold may in Hr. rewrite Hr in Eret. cbn [andb] in Eret. apply negb_false_iff, Z.eqb_eq in Eret.
    by rewrite (g_work _ _ G14), Kw in Eret.
  - intros Hg. destruct cont; [destruct (Hcont eq_refl) as (w & _ & _ & ? & -> & _); lia|].
    destruct bra; [|done]. destruct (Hbra eq_refl) as (_ & _ & _ & Hst & _). apply stored_range in Hst. lia.
Qed.

End Steps.

Arguments fl_lines {_ _ _ _ _ _ _ _ _ _ _ _ _} _.
Arguments fl_start {_ _ _ _ _ _ _ _ _ _ _ _ _} _.
Arguments fl_continue {_ _ _ _ _ _ _ _ _ _ _ _ _} _.
Arguments fl_branch {_ _ _ _ _ _ _ _ _ _ _ _ _} _.
Arguments fl_switch {_ _ _ _ _ _ _ _ _ _ _ _ _} _.
Arguments fl_throw {_ _ _ _ _ _ _ _ _ _ _ _ _} _.
Arguments fl_return {_ _ _ _ _ _ _ _ _ _ _ _ _} _.
Arguments fl_guess {_ _ _ _ _ _ _ _ _ _ _ _ _} _.
Arguments g_code {_ _ _ _ _ _ _ _ _} _.
Arguments g_work {_ _ _ _ _ _ _ _ _} _.
Arguments g_saved {_ _ _ _ _ _ _ _ _} _.
Arguments g_uninit {_ _ _ _ _ _ _ _ _} _.
Arguments g_flags {_ _ _ _ _ _ _ _ _} _.
Arguments g_size {_ _ _ _ _ _ _ _ _} _.
Arguments g_bits {_ _ _ _ _ _ _ _ _} _.
Arguments g_changed {_ _ _ _ _ _ _ _ _} _.
Arguments g_stored {_ _ _ _ _ _ _ _ _} _.
Arguments g_line {_ _ _ _ _ _ _ _ _} _.
Arguments g_plain {_ _ _ _ _ _ _ _ _} _.
Arguments g_room {_ _ _ _ _ _ _ _ _} _.
Arguments grows_sized {_ _ _ _ _ _ _ _ _} _.
