(* ===== verification/FlowEnds.v ===== *)
(** * The code-flow pass ends

    Each turn of the work list takes from what the table has room for, or leaves the
    table alone and moves the marks forward. So the pass ends for any code, with its
    instructions verified, rejected, or stuck at what the language leaves undefined. *)

From stdpp Require Import gmap.
From S2P Require Import Prelude Bits Search DexFile OpcodeTables Opcodes InstrUtils SwitchData DexCatch DexVerify.
From S2P Require Import TypeCheck RegTypes RegMerge RegLine Signatures VerifyInsn CodeFlow FlowSteps.

(** ** The marks

    The weight of the marks: those further on weigh less. *)

Fixpoint due (flags : list Z) : Z :=
  match flags with
  | [] => 0
  | f :: flags => (if Z.testbit f 31 then Z.of_nat (S (length flags)) else 0) + due flags
  end.

Definition weight (f : Z) (rest : Z) : Z := if Z.testbit f 31 then rest else 0.

Lemma due_insert flags : forall j f f', flags !! j = Some f ->
  due (<[j := f']> flags) = due flags - weight f (Z.of_nat (length flags) - Z.of_nat j) +
    weight f' (Z.of_nat (length flags) - Z.of_nat j).
Proof.
  induction flags as [|x flags IH]; intros [|j] f f' Hf; try done.
  - injection Hf as ->. change (<[0%nat:=f']> (f :: flags)) with (f' :: flags). unfold weight. cbn [due length].
    replace (Z.of_nat (S (length flags)) - Z.of_nat 0) with (Z.of_nat (S (length flags))) by lia. lia.
  - change (<[S j:=f']> (x :: flags)) with (x :: <[j:=f']> flags). cbn [due length]. rewrite (IH j f f' Hf), length_insert.
    replace (Z.of_nat (S (length flags)) - Z.of_nat (S j)) with (Z.of_nat (length flags) - Z.of_nat j) by lia. lia.
Qed.

Lemma due_range flags : 0 <= due flags <= Z.of_nat (length flags) * Z.of_nat (length flags).
Proof. induction flags as [|f flags IH]; cbn [due length]; [lia|]. destruct (Z.testbit f 31); nia. Qed.

Section Ends.
Context (NDEBUG optimizing : bool) (classes : gmap Z ClassObject) (fuel : nat) `{RES : Resolution}.
Context (meth : MethodInfo) (undecoded : DecodedInstruction).
Context (Object : Z) (array_interfaces : list Z) (depth : Z -> nat) (B R : nat).
Hypothesis L : linked classes dvmFindArrayClass classLoader fuel Object array_interfaces depth B R.

Abbreviation room_left := (room classes fuel B R).
Abbreviation processed := (process NDEBUG optimizing classes fuel meth undecoded).

(** ** One instruction *)

(** The same table: what the steps before the flow leave alone. *)
Definition same_table (s s1 : FlowState) : Prop :=
  fs_flags s1 = fs_flags s /\ fs_lines s1 = fs_lines s /\
  dvmGetMethodInsnsSize (fs_code s1) = dvmGetMethodInsnsSize (fs_code s).

Lemma same_table_trans s s1 s2 : same_table s s1 -> same_table s1 s2 -> same_table s s2.
Proof using. intros (? & ? & ?) (? & ? & ?). split_and!; congruence. Qed.

Lemma update_unit_size code ptr v code' : dvmUpdateCodeUnit code ptr v = Some code' ->
  dvmGetMethodInsnsSize code' = dvmGetMethodInsnsSize code.
Proof using. unfold dvmUpdateCodeUnit. intros E. apply bind_Some in E as (units & _ & [= <-]).
  unfold dvmGetMethodInsnsSize, dvmGetMethodCode. cbn. by destruct (_ || _). Qed.

Lemma replace_size code flags i failure code' : replaceFailingInstruction NDEBUG code flags i failure = Some (Some code') ->
  dvmGetMethodInsnsSize code' = dvmGetMethodInsnsSize code.
Proof using.
  unfold replaceFailingInstruction. intros E. apply bind_Some in E as (inst & _ & E). destruct (ref_type _); [|done].
  apply bind_Some in E as (f & _ & E). apply asserted_inv in E. apply bind_Some in E as (w & _ & E).
  apply bind_Some in E as (c1 & E1 & E). apply asserted_inv in E. apply bind_Some in E as (c2 & E2 & [= <-]).
  rewrite (update_unit_size _ _ _ _ E2). destruct (_ || _); [by injection E1 as <-|]. destruct (w =? 3); [|done].
  by rewrite (update_unit_size _ _ _ _ E1).
Qed.

Lemma load_table s i s1 (b : bool) : (if b then copyLineFromTable NDEBUG s i else Some s) = Some s1 -> same_table s s1.
Proof using.
  destruct b; [|by intros [= <-]]. unfold copyLineFromTable. intros E. apply bind_Some in E as (o & _ & E).
  apply bind_Some in E as (l & _ & E). by apply bind_Some in E as (l' & _ & [= <-]).
Qed.

Lemma save_table s i f s1 : save_registers NDEBUG s i f = Some s1 -> same_table s s1.
Proof using.
  unfold save_registers. intros E. apply bind_Some in E as (b & _ & E). destruct (_ && _).
  - by apply bind_Some in E as (l & _ & [= <-]).
  - destruct NDEBUG; [by injection E as <-|]. by apply bind_Some in E as (l & _ & [= <-]).
Qed.

Lemma clear_table s s1 (b : bool) : (if b then Some s else clear_result s) = Some s1 -> same_table s s1.
Proof using.
  destruct b; [by intros [= <-]|]. unfold clear_result. intros E. apply bind_Some in E as (l & _ & E).
  by apply bind_Some in E as (l' & _ & [= <-]).
Qed.

Lemma failure_table s i failure f s1 f1 : handle_failure NDEBUG optimizing s i failure f = Some (Some (s1, f1)) -> same_table s s1.
Proof using.
  unfold handle_failure. destruct (VERIFY_OK failure); [by intros [= <- <-]|]. destruct (_ || _); [done|].
  intros E. apply unless_inv in E as (c & Ec & [= <- <-]). split_and!; [done..|]. by apply (replace_size _ _ _ _ _ Ec).
Qed.

(** The parts of [process]: the state whose registers flow, and what its flow gave. *)
Lemma process_inv s i g s' g' : processed s i g = Some (Some (s', g')) ->
  exists s4 op nextFlags s5, same_table s s4 /\
    flow_on NDEBUG classes fuel s4 op i nextFlags g = Some (Some (s5, g')) /\
    exists flags1 flags2, dvmInsnSetVisited (fs_flags s5) i true = Some flags1 /\ dvmInsnSetChanged flags1 i false = Some flags2 /\
    s' = with_flags flags2 s5.
Proof using.
  unfold process. intros E. apply bind_Some in E as (b & _ & E). apply bind_Some in E as (s1 & E1 & E).
  apply unless_inv in E as ([s5 g5] & Ev & E). apply bind_Some in E as (flags1 & F1 & E). apply bind_Some in E as (flags2 & F2 & [= <- <-]).
  unfold verifyInstruction in Ev. apply bind_Some in Ev as (insns & _ & Ev). apply bind_Some in Ev as ([o d] & _ & Ev).
  apply bind_Some in Ev as (f & _ & Ev). apply bind_Some in Ev as (s2 & E2 & Ev). apply bind_Some in Ev as (e & _ & Ev).
  apply unless_inv in Ev as ([s3 f3] & E3 & Ev). apply bind_Some in Ev as (s4 & E4 & Ev).
  exists s4, (opcode d), f3, s5. split; [|split; [done|by exists flags1, flags2]].
  eapply same_table_trans; [exact (load_table _ _ _ _ E1)|]. eapply same_table_trans; [exact (save_table _ _ _ _ E2)|].
  eapply same_table_trans; [|exact (clear_table _ _ _ E4)]. eapply same_table_trans; [|exact (failure_table _ _ _ _ _ _ E3)]. done.
Qed.

Lemma room_same s s1 : same_table s s1 -> room_left s1 = room_left s.
Proof using. intros (E1 & E2 & _). unfold room. by rewrite E1, E2. Qed.

(** Flags that change at an address that stays seen. *)
Lemma room_seen s flags' j g : sized s -> bits_changed (fs_flags s) flags' j g ->
  seen (with_flags flags' s) j = seen s j -> room_left (with_flags flags' s) = room_left s.
Proof using.
  intros [Hl _] (Hlen & f & f' & Hf & Hj & -> & Hb) Hsame.
  destruct (lookup_lt_is_Some_2 (fs_lines s) (Z.to_nat j)) as [l El]; [lia|].
  unfold room. cbn [fs_flags fs_lines with_flags].
  pose proof (room_insert classes fuel B R _ _ _ f l f' l Hf El) as E. rewrite (list_insert_id (fs_lines s)) in E by done. rewrite E.
  assert (looked f' = looked f) as Hlo; [|unfold cell; rewrite Hlo; destruct l; lia].
  rewrite (looked_seen s j f Hf ltac:(lia)), <- Hsame.
  refine (looked_seen (with_flags (<[Z.to_nat j := f']> (fs_flags s)) s) j f' _ _); [|lia]. cbn [fs_flags with_flags].
  apply list_lookup_insert_eq. lia.
Qed.

Lemma plain_room s s1 t : plain_mark s s1 t -> sized s -> room_left s1 <= room_left s.
Proof using.
  intros (Hst & Ht & flags' & -> & (Hlen & f & f' & Hf & Hj & -> & Hb)) Hs.
  destruct (lookup_lt_is_Some_2 (fs_lines s) (Z.to_nat t)) as [l El]; [lia|].
  unfold room. cbn [fs_flags fs_lines with_flags].
  pose proof (room_insert classes fuel B R _ _ _ f l f' l Hf El) as E. rewrite (list_insert_id (fs_lines s)) in E by done. rewrite E.
  unfold stored in Hst. rewrite aref_nat, El in Hst by lia. destruct l as [l|]; [done|]. unfold cell, looked.
  rewrite (Hb 31) by lia. rewrite !orb_true_r. destruct (_ || _); lia.
Qed.

Lemma due_mark flags flags' j : bits_changed flags flags' j (fun i b => b || (31 =? i)) ->
  due flags' <= due flags + (if match flags !! Z.to_nat j with Some f => Z.testbit f 31 | None => false end then 0
                             else Z.of_nat (length flags) - j).
Proof using.
  intros (Hlen & f & f' & Hf & Hj & -> & Hb). rewrite (due_insert _ _ f f' Hf), Hf. unfold weight.
  rewrite (Hb 31) by lia. rewrite orb_true_r. rewrite Z2Nat.id by lia. destruct (Z.testbit f 31); lia.
Qed.

Lemma due_clear flags flags' j : bits_changed flags flags' j (fun i b => b && negb (31 =? i)) ->
  due flags' = due flags - (if match flags !! Z.to_nat j with Some f => Z.testbit f 31 | None => false end
                            then Z.of_nat (length flags) - j else 0).
Proof using.
  intros (Hlen & f & f' & Hf & Hj & -> & Hb). rewrite (due_insert _ _ f f' Hf), Hf. unfold weight.
  rewrite (Hb 31) by lia. rewrite andb_false_r. rewrite Z2Nat.id by lia. destruct (Z.testbit f 31); lia.
Qed.

Lemma due_visit flags flags' j : bits_changed flags flags' j (fun i b => b || (30 =? i)) -> due flags' = due flags.
Proof using.
  intros (Hlen & f & f' & Hf & Hj & -> & Hb). rewrite (due_insert _ _ f f' Hf). unfold weight.
  rewrite (Hb 31) by lia. rewrite orb_false_r. lia.
Qed.

Lemma changed_lookup s j : 0 <= j ->
  changed s j = match fs_flags s !! Z.to_nat j with Some f => Z.testbit f 31 | None => false end.
Proof using. intros Hj. unfold changed, flag_bit. by rewrite aref_nat. Qed.

(** An instruction that is marked: afterwards it is not, and there is less to do. *)
Lemma process_progress s i g s' g' : sized s -> changed s i = true -> 0 <= g -> processed s i g = Some (Some (s', g')) ->
  sized s' /\ length (fs_lines s') = length (fs_lines s) /\ 0 <= g' /\
  dvmGetMethodInsnsSize (fs_code s') = dvmGetMethodInsnsSize (fs_code s) /\
  (room_left s' < room_left s \/ room_left s' = room_left s /\ due (fs_flags s') < due (fs_flags s)).
Proof using L.
  intros Hs Hi Hg E. destruct (process_inv _ _ _ _ _ E) as (s4 & op & f & s5 & T4 & E5 & flags1 & flags2 & F1 & F2 & ->).
  pose proof (room_same _ _ T4) as Er4. destruct T4 as (Tf & Tl & Tc).
  assert (Hs4 : sized s4) by (unfold sized; by rewrite Tf, Tl).
  assert (Hi4 : changed s4 i = true) by (unfold changed, flag_bit in *; by rewrite Tf).
  pose proof (flow_on_spec _ _ _ _ _ _ _ _ L s4 op i f g s5 g' Hs4 E5) as FL.
  destruct (fl_start FL) as (s1 & G & Hstart).
  assert (Hs1 : sized s1) by (destruct Hstart as [->|(_ & w & _ & P)]; [done|by eapply plain_sized]).
  pose proof (grows_sized G Hs1) as Hs5.
  assert (Hi1 : changed s1 i = true).
  { destruct Hstart as [->|(_ & w & _ & P)]; [done|]. unfold changed in *. rewrite (plain_bit s4 s1 _ 31 i P), Hi4 by lia.
    by destruct (decide _). }
  pose proof (g_changed G i Hi1) as Hi5.
  assert (Hri : 0 <= i < Z.of_nat (length (fs_lines s5))).
  { unfold changed, flag_bit in Hi5. destruct (aref (fs_flags s5) i) eqn:Ea; [|done]. apply aref_lt in Ea.
    destruct Hs5 as [Hs5 _]. rewrite <- Hs5. exact Ea. }
  pose proof (or_flags_bits _ _ _ 30 _ Hri (proj2 Hs5) ltac:(lia) F1) as B1.
  assert (Hn1 : Z.of_nat (length (fs_lines (with_flags flags1 s5))) < 2 ^ 31) by exact (proj2 Hs5).
  pose proof (clear_flags_bits _ _ _ 31 _ Hri (proj2 Hs5) ltac:(lia) F2) as B2.
  set (s6 := with_flags flags1 s5). assert (Hs6 : sized s6).
  { split; [|exact (proj2 Hs5)]. cbn. destruct B1 as [-> _]. exact (proj1 Hs5). }
  assert (K6 : seen s6 i = true /\ changed s6 i = true /\ visited s6 i = true).
  { unfold seen, visited, changed. rewrite !(bits_changed_at s5 flags1 i _ i _ B1) by lia.
    rewrite !decide_True by done. unfold changed in Hi5. rewrite Hi5. rewrite !orb_true_r. done. }
  destruct K6 as (K6 & Kc & Kv). assert (K5 : seen s5 i = true) by (unfold seen; by rewrite Hi5, orb_true_r).
  assert (K7 : seen (with_flags flags2 s6) i = true).
  { unfold seen, visited. rewrite (bits_changed_at s6 flags2 i _ i 30 B2) by lia. rewrite decide_True by done.
    unfold visited in Kv. by rewrite Kv. }
  assert (Er : room_left (with_flags flags2 s5) = room_left s5).
  { change (with_flags flags2 s5) with (with_flags flags2 s6).
    rewrite (room_seen s6 flags2 i _ Hs6 B2) by (by rewrite K7, K6). apply (room_seen s5 flags1 i _ Hs5 B1).
    change (seen s6 i = seen s5 i). by rewrite K6. }
  assert (Hlen : length (fs_flags s1) = length (fs_flags s)).
  { destruct Hstart as [->|(_ & w & _ & (_ & _ & fl & -> & [Hb _]))]; [by rewrite Tf|]. cbn. by rewrite Hb, Tf. }
  assert (Hlines : length (fs_lines s1) = length (fs_lines s)).
  { destruct Hstart as [->|(_ & w & _ & (_ & _ & fl & -> & _))]; cbn; by rewrite Tl. }
  split_and!.
  - split; [|exact (proj2 Hs5)]. cbn. destruct B2 as [-> _], B1 as [-> _]. exact (proj1 Hs5).
  - cbn. by rewrite (g_size G).
  - by apply (fl_guess FL).
  - cbn. rewrite (g_code G), <- Tc. destruct Hstart as [->|(_ & w & _ & (_ & _ & fl & -> & _))]; done.
  - rewrite Er. cbn [fs_flags with_flags].
    assert (Hle : room_left s1 <= room_left s).
    { rewrite <- Er4. destruct Hstart as [->|(_ & w & _ & P)]; [lia|by apply (plain_room s4 s1 (i + w))]. }
    destruct (g_room G) as [Hlt|[Heq Hfl]]; [left; lia|].
    destruct (Z.eq_dec (room_left s1) (room_left s)) as [Heq1|]; [|left; lia]. right. split; [lia|].
    rewrite (due_clear _ _ _ B2), <- (changed_lookup s6) by lia. rewrite Kc, (due_visit _ _ _ B1), Hfl.
    assert (Hl1 : length flags1 = length (fs_flags s)) by (destruct B1 as [-> _]; by rewrite Hfl).
    rewrite Hl1. destruct Hs as [Hsl _]. rewrite (g_size G), Hlines, <- Hsl in Hri.
    destruct Hstart as [->|(_ & w & Ew & (_ & Ht & fl & -> & Hb))].
    + rewrite Tf. lia.
    + cbn [fs_flags with_flags]. pose proof (due_mark _ _ _ Hb) as Hd. rewrite Tf in Hd.
      assert (0 <= w).
      { unfold dvmInsnGetWidth in Ew. apply bind_Some in Ew as (x & _ & [= <-]). apply Z.land_nonneg. right. done. }
      destruct (Z.eq_dec w 0) as [->|].
      * rewrite Z.add_0_r in Hd. rewrite <- (changed_lookup s i), Hi in Hd by lia. lia.
      * destruct (match fs_flags s !! _ with Some _ => _ | None => _ end) in Hd; lia.
Qed.

(** ** Turns *)

Lemma find_changed_spec n flags : forall g i, find_changed n flags g = Some (Some i) ->
  g <= i < g + Z.of_nat n /\ dvmInsnIsChanged flags i = Some true.
Proof using.
  induction n as [|n IH]; intros g i E; cbn [find_changed] in E; [done|].
  apply bind_Some in E as (b & Eb & E). destruct b; [injection E as <-; split; [lia|done]|].
  destruct (IH _ _ E) as [? ?]. split; [lia|done].
Qed.

(** What the turns keep. *)
Definition turning (s : FlowState) (g : Z) : Prop := sized s /\ 0 <= g.

(** What each turn lowers. *)
Definition to_do (s : FlowState) (g : Z) : Z :=
  let n := Z.of_nat (length (fs_lines s)) in
  room_left s * (2 * (n * n) + 2) + 2 * due (fs_flags s) + (if g =? 0 then 0 else 1).

Lemma to_do_nonneg s g : 0 <= to_do s g.
Proof using L.
  unfold to_do. pose proof (room_nonneg _ _ _ _ _ _ _ L s). pose proof (due_range (fs_flags s)).
  destruct (g =? 0); nia.
Qed.

Lemma found_changed s g i n : sized s -> 0 <= g -> g + Z.of_nat n < 2 ^ 31 ->
  find_changed n (fs_flags s) g = Some (Some i) -> changed s i = true.
Proof using.
  intros Hs Hg Hn E. destruct (find_changed_spec _ _ _ _ E) as [Hi Hc]. unfold dvmInsnIsChanged, has_flag in Hc.
  rewrite wrapS_id in Hc by (lia || (unfold inS; lia)). apply bind_Some in Hc as (f & Ef & [= Hb]).
  unfold changed, flag_bit. rewrite Ef. unfold kInsnFlagChanged in Hb. by rewrite land_bit in Hb.
Qed.

Lemma turn_progress s g s' g' : turning s g -> turn NDEBUG optimizing classes fuel meth undecoded s g = Some (Again s' g') ->
  turning s' g' /\ length (fs_lines s') = length (fs_lines s) /\ to_do s' g' < to_do s g.
Proof using L.
  intros [Hs Hg] E. unfold turn in E. apply bind_Some in E as (found & Ef & E). destruct found as [i|].
  - apply bind_Some in E as (r & Er & [= E]). destruct r as [[s1 g1]|]; [injection E as -> ->|done].
    assert (Hc : changed s i = true).
    { destruct (decide (g < s32 (dvmGetMethodInsnsSize (fs_code s)))) as [Hlt|Hge].
      - refine (found_changed s g i _ Hs Hg _ Ef). pose proof (wrapS_range 32 ltac:(lia) (dvmGetMethodInsnsSize (fs_code s))) as Hr.
        unfold inS in Hr. lia.
      - replace (Z.to_nat (s32 (dvmGetMethodInsnsSize (fs_code s)) - g)) with 0%nat in Ef by lia. done. }
    destruct (process_progress s i g s' g' Hs Hc Hg Er) as (Hs' & Hl & Hg' & _ & Hor).
    split; [done|]. split; [done|]. unfold to_do. rewrite Hl.
    pose proof (due_range (fs_flags s')) as D1. pose proof (due_range (fs_flags s)) as D2.
    rewrite (proj1 Hs'), Hl in D1. rewrite (proj1 Hs) in D2. set (n := Z.of_nat (length (fs_lines s))) in *.
    destruct Hor as [Hlt|[-> Hlt]]; destruct (g =? 0), (g' =? 0); nia.
  - injection E as E. destruct (Z.eqb_spec g 0) as [|Hne]; cbn [negb] in E; [done|]. injection E as <- <-.
    split; [split; [done|lia]|]. split; [done|]. unfold to_do. rewrite (proj2 (Z.eqb_neq _ _) Hne). cbn. lia.
Qed.

Abbreviation runs := (run NDEBUG optimizing classes fuel meth undecoded).

Lemma run_more rounds : forall s g more, runs rounds s g <> Timeout -> runs (rounds + more) s g = runs rounds s g.
Proof using.
  induction rounds as [|rounds IH]; intros s g more; cbn [run Nat.add]; [done|].
  destruct (turn _ _ _ _ _ _ s g) as [[s' g'| |s']|]; [|done..]. apply IH.
Qed.

Lemma run_ends n : forall s g, turning s g -> to_do s g < Z.of_nat n -> runs n s g <> Timeout.
Proof using L.
  induction n as [|n IH]; intros s g Ht Hn; [pose proof (to_do_nonneg s g); lia|]. cbn [run].
  destruct (turn _ _ _ _ _ _ s g) as [[s' g'| |s']|] eqn:E; [|done..].
  destruct (turn_progress s g s' g' Ht E) as (Ht' & _ & Hlt). apply IH; [done|lia].
Qed.

(** ** The whole pass *)

Lemma mapM_length {A C} (f : A -> option C) l k : mapM f l = Some k -> length k = length l.
Proof using. intros E%mapM_Some_1. symmetry. by eapply Forall2_length. Qed.

Lemma init_sized code flags uninit mode monitors s : 0 <= dvmGetMethodInsnsSize code < 2 ^ 31 ->
  length flags = Z.to_nat (dvmGetMethodInsnsSize code) ->
  initRegisterTable NDEBUG code flags uninit mode monitors = Some s -> sized s.
Proof using.
  intros Hn Hf E. unfold initRegisterTable in E. apply asserted_inv in E. apply bind_Some in E as (lines & El & E).
  apply bind_Some in E as (first & _ & E). apply asserted_inv in E. injection E as <-.
  apply mapM_length in El. rewrite length_seqZ in El. unfold sized. cbn. lia.
Qed.

(** The rounds that are enough for a state. *)
Definition enough (s : FlowState) (g : Z) : nat := S (Z.to_nat (to_do s g)).

Lemma doCodeVerification_ends s : sized s -> exists rounds, forall more,
  doCodeVerification NDEBUG optimizing classes fuel meth undecoded (rounds + more) s =
  doCodeVerification NDEBUG optimizing classes fuel meth undecoded rounds s /\
  doCodeVerification NDEBUG optimizing classes fuel meth undecoded rounds s <> Timeout.
Proof using L.
  intros Hs. unfold doCodeVerification. destruct (dvmInsnSetChanged (fs_flags s) 0 true) as [flags|] eqn:Ef; [|by exists 0%nat].
  assert (Hs' : sized (with_flags flags s)).
  { destruct Hs as [H1 H2]. split; [|done]. cbn. unfold dvmInsnSetChanged, or_flags in Ef. apply bind_Some in Ef as (f & _ & Ef).
    by rewrite (aset_length _ _ _ _ Ef). }
  assert (Ht : turning (with_flags flags s) 0) by done.
  exists (enough (with_flags flags s) 0). intros more.
  assert (He : runs (enough (with_flags flags s) 0) (with_flags flags s) 0 <> Timeout).
  { apply run_ends; [done|]. unfold enough. pose proof (to_do_nonneg (with_flags flags s) 0). lia. }
  split; [by apply run_more|done].
Qed.

(** C17. The code-flow pass ends for every method. On a heap of linked classes, for any
    code, flags, map of instances and results of resolution there is a number of turns
    after which the work list has ended, and more turns change nothing: each turn widens
    a line, which no line can for ever, sees an instruction for the first time, or moves
    a mark forward. *)
Theorem code_flow_ends code flags uninit generate_map monitors :
  0 <= dvmGetMethodInsnsSize code < 2 ^ 31 -> length flags = Z.to_nat (dvmGetMethodInsnsSize code) ->
  exists rounds result, result <> Timeout /\
  forall n, (rounds <= n)%nat ->
    dvmVerifyCodeFlow NDEBUG optimizing classes fuel meth undecoded n code flags uninit generate_map monitors = result.
Proof using L.
  intros Hn Hf. unfold dvmVerifyCodeFlow.
  destruct (initRegisterTable _ _ _ _ _ _) as [s|] eqn:Es; [|by exists 0%nat, Stuck]. cbn [mbind option_bind].
  pose proof (init_sized _ _ _ _ _ _ Hn Hf Es) as Hs.
  destruct (aref (fs_lines s) 0) as [[first|]|]; [|by exists 0%nat, Stuck..]. cbn [mbind option_bind].
  destruct (setTypesFromSignature _ _ _ _ _ _ _ _ _) as [[[types map]|]|]; [|by exists 0%nat, (Finished None)|by exists 0%nat, Stuck].
  cbn [mbind option_bind]. destruct (aset (fs_lines s) 0 _) as [lines|] eqn:El; [|by exists 0%nat, Stuck]. cbn [mbind option_bind].
  destruct (doCodeVerification_ends (with_uninit map (with_lines lines s))) as (rounds & Hr).
  { destruct Hs as [H1 H2]. split; cbn; by rewrite (aset_length _ _ _ _ El). }
  eexists rounds, _. split; [apply (Hr 0%nat)|]. intros n Hle. replace n with (rounds + (n - rounds))%nat by lia. apply Hr.
Qed.

End Ends.

(** ** A method with a loop

    [v0 = 1; while (v0 != 0) v0 = v0 + 1], on the classes of [RegMerge]. *)

#[local] Instance mx_resolution : Resolution := {
  dvmOptResolveClass _ := (0, VERIFY_ERROR_NO_CLASS);
  dvmOptResolveInstField _ := (None, VERIFY_ERROR_NO_FIELD);
  dvmOptResolveStaticField _ := (None, VERIFY_ERROR_NO_FIELD);
  dvmOptResolveMethod _ _ := (None, VERIFY_ERROR_NO_METHOD);
  dvmOptResolveInterfaceMethod _ := None;
  dvmFindClassNoInit d := mx_find d 0;
  dvmFindArrayClass := mx_find;
  classLoader _ := 0;
  vtableCount _ := 0;
  ifields _ := 0;
  ifieldCount _ := 0;
  classJavaLangObject := 32;
  classJavaLangString := 0;
  classJavaLangClass := 0;
  exThrowable := 44
}.

Definition loop_insns : list Z := [0x1012; 0x0038; 5; 0x00d8; 0x0100; 0xfc28; 0x000e].
Definition loop_flags : list Z :=
  Z.lor 1 kInsnFlagBranchTarget :: Z.lor 2 kInsnFlagBranchTarget :: [0; 2; 0; 1; Z.lor 1 kInsnFlagBranchTarget].
Definition loop_method : Method := MkMethod 1 0 false false false 0 (MkDexCode 1 0 0 0 0 7 loop_insns [] []).
Definition loop_info : MethodInfo := MkMethodInfo 44 ACC_STATIC 0 0 [102] (MkProto [] [86]).
Definition no_insn : DecodedInstruction := DI 0 0 0 0 [0; 0; 0; 0; 0] 0 kIndexUnknown.

(** The type of the register at the head of the loop. *)
Definition loop_result (rounds : nat) : option (option Z) :=
  match dvmVerifyCodeFlow true false mx_classes 3 loop_info no_insn rounds loop_method loop_flags [] false false with
  | Finished (Some s) => line ← line_of s 1; Some (regTypes line !! 0%nat)
  | _ => None
  end.

Lemma code_flow_ends_witness :
  loop_result 10 = Some (Some kRegTypeInteger) /\
  exists rounds, forall n, (rounds <= n)%nat ->
    dvmVerifyCodeFlow true false mx_classes 3 loop_info no_insn n loop_method loop_flags [] false false <> Timeout.
Proof.
  split; [vm_compute; reflexivity|].
  destruct (code_flow_ends (RES := mx_resolution) true false mx_classes 3 loop_info no_insn 32 [36] mx_depth 5 11 mx_linked
    loop_method loop_flags [] false false ltac:(vm_compute; split; congruence) eq_refl) as (rounds & result & Hr & He).
  exists rounds. intros n Hn. rewrite (He n Hn). exact Hr.
Defined.
