(* ===== verification/FlowFixpoint.v ===== *)
(** * What the code-flow pass leaves behind

    The table of a method that is verified is closed: from the line of every instruction
    that was reached, or from one above it, the instructions that follow pass their
    checks, and what they make of the registers is below the lines of their
    successors. *)

From stdpp Require Import gmap.
From S2P Require Import Prelude Bits Search DexFile OpcodeTables Opcodes InstrUtils SwitchData DexCatch DexVerify.
From S2P Require Import TypeCheck RegTypes RegMerge RegLine Signatures VerifyInsn CodeFlow FlowSteps FlowEnds.

Section Fixpoint_.
Context (NDEBUG : bool) (classes : gmap Z ClassObject) (fuel : nat) `{RES : Resolution}.
Context (meth : MethodInfo) (undecoded : DecodedInstruction).
Context (Object : Z) (array_interfaces : list Z) (depth : Z -> nat) (B R : nat).
Hypothesis L : linked classes dvmFindArrayClass classLoader fuel Object array_interfaces depth B R.

Abbreviation line_below := (line_le NDEBUG classes Object array_interfaces).
Abbreviation covered := (covers NDEBUG classes Object array_interfaces).
Abbreviation fine := (no_exception NDEBUG).
Abbreviation processed := (process NDEBUG true classes fuel meth undecoded).
Abbreviation grown := (grows NDEBUG classes fuel Object array_interfaces B R).

(** ** Checked instructions *)

(** The registers that leave an instruction. *)
Definition left_line (code : Method) (e : Effect) : option RegisterLine :=
  if e_justSetResult e then Some (e_line e)
  else
    line ← setRegisterType (e_line e) (m_registersSize code) kRegTypeUnknown;
    setRegisterType line (u32 (m_registersSize code + 1)) kRegTypeUnknown.

(** The instruction at an address, and the flags of its opcode. *)
Definition instruction_at (code : Method) (i : Z) (d : DecodedInstruction) (opFlags : Z) : Prop :=
  exists insns o, insns_at code i = Some insns /\ dexDecodeInstruction insns undecoded = Some (o, d) /\
    dexGetFlagsFromOpcode (opcode d) = Some opFlags.

(** The instruction at [i], with the registers [l], passes its checks, and so do those
    that follow it up to the next stored lines, which cover what they leave. *)
Inductive checked (s : FlowState) : Z -> RegisterLine -> Prop :=
  | checked_insn i l d opFlags uninit e w width :
      instruction_at (fs_code s) i d opFlags ->
      effect NDEBUG classes fuel meth (fs_code s) d i l uninit opFlags = Some e ->
      VERIFY_OK (e_failure e) = true -> left_line (fs_code s) e = Some w ->
      (may (e_nextFlags e) kInstrCanContinue -> dvmInsnGetWidth (fs_flags s) i = Some width /\ fine (fs_code s) (i + width)) ->
      (may (e_nextFlags e) kInstrCanContinue -> stored s (i + width) = true -> covered s (i + width) w) ->
      (may (e_nextFlags e) kInstrCanContinue -> stored s (i + width) = false -> checked s (i + width) w) ->
      (may (e_nextFlags e) kInstrCanBranch -> exists offset conditional,
        dvmGetBranchOffset (fs_code s) i = Some (Some (offset, conditional)) /\
        fine (fs_code s) (i + offset) /\ covered s (i + offset) w) ->
      (may (e_nextFlags e) kInstrCanSwitch -> forall t, switch_target (fs_code s) i t ->
        fine (fs_code s) t /\ covered s t w) ->
      (may (e_nextFlags e) kInstrCanThrow -> dvmInsnIsInTry (fs_flags s) i = Some true ->
        forall t, handler_target (fs_code s) i t -> covered s t l) ->
      (may (e_nextFlags e) kInstrCanReturn -> monitorStackTop w = 0) ->
      checked s i l.

(** An instruction that may go to itself. *)
Definition own_successor (code : Method) (flags : list Z) (i : Z) : Prop :=
  exists d opFlags, instruction_at code i d opFlags /\ successor code flags i opFlags i.

(** The registers of [t] are those of [l], or what they may become. *)
Definition widened (n : nat) (l t : RegisterLine) : Prop :=
  Forall2 (becomes NDEBUG classes Object array_interfaces) (take n (regTypes l)) (take n (regTypes t)).

(** ** Later states *)

Record extends (s s' : FlowState) : Prop := {
  x_code : fs_code s' = fs_code s;
  x_low : low_same s s';
  x_stored j : stored s' j = stored s j;
  x_line j l : line_of s j = Some l -> exists l', line_of s' j = Some l' /\ line_below (insnRegCountPlus (fs_code s)) l l'
}.

Lemma extends_refl s : extends s s.
Proof using. split; [done|by split|done|]. intros j l Hl. exists l. split; [done|apply line_le_refl]. Qed.

Lemma extends_trans s1 s2 s3 : extends s1 s2 -> extends s2 s3 -> extends s1 s3.
Proof using.
  intros [C1 L1 S1 N1] [C2 L2 S2 N2]. split; [congruence|by eapply low_same_trans|intros j; by rewrite S2|].
  intros j l Hl. destruct (N1 j l Hl) as (l2 & Hl2 & W2). destruct (N2 j l2 Hl2) as (l3 & Hl3 & W3).
  rewrite C1 in W3. exists l3. split; [done|by eapply line_le_trans].
Qed.

Lemma grows_extends s s' : grown s s' -> extends s s'.
Proof using.
  intros G. split; [apply (g_code G)|by eapply low_grows|apply (g_stored G)|].
  intros j l Hl. destruct (g_line G j l Hl) as (l' & Hl' & W & _). by exists l'.
Qed.

Lemma covered_extends s s' t l : extends s s' -> covered s t l -> covered s' t l.
Proof using.
  intros X (u & Hu & W). destruct (x_line _ _ X t u Hu) as (u' & Hu' & W'). exists u'. split; [done|].
  rewrite (x_code _ _ X). by eapply line_le_trans.
Qed.

Lemma checked_extends s s' i l : extends s s' -> checked s i l -> checked s' i l.
Proof using.
  intros X. induction 1 as [i l d opFlags uninit e w width Hd He Hok Hw Hfall Hst Hnext IH Hbra Hsw Hth Hret].
  assert (Hcov : forall t u, covered s t u -> covered s' t u) by (intros t u; by apply covered_extends).
  eapply (checked_insn s' i l d opFlags uninit e w width); rewrite ?(x_code _ _ X), ?(x_stored _ _ X); try done; eauto.
  - intros Hc. destruct (Hfall Hc) as [Hwd Hf]. split; [|done]. eapply width_low; [apply X|done].
  - intros Hc. destruct (Hbra Hc) as (o & c & Ho & Hf & Hcv). exists o, c. auto.
  - intros Hc t Ht. destruct (Hsw Hc t Ht). auto.
  - intros Hc Hin t Ht. apply Hcov, (Hth Hc); [|done]. eapply try_low; [apply low_same_sym, X|done].
Qed.

(** ** One instruction *)

(** Only the exit of a monitor may take a way out of an instruction. *)
Lemma effect_flags code d i l uninit opFlags e : effect NDEBUG classes fuel meth code d i l uninit opFlags = Some e ->
  e_nextFlags e = opFlags \/ group_of (opcode d) = G_MONITOR_EXIT /\ e_nextFlags e = Z.ldiff opFlags kInstrCanThrow.
Proof using.
  unfold effect. intros E.
  assert (H : forall (r : option (RegisterLine * Z * bool)), ('(line, failure, set) ← r; Some (MkEffect line uninit failure set opFlags)) = Some e ->
    e_nextFlags e = opFlags).
  { intros r Er. apply bind_Some in Er as ([[x y] z] & _ & Er). injection Er as <-. done. }
  destruct (group_of (opcode d)); try (left; by eapply H);
    try (left; apply bind_Some in E as ([x y] & _ & E); by injection E as <-);
    try (left; apply bind_Some in E as ([[x y] z] & _ & E); by injection E as <-).
  apply bind_Some in E as ([x y] & _ & E). injection E as <-. destruct (monitorEntries l); [by right|by left].
Qed.

Lemma effect_may code d i l uninit opFlags e bit : effect NDEBUG classes fuel meth code d i l uninit opFlags = Some e ->
  may (e_nextFlags e) bit -> may opFlags bit.
Proof using.
  intros E%effect_flags. destruct E as [->|[_ ->]]; [done|]. unfold may. rewrite !negb_true_iff, !Z.eqb_neq. intros Hn H0. apply Hn.
  apply Z.bits_inj'. intros k Hk. apply (f_equal (fun z => Z.testbit z k)) in H0. revert H0.
  rewrite !Z.land_spec, Z.ldiff_spec, Z.bits_0. by destruct (Z.testbit opFlags k), (Z.testbit bit k), (Z.testbit kInstrCanThrow k).
Qed.

(** What is loaded: the line of the table where there is one. *)
Definition loads (s : FlowState) (i : Z) (l : RegisterLine) : Prop :=
  (flag_bit s 17 i = true -> exists t, aref (fs_lines s) i = Some (Some t) /\ same_registers (insnRegCountPlus (fs_code s)) t l) /\
  (flag_bit s 17 i = false -> l = fs_work s).

(** What [process] does before the registers flow: [s4] is the state from which they do. *)
Record executes (s : FlowState) (i : Z) (s4 : FlowState) (l : RegisterLine) (e : Effect) (opFlags : Z)
    (d : DecodedInstruction) (uninit : UninitInstanceMap) : Prop := {
  ex_code : fs_code s4 = fs_code s;
  ex_flags : fs_flags s4 = fs_flags s;
  ex_lines : fs_lines s4 = fs_lines s;
  ex_loads : loads s i l;
  ex_insn : instruction_at (fs_code s) i d opFlags;
  ex_effect : effect NDEBUG classes fuel meth (fs_code s) d i l uninit opFlags = Some e;
  ex_ok : VERIFY_OK (e_failure e) = true;
  ex_left : left_line (fs_code s) e = Some (fs_work s4);
  ex_saved : may opFlags kInstrCanThrow -> dvmInsnIsInTry (fs_flags s) i = Some true ->
    line_below (insnRegCountPlus (fs_code s)) l (fs_saved s4)
}.

Lemma load_line s i b s1 : sized s -> 0 <= i < Z.of_nat (length (fs_lines s)) ->
  dvmInsnIsBranchTarget (fs_flags s) i = Some b -> (if b then copyLineFromTable NDEBUG s i else Some s) = Some s1 ->
  fs_code s1 = fs_code s /\ fs_flags s1 = fs_flags s /\ fs_lines s1 = fs_lines s /\ loads s i (fs_work s1).
Proof using.
  intros Hs Hi Hb E. apply (has_bit s i 17 b Hs Hi) in Hb; [|lia]. unfold loads. rewrite <- Hb. destruct b; [|by injection E as <-].
  unfold copyLineFromTable in E. apply bind_Some in E as (o & Ho & E). apply bind_Some in E as (t & -> & E).
  apply bind_Some in E as (l & El & [= <-]). split_and!; try done. intros _. exists t. split; [done|].
  by apply (copy_line_same NDEBUG _ _ _ _ El).
Qed.

Lemma save_line s i f s1 : save_registers NDEBUG s i f = Some s1 ->
  fs_code s1 = fs_code s /\ fs_flags s1 = fs_flags s /\ fs_lines s1 = fs_lines s /\ fs_work s1 = fs_work s /\ fs_uninit s1 = fs_uninit s /\
  (may f kInstrCanThrow -> dvmInsnIsInTry (fs_flags s) i = Some true ->
    line_below (insnRegCountPlus (fs_code s)) (fs_work s) (fs_saved s1)).
Proof using.
  unfold save_registers, may. intros E. apply bind_Some in E as (b & -> & E).
  destruct (negb _), b; cbn [andb] in E; try (destruct NDEBUG; [by injection E as <-|by apply bind_Some in E as (? & _ & [= <-])]).
  apply bind_Some in E as (l & El & [= <-]). split_and!; try done. intros _ _.
  by apply (copy_line_spec NDEBUG classes Object array_interfaces _ _ _ _ El).
Qed.

Lemma process_executes s i g s' g' : sized s -> 0 <= i < Z.of_nat (length (fs_lines s)) -> processed s i g = Some (Some (s', g')) ->
  exists s4 l e opFlags d uninit s5, executes s i s4 l e opFlags d uninit /\
    flow_on NDEBUG classes fuel s4 (opcode d) i (e_nextFlags e) g = Some (Some (s5, g')) /\
    exists flags1 flags2, dvmInsnSetVisited (fs_flags s5) i true = Some flags1 /\ dvmInsnSetChanged flags1 i false = Some flags2 /\
    s' = with_flags flags2 s5.
Proof using.
  intros Hs Hi E. unfold process in E. apply bind_Some in E as (b & Eb & E). apply bind_Some in E as (s1 & E1 & E).
  apply unless_inv in E as ([s5 g5] & Ev & E). apply bind_Some in E as (flags1 & F1 & E). apply bind_Some in E as (flags2 & F2 & [= <- <-]).
  destruct (load_line s i b s1 Hs Hi Eb E1) as (C1 & G1 & N1 & Hl).
  unfold verifyInstruction in Ev. apply bind_Some in Ev as (insns & Ei & Ev). apply bind_Some in Ev as ([o d] & Ed & Ev).
  apply bind_Some in Ev as (f & Ef & Ev). apply bind_Some in Ev as (s2 & E2 & Ev). apply bind_Some in Ev as (e & Ee & Ev).
  destruct (save_line _ _ _ _ E2) as (C2 & G2 & N2 & W2 & U2 & Hsave).
  apply unless_inv in Ev as ([s3 f3] & E3 & Ev). unfold handle_failure in E3.
  destruct (VERIFY_OK (e_failure e)) eqn:Eok; [|by rewrite orb_true_r in E3]. injection E3 as <- <-.
  apply bind_Some in Ev as (s4 & E4 & Ev).
  assert (H4 : fs_code s4 = fs_code s2 /\ fs_flags s4 = fs_flags s2 /\ fs_lines s4 = fs_lines s2 /\ fs_saved s4 = fs_saved s2 /\
    left_line (fs_code s2) e = Some (fs_work s4)).
  { unfold left_line. destruct (e_justSetResult e); [by injection E4 as <-|]. unfold clear_result in E4.
    apply bind_Some in E4 as (l1 & El1 & E4). apply bind_Some in E4 as (l2 & El2 & [= <-]). cbn [fs_work fs_code with_work with_uninit] in El1, El2. by rewrite El1. }
  destruct H4 as (C4 & G4 & N4 & V4 & Hleft). rewrite C2, C1 in *. rewrite G1 in *. rewrite W2 in *.
  exists s4, (fs_work s1), e, f, d, (fs_uninit s2), s5. split; [|split; [done|by exists flags1, flags2]].
  split; try congruence; try done.
  - by exists insns, o.
  - intros Hm Ht. rewrite V4. by apply Hsave.
Qed.

(** ** The states in between *)

Lemma extends_same s s' : fs_code s' = fs_code s -> fs_flags s' = fs_flags s -> fs_lines s' = fs_lines s -> extends s s'.
Proof using.
  intros Hc Hf Hl. assert (Hb : forall k j, flag_bit s' k j = flag_bit s k j) by (intros; unfold flag_bit; by rewrite Hf).
  split; [done|by split; [rewrite Hf|]|intros j; unfold stored; by rewrite Hl|].
  intros j l Hj. exists l. split; [|apply line_le_refl]. unfold line_of, seen, visited, changed in *. by rewrite !Hb, Hl.
Qed.

(** A mark where no registers are stored. *)
Lemma plain_line s s1 t j : plain_mark s s1 t -> line_of s1 j = line_of s j.
Proof using.
  intros P. pose proof P as (Hst & _ & flags' & -> & _). destruct (decide (j = t)) as [->|Hne].
  - unfold line_of, stored in *. cbn [fs_lines with_flags]. by destruct (aref (fs_lines s) t) as [[]|], (seen _ t), (seen _ t).
  - unfold line_of, seen, visited, changed. rewrite !(plain_bit s _ t _ j P) by lia. by rewrite !decide_False.
Qed.

Lemma plain_extends s s1 t : plain_mark s s1 t -> extends s s1.
Proof using.
  intros P. destruct (plain_facts s s1 t (or_intror P)) as (? & ? & ? & ? & _).
  split; [done|by eapply low_plain|done|]. intros j l Hl. exists l. rewrite (plain_line s s1 t j P). split; [done|apply line_le_refl].
Qed.

Lemma plain_changed s s1 t j : plain_mark s s1 t -> changed s1 j = true -> changed s j = true \/ j = t.
Proof using.
  intros P. unfold changed. rewrite (plain_bit s s1 t 31 j P) by lia. destruct (decide (j = t)); [by right|by left].
Qed.

(** A line is as it was where there is no mark afterwards. *)
Lemma grows_line s s' j : grown s s' -> changed s' j = false -> changed s j = false /\ line_of s' j = line_of s j.
Proof using.
  intros G Hc. assert (Hs : changed s j = false).
  { destruct (changed s j) eqn:E; [|done]. by rewrite (g_changed G j E) in Hc. }
  split; [done|]. destruct (line_of s j) as [l|] eqn:El.
  - destruct (g_line G j l El) as (l' & Hl' & _ & [->|Ht]); [done|congruence].
  - pose proof (g_stored G j) as Hst. pose proof (g_bits G 30 j ltac:(lia)) as Hv.
    unfold line_of, seen, visited, stored in *. rewrite Hc, Hs, Hv in *.
    destruct (flag_bit s 30 j); cbn [orb] in *; [|done]. destruct (aref (fs_lines s) j) as [[]|], (aref (fs_lines s') j) as [[]|]; done.
Qed.

(** An instruction that was looked at. *)
Lemma finish_spec s i flags1 flags2 : sized s -> changed s i = true ->
  dvmInsnSetVisited (fs_flags s) i true = Some flags1 -> dvmInsnSetChanged flags1 i false = Some flags2 ->
  let s' := with_flags flags2 s in
  length flags2 = length (fs_flags s) /\ (forall k j, 0 <= k < 30 -> flag_bit s' k j = flag_bit s k j) /\
  (forall j, changed s' j = if decide (j = i) then false else changed s j) /\ (forall j, seen s' j = seen s j).
Proof using.
  intros Hs Hi F1 F2. assert (Hr : 0 <= i < Z.of_nat (length (fs_lines s))).
  { rewrite <- (proj1 Hs). unfold changed, flag_bit in Hi. destruct (aref (fs_flags s) i) eqn:Ea; [|done]. by apply aref_lt in Ea. }
  pose proof (or_flags_bits _ _ _ 30 _ Hr (proj2 Hs) ltac:(lia) F1) as B1.
  pose proof (clear_flags_bits _ _ _ 31 _ Hr (proj2 Hs) ltac:(lia) F2) as B2.
  assert (Hb : forall k j, 0 <= k -> flag_bit (with_flags flags2 s) k j =
    if decide (j = i) then (flag_bit s k j || (30 =? k)) && negb (31 =? k) else flag_bit s k j).
  { intros k j Hk. change (with_flags flags2 s) with (with_flags flags2 (with_flags flags1 s)).
    rewrite (bits_changed_at (with_flags flags1 s) flags2 i _ j k B2), (bits_changed_at s flags1 i _ j k B1) by done.
    by destruct (decide (j = i)). }
  split; [destruct B1 as [<- _]; by destruct B2|]. split_and!.
  - intros k j Hk. rewrite Hb by lia. rewrite (proj2 (Z.eqb_neq 30 k)), (proj2 (Z.eqb_neq 31 k)) by lia.
    rewrite orb_false_r, andb_true_r. by destruct (decide (j = i)).
  - intros j. unfold changed. rewrite Hb by lia. destruct (decide (j = i)); [by rewrite andb_false_r|done].
  - intros j. unfold seen, visited, changed in *. rewrite !Hb by lia. destruct (decide (j = i)) as [->|]; [|done].
    rewrite Hi, !orb_true_r. done.
Qed.

(** *** Widths *)

Definition wide_at (s : FlowState) (j : Z) : Prop := forall w, dvmInsnGetWidth (fs_flags s) j = Some w -> 0 < w.

(** Instructions lie one after the other, and branches go to instructions. *)
Record laid_out (s : FlowState) : Prop := {
  lo_target j : flag_bit s 17 j = true -> wide_at s j;
  lo_next j w : 0 <= j -> dvmInsnGetWidth (fs_flags s) j = Some w -> 0 < w -> j + w < Z.of_nat (length (fs_flags s)) ->
    wide_at s (j + w)
}.

Lemma wide_low s s' j : low_same s s' -> wide_at s j -> wide_at s' j.
Proof using. intros Hl Hw w E. apply Hw. eapply width_low; [by apply low_same_sym|done]. Qed.

Lemma laid_out_low s s' : low_same s s' -> laid_out s -> laid_out s'.
Proof using.
  intros Hl [H1 H2]. split.
  - intros j Hj. apply (wide_low s); [done|]. apply H1. by rewrite <- (proj2 Hl) by lia.
  - intros j w H0 Hw Hp Hlt. apply (wide_low s); [done|]. rewrite (proj1 Hl) in Hlt. apply H2; try done. eapply width_low; [by apply low_same_sym|done].
Qed.

(** What [i] with [l] still waits for: the instruction at [g], with the registers at hand. *)
Definition pending (s : FlowState) (g i : Z) (l : RegisterLine) : Prop :=
  stored s g = false /\ changed s g = true /\
  forall s', extends s s' -> checked s' g (fs_work s) -> checked s' i l.

Record stepped (s : FlowState) (i g : Z) (s' : FlowState) (g' : Z) : Prop := {
  st_extends : extends s s';
  st_sized : sized s';
  st_guess : 0 <= g -> 0 <= g';
  st_off : changed s' i = false;
  st_stay j : j <> i -> changed s' j = false -> changed s j = false /\ line_of s' j = line_of s j;
  st_plain j : stored s j = false -> changed s' j = true -> changed s j = true \/ j = g' /\ wide_at s' j;
  st_line : exists l, loads s i l /\
    (~ own_successor (fs_code s) (fs_flags s) i -> line_of s' i = line_of s i) /\
    (checked s' i l \/ pending s' g' i l)
}.

Lemma covers_below s t l u : line_below (insnRegCountPlus (fs_code s)) l u -> covered s t u -> covered s t l.
Proof using. intros W (x & Hx & Wx). exists x. split; [done|by eapply line_le_trans]. Qed.

(** What is checked when the next instruction is. *)
Lemma executed_checked s i s4 l e opFlags d uninit g s5 g' : executes s i s4 l e opFlags d uninit ->
  flowed NDEBUG classes fuel Object array_interfaces B R s4 i (e_nextFlags e) g s5 g' -> extends s s5 ->
  forall s', extends s5 s' ->
  (may (e_nextFlags e) kInstrCanContinue -> stored s' g' = false -> checked s' g' (fs_work s4)) -> checked s' i l.
Proof using.
  intros X FL X5 s' Y Hnext. pose proof (extends_trans _ _ _ X5 Y) as XZ.
  assert (Hst : forall j, stored s' j = stored s4 j).
  { intros j. rewrite (x_stored _ _ XZ). unfold stored. by rewrite (ex_lines _ _ _ _ _ _ _ _ X). }
  assert (Hcov : forall t u, covered s5 t u -> covered s' t u) by (intros t u; by apply covered_extends).
  destruct FL as [_ Fc Fb Fs Ft _ Fr _]. rewrite !(ex_code _ _ _ _ _ _ _ _ X), !(ex_flags _ _ _ _ _ _ _ _ X) in *.
  assert (Hw : exists width, may (e_nextFlags e) kInstrCanContinue -> dvmInsnGetWidth (fs_flags s) i = Some width /\
    fine (fs_code s) (i + width) /\ g' = i + width /\ (stored s4 (i + width) = true -> covered s5 (i + width) (fs_work s4))).
  { destruct (decide (may (e_nextFlags e) kInstrCanContinue)) as [Hc|Hc]; [|by exists 0].
    destruct (Fc Hc) as (width & ? & ? & ? & ? & ? & _). by exists width. }
  destruct Hw as (width & Hw).
  apply (checked_insn s' i l d opFlags uninit e (fs_work s4) width); rewrite ?(x_code _ _ XZ); try apply X.
  - intros Hc. destruct (Hw Hc) as (Ew & Hf & _). split; [|done]. eapply width_low; [apply XZ|done].
  - intros Hc. destruct (Hw Hc) as (_ & _ & _ & Hcv). rewrite Hst. auto.
  - intros Hc. destruct (Hw Hc) as (_ & _ & <- & _). auto.
  - intros Hc. destruct (Fb Hc) as (o & c & Ho & Hf & _ & Hcv). exists o, c. auto.
  - intros Hc t Ht. destruct (Fs Hc t Ht) as (Hf & _ & Hcv). auto.
  - intros Hc Hin t Ht. eapply try_low in Hin; [|apply low_same_sym, XZ]. destruct (Ft Hc Hin t Ht) as (_ & Hcv).
    apply Hcov. apply (covers_below s5 t l (fs_saved s4)); [|done]. rewrite (x_code _ _ X5).
    apply (ex_saved _ _ _ _ _ _ _ _ X); [|done]. eapply effect_may; [apply X|done].
  - done.
Qed.

Lemma changed_range s i : sized s -> changed s i = true -> 0 <= i < Z.of_nat (length (fs_lines s)).
Proof using.
  intros [Hs _] Hi. rewrite <- Hs. unfold changed, flag_bit in Hi. destruct (aref (fs_flags s) i) eqn:Ea; [|done].
  by apply aref_lt in Ea.
Qed.

(** The flow of an instruction, from [s4] to [s5], with the marks that come before. *)
Lemma flowed_extends s4 i f g s5 g' : flowed NDEBUG classes fuel Object array_interfaces B R s4 i f g s5 g' ->
  extends s4 s5 /\ fs_work s5 = fs_work s4 /\ (sized s4 -> sized s5) /\ (forall j, changed s4 j = true -> changed s5 j = true) /\
  (forall j, changed s5 j = false -> changed s4 j = false /\ line_of s5 j = line_of s4 j) /\
  (forall j, stored s4 j = false -> changed s5 j = true -> changed s4 j = true \/
    exists w, dvmInsnGetWidth (fs_flags s4) i = Some w /\ j = i + w /\ j = g').
Proof using.
  intros FL. destruct (fl_start FL) as (s1 & G & [->|(Hc & w & Ew & P)]).
  - split_and!; [by apply grows_extends|apply G|apply (grows_sized G)|apply G|by intros; apply grows_line|].
    intros j Hj Hch. left. by rewrite <- (g_plain G j Hj).
  - destruct (fl_continue FL Hc) as (w' & Ew' & _ & _ & Hg & _). rewrite Ew in Ew'. injection Ew' as <-.
    split_and!.
    + eapply extends_trans; [by eapply plain_extends|by apply grows_extends].
    + rewrite (g_work G). by apply (plain_facts s4 s1 _ (or_intror P)).
    + intros Hs. apply (grows_sized G). by eapply plain_sized.
    + intros j Hj. apply (g_changed G). unfold changed in *. rewrite (plain_bit s4 s1 _ 31 j P), Hj by lia. by destruct (decide _).
    + intros j Hj. destruct (grows_line _ _ j G Hj) as [H1 ->]. split; [|by eapply plain_line].
      destruct (changed s4 j) eqn:E; [|done]. unfold changed in E, H1. rewrite (plain_bit s4 s1 _ 31 j P), E in H1 by lia.
      by destruct (decide _).
    + intros j Hj Hch. rewrite (g_plain G) in Hch.
      * destruct (plain_changed _ _ _ _ P Hch) as [?| ->]; [by left|right]. by exists w.
      * destruct (plain_facts s4 s1 _ (or_intror P)) as (_ & _ & _ & Hst & _). by rewrite Hst.
Qed.

Lemma finish_extends s i flags1 flags2 : sized s -> changed s i = true ->
  dvmInsnSetVisited (fs_flags s) i true = Some flags1 -> dvmInsnSetChanged flags1 i false = Some flags2 ->
  extends s (with_flags flags2 s) /\ forall j, line_of (with_flags flags2 s) j = line_of s j.
Proof using.
  intros Hs Hi F1 F2. destruct (finish_spec s i flags1 flags2 Hs Hi F1 F2) as (Hl & Hb & _ & Hseen).
  assert (Hline : forall j, line_of (with_flags flags2 s) j = line_of s j) by (intros j; unfold line_of; by rewrite Hseen).
  split; [|done]. split; [done|by split|done|]. intros j l E. exists l. rewrite Hline. split; [done|apply line_le_refl].
Qed.

Lemma process_stepped s i g s' g' : sized s -> laid_out s -> wide_at s i -> changed s i = true ->
  processed s i g = Some (Some (s', g')) -> stepped s i g s' g'.
Proof using L.
  intros Hs Hlay Hwide Hi E.
  destruct (process_executes _ _ _ _ _ Hs (changed_range _ _ Hs Hi) E) as (s4 & l & e & f & d & u & s5 & X & E5 & flags1 & flags2 & F1 & F2 & ->).
  pose proof (extends_same s s4 (ex_code _ _ _ _ _ _ _ _ X) (ex_flags _ _ _ _ _ _ _ _ X) (ex_lines _ _ _ _ _ _ _ _ X)) as X4.
  assert (Hs4 : sized s4) by (unfold sized; by rewrite (ex_flags _ _ _ _ _ _ _ _ X), (ex_lines _ _ _ _ _ _ _ _ X)).
  assert (Hb4 : forall k j, flag_bit s4 k j = flag_bit s k j) by (intros; unfold flag_bit; by rewrite (ex_flags _ _ _ _ _ _ _ _ X)).
  assert (Hl4 : forall j, line_of s4 j = line_of s j).
  { intros j. unfold line_of, seen, visited, changed. by rewrite !Hb4, (ex_lines _ _ _ _ _ _ _ _ X). }
  pose proof (flow_on_spec _ _ _ _ _ _ _ _ L s4 (opcode d) i (e_nextFlags e) g s5 g' Hs4 E5) as FL.
  destruct (flowed_extends _ _ _ _ _ _ FL) as (X5 & W5 & S5 & M5 & K5 & P5). specialize (S5 Hs4).
  assert (Hi5 : changed s5 i = true) by (apply M5; unfold changed; by rewrite Hb4).
  destruct (finish_spec s5 i flags1 flags2 S5 Hi5 F1 F2) as (Hlen & _ & Hch & _).
  destruct (finish_extends s5 i flags1 flags2 S5 Hi5 F1 F2) as [X6 Hl6].
  set (s' := with_flags flags2 s5) in *. pose proof (extends_trans _ _ _ X4 X5) as X45. pose proof (extends_trans _ _ _ X45 X6) as X'.
  split.
  - done.
  - split; [|exact (proj2 S5)]. cbn. rewrite Hlen. exact (proj1 S5).
  - apply (fl_guess FL).
  - by rewrite Hch, decide_True.
  - intros j Hne Hc. rewrite Hch, decide_False in Hc by done. destruct (K5 j Hc) as [H1 H2]. rewrite Hl6, H2, Hl4. split; [|done].
    unfold changed in *. by rewrite <- Hb4.
  - intros j Hst Hc. rewrite Hch in Hc. destruct (decide (j = i)); [done|].
    destruct (P5 j) as [H1|(w & Ew & -> & Hg)]; [by rewrite (x_stored _ _ X4)|done|left; unfold changed in *; by rewrite <- Hb4|].
    right. split; [done|]. rewrite (ex_flags _ _ _ _ _ _ _ _ X) in Ew. apply (wide_low s); [apply X'|].
    assert (Hr5 : changed s5 (i + w) = true) by done. apply (changed_range s5) in Hr5; [|done]. rewrite <- (proj1 S5), (proj1 (x_low _ _ X45)) in Hr5.
    apply (lo_next _ Hlay); [by apply (changed_range s)|done|by apply Hwide|lia].
  - exists l. split; [apply X|]. split.
    + intros Hno. rewrite Hl6. unfold line_of. assert (He : aref (fs_lines s5) i = aref (fs_lines s) i).
      { rewrite <- (ex_lines _ _ _ _ _ _ _ _ X). apply (fl_lines FL). rewrite (ex_code _ _ _ _ _ _ _ _ X), (ex_flags _ _ _ _ _ _ _ _ X).
        intros Hsu. apply Hno. exists d, f. split; [apply X|]. pose proof (fun bit => effect_may _ _ _ _ _ _ _ bit (ex_effect _ _ _ _ _ _ _ _ X)) as Hm.
        destruct Hsu as [[? ?]|[[? ?]|[[? ?]|(? & ? & ?)]]]; unfold successor; auto 6. }
      rewrite He. unfold seen. by rewrite Hi5, Hi, !orb_true_r.
    + pose proof (executed_checked s i s4 l e f d u g s5 g' X FL X45) as Hchk.
      destruct (decide (may (e_nextFlags e) kInstrCanContinue)) as [Hc|Hc]; [|left; by apply Hchk].
      destruct (stored s' g') eqn:Est; [left; apply Hchk; [done|congruence]|right].
      destruct (fl_continue FL Hc) as (w & Ew & _ & _ & Hg & _ & Hmark). rewrite (ex_flags _ _ _ _ _ _ _ _ X) in Ew. specialize (Hwide w Ew).
      split; [done|]. split.
      * rewrite Hch, decide_False by lia. rewrite Hg. apply Hmark. by rewrite <- Hg, <- (x_stored _ _ X5), <- (x_stored _ _ X6).
      * intros s'' Y Hn. apply Hchk; [by eapply extends_trans|]. intros _ _. by rewrite <- W5.
Qed.

(** ** The invariant of the work list *)

Lemma own_successor_low s s' j : low_same s s' -> own_successor (fs_code s) (fs_flags s) j -> own_successor (fs_code s) (fs_flags s') j.
Proof using.
  intros Hl (d & f & Hd & Hsu). exists d, f. split; [done|].
  destruct Hsu as [(H1 & w & H2 & H3)|[H|[H|(H1 & H2 & H3)]]]; unfold successor; [left|auto|auto|right; right; right].
  - split; [done|]. exists w. split; [by eapply width_low|done].
  - split; [done|]. split; [by eapply try_low|done].
Qed.

(** Lines are stored for branch targets, no instruction without a line is marked but the
    next one, and those that are not marked are checked, or wait for it. *)
Record settled (s : FlowState) (g : Z) : Prop := {
  se_sized : sized s;
  se_size : Z.of_nat (length (fs_lines s)) = s32 (dvmGetMethodInsnsSize (fs_code s));
  se_guess : 0 <= g;
  se_laid : laid_out s;
  se_tracked j : stored s j = flag_bit s 17 j;
  se_plain j : stored s j = false -> changed s j = true -> j = g /\ wide_at s j;
  se_done j t : line_of s j = Some t -> changed s j = false -> exists l, widened (insnRegCountPlus (fs_code s)) l t /\
    (~ own_successor (fs_code s) (fs_flags s) j -> same_registers (insnRegCountPlus (fs_code s)) t l) /\
    (checked s j l \/ pending s g j l)
}.

Lemma settled_wide s g j : settled s g -> changed s j = true -> wide_at s j.
Proof using.
  intros I Hc. destruct (stored s j) eqn:Est; [|by apply (se_plain _ _ I)]. apply (lo_target _ (se_laid _ _ I)).
  by rewrite <- (se_tracked _ _ I).
Qed.

Lemma line_of_stored s j t : line_of s j = Some t -> stored s j = true /\ aref (fs_lines s) j = Some (Some t).
Proof using. unfold line_of, stored. destruct (seen s j); [|done]. by destruct (aref (fs_lines s) j) as [[]|]; [intros [= ->]|..]. Qed.

Lemma loaded_widened s s' i l t : (forall j, stored s j = flag_bit s 17 j) -> changed s i = true -> extends s s' -> loads s i l ->
  line_of s' i = Some t -> widened (insnRegCountPlus (fs_code s)) l t.
Proof using.
  intros Htr Hi X [Hload _] Ht. destruct (line_of_stored _ _ _ Ht) as [Hst _]. rewrite (x_stored _ _ X) in Hst.
  destruct (Hload ltac:(by rewrite <- Htr)) as (t0 & E0 & [Hty _]).
  destruct (x_line _ _ X i t0) as (t' & Ht' & W); [unfold line_of, seen; by rewrite Hi, orb_true_r, E0|].
  assert (t' = t) as -> by congruence. unfold widened. rewrite <- Hty. apply W.
Qed.

Lemma stepped_settled s i g s' g' : settled s g -> changed s i = true -> (changed s g = true -> i = g) ->
  stepped s i g s' g' -> settled s' g'.
Proof using.
  intros I Hi Hfirst S. pose proof (st_extends _ _ _ _ _ S) as X. pose proof (x_low _ _ X) as Hlow.
  destruct (st_line _ _ _ _ _ S) as (li & Hload & Hsame & Hend).
  split.
  - apply S.
  - rewrite (x_code _ _ X), <- (se_size _ _ I), <- (proj1 (st_sized _ _ _ _ _ S)), (proj1 Hlow). by rewrite (proj1 (se_sized _ _ I)).
  - apply S, I.
  - by eapply laid_out_low, I.
  - intros j. rewrite (x_stored _ _ X), (se_tracked _ _ I). symmetry. by apply Hlow.
  - intros j Hst Hc. rewrite (x_stored _ _ X) in Hst. destruct (st_plain _ _ _ _ _ S j Hst Hc) as [Hcs|?]; [|done].
    destruct (se_plain _ _ I j Hst Hcs) as [-> _]. rewrite <- Hfirst in Hc by done. by rewrite (st_off _ _ _ _ _ S) in Hc.
  - intros j t Hl Hc. rewrite (x_code _ _ X). destruct (decide (j = i)) as [->|Hne].
    + exists li. split; [exact (loaded_widened s s' i li t (se_tracked _ _ I) Hi X Hload Hl)|]. split; [|done]. intros Hno.
      assert (Hno' : ~ own_successor (fs_code s) (fs_flags s) i) by (intros Ho; by apply Hno, (own_successor_low s)).
      rewrite (Hsame Hno') in Hl. destruct (line_of_stored _ _ _ Hl) as [Hst Ht]. rewrite (se_tracked _ _ I) in Hst.
      destruct (proj1 Hload Hst) as (t' & Ht' & W). congruence.
    + destruct (st_stay _ _ _ _ _ S j Hne Hc) as [Hcs Heq]. rewrite Heq in Hl. destruct (se_done _ _ I j t Hl Hcs) as (l & Hwd & Hw & Hor).
      exists l. split; [done|]. split; [intros Hno; apply Hw; intros Ho; by apply Hno, (own_successor_low s)|].
      destruct Hor as [Hchk|(Pst & Pch & Hp)]; [left; by eapply checked_extends|].
      specialize (Hfirst Pch) as ->. rewrite (se_tracked _ _ I) in Pst. rewrite (proj2 Hload Pst) in Hend.
      destruct Hend as [Hchk|(Qst & Qch & Hq)]; [left; by apply Hp|right].
      split; [done|]. split; [done|]. intros s'' Y Hn. apply Hp; [by eapply extends_trans|]. by apply Hq.
Qed.

(** *** Turns *)

Lemma changed_test s j b : sized s -> 0 <= j < Z.of_nat (length (fs_lines s)) -> dvmInsnIsChanged (fs_flags s) j = Some b -> b = changed s j.
Proof using. intros Hs Hj. by apply (has_bit s j 31 b Hs Hj). Qed.

Lemma find_first s n g r : sized s -> 0 <= g -> g + Z.of_nat n = Z.of_nat (length (fs_lines s)) -> find_changed n (fs_flags s) g = Some r ->
  match r with
  | Some i => changed s i = true /\ (changed s g = true -> i = g)
  | None => forall j, g <= j -> changed s j = false
  end.
Proof using.
  intros Hs. revert g. induction n as [|n IH]; intros g Hg Hn E; cbn [find_changed] in E.
  - injection E as <-. intros j Hj. destruct (changed s j) eqn:Ec; [|done]. pose proof (changed_range s j Hs Ec). lia.
  - apply bind_Some in E as (b & Eb & E). apply (changed_test s) in Eb; [|done|lia]. destruct b.
    + injection E as <-. done.
    + specialize (IH (g + 1) ltac:(lia) ltac:(lia) E). destruct r as [i|].
      * split; [apply IH|congruence].
      * intros j Hj. destruct (decide (j = g)) as [->|]; [done|]. apply IH. lia.
Qed.

Abbreviation turned := (turn NDEBUG true classes fuel meth undecoded).

Lemma turn_settled s g r : settled s g -> turned s g = Some r ->
  match r with
  | Again s' g' => settled s' g' /\ extends s s'
  | Rejected => True
  | Verified s' => s' = s /\ forall j, changed s j = false
  end.
Proof using L.
  intros I E. unfold turn in E. apply bind_Some in E as (found & Ef & E).
  pose proof (se_guess _ _ I) as Hg. pose proof (se_sized _ _ I) as Hs.
  assert (Hfind : match found with
    | Some i => changed s i = true /\ (changed s g = true -> i = g)
    | None => forall j, g <= j -> changed s j = false
    end).
  { rewrite <- (se_size _ _ I) in Ef. destruct (decide (g <= Z.of_nat (length (fs_lines s)))) as [Hle|].
    - apply (find_first s _ g found Hs Hg) in Ef; [done|lia].
    - replace (Z.to_nat _) with 0%nat in Ef by lia. injection Ef as <-. intros j Hj.
      destruct (changed s j) eqn:Ec; [|done]. pose proof (changed_range s j Hs Ec). lia. }
  destruct found as [i|].
  - destruct Hfind as [Hi Hfirst]. apply bind_Some in E as (o & Eo & [= <-]). destruct o as [[s' g']|]; [|done].
    pose proof (process_stepped s i g s' g' Hs (se_laid _ _ I) (settled_wide _ _ _ I Hi) Hi Eo) as S.
    split; [by eapply stepped_settled|apply S].
  - injection E as <-. destruct (Z.eqb_spec g 0) as [->|Hne]; cbn [negb].
    + split; [done|]. intros j. destruct (changed s j) eqn:Ec; [|done]. pose proof (changed_range s j Hs Ec). rewrite Hfind in Ec; [done|lia].
    + split; [|apply extends_refl]. destruct I as [I1 I2 I3 I4 I5 I6 I7]. split; try done.
      * intros j Hst Hc. destruct (I6 j Hst Hc) as [-> _]. by rewrite Hfind in Hc by lia.
      * intros j t Hl Hc. destruct (I7 j t Hl Hc) as (l & Hwd & Hw & [Hchk|(_ & Hp & _)]); [exists l; auto|]. by rewrite Hfind in Hp by lia.
Qed.

Lemma run_settled rounds : forall s g s', settled s g -> run NDEBUG true classes fuel meth undecoded rounds s g = Finished (Some s') ->
  (exists g', settled s' g') /\ extends s s' /\ forall j, changed s' j = false.
Proof using L.
  induction rounds as [|rounds IH]; intros s g s' I E; cbn [run] in E; [done|].
  destruct (turned s g) as [r|] eqn:Et; [|done]. pose proof (turn_settled s g r I Et) as H. destruct r as [s1 g1| |s1]; [|done|].
  - destruct H as [I1 X1]. destruct (IH s1 g1 s' I1 E) as (I' & X' & Hc). split; [done|]. split; [by eapply extends_trans|done].
  - injection E as <-. destruct H as [-> Hc]. split; [by exists g|]. split; [apply extends_refl|done].
Qed.

(** ** The whole pass *)

(** Flags as the static passes leave them: no marks, and instructions one after the
    other. *)
Record flags_ready (flags : list Z) : Prop := {
  fr_marks f : f ∈ flags -> 0 <= f < 2 ^ 30;
  fr_target j w : 0 <= j < Z.of_nat (length flags) -> dvmInsnIsBranchTarget flags j = Some true ->
    dvmInsnGetWidth flags j = Some w -> 0 < w;
  fr_next j w w' : 0 <= j -> dvmInsnGetWidth flags j = Some w -> 0 < w -> j + w < Z.of_nat (length flags) ->
    dvmInsnGetWidth flags (j + w) = Some w' -> 0 < w'
}.

Lemma init_lines code flags uninit monitors s : 0 <= dvmGetMethodInsnsSize code < 2 ^ 31 ->
  length flags = Z.to_nat (dvmGetMethodInsnsSize code) ->
  initRegisterTable NDEBUG code flags uninit kTrackRegsBranches monitors = Some s ->
  sized s /\ fs_code s = code /\ fs_flags s = flags /\ fs_uninit s = uninit /\
  (forall j, stored s j = flag_bit s 17 j) /\
  (forall t, aref (fs_lines s) 0 = Some (Some t) -> t = assignLineStorage monitors code).
Proof using.
  intros Hn Hf E. pose proof (init_sized NDEBUG code flags uninit kTrackRegsBranches monitors s Hn Hf E) as Hs.
  unfold initRegisterTable in E. apply asserted_inv in E.
  apply bind_Some in E as (lines & El & E). apply bind_Some in E as (first & Efirst & E). apply asserted_inv in E. injection E as <-.
  set (s := MkFlow _ _ _ _ _ _) in *. split; [done|]. split_and!; try done.
  - intros j. apply mapM_Some_1 in El. destruct (decide (0 <= j < Z.of_nat (length lines))) as [Hj|Hj].
    + destruct (lookup_lt_is_Some_2 lines (Z.to_nat j) ltac:(lia)) as [o Ho].
      destruct (Forall2_lookup_r _ _ _ _ _ El Ho) as (x & Hx & Eo). apply lookup_seqZ in Hx as [-> _].
      rewrite Z2Nat.id, Z.add_0_l in Eo by lia. cbn [interesting] in Eo. apply bind_Some in Eo as (b & Eb & [= <-]).
      apply (has_bit s j 17 b Hs Hj) in Eb; [|lia]. unfold stored. cbn [fs_lines s]. rewrite aref_nat, Ho by lia.
      rewrite <- Eb. by destruct b.
    + unfold stored, flag_bit. destruct (aref (fs_lines s) j) eqn:Ea; [apply aref_lt in Ea; cbn in Ea; lia|].
      destruct (aref (fs_flags s) j) eqn:Eb; [|done]. apply aref_lt in Eb. rewrite (proj1 Hs) in Eb. cbn in Eb. lia.
  - intros t Ht. cbn [fs_lines s] in Ht. apply mapM_Some_1 in El. rewrite aref_nat in Ht by lia.
    destruct (Forall2_lookup_r _ _ _ _ _ El Ht) as (x & _ & Ex). by apply bind_Some in Ex as ([] & _ & [= <-]).
Qed.

Lemma unmarked s k j : (forall f, f ∈ fs_flags s -> 0 <= f < 2 ^ 30) -> 30 <= k -> flag_bit s k j = false.
Proof using.
  intros Hm Hk. unfold flag_bit. destruct (aref (fs_flags s) j) as [f|] eqn:E; [|done].
  apply (mask_high f 30); [|lia]. apply Hm. unfold aref in E. destruct (0 <=? j); [|done]. by apply list_elem_of_lookup_2 in E.
Qed.

Lemma ready_laid_out s : sized s -> flags_ready (fs_flags s) -> laid_out s.
Proof using.
  intros Hs [Hm Ht Hn]. split.
  - intros j Hj w Hw. unfold flag_bit in Hj. destruct (aref (fs_flags s) j) as [f|] eqn:E; [|done].
    pose proof (aref_lt _ _ _ E) as Hr. apply (Ht j w); [done| |done]. unfold dvmInsnIsBranchTarget, has_flag.
    destruct Hs as [Hl Hsz]. rewrite (s32_address j (length (fs_lines s))) by lia. rewrite E. cbn [mbind option_bind].
    unfold kInsnFlagBranchTarget. by rewrite land_bit, Hj.
  - intros j w H0 Hw Hp Hlt w' Hw'. by apply (Hn j w w').
Qed.

(** The pass starts in a settled state. *)
Lemma start_settled s lines first typed flags' : sized s -> Z.of_nat (length (fs_lines s)) = s32 (dvmGetMethodInsnsSize (fs_code s)) ->
  flags_ready (fs_flags s) -> (forall j, stored s j = flag_bit s 17 j) -> aref (fs_lines s) 0 = Some (Some first) ->
  aset (fs_lines s) 0 (Some typed) = Some lines -> dvmInsnSetChanged (fs_flags s) 0 true = Some flags' ->
  let s' := with_flags flags' (with_lines lines s) in
  settled s' 0 /\ line_of s' 0 = Some typed /\ low_same s s'.
Proof using.
  intros Hs Hsize Hready Htr Hfirst [Hr ->]%aset_Some Hmark s'. pose proof (proj2 Hs) as Hsz.
  assert (Hb : forall k j, 0 <= k -> flag_bit s' k j = if decide (j = 0) then flag_bit s k j || (31 =? k) else flag_bit s k j).
  { intros k j Hk. apply mark_bit; [|done]. by apply (or_flags_bits _ _ (length (fs_lines s)) 31). }
  assert (Hl : length flags' = length (fs_flags s)).
  { destruct (or_flags_bits _ _ (length (fs_lines s)) 31 _ Hr Hsz ltac:(lia) Hmark) as [-> _]. done. }
  assert (Hlow : low_same s s').
  { split; [done|]. intros k j Hk. rewrite Hb by lia. rewrite (proj2 (Z.eqb_neq 31 k)) by lia. rewrite orb_false_r. by destruct (decide _). }
  assert (Hline : forall j, aref (fs_lines s') j = if decide (j = 0) then Some (Some typed) else aref (fs_lines s) j).
  { intros j. by apply (table_insert _ 0). }
  assert (Hch : forall j, changed s' j = if decide (j = 0) then true else false).
  { intros j. unfold changed. rewrite Hb by lia. rewrite (unmarked s 31 j) by (apply Hready || lia). by destruct (decide _). }
  assert (Hs' : sized s').
  { split; cbn; [rewrite Hl|]; rewrite length_insert; apply Hs. }
  assert (H0 : line_of s' 0 = Some typed) by (unfold line_of, seen; rewrite Hch, Hline, orb_true_r; done).
  split; [|done]. split; try done.
  - cbn. by rewrite length_insert.
  - apply (laid_out_low s); [done|]. by apply ready_laid_out.
  - intros j. rewrite (proj2 Hlow) by lia. rewrite <- Htr. unfold stored. rewrite Hline.
    destruct (decide (j = 0)) as [->|]; [by rewrite Hfirst|done].
  - intros j Hst. rewrite Hch. destruct (decide (j = 0)) as [->|]; [|done]. unfold stored in Hst. by rewrite Hline in Hst.
  - intros j t Ht Hc. unfold line_of, seen, visited in Ht. rewrite Hc, Hb in Ht by lia. rewrite (unmarked s 30 j) in Ht by (apply Hready || lia).
    by destruct (decide (j = 0)).
Qed.

(** What the pass leaves when it accepts: the flags but for its two marks are as they
    were, and the lines are closed. *)
Lemma pass_closed rounds code flags uninit monitors s :
  0 <= dvmGetMethodInsnsSize code < 2 ^ 31 -> length flags = Z.to_nat (dvmGetMethodInsnsSize code) -> flags_ready flags ->
  dvmVerifyCodeFlow NDEBUG true classes fuel meth undecoded rounds code flags uninit false monitors = Finished (Some s) ->
  fs_code s = code /\ low_same (with_flags flags s) s /\
  (exists types map, setTypesFromSignature NDEBUG classes dvmFindClassNoInit classJavaLangObject meth
      (m_registersSize code) (m_insSize code) (regTypes (assignLineStorage monitors code)) uninit = Some (Some (types, map)) /\
    covered s 0 (with_types types (assignLineStorage monitors code))) /\
  forall i t, line_of s i = Some t -> exists l, widened (insnRegCountPlus code) l t /\
    (~ own_successor code flags i -> same_registers (insnRegCountPlus code) t l) /\ checked s i l.
Proof using L.
  intros Hn Hf Hready E. unfold dvmVerifyCodeFlow in E.
  destruct (initRegisterTable _ _ _ _ _ _) as [s0|] eqn:E0; [|done]. cbn [mbind option_bind] in E.
  destruct (init_lines _ _ _ _ _ Hn Hf E0) as (Hs0 & C0 & F0 & U0 & T0 & N0).
  destruct (aref (fs_lines s0) 0) as [[first|]|] eqn:Efirst; [|done..]. cbn [mbind option_bind] in E.
  rewrite (N0 first eq_refl), U0 in E.
  destruct (setTypesFromSignature _ _ _ _ _ _ _ _ _) as [[[types map]|]|]; [|done..]. cbn [mbind option_bind] in E.
  destruct (aset (fs_lines s0) 0 _) as [lines|] eqn:El; [|done]. cbn [mbind option_bind] in E.
  unfold doCodeVerification in E. cbn [fs_flags with_uninit with_lines] in E.
  destruct (dvmInsnSetChanged (fs_flags s0) 0 true) as [flags'|] eqn:Em; [|done].
  assert (Hsize : Z.of_nat (length (fs_lines s0)) = s32 (dvmGetMethodInsnsSize (fs_code s0))).
  { rewrite C0, wrapS_id by (lia || (unfold inS; lia)). rewrite <- (proj1 Hs0), F0. lia. }
  rewrite <- F0 in Hready.
  destruct (start_settled (with_uninit map s0) lines first _ flags' Hs0 Hsize Hready T0 Efirst El Em) as (I2 & Hl0 & Hlow).
  set (s2 := with_flags flags' (with_lines lines (with_uninit map s0))) in *.
  destruct (run_settled rounds s2 0 s I2 E) as ((g' & I') & X & Hnone).
  assert (Cs : fs_code s = code) by (rewrite (x_code _ _ X); done).
  assert (Hkeep : low_same s0 s) by (eapply low_same_trans; [exact Hlow|exact (x_low _ _ X)]).
  split; [done|]. split; [|split].
  - unfold low_same, flag_bit in Hkeep. rewrite F0 in Hkeep. exact Hkeep.
  - exists types, map. split; [done|]. apply (covered_extends s2); [done|]. eexists. split; [exact Hl0|apply line_le_refl].
  - intros i t Ht. destruct (se_done _ _ I' i t Ht (Hnone i)) as (l & Hwd & Hw & Hor).
    assert (Hown : own_successor (fs_code s) (fs_flags s) i -> own_successor (fs_code s) (fs_flags s0) i).
    { by apply own_successor_low, low_same_sym. }
    rewrite Cs, F0 in *. exists l. split; [done|]. split; [by auto|].
    destruct Hor as [?|(_ & Hc & _)]; [done|]. by rewrite Hnone in Hc.
Qed.

(** C16. The table of a verified method is closed. When the pass accepts a method on a
    heap of linked classes, as it does where methods are optimized and no register map is
    generated, the code is as it was, the line of the first instruction covers the types
    that the signature gives, and every instruction with a line passes its checks, and so
    does every instruction that follows without a line; wherever they go, by falling,
    branching, switching or throwing, there is a line above the registers that arrive.
    The registers with which an instruction passes are those of its line, unless it may go
    to itself: then they are some that its line has widened from. What may be above what
    is the order of types of the merge: by the values they stand for, by subtyping, and by
    the signs that constants may lose. *)
Theorem verified_code_closed rounds code flags uninit monitors s :
  0 <= dvmGetMethodInsnsSize code < 2 ^ 31 -> length flags = Z.to_nat (dvmGetMethodInsnsSize code) -> flags_ready flags ->
  dvmVerifyCodeFlow NDEBUG true classes fuel meth undecoded rounds code flags uninit false monitors = Finished (Some s) ->
  fs_code s = code /\
  (exists types map, setTypesFromSignature NDEBUG classes dvmFindClassNoInit classJavaLangObject meth
      (m_registersSize code) (m_insSize code) (regTypes (assignLineStorage monitors code)) uninit = Some (Some (types, map)) /\
    covered s 0 (with_types types (assignLineStorage monitors code))) /\
  forall i t, line_of s i = Some t -> exists l, widened (insnRegCountPlus code) l t /\
    (~ own_successor code flags i -> same_registers (insnRegCountPlus code) t l) /\ checked s i l.
Proof using L.
  intros Hn Hf Hready E. destruct (pass_closed _ _ _ _ _ _ Hn Hf Hready E) as (? & _ & ? & ?). done.
Qed.

End Fixpoint_.

(** ** The method with a loop *)

Lemma below_7 j : 0 <= j < 7 -> j = 0 \/ j = 1 \/ j = 2 \/ j = 3 \/ j = 4 \/ j = 5 \/ j = 6.
Proof. lia. Qed.

Lemma loop_flags_ready : flags_ready loop_flags.
Proof.
  split.
  - apply Forall_forall. apply (bool_decide_unpack _). vm_compute. exact I.
  - intros j w Hj%below_7 Ht Hw. destruct_or! Hj; subst; vm_compute in Ht, Hw; congruence || (injection Hw as <-; done).
  - intros j w w' H0 Hw Hp Hlt Hw'. assert (Hj : 0 <= j < 7) by (change (Z.of_nat (length loop_flags)) with 7 in Hlt; lia).
    apply below_7 in Hj. destruct_or! Hj; subst; vm_compute in Hw; injection Hw as <-; try done; vm_compute in Hw', Hlt; by injection Hw' as <-.
Qed.

(** The table of the method is closed, and the head of the loop has a line. *)
Lemma verified_code_closed_witness :
  exists s, dvmVerifyCodeFlow (H := mx_resolution) true true mx_classes 3 loop_info no_insn 10 loop_method loop_flags [] false false =
    Finished (Some s) /\
  exists t l, line_of s 1 = Some t /\ checked (RES := mx_resolution) true mx_classes 3 loop_info no_insn 32 [36] s 1 l.
Proof.
  destruct (dvmVerifyCodeFlow (H := mx_resolution) true true mx_classes 3 loop_info no_insn 10 loop_method loop_flags [] false false)
    as [| |[s|]] eqn:E; try (vm_compute in E; discriminate).
  destruct (verified_code_closed (RES := mx_resolution) true mx_classes 3 loop_info no_insn 32 [36] mx_depth 5 11 mx_linked
    10 loop_method loop_flags [] false s ltac:(vm_compute; split; congruence) eq_refl loop_flags_ready E) as (_ & _ & Hall).
  exists s. split; [done|]. destruct (line_of s 1) as [t|] eqn:Et.
  - destruct (Hall 1 t Et) as (l & _ & _ & Hc). exists t, l. split; [reflexivity|exact Hc].
  - vm_compute in E. injection E as <-. vm_compute in Et. discriminate.
Defined.
