(* ===== verification/VerifiedFlags.v ===== *)
(** * The flags that the static passes hand to the code-flow pass

    Every change the passes make to the flags of the instructions is one of three marks;
    branch targets are marked at instructions only, and every instruction of a "try"
    block is marked. *)

From stdpp Require Import gmap.
From S2P Require Import Prelude Bits Search OpcodeTables Opcodes InstrUtils SwitchData Leb128 DexFile DexCatch DexVerify.
From S2P Require Import InsnFlags VerifiedSwitch VerifiedOperands VerifiedMethod.

(** ** Marks *)

(** One mark: in a "try" block, a point for the collector, or a branch target, which is
    at an instruction. *)
Definition marked (flags flags' : list Z) : Prop := exists addr bits, or_flags flags addr bits = Some flags' /\
  (bits = kInsnFlagInTry \/ bits = kInsnFlagGcPoint \/
   bits = kInsnFlagBranchTarget /\ exists w, dvmInsnGetWidth flags addr = Some w /\ w <> 0).

Abbreviation marks := (rtc marked).

Lemma mark_try flags addr flags' : dvmInsnSetInTry flags addr = Some flags' -> marks flags flags'.
Proof. intros H. apply rtc_once. exists addr, kInsnFlagInTry. auto. Qed.

Lemma mark_gc flags addr flags' : dvmInsnSetGcPoint flags addr = Some flags' -> marks flags flags'.
Proof. intros H. apply rtc_once. exists addr, kInsnFlagGcPoint. auto. Qed.

Lemma mark_target flags addr w flags' : dvmInsnGetWidth flags addr = Some w -> w <> 0 ->
  dvmInsnSetBranchTarget flags addr = Some flags' -> marks flags flags'.
Proof. intros Hw Hn H. apply rtc_once. exists addr, kInsnFlagBranchTarget. eauto 10. Qed.

Lemma opcode_width flags addr : dvmInsnIsOpcode flags addr = Some true -> exists w, dvmInsnGetWidth flags addr = Some w /\ w <> 0.
Proof.
  unfold dvmInsnIsOpcode, dvmInsnGetWidth. destruct (aref flags (s32 addr)) as [f|]; [|done]. cbn [mbind option_bind].
  intros [= H%negb_true_iff%Z.eqb_neq]. eauto.
Qed.

(** *** The passes mark *)

Lemma branch_marks meth flags pc self ok flags' : checkBranchTarget meth flags pc self = Some (ok, flags') -> marks flags flags'.
Proof.
  unfold checkBranchTarget. destruct (dvmGetBranchOffset meth pc) as [[[off cond]|]|]; [|by intros [= _ <-]|done]. cbn [mbind option_bind].
  destruct (negb self && _); [by intros [= _ <-]|]. destruct (chkS 32 _) as [sum|]; [|done]. cbn [mbind option_bind].
  destruct (negb (_ =? sum)); [by intros [= _ <-]|]. destruct (_ || _); [by intros [= _ <-]|].
  destruct (dvmInsnIsOpcode flags sum) as [[]|] eqn:Eo; [|by intros [= _ <-]|done]. cbn [mbind option_bind negb].
  destruct (dvmInsnSetBranchTarget flags sum) as [flags1|] eqn:E1; [|done]. intros [= _ <-].
  destruct (opcode_width _ _ Eo) as (w & Ew & Hw). by eapply mark_target.
Qed.

Lemma targets_marks n table size pc off : forall targ flags ok flags',
  targets_loop n table size pc off targ flags = Some (ok, flags') -> marks flags flags'.
Proof.
  induction n as [|n IH]; intros targ flags ok flags'; cbn [targets_loop]; [by intros [= _ <-]|].
  destruct (s4_at table _) as [o|]; [|done]. cbn [mbind option_bind]. destruct (_ || _); [by intros [= _ <-]|].
  destruct (dvmInsnIsOpcode flags _) as [[]|] eqn:Eo; [|by intros [= _ <-]|done]. cbn [mbind option_bind negb].
  destruct (dvmInsnSetBranchTarget flags _) as [flags1|] eqn:E1; [|done]. cbn [mbind option_bind]. intros H.
  destruct (opcode_width _ _ Eo) as (w & Ew & Hw). etrans; [by eapply mark_target|by eapply IH].
Qed.

Lemma switch_marks meth flags pc ok flags' : checkSwitchTargets meth flags pc = Some (ok, flags') -> marks flags flags'.
Proof.
  unfold checkSwitchTargets. intros E. apply bind_Some in E as (p & _ & E). apply bind_Some in E as (i0 & _ & E).
  apply bind_Some in E as (i1 & _ & E). apply bind_Some in E as (i2 & _ & E). apply bind_Some in E as (start & _ & E).
  destruct (_ || _); [by injection E as _ <-|]. apply bind_Some in E as (table & _ & E). destruct (negb _); [by injection E as _ <-|].
  apply bind_Some in E as (count & _ & E). destruct (if _ =? OP_PACKED_SWITCH then _ else _) as [[keys targets] sig].
  apply bind_Some in E as (s & _ & E). destruct (negb _); [by injection E as _ <-|]. destruct (_ >? _); [by injection E as _ <-|].
  apply bind_Some in E as (asc & _ & E). destruct (negb asc); [by injection E as _ <-|]. by eapply targets_marks.
Qed.

(** The cases of the second pass: the flags stay, or a branch or a switch marks them. *)
Ltac marks_case :=
  match goal with
  | H : Some (_, ?f) = Some (_, ?f') |- marks ?f ?f' => by injection H as _ <-
  | H : mbind _ (checkBranchTarget _ _ _ _) = Some _ |- _ =>
      let E := fresh "E" in apply bind_Some in H as ([? ?] & E%branch_marks & H); by injection H as _ <-
  | H : mbind _ (checkSwitchTargets _ _ _) = Some _ |- _ =>
      let E := fresh "E" in apply bind_Some in H as ([? ?] & E%switch_marks & H); by injection H as _ <-
  | H : mbind _ _ = Some _ |- _ => apply bind_Some in H as (? & _ & H); by injection H as _ <-
  end.

Lemma operands_mark meth dex d pc flags ok flags' : check_operands meth dex d pc flags = Some (ok, flags') -> marks flags flags'.
Proof.
  unfold check_operands, check_constants_and_arrays, check_branches_and_members. intros H.
  repeat match type of H with (if one_of ?op ?ops then _ else _) = _ => destruct (one_of op ops); [marks_case|] end. marks_case.
Qed.

Lemma verify_marks fuel meth dex uninit : forall i flags flags',
  verify_loop fuel meth dex uninit i flags = Some (Some flags') -> marks flags flags'.
Proof.
  induction fuel as [|fuel IH]; intros i flags flags'; cbn [verify_loop];
    (destruct (i <? _); [|destruct (negb _); [done|by intros [= <-]]]); [done|].
  intros E. apply bind_Some in E as (w & _ & E). apply bind_Some in E as (p & _ & E). apply bind_Some in E as ([e d] & _ & E).
  apply bind_Some in E as ([ok flags1] & E1%operands_mark & E). destruct (negb ok); [done|].
  apply bind_Some in E as (f & _ & E). apply bind_Some in E as (flags2 & E2 & E). etrans; [done|].
  etrans; [|by eapply IH]. destruct (negb _); [by eapply mark_gc|by injection E2 as <-].
Qed.

Lemma in_try_marks fuel : forall flags addr end_ flags', in_try_loop fuel flags addr end_ = Some flags' -> marks flags flags'.
Proof.
  induction fuel as [|fuel IH]; intros flags addr end_ flags'; cbn [in_try_loop];
    (destruct (addr <? end_); [|by intros [= <-]]); [done|].
  intros E. apply bind_Some in E as (flags1 & E1%mark_try & E). apply bind_Some in E as (w & _ & E). etrans; [done|by eapply IH].
Qed.

Lemma tries_mark n l size : forall idx flags flags', tries_loop n l idx size flags = Some (Some flags') -> marks flags flags'.
Proof.
  induction n as [|n IH]; intros idx flags flags'; cbn [tries_loop]; [by intros [= <-]|].
  intros E. apply bind_Some in E as (t & _ & E). destruct (_ || _); [done|]. apply bind_Some in E as (w & _ & E).
  destruct (w =? 0); [done|]. apply bind_Some in E as (flags1 & E1%in_try_marks & E). etrans; [done|by eapply IH].
Qed.

Lemma list_marks fuel : forall it flags flags' it', list_loop fuel it flags = Some (Some (flags', it')) -> marks flags flags'.
Proof.
  induction fuel as [|fuel IH]; intros it flags flags' it'; cbn [list_loop]; [done|].
  intros E. apply bind_Some in E as ([[h|] it1] & _ & E); [|by injection E as <- _].
  apply bind_Some in E as (w & Ew & E). destruct (Z.eqb_spec w 0); [done|]. apply bind_Some in E as (flags1 & E1 & E).
  etrans; [by eapply mark_target|by eapply IH].
Qed.

Lemma lists_mark n pCode : forall off flags flags', lists_loop n pCode off flags = Some (Some flags') -> marks flags flags'.
Proof.
  induction n as [|n IH]; intros off flags flags'; cbn [lists_loop]; [by intros [= <-]|].
  intros E. apply bind_Some in E as (it & _ & E). apply bind_Some in E as (r & Er & E). destruct r as [[flags1 it1]|]; [|done].
  apply list_marks in Er. apply bind_Some in E as ([o x] & _ & E). etrans; [done|by eapply IH].
Qed.

(** ** What marks keep *)

(** The flags at an address grow, with the width as it was. *)
Definition kept (f f' : Z) : Prop :=
  Z.land f' kInsnFlagWidthMask = Z.land f kInsnFlagWidthMask /\ forall k, 0 <= k -> Z.testbit f k = true -> Z.testbit f' k = true.

Lemma marked_at flags flags' j f : marked flags flags' -> aref flags j = Some f -> exists f', aref flags' j = Some f' /\ kept f f'.
Proof.
  intros (addr & bits & E & Hb) Hf. unfold or_flags in E. apply bind_Some in E as (g & Eg & E).
  rewrite (aref_aset _ _ _ _ _ E). destruct (decide (s32 addr = j)) as [<-|]; [|by exists f].
  assert (g = f) as -> by congruence. exists (Z.lor f bits). split; [done|]. split.
  - apply width_mask_or. destruct Hb as [->|[->|[-> _]]]; reflexivity.
  - intros k Hk Ht. by rewrite Z.lor_spec, Ht.
Qed.

Lemma kept_refl f : kept f f.
Proof. by split. Qed.

Lemma kept_trans f g h : kept f g -> kept g h -> kept f h.
Proof. intros [H1 H2] [H3 H4]. split; [congruence|auto]. Qed.

Lemma marks_at flags flags' j f : marks flags flags' -> aref flags j = Some f -> exists f', aref flags' j = Some f' /\ kept f f'.
Proof.
  intros H. revert f. induction H as [|a b c Hm _ IH]; intros f Hf; [by exists f|].
  destruct (marked_at _ _ _ _ Hm Hf) as (g & Hg & K1). destruct (IH g Hg) as (h & Hh & K2). exists h. split; [done|]. by eapply kept_trans.
Qed.

Lemma marks_length flags flags' : marks flags flags' -> length flags' = length flags.
Proof. induction 1 as [|a b c (addr & bits & E & _) _ IH]; [done|]. by rewrite IH, (or_flags_length _ _ _ _ E). Qed.

(** Flags without the marks of the code-flow pass, and with branch targets at instructions. *)
Definition tidy (flags : list Z) : Prop := forall j f, aref flags j = Some f ->
  0 <= f /\ Z.shiftr f 19 = 0 /\ (Z.testbit f 17 = true -> Z.land f kInsnFlagWidthMask <> 0).

Lemma marked_tidy flags flags' : marked flags flags' -> tidy flags -> tidy flags'.
Proof.
  intros (addr & bits & E & Hb) Ht j f Hf. pose proof E as E'. unfold or_flags in E. apply bind_Some in E as (g & Eg & E).
  rewrite (aref_aset _ _ _ _ _ E) in Hf. destruct (decide (s32 addr = j)) as [<-|]; [|by apply (Ht j)].
  injection Hf as <-. destruct (Ht _ _ Eg) as (H1 & H2 & H3).
  assert (Hbits : 0 <= bits /\ Z.shiftr bits 19 = 0 /\ Z.land bits kInsnFlagWidthMask = 0 /\ (Z.testbit bits 17 = true -> bits = kInsnFlagBranchTarget)).
  { destruct Hb as [->|[->|[-> _]]]; vm_compute; split_and!; congruence. }
  destruct Hbits as (B1 & B2 & B3 & B4). split; [by apply Z.lor_nonneg|]. split; [by rewrite Z.shiftr_lor, H2, B2|].
  rewrite width_mask_or, Z.lor_spec by done. intros [Hg|Hg]%orb_true_iff; [by apply H3|].
  destruct Hb as [->|[->|[_ (w & Ew & Hw)]]]; [done|done|]. unfold dvmInsnGetWidth in Ew. rewrite Eg in Ew. by injection Ew as <-.
Qed.

Lemma marks_tidy flags flags' : marks flags flags' -> tidy flags -> tidy flags'.
Proof. induction 1; eauto using marked_tidy. Qed.

(** *** The first pass *)

Definition small (flags : list Z) : Prop := forall j f, aref flags j = Some f -> 0 <= f < 2 ^ 16.

Lemma widths_loop_small fuel meth : method_ok meth -> forall flags i ni mi flags' ni' mi', small flags ->
  0 <= i <= dvmGetMethodInsnsSize meth ->
  widths_loop fuel meth flags i ni mi = Some (Some (flags', ni', mi')) -> small flags'.
Proof.
  intros Hm. destruct (method_size meth Hm) as (_ & _ & Hs).
  induction fuel as [|fuel IH]; intros flags i ni mi flags' ni' mi' Ht Hi; cbn [widths_loop];
    (destruct (Z.ltb_spec i (s32 (dvmGetMethodInsnsSize meth))) as [Hlt|Hge]; [|destruct (negb _); [done|by intros [= <- _ _]]]); [done|].
  rewrite s32_small in Hlt by lia. intros H. apply bind_Some in H as (p & Ep & H). apply bind_Some in H as (w & Ew & H).
  destruct (w =? 0); [done|]. apply bind_Some in H as (inst & _ & H). apply bind_Some in H as (flags1 & E1 & H).
  assert (Hw : insn_width meth i = Some w) by (unfold insn_width; by rewrite Ep).
  pose proof (insn_width_bound meth i w Hm Hw) as Hwb.
  destruct (Z.le_gt_cases (i + w) (dvmGetMethodInsnsSize meth)) as [Hle|Hgt].
  - rewrite s32_small in H by lia. eapply (IH flags1 (i + w)); [|lia|exact H]. intros j f Hf.
    unfold or_flags in E1. apply bind_Some in E1 as (g & Eg & E1). rewrite (aref_aset _ _ _ _ _ E1) in Hf.
    destruct (decide (s32 i = j)) as [<-|]; [|by apply (Ht j)]. injection Hf as <-. pose proof (Ht _ _ Eg).
    assert (Hs0 : Z.shiftr (Z.lor g w) 16 = 0).
    { rewrite Z.shiftr_lor, !Z.shiftr_div_pow2 by lia. rewrite !Z.div_small by lia. done. }
    assert (0 <= Z.lor g w) by (apply Z.lor_nonneg; lia). rewrite Z.shiftr_div_pow2 in Hs0 by lia.
    split; [done|]. pose proof (Z.div_mod (Z.lor g w) (2 ^ 16) ltac:(lia)). pose proof (Z.mod_pos_bound (Z.lor g w) (2 ^ 16) ltac:(lia)). lia.
  - exfalso. eapply (widths_loop_past fuel meth flags1 (i + w)); [done|lia|exact H].
Qed.

Lemma small_tidy flags : small flags -> tidy flags.
Proof.
  intros Hs j f Hf. pose proof (Hs j f Hf) as Hr. split; [lia|]. split.
  - rewrite Z.shiftr_div_pow2 by lia. apply Z.div_small. lia.
  - intros Ht. apply Z.testbit_true in Ht; [|lia]. rewrite Z.div_small in Ht by lia. done.
Qed.

Lemma widths_tidy meth flags ni mi : method_ok meth ->
  computeWidthsAndCountOps meth (repeat 0 (Z.to_nat (dvmGetMethodInsnsSize meth))) = Some (Some (flags, ni, mi)) -> tidy flags.
Proof.
  intros Hm H. destruct (method_size meth Hm) as (_ & _ & Hs). apply small_tidy.
  eapply (widths_loop_small _ meth Hm); [|split; [reflexivity|lia]|exact H].
  intros j f Hf. unfold aref in Hf. destruct (0 <=? j); [|done]. apply list_elem_of_lookup_2 in Hf.
  apply list_elem_of_In, repeat_spec in Hf as ->. lia.
Qed.

(** ** "try" blocks *)

Definition tried (flags : list Z) (pc : Z) : Prop := exists f, aref flags pc = Some f /\ Z.testbit f 16 = true.

Lemma marks_tried flags flags' pc : marks flags flags' -> tried flags pc -> tried flags' pc.
Proof.
  intros Hm (f & Hf & Ht). destruct (marks_at _ _ _ _ Hm Hf) as (f' & Hf' & _ & Hk). exists f'. split; [done|]. by apply Hk.
Qed.

Lemma set_tried flags addr flags' : dvmInsnSetInTry flags addr = Some flags' -> tried flags' (s32 addr).
Proof.
  unfold dvmInsnSetInTry, or_flags. intros E. apply bind_Some in E as (g & Eg & E). exists (Z.lor g kInsnFlagInTry).
  rewrite (aref_aset _ _ _ _ _ E), decide_True by done. split; [done|]. rewrite Z.lor_spec. apply orb_true_r.
Qed.

(** The loop over a block marks every instruction of it. *)
Lemma in_try_loop_tried fuel meth : method_ok meth -> forall n addr flags end_ flags', widths_ok meth flags ->
  nth_start meth n = Some addr -> in_try_loop fuel flags addr end_ = Some flags' -> end_ <= dvmGetMethodInsnsSize meth ->
  forall m pc, (n <= m)%nat -> nth_start meth m = Some pc -> pc < end_ -> tried flags' pc.
Proof.
  intros Hm. destruct (method_size meth Hm) as (_ & _ & Hs).
  induction fuel as [|fuel IH]; intros n addr flags end_ flags' Hw Hn H Hend m pc Hnm Hpc Hlt; cbn [in_try_loop] in H;
    pose proof (nth_start_nonneg meth n addr Hn) as H0.
  all: destruct (Z.ltb_spec addr end_) as [Hal|Hal]; [|exfalso].
  1: done.
  2: apply bind_Some in H as (flags1 & E1 & H); apply bind_Some in H as (w & Ew & H).
  1,3: destruct (decide (n = m)) as [->|]; [assert (addr = pc) by congruence; lia|];
    destruct (nth_start_lt meth n m addr pc ltac:(lia) Hn Hpc) as (w & _ & ? & ? & ?); lia.
  assert (Hw1 : widths_ok meth flags1) by by eapply set_in_try_ok.
  pose proof (set_tried _ _ _ E1) as Ht. rewrite s32_small in Ht by lia.
  assert (Hwr : 0 <= w < 2 ^ 16).
  { unfold dvmInsnGetWidth in Ew. destruct (aref flags1 (s32 addr)) as [f|]; [|done]. injection Ew as <-.
    unfold kInsnFlagWidthMask. rewrite (land_mask 16) by done. apply Z.mod_pos_bound. lia. }
  rewrite wrapU_id in H by (unfold inU; lia). destruct (decide (w = 0)) as [->|Hne].
  - rewrite Z.add_0_r in H. by apply (IH n addr flags1 end_ flags' Hw1 Hn H Hend m pc).
  - destruct (decide (n = m)) as [->|]; [assert (pc = addr) as -> by congruence; eapply marks_tried, Ht; by eapply in_try_marks|].
    destruct (width_is_start meth flags1 addr w Hm Hw1 Ew Hne) as [_ Hiw]. rewrite s32_small in Hiw by lia.
    assert (HS : nth_start meth (S n) = Some (addr + w)).
    { cbn [nth_start]. rewrite Hn. cbn [mbind option_bind]. rewrite Hiw. cbn [mbind option_bind].
      by rewrite (proj2 (Z.ltb_lt _ _)), (proj2 (Z.ltb_lt _ _)) by lia. }
    apply (IH (S n) (addr + w) flags1 end_ flags' Hw1 HS H Hend m pc); [lia|done|done].
Qed.

Lemma tries_loop_tried n meth : method_ok meth -> tries_ok (code_of meth) -> forall idx flags flags', 0 <= idx -> widths_ok meth flags ->
  tries_loop n (tries (code_of meth)) idx (dvmGetMethodInsnsSize meth) flags = Some (Some flags') ->
  forall k t pc, idx <= k < idx + Z.of_nat n -> aref (tries (code_of meth)) k = Some t -> is_start meth pc ->
    covers pc t = true -> tried flags' pc.
Proof.
  intros Hm Htr. destruct (method_size meth Hm) as (_ & _ & Hs).
  induction n as [|n IH]; intros idx flags flags' Hidx Hw H k t pc Hk Et Hpc Hc; cbn [tries_loop] in H; [lia|].
  apply bind_Some in H as (t0 & E0 & H). destruct ((_ >=? _) || _ || _) eqn:Eb; [done|]. apply bind_Some in H as (w & Ew & H).
  destruct (Z.eqb_spec w 0); [done|]. apply bind_Some in H as (flags1 & E1 & H).
  assert (Hw1 : widths_ok meth flags1) by by eapply in_try_loop_ok.
  destruct (decide (k = idx)) as [->|]; [|apply (IH (idx + 1) flags1 flags' ltac:(lia) Hw1 H k t pc); [lia|done..]].
  assert (t0 = t) as -> by congruence. pose proof (aref_lt _ _ _ Et) as Hr. rewrite <- (tries_size _ Htr) in Hr.
  destruct (tries_entry _ _ Htr Hr) as (t' & Et' & Hok). assert (t' = t) as -> by congruence.
  apply orb_false_iff in Eb as [Eb Ee]. apply orb_false_iff in Eb as [Eb1 Eb2]. rewrite Z.geb_leb in Eb1, Eb2. rewrite Z.gtb_ltb in Ee.
  apply Z.leb_gt in Eb1, Eb2. apply Z.ltb_ge in Ee.
  apply andb_prop in Hc as [C1%Z.leb_le C2%Z.ltb_lt]. destruct Hok as (O1 & O2 & O3 & O4). unfold inU in *.
  rewrite wrapU_id in * by (unfold inU; lia).
  destruct (width_is_start meth flags (startAddr t) w Hm Hw Ew ltac:(done)) as [[_ (i & Hi)] _]. rewrite s32_small in Hi by lia.
  destruct Hpc as [Hlt [m Hpc]]. eapply marks_tried; [by eapply tries_mark|].
  eapply (in_try_loop_tried _ meth Hm i (startAddr t) flags _ flags1 Hw Hi E1 ltac:(lia) m pc); [|done|lia].
  destruct (Nat.le_gt_cases i m) as [|Hgt]; [done|]. destruct (nth_start_lt meth m i pc _ Hgt Hpc Hi) as (w' & _ & ? & _ & ?). lia.
Qed.

Lemma scan_marks meth flags flags' : scanTryCatchBlocks meth flags = Some (Some flags') -> marks flags flags'.
Proof.
  unfold scanTryCatchBlocks. intros E. apply bind_Some in E as (pCode & _ & E). destruct (_ =? 0); [by injection E as <-|].
  apply bind_Some in E as ([flags1|] & E1 & E); [|done]. apply tries_mark in E1. apply bind_Some in E as (hs & _ & E).
  apply bind_Some in E as (off & _ & E). apply lists_mark in E. by etrans.
Qed.

Lemma scan_tried meth flags flags' pc t : method_ok meth -> tries_ok (code_of meth) -> widths_ok meth flags ->
  scanTryCatchBlocks meth flags = Some (Some flags') -> is_start meth pc -> covering pc (tries (code_of meth)) = Some t -> tried flags' pc.
Proof.
  intros Hm Htr Hw E Hpc Hc. destruct (method_size meth Hm) as (_ & Ecode & _). unfold scanTryCatchBlocks in E. rewrite Ecode in E.
  cbn [mbind option_bind] in E. apply find_some in Hc as [Hin Hc]. apply list_elem_of_In, list_elem_of_lookup in Hin as [k Hk].
  assert (Ek : aref (tries (code_of meth)) (Z.of_nat k) = Some t) by (rewrite aref_nat by lia; by rewrite Nat2Z.id).
  pose proof (aref_lt _ _ _ Ek) as Hr. rewrite <- (tries_size _ Htr) in Hr. rewrite (proj2 (Z.eqb_neq _ _)) in E by lia.
  apply bind_Some in E as ([flags1|] & E1 & E); [|done]. apply bind_Some in E as (hs & _ & E). apply bind_Some in E as (off & _ & E).
  eapply marks_tried; [by eapply lists_mark|].
  by apply (tries_loop_tried _ meth Hm Htr 0 flags flags1 ltac:(lia) Hw E1 (Z.of_nat k) t pc); [lia|..].
Qed.

(** ** What the code-flow pass is given *)

Lemma marks_widths meth flags flags' : method_ok meth -> marks flags flags' -> widths_ok meth flags -> widths_ok meth flags'.
Proof.
  intros Hm. induction 1 as [|a b c (addr & bits & E & Hb) _ IH]; [done|]. intros Hw. apply IH. eapply or_flags_ok; [done..| |exact E].
  destruct Hb as [->|[->|[-> _]]]; reflexivity.
Qed.

Record handed (meth : Method) (flags : list Z) : Prop := {
  ha_end : exists n, nth_start meth n = Some (dvmGetMethodInsnsSize meth);
  ha_widths : widths_ok meth flags;
  ha_tidy : tidy flags;
  ha_tried pc t : triesSize (code_of meth) <> 0 -> is_start meth pc -> covering pc (tries (code_of meth)) = Some t -> tried flags pc
}.

Lemma verified_handed calloc_ok code_flow dex uninit meth : method_ok meth ->
  (triesSize (code_of meth) <> 0 -> tries_ok (code_of meth)) -> verifyMethod calloc_ok code_flow dex uninit meth = Some true ->
  exists flags uninitMap, code_flow meth flags uninitMap = Some true /\ handed meth flags.
Proof.
  intros Hm Htr E. destruct (method_size meth Hm) as (_ & _ & Hs). unfold verifyMethod in E.
  rewrite (proj2 (Z.eqb_neq _ _)) in E by lia. destruct (_ >? _); [done|]. destruct (negb calloc_ok); [done|].
  apply bind_Some in E as ([[[flags ni] mi]|] & E1 & E); [|done]. apply bind_Some in E as (um & _ & E).
  apply bind_Some in E as ([flags1|] & E2 & E); [|done]. apply bind_Some in E as ([flags2|] & E3 & E); [|done].
  exists flags2, um. split; [done|]. pose proof (widths_tidy _ _ _ _ Hm E1) as T1. apply widths_computed in E1 as [Hw Hend]; [|done].
  unfold verifyInstructions in E3. apply bind_Some in E3 as (flags1' & E4 & E3).
  pose proof (scan_marks _ _ _ E2) as M2. pose proof (marks_widths _ _ _ Hm M2 Hw) as Hw1.
  assert (H0 : exists w, dvmInsnGetWidth flags1 0 = Some w /\ w <> 0).
  { destruct Hend as [n Hn]. assert (H0n : (0 < n)%nat) by (apply (starts_ordered meth 0 n 0 _ eq_refl Hn); lia).
    destruct (nth_start_lt meth 0 n 0 _ H0n eq_refl Hn) as (w & Ew & Hp & Hlt & _). exists w.
    apply (widths_at meth flags1 Hw1 0 w); [lia|]. split; [|done]. split; [lia|by exists 0%nat]. }
  destruct H0 as (w & Ew & Hne). assert (M : marks flags1 flags2).
  { etrans; [by eapply mark_target|by eapply verify_marks]. }
  split.
  - done.
  - by eapply marks_widths.
  - eapply marks_tidy; [exact M|]. by eapply marks_tidy.
  - intros pc t Hne0 Hpc Hc. eapply marks_tried; [exact M|]. apply (scan_tried meth flags flags1 pc t); auto.
Qed.

(** In the flags that are handed over each instruction has its width. *)
Lemma handed_width meth flags pc : method_ok meth -> handed meth flags -> is_start meth pc ->
  exists w, insn_width meth pc = Some w /\ 0 < w /\ dvmInsnGetWidth flags pc = Some w.
Proof.
  intros Hm Hh Hpc. pose proof Hpc as [Hlt [m Hp]]. destruct (ha_end _ _ Hh) as [n Hn].
  pose proof (starts_ordered meth m n pc _ Hp Hn Hlt) as Hmn. pose proof (nth_start_nonneg meth m pc Hp).
  destruct (nth_start_lt meth m n pc _ Hmn Hp Hn) as (w & Ew & Hw0 & _ & _). exists w. split; [done|]. split; [done|].
  by apply (widths_at meth flags (ha_widths _ _ Hh) pc w).
Qed.

Lemma handed_start meth flags pc w : method_ok meth -> handed meth flags -> 0 <= pc < 2 ^ 31 ->
  dvmInsnGetWidth flags pc = Some w -> 0 < w -> is_start meth pc /\ insn_width meth pc = Some w.
Proof.
  intros Hm Hh H0 Ew Hw. destruct (width_is_start meth flags pc w Hm (ha_widths _ _ Hh) Ew ltac:(lia)) as [? ?].
  by rewrite s32_small in * by lia.
Qed.
