(* ===== verification/VerifiedTypes.v ===== *)
(** * Methods that all passes of the verifier accept

    The static passes and the code-flow pass together: every instruction that the
    interpreter can reach in a method they accept passed the checks of its registers. *)

From stdpp Require Import gmap.
From S2P Require Import Prelude Bits Search OpcodeTables Opcodes InstrUtils SwitchData Leb128 DexFile DexCatch DexSwapVerify DexVerify.
From S2P Require Import InsnFlags VerifiedSwitch VerifiedOperands VerifiedMethod.
From S2P Require Import TypeCheck RegTypes RegMerge RegLine Signatures VerifyInsn CodeFlow FlowSteps FlowEnds FlowFixpoint VerifiedFlags.

(** ** From one pass to the next *)

Lemma handed_ready meth flags : method_ok meth -> handed meth flags -> flags_ready flags.
Proof.
  intros Hm Hh. destruct (method_size meth Hm) as (_ & _ & Hs). pose proof (widths_length _ _ (ha_widths _ _ Hh)) as Hlen. split.
  - intros f [i Hi]%list_elem_of_lookup. assert (Ha : aref flags (Z.of_nat i) = Some f) by (rewrite aref_nat by lia; by rewrite Nat2Z.id).
    destruct (ha_tidy _ _ Hh _ _ Ha) as (H0 & Hsh & _). rewrite Z.shiftr_div_pow2 in Hsh by lia.
    pose proof (Z.div_mod f (2 ^ 19) ltac:(lia)). pose proof (Z.mod_pos_bound f (2 ^ 19) ltac:(lia)). lia.
  - intros j w Hj Ht Hw. unfold dvmInsnIsBranchTarget, CodeFlow.has_flag, dvmInsnGetWidth in *. rewrite s32_small in * by lia.
    destruct (aref flags j) as [f|] eqn:Ef; [|done]. cbn [mbind option_bind] in *. injection Hw as <-. injection Ht as Ht.
    unfold kInsnFlagBranchTarget in Ht. rewrite land_bit in Ht by lia. destruct (ha_tidy _ _ Hh j f Ef) as (H0 & _ & H1).
    specialize (H1 Ht). assert (0 <= Z.land f kInsnFlagWidthMask) by (apply Z.land_nonneg; lia). lia.
  - intros j w w' Hj Hw Hp Hlt Hw'. destruct (handed_start meth flags j w Hm Hh ltac:(lia) Hw Hp) as [Hst Hiw].
    destruct (ha_end _ _ Hh) as [n Hn]. destruct (next_start meth j w n Hn Hst Hiw) as [Hst'|]; [|lia].
    destruct (handed_width meth flags (j + w) Hm Hh Hst') as (w2 & _ & H2 & Ew2). congruence.
Qed.

(** ** The ways out of an instruction that was checked *)

Lemma group_exit op : group_of op = G_MONITOR_EXIT -> op = OP_MONITOR_EXIT.
Proof.
  unfold group_of. destruct (List.find _ group_table) as [[ops g]|] eqn:E; [|done]. intros ->.
  apply find_some in E as [Hin Hop]. apply list_elem_of_In in Hin.
  assert (Hall : forallb (fun p => match p.2 with G_MONITOR_EXIT => bool_decide (p.1 = [OP_MONITOR_EXIT]) | _ => true end) group_table = true)
    by (vm_compute; reflexivity).
  rewrite forallb_forall in Hall. specialize (Hall _ (proj1 (list_elem_of_In _ _) Hin)). apply bool_decide_eq_true in Hall. cbn in Hall.
  subst ops. cbn in Hop. by rewrite orb_false_r, Z.eqb_eq in Hop.
Qed.

Section Reached.
Context (NDEBUG : bool) (classes : gmap Z ClassObject) (fuel : nat) `{RES : Resolution}.
Context (info : MethodInfo) (undecoded : DecodedInstruction) (Object : Z) (array_interfaces : list Z).

Abbreviation checks_pass := (checked NDEBUG classes fuel info undecoded Object array_interfaces).

(** The registers that [i], with the registers [l], hands to the instruction after it. *)
Definition falls (s : FlowState) (i : Z) (l w : RegisterLine) : Prop := exists d opFlags uninit e,
  instruction_at undecoded (fs_code s) i d opFlags /\
  effect NDEBUG classes fuel info (fs_code s) d i l uninit opFlags = Some e /\ VERIFY_OK (e_failure e) = true /\
  left_line (fs_code s) e = Some w /\ may (e_nextFlags e) kInstrCanContinue.

(** The registers that the table of the pass gives for an address. Those of its line where
    it has one, which are some that the line has widened from if the instruction may go to
    itself; those that the instruction before it leaves where it has none. *)
Inductive registers_at (s : FlowState) : Z -> RegisterLine -> Prop :=
  | at_line pc t l : line_of s pc = Some t ->
      widened NDEBUG classes Object array_interfaces (insnRegCountPlus (fs_code s)) l t ->
      (~ own_successor undecoded (fs_code s) (fs_flags s) pc -> same_registers (insnRegCountPlus (fs_code s)) t l) ->
      registers_at s pc l
  | at_next pc l w width : registers_at s pc l -> falls s pc l w -> dvmInsnGetWidth (fs_flags s) pc = Some width ->
      stored s (pc + width) = false -> registers_at s (pc + width) w.

Lemma effect_keeps code d i l uninit opFlags e bit : effect NDEBUG classes fuel info code d i l uninit opFlags = Some e ->
  Z.land bit kInstrCanThrow = 0 \/ opcode d <> OP_MONITOR_EXIT -> may opFlags bit -> may (e_nextFlags e) bit.
Proof using.
  intros E Hor Hm. destruct (effect_flags _ _ _ _ _ _ _ _ _ _ _ E) as [->|[Hg ->]]; [done|].
  destruct Hor as [Hz|Hne]; [|by apply group_exit in Hg]. revert Hm. unfold may. rewrite !negb_true_iff, !Z.eqb_neq. intros Hn H0. apply Hn.
  apply Z.bits_inj'. intros k Hk. apply (f_equal (fun z => Z.testbit z k)) in H0, Hz. revert H0 Hz.
  rewrite !Z.land_spec, Z.ldiff_spec, Z.bits_0. by destruct (Z.testbit opFlags k), (Z.testbit bit k), (Z.testbit kInstrCanThrow k).
Qed.

(** The table of an accepted method: its flags are those that were handed over, and
    every line leads to instructions that are checked. *)
Context (meth : Method) (flags : list Z) (s : FlowState).
Hypothesis Hmeth : method_ok meth.
Hypothesis Hhanded : handed meth flags.
Hypothesis Hcode : fs_code s = meth.
Hypothesis Hflags : low_same (with_flags flags s) s.
Hypothesis Hlines : forall i t, line_of s i = Some t -> exists l,
  widened NDEBUG classes Object array_interfaces (insnRegCountPlus meth) l t /\
  (~ own_successor undecoded meth flags i -> same_registers (insnRegCountPlus meth) t l) /\ checks_pass s i l.
Hypothesis Htries : triesSize (code_of meth) <> 0 -> tries_ok (code_of meth).

Definition passed (pc : Z) : Prop := exists l, registers_at s pc l /\ checks_pass s pc l.

Lemma covered_passed t l : covers NDEBUG classes Object array_interfaces s t l -> passed t.
Proof using Hlines Hcode Hflags.
  clear Hmeth Hhanded Htries. intros (u & Hu & _). destruct (Hlines t u Hu) as (l' & Hwd & Hs & Hc). exists l'. split; [|done].
  apply (at_line s t u l' Hu); [by rewrite Hcode|]. rewrite Hcode. intros Hno. apply Hs. intros Ho. apply Hno.
  rewrite <- Hcode in *. by apply (own_successor_low undecoded (with_flags flags s) s).
Qed.

(** An instruction that passed is one, and not past the end. *)
Lemma passed_decodes pc : passed pc -> pc < dvmGetMethodInsnsSize meth.
Proof using Hmeth Hcode.
  intros (l & _ & Hc). inversion Hc as [i' l' d f u e w wd (p & o & Ei & Ed & _)]; subst i' l'. rewrite Hcode in Ei.
  destruct (method_size meth Hmeth) as (El & _ & _). unfold insns_at in Ei.
  destruct (Z.leb_spec 0 pc), (Z.leb_spec pc (Z.of_nat (length (insns (code_of meth))))); try done. injection Ei as <-.
  destruct (Z.eq_dec pc (Z.of_nat (length (insns (code_of meth))))) as [->|]; [|lia].
  unfold unit_ptr in Ed. by rewrite Nat2Z.id, drop_all in Ed.
Qed.

(** Control goes on, but not by an exception of [monitor-exit]: with structured locking
    there is none, and the pass does not follow it. *)
Definition goes (pc pc' : Z) : Prop := flow meth undecoded pc pc' /\
  forall inst d, decoded_at meth undecoded pc inst d -> opcode d = OP_MONITOR_EXIT -> insn_width meth pc = Some (pc' - pc).

(** What passed is no mark of a data table. *)
Lemma passed_plain pc inst d : passed pc -> decoded_at meth undecoded pc inst d -> is_signature inst = false.
Proof using Hcode.
  clear Hmeth Hhanded Htries Hflags Hlines. intros (l & _ & Hc) (rest & e0 & Ep & Ed).
  inversion Hc as [i' l' d' f u e w wd (p & o & Ei & Ed' & _) He Hok]; subst i' l'. rewrite Hcode in Ei.
  assert (p = inst :: rest) as -> by congruence. assert (d' = d) as -> by congruence.
  assert (Hbad : opcode d = OP_NOP -> vA d <> 0 -> False).
  { intros En Ha. unfold effect in He. rewrite En in He. change (group_of OP_NOP) with G_NOP in He. cbn [mbind option_bind stay_with] in He.
    unfold plain_effect, stay_with in He. rewrite (proj2 (Z.eqb_neq _ _) Ha) in He. cbn in He. injection He as <-. done. }
  unfold is_signature. destruct (Z.eqb_spec inst kPackedSwitchSignature) as [->|]; [|destruct (Z.eqb_spec inst kSparseSwitchSignature) as [->|];
    [|destruct (Z.eqb_spec inst kArrayDataSignature) as [->|]; [|done]]];
    (exfalso; cbn in Ed; injection Ed as _ <-; apply Hbad; [reflexivity|discriminate]).
Qed.

(** The parts of [passed]. *)
Lemma passed_effect pc inst d : passed pc -> is_start meth pc -> decoded_at meth undecoded pc inst d ->
  opcode d = dexOpcodeFromCodeUnit inst /\
  exists f, dexGetFlagsFromOpcode (opcode d) = Some f /\
  (may f kInstrCanContinue -> exists w, insn_width meth pc = Some w /\ passed (pc + w)) /\
  (may f kInstrCanBranch -> exists off c, dvmGetBranchOffset meth pc = Some (Some (off, c)) /\ passed (pc + off)) /\
  (may f kInstrCanSwitch -> forall t, switch_target meth pc t -> passed t) /\
  (may f kInstrCanThrow -> opcode d <> OP_MONITOR_EXIT -> tried flags pc -> forall t, handler_target meth pc t -> passed t).
Proof using Hmeth Hhanded Hcode Hflags Hlines.
  intros (l & Hreg & Hc) Hst (rest & e0 & Ep & Ed).
  inversion Hc as [i' l' d' f uninit e w width Hinsn He Hok Hw Hfall Hcov Hnext Hbra Hsw Hth Hret]; subst i' l'.
  pose proof Hinsn as (p & o & Ei & Ed' & Ef).
  rewrite Hcode in *. assert (p = inst :: rest) as -> by congruence. assert (d' = d) as -> by congruence.
  split.
  { pose proof (insns_at_units meth pc _ Hmeth Ep) as Hu.
    destruct (decode_fields meth _ undecoded e0 d Hmeth Hu Ed) as (inst' & rest' & E & -> & _). by injection E as -> _. }
  exists f. split; [done|].
  assert (Hkeep : forall bit, Z.land bit kInstrCanThrow = 0 \/ opcode d <> OP_MONITOR_EXIT -> may f bit -> may (e_nextFlags e) bit).
  { intros bit. by apply (effect_keeps _ _ _ _ _ _ _ _ He). }
  split_and!.
  - intros Hm%(Hkeep kInstrCanContinue (or_introl eq_refl)). destruct (Hfall Hm) as [Ew _].
    destruct (handed_width meth flags pc Hmeth Hhanded Hst) as (w' & Eiw & _ & Ew'). exists w'. split; [done|].
    assert (width = w') as ->. { pose proof (width_low _ _ pc w' Hflags Ew'). congruence. }
    destruct (stored s (pc + w')) eqn:Es; [by eapply covered_passed, Hcov|exists w]. split; [|by apply Hnext].
    apply (at_next s pc l w w'); [done| |done|done]. exists d, f, uninit, e. by rewrite Hcode.
  - intros Hm%(Hkeep kInstrCanBranch (or_introl eq_refl)). destruct (Hbra Hm) as (off & c & Eo & _ & Hcv).
    exists off, c. split; [done|]. by eapply covered_passed.
  - intros Hm%(Hkeep kInstrCanSwitch (or_introl eq_refl)) t Ht. destruct (Hsw Hm t Ht) as [_ Hcv]. by eapply covered_passed.
  - intros Hm Hne (fl & Efl & Ht) t Hh. apply (Hkeep kInstrCanThrow (or_intror Hne)) in Hm. eapply covered_passed, Hth; [done| |done].
    apply (try_low _ _ pc true Hflags). unfold dvmInsnIsInTry, CodeFlow.has_flag. cbn [fs_flags with_flags].
    destruct Hst as [Hlt [n Hn]]. pose proof (nth_start_nonneg meth n pc Hn). destruct (method_size meth Hmeth) as (_ & _ & Hs).
    rewrite s32_small, Efl by lia. cbn [mbind option_bind]. unfold kInsnFlagInTry. by rewrite land_bit, Ht by lia.
Qed.

Lemma switch_falls op f : op ∈ switch_opcodes -> dexGetFlagsFromOpcode op = Some f -> may f kInstrCanContinue.
Proof using.
  unfold switch_opcodes. rewrite !elem_of_cons. intros Hin E. destruct_or! Hin; [subst op..|by apply not_elem_of_nil in Hin];
    vm_compute in E; injection E as <-; reflexivity.
Qed.

(** From an instruction that passed control goes to one that passed. *)
Lemma goes_passed pc pc' dex : passed pc -> is_start meth pc -> instruction_ok meth dex undecoded pc -> goes pc pc' -> passed pc'.
Proof using Hmeth Hhanded Hcode Hflags Hlines Htries.
  intros Hp Hst Hins [Hflow Hexit].
  assert (Hcan : forall d bit f, dexGetFlagsFromOpcode (opcode d) = Some f -> can d bit -> may f bit).
  { intros d bit f Ef (f' & Ef' & Hf'). assert (f' = f) as -> by congruence. exact Hf'. }
  destruct Hflow as [inst d Hat Hsig|inst d w Hat Hsig Hc Hw|inst d off Hat Hsig Hc Hoff|inst d table v r Hat Hsig Hc Ht Hr|inst d it it' hs h Hat Hsig Hc Hf Hl Hin];
    [by rewrite (passed_plain pc inst d Hp Hat) in Hsig|..];
    destruct (passed_effect pc inst d Hp Hst Hat) as (Eop & f & Ef & Pc & Pb & Ps & Pt); pose proof (Hcan d _ f Ef Hc) as Hm.
  - destruct (Pc Hm) as (w' & Ew & Hpw). congruence.
  - destruct (Pb Hm) as (off' & c & Eo & Hpo). by rewrite (branch_offset_same _ _ _ _ _ _ _ _ Hmeth Hat Eop Hc Hoff Eo).
  - destruct (switch_units _ _ _ _ _ Hmeth Hat Eop Hsig Hc) as (Hop & Hlow & Hw & i1 & i2 & rest & Ep & Hvb).
    destruct Hins as (inst' & d' & nd & (rest' & e' & Ep' & Ed') & _ & Hnd & Hok). destruct Hat as (rest0 & e0 & Ep0 & Ed0).
    assert (d' = d) as -> by congruence.
    assert (Htab : table_ok meth pc).
    { apply (op_switch _ _ _ _ _ Hok). unfold needs_of in Hnd. destruct (dexGetFormatFromOpcode (opcode d)) as [fm|]; [|done].
      destruct (dexGetIndexTypeFromOpcode (opcode d)) as [ix|]; [|done]. rewrite Ef in Hnd. cbn [mbind option_bind] in Hnd.
      destruct (regs_of_format fm); [|done]. injection Hnd as <-. exact Hm. }
    destruct (switch_decoded meth undecoded pc inst d table v r Hmeth (ex_intro _ rest0 (ex_intro _ e0 (conj Ep0 Ed0))) Eop Hsig Hc Htab Ht Hr) as (_ & Hbr & _).
    destruct Hbr as [->|[_ (count & k & Ec & Hk & Eo)]].
    + destruct (Pc (switch_falls _ _ Hop Ef)) as (w & Ew & Hpw). congruence.
    + apply (Ps Hm). exists (inst :: i1 :: i2 :: rest), inst, i1, i2, table, count, k, (branch r). rewrite Hvb in Ht. rewrite Hlow. done.
  - destruct (decide (opcode d = OP_MONITOR_EXIT)) as [Ex|Hne].
    { specialize (Hexit inst d Hat Ex). assert (Hcf : may f kInstrCanContinue) by (rewrite Ex in Ef; vm_compute in Ef; by injection Ef as <-).
      destruct (Pc Hcf) as (w & Ew & Hpw). assert (w = s32 (address h) - pc) as -> by congruence.
      by replace (pc + (s32 (address h) - pc)) with (s32 (address h)) in Hpw by lia. }
    assert (Hts : triesSize (code_of meth) <> 0) by (intros E0; unfold dexFindCatchHandler in Hf; by rewrite E0 in Hf).
    apply (Pt Hm Hne).
    + pose proof Hf as Hf'. rewrite (find_handler_spec _ _ _ (Htries Hts)) in Hf'.
      destruct (covering pc (tries (code_of meth))) as [t|] eqn:Ecov; [|done]. by apply (ha_tried _ _ Hhanded pc t).
    + destruct (method_size meth Hmeth) as (_ & Ecode & _). by exists (code_of meth), it, hs, it', h.
Qed.

End Reached.

(** ** The whole verifier *)

(** The third pass of [verifyMethod]: the code-flow pass, with [rounds] turns at most,
    on a map of instances whose classes are not known yet. *)
Definition code_flow_pass (NDEBUG : bool) (classes : gmap Z ClassObject) (fuel : nat) `{Resolution} (info : MethodInfo)
    (undecoded : DecodedInstruction) (rounds : nat) (monitors : bool) (meth : Method) (flags uninitMap : list Z) : option bool :=
  match dvmVerifyCodeFlow NDEBUG true classes fuel info undecoded rounds meth flags ((fun a => MkUninit a 0) <$> uninitMap) false monitors with
  | Finished (Some _) => Some true
  | Finished None => Some false
  | Timeout | Stuck => None
  end.

(** Whatever is carried out, the instruction at hand passed. *)
Lemma reached_passed NDEBUG classes fuel `{RES : Resolution} info undecoded rounds monitors
    Object array_interfaces depth B R calloc_ok dex meth state item e :
  linked classes dvmFindArrayClass classLoader fuel Object array_interfaces depth B R ->
  Forall is_byte (file state) -> fileLen state < 2 ^ 32 -> swapCodeItem state item = Some (Some e) ->
  loaded_from state item meth ->
  verifyMethod calloc_ok (code_flow_pass NDEBUG classes fuel info undecoded rounds monitors) dex undecoded meth = Some true ->
  exists s, fs_code s = meth /\
  (exists uninit types map, setTypesFromSignature NDEBUG classes dvmFindClassNoInit classJavaLangObject info
      (m_registersSize meth) (m_insSize meth) (regTypes (assignLineStorage monitors meth)) uninit = Some (Some (types, map)) /\
    covers NDEBUG classes Object array_interfaces s 0 (with_types types (assignLineStorage monitors meth))) /\
  forall pc, rtc (goes undecoded meth) 0 pc -> is_start meth pc /\
    passed NDEBUG classes fuel info undecoded Object array_interfaces s pc.
Proof.
  intros L Hf Hlen Hswap Hl Hv.
  destruct (accepted_method _ _ _ _ _ _ _ _ Hf Hlen Hswap Hl Hv) as (Hm & hs & size_text & texts & Hc).
  assert (Htr : triesSize (code_of meth) <> 0 -> tries_ok (code_of meth)) by (intros Hne; apply (ok_tries _ _ _ _ (Hc Hne))).
  destruct (passes_ok _ _ _ _ _ _ _ _ Hm Hc Hv) as (_ & Hall & _).
  destruct (verified_handed _ _ _ _ _ Hm Htr Hv) as (flags & um & Epass & Hh).
  unfold code_flow_pass in Epass. destruct (dvmVerifyCodeFlow _ _ _ _ _ _ _ _ _ _ _ _) as [| |[s|]] eqn:E; try done.
  destruct (method_size meth Hm) as (_ & _ & Hs). pose proof (widths_length _ _ (ha_widths _ _ Hh)) as Hlen'.
  assert (Hsize : 0 <= dvmGetMethodInsnsSize meth < 2 ^ 31) by lia.
  assert (Hfl : length flags = Z.to_nat (dvmGetMethodInsnsSize meth)) by lia.
  destruct (pass_closed _ _ _ _ _ _ _ _ _ _ L _ _ _ _ _ _ Hsize Hfl (handed_ready _ _ Hm Hh) E) as (Cs & Hlow & Hentry & Hlines).
  destruct Hentry as (types & map & Hsig & Hentry). exists s. split; [done|]. split; [by eexists _, types, map|].
  refine (rtc_ind_r _ 0 _ _).
  - split; [split; [lia|by exists 0%nat]|]. by eapply covered_passed.
  - intros pc pc' _ Hgo [Hst Hp].
    pose proof (goes_passed _ _ _ _ _ _ _ meth flags s Hm Hh Cs Hlow Hlines Htr pc pc' dex Hp Hst (Hall pc Hst) Hgo) as Hp'.
    split; [|exact Hp']. destruct (flow_start _ _ _ _ _ _ _ _ Hm Hc Hv pc pc' Hst (fun inst d => passed_plain _ _ _ _ _ _ _ meth s Cs pc inst d Hp) (proj1 Hgo)) as [?| ->]; [done|].
    pose proof (passed_decodes _ _ _ _ _ _ _ meth s Hm Cs _ Hp'). lia.
Qed.

(** ** Properties *)

(** C13. Every instruction that can be reached passed its checks, with the registers that
    the table of the verifier gives for it. Take the bytes of a dex file whose code item is
    accepted, a method with that code, and a heap of linked classes on which all three
    passes of the verifier accept the method, as it is run with [optimizing] set and with no
    register map to generate. The pass leaves a table whose first line covers the types of
    the signature. Whatever sequence of instructions is carried out from the first, by
    falling through, by branches, by switches on any value and by exceptions into the
    handlers that are found (but for those of [monitor-exit], which the pass does not
    follow), control is at the start of an instruction, never past the end, and that
    instruction passed the checks of the code-flow pass with the registers of its line, or
    with those that the instruction before it leaves where it has no line; and the lines of
    all its successors are above what it leaves. *)
Theorem reached_instructions_checked NDEBUG classes fuel `{RES : Resolution} info undecoded rounds monitors
    Object array_interfaces depth B R calloc_ok dex meth state item e :
  linked classes dvmFindArrayClass classLoader fuel Object array_interfaces depth B R ->
  Forall is_byte (file state) -> fileLen state < 2 ^ 32 -> swapCodeItem state item = Some (Some e) ->
  loaded_from state item meth ->
  verifyMethod calloc_ok (code_flow_pass NDEBUG classes fuel info undecoded rounds monitors) dex undecoded meth = Some true ->
  exists s, fs_code s = meth /\
  (exists uninit types map, setTypesFromSignature NDEBUG classes dvmFindClassNoInit classJavaLangObject info
      (m_registersSize meth) (m_insSize meth) (regTypes (assignLineStorage monitors meth)) uninit = Some (Some (types, map)) /\
    covers NDEBUG classes Object array_interfaces s 0 (with_types types (assignLineStorage monitors meth))) /\
  forall pc, rtc (goes undecoded meth) 0 pc -> is_start meth pc /\
    exists l, registers_at NDEBUG classes fuel info undecoded Object array_interfaces s pc l /\ checked NDEBUG classes fuel info undecoded Object array_interfaces s pc l.
Proof.
  intros L Hf Hlen Hswap Hl Hv.
  exact (reached_passed _ _ _ info undecoded rounds monitors _ _ _ _ _ calloc_ok dex meth state item e L Hf Hlen Hswap Hl Hv).
Qed.

(** C18. Control flow is safe. Take the bytes of a dex file whose code item is accepted,
    and a method with that code that all three passes of the verifier accept, the third
    with [optimizing] set and with no register map to generate, on a heap of linked
    classes. Whatever sequence of instructions is carried out from the first, by falling
    through, by branches, by switches on any value and by exceptions into the handlers
    that are found (but for those of [monitor-exit]), the program counter is at the start
    of an instruction, which can be decoded and is not the mark of a data table: control
    neither falls into a table nor runs past the end of the code. *)
Theorem control_flow_safe NDEBUG classes fuel `{RES : Resolution} info undecoded rounds monitors
    Object array_interfaces depth B R calloc_ok dex meth state item e :
  linked classes dvmFindArrayClass classLoader fuel Object array_interfaces depth B R ->
  Forall is_byte (file state) -> fileLen state < 2 ^ 32 -> swapCodeItem state item = Some (Some e) ->
  loaded_from state item meth ->
  verifyMethod calloc_ok (code_flow_pass NDEBUG classes fuel info undecoded rounds monitors) dex undecoded meth = Some true ->
  forall pc, rtc (goes undecoded meth) 0 pc ->
  is_start meth pc /\ exists inst d, decoded_at meth undecoded pc inst d /\ is_signature inst = false.
Proof.
  intros L Hf Hlen Hswap Hl Hv pc Hpc.
  destruct (reached_passed _ _ _ info undecoded rounds monitors _ _ _ _ _ calloc_ok dex meth state item e L Hf Hlen Hswap Hl Hv)
    as (s & Cs & _ & Hall). destruct (Hall pc Hpc) as [Hst Hp]. split; [done|].
  destruct (accepted_method _ _ _ _ _ _ _ _ Hf Hlen Hswap Hl Hv) as (Hm & hs & size_text & texts & Hc).
  destruct (passes_ok _ _ _ _ _ _ _ _ Hm Hc Hv) as (_ & Hok & _).
  destruct (Hok pc Hst) as (inst & d & nd & Hd & _). exists inst, d. split; [done|].
  exact (passed_plain _ _ _ _ _ _ _ meth s Cs pc inst d Hp Hd).
Qed.

(** ** A method with a switch and a handler *)

Lemma ex_passes : verifyMethod true (code_flow_pass (H := mx_resolution) true mx_classes 3 loop_info ex_uninit 40 false)
  ex_dex ex_uninit ex_meth = Some true.
Proof. vm_compute. reflexivity. Qed.

Lemma ex_no_exit pc inst d : decoded_at ex_meth ex_uninit pc inst d -> opcode d <> OP_MONITOR_EXIT.
Proof.
  intros (rest & e & Ep & Ed) Ex. assert (Hin : inst ∈ insns (code_of ex_meth)).
  { unfold insns_at in Ep. revert Ep. generalize (insns (code_of ex_meth)). intros units. destruct (_ && _); [|done]. intros [= Ep].
    unfold unit_ptr in Ep. rewrite <- (take_drop (Z.to_nat pc) units), Ep. apply elem_of_app. right. apply elem_of_cons. by left. }
  assert (Hop : forallb (fun u => negb (dexOpcodeFromCodeUnit u =? OP_MONITOR_EXIT)) (insns (code_of ex_meth)) = true) by (vm_compute; reflexivity).
  rewrite forallb_forall in Hop. specialize (Hop inst (proj1 (list_elem_of_In _ _) Hin)). apply negb_true_iff, Z.eqb_neq in Hop. apply Hop.
  rewrite <- Ex. unfold dexDecodeInstruction in Ed. cbn [FETCH lookup list_lookup mbind option_bind] in Ed.
  destruct (dexGetFormatFromOpcode _) as [f|] in Ed; [|done]. cbn [mbind option_bind] in Ed.
  destruct (dexGetIndexTypeFromOpcode _) as [ix|] in Ed; [|done]. cbn [mbind option_bind] in Ed.
  apply decode_format_opcode in Ed. rewrite Ed. done.
Qed.

Lemma ex_goes_handler : rtc (goes ex_uninit ex_meth) 0 7.
Proof.
  pose proof ex_flow_handler as Hf. induction Hf as [|pc pc' pc'' Hf _ IH]; [done|]. apply (rtc_l _ _ pc'); [|done]. split; [done|].
  intros inst d Hd Ex. by apply ex_no_exit in Hd.
Qed.

(** The handler is reached, and passed its checks with the registers of the table. *)
Lemma reached_instructions_checked_witness :
  exists s l, fs_code s = ex_meth /\ is_start ex_meth 7 /\
    registers_at (RES := mx_resolution) true mx_classes 3 loop_info ex_uninit 32 [36] s 7 l /\
    checked (RES := mx_resolution) true mx_classes 3 loop_info ex_uninit 32 [36] s 7 l.
Proof.
  destruct (reached_instructions_checked (RES := mx_resolution) true mx_classes 3 loop_info ex_uninit 40 false 32 [36] mx_depth 5 11
    true ex_dex ex_meth ex_state 0 63 mx_linked (proj1 ex_file) (proj2 ex_file) ex_swapped ex_loaded ex_passes) as (s & Hs & _ & Hall).
  destruct (Hall 7 ex_goes_handler) as (Hst & l & Hr & Hl). exists s, l. exact (conj Hs (conj Hst (conj Hr Hl))).
Defined.

(** The handler is no table. *)
Lemma control_flow_safe_witness :
  rtc (goes ex_uninit ex_meth) 0 7 /\ is_start ex_meth 7 /\
  exists inst d, decoded_at ex_meth ex_uninit 7 inst d /\ is_signature inst = false.
Proof.
  split; [exact ex_goes_handler|].
  exact (control_flow_safe (RES := mx_resolution) true mx_classes 3 loop_info ex_uninit 40 false 32 [36] mx_depth 5 11
    true ex_dex ex_meth ex_state 0 63 mx_linked (proj1 ex_file) (proj2 ex_file) ex_swapped ex_loaded ex_passes 7 ex_goes_handler).
Defined.

(** A method whose second instruction is the mark of a table: the static passes let it
    pass, and control falls into the table; the third pass rejects it. *)
Lemma table_fallen_into :
  verifyMethod true ex_flow ex_dex ex_uninit (plain_meth 1 [0; 0x0300; 1; 0; 0; 0x000e]) = Some true /\
  verifyMethod true (code_flow_pass (H := mx_resolution) true mx_classes 3 loop_info ex_uninit 40 false) ex_dex ex_uninit
    (plain_meth 1 [0; 0x0300; 1; 0; 0; 0x000e]) = Some false.
Proof. split; vm_compute; reflexivity. Qed.
