(* ===== verification/RegisterMap.v ===== *)
(** * Register maps: [dalvik/vm/analysis/RegisterMap.cpp]

    For every point at which the collector may run, which registers of a method hold
    references: a vector of bits per address. The maps are generated from the table of
    the code-flow pass, compressed by differences between neighbours, and expanded for
    the collector, which looks lines up by address. *)

From stdpp Require Import gmap sorting.
From S2P Require Import Prelude Bits Search Leb128 DexVerify RegTypes RegLine CodeFlow.

(** ** The structure *)

Definition kRegMapFormatUnknown : Z := 0.
Definition kRegMapFormatNone : Z := 1.
Definition kRegMapFormatCompact8 : Z := 2.
Definition kRegMapFormatCompact16 : Z := 3.
Definition kRegMapFormatDifferential : Z := 4.
Definition kRegMapFormatOnHeap : Z := 0x80.

Record RegisterMap := MkMap { format : Z; regWidth : Z; numEntries0 : Z; numEntries1 : Z; data : list Z }.

Definition kHeaderSize : Z := 4.

Definition dvmRegisterMapGetFormat (pMap : RegisterMap) : Z := Z.ldiff (format pMap) kRegMapFormatOnHeap.

Definition dvmRegisterMapSetFormat (pMap : RegisterMap) (f : Z) : RegisterMap :=
  MkMap (Z.lor (Z.land (format pMap) kRegMapFormatOnHeap) f) (regWidth pMap) (numEntries0 pMap) (numEntries1 pMap) (data pMap).

Definition dvmRegisterMapGetOnHeap (pMap : RegisterMap) : bool := negb (Z.land (format pMap) kRegMapFormatOnHeap =? 0).

Definition dvmRegisterMapSetOnHeap (pMap : RegisterMap) (val : bool) : RegisterMap :=
  MkMap (if val then Z.lor (format pMap) kRegMapFormatOnHeap else Z.ldiff (format pMap) kRegMapFormatOnHeap)
    (regWidth pMap) (numEntries0 pMap) (numEntries1 pMap) (data pMap).

Definition dvmRegisterMapGetRegWidth (pMap : RegisterMap) : Z := regWidth pMap.

Definition dvmRegisterMapSetRegWidth (pMap : RegisterMap) (w : Z) : RegisterMap :=
  MkMap (format pMap) (u8 w) (numEntries0 pMap) (numEntries1 pMap) (data pMap).

Definition dvmRegisterMapGetNumEntries (pMap : RegisterMap) : Z := Z.lor (numEntries0 pMap) (Z.shiftl (numEntries1 pMap) 8).

Definition dvmRegisterMapSetNumEntries (pMap : RegisterMap) (numEntries : Z) : RegisterMap :=
  MkMap (format pMap) (regWidth pMap) (u8 numEntries) (u8 (Z.shiftr numEntries 8)) (data pMap).

(** The header of a map that is allocated with [junk] in it, as its makers fill it in. *)
Definition new_map (junk f w n : Z) (bytes : list Z) : RegisterMap :=
  dvmRegisterMapSetNumEntries (dvmRegisterMapSetRegWidth
    (dvmRegisterMapSetOnHeap (dvmRegisterMapSetFormat (MkMap junk junk junk junk bytes) f) true) w) n.

(** ** Generation *)

Definition isReferenceType (type : Z) : bool := (type >? kRegTypeMAX) || (type =? kRegTypeUninit).

Fixpoint type_vector_loop (n : nat) (i : Z) (regs : list Z) (val : Z) (out : list Z) : option (Z * Z * list Z) :=
  match n, regs with
  | O, _ => Some (i, val, out)
  | S n, type :: regs =>
      let val := Z.shiftr val 1 in
      let val := if isReferenceType type then Z.lor val 0x80 else val in
      type_vector_loop n (i + 1) regs val (if Z.land i 0x07 =? 7 then out ++ [val] else out)
  | S _, [] => None
  end.

(** The bytes that are written. *)
Definition outputTypeVector (regs : list Z) (insnRegCount : Z) : option (list Z) :=
  '(i, val, out) ← type_vector_loop (Z.to_nat insnRegCount) 0 regs 0 [];
  Some (if negb (Z.land i 0x07 =? 0) then out ++ [Z.shiftr val (8 - Z.land i 0x07)] else out).

(** Bytes into a buffer. *)
Definition write_at (buf : list Z) (pos : Z) (bytes : list Z) : option (list Z) :=
  if (0 <=? pos) && (pos + Z.of_nat (length bytes) <=? Z.of_nat (length buf))
  then Some (take (Z.to_nat pos) buf ++ bytes ++ drop (Z.to_nat pos + length bytes) buf) else None.

Fixpoint count_gc_points (n : nat) (insnFlags : list Z) (i gcPointCount : Z) : option Z :=
  match n with
  | O => Some gcPointCount
  | S n =>
      gc ← dvmInsnIsGcPoint insnFlags i;
      count_gc_points n insnFlags (i + 1) (if (gc : bool) then gcPointCount + 1 else gcPointCount)
  end.

Definition addr_bytes (bytesForAddr addr : Z) : list Z :=
  if bytesForAddr =? 1 then [u8 addr] else [Z.land addr 0xff; u8 (Z.shiftr addr 8)].

Fixpoint populate (n : nat) (insnFlags : list Z) (registerLines : list (option RegisterLine))
    (bytesForAddr w insnRegCount i : Z) (buf : list Z) (mapData : Z) : option (list Z * Z) :=
  match n with
  | O => Some (buf, mapData)
  | S n =>
      gc ← dvmInsnIsGcPoint insnFlags i;
      if (gc : bool) then
        line ← aref registerLines i;
        line ← line;
        buf ← write_at buf mapData (addr_bytes bytesForAddr i);
        bits ← outputTypeVector (regTypes line) insnRegCount;
        buf ← write_at buf (mapData + bytesForAddr) bits;
        populate n insnFlags registerLines bytesForAddr w insnRegCount (i + 1) buf (mapData + bytesForAddr + w)
      else populate n insnFlags registerLines bytesForAddr w insnRegCount (i + 1) buf mapData
  end.

(** ** Sizes and lines *)

(** Unknown formats abort. *)
Definition computeRegisterMapSize (pMap : RegisterMap) : option Z :=
  let f := dvmRegisterMapGetFormat pMap in
  let n := dvmRegisterMapGetNumEntries pMap in
  if f =? kRegMapFormatNone then Some 1
  else if f =? kRegMapFormatCompact8 then Some (kHeaderSize + (1 + regWidth pMap) * n)
  else if f =? kRegMapFormatCompact16 then Some (kHeaderSize + (2 + regWidth pMap) * n)
  else if f =? kRegMapFormatDifferential then
    '(len, ptr) ← readUnsignedLeb128 (data pMap);
    Some (len + (kHeaderSize + Z.of_nat (length (data pMap) - length ptr)))
  else None.

Definition map_bytes (pMap : RegisterMap) : list Z :=
  [format pMap; regWidth pMap; numEntries0 pMap; numEntries1 pMap] ++ data pMap.

Definition compareMaps (pMap1 pMap2 : RegisterMap) : option Z :=
  size1 ← computeRegisterMapSize pMap1;
  size2 ← computeRegisterMapSize pMap2;
  if negb (size1 =? size2) then Some (-1)
  else
    let n := Z.to_nat size1 in
    if (n <=? length (map_bytes pMap1))%nat && (n <=? length (map_bytes pMap2))%nat
    then Some (if bool_decide (take n (map_bytes pMap1) = take n (map_bytes pMap2)) then 0 else -1) else None.

Section RegisterMaps.
Context (NDEBUG : bool).

(** The address of the line at a pointer. *)
Definition line_addr (addrWidth : Z) (ptr : list Z) : option Z :=
  a0 ← aref ptr 0;
  if addrWidth >? 1 then a1 ← aref ptr 1; Some (Z.lor a0 (Z.shiftl a1 8)) else Some a0.

Definition kSearchThreshold : Z := 8.

Fixpoint line_scan (n : nat) (addrWidth lineWidth addr : Z) (ptr : list Z) : option (option (list Z)) :=
  match n with
  | O => Some None
  | S n =>
      lineAddr ← line_addr addrWidth ptr;
      if lineAddr =? addr then Some (Some (drop (Z.to_nat addrWidth) ptr))
      else line_scan n addrWidth lineWidth addr (drop (Z.to_nat lineWidth) ptr)
  end.

Fixpoint line_search (fuel : nat) (lo hi addrWidth lineWidth addr : Z) (bytes : list Z) : option (option (list Z)) :=
  if hi >=? lo then
    match fuel with
    | O => None
    | S fuel =>
        let mid := (hi + lo) / 2 in
        let ptr := drop (Z.to_nat (lineWidth * mid)) bytes in
        lineAddr ← line_addr addrWidth ptr;
        if addr >? lineAddr then line_search fuel (mid + 1) hi addrWidth lineWidth addr bytes
        else if addr <? lineAddr then line_search fuel lo (mid - 1) addrWidth lineWidth addr bytes
        else Some (Some (drop (Z.to_nat addrWidth) ptr))
    end
  else Some None.

(** The bytes from the line on; [Some None]: [NULL]. *)
Definition dvmRegisterMapGetLine (pMap : RegisterMap) (addr : Z) : option (option (list Z)) :=
  let f := dvmRegisterMapGetFormat pMap in
  let n := dvmRegisterMapGetNumEntries pMap in
  asserted NDEBUG (n >? 0) (
    if f =? kRegMapFormatNone then Some None
    else
      addrWidth ← (if f =? kRegMapFormatCompact8 then Some 1 else if f =? kRegMapFormatCompact16 then Some 2 else None);
      let lineWidth := addrWidth + regWidth pMap in
      if n <? kSearchThreshold then line_scan (Z.to_nat n) addrWidth lineWidth addr (data pMap)
      else line_search (Z.to_nat n) 0 (n - 1) addrWidth lineWidth addr (data pMap)).

(** ** Compression *)

(** What [computeBitDiff] counts, and the bytes it writes. *)
Record BitDiff := MkDiff { numBitsChanged : Z; firstBitChanged : Z; lebSize : Z; lebOut : list Z }.

Definition diff_bit (output : bool) (bitOffset : Z) (d : BitDiff) : BitDiff :=
  let leb := writeUnsignedLeb128 bitOffset in
  MkDiff (numBitsChanged d + 1) (if firstBitChanged d <? 0 then bitOffset else firstBitChanged d)
    (lebSize d + (if output then Z.of_nat (length leb) else unsignedLeb128Size bitOffset))
    (if output then lebOut d ++ leb else lebOut d).

Fixpoint diff_bits (n : nat) (output : bool) (byteNum bitNum byte1 byte2 : Z) (d : BitDiff) : BitDiff :=
  match n with
  | O => d
  | S n =>
      let d := if negb (Z.land (Z.shiftr byte1 bitNum) 0x01 =? Z.land (Z.shiftr byte2 bitNum) 0x01)
               then diff_bit output (Z.shiftl byteNum 3 + bitNum) d else d in
      diff_bits n output byteNum (bitNum + 1) byte1 byte2 d
  end.

Fixpoint diff_bytes (n : nat) (output : bool) (byteNum : Z) (bits1 bits2 : list Z) (d : BitDiff) : option BitDiff :=
  match n, bits1, bits2 with
  | O, _, _ => Some d
  | S n, byte1 :: bits1, byte2 :: bits2 =>
      let d := if negb (byte1 =? byte2) then diff_bits 8 output byteNum 0 byte1 byte2 d else d in
      diff_bytes n output (byteNum + 1) bits1 bits2 d
  | _, _, _ => None
  end.

Definition computeBitDiff (bits1 bits2 : list Z) (byteWidth : Z) (output : bool) : option BitDiff :=
  d ← diff_bytes (Z.to_nat byteWidth) output 0 bits1 bits2 (MkDiff 0 (-1) 0 []);
  asserted NDEBUG ((numBitsChanged d <=? 0) || (firstBitChanged d >=? 0)) (Some d).

(** Bytes at [tmpPtr], in a buffer of [cap] bytes. *)
Definition emit (cap : Z) (out bytes : list Z) : option (list Z) :=
  if Z.of_nat (length out + length bytes) <=? cap then Some (out ++ bytes) else None.

(** [memcpy] from a pointer. *)
Definition bytes_at (n : Z) (ptr : list Z) : option (list Z) :=
  if n <=? Z.of_nat (length ptr) then Some (take (Z.to_nat n) ptr) else None.

(** The key without the difference of the addresses. *)
Definition diff_key (d : BitDiff) (w : Z) : Z :=
  if numBitsChanged d =? 0 then 0x08
  else if (numBitsChanged d =? 1) && (firstBitChanged d <? 16) then Z.shiftl (firstBitChanged d) 4
  else if (numBitsChanged d <? 15) && (lebSize d <? w) then Z.lor 0x08 (Z.shiftl (numBitsChanged d) 4)
  else Z.lor 0x08 0xf0.

(** The changed bits, when the key does not hold them. In the last case
    [tmpPtr += lebSize] passes the bytes that were just written. *)
Definition emit_bits (cap w key : Z) (prevBits mapData out : list Z) : option (list Z) :=
  if negb (Z.land key 0x08 =? 0) then
    let bitCount := Z.shiftr key 4 in
    if bitCount =? 0 then Some out
    else if bitCount =? 15 then bits ← bytes_at w mapData; emit cap out bits
    else d ← computeBitDiff prevBits mapData w true; emit cap out (lebOut d)
  else Some out.

(** An entry after the first: the key, the difference of the addresses if it does not
    fit in it, the changed bits. *)
Definition compress_entry (cap w addrDiff : Z) (prevBits mapData out : list Z) : option (list Z) :=
  asserted NDEBUG (addrDiff >? 0) (
    let key := if addrDiff <? 8 then u8 (addrDiff - 1) else 0x07 in
    d ← computeBitDiff prevBits mapData w false;
    let key := u8 (Z.lor key (diff_key d w)) in
    out ← emit cap out [key];
    out ← (if Z.land key 0x07 =? 0x07 then emit cap out (writeUnsignedLeb128 (u32 addrDiff)) else Some out);
    emit_bits cap w key prevBits mapData out).

(** [Some None] from here on: [NULL], the map is not compressed. *)
Fixpoint compress_loop (n : nat) (origSize cap addrWidth w : Z) (mapData prevBits : list Z) (prevAddr : Z) (out : list Z) :
    option (option (list Z)) :=
  match n with
  | O => Some (Some out)
  | S n =>
      addr ← line_addr addrWidth mapData;
      let mapData := drop (Z.to_nat addrWidth) mapData in
      out ← compress_entry cap w (addr - prevAddr) prevBits mapData out;
      if Z.of_nat (length out) >=? origSize then Some None
      else compress_loop n origSize cap addrWidth w (drop (Z.to_nat w) mapData) mapData addr out
  end.

Definition compressMapDifferential (junk : Z) (pMap : RegisterMap) : option (option RegisterMap) :=
  origSize ← computeRegisterMapSize pMap;
  let f := dvmRegisterMapGetFormat pMap in
  if negb ((f =? kRegMapFormatCompact8) || (f =? kRegMapFormatCompact16)) then Some None
  else
    let addrWidth := if f =? kRegMapFormatCompact8 then 1 else 2 in
    let w := dvmRegisterMapGetRegWidth pMap in
    let n := dvmRegisterMapGetNumEntries pMap in
    if n <=? 1 then Some None
    else
      let cap := origSize + (1 + 3 + w) in
      let mapData := data pMap in
      addr ← line_addr addrWidth mapData;
      let mapData := drop (Z.to_nat addrWidth) mapData in
      if addr >=? 128 then Some None
      else
        out ← emit cap [] [Z.lor addr (if addrWidth >? 1 then 0x80 else 0x00)];
        bits ← bytes_at w mapData;
        out ← emit cap out bits;
        r ← compress_loop (Z.to_nat (n - 1)) origSize cap addrWidth w (drop (Z.to_nat w) mapData) mapData addr out;
        match r with
        | None => Some None
        | Some out =>
            let newDataSize := Z.of_nat (length out) in
            let newMapSize := kHeaderSize + unsignedLeb128Size newDataSize + newDataSize in
            if newMapSize >=? origSize then Some None
            else
              bytes ← emit (newMapSize - kHeaderSize) (writeUnsignedLeb128 newDataSize) out;
              Some (Some (new_map junk kRegMapFormatDifferential w n bytes))
        end.

(** ** Expansion *)

(** A bit outside of the line is another line's. *)
Definition toggleBit (ptr : list Z) (idx : Z) : option (list Z) :=
  byte ← aref ptr (Z.shiftr idx 3);
  aset ptr (Z.shiftr idx 3) (u8 (Z.lxor byte (Z.shiftl 1 (Z.land idx 0x07)))).

Fixpoint toggle_bits (bitCount : nat) (line srcPtr : list Z) : option (list Z * list Z) :=
  match bitCount with
  | O => Some (line, srcPtr)
  | S bitCount =>
      '(bitIndex, srcPtr) ← readUnsignedLeb128 srcPtr;
      line ← toggleBit line bitIndex;
      toggle_bits bitCount line srcPtr
  end.

(** The bytes of the address of a new line. *)
Definition new_addr (newAddrWidth addr : Z) : list Z :=
  Z.land addr 0xff :: (if newAddrWidth >? 1 then [u8 (Z.shiftr addr 8)] else []).

(** The difference of the addresses of an entry. *)
Definition read_diff (key : Z) (srcPtr : list Z) : option (Z * list Z) :=
  if Z.land key 0x07 =? 7 then readUnsignedLeb128 srcPtr else Some (Z.land key 0x07 + 1, srcPtr).

(** The line of an entry: the previous one, with bits changed or replaced. *)
Definition expand_bits (w key : Z) (prevBits srcPtr : list Z) : option (list Z * list Z) :=
  if negb (Z.land key 0x08 =? 0) then
    let bitCount := Z.shiftr key 4 in
    if bitCount =? 0 then Some (prevBits, srcPtr)
    else if bitCount =? 15 then bits ← bytes_at w srcPtr; Some (bits, drop (Z.to_nat w) srcPtr)
    else toggle_bits (Z.to_nat bitCount) prevBits srcPtr
  else line ← toggleBit prevBits (Z.shiftr key 4); Some (line, srcPtr).

Fixpoint expand_loop (n : nat) (cap newAddrWidth w : Z) (srcPtr prevBits : list Z) (prevAddr : Z) (out : list Z) :
    option (list Z * list Z) :=
  match n with
  | O => Some (out, srcPtr)
  | S n =>
      '(key, srcPtr) ← next srcPtr;
      '(addrDiff, srcPtr) ← read_diff key srcPtr;
      let addr := prevAddr + addrDiff in
      out ← emit cap out (new_addr newAddrWidth addr);
      '(line, srcPtr) ← expand_bits w key prevBits srcPtr;
      out ← emit cap out line;
      expand_loop n cap newAddrWidth w srcPtr line addr out
  end.

Definition uncompressMapDifferential (junk : Z) (pMap : RegisterMap) : option (option RegisterMap) :=
  if negb (dvmRegisterMapGetFormat pMap =? kRegMapFormatDifferential) then Some None
  else
    let w := dvmRegisterMapGetRegWidth pMap in
    let n := dvmRegisterMapGetNumEntries pMap in
    '(expectedSrcLen, srcStart) ← readUnsignedLeb128 (data pMap);
    '(first, srcPtr) ← next srcStart;
    let addr := Z.land first 0x7f in
    let '(newFormat, newAddrWidth) :=
      if Z.land first 0x80 =? 0 then (kRegMapFormatCompact8, 1) else (kRegMapFormatCompact16, 2) in
    let newMapSize := kHeaderSize + (newAddrWidth + w) * n in
    let cap := newMapSize - kHeaderSize in
    out ← emit cap [] (new_addr newAddrWidth addr);
    bits ← bytes_at w srcPtr;
    out ← emit cap out bits;
    '(out, srcPtr) ← expand_loop (Z.to_nat (n - 1)) cap newAddrWidth w (drop (Z.to_nat w) srcPtr) bits addr out;
    if negb (kHeaderSize + Z.of_nat (length out) =? newMapSize) then Some None
    else if negb (Z.of_nat (length srcStart - length srcPtr) =? expectedSrcLen) then Some None
    else Some (Some (new_map junk newFormat w n out)).

(** ** Maps of methods *)

(** What [dvmVerifyCodeFlow] calls when it has verified a method; [Some None]: [NULL]. *)
Definition dvmGenerateRegisterMapV (junk registersSize insnRegCount insnsSize : Z) (insnFlags : list Z)
    (registerLines : list (option RegisterLine)) : option (option RegisterMap) :=
  if registersSize >=? 2048 then Some None
  else
    let w := u8 ((registersSize + 7) / 8) in
    let '(f, bytesForAddr) := if insnsSize <? 256 then (kRegMapFormatCompact8, 1) else (kRegMapFormatCompact16, 2) in
    gcPointCount ← count_gc_points (Z.to_nat insnsSize) insnFlags 0 0;
    if gcPointCount >=? 65536 then Some None
    else
      let bufSize := kHeaderSize + gcPointCount * (bytesForAddr + w) in
      '(bytes, mapData) ← populate (Z.to_nat insnsSize) insnFlags registerLines bytesForAddr w insnRegCount 0
                            (replicate (Z.to_nat (bufSize - kHeaderSize)) junk) 0;
      asserted NDEBUG (kHeaderSize + mapData =? bufSize) (
        let pMap := new_map junk f w gcPointCount bytes in
        pCompMap ← compressMapDifferential junk pMap;
        Some (Some (default pMap pCompMap))).

(** [dvmGetExpandedRegisterMap], of a map that is there. *)
Definition dvmGetExpandedRegisterMap (junk : Z) (curMap : RegisterMap) : option (option RegisterMap) :=
  let f := dvmRegisterMapGetFormat curMap in
  if (f =? kRegMapFormatCompact8) || (f =? kRegMapFormatCompact16) then Some (Some curMap)
  else if f =? kRegMapFormatDifferential then uncompressMapDifferential junk curMap
  else None.

End RegisterMaps.

(** ** Maps in a file *)

(** The bytes that are appended to the file. *)
Definition writeMapForMethod (registerMap : option RegisterMap) : option (list Z) :=
  match registerMap with
  | None => Some [kRegMapFormatNone]
  | Some pMap =>
      mapSize ← computeRegisterMapSize pMap;
      bytes ← bytes_at mapSize (map_bytes pMap);
      match bytes with
      | [] => None
      | f :: bytes => Some (Z.ldiff f kRegMapFormatOnHeap :: bytes)
      end
  end.

(** A map read where it lies; of the shortest only the format is there. *)
Definition map_at (ptr : list Z) : RegisterMap :=
  match ptr with
  | f :: w :: n0 :: n1 :: bytes => MkMap f w n0 n1 bytes
  | f :: _ => MkMap f 0 0 0 []
  | [] => MkMap 0 0 0 0 []
  end.

Definition dvmRegisterMapGetNext (ptr : list Z) : option (RegisterMap * list Z) :=
  let pMap := map_at ptr in
  size ← computeRegisterMapSize pMap;
  if size <=? Z.of_nat (length ptr) then Some (pMap, drop (Z.to_nat size) ptr) else None.


(** ** Numbers in a map *)

Lemma is_byte_lxor a b : is_byte a -> is_byte b -> is_byte (Z.lxor a b).
Proof.
  unfold is_byte. intros Ha Hb. assert (Hn : 0 <= Z.lxor a b) by (apply Z.lxor_nonneg; lia).
  split; [done|]. destruct (Z.eq_dec (Z.lxor a b) 0) as [->|]; [lia|].
  apply (Z.log2_lt_pow2 _ 8); [lia|]. eapply Z.le_lt_trans; [apply Z.log2_lxor; lia|].
  apply Z.max_lub_lt; [destruct (Z.eq_dec a 0) as [->|]|destruct (Z.eq_dec b 0) as [->|]]; try done;
    apply Z.log2_lt_pow2; lia.
Qed.

(** The numbers below a small bound, for properties that hold one by one. *)
Lemma below_all (n : Z) (f : Z -> bool) : forallb f (seqZ 0 n) = true -> forall z, 0 <= z < n -> f z = true.
Proof.
  intros Hf z Hz. rewrite forallb_forall in Hf. apply Hf. apply list_elem_of_In, elem_of_seqZ. lia.
Qed.

Lemma write_loop_short k : forall n data, 0 <= data < 2 ^ (7 * Z.of_nat (S k)) -> (length (write_loop n data) <= S k)%nat.
Proof.
  induction k as [|k IH]; intros [|n] data Hd; try (cbn; lia); rewrite write_loop_S by lia.
  - rewrite (proj2 (Z.ltb_lt _ _)) by lia. done.
  - destruct (data <? 2 ^ 7); cbn [length]; [lia|]. apply le_n_S, IH, pow7_div, Hd.
Qed.

Lemma leb_size data : 0 <= data < 2 ^ 31 -> unsignedLeb128Size data = Z.of_nat (length (writeUnsignedLeb128 data)).
Proof. intros H. unfold unsignedLeb128Size. rewrite write_loop_size; [done|lia]. Qed.

Lemma leb_read data rest : 0 <= data < 2 ^ 31 -> Forall is_byte rest ->
  readUnsignedLeb128 (writeUnsignedLeb128 data ++ rest) = Some (data, rest).
Proof.
  intros Hd Hr. rewrite (uleb_read data) by (done || (apply uleb_write; unfold inU; lia)).
  by rewrite wrapS_id by (try lia; unfold inS; lia).
Qed.

Lemma leb_is_byte data : 0 <= data < 2 ^ 31 -> Forall is_byte (writeUnsignedLeb128 data).
Proof. intros Hd. destruct (uleb_write data) as [H _]; [unfold inU; lia|done]. Qed.

(** ** Changed bits *)

(** The offsets at which two bytes, two lines differ. *)
Definition byte_changes (k x y j n : Z) : list Z :=
  map (fun i => Z.shiftl k 3 + i) (List.filter (Z.testbit (Z.lxor x y)) (seqZ j n)).

Fixpoint changes (k : Z) (b1 b2 : list Z) : list Z :=
  match b1, b2 with
  | x :: b1, y :: b2 => byte_changes k x y 0 8 ++ changes (k + 1) b1 b2
  | _, _ => []
  end.

Definition diff_of (output : bool) (l : list Z) : BitDiff :=
  MkDiff (Z.of_nat (length l)) (hd (-1) l) (Z.of_nat (length (concat (map writeUnsignedLeb128 l))))
    (if output then concat (map writeUnsignedLeb128 l) else []).

(** An offset that a line of at most 255 bytes has. *)
Definition is_offset (i : Z) : Prop := 0 <= i < 2 ^ 31.

Lemma diff_bit_of output l i : is_offset i -> Forall is_offset l ->
  diff_bit output i (diff_of output l) = diff_of output (l ++ [i]).
Proof.
  unfold is_offset. intros Hi Hl. unfold diff_bit, diff_of. cbn [numBitsChanged firstBitChanged lebSize lebOut].
  rewrite map_app, concat_app, !length_app. cbn [map concat length]. rewrite app_nil_r, leb_size by lia.
  f_equal.
  - lia.
  - destruct l as [|a l]; [done|]. inversion Hl as [|? ? Ha]; subst. cbn [hd app].
    by rewrite (proj2 (Z.ltb_ge _ _)) by lia.
  - destruct output; lia.
  - by destruct output.
Qed.

Lemma bits_differ x y j : 0 <= j ->
  negb (Z.land (Z.shiftr x j) 0x01 =? Z.land (Z.shiftr y j) 0x01) = Z.testbit (Z.lxor x y) j.
Proof.
  intros Hj. rewrite !(land_mask 1) by lia. rewrite !Z.shiftr_div_pow2 by lia. change (2 ^ 1) with 2.
  rewrite <- !Z.testbit_spec', Z.lxor_spec by lia. by destruct (Z.testbit x j), (Z.testbit y j).
Qed.

Lemma seqZ_cons_nat j n : seqZ j (Z.of_nat (S n)) = j :: seqZ (j + 1) (Z.of_nat n).
Proof. rewrite seqZ_cons by lia. f_equal. f_equal; lia. Qed.

Lemma byte_changes_offsets k x y j n : 0 <= k < 2 ^ 20 -> 0 <= j -> j + n <= 8 -> Forall is_offset (byte_changes k x y j n).
Proof.
  intros Hk Hj Hn. apply Forall_forall. intros i Hi. unfold byte_changes in Hi.
  apply list_elem_of_In, in_map_iff in Hi as (b & <- & Hb%filter_In). destruct Hb as [Hb _].
  apply list_elem_of_In, elem_of_seqZ in Hb. unfold is_offset. rewrite Z.shiftl_mul_pow2 by lia. lia.
Qed.

Lemma diff_bits_of output k x y n : 0 <= k < 2 ^ 20 -> forall j l, 0 <= j -> j + Z.of_nat n <= 8 -> Forall is_offset l ->
  diff_bits n output k j x y (diff_of output l) = diff_of output (l ++ byte_changes k x y j (Z.of_nat n)).
Proof.
  intros Hk. induction n as [|n IH]; intros j l Hj Hn Hl; cbn [diff_bits].
  - unfold byte_changes. cbn. by rewrite app_nil_r.
  - rewrite bits_differ by lia. unfold byte_changes. rewrite seqZ_cons_nat. cbn [List.filter].
    assert (Ho : is_offset (Z.shiftl k 3 + j)) by (unfold is_offset; rewrite Z.shiftl_mul_pow2 by lia; lia).
    destruct (Z.testbit _ j).
    + rewrite diff_bit_of by done. rewrite IH by (lia || (apply Forall_app; split; [done|by constructor])).
      by rewrite <- app_assoc.
    + by rewrite IH by (lia || done).
Qed.

Lemma same_byte_changes k x j n : byte_changes k x x j n = [].
Proof.
  unfold byte_changes. rewrite Z.lxor_nilpotent. induction (seqZ j n) as [|i l IH]; [done|].
  cbn [List.filter]. by rewrite Z.bits_0.
Qed.

Lemma changes_offsets b1 : forall k b2, 0 <= k -> k + Z.of_nat (length b1) <= 2 ^ 20 -> Forall is_offset (changes k b1 b2).
Proof.
  induction b1 as [|x b1 IH]; intros k [|y b2] Hk Hl; cbn [changes length] in *; try done.
  apply Forall_app. split; [apply byte_changes_offsets; lia|]. apply IH; lia.
Qed.

Lemma diff_bytes_of output b1 : forall k b2 p1 p2 l, 0 <= k -> k + Z.of_nat (length b1) <= 2 ^ 20 ->
  length b2 = length b1 -> Forall is_offset l ->
  diff_bytes (length b1) output k (b1 ++ p1) (b2 ++ p2) (diff_of output l) = Some (diff_of output (l ++ changes k b1 b2)).
Proof.
  induction b1 as [|x b1 IH]; intros k [|y b2] p1 p2 l Hk Hw Hl Ho; try done; cbn [length changes diff_bytes app] in *.
  - by rewrite app_nil_r.
  - assert (Hd : (if negb (x =? y) then diff_bits 8 output k 0 x y (diff_of output l) else diff_of output l) =
      diff_of output (l ++ byte_changes k x y 0 8)).
    { destruct (Z.eqb_spec x y) as [->|]; cbn [negb].
      - by rewrite same_byte_changes, app_nil_r.
      - by apply (diff_bits_of output k x y 8); lia || done. }
    cbv zeta. rewrite Hd, IH.
    + by rewrite <- app_assoc.
    + lia.
    + lia.
    + lia.
    + apply Forall_app. split; [done|]. apply byte_changes_offsets; lia.
Qed.

Lemma computeBitDiff_of NDEBUG w b1 b2 p1 p2 output : length b1 = Z.to_nat w -> length b2 = Z.to_nat w -> 0 <= w <= 255 ->
  computeBitDiff NDEBUG (b1 ++ p1) (b2 ++ p2) w output = Some (diff_of output (changes 0 b1 b2)).
Proof.
  intros H1 H2 Hw. unfold computeBitDiff. rewrite <- H1.
  assert (E0 : MkDiff 0 (-1) 0 [] = diff_of output []) by (by destruct output). rewrite E0.
  rewrite (diff_bytes_of output b1 0 b2 p1 p2 []) by (done || lia). cbn [mbind option_bind app].
  unfold asserted. destruct NDEBUG; [done|].
  pose proof (changes_offsets b1 0 b2 ltac:(lia) ltac:(lia)) as Ho.
  destruct (changes 0 b1 b2) as [|i l]; [done|]. inversion Ho as [|? ? Hi]; subst. unfold is_offset in Hi.
  cbn [numBitsChanged firstBitChanged diff_of hd]. rewrite (proj2 (Z.geb_le _ _)) by lia. by rewrite orb_true_r.
Qed.

(** ** Toggled bits *)

Fixpoint toggle_all (line : list Z) (offs : list Z) : option (list Z) :=
  match offs with
  | [] => Some line
  | i :: offs => line ← toggleBit line i; toggle_all line offs
  end.

Lemma toggle_all_app offs1 offs2 : forall line,
  toggle_all line (offs1 ++ offs2) = line ← toggle_all line offs1; toggle_all line offs2.
Proof.
  induction offs1 as [|i offs1 IH]; intros line; [done|]. cbn [app toggle_all].
  destruct (toggleBit line i) as [l|]; cbn [mbind option_bind]; [apply IH|done].
Qed.

Lemma toggle_bits_all offs rest : Forall is_offset offs -> Forall is_byte rest -> forall line,
  toggle_bits (length offs) line (concat (map writeUnsignedLeb128 offs) ++ rest) =
  line ← toggle_all line offs; Some (line, rest).
Proof.
  intros Ho Hr. induction Ho as [|i offs Hi Ho IH]; intros line; [done|].
  cbn [length toggle_bits map concat toggle_all]. rewrite <- app_assoc, leb_read; [|done|].
  - cbn [mbind option_bind]. destruct (toggleBit line i); [apply IH|done].
  - apply Forall_app. split; [|done]. clear IH Hi. induction Ho as [|j offs Hj _ IH]; [done|]. cbn [map concat].
    apply Forall_app. split; [by apply leb_is_byte|done].
Qed.

Definition flip (js : list Z) : Z := foldr (fun j a => Z.lxor (Z.shiftl 1 j) a) 0 js.

Lemma toggle_byte pre post k js : Z.of_nat (length pre) = k -> Forall (fun j => 0 <= j < 8) js -> forall x, is_byte x ->
  toggle_all (pre ++ x :: post) (map (fun i => Z.shiftl k 3 + i) js) = Some (pre ++ Z.lxor x (flip js) :: post).
Proof.
  intros Hk Hj. induction Hj as [|j js Hj Hjs IH]; intros x Hx; cbn [map toggle_all flip foldr].
  - by rewrite Z.lxor_0_r.
  - unfold toggleBit.
    assert (E3 : Z.shiftr (Z.shiftl k 3 + j) 3 = k).
    { rewrite Z.shiftl_mul_pow2, Z.shiftr_div_pow2 by lia. rewrite Z.div_add_l by lia. rewrite Z.div_small by lia. lia. }
    assert (E7 : Z.land (Z.shiftl k 3 + j) 0x07 = j).
    { rewrite (land_mask 3) by lia. rewrite Z.shiftl_mul_pow2 by lia. rewrite Z.add_comm, Z_mod_plus_full. apply Z.mod_small. lia. }
    assert (Hb : is_byte (Z.shiftl 1 j)).
    { assert (Hall : forall j, 0 <= j < 8 -> (0 <=? Z.shiftl 1 j) && (Z.shiftl 1 j <? 256) = true) by by apply below_all.
      specialize (Hall j Hj). unfold is_byte. lia. }
    pose proof (is_byte_lxor _ _ Hx Hb) as Hx'.
    rewrite E3, E7, aref_nat by lia. replace (Z.to_nat k) with (length pre) by lia.
    rewrite list_lookup_middle by done. cbn [mbind option_bind]. rewrite aset_in by (rewrite length_app; cbn [length]; lia).
    replace (Z.to_nat k) with (length pre + 0)%nat by lia. rewrite insert_app_r. cbn [mbind option_bind]. cbn [insert list_insert].
    rewrite wrapU_id by (try lia; exact Hx'). unfold flip in IH. rewrite IH by done. by rewrite Z.lxor_assoc.
Qed.

Lemma flip_all z : is_byte z -> flip (List.filter (Z.testbit z) (seqZ 0 8)) = z.
Proof.
  intros Hz. apply Z.eqb_eq. revert z Hz. apply (below_all 256 (fun z => flip (List.filter (Z.testbit z) (seqZ 0 8)) =? z)).
  vm_compute. reflexivity.
Qed.

(** The bits that changed, changed again: the other line. *)
Lemma toggle_changes b1 : forall k pre b2, Forall is_byte b1 -> Forall is_byte b2 -> length b2 = length b1 ->
  Z.of_nat (length pre) = k -> toggle_all (pre ++ b1) (changes k b1 b2) = Some (pre ++ b2).
Proof.
  induction b1 as [|x b1 IH]; intros k pre [|y b2] H1 H2 Hl Hk; try done.
  inversion H1 as [|? ? Hx Hb1]; inversion H2 as [|? ? Hy Hb2]; subst. cbn [changes].
  rewrite toggle_all_app. unfold byte_changes. rewrite toggle_byte; [|done| |done].
  - cbn [mbind option_bind]. rewrite flip_all by by apply is_byte_lxor.
    rewrite <- Z.lxor_assoc, Z.lxor_nilpotent, Z.lxor_0_l.
    specialize (IH (Z.of_nat (length pre) + 1) (pre ++ [y]) b2 Hb1 Hb2 ltac:(cbn in Hl; lia)).
    rewrite <- !app_assoc in IH. apply IH. rewrite length_app. cbn. lia.
  - apply Forall_forall. intros j [Hj _]%list_elem_of_In%filter_In. apply list_elem_of_In, elem_of_seqZ in Hj. lia.
Qed.

(** ** Entries *)

(** The three parts of a key. *)
Lemma key_fields k m : 0 <= k < 8 -> 0 <= m < 256 -> Z.land m 7 = 0 ->
  is_byte (u8 (Z.lor k m)) /\ Z.land (u8 (Z.lor k m)) 0x07 = k /\ Z.land (u8 (Z.lor k m)) 0x08 = Z.land m 8 /\
  Z.shiftr (u8 (Z.lor k m)) 4 = Z.shiftr m 4.
Proof.
  intros Hk Hm H0. split; [apply (wrapU_range 8); lia|].
  pose (f k m := negb (Z.land m 7 =? 0) || ((Z.land (u8 (Z.lor k m)) 0x07 =? k) &&
    (Z.land (u8 (Z.lor k m)) 0x08 =? Z.land m 8) && (Z.shiftr (u8 (Z.lor k m)) 4 =? Z.shiftr m 4))).
  assert (Hf : f k m = true).
  { revert m Hm H0. assert (Ha : forall k, 0 <= k < 8 -> forallb (f k) (seqZ 0 256) = true).
    { apply (below_all 8 (fun k => forallb (f k) (seqZ 0 256))). vm_compute. reflexivity. }
    intros m Hm H0. apply (below_all 256 (f k)); [by apply Ha|done]. }
  unfold f in Hf. rewrite H0 in Hf. cbn [Z.eqb negb orb] in Hf.
  apply andb_prop in Hf as [[H7%Z.eqb_eq H8%Z.eqb_eq]%andb_prop H4%Z.eqb_eq]. done.
Qed.

Lemma emit_fits cap out bytes : Z.of_nat (length out + length bytes) <= cap -> emit cap out bytes = Some (out ++ bytes).
Proof. intros H. unfold emit. by rewrite (proj2 (Z.leb_le _ _)). Qed.

Lemma bytes_at_app w b rest : length b = Z.to_nat w -> bytes_at w (b ++ rest) = Some b.
Proof.
  intros H. unfold bytes_at. rewrite length_app, (proj2 (Z.leb_le _ _)) by lia. by rewrite <- H, take_app_length.
Qed.

(** What the escape code adds, and how it is read. *)
Lemma diff_escape diff : 0 < diff < 2 ^ 16 ->
  let k := if diff <? 8 then u8 (diff - 1) else 0x07 in
  let code := if k =? 0x07 then writeUnsignedLeb128 diff else [] in
  0 <= k < 8 /\ (length code <= 3)%nat /\ Forall is_byte code /\
  forall rest, Forall is_byte rest ->
    (if k =? 7 then readUnsignedLeb128 (code ++ rest) else Some (k + 1, code ++ rest)) = Some (diff, rest).
Proof.
  intros Hd. destruct (Z.ltb_spec diff 8) as [Hs|Hs]; cbv zeta.
  - rewrite wrapU_id by (try lia; unfold inU; lia). assert (E7 : (diff - 1 =? 7) = false) by lia. rewrite E7.
    split; [lia|]. split; [cbn; lia|]. split; [done|]. intros rest Hr. cbn [app]. do 2 f_equal. lia.
  - cbn [Z.eqb Pos.eqb]. split; [lia|]. split; [apply (write_loop_short 2); lia|].
    split; [apply leb_is_byte; lia|]. intros rest Hr. apply leb_read; [lia|done].
Qed.

(** Between two lines: a kind of difference, what it adds to the key, and how both are
    read. *)
Section Coded.
Context (NDEBUG : bool) (w : Z) (b1 b2 p1 p2 : list Z).
Context (Hw : 0 <= w <= 255) (H1 : length b1 = Z.to_nat w) (H2 : length b2 = Z.to_nat w).
Context (B1 : Forall is_byte b1) (B2 : Forall is_byte b2).

Definition coded (m : Z) : Prop :=
  0 <= m < 256 /\ Z.land m 7 = 0 /\
  exists code, (length code <= Z.to_nat w)%nat /\ Forall is_byte code /\
    (forall cap out, Z.of_nat (length out) + w <= cap ->
      emit_bits NDEBUG cap w m (b1 ++ p1) (b2 ++ p2) out = Some (out ++ code)) /\
    (forall rest, Forall is_byte rest -> expand_bits w m b1 (code ++ rest) = Some (b2, rest)).

Lemma toggle_lines : toggle_all b1 (changes 0 b1 b2) = Some b2.
Proof using H1 H2 B1 B2. apply (toggle_changes b1 0 []); [done|done|lia|done]. Qed.

Lemma line_offsets : Forall is_offset (changes 0 b1 b2).
Proof using H1 H2 Hw. apply changes_offsets; lia. Qed.

Lemma coded_none : changes 0 b1 b2 = [] -> coded 0x08.
Proof using H1 H2 B1 B2.
  intros E. pose proof toggle_lines as Ht. rewrite E in Ht. injection Ht as Ht.
  split; [lia|]. split; [done|]. exists []. split; [cbn; lia|]. split; [done|].
  unfold emit_bits, expand_bits. change (Z.land 0x08 0x08) with 8. change (Z.shiftr 0x08 4) with 0.
  split; intros; [by rewrite app_nil_r|by rewrite <- Ht].
Qed.

Lemma coded_one i : changes 0 b1 b2 = [i] -> i < 16 -> coded (Z.shiftl i 4).
Proof using H1 H2 B1 B2 Hw.
  intros E Hi. pose proof toggle_lines as Ht. pose proof line_offsets as Ho. rewrite E in Ht, Ho.
  inversion Ho as [|? ? Hi0]; subst. unfold is_offset in Hi0.
  pose (f i := let m := Z.shiftl i 4 in (0 <=? m) && (m <? 256) && (Z.land m 7 =? 0) && (Z.land m 8 =? 0) && (Z.shiftr m 4 =? i)).
  assert (Ha : f i = true) by (apply (below_all 16 f); [vm_compute; reflexivity|lia]).
  unfold f in Ha. cbv zeta in Ha. rewrite !andb_true_iff, !Z.eqb_eq in Ha. destruct Ha as [[[[? ?] H7] H8] H4].
  split; [lia|]. split; [done|]. exists []. split; [cbn; lia|]. split; [done|]. unfold emit_bits, expand_bits.
  rewrite H8, H4. cbn [Z.eqb negb]. split; [intros; by rewrite app_nil_r|]. intros rest Hr.
  cbn [toggle_all] in Ht. destruct (toggleBit b1 i) as [l'|]; [|done]. injection Ht as ->. done.
Qed.

Lemma coded_some l : changes 0 b1 b2 = l -> (0 < length l < 15)%nat ->
  Z.of_nat (length (concat (map writeUnsignedLeb128 l))) < w -> coded (Z.lor 0x08 (Z.shiftl (Z.of_nat (length l)) 4)).
Proof using H1 H2 B1 B2 Hw.
  intros E Hl Hs. pose proof toggle_lines as Ht. pose proof line_offsets as Ho. rewrite E in Ht, Ho.
  pose (f n := let m := Z.lor 0x08 (Z.shiftl n 4) in
    (0 <=? m) && (m <? 256) && (Z.land m 7 =? 0) && (Z.land m 8 =? 8) && (Z.shiftr m 4 =? n)).
  assert (Ha : f (Z.of_nat (length l)) = true) by (apply (below_all 16 f); [vm_compute; reflexivity|lia]).
  unfold f in Ha. cbv zeta in Ha. rewrite !andb_true_iff, !Z.eqb_eq in Ha. destruct Ha as [[[[? ?] H7] H8] H4].
  split; [lia|]. split; [done|]. exists (concat (map writeUnsignedLeb128 l)). split; [lia|]. split.
  { clear -Ho. induction Ho as [|i l Hi _ IH]; cbn [map concat]; [done|]. apply Forall_app. split; [by apply leb_is_byte|done]. }
  assert (E0 : (Z.of_nat (length l) =? 0) = false) by lia. assert (E15 : (Z.of_nat (length l) =? 15) = false) by lia.
  unfold emit_bits, expand_bits. rewrite H8, H4, E0, E15. cbn [Z.eqb negb]. split.
  - intros cap out Hc. rewrite computeBitDiff_of by done. rewrite E. cbn [mbind option_bind lebOut diff_of]. apply emit_fits. lia.
  - intros rest Hr. rewrite Nat2Z.id, toggle_bits_all by done. by rewrite Ht.
Qed.

Lemma coded_all : coded (Z.lor 0x08 0xf0).
Proof using H1 H2 B2 Hw.
  split; [by split|]. split; [done|]. exists b2. split; [lia|]. split; [done|]. split.
  - intros cap out Hc. unfold emit_bits. change (Z.land (Z.lor 0x08 0xf0) 0x08) with 8. change (Z.shiftr (Z.lor 0x08 0xf0) 4) with 15.
    cbn [Z.eqb Pos.eqb negb]. rewrite bytes_at_app by done. cbn [mbind option_bind]. apply emit_fits. lia.
  - intros rest Hr. unfold expand_bits. change (Z.land (Z.lor 0x08 0xf0) 0x08) with 8. change (Z.shiftr (Z.lor 0x08 0xf0) 4) with 15.
    cbn [Z.eqb Pos.eqb negb]. rewrite bytes_at_app by done. cbn [mbind option_bind]. by rewrite <- H2, drop_app_length.
Qed.

Lemma diff_key_coded : coded (diff_key (diff_of false (changes 0 b1 b2)) w).
Proof using H1 H2 B1 B2 Hw.
  unfold diff_key, diff_of. cbn [numBitsChanged firstBitChanged lebSize].
  destruct (changes 0 b1 b2) as [|i l] eqn:E; [by apply coded_none|]. rewrite (proj2 (Z.eqb_neq _ 0)) by done.
  destruct (_ && (hd _ _ <? 16)) eqn:E1.
  { apply andb_prop in E1 as [E1%Z.eqb_eq Hf%Z.ltb_lt]. destruct l; [|cbn in E1; lia]. by apply coded_one. }
  clear E1. destruct (_ && _) eqn:E2; [|apply coded_all].
  apply andb_prop in E2 as [Hl%Z.ltb_lt Hs%Z.ltb_lt]. apply coded_some; [done|cbn [length] in *; lia|done].
Qed.

End Coded.

(** An entry and the address and line it follows: both sides of the format. *)
Lemma entry_code NDEBUG w diff b1 b2 p1 p2 : 0 <= w <= 255 -> 0 < diff < 2 ^ 16 ->
  length b1 = Z.to_nat w -> length b2 = Z.to_nat w -> Forall is_byte b1 -> Forall is_byte b2 ->
  exists code, (length code <= 4 + Z.to_nat w)%nat /\ Forall is_byte code /\
    (forall cap out, Z.of_nat (length out) + (4 + w) <= cap ->
      compress_entry NDEBUG cap w diff (b1 ++ p1) (b2 ++ p2) out = Some (out ++ code)) /\
    (forall rest, Forall is_byte rest -> exists key tail tail',
      code ++ rest = key :: tail /\ read_diff key tail = Some (diff, tail') /\
      expand_bits w key b1 tail' = Some (b2, rest)).
Proof.
  intros Hw Hd H1 H2 B1 B2. destruct (diff_escape diff Hd) as (Hk & Hl & He & Hread).
  destruct (diff_key_coded NDEBUG w b1 b2 p1 p2 Hw H1 H2 B1 B2) as (Hm & H7 & bits & Hbl & Hb & Hput & Hget).
  remember (if diff <? 8 then u8 (diff - 1) else 0x07) as k.
  remember (diff_key (diff_of false (changes 0 b1 b2)) w) as m.
  destruct (key_fields k m Hk Hm H7) as (Kb & K7 & K8 & K4). remember (u8 (Z.lor k m)) as key.
  remember (if k =? 7 then writeUnsignedLeb128 diff else []) as esc.
  exists (key :: esc ++ bits). split; [cbn [length]; rewrite length_app; lia|].
  split; [constructor; [done|by apply Forall_app]|]. split.
  - intros cap out Hc. unfold compress_entry, asserted. rewrite (proj2 (Z.gtb_lt _ _)) by lia. rewrite orb_true_r.
    rewrite computeBitDiff_of by done. cbv zeta. cbn [mbind option_bind]. rewrite <- Heqk, <- Heqm, <- Heqkey, K7.
    rewrite emit_fits by (cbn [length]; lia). cbn [mbind option_bind].
    rewrite (wrapU_id 32 diff) by (try lia; unfold inU; lia).
    assert (E : (if k =? 7 then emit cap (out ++ [key]) (writeUnsignedLeb128 diff) else Some (out ++ [key])) = Some ((out ++ [key]) ++ esc)).
    { subst esc. destruct (k =? 7); [|by rewrite app_nil_r]. apply emit_fits. rewrite length_app. cbn [length]. lia. }
    rewrite E. cbn [mbind option_bind]. unfold emit_bits in *. rewrite K8, K4, Hput.
    + by rewrite <- !app_assoc.
    + rewrite !length_app. cbn [length]. lia.
  - intros rest Hr. exists key, (esc ++ bits ++ rest), (bits ++ rest). split; [by cbn [app]; rewrite <- app_assoc|]. split.
    + unfold read_diff. rewrite K7. apply Hread. by apply Forall_app.
    + unfold expand_bits in *. rewrite K8, K4. by apply Hget.
Qed.

(** ** Lines *)

(** Addresses with the bits of their lines, as an expanded map holds them. *)
Definition lines (aw : Z) (es : list (Z * list Z)) : list Z := concat (map (fun e => new_addr aw e.1 ++ e.2) es).

Definition entry_ok (aw w : Z) (e : Z * list Z) : Prop :=
  0 <= e.1 < 2 ^ (8 * aw) /\ length e.2 = Z.to_nat w /\ Forall is_byte e.2.

Lemma line_addr_new aw a rest : aw = 1 \/ aw = 2 -> 0 <= a < 2 ^ (8 * aw) ->
  line_addr aw (new_addr aw a ++ rest) = Some a /\ drop (Z.to_nat aw) (new_addr aw a ++ rest) = rest /\
  length (new_addr aw a) = Z.to_nat aw /\ Forall is_byte (new_addr aw a).
Proof.
  intros [-> | ->] Ha; unfold line_addr, new_addr; cbn [Z.gtb Z.compare Pos.compare Pos.compare_cont app aref]; rewrite land_ff.
  - change (8 * 1) with 8 in Ha. rewrite Z.mod_small by lia. repeat split. by constructor.
  - unfold aref. cbn [Z.leb Z.compare Z.to_nat Pos.to_nat Pos.iter_op lookup list_lookup Nat.add mbind option_bind].
    rewrite Z.shiftr_div_pow2 by lia. change (2 ^ (8 * 2)) with 65536 in Ha. assert (Hq : 0 <= a / 2 ^ 8 < 2 ^ 8) by (split; [apply Z.div_pos|apply Z.div_lt_upper_bound]; lia).
    rewrite wrapU_id by (try lia; unfold inU; lia). pose proof (Z.mod_pos_bound a (2 ^ 8) ltac:(lia)).
    split; [|repeat split; repeat constructor; unfold is_byte; lia]. change (Some (Z.lor (a `mod` 2 ^ 8) (Z.shiftl (a `div` 2 ^ 8) 8)) = Some a). rewrite lor_shiftl_add by lia. f_equal. pose proof (Z_div_mod_eq_full a (2 ^ 8)). lia.
Qed.

Lemma compress_expand NDEBUG aw w orig cap : aw = 1 \/ aw = 2 -> 0 <= w <= 255 -> orig + (4 + w) <= cap ->
  forall es pa pb p1 out, 0 <= pa < 2 ^ (8 * aw) -> length pb = Z.to_nat w -> Forall is_byte pb ->
  StronglySorted Z.lt (pa :: es.*1) -> Forall (entry_ok aw w) es -> Z.of_nat (length out) < orig ->
  exists r, compress_loop NDEBUG (length es) orig cap aw w (lines aw es) (pb ++ p1) pa out = Some r /\
    forall out', r = Some out' -> Z.of_nat (length out') < orig /\
      exists code, out' = out ++ code /\ Forall is_byte code /\
      forall rest cap' dst, Forall is_byte rest -> Z.of_nat (length dst) + (aw + w) * Z.of_nat (length es) <= cap' ->
        expand_loop (length es) cap' aw w (code ++ rest) pb pa dst = Some (dst ++ lines aw es, rest).
Proof.
  intros Haw Hw Hcap. induction es as [|[a b] es IH]; intros pa pb p1 out Hpa Hpl Hpb Hs Hes Ho.
  { exists (Some out). split; [done|]. intros out' [= <-]. split; [done|]. exists []. split; [by rewrite app_nil_r|].
    split; [done|]. intros. cbn. by rewrite app_nil_r. }
  inversion Hes as [|? ? (Ha & Hl & Hb) Hes']; subst. cbn [fst snd] in Ha, Hl, Hb.
  cbn [fmap list_fmap fst] in Hs. apply StronglySorted_inv in Hs as [Hs Hlt]. inversion Hlt as [|? ? Hpa_lt _]; subst.
  assert (Hle : 2 ^ (8 * aw) <= 2 ^ 16) by (destruct Haw as [-> | ->]; lia).
  destruct (line_addr_new aw a (b ++ lines aw es) Haw Ha) as (Eaddr & Edrop & Elen & Ebytes).
  destruct (entry_code NDEBUG w (a - pa) pb b p1 (lines aw es) Hw ltac:(lia) Hpl Hl Hpb Hb) as (c & Hcl & Hc & Hput & Hget).
  change (lines aw ((a, b) :: es)) with ((new_addr aw a ++ b) ++ lines aw es). rewrite <- app_assoc.
  cbn [length compress_loop]. rewrite Eaddr. cbn [mbind option_bind]. rewrite Edrop, Hput by lia. cbn [mbind option_bind].
  destruct (Z.geb_spec (Z.of_nat (length (out ++ c))) orig) as [Hge|Hlt'].
  { exists None. split; [done|]. intros ? [=]. }
  rewrite <- Hl, drop_app_length.
  destruct (IH a b (lines aw es) (out ++ c) Ha Hl Hb Hs Hes' ltac:(lia)) as (r & Er & Hr).
  exists r. split; [done|]. intros out' Eo. destruct (Hr out' Eo) as (Hlen & code & -> & Hcode & Hexp).
  split; [done|]. exists (c ++ code). split; [by rewrite app_assoc|]. split; [by apply Forall_app|].
  intros rest cap' dst Hrest Hdst. destruct (Hget (code ++ rest)) as (key & tail & tail' & Ek & Ed & Eb); [by apply Forall_app|].
  cbn [expand_loop]. rewrite <- app_assoc, Ek. cbn [next mbind option_bind]. rewrite Ed. cbn [mbind option_bind].
  replace (pa + (a - pa)) with a by lia. rewrite emit_fits by lia. cbn [mbind option_bind]. rewrite Eb. cbn [mbind option_bind].
  rewrite emit_fits by (rewrite length_app; lia). cbn [mbind option_bind].
  rewrite Hexp; [by rewrite <- !app_assoc|done|]. rewrite !length_app. lia.
Qed.

(** ** Whole maps *)

Definition compact_format (aw : Z) : Z := if aw =? 1 then kRegMapFormatCompact8 else kRegMapFormatCompact16.

(** The expanded map of some lines. *)
Definition compact_map (aw w : Z) (es : list (Z * list Z)) : RegisterMap :=
  new_map 0 (compact_format aw) w (Z.of_nat (length es)) (lines aw es).

Lemma new_map_junk junk f w n bytes : new_map junk f w n bytes = new_map 0 f w n bytes.
Proof.
  unfold new_map, dvmRegisterMapSetNumEntries, dvmRegisterMapSetRegWidth, dvmRegisterMapSetOnHeap, dvmRegisterMapSetFormat.
  cbn [format regWidth numEntries0 numEntries1 data]. f_equal. apply Z.bits_inj'. intros i Hi.
  rewrite !Z.lor_spec, !Z.land_spec, Z.bits_0. by destruct (Z.testbit junk i), (Z.testbit kRegMapFormatOnHeap i), (Z.testbit f i).
Qed.

Lemma new_map_fields junk f w n bytes : 0 <= f < 8 -> 0 <= w <= 255 -> 0 <= n < 65536 ->
  let pMap := new_map junk f w n bytes in
  dvmRegisterMapGetFormat pMap = f /\ dvmRegisterMapGetRegWidth pMap = w /\ regWidth pMap = w /\
  dvmRegisterMapGetNumEntries pMap = n /\ data pMap = bytes.
Proof.
  intros Hf Hw Hn. rewrite new_map_junk. cbv zeta. split.
  { apply Z.eqb_eq. revert f Hf.
    apply (below_all 8 (fun f => dvmRegisterMapGetFormat (new_map 0 f w n bytes) =? f)). vm_compute. reflexivity. }
  assert (Ew : u8 w = w) by (apply wrapU_id; try lia; unfold inU; lia). split; [done|]. split; [done|]. split; [|done].
  change (Z.lor (u8 n) (Z.shiftl (u8 (Z.shiftr n 8)) 8) = n). unfold wrapU. rewrite Z.shiftr_div_pow2 by lia.
  pose proof (Z.mod_pos_bound n (2 ^ 8) ltac:(lia)). rewrite lor_shiftl_add by lia.
  rewrite (Z.mod_small (n / 2 ^ 8)) by (split; [apply Z.div_pos|apply Z.div_lt_upper_bound]; lia).
  pose proof (Z_div_mod_eq_full n (2 ^ 8)). lia.
Qed.

Lemma lines_length aw w es : aw = 1 \/ aw = 2 -> 0 <= w -> Forall (entry_ok aw w) es ->
  Z.of_nat (length (lines aw es)) = (aw + w) * Z.of_nat (length es).
Proof.
  intros Haw Hw. induction 1 as [|[a b] es (Ha & Hl & _) _ IH]; [cbn; lia|]. cbn [fst snd] in Ha, Hl.
  change (lines aw ((a, b) :: es)) with ((new_addr aw a ++ b) ++ lines aw es).
  destruct (line_addr_new aw a [] Haw Ha) as (_ & _ & E & _). rewrite !length_app, !Nat2Z.inj_add, IH, E. cbn [length]. lia.
Qed.

Lemma compact_size aw w es : aw = 1 \/ aw = 2 -> 0 <= w <= 255 -> Z.of_nat (length es) < 65536 ->
  computeRegisterMapSize (compact_map aw w es) = Some (4 + (aw + w) * Z.of_nat (length es)).
Proof.
  intros Haw Hw Hn. unfold computeRegisterMapSize, compact_map.
  destruct (new_map_fields 0 (compact_format aw) w (Z.of_nat (length es)) (lines aw es)) as (-> & _ & -> & -> & _);
    [unfold compact_format; destruct (_ =? _); done|done|lia|].
  by destruct Haw as [-> | ->].
Qed.

(** The first byte: an address below 128 and the width of the addresses. *)
Lemma first_byte a aw : 0 <= a < 128 -> aw = 1 \/ aw = 2 ->
  let b := Z.lor a (if aw >? 1 then 0x80 else 0x00) in
  is_byte b /\ Z.land b 0x7f = a /\ (Z.land b 0x80 =? 0) = (aw =? 1).
Proof.
  intros Ha Haw.
  pose (f b := let c := Z.lor a b in (0 <=? c) && (c <? 256) && (Z.land c 0x7f =? a) && Bool.eqb (Z.land c 0x80 =? 0) (b =? 0)).
  assert (Hf : f 0 = true /\ f 0x80 = true).
  { subst f. split; cbv beta; revert a Ha; apply below_all; vm_compute; reflexivity. }
  destruct Hf as [H0 H1]. unfold f in H0, H1. cbv zeta in H0, H1. rewrite !andb_true_iff, Z.eqb_eq in H0, H1.
  unfold is_byte. destruct Haw as [-> | ->]; cbn [Z.gtb Z.compare Pos.compare Pos.compare_cont]; cbv zeta.
  - destruct H0 as [[[? ?] ?] ?%eqb_prop]. split; [lia|done].
  - destruct H1 as [[[? ?] ?] ?%eqb_prop]. split; [lia|done].
Qed.

(** What is built from the bytes of a temporary buffer is expanded again. *)
Lemma uncompress_built aw w a b es code junk junk' : aw = 1 \/ aw = 2 -> 0 <= w <= 255 ->
  0 <= a < 128 -> entry_ok aw w (a, b) -> Forall (entry_ok aw w) es -> Z.of_nat (length ((a, b) :: es)) < 65536 ->
  Forall is_byte code -> Z.of_nat (length code) < 2 ^ 30 ->
  (forall cap' dst, Z.of_nat (length dst) + (aw + w) * Z.of_nat (length es) <= cap' ->
    expand_loop (length es) cap' aw w code b a dst = Some (dst ++ lines aw es, [])) ->
  let out := (Z.lor a (if aw >? 1 then 0x80 else 0x00) :: b) ++ code in
  uncompressMapDifferential junk' (new_map junk kRegMapFormatDifferential w (Z.of_nat (length ((a, b) :: es)))
    (writeUnsignedLeb128 (Z.of_nat (length out)) ++ out)) = Some (Some (compact_map aw w ((a, b) :: es))).
Proof.
  intros Haw Hw Ha (Ha2 & Hl & Hb) Hes Hn Hcode Hlen Hexp out. cbn [fst snd] in Ha2, Hl, Hb.
  destruct (first_byte a aw Ha Haw) as (Fb & F7 & F8). unfold uncompressMapDifferential.
  destruct (new_map_fields junk kRegMapFormatDifferential w (Z.of_nat (length ((a, b) :: es)))
    (writeUnsignedLeb128 (Z.of_nat (length out)) ++ out)) as (-> & -> & _ & -> & ->); [done|done|lia|].
  assert (Hout : Forall is_byte out) by (apply Forall_app; split; [by constructor|done]).
  cbn [Z.eqb Pos.eqb kRegMapFormatDifferential negb]. rewrite leb_read; [|subst out; rewrite length_app; cbn [length]; lia|done].
  cbn [mbind option_bind]. subst out. cbn [app next mbind option_bind]. rewrite F7, F8.
  assert (E : (if aw =? 1 then (kRegMapFormatCompact8, 1) else (kRegMapFormatCompact16, 2)) = (compact_format aw, aw)) by
    by destruct Haw as [-> | ->].
  rewrite E. cbv beta iota. destruct (line_addr_new aw a [] Haw Ha2) as (_ & _ & Elen & _).
  pose proof (lines_length aw w es Haw ltac:(lia) Hes) as Hll.
  rewrite emit_fits by (cbn [length] in *; lia). cbn [mbind option_bind app]. rewrite bytes_at_app by done. cbn [mbind option_bind].
  rewrite emit_fits by (cbn [length] in *; lia). cbn [mbind option_bind].
  replace (Z.to_nat (Z.of_nat (length ((a, b) :: es)) - 1)) with (length es) by (cbn [length]; lia).
  rewrite <- Hl at 1. rewrite drop_app_length. rewrite Hexp by (rewrite length_app; cbn [length] in *; lia). cbn [mbind option_bind].
  assert (E1 : (kHeaderSize + Z.of_nat (length ((new_addr aw a ++ b) ++ lines aw es)) =?
    kHeaderSize + (aw + w) * Z.of_nat (length ((a, b) :: es))) = true).
  { apply Z.eqb_eq. rewrite !length_app, Elen. cbn [length]. lia. }
  rewrite E1. cbn [negb]. rewrite Nat.sub_0_r, Z.eqb_refl. cbn [negb]. by rewrite new_map_junk.
Qed.

Lemma compact_fields aw w es : 0 <= w <= 255 -> Z.of_nat (length es) < 65536 ->
  let pMap := compact_map aw w es in
  dvmRegisterMapGetFormat pMap = compact_format aw /\ dvmRegisterMapGetRegWidth pMap = w /\ regWidth pMap = w /\
  dvmRegisterMapGetNumEntries pMap = Z.of_nat (length es) /\ data pMap = lines aw es.
Proof. intros Hw Hn. apply new_map_fields; [unfold compact_format; by destruct (_ =? _)|done|lia]. Qed.

Lemma built_size junk w n out : 0 <= w <= 255 -> 0 <= n < 65536 -> Forall is_byte out -> Z.of_nat (length out) < 2 ^ 30 ->
  computeRegisterMapSize (new_map junk kRegMapFormatDifferential w n (writeUnsignedLeb128 (Z.of_nat (length out)) ++ out)) =
  Some (kHeaderSize + unsignedLeb128Size (Z.of_nat (length out)) + Z.of_nat (length out)).
Proof.
  intros Hw Hn Hb Hl. unfold computeRegisterMapSize.
  destruct (new_map_fields junk kRegMapFormatDifferential w n (writeUnsignedLeb128 (Z.of_nat (length out)) ++ out))
    as (-> & _ & _ & _ & ->); [done|done|done|].
  cbn [Z.eqb Pos.eqb kRegMapFormatDifferential kRegMapFormatNone kRegMapFormatCompact8 kRegMapFormatCompact16].
  rewrite leb_read by (lia || done). cbn [mbind option_bind]. rewrite leb_size by lia. f_equal. rewrite length_app. lia.
Qed.

(** The compressor on a map it tries. *)
Lemma compress_built NDEBUG junk aw w a b es : aw = 1 \/ aw = 2 -> 0 <= w <= 255 -> 0 <= a < 128 ->
  Forall (entry_ok aw w) ((a, b) :: es) -> StronglySorted Z.lt (a :: es.*1) ->
  1 < Z.of_nat (length ((a, b) :: es)) < 65536 ->
  let pMap := compact_map aw w ((a, b) :: es) in
  let orig := 4 + (aw + w) * Z.of_nat (length ((a, b) :: es)) in
  exists r, compressMapDifferential NDEBUG junk pMap = Some r /\ forall pNewMap, r = Some pNewMap ->
    exists code, let out := (Z.lor a (if aw >? 1 then 0x80 else 0x00) :: b) ++ code in
      pNewMap = new_map junk kRegMapFormatDifferential w (Z.of_nat (length ((a, b) :: es)))
        (writeUnsignedLeb128 (Z.of_nat (length out)) ++ out) /\
      kHeaderSize + unsignedLeb128Size (Z.of_nat (length out)) + Z.of_nat (length out) < orig /\
      Z.of_nat (length out) < 2 ^ 30 /\ Forall is_byte code /\
      forall cap' dst, Z.of_nat (length dst) + (aw + w) * Z.of_nat (length es) <= cap' ->
        expand_loop (length es) cap' aw w code b a dst = Some (dst ++ lines aw es, []).
Proof.
  intros Haw Hw Ha8 Hes Hs Hn pMap orig. unfold compressMapDifferential, pMap. rewrite compact_size by (done || lia).
  destruct (compact_fields aw w ((a, b) :: es) Hw (proj2 Hn)) as (-> & -> & _ & -> & ->). cbn [mbind option_bind].
  assert (Ef : (compact_format aw =? kRegMapFormatCompact8) || (compact_format aw =? kRegMapFormatCompact16) = true /\
    (if compact_format aw =? kRegMapFormatCompact8 then 1 else 2) = aw) by by destruct Haw as [-> | ->].
  destruct Ef as [-> ->]. cbn [negb]. cbv zeta. fold orig. rewrite (proj2 (Z.leb_gt _ 1)) by lia.
  inversion Hes as [|? ? (Ha & Hl & Hb) Hes']; subst. cbn [fst snd] in Ha, Hl, Hb.
  destruct (line_addr_new aw a (b ++ lines aw es) Haw Ha) as (Eaddr & Edrop & _ & _).
  change (lines aw ((a, b) :: es)) with ((new_addr aw a ++ b) ++ lines aw es). rewrite <- app_assoc, Eaddr.
  cbn [mbind option_bind]. rewrite Edrop. destruct (Z.geb_spec a 128); [lia|].
  assert (Horig : 1 + w < orig) by (subst orig; destruct Haw as [-> | ->]; nia).
  rewrite emit_fits by (cbn [length]; lia). cbn [mbind option_bind]. rewrite bytes_at_app by done. cbn [mbind option_bind].
  rewrite emit_fits by (cbn [length app] in *; lia). cbn [mbind option_bind app].
  replace (Z.to_nat (Z.of_nat (length ((a, b) :: es)) - 1)) with (length es) by (cbn [length]; lia).
  assert (Edb : drop (Z.to_nat w) (b ++ lines aw es) = lines aw es) by (rewrite <- Hl; apply drop_app_length). rewrite Edb.
  destruct (compress_expand NDEBUG aw w orig (orig + (1 + 3 + w)) Haw Hw ltac:(lia) es a b (lines aw es)
    (Z.lor a (if aw >? 1 then 0x80 else 0x00) :: b) Ha Hl Hb Hs Hes' ltac:(cbn [length]; lia)) as (r & -> & Hr).
  cbn [mbind option_bind]. destruct r as [out|]; [|by exists None].
  destruct (Hr out eq_refl) as (Hlen & code & Eout & Hcode & Hexp). cbv zeta.
  assert (Hbig : orig < 2 ^ 30) by (subst orig; destruct Haw as [-> | ->]; nia).
  destruct (Z.geb_spec (kHeaderSize + unsignedLeb128Size (Z.of_nat (length out)) + Z.of_nat (length out)) orig) as [?|Hsmall]; [by exists None|].
  rewrite leb_size in * by lia. rewrite emit_fits by lia. cbn [mbind option_bind].
  eexists. split; [reflexivity|]. intros pNewMap [= <-]. exists code. cbn [app] in Eout. rewrite <- Eout, leb_size by lia.
  split; [done|]. split; [exact Hsmall|]. split; [lia|]. split; [done|].
  intros cap' dst Hc. specialize (Hexp [] cap' dst). rewrite app_nil_r in Hexp. by apply Hexp.
Qed.

(** The maps it does not try: fewer than two lines, a first address of 128 or more. *)
Lemma compress_tried NDEBUG junk aw w es : aw = 1 \/ aw = 2 -> 0 <= w <= 255 -> Forall (entry_ok aw w) es ->
  Z.of_nat (length es) < 65536 ->
  compressMapDifferential NDEBUG junk (compact_map aw w es) = Some None \/
  exists a b es', es = (a, b) :: es' /\ 0 <= a < 128 /\ 1 < Z.of_nat (length es).
Proof.
  intros Haw Hw Hes Hn. unfold compressMapDifferential. rewrite compact_size by (done || lia).
  destruct (compact_fields aw w es Hw Hn) as (-> & -> & _ & -> & ->). cbn [mbind option_bind].
  assert (Ef : (compact_format aw =? kRegMapFormatCompact8) || (compact_format aw =? kRegMapFormatCompact16) = true /\
    (if compact_format aw =? kRegMapFormatCompact8 then 1 else 2) = aw) by by destruct Haw as [-> | ->].
  destruct Ef as [-> ->]. cbn [negb]. cbv zeta.
  destruct (Z.leb_spec (Z.of_nat (length es)) 1) as [?|Hl]; [by left|]. destruct es as [|[a b] es]; [cbn in Hl; lia|].
  inversion Hes as [|? ? (Ha & _ & _) _]; subst. cbn [fst] in Ha.
  destruct (line_addr_new aw a (b ++ lines aw es) Haw Ha) as (Eaddr & _ & _ & _).
  change (lines aw ((a, b) :: es)) with ((new_addr aw a ++ b) ++ lines aw es). rewrite <- app_assoc, Eaddr.
  cbn [mbind option_bind]. destruct (Z.geb_spec a 128); [by left|]. right. exists a, b, es. split; [done|]. split; [lia|done].
Qed.

Lemma compress_lossless NDEBUG aw w es junk junk' : aw = 1 \/ aw = 2 -> 0 <= w <= 255 ->
  Forall (entry_ok aw w) es -> StronglySorted Z.lt es.*1 -> Z.of_nat (length es) < 65536 ->
  exists r, compressMapDifferential NDEBUG junk (compact_map aw w es) = Some r /\
    forall pNewMap, r = Some pNewMap -> dvmRegisterMapGetFormat pNewMap = kRegMapFormatDifferential /\
      (exists size newSize, computeRegisterMapSize (compact_map aw w es) = Some size /\
        computeRegisterMapSize pNewMap = Some newSize /\ newSize < size) /\
      uncompressMapDifferential junk' pNewMap = Some (Some (compact_map aw w es)).
Proof.
  intros Haw Hw Hes Hs Hn. destruct (compress_tried NDEBUG junk aw w es Haw Hw Hes Hn) as [E|(a & b & es' & -> & Ha & Hl)].
  { exists None. split; [exact E|]. intros ? [=]. }
  destruct (compress_built NDEBUG junk aw w a b es' Haw Hw Ha Hes Hs (conj Hl Hn)) as (r & E & Hr).
  exists r. split; [exact E|]. intros pNewMap Ep. destruct (Hr pNewMap Ep) as (code & -> & Hsmall & Hbig & Hcode & Hexp).
  inversion Hes as [|? ? Hab Hes']; subst. pose proof (first_byte a aw Ha Haw) as (Fb & _ & _). split.
  { apply new_map_fields; [done|done|lia]. }
  split.
  - exists (4 + (aw + w) * Z.of_nat (length ((a, b) :: es'))). eexists. split; [by apply compact_size|].
    split; [apply built_size; try done; try lia|exact Hsmall].
    apply Forall_app. split; [|done]. constructor; [done|]. apply Hab.
  - apply uncompress_built; try done. rewrite length_app in Hbig. lia.
Qed.

(** ** Properties *)

(** C15. Compression loses nothing. For every expanded map of up to 65535 lines with
    ascending addresses the compressor stays within its buffer, and either finds that
    nothing is gained or builds a map that is strictly smaller, and that the expander
    turns back into the same map, byte for byte. *)
Theorem compress_roundtrip NDEBUG aw w es junk junk' : aw = 1 \/ aw = 2 -> 0 <= w <= 255 ->
  Forall (entry_ok aw w) es -> StronglySorted Z.lt es.*1 -> Z.of_nat (length es) < 65536 ->
  exists r, compressMapDifferential NDEBUG junk (compact_map aw w es) = Some r /\
    forall pNewMap, r = Some pNewMap ->
      (exists size newSize, computeRegisterMapSize (compact_map aw w es) = Some size /\
        computeRegisterMapSize pNewMap = Some newSize /\ newSize < size) /\
      uncompressMapDifferential junk' pNewMap = Some (Some (compact_map aw w es)).
Proof.
  intros Haw Hw Hes Hs Hn. destruct (compress_lossless NDEBUG aw w es junk junk' Haw Hw Hes Hs Hn) as (r & E & Hr).
  exists r. split; [exact E|]. intros pNewMap Ep. apply (Hr pNewMap Ep).
Qed.

Definition ex_entries : list (Z * list Z) :=
  [(3, [0x11; 0; 0; 0]); (5, [0x11; 0; 0; 0]); (20, [0x15; 0; 0; 0]); (27, [0x15; 0x81; 0; 0x10]); (300, [0x15; 0x83; 0; 0x14])].

Lemma compress_roundtrip_witness : exists r, compressMapDifferential false 0xa5 (compact_map 2 4 ex_entries) = Some r /\
  forall pNewMap, r = Some pNewMap ->
    (exists size newSize, computeRegisterMapSize (compact_map 2 4 ex_entries) = Some size /\
      computeRegisterMapSize pNewMap = Some newSize /\ newSize < size) /\
    uncompressMapDifferential 0x5a pNewMap = Some (Some (compact_map 2 4 ex_entries)).
Proof.
  apply (compress_roundtrip false 2 4 ex_entries 0xa5 0x5a); [by right|lia| |repeat constructor; lia|cbn; lia].
  unfold ex_entries. repeat (constructor; [split; [cbn; lia|split; [done|repeat constructor; unfold is_byte; lia]]|]). constructor.
Defined.

(** The map of the witness is compressed. *)
Lemma ex_entries_compressed :
  option_map (option_map data) (compressMapDifferential false 0xa5 (compact_map 2 4 ex_entries)) =
  Some (Some [17; 0x83; 0x11; 0; 0; 0; 0x09; 0x27; 15; 0x3e; 8; 15; 28; 0x2f; 0x91; 0x02; 9; 26]).
Proof. vm_compute. reflexivity. Qed.
