(* ===== verification/RegisterMapLines.v ===== *)
(** * The lines of a register map: what the collector is told

    [dvmGenerateRegisterMapV] builds a map from the table of the code-flow pass, and
    [dvmRegisterMapGetLine] finds, for the address of a point at which the collector may
    run, the bits that say which registers hold references: the two meet. *)

From stdpp Require Import gmap sorting.
From S2P Require Import Prelude Bits Search DexFile DexVerify TypeCheck RegTypes RegMerge RegLine CodeFlow RegisterMap.

(** ** Vectors of types *)

(** The bit of a register in the bytes of a line. *)
Definition line_bit (bits : list Z) (r : nat) : bool := Z.testbit (nth (r / 8) bits 0) (Z.of_nat (r mod 8)).

(** What the test of the code says of a register; [reference_types] below says what that
    means. *)
Definition is_ref (regs : list Z) (r : nat) : bool := match regs !! r with Some t => isReferenceType t | None => false end.

(** [i] registers are done: the bytes that are complete, and in [val] the last eight. *)
Definition vector_inv (regs : list Z) (i : nat) (val : Z) (out : list Z) : Prop :=
  is_byte val /\ Forall is_byte out /\ length out = (i / 8)%nat /\
  (forall r, (r < 8 * (i / 8))%nat -> line_bit out r = is_ref regs r) /\
  (forall j, (j < 8)%nat -> (8 <= i + j)%nat -> Z.testbit val (Z.of_nat j) = is_ref regs (i + j - 8)).

Lemma byte_bit_high v : is_byte v -> Z.testbit v 8 = false.
Proof. intros [H1 H2]. rewrite Z.testbit_false by lia. rewrite Z.div_small by lia. done. Qed.

Lemma line_bit_app1 out v r : (r < 8 * length out)%nat -> line_bit (out ++ [v]) r = line_bit out r.
Proof. intros H. unfold line_bit. rewrite app_nth1; [done|]. apply Nat.Div0.div_lt_upper_bound. lia. Qed.

Lemma line_bit_app2 out v j : (j < 8)%nat -> line_bit (out ++ [v]) (8 * length out + j) = Z.testbit v (Z.of_nat j).
Proof.
  intros H. unfold line_bit. rewrite Nat.mul_comm, Nat.div_add_l, Nat.div_small by lia.
  rewrite app_nth2, Nat.add_0_r, Nat.sub_diag by lia. cbn [nth]. do 2 f_equal.
  rewrite Nat.add_comm, Nat.Div0.mod_add. by apply Nat.mod_small.
Qed.

Lemma shift_in val b : is_byte val ->
  let val' := if (b : bool) then Z.lor (Z.shiftr val 1) 0x80 else Z.shiftr val 1 in
  is_byte val' /\ (forall j, (j < 7)%nat -> Z.testbit val' (Z.of_nat j) = Z.testbit val (Z.of_nat (S j))) /\ Z.testbit val' 7 = b.
Proof.
  intros Hv val'.
  pose (f v := let v' := if b then Z.lor (Z.shiftr v 1) 0x80 else Z.shiftr v 1 in
    (0 <=? v') && (v' <? 256) && forallb (fun j => Bool.eqb (Z.testbit v' j) (Z.testbit v (j + 1))) (seqZ 0 7) && Bool.eqb (Z.testbit v' 7) b).
  assert (Hf : f val = true) by (apply (below_all 256 f); [destruct b; vm_compute; reflexivity|exact Hv]).
  unfold f in Hf. fold val' in Hf. cbv zeta in Hf. apply andb_prop in Hf as [[[? ?]%andb_prop Hj]%andb_prop H7%eqb_prop].
  split; [unfold is_byte; lia|]. split; [|done]. intros j Hj7.
  rewrite Nat2Z.inj_succ. apply eqb_prop. apply (below_all 7 _ Hj (Z.of_nat j)). lia.
Qed.

Lemma low_three i : Z.land (Z.of_nat i) 0x07 = Z.of_nat (i mod 8).
Proof. rewrite (land_mask 3) by lia. by rewrite (Nat2Z.inj_mod i 8). Qed.

Lemma div8_S i : (i mod 8 = 7 -> S i / 8 = S (i / 8))%nat /\ (i mod 8 <> 7 -> S i / 8 = i / 8)%nat.
Proof.
  pose proof (Nat.div_mod_eq i 8). pose proof (Nat.mod_upper_bound i 8 ltac:(lia)). split; intros H7.
  - symmetry. apply (Nat.div_unique (S i) 8 (S (i / 8)) 0); lia.
  - symmetry. apply (Nat.div_unique (S i) 8 (i / 8) (S (i mod 8))); lia.
Qed.

Lemma vector_step regs i t val out : vector_inv regs i val out -> regs !! i = Some t ->
  let val' := if isReferenceType t then Z.lor (Z.shiftr val 1) 0x80 else Z.shiftr val 1 in
  vector_inv regs (S i) val' (if Z.land (Z.of_nat i) 0x07 =? 7 then out ++ [val'] else out).
Proof.
  intros (Hv & Ho & Hl & Hbits & Hval) Ht. destruct (shift_in val (isReferenceType t) Hv) as (Hv' & Hlow & H7).
  cbv zeta in *. remember (if isReferenceType t then _ else _) as val'. pose proof (Nat.div_mod_eq i 8) as Hdm.
  assert (Hval' : forall j, (j < 8)%nat -> (8 <= S i + j)%nat -> Z.testbit val' (Z.of_nat j) = is_ref regs (S i + j - 8)).
  { intros j Hj Hij. destruct (decide (j = 7)%nat) as [->|].
    - change (Z.of_nat 7) with 7. rewrite H7. replace (S i + 7 - 8)%nat with i by lia. unfold is_ref. by rewrite Ht.
    - rewrite Hlow, Hval by lia. f_equal. lia. }
  rewrite low_three. destruct (div8_S i) as [D7 Dn].
  destruct (Z.eqb_spec (Z.of_nat (i mod 8)) 7) as [E|E].
  - assert (E' : (i mod 8 = 7)%nat) by lia. unfold vector_inv. rewrite (D7 E'). split; [done|]. split; [apply Forall_app; split; [done|by constructor]|].
    split; [rewrite length_app; cbn [length]; lia|]. split; [|done]. intros r Hr.
    destruct (decide (r < 8 * length out)%nat) as [Hlt|Hge].
    + rewrite line_bit_app1 by done. apply Hbits. lia.
    + replace r with (8 * length out + (r - 8 * length out))%nat at 1 by lia. rewrite line_bit_app2 by lia.
      rewrite Hval' by lia. f_equal. lia.
  - assert (E' : (i mod 8 <> 7)%nat) by lia. unfold vector_inv. rewrite (Dn E'). done.
Qed.

Lemma vector_loop regs n : forall i val out, vector_inv regs i val out -> (i + n <= length regs)%nat ->
  exists val' out', type_vector_loop n (Z.of_nat i) (drop i regs) val out = Some (Z.of_nat (i + n), val', out') /\
    vector_inv regs (i + n) val' out'.
Proof.
  induction n as [|n IH]; intros i val out Hinv Hl; cbn [type_vector_loop].
  - exists val, out. by rewrite Nat.add_0_r.
  - destruct (lookup_lt_is_Some_2 regs i ltac:(lia)) as [t Ht]. rewrite (drop_S _ t) by done.
    pose proof (vector_step regs i t val out Hinv Ht) as Hs. cbv zeta in Hs |- *.
    destruct (IH (S i) _ _ Hs ltac:(lia)) as (val' & out' & E & Hi).
    exists val', out'. replace (i + S n)%nat with (S i + n)%nat by lia. split; [|done].
    rewrite <- E. f_equal. lia.
Qed.

Definition regWidth_of (n : Z) : Z := (n + 7) / 8.

(** The vector of the types of [n] registers: a byte for eight of them, the bit of each
    set when it holds a reference. *)
Lemma outputTypeVector_spec regs n : 0 <= n <= Z.of_nat (length regs) ->
  exists bits, outputTypeVector regs n = Some bits /\ length bits = Z.to_nat (regWidth_of n) /\ Forall is_byte bits /\
    forall r, (Z.of_nat r < n) -> line_bit bits r = is_ref regs r.
Proof.
  intros Hn. unfold outputTypeVector.
  assert (H0 : vector_inv regs 0 0 []).
  { split; [unfold is_byte; lia|]. split; [done|]. split; [done|]. split; [intros r Hr; cbn in Hr; lia|]. intros; lia. }
  destruct (vector_loop regs (Z.to_nat n) 0 0 [] H0 ltac:(lia)) as (val & out & E & Hv & Ho & Hl & Hbits & Hval).
  rewrite drop_0 in E. change (Z.of_nat 0) with 0 in E. rewrite E. cbn [mbind option_bind Nat.add] in *. rewrite low_three.
  remember (Z.to_nat n) as m. pose proof (Nat.div_mod_eq m 8) as Hdm. pose proof (Nat.mod_upper_bound m 8 ltac:(lia)) as Hm8.
  assert (Hw : Z.to_nat (regWidth_of n) = ((m + 7) / 8)%nat).
  { unfold regWidth_of. replace n with (Z.of_nat m) by lia. replace (Z.of_nat m + 7) with (Z.of_nat (m + 7)) by lia.
    change 8 with (Z.of_nat 8). rewrite <- Nat2Z.inj_div. lia. }
  eexists. split; [reflexivity|]. rewrite Hw. destruct (Z.eqb_spec (Z.of_nat (m mod 8)) 0) as [Em|Em]; cbn [negb].
  - split; [rewrite Hl; apply (Nat.div_unique (m + 7) 8 (m / 8) 7); lia|]. split; [done|]. intros r Hr. apply Hbits. lia.
  - split; [rewrite length_app, Hl; cbn [length]; rewrite Nat.add_1_r; apply (Nat.div_unique (m + 7) 8 (S (m / 8)) (m mod 8 - 1)); lia|].
    assert (Hs : 0 <= Z.shiftr val (8 - Z.of_nat (m mod 8)) < 256).
    { unfold is_byte in Hv. rewrite Z.shiftr_div_pow2 by lia. split; [apply Z.div_pos; lia|].
      eapply Z.le_lt_trans; [apply Z.div_le_upper_bound; [lia|]|apply Hv].
      assert (1 <= 2 ^ (8 - Z.of_nat (m mod 8))) by (apply (Z.pow_le_mono_r 2 0); lia). nia. }
    split; [apply Forall_app; split; [done|]; by constructor|]. intros r Hr.
    destruct (decide (r < 8 * length out)%nat) as [Hlt|Hge].
    + rewrite line_bit_app1 by done. apply Hbits. lia.
    + replace r with (8 * length out + (r - 8 * length out))%nat at 1 by lia. rewrite line_bit_app2 by lia.
      rewrite Z.shiftr_spec by lia.
      replace (Z.of_nat (r - 8 * length out) + (8 - Z.of_nat (m mod 8))) with (Z.of_nat (r + 8 - m)) by lia.
      rewrite Hval by lia. f_equal. lia.
Qed.

(** ** Generation *)

Section Generation.
Context (insnFlags : list Z) (registerLines : list (option RegisterLine)) (insnRegCount : Z).

(** A point at which the collector may run, and its registers. *)
Definition gc_at (i : Z) : bool := bool_decide (dvmInsnIsGcPoint insnFlags i = Some true).

Definition line_bits (i : Z) : list Z :=
  default [] (line ← aref registerLines i; line ← line; outputTypeVector (regTypes line) insnRegCount).

(** The table is there: flags for every address, a line for every such point. *)
Definition table_at (i : Z) : Prop :=
  is_Some (dvmInsnIsGcPoint insnFlags i) /\
  (gc_at i = true -> exists line, aref registerLines i = Some (Some line) /\ insnRegCount <= Z.of_nat (length (regTypes line))).

(** The lines of the map. *)
Definition gc_entries (i : Z) (n : nat) : list (Z * list Z) :=
  map (fun i => (i, line_bits i)) (List.filter gc_at (seqZ i (Z.of_nat n))).

Lemma gc_entries_S i n : gc_entries i (S n) =
  (if gc_at i then [(i, line_bits i)] else []) ++ gc_entries (i + 1) n.
Proof using. unfold gc_entries. rewrite seqZ_cons_nat. cbn [List.filter]. by destruct (gc_at i). Qed.

Lemma table_gc i : table_at i -> dvmInsnIsGcPoint insnFlags i = Some (gc_at i).
Proof using. intros [[g E] _]. unfold gc_at. rewrite E. destruct g; [by rewrite bool_decide_true|by rewrite bool_decide_false]. Qed.

Lemma gc_entries_spec i n e : e ∈ gc_entries i n <-> i <= e.1 < i + Z.of_nat n /\ gc_at e.1 = true /\ e.2 = line_bits e.1.
Proof using.
  unfold gc_entries. rewrite list_elem_of_In, in_map_iff. split.
  - intros (a & <- & [Ha Hg]%filter_In). apply list_elem_of_In, elem_of_seqZ in Ha. done.
  - intros (Hi & Hg & E). exists e.1. rewrite <- E. split; [by destruct e|]. apply filter_In. split; [|done].
    by apply list_elem_of_In, elem_of_seqZ.
Qed.

Lemma gc_entries_sorted n : forall i, StronglySorted Z.lt (gc_entries i n).*1.
Proof using.
  induction n as [|n IH]; intros i; [constructor|]. rewrite gc_entries_S. destruct (gc_at i); [|apply IH].
  constructor; [apply IH|]. apply Forall_forall. intros a Ha. apply list_elem_of_fmap in Ha as (e & -> & He).
  apply gc_entries_spec in He. cbn [fst]. lia.
Qed.

Lemma count_points n : forall i c, (forall j, i <= j < i + Z.of_nat n -> table_at j) ->
  count_gc_points n insnFlags i c = Some (c + Z.of_nat (length (gc_entries i n))).
Proof using.
  induction n as [|n IH]; intros i c Ht; cbn [count_gc_points];
    [change (gc_entries i 0) with (@nil (Z * list Z)); f_equal; cbn [length]; lia|].
  rewrite table_gc by (apply Ht; lia). cbn [mbind option_bind]. rewrite gc_entries_S.
  rewrite IH by (intros; apply Ht; lia). destruct (gc_at i); cbn [app length]; f_equal; lia.
Qed.

Context (aw w : Z) (Haw : aw = 1 \/ aw = 2) (Hn : 0 <= insnRegCount) (Hw : w = regWidth_of insnRegCount).

Lemma line_bits_ok i : table_at i -> gc_at i = true -> exists line, aref registerLines i = Some (Some line) /\
  outputTypeVector (regTypes line) insnRegCount = Some (line_bits i) /\ length (line_bits i) = Z.to_nat w /\
  Forall is_byte (line_bits i) /\ forall r, Z.of_nat r < insnRegCount -> line_bit (line_bits i) r = is_ref (regTypes line) r.
Proof using Hn Hw.
  intros [_ Hl] Hg. destruct (Hl Hg) as (line & El & Hlen).
  destruct (outputTypeVector_spec (regTypes line) insnRegCount (conj Hn Hlen)) as (bits & Eb & Hbl & Hbb & Hbits).
  exists line. split; [done|]. assert (E : line_bits i = bits) by (unfold line_bits; rewrite El; cbn [mbind option_bind]; by rewrite Eb).
  rewrite E, Hw. done.
Qed.

Lemma addr_bytes_new a : addr_bytes aw a = new_addr aw a.
Proof using Haw. unfold addr_bytes, new_addr. by destruct Haw as [-> | ->]; [rewrite land_ff|]. Qed.

Lemma write_at_end (buf rest bytes : list Z) : length rest = length bytes ->
  forall more, write_at (buf ++ rest ++ more) (Z.of_nat (length buf)) bytes = Some ((buf ++ bytes) ++ more).
Proof using.
  intros Hl more. unfold write_at. rewrite (proj2 (Z.leb_le 0 _)), (proj2 (Z.leb_le _ _)) by (rewrite ?length_app; lia).
  cbn [andb]. rewrite Nat2Z.id, take_app_length, <- Hl, drop_app_add, drop_app_length. by rewrite <- app_assoc.
Qed.

Lemma populate_lines n : forall i done rest, (forall j, i <= j < i + Z.of_nat n -> table_at j) -> 0 <= i ->
  i + Z.of_nat n <= 2 ^ (8 * aw) -> Z.of_nat (length rest) = (aw + w) * Z.of_nat (length (gc_entries i n)) ->
  populate n insnFlags registerLines aw w insnRegCount i (done ++ rest) (Z.of_nat (length done)) =
  Some (done ++ lines aw (gc_entries i n), Z.of_nat (length done) + Z.of_nat (length rest)).
Proof using Haw Hn Hw.
  induction n as [|n IH]; intros i done rest Ht Hi Hmax Hr; cbn [populate].
  { change (gc_entries i 0) with (@nil (Z * list Z)) in *. destruct rest; [|cbn [length] in Hr; lia].
    cbn. f_equal. f_equal. lia. }
  rewrite table_gc by (apply Ht; lia). cbn [mbind option_bind]. rewrite gc_entries_S in *.
  destruct (gc_at i) eqn:Hg; [|cbn [app] in *; apply IH; [intros; apply Ht; lia|lia|lia|done]].
  destruct (line_bits_ok i (Ht i ltac:(lia)) Hg) as (line & El & Eb & Hbl & _). rewrite El. cbn [mbind option_bind].
  destruct (line_addr_new aw i [] Haw ltac:(lia)) as (_ & _ & Hal & _). rewrite addr_bytes_new.
  cbn [app length] in Hr |- *. assert (Hw0 : 0 <= w) by (rewrite Hw; apply Z.div_pos; lia).
  assert (Hrl : (Z.to_nat aw + Z.to_nat w <= length rest)%nat) by (destruct Haw as [-> | ->]; nia).
  rewrite <- (take_drop (Z.to_nat aw) rest). rewrite write_at_end by (rewrite length_take; lia). cbn [mbind option_bind].
  rewrite Eb. cbn [mbind option_bind].
  replace (Z.of_nat (length done) + aw) with (Z.of_nat (length (done ++ new_addr aw i))) by (rewrite length_app; lia).
  rewrite <- (take_drop (Z.to_nat w) (drop (Z.to_nat aw) rest)) at 1.
  rewrite write_at_end by (rewrite length_take, length_drop; lia). cbn [mbind option_bind].
  replace (Z.of_nat (length (done ++ new_addr aw i)) + w) with (Z.of_nat (length ((done ++ new_addr aw i) ++ line_bits i)))
    by (rewrite !length_app; lia).
  rewrite IH; [|intros; apply Ht; lia|lia|lia|rewrite !length_drop; nia].
  change (lines aw ((i, line_bits i) :: gc_entries (i + 1) n)) with ((new_addr aw i ++ line_bits i) ++ lines aw (gc_entries (i + 1) n)).
  f_equal. f_equal; [by rewrite <- !app_assoc|]. rewrite !length_app, !length_take, !length_drop. lia.
Qed.

End Generation.

(** ** Lookup *)

Section Lookup.
Context (aw w : Z) (Haw : aw = 1 \/ aw = 2) (Hw : 0 <= w <= 255).

(** What a lookup of an address is to return. *)
Definition found (es : list (Z * list Z)) (addr : Z) (r : option (list Z)) : Prop :=
  match r with
  | Some ptr => exists e rest, e ∈ es /\ e.1 = addr /\ ptr = e.2 ++ rest
  | None => forall e, e ∈ es -> e.1 <> addr
  end.

Lemma line_head a b es : entry_ok aw w (a, b) ->
  line_addr aw (lines aw ((a, b) :: es)) = Some a /\
  drop (Z.to_nat aw) (lines aw ((a, b) :: es)) = b ++ lines aw es /\
  drop (Z.to_nat (aw + w)) (lines aw ((a, b) :: es)) = lines aw es.
Proof using Haw Hw.
  intros (Ha & Hl & _). cbn [fst snd] in Ha, Hl.
  destruct (line_addr_new aw a (b ++ lines aw es) Haw Ha) as (Eaddr & Edrop & _ & _).
  change (lines aw ((a, b) :: es)) with ((new_addr aw a ++ b) ++ lines aw es). rewrite <- app_assoc.
  split; [done|]. split; [done|]. rewrite Z2Nat.inj_add by lia. rewrite <- drop_drop, Edrop, <- Hl. apply drop_app_length.
Qed.

Lemma lines_drop es n : Forall (entry_ok aw w) es ->
  drop (Z.to_nat ((aw + w) * Z.of_nat n)) (lines aw es) = lines aw (drop n es).
Proof using Haw Hw.
  revert es. induction n as [|n IH]; intros es Hes.
  - rewrite Z.mul_0_r. done.
  - replace ((aw + w) * Z.of_nat (S n)) with ((aw + w) + (aw + w) * Z.of_nat n) by lia.
    rewrite Z2Nat.inj_add by lia. rewrite <- drop_drop. destruct Hes as [|[a b] es Hab Hes]; [change (lines aw []) with (@nil Z); by rewrite !drop_nil|].
    destruct (line_head a b es Hab) as (_ & _ & ->). by apply IH.
Qed.

Lemma line_scan_found addr es : Forall (entry_ok aw w) es ->
  exists r, line_scan (length es) aw (aw + w) addr (lines aw es) = Some r /\ found es addr r.
Proof using Haw Hw.
  induction 1 as [|[a b] es Hab Hes (r & E & Hr)]; cbn [length line_scan].
  { exists None. split; [done|]. by intros e He%not_elem_of_nil. }
  destruct (line_head a b es Hab) as (-> & -> & ->). cbn [mbind option_bind].
  destruct (Z.eqb_spec a addr) as [->|Hne].
  - exists (Some (b ++ lines aw es)). split; [done|]. exists (addr, b), (lines aw es). split; [apply elem_of_cons; by left|done].
  - exists r. split; [done|]. destruct r as [ptr|].
    + destruct Hr as (e & rest & He & H). exists e, rest. split; [apply elem_of_cons; by right|done].
    + intros e [-> |He]%elem_of_cons; [done|by apply Hr].
Qed.

Lemma sorted_lookup (es : list (Z * list Z)) i j x y : StronglySorted Z.lt es.*1 -> es !! i = Some x -> es !! j = Some y ->
  (i < j)%nat -> x.1 < y.1.
Proof using.
  intros Hs Hi Hj Hij. rewrite <- (take_drop (S i) es), fmap_app in Hs.
  apply (StronglySorted_app_1_elem_of _ _ _ x.1 y.1 Hs); apply list_elem_of_fmap.
  - exists x. split; [done|]. apply list_elem_of_lookup. exists i. rewrite lookup_take. by rewrite decide_True by lia.
  - exists y. split; [done|]. apply list_elem_of_lookup. exists (j - S i)%nat. rewrite lookup_drop. by replace (S i + (j - S i))%nat with j by lia.
Qed.

Lemma line_search_found addr es : Forall (entry_ok aw w) es -> StronglySorted Z.lt es.*1 ->
  forall fuel lo hi, 0 <= lo -> hi < Z.of_nat (length es) -> hi - lo < Z.of_nat fuel ->
  (forall i e, es !! i = Some e -> Z.of_nat i < lo -> e.1 < addr) ->
  (forall i e, es !! i = Some e -> hi < Z.of_nat i -> addr < e.1) ->
  exists r, line_search fuel lo hi aw (aw + w) addr (lines aw es) = Some r /\ found es addr r.
Proof using Haw Hw.
  intros Hes Hs. induction fuel as [|fuel IH]; intros lo hi Hlo Hhi Hf Hbelow Habove; cbn [line_search];
    destruct (Z.geb_spec hi lo) as [Hge|Hlt]; try lia.
  1, 3: exists None; split; [done|]; intros e [i He]%list_elem_of_lookup; destruct (Z.lt_ge_cases (Z.of_nat i) lo);
    [specialize (Hbelow i e He)|specialize (Habove i e He)]; lia.
  assert (Hmid : lo <= (hi + lo) / 2 <= hi) by (split; [apply Z.div_le_lower_bound|apply Z.div_le_upper_bound]; lia).
  remember ((hi + lo) / 2) as mid. 
  assert (Edr : drop (Z.to_nat ((aw + w) * mid)) (lines aw es) = lines aw (drop (Z.to_nat mid) es))
    by (rewrite <- lines_drop by done; do 3 f_equal; lia).
  rewrite Edr.
  destruct (lookup_lt_is_Some_2 es (Z.to_nat mid) ltac:(lia)) as [[a b] He]. rewrite (drop_S _ _ _ He).
  destruct (line_head a b (drop (S (Z.to_nat mid)) es)) as (-> & -> & _); [by apply (Forall_lookup_1 _ _ _ _ Hes He)|].
  cbn [mbind option_bind]. destruct (Z.gtb_spec addr a) as [Hgt|Hle]; [|destruct (Z.ltb_spec addr a) as [Hlt|Hge']].
  - apply IH; try lia; [|done]. intros i e Hi Hlt. destruct (decide (i = Z.to_nat mid)) as [->|Hne].
    + rewrite He in Hi. injection Hi as <-. done.
    + pose proof (sorted_lookup es i (Z.to_nat mid) e (a, b) Hs Hi He ltac:(lia)) as H. cbn [fst] in H. lia.
  - apply IH; try lia; [done|]. intros i e Hi Hgt. destruct (decide (i = Z.to_nat mid)) as [->|Hne].
    + rewrite He in Hi. injection Hi as <-. done.
    + pose proof (sorted_lookup es (Z.to_nat mid) i (a, b) e Hs He Hi ltac:(lia)) as H. cbn [fst] in H. lia.
  - eexists. split; [reflexivity|]. exists (a, b), (lines aw (drop (S (Z.to_nat mid)) es)). split; [|split; [cbn; lia|done]].
    apply list_elem_of_lookup. by eexists.
Qed.

Lemma get_line_found NDEBUG addr es : Forall (entry_ok aw w) es -> StronglySorted Z.lt es.*1 ->
  0 < Z.of_nat (length es) < 65536 ->
  exists r, dvmRegisterMapGetLine NDEBUG (compact_map aw w es) addr = Some r /\ found es addr r.
Proof using Haw Hw.
  intros Hes Hs Hn. unfold dvmRegisterMapGetLine, asserted.
  destruct (compact_fields aw w es Hw (proj2 Hn)) as (-> & _ & -> & -> & ->).
  rewrite (proj2 (Z.gtb_lt _ _)) by lia. rewrite orb_true_r.
  assert (E : (compact_format aw =? kRegMapFormatNone) = false /\ (if compact_format aw =? kRegMapFormatCompact8 then Some 1
    else if compact_format aw =? kRegMapFormatCompact16 then Some 2 else None) = Some aw) by by destruct Haw as [-> | ->].
  destruct E as [-> ->]. cbn [mbind option_bind]. rewrite !Nat2Z.id. destruct (_ <? kSearchThreshold); [by apply line_scan_found|].
  apply line_search_found; try done; try lia. intros i e Hi Hgt. apply lookup_lt_Some in Hi. lia.
Qed.

End Lookup.

(** ** What the generator leaves *)

Definition addr_width (insnsSize : Z) : Z := if insnsSize <? 256 then 1 else 2.

Lemma regWidth_ok n : 0 <= n <= 2040 -> 0 <= regWidth_of n <= 255.
Proof.
  intros Hn. unfold regWidth_of. split; [apply Z.div_pos; lia|].
  enough ((n + 7) / 8 < 256) by lia. apply Z.div_lt_upper_bound; lia.
Qed.

Lemma entries_ok insnFlags registerLines n insnsSize : 0 <= n <= 2040 -> 0 <= insnsSize < 65536 ->
  (forall i, 0 <= i < insnsSize -> table_at insnFlags registerLines n i) ->
  let es := gc_entries insnFlags registerLines n 0 (Z.to_nat insnsSize) in
  Forall (entry_ok (addr_width insnsSize) (regWidth_of n)) es /\ Z.of_nat (length es) < 65536.
Proof.
  intros Hn Hsize Ht es. split.
  - apply Forall_forall. intros e (Hi & Hg & E)%gc_entries_spec.
    destruct (line_bits_ok insnFlags registerLines n (regWidth_of n) ltac:(lia) eq_refl e.1 (Ht e.1 ltac:(lia)) Hg)
      as (_ & _ & _ & Hl & Hb & _). rewrite <- E in Hl, Hb. split; [|done].
    unfold addr_width. destruct (Z.ltb_spec insnsSize 256); cbn [Z.mul Pos.mul]; lia.
  - subst es. unfold gc_entries. rewrite length_map. pose proof (filter_length_le (gc_at insnFlags) (seqZ 0 (Z.of_nat (Z.to_nat insnsSize)))) as H.
    rewrite length_seqZ in H. lia.
Qed.

Lemma generated NDEBUG junk junk' insnFlags registerLines n insnsSize : 0 <= n <= 2040 -> 0 <= insnsSize < 65536 ->
  (forall i, 0 <= i < insnsSize -> table_at insnFlags registerLines n i) ->
  exists pMap, dvmGenerateRegisterMapV NDEBUG junk n n insnsSize insnFlags registerLines = Some (Some pMap) /\
    dvmGetExpandedRegisterMap junk' pMap = Some (Some (compact_map (addr_width insnsSize) (regWidth_of n)
      (gc_entries insnFlags registerLines n 0 (Z.to_nat insnsSize)))).
Proof.
  intros Hn Hsize Ht. destruct (entries_ok insnFlags registerLines n insnsSize Hn Hsize Ht) as [Hes Hlen].
  remember (gc_entries insnFlags registerLines n 0 (Z.to_nat insnsSize)) as es.
  assert (Haw : addr_width insnsSize = 1 \/ addr_width insnsSize = 2) by (unfold addr_width; destruct (_ <? _); auto).
  pose proof (regWidth_ok n Hn) as Hw.
  unfold dvmGenerateRegisterMapV. destruct (Z.geb_spec n 2048); [lia|].
  assert (Ew : u8 ((n + 7) / 8) = regWidth_of n) by (unfold regWidth_of in *; apply wrapU_id; unfold inU; lia).
  rewrite Ew.
  assert (E : (if insnsSize <? 256 then (kRegMapFormatCompact8, 1) else (kRegMapFormatCompact16, 2)) =
    (compact_format (addr_width insnsSize), addr_width insnsSize)) by (unfold addr_width; by destruct (_ <? _)).
  cbv zeta. rewrite E. cbv beta iota. remember (addr_width insnsSize) as aw. remember (regWidth_of n) as w.
  rewrite (count_points insnFlags registerLines n) by (intros; apply Ht; lia). cbn [mbind option_bind]. rewrite <- Heqes, Z.add_0_l.
  destruct (Z.geb_spec (Z.of_nat (length es)) 65536); [lia|].
  assert (Ecap : kHeaderSize + Z.of_nat (length es) * (aw + w) - kHeaderSize = (aw + w) * Z.of_nat (length es)) by lia. rewrite Ecap.
  pose proof (populate_lines insnFlags registerLines n aw w Haw ltac:(lia) Heqw (Z.to_nat insnsSize) 0 []
    (replicate (Z.to_nat ((aw + w) * Z.of_nat (length es))) junk)) as Hpop. cbn [app length] in Hpop. change (Z.of_nat 0) with 0 in Hpop.
  rewrite Hpop, <- Heqes, length_replicate; clear Hpop.
  - cbn [mbind option_bind]. unfold asserted. rewrite (proj2 (Z.eqb_eq _ _)) by nia. rewrite orb_true_r.
    rewrite new_map_junk. change (new_map 0 (compact_format aw) w (Z.of_nat (length es)) (lines aw es)) with (compact_map aw w es).
    destruct (compress_lossless NDEBUG aw w es junk junk' Haw Hw Hes ltac:(subst es; apply gc_entries_sorted) Hlen) as (r & -> & Hr).
    cbn [mbind option_bind]. eexists. split; [reflexivity|]. destruct r as [pNew|]; cbn [from_option id]; unfold dvmGetExpandedRegisterMap.
    + destruct (Hr pNew eq_refl) as (-> & _ & ->). done.
    + destruct (compact_fields aw w es Hw Hlen) as (-> & _). by destruct Haw as [-> | ->].
  - intros; apply Ht; lia.
  - lia.
  - subst aw. unfold addr_width. destruct (Z.ltb_spec insnsSize 256); cbn [Z.mul Pos.mul]; lia.
  - rewrite length_replicate, <- Heqes. lia.
Qed.

(** ** Properties *)

(** The types that are references: the classes that are not primitive, and the instances
    that a [new-instance] made and no constructor has run on. What is 0 for sure is none,
    since there is nothing to collect. *)
Inductive holds_reference (classes : gmap Z ClassObject) : Z -> Prop :=
  | ref_class c : initialized classes c -> holds_reference classes c
  | ref_uninit uidx : 0 <= uidx < 2 ^ 24 -> holds_reference classes (regTypeFromUninitIndex uidx).

Lemma uninit_word uidx : 0 <= uidx < 2 ^ 24 -> regTypeFromUninitIndex uidx = 1 + 256 * uidx.
Proof.
  intros Hu. unfold regTypeFromUninitIndex, kRegTypeUninit, kRegTypeUninitShift. rewrite lor_shiftl_add by lia.
  rewrite wrapU_id; [lia|]. unfold inU. lia.
Qed.

Lemma reference_types classes t : reg_type classes t -> isReferenceType t = true <-> holds_reference classes t.
Proof.
  intros Ht. unfold isReferenceType. rewrite orb_true_iff, Z.gtb_lt, Z.eqb_eq. split.
  - intros Hr. destruct Ht as [Ht|[[Ht Hu]|Ht]].
    + destruct Hr as [?| ->]; [lia|]. change kRegTypeUninit with (regTypeFromUninitIndex 0). by constructor.
    + unfold regTypeIsUninitReference, kRegTypeUninitMask, kRegTypeUninit in Hu. rewrite (land_mask 8) in Hu by lia. apply Z.eqb_eq in Hu.
      unfold kRegTypeMAX in Ht. assert (Hq : 0 <= t / 256 < 2 ^ 24) by (clear -Ht; dlia).
      assert (t = 1 + 256 * (t / 256)) as -> by (clear -Hu; change (2 ^ 8) with 256 in Hu; dlia).
      rewrite <- uninit_word by done. by constructor.
    + by constructor.
  - intros Hr. inversion Hr as [c (Hc & _)|u Hu]; subst; [left; lia|]. rewrite uninit_word by done.
    unfold kRegTypeMAX, kRegTypeUninit. lia.
Qed.

(** C14. The collector is told what the verifier knew. For a method of up to 2040 registers
    and fewer than 65536 code units, with a register line for every point at which the
    collector may run, the generator returns a map; whether or not it was compressed, it
    expands; and in the expanded map the line of such a point is found, with the bit of
    every register set exactly when its type in the register line is a class or an
    instance that is not initialized yet, while no line is found for any other address. *)
Theorem register_map_tells NDEBUG junk junk' classes insnFlags registerLines registersSize insnsSize :
  0 <= registersSize <= 2040 -> 0 <= insnsSize < 65536 ->
  (forall i, 0 <= i < insnsSize -> table_at insnFlags registerLines registersSize i) ->
  exists pMap pExpanded,
    dvmGenerateRegisterMapV NDEBUG junk registersSize registersSize insnsSize insnFlags registerLines = Some (Some pMap) /\
    dvmGetExpandedRegisterMap junk' pMap = Some (Some pExpanded) /\
    ((exists i, 0 <= i < insnsSize /\ gc_at insnFlags i = true) ->
     forall addr, exists r, dvmRegisterMapGetLine NDEBUG pExpanded addr = Some r /\
      if bool_decide (0 <= addr < insnsSize) && gc_at insnFlags addr
      then exists bits line, r = Some bits /\ aref registerLines addr = Some (Some line) /\
        forall reg, Z.of_nat reg < registersSize -> exists t, regTypes line !! reg = Some t /\
          (reg_type classes t -> line_bit bits reg = true <-> holds_reference classes t)
      else r = None).
Proof.
  intros Hn Hsize Ht. destruct (generated NDEBUG junk junk' insnFlags registerLines registersSize insnsSize Hn Hsize Ht) as (pMap & Eg & Ee).
  destruct (entries_ok insnFlags registerLines registersSize insnsSize Hn Hsize Ht) as [Hes Hlen].
  exists pMap. eexists. split; [exact Eg|]. split; [exact Ee|]. intros (i & Hi & Hg) addr.
  remember (gc_entries insnFlags registerLines registersSize 0 (Z.to_nat insnsSize)) as es.
  assert (Hpos : 0 < Z.of_nat (length es)).
  { destruct es; [|cbn [length]; lia]. exfalso. apply (not_elem_of_nil (i, line_bits registerLines registersSize i)).
    rewrite Heqes. apply gc_entries_spec. cbn [fst snd]. split; [lia|done]. }
  destruct (get_line_found (addr_width insnsSize) (regWidth_of registersSize)
    ltac:(unfold addr_width; destruct (_ <? _); auto)
    (regWidth_ok registersSize Hn)
    NDEBUG addr es Hes ltac:(subst es; apply gc_entries_sorted) (conj Hpos Hlen)) as (r & Er & Hr).
  exists r. split; [exact Er|]. destruct r as [ptr|]; cbn [found] in Hr.
  - destruct Hr as (e & rest & He & <- & ->). rewrite Heqes in He. apply gc_entries_spec in He as (Ha & Hga & ->).
    rewrite bool_decide_true, Hga by lia. cbn [andb].
    destruct (line_bits_ok insnFlags registerLines registersSize _ ltac:(lia) eq_refl e.1 (Ht e.1 ltac:(lia)) Hga)
      as (line & El & _ & Hbl & _ & Hbits).
    eexists. exists line. split; [reflexivity|]. split; [done|]. intros reg Hreg.
    destruct (lookup_lt_is_Some_2 (regTypes line) reg) as [t Et].
    { destruct (proj2 (Ht e.1 ltac:(lia)) Hga) as (line' & El' & Hle). assert (line' = line) as -> by congruence. lia. }
    exists t. split; [done|]. intros Htype. rewrite <- (reference_types classes t Htype).
    specialize (Hbits reg Hreg). unfold is_ref in Hbits. rewrite Et in Hbits. rewrite <- Hbits.
    match goal with |- ?a = true <-> ?b = true => enough (a = b) as -> by done end.
    unfold line_bit. rewrite app_nth1; [done|]. rewrite Hbl. unfold regWidth_of.
    apply Nat2Z.inj_lt. rewrite Nat2Z.inj_div, Z2Nat.id by (apply Z.div_pos; lia).
    apply Z.div_lt_upper_bound; [lia|]. pose proof (Z_div_mod_eq_full (registersSize + 7) 8). pose proof (Z.mod_pos_bound (registersSize + 7) 8). lia.
  - destruct (_ && _) eqn:E; [|done]. apply andb_prop in E as [Ha%bool_decide_eq_true Hga]. exfalso.
    apply (Hr (addr, line_bits registerLines registersSize addr)); [|done]. rewrite Heqes. apply gc_entries_spec. cbn [fst snd]. split; [lia|done].
Qed.

Definition ex_map_flags : list Z := map (fun i => if existsb (Z.eqb i) [2; 7; 9] then Z.lor 3 kInsnFlagGcPoint else 1) (seqZ 0 12).

Definition ex_map_lines : list (option RegisterLine) :=
  map (fun i => if existsb (Z.eqb i) [2; 7; 9]
    then Some (MkLine [kRegTypeInteger; kRegTypeZero; if i =? 2 then kRegTypeConflict else 0x7001; kRegTypeUnknown; kRegTypeUnknown] None [] 0) else None)
    (seqZ 0 12).

Lemma ex_table i : 0 <= i < 12 -> table_at ex_map_flags ex_map_lines 3 i.
Proof.
  intros Hi. assert (Hall : forallb (fun i => match dvmInsnIsGcPoint ex_map_flags i, aref ex_map_lines i with
    | Some g, Some (Some line) => 3 <=? Z.of_nat (length (regTypes line))
    | Some g, _ => negb g
    | None, _ => false
    end) (seqZ 0 12) = true) by (vm_compute; reflexivity).
  pose proof (below_all 12 _ Hall i Hi) as H. cbv beta in H. unfold table_at, gc_at.
  destruct (dvmInsnIsGcPoint ex_map_flags i) as [g|]; [|discriminate H]. split; [by exists g|].
  intros Hg%bool_decide_eq_true. injection Hg as ->. destruct (aref ex_map_lines i) as [[line|]|]; try discriminate H.
  exists line. split; [reflexivity|]. by apply Z.leb_le.
Qed.

(** The line of the point at 7, where the last register holds an instance that is not
    initialized yet. *)
Lemma register_map_tells_witness : exists pMap pExpanded bits,
  dvmGenerateRegisterMapV false 0xa5 3 3 12 ex_map_flags ex_map_lines = Some (Some pMap) /\
  dvmGetExpandedRegisterMap 0x5a pMap = Some (Some pExpanded) /\
  dvmRegisterMapGetLine false pExpanded 7 = Some (Some bits) /\
  line_bit bits 2 = true /\ line_bit bits 1 = false.
Proof.
  destruct (register_map_tells false 0xa5 0x5a ∅ ex_map_flags ex_map_lines 3 12 ltac:(lia) ltac:(lia) ex_table) as (pMap & pExp & E1 & E2 & H).
  assert (G : exists i, 0 <= i < 12 /\ gc_at ex_map_flags i = true) by (exists 7; split; [lia|reflexivity]).
  destruct (H G 7) as (r & Er & Hr). change (bool_decide (0 <= 7 < 12) && gc_at ex_map_flags 7) with true in Hr.
  destruct Hr as (bits & line & -> & El & Hbits). exists pMap, pExp, bits. do 3 (split; [assumption|]).
  vm_compute in El. injection El as <-.
  destruct (Hbits 2%nat ltac:(vm_compute; reflexivity)) as (t2 & Et2 & B2). cbn in Et2. injection Et2 as <-.
  destruct (Hbits 1%nat ltac:(vm_compute; reflexivity)) as (t1 & Et1 & B1). cbn in Et1. injection Et1 as <-. split.
  - apply B2; [right; left; split; [split; reflexivity|reflexivity]|]. change 0x7001 with (regTypeFromUninitIndex 0x70). apply ref_uninit. lia.
  - destruct (line_bit bits 1); [|reflexivity]. exfalso. destruct (B1 ltac:(left; unfold kRegTypeMAX; lia)) as [B _].
    specialize (B eq_refl). inversion B as [c (Hc & _)|u Hu Eu]; [unfold kRegTypeMAX in Hc; lia|]. rewrite uninit_word in Eu by done. lia.
Defined.

(** The example, compressed: five units on bit 2 changes, two units on none does. *)
Lemma ex_map_data :
  option_map (option_map data) (dvmGenerateRegisterMapV false 0xa5 3 3 12 ex_map_flags ex_map_lines) =
  Some (Some [4; 2; 0; 0x24; 9]).
Proof. vm_compute. reflexivity. Qed.

(** ** Frames of 2041 to 2047 registers

    [registersSize >= 2048] lets them pass, but 256 bytes do not fit the [u1] of the
    width: it is 0, and the lines are written behind one another's addresses, the last
    one past the end of the map. *)
Lemma write_at_length buf pos bytes buf' : write_at buf pos bytes = Some buf' ->
  length buf' = length buf /\ 0 <= pos /\ pos + Z.of_nat (length bytes) <= Z.of_nat (length buf).
Proof.
  unfold write_at. destruct (_ && _) eqn:E; [|done]. intros [= <-]. apply andb_prop in E as [?%Z.leb_le ?%Z.leb_le].
  split; [|lia]. rewrite !length_app, length_take, length_drop. lia.
Qed.

Lemma populate_overflows insnFlags registerLines n aw k : aw = 1 \/ aw = 2 -> 2041 <= n -> forall i buf mapData,
  (forall j, i <= j < i + Z.of_nat k -> table_at insnFlags registerLines n j) ->
  gc_entries insnFlags registerLines n i k <> [] ->
  Z.of_nat (length buf) = mapData + aw * Z.of_nat (length (gc_entries insnFlags registerLines n i k)) ->
  populate k insnFlags registerLines aw 0 n i buf mapData = None.
Proof.
  intros Haw Hn. induction k as [|k IH]; intros i buf mapData Ht Hne Hl; [done|]. cbn [populate].
  rewrite (table_gc insnFlags registerLines n) by (apply Ht; lia). cbn [mbind option_bind]. rewrite gc_entries_S in *.
  destruct (gc_at insnFlags i) eqn:Hg; cbn [app length] in *; [|apply IH; [intros; apply Ht; lia|done|done]].
  destruct (line_bits_ok insnFlags registerLines n (regWidth_of n) ltac:(lia) eq_refl i (Ht i ltac:(lia)) Hg)
    as (line & -> & Eb & Hbl & _). cbn [mbind option_bind].
  destruct (write_at buf mapData (addr_bytes aw i)) as [buf1|] eqn:E1; [|done]. cbn [mbind option_bind]. rewrite Eb.
  cbn [mbind option_bind]. destruct (write_at buf1 _ _) as [buf2|] eqn:E2; [|done]. cbn [mbind option_bind].
  apply write_at_length in E1 as (L1 & _ & _). apply write_at_length in E2 as (L2 & _ & H2).
  assert (Hwide : 256 <= regWidth_of n) by (unfold regWidth_of; apply Z.div_le_lower_bound; lia).
  apply IH; [intros; apply Ht; lia| |lia]. intros E0. rewrite E0 in *. cbn [length] in Hl. lia.
Qed.

Lemma wide_frames_overflow NDEBUG junk insnFlags registerLines n insnsSize : 2041 <= n < 2048 -> 0 <= insnsSize < 65536 ->
  (forall i, 0 <= i < insnsSize -> table_at insnFlags registerLines n i) ->
  (exists i, 0 <= i < insnsSize /\ gc_at insnFlags i = true) ->
  dvmGenerateRegisterMapV NDEBUG junk n n insnsSize insnFlags registerLines = None.
Proof.
  intros Hn Hsize Ht (i & Hi & Hg). unfold dvmGenerateRegisterMapV. destruct (Z.geb_spec n 2048); [lia|].
  assert (Ew : u8 ((n + 7) / 8) = 0).
  { assert (E : (n + 7) / 8 = 256) by (symmetry; apply (Z.div_unique _ _ _ (n + 7 - 2048)); lia). by rewrite E. }
  cbv zeta. rewrite Ew. rewrite (surjective_pairing (if insnsSize <? 256 then _ else _)).
  rewrite (count_points insnFlags registerLines n) by (intros; apply Ht; lia). cbn [mbind option_bind].
  destruct (_ >=? 65536) eqn:Eg.
  { unfold gc_entries in Eg. rewrite length_map in Eg.
    pose proof (filter_length_le (gc_at insnFlags) (seqZ 0 (Z.of_nat (Z.to_nat insnsSize)))) as H'. rewrite length_seqZ in H'. lia. }
  rewrite populate_overflows; [done|destruct (_ <? _); auto|lia|intros; apply Ht; lia| |].
  - intros E0. apply (not_elem_of_nil (i, line_bits registerLines n i)). rewrite <- E0.
    apply gc_entries_spec. cbn [fst snd]. split; [lia|done].
  - rewrite length_replicate. assert (0 <= (if insnsSize <? 256 then (kRegMapFormatCompact8, 1) else (kRegMapFormatCompact16, 2)).2) by (destruct (_ <? _); done).
    rewrite Z2Nat.id; lia.
Qed.
