(* ===== verification/HeapBitmap.v ===== *)
(** * Heap bitmaps: [dalvik/vm/alloc/HeapBitmap.cpp], [HeapBitmap.h] and [HeapBitmapInlines.h]

    A bit per eight bytes of heap, packed backwards into words so that a scan for leading
    zeros finds objects in the order of their addresses. A bitmap stands for a set of
    addresses; the walks over it are folds over that set. *)

From stdpp Require Import gmap sorting.
From S2P Require Import Prelude Bits Search RegTypes.

(** ** Layout *)

Definition HB_OBJECT_ALIGNMENT : Z := 8.
Definition HB_BITS_PER_WORD : Z := 32.

Definition HB_OFFSET_TO_INDEX (offset : Z) : Z := offset / HB_OBJECT_ALIGNMENT / HB_BITS_PER_WORD.
Definition HB_INDEX_TO_OFFSET (index : Z) : Z := u32 (index * HB_OBJECT_ALIGNMENT * HB_BITS_PER_WORD).
Definition HB_OFFSET_TO_MASK (offset : Z) : Z := Z.shiftl 1 (31 - offset / HB_OBJECT_ALIGNMENT mod HB_BITS_PER_WORD).

Definition CLZ (x : Z) : Z := 31 - Z.log2 x.

(** [bitsLen] is four times the number of [bits]. *)
Record HeapBitmap := MkBitmap { bits : list Z; allocLen : Z; base : Z; max : Z }.

Definition words (hb : HeapBitmap) : Z := Z.of_nat (length (bits hb)).

Definition dvmHeapBitmapInit (base maxSize : Z) : HeapBitmap :=
  MkBitmap (replicate (Z.to_nat (HB_OFFSET_TO_INDEX maxSize)) 0) (HB_OFFSET_TO_INDEX maxSize * 4) base (u32 (base - 1)).

Definition dvmHeapBitmapZero (hb : HeapBitmap) : HeapBitmap :=
  MkBitmap (map (fun _ => 0) (bits hb)) (allocLen hb) (base hb) (u32 (base hb - 1)).

Definition dvmHeapBitmapCoversAddress (hb : HeapBitmap) (obj : Z) : bool :=
  if negb (obj =? 0) then HB_OFFSET_TO_INDEX (u32 (obj - base hb)) <? words hb else false.

Section Bitmaps.
Context (NDEBUG : bool).

(** The old bit, if asked for, and the bitmap. *)
Definition heapBitmapModifyObjectBit (hb : HeapBitmap) (obj : Z) (setBit returnOld : bool) : option (Z * HeapBitmap) :=
  let offset := u32 (obj - base hb) in
  let index := HB_OFFSET_TO_INDEX offset in
  let mask := HB_OFFSET_TO_MASK offset in
  asserted NDEBUG (obj >=? base hb) (asserted NDEBUG (index <? words hb) (
    word ← aref (bits hb) index;
    if setBit then
      bits' ← aset (bits hb) index (Z.lor word mask);
      Some (if returnOld then Z.land word mask else 0,
            MkBitmap bits' (allocLen hb) (base hb) (if obj >? max hb then obj else max hb))
    else
      bits' ← aset (bits hb) index (Z.ldiff word mask);
      Some (0, MkBitmap bits' (allocLen hb) (base hb) (max hb)))).

Definition dvmHeapBitmapSetAndReturnObjectBit (hb : HeapBitmap) (obj : Z) : option (Z * HeapBitmap) :=
  heapBitmapModifyObjectBit hb obj true true.

Definition dvmHeapBitmapSetObjectBit (hb : HeapBitmap) (obj : Z) : option HeapBitmap :=
  '(_, hb) ← heapBitmapModifyObjectBit hb obj true false; Some hb.

Definition dvmHeapBitmapClearObjectBit (hb : HeapBitmap) (obj : Z) : option HeapBitmap :=
  '(_, hb) ← heapBitmapModifyObjectBit hb obj false false; Some hb.

Definition dvmHeapBitmapIsObjectBitSet (hb : HeapBitmap) (obj : Z) : option Z :=
  asserted NDEBUG (dvmHeapBitmapCoversAddress hb obj) (asserted NDEBUG (obj >=? base hb) (
    if obj <=? max hb then
      let offset := u32 (obj - base hb) in
      word ← aref (bits hb) (HB_OFFSET_TO_INDEX offset);
      Some (Z.land word (HB_OFFSET_TO_MASK offset))
    else Some 0)).

(** ** Walks *)

(** [ptrBase]: the address of the first bit of a word. *)
Definition word_base (hb : HeapBitmap) (i : Z) : Z := u32 (HB_INDEX_TO_OFFSET i + base hb).

Section Walks.
Context {S : Type}.

Definition highBit : Z := Z.shiftl 1 (HB_BITS_PER_WORD - 1).

(** The objects of a word: a bit is cleared in each turn. *)
Fixpoint walk_word (n : nat) (word ptrBase : Z) (callback : Z -> S -> option S) (s : S) : option S :=
  if word =? 0 then Some s
  else match n with
    | O => None
    | Datatypes.S n =>
        let shift := CLZ word in
        s ← callback (u32 (ptrBase + shift * HB_OBJECT_ALIGNMENT)) s;
        walk_word n (Z.ldiff word (Z.shiftr highBit shift)) ptrBase callback s
    end.

Fixpoint walk_loop (n : nat) (i last : Z) (bitmap : HeapBitmap) (callback : Z -> S -> option S) (s : S) : option S :=
  if i <=? last then
    match n with
    | O => None
    | Datatypes.S n =>
        word ← aref (bits bitmap) i;
        s ← walk_word 32 word (word_base bitmap i) callback s;
        walk_loop n (i + 1) last bitmap callback s
    end
  else Some s.

Definition dvmHeapBitmapWalk (bitmap : HeapBitmap) (callback : Z -> S -> option S) (s : S) : option S :=
  walk_loop (Datatypes.S (length (bits bitmap))) 0 (HB_OFFSET_TO_INDEX (u32 (max bitmap - base bitmap))) bitmap callback s.

(** The bitmap is the callback's too: each word is read before its objects are visited,
    the end is computed again after them. *)
Fixpoint scan_loop (n : nat) (i last : Z) (bitmap : S -> HeapBitmap) (callback : Z -> Z -> S -> option S) (s : S) : option S :=
  if i <=? last then
    match n with
    | O => None
    | Datatypes.S n =>
        word ← aref (bits (bitmap s)) i;
        if negb (word =? 0) then
          let finger := u32 (HB_INDEX_TO_OFFSET (i + 1) + base (bitmap s)) in
          s ← walk_word 32 word (word_base (bitmap s) i) (fun obj => callback obj finger) s;
          scan_loop n (i + 1) (HB_OFFSET_TO_INDEX (u32 (max (bitmap s) - base (bitmap s)))) bitmap callback s
        else scan_loop n (i + 1) last bitmap callback s
    end
  else Some s.

Definition dvmHeapBitmapScanWalk (bitmap : S -> HeapBitmap) (callback : Z -> Z -> S -> option S) (s : S) : option S :=
  scan_loop (Datatypes.S (length (bits (bitmap s)))) 0 (HB_OFFSET_TO_INDEX (u32 (max (bitmap s) - base (bitmap s)))) bitmap callback s.

Definition pointerBuf_size : Z := 4 * HB_BITS_PER_WORD.

(** [*pb++ = ptr]. *)
Definition buffer_put (buf : list Z) (ptr : Z) : option (list Z) :=
  if Z.of_nat (length buf) <? pointerBuf_size then Some (buf ++ [ptr]) else None.

Fixpoint sweep_word (n : nat) (garbage ptrBase : Z) (buf : list Z) : option (list Z) :=
  if garbage =? 0 then Some buf
  else match n with
    | O => None
    | Datatypes.S n =>
        let shift := CLZ garbage in
        let garbage := Z.ldiff garbage (Z.shiftr highBit shift) in
        buf ← buffer_put buf (u32 (ptrBase + shift * HB_OBJECT_ALIGNMENT));
        sweep_word n garbage ptrBase buf
    end.

Fixpoint sweep_loop (n : nat) (i last : Z) (liveHb markHb : HeapBitmap) (callback : list Z -> S -> option S)
    (buf : list Z) (s : S) : option (list Z * S) :=
  if i <=? last then
    match n with
    | O => None
    | Datatypes.S n =>
        live ← aref (bits liveHb) i;
        mark ← aref (bits markHb) i;
        let garbage := Z.ldiff live mark in
        if negb (garbage =? 0) then
          buf ← sweep_word 32 garbage (word_base liveHb i) buf;
          if Z.of_nat (length buf) >=? pointerBuf_size - HB_BITS_PER_WORD then
            s ← callback buf s;
            sweep_loop n (i + 1) last liveHb markHb callback [] s
          else sweep_loop n (i + 1) last liveHb markHb callback buf s
        else sweep_loop n (i + 1) last liveHb markHb callback buf s
    end
  else Some (buf, s).

Definition dvmHeapBitmapSweepWalk (liveHb markHb : HeapBitmap) (lo hi : Z) (callback : list Z -> S -> option S) (s : S) : option S :=
  asserted NDEBUG (base liveHb =? base markHb) (asserted NDEBUG (words liveHb =? words markHb) (
  asserted NDEBUG (lo <=? hi) (asserted NDEBUG (lo >=? base liveHb) (asserted NDEBUG (hi <=? max liveHb) (
    if max liveHb <? base liveHb then Some s
    else
      let first := HB_OFFSET_TO_INDEX (u32 (lo - base liveHb)) in
      let last := HB_OFFSET_TO_INDEX (u32 (hi - base liveHb)) in
      '(buf, s) ← sweep_loop (Z.to_nat (last - first + 1)) first last liveHb markHb callback [] s;
      match buf with [] => Some s | _ => callback buf s end))))).

End Walks.
End Bitmaps.

(** ** The set of a bitmap *)

(** The bit of the [k]th eight bytes. *)
Definition bit_of (hb : HeapBitmap) (k : Z) : bool :=
  Z.testbit (nth (Z.to_nat (k / 32)) (bits hb) 0) (31 - k mod 32).

(** The addresses a bitmap has bits for. *)
Definition covered (hb : HeapBitmap) (a : Z) : Prop := base hb <= a < base hb + 256 * words hb /\ (a - base hb) mod 8 = 0.

Definition is_set (hb : HeapBitmap) (a : Z) : bool := bit_of hb ((a - base hb) / 8).

(** [max] is the highest address that was set, or the one below the base. *)
Definition bitmap_ok (hb : HeapBitmap) : Prop :=
  Forall (inU 32) (bits hb) /\ 0 < base hb /\ base hb + 256 * words hb <= 2 ^ 32 /\
  base hb - 1 <= max hb < base hb + 256 * words hb /\ forall a, covered hb a -> is_set hb a = true -> a <= max hb.

Lemma covered_index hb a : bitmap_ok hb -> covered hb a ->
  u32 (a - base hb) = a - base hb /\ HB_OFFSET_TO_INDEX (a - base hb) = (a - base hb) / 8 / 32 /\
  0 <= (a - base hb) / 8 / 32 < words hb /\ 0 <= (a - base hb) / 8 /\ a = base hb + 8 * ((a - base hb) / 8).
Proof.
  intros (_ & Hb & Hfit & _ & _) [Ha Hal]. unfold HB_OFFSET_TO_INDEX, HB_OBJECT_ALIGNMENT, HB_BITS_PER_WORD.
  split; [apply wrapU_id; unfold inU; lia|]. split; [done|].
  assert (H8 : 0 <= (a - base hb) / 8) by (apply Z.div_pos; lia).
  assert (H8' : (a - base hb) / 8 < 32 * words hb) by (apply Z.div_lt_upper_bound; lia).
  split; [split; [apply Z.div_pos; lia|apply Z.div_lt_upper_bound; lia]|]. split; [done|].
  pose proof (Z_div_mod_eq_full (a - base hb) 8). lia.
Qed.

Definition word_of (hb : HeapBitmap) (i : Z) : Z := nth (Z.to_nat i) (bits hb) 0.

Lemma word_at hb i : 0 <= i < words hb -> aref (bits hb) i = Some (word_of hb i).
Proof.
  intros Hi. unfold words in Hi. rewrite aref_nat by lia.
  destruct (lookup_lt_is_Some_2 (bits hb) (Z.to_nat i) ltac:(lia)) as [w E]. rewrite E. f_equal. symmetry. by apply nth_lookup_Some.
Qed.

Lemma word_inU hb i : bitmap_ok hb -> inU 32 (word_of hb i).
Proof.
  intros (Hw & _). unfold word_of. rewrite nth_lookup. destruct (bits hb !! Z.to_nat i) as [w|] eqn:E; [by apply (Forall_lookup_1 _ _ _ _ Hw E)|].
  unfold inU. cbn. lia.
Qed.

Lemma land_single_bit w j : 0 <= j -> Z.land w (Z.shiftl 1 j) = if Z.testbit w j then Z.shiftl 1 j else 0.
Proof.
  intros Hj. apply Z.bits_inj'. intros i Hi. rewrite Z.land_spec.
  assert (E : forall i, 0 <= i -> Z.testbit (Z.shiftl 1 j) i = (i =? j)).
  { intros k Hk. rewrite Z.shiftl_spec by done. destruct (Z.eqb_spec k j) as [->|]; [by rewrite Z.sub_diag|].
    destruct (Z.lt_ge_cases k j); [by rewrite Z.testbit_neg_r by lia|]. apply Z.bits_above_log2; cbn; lia. }
  destruct (Z.testbit w j) eqn:Hw; [|rewrite Z.bits_0]; rewrite E by done; destruct (Z.eqb_spec i j) as [->|];
    rewrite ?Hw, ?andb_false_r, ?andb_true_r; done.
Qed.

Lemma bit_pos k : 0 <= 31 - k mod 32 < 32.
Proof. pose proof (Z.mod_pos_bound k 32 ltac:(lia)). lia. Qed.

Lemma mask_nonzero w k : negb (Z.land w (HB_OFFSET_TO_MASK (8 * k)) =? 0) = Z.testbit w (31 - k mod 32).
Proof.
  unfold HB_OFFSET_TO_MASK, HB_OBJECT_ALIGNMENT, HB_BITS_PER_WORD. rewrite (Z.mul_comm 8), Z.div_mul by lia.
  pose proof (bit_pos k). rewrite land_single_bit by lia. destruct (Z.testbit w _); [|done].
  destruct (Z.eqb_spec (Z.shiftl 1 (31 - k mod 32)) 0) as [E|]; [|done].
  apply Z.shiftl_eq_0_iff in E; lia.
Qed.

Lemma IsObjectBitSet_spec NDEBUG hb a : bitmap_ok hb -> covered hb a -> a <> 0 ->
  exists old, dvmHeapBitmapIsObjectBitSet NDEBUG hb a = Some old /\ negb (old =? 0) = is_set hb a.
Proof.
  intros Hok Hc Hz. destruct (covered_index hb a Hok Hc) as (Eu & Ei & Hi & Hk & Ea). pose proof Hok as (_ & _ & _ & _ & Hmax).
  unfold dvmHeapBitmapIsObjectBitSet, dvmHeapBitmapCoversAddress, asserted.
  rewrite (proj2 (Z.eqb_neq a 0)) by done. cbn [negb]. cbv zeta. rewrite Eu, Ei, (proj2 (Z.ltb_lt _ _)) by lia.
  destruct Hc as [Hc Hal]. rewrite (proj2 (Z.geb_le _ _)) by lia. rewrite !orb_true_r.
  destruct (Z.leb_spec a (max hb)) as [Hle|Hgt].
  - rewrite word_at by done. cbn [mbind option_bind]. eexists. split; [reflexivity|].
    replace (a - base hb) with (8 * ((a - base hb) / 8)) at 2 by lia. by rewrite mask_nonzero.
  - exists 0. split; [done|]. destruct (is_set hb a) eqn:E; [|done]. specialize (Hmax a ltac:(done) E). lia.
Qed.

Lemma mask_bit k k' : k / 32 = k' / 32 ->
  Z.testbit (HB_OFFSET_TO_MASK (8 * k)) (31 - k' mod 32) = (k' =? k).
Proof.
  intros Hq. unfold HB_OFFSET_TO_MASK, HB_OBJECT_ALIGNMENT, HB_BITS_PER_WORD. rewrite (Z.mul_comm 8), Z.div_mul by lia.
  pose proof (bit_pos k). pose proof (bit_pos k'). pose proof (Z_div_mod_eq_full k 32). pose proof (Z_div_mod_eq_full k' 32).
  rewrite Z.shiftl_spec by lia. destruct (Z.eqb_spec k' k) as [->|Hne]; [by rewrite Z.sub_diag|].
  destruct (Z.lt_ge_cases (31 - k' mod 32) (31 - k mod 32)); [by rewrite Z.testbit_neg_r by lia|].
  apply Z.bits_above_log2; [lia|]. change (Z.log2 1) with 0. lia.
Qed.

Lemma mask_inU k : inU 32 (HB_OFFSET_TO_MASK (8 * k)).
Proof.
  unfold HB_OFFSET_TO_MASK, HB_OBJECT_ALIGNMENT, HB_BITS_PER_WORD. rewrite (Z.mul_comm 8), Z.div_mul by lia.
  pose proof (bit_pos k). rewrite Z.shiftl_1_l. unfold inU. split; [apply Z.pow_nonneg; lia|apply Z.pow_lt_mono_r; lia].
Qed.

Lemma lor_inU a b : inU 32 a -> inU 32 b -> inU 32 (Z.lor a b).
Proof.
  unfold inU. intros Ha Hb. split; [apply Z.lor_nonneg; lia|].
  destruct (Z.eq_dec (Z.lor a b) 0) as [->|]; [lia|]. pose proof (proj2 (Z.lor_nonneg a b) ltac:(lia)).
  apply Z.log2_lt_pow2; [lia|]. rewrite Z.log2_lor by lia.
  apply Z.max_lub_lt; [destruct (Z.eq_dec a 0) as [->|]|destruct (Z.eq_dec b 0) as [->|]]; try done; apply Z.log2_lt_pow2; lia.
Qed.

Lemma ldiff_inU a b : inU 32 a -> 0 <= b -> inU 32 (Z.ldiff a b).
Proof.
  unfold inU. intros Ha Hb. split; [apply Z.ldiff_nonneg; lia|]. 
  assert (E : Z.ldiff a b + Z.land a b = a).
  { rewrite Z.add_nocarry_lxor; [rewrite Z.lxor_lor|].
    - apply Z.lor_ldiff_and.
    - apply Z.bits_inj'. intros i Hi. rewrite !Z.land_spec, Z.ldiff_spec, Z.bits_0. by destruct (Z.testbit a i), (Z.testbit b i).
    - apply Z.bits_inj'. intros i Hi. rewrite !Z.land_spec, Z.ldiff_spec, Z.bits_0. by destruct (Z.testbit a i), (Z.testbit b i). }
  pose proof (proj2 (Z.land_nonneg a b) ltac:(lia)). lia.
Qed.

Lemma covered_inj hb a b : covered hb a -> covered hb b -> (a - base hb) / 8 = (b - base hb) / 8 -> a = b.
Proof.
  intros [_ Ha] [_ Hb] E. pose proof (Z_div_mod_eq_full (a - base hb) 8). pose proof (Z_div_mod_eq_full (b - base hb) 8). lia.
Qed.

Lemma bit_of_update hb bits' i w k m mx : aset (bits hb) i w = Some bits' -> 0 <= k ->
  bit_of (MkBitmap bits' m (base hb) mx) k = if decide (k / 32 = i) then Z.testbit w (31 - k mod 32) else bit_of hb k.
Proof.
  intros E Hk. unfold bit_of. cbn [bits]. apply aset_Some in E as [Hi ->]. rewrite !nth_lookup.
  assert (Hk32 : 0 <= k / 32) by (apply Z.div_pos; lia).
  destruct (decide (k / 32 = i)) as [<-|Hne].
  - rewrite list_lookup_insert_eq by lia. done.
  - rewrite list_lookup_insert_ne by lia. done.
Qed.

(** Setting a bit: the old one comes back if asked for, and only that address is added. *)
Lemma set_bit_spec NDEBUG hb a returnOld : bitmap_ok hb -> covered hb a ->
  exists old hb', heapBitmapModifyObjectBit NDEBUG hb a true returnOld = Some (old, hb') /\
    (returnOld = true -> negb (old =? 0) = is_set hb a) /\ bitmap_ok hb' /\ base hb' = base hb /\ words hb' = words hb /\
    max hb' = Z.max (max hb) a /\ forall b, covered hb b -> is_set hb' b = (b =? a) || is_set hb b.
Proof.
  intros Hok Hc. destruct (covered_index hb a Hok Hc) as (Eu & Ei & Hi & Hk & Ea). remember ((a - base hb) / 8) as k.
  unfold heapBitmapModifyObjectBit, asserted. rewrite Eu, Ei. rewrite (proj2 (Z.geb_le a _)), (proj2 (Z.ltb_lt (k / 32) _)) by (destruct Hc; lia).
  rewrite !orb_true_r. rewrite word_at by done. cbn [mbind option_bind]. cbv zeta.
  rewrite aset_in by (unfold words in Hi; lia). cbn [mbind option_bind]. eexists _, _. split; [reflexivity|].
  replace (a - base hb) with (8 * k) by lia. remember (word_of hb (k / 32)) as w.
  split; [intros ->; rewrite mask_nonzero; unfold is_set, bit_of; fold (word_of hb ((a - base hb) / 8 / 32)); by rewrite <- Heqk, <- Heqw|].
  remember (if a >? max hb then a else max hb) as mx. assert (Emx : mx = Z.max (max hb) a) by (rewrite Heqmx; destruct (Z.gtb_spec a (max hb)); lia).
  assert (Hset : forall b, covered hb b ->
    is_set (MkBitmap (<[Z.to_nat (k / 32):=Z.lor w (HB_OFFSET_TO_MASK (8 * k))]> (bits hb)) (allocLen hb) (base hb) mx) b = (b =? a) || is_set hb b).
  { intros b Hb. destruct (covered_index hb b Hok Hb) as (_ & _ & _ & Hkb & Eb). unfold is_set. cbn [base].
    rewrite (bit_of_update hb _ (k / 32) (Z.lor w (HB_OFFSET_TO_MASK (8 * k)))); [|apply aset_in; unfold words in Hi; lia|done].
    remember ((b - base hb) / 8) as k'. assert (Eab : (b =? a) = (k' =? k)) by lia. rewrite Eab.
    destruct (decide (k' / 32 = k / 32)) as [Eq|Hne].
    - rewrite Z.lor_spec, mask_bit by done. rewrite orb_comm. f_equal. unfold bit_of. fold (word_of hb (k' / 32)). by rewrite Eq, Heqw.
    - destruct (Z.eqb_spec k' k) as [->|]; done. }
  pose proof Hok as (Hw & Hb & Hfit & Hmx & Hmax). unfold words in *. cbn [bits base max]. rewrite length_insert.
  split; [|split; [done|]; split; [done|]; split; [done|]; exact Hset].
  split; [apply Forall_insert; [done|apply lor_inU; [subst w; by apply word_inU|apply mask_inU]]|].
  unfold words. cbn [bits base max]. rewrite length_insert. split; [done|]. split; [done|]. split; [rewrite Emx; unfold covered, words in Hc; lia|].
  intros b Hcb. assert (Hcb' : covered hb b) by (unfold covered, words in Hcb |- *; cbn [bits base] in Hcb; by rewrite length_insert in Hcb).
  rewrite Hset by done. intros [->%Z.eqb_eq|Hs]%orb_prop; [lia|]. specialize (Hmax b Hcb' Hs). lia.
Qed.

(** ** Walks over words *)

Fixpoint visit {A S} (f : A -> S -> option S) (l : list A) (s : S) : option S :=
  match l with
  | [] => Some s
  | a :: l => s ← f a s; visit f l s
  end.

Lemma visit_app {A S} (f : A -> S -> option S) l1 l2 s : visit f (l1 ++ l2) s = s ← visit f l1 s; visit f l2 s.
Proof.
  revert s. induction l1 as [|a l1 IH]; intros s; cbn [app visit]; [done|].
  destruct (f a s); cbn [mbind option_bind]; [apply IH|done].
Qed.

(** The positions of set bits from the high end, from [j] on. *)
Definition positions (word j : Z) (n : nat) : list Z := List.filter (fun j => Z.testbit word (31 - j)) (seqZ j (Z.of_nat n)).

Definition word_objs (word ptrBase : Z) : list Z :=
  map (fun j => u32 (ptrBase + j * HB_OBJECT_ALIGNMENT)) (positions word 0 32).

Lemma positions_S word j n : positions word j (S n) = (if Z.testbit word (31 - j) then [j] else []) ++ positions word (j + 1) n.
Proof.
  unfold positions. rewrite seqZ_cons by lia. replace (Z.succ j) with (j + 1) by lia.
  replace (Z.pred (Z.of_nat (S n))) with (Z.of_nat n) by lia. cbn [List.filter]. by destruct (Z.testbit _ _).
Qed.

Lemma positions_ext w1 w2 j n : (forall i, j <= i < j + Z.of_nat n -> Z.testbit w1 (31 - i) = Z.testbit w2 (31 - i)) ->
  positions w1 j n = positions w2 j n.
Proof.
  revert j. induction n as [|n IH]; intros j H; [done|]. rewrite !positions_S, H, IH by (intros; try apply H; lia). done.
Qed.

Lemma positions_zero j n : positions 0 j n = [].
Proof. revert j. induction n as [|n IH]; intros j; [done|]. by rewrite positions_S, Z.bits_0, IH. Qed.

(** One turn: the first set bit, and the rest of the word. *)
Lemma first_position word j n : 0 <= j -> j + Z.of_nat n = 32 -> 0 < word < 2 ^ (Z.of_nat n) ->
  let word' := Z.ldiff word (Z.shiftr highBit (CLZ word)) in
  exists n', (n' < n)%nat /\ 0 <= word' < 2 ^ Z.of_nat n' /\ CLZ word = 31 - Z.of_nat n' /\
    positions word j n = CLZ word :: positions word' (32 - Z.of_nat n') n'.
Proof.
  intros Hj Hn Hw word'. unfold CLZ in *. assert (Hl : 0 <= Z.log2 word < Z.of_nat n).
  { split; [apply Z.log2_nonneg|]. apply Z.log2_lt_pow2; lia. }
  exists (Z.to_nat (Z.log2 word)). rewrite Z2Nat.id by lia.
  assert (Hmask : Z.shiftr highBit (31 - Z.log2 word) = 2 ^ Z.log2 word).
  { unfold highBit, HB_BITS_PER_WORD. rewrite Z.shiftl_1_l, Z.shiftr_div_pow2 by lia. change (32 - 1) with 31.
    replace 31 with ((31 - Z.log2 word) + Z.log2 word) at 1 by lia. rewrite Z.pow_add_r by lia. rewrite Z.mul_comm, Z.div_mul; [done|].
    pose proof (Z.pow_pos_nonneg 2 (31 - Z.log2 word)). lia. }
  assert (Hbit : forall i, 0 <= i -> Z.testbit word' i = Z.testbit word i && negb (i =? Z.log2 word)).
  { intros i Hi. unfold word'. rewrite Hmask, Z.ldiff_spec, Z.pow2_bits_eqb by lia. f_equal. f_equal. lia. }
  split; [lia|]. split.
  { assert (Hn0 : 0 <= word') by (unfold word'; apply Z.ldiff_nonneg; lia). split; [done|].
    destruct (Z.eq_dec word' 0) as [->|Hne]; [apply Z.pow_pos_nonneg; lia|]. apply Z.log2_lt_pow2; [lia|].
    assert (Hb : Z.testbit word' (Z.log2 word') = true) by (apply Z.bit_log2; lia).
    rewrite Hbit in Hb by apply Z.log2_nonneg. apply andb_prop in Hb as [Hb Hne'].
    destruct (Z.lt_ge_cases (Z.log2 word') (Z.log2 word)) as [|Hge]; [done|].
    destruct (Z.eq_dec (Z.log2 word') (Z.log2 word)) as [E|]; [rewrite E, Z.eqb_refl in Hne'; done|].
    rewrite Z.bits_above_log2 in Hb by lia. done. }
  split; [lia|].
  assert (Hpos : forall m j, 0 <= j -> j + Z.of_nat m = 32 -> Z.log2 word < Z.of_nat m ->
    positions word j m = (31 - Z.log2 word) :: positions word' (32 - Z.log2 word) (Z.to_nat (Z.log2 word))).
  { assert (Hw0 : 0 < word) by lia. clear j n Hj Hn Hw Hl. intros m. pose proof (Z.log2_nonneg word). induction m as [|m IH]; intros j Hj Hm Hl; [lia|]. rewrite positions_S.
    destruct (Z.eq_dec j (31 - Z.log2 word)) as [->|Hne].
    - replace (31 - (31 - Z.log2 word)) with (Z.log2 word) by lia.
      rewrite Z.bit_log2 by lia. cbn [app]. f_equal.
      replace (31 - Z.log2 word + 1) with (32 - Z.log2 word) by lia. replace m with (Z.to_nat (Z.log2 word)) by lia.
      apply positions_ext. intros i Hi. rewrite Hbit by lia. rewrite (proj2 (Z.eqb_neq _ _)) by lia. by rewrite andb_true_r.
    - rewrite Z.bits_above_log2 by lia. apply IH; lia. }
  replace (32 - Z.of_nat (Z.to_nat (Z.log2 word))) with (32 - Z.log2 word) by lia. apply Hpos; lia.
Qed.

Lemma walk_word_from {S} ptrBase (callback : Z -> S -> option S) fuel : forall n word s, (n <= fuel <= 32)%nat ->
  0 <= word < 2 ^ Z.of_nat n ->
  walk_word fuel word ptrBase callback s =
  visit callback (map (fun j => u32 (ptrBase + j * HB_OBJECT_ALIGNMENT)) (positions word (32 - Z.of_nat n) n)) s.
Proof.
  induction fuel as [|fuel IH]; intros n word s Hn Hw; cbn [walk_word]; destruct (Z.eqb_spec word 0) as [->|Hne];
    try by rewrite positions_zero.
  - assert (n = 0%nat) as -> by lia. cbn in Hw. lia.
  - destruct (first_position word (32 - Z.of_nat n) n ltac:(lia) ltac:(lia) ltac:(lia)) as (n' & Hn' & Hw' & Eclz & E).
    cbv zeta. rewrite E. cbn [map visit]. destruct (callback _ s) as [s'|]; cbn [mbind option_bind]; [|done].
    apply IH; [lia|done].
Qed.

(** The walk over a word visits its objects, in the order of their addresses. *)
Lemma walk_word_visit {S} word ptrBase (callback : Z -> S -> option S) s : inU 32 word ->
  walk_word 32 word ptrBase callback s = visit callback (word_objs word ptrBase) s.
Proof. intros Hw. by apply (walk_word_from ptrBase callback 32 32 word s). Qed.

Lemma sweep_word_from ptrBase fuel : forall n garbage buf, (n <= fuel <= 32)%nat -> 0 <= garbage < 2 ^ Z.of_nat n ->
  Z.of_nat (length buf) + Z.of_nat n <= pointerBuf_size ->
  sweep_word fuel garbage ptrBase buf =
  Some (buf ++ map (fun j => u32 (ptrBase + j * HB_OBJECT_ALIGNMENT)) (positions garbage (32 - Z.of_nat n) n)).
Proof.
  induction fuel as [|fuel IH]; intros n word buf Hn Hw Hbuf; cbn [sweep_word]; destruct (Z.eqb_spec word 0) as [->|Hne];
    try by rewrite positions_zero, app_nil_r.
  - assert (n = 0%nat) as -> by lia. cbn in Hw. lia.
  - destruct (first_position word (32 - Z.of_nat n) n ltac:(lia) ltac:(lia) ltac:(lia)) as (n' & Hn' & Hw' & Eclz & E).
    cbv zeta. unfold buffer_put. rewrite (proj2 (Z.ltb_lt _ _)) by lia. cbn [mbind option_bind].
    rewrite IH with (n := n') by (done || lia || (rewrite length_app; cbn [length]; lia)). rewrite E. cbn [map]. by rewrite <- app_assoc.
Qed.

Lemma word_objs_length word ptrBase : (length (word_objs word ptrBase) <= 32)%nat.
Proof.
  unfold word_objs. rewrite length_map. unfold positions. etransitivity; [apply filter_length_le|]. by rewrite length_seqZ.
Qed.

Lemma word_base_eq hb i : bitmap_ok hb -> 0 <= i < words hb -> word_base hb i = base hb + 256 * i.
Proof.
  intros (_ & Hb & Hfit & _) Hi. unfold word_base, HB_INDEX_TO_OFFSET, HB_OBJECT_ALIGNMENT, HB_BITS_PER_WORD.
  rewrite (wrapU_id 32 (i * 8 * 32)) by (unfold inU; lia). rewrite wrapU_id by (unfold inU; lia). lia.
Qed.

Lemma in_word_objs hb i word a : bitmap_ok hb -> 0 <= i < words hb ->
  a ∈ word_objs word (word_base hb i) <->
  covered hb a /\ (a - base hb) / 8 / 32 = i /\ Z.testbit word (31 - (a - base hb) / 8 mod 32) = true.
Proof.
  intros Hok Hi. rewrite word_base_eq by done. pose proof Hok as (_ & Hb & Hfit & _). unfold word_objs, positions, HB_OBJECT_ALIGNMENT.
  rewrite list_elem_of_In, in_map_iff.
  assert (Hj : forall j, 0 <= j < 32 -> let a := u32 (base hb + 256 * i + j * 8) in a = base hb + 8 * (32 * i + j) /\
    (a - base hb) / 8 = 32 * i + j /\ (32 * i + j) / 32 = i /\ (32 * i + j) mod 32 = j).
  { intros j Hj. cbv zeta. rewrite wrapU_id by (unfold inU; lia). replace (base hb + 256 * i + j * 8) with (base hb + 8 * (32 * i + j)) by lia.
    replace (base hb + 8 * (32 * i + j) - base hb) with ((32 * i + j) * 8) by lia. rewrite Z.div_mul by lia.
    split; [done|]. split; [done|]. replace (32 * i + j) with (j + i * 32) by lia.
    rewrite Z.div_add, Z_mod_plus_full, Z.div_small, Z.mod_small by lia. split; lia. }
  split.
  - intros (j & Ea & [Hin Hbit]%filter_In). apply list_elem_of_In, elem_of_seqZ in Hin.
    destruct (Hj j ltac:(lia)) as (E1 & E2 & E3 & E4). rewrite Ea in E1, E2. rewrite E2, E3, E4. split; [|done].
    unfold covered. rewrite E1. split; [lia|]. replace (base hb + 8 * (32 * i + j) - base hb) with ((32 * i + j) * 8) by lia.
    apply Z.mod_mul. lia.
  - intros (Hc & Ei & Hbit). destruct (covered_index hb a Hok Hc) as (_ & _ & _ & Hk & Ea).
    remember ((a - base hb) / 8) as k. pose proof (Z_div_mod_eq_full k 32). pose proof (Z.mod_pos_bound k 32 ltac:(lia)).
    exists (k mod 32). destruct (Hj (k mod 32) ltac:(lia)) as (E1 & _). split; [rewrite E1; lia|]. apply filter_In.
    split; [apply list_elem_of_In, elem_of_seqZ; lia|done].
Qed.

(** The objects of some words, in order. *)
Definition objs_from (hb : HeapBitmap) (f : Z -> Z) (i : Z) (n : nat) : list Z :=
  concat (map (fun i => word_objs (f i) (word_base hb i)) (seqZ i (Z.of_nat n))).

Lemma objs_from_S hb f i n : objs_from hb f i (S n) = word_objs (f i) (word_base hb i) ++ objs_from hb f (i + 1) n.
Proof.
  unfold objs_from. rewrite seqZ_cons by lia. replace (Z.succ i) with (i + 1) by lia. by replace (Z.pred (Z.of_nat (S n))) with (Z.of_nat n) by lia.
Qed.

Lemma in_objs_from hb f a n : bitmap_ok hb -> forall i, 0 <= i -> i + Z.of_nat n <= words hb ->
  a ∈ objs_from hb f i n <-> covered hb a /\ i <= (a - base hb) / 8 / 32 < i + Z.of_nat n /\
    Z.testbit (f ((a - base hb) / 8 / 32)) (31 - (a - base hb) / 8 mod 32) = true.
Proof.
  intros Hok. induction n as [|n IH]; intros i Hi Hn.
  - unfold objs_from. cbn. split; [by intros ?%not_elem_of_nil|]. lia.
  - rewrite objs_from_S, elem_of_app, IH, in_word_objs by (done || lia). split.
    + intros [(Hc & Ei & Hb)|(Hc & Ei & Hb)]; (split; [done|]); [rewrite Ei|]; (split; [lia|done]).
    + intros (Hc & Ei & Hb). destruct (Z.eq_dec ((a - base hb) / 8 / 32) i) as [E|Hne]; [left|right];
        (split; [done|]); [rewrite E in Hb; done|split; [lia|done]].
Qed.

Lemma word_objs_sorted word p j n : 0 <= p -> 0 <= j -> p + 8 * (j + Z.of_nat n) <= 2 ^ 32 ->
  StronglySorted Z.lt (map (fun j => u32 (p + j * HB_OBJECT_ALIGNMENT)) (positions word j n)).
Proof.
  revert j. induction n as [|n IH]; intros j Hp Hj Hfit; [constructor|]. rewrite positions_S.
  destruct (Z.testbit _ _); cbn [app]; [|apply IH; lia]. constructor; [apply IH; lia|].
  apply Forall_forall. intros b Hb. apply list_elem_of_In, in_map_iff in Hb as (k & <- & [Hk _]%filter_In).
  apply list_elem_of_In, elem_of_seqZ in Hk. unfold HB_OBJECT_ALIGNMENT. rewrite !wrapU_id by (unfold inU; lia). lia.
Qed.

Lemma objs_from_sorted hb f n : bitmap_ok hb -> forall i, 0 <= i -> i + Z.of_nat n <= words hb -> StronglySorted Z.lt (objs_from hb f i n).
Proof.
  intros Hok. pose proof Hok as (_ & Hb & Hfit & _). induction n as [|n IH]; intros i Hi Hn; [constructor|]. rewrite objs_from_S.
  apply StronglySorted_app_2.
  - intros a c Ha Hc. apply in_word_objs in Ha as (Ha & Ea & _); [|done|lia]. apply in_objs_from in Hc as (Hc & Ec & _); [|done|lia|lia].
    destruct (covered_index hb a Hok Ha) as (_ & _ & _ & _ & Pa). destruct (covered_index hb c Hok Hc) as (_ & _ & _ & _ & Pc).
    pose proof (Z_div_mod_eq_full ((a - base hb) / 8) 32). pose proof (Z_div_mod_eq_full ((c - base hb) / 8) 32).
    pose proof (Z.mod_pos_bound ((a - base hb) / 8) 32). pose proof (Z.mod_pos_bound ((c - base hb) / 8) 32). lia.
  - rewrite word_base_eq by (done || lia). apply word_objs_sorted; lia.
  - apply IH; lia.
Qed.

(** The equations of the loop and of the binds: evaluation would unfold the 32 turns. *)
Lemma bind_some {A B} (f : A -> option B) a : (Some a ≫= f) = f a.
Proof. reflexivity. Qed.

Lemma bind_none {A B} (f : A -> option B) : (None ≫= f) = None.
Proof. reflexivity. Qed.

Lemma walk_loop_S {S} n i last hb (callback : Z -> S -> option S) s :
  walk_loop (Datatypes.S n) i last hb callback s =
  if i <=? last then
    word ← aref (bits hb) i; s ← walk_word 32 word (word_base hb i) callback s; walk_loop n (i + 1) last hb callback s
  else Some s.
Proof. reflexivity. Qed.

Lemma walk_loop_end {S} n i last hb (callback : Z -> S -> option S) s : last < i -> walk_loop n i last hb callback s = Some s.
Proof. intros H. destruct n; [cbn [walk_loop]|rewrite walk_loop_S]; by rewrite (proj2 (Z.leb_gt _ _)) by lia. Qed.

Lemma walk_loop_visit {S} hb (callback : Z -> S -> option S) last n : bitmap_ok hb -> last < words hb -> forall fuel i s,
  0 <= i -> Z.of_nat n = last - i + 1 -> (n <= fuel)%nat ->
  walk_loop fuel i last hb callback s = visit callback (objs_from hb (word_of hb) i n) s.
Proof.
  intros Hok Hlast. induction n as [|n IH]; intros fuel i s Hi Hn Hf; [by rewrite walk_loop_end by lia|].
  destruct fuel as [|fuel]; [lia|]. rewrite walk_loop_S, (proj2 (Z.leb_le _ _)) by lia.
  rewrite word_at, bind_some, walk_word_visit by (by apply word_inU) || lia. rewrite objs_from_S, visit_app.
  destruct (visit callback (word_objs (word_of hb i) (word_base hb i)) s) as [s'|]; [|reflexivity].
  rewrite !bind_some. apply IH; lia.
Qed.

(** Everything that is set, in order, is what a walk up to [max] visits. *)
Definition last_index (hb : HeapBitmap) : Z := HB_OFFSET_TO_INDEX (u32 (max hb - base hb)).

Lemma last_index_eq hb : bitmap_ok hb -> base hb <= max hb -> last_index hb = (max hb - base hb) / 8 / 32 /\ 0 <= last_index hb < words hb.
Proof.
  intros (_ & Hb & Hfit & Hm & _) Hle. unfold last_index, HB_OFFSET_TO_INDEX, HB_OBJECT_ALIGNMENT, HB_BITS_PER_WORD.
  rewrite wrapU_id by (unfold inU; lia). split; [done|]. rewrite Z.div_div by lia.
  split; [apply Z.div_pos; lia|apply Z.div_lt_upper_bound; lia].
Qed.

Lemma set_below_max hb a : bitmap_ok hb -> covered hb a -> is_set hb a = true -> base hb <= max hb ->
  (a - base hb) / 8 / 32 <= last_index hb.
Proof.
  intros Hok Hc Hs Hle. pose proof Hok as (_ & _ & _ & _ & Hmax). destruct (last_index_eq hb Hok Hle) as [-> _].
  specialize (Hmax a Hc Hs). apply Z.div_le_mono; [lia|]. apply Z.div_le_mono; lia.
Qed.

(** ** The sweep *)

Definition garbage (liveHb markHb : HeapBitmap) (i : Z) : Z := Z.ldiff (word_of liveHb i) (word_of markHb i).

Lemma sweep_loop_S {S} n i last live mark (callback : list Z -> S -> option S) buf s :
  sweep_loop (Datatypes.S n) i last live mark callback buf s =
  if i <=? last then
    lw ← aref (bits live) i; mw ← aref (bits mark) i;
    if negb (Z.ldiff lw mw =? 0) then
      buf ← sweep_word 32 (Z.ldiff lw mw) (word_base live i) buf;
      if Z.of_nat (length buf) >=? pointerBuf_size - HB_BITS_PER_WORD
      then s ← callback buf s; sweep_loop n (i + 1) last live mark callback [] s
      else sweep_loop n (i + 1) last live mark callback buf s
    else sweep_loop n (i + 1) last live mark callback buf s
  else Some (buf, s).
Proof. reflexivity. Qed.

Lemma sweep_word_objs g p buf : inU 32 g -> (length buf < 96)%nat -> sweep_word 32 g p buf = Some (buf ++ word_objs g p).
Proof. intros Hg Hb. apply (sweep_word_from p 32 32 g buf); [lia|exact Hg|]. change pointerBuf_size with 128. lia. Qed.

Lemma word_objs_zero p : word_objs 0 p = [].
Proof. unfold word_objs. by rewrite positions_zero. Qed.

Lemma word_objs_some g p : inU 32 g -> g <> 0 -> word_objs g p <> [].
Proof.
  intros Hg Hne. unfold inU in Hg. destruct (first_position g 0 32 ltac:(lia) ltac:(lia) ltac:(lia)) as (n' & _ & _ & _ & E).
  unfold word_objs. by rewrite E.
Qed.

(** What is passed to the callback at once. *)
Definition chunk_ok (c : list Z) : Prop := (0 < length c <= 128)%nat.

Lemma sweep_loop_chunks {S} live mark (callback : list Z -> S -> option S) last n : bitmap_ok live -> bitmap_ok mark ->
  words mark = words live -> last < words live -> forall i buf s, 0 <= i -> Z.of_nat n = last - i + 1 -> (length buf < 96)%nat ->
  exists chunks buf', buf ++ objs_from live (garbage live mark) i n = concat chunks ++ buf' /\ Forall chunk_ok chunks /\ (length buf' < 96)%nat /\
    sweep_loop n i last live mark callback buf s = s ← visit callback chunks s; Some (buf', s).
Proof.
  intros Hlive Hmark Hw Hlast. induction n as [|n IH]; intros i buf s Hi Hn Hb.
  { exists [], buf. split; [by rewrite app_nil_r|]. split; [constructor|]. split; [done|].
    cbn [sweep_loop]. by rewrite (proj2 (Z.leb_gt _ _)) by lia. }
  rewrite sweep_loop_S, (proj2 (Z.leb_le _ _)) by lia. rewrite !word_at, !bind_some by lia.
  rewrite objs_from_S. change (Z.ldiff (word_of live i) (word_of mark i)) with (garbage live mark i).
  destruct (Z.eqb_spec (garbage live mark i) 0) as [Eg|Eg]; cbn [negb].
  { rewrite Eg, word_objs_zero. apply IH; lia. }
  assert (Hg : inU 32 (garbage live mark i)) by (apply ldiff_inU; [by apply word_inU|]; destruct (word_inU mark i Hmark); lia).
  rewrite sweep_word_objs, bind_some by done. pose proof (word_objs_length (garbage live mark i) (word_base live i)) as Hlen.
  pose proof (word_objs_some _ (word_base live i) Hg Eg) as Hne. remember (word_objs (garbage live mark i) (word_base live i)) as objs.
  rewrite app_assoc. destruct (Z.geb_spec (Z.of_nat (length (buf ++ objs))) (pointerBuf_size - HB_BITS_PER_WORD)) as [Hge|Hlt].
  - change (pointerBuf_size - HB_BITS_PER_WORD) with 96 in Hge. rewrite length_app in Hge. destruct objs as [|o objs]; [done|].
    assert (Hc : chunk_ok (buf ++ o :: objs)) by (unfold chunk_ok; rewrite length_app; cbn [length] in *; lia).
    destruct (callback (buf ++ o :: objs) s) as [s'|] eqn:Ec.
    + destruct (IH (i + 1) [] s' ltac:(lia) ltac:(lia) ltac:(cbn; lia)) as (chunks & buf' & E & Hcs & Hb' & Er).
      exists ((buf ++ o :: objs) :: chunks), buf'. cbn [app concat visit] in *. rewrite E. split; [by rewrite !app_assoc|].
      split; [by constructor|]. split; [done|]. rewrite Ec, !bind_some. exact Er.
    + destruct (IH (i + 1) [] s ltac:(lia) ltac:(lia) ltac:(cbn; lia)) as (chunks & buf' & E & Hcs & Hb' & _).
      exists ((buf ++ o :: objs) :: chunks), buf'. cbn [app concat visit] in *. rewrite E. split; [by rewrite !app_assoc|].
      split; [by constructor|]. split; [done|]. by rewrite Ec.
  - change (pointerBuf_size - HB_BITS_PER_WORD) with 96 in Hlt. apply IH; lia.
Qed.

(** For two bitmaps of the same heap, and a range with at least one object in the live
    one, the walk passes to its callback, in order, the addresses of the words of the range
    that are set in the first and not in the second, each exactly once, in portions of 1
    to 128: the buffer never overflows. *)
Lemma sweep_walk_garbage {S} NDEBUG liveHb markHb lo hi (callback : list Z -> S -> option S) (s : S) :
  bitmap_ok liveHb -> bitmap_ok markHb -> base liveHb = base markHb -> words liveHb = words markHb ->
  base liveHb <= lo <= hi -> hi <= max liveHb ->
  let index a := (a - base liveHb) / 256 in
  exists chunks, dvmHeapBitmapSweepWalk NDEBUG liveHb markHb lo hi callback s = visit callback chunks s /\
    Forall chunk_ok chunks /\ StronglySorted Z.lt (concat chunks) /\
    forall a, a ∈ concat chunks <->
      covered liveHb a /\ index lo <= index a <= index hi /\ is_set liveHb a = true /\ is_set markHb a = false.
Proof.
  intros Hlive Hmark Hbase Hwords Hlo Hhi index. unfold dvmHeapBitmapSweepWalk, asserted.
  rewrite (proj2 (Z.eqb_eq _ _) Hbase), (proj2 (Z.eqb_eq _ _) Hwords), (proj2 (Z.leb_le lo hi)), (proj2 (Z.geb_le lo _)), (proj2 (Z.leb_le hi _)) by lia.
  rewrite !orb_true_r. rewrite (proj2 (Z.ltb_ge _ _)) by lia. pose proof Hlive as (_ & Hb0 & Hfit & Hmx & _).
  assert (Hidx : forall a, base liveHb <= a <= max liveHb -> HB_OFFSET_TO_INDEX (u32 (a - base liveHb)) = index a /\ 0 <= index a < words liveHb).
  { intros a Ha. unfold HB_OFFSET_TO_INDEX, HB_OBJECT_ALIGNMENT, HB_BITS_PER_WORD, index. rewrite wrapU_id by (unfold inU; lia).
    rewrite Z.div_div by lia. split; [done|]. split; [apply Z.div_pos; lia|apply Z.div_lt_upper_bound; lia]. }
  destruct (Hidx lo ltac:(lia)) as [-> Hl], (Hidx hi ltac:(lia)) as [-> Hh].
  assert (Hle : index lo <= index hi) by (apply Z.div_le_mono; lia). cbv zeta.
  destruct (sweep_loop_chunks liveHb markHb callback (index hi) (Z.to_nat (index hi - index lo + 1)) Hlive Hmark ltac:(lia) ltac:(lia)
    (index lo) [] s ltac:(lia) ltac:(lia) ltac:(cbn; lia)) as (chunks & buf & E & Hc & Hbuf & ->). cbn [app] in E.
  exists (chunks ++ match buf with [] => [] | _ => [buf] end).
  assert (Ec : concat (chunks ++ match buf with [] => [] | _ => [buf] end) = concat chunks ++ buf).
  { rewrite concat_app. f_equal. destruct buf; [done|]. cbn. by rewrite app_nil_r. }
  rewrite Ec, <- E. split; [|split; [|split]].
  - rewrite visit_app. destruct (visit callback chunks s) as [s'|]; [|reflexivity]. rewrite !bind_some.
    destruct buf as [|b buf]; [reflexivity|]. cbn [visit]. by destruct (callback (b :: buf) s').
  - apply Forall_app. split; [done|]. destruct buf; constructor; [|done]. unfold chunk_ok. cbn [length] in *. lia.
  - apply objs_from_sorted; [done|lia|lia].
  - intros a. rewrite in_objs_from by (done || lia). unfold index.
    assert (E256 : (a - base liveHb) / 256 = (a - base liveHb) / 8 / 32) by (by rewrite Z.div_div by lia). rewrite E256.
    unfold garbage. rewrite Z.ldiff_spec, andb_true_iff, negb_true_iff. unfold is_set, bit_of, word_of. rewrite <- Hbase.
    split; intros (Hcov & Hr & Hs); (split; [done|]); (split; [lia|]); done.
Qed.
