(* ===== verification/CardTable.v ===== *)
(** * The card table: [dalvik/vm/alloc/CardTable.cpp]

    A byte per 128 bytes of heap. The table is addressed through a biased base: the
    address of a card is the base plus the address shifted, and the low byte of the base
    is the value of a dirty card. *)

From stdpp Require Import gmap.
From S2P Require Import Prelude Bits Search RegTypes HeapBitmap.

Definition GC_CARD_SHIFT : Z := 7.
Definition GC_CARD_SIZE : Z := Z.shiftl 1 GC_CARD_SHIFT.
Definition GC_CARD_CLEAN : Z := 0.
Definition GC_CARD_DIRTY : Z := 0x70.
Definition SYSTEM_PAGE_SIZE : Z := 4096.

(** [cards]: the bytes that were allocated at [cardTableBase]. *)
Record CardTable := MkCards {
  cards : list Z;
  cardTableBase : Z;
  cardTableLength : Z;
  cardTableMaxLength : Z;
  cardTableOffset : Z;
  biasedCardTableBase : Z
}.

(** [allocBase]: what the allocator returned for the length of the table and 256 bytes. *)
Definition dvmCardTableStartup (heapMaximumSize growthLimit heapBase allocBase : Z) : CardTable :=
  let length := heapMaximumSize / GC_CARD_SIZE in
  let bytes := replicate (Z.to_nat (length + 0x100)) GC_CARD_CLEAN in
  let biasedBase := u32 (allocBase - Z.shiftr heapBase GC_CARD_SHIFT) in
  if negb (Z.land biasedBase 0xff =? GC_CARD_DIRTY) then
    let offset := GC_CARD_DIRTY - Z.land biasedBase 0xff in
    let cardTableOffset := offset + (if offset <? 0 then 0x100 else 0) in
    MkCards bytes allocBase (growthLimit / GC_CARD_SIZE) length cardTableOffset (u32 (biasedBase + cardTableOffset))
  else MkCards bytes allocBase (growthLimit / GC_CARD_SIZE) length 0 biasedBase.

Section Cards.
Context (NDEBUG : bool).

Definition dvmIsValidCard (t : CardTable) (cardAddr : Z) : bool :=
  let first := u32 (cardTableBase t + cardTableOffset t) in
  let last := u32 (first + cardTableLength t) in
  (cardAddr >=? first) && (cardAddr <? last).

Definition dvmCardFromAddr (t : CardTable) (addr : Z) : option Z :=
  let cardAddr := u32 (biasedCardTableBase t + Z.shiftr addr GC_CARD_SHIFT) in
  asserted NDEBUG (dvmIsValidCard t cardAddr) (Some cardAddr).

Definition dvmAddrFromCard (t : CardTable) (cardAddr : Z) : option Z :=
  asserted NDEBUG (dvmIsValidCard t cardAddr)
    (Some (u32 (Z.shiftl (u32 (cardAddr - biasedCardTableBase t)) GC_CARD_SHIFT))).

(** The byte of a card. *)
Definition card_at (t : CardTable) (cardAddr : Z) : option Z := aref (cards t) (cardAddr - cardTableBase t).

Definition with_cards (t : CardTable) (bytes : list Z) : CardTable :=
  MkCards bytes (cardTableBase t) (cardTableLength t) (cardTableMaxLength t) (cardTableOffset t) (biasedCardTableBase t).

Definition dvmMarkCard (t : CardTable) (addr : Z) : option CardTable :=
  cardAddr ← dvmCardFromAddr t addr;
  bytes ← aset (cards t) (cardAddr - cardTableBase t) GC_CARD_DIRTY;
  Some (with_cards t bytes).

Definition isObjectDirty (t : CardTable) (obj : Z) : option bool :=
  card ← dvmCardFromAddr t obj; c ← card_at t card; Some (c =? GC_CARD_DIRTY).

Definition ALIGN_UP_TO_PAGE_SIZE (n : Z) : Z := (n + SYSTEM_PAGE_SIZE - 1) / SYSTEM_PAGE_SIZE * SYSTEM_PAGE_SIZE.

Definition dvmClearCardTable (t : CardTable) (liveBits : HeapBitmap) : option CardTable :=
  let maxLiveCard := ALIGN_UP_TO_PAGE_SIZE (u32 (max liveBits - base liveBits) / GC_CARD_SIZE) in
  let maxLiveCard := if maxLiveCard >? cardTableLength t then cardTableLength t else maxLiveCard in
  if maxLiveCard <=? Z.of_nat (length (cards t))
  then Some (with_cards t (replicate (Z.to_nat maxLiveCard) GC_CARD_CLEAN ++ drop (Z.to_nat maxLiveCard) (cards t)))
  else None.

End Cards.

(** ** A table that covers a heap *)

(** The card of an address is a byte of the table at a fixed distance from its start; the
    bytes before the first card are not dirty. *)
Definition covers (t : CardTable) (lo hi : Z) : Prop :=
  0 <= lo /\ 0 <= cardTableOffset t /\ 0 <= cardTableBase t /\
  cardTableBase t + cardTableOffset t + cardTableLength t < 2 ^ 32 /\
  cardTableOffset t + cardTableLength t <= Z.of_nat (length (cards t)) /\
  hi - lo <= 128 * cardTableLength t /\ lo mod 128 = 0 /\ hi <= 2 ^ 32 /\
  u32 (biasedCardTableBase t + lo / 128) = cardTableBase t + cardTableOffset t /\
  forall i, 0 <= i < cardTableOffset t -> card_at t (cardTableBase t + i) <> Some GC_CARD_DIRTY.

(** What marks leave of a table: its place, and the dirty cards. *)
Record cards_grow (t t' : CardTable) : Prop := {
  cg_base : cardTableBase t' = cardTableBase t;
  cg_length : cardTableLength t' = cardTableLength t;
  cg_offset : cardTableOffset t' = cardTableOffset t;
  cg_biased : biasedCardTableBase t' = biasedCardTableBase t;
  cg_bytes : length (cards t') = length (cards t);
  cg_dirty : forall card, card_at t card = Some GC_CARD_DIRTY -> card_at t' card = Some GC_CARD_DIRTY
}.

#[export] Instance cards_grow_preorder : PreOrder cards_grow.
Proof. split; [by constructor|]. intros t1 t2 t3 [] []. constructor; try congruence. eauto. Qed.

(** A byte of the table becomes dirty. *)
Lemma card_at_set t i c : 0 <= i < Z.of_nat (length (cards t)) ->
  card_at (with_cards t (<[Z.to_nat i := GC_CARD_DIRTY]> (cards t))) c = if decide (c = cardTableBase t + i) then Some GC_CARD_DIRTY else card_at t c.
Proof.
  intros Hi. unfold card_at, with_cards. cbn [cards cardTableBase]. case_decide as E.
  - rewrite aref_nat by lia. replace (Z.to_nat (c - cardTableBase t)) with (Z.to_nat i) by lia. by rewrite list_lookup_insert_eq by lia.
  - destruct (Z.lt_ge_cases (c - cardTableBase t) 0) as [Hc|Hc]; [unfold aref; by rewrite (proj2 (Z.leb_gt _ _)) by lia|].
    rewrite !aref_nat by lia. by rewrite list_lookup_insert_ne by lia.
Qed.

Lemma card_index NDEBUG t lo hi a : covers t lo hi -> lo <= a < hi ->
  dvmCardFromAddr NDEBUG t a = Some (cardTableBase t + cardTableOffset t + (a / 128 - lo / 128)) /\
  0 <= a / 128 - lo / 128 < cardTableLength t.
Proof.
  intros (Hlo & Ho & Hb & Hfit & Hlen & Hsize & Hal & Hhi & Hbias & Hlow) Ha. unfold dvmCardFromAddr, GC_CARD_SHIFT, asserted.
  rewrite Z.shiftr_div_pow2 by lia. change (2 ^ 7) with 128.
  assert (Hd : 0 <= a / 128 - lo / 128 < cardTableLength t).
  { pose proof (Z_div_mod_eq_full lo 128). split; [pose proof (Z.div_le_mono lo a 128); lia|].
    enough (a / 128 < lo / 128 + cardTableLength t) by lia. apply Z.div_lt_upper_bound; lia. }
  assert (E : u32 (biasedCardTableBase t + a / 128) = cardTableBase t + cardTableOffset t + (a / 128 - lo / 128)).
  { replace (biasedCardTableBase t + a / 128) with ((biasedCardTableBase t + lo / 128) + (a / 128 - lo / 128)) by lia.
    rewrite <- wrapU_add_l, Hbias. apply wrapU_id. unfold inU. lia. }
  rewrite E. split; [|done]. unfold dvmIsValidCard. rewrite (wrapU_id 32 (cardTableBase t + cardTableOffset t)) by (unfold inU; lia).
  rewrite wrapU_id by (unfold inU; lia). rewrite (proj2 (Z.geb_le _ _)), (proj2 (Z.ltb_lt _ _)) by lia. by rewrite orb_true_r.
Qed.

Lemma mark_card_covers NDEBUG t lo hi a : covers t lo hi -> lo <= a < hi ->
  exists t', dvmMarkCard NDEBUG t a = Some t' /\ covers t' lo hi /\ cards_grow t t' /\
    forall b, lo <= b < hi -> isObjectDirty NDEBUG t' b =
      if decide (b / 128 = a / 128) then Some true else isObjectDirty NDEBUG t b.
Proof.
  intros Hc Ha. destruct (card_index NDEBUG t lo hi a Hc Ha) as [Ea Hi]. pose proof Hc as (Hlo & Ho & Hb & Hfit & Hlen & Hsize & Hal & Hhi & Hbias & Hlow).
  set (i := cardTableOffset t + (a / 128 - lo / 128)). unfold dvmMarkCard. rewrite Ea, bind_some.
  replace (cardTableBase t + cardTableOffset t + (a / 128 - lo / 128) - cardTableBase t) with i by lia. rewrite aset_in, bind_some by lia.
  eexists. split; [reflexivity|]. set (t' := with_cards t (<[Z.to_nat i:=GC_CARD_DIRTY]> (cards t))).
  assert (Hset : forall c, card_at t' c = if decide (c = cardTableBase t + i) then Some GC_CARD_DIRTY else card_at t c) by (intros c; apply card_at_set; lia).
  assert (Hlen' : length (cards t') = length (cards t)) by apply length_insert.
  assert (Hc' : covers t' lo hi).
  { unfold covers. rewrite Hlen'. cbn [t' with_cards cardTableBase cardTableLength cardTableOffset biasedCardTableBase].
    do 9 (split; [done|]). intros j Hj. fold t'. rewrite Hset, decide_False by lia. by apply Hlow. }
  split; [done|]. split.
  { constructor; try done. intros c Hd. rewrite Hset. by case_decide. }
  intros b Hbr. unfold isObjectDirty.
  destruct (card_index NDEBUG _ lo hi b Hc' Hbr) as [-> _]. destruct (card_index NDEBUG t lo hi b Hc Hbr) as [-> Hib]. rewrite !bind_some, Hset.
  cbn [t' with_cards cardTableBase cardTableOffset]. destruct (decide (b / 128 = a / 128)) as [E|Hne]; [rewrite decide_True by lia|rewrite decide_False by lia]; done.
Qed.

Lemma clear_covers t lo hi liveBits : covers t lo hi ->
  exists t', dvmClearCardTable t liveBits = Some t' /\ covers t' lo hi /\ cardTableOffset t' = cardTableOffset t /\ cardTableLength t' = cardTableLength t.
Proof.
  intros (Hlo & Ho & Hb & Hfit & Hlen & Hsize & Hal & Hhi & Hbias & Hlow). unfold dvmClearCardTable.
  set (n := if _ >? _ then _ else _).
  assert (Hn : n <= cardTableLength t) by (unfold n; destruct (Z.gtb_spec (ALIGN_UP_TO_PAGE_SIZE (u32 (max liveBits - base liveBits) / GC_CARD_SIZE)) (cardTableLength t)); lia).
  clearbody n. rewrite (proj2 (Z.leb_le _ _)) by lia. eexists. split; [reflexivity|]. split; [|done].
  unfold covers, card_at, with_cards. cbn [cards cardTableBase cardTableLength cardTableOffset biasedCardTableBase].
  rewrite length_app, length_replicate, length_drop. do 4 (split; [done|]). split; [lia|]. do 4 (split; [done|]). intros i Hi.
  specialize (Hlow i Hi). unfold card_at in Hlow. rewrite aref_nat in Hlow |- * by lia.
  destruct (decide (Z.to_nat (cardTableBase t + i - cardTableBase t) < Z.to_nat n)%nat) as [Hlt|Hge].
  - rewrite lookup_app_l, lookup_replicate_2 by (rewrite ?length_replicate; lia). done.
  - rewrite lookup_app_r, length_replicate, lookup_drop by (rewrite length_replicate; lia).
    replace (Z.to_nat n + _)%nat with (Z.to_nat (cardTableBase t + i - cardTableBase t)) by lia. done.
Qed.

Lemma low_byte z : Z.land (u32 z) 0xff = z mod 256.
Proof.
  rewrite (land_mask 8) by lia. unfold wrapU. change (2 ^ 8) with 256. change (2 ^ 32) with (256 * 2 ^ 24).
  rewrite Z.rem_mul_r by lia. rewrite Z.mul_comm, Z_mod_plus_full. apply Z.mod_mod. lia.
Qed.

(** The table that is set up covers the heap up to its growth limit, with the value of a
    dirty card in the low byte of its biased base. *)
Lemma started_table heapMaximumSize growthLimit heapBase allocBase : 0 < heapBase -> heapBase mod 128 = 0 ->
  0 <= growthLimit <= heapMaximumSize -> growthLimit mod 128 = 0 -> heapBase + growthLimit <= 2 ^ 32 ->
  0 <= allocBase -> allocBase + heapMaximumSize / 128 + 0x100 < 2 ^ 32 ->
  let t := dvmCardTableStartup heapMaximumSize growthLimit heapBase allocBase in
  covers t heapBase (heapBase + growthLimit) /\ Z.land (biasedCardTableBase t) 0xff = GC_CARD_DIRTY.
Proof.
  intros Hb Hal Hg Hgal Hhi Ha Hfit. unfold dvmCardTableStartup, GC_CARD_SHIFT. rewrite Z.shiftr_div_pow2 by lia.
  change (2 ^ 7) with 128. change GC_CARD_SIZE with 128. rewrite (low_byte (allocBase - heapBase / 128)).
  assert (Hgm : 0 <= growthLimit / 128 <= heapMaximumSize / 128) by (split; [apply Z.div_pos; lia|apply Z.div_le_mono; lia]).
  assert (Eg : growthLimit = 128 * (growthLimit / 128)) by (pose proof (Z_div_mod_eq_full growthLimit 128); lia).
  pose proof (Z.mod_pos_bound (allocBase - heapBase / 128) 256 ltac:(lia)) as Hm.
  pose proof (Z_div_mod_eq_full (allocBase - heapBase / 128) 256) as Hdm.
  remember ((allocBase - heapBase / 128) mod 256) as low. unfold GC_CARD_DIRTY.
  assert (Hcov : forall off, 0 <= off < 256 -> (low + off) mod 256 = 0x70 ->
    let t := MkCards (replicate (Z.to_nat (heapMaximumSize / 128 + 0x100)) GC_CARD_CLEAN) allocBase (growthLimit / 128) (heapMaximumSize / 128) off
      (u32 (u32 (allocBase - heapBase / 128) + off)) in
    covers t heapBase (heapBase + growthLimit) /\ Z.land (biasedCardTableBase t) 0xff = 0x70).
  { intros off Hoff Hlow. cbv zeta. unfold covers. cbn [cards cardTableBase cardTableLength cardTableOffset biasedCardTableBase].
    rewrite length_replicate, low_byte, wrapU_add_l. repeat split; try lia.
    - rewrite <- Z.add_assoc, wrapU_add_l. replace (allocBase - heapBase / 128 + (off + heapBase / 128)) with (allocBase + off) by lia.
      apply wrapU_id. unfold inU. lia.
    - intros i Hi. unfold card_at. cbn [cards cardTableBase]. by rewrite aref_nat, lookup_replicate_2 by lia.
    - rewrite <- Hlow, Heqlow, Z.add_mod_idemp_l by lia. rewrite <- Z.add_mod_idemp_l by lia. unfold wrapU.
      rewrite Z.mod_mod_divide by (exists (2 ^ 24); lia). by rewrite Z.add_mod_idemp_l by lia. }
  destruct (Z.eqb_spec low 0x70) as [El|Hne]; cbn [negb].
  - specialize (Hcov 0 ltac:(lia) ltac:(rewrite Z.add_0_r, El; done)). cbv zeta in Hcov. rewrite Z.add_0_r in Hcov.
    rewrite (wrapU_id 32 (u32 _)) in Hcov by (apply wrapU_range; lia). exact Hcov.
  - apply Hcov; destruct (Z.ltb_spec (0x70 - low) 0); try lia.
    + replace (low + (0x70 - low + 0x100)) with (0x70 + 1 * 256) by lia. by rewrite Z_mod_plus_full.
    + replace (low + (0x70 - low + 0)) with 0x70 by lia. done.
Qed.

(** From a card back to the first address that it stands for. *)
Lemma addr_of_card NDEBUG t lo hi a : covers t lo hi -> lo <= a < hi ->
  (card ← dvmCardFromAddr NDEBUG t a; dvmAddrFromCard NDEBUG t card) = Some (128 * (a / 128)).
Proof.
  intros Hc Ha. pose proof (card_index NDEBUG t lo hi a Hc Ha) as [Ea Hi]. rewrite Ea. cbn [mbind option_bind].
  unfold dvmCardFromAddr, asserted in Ea. unfold dvmAddrFromCard, asserted.
  destruct (NDEBUG || _) eqn:E in Ea; [|done]. injection Ea as E0. rewrite <- E0, E. f_equal.
  destruct Hc as (Hlo & _ & _ & _ & _ & _ & _ & Hhi & _). rewrite wrapU_sub_l.
  unfold GC_CARD_SHIFT. rewrite Z.shiftr_div_pow2, Z.shiftl_mul_pow2 by lia. change (2 ^ 7) with 128.
  replace (biasedCardTableBase t + a / 128 - biasedCardTableBase t) with (a / 128) by lia.
  pose proof (Z_div_mod_eq_full a 128). pose proof (Z.mod_pos_bound a 128). assert (0 <= a / 128) by (apply Z.div_pos; lia).
  rewrite (wrapU_id 32 (a / 128)) by (unfold inU; lia). rewrite wrapU_id by (unfold inU; lia). lia.
Qed.

(** A card of the table that is set up is clean. *)
Lemma started_clean NDEBUG heapMaximumSize growthLimit heapBase allocBase b : 0 < heapBase -> heapBase mod 128 = 0 ->
  0 <= growthLimit <= heapMaximumSize -> growthLimit mod 128 = 0 -> heapBase + growthLimit <= 2 ^ 32 ->
  0 <= allocBase -> allocBase + heapMaximumSize / 128 + 0x100 < 2 ^ 32 -> heapBase <= b < heapBase + growthLimit ->
  isObjectDirty NDEBUG (dvmCardTableStartup heapMaximumSize growthLimit heapBase allocBase) b = Some false.
Proof.
  intros H1 H2 H3 H4 H5 H6 H7 Hb. set (t := dvmCardTableStartup heapMaximumSize growthLimit heapBase allocBase).
  destruct (started_table heapMaximumSize growthLimit heapBase allocBase H1 H2 H3 H4 H5 H6 H7) as [Hc _]. fold t in Hc.
  unfold isObjectDirty. destruct (card_index NDEBUG t _ _ b Hc Hb) as [-> Hi]. rewrite bind_some. unfold card_at.
  destruct Hc as (_ & Ho & _ & _ & Hlen & _).
  assert (Ec : exists n, cards t = replicate n GC_CARD_CLEAN) by (unfold t, dvmCardTableStartup; destruct (negb _); by eexists).
  destruct Ec as [n Ec]. rewrite Ec in *. rewrite length_replicate in Hlen.
  rewrite aref_nat by lia. rewrite lookup_replicate_2 by lia. done.
Qed.

Lemma mark_cards NDEBUG lo hi l : forall t, covers t lo hi -> (forall a, a ∈ l -> lo <= a < hi) ->
  exists t', visit (fun a t => dvmMarkCard NDEBUG t a) l t = Some t' /\ covers t' lo hi /\
    forall b, lo <= b < hi -> isObjectDirty NDEBUG t' b = if existsb (fun a => b / 128 =? a / 128) l then Some true else isObjectDirty NDEBUG t b.
Proof.
  induction l as [|a l IH]; intros t Hc Hl; [by exists t|]. cbn [visit existsb].
  destruct (mark_card_covers NDEBUG t lo hi a Hc) as (t1 & -> & Hc1 & _ & Hd1); [apply Hl, elem_of_cons; by left|]. rewrite bind_some.
  destruct (IH t1 Hc1) as (t2 & -> & Hc2 & Hd2); [intros b Hb; apply Hl, elem_of_cons; by right|]. exists t2. do 2 (split; [done|]).
  intros b Hb. rewrite Hd2, Hd1 by done. destruct (Z.eqb_spec (b / 128) (a / 128)) as [E|E]; cbn [orb].
  - rewrite decide_True by done. by destruct (existsb _ l).
  - by rewrite decide_False.
Qed.

(** ** Properties *)

(** C11. The card table remembers which parts of the heap were written. From a table that
    was set up for a heap, after any sequence of marks for addresses in the heap, an
    object is dirty exactly if one of the addresses is in the same 128 bytes; no mark
    leaves the table or fails its assertions, wherever the allocator put it and whatever
    bias gave the base the value of a dirty card in its low byte, which compiled code
    stores; and the address of a card is the start of its 128 bytes. *)
Theorem cards_track_writes NDEBUG heapMaximumSize growthLimit heapBase allocBase l : 0 < heapBase -> heapBase mod 128 = 0 ->
  0 <= growthLimit <= heapMaximumSize -> growthLimit mod 128 = 0 -> heapBase + growthLimit <= 2 ^ 32 ->
  0 <= allocBase -> allocBase + heapMaximumSize / 128 + 0x100 < 2 ^ 32 -> (forall a, a ∈ l -> heapBase <= a < heapBase + growthLimit) ->
  let t := dvmCardTableStartup heapMaximumSize growthLimit heapBase allocBase in
  Z.land (biasedCardTableBase t) 0xff = GC_CARD_DIRTY /\
  exists t', visit (fun a t => dvmMarkCard NDEBUG t a) l t = Some t' /\ forall b, heapBase <= b < heapBase + growthLimit ->
    isObjectDirty NDEBUG t' b = Some (existsb (fun a => b / 128 =? a / 128) l) /\
    (card ← dvmCardFromAddr NDEBUG t' b; dvmAddrFromCard NDEBUG t' card) = Some (128 * (b / 128)).
Proof.
  intros H1 H2 H3 H4 H5 H6 H7 Hl t. destruct (started_table heapMaximumSize growthLimit heapBase allocBase H1 H2 H3 H4 H5 H6 H7) as [Hc Hbias].
  split; [exact Hbias|]. destruct (mark_cards NDEBUG _ _ l t Hc Hl) as (t' & E & Hc' & Hd). exists t'. split; [done|]. intros b Hb. split.
  - rewrite Hd by done. destruct (existsb _ l); [done|]. by apply started_clean.
  - by apply (addr_of_card NDEBUG t' _ _ b Hc').
Qed.

Lemma cards_track_writes_witness :
  (t ← visit (fun a t => dvmMarkCard false t a) [5000; 8100] (dvmCardTableStartup 65536 32768 4096 1000001);
   d1 ← isObjectDirty false t 4992; d2 ← isObjectDirty false t 5120; Some (d1, d2)) = Some (true, false).
Proof.
  destruct (cards_track_writes false 65536 32768 4096 1000001 [5000; 8100]) as (_ & t' & E & H);
    [by vm_compute|done|by vm_compute|done|by vm_compute|by vm_compute|by vm_compute|
     intros a Ha; rewrite !elem_of_cons in Ha; destruct Ha as [->|[->|[]%not_elem_of_nil]]; by vm_compute|].
  assert (H1 : 4096 <= 4992 < 4096 + 32768) by lia. assert (H2 : 4096 <= 5120 < 4096 + 32768) by lia.
  apply H in H1 as [H1 _]. apply H in H2 as [H2 _]. rewrite E, bind_some, H1, bind_some, H2, bind_some. reflexivity.
Defined.
