(* ===== verification/GcHeap.v ===== *)
(** * The objects of the heap, as the collector reads them: [dalvik/vm/oo/Object.h]

    A heap is a partial map from addresses to objects. An object has the pointer to its
    class, words at byte offsets, for an array its elements, for a class what the
    collector reads of it. *)

From stdpp Require Import gmap.
From S2P Require Import Prelude Bits Search RegTypes HeapBitmap CardTable.

(** ** Objects *)

Definition CLASS_ISARRAY : Z := Z.shiftl 1 30.
Definition CLASS_ISOBJECTARRAY : Z := Z.shiftl 1 29.
Definition CLASS_ISCLASS : Z := Z.shiftl 1 28.
Definition CLASS_ISREFERENCE : Z := Z.shiftl 1 27.
Definition CLASS_ISWEAKREFERENCE : Z := Z.shiftl 1 26.
Definition CLASS_ISFINALIZERREFERENCE : Z := Z.shiftl 1 25.
Definition CLASS_ISPHANTOMREFERENCE : Z := Z.shiftl 1 24.

Definition CLASS_IDX : Z := 1.

Definition CLASS_WALK_SUPER : Z := 3.
Definition CLASS_SMALLEST_OFFSET : Z := 8.
Definition CLASS_BITS_PER_WORD : Z := 32.
Definition CLASS_OFFSET_ALIGNMENT : Z := 4.
Definition CLASS_HIGH_BIT : Z := Z.shiftl 1 (CLASS_BITS_PER_WORD - 1).

(** [sfields]: the first character of the signature and the value; [ifields]: the byte
    offsets; [elementType]: the second character of the descriptor; [objectSize]: of an
    instance. *)
Record ClassObject := MkClassObject {
  accessFlags : Z;
  status : Z;
  elementClass : Z;
  super : Z;
  classLoader : Z;
  interfaces : list Z;
  sfields : list (Z * Z);
  ifields : list Z;
  ifieldRefCount : Z;
  refOffsets : Z;
  elementType : Z;
  objectSize : Z
}.

(** [asClass]: what lies behind the header when the object is a class. *)
Record Object := MkObject {
  clazz : Z;
  slots : gmap Z Z;
  contents : list Z;
  asClass : option ClassObject
}.

Definition is_class_flag_set (k : ClassObject) (flag : Z) : bool := negb (Z.land (accessFlags k) flag =? 0).

Definition class_flag_group (k : ClassObject) (flags : Z) : Z := Z.land (accessFlags k) flags.

(** ** Memory *)

Section Memory.
Context (mem : gmap Z Object).

(** A class that is pointed to. *)
Definition class_at (c : Z) : option ClassObject := o ← mem !! c; asClass o.

Definition class_of (obj : Z) : option ClassObject := o ← mem !! obj; class_at (clazz o).

Definition dvmIsClassObject (obj : Z) : option bool := k ← class_of obj; Some (is_class_flag_set k CLASS_ISCLASS).

Definition dvmGetFieldObject (obj offset : Z) : option Z := o ← mem !! obj; slots o !! offset.

(** A store to a word the object has. *)
Definition store_field (obj offset val : Z) : option (gmap Z Object) :=
  o ← mem !! obj;
  _ ← slots o !! offset;
  Some (<[obj := MkObject (clazz o) (<[offset := val]> (slots o)) (contents o) (asClass o)]> mem).

End Memory.

(** ** Offsets of references *)

Definition CLASS_OFFSET_FROM_CLZ (rshift : Z) : Z := rshift * CLASS_OFFSET_ALIGNMENT + CLASS_SMALLEST_OFFSET.

Definition CLASS_BIT_NUMBER_FROM_OFFSET (byteOffset : Z) : Z := u32 (byteOffset - CLASS_SMALLEST_OFFSET) / CLASS_OFFSET_ALIGNMENT.

Definition CLASS_CAN_ENCODE_OFFSET (byteOffset : Z) : bool := CLASS_BIT_NUMBER_FROM_OFFSET byteOffset <? CLASS_BITS_PER_WORD.

Definition CLASS_BIT_FROM_OFFSET (byteOffset : Z) : Z := Z.shiftr CLASS_HIGH_BIT (CLASS_BIT_NUMBER_FROM_OFFSET byteOffset).

Section RefOffsets.
Context (NDEBUG : bool).

(** The fields with references, the first [ifieldRefCount]. *)
Fixpoint ref_offsets_loop (n : nat) (ifields : list Z) (offsets : Z) : option Z :=
  match n, ifields with
  | O, _ => Some offsets
  | S n, f :: ifields =>
      asserted NDEBUG (f >=? CLASS_SMALLEST_OFFSET) (asserted NDEBUG (Z.land f (CLASS_OFFSET_ALIGNMENT - 1) =? 0) (
        if CLASS_CAN_ENCODE_OFFSET f then
          let newBit := CLASS_BIT_FROM_OFFSET f in
          asserted NDEBUG (negb (newBit =? 0)) (ref_offsets_loop n ifields (Z.lor offsets newBit))
        else Some CLASS_WALK_SUPER))
  | S _, [] => None
  end.

(** The value of [refOffsets] of a class, from the one of its superclass, if any. *)
Definition computeRefOffsets (super : option Z) (k : ClassObject) : option Z :=
  let offsets := default 0 super in
  if negb (offsets =? CLASS_WALK_SUPER) then ref_offsets_loop (Z.to_nat (ifieldRefCount k)) (ifields k) offsets
  else Some offsets.

End RefOffsets.
