(* ===== verification/MarkSweep.v ===== *)
(** * The mark-sweep collector: [dalvik/vm/alloc/MarkSweep.cpp]

    Marking from the roots with a bitmap, a finger and a stack, the lists of reference
    objects that were met, and the sweep, as steps on a state of memory, bitmaps and
    lists. *)

From stdpp Require Import gmap.
From S2P Require Import Prelude Bits Search RegTypes HeapBitmap CardTable GcHeap.

(** ** State *)

Definition ULONG_MAX : Z := 2 ^ 32 - 1.

(** What does not change in a collection: a class and offsets the machine knows, the
    bounds of the heap and of its parts ([base] and [limit], the active part first), the
    limit below which objects are not collected, the room on the stack. *)
Record Env := MkEnv {
  classJavaLangClass : Z;
  off_referent : Z;
  off_pendingNext : Z;
  off_queue : Z;
  off_queueNext : Z;
  off_zombie : Z;
  heapBase : Z;
  heapLimit : Z;
  heaps : list (Z * Z);
  immuneLimit : Z;
  stackRoom : Z;
  zygote : bool
}.

(** The stack has its top first. The lists are pointers to the last of a circular queue. *)
Record Gc := MkGc {
  mem : gmap Z Object;
  liveBits : HeapBitmap;
  bitmap : HeapBitmap;
  stack : list Z;
  finger : Z;
  softReferences : Z;
  weakReferences : Z;
  finalizerReferences : Z;
  phantomReferences : Z;
  clearedReferences : Z;
  cardTable : CardTable
}.

Definition with_mem (m : gmap Z Object) (s : Gc) : Gc :=
  MkGc m (liveBits s) (bitmap s) (stack s) (finger s) (softReferences s) (weakReferences s) (finalizerReferences s)
    (phantomReferences s) (clearedReferences s) (cardTable s).
Definition with_bitmap (b : HeapBitmap) (s : Gc) : Gc :=
  MkGc (mem s) (liveBits s) b (stack s) (finger s) (softReferences s) (weakReferences s) (finalizerReferences s)
    (phantomReferences s) (clearedReferences s) (cardTable s).
Definition with_live (b : HeapBitmap) (s : Gc) : Gc :=
  MkGc (mem s) b (bitmap s) (stack s) (finger s) (softReferences s) (weakReferences s) (finalizerReferences s)
    (phantomReferences s) (clearedReferences s) (cardTable s).
Definition with_stack (l : list Z) (s : Gc) : Gc :=
  MkGc (mem s) (liveBits s) (bitmap s) l (finger s) (softReferences s) (weakReferences s) (finalizerReferences s)
    (phantomReferences s) (clearedReferences s) (cardTable s).
Definition with_finger (f : Z) (s : Gc) : Gc :=
  MkGc (mem s) (liveBits s) (bitmap s) (stack s) f (softReferences s) (weakReferences s) (finalizerReferences s)
    (phantomReferences s) (clearedReferences s) (cardTable s).
Definition with_cardTable (t : CardTable) (s : Gc) : Gc :=
  MkGc (mem s) (liveBits s) (bitmap s) (stack s) (finger s) (softReferences s) (weakReferences s) (finalizerReferences s)
    (phantomReferences s) (clearedReferences s) t.

(** The variables a [list] points to. *)
Inductive ListId := SoftList | WeakList | FinalizerList | PhantomList | ClearedList.

Definition list_of (l : ListId) (s : Gc) : Z :=
  match l with
  | SoftList => softReferences s
  | WeakList => weakReferences s
  | FinalizerList => finalizerReferences s
  | PhantomList => phantomReferences s
  | ClearedList => clearedReferences s
  end.

Definition with_list (l : ListId) (p : Z) (s : Gc) : Gc :=
  let pick k := match l, k with
    | SoftList, SoftList | WeakList, WeakList | FinalizerList, FinalizerList | PhantomList, PhantomList
    | ClearedList, ClearedList => p
    | _, k => list_of k s
    end in
  MkGc (mem s) (liveBits s) (bitmap s) (stack s) (finger s) (pick SoftList) (pick WeakList) (pick FinalizerList)
    (pick PhantomList) (pick ClearedList) (cardTable s).

Section Collector.
Context (NDEBUG : bool) (env : Env).

(** ** Objects *)

Definition dvmHeapSourceContains (s : Gc) (ptr : Z) : option bool :=
  if (heapBase env <=? ptr) && (ptr <=? heapLimit env) then
    w ← dvmHeapBitmapIsObjectBitSet NDEBUG (liveBits s) ptr; Some (negb (w =? 0))
  else Some false.

Definition dvmIsValidObject (s : Gc) (obj : Z) : option bool :=
  if negb (obj =? 0) && (Z.land obj 7 =? 0) then dvmHeapSourceContains s obj else Some false.

(** An assertion that is itself computed. *)
Definition asserted_opt {A} (cond : option bool) (go_on : option A) : option A :=
  if NDEBUG then go_on else c ← cond; if (c : bool) then go_on else None.

Definition isMarked (s : Gc) (obj : Z) : option bool :=
  w ← dvmHeapBitmapIsObjectBitSet NDEBUG (bitmap s) obj; Some (negb (w =? 0)).

(** [dvmSetFieldObject], with its write barrier. *)
Definition dvmSetFieldObject (obj offset val : Z) (s : Gc) : option Gc :=
  m ← store_field (mem s) obj offset val;
  let s := with_mem m s in
  if negb (val =? 0) then t ← dvmMarkCard NDEBUG (cardTable s) obj; Some (with_cardTable t s) else Some s.

(** ** Marking *)

Definition markStackPush (obj : Z) (s : Gc) : option Gc :=
  if Z.of_nat (length (stack s)) <? stackRoom env
  then asserted NDEBUG (negb (obj =? 0)) (Some (with_stack (obj :: stack s) s)) else None.

Definition markStackPop (s : Gc) : option (Z * Gc) :=
  asserted NDEBUG (Z.of_nat (length (stack s)) <? stackRoom env) (
    match stack s with [] => None | obj :: l => Some (obj, with_stack l s) end).

Definition markObjectNonNull (obj : Z) (checkFinger : bool) (s : Gc) : option Gc :=
  asserted NDEBUG (negb (obj =? 0)) (asserted_opt (dvmIsValidObject s obj) (
    if obj <? immuneLimit env then asserted_opt (isMarked s obj) (Some s)
    else
      '(old, b) ← dvmHeapBitmapSetAndReturnObjectBit NDEBUG (bitmap s) obj;
      let s := with_bitmap b s in
      if old =? 0 then if checkFinger && (obj <? finger s) then markStackPush obj s else Some s
      else Some s)).

Definition markObject (obj : Z) (s : Gc) : option Gc := if negb (obj =? 0) then markObjectNonNull obj true s else Some s.

(** [rootMarkObjectVisitor], [rootReMarkObjectVisitor] on the value of a root. *)
Definition rootMarkObjectVisitor (obj : Z) (s : Gc) : option Gc :=
  if negb (obj =? 0) then markObjectNonNull obj false s else Some s.

Definition rootReMarkObjectVisitor (obj : Z) (s : Gc) : option Gc :=
  if negb (obj =? 0) then markObjectNonNull obj true s else Some s.

(** [memcpy] between the words of two bitmaps. *)
Definition copy_words (src dst : list Z) (index n : Z) : option (list Z) :=
  if (0 <=? index) && (0 <=? n) && (index + n <=? Z.of_nat (length src)) && (index + n <=? Z.of_nat (length dst))
  then Some (take (Z.to_nat index) dst ++ take (Z.to_nat n) (drop (Z.to_nat index) src) ++ drop (Z.to_nat (index + n)) dst)
  else None.

Definition mark_immune_heap (h : Z * Z) (s : Gc) : option Gc :=
  if h.1 <? immuneLimit env then
    asserted NDEBUG (h.2 <=? immuneLimit env) (
      let index := HB_OFFSET_TO_INDEX (u32 (h.1 - base (liveBits s))) in
      let n := HB_OFFSET_TO_INDEX (u32 (h.2 - h.1)) in
      words ← copy_words (bits (liveBits s)) (bits (bitmap s)) index n;
      Some (with_bitmap (MkBitmap words (allocLen (bitmap s)) (base (bitmap s))
        (if max (bitmap s) <? h.2 then h.2 else max (bitmap s))) s))
  else Some s.

Definition dvmMarkImmuneObjects (s : Gc) : option Gc :=
  match heaps env with
  | [] => None
  | active :: rest =>
      asserted NDEBUG ((immuneLimit env =? active.1) || (immuneLimit env =? 0)) (
      asserted NDEBUG (base (liveBits s) =? base (bitmap s)) (asserted NDEBUG (words (liveBits s) =? words (bitmap s)) (
      asserted NDEBUG (active.1 >=? immuneLimit env) (asserted NDEBUG (active.2 >? immuneLimit env) (
        visit mark_immune_heap rest s)))))
  end.

(** [roots]: the values of the slots that [dvmVisitRoots] visits, in order. *)
Definition dvmHeapMarkRootSet (roots : list Z) (s : Gc) : option Gc :=
  s ← dvmMarkImmuneObjects s; visit rootMarkObjectVisitor roots s.

Definition dvmHeapReMarkRootSet (roots : list Z) (s : Gc) : option Gc :=
  asserted NDEBUG (finger s =? ULONG_MAX) (visit rootReMarkObjectVisitor roots s).

(** ** Scanning *)

(** The fields the bits of [refOffsets] stand for. *)
Fixpoint scan_bits (n : nat) (offsets obj : Z) (s : Gc) : option Gc :=
  if offsets =? 0 then Some s
  else match n with
    | O => None
    | S n =>
        let rshift := CLZ offsets in
        ref ← dvmGetFieldObject (mem s) obj (CLASS_OFFSET_FROM_CLZ rshift);
        s ← markObject ref s;
        scan_bits n (Z.ldiff offsets (Z.shiftr CLASS_HIGH_BIT rshift)) obj s
    end.

Fixpoint scan_ifields (n : nat) (ifields : list Z) (obj : Z) (s : Gc) : option Gc :=
  match n, ifields with
  | O, _ => Some s
  | S n, f :: ifields => ref ← dvmGetFieldObject (mem s) obj f; s ← markObject ref s; scan_ifields n ifields obj s
  | S _, [] => None
  end.

(** The fields of the classes from [c] up. *)
Fixpoint scan_supers (fuel : nat) (c obj : Z) (s : Gc) : option Gc :=
  if c =? 0 then Some s
  else match fuel with
    | O => None
    | S fuel =>
        k ← class_at (mem s) c;
        s ← scan_ifields (Z.to_nat (ifieldRefCount k)) (ifields k) obj s;
        scan_supers fuel (super k) obj s
    end.

(** [fuel] of the walk up: as many classes as there are objects. *)
Definition scanFields (obj : Z) (s : Gc) : option Gc :=
  k ← class_of (mem s) obj;
  if negb (refOffsets k =? CLASS_WALK_SUPER) then scan_bits 32 (refOffsets k) obj s
  else o ← mem s !! obj; scan_supers (S (size (mem s))) (clazz o) obj s.

Definition scan_sfield (f : Z * Z) (s : Gc) : option Gc := if (f.1 =? 91) || (f.1 =? 76) then markObject f.2 s else Some s.

Definition scanStaticFields (k : ClassObject) (s : Gc) : option Gc := visit scan_sfield (sfields k) s.

Definition scanInterfaces (k : ClassObject) (s : Gc) : option Gc := visit markObject (interfaces k) s.

Definition scanClassObject (obj : Z) (s : Gc) : option Gc :=
  asserted_opt (dvmIsClassObject (mem s) obj) (
    o ← mem s !! obj;
    k ← asClass o;
    s ← markObject (clazz o) s;
    s ← (if is_class_flag_set k CLASS_ISARRAY then markObject (elementClass k) s else Some s);
    s ← (if status k >? CLASS_IDX then markObject (super k) s else Some s);
    s ← markObject (classLoader k) s;
    s ← scanFields obj s;
    s ← scanStaticFields k s;
    if status k >? CLASS_IDX then scanInterfaces k s else Some s).

Definition scanArrayObject (obj : Z) (s : Gc) : option Gc :=
  o ← mem s !! obj;
  k ← class_at (mem s) (clazz o);
  s ← markObject (clazz o) s;
  if is_class_flag_set k CLASS_ISOBJECTARRAY then visit markObject (contents o) s else Some s.

(** ** Reference objects *)

Definition referenceClassFlags (m : gmap Z Object) (obj : Z) : option Z :=
  k ← class_of m obj;
  Some (class_flag_group k (Z.lor (Z.lor (Z.lor CLASS_ISREFERENCE CLASS_ISWEAKREFERENCE) CLASS_ISFINALIZERREFERENCE) CLASS_ISPHANTOMREFERENCE)).

(** The list a reference object goes to: soft, weak, finalizer and phantom references by
    the flags of their classes; [None]: the assertion, or a write through [NULL]. *)
Definition pick_list (flags : Z) : option ListId :=
  if flags =? CLASS_ISREFERENCE then Some SoftList
  else if negb (Z.land flags CLASS_ISWEAKREFERENCE =? 0) then Some WeakList
  else if negb (Z.land flags CLASS_ISFINALIZERREFERENCE =? 0) then Some FinalizerList
  else if negb (Z.land flags CLASS_ISPHANTOMREFERENCE =? 0) then Some PhantomList
  else None.

(** On the value of a list; its new value comes back. *)
Definition enqueuePendingReference (ref list : Z) (s : Gc) : option (Z * Gc) :=
  asserted NDEBUG (negb (ref =? 0)) (
    let offset := off_pendingNext env in
    if list =? 0 then s ← dvmSetFieldObject ref offset ref s; Some (ref, s)
    else
      head ← dvmGetFieldObject (mem s) list offset;
      s ← dvmSetFieldObject ref offset head s;
      s ← dvmSetFieldObject list offset ref s;
      Some (list, s)).

(** The reference, and the new value of the list. *)
Definition dequeuePendingReference (list : Z) (s : Gc) : option (Z * Z * Gc) :=
  asserted NDEBUG (negb (list =? 0)) (
    let offset := off_pendingNext env in
    head ← dvmGetFieldObject (mem s) list offset;
    if list =? head then s ← dvmSetFieldObject list offset 0 s; Some (list, 0, s)
    else
      next ← dvmGetFieldObject (mem s) head offset;
      s ← dvmSetFieldObject list offset next s;
      s ← dvmSetFieldObject head offset 0 s;
      Some (head, list, s)).

Definition delayReferenceReferent (obj : Z) (s : Gc) : option Gc :=
  pending ← dvmGetFieldObject (mem s) obj (off_pendingNext env);
  referent ← dvmGetFieldObject (mem s) obj (off_referent env);
  if (pending =? 0) && negb (referent =? 0) then
    marked ← isMarked s referent;
    if negb (marked : bool) then
      flags ← referenceClassFlags (mem s) obj;
      l ← pick_list flags;
      '(p, s) ← enqueuePendingReference obj (list_of l s) s;
      Some (with_list l p s)
    else Some s
  else Some s.

Definition scanDataObject (obj : Z) (s : Gc) : option Gc :=
  o ← mem s !! obj;
  k ← class_at (mem s) (clazz o);
  s ← markObject (clazz o) s;
  s ← scanFields obj s;
  if is_class_flag_set k CLASS_ISREFERENCE then delayReferenceReferent obj s else Some s.

Definition scanObject (obj : Z) (s : Gc) : option Gc :=
  o ← mem s !! obj;
  if clazz o =? classJavaLangClass env then scanClassObject obj s
  else
    k ← class_at (mem s) (clazz o);
    if is_class_flag_set k CLASS_ISARRAY then scanArrayObject obj s else scanDataObject obj s.

(** [fuel]: more than the number of objects that are popped. *)
Fixpoint mark_stack_loop (fuel : nat) (s : Gc) : option Gc :=
  match stack s with
  | [] => Some s
  | _ =>
      match fuel with
      | O => None
      | S fuel => '(obj, s) ← markStackPop s; s ← scanObject obj s; mark_stack_loop fuel s
      end
  end.

Definition processMarkStack (fuel : nat) (s : Gc) : option Gc :=
  asserted NDEBUG (finger s =? ULONG_MAX) (mark_stack_loop fuel s).

Definition scanBitmapCallback (obj finger : Z) (s : Gc) : option Gc := scanObject obj (with_finger finger s).

Definition dvmHeapScanMarkedObjects (fuel : nat) (s : Gc) : option Gc :=
  asserted NDEBUG (finger s =? 0) (
    s ← dvmHeapBitmapScanWalk bitmap scanBitmapCallback s;
    processMarkStack fuel (with_finger ULONG_MAX s)).

(** ** Processing of references *)

Definition clearReference (reference : Z) (s : Gc) : option Gc := dvmSetFieldObject reference (off_referent env) 0 s.

Definition isEnqueuable (m : gmap Z Object) (reference : Z) : option bool :=
  queue ← dvmGetFieldObject m reference (off_queue env);
  queueNext ← dvmGetFieldObject m reference (off_queueNext env);
  Some (negb (queue =? 0) && (queueNext =? 0)).

Definition enqueueReference (ref : Z) (s : Gc) : option Gc :=
  asserted_opt (isEnqueuable (mem s) ref) (
    '(p, s) ← enqueuePendingReference ref (clearedReferences s) s; Some (with_list ClearedList p s)).

(** The loop of [preserveSomeSoftReferences]: the list of those to clear comes back.
    [counter]: how many white referents were met. *)
Fixpoint preserve_loop (fuel : nat) (l : ListId) (clear counter : Z) (s : Gc) : option (Z * Gc) :=
  if list_of l s =? 0 then Some (clear, s)
  else match fuel with
    | O => None
    | S fuel =>
        '(ref, list, s) ← dequeuePendingReference (list_of l s) s;
        let s := with_list l list s in
        referent ← dvmGetFieldObject (mem s) ref (off_referent env);
        if referent =? 0 then preserve_loop fuel l clear counter s
        else
          marked ← isMarked s referent;
          if (marked : bool) then preserve_loop fuel l clear counter s
          else if negb (Z.land (u32 (counter + 1)) 1 =? 0) then
            s ← markObject referent s;
            preserve_loop fuel l clear (u32 (counter + 1)) s
          else
            '(clear, s) ← enqueuePendingReference ref clear s;
            preserve_loop fuel l clear (u32 (counter + 1)) s
    end.

Definition preserveSomeSoftReferences (fuel : nat) (l : ListId) (s : Gc) : option Gc :=
  '(clear, s) ← preserve_loop fuel l 0 0 s;
  processMarkStack fuel (with_list l clear s).

Fixpoint clearWhiteReferences (fuel : nat) (l : ListId) (s : Gc) : option Gc :=
  if list_of l s =? 0 then Some s
  else match fuel with
    | O => None
    | S fuel =>
        '(ref, list, s) ← dequeuePendingReference (list_of l s) s;
        let s := with_list l list s in
        referent ← dvmGetFieldObject (mem s) ref (off_referent env);
        white ← (if negb (referent =? 0) then marked ← isMarked s referent; Some (negb marked) else Some false);
        s ← (if (white : bool) then
               s ← clearReference ref s;
               enqueuable ← isEnqueuable (mem s) ref;
               if (enqueuable : bool) then enqueueReference ref s else Some s
             else Some s);
        clearWhiteReferences fuel l s
    end.

Fixpoint finalizer_loop (fuel : nat) (l : ListId) (hasEnqueued : bool) (s : Gc) : option (bool * Gc) :=
  if list_of l s =? 0 then Some (hasEnqueued, s)
  else match fuel with
    | O => None
    | S fuel =>
        '(ref, list, s) ← dequeuePendingReference (list_of l s) s;
        let s := with_list l list s in
        referent ← dvmGetFieldObject (mem s) ref (off_referent env);
        white ← (if negb (referent =? 0) then marked ← isMarked s referent; Some (negb marked) else Some false);
        if (white : bool) then
          s ← markObject referent s;
          s ← asserted_opt (isEnqueuable (mem s) ref) (dvmSetFieldObject ref (off_zombie env) referent s);
          s ← clearReference ref s;
          s ← enqueueReference ref s;
          finalizer_loop fuel l true s
        else finalizer_loop fuel l hasEnqueued s
    end.

Definition enqueueFinalizerReferences (fuel : nat) (l : ListId) (s : Gc) : option Gc :=
  '(hasEnqueued, s) ← finalizer_loop fuel l false s;
  s ← (if (hasEnqueued : bool) then processMarkStack fuel s else Some s);
  asserted NDEBUG (list_of l s =? 0) (Some s).

Definition dvmHeapProcessReferences (fuel : nat) (clearSoftRefs : bool) (s : Gc) : option Gc :=
  s ← (if negb (zygote env) && negb clearSoftRefs then preserveSomeSoftReferences fuel SoftList s else Some s);
  s ← clearWhiteReferences fuel SoftList s;
  s ← clearWhiteReferences fuel WeakList s;
  s ← enqueueFinalizerReferences fuel FinalizerList s;
  s ← clearWhiteReferences fuel SoftList s;
  s ← clearWhiteReferences fuel WeakList s;
  s ← clearWhiteReferences fuel PhantomList s;
  asserted NDEBUG ((softReferences s =? 0) && (weakReferences s =? 0) && (finalizerReferences s =? 0) && (phantomReferences s =? 0))
    (Some s).

(** ** The sweep *)

Definition dvmHeapSourceSwapBitmaps (s : Gc) : Gc := with_live (bitmap s) (with_bitmap (liveBits s) s).

(** The regions of the parts of the heap: the last address is below the limit and not
    above the highest one that was set. *)
Definition region (s : Gc) (h : Z * Z) : Z * Z := (h.1, Z.min (u32 (h.2 - 1)) (max (bitmap s))).

(** After the bitmaps were swapped. The callback collects what it is given. *)
Definition dvmHeapSweepUnmarkedObjects (isPartial : bool) (s : Gc) : option (list Z) :=
  asserted NDEBUG (negb isPartial || match heaps env with h :: _ => immuneLimit env =? h.1 | [] => false end) (
    visit (fun r freed => dvmHeapBitmapSweepWalk NDEBUG (bitmap s) (liveBits s) r.1 r.2 (fun ptrs freed => Some (freed ++ ptrs)) freed)
      (map (region s) (if isPartial then take 1 (heaps env) else heaps env)) []).

Definition dvmHeapFinishMarkStep (s : Gc) : Gc := with_finger 0 (with_stack [] (with_bitmap (dvmHeapBitmapZero (bitmap s)) s)).

Definition dvmHeapBeginMarkStep (s : Gc) : Gc := with_finger 0 (with_stack [] s).

End Collector.

(** What [dvmHeapBeginMarkStep] sets the limit to: the active part alone is collected, or
    everything. *)
Definition dvmHeapSourceGetImmuneLimit (env : Env) (isPartial : bool) : option Z :=
  if isPartial then match heaps env with h :: _ => Some h.1 | [] => None end else Some 0.

Definition with_immuneLimit (limit : Z) (env : Env) : Env :=
  MkEnv (classJavaLangClass env) (off_referent env) (off_pendingNext env) (off_queue env) (off_queueNext env) (off_zombie env)
    (heapBase env) (heapLimit env) (heaps env) limit (stackRoom env) (zygote env).

(** [dvmCollectGarbageInternal] with the threads stopped, where no collection is running
    ([gcRunning]): the objects that are freed, and the state that is left. The tables of
    weak roots that [dvmHeapSweepSystemWeaks] clears (interned strings, monitors, weak
    references of JNI) are not in the heap, and left out. *)
Definition dvmCollectGarbageInternal (NDEBUG : bool) (env : Env) (fuel : nat) (isPartial doPreserve : bool) (roots : list Z) (s : Gc) :
    option (list Z * Gc) :=
  limit ← dvmHeapSourceGetImmuneLimit env isPartial;
  let env := with_immuneLimit limit env in
  let s := dvmHeapBeginMarkStep s in
  s ← dvmHeapMarkRootSet NDEBUG env roots s;
  s ← asserted NDEBUG ((softReferences s =? 0) && (weakReferences s =? 0) && (finalizerReferences s =? 0) &&
        (phantomReferences s =? 0) && (clearedReferences s =? 0)) (dvmHeapScanMarkedObjects NDEBUG env fuel s);
  s ← dvmHeapProcessReferences NDEBUG env fuel (negb doPreserve) s;
  let s := dvmHeapSourceSwapBitmaps s in
  freed ← dvmHeapSweepUnmarkedObjects NDEBUG env isPartial s;
  Some (freed, dvmHeapFinishMarkStep s).
