(* ===== verification/GcMarking.v ===== *)
(** * Marking: what the steps of the collector do to the set of marked objects

    The objects of a heap and their strong references as a relation, the invariant of the
    bitmaps and of the stack, and the effect of [markObject] and [scanObject] under it. *)

From stdpp Require Import gmap.
From S2P Require Import Prelude Bits Search RegTypes HeapBitmap CardTable GcHeap MarkSweep.

(** ** Strong references *)

Section Strong.
Context (env : Env) (m : gmap Z Object).

(** The offsets of references in the instances of a class: its own and those of its
    superclasses. *)
Inductive ref_offset : Z -> Z -> Prop :=
  | ref_offset_own c k off : class_at m c = Some k -> off ∈ take (Z.to_nat (ifieldRefCount k)) (ifields k) -> ref_offset c off
  | ref_offset_super c k off : class_at m c = Some k -> super k <> 0 -> ref_offset (super k) off -> ref_offset c off.

Definition is_class_object (o : Object) : bool := clazz o =? classJavaLangClass env.

(** The class of an object has a flag. *)
Definition has_flag_of (o : Object) (flag : Z) : bool :=
  match class_at m (clazz o) with Some k => is_class_flag_set k flag | None => false end.

Definition is_array (o : Object) : bool := negb (is_class_object o) && has_flag_of o CLASS_ISARRAY.

Definition is_reference (o : Object) : bool := negb (is_class_object o) && negb (is_array o) && has_flag_of o CLASS_ISREFERENCE.

(** Where an object refers to: its class, its fields, its elements, what a class has. *)
Inductive strong (x : Z) : Z -> Prop :=
  | strong_class o : m !! x = Some o -> strong x (clazz o)
  | strong_field o off v : m !! x = Some o -> is_array o = false -> ref_offset (clazz o) off -> slots o !! off = Some v -> strong x v
  | strong_element o v : m !! x = Some o -> is_array o = true -> has_flag_of o CLASS_ISOBJECTARRAY = true -> v ∈ contents o -> strong x v
  | strong_elementClass o k : m !! x = Some o -> is_class_object o = true -> asClass o = Some k ->
      is_class_flag_set k CLASS_ISARRAY = true -> strong x (elementClass k)
  | strong_super o k : m !! x = Some o -> is_class_object o = true -> asClass o = Some k -> CLASS_IDX < status k -> strong x (super k)
  | strong_loader o k : m !! x = Some o -> is_class_object o = true -> asClass o = Some k -> strong x (classLoader k)
  | strong_static o k c v : m !! x = Some o -> is_class_object o = true -> asClass o = Some k ->
      (c, v) ∈ sfields k -> c = 91 \/ c = 76 -> strong x v
  | strong_interface o k v : m !! x = Some o -> is_class_object o = true -> asClass o = Some k -> CLASS_IDX < status k ->
      v ∈ interfaces k -> strong x v.

(** The superclasses of a class end within [n] steps, and their lists of fields are long
    enough. *)
Fixpoint chain_ends (n : nat) (c : Z) : Prop :=
  c = 0 \/ match n with
    | O => False
    | S n => exists k, class_at m c = Some k /\ (Z.to_nat (ifieldRefCount k) <= length (ifields k))%nat /\ chain_ends n (super k)
    end.

(** The word [refOffsets] of a class gives up, or has the offsets of its instances. *)
Definition offsets_agree (c : Z) (k : ClassObject) : Prop :=
  refOffsets k = CLASS_WALK_SUPER \/
  (inU 32 (refOffsets k) /\ forall off, ref_offset c off <-> exists j, 0 <= j < 32 /\ off = 4 * j + 8 /\ Z.testbit (refOffsets k) (31 - j) = true).

(** An object is whole: it has a class, and the words its class says it has. *)
Definition object_ok (x : Z) (o : Object) : Prop :=
  (exists k, class_at m (clazz o) = Some k /\ offsets_agree (clazz o) k /\ (is_class_object o = true -> is_class_flag_set k CLASS_ISCLASS = true)) /\
  chain_ends (S (size m)) (clazz o) /\
  (is_class_object o = true -> is_Some (asClass o)) /\
  (is_array o = false -> forall off, ref_offset (clazz o) off -> is_Some (slots o !! off)).

Definition objects_ok : Prop := map_Forall object_ok m.

End Strong.

(** ** The invariant of bitmaps and stack *)

Definition marked (s : Gc) (x : Z) : Prop := is_set (bitmap s) x = true.

Definition in_heap (s : Gc) (x : Z) : Prop := is_Some (mem s !! x).

Record bits_inv (env : Env) (s : Gc) : Prop := {
  bi_ok : bitmap_ok (bitmap s);
  bi_live_ok : bitmap_ok (liveBits s);
  bi_base : base (bitmap s) = base (liveBits s);
  bi_words : words (bitmap s) = words (liveBits s);
  bi_covered : forall x, in_heap s x -> covered (bitmap s) x;
  bi_live : forall x, covered (bitmap s) x -> in_heap s x <-> is_set (liveBits s) x = true;
  bi_bounds : forall x, in_heap s x -> heapBase env <= x <= heapLimit env /\ x < ULONG_MAX;
  bi_align : base (bitmap s) mod 8 = 0;
  bi_marked : forall x, covered (bitmap s) x -> marked s x -> in_heap s x;
  bi_immune : forall x, in_heap s x -> x < immuneLimit env -> marked s x;
  bi_room : Z.of_nat (size (mem s)) < stackRoom env;
  bi_stack : NoDup (stack s) /\ forall x, x ∈ stack s -> in_heap s x /\ marked s x
}.

(** What marking leaves alone. *)
Definition same_frame (s s' : Gc) : Prop :=
  exists b l, s' = with_stack l (with_bitmap b s).

(** The objects that are not marked, and those on the stack. *)
Definition whites (s : Gc) : list Z := List.filter (fun x => negb (is_set (bitmap s) x)) (elements (dom (mem s))).

Definition work_left (s : Gc) : nat := length (whites s) + length (stack s).

Section Marking.
Context (NDEBUG : bool) (env : Env).

Lemma in_heap_nonzero s x : bits_inv env s -> in_heap s x -> x <> 0.
Proof.
  intros I Hx. destruct (bi_covered _ _ I x Hx) as [Hc _]. destruct (bi_ok _ _ I) as (_ & Hb & _). lia.
Qed.

Lemma covered_live s x : bits_inv env s -> covered (bitmap s) x <-> covered (liveBits s) x.
Proof. intros I. unfold covered. by rewrite (bi_base _ _ I), (bi_words _ _ I). Qed.

Lemma valid_object s x : bits_inv env s -> in_heap s x -> dvmIsValidObject NDEBUG env s x = Some true.
Proof.
  intros I Hx. pose proof (in_heap_nonzero s x I Hx) as Hz. pose proof (bi_covered _ _ I x Hx) as Hc.
  unfold dvmIsValidObject. rewrite (proj2 (Z.eqb_neq _ _) Hz). cbn [negb andb].
  assert (E7 : Z.land x 7 = 0).
  { rewrite (land_mask 3) by lia. change (2 ^ 3) with 8. destruct Hc as [_ Hal]. pose proof (bi_align _ _ I) as Hb.
    replace x with ((x - base (bitmap s)) + base (bitmap s)) by lia. rewrite Zplus_mod, Hal, Hb. done. }
  rewrite E7. cbn [Z.eqb]. unfold dvmHeapSourceContains. destruct (bi_bounds _ _ I x Hx) as [Hb _].
  rewrite (proj2 (Z.leb_le _ _)), (proj2 (Z.leb_le _ _)) by lia. cbn [andb].
  destruct (IsObjectBitSet_spec NDEBUG (liveBits s) x (bi_live_ok _ _ I)) as (old & -> & E); [by apply (covered_live s)|done|].
  cbn [mbind option_bind]. rewrite E. f_equal. by apply (bi_live _ _ I).
Qed.

Lemma isMarked_spec s x : bits_inv env s -> in_heap s x -> isMarked NDEBUG s x = Some (is_set (bitmap s) x).
Proof.
  intros I Hx. unfold isMarked.
  destruct (IsObjectBitSet_spec NDEBUG (bitmap s) x (bi_ok _ _ I) (bi_covered _ _ I x Hx) (in_heap_nonzero s x I Hx)) as (old & -> & E).
  cbn [mbind option_bind]. by rewrite E.
Qed.

Lemma asserted_opt_true {A} b (k : option A) : b = Some true -> asserted_opt NDEBUG b k = k.
Proof. intros ->. unfold asserted_opt. by destruct NDEBUG. Qed.

Lemma filter_one_less {A} (f g : A -> bool) x l : NoDup l -> x ∈ l -> f x = true -> g x = false ->
  (forall y, y <> x -> g y = f y) -> S (length (List.filter g l)) = length (List.filter f l).
Proof.
  intros Hl Hx Hf Hg He. induction Hl as [|y l Hy Hl IH]; [by apply not_elem_of_nil in Hx|]. cbn [List.filter].
  apply elem_of_cons in Hx as [->|Hx].
  - rewrite Hf, Hg. cbn [length]. do 2 f_equal. apply filter_ext_in. intros z Hz. apply He. intros ->. by apply Hy, list_elem_of_In.
  - assert (y <> x) as Hne by (intros ->; done). rewrite (He y Hne). destruct (f y); cbn [length]; rewrite IH by done; done.
Qed.

(** A bit is set, and the rest of the state may get one more object on its stack. *)
Lemma marked_one s x b' l' : bits_inv env s -> in_heap s x -> bitmap_ok b' -> base b' = base (bitmap s) -> words b' = words (bitmap s) ->
  (forall y, covered (bitmap s) y -> is_set b' y = (y =? x) || is_set (bitmap s) y) ->
  (l' = stack s \/ (l' = x :: stack s /\ ~ marked s x)) ->
  let s' := with_stack l' (with_bitmap b' s) in
  bits_inv env s' /\ (work_left s' <= work_left s)%nat.
Proof.
  intros I Hx Hb Hbase Hwords Hset Hl s'.
  assert (Hcov : forall y, covered b' y <-> covered (bitmap s) y) by (intros y; unfold covered; by rewrite Hbase, Hwords).
  assert (Hmono : forall y, covered (bitmap s) y -> marked s y -> is_set b' y = true) by (intros y Hy Hm; rewrite Hset, Hm, orb_true_r; done).
  pose proof (bi_covered _ _ I x Hx) as Hcx.
  assert (Hmx : is_set b' x = true) by (by rewrite Hset, Z.eqb_refl).
  destruct (bi_stack _ _ I) as [Hnd Hstack]. split.
  - constructor; cbn [bitmap liveBits mem stack s' with_stack with_bitmap]; try apply I; try done.
    + by rewrite Hbase; apply I.
    + by rewrite Hwords; apply I.
    + intros y Hy. apply Hcov. by apply (bi_covered _ _ I).
    + intros y Hy. apply (bi_live _ _ I). by apply Hcov.
    + rewrite Hbase. apply I.
    + intros y Hy Hm. apply Hcov in Hy. unfold marked in Hm. cbn [bitmap s' with_stack with_bitmap] in Hm. rewrite Hset in Hm by done.
      apply orb_prop in Hm as [E%Z.eqb_eq|Hm]; [by rewrite E|]. by apply (bi_marked _ _ I).
    + intros y Hy Hlt. apply Hmono; [by apply (bi_covered _ _ I)|]. by apply (bi_immune _ _ I).
    + unfold marked. cbn [bitmap s' with_stack with_bitmap]. destruct Hl as [->|[-> Hnm]].
      * split; [done|]. intros y Hy. destruct (Hstack y Hy) as [Hh Hm]. split; [done|]. apply Hmono; [by apply (bi_covered _ _ I)|done].
      * split; [constructor; [|done]; intros Hin; by apply Hnm, Hstack|]. intros y [->|Hy]%elem_of_cons; [done|].
        destruct (Hstack y Hy) as [Hh Hm]. split; [done|]. apply Hmono; [by apply (bi_covered _ _ I)|done].
  - assert (Hmem : forall y, y ∈ elements (dom (mem s)) -> covered (bitmap s) y).
    { intros y Hy. apply (bi_covered _ _ I). apply elem_of_elements, elem_of_dom in Hy. done. }
    unfold work_left, whites. cbn [bitmap liveBits mem stack s' with_stack with_bitmap].
    destruct (is_set (bitmap s) x) eqn:Em.
    + destruct Hl as [->|[-> Hnm]]; [|by exfalso; apply Hnm].
      assert (E : List.filter (fun y => negb (is_set b' y)) (elements (dom (mem s))) = List.filter (fun y => negb (is_set (bitmap s) y)) (elements (dom (mem s)))).
      { apply filter_ext_in. intros y Hy%list_elem_of_In%Hmem. rewrite Hset by done. destruct (Z.eqb_spec y x) as [->|]; [by rewrite Em|done]. }
      rewrite E. lia.
    + pose (f y := negb (is_set (bitmap s) y)). pose (g y := if y =? x then false else f y).
      assert (E : List.filter (fun y => negb (is_set b' y)) (elements (dom (mem s))) = List.filter g (elements (dom (mem s)))).
      { apply filter_ext_in. intros y Hy%list_elem_of_In%Hmem. rewrite Hset by done. unfold g, f. by destruct (y =? x). }
      pose proof (filter_one_less f g x (elements (dom (mem s))) (NoDup_elements _)) as Hless. rewrite E.
      fold f. rewrite <- Hless; [destruct Hl as [->|[-> _]]; cbn [length]; lia| | | |].
      * apply elem_of_elements, elem_of_dom, Hx.
      * unfold f. by rewrite Em.
      * unfold g. by rewrite Z.eqb_refl.
      * intros y Hy. unfold g. by rewrite (proj2 (Z.eqb_neq _ _) Hy).
Qed.

Lemma stack_has_room s x : bits_inv env s -> in_heap s x -> ~ marked s x -> Z.of_nat (length (stack s)) < stackRoom env.
Proof.
  intros I Hx Hnm. pose proof (bi_room _ _ I). destruct (bi_stack _ _ I) as [Hnd Hstack].
  enough (length (stack s) <= size (mem s))%nat by lia.
  rewrite <- (size_list_to_set (C := gset Z)) by done. rewrite <- size_dom. apply subseteq_size.
  intros y Hy%elem_of_list_to_set. apply elem_of_dom, Hstack, Hy.
Qed.

Lemma markObjectNonNull_spec s x checkFinger : bits_inv env s -> in_heap s x ->
  exists b l, markObjectNonNull NDEBUG env x checkFinger s = Some (with_stack l (with_bitmap b s)) /\
    let s' := with_stack l (with_bitmap b s) in
    bits_inv env s' /\ (forall y, covered (bitmap s) y -> marked s' y <-> marked s y \/ y = x) /\
    base b = base (bitmap s) /\ words b = words (bitmap s) /\
    l = (if negb (is_set (bitmap s) x) && checkFinger && (x <? finger s) then [x] else []) ++ stack s /\
    (work_left s' <= work_left s)%nat.
Proof.
  intros I Hx. pose proof (in_heap_nonzero s x I Hx) as Hz. pose proof (bi_covered _ _ I x Hx) as Hc.
  unfold markObjectNonNull. rewrite asserted_true by (by rewrite (proj2 (Z.eqb_neq _ _) Hz)).
  rewrite asserted_opt_true by by apply valid_object.
  destruct (Z.ltb_spec x (immuneLimit env)) as [Him|Him].
  - pose proof (bi_immune _ _ I x Hx Him) as Hm. rewrite asserted_opt_true by (rewrite isMarked_spec by done; by rewrite Hm).
    exists (bitmap s), (stack s). split; [by destruct s|]. unfold marked in Hm. rewrite Hm. cbn [negb andb app].
    assert (E : with_stack (stack s) (with_bitmap (bitmap s) s) = s) by by destruct s. rewrite E. split; [done|].
    split; [intros y Hy; split; [by left|]; by intros [? | ->]|]. split; [done|]. split; [done|]. split; [done|lia].
  - unfold dvmHeapBitmapSetAndReturnObjectBit.
    destruct (set_bit_spec NDEBUG (bitmap s) x true (bi_ok _ _ I) Hc) as (old & b' & -> & Hold & Hok & Hbase & Hwords & _ & Hset).
    specialize (Hold eq_refl). cbn [mbind option_bind].
    assert (Hmk : forall l, forall y, covered (bitmap s) y -> marked (with_stack l (with_bitmap b' s)) y <-> marked s y \/ y = x).
    { intros l y Hy. unfold marked. cbn [bitmap with_stack with_bitmap]. rewrite Hset by done. rewrite orb_true_iff, Z.eqb_eq. tauto. }
    destruct (Z.eqb_spec old 0) as [->|Hne]; cbn [negb] in Hold; rewrite <- Hold; cbn [negb andb].
    + assert (Hnm : ~ marked s x) by (unfold marked; by rewrite <- Hold).
      cbn [finger with_bitmap]. destruct checkFinger; cbn [andb]; [destruct (Z.ltb_spec x (finger s)) as [Hf|Hf]|].
      * unfold markStackPush. cbn [stack with_bitmap]. rewrite (proj2 (Z.ltb_lt _ _)) by by apply (stack_has_room s x).
        rewrite asserted_true by (by rewrite (proj2 (Z.eqb_neq _ _) Hz)). exists b', (x :: stack s). split; [done|].
        destruct (marked_one s x b' (x :: stack s) I Hx Hok Hbase Hwords Hset ltac:(by right)) as [I' Hw]. split; [exact I'|].
        split; [apply Hmk|]. done.
      * exists b', (stack s). split; [by destruct s|]. destruct (marked_one s x b' (stack s) I Hx Hok Hbase Hwords Hset ltac:(by left)) as [I' Hw].
        split; [exact I'|]. split; [apply Hmk|]. done.
      * exists b', (stack s). split; [by destruct s|]. destruct (marked_one s x b' (stack s) I Hx Hok Hbase Hwords Hset ltac:(by left)) as [I' Hw].
        split; [exact I'|]. split; [apply Hmk|]. done.
    + exists b', (stack s). split; [by destruct s|]. destruct (marked_one s x b' (stack s) I Hx Hok Hbase Hwords Hset ltac:(by left)) as [I' Hw].
      split; [exact I'|]. split; [apply Hmk|]. done.
Qed.

(** ** Marking of a list *)

Record marks (s s' : Gc) (l : list Z) : Prop := {
  mk_frame : exists b st, s' = with_stack st (with_bitmap b s);
  mk_inv : bits_inv env s';
  mk_base : base (bitmap s') = base (bitmap s);
  mk_words : words (bitmap s') = words (bitmap s);
  mk_marked : forall y, covered (bitmap s) y -> marked s' y <-> marked s y \/ (y ∈ l /\ y <> 0);
  mk_stack : exists new, stack s' = new ++ stack s /\
    forall y, y ∈ new <-> y ∈ l /\ y <> 0 /\ ~ marked s y /\ y < finger s;
  mk_work : (work_left s' <= work_left s)%nat
}.

Lemma mk_mem s s' l : marks s s' l -> mem s' = mem s.
Proof. intros [(b & st & ->)]. done. Qed.

Lemma mk_finger s s' l : marks s s' l -> finger s' = finger s.
Proof. intros [(b & st & ->)]. done. Qed.

Lemma mk_heap s s' l y : marks s s' l -> in_heap s' y <-> in_heap s y.
Proof. intros M. unfold in_heap. by rewrite (mk_mem _ _ _ M). Qed.

Lemma mk_covered s s' l y : marks s s' l -> covered (bitmap s') y <-> covered (bitmap s) y.
Proof. intros M. unfold covered. by rewrite (mk_base _ _ _ M), (mk_words _ _ _ M). Qed.

Lemma mk_mono s s' l y : marks s s' l -> covered (bitmap s) y -> marked s y -> marked s' y.
Proof. intros M Hc Hm. apply (mk_marked _ _ _ M y Hc). by left. Qed.

Lemma marks_nil s : bits_inv env s -> marks s s [].
Proof.
  intros I. constructor; try done.
  - exists (bitmap s), (stack s). by destruct s.
  - intros y Hy. split; [by left|]. intros [?|[[]%not_elem_of_nil _]]; done.
  - exists []. split; [done|]. intros y. split; [intros []%not_elem_of_nil|intros [[]%not_elem_of_nil _]].
Qed.

Lemma marks_app s s1 s2 l1 l2 : marks s s1 l1 -> marks s1 s2 l2 ->
  (forall y, y ∈ l1 -> y <> 0 -> in_heap s y) -> (forall y, y ∈ l2 -> y <> 0 -> in_heap s y) -> bits_inv env s -> marks s s2 (l1 ++ l2).
Proof.
  intros M1 M2 H1 H2 I. constructor.
  - destruct (mk_frame _ _ _ M1) as (b1 & st1 & ->), (mk_frame _ _ _ M2) as (b2 & st2 & ->). by exists b2, st2.
  - apply (mk_inv _ _ _ M2).
  - by rewrite (mk_base _ _ _ M2), (mk_base _ _ _ M1).
  - by rewrite (mk_words _ _ _ M2), (mk_words _ _ _ M1).
  - intros y Hy. rewrite (mk_marked _ _ _ M2) by by apply (mk_covered _ _ _ _ M1). rewrite (mk_marked _ _ _ M1) by done.
    rewrite elem_of_app. tauto.
  - destruct (mk_stack _ _ _ M1) as (n1 & E1 & Hn1). destruct (mk_stack _ _ _ M2) as (n2 & E2 & Hn2).
    exists (n2 ++ n1). split; [by rewrite E2, E1, <- app_assoc|]. rewrite (mk_finger _ _ _ M1) in Hn2. intros y.
    rewrite !elem_of_app, Hn1, Hn2.
    assert (Hm : y ∈ l2 -> y <> 0 -> marked s1 y <-> marked s y \/ (y ∈ l1 /\ y <> 0)).
    { intros Hy Hz. apply (mk_marked _ _ _ M1). apply (bi_covered _ _ I). by apply H2. }
    destruct (decide (y ∈ l1)); tauto.
  - pose proof (mk_work _ _ _ M1). pose proof (mk_work _ _ _ M2). lia.
Qed.

Lemma markObject_marks s x : bits_inv env s -> (x <> 0 -> in_heap s x) ->
  exists s', markObject NDEBUG env x s = Some s' /\ marks s s' [x].
Proof.
  intros I Hx. unfold markObject. destruct (Z.eqb_spec x 0) as [->|Hz]; cbn [negb].
  - exists s. split; [done|]. destruct (marks_nil s I) as [F I' B W M S Wk]. constructor; try done.
    + intros y Hy. split; [by left|]. by intros [?|[->%list_elem_of_singleton ?]].
    + exists []. split; [done|]. intros y. split; [intros []%not_elem_of_nil|]. by intros (->%list_elem_of_singleton & ? & _).
  - destruct (markObjectNonNull_spec s x true I (Hx Hz)) as (b & l & -> & I' & M & B & W & El & Wk). eexists. split; [reflexivity|].
    constructor; try done; [by exists b, l|..].
    + intros y Hy. rewrite M by done. rewrite list_elem_of_singleton. split; (intros [?|?]; [by left|right]); [by subst|tauto].
    + cbn [stack with_stack]. rewrite El, andb_true_r. eexists. split; [reflexivity|]. intros y. unfold marked.
      rewrite list_elem_of_singleton. destruct (is_set (bitmap s) x) eqn:Em; cbn [negb andb].
      * split; [intros []%not_elem_of_nil|]. intros (-> & _ & H & _). by rewrite Em in H.
      * destruct (Z.ltb_spec x (finger s)); [rewrite list_elem_of_singleton|].
        -- split; [intros ->|tauto]. rewrite Em. done.
        -- split; [intros []%not_elem_of_nil|]. intros (-> & _ & _ & ?). lia.
Qed.

Lemma visit_marks l : forall s, bits_inv env s -> (forall y, y ∈ l -> y <> 0 -> in_heap s y) ->
  exists s', visit (markObject NDEBUG env) l s = Some s' /\ marks s s' l.
Proof.
  induction l as [|x l IH]; intros s I Hl; [exists s; split; [done|by apply marks_nil]|]. cbn [visit].
  destruct (markObject_marks s x I) as (s1 & -> & M1); [intros Hz; apply Hl; [apply elem_of_cons; by left|done]|].
  assert (Hl' : forall y, y ∈ l -> y <> 0 -> in_heap s y) by (intros y Hy; apply Hl; apply elem_of_cons; by right).
  destruct (IH s1 (mk_inv _ _ _ M1)) as (s2 & E2 & M2); [intros y Hy Hz; apply (mk_heap _ _ _ _ M1), Hl'; done|].
  exists s2. cbn [mbind option_bind]. split; [exact E2|]. apply (marks_app s s1 s2 [x] l M1 M2); [|exact Hl'|exact I].
  intros y ->%list_elem_of_singleton Hz. apply Hl; [apply elem_of_cons; by left|done].
Qed.

End Marking.
