(* ===== verification/GcScanning.v ===== *)
(** * Scanning: an object is scanned by marking what it refers to

    Each of the scanning routines is a visit of the strong references of the object, and
    of a reference object the referent is looked at last. *)

From stdpp Require Import gmap.
From S2P Require Import Prelude Bits Search RegTypes HeapBitmap CardTable GcHeap MarkSweep GcMarking.

Section Scanning.
Context (NDEBUG : bool) (env : Env).

Abbreviation markObject := (markObject NDEBUG env).

Lemma asserted_Some {A} b (k : option A) r : asserted NDEBUG b k = Some r -> k = Some r.
Proof. unfold asserted. by destruct (_ || _). Qed.

Lemma asserted_opt_Some {A} b (k : option A) r : asserted_opt NDEBUG b k = Some r -> k = Some r.
Proof. unfold asserted_opt. destruct NDEBUG; [done|]. destruct b as [[]|]; by cbn. Qed.

(** Marking does not write to memory. *)
Lemma markObject_mem x s s' : markObject x s = Some s' -> mem s' = mem s.
Proof.
  unfold MarkSweep.markObject, markObjectNonNull. destruct (negb _); [|by intros [= <-]]. intros H%asserted_Some%asserted_opt_Some. revert H.
  destruct (_ <? _); [by intros [= <-]%asserted_opt_Some|]. intros H. apply bind_Some in H as ([old b] & _ & H). revert H.
  destruct (old =? 0); [|by intros [= <-]]. destruct (_ && _); [|by intros [= <-]]. unfold markStackPush.
  destruct (_ <? _); [|done]. by intros [= <-]%asserted_Some.
Qed.

(** The fields of an object at some offsets. *)
Definition fields_at (m : gmap Z Object) (obj : Z) (offs : list Z) : list Z := map (fun off => default 0 (dvmGetFieldObject m obj off)) offs.

Definition has_fields (m : gmap Z Object) (obj : Z) (offs : list Z) : Prop :=
  forall off, off ∈ offs -> is_Some (dvmGetFieldObject m obj off).

(** A step of a scan: a field is read and marked. *)
Lemma scan_step {A} m obj off offs (f : Gc -> option A) g s : mem s = m -> has_fields m obj (off :: offs) ->
  (forall s', mem s' = m -> f s' = s'' ← visit markObject (fields_at m obj offs) s'; g s'') ->
  (ref ← dvmGetFieldObject (mem s) obj off; s ← markObject ref s; f s) =
  s'' ← visit markObject (fields_at m obj (off :: offs)) s; g s''.
Proof.
  intros Hm Hf H. destruct (Hf off) as [v Ev]; [apply elem_of_cons; by left|]. unfold fields_at. cbn [map visit].
  rewrite Hm, Ev, bind_some. cbn [default from_option id].
  destruct (markObject v s) as [s1|] eqn:E; [|reflexivity]. rewrite !bind_some. apply H. rewrite <- Hm. by apply (markObject_mem v).
Qed.

Lemma has_fields_tail m obj off offs : has_fields m obj (off :: offs) -> has_fields m obj offs.
Proof. intros H o Ho. apply H, elem_of_cons. by right. Qed.

Lemma scan_bits_S n offsets obj s : scan_bits NDEBUG env (S n) offsets obj s =
  if offsets =? 0 then Some s
  else ref ← dvmGetFieldObject (mem s) obj (CLASS_OFFSET_FROM_CLZ (CLZ offsets)); s ← markObject ref s;
       scan_bits NDEBUG env n (Z.ldiff offsets (Z.shiftr CLASS_HIGH_BIT (CLZ offsets))) obj s.
Proof. reflexivity. Qed.

Lemma bind_ret {A} (x : option A) : (x ≫= Some) = x.
Proof. by destruct x. Qed.

Lemma scan_bits_visit m obj fuel : forall n offsets s, (n <= fuel <= 32)%nat -> 0 <= offsets < 2 ^ Z.of_nat n -> mem s = m ->
  has_fields m obj (map CLASS_OFFSET_FROM_CLZ (positions offsets (32 - Z.of_nat n) n)) ->
  scan_bits NDEBUG env fuel offsets obj s =
  visit markObject (fields_at m obj (map CLASS_OFFSET_FROM_CLZ (positions offsets (32 - Z.of_nat n) n))) s.
Proof.
  induction fuel as [|fuel IH]; intros n word s Hn Hw Hm Hf.
  { assert (n = 0%nat) as -> by lia. change (2 ^ Z.of_nat 0) with 1 in Hw. assert (word = 0) as -> by lia. reflexivity. }
  rewrite scan_bits_S. destruct (Z.eqb_spec word 0) as [->|Hne]; [by rewrite positions_zero|].
  destruct (first_position word (32 - Z.of_nat n) n ltac:(lia) ltac:(lia) ltac:(lia)) as (n' & Hn' & Hw' & Eclz & E).
  cbv zeta in E, Hw'. rewrite E in *. cbn [map] in Hf |- *. change CLASS_HIGH_BIT with highBit.
  rewrite <- (bind_ret (visit _ _ s)). apply scan_step; [done|exact Hf|]. intros s' Hm'. rewrite bind_ret.
  apply (IH n'); [lia|done|done|by apply has_fields_tail in Hf].
Qed.

Lemma scan_ifields_visit m obj n : forall ifields s, (n <= length ifields)%nat -> mem s = m -> has_fields m obj (take n ifields) ->
  scan_ifields NDEBUG env n ifields obj s = visit markObject (fields_at m obj (take n ifields)) s.
Proof.
  induction n as [|n IH]; intros ifields s Hl Hm Hf; [reflexivity|]. destruct ifields as [|f ifields]; [cbn in Hl; lia|].
  cbn [scan_ifields take length] in *. rewrite <- (bind_ret (visit _ _ s)). apply scan_step; [done|exact Hf|].
  intros s' Hm'. rewrite bind_ret. apply IH; [lia|done|by apply has_fields_tail in Hf].
Qed.

(** The offsets of the fields of a class and of its superclasses. *)
Fixpoint chain_offsets (m : gmap Z Object) (n : nat) (c : Z) : list Z :=
  if c =? 0 then []
  else match n with
    | O => []
    | S n => match class_at m c with
        | Some k => take (Z.to_nat (ifieldRefCount k)) (ifields k) ++ chain_offsets m n (super k)
        | None => []
        end
    end.

Lemma chain_offsets_spec m n : m !! 0 = None -> forall c off, chain_ends m n c -> off ∈ chain_offsets m n c <-> ref_offset m c off.
Proof.
  intros H0. assert (Hn : forall off, ~ ref_offset m 0 off).
  { intros off H. inversion H as [c k o E|c k o E]; subst; unfold class_at in E; by rewrite H0 in E. }
  induction n as [|n IH]; intros c off [->|Hc]; cbn [chain_offsets]; try done.
  1, 2: rewrite Z.eqb_refl; split; [by intros ?%not_elem_of_nil|by intros ?%Hn].
  destruct (Z.eqb_spec c 0) as [->|Hz]; [split; [by intros ?%not_elem_of_nil|by intros ?%Hn]|].
  destruct Hc as (k & Ek & Hl & Hc). rewrite Ek, elem_of_app, IH by done. split.
  - intros [H|H]; [by apply (ref_offset_own m c k)|]. apply (ref_offset_super m c k); [done| |done]. intros E. rewrite E in H. by apply Hn in H.
  - intros H. inversion H as [c' k' o E Ho|c' k' o E Hs Ho]; subst; rewrite Ek in E; injection E as <-; [by left|by right].
Qed.

Lemma visit_mem l : forall s s', visit markObject l s = Some s' -> mem s' = mem s.
Proof.
  induction l as [|x l IH]; intros s s'; cbn [visit]; [by intros [= <-]|]. intros H. apply bind_Some in H as (s1 & E1 & E2).
  rewrite (IH _ _ E2). by apply (markObject_mem x).
Qed.

Lemma fields_at_app m obj l1 l2 : fields_at m obj (l1 ++ l2) = fields_at m obj l1 ++ fields_at m obj l2.
Proof. apply map_app. Qed.

Lemma scan_supers_visit m obj n : forall c s, chain_ends m n c -> mem s = m -> has_fields m obj (chain_offsets m n c) ->
  scan_supers NDEBUG env n c obj s = visit markObject (fields_at m obj (chain_offsets m n c)) s.
Proof.
  induction n as [|n IH]; intros c s [->|Hc] Hm Hf; try done. cbn [scan_supers chain_offsets] in *.
  destruct (Z.eqb_spec c 0) as [->|Hz]; [reflexivity|]. destruct Hc as (k & Ek & Hl & Hc). rewrite Hm, Ek, bind_some. rewrite Ek in Hf.
  rewrite fields_at_app, visit_app, (scan_ifields_visit m) by (done || (intros o Ho; apply Hf, elem_of_app; by left)).
  destruct (visit markObject (fields_at m obj (take _ _)) s) as [s1|] eqn:E; [|reflexivity]. rewrite !bind_some.
  apply IH; [done|by rewrite (visit_mem _ _ _ E)|]. intros o Ho. apply Hf, elem_of_app. by right.
Qed.

(** ** Fields *)

Lemma scanFields_visit m obj o : m !! 0 = None -> m !! obj = Some o -> object_ok env m obj o -> is_array env m o = false ->
  exists l, (forall v, v ∈ l <-> exists off, ref_offset m (clazz o) off /\ slots o !! off = Some v) /\
    forall s, mem s = m -> scanFields NDEBUG env obj s = visit markObject l s.
Proof.
  intros H0 Ho ((k & Ek & Hagree & _) & Hchain & _ & Hslots) Harr. specialize (Hslots Harr).
  assert (Ec : class_of m obj = Some k) by (unfold class_of; by rewrite Ho).
  assert (Hget : forall off, dvmGetFieldObject m obj off = slots o !! off) by (intros; unfold dvmGetFieldObject; by rewrite Ho).
  assert (Hall : forall offs, (forall off, off ∈ offs <-> ref_offset m (clazz o) off) -> has_fields m obj offs /\
    forall v, v ∈ fields_at m obj offs <-> exists off, ref_offset m (clazz o) off /\ slots o !! off = Some v).
  { intros offs Hoffs. split; [intros off Hoff; rewrite Hget; by apply Hslots, Hoffs|]. intros v. unfold fields_at.
    rewrite list_elem_of_In, in_map_iff. split.
    - intros (off & E & Hin%list_elem_of_In%Hoffs). exists off. split; [done|]. rewrite Hget in E. destruct (Hslots off Hin) as [w Ew].
      rewrite Ew in E |- *. by subst.
    - intros (off & Hin & E). exists off. rewrite Hget, E. split; [done|]. by apply list_elem_of_In, Hoffs. }
  destruct (Z.eqb_spec (refOffsets k) CLASS_WALK_SUPER) as [Ew|Ew].
  - destruct (Hall (chain_offsets m (S (size m)) (clazz o))) as [Hf Hv]; [intros off; by apply chain_offsets_spec|].
    exists (fields_at m obj (chain_offsets m (S (size m)) (clazz o))). split; [exact Hv|]. intros s Hm. unfold scanFields.
    rewrite Hm, Ec, bind_some, (proj2 (Z.eqb_eq _ _) Ew). cbn [negb]. rewrite Ho, bind_some.
    by apply scan_supers_visit.
  - destruct Hagree as [?|[Hin Hagree]]; [done|]. pose (offs := map CLASS_OFFSET_FROM_CLZ (positions (refOffsets k) 0 32)).
    destruct (Hall offs) as [Hf Hv].
    { intros off. rewrite Hagree. unfold offs, positions. rewrite list_elem_of_In, in_map_iff. split.
      - intros (j & <- & [Hj Hb]%filter_In). apply list_elem_of_In, elem_of_seqZ in Hj. exists j. unfold CLASS_OFFSET_FROM_CLZ.
        split; [lia|]. split; [unfold CLASS_OFFSET_ALIGNMENT, CLASS_SMALLEST_OFFSET; lia|done].
      - intros (j & Hj & -> & Hb). exists j. split; [unfold CLASS_OFFSET_FROM_CLZ, CLASS_OFFSET_ALIGNMENT, CLASS_SMALLEST_OFFSET; lia|].
        apply filter_In. split; [apply list_elem_of_In, elem_of_seqZ; lia|done]. }
    exists (fields_at m obj offs). split; [exact Hv|]. intros s Hm. unfold scanFields.
    rewrite Hm, Ec, bind_some, (proj2 (Z.eqb_neq _ _) Ew). cbn [negb].
    by apply (scan_bits_visit m obj 32 32 (refOffsets k) s).
Qed.

(** ** Objects *)

(** A routine that visits a list, in a memory. *)
Definition scans (m : gmap Z Object) (f : Gc -> option Gc) (l : list Z) : Prop := forall s, mem s = m -> f s = visit markObject l s.

Lemma scans_then m f g l1 l2 : scans m f l1 -> scans m g l2 -> scans m (fun s => s ← f s; g s) (l1 ++ l2).
Proof.
  intros H1 H2 s Hm. rewrite visit_app, H1 by done. destruct (visit markObject l1 s) as [s1|] eqn:E; [|reflexivity].
  rewrite !bind_some. apply H2. by rewrite (visit_mem _ _ _ E).
Qed.

Lemma scans_one m x : scans m (markObject x) [x].
Proof. intros s Hm. cbn [visit]. by rewrite bind_ret. Qed.

Lemma scans_if m (b : bool) f l : scans m f l -> scans m (fun s => if b then f s else Some s) (if b then l else []).
Proof. intros H s Hm. destruct b; [by apply H|reflexivity]. Qed.

(** The values of the static fields with references. *)
Definition static_refs (k : ClassObject) : list Z := map snd (List.filter (fun f => (f.1 =? 91) || (f.1 =? 76)) (sfields k)).

Lemma scans_statics m k : scans m (scanStaticFields NDEBUG env k) (static_refs k).
Proof.
  unfold scanStaticFields, static_refs. induction (sfields k) as [|f l IH]; intros s Hm; [reflexivity|]. cbn [visit List.filter].
  assert (Ef : scan_sfield NDEBUG env f s = if (f.1 =? 91) || (f.1 =? 76) then markObject f.2 s else Some s) by reflexivity.
  rewrite Ef. destruct ((f.1 =? 91) || (f.1 =? 76)); cbn [map visit]; [|rewrite bind_some; by apply IH].
  destruct (markObject f.2 s) as [s1|] eqn:E; [|reflexivity]. rewrite !bind_some. apply IH. by rewrite (markObject_mem _ _ _ E).
Qed.

Definition class_refs (o : Object) (k : ClassObject) (fields : list Z) : list Z :=
  [clazz o] ++ (if is_class_flag_set k CLASS_ISARRAY then [elementClass k] else []) ++
  (if status k >? CLASS_IDX then [super k] else []) ++ [classLoader k] ++ fields ++ static_refs k ++
  (if status k >? CLASS_IDX then interfaces k else []).

Lemma scans_class m x o k fields : m !! x = Some o -> is_class_object env o = true -> object_ok env m x o -> asClass o = Some k ->
  scans m (scanFields NDEBUG env x) fields -> scans m (scanClassObject NDEBUG env x) (class_refs o k fields).
Proof.
  intros Ho Hc ((c & Ec & _ & Hflag) & _) Ek Hf s Hm. unfold scanClassObject.
  assert (Ed : dvmIsClassObject (mem s) x = Some true).
  { unfold dvmIsClassObject, class_of. by rewrite Hm, Ho, bind_some, Ec, bind_some, Hflag. }
  rewrite asserted_opt_true by done. rewrite Hm, Ho, bind_some, Ek, bind_some. clear Ed. revert s Hm.
  change (scans m (fun s =>
    s ← markObject (clazz o) s;
    s ← (if is_class_flag_set k CLASS_ISARRAY then markObject (elementClass k) s else Some s);
    s ← (if status k >? CLASS_IDX then markObject (super k) s else Some s);
    s ← markObject (classLoader k) s;
    s ← scanFields NDEBUG env x s;
    s ← scanStaticFields NDEBUG env k s;
    if status k >? CLASS_IDX then scanInterfaces NDEBUG env k s else Some s) (class_refs o k fields)).
  unfold class_refs.
  apply (scans_then m _ _ [clazz o]); [apply scans_one|].
  apply (scans_then m (fun s => if is_class_flag_set k CLASS_ISARRAY then markObject (elementClass k) s else Some s)); [apply scans_if, scans_one|].
  apply (scans_then m (fun s => if status k >? CLASS_IDX then markObject (super k) s else Some s)); [apply scans_if, scans_one|].
  apply (scans_then m _ _ [classLoader k]); [apply scans_one|].
  apply (scans_then m _ _ fields); [exact Hf|].
  apply (scans_then m _ _ (static_refs k)); [apply scans_statics|].
  apply scans_if. by intros s Hm.
Qed.

Lemma class_refs_strong m x o k fields v : m !! x = Some o -> is_class_object env o = true -> asClass o = Some k ->
  (forall v, v ∈ fields <-> exists off, ref_offset m (clazz o) off /\ slots o !! off = Some v) ->
  v ∈ class_refs o k fields <-> strong env m x v.
Proof.
  intros Ho Hc Ek Hf. assert (Harr : is_array env m o = false) by (unfold is_array; by rewrite Hc).
  unfold class_refs. rewrite !elem_of_app, !list_elem_of_singleton. split.
  - intros [->|[H|[H|[->|[H|[H|H]]]]]].
    + by apply strong_class.
    + destruct (is_class_flag_set k CLASS_ISARRAY) eqn:E; [|by apply not_elem_of_nil in H]. apply list_elem_of_singleton in H as ->.
      by apply (strong_elementClass env m x o).
    + destruct (Z.gtb_spec (status k) CLASS_IDX); [|by apply not_elem_of_nil in H]. apply list_elem_of_singleton in H as ->.
      by apply (strong_super env m x o).
    + by apply (strong_loader env m x o).
    + apply Hf in H as (off & Hoff & Hs). by apply (strong_field env m x o off).
    + unfold static_refs in H. apply list_elem_of_In, in_map_iff in H as ([c w] & <- & [Hin Hch]%filter_In).
      apply (strong_static env m x o k c); try done; [by apply list_elem_of_In|]. cbn [fst] in Hch. lia.
    + destruct (Z.gtb_spec (status k) CLASS_IDX); [|by apply not_elem_of_nil in H]. by apply (strong_interface env m x o k).
  - intros H. destruct H as [o' E|o' off v E Ha Hoff Hs|o' v E Ha Hfl Hv|o' k' E Hc' Ek' Hfl|o' k' E Hc' Ek' Hst|o' k' E Hc' Ek'|o' k' c v E Hc' Ek' Hin Hch|o' k' v E Hc' Ek' Hst Hin];
      rewrite Ho in E; injection E as <-; try (rewrite Ek in Ek'; injection Ek' as <-).
    + by left.
    + do 4 right. left. apply Hf. by exists off.
    + by rewrite Harr in Ha.
    + right. left. rewrite Hfl. by apply list_elem_of_singleton.
    + do 2 right. left. rewrite (proj2 (Z.gtb_lt _ _)) by lia. by apply list_elem_of_singleton.
    + do 3 right. by left.
    + do 5 right. left. unfold static_refs. apply list_elem_of_In, in_map_iff. exists (c, v). split; [done|]. apply filter_In.
      split; [by apply list_elem_of_In|]. cbn [fst]. lia.
    + do 6 right. by rewrite (proj2 (Z.gtb_lt _ _)) by lia.
Qed.

(** An object is scanned: its strong references are marked, and if it is a reference its
    referent is looked at. *)
Lemma scanObject_visit m x o : m !! 0 = None -> m !! x = Some o -> object_ok env m x o ->
  exists l, (forall v, v ∈ l <-> strong env m x v) /\ forall s, mem s = m ->
    scanObject NDEBUG env x s =
    s1 ← visit markObject l s; if is_reference env m o then delayReferenceReferent NDEBUG env x s1 else Some s1.
Proof.
  intros H0 Ho Hok. pose proof Hok as ((c & Ec & _) & _ & Hbody & _). unfold is_reference.
  destruct (is_class_object env o) eqn:Hc; cbn [negb andb].
  - destruct (Hbody eq_refl) as [k Ek]. assert (Harr : is_array env m o = false) by (unfold is_array; by rewrite Hc).
    destruct (scanFields_visit m x o H0 Ho Hok Harr) as (fields & Hv & Hf). exists (class_refs o k fields).
    split; [intros v; by apply class_refs_strong|]. intros s Hm. rewrite bind_ret. unfold scanObject. rewrite Hm, Ho, bind_some.
    pose proof (scans_class m x o k fields Ho Hc Hok Ek Hf s Hm) as E. unfold is_class_object in Hc. by rewrite Hc.
  - destruct (is_array env m o) eqn:Harr; cbn [negb andb].
    + assert (Hfl : is_class_flag_set c CLASS_ISARRAY = true) by (unfold is_array, has_flag_of in Harr; by rewrite Hc, Ec in Harr).
      pose (l := [clazz o] ++ if is_class_flag_set c CLASS_ISOBJECTARRAY then contents o else []). exists l. split.
      * intros v. unfold l. rewrite elem_of_app, list_elem_of_singleton. split.
        -- intros [->|H]; [by apply strong_class|]. destruct (is_class_flag_set c CLASS_ISOBJECTARRAY) eqn:E; [|by apply not_elem_of_nil in H].
           apply (strong_element env m x o); try done. unfold has_flag_of. by rewrite Ec.
        -- intros H. destruct H as [o' E|o' off v E Ha Hoff Hs|o' v E Ha Hfl' Hv|o' k' E Hc' Ek' Hfl'|o' k' E Hc' Ek' Hst|o' k' E Hc' Ek'|o' k' ch v E Hc' Ek' Hin Hch|o' k' v E Hc' Ek' Hst Hin];
             rewrite Ho in E; injection E as <-; try (by rewrite Hc in Hc'); [by left|by rewrite Harr in Ha|].
           right. unfold has_flag_of in Hfl'. rewrite Ec in Hfl'. by rewrite Hfl'.
      * intros s Hm. rewrite bind_ret. unfold scanObject. rewrite Hm, Ho, bind_some. unfold is_class_object in Hc. rewrite Hc, Ec, bind_some, Hfl.
        unfold scanArrayObject. rewrite Hm, Ho, bind_some, Ec, bind_some.
        apply (scans_then m (markObject (clazz o)) (fun s => if is_class_flag_set c CLASS_ISOBJECTARRAY then visit markObject (contents o) s else Some s)); [apply scans_one| |done].
        by apply scans_if.
    + assert (Hfl : is_class_flag_set c CLASS_ISARRAY = false) by (unfold is_array, has_flag_of in Harr; by rewrite Hc, Ec in Harr).
      destruct (scanFields_visit m x o H0 Ho Hok Harr) as (fields & Hv & Hf). exists ([clazz o] ++ fields). split.
      * intros v. rewrite elem_of_app, list_elem_of_singleton. split.
        -- intros [->|H]; [by apply strong_class|]. apply Hv in H as (off & Hoff & Hs). by apply (strong_field env m x o off).
        -- intros H. destruct H as [o' E|o' off v E Ha Hoff Hs|o' v E Ha Hfl' Hv'|o' k' E Hc' Ek' Hfl'|o' k' E Hc' Ek' Hst|o' k' E Hc' Ek'|o' k' ch v E Hc' Ek' Hin Hch|o' k' v E Hc' Ek' Hst Hin];
             rewrite Ho in E; injection E as <-; try (by rewrite Hc in Hc'); [by left| |by rewrite Harr in Ha].
           right. apply Hv. by exists off.
      * intros s Hm. unfold scanObject. rewrite Hm, Ho, bind_some. unfold is_class_object in Hc. rewrite Hc, Ec, bind_some, Hfl.
        unfold scanDataObject. rewrite Hm, Ho, bind_some, Ec, bind_some.
        assert (Ef : has_flag_of m o CLASS_ISREFERENCE = is_class_flag_set c CLASS_ISREFERENCE) by (unfold has_flag_of; by rewrite Ec).
        rewrite Ef, visit_app, (scans_one m (clazz o)) by done.
        destruct (visit markObject [clazz o] s) as [s1|] eqn:E1; [|reflexivity]. rewrite !bind_some.
        rewrite Hf by by rewrite (visit_mem _ _ _ E1). reflexivity.
Qed.

End Scanning.
