(* ===== verification/GcOffsets.v ===== *)
(** * The offsets of references that linking computes

    [computeRefOffsets] gives each class a word with a bit per reference field, or the
    mark that the superclasses have to be walked. The collector reads both: the word it
    finds stands for the fields of the class and of its superclasses. *)

From stdpp Require Import gmap.
From S2P Require Import Prelude Bits Search RegTypes HeapBitmap CardTable GcHeap MarkSweep GcMarking GcScanning.

(** An offset that can be in the word. *)
Definition encodable (f : Z) : Prop := exists j, 0 <= j < 32 /\ f = 4 * j + 8.

Lemma encode_offset f : 8 <= f < 2 ^ 32 -> Z.land f 3 = 0 ->
  (CLASS_CAN_ENCODE_OFFSET f = true -> exists j, 0 <= j < 32 /\ f = 4 * j + 8 /\ CLASS_BIT_FROM_OFFSET f = 2 ^ (31 - j)).
Proof.
  intros Hf Hal. unfold CLASS_CAN_ENCODE_OFFSET, CLASS_BIT_FROM_OFFSET, CLASS_BIT_NUMBER_FROM_OFFSET, CLASS_SMALLEST_OFFSET, CLASS_OFFSET_ALIGNMENT, CLASS_BITS_PER_WORD.
  rewrite wrapU_id by (unfold inU; lia). intros Hj%Z.ltb_lt. rewrite (land_mask 2) in Hal by lia. change (2 ^ 2) with 4 in Hal.
  exists ((f - 8) / 4). assert (H0 : 0 <= (f - 8) / 4) by (apply Z.div_pos; lia).
  pose proof (Z_div_mod_eq_full (f - 8) 4). assert (Hm : (f - 8) mod 4 = 0) by (rewrite Zminus_mod, Hal; done).
  split; [done|]. split; [lia|]. unfold CLASS_HIGH_BIT, CLASS_BITS_PER_WORD. rewrite Z.shiftr_div_pow2, Z.shiftl_1_l by done.
  change (32 - 1) with 31. by rewrite Z.pow_sub_r by lia.
Qed.

Lemma pow2_inU n : 0 <= n < 32 -> inU 32 (2 ^ n).
Proof. intros Hn. split; [lia|]. apply Z.pow_lt_mono_r; lia. Qed.

Lemma ref_offsets_loop_spec NDEBUG n : forall fields offsets r, (forall f, f ∈ take n fields -> 8 <= f < 2 ^ 32 /\ Z.land f 3 = 0) -> inU 32 offsets ->
  ref_offsets_loop NDEBUG n fields offsets = Some r ->
  r = CLASS_WALK_SUPER \/ (inU 32 r /\ (forall f, f ∈ take n fields -> encodable f) /\
    forall j, 0 <= j < 32 -> Z.testbit r (31 - j) = true <-> Z.testbit offsets (31 - j) = true \/ 4 * j + 8 ∈ take n fields).
Proof.
  induction n as [|n IH]; intros fields offsets r Hf Ho; cbn [ref_offsets_loop take].
  { intros [= <-]. right. split; [done|]. split; [by intros f ?%not_elem_of_nil|]. intros j Hj. split; [by left|]. by intros [?|?%not_elem_of_nil]. }
  destruct fields as [|f fields]; [done|]. cbn [take] in *. destruct (Hf f) as [Hf8 Hal]; [apply elem_of_cons; by left|].
  assert (Hf' : forall f', f' ∈ take n fields -> 8 <= f' < 2 ^ 32 /\ Z.land f' 3 = 0) by (intros f' Hf'; apply Hf, elem_of_cons; by right).
  intros H%asserted_Some%asserted_Some. destruct (CLASS_CAN_ENCODE_OFFSET f) eqn:E; [|injection H as <-; by left].
  apply asserted_Some in H. destruct (encode_offset f Hf8 Hal E) as (j & Hj & Ef & Eb). rewrite Eb in H.
  assert (Hor : inU 32 (Z.lor offsets (2 ^ (31 - j)))) by (apply lor_inU; [done|apply pow2_inU; lia]).
  destruct (IH fields _ r Hf' Hor H) as [?|(Hr & Henc & Hbits)]; [by left|right]. split; [done|]. split.
  - intros f' [->|?]%elem_of_cons; [by exists j|by apply Henc].
  - intros i Hi. rewrite Hbits, Z.lor_spec, orb_true_iff, Z.pow2_bits_eqb, Z.eqb_eq, elem_of_cons by lia.
    assert (Hij : 31 - j = 31 - i <-> 4 * i + 8 = f) by lia. rewrite Hij. tauto.
Qed.

(** The superclass of a class, if any, was linked. *)
Definition super_linked (m : gmap Z Object) (k : ClassObject) (word : option Z) : Prop :=
  (super k = 0 /\ word = None) \/ (super k <> 0 /\ exists s, class_at m (super k) = Some s /\ word = Some (refOffsets s) /\ offsets_agree m (super k) s).

(** C10. The word of a class tells the collector where its references are. When
    [computeRefOffsets] ends on a class whose superclass was linked, and its value is the
    word of the class, then the word is the mark to walk the superclasses, or it has a bit
    for exactly the offsets of the references of the class and of all its superclasses:
    the fast path of the scan visits what the walk would. By induction over the
    superclasses this holds of every class that is linked. *)
Theorem linked_offsets_agree NDEBUG m c k word : class_at m c = Some k -> super_linked m k word ->
  (forall f, f ∈ take (Z.to_nat (ifieldRefCount k)) (ifields k) -> 8 <= f < 2 ^ 32 /\ Z.land f 3 = 0) ->
  computeRefOffsets NDEBUG word k = Some (refOffsets k) -> offsets_agree m c k.
Proof.
  intros Ek Hs Hf H. unfold computeRefOffsets in H.
  assert (Hsuper : refOffsets k = CLASS_WALK_SUPER \/ inU 32 (default 0 word) /\ default 0 word <> CLASS_WALK_SUPER /\ forall off,
    (super k <> 0 /\ ref_offset m (super k) off) <-> exists j, 0 <= j < 32 /\ off = 4 * j + 8 /\ Z.testbit (default 0 word) (31 - j) = true).
  { destruct (Z.eqb_spec (default 0 word) CLASS_WALK_SUPER) as [E|E]; cbn [negb] in H; [injection H as <-; by left|].
    destruct Hs as [[E0 ->]|(E0 & s & Es & -> & Hag)]; cbn [default from_option id] in *; right.
    - split; [unfold inU; lia|]. split; [done|]. intros off. split; [by intros [? _]|]. intros (j & Hj & _ & Hb). by rewrite Z.testbit_0_l in Hb.
    - destruct Hag as [?|[Hin Hag]]; [done|]. split; [done|]. split; [done|]. intros off. rewrite <- Hag. tauto. }
  destruct Hsuper as [?|(Hin & Hne & Hsuper)]; [by left|]. rewrite (proj2 (Z.eqb_neq _ _) Hne) in H. cbn [negb] in H.
  destruct (ref_offsets_loop_spec NDEBUG _ _ _ _ Hf Hin H) as [?|(Hr & Henc & Hbits)]; [by left|right]. split; [done|].
  assert (Href : forall off, ref_offset m c off <-> off ∈ take (Z.to_nat (ifieldRefCount k)) (ifields k) \/ (super k <> 0 /\ ref_offset m (super k) off)).
  { intros off. split.
    - intros Ho. inversion Ho as [c' k' o E Hi|c' k' o E Hz Hi]; subst; rewrite Ek in E; injection E as <-; [by left|by right].
    - intros [Hi|[Hz Hi]]; [by apply (ref_offset_own m c k)|by apply (ref_offset_super m c k)]. }
  intros off. rewrite Href, Hsuper. split.
  - intros [Ho|(j & Hj & -> & Hb)]; [destruct (Henc off Ho) as (j & Hj & ->)|]; exists j; (split; [done|split; [done|]]); apply Hbits; try done; [by right|by left].
  - intros (j & Hj & -> & Hb). apply Hbits in Hb as [Hb|Hb]; [right; by exists j|by left|done].
Qed.

Lemma linked_offsets_agree_witness :
  let child := MkClassObject 0 2 0 8 0 [] [] [12; 20] 2 0xD0000000 0 24 in
  offsets_agree {[8 := MkObject 0 ∅ [] (Some (MkClassObject 0 2 0 0 0 [] [] [8; 12] 2 0xC0000000 0 16)); 16 := MkObject 0 ∅ [] (Some child)]} 16 child.
Proof.
  apply (linked_offsets_agree false _ 16 (MkClassObject 0 2 0 8 0 [] [] [12; 20] 2 0xD0000000 0 24) (Some 0xC0000000)); [reflexivity| | |reflexivity].
  - right. split; [done|]. eexists. split; [reflexivity|]. split; [reflexivity|].
    apply (linked_offsets_agree false _ 8 _ None); [reflexivity|by left| |reflexivity].
    intros f Hf. change (f ∈ [8; 12]) in Hf. rewrite !elem_of_cons in Hf. destruct Hf as [->|[->|[]%not_elem_of_nil]]; by vm_compute.
  - intros f Hf. change (f ∈ [12; 20]) in Hf. rewrite !elem_of_cons in Hf. destruct Hf as [->|[->|[]%not_elem_of_nil]]; by vm_compute.
Defined.
