(* ===== verification/GcQueues.v ===== *)
(** * Writes to the heap: what a store to a field keeps

    The collector writes to reference objects. The shape of the heap stays, the strong
    references change by the value that is written, the circular queues of reference
    objects grow and shrink at their heads. *)

From stdpp Require Import gmap.
From S2P Require Import Prelude Bits Search RegTypes HeapBitmap CardTable GcHeap MarkSweep GcMarking.

Abbreviation slot := dvmGetFieldObject.

(** ** Shapes *)

(** An object but for the values of its words. *)
Definition shape (o : Object) : Object := MkObject (clazz o) ((fun _ => 0) <$> slots o) (contents o) (asClass o).

Definition same_shape (m m' : gmap Z Object) : Prop := shape <$> m = shape <$> m'.

#[export] Instance same_shape_equivalence : Equivalence same_shape.
Proof. split; [done|by intros m m'|]. intros m1 m2 m3. unfold same_shape. congruence. Qed.

Lemma shape_lookup m m' x o : same_shape m m' -> m !! x = Some o -> exists o', m' !! x = Some o' /\ shape o' = shape o.
Proof.
  intros Hs Ho. assert (E : (shape <$> m') !! x = Some (shape o)) by (rewrite <- Hs, lookup_fmap, Ho; done).
  rewrite lookup_fmap in E. apply fmap_Some in E as (o' & Eo & Es). by exists o'.
Qed.

Lemma shape_slots o o' off : shape o' = shape o -> is_Some (slots o' !! off) <-> is_Some (slots o !! off).
Proof.
  intros E. assert (Es : (fun _ : Z => 0) <$> slots o' = (fun _ => 0) <$> slots o) by (unfold shape in E; by injection E).
  apply (f_equal (lookup off)) in Es. rewrite !lookup_fmap in Es.
  destruct (slots o' !! off), (slots o !! off); cbn in Es; split; intros []; by eexists.
Qed.

Lemma shape_class_at m m' c : same_shape m m' -> class_at m' c = class_at m c.
Proof.
  intros Hs. unfold class_at. destruct (m !! c) as [o|] eqn:E.
  - destruct (shape_lookup m m' c o Hs E) as (o' & -> & Eo). rewrite !bind_some. by injection Eo.
  - destruct (m' !! c) as [o'|] eqn:E'; [|reflexivity]. apply (shape_lookup m' m) in E' as (o & Eo & _); [|by symmetry]. by rewrite E in Eo.
Qed.

Lemma shape_in_heap m m' x : same_shape m m' -> is_Some (m' !! x) <-> is_Some (m !! x).
Proof.
  intros Hs. split; intros [o Ho]; (eapply shape_lookup in Ho as (o' & -> & _); [|first [exact Hs|symmetry; exact Hs]]); by eexists.
Qed.

Lemma shape_size m m' : same_shape m m' -> size m' = size m.
Proof. intros Hs. by rewrite <- (map_size_fmap shape m), Hs, map_size_fmap. Qed.

Lemma shape_ref_offset m m' c off : same_shape m m' -> ref_offset m c off -> ref_offset m' c off.
Proof.
  intros Hs H. induction H as [c k off E H|c k off E Hk H IH].
  - apply (ref_offset_own m' c k); [by rewrite (shape_class_at m)|done].
  - apply (ref_offset_super m' c k); [by rewrite (shape_class_at m)|done|done].
Qed.

Lemma shape_chain m m' n : same_shape m m' -> forall c, chain_ends m n c -> chain_ends m' n c.
Proof.
  intros Hs. induction n as [|n IH]; intros c [->|H]; cbn [chain_ends]; try (by left). right.
  destruct H as (k & E & Hl & H). exists k. rewrite (shape_class_at m) by done. split; [done|]. split; [done|]. by apply IH.
Qed.

Section Env.
Context (env : Env).

Lemma shape_flags m m' o o' flag : same_shape m m' -> shape o' = shape o -> has_flag_of m' o' flag = has_flag_of m o flag.
Proof. intros Hs E. unfold has_flag_of. assert (clazz o' = clazz o) as -> by by injection E. by rewrite (shape_class_at m). Qed.

Lemma shape_class_object o o' : shape o' = shape o -> is_class_object env o' = is_class_object env o.
Proof. intros E. unfold is_class_object. assert (clazz o' = clazz o) as -> by by injection E. done. Qed.

Lemma shape_array m m' o o' : same_shape m m' -> shape o' = shape o -> is_array env m' o' = is_array env m o.
Proof. intros Hs E. unfold is_array. by rewrite (shape_class_object o o' E), (shape_flags m m' o o'). Qed.

Lemma shape_is_reference m m' o o' : same_shape m m' -> shape o' = shape o -> is_reference env m' o' = is_reference env m o.
Proof. intros Hs E. unfold is_reference. by rewrite (shape_class_object o o' E), (shape_array m m' o o'), (shape_flags m m' o o'). Qed.

Lemma shape_object_ok m m' x o o' : same_shape m m' -> shape o' = shape o -> object_ok env m x o -> object_ok env m' x o'.
Proof.
  intros Hs E ((k & Ek & Hag & Hcl) & Hchain & Hbody & Hslots).
  assert (Ec : clazz o' = clazz o) by by injection E. assert (Ea : asClass o' = asClass o) by by injection E.
  unfold object_ok. rewrite Ec, Ea, (shape_class_object o o' E), (shape_array m m' o o' Hs E), (shape_size m m' Hs). split; [|split; [|split; [done|]]].
  - exists k. split; [by rewrite (shape_class_at m)|]. split; [|done]. destruct Hag as [?|[Hin Hag]]; [by left|right]. split; [done|].
    intros off. rewrite <- Hag. split; by apply shape_ref_offset.
  - by apply (shape_chain m).
  - intros Ha off Hoff. apply (shape_slots o o' off E). apply Hslots; [done|]. by apply (shape_ref_offset m' m).
Qed.

Lemma shape_objects_ok m m' : same_shape m m' -> objects_ok env m -> objects_ok env m'.
Proof.
  intros Hs H x o' Ho'. destruct (shape_lookup m' m x o') as (o & Ho & E); [by symmetry|done|].
  apply (shape_object_ok m m' x o o' Hs); [done|]. by apply H.
Qed.

(** ** Strong references and slots *)

Lemma slot_object m x off v : slot m x off = Some v <-> exists o, m !! x = Some o /\ slots o !! off = Some v.
Proof. unfold dvmGetFieldObject. apply bind_Some. Qed.

Lemma shape_slot m m' x off : same_shape m m' -> is_Some (slot m x off) -> is_Some (slot m' x off).
Proof.
  intros Hs [v (o & Ho & Ev)%slot_object]. destruct (shape_lookup m m' x o Hs Ho) as (o' & Ho' & E).
  unfold dvmGetFieldObject. rewrite Ho', bind_some. apply (shape_slots o o' off E). by eexists.
Qed.

(** Strong references change where the words do. *)
Lemma strong_change m m' (P : Z -> Z -> Prop) x y : same_shape m m' ->
  (forall off v, slot m' x off = Some v -> slot m x off = Some v \/ P x v) -> strong env m' x y -> strong env m x y \/ P x y.
Proof.
  intros Hs Hslots H.
  assert (Hm : forall o', m' !! x = Some o' -> exists o, m !! x = Some o /\ shape o' = shape o).
  { intros o' Ho'. destruct (shape_lookup m' m x o') as (o & Ho & E); [by symmetry|done|]. by exists o. }
  destruct H as [o' Ho'|o' off v Ho' Ha Hoff Hv|o' v Ho' Ha Hf Hv|o' k Ho' Hc Ek Hf|o' k Ho' Hc Ek Hst|o' k Ho' Hc Ek|o' k c v Ho' Hc Ek Hv Hch|o' k v Ho' Hc Ek Hst Hv];
    destruct (Hm o' Ho') as (o & Ho & E);
    assert (Ec : clazz o' = clazz o) by (by injection E); assert (Ea : asClass o' = asClass o) by (by injection E);
    assert (Ee : contents o' = contents o) by (by injection E); rewrite ?Ec, ?Ea, ?Ee in *;
    try rewrite (shape_class_object o o' E) in Hc; try rewrite (shape_array m m' o o' Hs E) in Ha; try rewrite (shape_flags m m' o o' _ Hs E) in Hf.
  - left. by apply strong_class.
  - destruct (Hslots off v) as [(o1 & Ho1 & Ev)%slot_object|]; [apply slot_object; by exists o'| |by right].
    left. rewrite Ho in Ho1. injection Ho1 as <-. apply (strong_field env m x o off); try done. by apply (shape_ref_offset m' m).
  - left. by apply (strong_element env m x o).
  - left. by apply (strong_elementClass env m x o).
  - left. by apply (strong_super env m x o).
  - left. by apply (strong_loader env m x o).
  - left. by apply (strong_static env m x o k c).
  - left. by apply (strong_interface env m x o k).
Qed.

(** ** Stores *)

Definition set_slot (x off v : Z) (m : gmap Z Object) : gmap Z Object :=
  alter (fun o => MkObject (clazz o) (<[off := v]> (slots o)) (contents o) (asClass o)) x m.

Lemma store_field_set m x off v : is_Some (slot m x off) -> store_field m x off v = Some (set_slot x off v m).
Proof.
  intros [w (o & Ho & Ew)%slot_object]. unfold store_field. rewrite Ho, bind_some, Ew, bind_some. f_equal.
  unfold set_slot. apply map_eq. intros y. destruct (decide (x = y)) as [<-|Hne].
  - rewrite lookup_insert_eq, lookup_alter_eq, Ho. done.
  - by rewrite lookup_insert_ne, lookup_alter_ne.
Qed.

Lemma slot_set m x off v y off' : is_Some (slot m x off) ->
  slot (set_slot x off v m) y off' = if decide (y = x /\ off' = off) then Some v else slot m y off'.
Proof.
  intros [w (o & Ho & Ew)%slot_object]. unfold dvmGetFieldObject, set_slot. destruct (decide (x = y)) as [<-|Hne].
  - rewrite lookup_alter_eq, Ho. cbn [fmap option_fmap option_map]. rewrite !bind_some. cbn [slots].
    destruct (decide (off = off')) as [<-|Hno]; [rewrite lookup_insert_eq, decide_True; done|]. rewrite lookup_insert_ne, decide_False by naive_solver. done.
  - rewrite lookup_alter_ne, decide_False by naive_solver. done.
Qed.

Lemma set_slot_shape m x off v : is_Some (slot m x off) -> same_shape m (set_slot x off v m).
Proof.
  intros [w (o & Ho & Ew)%slot_object]. unfold same_shape, set_slot. apply map_eq. intros y. rewrite !lookup_fmap. destruct (decide (x = y)) as [<-|Hne].
  - rewrite lookup_alter_eq, Ho. cbn [fmap option_fmap option_map]. f_equal. unfold shape. cbn [clazz slots contents asClass]. f_equal.
    rewrite fmap_insert, insert_id; [done|]. by rewrite lookup_fmap, Ew.
  - by rewrite lookup_alter_ne.
Qed.

End Env.

(** ** The queues of reference objects

    A list of pending references is a pointer to the last of a circle of objects that are
    linked by their words [pendingNext]. Insertion and removal are at the head, the one
    after the last. *)

Section Queues.
Context (env : Env).

Definition next_of (m : gmap Z Object) (x : Z) : option Z := slot m x (off_pendingNext env).

(** The references of [q] are linked, and the last one has [e]. *)
Fixpoint path (m : gmap Z Object) (q : list Z) (e : Z) : Prop :=
  match q with
  | [] => True
  | x :: q => next_of m x = Some (hd e q) /\ path m q e
  end.

Definition queue (m : gmap Z Object) (p : Z) (q : list Z) : Prop :=
  match q with
  | [] => p = 0
  | h :: _ => last q = Some p /\ path m q h
  end.

Lemma path_change m m' q e : (forall x, x ∈ q -> next_of m' x = next_of m x) -> path m q e -> path m' q e.
Proof.
  induction q as [|x q IH]; intros Hx; cbn [path]; [done|]. intros [E H]. rewrite Hx by (apply elem_of_cons; by left).
  split; [done|]. apply IH; [|done]. intros y Hy. apply Hx, elem_of_cons. by right.
Qed.

Lemma queue_change m m' p q : (forall x, x ∈ q -> next_of m' x = next_of m x) -> queue m p q -> queue m' p q.
Proof. destruct q as [|h q]; [done|]. intros Hx [El H]. split; [done|]. by apply (path_change m). Qed.

(** The last one is made to point somewhere else. *)
Lemma path_last m m' q p e e' : last q = Some p -> next_of m' p = Some e' -> (forall x, x ∈ q -> x <> p -> next_of m' x = next_of m x) ->
  NoDup q -> path m q e -> path m' q e'.
Proof.
  induction q as [|x q IH]; intros Hl Hp Hx Hnd; cbn [path]; [done|]. intros [E H]. apply NoDup_cons in Hnd as [Hni Hnd].
  destruct q as [|y q].
  - injection Hl as ->. split; [exact Hp|done].
  - assert (Hl' : last (y :: q) = Some p) by exact Hl.
    assert (Hne : x <> p) by (intros ->; apply Hni, last_Some_elem_of, Hl').
    split; [rewrite Hx; [exact E|apply elem_of_cons; by left|done]|]. apply IH; try done.
    intros z Hz. apply Hx, elem_of_cons. by right.
Qed.

Lemma queue_nonzero m p q : queue m p q -> (forall x, x ∈ q -> x <> 0) -> p = 0 <-> q = [].
Proof.
  destruct q as [|h q]; [done|]. intros [El _] Hq. split; [|done]. intros ->. exfalso. apply (Hq 0); [|done].
  by apply last_Some_elem_of.
Qed.

(** What is read for an insertion and a removal. *)
Lemma queue_head m p h q : queue m p (h :: q) -> next_of m p = Some h.
Proof.
  intros [El H]. revert El H. generalize h at 3 4 as e. intros e El H. revert h El H. induction q as [|y q IH]; intros h El H.
  - injection El as <-. by destruct H as [-> _].
  - apply (IH y); [exact El|]. by destruct H.
Qed.

Lemma queue_last_in m p h q : queue m p (h :: q) -> p ∈ h :: q.
Proof. intros [El _]. by apply last_Some_elem_of. Qed.

Lemma queue_second m p h q : queue m p (h :: q) -> next_of m h = Some (hd h q).
Proof. by intros [_ [E _]]. Qed.

Lemma queue_single m p h q : queue m p (h :: q) -> NoDup (h :: q) -> p = h <-> q = [].
Proof.
  intros [El _] Hnd. destruct q as [|y q]; [injection El as <-; done|]. split; [|done]. intros ->.
  apply NoDup_cons in Hnd as [Hni _]. exfalso. apply Hni, last_Some_elem_of. exact El.
Qed.

(** A reference in a queue has a link into it. *)
Lemma path_next m q e x : path m q e -> x ∈ q -> exists v, next_of m x = Some v /\ v ∈ e :: q.
Proof.
  induction q as [|y q IH]; cbn [path]; [by intros _ ?%not_elem_of_nil|]. intros [E H] [->|Hx]%elem_of_cons.
  - exists (hd e q). split; [done|]. destruct q as [|z q]; rewrite !elem_of_cons; [by left|]. right. right. by left.
  - destruct (IH H Hx) as (v & Ev & Hv). exists v. split; [done|]. apply elem_of_cons in Hv. rewrite !elem_of_cons. tauto.
Qed.

Lemma queue_next m p q x : queue m p q -> x ∈ q -> exists v, next_of m x = Some v /\ v ∈ q.
Proof.
  destruct q as [|h q]; [by intros _ ?%not_elem_of_nil|]. intros [_ H] Hx. destruct (path_next m (h :: q) h x H Hx) as (v & E & Hv).
  exists v. split; [done|]. apply elem_of_cons in Hv as [->|Hv]; [apply elem_of_cons; by left|done].
Qed.

(** ** Insertion *)

Lemma queue_insert m m' p h q x : queue m p (h :: q) -> NoDup (h :: q) -> x ∉ h :: q ->
  next_of m' x = Some h -> next_of m' p = Some x -> (forall y, y ∈ h :: q -> y <> p -> next_of m' y = next_of m y) ->
  queue m' p (x :: h :: q).
Proof.
  intros [El H] Hnd Hx Ex Ep Hr. split; [exact El|]. split; [exact Ex|]. by apply (path_last m m' (h :: q) p h x).
Qed.

(** ** Removal *)

Lemma queue_remove m m' p h q : queue m p (h :: q) -> NoDup (h :: q) -> q <> [] ->
  next_of m' p = Some (hd h q) -> (forall y, y ∈ q -> y <> p -> next_of m' y = next_of m y) -> queue m' p q.
Proof.
  intros [El [_ H]] Hnd Hq Ep Hr. destruct q as [|y q]; [done|]. split; [exact El|]. apply NoDup_cons in Hnd as [_ Hnd].
  by apply (path_last m m' (y :: q) p h y).
Qed.

End Queues.
