(* ===== verification/GcInvariant.v ===== *)
(** * The invariant of a collection

    What holds of the heap, the bitmaps, the stack and the queues between the steps of a
    collection: which marked objects have been scanned, and which references are still to
    be looked at. Stores by the collector keep it, so do insertions into the queues and
    removals. *)

From stdpp Require Import gmap.
From S2P Require Import Prelude Bits Search RegTypes HeapBitmap CardTable GcHeap MarkSweep GcMarking GcScanning GcQueues.

#[export] Instance list_id_eq_dec : EqDecision ListId.
Proof. solve_decision. Defined.

(** The queues that are kept in variables of the heap, and one that is local to a
    routine. *)
Abbreviation QId := (option ListId).

Definition upd {A} (k : QId) (v : A) (f : QId -> A) : QId -> A := fun k' => if decide (k' = k) then v else f k'.

Lemma upd_eq {A} k (v : A) f : upd k v f k = v.
Proof. unfold upd. by rewrite decide_True. Qed.

Lemma upd_ne {A} k k' (v : A) f : k' <> k -> upd k v f k' = f k'.
Proof. intros H. unfold upd. by rewrite decide_False. Qed.

(** ** Reference objects *)

Section References.
Context (env : Env) (m : gmap Z Object).

Definition reference_at (x : Z) : Prop := exists o, m !! x = Some o /\ is_reference env m o = true.

Definition kind_at (x : Z) : option ListId := flags ← referenceClassFlags m x; pick_list flags.

(** All an object refers to, the referent of a reference included. *)
Definition refers (x y : Z) : Prop := strong env m x y \/ (reference_at x /\ slot m x (off_referent env) = Some y).

(** A reference object has the words of a reference, and is of one kind. *)
Definition refs_ok : Prop := forall x, reference_at x ->
  is_Some (slot m x (off_pendingNext env)) /\ is_Some (slot m x (off_referent env)) /\ is_Some (slot m x (off_queue env)) /\
  is_Some (slot m x (off_queueNext env)) /\
  exists l, kind_at x = Some l /\ l <> ClearedList /\ (l = FinalizerList -> is_Some (slot m x (off_zombie env))).

Definition offsets_ok : Prop := NoDup [off_referent env; off_pendingNext env; off_queue env; off_queueNext env; off_zombie env].

End References.

Lemma shape_reference_at env m m' x : same_shape m m' -> reference_at env m x -> reference_at env m' x.
Proof.
  intros Hs (o & Ho & Hr). destruct (shape_lookup m m' x o Hs Ho) as (o' & Ho' & E). exists o'. split; [done|].
  by rewrite (shape_is_reference env m m' o o' Hs E).
Qed.

Lemma shape_kind m m' x : same_shape m m' -> kind_at m' x = kind_at m x.
Proof.
  intros Hs. unfold kind_at, referenceClassFlags, class_of. destruct (m !! x) as [o|] eqn:Ho.
  - destruct (shape_lookup m m' x o Hs Ho) as (o' & -> & E). rewrite !bind_some. assert (clazz o' = clazz o) as -> by by injection E.
    by rewrite (shape_class_at m).
  - destruct (m' !! x) as [o'|] eqn:Ho'; [|reflexivity]. apply (shape_lookup m' m) in Ho' as (o & Ho1 & _); [|by symmetry]. by rewrite Ho in Ho1.
Qed.

Lemma shape_refs_ok env m m' : same_shape m m' -> refs_ok env m -> refs_ok env m'.
Proof.
  intros Hs H x Hx. apply (shape_reference_at env m' m) in Hx; [|by symmetry].
  destruct (H x Hx) as (H1 & H2 & H3 & H4 & l & E & Hc & Hz). rewrite (shape_kind m m' x Hs).
  split; [by apply (shape_slot m)|]. split; [by apply (shape_slot m)|]. split; [by apply (shape_slot m)|]. split; [by apply (shape_slot m)|].
  exists l. split; [done|]. split; [done|]. intros El. by apply (shape_slot m), Hz.
Qed.

(** ** The invariant *)

Section Invariant.
Context (NDEBUG : bool) (env : Env).
(** The heap at the start, the words that are not to change, the objects that may be
    marked. *)
Context (m0 : gmap Z Object) (K : Z -> Z -> Z -> Prop) (R : Z -> Prop).

(** The words of references that are written. *)
Definition may_change (off : Z) : Prop := off = off_pendingNext env \/ off = off_referent env \/ off = off_zombie env.

Record heap_inv (s : Gc) : Prop := {
  hi_bits : bits_inv env s;
  hi_cards : exists hi, covers (cardTable s) (heapBase env) hi /\ forall x, in_heap s x -> x < hi;
  hi_shape : same_shape m0 (mem s);
  hi_refers : forall x y, refers env (mem s) x y -> y <> 0 -> in_heap s y;
  hi_sound : forall x, in_heap s x -> marked s x -> R x;
  hi_closed : forall x y, R x -> strong env (mem s) x y -> y <> 0 -> R y;
  hi_keeps : forall x off v, slot m0 x off = Some v -> v <> 0 -> K x off v -> slot (mem s) x off = Some v;
  hi_old : forall x, reference_at env m0 x -> slot m0 x (off_pendingNext env) <> Some 0 -> slot (mem s) x (off_referent env) = Some 0;
  hi_referent : forall x v, reference_at env m0 x -> slot (mem s) x (off_referent env) = Some v -> v = 0 \/ slot m0 x (off_referent env) = Some v;
  hi_fixed : forall x off, ~ (reference_at env m0 x /\ may_change off) -> slot (mem s) x off = slot m0 x off
}.

(** The queues: [P] the pointers, [Q] the references. *)
Record queues_inv (P : QId -> Z) (Q : QId -> list Z) (s : Gc) : Prop := {
  qi_queue : forall k, queue env (mem s) (P k) (Q k);
  qi_nodup : forall k, NoDup (Q k);
  qi_disjoint : forall k k' x, x ∈ Q k -> x ∈ Q k' -> k = k';
  qi_member : forall k x, x ∈ Q k -> reference_at env m0 x /\ marked s x /\ slot m0 x (off_pendingNext env) = Some 0;
  qi_pending : forall x v, reference_at env m0 x -> slot (mem s) x (off_pendingNext env) = Some v -> v <> 0 ->
    slot m0 x (off_pendingNext env) <> Some 0 \/ exists k, x ∈ Q k;
  qi_kind : forall k x, x ∈ Q k -> k <> Some ClearedList -> kind_at m0 x = Some (default SoftList k);
  qi_cleared : forall x, x ∈ Q (Some ClearedList) -> slot (mem s) x (off_referent env) = Some 0
}.

(** What an object refers to is marked. *)
Definition scanned (s : Gc) (x : Z) : Prop := forall y, strong env (mem s) x y -> y <> 0 -> marked s y.

(** The referent of a reference is cleared, or marked, or the reference is in a queue. *)
Definition settled (s : Gc) (Q : QId -> list Z) (x : Z) : Prop :=
  reference_at env m0 x ->
  (exists v, slot (mem s) x (off_referent env) = Some v /\ (v = 0 \/ marked s v)) \/ exists k, k <> Some ClearedList /\ x ∈ Q k.

(** [G]: the objects that are still to be scanned, with those on the stack; [E]: the
    references that were taken from a queue. *)
Record gc (G : Z -> Prop) (E : list Z) (P : QId -> Z) (Q : QId -> list Z) (s : Gc) : Prop := {
  gc_heap : heap_inv s;
  gc_queues : queues_inv P Q s;
  gc_scanned : forall x, in_heap s x -> marked s x -> x ∉ stack s -> ~ G x -> scanned s x;
  gc_settled : forall x, in_heap s x -> marked s x -> x ∉ stack s -> ~ G x -> x ∉ E -> settled s Q x
}.

(** The pointers are those of the variables. *)
Definition linked (P : QId -> Z) (s : Gc) : Prop := (forall l, P (Some l) = list_of l s) /\ P None = 0.

Context (Hobjects : objects_ok env m0) (Hrefs : refs_ok env m0) (Hoffsets : offsets_ok env).

Lemma offsets_ne : off_referent env <> off_pendingNext env /\ off_queue env <> off_pendingNext env /\ off_queueNext env <> off_pendingNext env /\
  off_zombie env <> off_pendingNext env /\ off_queue env <> off_referent env /\ off_queueNext env <> off_referent env /\ off_zombie env <> off_referent env /\
  off_zombie env <> off_queue env /\ off_zombie env <> off_queueNext env.
Proof using Hoffsets.
  clear - Hoffsets. unfold offsets_ok in Hoffsets. rewrite !NoDup_cons in Hoffsets. decompose [and] Hoffsets.
  repeat split; intros E; rewrite E in *; rewrite ?elem_of_cons in *; tauto.
Qed.

Lemma reference_in_heap s x : heap_inv s -> reference_at env m0 x -> in_heap s x.
Proof using. intros I (o & Ho & _). apply (shape_in_heap m0 (mem s) x (hi_shape _ I)). by eexists. Qed.

Lemma inv_reference s x : heap_inv s -> reference_at env (mem s) x <-> reference_at env m0 x.
Proof using. intros I. split; apply shape_reference_at; [symmetry|]; apply (hi_shape _ I). Qed.

Lemma reference_slots s x : heap_inv s -> reference_at env m0 x ->
  is_Some (slot (mem s) x (off_pendingNext env)) /\ is_Some (slot (mem s) x (off_referent env)) /\ is_Some (slot (mem s) x (off_queue env)) /\
  is_Some (slot (mem s) x (off_queueNext env)).
Proof using Hrefs.
  intros I Hx. destruct (shape_refs_ok env m0 (mem s) (hi_shape _ I) Hrefs x) as (H1 & H2 & H3 & H4 & _); [by apply (inv_reference s)|done].
Qed.

(** ** Stores *)

(** Only memory and cards are different, and cards only become dirty. *)
Definition quiet (s s' : Gc) : Prop := exists t m, s' = with_cardTable t (with_mem m s) /\ cards_grow (cardTable s) t.

#[export] Instance quiet_preorder : PreOrder quiet.
Proof using. split; [intros s; exists (cardTable s), (mem s); by destruct s|].
  intros s1 s2 s3 (t & m & -> & Hg) (t' & m' & -> & Hg'). exists t', m'. split; [done|]. by transitivity t.
Qed.

(** The invariant of bitmaps and stack is not about the words of objects. *)
Lemma bits_reshaped t m s : bits_inv env s -> same_shape (mem s) m -> bits_inv env (with_cardTable t (with_mem m s)).
Proof using.
  intros B Hsh. assert (Hin : forall y, is_Some (m !! y) <-> in_heap s y) by (intros y; by apply shape_in_heap).
  destruct B as [b1 b2 b3 b4 b5 b6 b7 b8 b9 b10 b11 [b12 b13]].
  constructor; cbn [mem bitmap liveBits stack with_cardTable with_mem]; unfold in_heap, marked; cbn [mem bitmap with_cardTable with_mem]; try done.
  - intros y Hy. by apply b5, Hin.
  - intros y Hy. rewrite Hin. by apply b6.
  - intros y Hy. by apply b7, Hin.
  - intros y Hy Hm. by apply Hin, b9.
  - intros y Hy. by apply b10, Hin.
  - by rewrite (shape_size (mem s)).
  - split; [done|]. intros y Hy. rewrite Hin. by apply b13.
Qed.

Lemma write_spec s x off v : heap_inv s -> reference_at env m0 x -> is_Some (slot (mem s) x off) -> v = 0 \/ (in_heap s v /\ marked s v) ->
  (forall w, slot m0 x off = Some w -> w <> 0 -> K x off w -> w = v) -> (off = off_referent env -> v = 0) -> may_change off ->
  exists s', dvmSetFieldObject NDEBUG x off v s = Some s' /\ quiet s s' /\ mem s' = set_slot x off v (mem s) /\ heap_inv s'.
Proof using.
  intros I Hx Hslot Hv HK Href Hch. pose proof (reference_in_heap s x I Hx) as Hh. pose proof (set_slot_shape (mem s) x off v Hslot) as Hsh.
  assert (Hin : forall y, is_Some (set_slot x off v (mem s) !! y) <-> in_heap s y) by (intros y; by apply shape_in_heap).
  assert (Hstr : forall a b, strong env (set_slot x off v (mem s)) a b -> strong env (mem s) a b \/ (a = x /\ b = v)).
  { intros a b H. apply (strong_change env (mem s) _ (fun a b => a = x /\ b = v) a b Hsh) in H; [done|]. intros o w. rewrite slot_set by done.
    destruct (decide _) as [[-> ->]|]; [|by left]. intros [= ->]. by right. }
  assert (Hinv : forall t hi, covers t (heapBase env) hi -> (forall y, in_heap s y -> y < hi) -> heap_inv (with_cardTable t (with_mem (set_slot x off v (mem s)) s))).
  { intros t hi Ht Hhi. destruct I as [B C Sh Rf So Cl Ke Ol Rr Fx]. constructor; cbn [mem cardTable with_cardTable with_mem].
    - by apply bits_reshaped.
    - exists hi. split; [done|]. intros y Hy. by apply Hhi, Hin.
    - by rewrite Sh.
    - unfold in_heap. cbn [mem with_cardTable with_mem]. intros a b [H|[Ha Hab]] Hb; apply Hin.
      + apply Hstr in H as [H|[-> ->]]; [by apply (Rf a b); [left|]|]. destruct Hv as [?|[? _]]; done.
      + rewrite slot_set in Hab by done. destruct (decide _) as [[-> Eo]|]; [injection Hab as ->; by rewrite Href in Hb|].
        apply (Rf a b); [right|done]. split; [|done]. by apply (shape_reference_at env (set_slot x off v (mem s)) (mem s)); [symmetry|].
    - intros a Ha. apply So. by apply Hin.
    - intros a b Ha H Hb. apply Hstr in H as [H|[-> ->]]; [by apply (Cl a b)|]. destruct Hv as [?|[Hvh Hvm]]; [done|]. by apply So.
    - intros a o w Hw Hz HKw. rewrite slot_set by done. destruct (decide _) as [[-> ->]|]; [|by apply Ke]. f_equal. symmetry. by apply HK.
    - intros a Ha Hp. rewrite slot_set by done. destruct (decide _) as [[-> Eo]|]; [|by apply Ol]. by rewrite Href.
    - intros a w Ha Hw. rewrite slot_set in Hw by done. destruct (decide _) as [[-> Eo]|]; [|by apply Rr]. left. injection Hw as <-. by apply Href.
    - intros a o Ha. rewrite slot_set by done. destruct (decide _) as [[-> ->]|]; [|by apply Fx]. exfalso. by apply Ha. }
  destruct (hi_cards _ I) as (hi & Hc & Hhi). unfold dvmSetFieldObject. rewrite store_field_set, bind_some by done.
  destruct (Z.eqb_spec v 0) as [->|Hz]; cbn [negb].
  - eexists. split; [reflexivity|]. pose proof (Hinv (cardTable s) hi Hc Hhi) as H.
    assert (E : with_cardTable (cardTable s) (with_mem (set_slot x off 0 (mem s)) s) = with_mem (set_slot x off 0 (mem s)) s) by done.
    rewrite E in H. split; [exists (cardTable s), (set_slot x off 0 (mem s)); by rewrite E|]. split; [done|exact H].
  - destruct (mark_card_covers NDEBUG (cardTable s) (heapBase env) hi x Hc) as (t & Et & Ht & Hg & _).
    { split; [apply (bi_bounds _ _ (hi_bits _ I) x Hh)|by apply Hhi]. }
    cbn [cardTable with_mem]. rewrite Et, bind_some. eexists. split; [reflexivity|]. split; [by eexists t, _|]. split; [done|]. by apply (Hinv t hi).
Qed.

End Invariant.
