(* ===== verification/GcPending.v ===== *)
(** * Insertion into the queues and removal, under the invariant

    [enqueuePendingReference] and [dequeuePendingReference] do what they do to the
    queues, and nothing else that matters. *)

From stdpp Require Import gmap.
From S2P Require Import Prelude Bits Search RegTypes HeapBitmap CardTable GcHeap MarkSweep GcMarking GcScanning GcQueues GcInvariant.

Section Pending.
Context (NDEBUG : bool) (env : Env) (m0 : gmap Z Object) (K : Z -> Z -> Z -> Prop) (R : Z -> Prop).
Context (Hobjects : objects_ok env m0) (Hrefs : refs_ok env m0) (Hoffsets : offsets_ok env).

Abbreviation heap_inv := (heap_inv env m0 K R).
Abbreviation queues_inv := (queues_inv env m0).
Abbreviation gc := (gc env m0 K R).

(** Nothing but the links of the queues is different. *)
Record relinked (s s' : Gc) : Prop := {
  rl_quiet : quiet s s';
  rl_inv : heap_inv s';
  rl_shape : same_shape (mem s) (mem s');
  rl_slot : forall x off, off <> off_pendingNext env -> slot (mem s') x off = slot (mem s) x off;
  rl_next : forall x v, next_of env (mem s') x = Some v -> next_of env (mem s) x = Some v \/ v = 0 \/ marked s v
}.

Lemma quiet_marked s s' x : quiet s s' -> marked s' x <-> marked s x.
Proof using. by intros (t & m & -> & _). Qed.

Lemma quiet_stack s s' : quiet s s' -> stack s' = stack s.
Proof using. by intros (t & m & -> & _). Qed.

Lemma relinked_trans s1 s2 s3 : relinked s1 s2 -> relinked s2 s3 -> relinked s1 s3.
Proof using.
  intros [q1 i1 h1 l1 n1] [q2 i2 h2 l2 n2]. constructor; [by transitivity s2|done|by rewrite h1| |].
  - intros x off Ho. by rewrite l2, l1.
  - intros x v [H|[H|H]]%n2; [by apply n1|by right; left|]. right. right. by apply (quiet_marked s1 s2).
Qed.

Lemma relinked_heap s s' x : relinked s s' -> in_heap s' x <-> in_heap s x.
Proof using. intros H. apply (shape_in_heap (mem s) (mem s')). apply (rl_shape _ _ H). Qed.

Lemma relinked_scanned s s' x : relinked s s' -> scanned env s x -> scanned env s' x.
Proof using.
  intros H Hs y Hy Hz. apply (quiet_marked s s' y (rl_quiet _ _ H)).
  apply (strong_change env (mem s) _ (fun _ v => v = 0 \/ marked s v) x y (rl_shape _ _ H)) in Hy as [Hy|[?|?]]; [by apply Hs|done|done|].
  intros off v Hv. destruct (decide (off = off_pendingNext env)) as [->|Hne]; [by apply (rl_next _ _ H)|]. left. by rewrite <- (rl_slot _ _ H x off Hne).
Qed.

Lemma link_write s x v : heap_inv s -> reference_at env m0 x -> slot m0 x (off_pendingNext env) = Some 0 -> v = 0 \/ (in_heap s v /\ marked s v) ->
  exists s', dvmSetFieldObject NDEBUG x (off_pendingNext env) v s = Some s' /\ relinked s s' /\
    forall y, next_of env (mem s') y = if decide (y = x) then Some v else next_of env (mem s) y.
Proof using Hrefs Hoffsets.
  intros I Hx H0 Hv. destruct (reference_slots env m0 K R Hrefs s x I Hx) as (Hslot & _).
  destruct (offsets_ne env Hoffsets) as (Hne & _).
  destruct (write_spec NDEBUG env m0 K R s x (off_pendingNext env) v I Hx Hslot Hv) as (s' & E & Hq & Em & I').
  - intros w Hw Hz _. by rewrite H0 in Hw; injection Hw as <-.
  - intros Eo. by rewrite Eo in Hne.
  - by left.
  - assert (Hn : forall y, next_of env (mem s') y = if decide (y = x) then Some v else next_of env (mem s) y).
    { intros y. unfold next_of. rewrite Em, slot_set by done. destruct (decide (y = x)) as [->|Hyx]; [by rewrite decide_True|].
      rewrite decide_False by naive_solver. done. }
    exists s'. split; [done|]. split; [|done]. constructor; [done|done| | |].
    + rewrite Em. by apply set_slot_shape.
    + intros y off Ho. rewrite Em, slot_set by done. rewrite decide_False by naive_solver. done.
    + intros y w. rewrite Hn. destruct (decide (y = x)); [|by left]. intros [= <-]. right. by destruct Hv as [?|[]]; [left|right].
Qed.

Lemma gc_relink G E E' P Q P' Q' s s' : gc G E P Q s -> relinked s s' -> queues_inv P' Q' s' ->
  (forall k y, k <> Some ClearedList -> y ∈ Q k -> (exists k', k' <> Some ClearedList /\ y ∈ Q' k') \/ y ∈ E') ->
  (forall y, y ∈ E -> y ∈ E') -> gc G E' P' Q' s'.
Proof using Hoffsets.
  intros [Hh _ Hsc Hse] Hr Hq HQ HE. pose proof (rl_quiet _ _ Hr) as Hqt. pose proof (rl_inv _ _ Hr) as Hi. constructor; [done|done| |].
  - intros x Hx Hm Hst HG. rewrite (quiet_stack s s') in Hst by done. apply (quiet_marked s s') in Hm; [|done].
    apply (relinked_heap s s' x Hr) in Hx. apply (relinked_scanned s s' x Hr). by apply Hsc.
  - intros x Hx Hm Hst HG Hne Href. rewrite (quiet_stack s s') in Hst by done. apply (quiet_marked s s') in Hm; [|done].
    apply (relinked_heap s s' x Hr) in Hx.
    assert (Hne' : x ∉ E) by (intros ?; by apply Hne, HE).
    destruct (Hse x Hx Hm Hst HG Hne' Href) as [(v & Hv & Hvm)|(k & Hk & Hin)].
    + left. exists v. destruct (offsets_ne env Hoffsets) as (Hno & _). rewrite (rl_slot _ _ Hr) by done. split; [done|].
      destruct Hvm; [by left|right]. by apply (quiet_marked s s').
    + right. by destruct (HQ k x Hk Hin).
Qed.

(** ** Insertion *)

(** What a reference has to be to go to a queue. *)
Definition may_enter (k : QId) (Q : QId -> list Z) (s : Gc) (x : Z) : Prop :=
  reference_at env m0 x /\ marked s x /\ slot m0 x (off_pendingNext env) = Some 0 /\ (forall k, x ∉ Q k) /\
  if decide (k = Some ClearedList) then slot (mem s) x (off_referent env) = Some 0 else kind_at m0 x = Some (default SoftList k).

Lemma queues_insert P Q s s' k p x : queues_inv P Q s -> relinked s s' -> may_enter k Q s x ->
  queue env (mem s') p (x :: Q k) -> (forall k' y, k' <> k -> y ∈ Q k' -> next_of env (mem s') y = next_of env (mem s) y) ->
  (forall y, next_of env (mem s') y = next_of env (mem s) y \/ y = x \/ y ∈ Q k) ->
  queues_inv (upd k p P) (upd k (x :: Q k) Q) s'.
Proof using Hoffsets.
  intros [q1 q2 q3 q4 q5 q6 q7] Hr (Hx & Hxm & Hx0 & Hxn & Hk) Hq Hn Hn'. pose proof (rl_quiet _ _ Hr) as Hqt.
  destruct (offsets_ne env Hoffsets) as (Hno & _).
  assert (Hin : forall k' y, y ∈ upd k (x :: Q k) Q k' <-> y ∈ Q k' \/ (k' = k /\ y = x)).
  { intros k' y. destruct (decide (k' = k)) as [->|Hne]; [rewrite upd_eq, elem_of_cons|rewrite upd_ne by done]; naive_solver. }
  constructor.
  - intros k'. destruct (decide (k' = k)) as [->|Hne]; [by rewrite !upd_eq|]. rewrite !upd_ne by done.
    apply (queue_change env (mem s)); [|done]. intros y Hy. by apply (Hn k').
  - intros k'. destruct (decide (k' = k)) as [->|Hne]; [rewrite upd_eq; by constructor|]. by rewrite upd_ne.
  - intros k1 k2 y [H1|[-> ->]]%Hin [H2|[-> Hy]]%Hin; [by apply (q3 k1 k2 y)| | |done].
    + subst y. by apply Hxn in H1.
    + by apply Hxn in H2.
  - intros k' y [H|[-> ->]]%Hin; rewrite (quiet_marked s s') by done; [by apply (q4 k')|done].
  - intros y v Hy Hv Hz. destruct (Hn' y) as [E|[->|Hy']].
    + unfold next_of in E. rewrite E in Hv. destruct (q5 y v Hy Hv Hz) as [?|[k' Hk']]; [by left|]. right. exists k'. apply Hin. by left.
    + right. exists k. apply Hin. by right.
    + right. exists k. apply Hin. by left.
  - intros k' y [H|[-> ->]]%Hin Hkc; [by apply q6|]. by rewrite decide_False in Hk.
  - intros y [H|[<- ->]]%Hin; rewrite (rl_slot _ _ Hr) by done; [by apply q7|]. by rewrite decide_True in Hk.
Qed.

Lemma queue_in_heap P Q s k x : heap_inv s -> queues_inv P Q s -> x ∈ Q k -> in_heap s x /\ x <> 0 /\ marked s x.
Proof using.
  intros I Hq Hx. destruct (qi_member _ _ _ _ _ Hq k x Hx) as (Hr & Hm & _). pose proof (reference_in_heap env m0 K R s x I Hr) as Hh.
  split; [done|]. split; [|done]. by apply (in_heap_nonzero env s), Hh; apply (hi_bits _ _ _ _ _ I).
Qed.

(** The pointer is zero exactly if the queue is empty. *)
Lemma queue_empty P Q s k : heap_inv s -> queues_inv P Q s -> (P k =? 0) = true <-> Q k = [].
Proof using.
  intros I Hq. rewrite Z.eqb_eq. apply (queue_nonzero env (mem s)); [apply (qi_queue _ _ _ _ _ Hq)|].
  intros x Hx. by apply (queue_in_heap P Q s k x).
Qed.

Lemma enqueue_spec G E P Q s k x : gc G E P Q s -> may_enter k Q s x ->
  exists p s', enqueuePendingReference NDEBUG env x (P k) s = Some (p, s') /\ relinked s s' /\ gc G E (upd k p P) (upd k (x :: Q k) Q) s'.
Proof using Hrefs Hoffsets.
  intros HG Hx. pose proof (gc_heap _ _ _ _ _ _ _ _ _ HG) as I. pose proof (gc_queues _ _ _ _ _ _ _ _ _ HG) as Hq.
  pose proof Hx as (Hxr & Hxm & Hx0 & Hxn & Hkind). pose proof (reference_in_heap env m0 K R s x I Hxr) as Hxh.
  pose proof (in_heap_nonzero env s x (hi_bits _ _ _ _ _ I) Hxh) as Hxz.
  assert (Hdone : forall p s', relinked s s' -> queues_inv (upd k p P) (upd k (x :: Q k) Q) s' -> gc G E (upd k p P) (upd k (x :: Q k) Q) s').
  { intros p s' Hr Hqs. apply (gc_relink G E E P Q _ _ s s' HG Hr Hqs); [|done]. intros k' y Hk' Hy. left. exists k'. split; [done|].
    destruct (decide (k' = k)) as [->|Hne]; [rewrite upd_eq; apply elem_of_cons; by right|by rewrite upd_ne]. }
  unfold enqueuePendingReference. rewrite asserted_true by (by rewrite (proj2 (Z.eqb_neq _ _) Hxz)).
  pose proof (qi_queue _ _ _ _ _ Hq k) as Hqk. pose proof (queue_empty P Q s k I Hq) as Hemp.
  destruct (P k =? 0) eqn:Ep.
  - assert (EQ : Q k = []) by by apply Hemp.
    destruct (link_write s x x I Hxr Hx0) as (s' & -> & Hr & Hn); [by right|]. rewrite bind_some. exists x, s'. split; [done|]. split; [done|].
    apply Hdone; [done|]. apply (queues_insert P Q s s' k x x Hq Hr Hx).
    + rewrite EQ. split; [done|]. split; [|done]. by rewrite Hn, decide_True.
    + intros k' y Hk' Hy. rewrite Hn, decide_False; [done|]. intros ->. by apply Hxn in Hy.
    + intros y. rewrite Hn. destruct (decide (y = x)); [by right; left|by left].
  - destruct (Q k) as [|h q] eqn:EQ; [by destruct Hemp as [_ Hemp]; specialize (Hemp eq_refl)|].
    pose proof (queue_head env _ _ _ _ Hqk) as Hhd. pose proof (queue_last_in env _ _ _ _ Hqk) as Hlast.
    assert (Hh : h ∈ Q k) by (rewrite EQ; apply elem_of_cons; by left). rewrite <- EQ in Hlast.
    destruct (queue_in_heap P Q s k h I Hq Hh) as (Hhh & Hhz & Hhm). destruct (qi_member _ _ _ _ _ Hq k (P k) Hlast) as (Hpr & Hpm & Hp0).
    unfold next_of in Hhd. rewrite Hhd, bind_some.
    destruct (link_write s x h I Hxr Hx0) as (s1 & -> & Hr1 & Hn1); [by right|]. rewrite bind_some. pose proof (rl_inv _ _ Hr1) as I1.
    destruct (link_write s1 (P k) x I1 Hpr Hp0) as (s2 & -> & Hr2 & Hn2).
    { right. rewrite (relinked_heap s s1) by done. split; [done|]. by apply (quiet_marked s s1); [apply (rl_quiet _ _ Hr1)|]. }
    rewrite bind_some. assert (Hr : relinked s s2) by by apply (relinked_trans s s1).
    assert (Hxp : x <> P k) by (intros Exp; apply (Hxn k); by rewrite Exp).
    exists (P k), s2. split; [done|]. split; [done|]. apply Hdone; [done|]. rewrite <- EQ in *. apply (queues_insert P Q s s2 k (P k) x Hq Hr Hx).
    + rewrite EQ in *. apply (queue_insert env (mem s)); try done.
      * rewrite <- EQ. apply (qi_nodup _ _ _ _ _ Hq).
      * rewrite <- EQ. apply Hxn.
      * by rewrite Hn2, decide_False, Hn1, decide_True.
      * by rewrite Hn2, decide_True.
      * intros y Hy Hyp. rewrite Hn2, decide_False, Hn1, decide_False; [done| |done]. intros ->. apply (Hxn k). by rewrite EQ.
    + intros k' y Hk' Hy. rewrite Hn2, decide_False, Hn1, decide_False; [done| |].
      * intros ->. by apply Hxn in Hy.
      * intros ->. apply Hk'. by apply (qi_disjoint _ _ _ _ _ Hq k' k (P k)).
    + intros y. rewrite Hn2. destruct (decide (y = P k)) as [->|]; [by right; right|]. rewrite Hn1. destruct (decide (y = x)); [by right; left|by left].
Qed.

(** ** Removal *)

Lemma queues_remove P Q s s' k p h q : queues_inv P Q s -> relinked s s' -> Q k = h :: q -> queue env (mem s') p q ->
  (forall k' y, k' <> k -> y ∈ Q k' -> next_of env (mem s') y = next_of env (mem s) y) ->
  next_of env (mem s') h = Some 0 -> (forall y, next_of env (mem s') y = next_of env (mem s) y \/ y ∈ Q k) ->
  queues_inv (upd k p P) (upd k q Q) s' /\ forall k', h ∉ upd k q Q k'.
Proof using Hoffsets.
  intros Hqs Hr EQ Hq Hn Hh Hn'. pose proof (rl_quiet _ _ Hr) as Hqt. destruct (offsets_ne env Hoffsets) as (Hno & _).
  assert (Hnd : NoDup (h :: q)) by (rewrite <- EQ; apply (qi_nodup _ _ _ _ _ Hqs)). apply NoDup_cons in Hnd as [Hhq Hnd].
  assert (Hin : forall k' y, y ∈ upd k q Q k' -> y ∈ Q k').
  { intros k' y. destruct (decide (k' = k)) as [->|Hne]; [rewrite upd_eq, EQ, elem_of_cons; by right|by rewrite upd_ne]. }
  split.
  - destruct Hqs as [q1 q2 q3 q4 q5 q6 q7]. constructor.
    + intros k'. destruct (decide (k' = k)) as [->|Hne]; [by rewrite !upd_eq|]. rewrite !upd_ne by done.
      apply (queue_change env (mem s)); [|done]. intros y Hy. by apply (Hn k').
    + intros k'. destruct (decide (k' = k)) as [->|Hne]; [by rewrite upd_eq|]. by rewrite upd_ne.
    + intros k1 k2 y H1%Hin H2%Hin. by apply (q3 k1 k2 y).
    + intros k' y H%Hin. rewrite (quiet_marked s s') by done. by apply (q4 k').
    + intros y v Hy Hv Hz. destruct (decide (y = h)) as [->|Hyh]; [unfold next_of in Hh; rewrite Hh in Hv; injection Hv as <-; done|].
      assert (Hup : forall k', y ∈ Q k' -> exists k', y ∈ upd k q Q k').
      { intros k' Hk'. exists k'. destruct (decide (k' = k)) as [->|Hne]; [|by rewrite upd_ne]. rewrite upd_eq.
        rewrite EQ in Hk'. by apply elem_of_cons in Hk' as [?|?]. }
      destruct (Hn' y) as [E|Hy']; [|right; by apply (Hup k)]. unfold next_of in E. rewrite E in Hv.
      destruct (q5 y v Hy Hv Hz) as [?|[k' Hk']]; [by left|]. right. by apply (Hup k').
    + intros k' y H%Hin Hkc. by apply q6.
    + intros y H%Hin. rewrite (rl_slot _ _ Hr) by done. by apply q7.
  - intros k' H. destruct (decide (k' = k)) as [->|Hne]; [by rewrite upd_eq in H|]. apply Hin in H. apply Hne.
    apply (qi_disjoint _ _ _ _ _ Hqs k' k h H). rewrite EQ. apply elem_of_cons. by left.
Qed.

Lemma dequeue_spec G E P Q s k h q : gc G E P Q s -> Q k = h :: q ->
  exists p s', dequeuePendingReference NDEBUG env (P k) s = Some (h, p, s') /\ relinked s s' /\ gc G (h :: E) (upd k p P) (upd k q Q) s' /\
    forall k', h ∉ upd k q Q k'.
Proof using Hrefs Hoffsets.
  intros HG EQ. pose proof (gc_heap _ _ _ _ _ _ _ _ _ HG) as I. pose proof (gc_queues _ _ _ _ _ _ _ _ _ HG) as Hq.
  assert (Hdone : forall p s', relinked s s' -> queues_inv (upd k p P) (upd k q Q) s' -> gc G (h :: E) (upd k p P) (upd k q Q) s').
  { intros p s' Hr Hqs. apply (gc_relink G E (h :: E) P Q _ _ s s' HG Hr Hqs); [|intros y Hy; apply elem_of_cons; by right].
    intros k' y Hk' Hy. destruct (decide (k' = k)) as [->|Hne].
    - rewrite EQ in Hy. apply elem_of_cons in Hy as [->|Hy]; [right; apply elem_of_cons; by left|]. left. exists k. by rewrite upd_eq.
    - left. exists k'. by rewrite upd_ne. }
  pose proof (qi_queue _ _ _ _ _ Hq k) as Hqk. pose proof (qi_nodup _ _ _ _ _ Hq k) as Hnd.
  assert (Hh : h ∈ Q k) by (rewrite EQ; apply elem_of_cons; by left).
  destruct (qi_member _ _ _ _ _ Hq k h Hh) as (Hhr & Hhm & Hh0).
  unfold dequeuePendingReference. rewrite asserted_true.
  2: { destruct (P k =? 0) eqn:Ep; [|done]. apply (queue_empty P Q s k I Hq) in Ep. by rewrite Ep in EQ. }
  rewrite EQ in Hqk, Hnd. pose proof (queue_head env _ _ _ _ Hqk) as Hhd. pose proof (queue_second env _ _ _ _ Hqk) as Hsec.
  pose proof (queue_single env _ _ _ _ Hqk Hnd) as Hone. pose proof (queue_last_in env _ _ _ _ Hqk) as Hlast. rewrite <- EQ in Hlast.
  assert (Hother : forall k' y, k' <> k -> y ∈ Q k' -> y <> h /\ y <> P k).
  { intros k' y Hk' Hy. split; intros ->; apply Hk'; by eapply (qi_disjoint _ _ _ _ _ Hq k' k). }
  unfold next_of in Hhd. rewrite Hhd, bind_some. destruct (Z.eqb_spec (P k) h) as [Ep|Ep].
  - rewrite Ep. destruct (link_write s h 0 I Hhr Hh0) as (s' & -> & Hr & Hn); [by left|]. rewrite bind_some. exists 0, s'.
    split; [done|]. split; [done|]. assert (q = []) as -> by by apply Hone.
    destruct (queues_remove P Q s s' k 0 h [] Hq Hr EQ) as [Hqs Hni]; [done| | | |].
    + intros k' y Hk' Hy. rewrite Hn, decide_False; [done|]. by apply (Hother k').
    + by rewrite Hn, decide_True.
    + intros y. rewrite Hn. destruct (decide (y = h)) as [->|]; [by right|by left].
    + split; [by apply Hdone|done].
  - unfold next_of in Hsec. rewrite Hsec, bind_some. destruct (qi_member _ _ _ _ _ Hq k (P k) Hlast) as (Hpr & Hpm & Hp0).
    assert (Hsin : hd h q ∈ Q k) by (rewrite EQ; destruct q; [apply elem_of_cons; by left|apply elem_of_cons; right; apply elem_of_cons; by left]).
    destruct (queue_in_heap P Q s k _ I Hq Hsin) as (Hsh & _ & Hsm).
    destruct (link_write s (P k) (hd h q) I Hpr Hp0) as (s1 & -> & Hr1 & Hn1); [by right|]. rewrite bind_some. pose proof (rl_inv _ _ Hr1) as I1.
    destruct (link_write s1 h 0 I1 Hhr Hh0) as (s2 & -> & Hr2 & Hn2); [by left|]. rewrite bind_some.
    assert (Hr : relinked s s2) by by apply (relinked_trans s s1).
    exists (P k), s2. split; [done|]. split; [done|].
    destruct (queues_remove P Q s s2 k (P k) h q Hq Hr EQ) as [Hqs Hni].
    + apply (queue_remove env (mem s) (mem s2) (P k) h q); try done.
      * intros ->. by apply Ep, Hone.
      * by rewrite Hn2, decide_False, Hn1, decide_True.
      * intros y Hy Hyp. rewrite Hn2, decide_False, Hn1, decide_False; [done|done|]. intros ->. by apply NoDup_cons in Hnd as [Hnd _].
    + intros k' y Hk' Hy. destruct (Hother k' y Hk' Hy). by rewrite Hn2, decide_False, Hn1, decide_False.
    + by rewrite Hn2, decide_True.
    + intros y. rewrite Hn2. destruct (decide (y = h)) as [->|]; [by right|]. rewrite Hn1. destruct (decide (y = P k)) as [->|]; [by right|by left].
    + split; [by apply Hdone|done].
Qed.

End Pending.
