(* ===== verification/GcSteps.v ===== *)
(** * The steps of marking, under the invariant

    Marking of objects, the look at the referent of a reference, the scan of an object and
    the loop over the stack keep the invariant and make progress. *)

From stdpp Require Import gmap.
From S2P Require Import Prelude Bits Search RegTypes HeapBitmap CardTable GcHeap MarkSweep GcMarking GcScanning GcQueues GcInvariant GcPending.

(** ** Progress *)

Record adv (s s' : Gc) : Prop := {
  ad_heap : forall y, in_heap s' y <-> in_heap s y;
  ad_marked : forall y, in_heap s y -> marked s y -> marked s' y;
  ad_finger : finger s' = finger s;
  ad_base : base (bitmap s') = base (bitmap s);
  ad_words : words (bitmap s') = words (bitmap s);
  ad_live : liveBits s' = liveBits s;
  ad_work : (work_left s' <= work_left s)%nat;
  ad_size : size (mem s') = size (mem s);
  ad_cards : cards_grow (cardTable s) (cardTable s')
}.

#[export] Instance adv_preorder : PreOrder adv.
Proof.
  split; [by intros s; constructor|]. intros s1 s2 s3 [h1 m1 f1 b1 w1 l1 k1 z1 c1] [h2 m2 f2 b2 w2 l2 k2 z2 c2]. constructor; try congruence; [| |lia|by transitivity (cardTable s2)].
  - intros y. by rewrite h2, h1.
  - intros y Hy Hm. apply m2; [by apply h1|by apply m1].
Qed.

(** What the invariant reads. *)
Definition same_core (s s' : Gc) : Prop :=
  mem s' = mem s /\ liveBits s' = liveBits s /\ bitmap s' = bitmap s /\ stack s' = stack s /\ cardTable s' = cardTable s.

Section Steps.
Context (NDEBUG : bool) (env : Env) (m0 : gmap Z Object) (K : Z -> Z -> Z -> Prop) (R : Z -> Prop).
Context (Hobjects : objects_ok env m0) (Hrefs : refs_ok env m0) (Hoffsets : offsets_ok env).

Abbreviation heap_inv := (heap_inv env m0 K R).
Abbreviation queues_inv := (queues_inv env m0).
Abbreviation gc := (gc env m0 K R).

Lemma heap_core s s' : same_core s s' -> heap_inv s -> heap_inv s'.
Proof using.
  destruct s, s'. unfold same_core. cbn. intros (-> & -> & -> & -> & ->) [[] B C D E F G H J L]. by constructor.
Qed.

Lemma gc_core G E P Q s s' : same_core s s' -> gc G E P Q s -> gc G E P Q s'.
Proof using.
  intros Hc [A B C D]. pose proof (heap_core s s' Hc A) as A'. destruct s, s'. unfold same_core in Hc. cbn in Hc.
  destruct Hc as (-> & -> & -> & -> & ->). destruct B. by constructor.
Qed.

Lemma adv_core s s' : same_core s s' -> finger s' = finger s -> adv s s'.
Proof using. destruct s, s'. unfold same_core. cbn. intros (-> & -> & -> & -> & ->) ->. by constructor. Qed.

(** Fewer objects are still to be scanned than allowed for. *)
Lemma gc_weaken (G G' : Z -> Prop) E E' P Q s : (forall x, in_heap s x -> marked s x -> x ∉ stack s -> G x -> G' x) -> (forall x, x ∈ E -> x ∈ E') ->
  gc G E P Q s -> gc G' E' P Q s.
Proof using.
  intros HG HE [A B C D]. constructor; try done.
  - intros x Hx Hm Hst Hg. apply C; try done. intros H. by apply Hg, HG.
  - intros x Hx Hm Hst Hg He. apply D; try done; [intros H; by apply Hg, HG|]. intros H. by apply He, HE.
Qed.

(** ** Marking *)

Definition may_mark (G : Z -> Prop) (s : Gc) (y : Z) : Prop := y <> 0 -> in_heap s y /\ R y /\ (~ marked s y -> finger s <= y -> G y).

Lemma gc_marks G E P Q s s' l : gc G E P Q s -> marks env s s' l -> (forall y, y ∈ l -> may_mark G s y) -> gc G E P Q s'.
Proof using.
  intros HG M Hl. destruct HG as [I Hq Hsc Hse]. pose proof (mk_mem _ _ _ _ M) as Em.
  assert (Hcov : forall y, in_heap s y -> covered (bitmap s) y) by (intros y Hy; apply (bi_covered _ _ (hi_bits _ _ _ _ _ I) y Hy)).
  assert (Hmono : forall y, in_heap s y -> marked s y -> marked s' y) by (intros y Hy; apply (mk_mono _ _ _ _ _ M), Hcov, Hy).
  assert (Hold : forall y, in_heap s y -> marked s' y -> y ∉ stack s' -> ~ G y -> marked s y /\ y ∉ stack s).
  { intros y Hy Hm Hst HG. destruct (mk_stack _ _ _ _ M) as (new & Est & Hnew). rewrite Est, not_elem_of_app in Hst. destruct Hst as [Hn Hst].
    split; [|done]. destruct (decide (is_set (bitmap s) y = true)) as [?|Hnm]; [done|exfalso].
    apply (mk_marked _ _ _ _ M) in Hm as [Hm|[Hin Hz]]; [done| |by apply Hcov]. destruct (Hl y Hin Hz) as (_ & _ & HG').
    destruct (Z.lt_ge_cases y (finger s)) as [Hf|Hf]; [apply Hn, Hnew; done|]. apply HG, HG'; done. }
  assert (I' : heap_inv s').
  { destruct I as [Ib Ic Ish Irf Iso Icl Ike Iol Irr Ifx]. destruct (mk_frame _ _ _ _ M) as (b & st & Es).
    constructor; rewrite ?Em; try done; unfold in_heap; rewrite ?Em; try done.
    - apply (mk_inv _ _ _ _ M).
    - rewrite Es. exact Ic.
    - intros y Hy [Hm|[Hin Hz]]%(mk_marked _ _ _ _ M); [by apply Iso|by apply (Hl y)|by apply Hcov]. }
  constructor; [done| | |].
  - destruct Hq as [q1 q2 q3 q4 q5 q6 q7]. constructor; rewrite ?Em; try done. intros k x Hx. destruct (q4 k x Hx) as (Hr & Hm & H0).
    split; [done|]. split; [|done]. apply Hmono; [|done]. by apply (reference_in_heap env m0 K R s x I).
  - intros x Hx Hm Hst HG. unfold in_heap in Hx. rewrite Em in Hx. destruct (Hold x Hx Hm Hst HG) as [Hm' Hst']. intros y Hy Hz.
    rewrite Em in Hy. apply Hmono; [apply (hi_refers _ _ _ _ _ I x y); [by left|done]|]. by apply (Hsc x).
  - intros x Hx Hm Hst HG He Hr. unfold in_heap in Hx. rewrite Em in Hx. destruct (Hold x Hx Hm Hst HG) as [Hm' Hst'].
    destruct (Hse x Hx Hm' Hst' HG He Hr) as [(v & Hv & Hvm)|?]; [left|by right]. exists v. rewrite Em. split; [done|].
    destruct (Z.eq_dec v 0) as [->|Hz]; [by left|]. right. destruct Hvm as [?|Hvm]; [done|]. apply Hmono; [|done].
    apply (hi_refers _ _ _ _ _ I x v); [right|done]. split; [|done]. by apply (inv_reference env m0 K R s x I).
Qed.

Lemma adv_marks s s' l : bits_inv env s -> marks env s s' l -> adv s s'.
Proof using.
  intros I M. constructor; try by apply M.
  - intros y. apply (mk_heap _ _ _ _ _ M).
  - intros y Hy. apply (mk_mono _ _ _ _ _ M). by apply (bi_covered _ _ I).
  - apply (mk_finger _ _ _ _ M).
  - by destruct (mk_frame _ _ _ _ M) as (b & st & ->).
  - by rewrite (mk_mem _ _ _ _ M).
  - by destruct (mk_frame _ _ _ _ M) as (b & st & ->).
Qed.

Lemma linked_marks P s s' l : linked P s -> marks env s s' l -> linked P s'.
Proof using. intros [Hl Hn] M. destruct (mk_frame _ _ _ _ M) as (b & st & ->). split; [|done]. intros k. rewrite Hl. by destruct k. Qed.

Lemma gc_visit G E P Q s l : gc G E P Q s -> linked P s -> (forall y, y ∈ l -> may_mark G s y) ->
  exists s', visit (markObject NDEBUG env) l s = Some s' /\ marks env s s' l /\ gc G E P Q s' /\ linked P s' /\ adv s s'.
Proof using.
  intros HG HL Hl. pose proof (hi_bits _ _ _ _ _ (gc_heap _ _ _ _ _ _ _ _ _ HG)) as I.
  destruct (visit_marks NDEBUG env l s I) as (s' & E' & M); [intros y Hy Hz; by apply (Hl y)|].
  exists s'. split; [done|]. split; [done|]. split; [by apply (gc_marks G E P Q s s' l)|]. split; [by apply (linked_marks P s s' l)|by apply (adv_marks s s' l)].
Qed.

(** ** References *)

Lemma work_left_quiet s s' : quiet s s' -> same_shape (mem s) (mem s') -> (work_left s' <= work_left s)%nat.
Proof using.
  intros (t & m & -> & _) Hs. unfold work_left, whites. cbn [mem bitmap stack with_cardTable with_mem] in *.
  assert (E : dom m = dom (mem s)) by (apply set_eq; intros y; rewrite !elem_of_dom; by apply shape_in_heap). by rewrite E.
Qed.

Lemma adv_relinked s s' : relinked env m0 K R s s' -> adv s s'.
Proof using.
  intros H. pose proof (rl_quiet _ _ _ _ _ _ H) as Hq. pose proof (work_left_quiet s s' Hq (rl_shape _ _ _ _ _ _ H)) as Hw.
  pose proof (shape_size _ _ (rl_shape _ _ _ _ _ _ H)) as Hz. pose proof (fun y => relinked_heap env m0 K R s s' y H) as Hh.
  destruct Hq as (t & m & -> & Hg). constructor; done.
Qed.

Lemma linked_upd P s s' l p : linked P s -> (forall k, list_of k s' = list_of k s) -> linked (upd (Some l) p P) (with_list l p s').
Proof using.
  intros [Hl Hn] Hs. split; [|by rewrite upd_ne]. intros k. destruct (decide (k = l)) as [->|Hne]; [rewrite upd_eq; by destruct l|].
  rewrite upd_ne by congruence. rewrite Hl, <- (Hs k). by destruct k, l.
Qed.

Lemma quiet_list s s' k : quiet s s' -> list_of k s' = list_of k s.
Proof using. intros (t & m & -> & _). by destruct k. Qed.

Lemma with_list_core l p s : same_core s (with_list l p s).
Proof using. by destruct s. Qed.

Lemma in_queue_pending P Q s k x : heap_inv s -> queues_inv P Q s -> x ∈ Q k -> slot (mem s) x (off_pendingNext env) <> Some 0.
Proof using.
  intros I Hq Hx E. destruct (queue_next env _ _ _ x (qi_queue _ _ _ _ _ Hq k) Hx) as (v & Ev & Hv). unfold next_of in Ev. rewrite E in Ev.
  injection Ev as <-. by destruct (queue_in_heap env m0 K R P Q s k 0 I Hq Hv) as (_ & ? & _).
Qed.

(** What scanning does to the queues: a reference that enters has a white referent. *)
Record looks (s s' : Gc) (Q Q' : QId -> list Z) : Prop := {
  lk_referent : forall x, slot (mem s') x (off_referent env) = slot (mem s) x (off_referent env);
  lk_entered : forall k x, x ∈ Q' k -> x ∈ Q k \/
    exists v, slot (mem s) x (off_referent env) = Some v /\ v <> 0 /\ in_heap s v /\ ~ marked s v
}.

Lemma looks_same s s' Q : mem s' = mem s -> looks s s' Q Q.
Proof using. intros E. constructor; [by rewrite E|]. intros k x Hx. by left. Qed.

Lemma looks_trans s1 s2 s3 Q1 Q2 Q3 : adv s1 s2 -> looks s1 s2 Q1 Q2 -> looks s2 s3 Q2 Q3 -> looks s1 s3 Q1 Q3.
Proof using.
  intros A [r1 e1] [r2 e2]. constructor; [intros x; by rewrite r2, r1|]. intros k x [H|(v & Hv & Hz & Hh & Hm)]%e2; [by apply e1|right].
  rewrite r1 in Hv. apply (ad_heap _ _ A) in Hh. exists v. split; [done|]. split; [done|]. split; [done|]. intros H. by apply Hm, (ad_marked _ _ A).
Qed.

Lemma delay_spec G E P Q s x : gc G E P Q s -> linked P s -> reference_at env m0 x -> marked s x ->
  exists s' P' Q', delayReferenceReferent NDEBUG env x s = Some s' /\ gc G E P' Q' s' /\ linked P' s' /\ adv s s' /\
    (scanned env s x -> scanned env s' x) /\ settled env m0 s' Q' x /\ stack s' = stack s /\ looks s s' Q Q' /\
    forall y, marked s' y -> marked s y.
Proof using Hrefs Hoffsets.
  intros HG HL Hx Hxm. pose proof (gc_heap _ _ _ _ _ _ _ _ _ HG) as I. pose proof (gc_queues _ _ _ _ _ _ _ _ _ HG) as Hq.
  destruct (reference_slots env m0 K R Hrefs s x I Hx) as ((pending & Ep) & (referent & Er) & _).
  unfold delayReferenceReferent. rewrite Ep, bind_some, Er, bind_some.
  assert (Hsame : settled env m0 s Q x -> exists s' P' Q', Some s = Some s' /\ gc G E P' Q' s' /\ linked P' s' /\ adv s s' /\
    (scanned env s x -> scanned env s' x) /\ settled env m0 s' Q' x /\ stack s' = stack s /\ looks s s' Q Q' /\
    forall y, marked s' y -> marked s y).
  { intros Hs. exists s, P, Q. do 7 (split; [done|]). split; [by apply looks_same|done]. }
  destruct (Z.eqb_spec pending 0) as [->|Hpz]; cbn [andb].
  2: { apply Hsame. intros _. destruct (qi_pending _ _ _ _ _ Hq x pending Hx Ep Hpz) as [H0|[k Hk]].
       - left. exists 0. split; [|by left]. by apply (hi_old _ _ _ _ _ I).
       - destruct (decide (k = Some ClearedList)) as [->|Hne]; [|right; by exists k]. left. exists 0. split; [|by left].
         by apply (qi_cleared _ _ _ _ _ Hq). }
  destruct (Z.eqb_spec referent 0) as [->|Hrz]; cbn [negb]; [apply Hsame; intros _; left; exists 0; split; [done|by left]|].
  assert (Hrh : in_heap s referent).
  { apply (hi_refers _ _ _ _ _ I x referent); [right|done]. split; [by apply (inv_reference env m0 K R s)|done]. }
  rewrite (isMarked_spec NDEBUG env) by (done || apply (hi_bits _ _ _ _ _ I)). rewrite bind_some.
  destruct (is_set (bitmap s) referent) eqn:Em; cbn [negb]; [apply Hsame; intros _; left; exists referent; split; [done|by right]|].
  destruct (Hrefs x Hx) as (_ & _ & _ & _ & l & Ek & Hlc & _).
  assert (Ek' : kind_at (mem s) x = Some l) by (rewrite (shape_kind m0 (mem s) x (hi_shape _ _ _ _ _ I)); done).
  unfold kind_at in Ek'. apply bind_Some in Ek' as (flags & Ef & Epl). rewrite Ef, bind_some, Epl, bind_some.
  destruct (enqueue_spec NDEBUG env m0 K R Hrefs Hoffsets G E P Q s (Some l) x HG) as (p & s1 & E1 & Hr & HG1).
  { split; [done|]. split; [done|]. split; [|split].
    - destruct (decide (slot m0 x (off_pendingNext env) = Some 0)) as [?|H0]; [done|]. apply (hi_old _ _ _ _ _ I x Hx) in H0. by rewrite Er in H0; injection H0.
    - intros k Hk. by apply (in_queue_pending P Q s k x I Hq Hk).
    - rewrite decide_False by congruence. exact Ek. }
  destruct HL as [HLl HLn]. rewrite HLl in E1. rewrite E1, bind_some.
  assert (Hcore : same_core s1 (with_list l p s1)) by by destruct s1.
  eexists _, _, _. split; [reflexivity|]. split; [by apply (gc_core _ _ _ _ s1)|].
  split; [apply (linked_upd P s); [done|]; intros k; apply quiet_list, Hr|].
  assert (Ha : adv s s1) by by apply adv_relinked.
  split; [transitivity s1; [done|by apply adv_core; [|destruct s1]]|].
  split; [intros Hs; apply (relinked_scanned env m0 K R s s1 x Hr Hs)|].
  split; [|split; [apply (quiet_stack s s1), Hr|split; [|intros y; apply (quiet_marked s s1), Hr]]].
  - intros _. right. exists (Some l). split; [congruence|]. rewrite upd_eq. apply elem_of_cons. by left.
  - destruct (offsets_ne env Hoffsets) as (Hno & _). constructor; [intros y; apply (rl_slot _ _ _ _ _ _ Hr y _ Hno)|]. intros k y Hy.
    destruct (decide (k = Some l)) as [->|Hk]; [|rewrite upd_ne in Hy by done; by left]. rewrite upd_eq in Hy.
    apply elem_of_cons in Hy as [->|Hy]; [right|by left]. exists referent. split; [done|]. split; [done|]. split; [done|]. unfold marked. by rewrite Em.
Qed.

(** ** Objects *)

(** What is newly marked is above the finger or on the stack. *)
Definition fresh_pushed (s s' : Gc) : Prop := forall y, in_heap s y -> marked s' y -> marked s y \/ finger s <= y \/ y ∈ stack s'.

Lemma fresh_marks s s' l : bits_inv env s -> marks env s s' l -> fresh_pushed s s'.
Proof using.
  intros I M y Hy Hm. apply (mk_marked _ _ _ _ M) in Hm as [?|[Hin Hz]]; [by left| |by apply (bi_covered _ _ I)].
  destruct (decide (is_set (bitmap s) y = true)) as [?|Hn]; [by left|right]. destruct (Z.le_gt_cases (finger s) y) as [?|Hf]; [by left|right].
  destruct (mk_stack _ _ _ _ M) as (new & -> & Hnew). apply elem_of_app. left. by apply Hnew.
Qed.

Lemma scan_spec G P Q s x : gc G [] P Q s -> linked P s -> in_heap s x -> marked s x -> (forall y, in_heap s y -> finger s <= y -> G y) ->
  exists s' P' Q', scanObject NDEBUG env x s = Some s' /\ gc (fun y => G y /\ y <> x) [] P' Q' s' /\ linked P' s' /\ adv s s' /\
    looks s s' Q Q' /\ fresh_pushed s s'.
Proof using Hobjects Hrefs Hoffsets.
  intros HG HL Hx Hm Hf. pose proof (gc_heap _ _ _ _ _ _ _ _ _ HG) as I. pose proof (hi_shape _ _ _ _ _ I) as Hsh.
  pose proof (hi_bits _ _ _ _ _ I) as Ib. destruct Hx as [o Ho].
  assert (Hx : in_heap s x) by by eexists.
  assert (H0 : mem s !! 0 = None).
  { destruct (mem s !! 0) eqn:E0; [|done]. exfalso. by apply (in_heap_nonzero env s 0 Ib); [unfold in_heap; rewrite E0; by eexists|]. }
  destruct (scanObject_visit NDEBUG env (mem s) x o H0 Ho) as (l & Hl & Hscan).
  { by apply (shape_objects_ok env m0 (mem s) Hsh Hobjects). }
  rewrite Hscan by done.
  destruct (gc_visit G [] P Q s l HG HL) as (s1 & -> & M & HG1 & HL1 & Ha1).
  { intros y Hy Hz. apply Hl in Hy. assert (Hyh : in_heap s y) by (apply (hi_refers _ _ _ _ _ I x y); [by left|done]).
    split; [done|]. split; [|intros _ Hfy; by apply Hf]. apply (hi_closed _ _ _ _ _ I x y); [by apply (hi_sound _ _ _ _ _ I)|done|done]. }
  rewrite bind_some. pose proof (mk_mem _ _ _ _ M) as Em.
  assert (Hs1 : scanned env s1 x).
  { intros y Hy Hz. rewrite Em in Hy. apply (mk_marked _ _ _ _ M); [apply (bi_covered _ _ Ib), (hi_refers _ _ _ _ _ I x y); [by left|done]|].
    right. split; [by apply Hl|done]. }
  assert (Hm1 : marked s1 x) by by apply (ad_marked _ _ Ha1).
  assert (Hfin : forall s' P' Q', gc G [] P' Q' s' -> scanned env s' x -> settled env m0 s' Q' x -> gc (fun y => G y /\ y <> x) [] P' Q' s').
  { intros s' P' Q' [A B C D] Hsc Hse. constructor; try done.
    - intros y Hy Hym Hst HGy. destruct (decide (y = x)) as [->|Hne]; [done|]. apply C; try done. tauto.
    - intros y Hy Hym Hst HGy He. destruct (decide (y = x)) as [->|Hne]; [done|]. apply D; try done. tauto. }
  assert (Hiff : reference_at env m0 x <-> is_reference env (mem s) o = true).
  { rewrite <- (inv_reference env m0 K R s x I). split; [intros (o' & Ho' & Hr); congruence|]. intros Hr. by exists o. }
  destruct (is_reference env (mem s) o) eqn:Er.
  - destruct (delay_spec G [] P Q s1 x HG1 HL1) as (s2 & P2 & Q2 & -> & HG2 & HL2 & Ha2 & Hs2 & Hse2 & Est2 & Hlk2 & Hold2); [by apply Hiff|done|].
    exists s2, P2, Q2. split; [done|]. split; [apply Hfin; [done|by apply Hs2|done]|]. split; [done|]. split; [by transitivity s1|].
    split; [apply (looks_trans s s1 s2 Q Q Q2 Ha1); [by apply looks_same|done]|].
    intros y Hy Hym. rewrite Est2. by apply (fresh_marks s s1 l Ib M), Hold2.
  - exists s1, P, Q. split; [done|]. split; [|split; [done|split; [done|split; [by apply looks_same|by apply (fresh_marks s s1 l)]]]]. apply Hfin; [done|done|]. intros Hr%Hiff. done.
Qed.

(** ** The stack *)

Lemma work_bound s : bits_inv env s -> (work_left s <= size (mem s))%nat.
Proof using.
  intros I. unfold work_left, whites. destruct (bi_stack _ _ I) as [Hnd Hst].
  set (f := fun x => negb (is_set (bitmap s) x)).
  rewrite <- length_app. rewrite <- (size_list_to_set (C := gset Z)).
  - rewrite <- size_dom. apply subseteq_size. intros y Hy%elem_of_list_to_set. apply elem_of_app in Hy as [Hy|Hy].
    + apply list_elem_of_In, filter_In in Hy as [Hy _]. by apply list_elem_of_In, elem_of_elements in Hy.
    + apply elem_of_dom, Hst, Hy.
  - apply NoDup_app. split; [|split; [|done]].
    + apply NoDup_ListNoDup, List.NoDup_filter, NoDup_ListNoDup, NoDup_elements.
    + intros y Hy Hys. apply list_elem_of_In, filter_In in Hy as [_ Hy]. unfold f in Hy. destruct (Hst y Hys) as [_ Hym]. unfold marked in Hym. by rewrite Hym in Hy.
Qed.

Lemma pop_spec G P Q s x l : gc G [] P Q s -> linked P s -> stack s = x :: l ->
  markStackPop NDEBUG env s = Some (x, with_stack l s) /\ gc (fun y => G y \/ y = x) [] P Q (with_stack l s) /\ linked P (with_stack l s) /\
  in_heap s x /\ marked s x /\ S (work_left (with_stack l s)) = work_left s.
Proof using.
  intros HG HL Es. pose proof (gc_heap _ _ _ _ _ _ _ _ _ HG) as I. pose proof (hi_bits _ _ _ _ _ I) as Ib.
  destruct (bi_stack _ _ Ib) as [Hnd Hst]. pose proof (work_bound s Ib) as Hw. pose proof (bi_room _ _ Ib) as Hroom.
  assert (Hlen : Z.of_nat (length (stack s)) < stackRoom env) by (unfold work_left in Hw; lia).
  unfold markStackPop. rewrite asserted_true by by apply Z.ltb_lt. rewrite Es. split; [done|].
  assert (Hx : x ∈ stack s) by (rewrite Es; apply elem_of_cons; by left). rewrite Es in Hnd. apply NoDup_cons in Hnd as [Hxl Hnd].
  split; [|split; [|split; [by apply Hst|split; [by apply Hst|]]]].
  - destruct HG as [A B C D]. constructor.
    + destruct A as [A1 A2 A3 A4 A5 A6 A7 A8 A9 A10]. constructor; try done. destruct A1. constructor; try done.
      split; [done|]. cbn [stack with_stack]. intros y Hy. apply Hst. rewrite Es. apply elem_of_cons. by right.
    + destruct B. by constructor.
    + intros y Hy Hym Hyst Hg. cbn [stack with_stack] in Hyst. apply (C y); [done|done| |tauto]. rewrite Es. intros [->|?]%elem_of_cons; tauto.
    + intros y Hy Hym Hyst Hg. cbn [stack with_stack] in Hyst. apply (D y); [done|done| |tauto]. rewrite Es. intros [->|?]%elem_of_cons; tauto.
  - destruct HL as [HL1 HL2]. split; [|done]. intros k. rewrite HL1. by destruct k.
  - unfold work_left, whites. cbn [stack with_stack bitmap mem]. rewrite Es. cbn [length]. lia.
Qed.

Lemma mark_stack_spec : forall fuel P Q s, gc (fun _ => False) [] P Q s -> linked P s -> finger s = ULONG_MAX -> (work_left s <= fuel)%nat ->
  exists s' P' Q', mark_stack_loop NDEBUG env fuel s = Some s' /\ stack s' = [] /\ gc (fun _ => False) [] P' Q' s' /\ linked P' s' /\ adv s s' /\
    looks s s' Q Q'.
Proof using Hobjects Hrefs Hoffsets.
  induction fuel as [|fuel IH]; intros P Q s HG HL Hfi Hw.
  { assert (Es : stack s = []) by (destruct (stack s) eqn:Es; [done|]; unfold work_left in Hw; rewrite Es in Hw; cbn [length] in Hw; lia).
    exists s, P, Q. cbn [mark_stack_loop]. rewrite Es. do 5 (split; [done|]). by apply looks_same. }
  cbn [mark_stack_loop]. destruct (stack s) as [|x l] eqn:Es; [exists s, P, Q; do 5 (split; [done|]); by apply looks_same|].
  destruct (pop_spec _ P Q s x l HG HL Es) as (-> & HG1 & HL1 & Hx & Hm & Hw1). rewrite bind_some.
  destruct (scan_spec (fun y => False \/ y = x) P Q (with_stack l s) x HG1 HL1 Hx Hm) as (s2 & P2 & Q2 & -> & HG2 & HL2 & Ha2 & Hlk2 & _).
  { intros y Hy Hfy. cbn [finger with_stack] in Hfy. rewrite Hfi in Hfy. pose proof (hi_bits _ _ _ _ _ (gc_heap _ _ _ _ _ _ _ _ _ HG)) as Ib.
    destruct (bi_bounds _ _ Ib y Hy). lia. }
  rewrite bind_some. pose proof (ad_work _ _ Ha2).
  destruct (IH P2 Q2 s2) as (s3 & P3 & Q3 & -> & Es3 & HG3 & HL3 & Ha3 & Hlk3).
  - apply (gc_weaken (fun y => (False \/ y = x) /\ y <> x) _ [] []); [tauto|done|done].
  - done.
  - by rewrite (ad_finger _ _ Ha2).
  - lia.
  - exists s3, P3, Q3. split; [done|]. split; [done|]. split; [done|]. split; [done|].
    assert (Ha : adv s s2) by (constructor; try (by apply Ha2); pose proof (ad_work _ _ Ha2); lia).
    split; [by transitivity s2|]. apply (looks_trans s s2 s3 Q Q2 Q3 Ha); [|done]. by destruct Hlk2.
Qed.

Lemma process_stack_spec fuel P Q s : gc (fun _ => False) [] P Q s -> linked P s -> finger s = ULONG_MAX -> (size (mem s) <= fuel)%nat ->
  exists s' P' Q', processMarkStack NDEBUG env fuel s = Some s' /\ stack s' = [] /\ gc (fun _ => False) [] P' Q' s' /\ linked P' s' /\ adv s s' /\
    looks s s' Q Q'.
Proof using Hobjects Hrefs Hoffsets.
  intros HG HL Hf Hfuel. unfold processMarkStack. rewrite asserted_true by by apply Z.eqb_eq. apply (mark_stack_spec fuel P Q s HG HL Hf).
  pose proof (work_bound s (hi_bits _ _ _ _ _ (gc_heap _ _ _ _ _ _ _ _ _ HG))). lia.
Qed.

End Steps.
