(* ===== verification/GcMark.v ===== *)
(** * Marking from the roots

    The walk over the bitmap that scans what is marked while more is marked, and the loop
    over the stack after it: together they mark what can be reached. *)

From stdpp Require Import gmap.
From S2P Require Import Prelude Bits Search RegTypes HeapBitmap CardTable GcHeap MarkSweep GcMarking GcScanning GcQueues GcInvariant GcPending GcSteps.

Lemma scan_loop_S {S} n i last (bitmap : S -> HeapBitmap) (callback : Z -> Z -> S -> option S) s :
  scan_loop (Datatypes.S n) i last bitmap callback s =
  if i <=? last then
    word ← aref (bits (bitmap s)) i;
    if negb (word =? 0) then
      s ← walk_word 32 word (word_base (bitmap s) i) (fun obj => callback obj (u32 (HB_INDEX_TO_OFFSET (i + 1) + base (bitmap s)))) s;
      scan_loop n (i + 1) (HB_OFFSET_TO_INDEX (u32 (max (bitmap s) - base (bitmap s)))) bitmap callback s
    else scan_loop n (i + 1) last bitmap callback s
  else Some s.
Proof. reflexivity. Qed.

Lemma scan_loop_end {S} n i last (bitmap : S -> HeapBitmap) (callback : Z -> Z -> S -> option S) s : last < i ->
  scan_loop n i last bitmap callback s = Some s.
Proof. intros H. destruct n; [cbn [scan_loop]|rewrite scan_loop_S]; by rewrite (proj2 (Z.leb_gt _ _)) by lia. Qed.

(** The finger apart, the state has advanced. *)
Definition walks (s s' : Gc) : Prop := adv (with_finger (finger s') s) s'.

Lemma adv_finger f s s' : adv s s' -> adv (with_finger f s) (with_finger f s').
Proof. intros []. by constructor. Qed.

Lemma with_finger_id s : with_finger (finger s) s = s.
Proof. by destruct s. Qed.

Lemma walks_refl s : walks s s.
Proof. unfold walks. by rewrite with_finger_id. Qed.

Lemma walks_trans s1 s2 s3 : walks s1 s2 -> walks s2 s3 -> walks s1 s3.
Proof. intros H1 H2. unfold walks in *. apply (adv_finger (finger s3)) in H1. by transitivity (with_finger (finger s3) s2). Qed.

Lemma walks_step f s s' : adv (with_finger f s) s' -> walks s s'.
Proof. intros H. unfold walks. by rewrite (ad_finger _ _ H). Qed.

(** ** The walk over the bitmap, for any callback

    The callback may do more than scan the object, as long as it keeps an invariant [J] that
    says of a set of objects that only they, and those on the stack, are still to be
    scanned. *)

Section Walk.
Context {S : Type} (env : Env) (st : S -> Gc) (cb : Z -> Z -> S -> option S) (J : (Z -> Prop) -> S -> Prop).
Context (Jbits : forall G s, J G s -> bits_inv env (st s)).
Context (Jweaken : forall G G' s, (forall x, in_heap (st s) x -> marked (st s) x -> G x -> G' x) -> J G s -> J G' s).
Context (Hcb : forall G s x f, J G s -> in_heap (st s) x -> marked (st s) x -> (forall y, in_heap (st s) y -> f <= y -> G y) ->
  exists s', cb x f s = Some s' /\ J (fun y => G y /\ y <> x) s' /\ walks (st s) (st s')).

Lemma scan_word f l : forall s, J (fun y => y ∈ l \/ f <= y) s -> (forall y, y ∈ l -> in_heap (st s) y /\ marked (st s) y) ->
  exists s', visit (fun obj => cb obj f) l s = Some s' /\ J (fun y => f <= y) s' /\ walks (st s) (st s').
Proof using Jweaken Hcb.
  induction l as [|x l IH]; intros s HG Hl.
  { exists s. split; [done|]. split; [|apply walks_refl].
    apply (Jweaken (fun y => y ∈ [] \/ f <= y)); [|done]. by intros y _ _ [?%not_elem_of_nil|?]. }
  cbn [visit]. destruct (Hl x) as [Hx Hm]; [apply elem_of_cons; by left|].
  destruct (Hcb (fun y => y ∈ x :: l \/ f <= y) s x f HG Hx Hm) as (s1 & -> & HG1 & Hw1); [by intros y _ Hy; right|].
  rewrite bind_some. destruct (IH s1) as (s2 & -> & HG2 & Hw2).
  - apply (Jweaken (fun y => (y ∈ x :: l \/ f <= y) /\ y <> x)); [|done].
    intros y _ _ [[[?|?]%elem_of_cons|?] ?]; [done|by left|by right].
  - intros y Hy. destruct (Hl y) as [Hyh Hym]; [apply elem_of_cons; by right|]. split; [by apply (ad_heap _ _ Hw1)|by apply (ad_marked _ _ Hw1)].
  - exists s2. split; [done|]. split; [done|]. by apply (walks_trans (st s) (st s1)).
Qed.

Lemma marked_in_word s y i : bits_inv env s -> 0 <= i < words (bitmap s) -> in_heap s y -> marked s y ->
  base (bitmap s) + 256 * i <= y < base (bitmap s) + 256 * (i + 1) -> y ∈ word_objs (word_of (bitmap s) i) (word_base (bitmap s) i).
Proof using.
  intros I Hi Hy Hm Hr. pose proof (bi_covered _ _ I y Hy) as Hc.
  assert (E : (y - base (bitmap s)) / 8 / 32 = i) by (rewrite Z.div_div by lia; symmetry; apply (Z.div_unique_pos _ _ _ (y - base (bitmap s) - 256 * i)); lia).
  apply (in_word_objs (bitmap s) i _ y (bi_ok _ _ I) Hi). split; [done|]. split; [done|].
  unfold marked, is_set, bit_of in Hm. unfold word_of. by rewrite E in Hm.
Qed.

Lemma word_marked s y i : bits_inv env s -> 0 <= i < words (bitmap s) -> y ∈ word_objs (word_of (bitmap s) i) (word_base (bitmap s) i) ->
  in_heap s y /\ marked s y.
Proof using.
  intros I Hi Hy. apply (in_word_objs (bitmap s) i _ y (bi_ok _ _ I) Hi) in Hy as (Hc & E & Hb).
  assert (Hm : marked s y) by (unfold marked, is_set, bit_of; rewrite E; exact Hb). split; [|done]. by apply (bi_marked _ _ I).
Qed.

Lemma max_of_marked s x : bits_inv env s -> in_heap s x -> marked s x -> base (bitmap s) <= max (bitmap s).
Proof using.
  intros I Hx Hm. destruct (bi_ok _ _ I) as (_ & _ & _ & _ & Hmax). pose proof (bi_covered _ _ I x Hx) as Hc.
  specialize (Hmax x Hc Hm). destruct Hc. lia.
Qed.

Lemma scan_loop_spec n : forall i last s, J (fun y => base (bitmap (st s)) + 256 * i <= y) s -> 0 <= i ->
  words (bitmap (st s)) - i <= Z.of_nat n -> last = last_index (bitmap (st s)) -> base (bitmap (st s)) + 256 * words (bitmap (st s)) < 2 ^ 32 ->
  (exists x, in_heap (st s) x /\ marked (st s) x) ->
  exists s', scan_loop n i last (fun s => bitmap (st s)) cb s = Some s' /\ J (fun _ => False) s' /\ walks (st s) (st s').
Proof using Jbits Jweaken Hcb.
  induction n as [|n IH]; intros i last s HG Hi Hn Hlast Hfit Hex; pose proof (Jbits _ _ HG) as I;
    destruct Hex as (x & Hx & Hm); pose proof (max_of_marked (st s) x I Hx Hm) as Hmax;
    destruct (last_index_eq (bitmap (st s)) (bi_ok _ _ I) Hmax) as [_ Hli]; rewrite <- Hlast in Hli;
    assert (Hend : last < i -> J (fun _ => False) s).
  1, 3: intros Hlt; apply (Jweaken (fun y => base (bitmap (st s)) + 256 * i <= y)); [|done];
    intros y Hy Hym Hge; pose proof (set_below_max (bitmap (st s)) y (bi_ok _ _ I) (bi_covered _ _ I y Hy) Hym Hmax) as Hle;
    rewrite Z.div_div in Hle by lia; rewrite <- Hlast in Hle;
    enough (i <= (y - base (bitmap (st s))) / (8 * 32)) by lia; apply Z.div_le_lower_bound; lia.
  { rewrite scan_loop_end by lia. exists s. split; [done|]. split; [apply Hend; lia|apply walks_refl]. }
  destruct (Z.lt_ge_cases last i) as [Hlt|Hge].
  { rewrite scan_loop_end by lia. exists s. split; [done|]. split; [by apply Hend|apply walks_refl]. }
  rewrite scan_loop_S, (proj2 (Z.leb_le _ _)) by lia. rewrite word_at, bind_some by lia.
  set (l := word_objs (word_of (bitmap (st s)) i) (word_base (bitmap (st s)) i)).
  assert (Hsplit : J (fun y => y ∈ l \/ base (bitmap (st s)) + 256 * (i + 1) <= y) s).
  { apply (Jweaken (fun y => base (bitmap (st s)) + 256 * i <= y)); [|done]. intros y Hy Hym Hyi.
    destruct (Z.lt_ge_cases y (base (bitmap (st s)) + 256 * (i + 1))) as [Hylt|?]; [left|by right]. apply marked_in_word; try done; lia. }
  destruct (Z.eqb_spec (word_of (bitmap (st s)) i) 0) as [Ew|Ew]; cbn [negb].
  - apply (IH (i + 1) last s); try done; try lia; [|by exists x].
    apply (Jweaken (fun y => y ∈ l \/ base (bitmap (st s)) + 256 * (i + 1) <= y)); [|done].
    intros y _ _ [Hy|?]; [|done]. unfold l in Hy. rewrite Ew, word_objs_zero in Hy. by apply not_elem_of_nil in Hy.
  - rewrite walk_word_visit by (apply word_inU, I). fold l.
    assert (Ef : u32 (HB_INDEX_TO_OFFSET (i + 1) + base (bitmap (st s))) = base (bitmap (st s)) + 256 * (i + 1)).
    { destruct (bi_ok _ _ I) as (_ & Hb & _). unfold HB_INDEX_TO_OFFSET, HB_OBJECT_ALIGNMENT, HB_BITS_PER_WORD. rewrite !wrapU_id by (unfold inU; rewrite ?wrapU_id; unfold inU; lia). lia. }
    rewrite Ef. destruct (scan_word (base (bitmap (st s)) + 256 * (i + 1)) l s Hsplit) as (s1 & -> & HG1 & Hw1).
    { intros y Hy. apply (word_marked (st s) y i I); [lia|done]. }
    rewrite bind_some. pose proof (ad_base _ _ Hw1) as Eb. pose proof (ad_words _ _ Hw1) as Ewd. cbn [bitmap with_finger] in Eb, Ewd.
    destruct (IH (i + 1) (HB_OFFSET_TO_INDEX (u32 (max (bitmap (st s1)) - base (bitmap (st s1))))) s1) as (s2 & -> & HG2 & Hw2);
      rewrite ?Eb, ?Ewd; try done; try lia.
    + unfold last_index. by rewrite Eb.
    + exists x. split; [by apply (ad_heap _ _ Hw1)|by apply (ad_marked _ _ Hw1)].
    + exists s2. split; [done|]. split; [done|]. by apply (walks_trans (st s) (st s1)).
Qed.

Lemma scan_walk_spec s : J (fun _ => True) s -> base (bitmap (st s)) + 256 * words (bitmap (st s)) < 2 ^ 32 ->
  (exists x, in_heap (st s) x /\ marked (st s) x) ->
  exists s', dvmHeapBitmapScanWalk (fun s => bitmap (st s)) cb s = Some s' /\ J (fun _ => False) s' /\ walks (st s) (st s').
Proof using Jbits Jweaken Hcb.
  intros HG Hfit Hex. unfold dvmHeapBitmapScanWalk. apply (scan_loop_spec (Datatypes.S (length (bits (bitmap (st s))))) 0); try done.
  - apply (Jweaken (fun _ => True)); [|done]. intros y Hy _ _. pose proof (Jbits _ _ HG) as I. destruct (bi_covered _ _ I y Hy). lia.
  - unfold words. lia.
Qed.

End Walk.

Section Mark.
Context (NDEBUG : bool) (env : Env) (m0 : gmap Z Object) (K : Z -> Z -> Z -> Prop) (R : Z -> Prop).
Context (Hobjects : objects_ok env m0) (Hrefs : refs_ok env m0) (Hoffsets : offsets_ok env).

Abbreviation gc := (gc env m0 K R).

Lemma linked_finger P f s : linked P s -> linked P (with_finger f s).
Proof using. intros [H1 H2]. split; [|done]. intros k. rewrite H1. by destruct k. Qed.

Lemma gc_finger G E P Q f s : gc G E P Q s -> gc G E P Q (with_finger f s).
Proof using. by apply gc_core. Qed.

(** From everything marked being still to be scanned, to everything scanned. *)
Lemma scan_marked_spec fuel P Q s : gc (fun _ => True) [] P Q s -> linked P s -> finger s = 0 -> stack s = [] ->
  base (bitmap s) + 256 * words (bitmap s) < 2 ^ 32 -> (size (mem s) <= fuel)%nat -> (exists x, in_heap s x /\ marked s x) ->
  exists s' P' Q', dvmHeapScanMarkedObjects NDEBUG env fuel s = Some s' /\ stack s' = [] /\ finger s' = ULONG_MAX /\
    gc (fun _ => False) [] P' Q' s' /\ linked P' s' /\ walks s s'.
Proof using Hobjects Hrefs Hoffsets.
  intros HG HL Hf Hst Hfit Hfuel Hex. unfold dvmHeapScanMarkedObjects. rewrite asserted_true by by apply Z.eqb_eq.
  destruct (scan_walk_spec env (fun s => s) (scanBitmapCallback NDEBUG env) (fun G s => exists P Q, gc G [] P Q s /\ linked P s)) with (s := s)
    as (s1 & E & (P1 & Q1 & HG1 & HL1) & Hw1).
  - intros G s' (P' & Q' & HG' & _). apply (gc_heap _ _ _ _ _ _ _ _ _ HG').
  - intros G G' s' HGG (P' & Q' & HG' & HL'). exists P', Q'. split; [|done]. apply (gc_weaken env m0 K R G _ [] []); [|done|done]. intros x Hx Hm _. by apply HGG.
  - intros G s' x f (P' & Q' & HG' & HL') Hx Hm Hy.
    destruct (scan_spec NDEBUG env m0 K R Hobjects Hrefs Hoffsets G P' Q' (with_finger f s') x) as (s1 & P1 & Q1 & E1 & HG1 & HL1 & Ha1 & _);
      [by apply gc_finger|by apply linked_finger|done..|]. exists s1. split; [exact E1|]. split; [by exists P1, Q1|by apply (walks_step f)].
  - by exists P, Q.
  - done.
  - done.
  - change (fun s => bitmap s) with bitmap in E. rewrite E, bind_some. pose proof (ad_size _ _ Hw1) as Hsz. cbn [mem with_finger] in Hsz.
    destruct (process_stack_spec NDEBUG env m0 K R Hobjects Hrefs Hoffsets fuel P1 Q1 (with_finger ULONG_MAX s1)) as (s2 & P2 & Q2 & -> & Es2 & HG2 & HL2 & Ha2 & _).
    + by apply gc_finger.
    + by apply linked_finger.
    + done.
    + cbn [mem with_finger]. lia.
    + exists s2, P2, Q2. split; [done|]. split; [done|]. split; [apply (ad_finger _ _ Ha2)|]. split; [done|]. split; [done|].
      apply (walks_trans s s1); [done|]. by apply (walks_step ULONG_MAX).
Qed.

End Mark.

(** ** The roots: what is marked before anything is scanned

    The parts of the heap that are not collected are marked by a copy of the live bitmap,
    then the roots are. Before that nothing is marked and the queues are empty. *)

(** ** The copy of words *)

Lemma copy_words_lookup src dst index n : 0 <= index -> 0 <= n -> index + n <= Z.of_nat (length src) -> index + n <= Z.of_nat (length dst) ->
  exists ws, copy_words src dst index n = Some ws /\ length ws = length dst /\
    forall j, ws !! j = if decide (index <= Z.of_nat j < index + n) then src !! j else dst !! j.
Proof.
  intros Hi Hn Hs Hd. unfold copy_words. rewrite (proj2 (Z.leb_le _ _)), (proj2 (Z.leb_le _ _)), (proj2 (Z.leb_le _ _)), (proj2 (Z.leb_le _ _)) by lia.
  eexists. split; [reflexivity|]. split.
  - rewrite !length_app, !length_take, !length_drop. lia.
  - intros j. set (i := Z.to_nat index). set (k := Z.to_nat n). replace (Z.to_nat (index + n)) with (i + k)%nat by lia.
    assert (El : length (take i dst) = i) by (rewrite length_take; lia).
    assert (Ek : length (take k (drop i src)) = k) by (rewrite length_take, length_drop; lia).
    destruct (decide (j < i)%nat) as [Hlt|Hge].
    { rewrite lookup_app_l, lookup_take_lt, decide_False by lia. done. }
    rewrite lookup_app_r, El by lia. destruct (decide (j - i < k)%nat) as [Hlt|Hge'].
    { rewrite lookup_app_l, lookup_take_lt, lookup_drop, decide_True by lia. f_equal. lia. }
    rewrite lookup_app_r, Ek, lookup_drop, decide_False by lia. f_equal. lia.
Qed.

(** ** The parts that are not collected *)

(** How the heap is divided: the active part first, the others below it, in whole words of
    the bitmap. *)
Record layout (env : Env) (s : Gc) : Prop := {
  ly_heaps : exists active rest, heaps env = active :: rest /\ (immuneLimit env = active.1 \/ immuneLimit env = 0) /\
    0 <= active.1 /\ immuneLimit env < active.2 /\
    forall h, h ∈ rest -> base (bitmap s) <= h.1 <= h.2 /\ (h.1 - base (bitmap s)) mod 256 = 0 /\ (h.2 - base (bitmap s)) mod 256 = 0 /\
      (h.1 < immuneLimit env -> h.2 <= immuneLimit env);
  ly_limit : immuneLimit env < base (bitmap s) + 256 * words (bitmap s);
  ly_immune : forall x, in_heap s x -> x < immuneLimit env -> exists h, h ∈ tail (heaps env) /\ h.1 <= x < h.2
}.

Section Roots.
Context (NDEBUG : bool) (env : Env).

(** The bits below the limit do not have to be set yet. *)
Abbreviation bits_inv0 := (bits_inv (with_immuneLimit 0 env)).

Lemma bits_immune s : bits_inv0 s -> (forall x, in_heap s x -> x < immuneLimit env -> marked s x) -> bits_inv env s.
Proof using. intros [] H. by constructor. Qed.

Lemma mark_immune_heap_spec s h : bits_inv0 s -> base (bitmap s) <= h.1 <= h.2 -> (h.1 - base (bitmap s)) mod 256 = 0 ->
  (h.2 - base (bitmap s)) mod 256 = 0 -> (h.1 < immuneLimit env -> h.2 <= immuneLimit env) -> immuneLimit env < base (bitmap s) + 256 * words (bitmap s) ->
  exists b, mark_immune_heap NDEBUG env h s = Some (with_bitmap b s) /\ bits_inv0 (with_bitmap b s) /\ base b = base (bitmap s) /\ words b = words (bitmap s) /\
    forall y, in_heap s y -> is_set b y = true <-> marked s y \/ (h.1 < immuneLimit env /\ h.1 <= y < h.2).
Proof using.
  intros I Hh Hal1 Hal2 Hle Hlim. unfold mark_immune_heap. destruct (Z.ltb_spec h.1 (immuneLimit env)) as [Hlt|Hge].
  2: { exists (bitmap s). assert (E : with_bitmap (bitmap s) s = s) by by destruct s. rewrite E. do 4 (split; [done|]).
       intros y _. unfold marked. split; [by left|]. intros [?|[? _]]; [done|lia]. }
  specialize (Hle Hlt). rewrite asserted_true by by apply Z.leb_le. destruct (bi_ok _ _ I) as (Hw & Hb & Hfit & Hmx & Hmax).
  pose proof (Z_div_mod_eq_full (h.1 - base (bitmap s)) 256) as E1. pose proof (Z_div_mod_eq_full (h.2 - base (bitmap s)) 256) as E2.
  set (a := (h.1 - base (bitmap s)) / 256) in *. set (c := (h.2 - base (bitmap s)) / 256) in *.
  assert (Ei : HB_OFFSET_TO_INDEX (u32 (h.1 - base (liveBits s))) = a).
  { unfold HB_OFFSET_TO_INDEX, HB_OBJECT_ALIGNMENT, HB_BITS_PER_WORD. rewrite <- (bi_base _ _ I), wrapU_id by (unfold inU; lia). by rewrite Z.div_div by lia. }
  assert (En : HB_OFFSET_TO_INDEX (u32 (h.2 - h.1)) = c - a).
  { unfold HB_OFFSET_TO_INDEX, HB_OBJECT_ALIGNMENT, HB_BITS_PER_WORD. rewrite wrapU_id by (unfold inU; lia). rewrite Z.div_div by lia.
    symmetry. apply (Z.div_unique_pos _ _ _ 0); lia. }
  rewrite Ei, En. pose proof (bi_words _ _ I) as Hwd. unfold words in Hwd, Hlim, Hfit.
  destruct (copy_words_lookup (bits (liveBits s)) (bits (bitmap s)) a (c - a)) as (ws & -> & Hlen & Hws); try lia. rewrite bind_some.
  set (mx := if max (bitmap s) <? h.2 then h.2 else max (bitmap s)).
  assert (Hmx' : max (bitmap s) <= mx /\ h.2 <= mx /\ mx < base (bitmap s) + 256 * Z.of_nat (length (bits (bitmap s)))).
  { unfold mx. unfold words in Hmx. destruct (Z.ltb_spec (max (bitmap s)) h.2); lia. }
  set (b := MkBitmap ws (allocLen (bitmap s)) (base (bitmap s)) mx).
  assert (Hcov : forall y, covered b y <-> covered (bitmap s) y) by (intros y; unfold covered, words, b; cbn [bits base]; by rewrite Hlen).
  assert (Hset : forall y, covered (bitmap s) y -> is_set b y = if decide (h.1 <= y < h.2) then is_set (liveBits s) y else is_set (bitmap s) y).
  { intros y Hy. destruct (covered_index (bitmap s) y (bi_ok _ _ I) Hy) as (_ & _ & Hk & Hk0 & Ey). unfold is_set, bit_of. cbn [b base bits].
    rewrite <- (bi_base _ _ I). set (k := (y - base (bitmap s)) / 8) in *.
    rewrite nth_lookup, Hws, Z2Nat.id by lia.
    pose proof (Z_div_mod_eq_full k 32). pose proof (Z.mod_pos_bound k 32).
    assert (Hd : (a <= k / 32 < a + (c - a)) <-> h.1 <= y < h.2) by lia.
    rewrite (decide_ext _ _ _ _ Hd). case_decide; by rewrite nth_lookup. }
  assert (Hiff : forall y, in_heap s y -> is_set b y = true <-> marked s y \/ (h.1 < immuneLimit env /\ h.1 <= y < h.2)).
  { intros y Hy. rewrite Hset by by apply (bi_covered _ _ I). unfold marked. case_decide.
    - split; [intros _; by right|]. intros _. apply (bi_live _ _ I); [by apply (bi_covered _ _ I)|done].
    - tauto. }
  exists b. split; [done|]. split; [|split; [done|split; [unfold words, b; cbn [bits]; by rewrite Hlen|exact Hiff]]].
  pose proof I as [i1 i2 i3 i4 i5 i6 i7 i8 i9 i10 i11 [i12 i13]].
  constructor; unfold in_heap, marked; cbn [bitmap liveBits mem stack with_bitmap]; try done.
  - split; [|split; [done|split; [unfold words, b; cbn [bits base]; by rewrite Hlen|split]]].
    + apply Forall_lookup. intros j w Hj. cbn [b bits] in Hj. rewrite Hws in Hj. destruct (bi_live_ok _ _ I) as (Hlw & _).
      case_decide; [by apply (Forall_lookup_1 _ _ _ _ Hlw Hj)|by apply (Forall_lookup_1 _ _ _ _ Hw Hj)].
    + unfold words, b. cbn [bits base max]. rewrite Hlen. lia.
    + intros y Hy Hs. apply Hcov in Hy. rewrite Hset in Hs by done. cbn [b max]. case_decide; [lia|]. specialize (Hmax y Hy Hs). lia.
  - unfold words, b. cbn [bits]. rewrite Hlen. done.
  - intros y Hy. by apply Hcov, i5.
  - intros y Hy. apply i6. by apply Hcov.
  - intros y Hy Hs. apply Hcov in Hy. rewrite Hset in Hs by done. case_decide; [by apply i6|by apply i9].
  - intros y Hy Hlt'. destruct (in_heap_nonzero _ s y I Hy). cbn in Hlt'. destruct (i5 y Hy). lia.
  - split; [done|]. intros y Hy. destruct (i13 y Hy) as [Hyh Hym]. split; [done|]. apply Hiff; [done|by left].
Qed.

Lemma immune_heaps_spec rest : forall s, bits_inv0 s -> immuneLimit env < base (bitmap s) + 256 * words (bitmap s) ->
  (forall h, h ∈ rest -> base (bitmap s) <= h.1 <= h.2 /\ (h.1 - base (bitmap s)) mod 256 = 0 /\ (h.2 - base (bitmap s)) mod 256 = 0 /\
    (h.1 < immuneLimit env -> h.2 <= immuneLimit env)) ->
  exists b, visit (mark_immune_heap NDEBUG env) rest s = Some (with_bitmap b s) /\ bits_inv0 (with_bitmap b s) /\ base b = base (bitmap s) /\
    words b = words (bitmap s) /\
    forall y, in_heap s y -> is_set b y = true <-> marked s y \/ exists h, h ∈ rest /\ h.1 < immuneLimit env /\ h.1 <= y < h.2.
Proof using.
  induction rest as [|h rest IH]; intros s I Hlim Hr.
  { exists (bitmap s). assert (E : with_bitmap (bitmap s) s = s) by by destruct s. rewrite E. do 4 (split; [done|]).
    intros y _. split; [by left|]. by intros [?|(h & ?%not_elem_of_nil & _)]. }
  destruct (Hr h) as (H1 & H2 & H3 & H4); [apply elem_of_cons; by left|].
  destruct (mark_immune_heap_spec s h I H1 H2 H3 H4 Hlim) as (b1 & E1 & I1 & Hb1 & Hw1 & Hm1). cbn [visit]. rewrite E1, bind_some.
  destruct (IH (with_bitmap b1 s) I1) as (b2 & -> & I2 & Hb2 & Hw2 & Hm2); cbn [bitmap with_bitmap] in *; rewrite ?Hb1, ?Hw1; [done| |].
  { intros h' Hh'. apply Hr, elem_of_cons. by right. }
  exists b2. split; [done|]. split; [done|]. split; [congruence|]. split; [congruence|]. intros y Hy.
  rewrite Hm2 by done. unfold marked at 1. cbn [bitmap with_bitmap]. rewrite Hm1 by done. setoid_rewrite elem_of_cons. naive_solver.
Qed.

Lemma immune_spec s : bits_inv0 s -> layout env s ->
  exists b, dvmMarkImmuneObjects NDEBUG env s = Some (with_bitmap b s) /\ bits_inv env (with_bitmap b s) /\ base b = base (bitmap s) /\
    words b = words (bitmap s) /\ forall y, in_heap s y -> is_set b y = true <-> marked s y \/ y < immuneLimit env.
Proof using.
  intros I [(active & rest & Eh & Hlimit & Ha0 & Ha2 & Hrest) Hlim Himm]. unfold dvmMarkImmuneObjects. rewrite Eh in *. cbn [tail] in *.
  rewrite asserted_true by lia. rewrite asserted_true by by (apply Z.eqb_eq; symmetry; apply (bi_base _ _ I)).
  rewrite asserted_true by (apply Z.eqb_eq; symmetry; apply (bi_words _ _ I)). rewrite asserted_true by lia. rewrite asserted_true by lia.
  destruct (immune_heaps_spec rest s I Hlim) as (b & -> & I' & Hb & Hw & Hm); [intros h Hh; by apply Hrest|].
  assert (Hiff : forall y, in_heap s y -> is_set b y = true <-> marked s y \/ y < immuneLimit env).
  { intros y Hy. rewrite Hm by done. split; (intros [?|H]; [by left|right]).
    - destruct H as (h & Hh & Hlt & Hr). destruct (Hrest h Hh) as (_ & _ & _ & Hle). specialize (Hle Hlt). lia.
    - destruct (Himm y Hy H) as (h & Hh & Hr). exists h. split; [done|]. split; [lia|done]. }
  exists b. split; [done|]. split; [|done]. apply bits_immune; [done|]. intros x Hx Hlt. apply Hiff; [done|by right].
Qed.

End Roots.
