(* ===== verification/GcReach.v ===== *)
(** * Marking marks what can be reached

    The state before a collection, the objects that can be reached from the roots, and
    what the first half of the collection makes of them. *)

From stdpp Require Import gmap.
From S2P Require Import Prelude Bits Search RegTypes HeapBitmap CardTable GcHeap MarkSweep GcMarking GcScanning GcQueues GcInvariant GcPending GcSteps GcMark.

(** Reachable by strong references from the roots and from what is not collected. *)
Inductive reach (env : Env) (m : gmap Z Object) (roots : list Z) : Z -> Prop :=
  | reach_root x : x ∈ roots -> x <> 0 -> reach env m roots x
  | reach_immune x : is_Some (m !! x) -> x < immuneLimit env -> reach env m roots x
  | reach_strong x y : reach env m roots x -> strong env m x y -> y <> 0 -> reach env m roots y.

(** Between collections: nothing is marked, the stack and the queues are empty, what is
    referred to is in the heap, and a reference that is linked already was cleared. *)
Record ready (env : Env) (roots : list Z) (s : Gc) : Prop := {
  rd_bits : bits_inv (with_immuneLimit 0 env) s;
  rd_white : forall x, in_heap s x -> ~ marked s x;
  rd_stack : stack s = [] /\ finger s = 0;
  rd_fits : base (bitmap s) + 256 * words (bitmap s) < 2 ^ 32;
  rd_cards : exists hi, covers (cardTable s) (heapBase env) hi /\ forall x, in_heap s x -> x < hi;
  rd_objects : objects_ok env (mem s);
  rd_references : refs_ok env (mem s);
  rd_offsets : offsets_ok env;
  rd_refers : forall x y, refers env (mem s) x y -> y <> 0 -> in_heap s y;
  rd_linked : forall x, reference_at env (mem s) x -> slot (mem s) x (off_pendingNext env) <> Some 0 -> slot (mem s) x (off_referent env) = Some 0;
  rd_lists : forall l, list_of l s = 0;
  rd_roots : forall x, x ∈ roots -> x <> 0 -> in_heap s x;
  rd_layout : layout env s
}.

Section Reach.
Context (NDEBUG : bool) (env : Env) (roots : list Z).

Lemma reach_in_heap s x : ready env roots s -> reach env (mem s) roots x -> in_heap s x.
Proof using.
  intros H Hx. destruct Hx as [x Hx Hz|x Hx Hlt|x y Hx Hs Hz]; [by apply (rd_roots _ _ _ H)|done|]. apply (rd_refers _ _ _ H x y); [by left|done].
Qed.

(** A root is marked like any object, as nothing is below the finger. *)
Lemma root_mark_object s x : bits_inv env s -> finger s = 0 -> (x <> 0 -> in_heap s x) ->
  rootMarkObjectVisitor NDEBUG env x s = markObject NDEBUG env x s.
Proof using.
  intros I Hf Hx. unfold rootMarkObjectVisitor, markObject. destruct (Z.eqb_spec x 0) as [->|Hz]; [done|]. cbn [negb].
  destruct (bi_covered _ _ I x (Hx Hz)) as [Hc _]. destruct (bi_ok _ _ I) as (_ & Hb & _).
  unfold markObjectNonNull. destruct (x <? immuneLimit env); [done|].
  destruct (dvmHeapBitmapSetAndReturnObjectBit NDEBUG (bitmap s) x) as [[old b]|]; [|done]. rewrite !bind_some.
  cbn [finger with_bitmap]. rewrite Hf, (proj2 (Z.ltb_ge x 0)) by lia. done.
Qed.

Lemma visit_roots l : forall s, bits_inv env s -> finger s = 0 -> (forall x, x ∈ l -> x <> 0 -> in_heap s x) ->
  visit (rootMarkObjectVisitor NDEBUG env) l s = visit (markObject NDEBUG env) l s.
Proof using.
  induction l as [|x l IH]; intros s I Hf Hl; [done|]. cbn [visit].
  assert (Hx : x <> 0 -> in_heap s x) by (intros Hz; apply Hl; [apply elem_of_cons; by left|done]).
  rewrite root_mark_object by done. destruct (markObject_marks NDEBUG env s x I Hx) as (s1 & -> & M). rewrite !bind_some.
  apply IH; [apply (mk_inv _ _ _ _ M)|by rewrite (mk_finger _ _ _ _ M)|]. intros y Hy Hz. apply (mk_heap _ _ _ _ _ M), Hl; [apply elem_of_cons; by right|done].
Qed.

Definition no_queues : QId -> list Z := fun _ => [].
Definition null_pointers : QId -> Z := fun _ => 0.
Definition all_kept (x off v : Z) : Prop := True.

(** A set with the roots that is closed under strong references. *)
Definition closed_set (s : Gc) (R : Z -> Prop) : Prop :=
  (forall x, x ∈ roots -> x <> 0 -> R x) /\ (forall x, in_heap s x -> x < immuneLimit env -> R x) /\
  (forall x y, R x -> strong env (mem s) x y -> y <> 0 -> R y).

Lemma reach_closed s : closed_set s (reach env (mem s) roots).
Proof using. split; [by apply reach_root|]. split; [by apply reach_immune|by apply reach_strong]. Qed.

Abbreviation started s R := (gc env (mem s) all_kept R).

Lemma mark_roots_spec s R : ready env roots s -> closed_set s R ->
  exists s1, dvmHeapMarkRootSet NDEBUG env roots s = Some s1 /\ started s R (fun _ => True) [] null_pointers no_queues s1 /\
    linked null_pointers s1 /\ finger s1 = 0 /\ stack s1 = [] /\ mem s1 = mem s /\ base (bitmap s1) = base (bitmap s) /\
    words (bitmap s1) = words (bitmap s) /\ liveBits s1 = liveBits s /\ cardTable s1 = cardTable s /\
    (forall l, list_of l s1 = 0) /\ forall x, in_heap s x -> marked s1 x <-> x < immuneLimit env \/ (x ∈ roots /\ x <> 0).
Proof using.
  intros H (HR1 & HR2 & HR3). destruct (rd_stack _ _ _ H) as [Est Ef].
  destruct (immune_spec NDEBUG env s (rd_bits _ _ _ H) (rd_layout _ _ _ H)) as (b & Eimm & I & Hb & Hw & Hm).
  unfold dvmHeapMarkRootSet. rewrite Eimm, bind_some.
  assert (Hmi : forall x, in_heap s x -> is_set b x = true <-> x < immuneLimit env).
  { intros x Hx. rewrite Hm by done. pose proof (rd_white _ _ _ H x Hx). tauto. }
  assert (HG : started s R (fun _ => True) [] null_pointers no_queues (with_bitmap b s)).
  { constructor; [|constructor; try done| |]; try tauto.
    - constructor; try done.
      + apply (rd_cards _ _ _ H).
      + apply (rd_refers _ _ _ H).
      + intros x Hx Hxm. apply HR2; [done|]. by apply Hmi.
      + apply (rd_linked _ _ _ H).
      + intros x v _ Hv. by right.
    - intros k. constructor.
    - intros k k' x Hx. by apply not_elem_of_nil in Hx.
    - intros k x Hx. by apply not_elem_of_nil in Hx.
    - intros x v _ Hv Hz. left. cbn [mem with_bitmap] in Hv. rewrite Hv. congruence.
    - intros k x Hx. by apply not_elem_of_nil in Hx.
    - intros x Hx. by apply not_elem_of_nil in Hx. }
  assert (HL : linked null_pointers (with_bitmap b s)) by (split; [|done]; intros l; pose proof (rd_lists _ _ _ H l); by destruct l).
  rewrite visit_roots by (try done; intros x Hx Hz; by apply (rd_roots _ _ _ H)).
  destruct (gc_visit NDEBUG env (mem s) all_kept R _ [] _ _ _ roots HG HL) as (s1 & -> & M & HG1 & HL1 & Ha).
  { intros y Hy Hz. split; [by apply (rd_roots _ _ _ H)|]. split; [by apply HR1|done]. }
  exists s1. split; [done|]. split; [done|]. split; [done|]. split; [by rewrite (mk_finger _ _ _ _ M)|]. split; [|split; [|split; [|split; [|split; [|split; [|split]]]]]].
  - destruct (mk_stack _ _ _ _ M) as (new & -> & Hnew). cbn [stack with_bitmap]. rewrite Est, app_nil_r. destruct new as [|y new]; [done|]. exfalso.
    destruct (proj1 (Hnew y)) as (Hy & Hz & _ & Hlt); [apply elem_of_cons; by left|]. cbn [finger with_bitmap] in Hlt.
    pose proof (rd_roots _ _ _ H y Hy Hz) as Hh. destruct (bi_covered _ _ (rd_bits _ _ _ H) y Hh) as [Hc _].
    destruct (bi_ok _ _ (rd_bits _ _ _ H)) as (_ & Hb0 & _). lia.
  - apply (mk_mem _ _ _ _ M).
  - by rewrite (mk_base _ _ _ _ M).
  - by rewrite (mk_words _ _ _ _ M).
  - by destruct (mk_frame _ _ _ _ M) as (b' & st & ->).
  - by destruct (mk_frame _ _ _ _ M) as (b' & st & ->).
  - intros l. by rewrite <- (proj1 HL1 l).
  - intros x Hx. rewrite (mk_marked _ _ _ _ M) by (apply (bi_covered _ _ I); exact Hx). unfold marked at 1. cbn [bitmap with_bitmap]. by rewrite Hmi.
Qed.

(** The state after the scan, with all that the second half of a collection needs. *)
Lemma mark_spec fuel s R : ready env roots s -> closed_set s R -> (size (mem s) <= fuel)%nat -> (exists x, reach env (mem s) roots x) ->
  exists s1 s' P Q, dvmHeapMarkRootSet NDEBUG env roots s = Some s1 /\ (forall l, list_of l s1 = 0) /\
    dvmHeapScanMarkedObjects NDEBUG env fuel s1 = Some s' /\ stack s' = [] /\ finger s' = ULONG_MAX /\
    started s R (fun _ => False) [] P Q s' /\ linked P s' /\ walks s1 s' /\ mem s1 = mem s /\ base (bitmap s1) = base (bitmap s) /\
    words (bitmap s1) = words (bitmap s) /\ liveBits s1 = liveBits s /\
    forall x, reach env (mem s) roots x -> in_heap s' x /\ marked s' x.
Proof using.
  intros H HR Hfuel [x0 Hx0]. destruct (mark_roots_spec s R H HR) as (s1 & E1 & HG1 & HL1 & Hf1 & Hst1 & Em1 & Hb1 & Hw1 & Hlv1 & _ & Hl1 & Hm1).
  assert (Hh1 : forall x, in_heap s1 x <-> in_heap s x) by (intros x; unfold in_heap; by rewrite Em1).
  assert (Hex : exists x, in_heap s1 x /\ marked s1 x).
  { clear - H Hx0 Hh1 Hm1. induction Hx0 as [x Hx Hz|x Hx Hlt|x y Hx IH _ _]; [| |done].
    - exists x. pose proof (rd_roots _ _ _ H x Hx Hz) as Hh. split; [by apply Hh1|]. apply Hm1; [done|by right].
    - exists x. split; [by apply Hh1|]. apply Hm1; [done|by left]. }
  destruct (scan_marked_spec NDEBUG env (mem s) all_kept R (rd_objects _ _ _ H) (rd_references _ _ _ H) (rd_offsets _ _ _ H)
    fuel null_pointers no_queues s1 HG1 HL1 Hf1 Hst1) as (s' & P & Q & E' & Hst & Hfi & HG & HL & Hwk); try done.
  { rewrite Hb1, Hw1. apply (rd_fits _ _ _ H). }
  { by rewrite Em1. }
  exists s1, s', P, Q. do 12 (split; [done|]). pose proof (gc_heap _ _ _ _ _ _ _ _ _ HG) as I.
  assert (Hh' : forall x, in_heap s' x <-> in_heap s x) by (intros x; rewrite (ad_heap _ _ Hwk); apply Hh1).
  intros x Hr. split; [by apply Hh', (reach_in_heap s x H)|]. induction Hr as [x Hx Hz|x Hx Hlt|x y Hr IH Hs Hz].
  - pose proof (rd_roots _ _ _ H x Hx Hz) as Hh. apply (ad_marked _ _ Hwk); [by apply Hh1|]. apply Hm1; [done|by right].
  - apply (ad_marked _ _ Hwk); [by apply Hh1|]. apply Hm1; [done|by left].
  - assert (Hxh : in_heap s' x) by by apply Hh', (reach_in_heap s x H).
    apply (gc_scanned _ _ _ _ _ _ _ _ _ HG x Hxh IH); [rewrite Hst; apply not_elem_of_nil|tauto| |done].
    destruct (strong_change env (mem s') (mem s) (fun _ v => v = 0) x y) as [?|?]; [symmetry; apply (hi_shape _ _ _ _ _ I)| |done|done|done].
    intros off v Hv. destruct (Z.eq_dec v 0) as [?|Hvz]; [by right|left]. by apply (hi_keeps _ _ _ _ _ I).
Qed.

(** C9. Marking marks exactly what can be reached. From a state between collections, the
    marking of the roots and the scan of the bitmap behind the finger, with the stack for
    what is found below it, end with an empty stack, whatever is on the heap: no object
    is pushed that there is no room for, no assertion fails, and an object is marked if
    and only if it can be reached by strong references from the roots or from the part of
    the heap that is not collected. The referent of a reference object does not count. *)
Theorem marking_is_reachability fuel s : ready env roots s -> (size (mem s) <= fuel)%nat -> (exists x, reach env (mem s) roots x) ->
  exists s', (s1 ← dvmHeapMarkRootSet NDEBUG env roots s; dvmHeapScanMarkedObjects NDEBUG env fuel s1) = Some s' /\
    stack s' = [] /\ forall x, in_heap s x -> marked s' x <-> reach env (mem s) roots x.
Proof using.
  intros H Hf Hx. destruct (mark_spec fuel s _ H (reach_closed s) Hf Hx) as (s1 & s' & P & Q & E1 & _ & E2 & Hst & _ & HG & _ & Hw & Em & _ & _ & _ & Hm).
  exists s'. rewrite E1, bind_some. split; [done|]. split; [done|]. intros x Hxh. split; [|by apply Hm].
  apply (hi_sound _ _ _ _ _ (gc_heap _ _ _ _ _ _ _ _ _ HG)). apply (ad_heap _ _ Hw). unfold in_heap. cbn [mem with_finger]. by rewrite Em.
Qed.

End Reach.
