(* ===== verification/GcReferences.v ===== *)
(** * The processing of references

    After marking, the queues have the references whose referents were white when they
    were scanned. They are emptied kind by kind: white referents are cleared, or marked,
    until no marked object refers to one that is not marked. *)

From stdpp Require Import gmap.
From S2P Require Import Prelude Bits Search RegTypes HeapBitmap CardTable GcHeap MarkSweep GcMarking GcScanning GcQueues GcInvariant GcPending GcSteps GcMark.

Section References.
Context (NDEBUG : bool) (env : Env) (m0 : gmap Z Object) (R : Z -> Prop) (kept : Z -> Prop).
Context (Hobjects : objects_ok env m0) (Hrefs : refs_ok env m0) (Hoffsets : offsets_ok env).
(** What may be marked is closed under referents. *)
Context (HR : forall x y, R x -> reference_at env m0 x -> slot m0 x (off_referent env) = Some y -> y <> 0 -> R y).
(** A finalizer reference that was not cleared can be enqueued. *)
Context (Hfinal : forall x v, reference_at env m0 x -> kind_at m0 x = Some FinalizerList -> slot m0 x (off_referent env) = Some v -> v <> 0 ->
  isEnqueuable env m0 x = Some true).

(** Referents in [kept] are not cleared. *)
Definition kept_referents (x off v : Z) : Prop := off = off_referent env /\ kept v.

Abbreviation heap_inv := (heap_inv env m0 kept_referents R).
Abbreviation queues_inv := (queues_inv env m0).
Abbreviation gc := (gc env m0 kept_referents R).
Abbreviation done_gc := (gc (fun _ => False)).
Abbreviation settled := (settled env m0).

Definition keeps (s : Gc) : Prop := forall v, kept v -> in_heap s v /\ marked s v.

Lemma keeps_adv s s' : adv s s' -> keeps s -> keeps s'.
Proof using. intros A H v Hv. destruct (H v Hv). split; [by apply (ad_heap _ _ A)|by apply (ad_marked _ _ A)]. Qed.

Definition list_frame (s s' : Gc) : Prop := forall l, list_of l s' = list_of l s.

Lemma adv_with_list l p s : adv s (with_list l p s).
Proof using. by apply adv_core; [apply with_list_core|destruct s]. Qed.

(** ** Steps on a reference that was taken from its queue *)

Lemma gc_drop G E P Q s h : gc G (h :: E) P Q s -> settled s Q h -> gc G E P Q s.
Proof using.
  intros [A B C D] Hs. constructor; try done. intros x Hx Hm Hst HG He. destruct (decide (x = h)) as [->|Hne]; [done|].
  apply D; try done. intros [?|?]%elem_of_cons; done.
Qed.

(** A word of a reference other than its link is written. *)
Lemma gc_write G E P Q s x off v : gc G E P Q s -> reference_at env m0 x -> is_Some (slot (mem s) x off) -> off = off_referent env \/ off = off_zombie env ->
  v = 0 \/ (in_heap s v /\ marked s v) ->
  (forall w, slot m0 x off = Some w -> w <> 0 -> kept_referents x off w -> w = v) -> (off = off_referent env -> v = 0) ->
  exists s', dvmSetFieldObject NDEBUG x off v s = Some s' /\ gc G E P Q s' /\ adv s s' /\ list_frame s s' /\ mem s' = set_slot x off v (mem s) /\
    stack s' = stack s /\ forall y, marked s' y <-> marked s y.
Proof using Hoffsets.
  intros HG Hx Hslot Hoff Hv HK Href. destruct HG as [I Hq Hsc Hse]. destruct (offsets_ne env Hoffsets) as (Hn1 & _ & _ & Hn2 & _).
  assert (Hop : off <> off_pendingNext env) by (destruct Hoff as [->| ->]; done).
  destruct (write_spec NDEBUG env m0 kept_referents R s x off v I Hx Hslot Hv HK Href) as (s' & E1 & Hqt & Em & I'); [destruct Hoff as [->| ->]; [right; by left|by right; right]|].
  pose proof (set_slot_shape (mem s) x off v Hslot) as Hsh.
  assert (Hmk : forall y, marked s' y <-> marked s y) by (intros y; by apply quiet_marked).
  assert (Hst : stack s' = stack s) by by apply quiet_stack.
  assert (Hh : forall y, in_heap s' y <-> in_heap s y) by (intros y; unfold in_heap; rewrite Em; by apply shape_in_heap).
  assert (Hslots : forall y o w, slot (mem s') y o = Some w -> slot (mem s) y o = Some w \/ (y = x /\ o = off /\ w = v)).
  { intros y o w. rewrite Em, slot_set by done. destruct (decide _) as [[-> ->]|]; [|by left]. intros [= <-]. by right. }
  assert (Hnext : forall y, slot (mem s') y (off_pendingNext env) = slot (mem s) y (off_pendingNext env)).
  { intros y. rewrite Em, slot_set, decide_False by naive_solver. done. }
  exists s'. split; [done|]. split; [|split; [|split; [|done]]].
  - constructor; [done| | |].
    + destruct Hq as [q1 q2 q3 q4 q5 q6 q7]. constructor; try done.
      * intros k. apply (queue_change env (mem s)); [|done]. intros y _. apply Hnext.
      * intros k y Hy. rewrite Hmk. by apply (q4 k).
      * intros y w Hy. rewrite Hnext. by apply q5.
      * intros y Hy. rewrite Em, slot_set by done. destruct (decide _) as [[-> E2]|]; [|by apply q7]. by rewrite Href.
    + intros y Hy Hym Hys Hyg z Hz Hzz. rewrite Hmk. rewrite Em in Hz.
      apply (strong_change env (mem s) _ (fun _ w => w = v) y z Hsh) in Hz as [Hz| ->].
      * apply (Hsc y); [by apply Hh|by apply Hmk|by rewrite <- Hst|done|done|done].
      * by destruct Hv as [?|[_ ?]].
      * intros o w Hw. rewrite <- Em in Hw. destruct (Hslots y o w Hw) as [?|(_ & _ & ?)]; [by left|by right].
    + intros y Hy Hym Hys Hyg Hye Hyr. rewrite Hst in Hys. destruct (Hse y) as [(w & Hw & Hwm)|?]; try done; [by apply Hh|by apply Hmk| |by right].
      left. destruct (decide (y = x /\ off = off_referent env)) as [[-> Eo]|Hne].
      * exists v. rewrite Em, slot_set, decide_True by done. split; [done|]. left. by apply Href.
      * exists w. rewrite Em, slot_set, decide_False by naive_solver. split; [done|]. destruct Hwm; [by left|right; by apply Hmk].
  - pose proof (work_left_quiet s s' Hqt) as Hw. rewrite Em in Hw. specialize (Hw Hsh).
    constructor; try done; [intros y _; by apply Hmk|..]; try (by destruct Hqt as (t & m & -> & Hg)). rewrite Em. by apply shape_size.
  - intros l. by apply quiet_list.
Qed.

(** An object is marked while the finger is at the end. *)
Lemma mark_one E P Q s x : done_gc E P Q s -> finger s = ULONG_MAX -> in_heap s x -> R x ->
  exists s', markObject NDEBUG env x s = Some s' /\ done_gc E P Q s' /\ adv s s' /\ list_frame s s' /\ mem s' = mem s /\ marked s' x.
Proof using.
  intros HG Hf Hx Hr. pose proof (gc_heap _ _ _ _ _ _ _ _ _ HG) as I. pose proof (hi_bits _ _ _ _ _ I) as Ib.
  destruct (markObject_marks NDEBUG env s x Ib) as (s' & E1 & M); [done|]. exists s'. split; [done|].
  split; [|split; [by apply (adv_marks env s s' [x])|split; [|split; [apply (mk_mem _ _ _ _ M)|]]]].
  - apply (gc_marks env m0 kept_referents R _ _ _ _ s s' [x] HG M). intros y ->%list_elem_of_singleton Hz. split; [done|]. split; [done|].
    intros _ Hfx. rewrite Hf in Hfx. destruct (bi_bounds _ _ Ib x Hx). lia.
  - destruct (mk_frame _ _ _ _ M) as (b & st & ->). by intros [].
  - apply (mk_marked _ _ _ _ M); [by apply (bi_covered _ _ Ib)|right]. split; [by apply list_elem_of_singleton|by apply (in_heap_nonzero env s)].
Qed.

(** What is found when the referent of a reference is looked at: nothing, something
    marked, or something white that is in the heap and may be marked. *)
Lemma referent_of P Q E s x : done_gc E P Q s -> reference_at env m0 x -> marked s x ->
  exists v, slot (mem s) x (off_referent env) = Some v /\
    (v <> 0 -> in_heap s v /\ R v /\ isMarked NDEBUG s v = Some (is_set (bitmap s) v) /\ slot m0 x (off_referent env) = Some v).
Proof using Hrefs HR.
  intros HG Hx Hm. pose proof (gc_heap _ _ _ _ _ _ _ _ _ HG) as I. destruct (reference_slots env m0 kept_referents R Hrefs s x I Hx) as (_ & (v & Ev) & _).
  exists v. split; [done|]. intros Hz.
  assert (Hv : in_heap s v) by (apply (hi_refers _ _ _ _ _ I x v); [right; split; [by apply (inv_reference env m0 kept_referents R s)|done]|done]).
  assert (H0 : slot m0 x (off_referent env) = Some v) by (destruct (hi_referent _ _ _ _ _ I x v Hx Ev); done).
  split; [done|]. split; [|split; [apply (isMarked_spec NDEBUG env); [apply (hi_bits _ _ _ _ _ I)|done]|done]].
  apply (HR x v); try done. apply (hi_sound _ _ _ _ _ I); [by apply (reference_in_heap env m0 kept_referents R s x I)|done].
Qed.

(** A white referent is not one that is kept. *)
Lemma white_not_kept E P Q s x v w : done_gc E P Q s -> keeps s -> reference_at env m0 x -> slot (mem s) x (off_referent env) = Some v -> ~ marked s v ->
  slot m0 x (off_referent env) = Some w -> w <> 0 -> ~ kept_referents x (off_referent env) w.
Proof using.
  intros HG Hk Hx Hv Hm Hw Hz Hkw. pose proof (hi_keeps _ _ _ _ _ (gc_heap _ _ _ _ _ _ _ _ _ HG) x _ w Hw Hz Hkw) as E1. rewrite Hv in E1. injection E1 as ->.
  destruct Hkw as [_ Hkw]. by destruct (Hk w Hkw).
Qed.

(** ** Queues *)

(** A state after marking. *)
Definition ok (E : list Z) (P : QId -> Z) (Q : QId -> list Z) (s : Gc) : Prop :=
  done_gc E P Q s /\ linked P s /\ keeps s /\ finger s = ULONG_MAX.

(** A reference that is in no queue but was in one. *)
Definition taken (x : Z) (Q : QId -> list Z) (s : Gc) : Prop :=
  reference_at env m0 x /\ marked s x /\ slot m0 x (off_pendingNext env) = Some 0 /\ forall k, x ∉ Q k.

Lemma take_spec l h q P Q s : ok [] P Q s -> Q (Some l) = h :: q ->
  exists p s1 P', dequeuePendingReference NDEBUG env (list_of l s) s = Some (h, p, s1) /\ ok [h] P' (upd (Some l) q Q) (with_list l p s1) /\
    adv s (with_list l p s1) /\ stack s1 = stack s /\ taken h (upd (Some l) q Q) (with_list l p s1) /\
    (l <> ClearedList -> kind_at m0 h = Some l) /\
    (forall x, slot (mem s1) x (off_referent env) = slot (mem s) x (off_referent env)) /\ forall x, marked s1 x <-> marked s x.
Proof using Hrefs Hoffsets.
  intros (HG & HL & Hk & Hf) EQ. pose proof (gc_queues _ _ _ _ _ _ _ _ _ HG) as Hq.
  destruct (dequeue_spec NDEBUG env m0 kept_referents R Hrefs Hoffsets _ [] P Q s (Some l) h q HG EQ) as (p & s1 & E1 & Hr & HG1 & Hni).
  rewrite (proj1 HL l) in E1. assert (Hh : h ∈ Q (Some l)) by (rewrite EQ; apply elem_of_cons; by left).
  destruct (qi_member _ _ _ _ _ Hq _ h Hh) as (Hhr & Hhm & Hh0). pose proof (rl_quiet _ _ _ _ _ _ Hr) as Hqt.
  assert (Ha : adv s (with_list l p s1)) by (transitivity s1; [by apply (adv_relinked env m0 kept_referents R)|apply adv_with_list]).
  exists p, s1, (upd (Some l) p P). split; [done|]. split; [split; [|split; [|split]]|].
  - by apply (gc_core env m0 kept_referents R _ _ _ _ s1); [apply with_list_core|].
  - apply (linked_upd P s); [done|]. intros k. by apply quiet_list.
  - by apply (keeps_adv s).
  - by rewrite (ad_finger _ _ Ha).
  - split; [done|]. split; [by apply quiet_stack|]. split; [|split; [|split]].
    + split; [done|]. split; [|done]. by apply (ad_marked _ _ Ha), Hhm; apply (reference_in_heap env m0 kept_referents R s h (gc_heap _ _ _ _ _ _ _ _ _ HG)).
    + intros Hl. apply (qi_kind _ _ _ _ _ Hq (Some l) h Hh). congruence.
    + intros x. destruct (offsets_ne env Hoffsets) as (Hno & _). apply (rl_slot _ _ _ _ _ _ Hr x _ Hno).
    + intros x. by apply quiet_marked.
Qed.

Lemma cleared_spec E P Q s h : ok E P Q s -> taken h Q s -> slot (mem s) h (off_referent env) = Some 0 -> isEnqueuable env (mem s) h = Some true ->
  exists s' P', enqueueReference NDEBUG env h s = Some s' /\ ok E P' (upd (Some ClearedList) (h :: Q (Some ClearedList)) Q) s' /\ adv s s' /\
    stack s' = stack s /\ (forall x, slot (mem s') x (off_referent env) = slot (mem s) x (off_referent env)) /\ forall x, marked s' x <-> marked s x.
Proof using Hrefs Hoffsets.
  intros (HG & HL & Hk & Hf) (Hhr & Hhm & Hh0 & Hni) Hr0 He. unfold enqueueReference. rewrite asserted_opt_true by done.
  destruct (enqueue_spec NDEBUG env m0 kept_referents R Hrefs Hoffsets _ E P Q s (Some ClearedList) h HG) as (p & s1 & E1 & Hr & HG1).
  { split; [done|]. split; [done|]. split; [done|]. split; [done|]. by rewrite decide_True. }
  rewrite (proj1 HL ClearedList) in E1. cbn [list_of] in E1. rewrite E1, bind_some. pose proof (rl_quiet _ _ _ _ _ _ Hr) as Hqt.
  assert (Ha : adv s (with_list ClearedList p s1)) by (transitivity s1; [by apply (adv_relinked env m0 kept_referents R)|apply adv_with_list]).
  exists (with_list ClearedList p s1), (upd (Some ClearedList) p P). split; [done|]. split; [split; [|split; [|split]]|].
  - by apply (gc_core env m0 kept_referents R _ _ _ _ s1); [apply with_list_core|].
  - apply (linked_upd P s); [done|]. intros k. by apply quiet_list.
  - by apply (keeps_adv s).
  - by rewrite (ad_finger _ _ Ha).
  - split; [done|]. split; [by apply (quiet_stack s s1)|]. split; [|intros x; by apply (quiet_marked s s1)].
    intros x. destruct (offsets_ne env Hoffsets) as (Hno & _). apply (rl_slot _ _ _ _ _ _ Hr x _ Hno).
Qed.

Lemma ok_write E P Q s x off v : ok E P Q s -> reference_at env m0 x -> is_Some (slot (mem s) x off) -> off = off_referent env \/ off = off_zombie env ->
  v = 0 \/ (in_heap s v /\ marked s v) ->
  (forall w, slot m0 x off = Some w -> w <> 0 -> kept_referents x off w -> w = v) -> (off = off_referent env -> v = 0) ->
  exists s', dvmSetFieldObject NDEBUG x off v s = Some s' /\ ok E P Q s' /\ adv s s' /\ mem s' = set_slot x off v (mem s) /\
    stack s' = stack s /\ forall y, marked s' y <-> marked s y.
Proof using Hoffsets.
  intros (HG & HL & Hk & Hf) Hx Hs Ho Hv HK Href. destruct (gc_write _ E P Q s x off v HG Hx Hs Ho Hv HK Href) as (s' & E1 & HG' & Ha & Hl & Em & Hst & Hmk).
  exists s'. split; [done|]. split; [|done]. split; [done|]. split; [|split; [by apply (keeps_adv s)|by rewrite (ad_finger _ _ Ha)]].
  split; [|by apply HL]. intros l. by rewrite Hl, (proj1 HL).
Qed.

Lemma enqueuable_total E P Q s x : ok E P Q s -> reference_at env m0 x -> exists b, isEnqueuable env (mem s) x = Some b.
Proof using Hrefs.
  intros (HG & _) Hx. destruct (reference_slots env m0 kept_referents R Hrefs s x (gc_heap _ _ _ _ _ _ _ _ _ HG) Hx) as (_ & _ & (q & Eq) & (n & En)).
  unfold isEnqueuable. rewrite Eq, bind_some, En, bind_some. by eexists.
Qed.

(** A white referent is cleared, and the reference may be enqueued. *)
Lemma clear_white_one P Q s h v : ok [h] P Q s -> taken h Q s -> slot (mem s) h (off_referent env) = Some v -> v <> 0 -> ~ marked s v ->
  exists s' P' Q', (s ← clearReference NDEBUG env h s; enqueuable ← isEnqueuable env (mem s) h; if (enqueuable : bool) then enqueueReference NDEBUG env h s else Some s) = Some s' /\
    ok [] P' Q' s' /\ adv s s' /\ stack s' = stack s /\ (forall k, k <> Some ClearedList -> Q' k = Q k).
Proof using Hrefs Hoffsets.
  intros H Ht Hv Hz Hm. pose proof H as (HG & _ & Hk & _). pose proof Ht as (Hhr & Hhm & Hh0 & Hni).
  destruct (ok_write [h] P Q s h (off_referent env) 0 H Hhr) as (s1 & E1 & H1 & Ha1 & Em1 & Hst1 & Hmk1); [by eexists|by left|by left| |done|].
  { intros w Hw Hwz Hkw. exfalso. by apply (white_not_kept [h] P Q s h v w HG Hk Hhr Hv Hm Hw Hwz). }
  unfold clearReference. rewrite E1, bind_some.
  assert (Hr1 : slot (mem s1) h (off_referent env) = Some 0) by (rewrite Em1, slot_set, decide_True by (done || by eexists); done).
  destruct (enqueuable_total _ _ _ _ h H1 Hhr) as [e Ee]. rewrite Ee, bind_some.
  assert (Hsett : forall s' Q', slot (mem s') h (off_referent env) = Some 0 -> settled s' Q' h) by (intros s' Q' Hs' _; left; exists 0; split; [done|by left]).
  destruct e.
  - destruct (cleared_spec [h] P Q s1 h H1) as (s2 & P2 & -> & (HG2 & HL2 & Hk2 & Hf2) & Ha2 & Hst2 & Hr2 & _).
    + split; [done|]. split; [by apply Hmk1|done].
    + done.
    + done.
    + eexists s2, P2, _. split; [done|]. split; [split; [|done]|].
      * apply (gc_drop _ _ _ _ _ h HG2). apply Hsett. by rewrite Hr2.
      * split; [by transitivity s1|]. split; [congruence|]. intros k Hkc. by rewrite upd_ne.
  - exists s1, P, Q. split; [done|]. destruct H1 as (HG1 & HL1 & Hk1 & Hf1). split; [split; [|done]|done].
    apply (gc_drop _ _ _ _ _ h HG1). by apply Hsett.
Qed.

Lemma clear_white_spec l fuel : l <> ClearedList -> forall q P Q s, ok [] P Q s -> Q (Some l) = q -> (length q <= fuel)%nat ->
  exists s' P' Q', clearWhiteReferences NDEBUG env fuel l s = Some s' /\ ok [] P' Q' s' /\ adv s s' /\ stack s' = stack s /\
    Q' (Some l) = [] /\ forall k, k <> Some l -> k <> Some ClearedList -> Q' k = Q k.
Proof using Hrefs Hoffsets HR.
  intros Hl. induction fuel as [|fuel IH]; intros q P Q s H EQ Hfuel; pose proof H as (HG & HL & Hk & Hf);
    pose proof (queue_empty env m0 kept_referents R P Q s (Some l) (gc_heap _ _ _ _ _ _ _ _ _ HG) (gc_queues _ _ _ _ _ _ _ _ _ HG)) as Hemp;
    rewrite (proj1 HL l), EQ in Hemp; cbn [clearWhiteReferences]; destruct q as [|h q].
  1, 3: rewrite (proj2 Hemp) by done; exists s, P, Q; split; [done|]; split; [done|]; split; [reflexivity|done].
  { cbn [length] in Hfuel. lia. }
  destruct (list_of l s =? 0) eqn:E0; [by discriminate (proj1 Hemp eq_refl)|]. destruct (take_spec l h q P Q s H EQ) as (p & s1 & P1 & -> & H1 & Ha1 & Hst1 & Ht1 & _ & _).
  rewrite bind_some. set (s2 := with_list l p s1) in *. pose proof Ht1 as (Hhr & Hhm & Hh0 & Hni). cbn [length] in Hfuel.
  destruct (referent_of P1 _ [h] s2 h (proj1 H1) Hhr Hhm) as (v & Ev & Hv). rewrite Ev, bind_some.
  assert (Hnext : forall s3 P3 Q3, ok [] P3 Q3 s3 -> adv s2 s3 -> stack s3 = stack s2 -> (forall k, k <> Some ClearedList -> Q3 k = upd (Some l) q Q k) ->
    exists s' P' Q', clearWhiteReferences NDEBUG env fuel l s3 = Some s' /\ ok [] P' Q' s' /\ adv s s' /\ stack s' = stack s /\
      Q' (Some l) = [] /\ forall k, k <> Some l -> k <> Some ClearedList -> Q' k = Q k).
  { intros s3 P3 Q3 H3 Ha3 Hst3 HQ3. destruct (IH q P3 Q3 s3 H3) as (s' & P' & Q' & E' & H' & Ha' & Hst' & Hl' & Hk'); [rewrite HQ3, upd_eq by congruence; done|lia|].
    exists s', P', Q'. split; [done|]. split; [done|]. split; [transitivity s2; [done|by transitivity s3]|].
    split; [rewrite Hst', Hst3; exact Hst1|]. split; [done|]. intros k Hkl Hkc. rewrite Hk', HQ3, upd_ne by done. done. }
  assert (Hdrop : settled s2 (upd (Some l) q Q) h -> ok [] P1 (upd (Some l) q Q) s2).
  { intros Hs. destruct H1 as (HG1 & H1). split; [by apply (gc_drop _ _ _ _ _ h)|done]. }
  destruct (Z.eqb_spec v 0) as [->|Hz]; cbn [negb].
  - rewrite !bind_some. apply (Hnext s2 P1 (upd (Some l) q Q)); [|reflexivity|done|done]. apply Hdrop. intros _. left. exists 0. split; [done|by left].
  - destruct (Hv Hz) as (Hvh & Hvr & Em & Hv0). rewrite Em, !bind_some. destruct (is_set (bitmap s2) v) eqn:Es; cbn [negb].
    + rewrite bind_some. apply (Hnext s2 P1 (upd (Some l) q Q)); [|reflexivity|done|done]. apply Hdrop. intros _. left. exists v. split; [done|by right].
    + destruct (clear_white_one P1 (upd (Some l) q Q) s2 h v H1 Ht1 Ev Hz) as (s3 & P3 & Q3 & -> & H3 & Ha3 & Hst3 & HQ3); [unfold marked; by rewrite Es|].
      rewrite bind_some. by apply (Hnext s3 P3 Q3).
Qed.

(** ** Finalizer references *)

(** No finalizer reference outside of its queue has a white referent. *)
Definition all_final (s : Gc) (Q : QId -> list Z) : Prop :=
  forall x, reference_at env m0 x -> kind_at m0 x = Some FinalizerList ->
    (exists v, slot (mem s) x (off_referent env) = Some v /\ (v = 0 \/ marked s v)) \/ x ∈ Q (Some FinalizerList).

Lemma referent_marked E P Q s x v : ok E P Q s -> reference_at env m0 x -> slot (mem s) x (off_referent env) = Some v -> v <> 0 -> in_heap s v.
Proof using.
  intros (HG & _) Hx Hv Hz. pose proof (gc_heap _ _ _ _ _ _ _ _ _ HG) as I. apply (hi_refers _ _ _ _ _ I x v); [right|done].
  split; [by apply (inv_reference env m0 kept_referents R s)|done].
Qed.

Lemma all_final_step E P Q Q' s s' : ok E P Q s -> adv s s' ->
  (forall x, slot (mem s') x (off_referent env) = slot (mem s) x (off_referent env) \/ slot (mem s') x (off_referent env) = Some 0) ->
  (forall x, x ∈ Q (Some FinalizerList) -> x ∈ Q' (Some FinalizerList) \/ exists v, slot (mem s') x (off_referent env) = Some v /\ (v = 0 \/ marked s' v)) ->
  all_final s Q -> all_final s' Q'.
Proof using.
  intros H Ha Hs HQ Hall x Hx Hk. destruct (Hall x Hx Hk) as [(v & Hv & Hvm)|Hin]; [|destruct (HQ x Hin); [by right|by left]].
  left. destruct (Hs x) as [E1|E1]; [|exists 0; split; [done|by left]]. exists v. rewrite E1. split; [done|].
  destruct (Z.eq_dec v 0) as [?|Hz]; [by left|right]. destruct Hvm as [?|Hvm]; [done|]. apply (ad_marked _ _ Ha); [|done]. by apply (referent_marked E P Q s x).
Qed.

Lemma final_enqueuable E P Q s x v : ok E P Q s -> reference_at env m0 x -> kind_at m0 x = Some FinalizerList ->
  slot m0 x (off_referent env) = Some v -> v <> 0 -> isEnqueuable env (mem s) x = Some true.
Proof using Hoffsets Hfinal.
  intros (HG & _) Hx Hk Hv Hz. pose proof (gc_heap _ _ _ _ _ _ _ _ _ HG) as I. rewrite <- (Hfinal x v Hx Hk Hv Hz).
  destruct (offsets_ne env Hoffsets) as (_ & H1 & H2 & _ & H3 & H4 & _ & H5 & H6). unfold isEnqueuable.
  rewrite (hi_fixed _ _ _ _ _ I x (off_queue env)), (hi_fixed _ _ _ _ _ I x (off_queueNext env)); [done|..]; intros [_ [?|[?|?]]]; congruence.
Qed.

(** A white referent of a finalizer reference is marked and moved to the zombie. *)
Lemma finalize_spec P Q s h v : ok [h] P Q s -> taken h Q s -> kind_at m0 h = Some FinalizerList -> slot (mem s) h (off_referent env) = Some v -> v <> 0 ->
  in_heap s v -> R v -> ~ marked s v -> slot m0 h (off_referent env) = Some v ->
  exists s' P' Q', (s ← markObject NDEBUG env v s;
    s ← asserted_opt NDEBUG (isEnqueuable env (mem s) h) (dvmSetFieldObject NDEBUG h (off_zombie env) v s);
    s ← clearReference NDEBUG env h s; enqueueReference NDEBUG env h s) = Some s' /\
    ok [] P' Q' s' /\ adv s s' /\ (forall k, k <> Some ClearedList -> Q' k = Q k) /\
    (forall x, slot (mem s') x (off_referent env) = slot (mem s) x (off_referent env) \/ slot (mem s') x (off_referent env) = Some 0) /\
    slot (mem s') h (off_referent env) = Some 0.
Proof using Hrefs Hoffsets Hfinal.
  intros H Ht Hkind Hv Hz Hvh Hvr Hm Hv0. pose proof H as (HG & HL & Hk & Hf). pose proof Ht as (Hhr & Hhm & Hh0 & Hni).
  destruct (mark_one [h] P Q s v HG Hf Hvh Hvr) as (s1 & -> & HG1 & Ha1 & Hl1 & Em1 & Hvm1). rewrite bind_some.
  assert (H1 : ok [h] P Q s1).
  { split; [done|]. split; [|split; [by apply (keeps_adv s)|by rewrite (ad_finger _ _ Ha1)]]. split; [|by apply HL]. intros l. by rewrite Hl1, (proj1 HL). }
  rewrite asserted_opt_true by by apply (final_enqueuable [h] P Q s1 h v).
  destruct (offsets_ne env Hoffsets) as (_ & _ & _ & _ & _ & _ & Hzr & _).
  assert (Hzs : is_Some (slot (mem s1) h (off_zombie env))).
  { destruct (Hrefs h Hhr) as (_ & _ & _ & _ & l & El & _ & Hzz). rewrite Hkind in El. injection El as <-.
    apply (shape_slot m0); [apply (hi_shape _ _ _ _ _ (gc_heap _ _ _ _ _ _ _ _ _ HG1))|by apply Hzz]. }
  destruct (ok_write [h] P Q s1 h (off_zombie env) v H1 Hhr Hzs) as (s2 & -> & H2 & Ha2 & Em2 & _ & Hmk2); [by right| | |done|].
  { right. split; [by apply (ad_heap _ _ Ha1)|done]. }
  { intros w _ _ [E1 _]. done. }
  rewrite bind_some. assert (Hr2 : forall x, slot (mem s2) x (off_referent env) = slot (mem s) x (off_referent env)).
  { intros x. rewrite Em2, slot_set, decide_False by (done || (intros [_ ?]; congruence)). by rewrite Em1. }
  destruct (ok_write [h] P Q s2 h (off_referent env) 0 H2 Hhr) as (s3 & E3 & H3 & Ha3 & Em3 & _ & Hmk3); [rewrite Hr2; by eexists|by left|by left| |done|].
  { intros w Hw Hwz Hkw. exfalso. by apply (white_not_kept [h] P Q s h v w HG Hk Hhr Hv Hm Hw Hwz). }
  unfold clearReference. rewrite E3, bind_some.
  assert (Hr3 : slot (mem s3) h (off_referent env) = Some 0) by (rewrite Em3, slot_set, decide_True by (done || (rewrite Hr2; by eexists)); done).
  assert (Ha : adv s s3) by (transitivity s1; [done|by transitivity s2]).
  assert (Ht3 : taken h Q s3).
  { split; [done|]. split; [|done]. apply (ad_marked _ _ Ha), Hhm. by apply (reference_in_heap env m0 kept_referents R s h (gc_heap _ _ _ _ _ _ _ _ _ HG)). }
  destruct (cleared_spec [h] P Q s3 h H3 Ht3 Hr3) as (s4 & P4 & E4 & (HG4 & H4) & Ha4 & _ & Hr4 & _); [by apply (final_enqueuable [h] P Q s3 h v)|].
  eexists s4, P4, _. split; [exact E4|]. split; [split; [|done]|].
  - apply (gc_drop _ _ _ _ _ h HG4). intros _. left. exists 0. rewrite Hr4. split; [done|by left].
  - split; [by transitivity s3|]. split; [intros k Hkc; by rewrite upd_ne|]. split; [|by rewrite Hr4].
    intros x. rewrite Hr4, Em3, slot_set by (rewrite Hr2; by eexists). destruct (decide _); [by right|left]. apply Hr2.
Qed.

Lemma finalizer_loop_spec fuel : forall q b P Q s, ok [] P Q s -> Q (Some FinalizerList) = q -> (length q <= fuel)%nat -> all_final s Q ->
  (b = false -> stack s = []) ->
  exists b' s' P' Q', finalizer_loop NDEBUG env fuel FinalizerList b s = Some (b', s') /\ ok [] P' Q' s' /\ adv s s' /\
    Q' (Some FinalizerList) = [] /\ all_final s' Q' /\ (b' = false -> stack s' = []).
Proof using Hrefs Hoffsets HR Hfinal.
  induction fuel as [|fuel IH]; intros q b P Q s H EQ Hfuel Hall Hb; pose proof H as (HG & HL & Hk & Hf);
    pose proof (queue_empty env m0 kept_referents R P Q s (Some FinalizerList) (gc_heap _ _ _ _ _ _ _ _ _ HG) (gc_queues _ _ _ _ _ _ _ _ _ HG)) as Hemp;
    rewrite (proj1 HL FinalizerList), EQ in Hemp; cbn [finalizer_loop]; destruct q as [|h q].
  1, 3: rewrite (proj2 Hemp) by done; exists b, s, P, Q; split; [done|]; split; [done|]; split; [reflexivity|done].
  { cbn [length] in Hfuel. lia. }
  destruct (list_of FinalizerList s =? 0) eqn:E0; [by discriminate (proj1 Hemp eq_refl)|].
  destruct (take_spec FinalizerList h q P Q s H EQ) as (p & s1 & P1 & -> & H1 & Ha1 & Hst1 & Ht1 & Hkind & Hr1 & Hmk1). specialize (Hkind ltac:(done)).
  rewrite bind_some. set (s2 := with_list FinalizerList p s1) in *. pose proof Ht1 as (Hhr & Hhm & Hh0 & Hni). cbn [length] in Hfuel.
  set (Q1 := upd (Some FinalizerList) q Q) in *.
  destruct (referent_of P1 _ [h] s2 h (proj1 H1) Hhr Hhm) as (v & Ev & Hv). rewrite Ev, bind_some.
  assert (Hnext : forall s3 P3 Q3 b3, ok [] P3 Q3 s3 -> adv s2 s3 -> Q3 (Some FinalizerList) = q ->
    (forall x, slot (mem s3) x (off_referent env) = slot (mem s2) x (off_referent env) \/ slot (mem s3) x (off_referent env) = Some 0) ->
    (exists v, slot (mem s3) h (off_referent env) = Some v /\ (v = 0 \/ marked s3 v)) -> (b3 = false -> stack s3 = []) ->
    exists b' s' P' Q', finalizer_loop NDEBUG env fuel FinalizerList b3 s3 = Some (b', s') /\ ok [] P' Q' s' /\ adv s s' /\
      Q' (Some FinalizerList) = [] /\ all_final s' Q' /\ (b' = false -> stack s' = [])).
  { intros s3 P3 Q3 b3 H3 Ha3 HQ3 Hs3 Hh3 Hb3. assert (Ha : adv s s3) by by transitivity s2.
    destruct (IH q b3 P3 Q3 s3 H3 HQ3) as (b' & s' & P' & Q' & E' & H' & Ha' & Hl' & Hall' & Hb'); [lia| |done|].
    - apply (all_final_step [] P Q Q3 s s3 H Ha); [|intros x Hx; rewrite EQ in Hx|done].
      + intros x. destruct (Hs3 x) as [E|E]; [left|by right]. rewrite E. apply Hr1.
      + apply elem_of_cons in Hx as [->|Hx]; [by right|left]. by rewrite HQ3.
    - exists b', s', P', Q'. split; [done|]. split; [done|]. split; [by transitivity s3|done]. }
  assert (Hdrop : (v = 0 \/ marked s2 v) -> exists b' s' P' Q', finalizer_loop NDEBUG env fuel FinalizerList b s2 = Some (b', s') /\ ok [] P' Q' s' /\ adv s s' /\
      Q' (Some FinalizerList) = [] /\ all_final s' Q' /\ (b' = false -> stack s' = [])).
  { intros Hvm. apply (Hnext s2 P1 Q1 b); [|reflexivity|unfold Q1; by rewrite upd_eq|by left|by exists v|].
    - destruct H1 as (HG1 & H1). split; [|done]. apply (gc_drop _ _ _ _ _ h HG1). intros _. left. by exists v.
    - intros Eb. rewrite <- (Hb Eb). exact Hst1. }
  destruct (Z.eqb_spec v 0) as [Ez|Hz]; cbn [negb]; [rewrite bind_some; apply Hdrop; by left|].
  destruct (Hv Hz) as (Hvh & Hvr & Em & Hv0). rewrite Em, !bind_some. destruct (is_set (bitmap s2) v) eqn:Es; cbn [negb]; [apply Hdrop; by right|].
  destruct (finalize_spec P1 Q1 s2 h v H1 Ht1 Hkind Ev Hz Hvh Hvr) as (s3 & P3 & Q3 & E3 & H3 & Ha3 & HQ3 & Hs3 & Hh3); [unfold marked; by rewrite Es|done|].
  destruct (Hnext s3 P3 Q3 true H3 Ha3) as (b' & s' & P' & Q' & E' & Hrest); [rewrite HQ3 by done; unfold Q1; by rewrite upd_eq|done|exists 0; split; [done|by left]|done|].
  exists b', s', P', Q'. split; [|done]. rewrite <- E'. revert E3. clear.
  destruct (markObject NDEBUG env v s2) as [a1|]; [|done]. rewrite !bind_some. destruct (asserted_opt _ _ _) as [a2|]; [|done]. rewrite !bind_some.
  destruct (clearReference _ _ _ _) as [a3|]; [|done]. rewrite !bind_some. intros ->. by rewrite bind_some.
Qed.

Lemma queue_length E P Q s k : ok E P Q s -> (length (Q k) <= size (mem s))%nat.
Proof using.
  intros (HG & _). pose proof (gc_heap _ _ _ _ _ _ _ _ _ HG) as I. pose proof (gc_queues _ _ _ _ _ _ _ _ _ HG) as Hq.
  rewrite <- (size_list_to_set (C := gset Z)) by apply (qi_nodup _ _ _ _ _ Hq k). rewrite <- size_dom. apply subseteq_size.
  intros y Hy%elem_of_list_to_set. apply elem_of_dom. by apply (queue_in_heap env m0 kept_referents R P Q s k y I Hq).
Qed.

Lemma ok_process fuel P Q s : ok [] P Q s -> (size (mem s) <= fuel)%nat ->
  exists s' P' Q', processMarkStack NDEBUG env fuel s = Some s' /\ ok [] P' Q' s' /\ adv s s' /\ stack s' = [] /\ looks env s s' Q Q'.
Proof using Hobjects Hrefs Hoffsets.
  intros (HG & HL & Hk & Hf) Hfuel.
  destruct (process_stack_spec NDEBUG env m0 kept_referents R Hobjects Hrefs Hoffsets fuel P Q s HG HL Hf Hfuel) as (s' & P' & Q' & E' & Hst & HG' & HL' & Ha & Hlk).
  exists s', P', Q'. split; [done|]. split; [|done]. split; [done|]. split; [done|]. split; [by apply (keeps_adv s)|by rewrite (ad_finger _ _ Ha)].
Qed.

Lemma finalizers_spec fuel P Q s : ok [] P Q s -> stack s = [] -> (size (mem s) <= fuel)%nat ->
  (forall x, reference_at env m0 x -> kind_at m0 x = Some FinalizerList -> marked s x) ->
  exists s' P' Q', enqueueFinalizerReferences NDEBUG env fuel FinalizerList s = Some s' /\ ok [] P' Q' s' /\ adv s s' /\ stack s' = [] /\
    Q' (Some FinalizerList) = [].
Proof using Hobjects Hrefs Hoffsets HR Hfinal.
  intros H Hst Hfuel Hmarked. pose proof H as (HG & HL & Hk & Hf). pose proof (gc_queues _ _ _ _ _ _ _ _ _ HG) as Hq.
  pose proof (gc_heap _ _ _ _ _ _ _ _ _ HG) as I.
  assert (Hall : all_final s Q).
  { intros x Hx Hkx. destruct (gc_settled _ _ _ _ _ _ _ _ _ HG x) as [?|(k & Hkc & Hin)]; try done; [by apply (reference_in_heap env m0 kept_referents R s x)|by apply Hmarked|
      rewrite Hst; apply not_elem_of_nil|tauto|apply not_elem_of_nil|by left|right].
    pose proof (qi_kind _ _ _ _ _ Hq k x Hin Hkc) as Ek. rewrite Hkx in Ek. destruct k as [l|]; cbn in Ek; [|done]. by injection Ek as <-. }
  destruct (finalizer_loop_spec fuel _ false P Q s H eq_refl) as (b & s1 & P1 & Q1 & E1 & H1 & Ha1 & HQ1 & Hall1 & Hb1); [|done|done|].
  { pose proof (queue_length [] P Q s (Some FinalizerList) H). lia. }
  unfold enqueueFinalizerReferences. rewrite E1, bind_some.
  assert (Hend : forall s' P' Q', ok [] P' Q' s' -> Q' (Some FinalizerList) = [] -> asserted NDEBUG (list_of FinalizerList s' =? 0) (Some s') = Some s').
  { intros s' P' Q' (HG' & HL' & _) HQ'. apply asserted_true. rewrite <- (proj1 HL' FinalizerList).
    by apply (queue_empty env m0 kept_referents R P' Q' s' (Some FinalizerList) (gc_heap _ _ _ _ _ _ _ _ _ HG') (gc_queues _ _ _ _ _ _ _ _ _ HG')). }
  destruct b.
  - destruct (ok_process fuel P1 Q1 s1 H1) as (s2 & P2 & Q2 & -> & H2 & Ha2 & Hst2 & Hlk2); [by rewrite (ad_size _ _ Ha1)|]. rewrite bind_some.
    assert (HQ2 : Q2 (Some FinalizerList) = []).
    { destruct (Q2 (Some FinalizerList)) as [|x q] eqn:EQ; [done|exfalso]. assert (Hx : x ∈ Q2 (Some FinalizerList)) by (rewrite EQ; apply elem_of_cons; by left).
      pose proof (gc_queues _ _ _ _ _ _ _ _ _ (proj1 H2)) as Hq2. destruct (qi_member _ _ _ _ _ Hq2 _ x Hx) as (Hxr & _).
      pose proof (qi_kind _ _ _ _ _ Hq2 _ x Hx ltac:(done)) as Hxk. destruct (lk_entered _ _ _ _ _ Hlk2 _ x Hx) as [Hin|(v & Hv & Hz & _ & Hm)].
      - rewrite HQ1 in Hin. by apply not_elem_of_nil in Hin.
      - destruct (Hall1 x Hxr Hxk) as [(w & Hw & Hwm)|Hin]; [|rewrite HQ1 in Hin; by apply not_elem_of_nil in Hin].
        rewrite Hv in Hw. injection Hw as <-. by destruct Hwm. }
    exists s2, P2, Q2. split; [by apply (Hend s2 P2 Q2)|]. split; [done|]. split; [by transitivity s1|done].
  - rewrite bind_some. exists s1, P1, Q1. split; [by apply (Hend s1 P1 Q1)|]. split; [done|]. split; [done|]. split; [by apply Hb1|done].
Qed.

(** ** Soft references *)

(** While soft references are looked at, the queue of those to clear is pointed to by a
    local variable. *)
Definition apart (E : list Z) (P : QId -> Z) (Q : QId -> list Z) (s : Gc) : Prop :=
  done_gc E P Q s /\ (forall l, P (Some l) = list_of l s) /\ keeps s /\ finger s = ULONG_MAX.

Lemma apart_step E E' P P' Q Q' s s' : apart E P Q s -> done_gc E' P' Q' s' -> adv s s' ->
  (forall l, P' (Some l) = list_of l s') -> apart E' P' Q' s'.
Proof using.
  intros (_ & HL & Hk & Hf) HG Ha HP. split; [done|]. split; [done|]. split; [by apply (keeps_adv s)|by rewrite (ad_finger _ _ Ha)].
Qed.

Lemma apart_drop P Q s h : apart [h] P Q s -> settled s Q h -> apart [] P Q s.
Proof using. intros (HG & H) Hs. split; [by apply (gc_drop _ _ _ _ _ h)|done]. Qed.

Lemma preserve_loop_spec fuel : forall q counter P Q s, apart [] P Q s -> Q (Some SoftList) = q -> (length q <= fuel)%nat ->
  exists s' P' Q', preserve_loop NDEBUG env fuel SoftList (P None) counter s = Some (P' None, s') /\ apart [] P' Q' s' /\
    adv s s' /\ Q' (Some SoftList) = [].
Proof using Hrefs Hoffsets HR.
  induction fuel as [|fuel IH]; intros q counter P Q s H EQ Hfuel; pose proof H as (HG & HL & _);
    pose proof (queue_empty env m0 kept_referents R P Q s (Some SoftList) (gc_heap _ _ _ _ _ _ _ _ _ HG) (gc_queues _ _ _ _ _ _ _ _ _ HG)) as Hemp;
    rewrite (HL SoftList), EQ in Hemp; cbn [preserve_loop]; destruct q as [|h q].
  1, 3: rewrite (proj2 Hemp) by done; exists s, P, Q; split; [done|]; split; [done|]; split; [reflexivity|done].
  { cbn [length] in Hfuel. lia. }
  destruct (list_of SoftList s =? 0) eqn:E0; [by discriminate (proj1 Hemp eq_refl)|]. cbn [length] in Hfuel.
  pose proof (gc_queues _ _ _ _ _ _ _ _ _ HG) as Hq. assert (Hh : h ∈ Q (Some SoftList)) by (rewrite EQ; apply elem_of_cons; by left).
  destruct (qi_member _ _ _ _ _ Hq _ h Hh) as (Hhr & Hhm & Hh0). pose proof (qi_kind _ _ _ _ _ Hq _ h Hh ltac:(done)) as Hkind.
  destruct (dequeue_spec NDEBUG env m0 kept_referents R Hrefs Hoffsets _ [] P Q s (Some SoftList) h q HG EQ) as (p & s0 & E1 & Hr1 & HG0 & Hni).
  rewrite (HL SoftList) in E1. rewrite E1, bind_some. set (s1 := with_list SoftList p s0). set (P1 := upd (Some SoftList) p P) in *. set (Q1 := upd (Some SoftList) q Q) in *.
  pose proof (rl_quiet _ _ _ _ _ _ Hr1) as Hqt.
  assert (Ha1 : adv s s1) by (transitivity s0; [by apply (adv_relinked env m0 kept_referents R)|apply adv_with_list]).
  assert (HG1 : done_gc [h] P1 Q1 s1) by (by apply (gc_core env m0 kept_referents R _ _ _ _ s0); [apply with_list_core|]).
  assert (Hhm1 : marked s1 h) by by apply (quiet_marked s s0).
  assert (H1 : apart [h] P1 Q1 s1).
  { apply (apart_step [] [h] P P1 Q Q1 s s1 H HG1 Ha1). intros l. unfold P1, s1. destruct (decide (l = SoftList)) as [->|Hl]; [by rewrite upd_eq; destruct s0|].
    rewrite upd_ne by congruence. rewrite HL, <- (quiet_list s s0 l Hqt). by destruct l. }
  assert (HP1 : P1 None = P None) by (unfold P1; by rewrite upd_ne).
  assert (HQ1 : Q1 (Some SoftList) = q) by (unfold Q1; by rewrite upd_eq).
  assert (Hnext : forall s2 P2 Q2 c, apart [] P2 Q2 s2 -> adv s1 s2 -> Q2 (Some SoftList) = q ->
    exists s' P' Q', preserve_loop NDEBUG env fuel SoftList (P2 None) c s2 = Some (P' None, s') /\ apart [] P' Q' s' /\ adv s s' /\ Q' (Some SoftList) = []).
  { intros s2 P2 Q2 c H2 Ha2 HQ2. destruct (IH q c P2 Q2 s2 H2 HQ2) as (s' & P' & Q' & E' & H' & Ha' & Hq'); [lia|].
    exists s', P', Q'. split; [done|]. split; [done|]. split; [transitivity s1; [done|by transitivity s2]|done]. }
  destruct (referent_of P1 Q1 [h] s1 h HG1 Hhr Hhm1) as (v & Ev & Hv). rewrite Ev, bind_some.
  destruct (Z.eqb_spec v 0) as [->|Hz].
  { rewrite <- HP1. apply (Hnext s1 P1 Q1); [|reflexivity|done]. apply (apart_drop _ _ _ h H1). intros _. left. exists 0. split; [done|by left]. }
  destruct (Hv Hz) as (Hvh & Hvr & Em & Hv0). rewrite Em, bind_some. destruct (is_set (bitmap s1) v) eqn:Es.
  { rewrite <- HP1. apply (Hnext s1 P1 Q1); [|reflexivity|done]. apply (apart_drop _ _ _ h H1). intros _. left. exists v. split; [done|by right]. }
  destruct (negb (Z.land (u32 (counter + 1)) 1 =? 0)).
  - destruct (mark_one [h] P1 Q1 s1 v HG1) as (s2 & -> & HG2 & Ha2 & Hl2 & Em2 & Hvm2); [apply H1|done|done|]. rewrite bind_some.
    rewrite <- HP1. apply (Hnext s2 P1 Q1); [|done|done]. apply (apart_drop _ _ _ h).
    + apply (apart_step [h] [h] P1 P1 Q1 Q1 s1 s2 H1 HG2 Ha2). intros l. rewrite Hl2. apply H1.
    + intros _. left. exists v. rewrite Em2. split; [done|by right].
  - destruct (enqueue_spec NDEBUG env m0 kept_referents R Hrefs Hoffsets _ [h] P1 Q1 s1 None h HG1) as (c & s2 & E2 & Hr2 & HG2).
    { split; [done|]. split; [done|]. split; [done|]. split; [done|]. by rewrite decide_False. }
    rewrite HP1 in E2. rewrite E2, bind_some. pose proof (adv_relinked env m0 kept_referents R s1 s2 Hr2) as Ha2.
    replace c with (upd None c P1 None) by by rewrite upd_eq. apply (Hnext s2 (upd None c P1) (upd None (h :: Q1 None) Q1)); [|done|by rewrite upd_ne].
    apply (apart_drop _ _ _ h).
    + apply (apart_step [h] [h] P1 _ Q1 _ s1 s2 H1 HG2 Ha2). intros l. rewrite upd_ne by done. rewrite (quiet_list s1 s2 l (rl_quiet _ _ _ _ _ _ Hr2)). apply H1.
    + intros _. right. exists None. split; [done|]. rewrite upd_eq. apply elem_of_cons. by left.
Qed.

(** The local queue becomes the one of the heap. *)
Lemma queues_move P Q s : queues_inv P Q s -> Q (Some SoftList) = [] ->
  queues_inv (upd None 0 (upd (Some SoftList) (P None) P)) (upd None [] (upd (Some SoftList) (Q None) Q)) s.
Proof using.
  intros [q1 q2 q3 q4 q5 q6 q7] Hs. set (f k := if decide (k = Some SoftList) then None else k : QId).
  assert (HQ : forall k, upd None [] (upd (Some SoftList) (Q None) Q) k = if decide (k = None) then [] else Q (f k)).
  { intros k. unfold f. destruct (decide (k = None)) as [->|Hn]; [by rewrite upd_eq|]. rewrite upd_ne by done.
    destruct (decide (k = Some SoftList)) as [->|Hk]; [by rewrite upd_eq|by rewrite upd_ne]. }
  assert (HP : forall k, upd None 0 (upd (Some SoftList) (P None) P) k = if decide (k = None) then 0 else P (f k)).
  { intros k. unfold f. destruct (decide (k = None)) as [->|Hn]; [by rewrite upd_eq|]. rewrite upd_ne by done.
    destruct (decide (k = Some SoftList)) as [->|Hk]; [by rewrite upd_eq|by rewrite upd_ne]. }
  assert (Hin : forall k x, x ∈ upd None [] (upd (Some SoftList) (Q None) Q) k -> k <> None /\ x ∈ Q (f k)).
  { intros k x. rewrite HQ. destruct (decide (k = None)); [by intros ?%not_elem_of_nil|done]. }
  assert (Hf : forall k1 k2, k1 <> None -> k2 <> None -> f k1 = f k2 -> k1 = k2).
  { intros k1 k2 H1 H2. unfold f. repeat case_decide; congruence. }
  constructor.
  - intros k. rewrite HQ, HP. destruct (decide (k = None)); [done|apply q1].
  - intros k. rewrite HQ. destruct (decide (k = None)); [constructor|apply q2].
  - intros k1 k2 x [H1 Hx1]%Hin [H2 Hx2]%Hin. apply Hf; try done. by apply (q3 _ _ x).
  - intros k x [_ Hx]%Hin. by apply (q4 (f k)).
  - intros x v Hx Hv Hz. destruct (q5 x v Hx Hv Hz) as [?|[k Hk]]; [by left|right]. destruct k as [l|].
    + exists (Some l). rewrite HQ, decide_False by done. unfold f. destruct (decide (Some l = Some SoftList)) as [[= ->]|]; [|done].
      rewrite Hs in Hk. by apply not_elem_of_nil in Hk.
    + exists (Some SoftList). by rewrite HQ, decide_False.
  - intros k x [Hn Hx]%Hin Hkc. unfold f in Hx. destruct (decide (k = Some SoftList)) as [->|Hk]; [by apply (q6 None)|by apply q6].
  - intros x [_ Hx]%Hin. by apply q7.
Qed.

Lemma preserve_spec fuel P Q s : ok [] P Q s -> stack s = [] -> (size (mem s) <= fuel)%nat ->
  exists s' P' Q', preserveSomeSoftReferences NDEBUG env fuel SoftList s = Some s' /\ ok [] P' Q' s' /\ adv s s' /\ stack s' = [].
Proof using Hobjects Hrefs Hoffsets HR.
  intros H Hst Hfuel. pose proof H as (HG & HL & Hk & Hf). unfold preserveSomeSoftReferences.
  destruct (preserve_loop_spec fuel (Q (Some SoftList)) 0 P Q s) as (s1 & P1 & Q1 & E1 & H1 & Ha1 & Hq1); [split; [done|]; split; [intros l; apply HL|done]|reflexivity| |].
  { pose proof (queue_length [] P Q s (Some SoftList) H). lia. }
  rewrite (proj2 HL) in E1. rewrite E1, bind_some. destruct H1 as (HG1 & HL1 & Hk1 & Hf1).
  set (s2 := with_list SoftList (P1 None) s1).
  assert (Ha2 : adv s s2) by (transitivity s1; [done|apply adv_with_list]).
  destruct (ok_process fuel (upd None 0 (upd (Some SoftList) (P1 None) P1)) (upd None [] (upd (Some SoftList) (Q1 None) Q1)) s2) as (s' & P' & Q' & -> & H' & Ha' & Hst' & _).
  - split; [|split; [|split; [by apply (keeps_adv s1); [apply adv_with_list|]|by destruct s1]]].
    + apply (gc_core env m0 kept_referents R _ _ _ _ s1); [apply with_list_core|]. pose proof HG1 as [A B C D]. constructor; [done| |done|].
      * by apply queues_move.
      * intros x Hx Hm Hxs Hg He Hxr. destruct (D x Hx Hm Hxs Hg He Hxr) as [?|(k & Hkc & Hin)]; [by left|right]. destruct k as [l|].
        -- exists (Some l). split; [done|]. rewrite upd_ne by done. rewrite upd_ne; [done|]. intros [= ->]. rewrite Hq1 in Hin. by apply not_elem_of_nil in Hin.
        -- exists (Some SoftList). split; [done|]. by rewrite upd_ne, upd_eq.
    + split; [|by rewrite upd_eq]. intros l. rewrite upd_ne by done. destruct (decide (l = SoftList)) as [->|Hl]; [by rewrite upd_eq|].
      rewrite upd_ne by congruence. rewrite HL1. by destruct l.
  - rewrite (ad_size _ _ Ha2). done.
  - exists s', P', Q'. split; [done|]. split; [done|]. split; [by transitivity s2|done].
Qed.

(** ** All of it *)

Lemma process_references_spec fuel clearSoft P Q s : ok [] P Q s -> stack s = [] -> (size (mem s) <= fuel)%nat ->
  (forall x, reference_at env m0 x -> kind_at m0 x = Some FinalizerList -> marked s x) ->
  exists s' P' Q', dvmHeapProcessReferences NDEBUG env fuel clearSoft s = Some s' /\ ok [] P' Q' s' /\ adv s s' /\ stack s' = [] /\
    (forall l, l <> ClearedList -> list_of l s' = 0) /\ forall k, k <> Some ClearedList -> Q' k = [].
Proof using Hobjects Hrefs Hoffsets HR Hfinal.
  intros H Hst Hfuel Hmarked. unfold dvmHeapProcessReferences.
  assert (Hpre : exists s1 P1 Q1, (if negb (zygote env) && negb clearSoft then preserveSomeSoftReferences NDEBUG env fuel SoftList s else Some s) = Some s1 /\
    ok [] P1 Q1 s1 /\ adv s s1 /\ stack s1 = []).
  { destruct (_ && _); [by apply (preserve_spec fuel P Q s)|]. by exists s, P, Q. }
  destruct Hpre as (s1 & P1 & Q1 & -> & H1 & Ha1 & Hst1). rewrite bind_some.
  assert (Hclear : forall l P Q s, ok [] P Q s -> size (mem s) = size (mem s1) -> l <> ClearedList ->
    exists s' P' Q', clearWhiteReferences NDEBUG env fuel l s = Some s' /\ ok [] P' Q' s' /\ adv s s' /\ stack s' = stack s /\
    Q' (Some l) = [] /\ forall k, k <> Some l -> k <> Some ClearedList -> Q' k = Q k).
  { intros l Pa Qa a Ha Hsz Hl. apply (clear_white_spec l fuel Hl (Qa (Some l)) Pa Qa a Ha eq_refl). pose proof (queue_length [] Pa Qa a (Some l) Ha).
    rewrite (ad_size _ _ Ha1) in Hsz. lia. }
  destruct (Hclear SoftList P1 Q1 s1 H1 eq_refl ltac:(done)) as (s2 & P2 & Q2 & -> & H2 & Ha2 & Hst2 & HQ2 & HK2). rewrite bind_some.
  pose proof (ad_size _ _ Ha2) as Hz2.
  destruct (Hclear WeakList P2 Q2 s2 H2 Hz2 ltac:(done)) as (s3 & P3 & Q3 & -> & H3 & Ha3 & Hst3 & HQ3 & HK3). rewrite bind_some.
  assert (Ha13 : adv s s3) by (transitivity s1; [done|by transitivity s2]).
  destruct (finalizers_spec fuel P3 Q3 s3 H3) as (s4 & P4 & Q4 & -> & H4 & Ha4 & Hst4 & HQ4); [congruence|by rewrite (ad_size _ _ Ha13)| |].
  { intros x Hx Hk. apply (ad_marked _ _ Ha13); [|by apply Hmarked]. by apply (reference_in_heap env m0 kept_referents R s x (gc_heap _ _ _ _ _ _ _ _ _ (proj1 H))). }
  rewrite bind_some. assert (Hz4 : size (mem s4) = size (mem s1)) by (rewrite (ad_size _ _ Ha4), (ad_size _ _ Ha3); done).
  destruct (Hclear SoftList P4 Q4 s4 H4 Hz4 ltac:(done)) as (s5 & P5 & Q5 & -> & H5 & Ha5 & Hst5 & HQ5 & HK5). rewrite bind_some.
  assert (Hz5 : size (mem s5) = size (mem s1)) by (rewrite (ad_size _ _ Ha5); done).
  destruct (Hclear WeakList P5 Q5 s5 H5 Hz5 ltac:(done)) as (s6 & P6 & Q6 & -> & H6 & Ha6 & Hst6 & HQ6 & HK6). rewrite bind_some.
  assert (Hz6 : size (mem s6) = size (mem s1)) by (rewrite (ad_size _ _ Ha6); done).
  destruct (Hclear PhantomList P6 Q6 s6 H6 Hz6 ltac:(done)) as (s7 & P7 & Q7 & -> & H7 & Ha7 & Hst7 & HQ7 & HK7). rewrite bind_some.
  assert (Hempty : forall l, l <> ClearedList -> Q7 (Some l) = []).
  { intros [] Hl; [rewrite HK7, HK6 by done; exact HQ5|rewrite HK7 by done; exact HQ6|rewrite HK7, HK6, HK5 by done; exact HQ4|exact HQ7|done]. }
  pose proof H7 as (HG7 & HL7 & _). pose proof (gc_heap _ _ _ _ _ _ _ _ _ HG7) as I7. pose proof (gc_queues _ _ _ _ _ _ _ _ _ HG7) as Hq7.
  assert (Hzero : forall l, l <> ClearedList -> list_of l s7 = 0).
  { intros l Hl. rewrite <- (proj1 HL7 l). apply Z.eqb_eq. apply (queue_empty env m0 kept_referents R P7 Q7 s7 (Some l) I7 Hq7). by apply Hempty. }
  rewrite asserted_true.
  2: { pose proof (Hzero SoftList ltac:(done)) as E1. pose proof (Hzero WeakList ltac:(done)) as E2. pose proof (Hzero FinalizerList ltac:(done)) as E3.
       pose proof (Hzero PhantomList ltac:(done)) as E4. cbn [list_of] in E1, E2, E3, E4. by rewrite E1, E2, E3, E4. }
  exists s7, P7, Q7. split; [done|]. split; [done|]. split; [transitivity s3; [done|]; transitivity s4; [done|]; transitivity s5; [done|]; by transitivity s6|].
  split; [congruence|]. split; [done|]. intros [l|] Hk; [apply Hempty; congruence|].
  apply (queue_empty env m0 kept_referents R P7 Q7 s7 None I7 Hq7). by rewrite (proj2 HL7).
Qed.

End References.
