(* ===== verification/GcCollect.v ===== *)
(** * The sweep, and a collection

    What the walks over the parts of the heap pass to the allocator: the objects that are
    live and not marked, each once. Then the phases put together: nothing that can be
    reached is freed, and no pointer of what is left dangles. *)

From stdpp Require Import gmap sorting.
From S2P Require Import Prelude Bits Search RegTypes HeapBitmap CardTable GcHeap MarkSweep GcMarking GcScanning GcQueues GcInvariant GcPending GcSteps GcMark GcReach GcReferences.

(** The parts of the heap: in whole words of the bitmap, apart from each other, each with
    an object at its start or above, all objects in one of them, the active one on top. *)
Record parts_ok (env : Env) (s : Gc) : Prop := {
  pt_heaps : exists active rest, heaps env = active :: rest /\ forall h, h ∈ rest -> h.2 <= active.1;
  pt_aligned : forall h, h ∈ heaps env -> base (liveBits s) <= h.1 < h.2 /\ h.2 <= base (liveBits s) + 256 * words (liveBits s) /\
    (h.1 - base (liveBits s)) mod 256 = 0 /\ (h.2 - base (liveBits s)) mod 256 = 0;
  pt_apart : NoDup (heaps env) /\ forall h h' x, h ∈ heaps env -> h' ∈ heaps env -> h.1 <= x < h.2 -> h'.1 <= x < h'.2 -> h = h';
  pt_started : forall h, h ∈ heaps env -> h.1 <= max (liveBits s);
  pt_all : forall x, in_heap s x -> exists h, h ∈ heaps env /\ h.1 <= x < h.2
}.

Lemma visit_append (chunks : list (list Z)) : forall freed : list Z, visit (fun ptrs freed => Some (freed ++ ptrs)) chunks freed = Some (freed ++ concat chunks).
Proof.
  induction chunks as [|c chunks IH]; intros freed; cbn [visit concat]; [by rewrite app_nil_r|]. by rewrite bind_some, IH, app_assoc.
Qed.

Lemma sorted_nodup l : StronglySorted Z.lt l -> NoDup l.
Proof.
  induction 1 as [|x l Hl IH Hx]; [constructor|]. constructor; [|done]. intros Hin. rewrite Forall_forall in Hx. specialize (Hx x Hin). lia.
Qed.

Section Sweep.
Context (NDEBUG : bool).

(** What is freed in a part of the heap. *)
Definition garbage_in (live mark : HeapBitmap) (h : Z * Z) (a : Z) : Prop :=
  covered live a /\ is_set live a = true /\ is_set mark a = false /\ h.1 <= a < h.2.

Lemma index_range b w lo hi a : (lo - b) mod 256 = 0 -> b <= a -> (lo - b) / 256 <= (a - b) / 256 <= (hi - b) / 256 ->
  (w - b) mod 256 = 0 -> hi < w -> lo <= a < w.
Proof.
  intros Hal Ha Hi Hw Hhi. pose proof (Z_div_mod_eq_full (lo - b) 256). pose proof (Z_div_mod_eq_full (a - b) 256). pose proof (Z_div_mod_eq_full (w - b) 256).
  pose proof (Z_div_mod_eq_full (hi - b) 256). pose proof (Z.mod_pos_bound (a - b) 256). pose proof (Z.mod_pos_bound (hi - b) 256). lia.
Qed.

Lemma sweep_part s h freed : bitmap_ok (bitmap s) -> bitmap_ok (liveBits s) -> base (bitmap s) = base (liveBits s) -> words (bitmap s) = words (liveBits s) ->
  base (bitmap s) <= h.1 < h.2 -> h.2 <= base (bitmap s) + 256 * words (bitmap s) -> (h.1 - base (bitmap s)) mod 256 = 0 -> (h.2 - base (bitmap s)) mod 256 = 0 ->
  h.1 <= max (bitmap s) ->
  exists out, dvmHeapBitmapSweepWalk NDEBUG (bitmap s) (liveBits s) (region s h).1 (region s h).2 (fun ptrs freed => Some (freed ++ ptrs)) freed = Some (freed ++ out) /\
    NoDup out /\ forall a, a ∈ out <-> garbage_in (bitmap s) (liveBits s) h a.
Proof.
  intros Hl Hm Hb Hw Hh Hh2 Hal1 Hal2 Hmax. pose proof Hl as (_ & Hb0 & Hfit & _ & Hset).
  assert (Er : (region s h).2 = Z.min (h.2 - 1) (max (bitmap s))) by (unfold region; cbn [snd]; by rewrite wrapU_id by (unfold inU; lia)).
  rewrite Er. cbn [region fst].
  destruct (sweep_walk_garbage NDEBUG (bitmap s) (liveBits s) h.1 (Z.min (h.2 - 1) (max (bitmap s))) (fun ptrs freed => Some (freed ++ ptrs)) freed Hl Hm Hb Hw) as (chunks & -> & _ & Hs & Hin); [lia|lia|].
  exists (concat chunks). split; [apply visit_append|]. split; [by apply sorted_nodup|]. intros a. rewrite Hin. unfold garbage_in. split.
  - intros (Hc & Hi & Hsl & Hsm). do 3 (split; [done|]). destruct Hc as [Hc _]. apply (index_range (bitmap s).(base) h.2 h.1 (Z.min (h.2 - 1) (max (bitmap s))) a); try done; lia.
  - intros (Hc & Hsl & Hsm & Hr). specialize (Hset a Hc Hsl). split; [done|]. split; [|done]. split; apply Z.div_le_mono; lia.
Qed.

Lemma sweep_parts s hs : bitmap_ok (bitmap s) -> bitmap_ok (liveBits s) -> base (bitmap s) = base (liveBits s) -> words (bitmap s) = words (liveBits s) ->
  (forall h, h ∈ hs -> base (bitmap s) <= h.1 < h.2 /\ h.2 <= base (bitmap s) + 256 * words (bitmap s) /\
    (h.1 - base (bitmap s)) mod 256 = 0 /\ (h.2 - base (bitmap s)) mod 256 = 0 /\ h.1 <= max (bitmap s)) ->
  NoDup hs -> (forall h h' x, h ∈ hs -> h' ∈ hs -> h.1 <= x < h.2 -> h'.1 <= x < h'.2 -> h = h') ->
  forall freed, exists out,
    visit (fun r freed => dvmHeapBitmapSweepWalk NDEBUG (bitmap s) (liveBits s) r.1 r.2 (fun ptrs freed => Some (freed ++ ptrs)) freed) (map (region s) hs) freed =
      Some (freed ++ out) /\ NoDup out /\ forall a, a ∈ out <-> exists h, h ∈ hs /\ garbage_in (bitmap s) (liveBits s) h a.
Proof.
  intros Hl Hm Hb Hw. induction hs as [|h hs IH]; intros Hh Hnd Hap freed.
  { exists []. split; [by rewrite app_nil_r|]. split; [constructor|]. intros a. split; [by intros ?%not_elem_of_nil|]. by intros (h & ?%not_elem_of_nil & _). }
  apply NoDup_cons in Hnd as [Hni Hnd]. destruct (Hh h) as (H1 & H2 & H3 & H4 & H5); [apply elem_of_cons; by left|].
  destruct (sweep_part s h freed Hl Hm Hb Hw H1 H2 H3 H4 H5) as (o1 & E1 & Hn1 & Ho1). cbn [map visit]. rewrite E1, bind_some.
  destruct (IH) with (freed := freed ++ o1) as (o2 & E2 & Hn2 & Ho2); [intros h' Hh'; apply Hh, elem_of_cons; by right|done|
    intros h1 h2 x Hx1 Hx2; apply Hap; apply elem_of_cons; by right|].
  exists (o1 ++ o2). rewrite E2, app_assoc. split; [done|]. split.
  - apply NoDup_app. split; [done|]. split; [|done]. intros a Ha1 Ha2. apply Ho1 in Ha1 as (_ & _ & _ & Ha1). apply Ho2 in Ha2 as (h' & Hh' & _ & _ & _ & Ha2).
    apply Hni. rewrite (Hap h h' a); [done|apply elem_of_cons; by left|apply elem_of_cons; by right|done|done].
  - intros a. rewrite elem_of_app, Ho1, Ho2. setoid_rewrite elem_of_cons. naive_solver.
Qed.

End Sweep.

(** ** A collection

    Marking, the processing of references, the exchange of the bitmaps and the sweep, as
    [dvmCollectGarbageInternal] composes them: nothing that can be reached is freed,
    nothing that is kept refers to what is freed. *)

(** Reachable if referents count. *)
Inductive reach_all (env : Env) (m : gmap Z Object) (roots : list Z) : Z -> Prop :=
  | reach_all_root x : x ∈ roots -> x <> 0 -> reach_all env m roots x
  | reach_all_immune x : is_Some (m !! x) -> x < immuneLimit env -> reach_all env m roots x
  | reach_all_refers x y : reach_all env m roots x -> refers env m x y -> y <> 0 -> reach_all env m roots y.

(** Finalizer references can be reached, and those that were not cleared can be enqueued. *)
Definition finalizers_ok (env : Env) (m : gmap Z Object) (roots : list Z) : Prop :=
  forall x, reference_at env m x -> kind_at m x = Some FinalizerList ->
    reach env m roots x /\ forall v, slot m x (off_referent env) = Some v -> v <> 0 -> isEnqueuable env m x = Some true.

(** What is not known to be marked need not be kept. *)
Lemma gc_fewer_kept env m0 (K K' : Z -> Z -> Z -> Prop) R G E P Q s : (forall x off v, K' x off v -> K x off v) ->
  gc env m0 K R G E P Q s -> gc env m0 K' R G E P Q s.
Proof.
  intros HK [[A1 A2 A3 A4 A5 A6 A7 A8 A9 A10] B C D]. constructor; try done. constructor; try done.
  intros x off v Hv Hz Hk. by apply A7, HK.
Qed.

Section Collect.
Context (NDEBUG : bool) (env : Env) (roots : list Z).

Lemma reach_all_closed s : closed_set env roots s (reach_all env (mem s) roots).
Proof using.
  split; [by apply reach_all_root|]. split; [by apply reach_all_immune|]. intros x y Hx Hs Hz.
  apply (reach_all_refers env (mem s) roots x); [done|by left|done].
Qed.

Lemma reach_reach_all m x : reach env m roots x -> reach_all env m roots x.
Proof using.
  induction 1 as [x Hx Hz|x Hx Hlt|x y _ IH Hs Hz]; [by apply reach_all_root|by apply reach_all_immune|].
  apply (reach_all_refers env m roots x); [done|by left|done].
Qed.

(** What holds when the references have been processed, [m] the heap as the threads see it,
    [R] what may be marked, [s'] the state after it. *)
Record collected (m : gmap Z Object) (R : Z -> Prop) (s' : Gc) : Prop := {
  co_reached : forall x, reach env m roots x -> marked s' x;
  co_only : forall x, is_Some (m !! x) -> marked s' x -> R x;
  co_closed : forall x y, is_Some (m !! x) -> marked s' x -> refers env (mem s') x y -> y <> 0 -> is_Some (m !! y) /\ marked s' y;
  co_referent : forall x v, reference_at env m x -> slot m x (off_referent env) = Some v ->
    slot (mem s') x (off_referent env) = Some v \/ (slot (mem s') x (off_referent env) = Some 0 /\ ~ reach env m roots v);
  co_fixed : forall x off, ~ (reference_at env m x /\ may_change env off) -> slot (mem s') x off = slot m x off;
  co_shape : same_shape m (mem s');
  co_lists : forall l, l <> ClearedList -> list_of l s' = 0;
  co_bits : bits_inv env s'
}.

Lemma process_spec fuel clearSoft m R P Q s : gc env m all_kept R (fun _ => False) [] P Q s -> linked P s -> stack s = [] -> finger s = ULONG_MAX ->
  objects_ok env m -> refs_ok env m -> offsets_ok env ->
  (forall x y, R x -> reference_at env m x -> slot m x (off_referent env) = Some y -> y <> 0 -> R y) ->
  finalizers_ok env m roots -> (size (mem s) <= fuel)%nat -> (forall x, reach env m roots x -> is_Some (m !! x) /\ marked s x) ->
  exists s', dvmHeapProcessReferences NDEBUG env fuel clearSoft s = Some s' /\ collected m R s' /\ adv s s'.
Proof using.
  intros HG HL Hst Hf Hobj Href Hoff HR Hfin Hfuel Hreach.
  apply (gc_fewer_kept env _ _ (kept_referents env (reach env m roots))) in HG; [|done].
  destruct (process_references_spec NDEBUG env m R (reach env m roots) Hobj Href Hoff)
    with (fuel := fuel) (clearSoft := clearSoft) (P := P) (Q := Q) (s := s) as (s' & P' & Q' & E' & (HG' & _) & Ha & Hst' & Hlists & Hq'); try done.
  - intros x v Hx Hk. by apply Hfin.
  - do 2 (split; [done|]). split; [|done]. intros x Hx. destruct (Hreach x Hx) as [Hh Hm]. split; [|done].
    by apply (shape_in_heap m (mem s)); [apply (gc_heap _ _ _ _ _ _ _ _ _ HG)|].
  - intros x Hx Hk. apply Hreach. by apply (proj1 (Hfin x Hx Hk)).
  - exists s'. split; [done|]. split; [|done]. pose proof (gc_heap _ _ _ _ _ _ _ _ _ HG') as I.
    assert (Hh' : forall x, in_heap s' x <-> is_Some (m !! x)) by (intros x; apply shape_in_heap, (hi_shape _ _ _ _ _ I)).
    assert (Hh : forall x, in_heap s x <-> is_Some (m !! x)) by (intros x; rewrite <- Hh'; symmetry; apply (ad_heap _ _ Ha)).
    assert (Hr' : forall x, reach env m roots x -> marked s' x) by (intros x Hx; destruct (Hreach x Hx); apply (ad_marked _ _ Ha); [by apply Hh|done]).
    constructor; try done.
    + intros x Hx Hm. apply (hi_sound _ _ _ _ _ I); [by apply Hh'|done].
    + intros x y Hx Hm Hxy Hz. split; [by apply Hh', (hi_refers _ _ _ _ _ I x y)|]. apply Hh' in Hx. destruct Hxy as [Hs|[Hxr Hv]].
      * apply (gc_scanned _ _ _ _ _ _ _ _ _ HG' x); try done; [rewrite Hst'; apply not_elem_of_nil|tauto].
      * apply (inv_reference env m _ _ s' x I) in Hxr.
        destruct (gc_settled _ _ _ _ _ _ _ _ _ HG' x) as [(w & Hw' & Hwm)|(k & Hk & Hin)]; try done;
          [rewrite Hst'; apply not_elem_of_nil|tauto|apply not_elem_of_nil| |rewrite Hq' in Hin by done; by apply not_elem_of_nil in Hin].
        rewrite Hv in Hw'. injection Hw' as <-. by destruct Hwm.
    + intros x v Hx Hv. destruct (reference_slots env m _ _ Href s' x I Hx) as (_ & (w & Ew) & _). rewrite Ew.
      destruct (hi_referent _ _ _ _ _ I x w Hx Ew) as [->|Hw0]; [|left; congruence]. destruct (Z.eq_dec v 0) as [->|Hz]; [by left|right]. split; [done|].
      intros Hvr. pose proof (hi_keeps _ _ _ _ _ I x (off_referent env) v Hv Hz) as Hkeep. rewrite Ew in Hkeep. by specialize (Hkeep ltac:(split; done)) as [= <-].
    + apply (hi_fixed _ _ _ _ _ I).
    + apply (hi_shape _ _ _ _ _ I).
    + apply (hi_bits _ _ _ _ _ I).
Qed.

Lemma process_marked fuel clearSoft s : ready env roots s -> finalizers_ok env (mem s) roots -> (size (mem s) <= fuel)%nat ->
  (exists x, reach env (mem s) roots x) ->
  exists s1 s2 s', dvmHeapMarkRootSet NDEBUG env roots s = Some s1 /\ (forall l, list_of l s1 = 0) /\
    dvmHeapScanMarkedObjects NDEBUG env fuel s1 = Some s2 /\ dvmHeapProcessReferences NDEBUG env fuel clearSoft s2 = Some s' /\
    collected (mem s) (reach_all env (mem s) roots) s' /\
    base (bitmap s') = base (bitmap s) /\ words (bitmap s') = words (bitmap s) /\ liveBits s' = liveBits s.
Proof using.
  intros H Hfin Hfuel Hex.
  destruct (mark_spec NDEBUG env roots fuel s _ H (reach_all_closed s) Hfuel Hex) as (s1 & s2 & P & Q & E1 & Hl1 & E2 & Hst & Hf & HG & HL & Hw & Em1 & Hb1 & Hw1 & Hlv1 & Hreach).
  assert (Hh2 : forall x, in_heap s2 x <-> in_heap s x) by (intros x; rewrite (ad_heap _ _ Hw); unfold in_heap; cbn [mem with_finger]; by rewrite Em1).
  destruct (process_spec fuel clearSoft (mem s) (reach_all env (mem s) roots) P Q s2 HG HL Hst Hf) as (s' & E3 & Hc & Ha); try done; try apply H.
  - intros x y Hx Hr Hv Hz. apply (reach_all_refers env (mem s) roots x); [done|by right|done].
  - rewrite (ad_size _ _ Hw). cbn [mem with_finger]. by rewrite Em1.
  - intros x Hx. destruct (Hreach x Hx). split; [by apply Hh2|done].
  - exists s1, s2, s'. do 5 (split; [done|]). rewrite (ad_base _ _ Ha), (ad_words _ _ Ha), (ad_live _ _ Ha), (ad_base _ _ Hw), (ad_words _ _ Hw), (ad_live _ _ Hw). done.
Qed.

End Collect.

(** ** The sweep *)

(** What is freed, after the bitmaps were exchanged: what is not marked. *)
Lemma swept NDEBUG env isPartial limit s s3 : dvmHeapSourceGetImmuneLimit env isPartial = Some limit -> parts_ok env s ->
  bits_inv (with_immuneLimit limit env) s3 -> same_shape (mem s) (mem s3) -> liveBits s3 = liveBits s ->
  exists freed, dvmHeapSweepUnmarkedObjects NDEBUG (with_immuneLimit limit env) isPartial (dvmHeapSourceSwapBitmaps s3) = Some freed /\
    NoDup freed /\ forall x, x ∈ freed <-> in_heap s x /\ is_set (bitmap s3) x = false.
Proof.
  intros Elim [(active & rest & Eh & Hrest) Hal [Hnd Hap] Hst Hall] Ib Hsh Elv. set (env' := with_immuneLimit limit env) in *.
  set (hs := if isPartial then take 1 (heaps env) else heaps env).
  assert (Hhs : forall h, h ∈ hs -> h ∈ heaps env).
  { intros h. unfold hs. destruct isPartial; [|done]. rewrite Eh. cbn [take]. intros ->%list_elem_of_singleton. apply elem_of_cons. by left. }
  set (s4 := dvmHeapSourceSwapBitmaps s3).
  destruct (sweep_parts NDEBUG s4 hs) with (freed := @nil Z) as (freed & Esw & Hnf & Hf); cbn [s4 bitmap liveBits dvmHeapSourceSwapBitmaps with_live with_bitmap]; try apply Ib.
  { symmetry. apply Ib. }
  { symmetry. apply Ib. }
  { rewrite Elv. intros h Hh. destruct (Hal h (Hhs h Hh)) as (? & ? & ? & ?). do 4 (split; [done|]). by apply Hst, Hhs. }
  { unfold hs. destruct isPartial; [|done]. rewrite Eh. cbn [take]. apply NoDup_singleton. }
  { intros h h' x Hh Hh'. apply Hap; by apply Hhs. }
  cbn [app] in Esw. exists freed. split; [|split; [done|]].
  - unfold dvmHeapSweepUnmarkedObjects. rewrite asserted_true; [exact Esw|].
    destruct isPartial; [|done]. cbn [negb orb]. cbn [env' heaps with_immuneLimit immuneLimit]. unfold dvmHeapSourceGetImmuneLimit in Elim. rewrite Eh in Elim |- *.
    injection Elim as <-. apply Z.eqb_refl.
  - assert (Hh3 : forall x, in_heap s3 x <-> in_heap s x) by (intros x; by apply (shape_in_heap (mem s) (mem s3))).
    intros x. rewrite Hf. unfold garbage_in. cbn [s4 bitmap liveBits dvmHeapSourceSwapBitmaps with_live with_bitmap]. split.
    + intros (h & Hh & Hcv & Hsl & Hsm & _). split; [|done]. apply Hh3, (bi_live _ _ Ib); [by apply (covered_live env' s3)|done].
    + intros [Hx Hsm]. destruct (Hall x Hx) as (h & Hh & Hr). apply Hh3 in Hx. pose proof (bi_covered _ _ Ib x Hx) as Hcv. exists h. split.
      * unfold hs. destruct isPartial; [|done]. rewrite Eh in Hh |- *. cbn [take]. apply list_elem_of_singleton.
        apply elem_of_cons in Hh as [?|Hh]; [done|exfalso]. specialize (Hrest h Hh). unfold dvmHeapSourceGetImmuneLimit in Elim. rewrite Eh in Elim. injection Elim as El.
        pose proof (bi_immune _ _ Ib x Hx) as Hi. cbn [env' immuneLimit with_immuneLimit] in Hi. unfold marked in Hi. rewrite Hi in Hsm by lia. done.
      * split; [by apply (covered_live env' s3)|]. split; [by apply (bi_live _ _ Ib)|done].
Qed.

Lemma not_freed s3 (freed : list Z) (P : Z -> Prop) x : (forall x, x ∈ freed <-> P x /\ is_set (bitmap s3) x = false) -> P x -> x ∉ freed <-> marked s3 x.
Proof.
  intros Hin Hx. rewrite Hin. unfold marked. destruct (is_set (bitmap s3) x); split; try done; [by intros _ [_ ?]|]. intros Hn. exfalso. by apply Hn.
Qed.

(** ** Properties *)

(** C8. After the references were processed, nothing that is marked refers to something
    white, be it by a field, an element, a class or the referent of a reference object:
    what the sweep frees is not referred to. All that can be reached by strong references
    is marked, and what is marked can be reached if referents count. The referent of a
    reference is what it was, or it was cleared and could not be reached; the queues of
    soft, weak, finalizer and phantom references are empty. This holds with soft references
    kept or not, and although the marking of finalizable objects brings new references to
    the queues. Finalizer references are expected to be reachable themselves. *)
Theorem references_are_processed NDEBUG env roots fuel clearSoft s : ready env roots s -> finalizers_ok env (mem s) roots -> (size (mem s) <= fuel)%nat ->
  (exists x, reach env (mem s) roots x) ->
  exists s', (s ← dvmHeapMarkRootSet NDEBUG env roots s; s ← dvmHeapScanMarkedObjects NDEBUG env fuel s; dvmHeapProcessReferences NDEBUG env fuel clearSoft s) = Some s' /\
    (forall x y, in_heap s x -> marked s' x -> refers env (mem s') x y -> y <> 0 -> in_heap s y /\ marked s' y) /\
    (forall x, reach env (mem s) roots x -> marked s' x) /\
    (forall x, in_heap s x -> marked s' x -> reach_all env (mem s) roots x) /\
    (forall x v, reference_at env (mem s) x -> slot (mem s) x (off_referent env) = Some v ->
      slot (mem s') x (off_referent env) = Some v \/ (slot (mem s') x (off_referent env) = Some 0 /\ ~ reach env (mem s) roots v)) /\
    softReferences s' = 0 /\ weakReferences s' = 0 /\ finalizerReferences s' = 0 /\ phantomReferences s' = 0.
Proof.
  intros H Hfin Hfuel Hex. destruct (process_marked NDEBUG env roots fuel clearSoft s H Hfin Hfuel Hex) as (s1 & s2 & s' & E1 & _ & E2 & E3 & Hc & _).
  exists s'. rewrite E1, bind_some, E2, bind_some. split; [done|]. split; [apply Hc|]. split; [apply Hc|]. split; [apply Hc|]. split; [apply Hc|].
  pose proof (co_lists _ _ _ _ _ Hc) as Hl. split; [by apply (Hl SoftList)|]. split; [by apply (Hl WeakList)|]. split; [by apply (Hl FinalizerList)|by apply (Hl PhantomList)].
Qed.

(** C7. A collection frees the garbage and nothing else. It completes, for the whole heap
    or its active part only; the list of what is freed has each object once, and an
    object is in it exactly if its bit is not set in the live bitmap that is left. No
    object that can be reached by strong references is freed; an object that is not freed
    can be reached if referents count; and what is left refers to nothing that was freed,
    so no pointer dangles. *)
Theorem collection_is_safe NDEBUG env roots fuel isPartial doPreserve limit s :
  dvmHeapSourceGetImmuneLimit env isPartial = Some limit -> let env' := with_immuneLimit limit env in
  ready env' roots (dvmHeapBeginMarkStep s) -> parts_ok env s -> finalizers_ok env' (mem s) roots -> (size (mem s) <= fuel)%nat ->
  (exists x, reach env' (mem s) roots x) ->
  exists freed s', dvmCollectGarbageInternal NDEBUG env fuel isPartial doPreserve roots s = Some (freed, s') /\
    NoDup freed /\ (forall x, x ∈ freed <-> in_heap s x /\ is_set (liveBits s') x = false) /\
    (forall x, reach env' (mem s) roots x -> x ∉ freed) /\
    (forall x, in_heap s x -> x ∉ freed -> reach_all env' (mem s) roots x) /\
    forall x y, in_heap s x -> x ∉ freed -> refers env' (mem s') x y -> y <> 0 -> in_heap s y /\ y ∉ freed.
Proof.
  intros Elim env' H Hparts Hfin Hfuel Hex. set (s0 := dvmHeapBeginMarkStep s) in *.
  destruct (process_marked NDEBUG env' roots fuel (negb doPreserve) s0 H Hfin Hfuel Hex) as (s1 & s2 & s3 & E1 & Hl1 & E2 & E3 & Hc & _ & _ & Elv).
  destruct (swept NDEBUG env isPartial limit s s3 Elim Hparts) as (freed & Esw & Hnf & Hin); try done; [apply Hc|apply (co_shape _ _ _ _ _ Hc)|]. fold env' in Esw.
  exists freed, (dvmHeapFinishMarkStep (dvmHeapSourceSwapBitmaps s3)). split; [|split; [done|]].
  - unfold dvmCollectGarbageInternal. rewrite Elim, bind_some. cbv zeta. fold s0. fold env'. rewrite E1, bind_some.
    pose proof (Hl1 SoftList) as L1. pose proof (Hl1 WeakList) as L2. pose proof (Hl1 FinalizerList) as L3. pose proof (Hl1 PhantomList) as L4.
    pose proof (Hl1 ClearedList) as L5. cbn [list_of] in L1, L2, L3, L4, L5. rewrite asserted_true by by rewrite L1, L2, L3, L4, L5.
    rewrite E2, bind_some, E3, bind_some, Esw, bind_some. done.
  - assert (Hnot : forall x, in_heap s x -> x ∉ freed <-> marked s3 x) by (intros x; by apply not_freed).
    split; [done|]. split; [|split].
    + intros x Hx. apply Hnot; [by apply (reach_in_heap env' roots s0 x H)|by apply (co_reached _ _ _ _ _ Hc)].
    + intros x Hx Hn. apply (co_only _ _ _ _ _ Hc); [done|by apply Hnot].
    + intros x y Hx Hn Hr Hz. destruct (co_closed _ _ _ _ _ Hc x y Hx) as [Hy Hym]; [by apply Hnot|exact Hr|done|]. split; [done|by apply Hnot].
Qed.
