(* ===== verification/GcRescan.v ===== *)
(** * A collection while the threads run: [scanGrayObjects] of [MarkSweep.cpp]

    After the threads ran, the objects on dirty cards are scanned once more. The walk
    goes from card to card, and within dirty cards from object to object by their sizes.
    The stores of the threads are given as a schedule: what is stored before each object
    is scanned. *)

From stdpp Require Import gmap.
From S2P Require Import Prelude Bits Search RegTypes HeapBitmap CardTable GcHeap MarkSweep.

(** ** Sizes of objects *)

Definition contents_offset : Z := 16.
Definition sfields_offset : Z := 160.
Definition sizeof_StaticField : Z := 24.

Definition dvmArrayClassElementWidth (k : ClassObject) : option Z :=
  if (elementType k =? 91) || (elementType k =? 76) then Some 4
  else if (elementType k =? 66) || (elementType k =? 90) then Some 1
  else if (elementType k =? 67) || (elementType k =? 83) then Some 2
  else if (elementType k =? 70) || (elementType k =? 73) then Some 4
  else if (elementType k =? 68) || (elementType k =? 74) then Some 8
  else None.

Definition dvmArrayObjectSize (o : Object) (k : ClassObject) : option Z :=
  w ← dvmArrayClassElementWidth k; Some (u32 (contents_offset + Z.of_nat (length (contents o)) * w)).

Definition dvmClassObjectSize (k : ClassObject) : Z := u32 (sfields_offset + sizeof_StaticField * Z.of_nat (length (sfields k))).

Definition ALIGN_UP (x n : Z) : Z := Z.ldiff (u32 (x + n - 1)) (n - 1).

Section Rescan.
Context (NDEBUG : bool) (env : Env).

Definition objectSize (s : Gc) (obj : Z) : option Z :=
  asserted_opt NDEBUG (dvmIsValidObject NDEBUG env s obj) (
    o ← mem s !! obj;
    asserted_opt NDEBUG (dvmIsValidObject NDEBUG env s (clazz o)) (
      k ← class_at (mem s) (clazz o);
      if is_class_flag_set k CLASS_ISARRAY then dvmArrayObjectSize o k
      else if clazz o =? classJavaLangClass env then c ← asClass o; Some (dvmClassObjectSize c)
      else Some (GcHeap.objectSize k))).

(** [fuel]: the number of addresses. *)
Fixpoint next_gray (fuel : nat) (ptr limit : Z) (markBits : HeapBitmap) : option (option Z) :=
  if ptr <? limit then
    match fuel with
    | O => None
    | S fuel =>
        w ← dvmHeapBitmapIsObjectBitSet NDEBUG markBits ptr;
        if negb (w =? 0) then Some (Some ptr) else next_gray fuel (ptr + HB_OBJECT_ALIGNMENT) limit markBits
    end
  else Some None.

Definition nextGrayObject (base limit : Z) (markBits : HeapBitmap) : option (option Z) :=
  asserted NDEBUG (base <? limit) (asserted NDEBUG (limit - base <=? GC_CARD_SIZE) (
    next_gray (Z.to_nat GC_CARD_SIZE) base limit markBits)).

(** The objects from [ptr] to [limit]: where the last one ended. *)
Fixpoint scan_card (fuel : nat) (ptr limit : Z) (s : Gc) : option (Z * Gc) :=
  if ptr <? limit then
    match fuel with
    | O => None
    | S fuel =>
        next ← nextGrayObject ptr limit (bitmap s);
        match next with
        | None => Some (ptr, s)
        | Some obj =>
            s ← scanObject NDEBUG env obj s;
            size ← objectSize s obj;
            scan_card fuel (u32 (obj + ALIGN_UP size HB_OBJECT_ALIGNMENT)) limit s
        end
    end
  else Some (ptr, s).

(** The clean card where it ended, or 0. [fuel]: the number of cards. *)
Fixpoint scan_dirty_cards (fuel : nat) (card prevAddr end_ : Z) (s : Gc) : option (Z * Gc) :=
  if card <? end_ then
    match fuel with
    | O => None
    | S fuel =>
        c ← card_at (cardTable s) card;
        if negb (c =? GC_CARD_DIRTY) then Some (card, s)
        else
          ptr ← (if negb (prevAddr =? 0) then Some prevAddr else dvmAddrFromCard NDEBUG (cardTable s) card);
          let limit := u32 (ptr + GC_CARD_SIZE) in
          '(ptr, s) ← scan_card (Z.to_nat GC_CARD_SIZE) ptr limit s;
          if ptr <? limit then scan_dirty_cards fuel (card + 1) 0 end_ s
          else card ← dvmCardFromAddr NDEBUG (cardTable s) ptr; scan_dirty_cards fuel card ptr end_ s
    end
  else Some (0, s).

Definition scanDirtyCards (start end_ : Z) (s : Gc) : option (Z * Gc) :=
  scan_dirty_cards (Z.to_nat (end_ - start)) start 0 end_ s.

(** [memchr] over the cards. *)
Fixpoint find_dirty (n : nat) (ptr : Z) (t : CardTable) : option (option Z) :=
  match n with
  | O => Some None
  | S n => c ← card_at t ptr; if c =? GC_CARD_DIRTY then Some (Some ptr) else find_dirty n (ptr + 1) t
  end.

Fixpoint scan_gray_loop (fuel : nat) (ptr limit : Z) (s : Gc) : option Gc :=
  match fuel with
  | O => None
  | S fuel =>
      found ← find_dirty (Z.to_nat (limit - ptr)) ptr (cardTable s);
      match found with
      | None => Some s
      | Some dirty =>
          asserted NDEBUG ((ptr <? dirty) && (dirty <? limit)) (
            '(ptr, s) ← scanDirtyCards dirty limit s;
            if ptr =? 0 then Some s
            else asserted NDEBUG ((dirty <? ptr) && (ptr <? limit)) (scan_gray_loop fuel ptr limit s))
      end
  end.

Definition scanGrayObjects (s : Gc) : option Gc :=
  let base := cardTableBase (cardTable s) in
  limit ← dvmCardFromAddr NDEBUG (cardTable s) (heapLimit env);
  asserted NDEBUG (limit <=? cardTableBase (cardTable s) + cardTableLength (cardTable s)) (
    scan_gray_loop (S (Z.to_nat (limit - base))) base limit s).

Definition dvmHeapReScanMarkedObjects (fuel : nat) (s : Gc) : option Gc :=
  asserted NDEBUG (finger s =? ULONG_MAX) (s ← scanGrayObjects s; processMarkStack NDEBUG env fuel s).

(** ** The threads *)

(** A store of a reference to a field. *)
Record Store := MkStore { st_object : Z; st_offset : Z; st_value : Z }.

Definition run_stores (l : list Store) (s : Gc) : option Gc :=
  visit (fun w => dvmSetFieldObject NDEBUG (st_object w) (st_offset w) (st_value w)) l s.

(** The collector, and what the threads will store. *)
Abbreviation Running := (Gc * list (list Store))%type.

Definition run_threads (p : Running) : option Running :=
  match p.2 with
  | [] => Some p
  | l :: rest => s ← run_stores l p.1; Some (s, rest)
  end.

(** [scanBitmapCallback], [processMarkStack] and [dvmHeapScanMarkedObjects] with the threads
    running in between. *)
Definition concurrentBitmapCallback (obj finger : Z) (p : Running) : option Running :=
  p ← run_threads p; s ← scanBitmapCallback NDEBUG env obj finger p.1; Some (s, p.2).

Fixpoint concurrent_stack_loop (fuel : nat) (p : Running) : option Running :=
  match stack p.1 with
  | [] => Some p
  | _ =>
      match fuel with
      | O => None
      | S fuel =>
          p ← run_threads p;
          '(obj, s) ← markStackPop NDEBUG env p.1;
          s ← scanObject NDEBUG env obj s;
          concurrent_stack_loop fuel (s, p.2)
      end
  end.

Definition concurrentScanMarkedObjects (fuel : nat) (p : Running) : option Running :=
  asserted NDEBUG (finger p.1 =? 0) (
    p ← dvmHeapBitmapScanWalk (fun p => bitmap p.1) concurrentBitmapCallback p;
    concurrent_stack_loop fuel (with_finger ULONG_MAX p.1, p.2)).

(** From the clearing of the cards, when the threads are resumed, until they are stopped
    again: what they did not store yet they store then. *)
Definition concurrentRun (fuel : nat) (threads : list (list Store)) (s : Gc) : option Gc :=
  t ← dvmClearCardTable (cardTable s) (liveBits s);
  '(s, rest) ← concurrentScanMarkedObjects fuel (with_cardTable t s, threads);
  run_stores (concat rest) s.

(** From the first look at the roots to the point where all is marked; [roots'] are the
    roots when the threads are stopped. *)
Definition concurrentMark (fuel : nat) (roots roots' : list Z) (threads : list (list Store)) (s : Gc) : option Gc :=
  s ← dvmHeapMarkRootSet NDEBUG env roots s;
  s ← asserted NDEBUG ((softReferences s =? 0) && (weakReferences s =? 0) && (finalizerReferences s =? 0) &&
        (phantomReferences s =? 0) && (clearedReferences s =? 0)) (Some s);
  s ← concurrentRun fuel threads s;
  s ← dvmHeapReMarkRootSet NDEBUG env roots' s;
  dvmHeapReScanMarkedObjects fuel s.

End Rescan.

(** [dvmCollectGarbageInternal] for a concurrent collection. *)
Definition concurrentCollection (NDEBUG : bool) (env : Env) (fuel : nat) (isPartial doPreserve : bool) (roots roots' : list Z)
    (threads : list (list Store)) (s : Gc) : option (list Z * Gc) :=
  limit ← dvmHeapSourceGetImmuneLimit env isPartial;
  let env := with_immuneLimit limit env in
  s ← concurrentMark NDEBUG env fuel roots roots' threads (dvmHeapBeginMarkStep s);
  s ← dvmHeapProcessReferences NDEBUG env fuel (negb doPreserve) s;
  let s := dvmHeapSourceSwapBitmaps s in
  freed ← dvmHeapSweepUnmarkedObjects NDEBUG env isPartial s;
  Some (freed, dvmHeapFinishMarkStep s).
