(* ===== verification/GcRescanned.v ===== *)
(** * The second scan finds what was written

    If every marked object that is still to be scanned is on a dirty card, then after the
    walk over the dirty cards and the loop over the stack none is. *)

From stdpp Require Import gmap.
From S2P Require Import Prelude Bits Search RegTypes HeapBitmap CardTable GcHeap MarkSweep GcMarking GcScanning GcQueues GcInvariant GcPending GcSteps GcRescan.

(** ** Sizes *)

Section Sizes.
Context (env : Env) (m : gmap Z Object).

Definition size_at (x : Z) : option Z :=
  o ← m !! x;
  k ← class_at m (clazz o);
  if is_class_flag_set k CLASS_ISARRAY then dvmArrayObjectSize o k
  else if clazz o =? classJavaLangClass env then c ← asClass o; Some (dvmClassObjectSize c)
  else Some (GcHeap.objectSize k).

(** Objects lie behind each other: where one ends is not above the next one, or the limit. *)
Definition laid_out : Prop := forall x, is_Some (m !! x) -> exists n, size_at x = Some n /\ 0 < n < 2 ^ 32 - 8 /\
  x + ALIGN_UP n HB_OBJECT_ALIGNMENT <= heapLimit env /\ forall y, is_Some (m !! y) -> x < y -> x + ALIGN_UP n HB_OBJECT_ALIGNMENT <= y.

End Sizes.

Lemma shape_size_at env m m' x : same_shape m m' -> size_at env m' x = size_at env m x.
Proof.
  intros Hs. unfold size_at. destruct (m !! x) as [o|] eqn:Ho.
  - destruct (shape_lookup m m' x o Hs Ho) as (o' & -> & E). rewrite !bind_some.
    assert (clazz o' = clazz o) as -> by by injection E. assert (asClass o' = asClass o) as -> by by injection E.
    rewrite (shape_class_at m m') by done. unfold dvmArrayObjectSize. assert (contents o' = contents o) as -> by by injection E. done.
  - destruct (m' !! x) as [o'|] eqn:Ho'; [|reflexivity]. apply (shape_lookup m' m) in Ho' as (o & Ho1 & _); [|by symmetry]. by rewrite Ho in Ho1.
Qed.

Lemma laid_out_shape env m m' : same_shape m m' -> laid_out env m -> laid_out env m'.
Proof.
  intros Hs H x Hx. apply (shape_in_heap m m') in Hx; [|done]. destruct (H x Hx) as (n & E & Hn & Hl & Hy). exists n. rewrite (shape_size_at env m m') by done.
  do 3 (split; [done|]). intros y Hy'. apply Hy. by apply (shape_in_heap m m').
Qed.

Lemma align_up_bounds n : 0 < n < 2 ^ 32 - 8 -> 0 < ALIGN_UP n HB_OBJECT_ALIGNMENT /\ ALIGN_UP n HB_OBJECT_ALIGNMENT mod 8 = 0.
Proof.
  intros Hn. unfold ALIGN_UP, HB_OBJECT_ALIGNMENT. rewrite wrapU_id by (unfold inU; lia). change (8 - 1) with (Z.ones 3).
  rewrite Z.ldiff_ones_r, Z.shiftl_mul_pow2, Z.shiftr_div_pow2 by lia. change (2 ^ 3) with 8. rewrite Z.mod_mul by lia. split; [|done].
  enough (1 <= (n + 8 - 1) / 8) by lia. apply Z.div_le_lower_bound; lia.
Qed.

(** ** The next marked object *)

Lemma next_gray_spec NDEBUG n : forall ptr limit b, bitmap_ok b -> (ptr - base b) mod 8 = 0 -> base b <= ptr ->
  limit <= base b + 256 * words b -> limit - ptr <= 8 * Z.of_nat n ->
  exists r, next_gray NDEBUG n ptr limit b = Some r /\
    match r with
    | None => forall y, covered b y -> ptr <= y < limit -> is_set b y = false
    | Some o => covered b o /\ ptr <= o < limit /\ is_set b o = true /\ forall y, covered b y -> ptr <= y < o -> is_set b y = false
    end.
Proof.
  induction n as [|n IH]; intros ptr limit b Hok Hal Hb Hlim Hn; cbn [next_gray]; (destruct (Z.ltb_spec ptr limit) as [Hlt|Hge];
    [|exists None; split; [done|]; intros; lia]); [lia|].
  assert (Hc : covered b ptr) by (split; [lia|done]). pose proof Hok as (_ & Hb0 & _).
  destruct (IsObjectBitSet_spec NDEBUG b ptr Hok Hc) as (old & -> & Eo); [lia|]. rewrite bind_some, Eo.
  destruct (is_set b ptr) eqn:Es.
  { exists (Some ptr). split; [done|]. do 2 (split; [done || lia|]). split; [done|]. intros; lia. }
  destruct (IH (ptr + HB_OBJECT_ALIGNMENT) limit b) as (r & -> & Hr); unfold HB_OBJECT_ALIGNMENT in *; try done; try lia.
  { replace (ptr + 8 - base b) with (ptr - base b + 1 * 8) by lia. by rewrite Z_mod_plus_full. }
  exists r. split; [done|]. assert (Hskip : forall y, covered b y -> ptr <= y -> y < ptr + 8 -> is_set b y = false).
  { intros y [_ Hy] H1 H2. replace y with ptr; [done|]. pose proof (Z_div_mod_eq_full (y - base b) 8). pose proof (Z_div_mod_eq_full (ptr - base b) 8). lia. }
  destruct r as [o|].
  - destruct Hr as (Ho & Hor & Hos & Hbelow). do 2 (split; [done || lia|]). split; [done|]. intros y Hy Hyr.
    destruct (Z.lt_ge_cases y (ptr + 8)); [apply Hskip; try done; lia|apply Hbelow; [done|lia]].
  - intros y Hy Hyr. destruct (Z.lt_ge_cases y (ptr + 8)); [apply Hskip; try done; lia|apply Hr; [done|lia]].
Qed.

(** ** Cards and addresses *)

(** The table has a card for the limit of the heap, too; the walk looks at less than a card
    of addresses behind it. *)
Record walkable (env : Env) (hi : Z) (s : Gc) : Prop := {
  wk_cards : covers (cardTable s) (heapBase env) hi;
  wk_above : heapLimit env < hi;
  wk_whole : heapLimit env mod 128 = 0;
  wk_base : base (bitmap s) = heapBase env;
  wk_room : heapLimit env + 128 <= base (bitmap s) + 256 * words (bitmap s) < 2 ^ 32;
  wk_finger : finger s = ULONG_MAX
}.

(** The first card, and the card of an address. *)
Definition first_card (t : CardTable) : Z := cardTableBase t + cardTableOffset t.

Definition card_of (env : Env) (t : CardTable) (a : Z) : Z := first_card t + (a - heapBase env) / 128.

Definition on_dirty (env : Env) (t : CardTable) (a : Z) : Prop := card_at t (card_of env t a) = Some GC_CARD_DIRTY.

(** What the walk has before it. *)
Definition pending (env : Env) (p : Z) (s : Gc) (y : Z) : Prop := p <= y /\ on_dirty env (cardTable s) y.

Section Rescanned.
Context (NDEBUG : bool) (env : Env) (m0 : gmap Z Object) (K : Z -> Z -> Z -> Prop) (R : Z -> Prop) (hi : Z).
Context (Hobjects : objects_ok env m0) (Hrefs : refs_ok env m0) (Hoffsets : offsets_ok env) (Hlaid : laid_out env m0).

Abbreviation gc := (gc env m0 K R).
Abbreviation walkable := (walkable env hi).
Abbreviation pending := (pending env).

Lemma covers_grow t t' lo hi' : cards_grow t t' -> covers t lo hi -> covers t' lo hi' -> covers t' lo hi.
Proof using.
  intros [] (_ & _ & _ & _ & _ & Hs & _ & Hh & _) (h1 & h2 & h3 & h4 & h5 & _ & h7 & _ & h9). unfold covers. rewrite cg_length in *.
  do 5 (split; [done|]). done.
Qed.

Lemma walkable_adv G E P Q s s' : walkable s -> adv s s' -> gc G E P Q s' -> walkable s'.
Proof using.
  intros [] Ha HG. destruct (hi_cards _ _ _ _ _ (gc_heap _ _ _ _ _ _ _ _ _ HG)) as (hi' & Hc & _). constructor; try done.
  - by apply (covers_grow (cardTable s) _ _ hi'); [apply Ha|..].
  - by rewrite (ad_base _ _ Ha).
  - by rewrite (ad_base _ _ Ha), (ad_words _ _ Ha).
  - by rewrite (ad_finger _ _ Ha).
Qed.

Lemma pending_adv p s s' y : adv s s' -> pending p s y -> pending p s' y.
Proof using.
  intros Ha [Hp Hd]. split; [done|]. pose proof (ad_cards _ _ Ha) as Hg. unfold on_dirty, card_of, first_card in *.
  rewrite (cg_base _ _ Hg), (cg_offset _ _ Hg). by apply (cg_dirty _ _ Hg).
Qed.

Lemma gc_pending p p' s s' P Q : adv s s' -> p' <= p -> gc (pending p s) [] P Q s' -> gc (pending p' s') [] P Q s'.
Proof using.
  intros Ha Hp. apply gc_weaken; [|done]. intros y _ _ _ Hy. apply (pending_adv p' s s' y Ha). destruct Hy. split; [lia|done].
Qed.

Lemma card_from_addr s a : walkable s -> heapBase env <= a <= heapLimit env -> dvmCardFromAddr NDEBUG (cardTable s) a = Some (card_of env (cardTable s) a).
Proof using.
  intros W Ha. pose proof (wk_above _ _ _ W). destruct (card_index NDEBUG _ _ _ a (wk_cards _ _ _ W)) as [-> _]; [lia|].
  destruct (wk_cards _ _ _ W) as (_ & _ & _ & _ & _ & _ & Hal & _). unfold card_of, first_card. do 2 f_equal.
  pose proof (Z_div_mod_eq_full (heapBase env) 128). replace (a - heapBase env) with (a + - (heapBase env / 128) * 128) by lia.
  rewrite Z.div_add by lia. lia.
Qed.

Lemma card_of_index t k r : 0 <= r < 128 -> card_of env t (heapBase env + 128 * k + r) = first_card t + k.
Proof using.
  intros Hr. unfold card_of. f_equal. symmetry. apply (Z.div_unique_pos _ _ _ r); lia.
Qed.

Lemma addr_from_card s k : walkable s -> 0 <= k -> heapBase env + 128 * k <= heapLimit env ->
  dvmAddrFromCard NDEBUG (cardTable s) (first_card (cardTable s) + k) = Some (heapBase env + 128 * k).
Proof using.
  intros W Hk Hl. pose proof (wk_above _ _ _ W). pose proof (wk_cards _ _ _ W) as Hc.
  pose proof (addr_of_card NDEBUG _ _ _ (heapBase env + 128 * k) Hc) as E. rewrite card_from_addr, bind_some in E by (done || lia).
  replace (first_card (cardTable s) + k) with (card_of env (cardTable s) (heapBase env + 128 * k)) by (rewrite <- (card_of_index _ k 0) by lia; f_equal; lia).
  rewrite E by lia. f_equal.
  destruct Hc as (_ & _ & _ & _ & _ & _ & Hal & _). replace (heapBase env + 128 * k) with (heapBase env + k * 128) by lia. rewrite Z.div_add by lia.
  pose proof (Z_div_mod_eq_full (heapBase env) 128). lia.
Qed.

Lemma objectSize_spec G E P Q s x n : gc G E P Q s -> in_heap s x -> size_at env m0 x = Some n -> objectSize NDEBUG env s x = Some n.
Proof using Hobjects.
  intros HG Hx Hn. pose proof (gc_heap _ _ _ _ _ _ _ _ _ HG) as I. pose proof (hi_bits _ _ _ _ _ I) as Ib. pose proof (hi_shape _ _ _ _ _ I) as Hsh.
  rewrite <- (shape_size_at env m0 (mem s) x Hsh) in Hn. unfold objectSize, size_at in *. rewrite asserted_opt_true by by apply valid_object.
  apply bind_Some in Hn as (o & Ho & Hn). rewrite Ho, bind_some. apply bind_Some in Hn as (k & Hk & Hn).
  rewrite asserted_opt_true; [by rewrite Hk, bind_some|]. apply valid_object; [done|]. apply bind_Some in Hk as (c & Hc & _). by eexists.
Qed.

(** ** The walk over a card *)

Abbreviation in_line a s := ((a - base (bitmap s)) mod 8 = 0).

Lemma in_line_after s o x : in_line o s -> x mod 8 = 0 -> in_line (o + x) s.
Proof using. intros Ho Hx. replace (o + x - base (bitmap s)) with (o - base (bitmap s) + x) by lia. rewrite Zplus_mod, Ho, Hx. done. Qed.

Lemma scan_card_spec n : forall ptr limit P Q s, gc (pending ptr s) [] P Q s -> linked P s -> walkable s ->
  heapBase env <= ptr <= heapLimit env -> in_line ptr s -> limit <= heapLimit env + 128 -> limit <= ptr + 128 -> limit - ptr <= Z.of_nat n ->
  exists ptr' s' P' Q', scan_card NDEBUG env n ptr limit s = Some (ptr', s') /\ gc (pending (Z.max ptr' limit) s') [] P' Q' s' /\ linked P' s' /\
    walkable s' /\ adv s s' /\ ptr <= ptr' <= heapLimit env /\ in_line ptr' s'.
Proof using Hobjects Hrefs Hoffsets Hlaid.
  induction n as [|n IH]; intros ptr limit P Q s HG HL W Hptr Hal Hlim Hlen Hn; cbn [scan_card].
  all: destruct (Z.ltb_spec ptr limit) as [Hlt|Hge]; [|exists ptr, s, P, Q; split; [done|]; rewrite Z.max_l by done; by do 5 (split; [done || lia|])].
  { lia. }
  pose proof (hi_bits _ _ _ _ _ (gc_heap _ _ _ _ _ _ _ _ _ HG)) as Ib. pose proof (wk_room _ _ _ W) as Hroom.
  pose proof (wk_base _ _ _ W) as Hbase. unfold nextGrayObject, GC_CARD_SIZE. change (Z.shiftl 1 GC_CARD_SHIFT) with 128. rewrite asserted_true, asserted_true by lia.
  destruct (next_gray_spec NDEBUG (Z.to_nat 128) ptr limit (bitmap s) (bi_ok _ _ Ib) Hal) as (r & -> & Hr); [rewrite (wk_base _ _ _ W); lia|lia|lia|].
  rewrite bind_some. destruct r as [obj|].
  2: { exists ptr, s, P, Q. split; [done|]. rewrite Z.max_r by lia. split; [|by do 4 (split; [done || lia|])].
       apply (gc_weaken env m0 K R (pending ptr s) _ [] []); [|done|done]. intros y Hy Hym _ [Hp Hd]. split; [|done].
       destruct (Z.lt_ge_cases y limit) as [H|H]; [|done]. unfold marked in Hym. rewrite (Hr y) in Hym; [done| |lia]. by apply (bi_covered _ _ Ib). }
  destruct Hr as (Hoc & Hor & Hom & Hbelow). assert (Hoh : in_heap s obj) by by apply (bi_marked _ _ Ib).
  destruct (scan_spec NDEBUG env m0 K R Hobjects Hrefs Hoffsets (pending obj s) P Q s obj) as (s1 & P1 & Q1 & -> & HG1 & HL1 & Ha1 & _); try done.
  { apply (gc_weaken env m0 K R (pending ptr s) _ [] []); [|done|done]. intros y Hy Hym _ [Hp Hd]. split; [|done].
    destruct (Z.lt_ge_cases y obj) as [H|H]; [|done]. unfold marked in Hym. rewrite (Hbelow y) in Hym; [done| |lia]. by apply (bi_covered _ _ Ib). }
  { intros y Hy Hf. rewrite (wk_finger _ _ _ W) in Hf. destruct (bi_bounds _ _ Ib y Hy). lia. }
  pose proof (walkable_adv _ _ _ _ _ _ W Ha1 HG1) as W1. pose proof (hi_shape _ _ _ _ _ (gc_heap _ _ _ _ _ _ _ _ _ HG)) as Hsh.
  assert (Hm0 : forall y, in_heap s y -> is_Some (m0 !! y)) by (intros y; by apply (shape_in_heap m0 (mem s))).
  destruct (Hlaid obj (Hm0 obj Hoh)) as (size & Esz & Hsz & Hend & Hnext). destruct (align_up_bounds size Hsz) as [Hpos Hmod].
  rewrite bind_some, (objectSize_spec _ _ _ _ s1 obj size HG1), bind_some by (done || by apply (ad_heap _ _ Ha1)).
  destruct (bi_bounds _ _ Ib obj Hoh) as [Hob _]. destruct (bi_ok _ _ Ib) as (_ & Hb0 & _). rewrite (wrapU_id 32) by (unfold inU; lia).
  set (p := obj + ALIGN_UP size HB_OBJECT_ALIGNMENT) in *.
  destruct (IH p limit P1 Q1 s1) as (ptr' & s2 & P2 & Q2 & -> & HG2 & HL2 & W2 & Ha2 & Hp2 & Hal2); try done; try lia.
  { apply (gc_weaken env m0 K R (fun y => pending obj s y /\ y <> obj) _ [] []); [|done|done]. intros y Hy _ _ [Hp Hne].
    apply (pending_adv p s s1 y Ha1). destruct Hp as [Hp Hd]. split; [|done]. apply Hnext; [|lia]. by apply Hm0, (ad_heap _ _ Ha1). }
  { unfold p. rewrite (ad_base _ _ Ha1). apply (in_line_after s); [|done]. apply Hoc. }
  exists ptr', s2, P2, Q2. do 4 (split; [done|]). split; [by transitivity s1|]. split; [lia|done].
Qed.

(** ** The walk over dirty cards *)

Lemma card_byte s k : walkable s -> 0 <= k -> heapBase env + 128 * k <= heapLimit env ->
  exists c, card_at (cardTable s) (first_card (cardTable s) + k) = Some c.
Proof using.
  intros W Hk Hl. pose proof (wk_above _ _ _ W). destruct (wk_cards _ _ _ W) as (_ & Ho & Hb & _ & Hlen & Hsize & _).
  unfold card_at, first_card. rewrite aref_nat by lia. apply lookup_lt_is_Some. lia.
Qed.

Lemma first_card_adv s s' : adv s s' -> first_card (cardTable s') = first_card (cardTable s).
Proof using. intros Ha. pose proof (ad_cards _ _ Ha) as []. unfold first_card. congruence. Qed.

(** Behind the last object nothing is before the walk. *)
Lemma gc_finished p P Q s : gc (pending p s) [] P Q s -> heapLimit env <= p -> gc (fun _ => False) [] P Q s.
Proof using Hlaid.
  intros HG Hp. apply (gc_weaken env m0 K R (pending p s) _ [] []); [|done|done]. intros y Hy _ _ [Hpy _].
  apply (shape_in_heap m0 (mem s)) in Hy; [|apply (gc_heap _ _ _ _ _ _ _ _ _ HG)]. destruct (Hlaid y Hy) as (n & _ & Hn & Hl & _).
  destruct (align_up_bounds n Hn). lia.
Qed.

(** Where the walk is: at the start of a card, or in it. *)
Definition at_card (k prevAddr p : Z) : Prop :=
  (prevAddr = 0 /\ p = heapBase env + 128 * k) \/ (prevAddr = p /\ p <> 0 /\ k = (p - heapBase env) / 128).

Lemma at_card_bounds k prev p : at_card k prev p -> heapBase env + 128 * k <= p < heapBase env + 128 * (k + 1).
Proof using. intros [[_ ->]|(_ & _ & ->)]; [lia|]. pose proof (Z_div_mod_eq_full (p - heapBase env) 128). pose proof (Z.mod_pos_bound (p - heapBase env) 128). lia. Qed.

Lemma scan_dirty_cards_spec kend n : heapBase env + 128 * kend = heapLimit env -> forall k prev p P Q s, gc (pending p s) [] P Q s -> linked P s -> walkable s ->
  at_card k prev p -> 0 <= k -> p <= heapLimit env -> in_line p s -> kend - k <= Z.of_nat n ->
  exists r s' P' Q', scan_dirty_cards NDEBUG env n (first_card (cardTable s) + k) prev (first_card (cardTable s) + kend) s = Some (r, s') /\
    linked P' s' /\ walkable s' /\ adv s s' /\
    ((r = 0 /\ gc (fun _ => False) [] P' Q' s') \/
     exists k', r = first_card (cardTable s) + k' /\ k <= k' < kend /\ card_at (cardTable s') r <> Some GC_CARD_DIRTY /\
       gc (pending (heapBase env + 128 * k') s') [] P' Q' s').
Proof using Hobjects Hrefs Hoffsets Hlaid.
  intros Hkend. induction n as [|n IH]; intros k prev p P Q s HG HL W Hat Hk Hp Hal Hn; pose proof (at_card_bounds k prev p Hat) as Hkp; cbn [scan_dirty_cards].
  all: destruct (Z.ltb_spec (first_card (cardTable s) + k) (first_card (cardTable s) + kend)) as [Hlt|Hge];
    [|exists 0, s, P, Q; do 4 (split; [done|]); left; split; [done|]; apply (gc_finished p); [done|lia]].
  { lia. }
  destruct (card_byte s k W Hk) as [c Ec]; [lia|]. rewrite Ec, bind_some. unfold GC_CARD_SIZE. change (Z.shiftl 1 GC_CARD_SHIFT) with 128.
  destruct (Z.eqb_spec c GC_CARD_DIRTY) as [->|Hc]; cbn [negb].
  2: { eexists _, s, P, Q. do 4 (split; [done|]). right. exists k. split; [done|]. split; [lia|]. split; [congruence|].
       apply (gc_pending p _ s s P Q); [done|lia|done]. }
  assert (Hfits : 0 < p /\ p + 128 < 2 ^ 32).
  { pose proof (wk_room _ _ _ W). pose proof (wk_base _ _ _ W). pose proof (hi_bits _ _ _ _ _ (gc_heap _ _ _ _ _ _ _ _ _ HG)) as Ib.
    destruct (bi_ok _ _ Ib) as (_ & Hb0 & _). lia. }
  assert (Eptr : (if negb (prev =? 0) then Some prev else dvmAddrFromCard NDEBUG (cardTable s) (first_card (cardTable s) + k)) = Some p).
  { destruct Hat as [[-> ->]|(-> & Hz & _)]; [cbn [Z.eqb negb]; apply addr_from_card; done || lia|]. by rewrite (proj2 (Z.eqb_neq _ _) Hz). }
  rewrite Eptr, bind_some. rewrite (wrapU_id 32 (p + 128)) by (unfold inU; lia).
  destruct (scan_card_spec (Z.to_nat 128) p (p + 128) P Q s HG HL W) as (ptr' & s1 & P1 & Q1 & -> & HG1 & HL1 & W1 & Ha1 & Hp1 & Hal1); try done; try lia.
  rewrite bind_some. rewrite <- (first_card_adv s s1 Ha1).
  assert (Hnext : forall k' prev' p', at_card k' prev' p' -> k < k' -> p' <= Z.max ptr' (p + 128) -> p' <= heapLimit env -> in_line p' s1 ->
    exists r s' P' Q', scan_dirty_cards NDEBUG env n (first_card (cardTable s1) + k') prev' (first_card (cardTable s1) + kend) s1 = Some (r, s') /\
      linked P' s' /\ walkable s' /\ adv s s' /\ ((r = 0 /\ gc (fun _ => False) [] P' Q' s') \/
      exists k', r = first_card (cardTable s1) + k' /\ k <= k' < kend /\ card_at (cardTable s') r <> Some GC_CARD_DIRTY /\
        gc (pending (heapBase env + 128 * k') s') [] P' Q' s')).
  { intros k' prev' p' Hat' Hk' Hp' Hl' Hal'. destruct (IH k' prev' p' P1 Q1 s1) as (r & s2 & P2 & Q2 & E2 & HL2 & W2 & Ha2 & H2); try done; try lia.
    { by apply (gc_pending (Z.max ptr' (p + 128)) p' s1 s1). }
    exists r, s2, P2, Q2. do 3 (split; [done|]). split; [by transitivity s1|]. destruct H2 as [?|(k2 & H2)]; [by left|right]. exists k2.
    destruct H2 as (H2a & H2b & H2c). split; [done|]. split; [lia|done]. }
  destruct (Z.ltb_spec ptr' (p + 128)) as [Hin|Hout].
  - rewrite <- Z.add_assoc. apply (Hnext (k + 1) 0 (heapBase env + 128 * (k + 1))); [by left|lia..|].
    rewrite <- (wk_base _ _ _ W1). apply (in_line_after s1); [by rewrite Z.sub_diag|]. replace (128 * (k + 1)) with (16 * (k + 1) * 8) by lia. apply Z.mod_mul. lia.
  - rewrite card_from_addr, bind_some by (done || lia). unfold card_of.
    apply (Hnext ((ptr' - heapBase env) / 128) ptr' ptr'); [right; split; [done|split; [lia|done]]| |lia..|done].
    enough (k + 1 <= (ptr' - heapBase env) / 128) by lia. apply Z.div_le_lower_bound; lia.
Qed.

(** ** The loop over the ranges of dirty cards *)

Lemma find_dirty_spec n t : forall ptr, (forall c, ptr <= c < ptr + Z.of_nat n -> is_Some (card_at t c)) ->
  exists r, find_dirty n ptr t = Some r /\
    match r with
    | None => forall c, ptr <= c < ptr + Z.of_nat n -> card_at t c <> Some GC_CARD_DIRTY
    | Some d => ptr <= d < ptr + Z.of_nat n /\ card_at t d = Some GC_CARD_DIRTY /\ forall c, ptr <= c < d -> card_at t c <> Some GC_CARD_DIRTY
    end.
Proof using.
  induction n as [|n IH]; intros ptr Hb; cbn [find_dirty]; [exists None; split; [done|]; intros; lia|].
  destruct (Hb ptr) as [c Ec]; [lia|]. rewrite Ec, bind_some. destruct (Z.eqb_spec c GC_CARD_DIRTY) as [->|Hc].
  { exists (Some ptr). split; [done|]. split; [lia|]. split; [done|]. intros; lia. }
  assert (Hptr : card_at t ptr <> Some GC_CARD_DIRTY) by congruence.
  destruct (IH (ptr + 1)) as (r & -> & Hr); [intros; apply Hb; lia|]. exists r. split; [done|]. destruct r as [d|].
  - destruct Hr as (H1 & H2 & H3). split; [lia|]. split; [done|]. intros x Hx. destruct (decide (x = ptr)) as [->|]; [done|apply H3; lia].
  - intros x Hx. destruct (decide (x = ptr)) as [->|]; [done|apply Hr; lia].
Qed.

(** No dirty card up to [k']: the walk may start there. *)
Lemma gc_skip k k' P Q s : gc (pending (heapBase env + 128 * k) s) [] P Q s ->
  (forall j, k <= j < k' -> card_at (cardTable s) (first_card (cardTable s) + j) <> Some GC_CARD_DIRTY) ->
  gc (pending (heapBase env + 128 * k') s) [] P Q s.
Proof using.
  intros HG Hclean. apply (gc_weaken env m0 K R (pending (heapBase env + 128 * k) s) _ [] []); [|done|done]. intros y _ _ _ [Hp Hd]. split; [|done].
  destruct (Z.lt_ge_cases y (heapBase env + 128 * k')) as [H|H]; [exfalso|done]. apply (Hclean ((y - heapBase env) / 128)); [|exact Hd].
  split; [apply Z.div_le_lower_bound; lia|apply Z.div_lt_upper_bound; lia].
Qed.

Lemma scan_gray_loop_spec kend n : heapBase env + 128 * kend = heapLimit env -> forall k P Q s, gc (pending (heapBase env + 128 * k) s) [] P Q s -> linked P s ->
  walkable s -> - cardTableOffset (cardTable s) <= k <= kend -> kend - k < Z.of_nat n ->
  NDEBUG = true \/ card_at (cardTable s) (first_card (cardTable s) + k) <> Some GC_CARD_DIRTY ->
  exists s' P' Q', scan_gray_loop NDEBUG env n (first_card (cardTable s) + k) (first_card (cardTable s) + kend) s = Some s' /\
    gc (fun _ => False) [] P' Q' s' /\ linked P' s' /\ walkable s' /\ adv s s'.
Proof using Hobjects Hrefs Hoffsets Hlaid.
  intros Hkend. induction n as [|n IH]; intros k P Q s HG HL W Hk Hn Hassert; [lia|]. cbn [scan_gray_loop].
  set (t := cardTable s) in *. pose proof (wk_cards _ _ _ W) as Hc. fold t in Hc. pose proof (wk_above _ _ _ W).
  destruct Hc as (_ & Ho & Hb & _ & Hlen & Hsize & _ & _ & _ & Hlow).
  destruct (find_dirty_spec (Z.to_nat (first_card t + kend - (first_card t + k))) t (first_card t + k)) as (r & -> & Hr).
  { intros c Hcr. unfold card_at, first_card in *. rewrite aref_nat by lia. apply lookup_lt_is_Some. lia. }
  rewrite bind_some. destruct r as [d|].
  2: { exists s, P, Q. split; [done|]. split; [|done]. apply (gc_finished (heapBase env + 128 * kend)); [|lia].
       apply (gc_skip k kend P Q s HG). intros j Hj. fold t. apply Hr. lia. }
  destruct Hr as (Hd & Hdirty & Hclean). set (kd := d - first_card t) in *. assert (Ed : d = first_card t + kd) by lia. clearbody kd. subst d.
  assert (Hkd : 0 <= kd).
  { destruct (Z.lt_ge_cases kd 0) as [Hneg|?]; [exfalso|done]. apply (Hlow (cardTableOffset t + kd)); [lia|].
    rewrite Z.add_assoc. exact Hdirty. }
  assert (Hgt : NDEBUG || ((first_card t + k <? first_card t + kd) && (first_card t + kd <? first_card t + kend)) = true).
  { destruct Hassert as [->|Hna]; [done|]. destruct (decide (k = kd)) as [->|]; [done|]. rewrite orb_true_iff. right. lia. }
  unfold asserted at 1. rewrite Hgt. unfold scanDirtyCards.
  destruct (scan_dirty_cards_spec kend (Z.to_nat (first_card t + kend - (first_card t + kd))) Hkend kd 0 (heapBase env + 128 * kd) P Q s)
    as (r & s1 & P1 & Q1 & E1 & HL1 & W1 & Ha1 & H1); try done; try lia.
  { apply (gc_skip k kd P Q s HG). intros j Hj. fold t. apply Hclean. lia. }
  { by left. }
  { rewrite <- (wk_base _ _ _ W). apply (in_line_after s); [by rewrite Z.sub_diag|]. replace (128 * kd) with (16 * kd * 8) by lia. apply Z.mod_mul. lia. }
  fold t in E1. rewrite E1, bind_some. pose proof (first_card_adv s s1 Ha1) as Ef. fold t in Ef.
  destruct H1 as [[-> HG1]|(k' & -> & Hk' & Hcl & HG1)]; [by exists s1, P1, Q1|]. fold t in Hcl |- *.
  assert (Hne : k' <> kd) by (intros ->; apply Hcl; by apply (cg_dirty _ _ (ad_cards _ _ Ha1))).
  assert (Hf0 : 0 <= first_card t) by (unfold first_card; lia).
  rewrite (proj2 (Z.eqb_neq _ _)), asserted_true by lia. rewrite <- Ef.
  destruct (IH k' P1 Q1 s1 HG1 HL1 W1) as (s2 & P2 & Q2 & E2 & HG2 & HL2 & W2 & Ha2).
  { rewrite (cg_offset _ _ (ad_cards _ _ Ha1)). fold t. lia. }
  { lia. }
  { right. by rewrite Ef. }
  exists s2, P2, Q2. do 4 (split; [done|]). by transitivity s1.
Qed.

(** What the assertions of [scanGrayObjects] need: there is a byte before the first card,
    and the cards before the limit are few enough to ignore where the first card is. *)
Definition cards_asserted (t : CardTable) : Prop :=
  NDEBUG = true \/ (0 < cardTableOffset t /\ cardTableOffset t + (heapLimit env - heapBase env) / 128 <= cardTableLength t).

Lemma rescan_spec fuel P Q s : gc (pending (heapBase env) s) [] P Q s -> linked P s -> walkable s -> heapBase env <= heapLimit env -> cards_asserted (cardTable s) ->
  (size (mem s) <= fuel)%nat ->
  exists s' P' Q', dvmHeapReScanMarkedObjects NDEBUG env fuel s = Some s' /\ stack s' = [] /\ gc (fun _ => False) [] P' Q' s' /\ linked P' s' /\ adv s s'.
Proof using Hobjects Hrefs Hoffsets Hlaid.
  intros HG HL W Hle Has Hfuel. unfold dvmHeapReScanMarkedObjects. rewrite asserted_true by (apply Z.eqb_eq, W).
  unfold scanGrayObjects. rewrite card_from_addr, bind_some by (done || lia). set (t := cardTable s) in *.
  pose proof (wk_cards _ _ _ W) as Hc. fold t in Hc. destruct Hc as (_ & Ho & _ & _ & _ & _ & Hal & _ & _ & Hlow). pose proof (wk_whole _ _ _ W) as Hal'.
  set (kend := (heapLimit env - heapBase env) / 128) in *. assert (Ek : card_of env t (heapLimit env) = first_card t + kend) by done. rewrite Ek.
  assert (Hkend : heapBase env + 128 * kend = heapLimit env /\ 0 <= kend).
  { pose proof (Z_div_mod_eq_full (heapLimit env) 128). pose proof (Z_div_mod_eq_full (heapBase env) 128).
    assert (kend = heapLimit env / 128 - heapBase env / 128) by (symmetry; apply (Z.div_unique_pos _ _ _ 0); lia). lia. }
  assert (Hlim : NDEBUG || (first_card t + kend <=? cardTableBase t + cardTableLength t) = true).
  { destruct Has as [->|[_ Hsm]]; [done|]. fold kend in Hsm. unfold first_card. rewrite orb_true_iff. right. lia. }
  unfold asserted at 1. rewrite Hlim.
  destruct (scan_gray_loop_spec kend (S (Z.to_nat (first_card t + kend - cardTableBase t))) (proj1 Hkend) (- cardTableOffset t) P Q s) as (s1 & P1 & Q1 & E1 & HG1 & HL1 & W1 & Ha1); try done.
  { apply (gc_pending (heapBase env) _ s s); [done|lia|done]. }
  { fold t. lia. }
  { unfold first_card. lia. }
  { destruct Has as [?|[Hoff _]]; [by left|right]. fold t. replace (first_card t + - cardTableOffset t) with (cardTableBase t + 0) by (unfold first_card; lia). apply Hlow. lia. }
  fold t in E1. replace (first_card t + - cardTableOffset t) with (cardTableBase t) in E1 by (unfold first_card; lia). rewrite E1, bind_some.
  destruct (process_stack_spec NDEBUG env m0 K R Hobjects Hrefs Hoffsets fuel P1 Q1 s1 HG1 HL1) as (s2 & P2 & Q2 & -> & Est & HG2 & HL2 & Ha2 & _).
  { apply W1. }
  { by rewrite (ad_size _ _ Ha1). }
  exists s2, P2, Q2. do 4 (split; [done|]). by transitivity s1.
Qed.

End Rescanned.
