(* ===== verification/GcThreads.v ===== *)
(** * Stores by the threads keep the invariant of a collection

    A store makes the card of its object dirty. What the object refers to then need not be
    marked: the object is among those that are still to be scanned. *)

From stdpp Require Import gmap.
From S2P Require Import Prelude Bits Search RegTypes HeapBitmap CardTable GcHeap MarkSweep GcMarking GcScanning GcQueues GcInvariant GcPending GcSteps GcMark GcReach GcRescan GcRescanned.

(** ** The heap as the threads see it *)

Definition store_to (m : gmap Z Object) (w : Store) : gmap Z Object := set_slot (st_object w) (st_offset w) (st_value w) m.

Definition stored (l : list Store) (m : gmap Z Object) : gmap Z Object := fold_left store_to l m.

(** The threads store to words that objects have, references to objects that are on the
    heap, and leave the words of reference objects to the collector. *)
Definition store_ok (env : Env) (m : gmap Z Object) (w : Store) : Prop :=
  is_Some (slot m (st_object w) (st_offset w)) /\ ~ (reference_at env m (st_object w) /\ may_change env (st_offset w)) /\
  (st_value w <> 0 -> is_Some (m !! st_value w)).

Definition stores_ok (env : Env) (m : gmap Z Object) (l : list Store) : Prop := forall w, w ∈ l -> store_ok env m w.

Lemma shape_store_ok env m m' w : same_shape m m' -> store_ok env m w -> store_ok env m' w.
Proof.
  intros Hs (H1 & H2 & H3). split; [by apply (shape_slot m)|]. split; [|intros Hz; by apply (shape_in_heap m), H3].
  intros [Hr Hc]. apply H2. split; [|done]. by apply (shape_reference_at env m' m).
Qed.

Lemma stored_shape env l : forall m, stores_ok env m l -> same_shape m (stored l m).
Proof.
  induction l as [|w l IH]; intros m Hok; [done|]. cbn [stored fold_left].
  assert (Hw : store_ok env m w) by (apply Hok, elem_of_cons; by left).
  assert (Hs : same_shape m (store_to m w)) by apply set_slot_shape, Hw. transitivity (store_to m w); [done|].
  apply IH. intros w' Hw'. apply (shape_store_ok env m); [done|]. apply Hok, elem_of_cons. by right.
Qed.

Lemma stored_app l l' m : stored (l ++ l') m = stored l' (stored l m).
Proof. apply fold_left_app. Qed.

(** ** The mark of a card *)

Lemma card_difference lo a : lo mod 128 = 0 -> a / 128 - lo / 128 = (a - lo) / 128.
Proof.
  intros Hal. pose proof (Z_div_mod_eq_full lo 128). replace (a - lo) with (a + - (lo / 128) * 128) by lia. rewrite Z.div_add by lia. lia.
Qed.

Lemma marked_card_dirty NDEBUG env t hi a t' : covers t (heapBase env) hi -> heapBase env <= a < hi -> dvmMarkCard NDEBUG t a = Some t' -> on_dirty env t' a.
Proof.
  intros Hc Ha E. destruct (mark_card_covers NDEBUG t _ _ a Hc Ha) as (t1 & E1 & Hc1 & _ & Hd). rewrite E in E1. injection E1 as <-.
  specialize (Hd a Ha). rewrite decide_True in Hd by done. unfold isObjectDirty in Hd.
  rewrite (proj1 (card_index NDEBUG _ _ _ a Hc1 Ha)), bind_some in Hd. apply bind_Some in Hd as (c & Ec & [= Hcd]).
  destruct Hc as (_ & _ & _ & _ & _ & _ & Hal & _). unfold on_dirty, card_of, first_card. rewrite <- (card_difference _ _ Hal), Ec. f_equal. lia.
Qed.

Lemma on_dirty_grow env t t' a : cards_grow t t' -> on_dirty env t a -> on_dirty env t' a.
Proof. intros [] Hd. unfold on_dirty, card_of, first_card in *. rewrite cg_base, cg_offset. by apply cg_dirty. Qed.

(** ** A store *)

Section Store.
Context (NDEBUG : bool) (env : Env).
Context (Hoffsets : offsets_ok env).

Abbreviation anything := (fun _ : Z => True).
Abbreviation gc m := (gc env m all_kept anything).

Lemma slot_stored m w y off : is_Some (slot m (st_object w) (st_offset w)) ->
  slot (store_to m w) y off = if decide (y = st_object w /\ off = st_offset w) then Some (st_value w) else slot m y off.
Proof using. apply slot_set. Qed.

(** The words of references that the invariant is about are not stored to. *)
Lemma slot_kept m w y off : store_ok env m w -> reference_at env m y -> may_change env off -> slot (store_to m w) y off = slot m y off.
Proof using. intros (H1 & H2 & _) Hy Hc. rewrite slot_stored, decide_False; [done| |done]. intros [-> ->]. by apply H2. Qed.

Lemma heap_inv_store m s w t hi : heap_inv env m all_kept anything s -> store_ok env m w -> covers t (heapBase env) hi -> (forall y, in_heap s y -> y < hi) ->
  heap_inv env (store_to m w) all_kept anything (with_cardTable t (with_mem (store_to (mem s) w) s)).
Proof using.
  intros I Hok Ht Hhi. pose proof (hi_shape _ _ _ _ _ I) as Hms. pose proof (shape_store_ok env m (mem s) w Hms Hok) as Hok'.
  pose proof Hok as (Hslot & Hno & _). pose proof Hok' as (Hslot' & Hno' & Hval').
  assert (Hsh : same_shape m (store_to m w)) by by apply set_slot_shape. assert (Hsh' : same_shape (mem s) (store_to (mem s) w)) by by apply set_slot_shape.
  assert (Hin : forall y, is_Some (store_to (mem s) w !! y) <-> in_heap s y) by (intros y; by apply shape_in_heap).
  assert (Hback : forall y, reference_at env (store_to m w) y -> reference_at env m y) by (intros y; apply shape_reference_at; by symmetry).
  constructor; cbn [mem cardTable with_cardTable with_mem]; try done.
  - apply bits_reshaped; [apply I|done].
  - exists hi. split; [done|]. intros y Hy. by apply Hhi, Hin.
  - by rewrite <- Hsh, Hms.
  - unfold in_heap. cbn [mem with_cardTable with_mem]. intros a b [H|[Ha Hab]] Hb; apply Hin.
    + apply (strong_change env (mem s) _ (fun a b => b = st_value w) a b Hsh') in H as [H| ->].
      * apply (hi_refers _ _ _ _ _ I a b); [by left|done].
      * by apply Hval'.
      * intros off v. rewrite slot_stored by done. case_decide; [intros [= <-]; by right|by left].
    + apply (shape_reference_at env _ (mem s)) in Ha; [|by symmetry]. rewrite (slot_kept (mem s) w) in Hab by (done || (right; by left)).
      apply (hi_refers _ _ _ _ _ I a b); [by right|done].
  - intros a off v Hv Hz _. rewrite slot_stored in Hv |- * by done. case_decide; [done|]. by apply (hi_keeps _ _ _ _ _ I).
  - intros a Ha Hp. apply Hback in Ha. assert (Ha' : reference_at env (mem s) a) by by apply (shape_reference_at env m).
    rewrite (slot_kept m w) in Hp by (done || by left). rewrite (slot_kept (mem s) w) by (done || (right; by left)). by apply (hi_old _ _ _ _ _ I).
  - intros a v Ha Hv. apply Hback in Ha. assert (Ha' : reference_at env (mem s) a) by by apply (shape_reference_at env m).
    rewrite (slot_kept (mem s) w) in Hv by (done || (right; by left)). rewrite (slot_kept m w) by (done || (right; by left)). by apply (hi_referent _ _ _ _ _ I).
  - intros a off Ha. rewrite !slot_stored by done. case_decide; [done|]. apply (hi_fixed _ _ _ _ _ I). intros [Hr Hc]. apply Ha. split; [|done].
    by apply (shape_reference_at env m).
Qed.

Lemma queues_inv_store m P Q s w t : heap_inv env m all_kept anything s -> queues_inv env m P Q s -> store_ok env m w ->
  queues_inv env (store_to m w) P Q (with_cardTable t (with_mem (store_to (mem s) w) s)).
Proof using.
  intros I [q1 q2 q3 q4 q5 q6 q7] Hok. pose proof (hi_shape _ _ _ _ _ I) as Hms. pose proof (shape_store_ok env m (mem s) w Hms Hok) as Hok'.
  assert (Hsh : same_shape m (store_to m w)) by apply set_slot_shape, Hok.
  assert (Href : forall y, reference_at env (store_to m w) y <-> reference_at env m y) by (intros y; split; apply shape_reference_at; [by symmetry|done]).
  assert (Href' : forall y, reference_at env m y -> reference_at env (mem s) y) by (intros y; by apply shape_reference_at).
  constructor; cbn [mem with_cardTable with_mem]; try done.
  - intros k. apply (queue_change env (mem s)); [|apply q1]. intros x Hx. destruct (q4 k x Hx) as (Hr & _). unfold next_of.
    apply (slot_kept (mem s) w); [done|by apply Href'|by left].
  - intros k x Hx. destruct (q4 k x Hx) as (Hr & Hm & H0). split; [by apply Href|]. split; [done|]. rewrite (slot_kept m w) by (done || by left). done.
  - intros x v Hx%Href Hv Hz. rewrite (slot_kept (mem s) w) in Hv by (done || (by apply Href') || by left). rewrite (slot_kept m w) by (done || by left). by apply (q5 x v).
  - intros k x Hx Hk. rewrite (shape_kind m) by done. by apply q6.
  - intros x Hx. destruct (q4 _ x Hx) as (Hr & _). rewrite (slot_kept (mem s) w) by (done || (by apply Href') || (right; by left)). by apply q7.
Qed.

Lemma store_spec m G P Q s w : gc m G [] P Q s -> linked P s -> store_ok env m w ->
  exists s', dvmSetFieldObject NDEBUG (st_object w) (st_offset w) (st_value w) s = Some s' /\
    gc (store_to m w) (fun y => G y \/ on_dirty env (cardTable s') y) [] P Q s' /\ linked P s' /\ adv s s' /\ stack s' = stack s.
Proof using.
  intros HG HL Hok. pose proof (gc_heap _ _ _ _ _ _ _ _ _ HG) as I. pose proof (hi_shape _ _ _ _ _ I) as Hms.
  pose proof (shape_store_ok env m (mem s) w Hms Hok) as Hok'. pose proof Hok' as (Hslot & Hno & Hval).
  assert (Hsh : same_shape (mem s) (store_to (mem s) w)) by by apply set_slot_shape.
  destruct (hi_cards _ _ _ _ _ I) as (hi & Hc & Hhi).
  assert (Hx : in_heap s (st_object w)) by (destruct Hslot as [v (o & Ho & _)%slot_object]; by eexists).
  assert (Hfin : forall t, covers t (heapBase env) hi -> cards_grow (cardTable s) t -> (st_value w <> 0 -> on_dirty env t (st_object w)) ->
    let s' := with_cardTable t (with_mem (store_to (mem s) w) s) in
    gc (store_to m w) (fun y => G y \/ on_dirty env (cardTable s') y) [] P Q s' /\ linked P s' /\ adv s s' /\ stack s' = stack s).
  { intros t Ht Hg Hd s'. pose proof HG as [_ Hq Hsc Hse].
    assert (Hin : forall y, in_heap s' y <-> in_heap s y) by (intros y; by apply shape_in_heap).
    assert (Hback : forall y, reference_at env (store_to m w) y -> reference_at env m y).
    { intros y. apply shape_reference_at. symmetry. apply set_slot_shape, Hok. }
    split; [|split; [|split; [|done]]].
    - constructor; [by apply (heap_inv_store m s w t hi)|by apply queues_inv_store| |].
      + intros y Hy Hm Hst HGy z Hz Hzz. change (marked s z). apply (strong_change env (mem s) _ (fun a b => a = st_object w /\ b = st_value w) y z Hsh) in Hz as [Hz|[-> ->]].
        * apply (Hsc y); try done; [by apply Hin|]. intros H. apply HGy. by left.
        * exfalso. apply HGy. right. by apply Hd.
        * intros off v. rewrite slot_stored by done. case_decide as E; [intros [= <-]; right; split; [apply E|done]|by left].
      + intros y Hy Hm Hst HGy Hye Hyr. apply Hback in Hyr. destruct (Hse y) as [(v & Hv & Hvm)|?]; try done; [by apply Hin|intros H; apply HGy; by left| |by right].
        left. exists v. split; [|done]. cbn [mem s' with_cardTable with_mem]. rewrite (slot_kept (mem s) w); [done|done| |right; by left]. by apply (shape_reference_at env m).
    - destruct HL as [HL1 HL2]. split; [|done]. intros k. rewrite HL1. by destruct k.
    - constructor; try done.
      + apply work_left_quiet; [|done]. eexists t, _. split; [reflexivity|done].
      + by apply (shape_size (mem s)). }
  unfold dvmSetFieldObject. rewrite store_field_set, bind_some by done.
  destruct (Z.eqb_spec (st_value w) 0) as [Hz|Hz]; cbn [negb].
  - eexists. split; [reflexivity|]. by apply (Hfin (cardTable s)).
  - assert (Hr : heapBase env <= st_object w < hi) by (split; [apply (bi_bounds _ _ (hi_bits _ _ _ _ _ I) _ Hx)|by apply Hhi]).
    destruct (mark_card_covers NDEBUG (cardTable s) (heapBase env) hi (st_object w) Hc Hr) as (t & Et & Ht & Hg & _).
    cbn [cardTable with_mem]. rewrite Et, bind_some. eexists. split; [reflexivity|]. apply (Hfin t); [done|done|]. intros _.
    by apply (marked_card_dirty NDEBUG env (cardTable s) hi _ t).
Qed.

End Store.
