(* ===== verification/GcConcurrent.v ===== *)
(** * Marking while the threads run

    The invariant of a collection, with dirty objects among those that are still to be
    scanned, holds through the scan and through the stores of the threads in between;
    after the second scan nothing is left. *)

From stdpp Require Import gmap.
From S2P Require Import Prelude Bits Search RegTypes HeapBitmap CardTable GcHeap MarkSweep GcMarking GcScanning GcQueues GcInvariant GcPending GcSteps GcMark GcReach GcReferences GcCollect GcRescan GcRescanned GcThreads.

Section Concurrent.
Context (NDEBUG : bool) (env : Env) (m0 : gmap Z Object) (writes : list Store).
Context (Hobjects : objects_ok env m0) (Hrefs : refs_ok env m0) (Hoffsets : offsets_ok env) (Hall : stores_ok env m0 writes).

Abbreviation anything := (fun _ : Z => True).
Abbreviation gc m := (gc env m all_kept anything).

Definition or_dirty (G : Z -> Prop) (s : Gc) (y : Z) : Prop := G y \/ on_dirty env (cardTable s) y.

(** What the threads stored so far, and what they will store, is [writes]. *)
Definition running (G : Z -> Prop) (p : Gc * list (list Store)) : Prop := exists past P Q,
  gc (stored past m0) (or_dirty G p.1) [] P Q p.1 /\ linked P p.1 /\ past ++ concat p.2 = writes.

Lemma stored_same past rest : past ++ rest = writes -> same_shape m0 (stored past m0).
Proof using Hall. intros E. apply (stored_shape env). intros w Hw. apply Hall. rewrite <- E. apply elem_of_app. by left. Qed.

Lemma or_dirty_adv (G G' : Z -> Prop) s s' y : adv s s' -> (G y -> G' y) -> or_dirty G s y -> or_dirty G' s' y.
Proof using. intros Ha HG [?|Hd]; [left; by apply HG|right]. by apply (on_dirty_grow env (cardTable s)); [apply Ha|]. Qed.

Lemma run_stores_spec G l : forall past rest P Q s, gc (stored past m0) (or_dirty G s) [] P Q s -> linked P s -> past ++ l ++ rest = writes ->
  exists s', run_stores NDEBUG l s = Some s' /\ gc (stored (past ++ l) m0) (or_dirty G s') [] P Q s' /\ linked P s' /\ adv s s' /\ stack s' = stack s.
Proof using Hoffsets Hall.
  unfold run_stores. induction l as [|w l IH]; intros past rest P Q s HG HL E; [exists s; rewrite app_nil_r; done|]. cbn [visit].
  destruct (store_spec NDEBUG env (stored past m0) (or_dirty G s) P Q s w HG HL) as (s1 & -> & HG1 & HL1 & Ha1 & Hst1).
  { apply (shape_store_ok env m0); [by apply (stored_same past (w :: l ++ rest))|]. apply Hall. rewrite <- E. rewrite !elem_of_app, elem_of_cons. tauto. }
  rewrite bind_some. destruct (IH (past ++ [w]) rest P Q s1) as (s2 & -> & HG2 & HL2 & Ha2 & Hst2).
  - rewrite stored_app. apply (gc_weaken env _ all_kept anything (fun y => or_dirty G s y \/ on_dirty env (cardTable s1) y) _ [] []); [|done|done].
    intros y _ _ _ [Hy|Hd]; [by apply (or_dirty_adv G G s)|by right].
  - done.
  - by rewrite <- E, <- !app_assoc.
  - exists s2. rewrite <- app_assoc in HG2. do 3 (split; [done|]). split; [by transitivity s1|congruence].
Qed.

Lemma run_threads_spec G p : running G p ->
  exists p', run_threads NDEBUG p = Some p' /\ running G p' /\ adv p.1 p'.1 /\ stack p'.1 = stack p.1.
Proof using Hoffsets Hall.
  intros (past & P & Q & HG & HL & E). destruct p as [s [|l rest]]; cbn [fst snd concat] in *.
  { exists (s, []). split; [done|]. split; [by exists past, P, Q|done]. }
  destruct (run_stores_spec G l past (concat rest) P Q s HG HL E) as (s1 & E1 & HG1 & HL1 & Ha1 & Hst1).
  exists (s1, rest). unfold run_threads. cbn [fst snd]. rewrite E1, bind_some. split; [done|]. split; [|done].
  exists (past ++ l), P, Q. cbn [fst snd]. by rewrite <- app_assoc.
Qed.

Lemma running_weaken (G G' : Z -> Prop) p : (forall x, in_heap p.1 x -> marked p.1 x -> G x -> G' x) -> running G p -> running G' p.
Proof using.
  intros HG (past & P & Q & H & HL & E). exists past, P, Q. split; [|done]. apply (gc_weaken env _ all_kept anything (or_dirty G p.1) _ [] []); [|done|done].
  intros y Hy Hm _ [Hg|Hd]; [left; by apply HG|by right].
Qed.

Lemma running_bits G p : running G p -> bits_inv env p.1.
Proof using. intros (past & P & Q & H & _). apply (gc_heap _ _ _ _ _ _ _ _ _ H). Qed.

(** Any object may be scanned at any time. *)
Lemma running_scan (G : Z -> Prop) s rest x : running G (s, rest) -> in_heap s x -> marked s x -> (forall y, in_heap s y -> finger s <= y -> G y) ->
  exists s', scanObject NDEBUG env x s = Some s' /\ running (fun y => G y /\ y <> x) (s', rest) /\ adv s s'.
Proof using Hobjects Hrefs Hoffsets Hall.
  intros (past & P & Q & HG & HL & E) Hx Hm Hf. cbn [fst snd] in *. pose proof (stored_same past (concat rest) E) as Hsh.
  destruct (scan_spec NDEBUG env (stored past m0) all_kept anything) with (G := or_dirty G s) (P := P) (Q := Q) (s := s) (x := x)
    as (s1 & P1 & Q1 & E1 & HG1 & HL1 & Ha1 & _); try done.
  - by apply (shape_objects_ok env m0).
  - by apply (shape_refs_ok env m0).
  - intros y Hy Hfy. left. by apply Hf.
  - exists s1. split; [done|]. split; [|done]. exists past, P1, Q1. split; [|done]. cbn [fst].
    apply (gc_weaken env _ all_kept anything (fun y => or_dirty G s y /\ y <> x) _ [] []); [|done|done].
    intros y _ _ _ [Hy Hne]. by apply (or_dirty_adv G _ s).
Qed.

Lemma running_finger G f s rest : running G (s, rest) -> running G (with_finger f s, rest).
Proof using.
  intros (past & P & Q & HG & HL & E). exists past, P, Q. split; [by apply gc_finger|]. split; [by apply linked_finger|done].
Qed.

Lemma concurrent_callback_spec (G : Z -> Prop) p x f : running G p -> in_heap p.1 x -> marked p.1 x -> (forall y, in_heap p.1 y -> f <= y -> G y) ->
  exists p', concurrentBitmapCallback NDEBUG env x f p = Some p' /\ running (fun y => G y /\ y <> x) p' /\ walks p.1 p'.1.
Proof using Hobjects Hrefs Hoffsets Hall.
  intros HG Hx Hm Hf. unfold concurrentBitmapCallback. destruct (run_threads_spec G p HG) as ([s1 rest] & -> & HG1 & Ha1 & _). rewrite bind_some. cbn [fst snd] in *.
  destruct (running_scan G (with_finger f s1) rest x) as (s2 & E2 & HG2 & Ha2).
  - by apply running_finger.
  - by apply (ad_heap _ _ Ha1).
  - by apply (ad_marked _ _ Ha1).
  - intros y Hy. apply Hf. by apply (ad_heap _ _ Ha1).
  - unfold scanBitmapCallback. rewrite E2, bind_some. exists (s2, rest). split; [done|]. split; [done|]. cbn [fst].
    apply (walks_step f). transitivity (with_finger f s1); [by apply adv_finger|done].
Qed.

Lemma concurrent_stack_spec fuel : forall p, running (fun _ => False) p -> finger p.1 = ULONG_MAX -> (work_left p.1 <= fuel)%nat ->
  exists p', concurrent_stack_loop NDEBUG env fuel p = Some p' /\ stack p'.1 = [] /\ running (fun _ => False) p' /\ adv p.1 p'.1.
Proof using Hobjects Hrefs Hoffsets Hall.
  induction fuel as [|fuel IH]; intros p HG Hfi Hw.
  { assert (Es : stack p.1 = []) by (destruct (stack p.1) eqn:Es; [done|]; unfold work_left in Hw; rewrite Es in Hw; cbn [length] in Hw; lia).
    exists p. cbn [concurrent_stack_loop]. by rewrite Es. }
  cbn [concurrent_stack_loop]. destruct (stack p.1) as [|x l] eqn:Es; [by exists p|].
  destruct (run_threads_spec _ p HG) as ([s1 rest] & -> & (past & P & Q & HG1 & HL1 & E) & Ha1 & Hst1). rewrite bind_some. cbn [fst snd] in *.
  rewrite Es in Hst1. destruct (pop_spec NDEBUG env (stored past m0) all_kept anything _ P Q s1 x l HG1 HL1 Hst1) as (-> & HG2 & HL2 & Hx & Hm & Hw2). rewrite bind_some.
  destruct (running_scan (fun y => False \/ y = x) (with_stack l s1) rest x) as (s2 & -> & HG3 & Ha3); try done.
  { exists past, P, Q. split; [|done]. cbn [fst]. apply (gc_weaken env _ all_kept anything (fun y => or_dirty (fun _ => False) s1 y \/ y = x) _ [] []); [|done|done].
    intros y _ _ _ [[?|Hd]|?]; [done|by right|left; by right]. }
  { intros y Hy Hfy. cbn [finger with_stack] in Hfy. rewrite (ad_finger _ _ Ha1), Hfi in Hfy. destruct (bi_bounds _ _ (running_bits _ _ HG) y); [by apply (ad_heap _ _ Ha1)|lia]. }
  rewrite bind_some. pose proof (ad_work _ _ Ha1). pose proof (ad_work _ _ Ha3).
  destruct (IH (s2, rest)) as (p' & -> & Est & HG4 & Ha4); cbn [fst] in *.
  - apply (running_weaken (fun y => (False \/ y = x) /\ y <> x)); [|done]. cbn [fst]. tauto.
  - by rewrite (ad_finger _ _ Ha3), <- Hfi, <- (ad_finger _ _ Ha1).
  - lia.
  - exists p'. split; [done|]. split; [done|]. split; [done|]. transitivity s1; [done|]. transitivity s2; [|done].
    constructor; try (by apply Ha3); lia.
Qed.

(** The scan, up to where the threads are stopped. *)
Lemma concurrent_scan_spec fuel p : running anything p -> finger p.1 = 0 -> base (bitmap p.1) + 256 * words (bitmap p.1) < 2 ^ 32 -> (size (mem p.1) <= fuel)%nat ->
  (exists x, in_heap p.1 x /\ marked p.1 x) ->
  exists p', concurrentScanMarkedObjects NDEBUG env fuel p = Some p' /\ stack p'.1 = [] /\ finger p'.1 = ULONG_MAX /\ running (fun _ => False) p' /\ walks p.1 p'.1.
Proof using Hobjects Hrefs Hoffsets Hall.
  intros HG Hf Hfit Hfuel Hex. unfold concurrentScanMarkedObjects. rewrite asserted_true by by apply Z.eqb_eq.
  destruct (scan_walk_spec env fst (concurrentBitmapCallback NDEBUG env) running) with (s := p) as (p1 & -> & HG1 & Hw1); try done.
  - apply running_bits.
  - apply running_weaken.
  - intros G p' x f. apply concurrent_callback_spec.
  - rewrite bind_some. pose proof (ad_size _ _ Hw1) as Hsz. cbn [mem with_finger] in Hsz. destruct p1 as [s1 rest]. cbn [fst snd] in *.
    pose proof (work_bound env s1 (running_bits _ _ HG1)) as Hwb.
    destruct (concurrent_stack_spec fuel (with_finger ULONG_MAX s1, rest)) as (p2 & -> & Est & HG2 & Ha2); cbn [fst]; try done.
    + by apply running_finger.
    + assert (E : work_left (with_finger ULONG_MAX s1) = work_left s1) by done. lia.
    + exists p2. split; [done|]. split; [done|]. split; [apply (ad_finger _ _ Ha2)|]. split; [done|].
      apply (walks_trans p.1 s1); [done|]. by apply (walks_step ULONG_MAX).
Qed.

End Concurrent.

(** ** From the roots to the second scan *)

(** What the second scan needs of the heap, and what the threads do: stores of references
    that are on the heap, and roots that are. *)
Record concurrent_ok (NDEBUG : bool) (env : Env) (roots' : list Z) (threads : list (list Store)) (s : Gc) : Prop := {
  cc_stores : stores_ok env (mem s) (concat threads);
  cc_roots : forall x, x ∈ roots' -> x <> 0 -> in_heap s x;
  cc_laid : laid_out env (mem s);
  cc_cards : exists hi, covers (cardTable s) (heapBase env) hi /\ heapLimit env < hi;
  cc_asserted : cards_asserted NDEBUG env (cardTable s);
  cc_limit : heapBase env <= heapLimit env /\ heapLimit env mod 128 = 0;
  cc_base : base (bitmap s) = heapBase env;
  cc_room : heapLimit env + 128 <= base (bitmap s) + 256 * words (bitmap s)
}.

Section Marked.
Context (NDEBUG : bool) (env : Env) (roots roots' : list Z) (threads : list (list Store)).

Abbreviation anything := (fun _ : Z => True).
Abbreviation gc m := (gc env m all_kept anything).

Lemma gc_cards m K R G E P Q t hi s : GcInvariant.gc env m K R G E P Q s -> covers t (heapBase env) hi -> (forall x, in_heap s x -> x < hi) ->
  GcInvariant.gc env m K R G E P Q (with_cardTable t s).
Proof using.
  intros [[[] ? ? ? ? ? ? ? ? ?] [] ? ?] Ht Hhi. constructor; [|by constructor|done|done]. constructor; try done. by exists hi.
Qed.

(** ** The phases *)

Lemma concurrent_run_spec fuel hi s s1 : ready env roots s -> concurrent_ok NDEBUG env roots' threads s -> (size (mem s) <= fuel)%nat ->
  covers (cardTable s) (heapBase env) hi -> heapLimit env < hi ->
  gc (mem s) anything [] null_pointers no_queues s1 -> linked null_pointers s1 -> finger s1 = 0 -> mem s1 = mem s ->
  base (bitmap s1) = base (bitmap s) -> words (bitmap s1) = words (bitmap s) -> liveBits s1 = liveBits s -> cardTable s1 = cardTable s ->
  (exists x, in_heap s1 x /\ marked s1 x) ->
  exists s' P Q, concurrentRun NDEBUG env fuel threads s1 = Some s' /\ gc (stored (concat threads) (mem s)) (or_dirty env (fun _ => False) s') [] P Q s' /\
    linked P s' /\ walkable env hi s' /\ cards_asserted NDEBUG env (cardTable s') /\ size (mem s') = size (mem s) /\ liveBits s' = liveBits s.
Proof using.
  intros H C Hfuel Hc Hhi HG1 HL1 Hf1 Em1 Hb1 Hw1 Hlv1 Ht1 Hex. unfold concurrentRun. rewrite <- Ht1 in Hc.
  destruct (clear_covers (cardTable s1) _ hi (liveBits s1) Hc) as (t & -> & Hct & Eot & Elt). rewrite bind_some.
  destruct (concurrent_scan_spec NDEBUG env (mem s) (concat threads) (rd_objects _ _ _ H) (rd_references _ _ _ H) (rd_offsets _ _ _ H) (cc_stores _ _ _ _ _ C) fuel
    (with_cardTable t s1, threads)) as ([s2 rest] & -> & _ & Hf2 & (past & P2 & Q2 & HG2 & HL2 & Eall) & Hwk2); cbn [fst]; try done.
  { exists [], null_pointers, no_queues. split; [|done]. cbn [fst stored fold_left]. apply (gc_cards _ _ _ _ _ _ _ t hi); [|done|].
    - apply (gc_weaken env _ all_kept anything anything _ [] []); [|done|done]. intros y _ _ _ _. by left.
    - intros x Hx. destruct (bi_bounds _ _ (hi_bits _ _ _ _ _ (gc_heap _ _ _ _ _ _ _ _ _ HG1)) x Hx) as [Hb _]. lia. }
  { cbn [bitmap with_cardTable]. rewrite Hb1, Hw1. apply (rd_fits _ _ _ H). }
  { cbn [mem with_cardTable]. by rewrite Em1. }
  rewrite bind_some. cbn [fst snd] in *.
  destruct (run_stores_spec NDEBUG env (mem s) (concat threads) (rd_offsets _ _ _ H) (cc_stores _ _ _ _ _ C) (fun _ => False) (concat rest) past [] P2 Q2 s2 HG2 HL2)
    as (s3 & -> & HG3 & HL3 & Ha3 & _); [by rewrite app_nil_r|]. rewrite Eall in *.
  destruct (hi_cards _ _ _ _ _ (gc_heap _ _ _ _ _ _ _ _ _ HG3)) as (hi' & Hc3 & _).
  assert (Hgrow : cards_grow t (cardTable s3)) by (transitivity (cardTable s2); [apply (ad_cards _ _ Hwk2)|apply Ha3]).
  exists s3, P2, Q2. do 3 (split; [done|]). split; [|split; [|split]].
  - destruct (cc_limit _ _ _ _ _ C) as [_ Hwhole]. constructor; try done; [by apply (covers_grow hi t _ _ hi')| | |by rewrite (ad_finger _ _ Ha3)];
      rewrite (ad_base _ _ Ha3), (ad_base _ _ Hwk2); cbn [bitmap with_cardTable with_finger]; rewrite Hb1; [apply C|].
    rewrite (ad_words _ _ Ha3), (ad_words _ _ Hwk2). cbn [bitmap with_cardTable with_finger]. rewrite Hw1. split; [apply C|apply H].
  - unfold cards_asserted. rewrite (cg_offset _ _ Hgrow), (cg_length _ _ Hgrow), Eot, Elt, Ht1. apply C.
  - rewrite (ad_size _ _ Ha3), (ad_size _ _ Hwk2). cbn [mem with_cardTable with_finger]. by rewrite Em1.
  - rewrite (ad_live _ _ Ha3), (ad_live _ _ Hwk2). done.
Qed.

(** With the threads stopped: their roots, and the objects on dirty cards. *)
Lemma remark_spec m fuel hi P Q s : gc m (or_dirty env (fun _ => False) s) [] P Q s -> linked P s -> walkable env hi s -> cards_asserted NDEBUG env (cardTable s) ->
  objects_ok env m -> refs_ok env m -> offsets_ok env -> laid_out env m -> heapBase env <= heapLimit env -> (size (mem s) <= fuel)%nat ->
  (forall x, x ∈ roots' -> x <> 0 -> in_heap s x) ->
  exists s' P' Q', (s ← dvmHeapReMarkRootSet NDEBUG env roots' s; dvmHeapReScanMarkedObjects NDEBUG env fuel s) = Some s' /\
    gc m (fun _ => False) [] P' Q' s' /\ linked P' s' /\ stack s' = [] /\ adv s s' /\
    forall x, x ∈ roots' -> x <> 0 -> marked s' x.
Proof using.
  intros HG HL W Has Hobj Href Hoff Hlaid Hle Hfuel Hroots. unfold dvmHeapReMarkRootSet. rewrite asserted_true by by apply Z.eqb_eq, W.
  pose proof (hi_bits _ _ _ _ _ (gc_heap _ _ _ _ _ _ _ _ _ HG)) as Ib.
  change (rootReMarkObjectVisitor NDEBUG env) with (markObject NDEBUG env).
  destruct (gc_visit NDEBUG env m all_kept anything _ [] P Q s roots' HG HL) as (s1 & -> & M & HG1 & HL1 & Ha1).
  { intros y Hy Hz. split; [by apply Hroots|]. split; [done|]. intros _ Hfy. rewrite (wk_finger _ _ _ W) in Hfy.
    destruct (bi_bounds _ _ Ib y (Hroots y Hy Hz)). lia. }
  rewrite bind_some. pose proof (walkable_adv _ _ _ _ _ _ _ _ _ _ _ W Ha1 HG1) as W1. pose proof (ad_cards _ _ Ha1) as Hg.
  destruct (rescan_spec NDEBUG env m all_kept anything hi Hobj Href Hoff Hlaid) with (fuel := fuel) (P := P) (Q := Q) (s := s1) as (s2 & P2 & Q2 & -> & Hst2 & HG2 & HL2 & Ha2); try done.
  { apply (gc_weaken env m all_kept anything (or_dirty env (fun _ => False) s) _ [] []); [|done|done]. intros y Hy _ _ [[]|Hd].
    split; [apply (bi_bounds _ _ (hi_bits _ _ _ _ _ (gc_heap _ _ _ _ _ _ _ _ _ HG1)) y Hy)|]. by apply (on_dirty_grow env (cardTable s)). }
  { unfold cards_asserted. by rewrite (cg_offset _ _ Hg), (cg_length _ _ Hg). }
  { by rewrite (ad_size _ _ Ha1). }
  exists s2, P2, Q2. do 4 (split; [done|]). split; [by transitivity s1|]. intros x Hx Hz.
  apply (ad_marked _ _ Ha2); [by apply (ad_heap _ _ Ha1), Hroots|]. apply (mk_marked _ _ _ _ M); [|by right]. by apply (bi_covered _ _ Ib), Hroots.
Qed.

(** When all is scanned, what the roots reach is marked. *)
Lemma scanned_reach m P Q s : gc m (fun _ => False) [] P Q s -> stack s = [] -> (forall x, x ∈ roots' -> x <> 0 -> is_Some (m !! x) /\ marked s x) ->
  forall x, reach env m roots' x -> is_Some (m !! x) /\ marked s x.
Proof using.
  intros HG Hst Hroots x Hr. pose proof (gc_heap _ _ _ _ _ _ _ _ _ HG) as I.
  assert (Hh : forall x, in_heap s x <-> is_Some (m !! x)) by (intros y; apply shape_in_heap, I).
  induction Hr as [x Hx Hz|x Hx Hlt|x y Hr [IHh IHm] Hs Hz]; [by apply Hroots|split; [done|]; apply (bi_immune _ _ (hi_bits _ _ _ _ _ I)); [by apply Hh|done]|].
  assert (Hs' : strong env (mem s) x y).
  { destruct (strong_change env (mem s) m (fun _ v => v = 0) x y) as [?|?]; [symmetry; apply I| |done|done|done].
    intros off v Hv. destruct (Z.eq_dec v 0) as [?|Hvz]; [by right|left]. by apply (hi_keeps _ _ _ _ _ I). }
  split; [apply Hh, (hi_refers _ _ _ _ _ I x y); [by left|done]|].
  apply (gc_scanned _ _ _ _ _ _ _ _ _ HG x); [by apply Hh|done|rewrite Hst; apply not_elem_of_nil|tauto|done|done].
Qed.

Lemma concurrent_mark_spec fuel s : ready env roots s -> concurrent_ok NDEBUG env roots' threads s -> (size (mem s) <= fuel)%nat -> (exists x, reach env (mem s) roots x) ->
  let m := stored (concat threads) (mem s) in
  exists s' P Q, concurrentMark NDEBUG env fuel roots roots' threads s = Some s' /\ stack s' = [] /\ finger s' = ULONG_MAX /\
    gc m (fun _ => False) [] P Q s' /\ linked P s' /\ same_shape (mem s) m /\ size (mem s') = size (mem s) /\ liveBits s' = liveBits s /\
    forall x, reach env m roots' x -> is_Some (m !! x) /\ marked s' x.
Proof using.
  intros H C Hfuel [x0 Hx0] m. assert (Hm : same_shape (mem s) m) by (apply (stored_shape env), C).
  destruct (mark_roots_spec NDEBUG env roots s anything H) as (s1 & E1 & HG1 & HL1 & Hf1 & _ & Em1 & Hb1 & Hw1 & Hlv1 & Ht1 & Hl1 & Hm1); [done|].
  destruct (cc_cards _ _ _ _ _ C) as (hi & Hc & Hhi). unfold concurrentMark. rewrite E1, bind_some.
  pose proof (Hl1 SoftList) as L1. pose proof (Hl1 WeakList) as L2. pose proof (Hl1 FinalizerList) as L3. pose proof (Hl1 PhantomList) as L4.
  pose proof (Hl1 ClearedList) as L5. cbn [list_of] in L1, L2, L3, L4, L5. rewrite asserted_true, bind_some by by rewrite L1, L2, L3, L4, L5.
  destruct (concurrent_run_spec fuel hi s s1) as (s2 & P2 & Q2 & E2 & HG2 & HL2 & W2 & Has2 & Hz2 & Hlv2); try done.
  { assert (Hh1 : forall x, in_heap s1 x <-> in_heap s x) by (intros x; unfold in_heap; by rewrite Em1).
    clear - H Hx0 Hh1 Hm1. induction Hx0 as [x Hx Hz|x Hx Hlt|x y Hx IH _ _]; [| |done].
    - exists x. pose proof (rd_roots _ _ _ H x Hx Hz) as Hh. split; [by apply Hh1|]. apply Hm1; [done|by right].
    - exists x. split; [by apply Hh1|]. apply Hm1; [done|by left]. }
  fold m in HG2. assert (Hroots : forall x, x ∈ roots' -> x <> 0 -> is_Some (m !! x)) by (intros x Hx Hz; apply (shape_in_heap (mem s) m x Hm), (cc_roots _ _ _ _ _ C x Hx Hz)).
  destruct (remark_spec m fuel hi P2 Q2 s2 HG2 HL2 W2 Has2) as (s3 & P3 & Q3 & E3 & HG3 & HL3 & Hst3 & Ha3 & Hr3); try done.
  { apply (shape_objects_ok env (mem s)); [done|apply H]. }
  { apply (shape_refs_ok env (mem s)); [done|apply H]. }
  { apply H. }
  { apply (laid_out_shape env (mem s)); [done|apply C]. }
  { apply C. }
  { by rewrite Hz2. }
  { intros x Hx Hz. apply (shape_in_heap m (mem s2)); [apply (gc_heap _ _ _ _ _ _ _ _ _ HG2)|by apply Hroots]. }
  exists s3, P3, Q3. split; [|split; [done|split; [by rewrite (ad_finger _ _ Ha3), (wk_finger _ _ _ W2)|]]].
  - rewrite E2, bind_some. exact E3.
  - do 3 (split; [done|]). split; [by rewrite (ad_size _ _ Ha3)|]. split; [by rewrite (ad_live _ _ Ha3)|].
    apply (scanned_reach m P3 Q3 s3 HG3 Hst3). intros x Hx Hz. split; [by apply Hroots|by apply Hr3].
Qed.

End Marked.

(** ** Properties *)

(** C6. A concurrent collection loses nothing. Between the scan of one object and the next
    the threads store to fields, as often as they like, and mark a card each time; when
    they are stopped, their roots may be others than at the start. The collection completes, whatever is
    stored when: no assertion fails, no card or bit outside the tables is looked at. Each
    object that is freed is freed once; none can be reached, by strong references from the
    roots the threads have at the end, in the heap as they left it; nothing that is kept
    refers to what was freed; and but for the words the collector links references with
    and the referents it clears, all fields have what the threads stored last. *)
Theorem concurrent_collection_is_safe NDEBUG env roots roots' threads fuel isPartial doPreserve limit s :
  dvmHeapSourceGetImmuneLimit env isPartial = Some limit -> let env' := with_immuneLimit limit env in
  let m := stored (concat threads) (mem s) in
  ready env' roots (dvmHeapBeginMarkStep s) -> parts_ok env s -> concurrent_ok NDEBUG env' roots' threads s -> finalizers_ok env' m roots' ->
  (size (mem s) <= fuel)%nat -> (exists x, reach env' (mem s) roots x) ->
  exists freed s', concurrentCollection NDEBUG env fuel isPartial doPreserve roots roots' threads s = Some (freed, s') /\
    NoDup freed /\ (forall x, x ∈ freed <-> in_heap s x /\ is_set (liveBits s') x = false) /\
    (forall x, reach env' m roots' x -> x ∉ freed) /\
    (forall x y, in_heap s x -> x ∉ freed -> refers env' (mem s') x y -> y <> 0 -> in_heap s y /\ y ∉ freed) /\
    forall x off, ~ (reference_at env' m x /\ may_change env' off) -> slot (mem s') x off = slot m x off.
Proof.
  intros Elim env' m H Hparts C Hfin Hfuel Hex. set (s0 := dvmHeapBeginMarkStep s) in *.
  destruct (concurrent_mark_spec NDEBUG env' roots roots' threads fuel s0 H) as (s1 & P & Q & E1 & Hst & Hf & HG & HL & Hm & Hsz & Hlv & Hreach); [by destruct C|done|done|].
  fold m in HG, Hm, Hreach. destruct (process_spec NDEBUG env' roots' fuel (negb doPreserve) m (fun _ => True) P Q s1 HG HL Hst Hf) as (s2 & E2 & Hc & Ha); try done.
  { apply (shape_objects_ok env' (mem s)); [done|apply (rd_objects _ _ _ H)]. }
  { apply (shape_refs_ok env' (mem s)); [done|apply (rd_references _ _ _ H)]. }
  { apply (rd_offsets _ _ _ H). }
  { by rewrite Hsz. }
  assert (Hsh : same_shape (mem s) (mem s2)) by (transitivity m; [done|apply Hc]).
  assert (Hin : forall x, in_heap s x <-> is_Some (m !! x)) by (intros x; symmetry; by apply (shape_in_heap (mem s))).
  destruct (swept NDEBUG env isPartial limit s s2 Elim Hparts) as (freed & Esw & Hnf & Hfr); try done; [apply Hc|by rewrite (ad_live _ _ Ha), Hlv|]. fold env' in Esw.
  assert (Hnot : forall x, in_heap s x -> x ∉ freed <-> marked s2 x) by (intros x; by apply not_freed).
  exists freed, (dvmHeapFinishMarkStep (dvmHeapSourceSwapBitmaps s2)). split; [|split; [done|split; [done|split; [|split]]]].
  - unfold concurrentCollection. rewrite Elim, bind_some. cbv zeta. fold env' s0. by rewrite E1, bind_some, E2, bind_some, Esw, bind_some.
  - intros x Hx. destruct (Hreach x Hx) as [Hh _]. apply Hnot; [by apply Hin|by apply (co_reached _ _ _ _ _ Hc)].
  - intros x y Hx Hn Hr Hz. destruct (co_closed _ _ _ _ _ Hc x y) as [Hy Hym]; [by apply Hin|by apply Hnot|exact Hr|done|].
    assert (Hys : in_heap s y) by by apply Hin. split; [done|by apply Hnot].
  - intros x off Hno. by apply (co_fixed _ _ _ _ _ Hc).
Qed.
