(* ===== verification/GcExample.v ===== *)
(** * A small heap

    Three classes, a weak reference that is the root and an object that only its referent
    refers to: a state that meets the conditions of the theorems on collections. *)

From stdpp Require Import gmap.
From S2P Require Import Prelude Bits Search RegTypes HeapBitmap CardTable GcHeap MarkSweep GcMarking GcScanning GcQueues GcInvariant GcPending GcSteps GcMark GcReach GcReferences GcCollect GcRescan GcRescanned GcThreads GcConcurrent.

(** [Class] at 4096, [Object] at 4256, [WeakReference] at 4416, its instance at 4576, an
    [Object] at 4600. *)
Definition ex_class (flags parent : Z) (fields : list Z) (refs : Z) : Object :=
  MkObject 4096 ∅ [] (Some (MkClassObject flags 2 0 parent 0 [] [] fields refs CLASS_WALK_SUPER 0 (8 + 4 * Z.of_nat (length fields)))).

Definition ex_weak : Object := MkObject 4416 {[8 := 4600; 12 := 0; 16 := 0; 20 := 0]} [] None.

Definition ex_mem : gmap Z Object :=
  {[4096 := ex_class CLASS_ISCLASS 4256 [] 0;
    4256 := ex_class 0 0 [] 0;
    4416 := ex_class (Z.lor CLASS_ISREFERENCE CLASS_ISWEAKREFERENCE) 4256 [12; 16; 20; 8] 3;
    4576 := ex_weak;
    4600 := MkObject 4256 ∅ [] None]}.

Definition ex_env : Env := MkEnv 4096 8 12 16 20 24 4096 4736 [(4096, 4864)] 0 6 false.

Definition ex_state : Gc :=
  MkGc ex_mem (MkBitmap [0x80000800; 0x800009; 0] 12 4096 4600) (dvmHeapBitmapInit 4096 768) [] 0 0 0 0 0 0 (dvmCardTableStartup 1024 1024 4096 65679).

Lemma ex_objects x o : ex_mem !! x = Some o ->
  (x = 4096 /\ o = ex_class CLASS_ISCLASS 4256 [] 0) \/ (x = 4256 /\ o = ex_class 0 0 [] 0) \/
  (x = 4416 /\ o = ex_class (Z.lor CLASS_ISREFERENCE CLASS_ISWEAKREFERENCE) 4256 [12; 16; 20; 8] 3) \/
  (x = 4576 /\ o = ex_weak) \/ (x = 4600 /\ o = MkObject 4256 ∅ [] None).
Proof. unfold ex_mem. rewrite !lookup_insert_Some, lookup_singleton_Some. naive_solver. Qed.

Lemma ex_addresses x : in_heap ex_state x <-> x ∈ [4096; 4256; 4416; 4576; 4600].
Proof.
  unfold in_heap. cbn [mem ex_state]. rewrite !elem_of_cons. split.
  - intros [o Ho]. apply ex_objects in Ho. naive_solver.
  - intros H. repeat (destruct H as [->|H]; [by eexists|]). by apply not_elem_of_nil in H.
Qed.

(** The addresses a bitmap covers can be listed. *)
Lemma covered_listed hb x : covered hb x -> x ∈ map (fun k => base hb + 8 * k) (seqZ 0 (32 * words hb)).
Proof.
  intros [H1 H2]. apply list_elem_of_In, in_map_iff. exists ((x - base hb) / 8). pose proof (Z_div_mod_eq_full (x - base hb) 8).
  split; [lia|]. apply list_elem_of_In, elem_of_seqZ. split; [apply Z.div_pos; lia|]. apply Z.div_lt_upper_bound; lia.
Qed.

Lemma covered_forall hb (f : Z -> bool) : forallb f (map (fun k => base hb + 8 * k) (seqZ 0 (32 * words hb))) = true -> forall x, covered hb x -> f x = true.
Proof. rewrite forallb_forall. intros H x Hx. apply H, list_elem_of_In. by apply covered_listed. Qed.

Lemma ex_ref_offsets c off : c ∈ [4096; 4256; 4416] -> ref_offset ex_mem c off <-> off ∈ chain_offsets ex_mem 3 c.
Proof.
  intros H. symmetry. apply chain_offsets_spec; [done|]. rewrite !elem_of_cons in H.
  assert (Hz : forall n, chain_ends ex_mem n 0) by (intros []; by left).
  assert (H1 : forall n, chain_ends ex_mem (S n) 4256) by (intros n; right; eexists; split; [reflexivity|]; split; [cbn; lia|apply Hz]).
  assert (H2 : forall n c fl fs r, class_at ex_mem c = asClass (ex_class fl 4256 fs r) -> (Z.to_nat r <= length fs)%nat -> chain_ends ex_mem (S (S n)) c).
  { intros n k fl fs r E Hl. right. eexists. split; [exact E|]. split; [exact Hl|apply H1]. }
  repeat destruct H as [->|H]; [by eapply H2; [reflexivity|cbn; lia]|apply H1|by eapply H2; [reflexivity|cbn; lia]|by apply not_elem_of_nil in H].
Qed.

Lemma ex_no_offsets c off : c ∈ [4096; 4256] -> ~ ref_offset ex_mem c off.
Proof.
  intros Hc Hr. apply ex_ref_offsets in Hr; [|rewrite !elem_of_cons in *; naive_solver].
  assert (E : forall c, c = 4096 \/ c = 4256 -> chain_offsets ex_mem 3 c = []) by (intros k [->| ->]; reflexivity).
  rewrite E in Hr; [by apply not_elem_of_nil in Hr|]. rewrite !elem_of_cons in Hc. destruct Hc as [?|[?|?%not_elem_of_nil]]; [by left|by right|done].
Qed.

Lemma ex_offsets off : ref_offset ex_mem 4416 off -> off = 12 \/ off = 16 \/ off = 20.
Proof.
  intros Hr. apply ex_ref_offsets in Hr; [|rewrite !elem_of_cons; tauto].
  assert (E : chain_offsets ex_mem 3 4416 = [12; 16; 20]) by reflexivity. rewrite E, !elem_of_cons in Hr.
  destruct Hr as [?|[?|[?|?%not_elem_of_nil]]]; tauto.
Qed.

Lemma ex_objects_ok : objects_ok ex_env ex_mem.
Proof.
  intros x o Ho. apply ex_objects in Ho.
  assert (Hz : forall n, chain_ends ex_mem n 0) by (intros []; by left).
  assert (H1 : forall n, chain_ends ex_mem (S n) 4256) by (intros n; right; eexists; split; [reflexivity|]; split; [cbn; lia|apply Hz]).
  assert (H2 : forall n c fl fs r, class_at ex_mem c = asClass (ex_class fl 4256 fs r) -> (Z.to_nat r <= length fs)%nat -> chain_ends ex_mem (S (S n)) c).
  { intros n k fl fs r E Hl. right. eexists. split; [exact E|]. split; [exact Hl|apply H1]. }
  change (size ex_mem) with 5%nat.
  split; [|split; [|split]].
  - destruct Ho as [[-> ->]|[[-> ->]|[[-> ->]|[[-> ->]|[-> ->]]]]]; eexists; (split; [reflexivity|]); (split; [by left|done]).
  - destruct Ho as [[-> ->]|[[-> ->]|[[-> ->]|[[-> ->]|[-> ->]]]]];
      [by eapply H2; [reflexivity|cbn; lia]|by eapply H2; [reflexivity|cbn; lia]|by eapply H2; [reflexivity|cbn; lia]|by eapply H2; [reflexivity|cbn; lia]|apply H1].
  - destruct Ho as [[-> ->]|[[-> ->]|[[-> ->]|[[-> ->]|[-> ->]]]]]; done || (intros _; by eexists).
  - intros _ off Hr. destruct Ho as [[-> ->]|[[-> ->]|[[-> ->]|[[-> ->]|[-> ->]]]]];
      try (exfalso; apply ex_no_offsets in Hr; [done|]; rewrite !elem_of_cons; cbn [clazz ex_class]; tauto).
    apply ex_offsets in Hr as [->|[->| ->]]; by eexists.
Qed.

Lemma ex_reference x : reference_at ex_env ex_mem x <-> x = 4576.
Proof.
  split; [|intros ->; by exists ex_weak]. intros (o & Ho & Hr). apply ex_objects in Ho.
  destruct Ho as [[-> ->]|[[-> ->]|[[-> ->]|[[-> ->]|[-> ->]]]]]; done.
Qed.

Lemma ex_refs_ok : refs_ok ex_env ex_mem.
Proof. intros x ->%ex_reference. do 4 (split; [by eexists|]). by exists WeakList. Qed.

Lemma ex_refers x y : refers ex_env ex_mem x y -> y <> 0 -> in_heap ex_state y.
Proof.
  intros H Hz. apply ex_addresses. rewrite !elem_of_cons. destruct H as [H|[->%ex_reference H]]; [|vm_compute in H; injection H as <-; tauto].
  destruct H as [o Ho|o off v Ho _ Hoff Hv|o v Ho Ha _ _|o k Ho _ Ek _|o k Ho _ Ek _|o k Ho _ Ek|o k c v Ho _ Ek Hv _|o k v Ho _ Ek _ Hv];
    apply ex_objects in Ho; destruct Ho as [[-> ->]|[[-> ->]|[[-> ->]|[[-> ->]|[-> ->]]]]];
    try (cbn [clazz ex_class ex_weak]; tauto); try (vm_compute in Hv; done); try (vm_compute in Ha; done);
    try (cbn in Ek; injection Ek as <-; cbn in Hz |- *; first [tauto|done]); try (cbn in Ek; injection Ek as <-; by apply not_elem_of_nil in Hv); try (by cbn in Ek).
  apply ex_offsets in Hoff as [->|[->| ->]]; vm_compute in Hv; by injection Hv as <-.
Qed.

(** ** Its bitmaps *)

Definition ex_live (x : Z) : bool := bool_decide (x ∈ [4096; 4256; 4416; 4576; 4600]).

Lemma ex_white a : covered (dvmHeapBitmapInit 4096 768) a -> is_set (dvmHeapBitmapInit 4096 768) a <> true.
Proof.
  intros Ha Hs. pose proof (covered_forall (dvmHeapBitmapInit 4096 768) (fun x => negb (is_set (dvmHeapBitmapInit 4096 768) x)) ltac:(by vm_compute) a Ha) as E.
  cbv beta in E. by rewrite Hs in E.
Qed.

Lemma ex_bits : bits_inv ex_env ex_state.
Proof.
  constructor; cbn [ex_state bitmap liveBits mem stack].
  - split; [repeat constructor; unfold inU; lia|]. cbn [base max dvmHeapBitmapInit]. split; [lia|]. split; [vm_compute; discriminate|].
    split; [vm_compute; split; [discriminate|reflexivity]|]. intros a Ha Hs. by apply ex_white in Hs.
  - split; [repeat constructor; unfold inU; lia|]. cbn [base max]. split; [lia|]. split; [vm_compute; discriminate|].
    split; [vm_compute; split; [discriminate|reflexivity]|]. intros a Ha Hs.
    pose proof (covered_forall (MkBitmap [0x80000800; 0x800009; 0] 12 4096 4600) (fun x => negb (is_set (MkBitmap [0x80000800; 0x800009; 0] 12 4096 4600) x) || (x <=? 4600)) ltac:(by vm_compute) a Ha) as E.
    cbv beta in E. rewrite Hs in E. cbn [negb orb] in E. lia.
  - reflexivity.
  - reflexivity.
  - intros x Hx%ex_addresses. rewrite !elem_of_cons in Hx. repeat destruct Hx as [->|Hx]; [by split..|by apply not_elem_of_nil in Hx].
  - intros x Hx. rewrite ex_addresses.
    pose proof (covered_forall (MkBitmap [0x80000800; 0x800009; 0] 12 4096 4600) (fun x => eqb (ex_live x) (is_set (MkBitmap [0x80000800; 0x800009; 0] 12 4096 4600) x)) ltac:(by vm_compute) x Hx) as E.
    apply eqb_prop in E. rewrite <- E. unfold ex_live. by rewrite bool_decide_eq_true.
  - intros x Hx%ex_addresses. rewrite !elem_of_cons in Hx. cbn [heapBase heapLimit ex_env]. change ULONG_MAX with 4294967295.
    repeat destruct Hx as [->|Hx]; [lia..|by apply not_elem_of_nil in Hx].
  - reflexivity.
  - intros x Hx Hs. by apply ex_white in Hs.
  - intros x Hx%ex_addresses Hlt. cbn [immuneLimit ex_env] in Hlt. rewrite !elem_of_cons in Hx.
    repeat destruct Hx as [->|Hx]; [lia..|by apply not_elem_of_nil in Hx].
  - by vm_compute.
  - split; [constructor|]. by intros x ?%not_elem_of_nil.
Qed.

Lemma ex_ready : ready ex_env [4576] ex_state.
Proof.
  pose proof ex_bits as I. constructor.
  - exact I.
  - intros x Hx Hm. pose proof (bi_covered _ _ I x Hx) as Hc.
    by apply ex_white in Hm.
  - done.
  - by vm_compute.
  - exists (4096 + 1024). split; [apply started_table; by vm_compute|]. intros x Hx%ex_addresses. rewrite !elem_of_cons in Hx.
    repeat destruct Hx as [->|Hx]; [lia..|by apply not_elem_of_nil in Hx].
  - apply ex_objects_ok.
  - apply ex_refs_ok.
  - unfold offsets_ok. apply (bool_decide_eq_true_1 _). by vm_compute.
  - apply ex_refers.
  - intros x ->%ex_reference H. by destruct H.
  - by intros [].
  - intros x ->%list_elem_of_singleton _. by eexists.
  - split.
    + exists (4096, 4864), []. split; [done|]. split; [by right|]. split; [done|]. split; [done|]. by intros h ?%not_elem_of_nil.
    + by vm_compute.
    + intros x Hx Hlt. cbn [immuneLimit ex_env] in Hlt. destruct (bi_covered _ _ I x Hx) as [Hc _]. cbn [base bitmap ex_state dvmHeapBitmapInit] in Hc. lia.
Qed.

Lemma ex_parts : parts_ok ex_env ex_state.
Proof.
  assert (H1 : forall h, h ∈ heaps ex_env -> h = (4096, 4864)) by (intros h Hh; by apply list_elem_of_singleton in Hh).
  split.
  - exists (4096, 4864), []. split; [done|]. by intros h ?%not_elem_of_nil.
  - intros h ->%H1. repeat split; by vm_compute.
  - split; [apply NoDup_singleton|]. by intros h h' x ->%H1 ->%H1.
  - intros h ->%H1. by vm_compute.
  - intros x Hx. exists (4096, 4864). split; [by apply list_elem_of_singleton|]. apply ex_addresses in Hx. rewrite !elem_of_cons in Hx. cbn [fst snd].
    repeat destruct Hx as [->|Hx]; [lia..|by apply not_elem_of_nil in Hx].
Qed.

Lemma ex_finalizers : finalizers_ok ex_env ex_mem [4576].
Proof. by intros x ->%ex_reference. Qed.

Lemma ex_reached : exists x, reach ex_env ex_mem [4576] x.
Proof. exists 4576. apply reach_root; [by apply list_elem_of_singleton|done]. Qed.

(** ** The theorems at it *)

Lemma marking_is_reachability_witness :
  exists s', (s1 ← dvmHeapMarkRootSet false ex_env [4576] ex_state; dvmHeapScanMarkedObjects false ex_env 5 s1) = Some s' /\
    stack s' = [] /\ forall x, in_heap ex_state x -> marked s' x <-> reach ex_env (mem ex_state) [4576] x.
Proof. apply (marking_is_reachability false ex_env [4576] 5 ex_state); [exact ex_ready|by vm_compute|exact ex_reached]. Defined.

Lemma references_are_processed_witness :
  exists s', (s ← dvmHeapMarkRootSet false ex_env [4576] ex_state; s ← dvmHeapScanMarkedObjects false ex_env 5 s; dvmHeapProcessReferences false ex_env 5 true s) = Some s' /\
    slot (mem s') 4576 8 = Some 0.
Proof.
  destruct (references_are_processed false ex_env [4576] 5 true ex_state ex_ready ex_finalizers ltac:(by vm_compute) ex_reached) as (s' & E & _).
  exists s'. split; [exact E|]. vm_compute in E. injection E as <-. reflexivity.
Defined.

Lemma collection_is_safe_witness :
  exists freed s', dvmCollectGarbageInternal false ex_env 5 false false [4576] ex_state = Some (freed, s') /\ freed = [4600].
Proof.
  destruct (collection_is_safe false ex_env [4576] 5 false false 0 ex_state eq_refl ex_ready ex_parts ex_finalizers ltac:(by vm_compute) ex_reached) as (freed & s' & E & _).
  exists freed, s'. split; [exact E|]. vm_compute in E. by injection E as <- _.
Defined.

(** ** Threads

    After the weak reference was scanned, a thread makes its queue the object that only its
    referent refers to. *)

Definition ex_threads : list (list Store) := [[]; [MkStore 4576 16 4600]].

Lemma ex_laid_out : laid_out ex_env ex_mem.
Proof.
  assert (Hsz : forall x, in_heap ex_state x -> exists n, size_at ex_env ex_mem x = Some n /\ (x, n) ∈ [(4096, 160); (4256, 160); (4416, 160); (4576, 24); (4600, 8)]).
  { intros x Hx%ex_addresses. rewrite !elem_of_cons in Hx.
    repeat destruct Hx as [->|Hx]; [eexists; (split; [reflexivity|]); rewrite !elem_of_cons; tauto..|by apply not_elem_of_nil in Hx]. }
  intros x Hx. destruct (Hsz x Hx) as (n & E & Hn). exists n. split; [done|]. rewrite !elem_of_cons in Hn.
  assert (Hy : forall y, is_Some (ex_mem !! y) -> y ∈ [4096; 4256; 4416; 4576; 4600]) by (intros y; apply ex_addresses).
  setoid_rewrite elem_of_cons in Hy. cbn [heapLimit ex_env].
  repeat destruct Hn as [[= -> ->]|Hn]; try (by apply not_elem_of_nil in Hn);
    (split; [lia|split; [by vm_compute|]]); intros y Hy'%Hy Hlt; rewrite ?elem_of_cons in Hy';
    repeat (destruct Hy' as [->|Hy']; [lia || by vm_compute|]); by apply not_elem_of_nil in Hy'.
Qed.

Lemma ex_concurrent : concurrent_ok false ex_env [4576] ex_threads ex_state.
Proof.
  constructor.
  - intros w ->%list_elem_of_singleton. split; [by eexists|]. split; [|intros _; by eexists]. intros [_ H]. by destruct H as [|[|]].
  - intros x ->%list_elem_of_singleton _. by eexists.
  - apply ex_laid_out.
  - exists (4096 + 1024). split; [apply started_table; by vm_compute|done].
  - right. by vm_compute.
  - by vm_compute.
  - done.
  - by vm_compute.
Qed.

Lemma ex_finalizers_stored : finalizers_ok ex_env (stored (concat ex_threads) ex_mem) [4576].
Proof.
  intros x Hx Hk. exfalso. rewrite (shape_kind ex_mem) in Hk by (apply (stored_shape ex_env), (cc_stores _ _ _ _ _ ex_concurrent)).
  apply (shape_reference_at ex_env _ ex_mem) in Hx; [|symmetry; apply (stored_shape ex_env), (cc_stores _ _ _ _ _ ex_concurrent)].
  by apply ex_reference in Hx as ->.
Qed.

Lemma concurrent_collection_is_safe_witness :
  exists freed s', concurrentCollection false ex_env 5 false false [4576] [4576] ex_threads ex_state = Some (freed, s') /\ freed = [] /\ slot (mem s') 4576 16 = Some 4600.
Proof.
  destruct (concurrent_collection_is_safe false ex_env [4576] [4576] ex_threads 5 false false 0 ex_state eq_refl ex_ready ex_parts ex_concurrent ex_finalizers_stored
    ltac:(by vm_compute) ex_reached) as (freed & s' & E & _).
  exists freed, s'. split; [exact E|]. vm_compute in E. by injection E as <- <-.
Defined.
