(* ===== verification/Sync.v ===== *)
(** * Monitors: [dalvik/vm/Sync.cpp]

    The lock of an object is a word: thin, with the owner and how often it entered, or the
    address of a monitor. The model has one object and any number of threads; each step of
    a thread has at most one access to what threads share. Memory is sequentially
    consistent. Fields that only the holder of a mutex accesses are read and written in the
    step of an access next to them. *)

From stdpp Require Import gmap.
From S2P Require Import Prelude Bits.

(** ** The lock word: [Sync.h] *)

Definition LW_SHAPE_THIN : Z := 0.
Definition LW_SHAPE_FAT : Z := 1.
Definition LW_SHAPE_MASK : Z := 0x1.
Definition LW_SHAPE (x : Z) : Z := Z.land x LW_SHAPE_MASK.

Definition LW_HASH_STATE_MASK : Z := 0x3.
Definition LW_HASH_STATE_SHIFT : Z := 1.

Definition LW_MONITOR (x : Z) : Z := Z.ldiff x (Z.lor (Z.shiftl LW_HASH_STATE_MASK LW_HASH_STATE_SHIFT) LW_SHAPE_MASK).

Definition LW_LOCK_OWNER_MASK : Z := 0xffff.
Definition LW_LOCK_OWNER_SHIFT : Z := 3.
Definition LW_LOCK_OWNER (x : Z) : Z := Z.land (Z.shiftr x LW_LOCK_OWNER_SHIFT) LW_LOCK_OWNER_MASK.

Definition LW_LOCK_COUNT_MASK : Z := 0x1fff.
Definition LW_LOCK_COUNT_SHIFT : Z := 19.
Definition LW_LOCK_COUNT (x : Z) : Z := Z.land (Z.shiftr x LW_LOCK_COUNT_SHIFT) LW_LOCK_COUNT_MASK.

(** ** State *)

(** Threads are told by their ids, 0 for [NULL] and for a mutex that is free. *)
Record Monitor := MkMonitor { owner : Z; lockCount : Z; lock : Z; waitSet : list Z }.

Inductive op :=
  | LockObject
  | UnlockObject
  | ObjectWait (msec nsec : Z) (interruptShouldThrow : bool)
  | ObjectNotify
  | ObjectNotifyAll
  | ThreadInterrupt (thread : Z).

Inductive result := Returns | IllegalMonitorState | IllegalArgument | Interrupted.

(** What is waited for: [msec], [nsec], [interruptShouldThrow]. *)
Abbreviation wait_args := (Z * Z * bool)%type.

(** Where [inflateMonitor] and [lockMonitor] return to. *)
Inductive inflate_return := ToLock | ToWait (a : wait_args).
Inductive lock_return := ToCaller | ToDone (prevLockCount : Z) (wasInterrupted interruptShouldThrow : bool).

(** The next access of a thread, with the locals that are still needed. *)
Inductive point :=
  | Idle
  | Done (r : result)
  (* dvmLockObject *)
  | LockRead | LockIncRead | LockIncWrite (lock : Z) | LockCheck | LockCas (thin : Z) | SpinRead | SpinCas (thin : Z) | LockFat
  (* inflateMonitor *)
  | Inflate (k : inflate_return) | InflateStore (thin : Z) (k : inflate_return)
  (* lockMonitor *)
  | MonOwner (mon : Z) (k : lock_return) | MonTry (mon : Z) (k : lock_return) | MonBlock (mon : Z) (k : lock_return) | MonSet (mon : Z) (k : lock_return)
  (* dvmUnlockObject, unlockMonitor *)
  | UnlockRead | UnlockStore (thin : Z) | UnlockDecRead | UnlockDecWrite (lock : Z) | UnlockFat | UnlockOwner (mon : Z) | UnlockHeld (mon : Z) | UnlockMutex (mon : Z)
  (* dvmObjectWait, waitMonitor *)
  | WaitRead (a : wait_args) | WaitMon (a : wait_args) | WaitOwner (mon : Z) (a : wait_args) | WaitRelease (mon : Z) (interruptShouldThrow : bool)
  | WaitLock (mon prevLockCount : Z) (interruptShouldThrow : bool) | WaitCheck (mon prevLockCount : Z) (interruptShouldThrow : bool)
  | WaitUnlock (mon prevLockCount : Z) (interruptShouldThrow : bool) | WaitCond (mon prevLockCount : Z) (interruptShouldThrow : bool)
  | WaitBlocked (mon prevLockCount : Z) (interruptShouldThrow : bool) | WaitRelock (mon prevLockCount : Z) (interruptShouldThrow : bool)
  | WaitWoken (mon prevLockCount : Z) (interruptShouldThrow : bool)
  | WaitDone (mon prevLockCount : Z) (wasInterrupted interruptShouldThrow : bool) | WaitClear (interruptShouldThrow : bool)
  (* dvmObjectNotify, dvmObjectNotifyAll; all: the latter *)
  | NotifyRead (all : bool) | NotifyOwner (mon : Z) (all : bool) | NotifyLoop (mon : Z) (all : bool)
  | NotifyLock (mon : Z) (all : bool) (thread : Z) | NotifySignal (mon : Z) (all : bool) (thread : Z) | NotifyUnlock (mon : Z) (all : bool) (thread : Z) (signalled : bool)
  (* dvmThreadInterrupt *)
  | IntrLock (thread : Z) | IntrCheck (thread : Z) | IntrRaise (thread : Z) | IntrSignal (thread : Z) | IntrUnlock (thread : Z).

(** [doing] and [held]: the call a thread is in, and how often it entered the monitor and
    did not leave; [waitCond]: whether the condition was signalled since the thread went to
    sleep. *)
Record Thread := MkThread {
  doing : op;
  at_ : point;
  held : Z;
  waitMutex : Z;
  waitMonitor : Z;
  interrupted : bool;
  waitCond : bool
}.

Definition set_at (p : point) (t : Thread) := MkThread (doing t) p (held t) (waitMutex t) (waitMonitor t) (interrupted t) (waitCond t).
Definition set_waitMutex (i : Z) (t : Thread) := MkThread (doing t) (at_ t) (held t) i (waitMonitor t) (interrupted t) (waitCond t).
Definition set_waitMonitor (m : Z) (t : Thread) := MkThread (doing t) (at_ t) (held t) (waitMutex t) m (interrupted t) (waitCond t).
Definition set_interrupted (b : bool) (t : Thread) := MkThread (doing t) (at_ t) (held t) (waitMutex t) (waitMonitor t) b (waitCond t).
Definition set_waitCond (b : bool) (t : Thread) := MkThread (doing t) (at_ t) (held t) (waitMutex t) (waitMonitor t) (interrupted t) b.

(** [monitor]: what is at the address [mon_addr], when it was allocated. *)
Record state := MkState { word : Z; monitor : option Monitor; threads : gmap Z Thread }.

Definition set_word (w : Z) (s : state) := MkState w (monitor s) (threads s).
Definition set_monitor (m : Monitor) (s : state) := MkState (word s) (Some m) (threads s).
Definition update (i : Z) (f : Thread -> Thread) (s : state) := MkState (word s) (monitor s) (alter f i (threads s)).

Definition goto (i : Z) (p : point) (s : state) : state := update i (set_at p) s.

(** [Failed]: an assertion fails, or memory is accessed that is not there. *)
Inductive outcome := Next (s : state) | Blocked | Failed.

Definition check (b : bool) (o : outcome) : outcome := if b then o else Failed.

Section Sync.
Context (mon_addr : Z).

Definition with_monitor (mon : Z) (s : state) (f : Monitor -> outcome) : outcome :=
  if mon =? mon_addr then match monitor s with Some m => f m | None => Failed end else Failed.

Definition with_thread (i : Z) (s : state) (f : Thread -> outcome) : outcome :=
  match threads s !! i with Some t => f t | None => Failed end.

(** [pthread_mutex_lock] of a mutex that is held by [holder]; it checks for errors. *)
Definition lock_mutex (i holder : Z) (o : outcome) : outcome :=
  if holder =? 0 then o else if holder =? i then Failed else Blocked.

(** [pthread_cond_signal]: it wakes the thread that sleeps. *)
Definition signal (t : Thread) : Thread := match at_ t with WaitBlocked _ _ _ => set_waitCond true t | _ => t end.

Definition waitSetAppend (l : list Z) (i : Z) : list Z := l ++ [i].

Definition waitSetRemove (i : Z) (l : list Z) : list Z := List.filter (fun j => negb (j =? i)) l.

Definition lock_returns (mon : Z) (k : lock_return) : point :=
  match k with ToCaller => Done Returns | ToDone prev was throws => WaitDone mon prev was throws end.

(** ** Steps *)

Section Step.
Context (i : Z) (s : state).

Definition dvmLockObject_step (p : point) : outcome :=
  match p with
  | LockRead =>
      let thin := word s in
      if LW_SHAPE thin =? LW_SHAPE_THIN then
        if LW_LOCK_OWNER thin =? i then Next (goto i LockIncRead s)
        else if LW_LOCK_OWNER thin =? 0 then Next (goto i (LockCas thin) s)
        else Next (goto i SpinRead s)
      else Next (goto i LockFat s)
  | LockIncRead => Next (goto i (LockIncWrite (u32 (word s + Z.shiftl 1 LW_LOCK_COUNT_SHIFT))) s)
  | LockIncWrite lock => Next (goto i LockCheck (set_word lock s))
  | LockCheck => Next (goto i (if LW_LOCK_COUNT (word s) =? LW_LOCK_COUNT_MASK then Inflate ToLock else Done Returns) s)
  | LockCas thin =>
      if word s =? thin then Next (goto i (Done Returns) (set_word (Z.lor thin (Z.shiftl i LW_LOCK_OWNER_SHIFT)) s))
      else Next (goto i LockRead s)
  | SpinRead =>
      let thin := word s in
      if LW_SHAPE thin =? LW_SHAPE_THIN then
        if LW_LOCK_OWNER thin =? 0 then Next (goto i (SpinCas thin) s) else Next (goto i SpinRead s)
      else Next (goto i LockRead s)
  | SpinCas thin =>
      if word s =? thin then Next (goto i (Inflate ToLock) (set_word (Z.lor thin (Z.shiftl i LW_LOCK_OWNER_SHIFT)) s))
      else Next (goto i SpinRead s)
  | LockFat => let mon := LW_MONITOR (word s) in check (negb (mon =? 0)) (Next (goto i (MonOwner mon ToCaller) s))
  | _ => Blocked
  end.

(** The new monitor is locked before another thread can see it. *)
Definition inflateMonitor_step (p : point) : outcome :=
  match p with
  | Inflate k =>
      let thin := word s in
      check ((LW_SHAPE thin =? LW_SHAPE_THIN) && (LW_LOCK_OWNER thin =? i)) (
      match monitor s with
      | Some _ => Failed
      | None =>
          let thin' := Z.lor (Z.land thin (Z.shiftl LW_HASH_STATE_MASK LW_HASH_STATE_SHIFT)) (Z.lor mon_addr LW_SHAPE_FAT) in
          Next (goto i (InflateStore thin' k) (set_monitor (MkMonitor i (LW_LOCK_COUNT thin) i []) s))
      end)
  | InflateStore thin k => Next (goto i (match k with ToLock => Done Returns | ToWait a => WaitMon a end) (set_word thin s))
  | _ => Blocked
  end.

Definition lockMonitor_step (p : point) : outcome :=
  match p with
  | MonOwner mon k =>
      with_monitor mon s (fun m =>
        if owner m =? i
        then match chkS 32 (lockCount m + 1) with
             | Some n => Next (goto i (lock_returns mon k) (set_monitor (MkMonitor (owner m) n (lock m) (waitSet m)) s))
             | None => Failed
             end
        else Next (goto i (MonTry mon k) s))
  | MonTry mon k =>
      with_monitor mon s (fun m =>
        if lock m =? 0 then Next (goto i (MonSet mon k) (set_monitor (MkMonitor (owner m) (lockCount m) i (waitSet m)) s))
        else Next (goto i (MonBlock mon k) s))
  | MonBlock mon k =>
      with_monitor mon s (fun m =>
        lock_mutex i (lock m) (Next (goto i (MonSet mon k) (set_monitor (MkMonitor (owner m) (lockCount m) i (waitSet m)) s))))
  | MonSet mon k =>
      with_monitor mon s (fun m =>
        check (lockCount m =? 0) (Next (goto i (lock_returns mon k) (set_monitor (MkMonitor i (lockCount m) (lock m) (waitSet m)) s))))
  | _ => Blocked
  end.

Definition unlockMonitor_step (p : point) : outcome :=
  match p with
  | UnlockOwner mon => with_monitor mon s (fun m => Next (goto i (if owner m =? i then UnlockHeld mon else Done IllegalMonitorState) s))
  | UnlockHeld mon =>
      with_monitor mon s (fun m =>
        if lockCount m =? 0 then Next (goto i (UnlockMutex mon) (set_monitor (MkMonitor 0 (lockCount m) (lock m) (waitSet m)) s))
        else Next (goto i (Done Returns) (set_monitor (MkMonitor (owner m) (lockCount m - 1) (lock m) (waitSet m)) s)))
  | UnlockMutex mon =>
      with_monitor mon s (fun m => check (lock m =? i) (Next (goto i (Done Returns) (set_monitor (MkMonitor (owner m) (lockCount m) 0 (waitSet m)) s))))
  | _ => Blocked
  end.

Definition dvmUnlockObject_step (p : point) : outcome :=
  match p with
  | UnlockRead =>
      let thin := word s in
      if LW_SHAPE thin =? LW_SHAPE_THIN then
        if LW_LOCK_OWNER thin =? i then
          if LW_LOCK_COUNT thin =? 0 then Next (goto i (UnlockStore (Z.land thin (Z.shiftl LW_HASH_STATE_MASK LW_HASH_STATE_SHIFT))) s)
          else Next (goto i UnlockDecRead s)
        else Next (goto i (Done IllegalMonitorState) s)
      else Next (goto i UnlockFat s)
  | UnlockStore thin => Next (goto i (Done Returns) (set_word thin s))
  | UnlockDecRead => Next (goto i (UnlockDecWrite (u32 (word s - Z.shiftl 1 LW_LOCK_COUNT_SHIFT))) s)
  | UnlockDecWrite lock => Next (goto i (Done Returns) (set_word lock s))
  | UnlockFat => let mon := LW_MONITOR (word s) in check (negb (mon =? 0)) (Next (goto i (UnlockOwner mon) s))
  | _ => unlockMonitor_step p
  end.

(** A thread that sleeps may wake at any time: it was signalled, its time is over, or for no
    reason. *)
Definition waitMonitor_step (t : Thread) (p : point) : outcome :=
  match p with
  | WaitOwner mon (msec, nsec, throws) =>
      with_monitor mon s (fun m =>
        if negb (owner m =? i) then Next (goto i (Done IllegalMonitorState) s)
        else if (msec <? 0) || (nsec <? 0) || (nsec >? 999999) then Next (goto i (Done IllegalArgument) s)
        else Next (goto i (WaitRelease mon throws) s))
  | WaitRelease mon throws =>
      with_monitor mon s (fun m => check ((owner m =? i) && negb (bool_decide (i ∈ waitSet m)))
        (Next (goto i (WaitLock mon (lockCount m) throws) (set_monitor (MkMonitor 0 0 (lock m) (waitSetAppend (waitSet m) i)) s))))
  | WaitLock mon prev throws => lock_mutex i (waitMutex t) (Next (goto i (WaitCheck mon prev throws) (update i (set_waitMutex i) s)))
  | WaitCheck mon prev throws =>
      check (waitMonitor t =? 0) (
        if interrupted t then Next (goto i (WaitDone mon prev true throws) (update i (set_waitMutex 0) s))
        else Next (goto i (WaitUnlock mon prev throws) (update i (set_waitMonitor mon) s)))
  | WaitUnlock mon prev throws =>
      with_monitor mon s (fun m => check (lock m =? i)
        (Next (goto i (WaitCond mon prev throws) (set_monitor (MkMonitor (owner m) (lockCount m) 0 (waitSet m)) s))))
  | WaitCond mon prev throws => Next (goto i (WaitBlocked mon prev throws) (update i (set_waitCond false ∘ set_waitMutex 0) s))
  | WaitBlocked mon prev throws => Next (goto i (WaitRelock mon prev throws) s)
  | WaitRelock mon prev throws => lock_mutex i (waitMutex t) (Next (goto i (WaitWoken mon prev throws) (update i (set_waitMutex i) s)))
  | WaitWoken mon prev throws =>
      Next (goto i (MonOwner mon (ToDone prev (interrupted t) throws)) (update i (set_interrupted false ∘ set_waitMonitor 0 ∘ set_waitMutex 0) s))
  | WaitDone mon prev was throws =>
      with_monitor mon s (fun m =>
        Next (goto i (if was then WaitClear throws else Done Returns) (set_monitor (MkMonitor i prev (lock m) (waitSetRemove i (waitSet m))) s)))
  | WaitClear throws => Next (goto i (Done (if throws then Interrupted else Returns)) (update i (set_interrupted false) s))
  | _ => Blocked
  end.

Definition dvmObjectWait_step (t : Thread) (p : point) : outcome :=
  match p with
  | WaitRead a =>
      let thin := word s in
      if LW_SHAPE thin =? LW_SHAPE_THIN then
        if negb (LW_LOCK_OWNER thin =? i) then Next (goto i (Done IllegalMonitorState) s) else Next (goto i (Inflate (ToWait a)) s)
      else Next (goto i (WaitMon a) s)
  | WaitMon a => Next (goto i (WaitOwner (LW_MONITOR (word s)) a) s)
  | _ => waitMonitor_step t p
  end.

Definition notifyMonitor_step (p : point) : outcome :=
  match p with
  | NotifyOwner mon all =>
      with_monitor mon s (fun m => Next (goto i (if negb (owner m =? i) then Done IllegalMonitorState else NotifyLoop mon all) s))
  | NotifyLoop mon all =>
      with_monitor mon s (fun m =>
        match waitSet m with
        | [] => Next (goto i (Done Returns) s)
        | thread :: rest => Next (goto i (NotifyLock mon all thread) (set_monitor (MkMonitor (owner m) (lockCount m) (lock m) rest) s))
        end)
  | NotifyLock mon all thread =>
      with_thread thread s (fun u => lock_mutex i (waitMutex u) (Next (goto i (NotifySignal mon all thread) (update thread (set_waitMutex i) s))))
  | NotifySignal mon all thread =>
      with_thread thread s (fun u =>
        if negb (waitMonitor u =? 0) then Next (goto i (NotifyUnlock mon all thread true) (update thread signal s))
        else Next (goto i (NotifyUnlock mon all thread false) s))
  | NotifyUnlock mon all thread signalled =>
      with_thread thread s (fun u =>
        Next (goto i (if signalled && negb all then Done Returns else NotifyLoop mon all) (update thread (set_waitMutex 0) s)))
  | _ => Blocked
  end.

Definition dvmObjectNotify_step (p : point) : outcome :=
  match p with
  | NotifyRead all =>
      let thin := word s in
      if LW_SHAPE thin =? LW_SHAPE_THIN then Next (goto i (Done (if negb (LW_LOCK_OWNER thin =? i) then IllegalMonitorState else Returns)) s)
      else Next (goto i (NotifyOwner (LW_MONITOR thin) all) s)
  | _ => notifyMonitor_step p
  end.

Definition dvmThreadInterrupt_step (p : point) : outcome :=
  match p with
  | IntrLock thread =>
      with_thread thread s (fun u => lock_mutex i (waitMutex u) (Next (goto i (IntrCheck thread) (update thread (set_waitMutex i) s))))
  | IntrCheck thread => with_thread thread s (fun u => Next (goto i (if interrupted u then IntrUnlock thread else IntrRaise thread) s))
  | IntrRaise thread => with_thread thread s (fun u => Next (goto i (IntrSignal thread) (update thread (set_interrupted true) s)))
  | IntrSignal thread =>
      with_thread thread s (fun u =>
        Next (goto i (IntrUnlock thread) (if negb (waitMonitor u =? 0) then update thread signal s else s)))
  | IntrUnlock thread => with_thread thread s (fun u => Next (goto i (Done Returns) (update thread (set_waitMutex 0) s)))
  | _ => Blocked
  end.

Definition thread_step : outcome :=
  with_thread i s (fun t =>
    match at_ t with
    | Idle | Done _ => Blocked
    | (LockRead | LockIncRead | LockIncWrite _ | LockCheck | LockCas _ | SpinRead | SpinCas _ | LockFat) as p => dvmLockObject_step p
    | (Inflate _ | InflateStore _ _) as p => inflateMonitor_step p
    | (MonOwner _ _ | MonTry _ _ | MonBlock _ _ | MonSet _ _) as p => lockMonitor_step p
    | (UnlockRead | UnlockStore _ | UnlockDecRead | UnlockDecWrite _ | UnlockFat | UnlockOwner _ | UnlockHeld _ | UnlockMutex _) as p => dvmUnlockObject_step p
    | (WaitRead _ | WaitMon _ | WaitOwner _ _ | WaitRelease _ _ | WaitLock _ _ _ | WaitCheck _ _ _ | WaitUnlock _ _ _ | WaitCond _ _ _ | WaitBlocked _ _ _
       | WaitRelock _ _ _ | WaitWoken _ _ _ | WaitDone _ _ _ _ | WaitClear _) as p => dvmObjectWait_step t p
    | (NotifyRead _ | NotifyOwner _ _ | NotifyLoop _ _ | NotifyLock _ _ _ | NotifySignal _ _ _ | NotifyUnlock _ _ _ _) as p => dvmObjectNotify_step p
    | (IntrLock _ | IntrCheck _ | IntrRaise _ | IntrSignal _ | IntrUnlock _) as p => dvmThreadInterrupt_step p
    end).

End Step.

(** ** Calls *)

Definition entry (o : op) : point :=
  match o with
  | LockObject => LockRead
  | UnlockObject => UnlockRead
  | ObjectWait msec nsec throws => WaitRead (msec, nsec, throws)
  | ObjectNotify => NotifyRead false
  | ObjectNotifyAll => NotifyRead true
  | ThreadInterrupt thread => IntrLock thread
  end.

Definition call (o : op) (t : Thread) : Thread := MkThread o (entry o) (held t) (waitMutex t) (waitMonitor t) (interrupted t) (waitCond t).

(** How often the monitor is held after the call. *)
Definition held_after (o : op) (r : result) (n : Z) : Z :=
  match o, r with
  | LockObject, _ => n + 1
  | UnlockObject, Returns => n - 1
  | _, _ => n
  end.

Definition return_ (t : Thread) (r : result) : Thread :=
  MkThread (doing t) Idle (held_after (doing t) r (held t)) (waitMutex t) (waitMonitor t) (interrupted t) (waitCond t).

Definition new_thread : Thread := MkThread LockObject Idle 0 0 0 false false.

(** How deep calls of [dvmLockObject] are nested. *)
Definition max_nesting : Z := 2 ^ 30.

Definition call_ok (o : op) (t : Thread) (s : state) : Prop :=
  match o with
  | LockObject => held t < max_nesting
  | ThreadInterrupt thread => is_Some (threads s !! thread)
  | _ => True
  end.

(** Threads start, call, run and return, in any order. *)
Inductive step : state -> state -> Prop :=
  | step_thread s i s' : thread_step i s = Next s' -> step s s'
  | step_call s i t o : threads s !! i = Some t -> at_ t = Idle -> call_ok o t s -> step s (update i (call o) s)
  | step_return s i t r : threads s !! i = Some t -> at_ t = Done r -> step s (update i (fun t => return_ t r) s)
  | step_start s i : 0 < i < 2 ^ 16 -> threads s !! i = None -> step s (MkState (word s) (monitor s) (<[i := new_thread]> (threads s))).

(** An object whose lock nobody holds; [hash]: its hash state. *)
Definition start (hash : Z) : state := MkState (Z.shiftl hash LW_HASH_STATE_SHIFT) None ∅.

Definition reachable (hash : Z) (s : state) : Prop := rtc step (start hash) s.

End Sync.
