(* ===== verification/SyncLock.v ===== *)
(** * Monitors: who holds the lock

    What the word and the monitor show, and what each thread may claim of it at the point
    where it is: the claims of all threads agree with what is shown, after every step. *)

From stdpp Require Import gmap.
From S2P Require Import Prelude Bits Sync.

(** ** Words *)

Definition thin_word (h o c : Z) : Z := 2 * h + 8 * o + 2 ^ 19 * c.

Definition in_thin (h o c : Z) : Prop := 0 <= h < 4 /\ 0 <= o < 2 ^ 16 /\ 0 <= c < 2 ^ 13.

Section Words.
Context (h o c : Z) (Hin : in_thin h o c).

Lemma thin_shape : LW_SHAPE (thin_word h o c) = LW_SHAPE_THIN.
Proof using. unfold LW_SHAPE, LW_SHAPE_MASK, LW_SHAPE_THIN, thin_word. rewrite (land_mask 1) by lia. dlia. Qed.

Lemma thin_owner : LW_LOCK_OWNER (thin_word h o c) = o.
Proof using Hin.
  destruct Hin as (? & ? & ?). unfold LW_LOCK_OWNER, LW_LOCK_OWNER_SHIFT, LW_LOCK_OWNER_MASK, thin_word.
  rewrite Z.shiftr_div_pow2, (land_mask 16) by lia. dlia.
Qed.

Lemma thin_count : LW_LOCK_COUNT (thin_word h o c) = c.
Proof using Hin.
  destruct Hin as (? & ? & ?). unfold LW_LOCK_COUNT, LW_LOCK_COUNT_SHIFT, LW_LOCK_COUNT_MASK, thin_word.
  rewrite Z.shiftr_div_pow2, (land_mask 13) by lia. dlia.
Qed.

Lemma thin_hash : Z.land (thin_word h o c) (Z.shiftl LW_HASH_STATE_MASK LW_HASH_STATE_SHIFT) = 2 * h.
Proof using Hin.
  destruct Hin as (? & ? & ?). change (Z.shiftl LW_HASH_STATE_MASK LW_HASH_STATE_SHIFT) with (Z.shiftl 3 1).
  assert (E : thin_word h o c = Z.shiftl (h + 4 * o + 2 ^ 18 * c) 1) by (rewrite Z.shiftl_mul_pow2 by lia; unfold thin_word; lia).
  rewrite E, <- Z.shiftl_land, (land_mask 2), Z.shiftl_mul_pow2 by lia. dlia.
Qed.

Lemma thin_inc : c + 1 < 2 ^ 13 -> u32 (thin_word h o c + Z.shiftl 1 LW_LOCK_COUNT_SHIFT) = thin_word h o (c + 1).
Proof using Hin.
  destruct Hin as (? & ? & ?). intros Hc. change (Z.shiftl 1 LW_LOCK_COUNT_SHIFT) with (2 ^ 19). rewrite wrapU_id; unfold inU, thin_word; lia.
Qed.

Lemma thin_dec : 0 < c -> u32 (thin_word h o c - Z.shiftl 1 LW_LOCK_COUNT_SHIFT) = thin_word h o (c - 1).
Proof using Hin.
  destruct Hin as (? & ? & ?). intros Hc. change (Z.shiftl 1 LW_LOCK_COUNT_SHIFT) with (2 ^ 19). rewrite wrapU_id; unfold inU, thin_word; lia.
Qed.

End Words.

Lemma thin_acquire h i : 0 <= h < 4 -> 0 < i < 2 ^ 16 -> Z.lor (thin_word h 0 0) (Z.shiftl i LW_LOCK_OWNER_SHIFT) = thin_word h i 0.
Proof. intros Hh Hi. unfold LW_LOCK_OWNER_SHIFT. rewrite lor_shiftl_add; unfold thin_word; lia. Qed.

Section Fat.
Context (mon_addr : Z) (Hmon : 0 < mon_addr < 2 ^ 32 /\ mon_addr mod 8 = 0).

Definition fat_word (h : Z) : Z := mon_addr + 2 * h + 1.

Lemma mon_shiftl : mon_addr = Z.shiftl (mon_addr / 8) 3.
Proof using Hmon. rewrite Z.shiftl_mul_pow2 by lia. dlia. Qed.

Lemma fat_publish h : 0 <= h < 4 -> Z.lor (2 * h) (Z.lor mon_addr LW_SHAPE_FAT) = fat_word h.
Proof using Hmon.
  intros Hh. unfold LW_SHAPE_FAT, fat_word. rewrite (Z.lor_comm mon_addr), Z.lor_assoc.
  assert (E : Z.lor (2 * h) 1 = 2 * h + 1).
  { rewrite Z.lor_comm. replace (2 * h) with (Z.shiftl h 1) by (rewrite Z.shiftl_mul_pow2 by lia; lia). rewrite lor_shiftl_add, Z.shiftl_mul_pow2 by lia. lia. }
  rewrite E, mon_shiftl at 1. rewrite lor_shiftl_add by lia. dlia.
Qed.

Lemma fat_shape h : LW_SHAPE (fat_word h) = LW_SHAPE_FAT.
Proof using Hmon. unfold LW_SHAPE, LW_SHAPE_MASK, LW_SHAPE_FAT, fat_word. rewrite (land_mask 1) by lia. dlia. Qed.

Lemma fat_monitor h : 0 <= h < 4 -> LW_MONITOR (fat_word h) = mon_addr.
Proof using Hmon.
  intros Hh. unfold LW_MONITOR. change (Z.lor (Z.shiftl LW_HASH_STATE_MASK LW_HASH_STATE_SHIFT) LW_SHAPE_MASK) with (Z.ones 3).
  rewrite Z.ldiff_ones_r, Z.shiftl_mul_pow2, Z.shiftr_div_pow2 by lia. unfold fat_word. dlia.
Qed.

(** ** What is shown *)

(** A thin lock with its hash state, owner and count, and the monitor its owner is about to
    publish; or a monitor. *)
Inductive lock_state := Thin (h o c : Z) (private : option Monitor) | Fat (h : Z) (m : Monitor).

Definition monitor_ok (m : Monitor) : Prop :=
  0 <= lockCount m /\ (owner m = 0 \/ owner m = lock m) /\ (owner m = 0 -> lockCount m = 0).

Definition shows (s : state) (l : lock_state) : Prop :=
  match l with
  | Thin h o c private =>
      word s = thin_word h o c /\ in_thin h o c /\ monitor s = private /\ (o = 0 -> c = 0 /\ private = None)
  | Fat h m => word s = fat_word h /\ 0 <= h < 4 /\ monitor s = Some m /\ monitor_ok m
  end.

Definition holder (l : lock_state) : Z := match l with Thin _ o _ _ => o | Fat _ m => lock m end.

(** ** What a thread claims *)

(** Nothing; to have entered [n] times; to hold the mutex but not own the monitor; to hold
    the mutex when it returns from a wait. *)
Inductive claim := Free | Holds (n : Z) | Bare | Restoring.

Definition held_claim (n : Z) : claim := if n =? 0 then Free else Holds n.

Definition claim_of (t : Thread) : claim :=
  match at_ t with
  | Idle => held_claim (held t)
  | Done r => held_claim (held_after (doing t) r (held t))
  | LockRead | LockIncRead | LockIncWrite _ | LockFat => held_claim (held t)
  | LockCheck => Holds (held t + 1)
  | LockCas _ | SpinRead | SpinCas _ => Free
  | Inflate ToLock | InflateStore _ ToLock => Holds (held t + 1)
  | Inflate (ToWait _) | InflateStore _ (ToWait _) => Holds (held t)
  | MonOwner _ ToCaller => held_claim (held t)
  | MonOwner _ (ToDone _ _ _) | MonTry _ _ | MonBlock _ _ => Free
  | MonSet _ _ => Bare
  | UnlockRead | UnlockFat | UnlockOwner _ => held_claim (held t)
  | UnlockStore _ | UnlockDecRead | UnlockDecWrite _ | UnlockHeld _ => Holds (held t)
  | UnlockMutex _ => Bare
  | WaitRead _ | WaitMon _ | WaitOwner _ _ => held_claim (held t)
  | WaitRelease _ _ => Holds (held t)
  | WaitLock _ _ _ | WaitCheck _ _ _ | WaitUnlock _ _ _ => Bare
  | WaitCond _ _ _ | WaitBlocked _ _ _ | WaitRelock _ _ _ | WaitWoken _ _ _ => Free
  | WaitDone _ _ _ _ => Restoring
  | WaitClear _ => Holds (held t)
  | NotifyRead _ | NotifyOwner _ _ => held_claim (held t)
  | NotifyLoop _ _ | NotifyLock _ _ _ | NotifySignal _ _ _ | NotifyUnlock _ _ _ _ => Holds (held t)
  | IntrLock _ | IntrCheck _ | IntrRaise _ | IntrSignal _ | IntrUnlock _ => held_claim (held t)
  end.

Definition agrees (l : lock_state) (i : Z) (k : claim) : Prop :=
  match k, l with
  | Free, _ => holder l <> i
  | Holds n, Thin _ o c _ => o = i /\ c = n - 1
  | Holds n, Fat _ m => lock m = i /\ owner m = i /\ lockCount m = n - 1
  | Bare, Fat _ m => lock m = i /\ owner m = 0
  | Restoring, Fat _ m => lock m = i /\ lockCount m = 0
  | _, Thin _ _ _ _ => False
  end.

(** The point itself: what it needs of the lock, and of the locals. *)
Definition is_fat (l : lock_state) : Prop := match l with Fat _ _ => True | _ => False end.

(** A thin lock that is about to be inflated at the limit of its count may show it. *)
Definition below_limit (l : lock_state) : Prop := match l with Thin _ _ c private => c < LW_LOCK_COUNT_MASK /\ private = None | _ => True end.

(** The thin lock the thread has, with the word it is about to store. *)
Definition thin_at (l : lock_state) (P : Z -> Z -> Z -> option Monitor -> Prop) : Prop := match l with Thin h o c p => P h o c p | _ => False end.

Definition ends_with (k : lock_return) (t : Thread) : Prop :=
  match k with
  | ToCaller => doing t = LockObject /\ held t = 0
  | ToDone prev _ _ => exists a b c, doing t = ObjectWait a b c /\ prev = held t - 1 /\ 0 < held t
  end.

Definition waits (t : Thread) : Prop := exists a b c, doing t = ObjectWait a b c.
Definition notifies (t : Thread) : Prop := doing t = ObjectNotify \/ doing t = ObjectNotifyAll.

Definition inflates (k : inflate_return) (t : Thread) : Prop :=
  match k with ToLock => doing t = LockObject | ToWait _ => waits t /\ 0 < held t end.

Definition at_point (l : lock_state) (i : Z) (t : Thread) : Prop :=
  match at_ t with
  | Idle => True
  | Done r => (doing t = LockObject -> r = Returns) /\
      ((doing t = UnlockObject \/ waits t \/ notifies t) -> (r = IllegalMonitorState <-> held t = 0)) /\ 0 <= held_after (doing t) r (held t)
  | LockRead => doing t = LockObject
  | LockFat => doing t = LockObject /\ is_fat l
  | LockIncRead => doing t = LockObject /\ 0 < held t /\ thin_at l (fun _ _ c p => c < LW_LOCK_COUNT_MASK /\ p = None)
  | LockIncWrite w => doing t = LockObject /\ 0 < held t /\ thin_at l (fun h o c p => c < LW_LOCK_COUNT_MASK /\ p = None /\ w = thin_word h o (c + 1))
  | LockCheck => doing t = LockObject /\ thin_at l (fun _ _ _ p => p = None)
  | LockCas w | SpinCas w => doing t = LockObject /\ held t = 0 /\ exists h, 0 <= h < 4 /\ w = thin_word h 0 0
  | SpinRead => doing t = LockObject /\ held t = 0
  | Inflate k => inflates k t /\ thin_at l (fun _ _ _ p => p = None)
  | InflateStore w k => inflates k t /\ thin_at l (fun h _ c p => p = Some (MkMonitor i c i []) /\ w = fat_word h)
  | MonOwner mon ToCaller => doing t = LockObject /\ mon = mon_addr /\ is_fat l
  | MonOwner mon k | MonTry mon k | MonBlock mon k | MonSet mon k => ends_with k t /\ mon = mon_addr /\ is_fat l
  | UnlockRead => doing t = UnlockObject
  | UnlockFat => doing t = UnlockObject /\ is_fat l
  | UnlockOwner mon => doing t = UnlockObject /\ mon = mon_addr /\ is_fat l
  | UnlockHeld mon => doing t = UnlockObject /\ mon = mon_addr /\ is_fat l /\ 0 < held t
  | UnlockStore w => doing t = UnlockObject /\ held t = 1 /\ thin_at l (fun h _ _ p => p = None /\ w = 2 * h)
  | UnlockDecRead => doing t = UnlockObject /\ 1 < held t /\ thin_at l (fun _ _ _ p => p = None)
  | UnlockDecWrite w => doing t = UnlockObject /\ 1 < held t /\ thin_at l (fun h o c p => p = None /\ w = thin_word h o (c - 1))
  | UnlockMutex mon => doing t = UnlockObject /\ mon = mon_addr /\ held t = 1
  | WaitRead _ => waits t
  | WaitMon _ => waits t /\ is_fat l
  | WaitOwner mon _ => waits t /\ mon = mon_addr /\ is_fat l
  | WaitRelease mon _ => waits t /\ mon = mon_addr /\ is_fat l /\ 0 < held t
  | WaitLock mon prev _ | WaitCheck mon prev _ | WaitUnlock mon prev _ | WaitCond mon prev _ | WaitBlocked mon prev _ | WaitRelock mon prev _ | WaitWoken mon prev _
  | WaitDone mon prev _ _ => waits t /\ mon = mon_addr /\ is_fat l /\ prev = held t - 1 /\ 0 < held t
  | WaitClear _ => waits t /\ 0 < held t
  | NotifyRead _ => notifies t
  | NotifyOwner mon _ => notifies t /\ mon = mon_addr /\ is_fat l
  | NotifyLoop mon _ | NotifyLock mon _ _ | NotifySignal mon _ _ | NotifyUnlock mon _ _ _ => notifies t /\ mon = mon_addr /\ is_fat l /\ 0 < held t
  | IntrLock _ | IntrCheck _ | IntrRaise _ | IntrSignal _ | IntrUnlock _ => exists j, doing t = ThreadInterrupt j
  end.

(** At these points a thin lock may have reached the limit, or a monitor that is not
    published yet. *)
Definition at_limit (t : Thread) : bool := match at_ t with LockCheck | Inflate _ | InflateStore _ _ => true | _ => false end.

Record thread_ok (l : lock_state) (i : Z) (t : Thread) : Prop := {
  ok_id : 0 < i < 2 ^ 16;
  ok_held : 0 <= held t <= max_nesting;
  ok_nesting : doing t = LockObject -> at_ t <> Idle -> held t < max_nesting;
  ok_claim : agrees l i (claim_of t);
  ok_point : at_point l i t;
  ok_limit : at_limit t = false -> claim_of t <> Free -> below_limit l
}.

(** The lock belongs to a thread that exists. *)
Record lock_inv (s : state) (l : lock_state) : Prop := {
  inv_shows : shows s l;
  inv_holder : holder l <> 0 -> is_Some (threads s !! holder l);
  inv_threads : forall i t, threads s !! i = Some t -> thread_ok l i t
}.

(** ** What others do *)

(** [i] has the lock, or nobody: before and after. *)
Definition moves (i : Z) (l l' : lock_state) : Prop :=
  l' = l \/ ((holder l = 0 \/ holder l = i) /\ (holder l' = 0 \/ holder l' = i) /\ (is_fat l -> is_fat l')).

Lemma free_unless_holder l j k : agrees l j k -> holder l <> j -> k = Free.
Proof using. destruct k, l; cbn [agrees holder]; try done; lia. Qed.

Lemma held_claim_free n : held_claim n = Free -> n = 0.
Proof using. unfold held_claim. by destruct (Z.eqb_spec n 0). Qed.

Lemma at_point_other l l' j t : at_point l j t -> claim_of t = Free -> (is_fat l -> is_fat l') -> at_point l' j t.
Proof using.
  clear Hmon. unfold at_point, claim_of. intros H Hc Hf. destruct (at_ t) eqn:E;
    repeat match goal with k : lock_return |- _ => destruct k | k : inflate_return |- _ => destruct k end;
    cbn [ends_with] in *; try done; try (by intuition eauto); try (exfalso; apply held_claim_free in Hc; lia).
Qed.

Lemma thread_ok_other i l l' j t : thread_ok l j t -> j <> i -> moves i l l' -> thread_ok l' j t.
Proof using.
  intros H Hj [->|(Hl & Hl' & Hf)]; [done|]. destruct H as [h1 h2 hn h3 h4 h5].
  assert (Hc : claim_of t = Free) by (apply (free_unless_holder l j); [done|lia]).
  constructor; try done; [rewrite Hc; cbn [agrees]; lia|by apply (at_point_other l)].
Qed.

(** ** Steps *)

(** The fields that the lock is not about may change. *)
Definition same (t t' : Thread) : Prop := doing t' = doing t /\ at_ t' = at_ t /\ held t' = held t.

Definition similar (ts ts' : gmap Z Thread) : Prop := forall j, option_Forall2 same (ts !! j) (ts' !! j).

Lemma similar_refl ts : similar ts ts.
Proof using. intros j. destruct (ts !! j); constructor. done. Qed.

Lemma similar_alter j f ts : (forall t, same t (f t)) -> similar ts (alter f j ts).
Proof using.
  intros Hf k. destruct (decide (j = k)) as [<-|Hne]; [rewrite lookup_alter_eq|rewrite lookup_alter_ne by done];
    destruct (ts !! _); constructor; [apply Hf|done].
Qed.

Lemma thread_ok_same l i t t' : same t t' -> thread_ok l i t -> thread_ok l i t'.
Proof using.
  intros (E1 & E2 & E3) [h1 h2 hn h3 h4 h5].
  assert (Ec : claim_of t' = claim_of t) by (unfold claim_of; by rewrite E1, E2, E3).
  constructor; rewrite ?Ec, ?E1, ?E2, ?E3; try done.
  - unfold at_point, inflates, ends_with, waits, notifies in *. by rewrite E1, E2, E3.
  - unfold at_limit. by rewrite E2.
Qed.

Definition good (o : outcome) : Prop := match o with Next s' => exists l', lock_inv s' l' | Blocked => True | Failed => False end.

Lemma goto_inv s s0 l l' i t p : lock_inv s l -> threads s !! i = Some t -> similar (threads s) (threads s0) -> shows s0 l' -> moves i l l' ->
  thread_ok l' i (set_at p t) -> lock_inv (goto i p s0) l'.
Proof using.
  intros [Hs Hh Ht] Hi Hsim Hs' Hm Hok. assert (Hdom : forall j, is_Some (threads s0 !! j) <-> is_Some (threads s !! j)).
  { intros j. destruct (Hsim j); split; intros []; by eexists. }
  assert (Hdom' : forall j, is_Some (threads (goto i p s0) !! j) <-> is_Some (threads s !! j)).
  { intros j. rewrite <- Hdom. cbn [goto update threads]. destruct (decide (i = j)) as [<-|Hne]; [rewrite lookup_alter_eq|by rewrite lookup_alter_ne].
    destruct (threads s0 !! i); split; intros []; try done; by eexists. }
  constructor; [done| |].
  - intros Hz. apply Hdom'. destruct Hm as [->|(_ & [?|Hl'] & _)]; [by apply Hh|done|]. rewrite Hl'. by eexists.
  - intros j u Hj. cbn [goto update threads] in Hj. pose proof (Hsim j) as Hs0. destruct (decide (i = j)) as [<-|Hne].
    + rewrite lookup_alter_eq in Hj. apply fmap_Some in Hj as (u0 & Hu0 & ->). rewrite Hi, Hu0 in Hs0. inversion_clear Hs0.
      apply (thread_ok_same l' i (set_at p t)); [|done]. destruct H as (E1 & E2 & E3). by split.
    + rewrite lookup_alter_ne in Hj by done. rewrite Hj in Hs0. inversion Hs0 as [u0 ? Hu E1|]. subst. apply (thread_ok_same l' j u0); [done|].
      apply (thread_ok_other i l); [|done|done]. by apply Ht.
Qed.

Lemma ok_goto l l' i t p : thread_ok l i t -> at_ t <> Idle -> agrees l' i (claim_of (set_at p t)) -> at_point l' i (set_at p t) ->
  (at_limit (set_at p t) = false -> claim_of (set_at p t) <> Free -> below_limit l') -> thread_ok l' i (set_at p t).
Proof using. intros [] Hne Hc Hp Hl. constructor; try done. intros Hd _. by apply ok_nesting0. Qed.

End Fat.
