(* ===== verification/SyncSteps.v ===== *)
(** * Monitors: the steps of threads keep the claims

    For every access of every routine: no assertion fails, and afterwards the claims of all
    threads agree with what the word and the monitor show. *)

From stdpp Require Import gmap.
From S2P Require Import Prelude Bits Sync SyncLock.

Section Steps.
Context (mon_addr : Z) (Hmon : 0 < mon_addr < 2 ^ 32 /\ mon_addr mod 8 = 0).

Abbreviation lock_inv := (lock_inv mon_addr).
Abbreviation thread_ok := (thread_ok mon_addr).
Abbreviation shows := (shows mon_addr).
Abbreviation good := (good mon_addr).
Abbreviation fat_word := (fat_word mon_addr).

(** What the other parts of the state, those for sleeping, have to do with it. *)
Definition sleep_ok (s : state) (i : Z) (t : Thread) : Prop :=
  match at_ t with
  | WaitRelease _ _ => forall m, monitor s = Some m -> i ∉ waitSet m
  | WaitLock _ _ _ | WaitRelock _ _ _ => waitMutex t <> i
  | WaitCheck _ _ _ => waitMonitor t = 0
  | NotifyLock _ _ j | IntrLock j => exists u, threads s !! j = Some u /\ waitMutex u <> i
  | NotifySignal _ _ j | NotifyUnlock _ _ j _ | IntrCheck j | IntrRaise j | IntrSignal j | IntrUnlock j => is_Some (threads s !! j)
  | _ => True
  end.

Lemma next_goto s s0 l l' i t p : lock_inv s l -> threads s !! i = Some t -> threads s0 = threads s -> shows s0 l' -> moves i l l' ->
  thread_ok l' i (set_at p t) -> good (Next (goto i p s0)).
Proof using. intros I Hi E Hs Hm Hok. exists l'. apply (goto_inv mon_addr s _ l l' i t); try done. rewrite E. apply similar_refl. Qed.

Lemma next_stay s s0 l i t p : lock_inv s l -> threads s !! i = Some t -> similar (threads s) (threads s0) -> word s0 = word s -> monitor s0 = monitor s ->
  thread_ok l i (set_at p t) -> good (Next (goto i p s0)).
Proof using.
  intros I Hi Hsim Ew Em Hok. exists l. apply (goto_inv mon_addr s _ l l i t); try done; [|by left].
  pose proof (inv_shows _ _ _ I). destruct l; cbn [SyncLock.shows] in *; by rewrite Ew, Em.
Qed.

(** The lock as its holder changes it. *)
Lemma moves_holder i l l' : holder l = 0 \/ holder l = i -> holder l' = 0 \/ holder l' = i -> (is_fat l -> is_fat l') -> moves i l l'.
Proof using. intros. by right. Qed.

(** Which shape a word has. *)
Lemma thin_is h o c : in_thin h o c -> (LW_SHAPE (thin_word h o c) =? LW_SHAPE_THIN) = true.
Proof using. intros H. by rewrite (thin_shape h o c). Qed.

Lemma fat_is h : (LW_SHAPE (fat_word h) =? LW_SHAPE_THIN) = false.
Proof using Hmon. by rewrite fat_shape. Qed.

(** What one who entered [n] times can tell. *)
Lemma held_thin h o c p i n : 0 <= n -> agrees (Thin h o c p) i (held_claim n) -> (o = i /\ 0 < n /\ c = n - 1) \/ (o <> i /\ n = 0).
Proof using. unfold held_claim. destruct (Z.eqb_spec n 0); cbn [agrees holder]; intros; [by right|left; lia]. Qed.

Lemma held_fat h m i n : 0 <= n -> monitor_ok m -> 0 < i -> agrees (Fat h m) i (held_claim n) ->
  (owner m = i /\ lock m = i /\ 0 < n /\ lockCount m = n - 1) \/ (owner m <> i /\ lock m <> i /\ n = 0).
Proof using.
  intros Hn (_ & Ho & _) Hi. unfold held_claim. destruct (Z.eqb_spec n 0); cbn [agrees holder]; intros Hc; [right|left; lia]. split; [lia|done].
Qed.

Lemma held_pos n : 0 < n -> held_claim n = Holds n.
Proof using. intros Hn. unfold held_claim. by rewrite (proj2 (Z.eqb_neq n 0)) by lia. Qed.

End Steps.

(** The facts about a thread at a point. *)
Ltac at_facts HI Hi E :=
  lazymatch type of HI with SyncLock.lock_inv ?a ?s ?l =>
    lazymatch type of Hi with threads _ !! ?i = Some ?t =>
      let Ok := fresh "Ok" in
      pose proof (inv_threads a s l HI i t Hi) as Ok; pose proof (ok_id _ _ _ _ Ok) as Hid; pose proof (ok_held _ _ _ _ Ok) as Hheld;
      pose proof (ok_nesting _ _ _ _ Ok) as Hnest; pose proof (ok_claim _ _ _ _ Ok) as Hclaim; pose proof (ok_point _ _ _ _ Ok) as Hpoint;
      pose proof (ok_limit _ _ _ _ Ok) as Hlimit; pose proof (inv_shows a s l HI) as Hshows;
      unfold claim_of, at_point, at_limit in Hclaim, Hpoint, Hlimit; rewrite E in Hclaim, Hpoint, Hlimit, Hnest;
      assert (Hidle : at_ t <> Idle) by (rewrite E; discriminate)
    end
  end.

Ltac at_start HI Hi E := intros HI Hi E; at_facts HI Hi E.

Ltac at_end := cbn [claim_of at_point at_limit agrees below_limit thin_at is_fat inflates ends_with holder set_at at_ doing held held_after owner lockCount lock
  Sync.monitor set_word set_monitor update word threads].

Ltac stay HI Hi := eapply next_stay; [exact HI|exact Hi|apply similar_refl|done|done|].
Ltac acts HI Hi L := eapply (next_goto _ _ _ _ L); [exact HI|exact Hi|done| |apply moves_holder; cbn [holder lock is_fat]; tauto|].
Ltac ok Ok Hidle := apply (ok_goto _ _ _ _ _ _ Ok Hidle); at_end; rewrite ?held_pos in * by lia; try done; try lia.

Section Lock.
Context (mon_addr : Z) (Hmon : 0 < mon_addr < 2 ^ 32 /\ mon_addr mod 8 = 0).

Abbreviation lock_inv := (lock_inv mon_addr).
Abbreviation good := (good mon_addr).
Abbreviation fat_word := (fat_word mon_addr).

Lemma thin_word_inj h o c h' o' c' : in_thin h o c -> in_thin h' o' c' -> thin_word h o c = thin_word h' o' c' -> h = h' /\ o = o' /\ c = c'.
Proof using. unfold in_thin, thin_word. lia. Qed.

Lemma free_thin h : 0 <= h < 4 -> in_thin h 0 0.
Proof using. unfold in_thin. lia. Qed.

(** A word that showed the lock free still shows it. *)
Lemma cas_shows s l h : 0 <= h < 4 -> shows mon_addr s l -> word s = thin_word h 0 0 -> l = Thin h 0 0 None.
Proof using Hmon.
  intros Hh Hs Hw. destruct l as [h' o c p|h' m].
  - destruct Hs as (E & Hin & Hm & H0). rewrite Hw in E. apply thin_word_inj in E as (-> & <- & <-); [|by apply free_thin|done].
    by destruct (H0 eq_refl) as [_ ->].
  - destruct Hs as (E & _). pose proof (fat_is mon_addr Hmon h') as F. rewrite <- E, Hw, thin_is in F by by apply free_thin. done.
Qed.

Lemma lock_done l i t : doing t = LockObject -> 0 <= held t -> at_point mon_addr l i (set_at (Done Returns) t).
Proof using.
  intros Hd Hh. cbn. rewrite Hd. cbn [held_after]. split; [done|]. split; [|lia]. unfold waits, notifies. cbn. intros [?|[(?&?&?&?)|[?|?]]]; congruence.
Qed.

Lemma lock_read_good s l i t : lock_inv s l -> threads s !! i = Some t -> at_ t = LockRead -> good (dvmLockObject_step i s LockRead).
Proof using Hmon.
  at_start HI Hi E. cbn [dvmLockObject_step]. destruct l as [h o c p|h m].
  - destruct Hshows as (-> & Hin & Hm & Ho0). rewrite thin_is, thin_owner by done.
    destruct (held_thin h o c p i (held t)) as [(-> & Hpos & Hc)|(Hne & H0)]; [lia|done| |].
    + rewrite Z.eqb_refl. stay HI Hi. ok Ok Hidle. by destruct (Hlimit eq_refl).
    + rewrite (proj2 (Z.eqb_neq o i)) by done. destruct (Z.eqb_spec o 0) as [->|Hz]; stay HI Hi; ok Ok Hidle.
      destruct (Ho0 eq_refl) as [-> ->]. split; [done|]. split; [done|]. exists h. by split; [apply Hin|].
  - destruct Hshows as (-> & Hh & Hm & Hok). rewrite fat_is by done. stay HI Hi. ok Ok Hidle.
Qed.

Lemma lock_again_good s l i t p : lock_inv s l -> threads s !! i = Some t -> at_ t = p ->
  match p with LockIncRead | LockIncWrite _ | LockCheck => good (dvmLockObject_step i s p) | _ => True end.
Proof using Hmon.
  intros HI Hi E. destruct p; try done; at_facts HI Hi E; cbn [dvmLockObject_step]; destruct l as [h o c p|h m]; try (by destruct Hpoint as (_ & _ & []));
    try (by destruct Hpoint as [_ []]).
  - destruct Hpoint as (Hd & Hpos & Hc & ->), Hshows as (-> & Hin & Hm & _). rewrite held_pos in * by done. destruct Hclaim as [-> Hc'].
    rewrite thin_inc by (done || (unfold LW_LOCK_COUNT_MASK in Hc; lia)). stay HI Hi. ok Ok Hidle.
  - destruct Hpoint as (Hd & Hpos & Hc & -> & ->), Hshows as (_ & Hin & Hm & _). rewrite held_pos in * by done. destruct Hclaim as [-> Hc'].
    acts HI Hi (Thin h i (c + 1) None).
    + cbn. unfold in_thin, LW_LOCK_COUNT_MASK in *. split_and!; done || lia.
    + ok Ok Hidle.
  - destruct Hpoint as (Hd & ->), Hshows as (-> & Hin & Hm & _), Hclaim as [-> Hc']. rewrite thin_count by done. stay HI Hi.
    destruct (Z.eqb_spec c LW_LOCK_COUNT_MASK); [ok Ok Hidle|].
    apply (ok_goto _ _ _ _ _ _ Ok Hidle); [| |]; cbn [claim_of set_at at_ doing held]; rewrite ?Hd; cbn [held_after]; rewrite ?held_pos by lia.
    + done.
    + by apply lock_done; [|lia].
    + intros _ _. split; [|done]. destruct Hin as (_ & _ & ?). unfold LW_LOCK_COUNT_MASK in *. lia.
Qed.

Lemma acquired_shows s h i m : 0 <= h < 4 -> 0 < i < 2 ^ 16 -> m = None -> monitor s = m ->
  shows mon_addr (set_word (Z.lor (thin_word h 0 0) (Z.shiftl i LW_LOCK_OWNER_SHIFT)) s) (Thin h i 0 None).
Proof using. intros Hh Hi -> Hm. rewrite thin_acquire by done. cbn. unfold in_thin. split_and!; done || lia. Qed.

Lemma lock_cas_good s l i t p : lock_inv s l -> threads s !! i = Some t -> at_ t = p ->
  match p with LockCas _ | SpinRead | SpinCas _ => good (dvmLockObject_step i s p) | _ => True end.
Proof using Hmon.
  intros HI Hi E. destruct p; try done; at_facts HI Hi E; cbn [dvmLockObject_step].
  - destruct Hpoint as (Hd & H0 & h & Hh & ->). destruct (Z.eqb_spec (word s) (thin_word h 0 0)) as [Ew|Hne].
    + pose proof (cas_shows s l h Hh Hshows Ew) as ->. acts HI Hi (Thin h i 0 None).
      * apply (acquired_shows s h i None); try done. apply Hshows.
      * apply (ok_goto _ _ _ _ _ _ Ok Hidle); [| |]; cbn [claim_of set_at at_ doing held]; rewrite ?Hd, ?H0; cbn [held_after]; rewrite ?held_pos by lia.
        -- cbn. lia.
        -- by apply lock_done; [|lia].
        -- intros _ _. by split.
    + stay HI Hi. ok Ok Hidle; by rewrite H0.
  - destruct Hpoint as (Hd & H0). assert (G : good (Next (goto i SpinRead s)) /\ good (Next (goto i LockRead s))).
    { split; stay HI Hi; ok Ok Hidle; by rewrite H0. }
    destruct (LW_SHAPE (word s) =? LW_SHAPE_THIN) eqn:Es; [|apply G]. destruct (LW_LOCK_OWNER (word s) =? 0) eqn:Eo; [|apply G].
    destruct l as [h o c p|h m]; [|by destruct Hshows as (Hw & _); rewrite Hw, fat_is in Es].
    destruct Hshows as (Hw & Hin & Hm & Ho0). rewrite Hw, thin_owner in * by done. apply Z.eqb_eq in Eo as ->.
    destruct (Ho0 eq_refl) as [-> ->]. stay HI Hi. ok Ok Hidle. split; [done|]. split; [done|]. exists h. by split; [apply Hin|].
  - destruct Hpoint as (Hd & H0 & h & Hh & ->). destruct (Z.eqb_spec (word s) (thin_word h 0 0)) as [Ew|Hne].
    + pose proof (cas_shows s l h Hh Hshows Ew) as ->. acts HI Hi (Thin h i 0 None).
      * apply (acquired_shows s h i None); try done. apply Hshows.
      * ok Ok Hidle.
    + stay HI Hi. ok Ok Hidle.
Qed.

Lemma fat_word_monitor s l : shows mon_addr s l -> is_fat l -> LW_MONITOR (word s) = mon_addr.
Proof using Hmon. destruct l as [|h m]; [done|]. intros (-> & Hh & _) _. by apply fat_monitor. Qed.

Lemma mon_addr_set : negb (mon_addr =? 0) = true.
Proof using Hmon. by rewrite (proj2 (Z.eqb_neq mon_addr 0)) by lia. Qed.

Lemma lock_fat_good s l i t : lock_inv s l -> threads s !! i = Some t -> at_ t = LockFat -> good (dvmLockObject_step i s LockFat).
Proof using Hmon.
  at_start HI Hi E. cbn [dvmLockObject_step]. destruct Hpoint as [Hd Hf]. rewrite (fat_word_monitor s l), mon_addr_set by done. cbn [check].
  stay HI Hi. ok Ok Hidle.
Qed.

Lemma inflate_good s l i t p : lock_inv s l -> threads s !! i = Some t -> at_ t = p ->
  match p with Inflate _ | InflateStore _ _ => good (inflateMonitor_step mon_addr i s p) | _ => True end.
Proof using Hmon.
  intros HI Hi E. destruct p; try done; at_facts HI Hi E; cbn [inflateMonitor_step]; destruct l as [h o c p|h m]; try (by destruct Hpoint as [_ []]).
  - destruct Hpoint as (Hk & ->), Hshows as (Hw & Hin & Hm & Ho0). assert (Hio : o = i) by (destruct k; apply Hclaim). subst o.
    rewrite Hw, thin_is, thin_owner, thin_count, thin_hash, Z.eqb_refl, Hm, fat_publish by done || apply Hin. cbn [andb check].
    acts HI Hi (Thin h i c (Some (MkMonitor i c i []))).
    + cbn. split_and!; try done; lia.
    + destruct k; ok Ok Hidle.
  - destruct Hpoint as (Hk & -> & ->), Hshows as (Hw & Hin & Hm & _). assert (Hio : o = i) by (destruct k; apply Hclaim). subst o.
    acts HI Hi (Fat h (MkMonitor i c i [])).
    + cbn. unfold monitor_ok. cbn. destruct Hin as (? & ? & ?). split_and!; try done; lia.
    + destruct k; cbn [inflates] in Hk.
      * apply (ok_goto _ _ _ _ _ _ Ok Hidle); [| |]; cbn [claim_of set_at at_ doing held]; rewrite ?Hk; cbn [held_after]; rewrite ?held_pos by lia.
        -- cbn in *. lia.
        -- by apply lock_done; [|lia].
        -- done.
      * destruct Hk as [Hk Hpos]. ok Ok Hidle.
Qed.

Lemma with_monitor_eq s m f : monitor s = Some m -> with_monitor mon_addr mon_addr s f = f m.
Proof using. intros E. unfold with_monitor. by rewrite Z.eqb_refl, E. Qed.

Lemma fat_shows s h m m' : shows mon_addr s (Fat h m) -> monitor_ok m' -> shows mon_addr (set_monitor m' s) (Fat h m').
Proof using. intros (Hw & Hh & _ & _) Hok. split; [done|]. by split. Qed.

(** Entering a monitor that is free. *)
Lemma take_good s h m i t mon k : lock_inv s (Fat h m) -> threads s !! i = Some t -> at_ t <> Idle -> ends_with k t -> lock m = 0 -> mon = mon_addr ->
  good (Next (goto i (MonSet mon k) (set_monitor (MkMonitor (owner m) (lockCount m) i (waitSet m)) s))).
Proof using Hmon.
  intros HI Hi Hidle Hk Hl ->. pose proof (inv_threads _ _ _ HI i t Hi) as Ok. pose proof (inv_shows _ _ _ HI) as Hshows.
  pose proof Hshows as (_ & _ & _ & H0 & Ho & Hc).
  acts HI Hi (Fat h (MkMonitor (owner m) (lockCount m) i (waitSet m))).
  - apply (fat_shows s h m); [done|]. unfold monitor_ok. cbn. lia.
  - ok Ok Hidle.
Qed.

Lemma mon_good s l i t p : lock_inv s l -> threads s !! i = Some t -> at_ t = p ->
  match p with MonOwner _ _ | MonTry _ _ | MonBlock _ _ | MonSet _ _ => good (lockMonitor_step mon_addr i s p) | _ => True end.
Proof using Hmon.
  intros HI Hi E. destruct p; try done; at_facts HI Hi E; cbn [lockMonitor_step].
  - assert (Hp : mon = mon_addr /\ is_fat l) by (destruct k; apply Hpoint). destruct Hp as [-> Hf], l as [|h m]; [done|]. pose proof Hshows as (_ & _ & Hm & Hok).
    rewrite (with_monitor_eq s m) by done. destruct (Z.eqb_spec (owner m) i) as [Ho|Ho].
    + destruct k as [|prev was throws]; [|exfalso; cbn in Hclaim; destruct Hok as (_ & ? & _); lia].
      destruct Hpoint as (Hd & _), (held_fat h m i (held t)) as [(_ & Hl & Hpos & Hc)|(? & _)]; try done; [lia|lia|].
      specialize (Hnest Hd ltac:(done)). rewrite chkS_Some by (unfold inS, max_nesting in *; lia).
      acts HI Hi (Fat h (MkMonitor (owner m) (lockCount m + 1) (lock m) (waitSet m))).
      * apply (fat_shows s h m); [done|]. destruct Hok as (? & ? & ?). unfold monitor_ok. cbn. lia.
      * apply (ok_goto _ _ _ _ _ _ Ok Hidle); [| |done]; cbn [lock_returns claim_of set_at at_ doing held]; rewrite ?Hd; cbn [held_after]; rewrite ?held_pos by lia.
        -- cbn. lia.
        -- by apply lock_done; [|lia].
    + destruct k as [|prev was throws]; stay HI Hi; ok Ok Hidle.
      * cbn. destruct (held_fat h m i (held t)) as [(? & _)|(_ & ? & _)]; try done; lia.
      * destruct (held_fat h m i (held t)) as [(? & _)|(_ & _ & ?)]; try done; try lia. by destruct Hpoint.
  - destruct Hpoint as (Hk & -> & Hf), l as [|h m]; [done|]. pose proof Hshows as (_ & _ & Hm & Hok). rewrite (with_monitor_eq s m) by done.
    destruct (Z.eqb_spec (lock m) 0); [by apply (take_good s h m i t)|]. stay HI Hi. ok Ok Hidle.
  - destruct Hpoint as (Hk & -> & Hf), l as [|h m]; [done|]. pose proof Hshows as (_ & _ & Hm & Hok). rewrite (with_monitor_eq s m) by done. unfold lock_mutex.
    destruct (Z.eqb_spec (lock m) 0); [by apply (take_good s h m i t)|]. by rewrite (proj2 (Z.eqb_neq _ _)) by apply Hclaim.
  - destruct Hpoint as (Hk & -> & Hf), l as [|h m]; [done|]. pose proof Hshows as (_ & _ & Hm & Hok). rewrite (with_monitor_eq s m) by done.
    destruct Hclaim as [Hl Ho], Hok as (? & ? & Hc). rewrite Hc by done. cbn [check Z.eqb].
    acts HI Hi (Fat h (MkMonitor i 0 (lock m) (waitSet m))).
    + apply (fat_shows s h m); [done|]. unfold monitor_ok. cbn. lia.
    + destruct k as [|prev was throws]; [|ok Ok Hidle].
      * destruct Hk as [Hd Hz]. apply (ok_goto _ _ _ _ _ _ Ok Hidle); [| |done]; cbn [lock_returns claim_of set_at at_ doing held]; rewrite ?Hd, ?Hz; cbn [held_after].
        -- by cbn.
        -- by apply lock_done; [|lia].
      * destruct Hk as (a & b & c & ? & ? & ?). split; [by eexists _, _, _|done].
Qed.

End Lock.

(** ** Monitors: leaving, waiting, notifying

    The remaining accesses keep the claims of the threads too. *)

Ltac ends Ok Hidle Hd := apply (ok_goto _ _ _ _ _ _ Ok Hidle); cbn [claim_of set_at at_ doing held]; rewrite ?Hd; cbn [held_after]; rewrite ?held_pos by lia.

Section Leave.
Context (mon_addr : Z) (Hmon : 0 < mon_addr < 2 ^ 32 /\ mon_addr mod 8 = 0).

Abbreviation lock_inv := (lock_inv mon_addr).
Abbreviation good := (good mon_addr).
Abbreviation fat_word := (fat_word mon_addr).

Lemma other_done l i t r : doing t <> LockObject -> (r = IllegalMonitorState <-> held t = 0) -> 0 <= held_after (doing t) r (held t) -> at_point mon_addr l i (set_at (Done r) t).
Proof using. intros Hd Hr Hh. by do 2 (split; [done|]). Qed.

Lemma unlock_read_good s l i t : lock_inv s l -> threads s !! i = Some t -> at_ t = UnlockRead -> good (dvmUnlockObject_step mon_addr i s UnlockRead).
Proof using Hmon.
  at_start HI Hi E. cbn [dvmUnlockObject_step unlockMonitor_step]. destruct l as [h o c p|h m].
  - destruct Hshows as (-> & Hin & Hm & Ho0). rewrite thin_is, thin_owner, thin_count, thin_hash by done.
    destruct (held_thin h o c p i (held t)) as [(-> & Hpos & Hc)|(Hne & H0)]; [lia|done| |].
    + rewrite Z.eqb_refl. rewrite held_pos in * by done. destruct (Hlimit eq_refl) as [Hc' ->]; [done|].
      destruct (Z.eqb_spec c 0); stay HI Hi; ok Ok Hidle; (split; [done|]); (split; [lia|done]).
    + rewrite (proj2 (Z.eqb_neq o i)) by done. stay HI Hi. ends Ok Hidle Hpoint.
      * by rewrite H0.
      * apply other_done; rewrite ?Hpoint; [done|done|cbn [held_after]; lia].
      * by rewrite H0.
  - destruct Hshows as (-> & Hh & Hm & Hok). rewrite fat_is by done. stay HI Hi. ok Ok Hidle.
Qed.

Lemma unlock_thin_good s l i t p : lock_inv s l -> threads s !! i = Some t -> at_ t = p ->
  match p with UnlockStore _ | UnlockDecRead | UnlockDecWrite _ => good (dvmUnlockObject_step mon_addr i s p) | _ => True end.
Proof using Hmon.
  intros HI Hi E. destruct p; try done; at_facts HI Hi E; cbn [dvmUnlockObject_step unlockMonitor_step]; (destruct l as [h o c p|h m]; [|by destruct Hpoint as (_ & _ & [])]).
  - destruct Hpoint as (Hd & H1 & -> & ->), Hshows as (_ & Hin & Hm & _), Hclaim as [-> Hc]. acts HI Hi (Thin h 0 0 None).
    + cbn. unfold thin_word. split_and!; try done; [lia|apply free_thin, Hin].
    + ends Ok Hidle Hd; rewrite ?H1; change (held_claim (1 - 1)) with Free; [cbn; lia| |done]. apply other_done; rewrite ?Hd; [done|split; [done|lia]|cbn [held_after]; lia].
  - destruct Hpoint as (Hd & Hpos & ->), Hshows as (-> & Hin & Hm & _), Hclaim as [-> Hc]. rewrite thin_dec by (done || lia). stay HI Hi. ok Ok Hidle.
  - destruct Hpoint as (Hd & Hpos & -> & ->), Hshows as (_ & Hin & Hm & _), Hclaim as [-> Hc]. acts HI Hi (Thin h i (c - 1) None).
    + cbn. unfold in_thin in *. split_and!; done || lia.
    + ends Ok Hidle Hd; [cbn; lia| |].
      * apply other_done; rewrite ?Hd; [done|split; [done|lia]|cbn [held_after]; lia].
      * intros _ _. split; [|done]. destruct Hin as (_ & _ & ?). unfold LW_LOCK_COUNT_MASK. lia.
Qed.

Lemma unlock_fat_good s l i t p : lock_inv s l -> threads s !! i = Some t -> at_ t = p ->
  match p with UnlockFat | UnlockOwner _ | UnlockHeld _ | UnlockMutex _ => good (dvmUnlockObject_step mon_addr i s p) | _ => True end.
Proof using Hmon.
  intros HI Hi E. destruct p; try done; at_facts HI Hi E; cbn [dvmUnlockObject_step unlockMonitor_step].
  - destruct Hpoint as [Hd Hf]. rewrite (fat_word_monitor mon_addr Hmon s l), mon_addr_set by done. cbn [check]. stay HI Hi. ok Ok Hidle.
  - destruct Hpoint as (Hd & -> & Hf), l as [|h m]; [done|]. pose proof Hshows as (_ & _ & Hm & Hok). rewrite (with_monitor_eq mon_addr s m) by done.
    destruct (held_fat h m i (held t)) as [(Ho & Hl & Hpos & Hc)|(Ho & Hl & H0)]; try done; try lia.
    + rewrite Ho, Z.eqb_refl. stay HI Hi. ok Ok Hidle.
    + rewrite (proj2 (Z.eqb_neq _ _)) by done. stay HI Hi. ends Ok Hidle Hd; rewrite ?H0; [done| |done].
      apply other_done; rewrite ?Hd; [done|done|cbn [held_after]; lia].
  - destruct Hpoint as (Hd & -> & Hf & Hpos), l as [|h m]; [done|]. pose proof Hshows as (_ & _ & Hm & Hok). rewrite (with_monitor_eq mon_addr s m) by done.
    destruct Hclaim as (Hl & Ho & Hc), Hok as (Hc0 & _ & _). destruct (Z.eqb_spec (lockCount m) 0) as [Hz|Hz].
    + acts HI Hi (Fat h (MkMonitor 0 (lockCount m) (lock m) (waitSet m))).
      * apply (fat_shows mon_addr s h m); [done|]. unfold monitor_ok. cbn. lia.
      * ok Ok Hidle. do 2 (split; [done|]). lia.
    + acts HI Hi (Fat h (MkMonitor (owner m) (lockCount m - 1) (lock m) (waitSet m))).
      * apply (fat_shows mon_addr s h m); [done|]. unfold monitor_ok. cbn. lia.
      * ends Ok Hidle Hd; [cbn; lia| |done]. apply other_done; rewrite ?Hd; [done|split; [done|lia]|cbn [held_after]; lia].
  - destruct Hpoint as (Hd & -> & H1). destruct l as [|h m]; [done|]. pose proof Hshows as (_ & _ & Hm & Hok). rewrite (with_monitor_eq mon_addr s m) by done.
    destruct Hclaim as (Hl & Ho), Hok as (Hc0 & _ & Hc). rewrite (proj2 (Z.eqb_eq _ _)) by done. cbn [check].
    acts HI Hi (Fat h (MkMonitor (owner m) (lockCount m) 0 (waitSet m))).
    + apply (fat_shows mon_addr s h m); [done|]. unfold monitor_ok. cbn. lia.
    + ends Ok Hidle Hd; rewrite ?H1; change (held_claim (1 - 1)) with Free; [cbn; lia| |done]. apply other_done; rewrite ?Hd; [done|split; [done|lia]|cbn [held_after]; lia].
Qed.

Lemma waits_not_lock t : waits t -> doing t <> LockObject.
Proof using. intros (a & b & c & E). by rewrite E. Qed.

Lemma waits_held t r n : waits t -> held_after (doing t) r n = n.
Proof using. intros (a & b & c & E). by rewrite E. Qed.

Lemma wait_start_good s l i t p : lock_inv s l -> threads s !! i = Some t -> at_ t = p ->
  match p with WaitRead _ | WaitMon _ | WaitOwner _ _ => good (dvmObjectWait_step mon_addr i s t p) | _ => True end.
Proof using Hmon.
  intros HI Hi E. destruct p; try done; at_facts HI Hi E; cbn [dvmObjectWait_step waitMonitor_step].
  - destruct l as [h o c p|h m].
    + destruct Hshows as (-> & Hin & Hm & Ho0). rewrite thin_is, thin_owner by done.
      destruct (held_thin h o c p i (held t)) as [(-> & Hpos & Hc)|(Hne & H0)]; [lia|done| |].
      * rewrite Z.eqb_refl. rewrite held_pos in * by done. destruct (Hlimit eq_refl) as [Hc' ->]; [done|]. cbn [negb]. stay HI Hi. ok Ok Hidle.
      * rewrite (proj2 (Z.eqb_neq o i)) by done. cbn [negb]. stay HI Hi. pose proof (waits_not_lock t Hpoint). pose proof (waits_held t IllegalMonitorState (held t) Hpoint) as Hr.
        ends Ok Hidle Hr; rewrite ?H0; [done| |done]. apply other_done; rewrite ?Hr; [done|done|lia].
    + destruct Hshows as (-> & Hh & Hm & Hok). rewrite fat_is by done. stay HI Hi. ok Ok Hidle.
  - destruct Hpoint as [Hd Hf]. rewrite (fat_word_monitor mon_addr Hmon s l) by done. stay HI Hi. ok Ok Hidle.
  - destruct Hpoint as (Hd & -> & Hf), l as [|h m]; [done|]. pose proof Hshows as (_ & _ & Hm & Hok). destruct a as [[msec nsec] throws].
    rewrite (with_monitor_eq mon_addr s m) by done. pose proof (waits_not_lock t Hd).
    destruct (held_fat h m i (held t)) as [(Ho & Hl & Hpos & Hc)|(Ho & Hl & H0)]; try done; try lia.
    + rewrite Ho, Z.eqb_refl. cbn [negb]. rewrite held_pos in * by done. pose proof (waits_held t IllegalArgument (held t) Hd) as Hr.
      destruct (_ || _); stay HI Hi; [|ok Ok Hidle]. ends Ok Hidle Hr; [done| |done]. apply other_done; rewrite ?Hr; [done|split; [done|lia]|lia].
    + rewrite (proj2 (Z.eqb_neq _ _)) by done. cbn [negb]. stay HI Hi. pose proof (waits_held t IllegalMonitorState (held t) Hd) as Hr.
      ends Ok Hidle Hr; rewrite ?H0; [done| |done]. apply other_done; rewrite ?Hr; [done|done|lia].
Qed.

(** Steps on the fields for sleeping. *)
Lemma next_field s s0 l i j t p f : lock_inv s l -> threads s !! i = Some t -> s0 = update j f s -> (forall u, same u (f u)) ->
  SyncLock.thread_ok mon_addr l i (set_at p t) -> good (Next (goto i p s0)).
Proof using. intros HI Hi -> Hf Hok. eapply next_stay; [exact HI|exact Hi|by apply similar_alter|done|done|done]. Qed.

Ltac field HI Hi j := eapply (next_field _ _ _ _ j); [exact HI|exact Hi|reflexivity|by intros ?; unfold same; split_and!|].

Lemma wait_release_good s l i t mon throws : lock_inv s l -> threads s !! i = Some t -> at_ t = WaitRelease mon throws -> sleep_ok s i t ->
  good (dvmObjectWait_step mon_addr i s t (WaitRelease mon throws)).
Proof using Hmon.
  at_start HI Hi E. intros Hsleep. unfold sleep_ok in Hsleep. rewrite E in Hsleep. cbn [dvmObjectWait_step waitMonitor_step].
  destruct Hpoint as (Hd & -> & Hf & Hpos), l as [|h m]; [done|]. pose proof Hshows as (_ & _ & Hm & Hok). rewrite (with_monitor_eq mon_addr s m) by done.
  destruct Hclaim as (Hl & Ho & Hc). rewrite (proj2 (Z.eqb_eq _ _)), bool_decide_eq_false_2 by auto. cbn [andb negb check].
  acts HI Hi (Fat h (MkMonitor 0 0 (lock m) (waitSet m ++ [i]))).
  - apply (fat_shows mon_addr s h m); [done|]. unfold monitor_ok. cbn. lia.
  - ok Ok Hidle.
Qed.

Lemma wait_sleep_good s l i t p : lock_inv s l -> threads s !! i = Some t -> at_ t = p -> sleep_ok s i t ->
  match p with WaitLock _ _ _ | WaitCheck _ _ _ | WaitUnlock _ _ _ => good (dvmObjectWait_step mon_addr i s t p) | _ => True end.
Proof using Hmon.
  intros HI Hi E Hsleep. unfold sleep_ok in Hsleep. rewrite E in Hsleep. destruct p; try done; at_facts HI Hi E; cbn [dvmObjectWait_step waitMonitor_step];
    destruct Hpoint as (Hd & -> & Hf & Hprev), l as [|h m]; try done.
  - unfold lock_mutex. destruct (waitMutex t =? 0); [|by rewrite (proj2 (Z.eqb_neq _ _))].
    field HI Hi i. ok Ok Hidle.
  - rewrite Hsleep. cbn [check Z.eqb]. destruct (interrupted t); field HI Hi i; ok Ok Hidle.
    destruct Hshows as (_ & _ & _ & _ & _ & Hc), Hclaim as [Hl Ho]. auto.
  - pose proof Hshows as (_ & _ & Hm & Hok). rewrite (with_monitor_eq mon_addr s m) by done. destruct Hclaim as (Hl & Ho). rewrite (proj2 (Z.eqb_eq _ _)) by done. cbn [check].
    destruct Hok as (Hc0 & _ & Hc). acts HI Hi (Fat h (MkMonitor (owner m) (lockCount m) 0 (waitSet m))).
    + apply (fat_shows mon_addr s h m); [done|]. unfold monitor_ok. cbn. lia.
    + ok Ok Hidle.
Qed.

Lemma wait_wake_good s l i t p : lock_inv s l -> threads s !! i = Some t -> at_ t = p -> sleep_ok s i t ->
  match p with WaitCond _ _ _ | WaitBlocked _ _ _ | WaitRelock _ _ _ | WaitWoken _ _ _ => good (dvmObjectWait_step mon_addr i s t p) | _ => True end.
Proof using Hmon.
  intros HI Hi E Hsleep. unfold sleep_ok in Hsleep. rewrite E in Hsleep. destruct p; try done; at_facts HI Hi E; cbn [dvmObjectWait_step waitMonitor_step];
    destruct Hpoint as (Hd & -> & Hf & Hprev & Hpos), l as [|h m]; try done.
  - field HI Hi i. ok Ok Hidle.
  - stay HI Hi. ok Ok Hidle.
  - unfold lock_mutex. destruct (waitMutex t =? 0); [|by rewrite (proj2 (Z.eqb_neq _ _))].
    field HI Hi i. ok Ok Hidle.
  - field HI Hi i. ok Ok Hidle. split; [|done]. destruct Hd as (a & b & c & Hd). by exists a, b, c.
Qed.

Lemma wait_end_good s l i t p : lock_inv s l -> threads s !! i = Some t -> at_ t = p ->
  match p with WaitDone _ _ _ _ | WaitClear _ => good (dvmObjectWait_step mon_addr i s t p) | _ => True end.
Proof using Hmon.
  intros HI Hi E. destruct p; try done; at_facts HI Hi E; cbn [dvmObjectWait_step waitMonitor_step].
  - destruct Hpoint as (Hd & -> & Hf & Hprev & Hpos), l as [|h m]; [done|]. pose proof Hshows as (_ & _ & Hm & Hok). rewrite (with_monitor_eq mon_addr s m) by done.
    destruct Hclaim as [Hl Hc]. acts HI Hi (Fat h (MkMonitor i prevLockCount (lock m) (waitSetRemove i (waitSet m)))).
    + apply (fat_shows mon_addr s h m); [done|]. unfold monitor_ok. cbn. lia.
    + destruct wasInterrupted; [ok Ok Hidle|]. pose proof (waits_not_lock t Hd). pose proof (waits_held t Returns (held t) Hd) as Hr.
      ends Ok Hidle Hr; [done| |done]. apply other_done; rewrite ?Hr; [done|split; [done|lia]|lia].
  - destruct Hpoint as [Hd Hpos]. pose proof (waits_not_lock t Hd). field HI Hi i.
    pose proof (waits_held t (if interruptShouldThrow then Interrupted else Returns) (held t) Hd) as Hr.
    ends Ok Hidle Hr; [done| |]; [|by intros _; apply Hlimit]. apply other_done; rewrite ?Hr; [done|destruct interruptShouldThrow; split; done || lia|lia].
Qed.

Lemma notifies_not_lock t : notifies t -> doing t <> LockObject.
Proof using. intros [E|E]; by rewrite E. Qed.

Lemma notifies_held t r n : notifies t -> held_after (doing t) r n = n.
Proof using. intros [E|E]; by rewrite E. Qed.

Lemma notify_start_good s l i t p : lock_inv s l -> threads s !! i = Some t -> at_ t = p ->
  match p with NotifyRead _ | NotifyOwner _ _ | NotifyLoop _ _ => good (dvmObjectNotify_step mon_addr i s p) | _ => True end.
Proof using Hmon.
  intros HI Hi E. destruct p; try done; at_facts HI Hi E; cbn [dvmObjectNotify_step notifyMonitor_step].
  - pose proof (notifies_not_lock t Hpoint). destruct l as [h o c p|h m].
    + destruct Hshows as (-> & Hin & Hm & Ho0). rewrite thin_is, thin_owner by done.
      destruct (held_thin h o c p i (held t)) as [(-> & Hpos & Hc)|(Hne & H0)]; [lia|done| |].
      * rewrite Z.eqb_refl. rewrite held_pos in * by done. cbn [negb]. stay HI Hi. pose proof (notifies_held t Returns (held t) Hpoint) as Hr.
        ends Ok Hidle Hr; [done| |by intros _; apply Hlimit]. apply other_done; rewrite ?Hr; [done|split; [done|lia]|lia].
      * rewrite (proj2 (Z.eqb_neq o i)) by done. cbn [negb]. stay HI Hi. pose proof (notifies_held t IllegalMonitorState (held t) Hpoint) as Hr.
        ends Ok Hidle Hr; rewrite ?H0; [done| |done]. apply other_done; rewrite ?Hr; [done|done|lia].
    + destruct Hshows as (-> & Hh & Hm & Hok). rewrite fat_is, fat_monitor by done. stay HI Hi. ok Ok Hidle.
  - destruct Hpoint as (Hd & -> & Hf), l as [|h m]; [done|]. pose proof Hshows as (_ & _ & Hm & Hok). rewrite (with_monitor_eq mon_addr s m) by done.
    pose proof (notifies_not_lock t Hd). destruct (held_fat h m i (held t)) as [(Ho & Hl & Hpos & Hc)|(Ho & Hl & H0)]; try done; try lia.
    + rewrite Ho, Z.eqb_refl. cbn [negb]. stay HI Hi. ok Ok Hidle.
    + rewrite (proj2 (Z.eqb_neq _ _)) by done. cbn [negb]. stay HI Hi. pose proof (notifies_held t IllegalMonitorState (held t) Hd) as Hr.
      ends Ok Hidle Hr; rewrite ?H0; [done| |done]. apply other_done; rewrite ?Hr; [done|done|lia].
  - destruct Hpoint as (Hd & -> & Hf & Hpos), l as [|h m]; [done|]. pose proof Hshows as (_ & _ & Hm & Hok). rewrite (with_monitor_eq mon_addr s m) by done.
    pose proof (notifies_not_lock t Hd). pose proof (notifies_held t Returns (held t) Hd) as Hr. destruct (waitSet m) as [|j rest].
    + stay HI Hi. ends Ok Hidle Hr; [done| |done]. apply other_done; rewrite ?Hr; [done|split; [done|lia]|lia].
    + destruct Hclaim as (Hl & Hc). acts HI Hi (Fat h (MkMonitor (owner m) (lockCount m) (lock m) rest)); [by apply (fat_shows mon_addr s h m)|ok Ok Hidle].
Qed.

Lemma with_thread_eq s j u f : threads s !! j = Some u -> with_thread j s f = f u.
Proof using. intros E. unfold with_thread. by rewrite E. Qed.

Lemma signal_same u : same u (signal u).
Proof using. unfold signal. by destruct (at_ u) eqn:E. Qed.

Lemma notify_signal_good s l i t p : lock_inv s l -> threads s !! i = Some t -> at_ t = p -> sleep_ok s i t ->
  match p with NotifyLock _ _ _ | NotifySignal _ _ _ | NotifyUnlock _ _ _ _ => good (dvmObjectNotify_step mon_addr i s p) | _ => True end.
Proof using Hmon.
  intros HI Hi E Hsleep. unfold sleep_ok in Hsleep. rewrite E in Hsleep. destruct p; try done; at_facts HI Hi E; cbn [dvmObjectNotify_step notifyMonitor_step];
    destruct Hpoint as (Hd & -> & Hf & Hpos); pose proof (notifies_not_lock t Hd).
  - destruct Hsleep as (u & Hu & Hw). rewrite (with_thread_eq s _ u) by done. unfold lock_mutex.
    destruct (waitMutex u =? 0); [|by rewrite (proj2 (Z.eqb_neq _ _))]. field HI Hi thread. ok Ok Hidle.
  - destruct Hsleep as [u Hu]. rewrite (with_thread_eq s _ u) by done. destruct (negb (waitMonitor u =? 0)); [|stay HI Hi; ok Ok Hidle].
    eapply (next_field _ _ _ _ thread); [exact HI|exact Hi|reflexivity|apply signal_same|]. ok Ok Hidle.
  - destruct Hsleep as [u Hu]. rewrite (with_thread_eq s _ u) by done. field HI Hi thread.
    destruct (signalled && negb all); [|ok Ok Hidle]. pose proof (notifies_held t Returns (held t) Hd) as Hr.
    ends Ok Hidle Hr; [done| |by intros _; apply Hlimit]. apply other_done; rewrite ?Hr; [done|split; [done|lia]|lia].
Qed.

Lemma interrupt_good s l i t p : lock_inv s l -> threads s !! i = Some t -> at_ t = p -> sleep_ok s i t ->
  match p with IntrLock _ | IntrCheck _ | IntrRaise _ | IntrSignal _ | IntrUnlock _ => good (dvmThreadInterrupt_step i s p) | _ => True end.
Proof using Hmon.
  intros HI Hi E Hsleep. unfold sleep_ok in Hsleep. rewrite E in Hsleep. destruct p; try done; at_facts HI Hi E; cbn [dvmThreadInterrupt_step];
    destruct Hpoint as [j Hd].
  - destruct Hsleep as (u & Hu & Hw). rewrite (with_thread_eq s _ u) by done. unfold lock_mutex.
    destruct (waitMutex u =? 0); [|by rewrite (proj2 (Z.eqb_neq _ _))]. field HI Hi thread. ok Ok Hidle. by exists j.
  - destruct Hsleep as [u Hu]. rewrite (with_thread_eq s _ u) by done. stay HI Hi. destruct (interrupted u); ok Ok Hidle; by exists j.
  - destruct Hsleep as [u Hu]. rewrite (with_thread_eq s _ u) by done. field HI Hi thread. ok Ok Hidle. by exists j.
  - destruct Hsleep as [u Hu]. rewrite (with_thread_eq s _ u) by done. destruct (negb (waitMonitor u =? 0)).
    + eapply (next_field _ _ _ _ thread); [exact HI|exact Hi|reflexivity|apply signal_same|]. ok Ok Hidle. by exists j.
    + stay HI Hi. ok Ok Hidle. by exists j.
  - destruct Hsleep as [u Hu]. rewrite (with_thread_eq s _ u) by done. field HI Hi thread. ends Ok Hidle Hd; [done| |by intros _; apply Hlimit].
    cbn. rewrite Hd. cbn [held_after]. split; [done|]. split; [|lia]. unfold waits, notifies. cbn. rewrite Hd. intros [?|[(?&?&?&?)|[?|?]]]; done.
Qed.

(** ** Every step *)

Lemma thread_step_good s l i t : lock_inv s l -> threads s !! i = Some t -> sleep_ok s i t -> good (thread_step mon_addr i s).
Proof using Hmon.
  intros HI Hi Hs. unfold thread_step. rewrite (with_thread_eq s i t) by done.
  destruct (at_ t) as [] eqn:E; try done;
    try (by apply (lock_read_good _ Hmon s l i t)); try (by apply (lock_again_good _ Hmon s l i t _ HI Hi E)); try (by apply (lock_cas_good _ Hmon s l i t _ HI Hi E));
    try (by apply (lock_fat_good _ Hmon s l i t)); try (by apply (inflate_good _ Hmon s l i t _ HI Hi E)); try (by apply (mon_good _ Hmon s l i t _ HI Hi E));
    try (by apply (unlock_read_good s l i t)); try (by apply (unlock_thin_good s l i t _ HI Hi E)); try (by apply (unlock_fat_good s l i t _ HI Hi E));
    try (by apply (wait_start_good s l i t _ HI Hi E)); try (by apply (wait_release_good s l i t)); try (by apply (wait_sleep_good s l i t _ HI Hi E Hs));
    try (by apply (wait_wake_good s l i t _ HI Hi E Hs)); try (by apply (wait_end_good s l i t _ HI Hi E)); try (by apply (notify_start_good s l i t _ HI Hi E));
    try (by apply (notify_signal_good s l i t _ HI Hi E Hs)); by apply (interrupt_good s l i t _ HI Hi E Hs).
Qed.

End Leave.
