(* ===== verification/SyncWait.v ===== *)
(** * Monitors: who sleeps, and who wakes it

    The mutex of a thread, [waitMutex], belongs to who changes or reads what wakes it. The
    invariants of the fields for sleeping: who holds the mutexes; when [waitMonitor] is set;
    who is in the wait set; and that a thread that sleeps and was not signalled is in the
    wait set or about to be signalled. *)

From stdpp Require Import gmap.
From S2P Require Import Prelude Bits Sync SyncLock SyncSteps.

(** ** Points *)

(** The thread whose mutex a thread [k] holds at a point. *)
Definition crit (k : Z) (p : point) : option Z :=
  match p with
  | WaitCheck _ _ _ | WaitUnlock _ _ _ | WaitCond _ _ _ | WaitWoken _ _ _ => Some k
  | NotifySignal _ _ j | NotifyUnlock _ _ j _ | IntrCheck j | IntrRaise j | IntrSignal j | IntrUnlock j => Some j
  | _ => None
  end.

(** The thread that a notifier took from the wait set and did not signal yet. *)
Definition pops (p : point) : option Z := match p with NotifyLock _ _ j | NotifySignal _ _ j => Some j | _ => None end.

(** The other thread that a thread is about. *)
Definition target (p : point) : option Z :=
  match p with
  | NotifyLock _ _ j | NotifySignal _ _ j | NotifyUnlock _ _ j _ | IntrLock j | IntrCheck j | IntrRaise j | IntrSignal j | IntrUnlock j => Some j
  | _ => None
  end.

Definition on_monitor (p : point) : bool :=
  match p with WaitUnlock _ _ _ | WaitCond _ _ _ | WaitBlocked _ _ _ | WaitRelock _ _ _ | WaitWoken _ _ _ => true | _ => false end.

(** Where a thread may be in the wait set. *)
Definition in_wait (p : point) : bool :=
  match p with
  | WaitLock _ _ _ | WaitCheck _ _ _ | WaitUnlock _ _ _ | WaitCond _ _ _ | WaitBlocked _ _ _ | WaitRelock _ _ _ | WaitWoken _ _ _ | WaitDone _ _ _ _
  | MonOwner _ (ToDone _ _ _) | MonTry _ (ToDone _ _ _) | MonBlock _ (ToDone _ _ _) | MonSet _ (ToDone _ _ _) => true
  | _ => false
  end.

(** It goes to sleep, or sleeps and was not signalled. *)
Definition asleep (t : Thread) : bool :=
  match at_ t with WaitLock _ _ _ | WaitCheck _ _ _ | WaitUnlock _ _ _ | WaitCond _ _ _ => true | WaitBlocked _ _ _ => negb (waitCond t) | _ => false end.

(** ** Invariants *)

Definition crits (ts : gmap Z Thread) (k : Z) : option Z := t ← ts !! k; crit k (at_ t).
Definition mutexes (ts : gmap Z Thread) (j : Z) : option Z := waitMutex <$> ts !! j.

Definition mutex_inv (ts : gmap Z Thread) : Prop := forall k j, k <> 0 -> (crits ts k = Some j <-> mutexes ts j = Some k).

Definition target_inv (ts : gmap Z Thread) : Prop := forall k t j, ts !! k = Some t -> target (at_ t) = Some j -> is_Some (ts !! j).

Definition monitor_inv (mon_addr : Z) (ts : gmap Z Thread) : Prop := forall j u, ts !! j = Some u -> waitMonitor u = if on_monitor (at_ u) then mon_addr else 0.

Definition waiters (s : state) : list Z := match monitor s with Some m => waitSet m | None => [] end.

Definition set_inv (l : list Z) (ts : gmap Z Thread) : Prop := NoDup l /\ forall j, j ∈ l -> exists u, ts !! j = Some u /\ in_wait (at_ u) = true.

Definition pending (l : list Z) (ts : gmap Z Thread) (j : Z) : Prop := j ∈ l \/ exists k t, ts !! k = Some t /\ pops (at_ t) = Some j.

Definition pending_inv (l : list Z) (ts : gmap Z Thread) : Prop := forall j u, ts !! j = Some u -> asleep u = true -> pending l ts j.

Record wait_inv (mon_addr : Z) (s : state) : Prop := {
  wi_mutex : mutex_inv (threads s);
  wi_target : target_inv (threads s);
  wi_monitor : monitor_inv mon_addr (threads s);
  wi_set : set_inv (waiters s) (threads s);
  wi_pending : pending_inv (waiters s) (threads s)
}.

(** ** Maps of threads after a step *)

Section Maps.
Context (i j : Z) (p : point) (f : Thread -> Thread) (t : Thread) (ts : gmap Z Thread) (Hi : ts !! i = Some t).

Lemma lookup_goto k : alter (set_at p) i ts !! k = if decide (k = i) then Some (set_at p t) else ts !! k.
Proof using Hi. destruct (decide (k = i)) as [->|Hne]; [by rewrite lookup_alter_eq, Hi|by rewrite lookup_alter_ne]. Qed.

Lemma crits_goto k : crits (alter (set_at p) i ts) k = if decide (k = i) then crit i p else crits ts k.
Proof using Hi. unfold crits. rewrite lookup_goto. by destruct (decide (k = i)) as [->|]. Qed.

Lemma mutexes_goto k : mutexes (alter (set_at p) i ts) k = mutexes ts k.
Proof using Hi. unfold mutexes. rewrite lookup_goto. destruct (decide (k = i)) as [->|]; [by rewrite Hi|done]. Qed.

Lemma crits_alter k : (forall u, at_ (f u) = at_ u) -> crits (alter f j ts) k = crits ts k.
Proof using.
  intros Hf. unfold crits. destruct (decide (j = k)) as [<-|Hne]; [rewrite lookup_alter_eq|by rewrite lookup_alter_ne].
  destruct (ts !! j); [|done]. cbn. by rewrite Hf.
Qed.

Lemma mutexes_alter x k : (forall u, waitMutex (f u) = x) -> is_Some (ts !! j) -> mutexes (alter f j ts) k = if decide (k = j) then Some x else mutexes ts k.
Proof using.
  intros Hf [u Hu]. unfold mutexes. destruct (decide (k = j)) as [->|Hne]; [|by rewrite lookup_alter_ne]. rewrite lookup_alter_eq, Hu. cbn. by rewrite Hf.
Qed.

Lemma mutexes_alter_same k : (forall u, waitMutex (f u) = waitMutex u) -> mutexes (alter f j ts) k = mutexes ts k.
Proof using.
  intros Hf. unfold mutexes. destruct (decide (j = k)) as [<-|Hne]; [rewrite lookup_alter_eq|by rewrite lookup_alter_ne].
  destruct (ts !! j); [|done]. cbn. by rewrite Hf.
Qed.

End Maps.

(** ** The mutexes *)

Lemma mutex_goto ts i t p : mutex_inv ts -> ts !! i = Some t -> crit i p = crit i (at_ t) -> mutex_inv (alter (set_at p) i ts).
Proof.
  intros H Hi Hc k l Hk. rewrite (crits_goto i p t), (mutexes_goto i p t) by done. rewrite <- (H k l Hk).
  destruct (decide (k = i)) as [->|]; [|done]. unfold crits. rewrite Hi. cbn. by rewrite Hc.
Qed.

Lemma mutex_alter ts j f : mutex_inv ts -> (forall u, at_ (f u) = at_ u) -> (forall u, waitMutex (f u) = waitMutex u) -> mutex_inv (alter f j ts).
Proof. intros H Ha Hm k l Hk. rewrite (crits_alter j f), (mutexes_alter_same j f) by done. by apply H. Qed.

Lemma mutex_acquire ts i j t u p f : mutex_inv ts -> i <> 0 -> ts !! i = Some t -> crit i (at_ t) = None -> ts !! j = Some u -> waitMutex u = 0 -> crit i p = Some j ->
  (forall v, at_ (f v) = at_ v) -> (forall v, waitMutex (f v) = i) -> mutex_inv (alter (set_at p) i (alter f j ts)).
Proof.
  intros H H0 Hi Hc Hj Hm Hp Ha Hf k l Hk. assert (Hi' : exists t', alter f j ts !! i = Some t').
  { destruct (decide (j = i)) as [->|Hne]; [rewrite lookup_alter_eq, Hi|rewrite lookup_alter_ne, Hi by done]; by eexists. }
  destruct Hi' as [t' Hi']. rewrite (crits_goto i p t'), (mutexes_goto i p t'), (crits_alter j f), (mutexes_alter j f ts i) by eauto.
  assert (Hci : crits ts i = None) by (unfold crits; rewrite Hi; done). assert (Hmj : mutexes ts j = Some 0) by (unfold mutexes; rewrite Hj; cbn; by rewrite Hm).
  pose proof (H k l Hk) as Hkl. destruct (decide (k = i)) as [->|], (decide (l = j)) as [->|]; naive_solver.
Qed.

Lemma mutex_release ts i j t p f : mutex_inv ts -> i <> 0 -> ts !! i = Some t -> crit i (at_ t) = Some j -> crit i p = None ->
  (forall v, at_ (f v) = at_ v) -> (forall v, waitMutex (f v) = 0) -> mutex_inv (alter (set_at p) i (alter f j ts)).
Proof.
  intros H H0 Hi Hc Hp Ha Hf k l Hk. assert (Hi' : exists t', alter f j ts !! i = Some t').
  { destruct (decide (j = i)) as [->|Hne]; [rewrite lookup_alter_eq, Hi|rewrite lookup_alter_ne, Hi by done]; by eexists. }
  destruct Hi' as [t' Hi']. assert (Hci : crits ts i = Some j) by (unfold crits; rewrite Hi; done). pose proof (proj1 (H i j H0) Hci) as Hmj.
  assert (is_Some (ts !! j)) by (unfold mutexes in Hmj; apply fmap_Some in Hmj as (u & ? & _); by exists u).
  rewrite (crits_goto i p t'), (mutexes_goto i p t'), (crits_alter j f), (mutexes_alter j f ts 0) by eauto.
  pose proof (H k l Hk) as Hkl. pose proof (H i l H0) as Hil. destruct (decide (k = i)) as [->|], (decide (l = j)) as [->|]; naive_solver.
Qed.

(** Who holds the mutex of [j]. *)
Lemma crit_mutex ts k t j u : mutex_inv ts -> k <> 0 -> ts !! k = Some t -> ts !! j = Some u -> crit k (at_ t) = Some j -> waitMutex u = k.
Proof. intros H Hk Ht Hu Hc. assert (E : crits ts k = Some j) by (unfold crits; by rewrite Ht). apply (H k j Hk) in E. unfold mutexes in E. rewrite Hu in E. by injection E. Qed.

Lemma no_crit_mutex ts k t j u : mutex_inv ts -> k <> 0 -> ts !! k = Some t -> ts !! j = Some u -> crit k (at_ t) = None -> waitMutex u <> k.
Proof.
  intros H Hk Ht Hu Hc E. assert (E' : mutexes ts j = Some k) by (unfold mutexes; rewrite Hu; cbn; by rewrite E).
  apply (H k j Hk) in E'. unfold crits in E'. rewrite Ht in E'. cbn in E'. congruence.
Qed.

(** ** What the invariants say of the next access *)

Lemma wait_sleep_ok mon_addr s i t : wait_inv mon_addr s -> i <> 0 -> threads s !! i = Some t -> sleep_ok s i t.
Proof.
  intros [Hm Ht Hw Hs _] H0 Hi. unfold sleep_ok. pose proof (Ht i t) as Htarget. pose proof (fun u => no_crit_mutex _ i t i u Hm H0 Hi) as Hown.
  destruct (at_ t) eqn:E; try done; try (by apply Htarget).
  - intros m Em Hin. unfold waiters in Hs. rewrite Em in Hs. destruct (proj2 Hs i Hin) as (u & Hu & Hin'). rewrite Hi in Hu. injection Hu as <-. by rewrite E in Hin'.
  - by apply Hown.
  - rewrite (Hw i t Hi). by rewrite E.
  - by apply Hown.
  - destruct (Htarget thread Hi eq_refl) as [u Hu]. exists u. split; [done|]. by apply (no_crit_mutex _ i t thread u Hm H0 Hi Hu); rewrite E.
  - destruct (Htarget thread Hi eq_refl) as [u Hu]. exists u. split; [done|]. by apply (no_crit_mutex _ i t thread u Hm H0 Hi Hu); rewrite E.
Qed.

(** ** What a step does to the fields for sleeping *)

Section Effect.
Context (mon_addr : Z) (s : state) (i : Z) (t : Thread).

(** The point [p] is as before for all that is not about mutexes. *)
Record kept (p : point) : Prop := {
  kept_target : target p = target (at_ t) \/ target p = None;
  kept_monitor : on_monitor p = on_monitor (at_ t);
  kept_wait : in_wait (at_ t) = true -> in_wait p = true;
  kept_pops : pops p = pops (at_ t);
  kept_asleep : asleep (set_at p t) = true -> asleep t = true
}.

Inductive effect : point -> state -> Prop :=
  | e_quiet p s0 : kept p -> crit i p = crit i (at_ t) -> threads s0 = threads s -> waiters s0 = waiters s -> effect p s0
  | e_flag p j b : kept p -> crit i p = crit i (at_ t) -> effect p (update j (set_interrupted b) s)
  | e_acquire p j u : kept p -> crit i (at_ t) = None -> crit i p = Some j -> threads s !! j = Some u -> waitMutex u = 0 -> effect p (update j (set_waitMutex i) s)
  | e_release p j : kept p -> crit i (at_ t) = Some j -> crit i p = None -> effect p (update j (set_waitMutex 0) s)
  | e_wait a b c : at_ t = WaitCheck a b c -> effect (WaitUnlock a b c) (update i (set_waitMonitor a) s)
  | e_sleep a b c : at_ t = WaitCond a b c -> effect (WaitBlocked a b c) (update i (set_waitCond false ∘ set_waitMutex 0) s)
  | e_woken a b c : at_ t = WaitWoken a b c ->
      effect (MonOwner a (ToDone b (interrupted t) c)) (update i (set_interrupted false ∘ set_waitMonitor 0 ∘ set_waitMutex 0) s)
  | e_append s0 a b c c' : at_ t = WaitRelease a c' -> threads s0 = threads s -> monitor s <> None -> waiters s0 = waiters s ++ [i] -> effect (WaitLock a b c) s0
  | e_remove p s0 a b c d : at_ t = WaitDone a b c d -> (p = WaitClear d \/ p = Done Returns) -> threads s0 = threads s -> waiters s0 = waitSetRemove i (waiters s) -> effect p s0
  | e_pop s0 a b j : at_ t = NotifyLoop a b -> threads s0 = threads s -> waiters s = j :: waiters s0 -> effect (NotifyLock a b j) s0
  | e_signal a b j u : at_ t = NotifySignal a b j -> threads s !! j = Some u -> waitMonitor u <> 0 -> effect (NotifyUnlock a b j true) (update j signal s)
  | e_pass a b j u : at_ t = NotifySignal a b j -> threads s !! j = Some u -> waitMonitor u = 0 -> effect (NotifyUnlock a b j false) s
  | e_intr j : at_ t = IntrSignal j -> effect (IntrUnlock j) (update j signal s).

Lemma step_effect s' : threads s !! i = Some t -> thread_step mon_addr i s = Next s' -> exists p s0, s' = goto i p s0 /\ effect p s0.
Proof.
  intros Hi Hstep. unfold thread_step, with_thread in Hstep. rewrite Hi in Hstep.
  destruct (at_ t) eqn:E; try done.
  all: cbn [dvmLockObject_step inflateMonitor_step lockMonitor_step dvmUnlockObject_step unlockMonitor_step dvmObjectWait_step waitMonitor_step
    dvmObjectNotify_step notifyMonitor_step dvmThreadInterrupt_step] in Hstep.
  all: unfold with_monitor, with_thread, lock_mutex, check in Hstep.
  all: repeat case_match; simplify_eq; eexists _, _; (split; [reflexivity|]); repeat match goal with H : (_ =? _) = _ |- _ => first [apply Z.eqb_eq in H|apply Z.eqb_neq in H] end.
  all: try (apply e_quiet; [constructor; unfold asleep; rewrite ?E; cbn; by auto|by rewrite E|done|by unfold waiters; cbn; simplify_option_eq]).
  all: try (apply e_flag; [constructor; unfold asleep; rewrite ?E; cbn; by auto|by rewrite E]).
  all: try (eapply e_acquire; [constructor; unfold asleep; rewrite ?E; cbn; by auto|by rewrite E|reflexivity|eassumption|done]).
  all: try (apply e_release; [constructor; unfold asleep; rewrite ?E; cbn; by auto|by rewrite E|done]).
  all: try (by econstructor).
  - apply e_quiet; [destruct k; constructor; unfold asleep; rewrite ?E; cbn; by auto|by destruct k; rewrite E|done|by unfold waiters; cbn; simplify_option_eq].
  - apply e_quiet; [destruct k; constructor; unfold asleep; rewrite ?E; cbn; by auto|by destruct k; rewrite E|done|by unfold waiters; cbn; simplify_option_eq].
  - eapply e_append; try done; [congruence|]. unfold waiters. cbn. by simplify_option_eq.
  - eapply e_remove; [done|by left|done|]. unfold waiters. cbn. by simplify_option_eq.
  - eapply e_remove; [done|by right|done|]. unfold waiters. cbn. by simplify_option_eq.
  - eapply e_pop; try done. unfold waiters. cbn. by simplify_option_eq.
  - eapply e_signal; try done. by match goal with H : negb _ = true |- _ => apply negb_true_iff, Z.eqb_neq in H end.
  - eapply e_pass; try done. by match goal with H : negb _ = false |- _ => apply negb_false_iff, Z.eqb_eq in H end.
Qed.

End Effect.

(** ** The invariants, one change at a time *)

Lemma alter_Some (f : Thread -> Thread) j (ts : gmap Z Thread) k u' : alter f j ts !! k = Some u' -> exists u, ts !! k = Some u /\ u' = if decide (k = j) then f u else u.
Proof.
  intros H. destruct (decide (k = j)) as [->|Hne].
  - rewrite lookup_alter_eq in H. apply fmap_Some in H as (u & Hu & ->). by exists u.
  - rewrite lookup_alter_ne in H by done. by exists u'.
Qed.

Lemma lookup_alter_same (f : Thread -> Thread) j (ts : gmap Z Thread) k u : ts !! k = Some u -> alter f j ts !! k = Some (if decide (k = j) then f u else u).
Proof. intros H. destruct (decide (k = j)) as [->|Hne]; [by rewrite lookup_alter_eq, H|by rewrite lookup_alter_ne]. Qed.

Section Parts.
Context (mon_addr : Z) (ts : gmap Z Thread) (l : list Z).

Lemma target_goto i t p : target_inv ts -> ts !! i = Some t -> (forall j, target p = Some j -> is_Some (ts !! j)) -> target_inv (alter (set_at p) i ts).
Proof using.
  intros H Hi Hp k u' j Hk Hj. apply lookup_alter_is_Some. apply alter_Some in Hk as (u & Hu & ->). destruct (decide (k = i)) as [->|Hne]; [by apply Hp|by apply (H k u)].
Qed.

Lemma target_alter j f : target_inv ts -> (forall u, at_ (f u) = at_ u) -> target_inv (alter f j ts).
Proof using.
  intros H Ha k u' m Hk Hm. apply lookup_alter_is_Some. apply alter_Some in Hk as (u & Hu & ->). apply (H k u); [done|].
  destruct (decide (k = j)); [by rewrite <- (Ha u)|done].
Qed.

(** The step of a thread that changes itself by [f] first. *)
Lemma monitor_goto i t p f : monitor_inv mon_addr ts -> ts !! i = Some t -> waitMonitor (f t) = (if on_monitor p then mon_addr else 0) ->
  monitor_inv mon_addr (alter (set_at p) i (alter f i ts)).
Proof using.
  intros H Hi Hf k u' Hk. apply alter_Some in Hk as (u & Hu & ->). apply alter_Some in Hu as (v & Hv & ->).
  destruct (decide (k = i)) as [->|]; [|by apply (H k v)]. rewrite Hi in Hv. injection Hv as <-. done.
Qed.

Lemma monitor_alter j f : monitor_inv mon_addr ts -> (forall u, at_ (f u) = at_ u) -> (forall u, waitMonitor (f u) = waitMonitor u) -> monitor_inv mon_addr (alter f j ts).
Proof using.
  intros H Ha Hm k u' Hk. apply alter_Some in Hk as (u & Hu & ->). destruct (decide (k = j)); rewrite ?Ha, ?Hm; by apply (H k u).
Qed.

Lemma set_goto i t p : set_inv l ts -> ts !! i = Some t -> (i ∈ l -> in_wait p = true) -> set_inv l (alter (set_at p) i ts).
Proof using.
  intros [Hnd H] Hi Hp. split; [done|]. intros j Hj. destruct (H j Hj) as (u & Hu & Hin). rewrite (lookup_alter_same _ _ _ _ u) by done. eexists. split; [done|].
  destruct (decide (j = i)) as [->|]; [by apply Hp|done].
Qed.

Lemma set_alter j f : set_inv l ts -> (forall u, at_ (f u) = at_ u) -> set_inv l (alter f j ts).
Proof using.
  intros [Hnd H] Ha. split; [done|]. intros k Hk. destruct (H k Hk) as (u & Hu & Hin). rewrite (lookup_alter_same _ _ _ _ u) by done. eexists. split; [done|].
  destruct (decide (k = j)); by rewrite ?Ha.
Qed.

(** What is pending, and for whom it has to be. *)
Lemma pending_change l' ts' : pending_inv l ts -> (forall j u', ts' !! j = Some u' -> asleep u' = true -> pending l' ts' j \/ exists u, ts !! j = Some u /\ asleep u = true) ->
  (forall j u', pending l ts j -> ts' !! j = Some u' -> asleep u' = true -> pending l' ts' j) -> pending_inv l' ts'.
Proof using. intros H Ha Hp j u' Hj Hu. destruct (Ha j u' Hj Hu) as [Hd|(u & Hu0 & Has)]; [done|]. apply (Hp j u'); [|done|done]. by apply (H j u). Qed.

Lemma pending_alter j f : pending_inv l ts -> (forall u, at_ (f u) = at_ u) ->
  (forall u, ts !! j = Some u -> asleep (f u) = true -> asleep u = true) -> pending_inv l (alter f j ts).
Proof using.
  intros H Ha Hf. apply (pending_change l); [done| |].
  - intros k u' Hk Hu. apply alter_Some in Hk as (u & Hu0 & ->). right. exists u. split; [done|]. destruct (decide (k = j)) as [->|]; auto.
  - intros k u' [Hl|(m & v & Hv & Hpv)] _ _; [by left|right]. exists m. rewrite (lookup_alter_same _ _ _ _ v) by done. eexists. split; [done|].
    destruct (decide (m = j)); by rewrite ?Ha.
Qed.

Lemma pending_goto i t p : pending_inv l ts -> ts !! i = Some t -> (pops (at_ t) = None \/ pops p = pops (at_ t)) -> (asleep (set_at p t) = true -> asleep t = true) ->
  pending_inv l (alter (set_at p) i ts).
Proof using.
  intros H Hi Hp Ha. apply (pending_change l); [done| |].
  - intros k u' Hk Hu. apply alter_Some in Hk as (u & Hu0 & ->). right. exists u. split; [done|]. destruct (decide (k = i)) as [->|]; [|done].
    rewrite Hi in Hu0. injection Hu0 as <-. auto.
  - intros k u' [Hl|(m & v & Hv & Hpv)] _ _; [by left|right]. exists m. rewrite (lookup_alter_same _ _ _ _ v) by done. eexists. split; [done|].
    destruct (decide (m = i)) as [->|]; [|done]. rewrite Hi in Hv. injection Hv as <-. cbn. destruct Hp; congruence.
Qed.

Lemma pending_list l' : pending_inv l ts -> (forall j, j ∈ l -> j ∈ l' \/ exists k t, ts !! k = Some t /\ pops (at_ t) = Some j) -> pending_inv l' ts.
Proof using.
  intros H Hl j u Hj Hu. destruct (H j u Hj Hu) as [Hin|Hp]; [by apply Hl|by right].
Qed.

End Parts.

(** ** Monitors: no waiter is forgotten

    The invariants of the fields for sleeping hold after every step. *)

Lemma alter_comm_at p f i j (ts : gmap Z Thread) : (forall u, f (set_at p u) = set_at p (f u)) ->
  alter (set_at p) i (alter f j ts) = alter f j (alter (set_at p) i ts).
Proof.
  intros Hf. destruct (decide (i = j)) as [->|Hne]; [|by rewrite alter_alter, decide_False].
  rewrite !alter_alter_eq. apply map_eq. intros k. destruct (decide (j = k)) as [->|]; [|by rewrite !lookup_alter_ne].
  rewrite !lookup_alter_eq. destruct (ts !! k); [|done]. cbn. by rewrite Hf.
Qed.

(** A part of a thread that has nothing to do with sleeping. *)
Record still (f : Thread -> Thread) : Prop := {
  still_at : forall u, at_ (f u) = at_ u;
  still_mutex : forall u, waitMutex (f u) = waitMutex u;
  still_monitor : forall u, waitMonitor (f u) = waitMonitor u;
  still_cond : forall u, waitCond (f u) = waitCond u
}.

Lemma still_asleep f u : (at_ (f u) = at_ u) -> waitCond (f u) = waitCond u -> asleep (f u) = asleep u.
Proof. intros Ha Hc. unfold asleep. by rewrite Ha, Hc. Qed.

Section Woken.
Context (mon_addr : Z) (Hmon : 0 < mon_addr < 2 ^ 32 /\ mon_addr mod 8 = 0).

Lemma wait_still s j f : wait_inv mon_addr s -> still f -> wait_inv mon_addr (update j f s).
Proof using.
  intros [Hm Ht Hw Hs Hp] [Ha Hf Hn Hc]. constructor; cbn [update threads].
  - by apply mutex_alter.
  - by apply target_alter.
  - by apply monitor_alter.
  - by apply set_alter.
  - apply pending_alter; [done|done|]. intros u _. by rewrite still_asleep.
Qed.

Lemma set_keeps l ts i t p : set_inv l ts -> ts !! i = Some t -> (in_wait (at_ t) = true -> in_wait p = true) -> set_inv l (alter (set_at p) i ts).
Proof using.
  intros H Hi Hp. apply (set_goto ts l i t p H Hi). intros Hin. destruct (proj2 H i Hin) as (u & Hu & Hw). rewrite Hi in Hu. injection Hu as <-. auto.
Qed.

Lemma target_keeps ts i t p : target_inv ts -> ts !! i = Some t -> target p = target (at_ t) \/ target p = None -> target_inv (alter (set_at p) i ts).
Proof using. intros H Hi Hp. apply (target_goto ts i t p H Hi). intros j Hj. apply (H i t); [done|]. destruct Hp; congruence. Qed.

Lemma monitor_keeps ts i t p : monitor_inv mon_addr ts -> ts !! i = Some t -> on_monitor p = on_monitor (at_ t) -> monitor_inv mon_addr (alter (set_at p) i ts).
Proof using.
  intros H Hi Hp k u' Hk. apply alter_Some in Hk as (u & Hu & ->). destruct (decide (k = i)) as [->|]; [|by apply (H k u)].
  rewrite Hi in Hu. injection Hu as <-. cbn. rewrite Hp. by apply (H i t).
Qed.

(** The parts that are not about mutexes, when the point changes as [kept] says. *)
Definition rest_inv (s : state) (ts : gmap Z Thread) : Prop :=
  target_inv ts /\ monitor_inv mon_addr ts /\ set_inv (waiters s) ts /\ pending_inv (waiters s) ts.

Lemma rest_kept s i t p : wait_inv mon_addr s -> threads s !! i = Some t -> kept t p -> rest_inv s (alter (set_at p) i (threads s)).
Proof using.
  intros [_ Ht Hw Hs Hp] Hi [k1 k2 k3 k4 k5]. split; [by apply (target_keeps _ i t)|]. split; [by apply (monitor_keeps _ i t)|].
  split; [by apply (set_keeps _ _ i t)|]. apply (pending_goto _ _ i t); [done|done|by right|done].
Qed.

Lemma rest_alter s ts j f : rest_inv s ts -> (forall u, at_ (f u) = at_ u) -> (forall u, waitMonitor (f u) = waitMonitor u) -> (forall u, waitCond (f u) = waitCond u) ->
  rest_inv s (alter f j ts).
Proof using.
  intros (Ht & Hw & Hs & Hp) Ha Hm Hc. split; [by apply target_alter|]. split; [by apply monitor_alter|]. split; [by apply set_alter|].
  apply pending_alter; [done|done|]. intros u _. by rewrite still_asleep.
Qed.

Lemma wait_of_rest s s0 ts : threads s0 = ts -> waiters s0 = waiters s -> mutex_inv ts -> rest_inv s ts -> wait_inv mon_addr s0.
Proof using. intros <- Hl Hm (Ht & Hw & Hs & Hp). constructor; rewrite ?Hl; done. Qed.

Section Step.
Context (s : state) (l : lock_state) (i : Z) (t : Thread) (HI : lock_inv mon_addr s l) (HW : wait_inv mon_addr s) (H0 : i <> 0) (Hi : threads s !! i = Some t).

Lemma quiet_wait p s0 : kept t p -> crit i p = crit i (at_ t) -> threads s0 = threads s -> waiters s0 = waiters s -> wait_inv mon_addr (goto i p s0).
Proof using HW Hi.
  intros Hk Hc Et El. apply (wait_of_rest s _ (alter (set_at p) i (threads s))); [by rewrite <- Et|done| |by apply (rest_kept s i t)].
  apply (mutex_goto _ i t); [apply HW|done|done].
Qed.

Lemma flag_wait p j b : kept t p -> crit i p = crit i (at_ t) -> wait_inv mon_addr (goto i p (update j (set_interrupted b) s)).
Proof using HW Hi.
  intros Hk Hc. eapply (wait_of_rest s); [reflexivity|done| |]; cbn [goto update threads]; rewrite alter_comm_at by done.
  - apply mutex_alter; [|done|done]. apply (mutex_goto _ i t); [apply HW|done|done].
  - apply rest_alter; [|done|done|done]. by apply (rest_kept s i t).
Qed.

Lemma acquire_wait p j u : kept t p -> crit i (at_ t) = None -> crit i p = Some j -> threads s !! j = Some u -> waitMutex u = 0 ->
  wait_inv mon_addr (goto i p (update j (set_waitMutex i) s)).
Proof using HW H0 Hi.
  intros Hk Hc Hp Hj Hu. eapply (wait_of_rest s); [reflexivity|done| |]; cbn [goto update threads].
  - by apply (mutex_acquire _ i j t u); [apply HW|..].
  - rewrite alter_comm_at by done. apply rest_alter; [|done|done|done]. by apply (rest_kept s i t).
Qed.

Lemma release_wait p j : kept t p -> crit i (at_ t) = Some j -> crit i p = None -> wait_inv mon_addr (goto i p (update j (set_waitMutex 0) s)).
Proof using HW H0 Hi.
  intros Hk Hc Hp. eapply (wait_of_rest s); [reflexivity|done| |]; cbn [goto update threads].
  - by apply (mutex_release _ i j t); [apply HW|..].
  - rewrite alter_comm_at by done. apply rest_alter; [|done|done|done]. by apply (rest_kept s i t).
Qed.

(** *** Going to sleep, and waking *)

Lemma wait_wait a b c : at_ t = WaitCheck a b c -> wait_inv mon_addr (goto i (WaitUnlock a b c) (update i (set_waitMonitor a) s)).
Proof using HI HW Hi.
  intros E. pose proof (ok_point _ _ _ _ (inv_threads _ _ _ HI i t Hi)) as Hpt. unfold at_point in Hpt. rewrite E in Hpt. destruct Hpt as (_ & -> & _).
  destruct HW as [Hm Ht Hw Hs Hp]. constructor; cbn [goto update threads].
  - rewrite alter_comm_at by done. apply mutex_alter; [|done|done]. by apply (mutex_goto _ i t); [| |rewrite E].
  - rewrite alter_comm_at by done. apply target_alter; [|done]. by apply (target_keeps _ i t); [| |right].
  - by apply (monitor_goto _ _ i t).
  - rewrite alter_comm_at by done. apply set_alter; [|done]. by apply (set_keeps _ _ i t).
  - rewrite alter_comm_at by done. apply pending_alter; [|done|done]. apply (pending_goto _ _ i t); [done|done|left; by rewrite E|]. unfold asleep. by rewrite E.
Qed.

Lemma sleep_wait a b c : at_ t = WaitCond a b c -> wait_inv mon_addr (goto i (WaitBlocked a b c) (update i (set_waitCond false ∘ set_waitMutex 0) s)).
Proof using HW H0 Hi.
  intros E. destruct HW as [Hm Ht Hw Hs Hp]. constructor; cbn [goto update threads].
  - by apply (mutex_release _ i i t); [| | |rewrite E|..].
  - rewrite alter_comm_at by done. apply target_alter; [|done]. by apply (target_keeps _ i t); [| |right].
  - rewrite alter_comm_at by done. apply monitor_alter; [|done|done]. by apply (monitor_keeps _ i t); [| |rewrite E].
  - rewrite alter_comm_at by done. apply set_alter; [|done]. by apply (set_keeps _ _ i t).
  - apply (pending_goto _ _ i (set_waitCond false (set_waitMutex 0 t))); [|by rewrite lookup_alter_eq, Hi|left; cbn; by rewrite E|unfold asleep; cbn; by rewrite E].
    apply pending_alter; [done|done|]. intros u Hu. rewrite Hi in Hu. injection Hu as <-. unfold asleep. cbn. by rewrite E.
Qed.

Lemma woken_wait a b c : at_ t = WaitWoken a b c ->
  wait_inv mon_addr (goto i (MonOwner a (ToDone b (interrupted t) c)) (update i (set_interrupted false ∘ set_waitMonitor 0 ∘ set_waitMutex 0) s)).
Proof using HW H0 Hi.
  intros E. destruct HW as [Hm Ht Hw Hs Hp]. constructor; cbn [goto update threads].
  - by apply (mutex_release _ i i t); [| | |rewrite E|..].
  - rewrite alter_comm_at by done. apply target_alter; [|done]. by apply (target_keeps _ i t); [| |right].
  - by apply (monitor_goto _ _ i t).
  - rewrite alter_comm_at by done. apply set_alter; [|done]. by apply (set_keeps _ _ i t).
  - rewrite alter_comm_at by done. apply pending_alter; [|done|done]. by apply (pending_goto _ _ i t); [done|done|left; rewrite E|].
Qed.

(** *** The wait set *)

Lemma not_in_set l0 ts u : set_inv l0 ts -> ts !! i = Some u -> in_wait (at_ u) = false -> i ∉ l0.
Proof using. intros [_ H] Hu Hf Hin. destruct (H i Hin) as (v & Hv & Hw). rewrite Hu in Hv. injection Hv as <-. congruence. Qed.

Lemma append_wait s0 a b c c' : at_ t = WaitRelease a c' -> threads s0 = threads s -> waiters s0 = waiters s ++ [i] -> wait_inv mon_addr (goto i (WaitLock a b c) s0).
Proof using HW Hi.
  intros E Et El. destruct HW as [Hm Ht Hw Hs Hp]. assert (Hl : waiters (goto i (WaitLock a b c) s0) = waiters s ++ [i]) by done.
  constructor; rewrite ?Hl; cbn [goto update threads]; rewrite Et.
  - by apply (mutex_goto _ i t); [| |rewrite E].
  - by apply (target_keeps _ i t); [| |right].
  - by apply (monitor_keeps _ i t); [| |rewrite E].
  - pose proof (not_in_set _ _ t Hs Hi ltac:(by rewrite E)) as Hni. apply (set_keeps _ _ i t) with (p := WaitLock a b c) in Hs as [Hnd Hin]; [|done|done]. split.
    + apply NoDup_app. split; [done|]. split; [|apply NoDup_singleton]. by intros j Hj ->%list_elem_of_singleton.
    + intros j [Hj| ->%list_elem_of_singleton]%elem_of_app; [by apply Hin|]. eexists. by rewrite lookup_alter_eq, Hi.
  - apply (pending_change (threads s) (waiters s)); [done| |].
    + intros k u' Hk Hu. apply alter_Some in Hk as (u & Hu0 & ->). destruct (decide (k = i)) as [->|]; [|right; by exists u].
      left. left. apply elem_of_app. right. by apply list_elem_of_singleton.
    + intros k u' [Hin|(m & v & Hv & Hpv)] _ _; [left; apply elem_of_app; by left|right]. exists m, v. rewrite lookup_alter_ne; [done|].
      intros <-. rewrite Hi in Hv. injection Hv as <-. by rewrite E in Hpv.
Qed.

Lemma remove_elem j l0 : j ∈ waitSetRemove i l0 <-> j ∈ l0 /\ j <> i.
Proof using. unfold waitSetRemove. rewrite !list_elem_of_In, List.filter_In, negb_true_iff, Z.eqb_neq. done. Qed.

Lemma remove_NoDup l0 : NoDup l0 -> NoDup (waitSetRemove i l0).
Proof using. rewrite !NoDup_ListNoDup. apply List.NoDup_filter. Qed.

Lemma remove_wait p s0 a b c d : at_ t = WaitDone a b c d -> p = WaitClear d \/ p = Done Returns -> threads s0 = threads s -> waiters s0 = waitSetRemove i (waiters s) ->
  wait_inv mon_addr (goto i p s0).
Proof using HW Hi.
  intros E Hpt Et El. destruct HW as [Hm Ht Hw Hs Hp]. assert (Hl : waiters (goto i p s0) = waitSetRemove i (waiters s)) by done.
  constructor; rewrite ?Hl; cbn [goto update threads]; rewrite Et.
  - apply (mutex_goto _ i t); [done|done|rewrite E]; by destruct Hpt as [->| ->].
  - apply (target_keeps _ i t); [done|done|right]; by destruct Hpt as [->| ->].
  - apply (monitor_keeps _ i t); [done|done|rewrite E]; by destruct Hpt as [->| ->].
  - apply (set_goto _ _ i t); [|done|by intros [_ ?]%remove_elem]. destruct Hs as [Hnd Hin]. split; [by apply remove_NoDup|]. intros j [Hj _]%remove_elem. by apply Hin.
  - apply (pending_change (threads s) (waiters s)); [done| |].
    + intros k u' Hk Hu. apply alter_Some in Hk as (u & Hu0 & ->). right. exists u. split; [done|].
      destruct (decide (k = i)) as [->|]; [|done]. by destruct Hpt as [->| ->].
    + intros k u' [Hin|(m & v & Hv & Hpv)] Hk Hu.
      * left. apply remove_elem. split; [done|]. intros ->. rewrite lookup_alter_eq, Hi in Hk. injection Hk as <-. by destruct Hpt as [->| ->].
      * right. exists m, v. rewrite lookup_alter_ne; [done|]. intros <-. rewrite Hi in Hv. injection Hv as <-. by rewrite E in Hpv.
Qed.

Lemma pop_wait s0 a b j : at_ t = NotifyLoop a b -> threads s0 = threads s -> waiters s = j :: waiters s0 -> wait_inv mon_addr (goto i (NotifyLock a b j) s0).
Proof using HW Hi.
  intros E Et El. destruct HW as [Hm Ht Hw Hs Hp]. rewrite El in Hs, Hp. assert (Hl : waiters (goto i (NotifyLock a b j) s0) = waiters s0) by done.
  constructor; rewrite ?Hl; cbn [goto update threads]; rewrite Et.
  - by apply (mutex_goto _ i t); [| |rewrite E].
  - apply (target_goto _ i t); [done|done|]. intros k [= <-]. destruct (proj2 Hs j ltac:(by left)) as (u & Hu & _). by exists u.
  - by apply (monitor_keeps _ i t); [| |rewrite E].
  - apply (set_keeps _ _ i t); [|done|by rewrite E]. destruct Hs as [Hnd Hin]. split; [by inversion Hnd|]. intros k Hk. apply Hin. by right.
  - apply (pending_list _ (j :: waiters s0)); [apply (pending_goto _ _ i t); [done|done|left; by rewrite E|done]|].
    intros k [->|Hk]%elem_of_cons; [right|by left]. exists i. eexists. by rewrite lookup_alter_eq, Hi.
Qed.

(** *** Signals *)

Lemma signal_at u : at_ (signal u) = at_ u.
Proof using. apply signal_same. Qed.

Lemma signal_fields u : waitMutex (signal u) = waitMutex u /\ waitMonitor (signal u) = waitMonitor u.
Proof using. unfold signal. by destruct (at_ u). Qed.

Lemma signal_asleep u : asleep (signal u) = true -> asleep u = true.
Proof using. unfold asleep. rewrite signal_at. unfold signal. destruct (at_ u) eqn:E; cbn; by rewrite ?E. Qed.

(** The thread that is signalled may not be on its way to sleep. *)
Lemma signalled_at a b j u : at_ t = NotifySignal a b j -> threads s !! j = Some u -> asleep u = true -> exists x y z, at_ u = WaitBlocked x y z.
Proof using HI HW H0 Hi.
  intros E Hj Ha. assert (Hij : i <> j). { intros <-. rewrite Hi in Hj. injection Hj as <-. unfold asleep in Ha. by rewrite E in Ha. }
  pose proof (inv_threads _ _ _ HI i t Hi) as Oi. pose proof (inv_threads _ _ _ HI j u Hj) as Oj. pose proof (ok_id _ _ _ _ Oj) as Hjd.
  assert (Hown : waitMutex u = i) by (apply (crit_mutex (threads s) i t j u); [apply HW|done|done|done|by rewrite E]).
  assert (Hnot : crit j (at_ u) <> Some j) by (intros Hc; apply Hij; rewrite <- Hown; apply (crit_mutex (threads s) j u j u); [apply HW|lia|done|done|done]).
  pose proof (ok_claim _ _ _ _ Oi) as Ci. pose proof (ok_claim _ _ _ _ Oj) as Cj. unfold claim_of in Ci, Cj. rewrite E in Ci.
  unfold asleep in Ha. destruct (at_ u) eqn:Eu; try done; [|by eexists _, _, _]. exfalso. destruct l as [|h m]; [done|]. cbn in Ci, Cj. lia.
Qed.

Lemma signalled_waits a b j u : at_ t = NotifySignal a b j -> threads s !! j = Some u -> waitMonitor u <> 0 -> asleep (signal u) = false.
Proof using HI HW H0 Hi.
  intros E Hj Hw. destruct (asleep (signal u)) eqn:Ha; [|done]. destruct (signalled_at a b j u E Hj (signal_asleep u Ha)) as (x & y & z & Eu).
  unfold asleep, signal in Ha. rewrite Eu in Ha. cbn in Ha. by rewrite Eu in Ha.
Qed.

Lemma passed_awake a b j u : at_ t = NotifySignal a b j -> threads s !! j = Some u -> waitMonitor u = 0 -> asleep u = false.
Proof using HI HW H0 Hi Hmon.
  intros E Hj Hw. destruct (asleep u) eqn:Ha; [|done]. destruct (signalled_at a b j u E Hj Ha) as (x & y & z & Eu).
  pose proof (wi_monitor _ _ HW j u Hj) as Hm. rewrite Eu, Hw in Hm. cbn in Hm. lia.
Qed.

(** The parts but the last, when [j] may be signalled. *)
Lemma signal_wait p j g : (g = signal \/ g = id) -> crit i p = crit i (at_ t) -> target p = target (at_ t) -> on_monitor p = on_monitor (at_ t) -> in_wait (at_ t) = false ->
  pending_inv (waiters s) (alter (set_at p) i (alter g j (threads s))) -> wait_inv mon_addr (goto i p (update j g s)).
Proof using HW Hi.
  intros Hg Hc Ht Hw Hin Hp. assert (Ha : forall u, at_ (g u) = at_ u) by (destruct Hg as [->| ->]; [apply signal_at|done]).
  assert (Hf : forall u, waitMutex (g u) = waitMutex u /\ waitMonitor (g u) = waitMonitor u) by (destruct Hg as [->| ->]; [apply signal_fields|done]).
  assert (Hi' : alter g j (threads s) !! i = Some (if decide (i = j) then g t else t)) by by apply lookup_alter_same.
  assert (Ha' : at_ (if decide (i = j) then g t else t) = at_ t) by (destruct (decide (i = j)); [apply Ha|done]).
  destruct HW as [Im It Iw Is _]. constructor; cbn [goto update threads]; try done.
  - eapply (mutex_goto _ i); [|exact Hi'|by rewrite Ha']. apply mutex_alter; [done|done|apply Hf].
  - eapply (target_keeps _ i); [|exact Hi'|left; by rewrite Ha']. by apply target_alter.
  - eapply (monitor_keeps _ i); [|exact Hi'|by rewrite Ha']. apply monitor_alter; [done|done|apply Hf].
  - eapply (set_keeps _ _ i); [|exact Hi'|by rewrite Ha', Hin]. by apply set_alter.
Qed.

(** A notifier is done with [j]: it does not sleep, or was signalled. *)
Lemma notified_pending p a b j u g : (g = signal \/ g = id) -> at_ t = NotifySignal a b j -> threads s !! j = Some u -> asleep (g u) = false -> asleep (set_at p (g t)) = false ->
  asleep (set_at p t) = false -> pending_inv (waiters s) (alter (set_at p) i (alter g j (threads s))).
Proof using HW Hi.
  intros Hg E Hj Hu Hat Hat'. assert (Ha : forall v, at_ (g v) = at_ v) by (destruct Hg as [->| ->]; [apply signal_at|done]).
  assert (Hs : forall v, asleep (g v) = true -> asleep v = true) by (destruct Hg as [->| ->]; [apply signal_asleep|done]).
  apply (pending_change (threads s) (waiters s)); [apply HW| |].
  - intros k u' Hk Hsl. apply alter_Some in Hk as (v & Hv & ->). apply alter_Some in Hv as (w & Hw & ->). right. exists w. split; [done|].
    destruct (decide (k = i)) as [->|]; [rewrite Hi in Hw; injection Hw as <-; destruct (decide (i = j)); congruence|]. destruct (decide (k = j)); auto.
  - intros k u' [Hin|(m & v & Hv & Hpv)] Hk Hsl; [by left|right]. destruct (decide (m = i)) as [->|Hne].
    + exfalso. rewrite Hi in Hv. injection Hv as <-. rewrite E in Hpv. injection Hpv as <-. apply alter_Some in Hk as (v & Hv & ->).
      apply alter_Some in Hv as (w & Hw & ->). rewrite Hj in Hw. injection Hw as <-. destruct (decide (j = j)) as [_|]; [|done].
      destruct (decide (j = i)) as [->|]; [rewrite Hi in Hj; injection Hj as <-|]; congruence.
    + exists m. rewrite lookup_alter_ne by done. rewrite (lookup_alter_same _ _ _ _ v) by done. eexists. split; [done|]. destruct (decide (m = j)); by rewrite ?Ha.
Qed.

Lemma notify_wait a b j u : at_ t = NotifySignal a b j -> threads s !! j = Some u -> waitMonitor u <> 0 -> wait_inv mon_addr (goto i (NotifyUnlock a b j true) (update j signal s)).
Proof using HI HW H0 Hi.
  intros E Hj Hw. apply signal_wait; rewrite ?E; try done; [by left|]. apply (notified_pending _ a b j u); try done; [by left|by apply (signalled_waits a b j)].
Qed.

Lemma pass_wait a b j u : at_ t = NotifySignal a b j -> threads s !! j = Some u -> waitMonitor u = 0 -> wait_inv mon_addr (goto i (NotifyUnlock a b j false) s).
Proof using HI HW H0 Hi Hmon.
  intros E Hj Hw. assert (Eid : update j id s = s) by (unfold update; rewrite alter_id by done; by destruct s). rewrite <- Eid.
  apply signal_wait; rewrite ?E; try done; [by right|]. apply (notified_pending _ a b j u); try done; [by right|by apply (passed_awake a b j)].
Qed.

Lemma intr_wait j : at_ t = IntrSignal j -> wait_inv mon_addr (goto i (IntrUnlock j) (update j signal s)).
Proof using HW Hi.
  intros E. apply signal_wait; rewrite ?E; try done; [by left|].
  assert (Hi' : alter signal j (threads s) !! i = Some (if decide (i = j) then signal t else t)) by by apply lookup_alter_same.
  assert (Ha' : at_ (if decide (i = j) then signal t else t) = at_ t) by (destruct (decide (i = j)); [apply signal_at|done]).
  eapply (pending_goto _ _ i); [|exact Hi'|left; by rewrite Ha', E|done]. apply pending_alter; [apply HW|apply signal_at|]. intros u _. apply signal_asleep.
Qed.

Lemma effect_wait p s0 : effect s i t p s0 -> wait_inv mon_addr (goto i p s0).
Proof using HI HW H0 Hi Hmon.
  destruct 1; [by apply quiet_wait|by apply flag_wait|by apply (acquire_wait _ _ u)|by apply release_wait|by apply wait_wait|by apply sleep_wait|by apply woken_wait|
    by eapply append_wait|by eapply remove_wait|by eapply pop_wait|by eapply notify_wait|by eapply pass_wait|by apply intr_wait].
Qed.

End Step.
(** ** Calls, returns, new threads *)

Lemma goto_wait s i t p f : wait_inv mon_addr s -> threads s !! i = Some t -> still f -> kept t p -> crit i p = crit i (at_ t) ->
  wait_inv mon_addr (update i (set_at p ∘ f) s).
Proof using.
  intros HW Hi Hf Hk Hc. pose proof (wait_still s i f HW Hf) as HW'. destruct Hf as [Ha _ _ Hw], Hk as [k1 k2 k3 k4 k5].
  replace (update i (set_at p ∘ f) s) with (goto i p (update i f s)) by (unfold goto, update; cbn; by rewrite alter_alter_eq).
  apply (quiet_wait (update i f s) i (f t)); [done|cbn; by rewrite lookup_alter_eq, Hi| |by rewrite Ha|done|done].
  constructor; rewrite ?Ha; try done. revert k5. unfold asleep. cbn. by rewrite Ha, Hw.
Qed.

Definition set_doing (o : op) (t : Thread) : Thread := MkThread o (at_ t) (held t) (waitMutex t) (waitMonitor t) (interrupted t) (waitCond t).
Definition set_held (n : Z) (t : Thread) : Thread := MkThread (doing t) (at_ t) n (waitMutex t) (waitMonitor t) (interrupted t) (waitCond t).

Lemma start_wait s i : wait_inv mon_addr s -> i <> 0 -> threads s !! i = None -> wait_inv mon_addr (MkState (word s) (monitor s) (<[i := new_thread]> (threads s))).
Proof using.
  clear Hmon. intros [Hm Ht Hw Hs Hp] H0 Hi. constructor; cbn [threads].
  - intros k j Hk. unfold crits, mutexes. pose proof (Hm k j Hk) as H. unfold crits, mutexes in H.
    destruct (decide (k = i)) as [->|], (decide (j = i)) as [->|]; rewrite ?lookup_insert_eq, ?lookup_insert_ne by done; rewrite ?Hi in H; cbn in *; naive_solver.
  - intros k u j Hk Hj. assert (is_Some (threads s !! j)).
    { destruct (decide (k = i)) as [->|]; [rewrite lookup_insert_eq in Hk; by injection Hk as <-|rewrite lookup_insert_ne in Hk by done; by apply (Ht k u)]. }
    destruct (decide (j = i)) as [->|]; [by rewrite lookup_insert_eq|by rewrite lookup_insert_ne].
  - intros k u Hk. destruct (decide (k = i)) as [->|]; [rewrite lookup_insert_eq in Hk; by injection Hk as <-|rewrite lookup_insert_ne in Hk by done; by apply (Hw k u)].
  - destruct Hs as [Hnd Hin]. split; [done|]. intros j Hj. destruct (Hin j Hj) as (u & Hu & Hwu). exists u. split; [|done]. rewrite lookup_insert_ne; [done|congruence].
  - intros j u Hj Ha. destruct (decide (j = i)) as [->|]; [rewrite lookup_insert_eq in Hj; by injection Hj as <-|]. rewrite lookup_insert_ne in Hj by done.
    destruct (Hp j u Hj Ha) as [Hin|(k & v & Hv & Hpv)]; [by left|right]. exists k, v. rewrite lookup_insert_ne; [done|congruence].
Qed.

End Woken.
