(* ===== verification/SyncCorrect.v ===== *)
(** * Monitors: what they promise

    One thread at a time is inside; the errors are those of the contract; who waits is not
    forgotten; and threads do not block each other for ever. *)

From stdpp Require Import gmap.
From S2P Require Import Prelude Bits Sync SyncLock SyncSteps SyncWait.

(** How often a thread that is not in a call has entered; a call that is over counts. *)
Definition inside (t : Thread) : Z := match at_ t with Idle => held t | Done r => held_after (doing t) r (held t) | _ => 0 end.

Section Correct.
Context (mon_addr : Z) (Hmon : 0 < mon_addr < 2 ^ 32 /\ mon_addr mod 8 = 0).

Definition sync_inv (s : state) : Prop := exists l, lock_inv mon_addr s l /\ wait_inv mon_addr s.

(** ** Calls *)

Lemma lock_alter s l i t f : lock_inv mon_addr s l -> threads s !! i = Some t -> thread_ok mon_addr l i (f t) -> lock_inv mon_addr (update i f s) l.
Proof using.
  intros [Hs Hh Ht] Hi Hok. constructor; [done| |].
  - intros Hz. apply lookup_alter_is_Some. by apply Hh.
  - intros j u' Hj. apply alter_Some in Hj as (u & Hu & ->). destruct (decide (j = i)) as [->|]; [|by apply Ht].
    rewrite Hi in Hu. by injection Hu as <-.
Qed.

Lemma call_lock s l i t o : lock_inv mon_addr s l -> threads s !! i = Some t -> at_ t = Idle -> call_ok o t s -> thread_ok mon_addr l i (call o t).
Proof using.
  intros HI Hi E Ho. destruct (inv_threads _ _ _ HI i t Hi) as [h1 h2 hn h3 h4 h5]. unfold claim_of, at_limit in *. rewrite E in *.
  destruct o; constructor; cbn; try done; try (by eexists); try (by left); try (by right); try (by eexists _, _, _); by intros _; apply h5.
Qed.

Lemma call_wait s i t o : wait_inv mon_addr s -> threads s !! i = Some t -> at_ t = Idle -> call_ok o t s -> wait_inv mon_addr (update i (call o) s).
Proof using.
  intros HW Hi E Ho. change (call o) with (set_at (entry o) ∘ set_doing o). pose proof (wait_still mon_addr s i (set_doing o) HW ltac:(done)) as HW'.
  destruct o as [| | | | |j]; try (apply (goto_wait mon_addr _ _ t); [done|done|done|constructor; cbn; rewrite ?E; by auto|by rewrite E]).
  replace (update i (set_at (entry (ThreadInterrupt j)) ∘ set_doing (ThreadInterrupt j)) s) with (goto i (IntrLock j) (update i (set_doing (ThreadInterrupt j)) s))
    by (unfold goto, update; cbn; by rewrite alter_alter_eq).
  assert (Hi' : threads (update i (set_doing (ThreadInterrupt j)) s) !! i = Some (set_doing (ThreadInterrupt j) t)) by (cbn; by rewrite lookup_alter_eq, Hi).
  destruct HW' as [Hm Ht Hw Hs Hp]. constructor.
  - eapply (mutex_goto _ i); [done|exact Hi'|by cbn; rewrite E].
  - eapply (target_goto _ i); [done|exact Hi'|]. intros k [= <-]. by apply lookup_alter_is_Some.
  - eapply (monitor_keeps mon_addr _ i); [done|exact Hi'|by cbn; rewrite E].
  - eapply (set_keeps _ _ i); [done|exact Hi'|by cbn; rewrite E].
  - eapply (pending_goto _ _ i); [done|exact Hi'|left; by cbn; rewrite E|done].
Qed.

Lemma return_lock s l i t r : lock_inv mon_addr s l -> threads s !! i = Some t -> at_ t = Done r -> thread_ok mon_addr l i (return_ t r).
Proof using.
  intros HI Hi E. destruct (inv_threads _ _ _ HI i t Hi) as [h1 h2 hn h3 h4 h5]. unfold claim_of, at_limit, at_point in *. rewrite E in *.
  destruct h4 as (_ & _ & Hge). constructor; cbn; try done. split; [done|]. destruct (doing t); try (by apply h2).
  - specialize (hn eq_refl ltac:(done)). cbn. lia.
  - destruct r; cbn; lia.
Qed.

Lemma return_wait s i t r : wait_inv mon_addr s -> threads s !! i = Some t -> at_ t = Done r -> wait_inv mon_addr (update i (fun t => return_ t r) s).
Proof using.
  intros HW Hi E. change (fun t => return_ t r) with (set_at Idle ∘ (fun t => set_held (held_after (doing t) r (held t)) t)).
  by apply (goto_wait mon_addr _ _ t); [done|done|done|constructor; cbn; rewrite ?E; by auto|rewrite E].
Qed.

Lemma start_lock s l i : lock_inv mon_addr s l -> 0 < i < 2 ^ 16 -> threads s !! i = None -> lock_inv mon_addr (MkState (word s) (monitor s) (<[i := new_thread]> (threads s))) l.
Proof using.
  intros [Hs Hh Ht] Hid Hi. assert (Hne : holder l <> i) by (intros E; destruct (Hh ltac:(lia)) as [u Hu]; congruence). constructor; [done| |].
  - intros Hz. cbn. rewrite lookup_insert_ne by done. by apply Hh.
  - intros j u Hj. cbn in Hj. destruct (decide (j = i)) as [->|]; [|rewrite lookup_insert_ne in Hj by done; by apply Ht].
    rewrite lookup_insert_eq in Hj. injection Hj as <-. by constructor.
Qed.

(** ** Every reachable state *)

Lemma step_inv s s' : sync_inv s -> step mon_addr s s' -> sync_inv s'.
Proof using Hmon.
  intros (l & HI & HW) Hstep. destruct Hstep as [s i s' Hstep|s i t o Hi E Ho|s i t r Hi E|s i Hid Hi].
  - unfold thread_step, with_thread in Hstep. destruct (threads s !! i) as [t|] eqn:Hi; [|done].
    pose proof (ok_id _ _ _ _ (inv_threads _ _ _ HI i t Hi)) as Hid.
    assert (Hstep' : thread_step mon_addr i s = Next s') by (unfold thread_step, with_thread; by rewrite Hi).
    pose proof (thread_step_good mon_addr Hmon s l i t HI Hi ltac:(apply (wait_sleep_ok mon_addr s i t HW); [lia|done])) as Hg. rewrite Hstep' in Hg. destruct Hg as [l' HI'].
    exists l'. split; [done|]. destruct (step_effect mon_addr s i t s' Hi Hstep') as (p & s0 & -> & He). apply (effect_wait mon_addr Hmon s l i t HI HW); [lia|done|done].
  - exists l. split; [|by apply (call_wait s i t)]. apply (lock_alter s l i t); [done|done|by apply (call_lock s)].
  - exists l. split; [|by apply (return_wait s i t)]. apply (lock_alter s l i t); [done|done|by apply (return_lock s)].
  - exists l. split; [by apply start_lock|apply start_wait; [done|lia|done]].
Qed.

Lemma start_inv hash : 0 <= hash < 4 -> sync_inv (start hash).
Proof using.
  intros Hh. exists (Thin hash 0 0 None). split.
  - constructor; [|done|by intros i t Hi]. split; [|by split_and!; [apply free_thin|done|done]].
    cbn [start word]. unfold LW_HASH_STATE_SHIFT, thin_word. rewrite Z.shiftl_mul_pow2 by lia. lia.
  - constructor; cbn; try by intros ?.
    + by split; [constructor|intros j ?%elem_of_nil].
Qed.

Lemma reachable_inv hash s : 0 <= hash < 4 -> reachable mon_addr hash s -> sync_inv s.
Proof using Hmon.
  intros Hh Hr. assert (G : forall a b, rtc (step mon_addr) a b -> sync_inv a -> sync_inv b) by (induction 1; eauto using step_inv).
  apply (G _ _ Hr). by apply start_inv.
Qed.

(** ** Who is inside *)

Lemma inside_holds l i t : thread_ok mon_addr l i t -> 0 < inside t -> holder l = i.
Proof using.
  intros Ok Hp. pose proof (ok_claim _ _ _ _ Ok) as Hc. unfold inside, claim_of in *. destruct (at_ t); try lia;
    (rewrite held_pos in Hc by lia; destruct l; cbn in Hc; cbn; lia).
Qed.

(** C3. Locks exclude each other: from an object that nobody locked, whatever any number of
    threads call and however their accesses interleave, no assertion of [Sync.cpp] fails,
    nothing is read through a pointer that is not there and no mutex is taken twice by a
    thread or left by one that does not hold it; two threads are never inside at once;
    [dvmLockObject] always ends with the lock held, and the other calls report
    [IllegalMonitorState] exactly when their thread is not inside. *)
Theorem monitors_exclude hash s : 0 <= hash < 4 -> reachable mon_addr hash s ->
  (forall i, is_Some (threads s !! i) -> thread_step mon_addr i s <> Failed) /\
  (forall i j t u, threads s !! i = Some t -> threads s !! j = Some u -> 0 < inside t -> 0 < inside u -> i = j) /\
  (forall i t r, threads s !! i = Some t -> at_ t = Done r ->
     match doing t with LockObject => r = Returns | ThreadInterrupt _ => True | _ => r = IllegalMonitorState <-> held t = 0 end).
Proof using Hmon.
  intros Hh Hr. destruct (reachable_inv hash s Hh Hr) as (l & HI & HW). pose proof (inv_threads _ _ _ HI) as Ht. split; [|split].
  - intros i [t Hi] Hf. pose proof (ok_id _ _ _ _ (Ht i t Hi)) as Hid.
    pose proof (thread_step_good mon_addr Hmon s l i t HI Hi ltac:(apply (wait_sleep_ok mon_addr s i t HW); [lia|done])) as Hg. by rewrite Hf in Hg.
  - intros i j t u Hi Hj Hpi Hpj. by rewrite <- (inside_holds l i t), <- (inside_holds l j u) by auto.
  - intros i t r Hi E. pose proof (ok_point _ _ _ _ (Ht i t Hi)) as Hp. unfold at_point in Hp. rewrite E in Hp. destruct Hp as (H1 & H2 & _).
    destruct (doing t) eqn:Ed; try done; [by apply H1|..]; apply H2; unfold waits, notifies; rewrite Ed; eauto 10.
Qed.

(** ** Who waits *)

Definition sleeps (t : Thread) : Prop := exists mon prev throws, at_ t = WaitBlocked mon prev throws.

(** C4. No waiter is forgotten: a thread that sleeps in [dvmObjectWait] and was not signalled
    since is in the wait set, or a notifier took it out and is about to signal it; so when a
    notifier finds the wait set empty and returns, all who sleep were signalled. *)
Theorem no_waiter_is_forgotten hash s : 0 <= hash < 4 -> reachable mon_addr hash s ->
  (forall j u, threads s !! j = Some u -> sleeps u -> waitCond u = false -> pending (waiters s) (threads s) j) /\
  (forall i t mon all, threads s !! i = Some t -> at_ t = NotifyLoop mon all -> thread_step mon_addr i s = Next (goto i (Done Returns) s) ->
     forall j u, threads s !! j = Some u -> sleeps u -> waitCond u = true).
Proof using Hmon.
  intros Hh Hr. destruct (reachable_inv hash s Hh Hr) as (l & HI & HW).
  assert (Hpend : forall j u, threads s !! j = Some u -> sleeps u -> waitCond u = false -> pending (waiters s) (threads s) j).
  { intros j u Hj (x & y & z & Eu) Hw. apply (wi_pending _ _ HW j u); [done|]. unfold asleep. by rewrite Eu, Hw. }
  split; [done|]. intros i t mon all Hi E Hstep j u Hj Hs. destruct (waitCond u) eqn:Hw; [done|]. exfalso.
  pose proof (inv_threads _ _ _ HI i t Hi) as Oi. pose proof (ok_claim _ _ _ _ Oi) as Ci. pose proof (ok_point _ _ _ _ Oi) as Hp.
  unfold claim_of, at_point in *. rewrite E in *. destruct Hp as (_ & -> & Hf & _), l as [|h m]; [done|].
  pose proof (inv_shows _ _ _ HI) as (_ & _ & Hm & _). destruct (Hpend j u Hj Hs Hw) as [Hin|(k & v & Hk & Hpops)].
  - unfold waiters in Hin. rewrite Hm in Hin. unfold thread_step in Hstep. rewrite (with_thread_eq s i t) in Hstep by done. rewrite E in Hstep. cbn [dvmObjectNotify_step notifyMonitor_step] in Hstep.
    rewrite (with_monitor_eq mon_addr s m) in Hstep by done. destruct (waitSet m) as [|a rest]; [by apply elem_of_nil in Hin|].
    apply (f_equal (fun o => match o with Next x => at_ <$> threads x !! i | _ => None end)) in Hstep.
    cbn in Hstep. by rewrite !lookup_alter_eq, Hi in Hstep.
  - pose proof (ok_claim _ _ _ _ (inv_threads _ _ _ HI k v Hk)) as Ck. unfold claim_of in Ck. assert (k = i) as -> by (destruct (at_ v); try done; cbn in Ck, Ci; lia).
    rewrite Hi in Hk. injection Hk as <-. by rewrite E in Hpops.
Qed.

(** ** Who can go on *)

Definition blocked (i : Z) (t : Thread) (s : state) : Prop := thread_step mon_addr i s = Blocked /\ at_ t <> Idle /\ forall r, at_ t <> Done r.

Lemma crit_steps s i t j : threads s !! i = Some t -> crit i (at_ t) = Some j -> thread_step mon_addr i s <> Blocked.
Proof using.
  intros Hi Hc Hb. unfold thread_step in Hb. rewrite (with_thread_eq s i t) in Hb by done.
  destruct (at_ t); try done; cbn [dvmObjectWait_step waitMonitor_step dvmObjectNotify_step notifyMonitor_step dvmThreadInterrupt_step] in Hb;
    unfold with_monitor, with_thread, check in Hb; repeat case_match; done.
Qed.

(** What a thread is blocked by: the mutex of the monitor or of a thread. *)
Lemma blocked_by s l i t : lock_inv mon_addr s l -> threads s !! i = Some t -> blocked i t s ->
  (holder l <> 0 /\ claim_of t = Free) \/ exists j u, threads s !! j = Some u /\ waitMutex u <> 0.
Proof using.
  intros HI Hi (Hb & Hidle & Hdone). pose proof (ok_point _ _ _ _ (inv_threads _ _ _ HI i t Hi)) as Hp. pose proof (inv_shows _ _ _ HI) as Hs.
  unfold thread_step in Hb. rewrite (with_thread_eq s i t) in Hb by done. unfold at_point, claim_of in *.
  destruct (at_ t) eqn:E; try done; try (by destruct (Hdone r));
    cbn [dvmLockObject_step inflateMonitor_step lockMonitor_step dvmUnlockObject_step unlockMonitor_step dvmObjectWait_step waitMonitor_step
    dvmObjectNotify_step notifyMonitor_step dvmThreadInterrupt_step] in Hb;
    unfold check, lock_mutex in Hb; try (unfold with_monitor, with_thread in Hb; by repeat case_match).
  - left. destruct Hp as (_ & -> & Hf), l as [|h m]; [done|]. destruct Hs as (_ & _ & Hm & _). rewrite (with_monitor_eq mon_addr s m) in Hb by done.
    split; [|done]. cbn. by destruct (Z.eqb_spec (lock m) 0).
  - right. exists i, t. split; [done|]. by destruct (Z.eqb_spec (waitMutex t) 0).
  - right. exists i, t. split; [done|]. by destruct (Z.eqb_spec (waitMutex t) 0).
  - right. unfold with_thread in Hb. destruct (threads s !! thread) as [u|] eqn:Eu; [|done]. exists thread, u. split; [done|]. by destruct (Z.eqb_spec (waitMutex u) 0).
  - right. unfold with_thread in Hb. destruct (threads s !! thread) as [u|] eqn:Eu; [|done]. exists thread, u. split; [done|]. by destruct (Z.eqb_spec (waitMutex u) 0).
Qed.

(** C5. No deadlock inside [Sync.cpp]: when a thread is blocked in one of its routines, a
    thread that does not sleep can take a step in one of them, or the thread that is inside
    is in none of them, before it leaves. *)
Theorem monitors_do_not_deadlock hash s i t : 0 <= hash < 4 -> reachable mon_addr hash s -> threads s !! i = Some t -> blocked i t s ->
  (exists k u s', threads s !! k = Some u /\ ~ sleeps u /\ thread_step mon_addr k s = Next s') \/ (exists k u, threads s !! k = Some u /\ 0 < inside u).
Proof using Hmon.
  intros Hh Hr Hi Hb. destruct (reachable_inv hash s Hh Hr) as (l & HI & HW). pose proof (inv_threads _ _ _ HI) as Ht.
  assert (Hnf : forall k u, threads s !! k = Some u -> ~ sleeps u -> thread_step mon_addr k s <> Blocked ->
    exists k u s', threads s !! k = Some u /\ ~ sleeps u /\ thread_step mon_addr k s = Next s').
  { intros k u Hk Hs Hne. pose proof (ok_id _ _ _ _ (Ht k u Hk)) as Hid. exists k, u.
    pose proof (thread_step_good mon_addr Hmon s l k u HI Hk ltac:(apply (wait_sleep_ok mon_addr s k u HW); [lia|done])) as Hg.
    destruct (thread_step mon_addr k s); [by eexists|done|done]. }
  assert (Hmutex : forall j u, threads s !! j = Some u -> waitMutex u <> 0 -> exists k u s', threads s !! k = Some u /\ ~ sleeps u /\ thread_step mon_addr k s = Next s').
  { intros j u Hj Hm. assert (Hc : crits (threads s) (waitMutex u) = Some j) by (apply (wi_mutex _ _ HW); [done|]; unfold mutexes; by rewrite Hj).
    apply bind_Some in Hc as (v & Hv & Hc). apply (Hnf (waitMutex u) v Hv); [|by apply (crit_steps s _ v j)]. intros (x & y & z & E). by rewrite E in Hc. }
  destruct (blocked_by s l i t HI Hi Hb) as [[Hz _]|(j & u & Hj & Hm)]; [|left; by apply (Hmutex j u)].
  destruct (inv_holder _ _ _ HI Hz) as [u Hu]. pose proof (ok_claim _ _ _ _ (Ht _ u Hu)) as Hc.
  assert (Hfree : claim_of u <> Free) by (intros E; rewrite E in Hc; done).
  destruct (decide (0 < inside u)) as [Hin|Hin]; [right; by eexists _, _|left].
  destruct (thread_step mon_addr (holder l) s) eqn:Es; [| |apply (Hnf _ u Hu); [|by rewrite Es]]; try (intros (x & y & z & E); unfold claim_of in Hfree; by rewrite E in Hfree).
  - apply (Hnf _ u Hu); [|by rewrite Es]. intros (x & y & z & E). unfold claim_of in Hfree. by rewrite E in Hfree.
  - assert (Hbu : blocked (holder l) u s).
    { pose proof (ok_held _ _ _ _ (Ht _ u Hu)) as Hheld. pose proof (ok_point _ _ _ _ (Ht _ u Hu)) as Hp. split; [done|].
      unfold claim_of, inside, at_point, held_claim in *. destruct (at_ u); try done; repeat case_match; try done; lia. }
    destruct (blocked_by s l _ u HI Hu Hbu) as [[_ Hf]|(j & v & Hj & Hm)]; [done|by apply (Hmutex j v)].
Qed.

End Correct.
