(* ===== verification/SyncExample.v ===== *)
(** * Monitors: two threads run

    Schedules that can be run: the first thread waits, the second notifies it. *)

From stdpp Require Import gmap.
From S2P Require Import Prelude Bits Sync SyncWait SyncCorrect.

(** What happens next: a thread starts, calls, makes a number of accesses, returns. *)
Inductive event := Starts (i : Z) | Calls (i : Z) (o : op) | Runs (i : Z) (n : nat) | Ends (i : Z).

Definition call_okb (o : op) (t : Thread) (s : state) : bool :=
  match o with
  | LockObject => held t <? max_nesting
  | ThreadInterrupt thread => match threads s !! thread with Some _ => true | None => false end
  | _ => true
  end.

Section Run.
Context (mon_addr : Z).

Fixpoint runs (n : nat) (i : Z) (s : state) : option state :=
  match n with O => Some s | S n => match thread_step mon_addr i s with Next s' => runs n i s' | _ => None end end.

Definition happens (e : event) (s : state) : option state :=
  match e with
  | Starts i =>
      if (0 <? i) && (i <? 2 ^ 16)
      then match threads s !! i with None => Some (MkState (word s) (monitor s) (<[i := new_thread]> (threads s))) | Some _ => None end else None
  | Calls i o =>
      match threads s !! i with
      | Some t => match at_ t with Idle => if call_okb o t s then Some (update i (call o) s) else None | _ => None end
      | None => None
      end
  | Runs i n => runs n i s
  | Ends i => match threads s !! i with Some t => match at_ t with Done r => Some (update i (fun t => return_ t r) s) | _ => None end | None => None end
  end.

Fixpoint schedule (es : list event) (s : state) : option state :=
  match es with [] => Some s | e :: es => match happens e s with Some s' => schedule es s' | None => None end end.

Lemma runs_steps n i s s' : runs n i s = Some s' -> rtc (step mon_addr) s s'.
Proof using.
  revert s. induction n as [|n IH]; intros s; cbn [runs]; [by intros [= ->]|]. destruct (thread_step mon_addr i s) as [s1| |] eqn:E; [|done|done].
  intros H. apply (rtc_l _ _ s1); [by apply (step_thread _ _ i)|by apply IH].
Qed.

Lemma happens_steps e s s' : happens e s = Some s' -> rtc (step mon_addr) s s'.
Proof using.
  destruct e as [i|i o|i n|i]; cbn [happens]; [| |apply runs_steps|].
  - destruct (Z.ltb_spec 0 i), (Z.ltb_spec i (2 ^ 16)); try done. destruct (threads s !! i) eqn:E; [done|]. intros [= <-]. by apply rtc_once, step_start.
  - destruct (threads s !! i) as [t|] eqn:Hi; [|done]. destruct (at_ t) eqn:E; try done. destruct (call_okb o t s) eqn:Ho; [|done]. intros [= <-].
    apply rtc_once, (step_call _ _ _ t); [done|done|]. destruct o as [| | | | |j]; cbn in *; try done; [by apply Z.ltb_lt|].
    by destruct (threads s !! j).
  - destruct (threads s !! i) as [t|] eqn:Hi; [|done]. destruct (at_ t) eqn:E; try done. intros [= <-]. by apply rtc_once, (step_return _ _ _ t).
Qed.

Lemma schedule_reachable es hash s : schedule es (start hash) = Some s -> reachable mon_addr hash s.
Proof using.
  unfold reachable. generalize (start hash). induction es as [|e es IH]; intros s0; cbn [schedule]; [by intros [= ->]|].
  destruct (happens e s0) as [s1|] eqn:E; [|done]. intros H. etrans; [by apply (happens_steps e)|by apply IH].
Qed.

End Run.

Definition mon : Z := 0x4000.

(** The first thread enters twice and waits, the second is inside and about to notify. *)
Definition sleeping : list event :=
  [Starts 1; Starts 2; Calls 1 LockObject; Runs 1 2; Ends 1; Calls 1 LockObject; Runs 1 4; Ends 1; Calls 1 (ObjectWait 0 0 true); Runs 1 10;
   Calls 2 LockObject; Runs 2 5; Ends 2; Calls 2 ObjectNotify; Runs 2 2].

(** The second notifies and returns, the first wakes and wants the monitor back. *)
Definition blocked_out : list event := sleeping ++ [Runs 2 4; Ends 2; Runs 1 5].

(** The second leaves, the first returns from its wait. *)
Definition back : list event := blocked_out ++ [Calls 2 UnlockObject; Runs 2 5; Ends 2; Runs 1 3; Ends 1].

(** A thread was interrupted before it waits, while another spins for a thin lock. *)
Definition interrupted_early : list event :=
  [Starts 1; Starts 2; Calls 1 LockObject; Runs 1 2; Ends 1; Calls 2 LockObject; Runs 2 3; Calls 1 (ThreadInterrupt 1); Runs 1 5; Ends 1; Calls 1 (ObjectWait 5 0 true); Runs 1 10].

Definition after (es : list event) : state := match schedule mon es (start 1) with Some s => s | None => start 0 end.

Definition points (s : state) : option point * option point * option Z := (at_ <$> threads s !! 1, at_ <$> threads s !! 2, inside <$> threads s !! 1).

Example points_sleeping : points (after sleeping) = (Some (WaitBlocked mon 1 true), Some (NotifyLoop mon false), Some 0).
Proof. vm_compute. reflexivity. Qed.
Example points_blocked_out : points (after blocked_out) = (Some (MonBlock mon (ToDone 1 false true)), Some Idle, Some 0).
Proof. vm_compute. reflexivity. Qed.
Example points_back : points (after back) = (Some Idle, Some Idle, Some 2).
Proof. vm_compute. reflexivity. Qed.
Example points_interrupted : points (after interrupted_early) = (Some (Done Interrupted), Some SpinRead, Some 1).
Proof. vm_compute. reflexivity. Qed.

Lemma after_reachable es : match schedule mon es (start 1) with Some _ => true | None => false end = true -> reachable mon 1 (after es).
Proof. unfold after. destruct (schedule mon es (start 1)) eqn:E; [|done]. intros _. by apply (schedule_reachable mon es). Qed.

Lemma mon_aligned : 0 < mon < 2 ^ 32 /\ mon mod 8 = 0.
Proof. by vm_compute. Qed.

(** While the first sleeps and the second is inside; and after it was interrupted, it is inside. *)
Lemma monitors_exclude_witness :
  inside <$> threads (after back) !! 1 = Some 2 /\
  (forall i, is_Some (threads (after sleeping) !! i) -> thread_step mon i (after sleeping) <> Failed) /\
  (forall j u, threads (after back) !! j = Some u -> 0 < inside u -> 1 = j).
Proof.
  assert (H0 : 0 <= 1 < 4) by lia. split; [by vm_compute|]. split.
  - apply (monitors_exclude mon mon_aligned 1 (after sleeping) H0). apply after_reachable. vm_compute. reflexivity.
  - intros j u Hj Hu. destruct (threads (after back) !! 1) as [t|] eqn:Hi; [|exfalso; vm_compute in Hi; discriminate].
    apply (proj1 (proj2 (monitors_exclude mon mon_aligned 1 (after back) H0 ltac:(apply after_reachable; vm_compute; reflexivity))) 1 j t u Hi Hj); [|exact Hu].
    assert (E : inside <$> threads (after back) !! 1 = Some 2) by (vm_compute; reflexivity). rewrite Hi in E. cbn in E. injection E as ->. lia.
Defined.

(** The first thread sleeps and was not signalled: the second finds it. *)
Lemma no_waiter_is_forgotten_witness :
  (exists u, threads (after sleeping) !! 1 = Some u /\ sleeps u /\ waitCond u = false) /\ pending (waiters (after sleeping)) (threads (after sleeping)) 1.
Proof.
  assert (Hex : exists u, threads (after sleeping) !! 1 = Some u /\ sleeps u /\ waitCond u = false).
  { destruct (threads (after sleeping) !! 1) as [u|] eqn:Hu; [|exfalso; vm_compute in Hu; discriminate]. exists u. split; [reflexivity|].
    vm_compute in Hu. injection Hu as <-. split; [by eexists _, _, _|reflexivity]. }
  split; [exact Hex|]. destruct Hex as (u & Hu & Hs & Hw).
  apply (proj1 (no_waiter_is_forgotten mon mon_aligned 1 (after sleeping) ltac:(lia) ltac:(apply after_reachable; vm_compute; reflexivity)) 1 u Hu Hs Hw).
Defined.

(** The first thread wants the monitor back from the second. *)
Lemma monitors_do_not_deadlock_witness :
  (exists t, threads (after blocked_out) !! 1 = Some t /\ blocked mon 1 t (after blocked_out)) /\
  ((exists k u s', threads (after blocked_out) !! k = Some u /\ ~ sleeps u /\ thread_step mon k (after blocked_out) = Next s') \/
   (exists k u, threads (after blocked_out) !! k = Some u /\ 0 < inside u)).
Proof.
  assert (Hex : exists t, threads (after blocked_out) !! 1 = Some t /\ blocked mon 1 t (after blocked_out)).
  { destruct (threads (after blocked_out) !! 1) as [u|] eqn:Hu; [|exfalso; vm_compute in Hu; discriminate]. exists u. split; [reflexivity|].
    split; [vm_compute; reflexivity|]. vm_compute in Hu. injection Hu as <-. split; [discriminate|intros r; discriminate]. }
  split; [exact Hex|]. destruct Hex as (t & Ht & Hb).
  apply (monitors_do_not_deadlock mon mon_aligned 1 (after blocked_out) 1 t ltac:(lia) ltac:(apply after_reachable; vm_compute; reflexivity) Ht Hb).
Defined.
